(* ===== verification/_CoqProject ===== *)
-Q . S2P
Prelude.v
RecordUpdate.v
Prog.v
Channel.v
BTreeMap.v
RustStr.v
ExchangeTypes.v
Demo.v
Book.v
BookMatch.v
BookInv.v
BookProps.v
BookOps.v
BookTheorems.v
MoveType.v
Crates.v
Signing.v
F64.v
Router.v
RouterTheorems.v
Ladders.v
Repo.v
RepoProps.v
RepoTheorems.v
Intake.v
Db.v
IntakeTheorems.v
Settlement.v
Asset.v
BucketSpec.v
BucketSpecTheorems.v
Discovery.v
Json.v
Events.v
Wire.v
Sync.v
State.v
Service.v
Handlers.v
ServiceInv.v
ServiceTasks.v
ServiceBoot.v
ServiceDemo.v
SyncTheorems.v
ServiceTheorems.v
ServiceFindings.v
Quote.v
Quoting.v
QuotingService.v
QuotingProps.v
QuotingTheorems.v
SuiTx.v
HedgePolicy.v
BluefinPolicy.v
BluefinProxy.v
HedgeService.v
HedgeTheorems.v
HedgeSafety.v
GasTemplate.v
GasStation.v
GasTheorems.v
CctpRelay.v
CctpTheorems.v
Keeper.v
KeeperTheorems.v
IndexerEvents.v
IndexerStore.v
IndexerRows.v
IndexerApply.v
IndexerStage.v
IndexerRepo.v
IndexerTypes.v
IndexerWorker.v
IndexerTable.v
IndexerWf.v
IndexerSync.v
IndexerPersist.v
IndexerHistory.v
IndexerDemo.v
IndexerTheorems.v
