(* ===== verification/Prelude.v ===== *)
(** Verification of the off-chain services of the SuiOptions repository
    ([src/rust-backend]): the hybrid exchange, whose order book and matching
    run off chain and whose settlement runs on chain, the RFQ quoting
    service, which collects signed option quotes from market makers, the
    hedge signer, which holds half of the key of each vault's venue account,
    the gas station, which pays for the transactions of users, the CCTP relay,
    which completes transfers between chains, the keeper, which cranks the
    trading vaults, and the indexer, which turns the events of the chain into views and tables.

    * The program

    A client signs an order ([crates/exchange-types],
    [crates/exchange-signing]) and posts it to the order-book service
    ([services/orderbook]).  [intake.rs] checks it against the market, the
    signature, the maker's escrow and salts as the store ([db/]) mirrors them,
    and records it; the handler places it in the market's book
    ([crates/exchange-book]) and queues the matches.  [settlement.rs] turns a
    match into a transaction; its outcome is applied to the book by the
    worker of [main.rs].  [sync.rs] polls chain events into the store and
    passes them to [main.rs], which adjusts the books: fills, cancellations,
    withdrawals that leave orders uncovered.  [handlers.rs] is the REST
    surface, with routes over several markets planned by
    [crates/exchange-router] on the ladders of [ladders.rs].
    [discovery.rs] builds markets from events with the help of the asset and
    bucket encodings of [crates/protocol-types].

    A retail client of [services/quoting-service] asks for quotes for the
    economics of an option ([BucketSpec]).  [ws/retail.rs] admits the request
    within the permits of the session and of the service, [rfq/mod.rs]
    broadcasts it to the makers that [ws/mm.rs] authenticated and registered,
    collects what they answer within a window ([rfq/matcher.rs]), validates
    each signed quote, and sends the accepted ones best first.
    [rfq/bulk_view.rs] serves indicative premiums from a cache refreshed by
    one task per key.

    [services/hedge-signer] runs a two-round key generation with a vault's
    curator, keeps the service's share ([frost.rs]), and contributes to a
    two-round signature when the payload passes the policy of the vault
    ([policy.rs], [policy/bluefin.rs]): a venue login, an authorization, a
    withdrawal, a deposit, or a sweep back to the vault.  [handlers.rs]
    countersigns sweeps with the service's own key; [chain.rs] looks vaults
    up; [main.rs] prunes an orphaned share.

    [services/gas-station] attaches its own coins to the transaction of a user
    and signs it, if it has the shape of one that the front end builds
    ([crates/sui-tx/src/tx/template.rs]) and a dry run of it succeeds
    ([tx/sponsor.rs]); [tx/mod.rs] and [chain.rs] choose the gas payment of the
    services' own transactions and submit them.

    [services/cctp-relay] registers burns of a stablecoin on one chain
    ([router.rs]), waits for their attestation ([watcher.rs], [iris.rs],
    [message.rs]) and submits and confirms the mint on the other ([relayer.rs],
    [sui_mint.rs], [solana_mint.rs]), with one row per transfer ([db/repo.rs]).

    [services/keeper] looks at every trading vault on each tick
    ([trading_vault.rs]): it settles what is due, redeems what expired, sweeps
    what came in, posts the value of external accounts ([venue_equity.rs]) and
    the volatilities, and then pays the queue of withdrawals under an appraisal
    of the vault, or refreshes its capital, or settles a closed vault.  The
    vaults fail one by one, each with a backoff of its own.

    [services/indexer] reads the checkpoints of the chain.  [event_types.rs]
    knows the events of the deployed packages and decodes them
    ([protocol-types/events.rs]); [worker.rs] ties the pools, fills and markets
    of other packages to option buckets, hands the events of a checkpoint to
    the store, and writes what the store stages.  [store/mod.rs] keeps twelve
    views (buckets, positions, auctions, vaults, trading vaults, ...), changes
    them by each event and stages the rows it touched; [db/] writes the rows of
    a checkpoint, the event log and the progress in one transaction and reads
    the views back at boot ([main.rs]).

    * How it is modelled

    Values: a machine integer is a [Z] with the wrap-around or saturation of
    the operator written out, a Rust string a list of code points, a hash map
    a [gmap], a [BTreeMap] a sorted association list, an [f64] a binary64 of
    the Standard Library.  Failure is [result] (errors as the source's enums)
    or [option] (a panic, where a definition can reach one).

    Asynchronous code ([Prog]) is a program over the shared state: one action
    per database call, critical section, map access or channel operation;
    [sched] runs several under any schedule, [sched_within] makes an action
    wait that would overfill a channel.  [safe] proves an invariant and a
    guarantee of tasks that interfere; the owned programs add resources, tokens
    that a task takes and gives back.  Third-party crates are classes of functions
    with their documented laws as a second class ([Crates], [Events], [Wire]);
    the concrete instances used by the examples satisfy the laws.

    * The files

    Foundations: [Prelude], [Prog], [Channel]
    (tokio's bounded channel), [BTreeMap], [RustStr], [F64], [Json],
    [Crates], [Demo] (shared concrete values).

    The exchange crates: [ExchangeTypes] ([types.rs], [math.rs], [order.rs],
    [market.rs]), [MoveType] (type normalization), [Signing], [Book] with
    [BookMatch], [BookInv], [BookProps], [BookOps] and [BookTheorems]; [Router] with
    [RouterTheorems]; [Wire] (the JSON formats).

    The order-book service: [Ladders], [Repo] (the queries of [db/] as
    functions of the tables) with [RepoProps] and [RepoTheorems], [Db] (the
    asynchronous facade), [Intake] (against the interface [IntakeState], which
    [Db] discharges) with [IntakeTheorems], [Settlement],
    [Discovery], [Events] (event paging of [crates/sui-tx]), [Sync], [State],
    [Service] ([main.rs]), [Handlers]; [ServiceInv], [ServiceTasks],
    [ServiceBoot] and the first part of [SyncTheorems] prove that every task
    follows one protocol; [ServiceTheorems] and [SyncTheorems] state the
    results.

    Protocol types: [Asset], [BucketSpec], [Quote].

    The RFQ service: [Quoting] (values, validation, ranking),
    [QuotingService] (the programs), [QuotingProps] (the invariant over state
    and tokens, and that every task keeps it), [QuotingTheorems].

    The hedge signer: [HedgePolicy] (transactions, policies, sweeps),
    [BluefinPolicy] (venue payloads and digests), [BluefinProxy] (the relay),
    [HedgeService] (store, ceremonies, handlers), [HedgeTheorems] (what the
    policy guarantees), [HedgeSafety] (the invariant, over state and tokens,
    and that every task keeps it).

    The gas station: [SuiTx] (the transactions of the SDK, shared with the
    hedge signer), [GasTemplate] (templates and matching), [GasStation]
    (sponsoring, submission, handlers), [GasTheorems] (the shape a template
    describes, and the results).

    The CCTP relay: [CctpRelay] (messages, rows, watcher, relayer, mints, API),
    [CctpTheorems] (the history of a row, the invariant, and the results).

    The keeper: [Keeper] (marks, holdings, the queue, the cranks, the tick),
    [KeeperTheorems] (what a program changes, and the results).

    The indexer: [RecordUpdate] (updates of record fields), [IndexerEvents]
    (events and identifiers), [IndexerTypes] (subscriptions and decoding),
    [IndexerStore] (the views), [IndexerApply] ([apply_event], a definition for
    every arm), [IndexerRows] (rows and conversions), [IndexerStage]
    ([stage_batch]), [IndexerRepo] (tables, [apply_checkpoint], [hydrate],
    [boot]), [IndexerWorker] ([process_checkpoint]).  [IndexerTable] says when
    a table holds a view and has one lemma for every way of writing a table;
    it also has the round trips of rows; [IndexerWf] has the ranges of the
    views and the twelve tables; [IndexerSync] shows that one event keeps
    tables and views in step, [IndexerPersist] that a checkpoint and a boot do;
    [IndexerHistory] has what decoding guarantees, the runs with failed writes
    and restarts and their invariant, and a checkpoint written twice;
    [IndexerTheorems] states the results.

    [ServiceDemo], [IndexerDemo] and the first parts of [QuotingTheorems] and
    [HedgeTheorems] hold concrete services; [ServiceFindings] and the last parts
    of those files record, as theorems, behaviours that the comments of the
    source do not promise.

    * What the theorems show

    - The matching engine (C1-C7, C9): the index and the two sides of a book
      agree in every reachable book; matching is the greedy allocation in
      price-time order and terminates; over any history of calls no order is
      passed over for a worse price or a later arrival, where a rematched order
      arrives again, at the back of its level; the exact effect of [place] on
      every branch; no crossing liquidity is left behind; failed and successful
      settlements restore and conserve amounts; price and size arithmetic
      never wraps on accepted orders; that the depth snapshot is exact is a lemma.
    - Types and signatures (C12, C13): the order
      digest binds the order and the registry; verification accepts exactly
      the authorized signatures, and malleable ones are rejected.
    - The gas station (C14, C25, C29): matching decides the declared shape of a
      template; what is sponsored calls deployed packages only, but for one
      release within an option flow; budget and coins stay within the policy.
      Transfers and splits are not looked at: [gas_coin_unguarded].
    - Routing (C15-C17, C19): plans stay within budgets, account for their input
      and terminate without a panic; ladders built from a book are what the
      planner needs; that path enumeration is exact is a lemma.
    - The store and intake (C20-C23): the tables stay well formed under any
      operations and outages and only extend their history; fill events can be
      replayed and reordered; an intake accepts what passes its checks and
      refuses with the code of the first that fails, and sequential intakes
      keep every escrow covered.
    - The keeper (C18, C26): the crank of a vault leaves what is kept of the
      others alone and its failures make only itself wait; a fulfillment pays
      the queue in order, in assets the vault holds and that are attested.  The
      steps of a mark stay within the band of the chain and come to rest
      ([marks_come_to_rest]); [late_requests_abandoned] shows requests of a
      closed vault that are never paid.
    - Encodings: that the coin types of options round-trip, the JSON round trips
      and exact decimal encodings are lemmas.
    - The service (C30, C31, C33, C34): one invariant over tables, books and queues under
      every interleaving of handlers, ingestor, consumer and settlement
      worker; cancellations are authorized; a
      poll of the ingestor applies its page once and in order or moves no
      cursor, and the ingestor drains a finite log.
    - The RFQ service (C36-C39): the pruned nonce table answers like a full log; under
      every interleaving the responses are signed for what was asked, ranked
      and answer a request of their session, no live quote is sent twice, and
      permits and refresh claims are conserved and come back, as long as the
      clients read what they are sent ([unread_client_keeps_permits]).

    - The hedge signer (C8, C28, C40): the transactions it endorses are
      exactly the sweeps and pay the vault, its accounts or the allowlisted
      vault that the sweep names ([sweep_to_another_vault]), the coin module
      apart; a digest binds the kind and the bytes of the payload it was
      approved for; under every interleaving signing nonces are used once, for
      approved messages only, and shares are never replaced.
    - The indexer (C11, C24, C27, C32): in every run, with writes that fail and
      restarts, the views are those of a replay of the chain, the configuration
      of vaults apart, and booting gives them back; the log numbers every event
      once and without a gap; the next checkpoint is written, no constraint
      refuses a row.  This holds as long as no process retries a checkpoint
      whose write failed: the retry counts its events twice
      ([retried_run_counts_twice]).  Writing a checkpoint twice is refused; that
      each event is decoded as what it is is a lemma.
    - The CCTP relay (C10, C35): under every interleaving a transfer goes
      through its state machine, once per burn, and is never lost; the message
      format decodes exactly.

    What the chain is taken to guarantee the indexer is [admissible] and
    [follows]: identifiers of new objects are new, a range of a bucket is
    written once, a pool or market is announced once for a known bucket,
    checkpoints come in order and their transactions have distinct digests.

    * Fuel and bounds

    The loop of [match_incoming] and the planner take fuel computed from their
    input (the orders of a side; the hops and segments of the ladders); C2 and
    C16 show that it does not run out.  [strip_zeros] and [collect] recurse on
    the exponent and on the number of receptions within a window.  Retry loops
    of the source without a bound (the ingestor, the settlement worker) are
    modelled by their body, and run by a schedule.

    * What is not modelled

    The HTTP and web-socket transports, logging and metrics, process start-up
    and configuration files; the Sui SDK, the signing of transactions and
    their execution (parameters); SQL itself (the queries are functions of the
    tables); [detail] texts of errors; [rng]-generated ids (arguments).  Of the
    indexer: the GraphQL API and its read queries, the rate of progress, the
    framework that fetches checkpoints (runs hand them over one at a time; with
    several workers they can overtake each other, see [IndexerDemo]).  Of
    the keeper: the appraisal composer (its answer is a parameter), the
    discovery of holdings, the lookups at boot.  Of
    the other services: the market makers' strategies; the
    pricing crates, which compute with transcendental functions on floats;
    tools and clients. *)

From Stdlib Require Import String Ascii.
From Stdlib Require Export ZArith Lia Sorted.
From stdpp Require Export base tactics option list list_numbers gmap strings.

#[global] Open Scope Z_scope.

(** * Rust strings

    A Rust [str] is a sequence of Unicode scalar values; every string
    function the source uses ([char_indices], [split], [chars], ...) is a
    function of that sequence. *)

Abbreviation rstring := (list Z).

(** An ASCII literal as a Rust string. *)
Definition str (s : string) : rstring :=
  (λ a, Z.of_nat (nat_of_ascii a)) <$> list_ascii_of_string s.

Arguments str s%_string.

(** * Machine integers

    A [u64] ([u128]) is a [Z] in [0, 2^64) ([0, 2^128)), an [i64] a [Z] in
    [-2^63, 2^63). The release profile of the workspace does not enable
    overflow checks, so the plain operators wrap. *)

Definition u64_max : Z := 2 ^ 64 - 1.
Definition u128_max : Z := 2 ^ 128 - 1.
Definition i64_max : Z := 2 ^ 63 - 1.
Definition i64_min : Z := - 2 ^ 63.

Definition u64 (z : Z) : Prop := 0 ≤ z ≤ u64_max.
Definition u128 (z : Z) : Prop := 0 ≤ z ≤ u128_max.
Definition i64 (z : Z) : Prop := i64_min ≤ z ≤ i64_max.

#[export] Instance u64_dec z : Decision (u64 z) := decide (_ ∧ _).
#[export] Instance u128_dec z : Decision (u128 z) := decide (_ ∧ _).
#[export] Instance i64_dec z : Decision (i64 z) := decide (_ ∧ _).

Definition wrap64 (z : Z) : Z := z mod 2 ^ 64.
Definition wrap128 (z : Z) : Z := z mod 2 ^ 128.

Definition u32_add (a b : Z) : Z := (a + b) mod 2 ^ 32.
Definition u64_add (a b : Z) : Z := wrap64 (a + b).
Definition u64_sub (a b : Z) : Z := wrap64 (a - b).
Definition u64_mul (a b : Z) : Z := wrap64 (a * b).
Definition u128_mul (a b : Z) : Z := wrap128 (a * b).

Definition u64_saturating_add (a b : Z) : Z := Z.min (a + b) u64_max.
Definition u64_saturating_sub (a b : Z) : Z := Z.max (a - b) 0.
Definition u64_saturating_mul (a b : Z) : Z := Z.min (a * b) u64_max.
Definition u128_saturating_mul (a b : Z) : Z := Z.min (a * b) u128_max.
Definition i64_saturating_add (a b : Z) : Z := Z.max i64_min (Z.min (a + b) i64_max).

(** [x as i64] of a [u64], and [x as u64] of an [i64]. *)
Definition u64_as_i64 (z : Z) : Z := if decide (z ≤ i64_max) then z else z - 2 ^ 64.
Definition i64_as_u64 (z : Z) : Z := wrap64 z.
Definition i64_neg (z : Z) : Z := if decide (z = i64_min) then i64_min else - z.

(** * Results *)

Inductive result (E A : Type) : Type :=
  | Ok (a : A)
  | Err (e : E).
Arguments Ok {E A} a.
Arguments Err {E A} e.

#[export] Instance result_ret E : MRet (result E) := λ A a, Ok a.
#[export] Instance result_bind E : MBind (result E) :=
  λ A B f m, match m with Ok a => f a | Err e => Err e end.
#[export] Instance result_fmap E : FMap (result E) :=
  λ A B f m, match m with Ok a => Ok (f a) | Err e => Err e end.

Definition map_err {E F A} (f : E → F) (m : result E A) : result F A :=
  match m with Ok a => Ok a | Err e => Err (f e) end.

Definition ok_or {E A} (m : option A) (e : E) : result E A :=
  match m with Some a => Ok a | None => Err e end.

(** * Sums *)

Definition Zsum_with {A} (f : A → Z) (l : list A) : Z := foldr (λ a s, f a + s) 0 l.
Arguments Zsum_with : simpl never.

(** * Stable sort, as [slice::sort_by] *)

Section sort.
Context {A : Type} (le : A → A → bool).

Fixpoint sort_insert (x : A) (l : list A) : list A :=
  match l with
  | [] => [x]
  | y :: l' => if le x y then x :: y :: l' else y :: sort_insert x l'
  end.

Definition sort_by (l : list A) : list A := foldr sort_insert [] l.
End sort.

(** * Automation *)

Create HintDb rust.
Create Rewrite HintDb rust.

Ltac unfold_int :=
  unfold u64_add, u64_sub, u64_mul, u128_mul, wrap64, wrap128, u64_saturating_add,
    u64_saturating_sub, u64_saturating_mul, u128_saturating_mul, u64, u128, i64,
    u64_max, u128_max, i64_max, i64_min in *.

(** Decides linear goals over machine integers whose operations do not wrap. *)
Ltac int_lia := unfold_int; repeat rewrite Z.mod_small by lia; lia.

Ltac case_bool :=
  match goal with
  | |- context [if ?b then _ else _] => destruct b eqn:?
  | H : context [if ?b then _ else _] |- _ => destruct b eqn:?
  end.

(** Turns boolean tests in the context into propositions. *)
Ltac reflect_bools :=
  repeat match goal with
  | H : _ && _ = true |- _ => apply andb_true_iff in H; destruct H
  | H : _ || _ = false |- _ => apply orb_false_iff in H; destruct H
  | H : negb _ = true |- _ => apply negb_true_iff in H
  | H : negb _ = false |- _ => apply negb_false_iff in H
  | H : (_ =? _) = true |- _ => apply Z.eqb_eq in H
  | H : (_ =? _) = false |- _ => apply Z.eqb_neq in H
  | H : (_ <? _) = true |- _ => apply Z.ltb_lt in H
  | H : (_ <? _) = false |- _ => apply Z.ltb_ge in H
  | H : (_ <=? _) = true |- _ => apply Z.leb_le in H
  | H : (_ <=? _) = false |- _ => apply Z.leb_gt in H
  | H : bool_decide _ = true |- _ => apply bool_decide_eq_true in H
  | H : bool_decide _ = false |- _ => apply bool_decide_eq_false in H
  end.

(** * Lemmas on machine integers *)

Lemma wrap64_small z : u64 z → wrap64 z = z.
Proof. intros. int_lia. Qed.

Lemma wrap64_range z : u64 (wrap64 z).
Proof. unfold u64, wrap64, u64_max. pose proof (Z.mod_pos_bound z (2^64)). lia. Qed.

Lemma u64_add_small a b : u64 (a + b) → u64_add a b = a + b.
Proof. apply wrap64_small. Qed.

Lemma u64_sub_small a b : u64 (a - b) → u64_sub a b = a - b.
Proof. apply wrap64_small. Qed.

Lemma u64_sub_range a b : u64 (u64_sub a b).
Proof. apply wrap64_range. Qed.

(** A [u64 * u64] product always fits in [u128]. *)
Lemma u128_mul_u64 a b : u64 a → u64 b → u128_mul a b = a * b.
Proof.
  unfold u64, u64_max, u128_mul, wrap128. intros. apply Z.mod_small.
  split; [nia|]. apply Z.le_lt_trans with ((2^64 - 1) * (2^64 - 1)); [nia|lia].
Qed.

(** Taking a bounded quantity out of a wrapping difference never wraps. *)
Lemma u64_sub_add r p q :
  0 ≤ q ≤ u64_sub r p → u64_sub r (u64_add p q) = u64_sub r p - q.
Proof.
  unfold u64_sub, u64_add, wrap64. intros Hq.
  rewrite Zminus_mod_idemp_r.
  replace (r - (p + q)) with ((r - p) - q) by lia.
  rewrite <- Zminus_mod_idemp_l. apply Z.mod_small.
  pose proof (Z.mod_pos_bound (r - p) (2^64)). lia.
Qed.

(** * Lemmas on sums *)

Section Zsum.
Context {A : Type}.
Implicit Types (f : A → Z) (l : list A).

Lemma Zsum_with_nil f : Zsum_with f [] = 0.
Proof. done. Qed.

Lemma Zsum_with_cons f a l : Zsum_with f (a :: l) = f a + Zsum_with f l.
Proof. done. Qed.

Lemma Zsum_with_app f l1 l2 : Zsum_with f (l1 ++ l2) = Zsum_with f l1 + Zsum_with f l2.
Proof. induction l1 as [|a l1 IH]; [done|]. rewrite <- app_comm_cons, !Zsum_with_cons. lia. Qed.

Lemma Zsum_with_nonneg f l : (∀ a, a ∈ l → 0 ≤ f a) → 0 ≤ Zsum_with f l.
Proof.
  induction l as [|a l IH]; intros H; [done|]. rewrite Zsum_with_cons.
  assert (0 ≤ f a) by (apply H; set_solver).
  assert (0 ≤ Zsum_with f l) by (apply IH; set_solver). lia.
Qed.

Lemma Zsum_with_0 f l : (∀ a, a ∈ l → f a = 0) → Zsum_with f l = 0.
Proof.
  induction l as [|a l IH]; intros H; [done|]. rewrite Zsum_with_cons, (H a), IH; set_solver.
Qed.

Lemma Zsum_with_insert f l i x y :
  l !! i = Some x → Zsum_with f (<[i := y]> l) = Zsum_with f l - f x + f y.
Proof.
  revert i. induction l as [|a l IH]; intros [|i]; simpl; intros; simplify_eq; rewrite !Zsum_with_cons.
  - lia.
  - rewrite (IH i) by done. lia.
Qed.

Lemma Zsum_with_le f g l : (∀ a, a ∈ l → f a ≤ g a) → Zsum_with f l ≤ Zsum_with g l.
Proof.
  induction l as [|a l IH]; intros H; [done|]. rewrite !Zsum_with_cons.
  specialize (H a ltac:(set_solver)) as Ha. specialize (IH ltac:(set_solver)). lia.
Qed.

Lemma Zsum_with_elem f l a : (∀ a, a ∈ l → 0 ≤ f a) → a ∈ l → f a ≤ Zsum_with f l.
Proof.
  intros Hf (l1 & l2 & ->)%list_elem_of_split. rewrite Zsum_with_app, Zsum_with_cons.
  pose proof (Zsum_with_nonneg f l1 ltac:(set_solver)). 
  pose proof (Zsum_with_nonneg f l2 ltac:(set_solver)). lia.
Qed.

Lemma Zsum_with_fmap {B} (h : B → A) f (l : list B) : Zsum_with f (h <$> l) = Zsum_with (λ b, f (h b)) l.
Proof. induction l as [|b l IH]; [done|]. by rewrite fmap_cons, !Zsum_with_cons, IH. Qed.

Lemma Zsum_with_filter0 f (g : A → bool) l :
  (∀ a, a ∈ l → g a = false → f a = 0) → Zsum_with f (List.filter g l) = Zsum_with f l.
Proof.
  induction l as [|a l IH]; intros H; [done|]. simpl. rewrite Zsum_with_cons.
  destruct (g a) eqn:E; rewrite ?Zsum_with_cons, IH by set_solver; [done|].
  rewrite (H a) by set_solver. lia.
Qed.

Lemma Zsum_with_perm f l1 l2 : l1 ≡ₚ l2 → Zsum_with f l1 = Zsum_with f l2.
Proof. induction 1; rewrite ?Zsum_with_cons in *; lia. Qed.

Lemma Zsum_with_ext f g l : (∀ a, a ∈ l → f a = g a) → Zsum_with f l = Zsum_with g l.
Proof.
  induction l as [|a l IH]; intros H; [done|]. rewrite !Zsum_with_cons.
  rewrite (H a), IH; set_solver.
Qed.
End Zsum.

#[export] Hint Rewrite @Zsum_with_nil @Zsum_with_cons @Zsum_with_app : rust.

(** * Lemmas on boolean list functions *)

Section bool_lists.
Context {A : Type}.
Implicit Types (f g : A → bool) (l : list A).

Lemma elem_of_bfilter f l x : x ∈ List.filter f l ↔ x ∈ l ∧ f x = true.
Proof. by rewrite !list_elem_of_In, filter_In. Qed.

Lemma bfind_Some f l x :
  List.find f l = Some x →
  ∃ l1 l2, l = l1 ++ x :: l2 ∧ f x = true ∧ ∀ y, y ∈ l1 → f y = false.
Proof.
  induction l as [|y l IH]; simpl; [done|]. destruct (f y) eqn:E; intros H; simplify_eq.
  - exists [], l. set_solver.
  - destruct (IH H) as (l1 & l2 & -> & ? & Hf). exists (y :: l1), l2. set_solver.
Qed.

Lemma bfind_None f l : List.find f l = None ↔ ∀ y, y ∈ l → f y = false.
Proof.
  split.
  - intros H y Hy%list_elem_of_In. by eapply find_none.
  - induction l as [|y l IH]; simpl; [done|]. intros H. rewrite H by set_solver. set_solver.
Qed.

Lemma bfind_app f l1 l2 :
  List.find f (l1 ++ l2) = match List.find f l1 with Some x => Some x | None => List.find f l2 end.
Proof. induction l1 as [|y l1 IH]; simpl; [done|]. by destruct (f y). Qed.

Lemma bfind_filter f g l : List.find f (List.filter g l) = List.find (λ x, g x && f x) l.
Proof. induction l as [|y l IH]; simpl; [done|]. destruct (g y); simpl; by rewrite IH. Qed.

Lemma bfilter_nil f l : (∀ x, x ∈ l → f x = false) → List.filter f l = [].
Proof. induction l as [|y l IH]; simpl; [done|]. intros H. rewrite H; set_solver. Qed.

Lemma existsb_elem f l : existsb f l = true ↔ ∃ x, x ∈ l ∧ f x = true.
Proof. rewrite existsb_exists. by setoid_rewrite <- list_elem_of_In. Qed.

Lemma NoDup_fmap_inj_on {B} (f : A → B) l x y :
  NoDup (f <$> l) → x ∈ l → y ∈ l → f x = f y → x = y.
Proof.
  intros Hnd (i & Hi)%list_elem_of_lookup (j & Hj)%list_elem_of_lookup Heq.
  assert (i = j) as ->; [|congruence].
  apply (NoDup_lookup (f <$> l) i j (f x)); [done|..]; rewrite list_lookup_fmap;
    [by rewrite Hi|by rewrite Hj, Heq].
Qed.

Lemma omap_cons {B} (h : A → option B) x l :
  omap h (x :: l) = match h x with Some y => y :: omap h l | None => omap h l end.
Proof. done. Qed.

Lemma bfilter_length f l : (length (List.filter f l) ≤ length l)%nat.
Proof. induction l as [|y l IH]; simpl; [done|]. destruct (f y); simpl; lia. Qed.
End bool_lists.

(** * Lemmas on the stable sort *)

Section sort_lemmas.
Context {A : Type} (le : A → A → bool).

Lemma sort_insert_perm x l : sort_insert le x l ≡ₚ x :: l.
Proof.
  induction l as [|y l IH]; simpl; [done|]. destruct (le x y); [done|].
  rewrite IH. constructor.
Qed.

Lemma sort_by_perm l : sort_by le l ≡ₚ l.
Proof. induction l as [|x l IH]; simpl; [done|]. by rewrite sort_insert_perm, IH. Qed.

Lemma elem_of_sort_by x l : x ∈ sort_by le l ↔ x ∈ l.
Proof. by rewrite sort_by_perm. Qed.

Hypothesis le_total : ∀ x y, le x y = false → le y x = true.
Hypothesis le_trans : ∀ x y z, le x y = true → le y z = true → le x z = true.

Lemma sort_insert_sorted x l :
  StronglySorted (λ x y, le x y = true) l →
  StronglySorted (λ x y, le x y = true) (sort_insert le x l).
Proof.
  induction 1 as [|y l Hl IH Hy]; simpl; [repeat constructor|].
  destruct (le x y) eqn:E.
  - constructor; [by constructor|]. constructor; [done|].
    eapply Forall_impl; [exact Hy|]. simpl; eauto.
  - constructor; [done|]. rewrite sort_insert_perm. constructor; [auto|done].
Qed.

Lemma sort_by_sorted l : StronglySorted (λ x y, le x y = true) (sort_by le l).
Proof. induction l; simpl; [constructor|]. by apply sort_insert_sorted. Qed.
End sort_lemmas.
