(* ===== verification/RecordUpdate.v ===== *)
(** Updates of record fields, [r <| f := v |>]: the update of a projection is
    found from the expansion of the record, which its declaration gives. *)

From S2P Require Import Prelude.

(** [rebuild r] is [mk (f1 r) (f2 r) ...]. *)
Class Fields (R : Type) := rebuild : R → R.

Class Field {R A : Type} (f : R → A) := update_field : (A → A) → R → R.
#[global] Arguments update_field {R A} f {_} _ _.

(** In the expansion of a record, one projection is replaced. *)
Ltac field_update f :=
  match type of f with
  | ?R → _ =>
      let i := constr:(ltac:(typeclasses eauto) : Fields R) in
      let e := eval hnf in i in
      match eval pattern f in e with
      | ?g _ => let u := eval cbv beta in (λ h, g (λ r, h (f r))) in exact u
      end
  end.

#[export] Hint Extern 1 (Field ?f) => field_update f : typeclass_instances.

Notation "r <| f := v |>" := (update_field f (λ _, v) r) (at level 12, left associativity) : record_scope.
Notation "r <| f ::= g |>" := (update_field f g r) (at level 12, left associativity) : record_scope.
#[global] Open Scope record_scope.

Module example.
Record point := mk { px : Z; py : option Z; pz : bool }.
#[global] Instance point_fields : Fields point := λ r, mk (px r) (py r) (pz r).

Lemma update_twice r : r <| px := 3 |> <| py := Some 4 |> = mk 3 (Some 4) (pz r).
Proof. reflexivity. Qed.
End example.
