(* ===== verification/Prog.v ===== *)
(** Programs over a shared state and their schedules; [Safe] programs, which
    keep an invariant and stay within a guarantee under interference; [Owned]
    programs, which also take and give back tokens. *)

From stdpp Require Import gmultiset.
From S2P Require Import Prelude.

Section prog.
Context {S : Type}.

Inductive prog (A : Type) : Type :=
  | Ret (a : A)
  | Act {B : Type} (f : S → S * B) (k : B → prog A).

Global Arguments Ret {A} a.
Global Arguments Act {A B} f k.

Fixpoint prog_bind {A B} (h : A → prog B) (p : prog A) : prog B :=
  match p with
  | Ret a => h a
  | Act f k => Act f (λ b, prog_bind h (k b))
  end.

Definition act {B} (f : S → S * B) : prog B := Act f Ret.
Definition modify (f : S → S) : prog unit := act (λ s, (f s, tt)).
Definition read {B} (f : S → B) : prog B := act (λ s, (s, f s)).

(** A loop over a list: [for x in l { f(x).await }]. *)
Fixpoint for_each {X} (l : list X) (f : X → prog unit) : prog unit :=
  match l with
  | [] => Ret tt
  | x :: l' => prog_bind (λ _, for_each l' f) (f x)
  end.

(** Uninterrupted execution. *)
Fixpoint run {A} (p : prog A) (s : S) : S * A :=
  match p with
  | Ret a => (s, a)
  | Act f k => run (k (f s).2) (f s).1
  end.

(** One action of a task. *)
Definition step {A} (p : prog A) (s : S) : prog A * S :=
  match p with
  | Ret a => (Ret a, s)
  | Act f k => (k (f s).2, (f s).1)
  end.

(** Execution of several tasks: the schedule names the task that takes the
    next action. *)
Fixpoint sched {A} (schedule : list nat) (tasks : list (prog A)) (s : S) : list (prog A) * S :=
  match schedule with
  | [] => (tasks, s)
  | i :: schedule' =>
      match tasks !! i with
      | None => sched schedule' tasks s
      | Some p => let '(p', s') := step p s in sched schedule' (<[i := p']> tasks) s'
      end
  end.

(** The same where an action can wait: one that would lead to a state that does
    not fit is not taken. *)
Fixpoint sched_within {A} (fits : S → bool) (schedule : list nat) (tasks : list (prog A)) (s : S)
    : list (prog A) * S :=
  match schedule with
  | [] => (tasks, s)
  | i :: schedule' =>
      match tasks !! i with
      | None => sched_within fits schedule' tasks s
      | Some p =>
          let '(p', s') := step p s in
          if fits s' then sched_within fits schedule' (<[i := p']> tasks) s'
          else sched_within fits schedule' tasks s
      end
  end.

(** Every action of a program, whatever the actions before it return. *)
Fixpoint each {A} (R : relation S) (p : prog A) : Prop :=
  match p with
  | Ret _ => True
  | Act f k => (∀ s, R s (f s).1) ∧ ∀ b, each R (k b)
  end.

Fixpoint steps {A} (p : prog A) (s : S) : nat :=
  match p with
  | Ret _ => O
  | Act f k => Datatypes.S (steps (k (f s).2) (f s).1)
  end.

(** ** Execution *)

Lemma run_bind {A B} (p : prog A) (h : A → prog B) s :
  run (prog_bind h p) s = run (h (run p s).2) (run p s).1.
Proof. revert s. induction p as [a|X f k IH]; intros s; simpl; [done|]. apply IH. Qed.

Lemma run_act {B} (f : S → S * B) s : run (act f) s = f s.
Proof. simpl. by destruct (f s). Qed.

Lemma run_for_each_ind {X} (I : S → Prop) (l : list X) (f : X → prog unit) s :
  (∀ x s, x ∈ l → I s → I (run (f x) s).1) → I s → I (run (for_each l f) s).1.
Proof.
  revert s. induction l as [|x l IH]; simpl; intros s H Hs; [done|].
  rewrite run_bind. apply IH; [|apply H; set_solver]. intros. apply H; [set_solver|done].
Qed.

(** A task scheduled alone for as many actions as it has returns its result. *)
Lemma sched_alone {A} (p : prog A) s :
  sched (replicate (steps p s) 0%nat) [p] s = ([Ret (run p s).2], (run p s).1).
Proof.
  revert s. induction p as [a|X f k IH]; intros s; simpl; [done|]. apply IH.
Qed.

(** Waiting leaves actions out. *)
Lemma sched_within_sched {A} fits schedule (tasks : list (prog A)) s :
  ∃ schedule', sched_within fits schedule tasks s = sched schedule' tasks s.
Proof.
  revert tasks s. induction schedule as [|i schedule IH]; intros tasks s; [by exists []|]. cbn [sched_within].
  destruct (tasks !! i) as [p|] eqn:Hp; [|apply IH]. destruct (step p s) as [p' s'] eqn:Hs.
  destruct (fits s'); [|apply IH]. destruct (IH (<[i:=p']> tasks) s') as [l ->]. exists (i :: l).
  cbn [sched]. by rewrite Hp, Hs.
Qed.

Lemma sched_within_fits {A} fits schedule (tasks : list (prog A)) s :
  fits s = true → fits (sched_within fits schedule tasks s).2 = true.
Proof.
  revert tasks s. induction schedule as [|i schedule IH]; intros tasks s Hs; [done|]. cbn [sched_within].
  destruct (tasks !! i) as [p|]; [|by apply IH]. destruct (step p s) as [p' s'].
  destruct (fits s') eqn:E; by apply IH.
Qed.

(** ** Every action *)

Lemma each_bind {A B} R (p : prog A) (h : A → prog B) :
  each R p → (∀ a, each R (h a)) → each R (prog_bind h p).
Proof. induction p as [a|X f k IH]; cbn; [auto|]. intros [Hf Hk] Hh. split; [done|]. intros b. by apply IH. Qed.

Lemma each_act {B} (R : relation S) (f : S → S * B) : (∀ s, R s (f s).1) → each R (act f).
Proof. by split. Qed.

Lemma each_modify (R : relation S) (f : S → S) : (∀ s, R s (f s)) → each R (modify f).
Proof. by split. Qed.

Lemma each_read {B} (R : relation S) `{!Reflexive R} (f : S → B) : each R (read f).
Proof. split; [intros s; reflexivity|done]. Qed.

Lemma each_for_each {X} R (l : list X) (f : X → prog unit) : (∀ x, each R (f x)) → each R (for_each l f).
Proof. intros Hf. induction l as [|x l IH]; [done|]. by apply each_bind. Qed.

Lemma each_step {A} R (p : prog A) s : each R p → each R (step p s).1.
Proof. destruct p; [done|]. intros [_ Hk]. apply Hk. Qed.

Lemma sched_each {A} R schedule (tasks : list (prog A)) s :
  Forall (each R) tasks → Forall (each R) (sched schedule tasks s).1.
Proof.
  revert tasks s. induction schedule as [|i schedule IH]; intros tasks s Ht; [done|]. cbn [sched].
  destruct (tasks !! i) as [p|] eqn:Hp; [|by apply IH]. pose proof (each_step R p s) as Hs.
  destruct (step p s). apply IH, Forall_insert; [done|]. by eapply Hs, Forall_lookup_1.
Qed.
End prog.

Arguments prog S A : clear implicits.

#[export] Instance prog_ret S : MRet (prog S) := λ A a, Ret a.
#[export] Instance prog_mbind S : MBind (prog S) := λ A B h p, prog_bind h p.

(** The [?] operator: leave with the error. *)
Definition prog_try {S E A B} (p : prog S (result E A)) (h : A → prog S (result E B))
    : prog S (result E B) :=
  prog_bind (λ r, match r with Ok a => h a | Err e => Ret (Err e) end) p.

Notation "x ←? p ; q" := (prog_try p (λ x, q))
  (at level 20, p at level 100, q at level 200, right associativity) : stdpp_scope.

Lemma run_try {S E A B} (p : prog S (result E A)) (h : A → prog S (result E B)) s :
  run (prog_try p h) s =
  match (run p s).2 with
  | Ok a => run (h a) (run p s).1
  | Err e => ((run p s).1, Err e)
  end.
Proof. unfold prog_try. rewrite run_bind. by destruct (run p s).2. Qed.

Lemma run_try_ok {S E A B} (a : A) (h : A → prog S (result E B)) s :
  run (prog_try (Ret (Ok a)) h) s = run (h a) s.
Proof. done. Qed.

Lemma run_try_err {S E A B} (e : E) (h : A → prog S (result E B)) s :
  run (prog_try (Ret (Err e)) h) s = (s, Err e).
Proof. done. Qed.

Lemma run_try_assoc {S E A B C} (p : prog S (result E A)) (h : A → prog S (result E B))
    (k : B → prog S (result E C)) s :
  run (prog_try (prog_try p h) k) s = run (prog_try p (λ a, prog_try (h a) k)) s.
Proof. rewrite !run_try. destruct (run p s) as [s1 [a|e]]; simpl; by rewrite ?run_try. Qed.

Class Protocol (S : Type) := {
  inv : S → Prop;
  later : relation S;
  #[global] later_preorder :: PreOrder later;
}.

Section safe.
Context {S : Type} `{Protocol S}.

(** [s] is the last state the task has seen. *)
Fixpoint safe {A} (Q : A → S → Prop) (p : prog S A) (s : S) : Prop :=
  match p with
  | Ret a => inv s ∧ Q a s
  | Act f k => ∀ s', later s s' → inv s' →
      inv (f s').1 ∧ later s' (f s').1 ∧ safe Q (k (f s').2) (f s').1
  end.

(** From every state of the invariant that satisfies [P]. *)
Definition triple {A} (P : S → Prop) (p : prog S A) (Q : A → S → Prop) : Prop :=
  ∀ s, inv s → P s → safe Q p s.

(** An assertion that other tasks cannot undo. *)
Definition stable (P : S → Prop) : Prop := ∀ s s', P s → later s s' → inv s' → P s'.

Lemma safe_bind {A B} (Q1 : A → S → Prop) (Q : B → S → Prop) (p : prog S A) (h : A → prog S B) s :
  safe Q1 p s → (∀ a s', inv s' → Q1 a s' → safe Q (h a) s') → safe Q (prog_bind h p) s.
Proof.
  revert s. induction p as [a|X f k IH]; simpl; intros s Hp Hh.
  - destruct Hp. auto.
  - intros s' Hl Hs'. destruct (Hp s' Hl Hs') as (? & ? & Hk). split_and!; [done..|]. by apply IH.
Qed.

Lemma safe_weaken {A} (Q1 Q : A → S → Prop) (p : prog S A) s :
  safe Q1 p s → (∀ a s', inv s' → Q1 a s' → Q a s') → safe Q p s.
Proof.
  revert s. induction p as [a|X f k IH]; simpl; intros s Hp HQ.
  - destruct Hp. auto.
  - intros s' Hl Hs'. destruct (Hp s' Hl Hs') as (? & ? & Hk). split_and!; [done..|]. by apply IH.
Qed.

(** A safe task stays safe while the others act, up to what they undo of a
    result it has already returned. *)
Lemma safe_later {A} (Q : A → S → Prop) (p : prog S A) s s' :
  (∀ a, stable (Q a)) → safe Q p s → later s s' → inv s' → safe Q p s'.
Proof.
  intros HQ. destruct p as [a|X f k]; simpl.
  - intros [_ Ha] Hl Hs'. split; [done|]. by eapply HQ.
  - intros Hp Hl _ s'' Hl' Hs''. apply Hp; [by etransitivity|done].
Qed.

Lemma triple_ret {A} (P : S → Prop) (a : A) (Q : A → S → Prop) :
  (∀ s, inv s → P s → Q a s) → triple P (Ret a) Q.
Proof. intros HQ s Hs HP. split; auto. Qed.

Lemma triple_act {B} (P : S → Prop) (f : S → S * B) (Q : B → S → Prop) :
  stable P →
  (∀ s, inv s → P s → inv (f s).1 ∧ later s (f s).1 ∧ Q (f s).2 (f s).1) → triple P (act f) Q.
Proof.
  intros HP Hf s Hs Hp s' Hl Hs'. destruct (Hf s' Hs') as (? & ? & ?); [by eapply HP|].
  by split_and!.
Qed.

Lemma triple_modify (P : S → Prop) (f : S → S) (Q : S → Prop) :
  stable P → (∀ s, inv s → P s → inv (f s) ∧ later s (f s) ∧ Q (f s)) →
  triple P (modify f) (λ _, Q).
Proof. intros HP Hf. by apply triple_act. Qed.

Lemma triple_read {B} (P : S → Prop) (f : S → B) (Q : B → S → Prop) :
  stable P → (∀ s, inv s → P s → Q (f s) s) → triple P (read f) Q.
Proof. intros HP Hf. apply triple_act; [done|]. intros s Hs Hp. simpl.
  split; [done|]. split; [reflexivity|auto].
Qed.

Lemma triple_bind {A B} (P : S → Prop) (Q1 : A → S → Prop) (Q : B → S → Prop)
    (p : prog S A) (h : A → prog S B) :
  triple P p Q1 → (∀ a, triple (Q1 a) (h a) Q) → triple P (prog_bind h p) Q.
Proof. intros Hp Hh s Hs HP. eapply safe_bind; [by apply Hp|]. intros a s' Hs' Ha. by apply Hh. Qed.

Lemma triple_weaken {A} (P P1 : S → Prop) (Q Q1 : A → S → Prop) (p : prog S A) :
  triple P1 p Q1 → (∀ s, inv s → P s → P1 s) → (∀ a s, inv s → Q1 a s → Q a s) → triple P p Q.
Proof. intros Hp HP HQ s Hs Hps. eapply safe_weaken; [apply Hp; auto|done]. Qed.

Lemma triple_pre {A} (P P1 : S → Prop) (Q : A → S → Prop) (p : prog S A) :
  triple P1 p Q → (∀ s, inv s → P s → P1 s) → triple P p Q.
Proof. intros. eapply triple_weaken; eauto. Qed.

(** What was known before and is stable is still known afterwards. *)
Lemma triple_frame {A} (P F : S → Prop) (Q : A → S → Prop) (p : prog S A) :
  stable F → triple P p Q → triple (λ s, P s ∧ F s) p (λ a s, Q a s ∧ F s).
Proof.
  intros HF Hp s Hs [Hps Hfs]. specialize (Hp s Hs Hps). clear Hps. revert s Hs Hfs Hp.
  induction p as [a|X f k IH]; simpl; intros s Hs Hfs Hp.
  - by destruct Hp.
  - intros s' Hl Hs'. destruct (Hp s' Hl Hs') as (? & ? & Hk). split_and!; [done..|].
    apply IH; [done| |done]. eapply (HF s'); [by eapply (HF s)|done..].
Qed.

Lemma triple_for_each {X} (P : S → Prop) (l : list X) (f : X → prog S unit) :
  (∀ x, x ∈ l → triple P (f x) (λ _, P)) → triple P (for_each l f) (λ _, P).
Proof.
  induction l as [|x l IH]; simpl; intros Hf; [by apply triple_ret|].
  eapply triple_bind; [apply Hf; set_solver|]. intros []. apply IH. set_solver.
Qed.

(** The [?] operator: the error is passed on. *)
Lemma triple_try {E A B} (P : S → Prop) (Q1 : A → S → Prop) (Q : result E B → S → Prop)
    (p : prog S (result E A)) (h : A → prog S (result E B)) :
  triple P p (λ r s, match r with Ok a => Q1 a s | Err e => Q (Err e) s end) →
  (∀ a, triple (Q1 a) (h a) Q) → triple P (prog_try p h) Q.
Proof.
  intros Hp Hh. eapply triple_bind; [exact Hp|]. intros [a|e]; [apply Hh|by apply triple_ret].
Qed.

Lemma triple_run {A} (P : S → Prop) (Q : A → S → Prop) (p : prog S A) s :
  triple P p Q → inv s → P s → inv (run p s).1 ∧ later s (run p s).1 ∧ Q (run p s).2 (run p s).1.
Proof.
  intros Hp Hs Hps. specialize (Hp s Hs Hps). clear Hps. revert s Hs Hp.
  induction p as [a|X f k IH]; simpl; intros s Hs Hp.
  - destruct Hp. by split_and!.
  - destruct (Hp s) as (Hf & Hl & Hk); [reflexivity|done|].
    destruct (IH (f s).2 (f s).1 Hf Hk) as (? & ? & ?).
    split_and!; [done| |done]. by etransitivity.
Qed.

(** ** Schedules *)

(** A task that is safe from some earlier state. *)
Definition pending_from {A} (s : S) (p : prog S A) : Prop :=
  ∃ s0, later s0 s ∧ safe (λ _ _, True) p s0.

Lemma pending_later {A} s s' (p : prog S A) : later s s' → pending_from s p → pending_from s' p.
Proof. intros Hl (s0 & Hs0 & Hp). exists s0. split; [by etransitivity|done]. Qed.

Lemma pending_step {A} s (p : prog S A) :
  inv s → pending_from s p →
  let '(p', s') := step p s in inv s' ∧ later s s' ∧ pending_from s' p'.
Proof.
  intros Hs (s0 & Hl & Hp). destruct p as [a|X f k]; simpl.
  - split_and!; [done|reflexivity|]. by exists s0.
  - destruct (Hp s Hl Hs) as (? & ? & ?). split_and!; [done..|]. by exists (f s).1.
Qed.

(** Every schedule of safe tasks keeps the invariant and makes only allowed
    changes. *)
Lemma sched_safe {A} schedule (tasks : list (prog S A)) s :
  inv s → Forall (pending_from s) tasks →
  inv (sched schedule tasks s).2 ∧ later s (sched schedule tasks s).2.
Proof.
  revert tasks s. induction schedule as [|i schedule IH]; intros tasks s Hs Ht; [by split|]. simpl.
  destruct (tasks !! i) as [p|] eqn:Hp; [|auto].
  pose proof (pending_step s p Hs) as Hst. destruct (step p s) as [p' s'] eqn:Hstep.
  destruct Hst as (Hs' & Hl & Hp'); [by eapply Forall_lookup_1|].
  destruct (IH (<[i:=p']> tasks) s' Hs') as [? ?].
  { apply Forall_insert; [|done]. eapply Forall_impl; [exact Ht|]. intros q. by apply pending_later. }
  split; [done|]. by etransitivity.
Qed.

Lemma triple_pending {A} (P : S → Prop) (Q : A → S → Prop) (p : prog S A) s :
  triple P p Q → inv s → P s → pending_from s p.
Proof.
  intros Hp Hs HP. exists s. split; [reflexivity|]. eapply safe_weaken; [by apply Hp|done].
Qed.
End safe.

#[global] Hint Mode Protocol ! : typeclass_instances.

Section owned.
Context {S K : Type} `{Countable K}.

Abbreviation tokens := (gmultiset K).

(** The invariant of the state and the tokens held by all tasks. *)
Variable I : S → tokens → Prop.

Fixpoint owns {A} (Q : A → tokens → Prop) (p : prog S A) (g : tokens) : Prop :=
  match p with
  | Ret a => Q a g
  | Act f k => ∀ s others, I s (g ⊎ others) →
      ∃ g', I (f s).1 (g' ⊎ others) ∧ owns Q (k (f s).2) g'
  end.

Lemma owns_weaken {A} (Q1 Q : A → tokens → Prop) (p : prog S A) g :
  (∀ a g, Q1 a g → Q a g) → owns Q1 p g → owns Q p g.
Proof.
  intros HQ. revert g. induction p as [a|X f k IH]; simpl; intros g Hp; [by apply HQ|].
  intros s others Hs. destruct (Hp s others Hs) as (g' & ? & ?). exists g'. eauto.
Qed.

Lemma owns_bind {A B} (Q1 : A → tokens → Prop) (Q : B → tokens → Prop) (p : prog S A) (h : A → prog S B) g :
  owns Q1 p g → (∀ a g, Q1 a g → owns Q (h a) g) → owns Q (prog_bind h p) g.
Proof.
  intros Hp Hh. revert g Hp. induction p as [a|X f k IH]; simpl; intros g Hp; [by apply Hh|].
  intros s others Hs. destruct (Hp s others Hs) as (g' & ? & ?). exists g'. eauto.
Qed.

(** Tokens may be traded for those they stand for, where the end allows it. *)
Lemma owns_shift {A} (Q : A → tokens → Prop) (p : prog S A) g g' :
  (∀ s others, I s (g ⊎ others) → I s (g' ⊎ others)) → (∀ a, Q a g' → Q a g) → owns Q p g' → owns Q p g.
Proof.
  intros HI HQ. destruct p as [a|X f k]; cbn; [apply HQ|]. intros Hp s others Hs. by apply Hp, HI.
Qed.

(** What a task holds and does not use stays with it. *)
Lemma owns_frame {A} (Q : A → tokens → Prop) (p : prog S A) g h :
  owns Q p g → owns (λ a g', ∃ g0, g' = g0 ⊎ h ∧ Q a g0) p (g ⊎ h).
Proof.
  revert g. induction p as [a|X f k IH]; simpl; intros g Hp; [by eauto|].
  intros s others Hs. rewrite <- (assoc_L (⊎)) in Hs. destruct (Hp s _ Hs) as (g' & HI & Hk).
  exists (g' ⊎ h). rewrite <- (assoc_L (⊎)). auto.
Qed.

(** An action that needs no token and leaves none. *)
Definition neutral {B} (f : S → S * B) : Prop := ∀ s g, I s g → I (f s).1 g.

Lemma owns_act {B} (f : S → S * B) (Q : B → tokens → Prop) g :
  (∀ s others, I s (g ⊎ others) → ∃ g', I (f s).1 (g' ⊎ others) ∧ Q (f s).2 g') → owns Q (act f) g.
Proof. intros Hf s others Hs. exact (Hf s others Hs). Qed.

Lemma owns_neutral {B} (f : S → S * B) g (P : B → Prop) :
  neutral f → (∀ s others, I s (g ⊎ others) → P (f s).2) → owns (λ b g', g' = g ∧ P b) (act f) g.
Proof. intros Hf HP. apply owns_act. intros s others Hs. exists g. split; [by apply Hf|]. split; eauto. Qed.

Lemma owns_read {B} (f : S → B) g : owns (λ b g', g' = g) (read f) g.
Proof. apply owns_act. intros s others Hs. by exists g. Qed.

Lemma owns_read_pure {B} (f : S → B) (P : B → Prop) g :
  (∀ s g, I s g → P (f s)) → owns (λ b g', g' = g ∧ P b) (read f) g.
Proof. intros HP. apply owns_act. intros s others Hs. exists g. eauto. Qed.

Lemma owns_modify (f : S → S) g : (∀ s g, I s g → I (f s) g) → owns (λ _ g', g' = g) (modify f) g.
Proof. intros Hf. apply owns_act. intros s others Hs. exists g. split; [by apply Hf|done]. Qed.

Lemma owns_for_each {X} (l : list X) (f : X → prog S unit) g :
  (∀ x, x ∈ l → owns (λ _ g', g' = g) (f x) g) → owns (λ _ g', g' = g) (for_each l f) g.
Proof.
  induction l as [|x l IH]; simpl; intros Hf; [done|].
  eapply owns_bind; [apply Hf; set_solver|]. intros a g' ->. apply IH. intros y Hy. apply Hf. set_solver.
Qed.

(** ** Quiet programs

    A program that takes no token and leaves what it holds as it is. *)

Definition quiet {A} (p : prog S A) : Prop := ∀ g, owns (λ _ g', g' = g) p g.

Lemma quiet_ret {A} (a : A) : quiet (Ret a).
Proof. by intros g. Qed.

Lemma quiet_seq {A B} (p : prog S A) (h : A → prog S B) :
  quiet p → (∀ a, quiet (h a)) → quiet (p ≫= h).
Proof. intros Hp Hh g. eapply owns_bind; [apply Hp|]. intros a g' ->. apply Hh. Qed.

(** A quiet step before a program that owns what it owns. *)
Lemma owns_quiet {A B} (Q : B → tokens → Prop) (p : prog S A) (h : A → prog S B) g :
  quiet p → (∀ a, owns Q (h a) g) → owns Q (p ≫= h) g.
Proof. intros Hp Hh. eapply owns_bind; [apply Hp|]. intros a g' ->. apply Hh. Qed.

Lemma quiet_read {A} (f : S → A) : quiet (read f).
Proof. intros g. apply owns_read. Qed.

Lemma quiet_act {A} (f : S → S * A) : (∀ s g, I s g → I (f s).1 g) → quiet (act f).
Proof. intros Hf g. apply owns_act. intros s others Hs. exists g. split; [by apply Hf|done]. Qed.

Lemma quiet_modify (f : S → S) : (∀ s g, I s g → I (f s) g) → quiet (modify f).
Proof. intros Hf. by apply quiet_act. Qed.

Lemma quiet_for_each {X} (l : list X) (f : X → prog S unit) : (∀ x, quiet (f x)) → quiet (for_each l f).
Proof. intros Hf g. apply owns_for_each. intros x _. apply Hf. Qed.

(** ** Tasks under a schedule *)

Fixpoint total (gs : list tokens) : tokens :=
  match gs with [] => ∅ | g :: gs' => g ⊎ total gs' end.

Lemma total_insert gs i g g' :
  gs !! i = Some g → ∃ others, total gs = g ⊎ others ∧ total (<[i := g']> gs) = g' ⊎ others.
Proof.
  revert i. induction gs as [|h gs IH]; intros [|i] Hi; simplify_eq/=; [by exists (total gs)|].
  destruct (IH i Hi) as (others & E1 & E2). exists (h ⊎ others). rewrite E1, E2.
  split; multiset_solver.
Qed.

Lemma step_owned {A} (Q : A → tokens → Prop) F i (p : prog S A) (tasks : list (prog S A)) gs s :
  tasks !! i = Some p → I s (total gs ⊎ F) → Forall2 (owns Q) tasks gs →
  ∃ gs', I (step p s).2 (total gs' ⊎ F) ∧ Forall2 (owns Q) (<[i := (step p s).1]> tasks) gs'.
Proof.
  intros Hp Hs Ht. destruct (Forall2_lookup_l _ _ _ _ _ Ht Hp) as (g & Hg & Hpg).
  destruct p as [a|X f k]; cbn [step fst snd].
  - rewrite (list_insert_id _ _ _ Hp). by exists gs.
  - destruct (total_insert gs i g ∅ Hg) as (others & E & _). rewrite E, <- (assoc_L (⊎)) in Hs.
    destruct (Hpg s (others ⊎ F) Hs) as (g' & Hs' & Hk).
    exists (<[i := g']> gs). split; [|by apply Forall2_insert].
    destruct (total_insert gs i g g' Hg) as (others' & E' & ->). rewrite E in E'.
    assert (others' = others) as -> by multiset_solver. by rewrite <- (assoc_L (⊎)).
Qed.

Lemma sched_owned {A} (Q : A → tokens → Prop) F schedule (tasks : list (prog S A)) gs s :
  I s (total gs ⊎ F) → Forall2 (owns Q) tasks gs →
  ∃ gs', I (sched schedule tasks s).2 (total gs' ⊎ F) ∧ Forall2 (owns Q) (sched schedule tasks s).1 gs'.
Proof.
  revert tasks gs s. induction schedule as [|i schedule IH]; intros tasks gs s Hs Ht; [by exists gs|].
  cbn [sched]. destruct (tasks !! i) as [p|] eqn:Hp; [|by apply IH with gs].
  destruct (step_owned Q F i p tasks gs s Hp Hs Ht) as (gs' & Hs' & Ht').
  destruct (step p s) as [p' s']. by apply IH with gs'.
Qed.

(** A task that holds [g] now and nothing when it returns. *)
Definition task {A} (p : prog S A) (g : tokens) : Prop := owns (λ _ g', g' = ∅) p g.

Definition returned {A} (p : prog S A) : Prop := match p with Ret _ => True | Act _ _ => False end.

Lemma total_none (n : nat) : total (replicate n ∅) = ∅.
Proof. induction n as [|n IH]; [done|]. cbn. rewrite IH. multiset_solver. Qed.

(** Tasks that start with nothing, beside a frame that no task touches. *)
Lemma sched_framed {A} (Q : A → tokens → Prop) F schedule (tasks : list (prog S A)) s :
  I s F → Forall (λ p, owns Q p ∅) tasks →
  ∃ g, I (sched schedule tasks s).2 (g ⊎ F).
Proof.
  intros Hs Ht. destruct (sched_owned Q F schedule tasks (replicate (length tasks) ∅) s) as (gs & HI & _).
  - by rewrite total_none, (left_id_L ∅ (⊎)).
  - clear Hs. induction Ht; by constructor.
  - by eexists.
Qed.

Lemma total_empty gs : Forall (λ g, g = ∅) gs → total gs = ∅.
Proof. induction 1 as [|g gs -> _ IH]; [done|]. cbn. rewrite IH. multiset_solver. Qed.

Lemma sched_app {A} (l1 l2 : list nat) (tasks : list (prog S A)) s :
  sched (l1 ++ l2) tasks s = sched l2 (sched l1 tasks s).1 (sched l1 tasks s).2.
Proof.
  revert tasks s. induction l1 as [|i l1 IH]; intros tasks s; [done|]. cbn.
  destruct (tasks !! i) as [p|]; [|apply IH]. destruct (step p s). apply IH.
Qed.

(** Tasks that hold something now, and nothing once they return. *)
Definition holding {A} (tasks : list (prog S A)) (s : S) : Prop :=
  ∃ gs, I s (total gs) ∧ Forall2 (owns (λ _ g, g = ∅)) tasks gs.

Lemma holding_start {A} (tasks : list (prog S A)) s :
  I s ∅ → Forall (λ p, task p ∅) tasks → holding tasks s.
Proof.
  intros Hs Ht. exists (replicate (length tasks) ∅). rewrite total_none. split; [done|].
  clear Hs. induction Ht; by constructor.
Qed.

Lemma holding_step {A} i (p : prog S A) tasks s :
  tasks !! i = Some p → holding tasks s → holding (<[i := (step p s).1]> tasks) (step p s).2.
Proof.
  intros Hp (gs & Hs & Ht). destruct (step_owned (λ _ g, g = ∅) ∅ i p tasks gs s Hp) as (gs' & Hs' & Ht').
  - by rewrite (right_id_L ∅ (⊎)).
  - done.
  - exists gs'. by rewrite (right_id_L ∅ (⊎)) in Hs'.
Qed.

Lemma holding_sched {A} schedule (tasks : list (prog S A)) s :
  holding tasks s → holding (sched schedule tasks s).1 (sched schedule tasks s).2.
Proof.
  revert tasks s. induction schedule as [|i schedule IH]; intros tasks s Hh; [done|]. cbn [sched].
  destruct (tasks !! i) as [p|] eqn:Hp; [|by apply IH]. pose proof (holding_step i p tasks s Hp Hh) as Hs.
  destruct (step p s). by apply IH.
Qed.

Lemma holding_any {A} (tasks : list (prog S A)) s : holding tasks s → ∃ g, I s g.
Proof. intros (gs & Hs & _). by eexists. Qed.

(** Nothing is held once all tasks have returned. *)
Lemma holding_end {A} (tasks : list (prog S A)) s : holding tasks s → Forall returned tasks → I s ∅.
Proof.
  intros (gs & Hs & Ht) Hr. rewrite <- (total_empty gs); [done|]. clear Hs.
  induction Ht as [|p g ts gs Hp _ IH]; [constructor|]. apply Forall_cons in Hr as [Hp' Hr].
  constructor; [|by apply IH]. by destruct p.
Qed.
End owned.
