(* ===== verification/Channel.v ===== *)
(** [tokio::sync::mpsc::channel(capacity)] with one receiver: the messages in
    the channel, and the senders that wait for room, in order. *)

From S2P Require Import Prelude.

Record Queue (A : Type) := mkQueue {
  q_jobs : list A;
  q_waiting : list A;
  q_open : bool;
}.
Arguments mkQueue {A} _ _ _.
Arguments q_jobs {A} _.
Arguments q_waiting {A} _.
Arguments q_open {A} _.

#[export] Instance Queue_eq_dec `{EqDecision A} : EqDecision (Queue A).
Proof. solve_decision. Defined.

Section queue.
Context {A : Type} (capacity : nat).

Definition is_empty (l : list A) : bool := match l with [] => true | _ => false end.

Definition has_room (q : Queue A) : bool := (length (q_jobs q) <? capacity)%nat && is_empty (q_waiting q).

(** [send(job).await]: the sender waits its turn when there is no room;
    false when the receiver is gone. *)
Definition queue_send (job : A) (q : Queue A) : Queue A * bool :=
  if negb (q_open q) then (q, false)
  else if has_room q then (mkQueue (q_jobs q ++ [job]) (q_waiting q) (q_open q), true)
  else (mkQueue (q_jobs q) (q_waiting q ++ [job]) (q_open q), true).

(** [try_send(job)]: false when there is no room or no receiver. *)
Definition queue_try_send (job : A) (q : Queue A) : Queue A * bool :=
  if negb (q_open q) then (q, false)
  else if has_room q then (mkQueue (q_jobs q ++ [job]) (q_waiting q) (q_open q), true)
  else (q, false).

(** [recv().await], when a job is there; the first waiting sender gets the
    place it frees. *)
Definition queue_recv (q : Queue A) : Queue A * option A :=
  match q_jobs q with
  | [] => (q, None)
  | job :: jobs =>
      match q_waiting q with
      | [] => (mkQueue jobs [] (q_open q), Some job)
      | w :: ws => (mkQueue (jobs ++ [w]) ws (q_open q), Some job)
      end
  end.

(** The receiver is dropped: what the channel holds is lost, and senders are
    told. *)
Definition queue_close (q : Queue A) : Queue A := mkQueue [] [] false.

Lemma has_room_true q :
  has_room q = true → (length (q_jobs q) < capacity)%nat ∧ q_waiting q = [].
Proof. unfold has_room. intros [Hl%Nat.ltb_lt Hw]%andb_true_iff. split; [done|]. by destruct (q_waiting q). Qed.

Lemma queue_recv_elem q job :
  job ∈ q_jobs (queue_recv q).1 ++ q_waiting (queue_recv q).1 → job ∈ q_jobs q ++ q_waiting q.
Proof.
  unfold queue_recv. destruct (q_jobs q) as [|j js] eqn:E; cbn [fst]; [by rewrite E|].
  destruct (q_waiting q) as [|w ws]; cbn [fst q_jobs q_waiting]; rewrite ?elem_of_app, ?elem_of_cons; set_solver.
Qed.
End queue.
