(* ===== verification/BTreeMap.v ===== *)
(** [std::collections::BTreeMap] with integer keys: an association list in
    strictly increasing key order, so that [iter()] is the list itself and
    [iter().rev()] its reverse. *)

From S2P Require Import Prelude.

Abbreviation btree V := (list (Z * V)).

Section BTreeMap.
Context {V : Type}.
Implicit Types (k : Z) (v : V) (m : btree V).

Fixpoint bt_get k m : option V :=
  match m with
  | [] => None
  | (k', v) :: m' => if k =? k' then Some v else bt_get k m'
  end.

(** [insert]: replaces the value of a present key. *)
Fixpoint bt_insert k v m : btree V :=
  match m with
  | [] => [(k, v)]
  | (k', v') :: m' =>
      if k =? k' then (k, v) :: m'
      else if k <? k' then (k, v) :: (k', v') :: m'
      else (k', v') :: bt_insert k v m'
  end.

Fixpoint bt_remove k m : btree V :=
  match m with
  | [] => []
  | (k', v') :: m' => if k =? k' then m' else (k', v') :: bt_remove k m'
  end.

(** The map invariant: keys strictly increase. *)
Definition bt_wf m : Prop := StronglySorted Z.lt (m.*1).

Lemma bt_wf_nil : bt_wf [].
Proof. constructor. Qed.

Lemma bt_wf_cons k v m : bt_wf ((k, v) :: m) ↔ Forall (λ kv, k < kv.1) m ∧ bt_wf m.
Proof.
  unfold bt_wf. simpl. split.
  - intros H. inversion H; subst. by rewrite Forall_fmap in *.
  - intros [??]. constructor; [done|]. by rewrite Forall_fmap.
Qed.

Lemma bt_get_Some_elem k v m : bt_get k m = Some v → (k, v) ∈ m.
Proof.
  induction m as [|[k' v'] m IH]; simpl; [done|].
  destruct (Z.eqb_spec k k'); intros; simplify_eq; set_solver.
Qed.

Lemma bt_get_None_fresh k m : bt_get k m = None → ∀ v, (k, v) ∉ m.
Proof.
  induction m as [|[k' v'] m IH]; simpl; intros H v; [set_solver|].
  destruct (Z.eqb_spec k k'); [done|]. rewrite not_elem_of_cons. naive_solver.
Qed.

Lemma bt_elem_get k v m : bt_wf m → (k, v) ∈ m → bt_get k m = Some v.
Proof.
  induction m as [|[k' v'] m IH]; simpl; [set_solver|].
  rewrite bt_wf_cons, elem_of_cons. intros [Hlt Hwf] [?|Hin]; simplify_eq.
  - by rewrite Z.eqb_refl.
  - destruct (Z.eqb_spec k k') as [->|]; [|auto].
    rewrite Forall_forall in Hlt. specialize (Hlt _ Hin). simpl in *. lia.
Qed.

Lemma bt_get_elem_iff k v m : bt_wf m → bt_get k m = Some v ↔ (k, v) ∈ m.
Proof. split; [apply bt_get_Some_elem|by apply bt_elem_get]. Qed.

Lemma bt_get_insert_eq k v m : bt_get k (bt_insert k v m) = Some v.
Proof.
  induction m as [|[k' v'] m IH]; simpl; [by rewrite Z.eqb_refl|].
  destruct (k =? k') eqn:E1; simpl; [by rewrite Z.eqb_refl|].
  destruct (k <? k'); simpl; [by rewrite Z.eqb_refl|]. by rewrite E1.
Qed.

Lemma bt_get_insert_ne k k' v m : k ≠ k' → bt_get k (bt_insert k' v m) = bt_get k m.
Proof.
  intros Hne. induction m as [|[k1 v1] m IH]; simpl.
  - by destruct (Z.eqb_spec k k').
  - destruct (Z.eqb_spec k' k1) as [->|]; simpl.
    + destruct (Z.eqb_spec k k1); congruence.
    + destruct (k' <? k1); simpl; [|by rewrite IH].
      destruct (Z.eqb_spec k k'); congruence.
Qed.

Lemma bt_insert_elem_keys k v m kv : kv ∈ bt_insert k v m → kv = (k, v) ∨ kv ∈ m.
Proof.
  induction m as [|[k1 v1] m IH]; simpl; [set_solver|].
  repeat case_bool; set_solver.
Qed.

Lemma bt_remove_elem k m kv : kv ∈ bt_remove k m → kv ∈ m.
Proof. induction m as [|[k1 v1] m IH]; simpl; [set_solver|]. case_bool; set_solver. Qed.

Lemma bt_wf_insert k v m : bt_wf m → bt_wf (bt_insert k v m).
Proof.
  induction m as [|[k1 v1] m IH]; simpl.
  - intros _. apply bt_wf_cons. split; [constructor|apply bt_wf_nil].
  - rewrite bt_wf_cons. intros [Hlt Hwf]. repeat case_bool; reflect_bools; subst.
    + by apply bt_wf_cons.
    + apply bt_wf_cons. split; [|by apply bt_wf_cons].
      constructor; [done|]. eapply Forall_impl; [done|]. simpl. lia.
    + apply bt_wf_cons. split; [|auto]. apply Forall_forall. intros kv Hin.
      apply bt_insert_elem_keys in Hin as [->|Hin]; simpl; [lia|].
      by rewrite Forall_forall in Hlt; apply Hlt.
Qed.

Lemma bt_wf_remove k m : bt_wf m → bt_wf (bt_remove k m).
Proof.
  induction m as [|[k1 v1] m IH]; simpl; [done|].
  rewrite bt_wf_cons. intros [Hlt Hwf]. case_bool; [done|]. apply bt_wf_cons. split; [|auto].
  apply Forall_forall. intros kv Hin%bt_remove_elem. by rewrite Forall_forall in Hlt; apply Hlt.
Qed.

Lemma bt_get_remove_eq k m : bt_wf m → bt_get k (bt_remove k m) = None.
Proof.
  induction m as [|[k1 v1] m IH]; simpl; [done|].
  rewrite bt_wf_cons. intros [Hlt Hwf]. destruct (Z.eqb_spec k k1) as [->|Hne]; simpl.
  - destruct (bt_get k1 m) eqn:E; [|done]. apply bt_get_Some_elem in E.
    rewrite Forall_forall in Hlt. specialize (Hlt _ E). simpl in Hlt. lia.
  - apply Z.eqb_neq in Hne. rewrite Hne. auto.
Qed.

Lemma bt_get_remove_ne k k' m : k ≠ k' → bt_get k (bt_remove k' m) = bt_get k m.
Proof.
  intros Hne. induction m as [|[k1 v1] m IH]; simpl; [done|].
  destruct (Z.eqb_spec k' k1) as [->|]; simpl.
  - destruct (Z.eqb_spec k k1); congruence.
  - by rewrite IH.
Qed.

Lemma bt_get_insert k k' v m :
  bt_get k (bt_insert k' v m) = if k =? k' then Some v else bt_get k m.
Proof.
  destruct (Z.eqb_spec k k') as [->|]; [apply bt_get_insert_eq|by apply bt_get_insert_ne].
Qed.

Lemma bt_get_remove k k' m :
  bt_wf m → bt_get k (bt_remove k' m) = if k =? k' then None else bt_get k m.
Proof.
  intros. destruct (Z.eqb_spec k k') as [->|]; [by apply bt_get_remove_eq|by apply bt_get_remove_ne].
Qed.

Lemma bt_wf_app_keys m1 k v m2 :
  bt_wf (m1 ++ (k, v) :: m2) → (∀ kv, kv ∈ m1 → kv.1 < k) ∧ (∀ kv, kv ∈ m2 → k < kv.1).
Proof.
  induction m1 as [|[k1 v1] m1 IH]; simpl.
  - rewrite bt_wf_cons, Forall_forall. set_solver.
  - rewrite bt_wf_cons, Forall_forall. intros [Hlt Hwf]. destruct (IH Hwf) as [IH1 IH2].
    split; [|done]. intros kv [->|Hin]%elem_of_cons; [|auto]. apply (Hlt (k, v)). set_solver.
Qed.

(** Overwriting a present key changes nothing else. *)
Lemma bt_insert_split k v v' m1 m2 :
  bt_wf (m1 ++ (k, v) :: m2) → bt_insert k v' (m1 ++ (k, v) :: m2) = m1 ++ (k, v') :: m2.
Proof.
  induction m1 as [|[k1 v1] m1 IH]; simpl; [by rewrite Z.eqb_refl|].
  rewrite bt_wf_cons, Forall_app, Forall_cons. simpl. intros [(_ & Hlt & _) Hwf].
  destruct (Z.eqb_spec k k1); [lia|]. destruct (Z.ltb_spec k k1); [lia|]. by rewrite IH.
Qed.
End BTreeMap.

#[export] Hint Resolve bt_wf_nil bt_wf_insert bt_wf_remove : rust.
