(* ===== verification/RustStr.v ===== *)
(** The [str] functions of the Rust standard library that the source calls:
    lengths, prefixes, splitting, padding, character classes, and the
    decimal rendering and parsing of unsigned integers. *)

From S2P Require Import Prelude.

(** Number of UTF-8 bytes of a scalar value; [str::len] counts bytes. *)
Definition char_len_utf8 (c : Z) : Z :=
  if c <? 128 then 1 else if c <? 2048 then 2 else if c <? 65536 then 3 else 4.

Definition str_len (s : rstring) : Z := Zsum_with char_len_utf8 s.

Definition is_ascii_digit (c : Z) : bool := (48 <=? c) && (c <=? 57).
Definition is_ascii_hexdigit (c : Z) : bool :=
  is_ascii_digit c || ((97 <=? c) && (c <=? 102)) || ((65 <=? c) && (c <=? 70)).

(** [char::is_whitespace]: the Unicode property White_Space. *)
Definition is_whitespace (c : Z) : bool :=
  ((9 <=? c) && (c <=? 13)) || (c =? 32) || (c =? 133) || (c =? 160) || (c =? 5760)
  || ((8192 <=? c) && (c <=? 8202)) || (c =? 8232) || (c =? 8233) || (c =? 8239)
  || (c =? 8287) || (c =? 12288).

(** [str::to_lowercase] on the ASCII range. *)
Definition to_ascii_lowercase_char (c : Z) : Z :=
  if (65 <=? c) && (c <=? 90) then c + 32 else c.
Definition to_ascii_lowercase (s : rstring) : rstring := to_ascii_lowercase_char <$> s.

Definition eq_ignore_ascii_case (a b : rstring) : bool :=
  bool_decide (to_ascii_lowercase a = to_ascii_lowercase b).

Fixpoint strip_prefix (p s : rstring) : option rstring :=
  match p, s with
  | [], _ => Some s
  | c :: p', d :: s' => if c =? d then strip_prefix p' s' else None
  | _ :: _, [] => None
  end.

Definition starts_with (p s : rstring) : bool := bool_decide (is_Some (strip_prefix p s)).

(** [s.trim_start_matches("0x")]: every leading [0x] is dropped. *)
Fixpoint trim_0x (fuel : nat) (s : rstring) : rstring :=
  match fuel with
  | O => s
  | S fuel' => match strip_prefix (str "0x") s with Some s' => trim_0x fuel' s' | None => s end
  end.

(** [strip_suffix] of one character, and [trim]. *)
Definition strip_suffix_char (c : Z) (s : rstring) : option rstring :=
  match reverse s with
  | d :: r => if d =? c then Some (reverse r) else None
  | [] => None
  end.

Fixpoint trim_start (s : rstring) : rstring :=
  match s with c :: s' => if is_whitespace c then trim_start s' else s | [] => [] end.
Definition trim (s : rstring) : rstring := reverse (trim_start (reverse (trim_start s))).

(** [format!("{:0>w$}", s)]: pad with zeros on the left to [w] characters. *)
Definition pad_left0 (w : nat) (s : rstring) : rstring := replicate (w - length s) 48 ++ s.

(** [s.find(p)], returning what precedes and what follows the first match. *)
Fixpoint split_once (p s : rstring) : option (rstring * rstring) :=
  match strip_prefix p s with
  | Some rest => Some ([], rest)
  | None =>
      match s with
      | [] => None
      | c :: s' => prod_map (cons c) id <$> split_once p s'
      end
  end.

(** [s.contains(p)]. *)
Definition contains (p s : rstring) : bool := bool_decide (is_Some (split_once p s)).

(** [s.split("::")]. *)
Fixpoint split_colons_aux (acc s : rstring) : list rstring :=
  match s with
  | [] => [acc]
  | c :: s' =>
      match s' with
      | d :: s'' =>
          if (c =? 58) && (d =? 58) then acc :: split_colons_aux [] s''
          else split_colons_aux (acc ++ [c]) s'
      | [] => [acc ++ [c]]
      end
  end.
Definition split_colons (s : rstring) : list rstring := split_colons_aux [] s.

(** [chars().take_while(f)] and what follows it. *)
Fixpoint span (f : Z → bool) (s : rstring) : rstring * rstring :=
  match s with
  | [] => ([], [])
  | c :: s' => if f c then prod_map (cons c) id (span f s') else ([], s)
  end.

(** ** Decimal integers *)

(** [n.to_string()] of an unsigned integer; the fuel is the number of
    digits, at most 20 for a [u64]. *)
Fixpoint digits_fuel (fuel : nat) (n : Z) : rstring :=
  match fuel with
  | O => []
  | S fuel' => (if n <? 10 then [] else digits_fuel fuel' (n / 10)) ++ [48 + n mod 10]
  end.
Definition u64_to_string (n : Z) : rstring := digits_fuel 20 n.

Inductive ParseIntError := PieEmpty | PieInvalidDigit | PiePosOverflow.

(** [s.parse::<u64>()]: an optional [+], then digits with checked arithmetic. *)
Fixpoint parse_digits (acc : Z) (s : rstring) : result ParseIntError Z :=
  match s with
  | [] => Ok acc
  | c :: s' =>
      if is_ascii_digit c then
        if acc * 10 <=? u64_max then
          if acc * 10 + (c - 48) <=? u64_max then parse_digits (acc * 10 + (c - 48)) s'
          else Err PiePosOverflow
        else Err PiePosOverflow
      else Err PieInvalidDigit
  end.
Definition parse_u64 (s : rstring) : result ParseIntError Z :=
  match s with
  | [] => Err PieEmpty
  | c :: s' =>
      if c =? 43 then match s' with [] => Err PieInvalidDigit | _ => parse_digits 0 s' end
      else parse_digits 0 s
  end.

(** * Lemmas *)

Lemma strip_prefix_app p s : strip_prefix p (p ++ s) = Some s.
Proof. induction p as [|c p IH]; simpl; [by destruct s|]. by rewrite Z.eqb_refl. Qed.

Lemma strip_prefix_Some p s r : strip_prefix p s = Some r → s = p ++ r.
Proof.
  revert s. induction p as [|c p IH]; intros [|d s]; simpl; intros; simplify_eq; [done..|].
  destruct (Z.eqb_spec c d); [|done]. subst. f_equal. auto.
Qed.

Lemma split_once_Some p s a b : split_once p s = Some (a, b) → s = a ++ p ++ b.
Proof.
  revert a b. induction s as [|c s IH]; intros a b; simpl;
    destruct (strip_prefix p _) eqn:E; intros H; simplify_eq.
  - by apply strip_prefix_Some in E.
  - by apply strip_prefix_Some in E.
  - destruct (split_once p s) as [[a' b']|]; [|done]. simplify_eq/=. by rewrite <- IH.
Qed.

Lemma length_pad_left0 w s : (length s ≤ w)%nat → length (pad_left0 w s) = w.
Proof. intros. unfold pad_left0. rewrite length_app, length_replicate. lia. Qed.

Lemma pad_left0_id w s : (w ≤ length s)%nat → pad_left0 w s = s.
Proof. intros. unfold pad_left0. replace (w - length s)%nat with O by lia. done. Qed.

(** Absence of a character from a literal, by computation. *)
Lemma not_in_text (c : Z) (s : rstring) : bool_decide (c ∈ s) = false → c ∉ s.
Proof. apply bool_decide_eq_false. Qed.

(** Splitting at [::] and joining is the identity. *)
Fixpoint join_colons (l : list rstring) : rstring :=
  match l with
  | [] => []
  | [s] => s
  | s :: l' => s ++ [58; 58] ++ join_colons l'
  end.

Lemma split_colons_aux_ne acc s : split_colons_aux acc s ≠ [].
Proof.
  revert acc. induction s as [|c s IH]; intros acc; simpl; [done|].
  destruct s; [done|]. by case_bool.
Qed.

Lemma split_colons_aux_cons2 acc c d s :
  split_colons_aux acc (c :: d :: s) =
  if (c =? 58) && (d =? 58) then acc :: split_colons_aux [] s
  else split_colons_aux (acc ++ [c]) (d :: s).
Proof. done. Qed.

Lemma join_colons_cons s l : l ≠ [] → join_colons (s :: l) = s ++ [58; 58] ++ join_colons l.
Proof. by destruct l. Qed.

Lemma join_split_colons_aux s : ∀ acc, join_colons (split_colons_aux acc s) = acc ++ s.
Proof.
  induction s as [s IH] using (well_founded_induction (well_founded_ltof _ (@length Z))).
  intros acc. destruct s as [|c [|d s]]; [by rewrite app_nil_r|done|].
  rewrite split_colons_aux_cons2. destruct ((c =? 58) && (d =? 58)) eqn:E.
  - reflect_bools; subst. rewrite join_colons_cons by apply split_colons_aux_ne.
    rewrite IH by (unfold ltof; simpl; lia). done.
  - rewrite (IH (d :: s)) by (unfold ltof; simpl; lia). by rewrite <- app_assoc.
Qed.

Lemma join_split_colons s : join_colons (split_colons s) = s.
Proof. apply join_split_colons_aux. Qed.

(** Cutting at the first [::]. *)
Lemma split_once_colons a r : 58 ∉ a → split_once (str "::") (a ++ str "::" ++ r) = Some (a, r).
Proof.
  change (str "::") with [58; 58]. induction a as [|c a IH]; intros Hc; cbn [app]; [done|].
  cbn [split_once strip_prefix]. destruct (Z.eqb_spec 58 c) as [<-|]; [set_solver|].
  cbn [app] in IH. rewrite IH by set_solver. done.
Qed.

(** ** Decimal round trip *)

Lemma is_ascii_digit_range n : 0 ≤ n < 10 → is_ascii_digit (48 + n) = true.
Proof. intros. unfold is_ascii_digit. apply andb_true_iff. rewrite !Z.leb_le. lia. Qed.

Lemma parse_digits_app s1 s2 acc :
  parse_digits acc (s1 ++ s2) = a ← parse_digits acc s1; parse_digits a s2.
Proof.
  revert acc. induction s1 as [|c s1 IH]; intros acc; simpl; [done|].
  repeat case_match; try done.
Qed.

Lemma parse_digits_of_digits fuel n :
  0 ≤ n ≤ u64_max → n < 10 ^ Z.of_nat fuel → parse_digits 0 (digits_fuel fuel n) = Ok n.
Proof.
  revert n. induction fuel as [|fuel IH]; intros n Hn Hlt.
  { simpl in *. by replace n with 0 by lia. }
  rewrite Nat2Z.inj_succ, Z.pow_succ_r in Hlt by lia.
  pose proof (Z.div_mod n 10 ltac:(lia)) as Hdm. pose proof (Z.mod_pos_bound n 10 ltac:(lia)).
  cbn [digits_fuel]. rewrite parse_digits_app. destruct (n <? 10) eqn:E; reflect_bools.
  - cbn [parse_digits mbind result_bind]. rewrite is_ascii_digit_range by lia.
    rewrite Z.mod_small by lia. unfold u64_max in *. repeat case_bool; reflect_bools; try lia.
    f_equal; lia.
  - rewrite IH; [|split; [apply Z.div_pos; lia|] |apply Z.div_lt_upper_bound; lia].
    2: { etransitivity; [apply (Z.div_le_upper_bound _ _ n); lia|]. lia. }
    cbn [parse_digits mbind result_bind]. rewrite is_ascii_digit_range by lia.
    repeat case_bool; reflect_bools; try lia. f_equal; lia.
Qed.

Lemma digits_fuel_head fuel n : ∃ c s, digits_fuel (S fuel) n = c :: s.
Proof.
  simpl. destruct ((if n <? 10 then [] else digits_fuel fuel (n / 10))) eqn:E; simpl; eauto.
Qed.

Lemma digits_fuel_digit fuel n c : 0 ≤ n → c ∈ digits_fuel fuel n → is_ascii_digit c = true.
Proof.
  revert n. induction fuel as [|fuel IH]; intros n Hn; simpl; [set_solver|].
  rewrite elem_of_app, list_elem_of_singleton. intros [Hin| ->].
  - destruct (n <? 10); [set_solver|]. eapply IH; [|done]. apply Z.div_pos; lia.
  - apply is_ascii_digit_range, Z.mod_pos_bound. lia.
Qed.

Lemma parse_u64_digits fuel n :
  u64 n → n < 10 ^ Z.of_nat (S fuel) → parse_u64 (digits_fuel (S fuel) n) = Ok n.
Proof.
  intros Hn Hlt. pose proof (parse_digits_of_digits (S fuel) n Hn Hlt) as Hp.
  pose proof (λ c, digits_fuel_digit (S fuel) n c (proj1 Hn)) as Hd.
  destruct (digits_fuel_head fuel n) as (c & s & E). rewrite E in *.
  unfold parse_u64. destruct (Z.eqb_spec c 43) as [->|]; [|done].
  specialize (Hd 43). set_solver.
Qed.

Lemma parse_u64_to_string n : u64 n → parse_u64 (u64_to_string n) = Ok n.
Proof. intros Hn. apply parse_u64_digits; [done|]. unfold u64, u64_max in Hn. lia. Qed.

#[export] Hint Rewrite strip_prefix_app : rust.

Lemma parse_digits_u64 acc s n : u64 acc → parse_digits acc s = Ok n → u64 n.
Proof.
  revert acc. induction s as [|c s IH]; cbn [parse_digits]; intros acc Hacc; [by intros [= <-]|].
  unfold is_ascii_digit. destruct (_ && _) eqn:Hc; [|done]. reflect_bools.
  case_bool; [|done]. case_bool; [|done]. reflect_bools. apply IH. unfold u64 in *. lia.
Qed.

Lemma parse_u64_range s n : parse_u64 s = Ok n → u64 n.
Proof.
  assert (u64 0) as H0 by (unfold u64, u64_max; lia).
  unfold parse_u64. destruct s as [|c s]; [done|].
  destruct (c =? 43); [destruct s; [done|]|]; by apply parse_digits_u64.
Qed.
