(* ===== verification/ExchangeTypes.v ===== *)
(** [crates/exchange-types]: addresses and digests, the rounding arithmetic
    of [math.rs], markets and orders. *)

From S2P Require Import Prelude RustStr.

(** * Addresses and digests ([types.rs]) *)

(** A byte is a [Z] in [0, 256); [[u8; 32]] a list of 32 of them. *)
Definition bytes (l : list Z) : Prop := Forall (λ b, 0 ≤ b < 256) l.
Definition bytes32 (l : list Z) : Prop := length l = 32%nat ∧ bytes l.

Record SuiAddress := mkSuiAddress { addr_bytes : list Z }.
Abbreviation ObjectId := SuiAddress.
Abbreviation MarketId := SuiAddress.
Record Digest := mkDigest { digest_bytes : list Z }.

#[export] Instance SuiAddress_eq_dec : EqDecision SuiAddress.
Proof. solve_decision. Defined.
#[export] Instance SuiAddress_countable : Countable SuiAddress.
Proof. by refine (inj_countable' addr_bytes mkSuiAddress _); intros []. Defined.
#[export] Instance Digest_eq_dec : EqDecision Digest.
Proof. solve_decision. Defined.
#[export] Instance Digest_countable : Countable Digest.
Proof. by refine (inj_countable' digest_bytes mkDigest _); intros []. Defined.

(** The [hex] crate, and what its documentation promises: lower-case
    two-digit encoding, and a decoder that inverts it and accepts only
    pairs of hex digits. *)
Class HexCrate := {
  hex_encode : list Z → rstring;
  hex_decode : rstring → option (list Z);
}.

Class HexCrateSpec `{HexCrate} : Prop := {
  hex_decode_encode bs : bytes bs → hex_decode (hex_encode bs) = Some bs;
  hex_encode_length bs : length (hex_encode bs) = (2 * length bs)%nat;
  hex_encode_digits bs c : bytes bs → c ∈ hex_encode bs → is_ascii_hexdigit c = true;
  hex_decode_length s bs : hex_decode s = Some bs → length s = (2 * length bs)%nat;
  hex_decode_bytes s bs : hex_decode s = Some bs → bytes bs;
}.

Inductive ParseHexError := mkParseHexError (s : rstring).

Section hex.
Context `{HexCrate}.

Definition parse_hex_32 (s : rstring) (pad : bool) : result ParseHexError (list Z) :=
  let stripped := default s (strip_prefix (str "0x") s) in
  let hex_str := if pad && (str_len stripped <? 64) then pad_left0 64 stripped else stripped in
  bytes ← ok_or (hex_decode hex_str) (mkParseHexError s);
  if decide (length bytes = 32%nat) then Ok bytes else Err (mkParseHexError s).

Definition SuiAddress_parse (s : rstring) : result ParseHexError SuiAddress :=
  mkSuiAddress <$> parse_hex_32 s true.

Definition SuiAddress_to_hex (a : SuiAddress) : rstring := str "0x" ++ hex_encode (addr_bytes a).

Definition Digest_parse (s : rstring) : result ParseHexError Digest :=
  mkDigest <$> parse_hex_32 s false.

Definition Digest_to_hex (d : Digest) : rstring := str "0x" ++ hex_encode (digest_bytes d).
End hex.

Definition SuiAddress_ZERO : SuiAddress := mkSuiAddress (replicate 32 0).
Definition SuiAddress_is_zero (a : SuiAddress) : bool :=
  bool_decide (addr_bytes a = replicate 32 0).

(** * Rounding arithmetic ([math.rs]) *)

Definition u128_div_ceil (n d : Z) : Z := if n mod d =? 0 then n / d else n / d + 1.

(** Division by [c = 0] panics in the source; every caller passes a
    positive divisor. *)
Definition muldiv_floor (a b c : Z) : Z := wrap64 (u128_mul a b / c).
Definition muldiv_ceil (a b c : Z) : Z := wrap64 (u128_div_ceil (u128_mul a b) c).
Definition fee_amount (amount bps : Z) : Z := muldiv_floor amount bps 10000.
Definition price_gte (a_num a_den b_num b_den : Z) : bool :=
  u128_mul b_num a_den <=? u128_mul a_num b_den.

(** * Orders ([order.rs]) *)

Record Order := mkOrder {
  maker_token : rstring;
  taker_token : rstring;
  maker_amount : Z;
  taker_amount : Z;
  max_fee_bps : Z;
  maker : SuiAddress;
  maker_manager_id : ObjectId;
  taker : SuiAddress;
  sender : SuiAddress;
  expiry_ms : Z;
  salt : Z;
}.

Inductive SignatureScheme := Ed25519 | Secp256k1.

Definition scheme_flag (s : SignatureScheme) : Z :=
  match s with Ed25519 => 0 | Secp256k1 => 1 end.

Definition scheme_from_flag (flag : Z) : option SignatureScheme :=
  if flag =? 0 then Some Ed25519 else if flag =? 1 then Some Secp256k1 else None.

Record SignedOrder := mkSignedOrder {
  order : Order;
  registry_id : ObjectId;
  scheme : SignatureScheme;
  signature : list Z;
  public_key : list Z;
}.

Definition prefixed_signature (s : SignedOrder) : list Z :=
  scheme_flag (scheme s) :: signature s.

#[export] Instance SignatureScheme_eq_dec : EqDecision SignatureScheme.
Proof. solve_decision. Defined.
#[export] Instance Order_eq_dec : EqDecision Order.
Proof. solve_decision. Defined.
#[export] Instance SignedOrder_eq_dec : EqDecision SignedOrder.
Proof. solve_decision. Defined.

(** The fields of an order are within the ranges of their Rust types. *)
Definition order_wf (o : Order) : Prop :=
  u64 (maker_amount o) ∧ u64 (taker_amount o) ∧ u64 (max_fee_bps o) ∧
  u64 (expiry_ms o) ∧ u64 (salt o) ∧
  bytes32 (addr_bytes (maker o)) ∧ bytes32 (addr_bytes (maker_manager_id o)) ∧
  bytes32 (addr_bytes (taker o)) ∧ bytes32 (addr_bytes (sender o)).

(** * Markets ([market.rs]) *)

Inductive Side := Bid | Ask.

#[export] Instance Side_eq_dec : EqDecision Side.
Proof. solve_decision. Defined.

Definition opposite (s : Side) : Side := match s with Bid => Ask | Ask => Bid end.

Record Market := mkMarket {
  symbol : rstring;
  m_registry_id : MarketId;
  base : rstring;
  quote : rstring;
  tick_size : Z;
  min_size : Z;
  lot_size : Z;
  current_fee_bps : Z;
}.

#[export] Instance Market_eq_dec : EqDecision Market.
Proof. solve_decision. Defined.

Definition side_of (m : Market) (o : Order) : option Side :=
  if bool_decide (maker_token o = base m) && bool_decide (taker_token o = quote m) then Some Ask
  else if bool_decide (maker_token o = quote m) && bool_decide (taker_token o = base m) then Some Bid
  else None.

Definition market_wf (m : Market) : Prop :=
  u64 (tick_size m) ∧ u64 (min_size m) ∧ u64 (lot_size m) ∧ u64 (current_fee_bps m).

(** * Lemmas *)

Section hex_lemmas.
Context `{HexCrateSpec}.

Lemma hex_encode_str_len bs : bytes bs → str_len (hex_encode bs) = Z.of_nat (2 * length bs).
Proof.
  intros Hbs. rewrite <- hex_encode_length. unfold str_len.
  assert (∀ c, c ∈ hex_encode bs → char_len_utf8 c = 1) as Hlen.
  { intros c Hc. apply hex_encode_digits in Hc; [|done].
    unfold is_ascii_hexdigit, is_ascii_digit in Hc. unfold char_len_utf8.
    assert (c < 128) as Hlt by lia. apply Z.ltb_lt in Hlt. by rewrite Hlt. }
  induction (hex_encode bs) as [|c s IH]; [done|].
  rewrite Zsum_with_cons, Hlen by set_solver. cbn [length]. rewrite IH by set_solver. lia.
Qed.

Lemma parse_hex_32_to_hex bs pad :
  bytes32 bs → parse_hex_32 (str "0x" ++ hex_encode bs) pad = Ok bs.
Proof.
  intros [Hlen Hbs]. unfold parse_hex_32. rewrite strip_prefix_app. unfold default, id.
  rewrite hex_encode_str_len, Hlen by done. rewrite andb_false_r.
  rewrite hex_decode_encode by done. simpl. by rewrite decide_True.
Qed.

Lemma parse_hex_32_bytes s pad bs : parse_hex_32 s pad = Ok bs → bytes32 bs.
Proof.
  unfold parse_hex_32, bytes32. destruct (hex_decode _) eqn:E; simpl; [|done].
  case_decide; intros; simplify_eq. eauto using hex_decode_bytes.
Qed.
End hex_lemmas.

Section math_lemmas.
Implicit Types a b c : Z.

Lemma muldiv_floor_exact a b c :
  u64 a → u64 b → 0 < c → a * b / c ≤ u64_max → muldiv_floor a b c = a * b / c.
Proof.
  intros Ha Hb Hc Hle. unfold muldiv_floor. rewrite u128_mul_u64 by done.
  apply wrap64_small. split; [|done]. apply Z.div_pos; [unfold u64 in *; nia|done].
Qed.

(** The quotient fits whenever one factor is at most the divisor. *)
Lemma muldiv_floor_le a b c :
  u64 a → u64 b → 0 < c → b ≤ c → muldiv_floor a b c = a * b / c ∧ muldiv_floor a b c ≤ a.
Proof.
  intros Ha Hb Hc Hle. assert (a * b / c ≤ a) by (apply Z.div_le_upper_bound; unfold u64 in *; nia).
  rewrite muldiv_floor_exact; unfold u64 in *; auto with lia.
Qed.

Lemma u128_div_ceil_spec n d : 0 < d → (u128_div_ceil n d - 1) * d < n ≤ u128_div_ceil n d * d.
Proof.
  intros Hd. unfold u128_div_ceil. pose proof (Z.div_mod n d ltac:(lia)).
  pose proof (Z.mod_pos_bound n d Hd). destruct (n mod d =? 0) eqn:E; reflect_bools; nia.
Qed.
End math_lemmas.

Lemma scheme_from_flag_flag s : scheme_from_flag (scheme_flag s) = Some s.
Proof. by destruct s. Qed.

#[export] Hint Resolve parse_hex_32_to_hex : rust.
