(* ===== verification/Demo.v ===== *)
(** The market, addresses and orders the concrete instances share. *)

From Stdlib Require Import String.
From S2P Require Import Prelude RustStr ExchangeTypes.

Definition demo_addr (n : Z) : SuiAddress := mkSuiAddress (replicate 32 n).
Definition demo_digest (n : Z) : Digest := mkDigest [n].
(** A coin type in canonical form, from the last digit of its address. *)
Definition demo_type (digit name : string) : rstring :=
  str "0x" ++ replicate 63 48 ++ str digit ++ str "::" ++ str name.
Definition demo_market : Market :=
  mkMarket (str "BASE/QUOTE") (demo_addr 7) (demo_type "b" "b::BASE") (demo_type "c" "c::QUOTE") 1000 100 1000000 25.

(** An order of [n] base units at [ticks] on the demonstration market. *)
Definition demo_order (s : Side) (mk n ticks : Z) : Order :=
  let q := n * ticks / 1000 in
  match s with
  | Ask => mkOrder (base demo_market) (quote demo_market) n q 0 (demo_addr mk) (demo_addr 9)
             (demo_addr 0) (demo_addr 0) 100000 1
  | Bid => mkOrder (quote demo_market) (base demo_market) q n 0 (demo_addr mk) (demo_addr 9)
             (demo_addr 0) (demo_addr 0) 100000 1
  end.

Lemma demo_order_wf s mk n t :
  0 ≤ mk < 256 → u64 n → u64 (n * t / 1000) → order_wf (demo_order s mk n t).
Proof.
  intros Hmk Hn Ht. unfold order_wf, demo_order, bytes32, bytes.
  assert (∀ z, 0 ≤ z < 256 → length (replicate 32 z) = 32%nat ∧ Forall (λ x, 0 ≤ x < 256) (replicate 32 z)).
  { intros z Hz. split; [done|]. by apply Forall_replicate. }
  destruct s; cbn [maker_amount taker_amount max_fee_bps expiry_ms salt maker maker_manager_id taker
    sender addr_bytes demo_addr]; split_and!;
    match goal with
    | |- u64 n => exact Hn
    | |- u64 (_ / 1000) => exact Ht
    | |- u64 _ => unfold u64, u64_max; lia
    | |- _ => apply H; lia
    end.
Qed.

(** * A hex codec

    Stands in for the [hex] crate in the concrete instances. *)

Definition hex_digit (d : Z) : Z := if d <? 10 then 48 + d else 87 + d.

Definition hex_digit_value (c : Z) : option Z :=
  if is_ascii_digit c then Some (c - 48)
  else if (97 <=? c) && (c <=? 102) then Some (c - 87)
  else if (65 <=? c) && (c <=? 70) then Some (c - 55)
  else None.

Definition demo_hex_encode (bs : list Z) : rstring :=
  flat_map (λ b, [hex_digit (b / 16); hex_digit (b mod 16)]) bs.

Fixpoint demo_hex_decode (s : rstring) : option (list Z) :=
  match s with
  | [] => Some []
  | [_] => None
  | c :: d :: s' =>
      hi ← hex_digit_value c; lo ← hex_digit_value d; bs ← demo_hex_decode s'; Some (hi * 16 + lo :: bs)
  end.

#[export] Instance demo_hex : HexCrate :=
  {| hex_encode := demo_hex_encode; hex_decode := demo_hex_decode |}.

Lemma hex_digit_spec d :
  0 ≤ d < 16 → hex_digit_value (hex_digit d) = Some d ∧ is_ascii_hexdigit (hex_digit d) = true.
Proof.
  intros Hd. assert (d ∈ seqZ 0 16) as Hin by (apply elem_of_seqZ; lia).
  assert (forallb (λ d, bool_decide (hex_digit_value (hex_digit d) = Some d) &&
    is_ascii_hexdigit (hex_digit d)) (seqZ 0 16) = true) as HF by (vm_compute; reflexivity).
  rewrite forallb_forall in HF. specialize (HF d). rewrite <- list_elem_of_In in HF.
  specialize (HF Hin). reflect_bools. by split.
Qed.

Lemma hex_digit_value_range c d : hex_digit_value c = Some d → 0 ≤ d < 16.
Proof.
  unfold hex_digit_value, is_ascii_digit. repeat case_bool; intros; simplify_eq; reflect_bools; lia.
Qed.

Lemma demo_hex_decode_facts s : ∀ bs, demo_hex_decode s = Some bs →
  length s = (2 * length bs)%nat ∧ bytes bs.
Proof.
  induction s as [s IH] using (well_founded_induction (well_founded_ltof _ (@length Z))).
  intros bs. destruct s as [|c [|d s]]; cbn [demo_hex_decode]; [intros [= <-]; split; [done|constructor]|done|].
  intros (hi & Hhi & (lo & Hlo & (bs' & Hbs & [= <-])%bind_Some)%bind_Some)%bind_Some.
  apply hex_digit_value_range in Hhi, Hlo.
  destruct (IH s ltac:(unfold ltof; simpl; lia) _ Hbs) as [Hl Hb].
  split; [simpl; lia|]. constructor; [lia|done].
Qed.

Lemma demo_hex_encode_cons b bs :
  demo_hex_encode (b :: bs) = hex_digit (b / 16) :: hex_digit (b mod 16) :: demo_hex_encode bs.
Proof. done. Qed.

Lemma nibbles b : 0 ≤ b < 256 → 0 ≤ b / 16 < 16 ∧ 0 ≤ b mod 16 < 16 ∧ b / 16 * 16 + b mod 16 = b.
Proof.
  intros Hb. pose proof (Z.div_mod b 16). pose proof (Z.mod_pos_bound b 16).
  split_and!; lia.
Qed.

#[export] Instance demo_hex_spec : HexCrateSpec.
Proof.
  split; unfold hex_encode, hex_decode, demo_hex.
  - induction 1 as [|b bs Hb Hbs IH]; [done|]. rewrite demo_hex_encode_cons.
    destruct (nibbles b Hb) as (H1 & H2 & E). cbn [demo_hex_decode].
    destruct (hex_digit_spec _ H1) as [-> _], (hex_digit_spec _ H2) as [-> _].
    cbn [mbind option_bind]. rewrite IH. cbn [mbind option_bind]. by rewrite E.
  - intros bs. induction bs as [|b bs IH]; [done|]. rewrite demo_hex_encode_cons. cbn [length]. lia.
  - intros bs c Hbs. induction Hbs as [|b bs Hb Hbs IH]; [by intros ?%elem_of_nil|].
    destruct (nibbles b Hb) as (H1 & H2 & _).
    rewrite demo_hex_encode_cons, !elem_of_cons. intros [->|[->|Hc]]; [| |by apply IH];
      by apply hex_digit_spec.
  - intros s bs Hs. by apply demo_hex_decode_facts.
  - intros s bs Hs. by apply (demo_hex_decode_facts s).
Qed.
