(* ===== verification/Book.v ===== *)
(** [crates/exchange-book]: the per-market matching engine, operation by
    operation.  The proofs are in [BookMatch.v] (matching) and [BookInv.v]
    (the book invariant). *)

From S2P Require Import Prelude BTreeMap RustStr ExchangeTypes.

Inductive BookError := WrongMarket | OffTick | BelowMinSize | Duplicate | Overflow.

Inductive SelfTradePolicy := CancelNewest | Allow.

Record RestingOrder := mkResting {
  ro_digest : Digest;
  ro_maker : SuiAddress;
  ro_side : Side;
  ro_price_ticks : Z;
  ro_remaining_base : Z;
  ro_pending_base : Z;
  ro_seq : Z;
}.

Definition available_base (o : RestingOrder) : Z :=
  u64_sub (ro_remaining_base o) (ro_pending_base o).

Definition set_pending (p : Z) (o : RestingOrder) : RestingOrder :=
  mkResting (ro_digest o) (ro_maker o) (ro_side o) (ro_price_ticks o)
    (ro_remaining_base o) p (ro_seq o).
Definition set_remaining (r : Z) (o : RestingOrder) : RestingOrder :=
  mkResting (ro_digest o) (ro_maker o) (ro_side o) (ro_price_ticks o)
    r (ro_pending_base o) (ro_seq o).

Record MatchIntent := mkMatchIntent {
  mi_market : SuiAddress;
  ask_digest : Digest;
  bid_digest : Digest;
  fill_base_amount : Z;
  exec_price_ticks : Z;
}.

Inductive PlaceOutcome := Matched | Rested (remaining_base : Z) | SelfTradeCancelled.

Record BookLevel := mkBookLevel { price_ticks : Z; base_quantity : Z; order_count : Z }.

#[export] Instance BookError_eq_dec : EqDecision BookError.
Proof. solve_decision. Defined.
#[export] Instance SelfTradePolicy_eq_dec : EqDecision SelfTradePolicy.
Proof. solve_decision. Defined.
#[export] Instance RestingOrder_eq_dec : EqDecision RestingOrder.
Proof. solve_decision. Defined.
#[export] Instance MatchIntent_eq_dec : EqDecision MatchIntent.
Proof. solve_decision. Defined.
#[export] Instance PlaceOutcome_eq_dec : EqDecision PlaceOutcome.
Proof. solve_decision. Defined.
#[export] Instance BookLevel_eq_dec : EqDecision BookLevel.
Proof. solve_decision. Defined.

(** Price in ticks and size in base units of an order on a market's grid. *)
Definition price_and_size (m : Market) (o : Order) : result BookError (Side * Z * Z) :=
  side ← ok_or (side_of m o) WrongMarket;
  let '(base_amount, quote_amount) :=
    match side with
    | Ask => (maker_amount o, taker_amount o)
    | Bid => (taker_amount o, maker_amount o)
    end in
  if (base_amount =? 0) || (quote_amount =? 0) then Err BelowMinSize else
  let num := u128_mul quote_amount (lot_size m) in
  let den := u128_mul base_amount (tick_size m) in
  if (den =? 0) || negb (num mod den =? 0) then Err OffTick else
  ticks ← (if num / den <=? u64_max then Ok (num / den) else Err Overflow);
  if ticks =? 0 then Err OffTick else
  if base_amount <? min_size m then Err BelowMinSize else
  Ok (side, ticks, base_amount).

Abbreviation levels := (btree (list RestingOrder)).

Record Book := mkBook {
  market : Market;
  bids : levels;
  asks : levels;
  index : gmap Digest (Side * Z);
  next_seq : Z;
  self_trade_policy : SelfTradePolicy;
}.

Definition Book_new (m : Market) : Book := mkBook m [] [] ∅ 0 CancelNewest.

Definition book_side (s : Side) (b : Book) : levels :=
  match s with Ask => asks b | Bid => bids b end.

Definition set_book_side (s : Side) (l : levels) (b : Book) : Book :=
  match s with
  | Ask => mkBook (market b) (bids b) l (index b) (next_seq b) (self_trade_policy b)
  | Bid => mkBook (market b) l (asks b) (index b) (next_seq b) (self_trade_policy b)
  end.
Definition set_index (i : gmap Digest (Side * Z)) (b : Book) : Book :=
  mkBook (market b) (bids b) (asks b) i (next_seq b) (self_trade_policy b).
Definition set_next_seq (n : Z) (b : Book) : Book :=
  mkBook (market b) (bids b) (asks b) (index b) n (self_trade_policy b).
Definition set_self_trade_policy (p : SelfTradePolicy) (b : Book) : Book :=
  mkBook (market b) (bids b) (asks b) (index b) (next_seq b) p.

(** ** Matching *)

(** The [crosses] and [has_avail] closures. *)
Definition crosses (incoming : RestingOrder) (p : Z) : bool :=
  match ro_side incoming with
  | Ask => ro_price_ticks incoming <=? p
  | Bid => p <=? ro_price_ticks incoming
  end.
Definition has_avail (q : list RestingOrder) : bool := existsb (λ o, 0 <? available_base o) q.

(** The opposite side's levels in the order the walk visits them. *)
Definition best_first {V} (side : Side) (l : btree V) : btree V :=
  match side with Ask => reverse l | Bid => l end.

Definition best_level (incoming : RestingOrder) (opposite : levels)
    : option (Z * list RestingOrder) :=
  List.find (λ pq, has_avail pq.2)
    (List.filter (λ pq, crosses incoming pq.1) (best_first (ro_side incoming) opposite)).

Definition mk_intent (market_id : SuiAddress) (incoming resting : RestingOrder)
    (qty level_price : Z) : MatchIntent :=
  let '(ask, bid) :=
    match ro_side incoming with
    | Ask => (ro_digest incoming, ro_digest resting)
    | Bid => (ro_digest resting, ro_digest incoming)
    end in
  mkMatchIntent market_id ask bid qty level_price.

(** How the [for resting in queue.iter_mut()] loop ends: the queue is
    exhausted, or one of the two [break 'outer]. *)
Inductive WalkExit := WalkDone | WalkFull | WalkSelfTrade.

Section walk.
Context (policy : SelfTradePolicy) (market_id : SuiAddress).

Fixpoint walk_queue (level_price : Z) (queue : list RestingOrder) (incoming : RestingOrder)
    : list RestingOrder * RestingOrder * list MatchIntent * WalkExit :=
  match queue with
  | [] => ([], incoming, [], WalkDone)
  | resting :: queue' =>
      if available_base incoming =? 0 then (queue, incoming, [], WalkFull)
      else if available_base resting =? 0 then
        let '(q, inc, intents, e) := walk_queue level_price queue' incoming in
        (resting :: q, inc, intents, e)
      else if bool_decide (ro_maker resting = ro_maker incoming)
              && bool_decide (policy = CancelNewest) then
        (queue, incoming, [], WalkSelfTrade)
      else
        let qty := Z.min (available_base incoming) (available_base resting) in
        let intent := mk_intent market_id incoming resting qty level_price in
        let resting' := set_pending (u64_add (ro_pending_base resting) qty) resting in
        let incoming' := set_pending (u64_add (ro_pending_base incoming) qty) incoming in
        let '(q, inc, intents, e) := walk_queue level_price queue' incoming' in
        (resting' :: q, inc, intent :: intents, e)
  end.

(** The ['outer] loop; [None] is running out of fuel. *)
Fixpoint match_loop (fuel : nat) (opposite : levels) (incoming : RestingOrder)
    (intents : list MatchIntent) : option (levels * RestingOrder * list MatchIntent * bool) :=
  match fuel with
  | O => None
  | S fuel' =>
      if 0 <? available_base incoming then
        match best_level incoming opposite with
        | None => Some (opposite, incoming, intents, false)
        | Some (level_price, queue) =>
            let '(queue', incoming', new, e) := walk_queue level_price queue incoming in
            let opposite' := bt_insert level_price queue' opposite in
            match e with
            | WalkDone => match_loop fuel' opposite' incoming' (intents ++ new)
            | WalkFull => Some (opposite', incoming', intents ++ new, false)
            | WalkSelfTrade => Some (opposite', incoming', intents ++ new, true)
            end
        end
      else Some (opposite, incoming, intents, false)
  end.
End walk.

(** One iteration per level and the final test: the fuel is never exhausted
    ([match_loop_total] in [BookMatch.v]). *)
Definition match_incoming (b : Book) (incoming : RestingOrder)
    : Book * RestingOrder * list MatchIntent * bool :=
  let other := opposite (ro_side incoming) in
  let opp := book_side other b in
  match match_loop (self_trade_policy b) (m_registry_id (market b)) (S (length opp)) opp incoming [] with
  | Some (opp', incoming', intents, self_trade) =>
      (set_book_side other opp' b, incoming', intents, self_trade)
  | None => (b, incoming, [], false)
  end.

Definition rest (b : Book) (o : RestingOrder) : Book :=
  let b1 := set_index (<[ro_digest o := (ro_side o, ro_price_ticks o)]> (index b)) b in
  let side_map := book_side (ro_side o) b1 in
  let q := default [] (bt_get (ro_price_ticks o) side_map) in
  set_book_side (ro_side o) (bt_insert (ro_price_ticks o) (q ++ [o]) side_map) b1.

Definition place (b : Book) (digest : Digest) (o : Order)
    : Book * result BookError (PlaceOutcome * list MatchIntent) :=
  if decide (is_Some (index b !! digest)) then (b, Err Duplicate) else
  match price_and_size (market b) o with
  | Err e => (b, Err e)
  | Ok (side, price_ticks, base_amount) =>
      let seq := next_seq b in
      let b1 := set_next_seq (u64_add seq 1) b in
      let incoming := mkResting digest (maker o) side price_ticks base_amount 0 seq in
      let '(b2, incoming, intents, self_trade) := match_incoming b1 incoming in
      if (self_trade : bool) then
        let incoming := set_remaining (ro_pending_base incoming) incoming in
        let b3 := if 0 <? ro_pending_base incoming then rest b2 incoming else b2 in
        (b3, Ok (SelfTradeCancelled, intents))
      else if available_base incoming =? 0 then
        let b3 := if 0 <? ro_pending_base incoming then rest b2 incoming else b2 in
        (b3, Ok (Matched, intents))
      else
        let rem := available_base incoming in
        (rest b2 incoming, Ok (Rested rem, intents))
  end.

(** ** Lookup and update *)

Definition has_digest (d : Digest) (o : RestingOrder) : bool := bool_decide (ro_digest o = d).

Definition get (b : Book) (d : Digest) : option RestingOrder :=
  '(side, price) ← index b !! d;
  q ← bt_get price (book_side side b);
  List.find (has_digest d) q.

Fixpoint update_first (d : Digest) (f : RestingOrder → RestingOrder) (q : list RestingOrder)
    : list RestingOrder :=
  match q with
  | [] => []
  | o :: q' => if has_digest d o then f o :: q' else o :: update_first d f q'
  end.

(** [get_mut], with the update the caller applies to the order found. *)
Definition get_mut (b : Book) (d : Digest) (f : RestingOrder → RestingOrder) : Book :=
  match index b !! d with
  | None => b
  | Some (side, price) =>
      match bt_get price (book_side side b) with
      | None => b
      | Some q => set_book_side side (bt_insert price (update_first d f q) (book_side side b)) b
      end
  end.

Definition remove (b : Book) (d : Digest) : Book * bool :=
  match index b !! d with
  | None => (b, false)
  | Some (side, price) =>
      let b1 := set_index (delete d (index b)) b in
      let side_map := book_side side b1 in
      match bt_get price side_map with
      | None => (b1, true)
      | Some q =>
          let q' := List.filter (λ o, negb (has_digest d o)) q in
          let side_map' := bt_insert price q' side_map in
          let side_map' := if bool_decide (q' = []) then bt_remove price side_map' else side_map' in
          (set_book_side side side_map' b1, true)
      end
  end.

Definition prune_if_done (b : Book) (d : Digest) : Book :=
  match get b d with
  | Some o =>
      if (ro_remaining_base o =? 0) && (ro_pending_base o =? 0) then (remove b d).1 else b
  | None => b
  end.

(** ** Settlement *)

Definition settle_order (fill : Z) (o : RestingOrder) : RestingOrder :=
  let qty := Z.min fill (ro_pending_base o) in
  set_remaining (u64_sub (ro_remaining_base o) qty)
    (set_pending (u64_sub (ro_pending_base o) qty) o).

Definition settle_success (b : Book) (intent : MatchIntent) : Book :=
  foldl (λ b d, prune_if_done (get_mut b d (settle_order (fill_base_amount intent))) d)
    b [ask_digest intent; bid_digest intent].

Definition restore_order (fill : Z) (o : RestingOrder) : RestingOrder :=
  let qty := Z.min fill (ro_pending_base o) in
  set_pending (u64_sub (ro_pending_base o) qty) o.

Definition settle_failed (b : Book) (intent : MatchIntent) (drop : list Digest) : Book :=
  let b1 := foldl (λ b d, get_mut b d (restore_order (fill_base_amount intent)))
              b [ask_digest intent; bid_digest intent] in
  foldl (λ b d, (remove b d).1) b1 drop.

Definition external_fill_order (base_amount : Z) (o : RestingOrder) : RestingOrder :=
  let o1 := set_remaining (u64_saturating_sub (ro_remaining_base o) base_amount) o in
  if ro_remaining_base o1 <? ro_pending_base o1 then set_pending (ro_remaining_base o1) o1 else o1.

Definition apply_external_fill (b : Book) (d : Digest) (base_amount : Z) : Book :=
  prune_if_done (get_mut b d (external_fill_order base_amount)) d.

Definition rematch (b : Book) (d : Digest) : Book * list MatchIntent :=
  match get b d with
  | None => (b, [])
  | Some o =>
      if available_base o =? 0 then (b, []) else
      let b1 := (remove b d).1 in
      let '(b2, incoming, intents, _) := match_incoming b1 o in
      (rest b2 incoming, intents)
  end.

(** ** Views *)

Definition agg (p : Z) (q : list RestingOrder) : BookLevel :=
  mkBookLevel p (wrap64 (Zsum_with available_base q))
    (Z.of_nat (length (List.filter (λ o, 0 <? available_base o) q))).

Definition snapshot_side (depth : nat) (l : levels) : list BookLevel :=
  take depth (List.filter (λ v, 0 <? base_quantity v) ((λ pq, agg pq.1 pq.2) <$> l)).

Definition snapshot (b : Book) (depth : nat) : list BookLevel * list BookLevel :=
  (snapshot_side depth (reverse (bids b)), snapshot_side depth (asks b)).

Definition best_bid (b : Book) : option Z :=
  fst <$> List.find (λ pq, has_avail pq.2) (reverse (bids b)).
Definition best_ask (b : Book) : option Z :=
  fst <$> List.find (λ pq, has_avail pq.2) (asks b).

(** [iter_orders]: bids then asks, each in ascending price order. *)
Definition iter_orders (b : Book) : list RestingOrder :=
  mjoin ((bids b).*2) ++ mjoin ((asks b).*2).

Definition orders_of (b : Book) (m : SuiAddress) : list Digest :=
  ro_digest <$> List.filter (λ o, bool_decide (ro_maker o = m)) (iter_orders b).
