(* ===== verification/BookMatch.v ===== *)
(** Matching refines a greedy price-time allocation: the loop of
    [match_incoming], which searches the best level again after every
    level it consumes, computes one pass over the crossing available
    orders in price-time order ([greedy]), and never runs out of fuel. *)

From S2P Require Import Prelude BTreeMap ExchangeTypes Book.

Implicit Types (o : RestingOrder) (q : list RestingOrder) (p : Z).

(** A resting order's quantities are consistent. *)
Definition order_ok (o : RestingOrder) : Prop :=
  0 ≤ ro_pending_base o ≤ ro_remaining_base o ∧ ro_remaining_base o ≤ u64_max.

Definition level_orders (l : levels) : list RestingOrder := mjoin (l.*2).

Definition levels_ok (l : levels) : Prop :=
  bt_wf l ∧ Forall order_ok (level_orders l) ∧ NoDup (ro_digest <$> level_orders l).

(** ** The abstract allocation *)

Definition is_available (o : RestingOrder) : bool := 0 <? available_base o.

Definition level_candidates (pq : Z * list RestingOrder) : list (Z * RestingOrder) :=
  pair pq.1 <$> List.filter is_available pq.2.

(** The crossing available orders of the opposite side, best price first
    and in queue order within a price. *)
Definition candidates (incoming : RestingOrder) (l : levels) : list (Z * RestingOrder) :=
  mjoin (level_candidates <$>
    List.filter (λ pq, crosses incoming pq.1) (best_first (ro_side incoming) l)).

Record allocation := mkAlloc { al_price : Z; al_order : RestingOrder; al_qty : Z }.

(** Take from each candidate in turn as much as is still wanted; stop at the
    maker's own order under [CancelNewest]. *)
Fixpoint greedy (policy : SelfTradePolicy) (maker : SuiAddress) (n : Z)
    (l : list (Z * RestingOrder)) : list allocation * bool :=
  match l with
  | [] => ([], false)
  | (p, o) :: l' =>
      if n =? 0 then ([], false)
      else if bool_decide (ro_maker o = maker) && bool_decide (policy = CancelNewest) then ([], true)
      else
        let qty := Z.min n (available_base o) in
        let '(fs, st) := greedy policy maker (n - qty) l' in
        (mkAlloc p o qty :: fs, st)
  end.

Definition total (fs : list allocation) : Z := Zsum_with al_qty fs.

(** What an allocation takes from the order with digest [d]. *)
Definition filled (fs : list allocation) (d : Digest) : Z :=
  Zsum_with (λ f, if bool_decide (ro_digest (al_order f) = d) then al_qty f else 0) fs.

Arguments total : simpl never.
Arguments filled : simpl never.

Definition credit (fs : list allocation) (o : RestingOrder) : RestingOrder :=
  set_pending (ro_pending_base o + filled fs (ro_digest o)) o.

Definition credit_levels (fs : list allocation) (l : levels) : levels :=
  (λ pq : Z * list RestingOrder, (pq.1, credit fs <$> pq.2)) <$> l.

Definition alloc_intent (market_id : SuiAddress) (incoming : RestingOrder) (f : allocation)
    : MatchIntent := mk_intent market_id incoming (al_order f) (al_qty f) (al_price f).

(** ** Orders and credits *)

Implicit Types (l : levels) (fs : list allocation).

Lemma set_pending_id o : set_pending (ro_pending_base o) o = o.
Proof. by destruct o. Qed.

Lemma set_pending_set p p' o : set_pending p (set_pending p' o) = set_pending p o.
Proof. done. Qed.

Lemma available_ok o : order_ok o → available_base o = ro_remaining_base o - ro_pending_base o.
Proof. unfold order_ok, available_base. intros. apply u64_sub_small. unfold u64. lia. Qed.

Lemma available_nonneg o : 0 ≤ available_base o.
Proof. apply u64_sub_range. Qed.

Lemma filled_nil d : filled [] d = 0.
Proof. done. Qed.

Lemma filled_cons f fs d :
  filled (f :: fs) d = (if bool_decide (ro_digest (al_order f) = d) then al_qty f else 0) + filled fs d.
Proof. done. Qed.

Lemma filled_app fs1 fs2 d : filled (fs1 ++ fs2) d = filled fs1 d + filled fs2 d.
Proof. apply Zsum_with_app. Qed.

Lemma total_nil : total [] = 0.
Proof. done. Qed.

Lemma total_cons f fs : total (f :: fs) = al_qty f + total fs.
Proof. done. Qed.

Lemma total_app fs1 fs2 : total (fs1 ++ fs2) = total fs1 + total fs2.
Proof. apply Zsum_with_app. Qed.

Lemma filled_notin fs d : d ∉ (ro_digest ∘ al_order <$> fs) → filled fs d = 0.
Proof.
  induction fs as [|f fs IH]; [done|]. rewrite fmap_cons, not_elem_of_cons, filled_cons.
  intros [Hne Hnin]. rewrite bool_decide_false by (simpl in *; congruence). rewrite IH; done.
Qed.

Lemma credit_notin fs o : filled fs (ro_digest o) = 0 → credit fs o = o.
Proof. intros H. unfold credit. rewrite H, Z.add_0_r. apply set_pending_id. Qed.

Lemma credit_credit fs1 fs2 o : credit fs2 (credit fs1 o) = credit (fs1 ++ fs2) o.
Proof. unfold credit. simpl. rewrite set_pending_set, filled_app. f_equal. lia. Qed.

Lemma credit_fmap_notin fs q :
  (∀ o, o ∈ q → filled fs (ro_digest o) = 0) → credit fs <$> q = q.
Proof.
  intros H. rewrite <- (list_fmap_id q) at 2. apply list_fmap_ext. intros i o Hi.
  apply credit_notin, H. by apply list_elem_of_lookup_2 in Hi.
Qed.

Lemma level_orders_cons p q l : level_orders ((p, q) :: l) = q ++ level_orders l.
Proof. done. Qed.

Lemma level_orders_app l l' : level_orders (l ++ l') = level_orders l ++ level_orders l'.
Proof. unfold level_orders. by rewrite fmap_app, join_app. Qed.

Lemma credit_levels_cons fs p q l :
  credit_levels fs ((p, q) :: l) = (p, credit fs <$> q) :: credit_levels fs l.
Proof. done. Qed.

Lemma level_orders_credit fs l : level_orders (credit_levels fs l) = credit fs <$> level_orders l.
Proof.
  induction l as [|[p q] l IH]; [done|].
  by rewrite credit_levels_cons, !level_orders_cons, fmap_app, IH.
Qed.

Lemma digests_credit fs q : ro_digest <$> (credit fs <$> q) = ro_digest <$> q.
Proof. by rewrite <- list_fmap_compose. Qed.

Lemma keys_credit fs l : (credit_levels fs l).*1 = l.*1.
Proof. unfold credit_levels. by rewrite <- list_fmap_compose. Qed.

Lemma credit_levels_app fs1 fs2 l :
  credit_levels fs2 (credit_levels fs1 l) = credit_levels (fs1 ++ fs2) l.
Proof.
  unfold credit_levels. rewrite <- list_fmap_compose. apply list_fmap_ext. intros i [p q] _. simpl.
  f_equal. rewrite <- list_fmap_compose. apply list_fmap_ext. intros. apply credit_credit.
Qed.

Lemma credit_levels_notin fs l :
  (∀ o, o ∈ level_orders l → filled fs (ro_digest o) = 0) → credit_levels fs l = l.
Proof.
  intros H. unfold credit_levels. rewrite <- (list_fmap_id l) at 2. apply list_fmap_ext.
  intros i [p q] Hi. simpl. f_equal. apply credit_fmap_notin. intros o Ho. apply H.
  unfold level_orders. apply list_elem_of_join. exists q. split; [done|].
  apply list_elem_of_fmap. exists (p, q). eauto using list_elem_of_lookup_2.
Qed.

Lemma filled_all (cs : list (Z * RestingOrder)) fs x :
  NoDup (ro_digest ∘ snd <$> cs) → al_order <$> fs = cs.*2 →
  (∀ f, f ∈ fs → al_qty f = available_base (al_order f)) → x ∈ cs →
  filled fs (ro_digest x.2) = available_base x.2.
Proof.
  revert fs. induction cs as [|c cs IH]; intros [|f fs]; [set_solver|done..|].
  rewrite !fmap_cons, NoDup_cons. intros [Hnin Hnd] [= Ha Hall] Hq Hx. rewrite filled_cons, Ha.
  apply elem_of_cons in Hx as [->|Hx].
  - assert (ro_digest ∘ al_order <$> fs = ro_digest ∘ snd <$> cs) as Hd.
    { rewrite (list_fmap_compose al_order), (list_fmap_compose snd). f_equal. exact Hall. }
    rewrite bool_decide_true, Hq, Ha, filled_notin by (set_solver || by rewrite ?Hd). lia.
  - rewrite bool_decide_false; [rewrite IH by set_solver; done|].
    intros Heq. apply Hnin. unfold compose at 1. rewrite Heq. by apply (list_elem_of_fmap_2 (ro_digest ∘ snd)).
Qed.

(** ** The greedy allocation *)

Section greedy.
Context (policy : SelfTradePolicy) (mk : SuiAddress).
Implicit Types (cs : list (Z * RestingOrder)).
Abbreviation greedy := (greedy policy mk).

Lemma greedy_zero cs : greedy 0 cs = ([], false).
Proof. by destruct cs as [|[p o] cs]. Qed.

Lemma greedy_app n cs1 cs2 :
  greedy n (cs1 ++ cs2) =
  if (greedy n cs1).2 then greedy n cs1
  else ((greedy n cs1).1 ++ (greedy (n - total (greedy n cs1).1) cs2).1,
        (greedy (n - total (greedy n cs1).1) cs2).2).
Proof.
  revert n. induction cs1 as [|[p o] cs1 IH]; intros n; simpl.
  { rewrite total_nil, Z.sub_0_r. by destruct (greedy n cs2). }
  destruct (Z.eqb_spec n 0) as [->|]; simpl.
  { rewrite total_nil. simpl. by rewrite greedy_zero. }
  case_bool; simpl; [done|]. specialize (IH (n - n `min` available_base o)).
  destruct (greedy (n - n `min` available_base o) cs1) as [fs st] eqn:E; simpl in *.
  rewrite IH. destruct st; [done|]. rewrite total_cons. simpl.
  by rewrite Z.sub_add_distr.
Qed.

Lemma greedy_sub n cs f : f ∈ (greedy n cs).1 → (al_price f, al_order f) ∈ cs.
Proof.
  revert n. induction cs as [|[p o] cs IH]; intros n; simpl; [set_solver|].
  repeat case_bool; [set_solver..|]. specialize (IH (n - n `min` available_base o)).
  destruct (greedy _ cs) as [fs st]; simpl in *. rewrite elem_of_cons. set_solver.
Qed.

Lemma greedy_digests n cs d :
  d ∉ (ro_digest ∘ snd <$> cs) → filled (greedy n cs).1 d = 0.
Proof.
  intros Hd. apply filled_notin. intros (f & -> & Hf)%list_elem_of_fmap.
  apply greedy_sub in Hf. apply Hd, list_elem_of_fmap. by exists (al_price f, al_order f).
Qed.

Lemma greedy_qty n cs f :
  0 ≤ n → f ∈ (greedy n cs).1 → 0 ≤ al_qty f ≤ available_base (al_order f).
Proof.
  revert n. induction cs as [|[p o] cs IH]; intros n Hn; simpl; [set_solver|].
  repeat case_bool; [set_solver..|]. pose proof (available_nonneg o).
  specialize (IH (n - n `min` available_base o)).
  destruct (greedy _ cs) as [fs st]; simpl in *. rewrite elem_of_cons. intros [->|]; simpl; [lia|].
  apply IH; [lia|done].
Qed.

Lemma greedy_total n cs : 0 ≤ n → 0 ≤ total (greedy n cs).1 ≤ n.
Proof.
  revert n. induction cs as [|[p o] cs IH]; intros n Hn; simpl; [done|].
  repeat case_bool; simpl; [done..|]. pose proof (available_nonneg o).
  specialize (IH (n - n `min` available_base o)).
  destruct (greedy _ cs) as [fs st]; simpl in *. rewrite total_cons. simpl. lia.
Qed.

Lemma greedy_filled n cs p o :
  0 ≤ n → NoDup (ro_digest ∘ snd <$> cs) → (p, o) ∈ cs →
  0 ≤ filled (greedy n cs).1 (ro_digest o) ≤ available_base o.
Proof.
  revert n. induction cs as [|[p' o'] cs IH]; intros n Hn; [set_solver|].
  rewrite fmap_cons, NoDup_cons. intros [Hnin Hnd] Hin. pose proof (available_nonneg o).
  simpl. repeat case_bool; [cbn [fst]; rewrite filled_nil; lia..|]. pose proof (available_nonneg o').
  pose proof (greedy_digests (n - n `min` available_base o') cs (ro_digest o')) as Hz.
  specialize (IH (n - n `min` available_base o')).
  destruct (greedy _ cs) as [fs st]; cbn [fst snd] in *. rewrite filled_cons. simpl in *.
  apply elem_of_cons in Hin as [?|Hin]; simplify_eq.
  - rewrite bool_decide_true, Hz by done. lia.
  - rewrite bool_decide_false; [apply IH; [lia|done..]|].
    intros Heq. apply Hnin. rewrite Heq. apply list_elem_of_fmap. by exists (p, o).
Qed.

(** Unless it stops at the maker's own order, the allocation wants for
    nothing or takes every candidate whole. *)
Lemma greedy_exhausts n cs :
  0 ≤ n → (greedy n cs).2 = false →
  total (greedy n cs).1 = n ∨
  ((al_order <$> (greedy n cs).1) = cs.*2 ∧
   ∀ f, f ∈ (greedy n cs).1 → al_qty f = available_base (al_order f)).
Proof.
  revert n. induction cs as [|[p o] cs IH]; intros n Hn; simpl; [set_solver|].
  destruct (Z.eqb_spec n 0) as [->|]; simpl; [auto|]. case_bool; simpl; [done|].
  pose proof (available_nonneg o). destruct (Z.le_gt_cases (available_base o) n).
  - specialize (IH (n - n `min` available_base o)).
    destruct (greedy _ cs) as [fs st]; simpl in *. rewrite total_cons. simpl. intros Hst.
    destruct IH as [?|[H1 Hq]]; [lia|done|left; lia|]. right.
    split; [simpl; f_equal; exact H1|].
    intros f [->|Hf]%elem_of_cons; simpl; [lia|auto].
  - replace (n - n `min` available_base o) with 0 by lia. rewrite greedy_zero.
    cbn [fst]. rewrite total_cons, total_nil. simpl. left.
    lia.
Qed.

Lemma greedy_qty_pos n cs f :
  0 ≤ n → (∀ x, x ∈ cs → 0 < available_base x.2) → f ∈ (greedy n cs).1 →
  0 < al_qty f ≤ available_base (al_order f) ∧
  (policy = CancelNewest → ro_maker (al_order f) ≠ mk).
Proof.
  revert n. induction cs as [|[p o] cs IH]; intros n Hn Hav; simpl; [set_solver|].
  destruct (Z.eqb_spec n 0); [set_solver|]. destruct (bool_decide (ro_maker o = mk) && bool_decide (policy = CancelNewest)) eqn:Hst; [set_solver|].
  pose proof (Hav (p, o) ltac:(set_solver)) as Ho. simpl in Ho.
  specialize (IH (n - n `min` available_base o)).
  destruct (greedy _ cs) as [fs st]; simpl in *. rewrite elem_of_cons. intros [->|Hf]; simpl.
  - split; [lia|]. intros Hp Hm. rewrite !bool_decide_true in Hst by done. done.
  - apply IH; [lia| |done]. set_solver.
Qed.

(** An order is only reached once everything before it is taken whole. *)
Lemma greedy_priority n cs1 x cs2 y :
  0 ≤ n → NoDup (ro_digest ∘ snd <$> cs1 ++ x :: cs2) → y ∈ cs2 →
  filled (greedy n (cs1 ++ x :: cs2)).1 (ro_digest y.2) ≠ 0 →
  filled (greedy n (cs1 ++ x :: cs2)).1 (ro_digest x.2) = available_base x.2.
Proof.
  intros Hn Hnd Hy. replace (cs1 ++ x :: cs2) with ((cs1 ++ [x]) ++ cs2) in * by (by rewrite <- app_assoc).
  rewrite fmap_app in Hnd. apply NoDup_app in Hnd as (Hnd1 & Hdis & Hnd2).
  assert (ro_digest y.2 ∉ (ro_digest ∘ snd <$> cs1 ++ [x])) as Hyn.
  { intros Hin. apply (Hdis _ Hin). by apply (list_elem_of_fmap_2 (ro_digest ∘ snd)). }
  assert (ro_digest x.2 ∉ (ro_digest ∘ snd <$> cs2)) as Hxn.
  { apply Hdis. apply (list_elem_of_fmap_2 (ro_digest ∘ snd)). set_solver. }
  rewrite greedy_app. pose proof (greedy_exhausts n (cs1 ++ [x]) Hn) as Hex.
  pose proof (greedy_digests n (cs1 ++ [x]) _ Hyn) as Hy0.
  destruct (greedy n (cs1 ++ [x])) as [fs st]; cbn [fst snd] in *.
  destruct st; cbn [fst]; [done|]. rewrite !filled_app, Hy0, (greedy_digests _ cs2 _ Hxn).
  destruct (Hex eq_refl) as [->|[Hall Hq]].
  - rewrite Z.sub_diag, greedy_zero. done.
  - intros _. rewrite (filled_all (cs1 ++ [x]) fs x); [lia|done|done|done|set_solver].
Qed.
End greedy.

(** ** One level *)

Lemma elem_of_level_candidates p q x :
  x ∈ level_candidates (p, q) ↔ x.1 = p ∧ x.2 ∈ q ∧ is_available x.2 = true.
Proof.
  unfold level_candidates. rewrite list_elem_of_fmap. simpl. split.
  - intros (o & -> & Ho). rewrite list_elem_of_In, filter_In, <- list_elem_of_In in Ho. tauto.
  - destruct x as [p' o]; simpl. intros (-> & ? & ?). exists o. split; [done|].
    by rewrite list_elem_of_In, filter_In, <- list_elem_of_In.
Qed.

Lemma level_candidates_notin p q d :
  d ∉ ro_digest <$> q → d ∉ (ro_digest ∘ snd <$> level_candidates (p, q)).
Proof.
  intros Hd (x & -> & Hx)%list_elem_of_fmap. apply elem_of_level_candidates in Hx as (_ & Hx & _).
  apply Hd, list_elem_of_fmap. by exists x.2.
Qed.

Lemma level_candidates_cons p o q :
  level_candidates (p, o :: q) =
  (if is_available o then [(p, o)] else []) ++ level_candidates (p, q).
Proof. unfold level_candidates. simpl. by destruct (is_available o). Qed.

Lemma level_candidates_NoDup p q :
  NoDup (ro_digest <$> q) → NoDup (ro_digest ∘ snd <$> level_candidates (p, q)).
Proof.
  induction q as [|o q IH]; [constructor|]. rewrite fmap_cons, NoDup_cons, level_candidates_cons.
  intros [Hnin Hnd]. destruct (is_available o); simpl; [|auto].
  constructor; [by apply level_candidates_notin|auto].
Qed.

Definition take_qty (qty : Z) (o : RestingOrder) : RestingOrder :=
  set_pending (u64_add (ro_pending_base o) qty) o.

Lemma take_qty_ok qty o :
  order_ok o → 0 ≤ qty ≤ available_base o →
  take_qty qty o = set_pending (ro_pending_base o + qty) o ∧
  order_ok (take_qty qty o) ∧ available_base (take_qty qty o) = available_base o - qty.
Proof.
  intros Hok Hq. pose proof Hok as (?&?). rewrite available_ok in Hq by done.
  unfold take_qty. rewrite u64_add_small by (unfold u64; lia).
  assert (order_ok (set_pending (ro_pending_base o + qty) o)) as Hok' by (unfold order_ok; simpl; lia).
  repeat split; try apply Hok'. rewrite !available_ok by done. simpl. lia.
Qed.

(** Crediting a queue whose first order receives the first allocation. *)
Lemma credit_cons_taken p o q qty fs :
  ro_digest o ∉ ro_digest <$> q → filled fs (ro_digest o) = 0 →
  credit (mkAlloc p o qty :: fs) <$> o :: q =
  set_pending (ro_pending_base o + qty) o :: (credit fs <$> q).
Proof.
  intros Hnin Hz. rewrite fmap_cons. f_equal.
  - unfold credit. rewrite filled_cons, Hz, Z.add_0_r. simpl. by rewrite bool_decide_true.
  - apply list_fmap_ext. intros i x Hx%list_elem_of_lookup_2. unfold credit. f_equal.
    rewrite filled_cons. simpl. rewrite bool_decide_false; [done|].
    intros Heq. apply Hnin. rewrite Heq. by apply list_elem_of_fmap_2.
Qed.

Section walk.
Context (policy : SelfTradePolicy) (mkt : SuiAddress).

Definition walk_result (incoming : RestingOrder) (p : Z) (q : list RestingOrder) : list allocation * bool :=
  greedy policy (ro_maker incoming) (available_base incoming) (level_candidates (p, q)).

Lemma walk_queue_spec p q : ∀ incoming,
  order_ok incoming → Forall order_ok q → NoDup (ro_digest <$> q) →
  let g := walk_result incoming p q in
  ∃ e, walk_queue policy mkt p q incoming =
         (credit g.1 <$> q, set_pending (ro_pending_base incoming + total g.1) incoming,
          alloc_intent mkt incoming <$> g.1, e)
    ∧ (e = WalkSelfTrade ↔ g.2 = true) ∧ (e = WalkFull → total g.1 = available_base incoming).
Proof.
  induction q as [|o q IH]; intros inc Hinc Hq Hnd; cbn zeta.
  { exists WalkDone. simpl. rewrite total_nil, Z.add_0_r, set_pending_id. done. }
  rewrite fmap_cons, NoDup_cons in Hnd. destruct Hnd as [Hnin Hnd].
  rewrite Forall_cons in Hq. destruct Hq as [Ho Hq].
  unfold walk_result. rewrite level_candidates_cons. cbn [walk_queue].
  destruct (Z.eqb_spec (available_base inc) 0) as [Ez|Ez].
  { exists WalkFull. rewrite Ez, greedy_zero. simpl. rewrite total_nil, Z.add_0_r, set_pending_id.
    rewrite credit_notin, credit_fmap_notin by done. done. }
  pose proof (available_nonneg o) as Hnn. unfold is_available.
  destruct (Z.eqb_spec (available_base o) 0) as [Eo|Eo].
  - rewrite Eo. simpl. destruct (IH inc Hinc Hq Hnd) as (e & Hw & He). rewrite Hw.
    exists e. split; [|done]. rewrite credit_notin; [done|].
    by apply greedy_digests, level_candidates_notin.
  - replace (0 <? available_base o) with true by lia. simpl.
    rewrite (proj2 (Z.eqb_neq _ _) Ez). case_bool.
    { exists WalkSelfTrade. simpl. rewrite total_nil, Z.add_0_r, set_pending_id.
      rewrite credit_notin, credit_fmap_notin by done. done. }
    set (qty := Z.min _ _). pose proof (available_nonneg inc).
    destruct (take_qty_ok qty inc Hinc) as (Ei & Hi & Ai); [lia|].
    destruct (take_qty_ok qty o Ho) as (Eo' & Ho' & Ao); [lia|]. fold (take_qty qty o) (take_qty qty inc).
    destruct (IH _ Hi Hq Hnd) as (e & Hw & He). rewrite Hw. unfold walk_result in *. rewrite Ai in *.
    rewrite Ei in *. cbn [ro_maker set_pending] in *.
    pose proof (greedy_digests policy (ro_maker inc) (available_base inc - qty)
                  (level_candidates (p, q)) _ (level_candidates_notin p q _ Hnin)) as Hz.
    destruct (greedy _ _ _ _) as [fs st]; cbn [fst snd] in *. exists e.
    rewrite total_cons. cbn [al_qty ro_pending_base set_pending] in *.
    split; [|split; [tauto|intros Hf; specialize (proj2 He Hf); lia]].
    rewrite Eo', set_pending_set, Z.add_assoc, <- (credit_cons_taken p) by done. done.
Qed.
End walk.

(** ** The loop *)

Definition cands (incoming : RestingOrder) (l : levels) : list (Z * RestingOrder) :=
  mjoin (level_candidates <$> List.filter (λ pq, crosses incoming pq.1) l).

Lemma cands_app inc l1 l2 : cands inc (l1 ++ l2) = cands inc l1 ++ cands inc l2.
Proof. unfold cands. by rewrite List.filter_app, fmap_app, join_app. Qed.

Lemma cands_cons inc pq l :
  cands inc (pq :: l) = (if crosses inc pq.1 then level_candidates pq else []) ++ cands inc l.
Proof. unfold cands. simpl. by destruct (crosses inc pq.1). Qed.

Lemma level_candidates_nil pq : has_avail pq.2 = false → level_candidates pq = [].
Proof.
  unfold has_avail, level_candidates. intros H. rewrite bfilter_nil; [done|].
  intros o Ho. unfold is_available. destruct (0 <? available_base o) eqn:E; [|done].
  rewrite <- H. symmetry. apply existsb_exists. exists o. by rewrite <- list_elem_of_In.
Qed.

Lemma cands_nil inc l :
  (∀ pq, pq ∈ l → crosses inc pq.1 && has_avail pq.2 = false) → cands inc l = [].
Proof.
  induction l as [|pq l IH]; [done|]. intros H. rewrite cands_cons, IH by set_solver.
  specialize (H pq ltac:(set_solver)). destruct (crosses inc pq.1); [|done].
  by rewrite level_candidates_nil.
Qed.

Lemma best_first_split {V} s (l : btree V) x L1 L2 :
  best_first s l = L1 ++ x :: L2 →
  ∃ M1 M2, l = M1 ++ x :: M2 ∧ ∀ y, best_first s (M1 ++ y :: M2) = L1 ++ y :: L2.
Proof.
  destruct s; simpl; intros H; [by exists L1, L2|].
  exists (reverse L2), (reverse L1). split.
  - rewrite <- (reverse_involutive l), H, reverse_app, reverse_cons, <- app_assoc. done.
  - intros y. by rewrite reverse_app, reverse_cons, !reverse_involutive, <- app_assoc.
Qed.

Lemma best_first_credit s fs l : best_first s (credit_levels fs l) = credit_levels fs (best_first s l).
Proof. destruct s; [done|]. unfold credit_levels. simpl. by rewrite fmap_reverse. Qed.

Lemma level_orders_elem p q o l : (p, q) ∈ l → o ∈ q → o ∈ level_orders l.
Proof.
  intros Hin Ho. apply list_elem_of_join. exists q. split; [done|].
  by apply (list_elem_of_fmap_2 snd _ (p, q)).
Qed.

(** Facts about one level of a well-formed side. *)
Lemma levels_ok_split M1 p q M2 fs :
  levels_ok (M1 ++ (p, q) :: M2) →
  (∀ d, d ∉ ro_digest <$> q → filled fs d = 0) →
  Forall order_ok q ∧ NoDup (ro_digest <$> q) ∧
  credit_levels fs (M1 ++ (p, q) :: M2) = M1 ++ (p, credit fs <$> q) :: M2 ∧
  bt_insert p (credit fs <$> q) (M1 ++ (p, q) :: M2) = M1 ++ (p, credit fs <$> q) :: M2.
Proof.
  unfold levels_ok. rewrite level_orders_app, level_orders_cons, !Forall_app, !fmap_app.
  intros (Hwf & (H1 & Hq & H2) & Hnd) Hz.
  apply NoDup_app in Hnd as (Hn1 & Hd1 & (Hnq & Hd2 & Hn2)%NoDup_app).
  split; [done|]. split; [done|]. split; [|by apply bt_insert_split].
  change (credit_levels fs (M1 ++ (p, q) :: M2)) with
    ((λ pq : Z * list RestingOrder, (pq.1, credit fs <$> pq.2)) <$> (M1 ++ (p, q) :: M2)).
  rewrite fmap_app, fmap_cons. fold (credit_levels fs M1) (credit_levels fs M2). simpl.
  rewrite !credit_levels_notin; [done|..]; intros o Ho; apply Hz; intros Hin;
    apply (list_elem_of_fmap_2 ro_digest) in Ho; set_solver.
Qed.

Lemma levels_ok_credit fs l :
  (∀ o, o ∈ level_orders l → 0 ≤ filled fs (ro_digest o) ≤ available_base o) →
  levels_ok l → levels_ok (credit_levels fs l).
Proof.
  intros Hf (Hwf & Hok & Hnd). split; [unfold bt_wf; by rewrite keys_credit|].
  rewrite level_orders_credit, digests_credit. split; [|done].
  rewrite Forall_fmap. rewrite Forall_forall in *. intros o Ho. specialize (Hok o Ho).
  specialize (Hf o Ho). rewrite available_ok in Hf by done. unfold compose, order_ok, credit in *.
  simpl. lia.
Qed.

Lemma cands_NoDup inc l :
  NoDup (ro_digest <$> level_orders l) → NoDup (ro_digest ∘ snd <$> cands inc l).
Proof.
  induction l as [|[p q] l IH]; [constructor|]. rewrite level_orders_cons, cands_cons, !fmap_app.
  intros (Hq & Hd & Hl)%NoDup_app. apply NoDup_app. split; [|split; [|auto]].
  - case_match; [by apply level_candidates_NoDup|constructor].
  - intros d Hin Hin'. destruct (crosses inc (p, q).1); [|set_solver].
    apply list_elem_of_fmap in Hin as (x & -> & Hx).
    apply elem_of_level_candidates in Hx as (_ & Hx & _).
    apply (Hd (ro_digest x.2)); [by apply list_elem_of_fmap_2|].
    apply list_elem_of_fmap in Hin' as ([p' o] & Heq & Ho). unfold compose in Heq. rewrite Heq.
    apply list_elem_of_fmap_2. apply list_elem_of_join in Ho as (cs & Ho & Hcs).
    apply list_elem_of_fmap in Hcs as ([p1 q1] & -> & [Hpq _]%elem_of_bfilter).
    apply elem_of_level_candidates in Ho as (_ & Ho & _). by eapply level_orders_elem.
Qed.

Lemma best_level_Some inc l p q :
  best_level inc l = Some (p, q) →
  ∃ L1 L2, best_first (ro_side inc) l = L1 ++ (p, q) :: L2 ∧
    crosses inc p = true ∧ has_avail q = true ∧ cands inc L1 = [].
Proof.
  unfold best_level. rewrite bfind_filter. intros (L1 & L2 & HL & Hc & Hn)%bfind_Some.
  simpl in Hc. apply andb_true_iff in Hc as [??].
  exists L1, L2. repeat split; try done. by apply cands_nil.
Qed.

Lemma best_level_None inc l : best_level inc l = None → candidates inc l = [].
Proof. unfold best_level. rewrite bfind_filter, bfind_None. apply cands_nil. Qed.

Lemma no_candidates_left p q fs :
  Forall order_ok q → NoDup (ro_digest <$> q) →
  al_order <$> fs = (level_candidates (p, q)).*2 →
  (∀ f, f ∈ fs → al_qty f = available_base (al_order f)) →
  has_avail (credit fs <$> q) = false.
Proof.
  intros Hok Hnd Hall Hq. apply not_true_iff_false. unfold has_avail. rewrite existsb_elem.
  intros (? & (o & -> & Ho)%list_elem_of_fmap & Hav).
  rewrite Forall_forall in Hok. specialize (Hok o Ho). pose proof (available_ok o Hok) as Ha.
  assert (filled fs (ro_digest o) = available_base o) as Hf.
  { destruct (is_available o) eqn:E.
    - apply (filled_all _ _ (p, o)) in Hall; [done| |done|]; [by apply level_candidates_NoDup|].
      by apply elem_of_level_candidates.
    - unfold is_available in E. pose proof (available_nonneg o). rewrite filled_notin; [lia|].
      rewrite list_fmap_compose, Hall, <- list_fmap_compose.
      intros (x & Heq & Hx)%list_elem_of_fmap. apply elem_of_level_candidates in Hx as (_ & Hx & Hx').
      assert (x.2 = o) as Hxo by (by eapply NoDup_fmap_inj_on; eauto).
      unfold is_available in Hx'. rewrite Hxo in Hx'. congruence. }
  unfold credit in Hav. rewrite Hf in Hav.
  rewrite available_ok in Hav by (unfold order_ok in *; simpl; lia). simpl in Hav. lia.
Qed.

(** Levels the walk can still consume. *)
Definition live_levels (inc : RestingOrder) (l : levels) : nat :=
  length (List.filter (λ pq, crosses inc pq.1 && has_avail pq.2) (best_first (ro_side inc) l)).

Lemma live_levels_split inc l L1 p q L2 :
  best_first (ro_side inc) l = L1 ++ (p, q) :: L2 →
  live_levels inc l =
    ((if crosses inc p && has_avail q then 1 else 0) +
     length (List.filter (λ pq, crosses inc pq.1 && has_avail pq.2) (L1 ++ L2)))%nat.
Proof.
  intros HL. unfold live_levels. rewrite HL, !List.filter_app, !length_app. simpl.
  case_match; simpl; lia.
Qed.

Lemma live_pos inc l L1 p q L2 :
  best_first (ro_side inc) l = L1 ++ (p, q) :: L2 →
  crosses inc p = true → has_avail q = true → (0 < live_levels inc l)%nat.
Proof. intros HL Hc Ha. rewrite (live_levels_split _ _ _ _ _ _ HL), Hc, Ha. simpl. lia. Qed.

Lemma candidates_cands inc l : candidates inc l = cands inc (best_first (ro_side inc) l).
Proof. done. Qed.

Lemma greedy_filled_in policy maker n (cs : list (Z * RestingOrder)) os o :
  0 ≤ n → NoDup (ro_digest ∘ snd <$> cs) → (∀ x, x ∈ cs → x.2 ∈ os) →
  NoDup (ro_digest <$> os) → o ∈ os →
  0 ≤ filled (greedy policy maker n cs).1 (ro_digest o) ≤ available_base o.
Proof.
  intros Hn Hcs Hsub Hos Ho. destruct (decide (ro_digest o ∈ (ro_digest ∘ snd <$> cs))) as [Hin|].
  - apply list_elem_of_fmap in Hin as ([p' o'] & Heq & Hin).
    assert (o = o') as ->; [|by eapply greedy_filled].
    eapply (NoDup_fmap_inj_on ro_digest os); [done|done|by apply (Hsub (p', o'))|done].
  - rewrite greedy_digests by done. pose proof (available_nonneg o). lia.
Qed.

Lemma elem_of_cands inc l x : x ∈ cands inc l → x.2 ∈ level_orders l.
Proof.
  intros (cs & Hin & Hcs)%list_elem_of_join.
  apply list_elem_of_fmap in Hcs as ([p1 q1] & -> & [Hpq _]%elem_of_bfilter).
  apply elem_of_level_candidates in Hin as (_ & Hin & _). by apply (level_orders_elem p1 q1).
Qed.

Lemma level_orders_best_first s l : level_orders (best_first s l) ≡ₚ level_orders l.
Proof. destruct s; simpl; [done|]. unfold level_orders. by rewrite fmap_reverse, reverse_Permutation. Qed.

Lemma candidates_NoDup inc l :
  NoDup (ro_digest <$> level_orders l) → NoDup (ro_digest ∘ snd <$> candidates inc l).
Proof. intros H. apply cands_NoDup. by rewrite level_orders_best_first. Qed.

Lemma elem_of_candidates inc l x : x ∈ candidates inc l → x.2 ∈ level_orders l.
Proof. intros H%elem_of_cands. by rewrite level_orders_best_first in H. Qed.

Lemma candidates_elem inc l x :
  x ∈ candidates inc l →
  ∃ q, (x.1, q) ∈ l ∧ crosses inc x.1 = true ∧ x.2 ∈ q ∧ 0 < available_base x.2.
Proof.
  intros (cs & Hin & Hcs)%list_elem_of_join.
  apply list_elem_of_fmap in Hcs as ([p q] & -> & [Hpq Hcr]%elem_of_bfilter).
  apply elem_of_level_candidates in Hin as (<- & Hin & Hav). exists q. split_and!; try done.
  - destruct (ro_side inc); simpl in Hpq; [done|]. by rewrite elem_of_reverse in Hpq.
  - unfold is_available in Hav. lia.
Qed.

Lemma candidates_available inc l x : x ∈ candidates inc l → 0 < available_base x.2.
Proof. by intros (q & _ & _ & _ & ?)%candidates_elem. Qed.

Lemma filled_candidates policy inc l n o :
  levels_ok l → 0 ≤ n → o ∈ level_orders l →
  0 ≤ filled (greedy policy (ro_maker inc) n (candidates inc l)).1 (ro_digest o) ≤ available_base o.
Proof.
  intros (Hwf & Hok & Hnd) Hn Ho.
  eapply greedy_filled_in; eauto using candidates_NoDup, elem_of_candidates.
Qed.

Section loop.
Context (policy : SelfTradePolicy) (mkt : SuiAddress).

Abbreviation alloc inc l := (greedy policy (ro_maker inc) (available_base inc) (candidates inc l)).

(** What the loop returns for an allocation. *)
Definition loop_result (g : list allocation * bool) (opp : levels) (inc : RestingOrder)
    (intents : list MatchIntent) : levels * RestingOrder * list MatchIntent * bool :=
  (credit_levels g.1 opp, set_pending (ro_pending_base inc + total g.1) inc,
   intents ++ (alloc_intent mkt inc <$> g.1), g.2).

Lemma loop_result_nil opp inc intents : loop_result ([], false) opp inc intents = (opp, inc, intents, false).
Proof.
  unfold loop_result. simpl. rewrite credit_levels_notin by done.
  by rewrite total_nil, Z.add_0_r, set_pending_id, app_nil_r.
Qed.

Lemma loop_result_app fs1 fs2 st opp inc intents :
  loop_result (fs2, st) (credit_levels fs1 opp) (set_pending (ro_pending_base inc + total fs1) inc)
    (intents ++ (alloc_intent mkt inc <$> fs1)) =
  loop_result (fs1 ++ fs2, st) opp inc intents.
Proof.
  unfold loop_result. simpl.
  by rewrite credit_levels_app, set_pending_set, total_app, Z.add_assoc, fmap_app, app_assoc.
Qed.

Lemma match_loop_spec fuel : ∀ opp inc intents,
  levels_ok opp → order_ok inc → (live_levels inc opp < fuel)%nat →
  match_loop policy mkt fuel opp inc intents = Some (loop_result (alloc inc opp) opp inc intents).
Proof.
  induction fuel as [|fuel IH]; intros opp inc intents Hopp Hinc Hfuel; [lia|].
  cbn [match_loop]. pose proof (available_nonneg inc) as Hnn.
  destruct (Z.ltb_spec 0 (available_base inc)) as [Hav|Hav].
  2: { replace (available_base inc) with 0 by lia. by rewrite greedy_zero, loop_result_nil. }
  destruct (best_level inc opp) as [[p q]|] eqn:Hbest.
  2: { rewrite (best_level_None _ _ Hbest). simpl. by rewrite loop_result_nil. }
  destruct (best_level_Some _ _ _ _ Hbest) as (L1 & L2 & HL & Hcr & Hha & HL1).
  destruct (best_first_split _ _ _ _ _ HL) as (M1 & M2 & -> & HM).
  pose proof (λ fs, levels_ok_split M1 p q M2 fs Hopp) as Hsp.
  destruct (Hsp []) as (Hqok & Hqnd & _); [done|].
  destruct (walk_queue_spec policy mkt p q inc Hinc Hqok Hqnd) as (e & -> & Hst & Hfull).
  unfold walk_result in *. set (cq := level_candidates (p, q)) in *.
  assert (candidates inc (M1 ++ (p, q) :: M2) = cq ++ cands inc L2) as ->.
  { rewrite candidates_cands, HM, cands_app, cands_cons, HL1. simpl. by rewrite Hcr. }
  rewrite greedy_app. set (g := greedy policy (ro_maker inc) (available_base inc) cq) in *.
  destruct (Hsp g.1) as (_ & _ & Hcl & ->).
  { intros d Hd. by apply greedy_digests, level_candidates_notin. }
  rewrite <- Hcl. pose proof (greedy_total policy (ro_maker inc) (available_base inc) cq Hnn) as Htot.
  pose proof (greedy_exhausts policy (ro_maker inc) (available_base inc) cq Hnn) as Hex.
  fold g in Htot, Hex. destruct g as [fs st] eqn:Eg; cbn [fst snd] in *.
  destruct e.
  - (* the queue was exhausted: the loop goes on *)
    assert (st = false) as -> by (destruct st; naive_solver).
    set (inc' := set_pending _ inc). cbn iota.
    destruct (take_qty_ok (total fs) inc Hinc) as (Htk & Hok' & Hav'); [lia|].
    rewrite Htk in Hok', Hav'. fold inc' in Hok', Hav'.
    assert (levels_ok (credit_levels fs (M1 ++ (p, q) :: M2))) as Hopp'.
    { apply levels_ok_credit; [|done]. intros o Ho. change fs with ((fs, false).1). rewrite <- Eg.
      eapply greedy_filled_in; [done|by apply level_candidates_NoDup| |apply Hopp|done].
      intros x Hx. apply elem_of_level_candidates in Hx as (_ & Hx & _).
      apply (level_orders_elem p q); [|done]. set_solver. }
    destruct (Z.eq_dec (available_base inc') 0) as [Ez|Ez].
    + destruct fuel as [|fuel]; [exfalso; apply live_pos in HL; [lia|done..]|].
      cbn [match_loop]. rewrite Ez. cbn [Z.ltb]. rewrite <- Hav', Ez, greedy_zero. cbn [fst snd].
      rewrite app_nil_r. done.
    + assert (has_avail (credit fs <$> q) = false) as Hna.
      { destruct (Hex eq_refl) as [Ht|[Ha Hq]]; [lia|]. by eapply no_candidates_left. }
      assert (best_first (ro_side inc) (credit_levels fs (M1 ++ (p, q) :: M2)) =
              L1 ++ (p, credit fs <$> q) :: L2) as HL' by (by rewrite Hcl).
      assert (candidates inc' (credit_levels fs (M1 ++ (p, q) :: M2)) = cands inc L2) as Hc'.
      { change (cands inc (best_first (ro_side inc) (credit_levels fs (M1 ++ (p, q) :: M2))) = cands inc L2).
        rewrite HL', cands_app, HL1, cands_cons, level_candidates_nil by done.
        by destruct (crosses inc _). }
      rewrite IH; [|done..|].
      * rewrite Hc', Hav'. cbn [ro_maker set_pending]. destruct (greedy _ _ _ (cands inc L2)) as [fs2 st2].
        f_equal. apply loop_result_app.
      * change (live_levels inc (credit_levels fs (M1 ++ (p, q) :: M2)) < fuel)%nat.
        rewrite (live_levels_split _ _ _ _ _ _ HL'), Hna, andb_false_r.
        rewrite (live_levels_split _ _ _ _ _ _ HL), Hcr, Hha in Hfuel. simpl in *. lia.
  - (* nothing is wanted any more *)
    assert (st = false) as -> by (destruct st; naive_solver).
    specialize (Hfull eq_refl). replace (available_base inc - total fs) with 0 by lia.
    rewrite greedy_zero. cbn [fst snd]. by rewrite app_nil_r.
  - assert (st = true) as -> by (by apply Hst). done.
Qed.
End loop.

Lemma match_incoming_spec b inc :
  let opp := book_side (opposite (ro_side inc)) b in
  let g := greedy (self_trade_policy b) (ro_maker inc) (available_base inc) (candidates inc opp) in
  levels_ok opp → order_ok inc →
  match_incoming b inc =
    (set_book_side (opposite (ro_side inc)) (credit_levels g.1 opp) b,
     set_pending (ro_pending_base inc + total g.1) inc,
     alloc_intent (m_registry_id (market b)) inc <$> g.1, g.2).
Proof.
  cbn zeta. intros Hopp Hinc. unfold match_incoming. rewrite match_loop_spec; [done|done|done|].
  unfold live_levels. eapply Nat.le_lt_trans; [apply bfilter_length|].
  destruct (ro_side inc); simpl; rewrite ?length_reverse; lia.
Qed.
