(* ===== verification/BookInv.v ===== *)
(** The book invariant: the two sides and the digest index describe the
    same set of resting orders, each filed under its own side and price,
    with [pending <= remaining] within [u64].  Every operation preserves
    it; the operations' effects are stated through [get]. *)

From S2P Require Import Prelude BTreeMap ExchangeTypes Book BookMatch.

Implicit Types (b : Book) (o : RestingOrder) (q : list RestingOrder) (d : Digest) (s : Side).

(** The invariant, relative to what every resting order satisfies. *)
Record book_inv (P : RestingOrder → Prop) (b : Book) : Prop := {
  bi_wf s : bt_wf (book_side s b);
  bi_ne s p q : bt_get p (book_side s b) = Some q → q ≠ [];
  bi_nodup s p q : bt_get p (book_side s b) = Some q → NoDup (ro_digest <$> q);
  bi_order s p q o :
    bt_get p (book_side s b) = Some q → o ∈ q →
    P o ∧ ro_side o = s ∧ ro_price_ticks o = p ∧ index b !! ro_digest o = Some (s, p);
  bi_index d s p :
    index b !! d = Some (s, p) →
    ∃ q o, bt_get p (book_side s b) = Some q ∧ o ∈ q ∧ ro_digest o = d;
}.

Definition live (o : RestingOrder) : Prop := order_ok o ∧ 0 < ro_remaining_base o.

Definition book_ok (b : Book) : Prop := book_inv live b.

(** An update that keeps an order filed where it is. *)
Definition keeps_place (f : RestingOrder → RestingOrder) : Prop :=
  ∀ o, ro_digest (f o) = ro_digest o ∧ ro_side (f o) = ro_side o ∧
       ro_price_ticks (f o) = ro_price_ticks o.

(** ** Sides *)

Lemma book_side_set_eq s l b : book_side s (set_book_side s l b) = l.
Proof. by destruct s. Qed.

Lemma book_side_set_ne s s' l b : s ≠ s' → book_side s (set_book_side s' l b) = book_side s b.
Proof. by destruct s, s'. Qed.

Lemma book_side_set s s' l b :
  book_side s (set_book_side s' l b) = if decide (s = s') then l else book_side s b.
Proof. case_decide; subst; [apply book_side_set_eq|by apply book_side_set_ne]. Qed.

Lemma index_set_book_side s l b : index (set_book_side s l b) = index b.
Proof. by destruct s. Qed.

Lemma book_side_set_index s i b : book_side s (set_index i b) = book_side s b.
Proof. by destruct s. Qed.

Lemma index_set_index i b : index (set_index i b) = i.
Proof. done. Qed.

Lemma set_book_side_id s b : set_book_side s (book_side s b) b = b.
Proof. by destruct s, b. Qed.

#[export] Hint Rewrite book_side_set book_side_set_index index_set_book_side index_set_index : rust.

(** Orders filed under different keys are different. *)
Lemma NoDup_filed (file : gmap Digest (Side * Z)) s (l : levels) :
  bt_wf l →
  (∀ p q, (p, q) ∈ l → NoDup (ro_digest <$> q) ∧ ∀ o, o ∈ q → file !! ro_digest o = Some (s, p)) →
  NoDup (ro_digest <$> level_orders l).
Proof.
  induction l as [|[p q] l IH]; [constructor|]. rewrite bt_wf_cons, Forall_forall.
  intros [Hlt Hwf] H. rewrite level_orders_cons, fmap_app. apply NoDup_app.
  split; [apply (H p); set_solver|]. split; [|apply IH; [done|]; intros; apply H; set_solver].
  intros d (o & -> & Ho)%list_elem_of_fmap (o' & Heq & Ho')%list_elem_of_fmap.
  apply list_elem_of_join in Ho' as (q' & Ho' & Hq').
  apply list_elem_of_fmap in Hq' as ([p' l0] & -> & Hq'). simpl in Ho'.
  destruct (H p q ltac:(set_solver)) as [_ H1]. destruct (H p' l0) as [_ H2]; [set_solver|].
  specialize (H1 o Ho). specialize (H2 o' Ho'). specialize (Hlt _ Hq'). simpl in Hlt.
  rewrite Heq, H2 in H1. simplify_eq. lia.
Qed.

(** ** Lookup *)

Section lookup.
Context {P : RestingOrder → Prop} {b : Book} (Hb : book_inv P b).

Lemma has_digest_true d o : has_digest d o = true ↔ ro_digest o = d.
Proof. unfold has_digest. apply bool_decide_eq_true. Qed.

Lemma get_Some d o :
  get b d = Some o ↔
  ∃ p q s, index b !! d = Some (s, p) ∧ bt_get p (book_side s b) = Some q ∧ o ∈ q ∧ ro_digest o = d.
Proof.
  unfold get. split.
  - destruct (index b !! d) as [[s p]|]; simpl; [|done].
    destruct (bt_get p (book_side s b)) as [q|] eqn:Eq; simpl; [|done].
    intros (l1 & l2 & -> & Hd & _)%bfind_Some. apply has_digest_true in Hd.
    eexists p, _, s. split; [done|]. split; [done|]. set_solver.
  - intros (p & q & s & -> & Hq & Ho & Hd). simpl. rewrite Hq. simpl.
    destruct (List.find (has_digest d) q) as [o'|] eqn:E.
    + apply bfind_Some in E as (l1 & l2 & -> & Hd' & _). apply has_digest_true in Hd'.
      f_equal. eapply NoDup_fmap_inj_on; [eapply bi_nodup; eauto|set_solver|done|congruence].
    + rewrite bfind_None in E. specialize (E o Ho). by rewrite (proj2 (has_digest_true _ _) Hd) in E.
Qed.

Lemma get_None d : get b d = None ↔ index b !! d = None.
Proof.
  split; intros H.
  - destruct (index b !! d) as [[s p]|] eqn:E; [|done].
    destruct (bi_index _ _ Hb _ _ _ E) as (q & o & ? & ? & ?).
    assert (get b d = Some o) by (apply get_Some; eauto 10). congruence.
  - unfold get. by rewrite H.
Qed.

Lemma get_filed d o :
  get b d = Some o →
  P o ∧ ro_digest o = d ∧ index b !! d = Some (ro_side o, ro_price_ticks o) ∧
  ∃ q, bt_get (ro_price_ticks o) (book_side (ro_side o) b) = Some q ∧ o ∈ q.
Proof.
  intros (p & q & s & Hi & Hq & Ho & <-)%get_Some.
  destruct (bi_order _ _ Hb _ _ _ _ Hq Ho) as (? & <- & <- & ?). split_and!; eauto.
Qed.

Lemma level_get s p q o :
  bt_get p (book_side s b) = Some q → o ∈ q → get b (ro_digest o) = Some o.
Proof.
  intros Hq Ho. destruct (bi_order _ _ Hb _ _ _ _ Hq Ho) as (_ & _ & _ & Hi).
  apply get_Some. eauto 10.
Qed.

Lemma level_orders_get s o :
  o ∈ level_orders (book_side s b) ↔ get b (ro_digest o) = Some o ∧ ro_side o = s.
Proof.
  split.
  - intros (q & Ho & Hq)%list_elem_of_join. apply list_elem_of_fmap in Hq as ([p q'] & -> & Hq).
    apply bt_elem_get in Hq; [|apply (bi_wf _ _ Hb)]. split; [by eapply level_get|].
    by eapply bi_order.
  - intros [Hg <-]. destruct (get_filed _ _ Hg) as (_ & _ & _ & q & Hq & Ho).
    eapply level_orders_elem; [by apply bt_get_Some_elem|done].
Qed.

Lemma level_filed s p q :
  (p, q) ∈ book_side s b →
  NoDup (ro_digest <$> q) ∧ ∀ o, o ∈ q → (index b !! ro_digest o) = Some (s, p).
Proof.
  intros Hq%bt_elem_get; [|apply (bi_wf _ _ Hb)]. split; [by eapply bi_nodup|].
  intros o Ho. by eapply bi_order.
Qed.

Lemma NoDup_level_orders s : NoDup (ro_digest <$> level_orders (book_side s b)).
Proof. eapply NoDup_filed; [apply (bi_wf _ _ Hb)|apply level_filed]. Qed.

Lemma book_side_levels_ok s : (∀ o, P o → order_ok o) → levels_ok (book_side s b).
Proof.
  intros HP. split; [apply (bi_wf _ _ Hb)|]. split; [|apply NoDup_level_orders].
  apply Forall_forall. intros o [Hg _]%level_orders_get. by apply HP, (get_filed _ _ Hg).
Qed.
End lookup.

(** ** Preservation and effect of the operations

    [get] is the abstraction: a book is seen as the finite map from the
    digests at rest to their orders, and each operation as an update of it. *)

Section ops.
Context {P : RestingOrder → Prop} {b : Book} (Hb : book_inv P b).

Lemma book_inv_impl (Q : RestingOrder → Prop) :
  (∀ d o, get b d = Some o → P o → Q o) → book_inv Q b.
Proof.
  intros HPQ. destruct Hb as [H1 H2 H3 H4 H5]. split; auto. intros s p q o Hq Ho.
  destruct (H4 s p q o Hq Ho) as (HP & ?). split; [|done].
  eapply HPQ; [|done]. by eapply level_get.
Qed.

End ops.

(** *** Updating orders in place *)

Definition map_levels (g : RestingOrder → RestingOrder) (l : levels) : levels :=
  (λ pq : Z * list RestingOrder, (pq.1, g <$> pq.2)) <$> l.

Definition map_side s (g : RestingOrder → RestingOrder) b : Book :=
  set_book_side s (map_levels g (book_side s b)) b.

Lemma credit_levels_map fs l : credit_levels fs l = map_levels (credit fs) l.
Proof. done. Qed.

Lemma bt_get_map_levels g p l : bt_get p (map_levels g l) = (λ q, g <$> q) <$> bt_get p l.
Proof. induction l as [|[p' q] l IH]; simpl; [done|]. by destruct (p =? p'). Qed.

Lemma map_levels_wf g l : bt_wf l → bt_wf (map_levels g l).
Proof. unfold bt_wf, map_levels. by rewrite <- list_fmap_compose. Qed.

Lemma level_map_side s g b s' p :
  bt_get p (book_side s' (map_side s g b)) =
  (if decide (s' = s) then (λ q, g <$> q) <$> bt_get p (book_side s b) else bt_get p (book_side s' b)).
Proof. unfold map_side. rewrite book_side_set. case_decide; [apply bt_get_map_levels|done]. Qed.

Lemma index_map_side s g b : index (map_side s g b) = index b.
Proof. apply index_set_book_side. Qed.

Section map_side.
Context {P : RestingOrder → Prop} {b : Book} (Hb : book_inv P b).
Context (Q : RestingOrder → Prop) (s : Side) (g : RestingOrder → RestingOrder).
Context (Hg : keeps_place g).
Context (HQ : ∀ d o, get b d = Some o → P o → ro_side o = s → Q (g o)).
Context (HQ' : ∀ d o, get b d = Some o → P o → ro_side o ≠ s → Q o).

Lemma digests_keeps q : ro_digest <$> (g <$> q) = ro_digest <$> q.
Proof. rewrite <- list_fmap_compose. apply list_fmap_ext. intros i o _. apply Hg. Qed.

Lemma map_side_inv : book_inv Q (map_side s g b).
Proof.
  split.
  - intros s'. unfold map_side. rewrite book_side_set. case_decide; [|apply (bi_wf _ _ Hb)].
    apply map_levels_wf, (bi_wf _ _ Hb).
  - intros s' p q. rewrite level_map_side. case_decide; [|by apply (bi_ne _ _ Hb)].
    intros (q' & Hq' & ->)%fmap_Some ?%fmap_nil_inv. by eapply (bi_ne _ _ Hb).
  - intros s' p q. rewrite level_map_side. case_decide; [|by apply (bi_nodup _ _ Hb)].
    intros (q' & Hq' & ->)%fmap_Some. rewrite digests_keeps. by eapply (bi_nodup _ _ Hb).
  - intros s' p q o. rewrite level_map_side, index_map_side. case_decide as Hs.
    + intros (q' & Hq' & ->)%fmap_Some (o' & -> & Ho')%list_elem_of_fmap. subst s'.
      destruct (bi_order _ _ Hb _ _ _ _ Hq' Ho') as (HP & Hs & Hp & Hi).
      destruct (Hg o') as (Ed & Es & Ep). rewrite Ed, Es, Ep. split_and!; try done.
      eapply HQ; [by eapply (level_get Hb)|done..].
    + intros Hq Ho. destruct (bi_order _ _ Hb _ _ _ _ Hq Ho) as (HP & Hs' & Hp & Hi).
      split_and!; [|done..]. eapply HQ'; [by eapply (level_get Hb)|done|congruence].
  - intros d s' p. rewrite index_map_side. intros Hi.
    destruct (bi_index _ _ Hb _ _ _ Hi) as (q & o & Hq & Ho & <-). rewrite level_map_side.
    case_decide as Hs; [|by eauto]. exists (g <$> q), (g o). rewrite <- Hs, Hq.
    split_and!; [done|by apply list_elem_of_fmap_2|apply Hg].
Qed.

Lemma get_map_side d :
  get (map_side s g b) d = (λ o, if decide (ro_side o = s) then g o else o) <$> get b d.
Proof.
  destruct (get b d) as [o|] eqn:E; simpl.
  - destruct (get_filed Hb _ _ E) as (HP & <- & Hi & q & Hq & Ho).
    assert (∃ q', bt_get (ro_price_ticks o) (book_side (ro_side o) (map_side s g b)) = Some q' ∧
              (if decide (ro_side o = s) then g o else o) ∈ q') as (q' & Hq' & Ho').
    { rewrite level_map_side. case_decide as Hs; [|by eauto]. rewrite <- Hs, Hq.
      eexists; split; [done|]. by apply list_elem_of_fmap_2. }
    erewrite <- (level_get map_side_inv); [|done|done]. f_equal. case_decide; [symmetry; apply Hg|done].
  - apply (get_None map_side_inv). rewrite index_map_side. by apply (get_None Hb).
Qed.
End map_side.

(** [get_mut] is such an update. *)
Definition at_digest d (f : RestingOrder → RestingOrder) o : RestingOrder :=
  if has_digest d o then f o else o.

Lemma update_first_fmap d f q :
  NoDup (ro_digest <$> q) → update_first d f q = at_digest d f <$> q.
Proof.
  induction q as [|o q IH]; [done|]. rewrite fmap_cons, NoDup_cons. intros [Hnin Hnd].
  simpl. unfold at_digest at 1. destruct (has_digest d o) eqn:E; f_equal; [|by apply IH].
  apply has_digest_true in E as <-. rewrite <- (list_fmap_id q) at 1.
  apply list_fmap_ext. intros i o' Ho'%list_elem_of_lookup_2. unfold at_digest, id.
  destruct (has_digest _ o') eqn:E; [|done]. apply has_digest_true in E.
  destruct Hnin. rewrite <- E. by apply list_elem_of_fmap_2.
Qed.

Lemma map_levels_id_on g l : (∀ p q o, (p, q) ∈ l → o ∈ q → g o = o) → map_levels g l = l.
Proof.
  intros H. unfold map_levels. rewrite <- (list_fmap_id l) at 2. apply list_fmap_ext.
  intros i [p q] Hi%list_elem_of_lookup_2. unfold id. simpl. f_equal.
  rewrite <- (list_fmap_id q) at 2. apply list_fmap_ext.
  intros j o Hj%list_elem_of_lookup_2. by eapply H.
Qed.

Lemma map_levels_split g M1 p q M2 :
  map_levels g (M1 ++ (p, q) :: M2) = map_levels g M1 ++ (p, g <$> q) :: map_levels g M2.
Proof. unfold map_levels. by rewrite fmap_app. Qed.

Lemma get_mut_map_side P b d f s p :
  book_inv P b → index b !! d = Some (s, p) → get_mut b d f = map_side s (at_digest d f) b.
Proof.
  intros Hb Hi. unfold get_mut, map_side. rewrite Hi.
  destruct (bi_index _ _ Hb _ _ _ Hi) as (q & o & Hq & Ho & Hd). rewrite Hq. f_equal.
  rewrite update_first_fmap by (by eapply bi_nodup).
  assert (∀ p' q' o', (p', q') ∈ book_side s b → o' ∈ q' → p' ≠ p → at_digest d f o' = o') as Hid.
  { intros p' q' o' Hin Ho' Hne. unfold at_digest. destruct (has_digest d o') eqn:E; [|done].
    apply has_digest_true in E. apply bt_elem_get in Hin; [|apply (bi_wf _ _ Hb)].
    destruct (bi_order _ _ Hb _ _ _ _ Hin Ho') as (_ & _ & _ & Hi'). rewrite E in Hi'. congruence. }
  pose proof (bi_wf _ _ Hb s) as Hwf.
  apply bt_get_Some_elem, list_elem_of_split in Hq as (M1 & M2 & HM). rewrite HM in *.
  rewrite bt_insert_split, map_levels_split by done.
  apply bt_wf_app_keys in Hwf as [H1 H2].
  rewrite !(map_levels_id_on (at_digest d f)); [done|..]; intros p' q' o' Hin Ho';
    (apply (Hid p' q'); [set_solver|done|]); [specialize (H2 _ Hin)|specialize (H1 _ Hin)]; simpl in *; lia.
Qed.

Lemma get_mut_absent b d f : index b !! d = None → get_mut b d f = b.
Proof. intros H. unfold get_mut. by rewrite H. Qed.

Lemma at_digest_keeps d f : keeps_place f → keeps_place (at_digest d f).
Proof. intros Hf o. unfold at_digest. destruct (has_digest d o); auto. Qed.

Section get_mut.
Context {P : RestingOrder → Prop} {b : Book} (Hb : book_inv P b).
Context (Q : RestingOrder → Prop) (d : Digest) (f : RestingOrder → RestingOrder).
Context (Hf : keeps_place f).
Context (HQ : ∀ o, get b d = Some o → P o → Q (f o)).
Context (HQ' : ∀ d' o, d' ≠ d → get b d' = Some o → P o → Q o).

Lemma get_mut_inv : book_inv Q (get_mut b d f).
Proof.
  assert (∀ d' o, get b d' = Some o → P o → d' ≠ d → Q o) as HQ2 by naive_solver.
  destruct (index b !! d) as [[s p]|] eqn:Hi.
  - rewrite (get_mut_map_side P b d f s p) by done.
    apply (map_side_inv Hb); [by apply at_digest_keeps|..].
    + intros d' o Ho HP Hs. unfold at_digest. destruct (has_digest d o) eqn:E.
      * apply has_digest_true in E. destruct (get_filed Hb _ _ Ho) as (_ & Hd & _).
        apply HQ; [|done]. by rewrite <- E, Hd.
      * eapply HQ2; [done|done|]. intros ->. destruct (get_filed Hb _ _ Ho) as (_ & Hd & _).
        apply has_digest_true in Hd. congruence.
    + intros d' o Ho HP Hs. eapply HQ2; [done|done|]. intros ->.
      destruct (get_filed Hb _ _ Ho) as (_ & Hd & Hi' & _). congruence.
  - rewrite get_mut_absent by done. apply (book_inv_impl Hb). intros d' o Ho HP.
    eapply HQ2; [done|done|]. intros ->. apply (get_None Hb) in Hi. congruence.
Qed.

Lemma get_get_mut d' :
  get (get_mut b d f) d' = if decide (d' = d) then f <$> get b d else get b d'.
Proof.
  destruct (index b !! d) as [[s p]|] eqn:Hi.
  - rewrite (get_mut_map_side P b d f s p) by done.
    assert (∀ o, get b d' = Some o →
      (if decide (ro_side o = s) then at_digest d f o else o) =
      if decide (d' = d) then f o else o) as Hupd.
    { intros o Ho. destruct (get_filed Hb _ _ Ho) as (_ & Hd & Hi' & _). unfold at_digest, has_digest.
      rewrite Hd. repeat (case_decide || case_bool_decide); congruence. }
    rewrite (get_map_side Hb (λ _, True)); [|by apply at_digest_keeps|done..].
    destruct (get b d') as [o|] eqn:E; simpl.
    + rewrite Hupd by done. case_decide; [|done]. subst. by rewrite E.
    + case_decide; [|done]. subst. by rewrite E.
  - rewrite get_mut_absent by done. apply (get_None Hb) in Hi. case_decide; [|done].
    subst. by rewrite Hi.
Qed.
End get_mut.

(** *** Removal *)

Section remove.
Context {P : RestingOrder → Prop} {b : Book} (Hb : book_inv P b).
Context (d : Digest).

Lemma filter_digest_elem q o :
  o ∈ List.filter (λ o, negb (has_digest d o)) q ↔ o ∈ q ∧ ro_digest o ≠ d.
Proof.
  rewrite elem_of_bfilter, negb_true_iff. unfold has_digest.
  by rewrite bool_decide_eq_false.
Qed.

Lemma filter_digest_NoDup q :
  NoDup (ro_digest <$> q) → NoDup (ro_digest <$> List.filter (λ o, negb (has_digest d o)) q).
Proof.
  induction q as [|o q IH]; simpl; [done|]. rewrite NoDup_cons. intros [Hnin Hnd].
  destruct (negb (has_digest d o)); simpl; [|auto]. apply NoDup_cons. split; [|auto].
  intros (o' & Heq & [Ho' _]%filter_digest_elem)%list_elem_of_fmap.
  apply Hnin. rewrite Heq. by apply list_elem_of_fmap_2.
Qed.

(** What [remove] leaves at a level. *)
Lemma level_remove s' p' :
  bt_get p' (book_side s' (remove b d).1) =
  if decide (index b !! d = Some (s', p')) then
    q ← bt_get p' (book_side s' b);
    let q' := List.filter (λ o, negb (has_digest d o)) q in
    if decide (q' = []) then None else Some q'
  else bt_get p' (book_side s' b).
Proof.
  unfold remove. destruct (index b !! d) as [[s p]|] eqn:Hi; simpl.
  2: { done. }
  rewrite book_side_set_index. destruct (bt_get p (book_side s b)) as [q|] eqn:Hq; simpl.
  - rewrite book_side_set, book_side_set_index. case_decide as Hs; [subst s'|].
    + case_bool_decide as Hnil.
      * rewrite bt_get_remove by apply bt_wf_insert, (bi_wf _ _ Hb). rewrite bt_get_insert.
        destruct (Z.eqb_spec p' p) as [->|].
        -- rewrite decide_True, Hq by done. simpl. by rewrite decide_True.
        -- by rewrite decide_False by naive_solver.
      * rewrite bt_get_insert. destruct (Z.eqb_spec p' p) as [->|].
        -- rewrite decide_True, Hq by done. simpl. by rewrite decide_False.
        -- by rewrite decide_False by naive_solver.
    + by rewrite decide_False by naive_solver.
  - rewrite book_side_set_index. case_decide; [|done]. simplify_eq. by rewrite Hq.
Qed.

Lemma index_remove : index (remove b d).1 = delete d (index b).
Proof.
  unfold remove. destruct (index b !! d) as [[s p]|] eqn:Hi; simpl.
  - rewrite book_side_set_index. case_match; simpl; [by rewrite index_set_book_side|done].
  - by rewrite delete_id.
Qed.

Lemma remove_wf s : bt_wf (book_side s (remove b d).1).
Proof.
  pose proof (bi_wf _ _ Hb) as Hwf. unfold remove.
  destruct (index b !! d) as [[s' p]|]; simpl; [|apply Hwf]. rewrite book_side_set_index.
  destruct (bt_get _ _); simpl; [|by rewrite book_side_set_index].
  rewrite book_side_set, book_side_set_index. case_decide; [|apply Hwf].
  case_bool_decide; auto with rust.
Qed.

Lemma remove_inv_gen (Q : RestingOrder → Prop) :
  (∀ d' o, d' ≠ d → get b d' = Some o → P o → Q o) → book_inv Q (remove b d).1.
Proof.
  intros HQ.
  assert (∀ s p q o, bt_get p (book_side s b) = Some q → o ∈ q → ro_digest o ≠ d →
            Q o ∧ ro_side o = s ∧ ro_price_ticks o = p ∧ delete d (index b) !! ro_digest o = Some (s, p)) as Hold.
  { intros s p q o Hq Ho Hne. destruct (bi_order _ _ Hb _ _ _ _ Hq Ho) as (HP & ? & ? & Hi).
    rewrite lookup_delete_ne by done. split_and!; try done.
    eapply HQ; [done| |done]. by eapply (level_get Hb). }
  split.
  - apply remove_wf.
  - intros s p q. rewrite level_remove. case_decide; [|by apply (bi_ne _ _ Hb)].
    intros (q0 & Hq0 & Hq)%bind_Some. simpl in Hq. by case_decide; simplify_eq.
  - intros s p q. rewrite level_remove. case_decide; [|by apply (bi_nodup _ _ Hb)].
    intros (q0 & Hq0 & Hq)%bind_Some. simpl in Hq. case_decide; simplify_eq.
    apply filter_digest_NoDup. by eapply (bi_nodup _ _ Hb).
  - intros s p q o. rewrite level_remove, index_remove. case_decide as Hc.
    + intros (q0 & Hq0 & Hq)%bind_Some Ho. simpl in Hq. case_decide; simplify_eq.
      apply filter_digest_elem in Ho as [Ho Hne]. by eapply Hold.
    + intros Hq Ho. apply (Hold s p q); [done|done|]. intros <-.
      destruct (bi_order _ _ Hb _ _ _ _ Hq Ho) as (_ & _ & _ & Hi). congruence.
  - intros d' s p. rewrite index_remove. intros [Hne Hi]%lookup_delete_Some.
    destruct (bi_index _ _ Hb _ _ _ Hi) as (q & o & Hq & Ho & <-).
    assert (o ∈ List.filter (λ o, negb (has_digest d o)) q) as Ho'
      by (apply filter_digest_elem; split; [done|congruence]).
    setoid_rewrite level_remove. case_decide; [|eauto]. rewrite Hq. simpl.
    rewrite decide_False by (intros E; rewrite E in Ho'; set_solver). eauto.
Qed.

Lemma remove_inv : book_inv P (remove b d).1.
Proof. apply remove_inv_gen. auto. Qed.

Lemma get_remove d' : get (remove b d).1 d' = if decide (d' = d) then None else get b d'.
Proof.
  case_decide as Hd; [subst; apply (get_None remove_inv); rewrite index_remove; apply lookup_delete_eq|].
  destruct (get b d') as [o|] eqn:E.
  - destruct (get_filed Hb _ _ E) as (HP & <- & Hi & q & Hq & Ho).
    assert (∃ q', bt_get (ro_price_ticks o) (book_side (ro_side o) (remove b d).1) = Some q' ∧ o ∈ q')
      as (q' & Hq' & Ho'); [|by eapply (level_get remove_inv)].
    assert (o ∈ List.filter (λ o, negb (has_digest d o)) q) as Ho' by by apply filter_digest_elem.
    rewrite level_remove. case_decide; [|eauto]. rewrite Hq. simpl.
    rewrite decide_False by (intros E'; rewrite E' in Ho'; set_solver). eauto.
  - apply (get_None remove_inv). rewrite index_remove. apply lookup_delete_None. right.
    by apply (get_None Hb).
Qed.

Lemma remove_result : (remove b d).2 = bool_decide (is_Some (get b d)).
Proof.
  unfold remove. destruct (index b !! d) as [[s p]|] eqn:Hi.
  - rewrite bool_decide_true; [by case_match|]. destruct (get b d) eqn:E; [done|].
    apply (get_None Hb) in E. congruence.
  - rewrite bool_decide_false; [done|]. apply (get_None Hb) in Hi. rewrite Hi. by intros [? ?].
Qed.
End remove.

(** *** Resting a new order *)

Section rest.
Context {P : RestingOrder → Prop} {b : Book} (Hb : book_inv P b).
Context (o : RestingOrder) (HPo : P o) (Hfresh : get b (ro_digest o) = None).

Lemma level_rest s p :
  bt_get p (book_side s (rest b o)) =
  if decide (s = ro_side o ∧ p = ro_price_ticks o)
  then Some (default [] (bt_get p (book_side s b)) ++ [o]) else bt_get p (book_side s b).
Proof.
  unfold rest. autorewrite with rust. destruct (decide (s = ro_side o)) as [->|].
  - rewrite bt_get_insert. destruct (Z.eqb_spec p (ro_price_ticks o)) as [->|].
    + by rewrite decide_True.
    + by rewrite decide_False by naive_solver.
  - by rewrite decide_False by naive_solver.
Qed.

Lemma index_rest : index (rest b o) = <[ro_digest o := (ro_side o, ro_price_ticks o)]> (index b).
Proof. unfold rest. by rewrite index_set_book_side. Qed.

Lemma level_default s p o' :
  o' ∈ default [] (bt_get p (book_side s b)) →
  ∃ q, bt_get p (book_side s b) = Some q ∧ o' ∈ q.
Proof. destruct (bt_get _ _); simpl; [eauto|set_solver]. Qed.

Lemma rest_inv : book_inv P (rest b o).
Proof.
  pose proof (proj1 (get_None Hb _) Hfresh) as Hi.
  assert (∀ s p q o', bt_get p (book_side s b) = Some q → o' ∈ q → ro_digest o' ≠ ro_digest o) as Hne.
  { intros s p q o' Hq Ho' Heq. destruct (bi_order _ _ Hb _ _ _ _ Hq Ho') as (_ & _ & _ & Hi').
    congruence. }
  split.
  - intros s. unfold rest. autorewrite with rust. case_decide; [|apply (bi_wf _ _ Hb)].
    apply bt_wf_insert, (bi_wf _ _ Hb).
  - intros s p q. rewrite level_rest. case_decide; [|by apply (bi_ne _ _ Hb)].
    intros [= <-] ?%app_eq_nil. naive_solver.
  - intros s p q. rewrite level_rest. case_decide; [|by apply (bi_nodup _ _ Hb)].
    intros [= <-]. rewrite fmap_app. apply NoDup_app. split_and!.
    + destruct (bt_get p (book_side s b)) eqn:E; simpl; [by eapply (bi_nodup _ _ Hb)|constructor].
    + intros d (o' & -> & (q0 & Hq & Ho')%level_default)%list_elem_of_fmap Hin%list_elem_of_singleton.
      by eapply Hne.
    + apply NoDup_singleton.
  - intros s p q o'. rewrite level_rest, index_rest. case_decide as Hc.
    + intros [= <-] [(q0 & Hq & Ho')%level_default| ->%list_elem_of_singleton]%elem_of_app.
      * rewrite lookup_insert_ne; [by eapply (bi_order _ _ Hb)|]. intros Heq. by eapply Hne.
      * destruct Hc as [-> ->]. by rewrite lookup_insert_eq.
    + intros Hq Ho'. rewrite lookup_insert_ne; [by eapply (bi_order _ _ Hb)|].
      intros Heq. by eapply Hne.
  - intros d s p. rewrite index_rest, level_rest. intros [[<- [= <- <-]]|[Hd Hi']]%lookup_insert_Some.
    + rewrite decide_True by done. eexists _, o. split; [done|]. set_solver.
    + destruct (bi_index _ _ Hb _ _ _ Hi') as (q & o' & Hq & Ho' & <-). rewrite Hq.
      case_decide; [|eauto]. eexists _, o'. split; [done|]. set_solver.
Qed.

Lemma get_rest d : get (rest b o) d = if decide (d = ro_digest o) then Some o else get b d.
Proof.
  case_decide as Hd; [subst|].
  - eapply (level_get rest_inv (ro_side o) (ro_price_ticks o)).
    + rewrite level_rest, decide_True by done. done.
    + set_solver.
  - destruct (get b d) as [o'|] eqn:E.
    + destruct (get_filed Hb _ _ E) as (HP & <- & Hi & q & Hq & Ho').
      assert (∃ q', bt_get (ro_price_ticks o') (book_side (ro_side o') (rest b o)) = Some q' ∧ o' ∈ q')
        as (q' & Hq' & Ho''); [|by eapply (level_get rest_inv)].
      rewrite level_rest. case_decide; [|eauto]. rewrite Hq. eexists; split; [done|]. set_solver.
    + apply (get_None rest_inv). rewrite index_rest, lookup_insert_ne by done. by apply (get_None Hb).
Qed.
End rest.

(** *** Pruning *)

Lemma prune_if_done_inv P b d :
  book_inv P b →
  book_inv (λ o, P o ∧ (ro_digest o = d → ro_remaining_base o = 0 → ro_pending_base o ≠ 0)) (prune_if_done b d).
Proof.
  intros Hb. unfold prune_if_done. destruct (get b d) as [o|] eqn:E.
  - destruct ((ro_remaining_base o =? 0) && (ro_pending_base o =? 0)) eqn:Ez; reflect_bools.
    + apply (remove_inv_gen Hb). intros d' o' Hne Hg HP. split; [done|]. intros Hd.
      destruct (get_filed Hb _ _ Hg) as (_ & ? & _). congruence.
    + apply (book_inv_impl Hb). intros d' o' Hg HP. split; [done|].
      destruct (get_filed Hb _ _ Hg) as (_ & <- & _). intros Hd. rewrite Hd in Hg.
      simplify_eq. apply andb_false_iff in Ez as [Ez|Ez]; reflect_bools; lia.
  - apply (book_inv_impl Hb). intros d' o' Hg HP. split; [done|].
    destruct (get_filed Hb _ _ Hg) as (_ & <- & _). intros Hd. rewrite Hd in Hg. congruence.
Qed.

Definition pruned (o : RestingOrder) : option RestingOrder :=
  if (ro_remaining_base o =? 0) && (ro_pending_base o =? 0) then None else Some o.

Lemma get_prune_if_done P b d d' :
  book_inv P b →
  get (prune_if_done b d) d' = if decide (d' = d) then get b d ≫= pruned else get b d'.
Proof.
  intros Hb. unfold prune_if_done. destruct (get b d) as [o|] eqn:E; simpl.
  - unfold pruned. case_bool.
    + rewrite (get_remove Hb). done.
    + case_decide; subst; done.
  - case_decide; subst; done.
Qed.

(** *** Updating an order, then pruning it when done *)

Lemma update_prune_ok b d f :
  book_ok b → keeps_place f → (∀ o, live o → order_ok (f o)) →
  book_ok (prune_if_done (get_mut b d f) d) ∧
  ∀ d', get (prune_if_done (get_mut b d f) d) d' =
        if decide (d' = d) then (f <$> get b d) ≫= pruned else get b d'.
Proof.
  intros Hb Hf Hok.
  assert (book_inv (λ o, order_ok o ∧ (ro_digest o ≠ d → 0 < ro_remaining_base o)) (get_mut b d f)) as Hb1.
  { apply (get_mut_inv Hb); [done|..].
    - intros o Hg Hl. split; [auto|]. destruct (get_filed Hb _ _ Hg) as (_ & <- & _).
      by destruct (Hf o) as (-> & _).
    - intros d' o Hne Hg [? ?]. done. }
  split.
  - pose proof (prune_if_done_inv _ _ d Hb1) as Hb2. apply (book_inv_impl Hb2).
    intros d' o Hg [[Ho Hr] Hp]. split; [done|]. unfold order_ok in Ho.
    destruct (decide (ro_digest o = d)); [|auto]. specialize (Hp e).
    destruct (Z.eq_dec (ro_remaining_base o) 0); [|lia]. lia.
  - intros d'. rewrite (get_prune_if_done _ _ _ _ Hb1).
    rewrite !(get_get_mut Hb d f Hf). repeat case_decide; done.
Qed.
