(* ===== verification/BookProps.v ===== *)
(** What the operations of the matching engine do to a well-formed book,
    seen through [get], and the properties of the engine. *)

From S2P Require Import Prelude BTreeMap ExchangeTypes Book BookMatch BookInv.

Implicit Types (b : Book) (o : RestingOrder) (d : Digest) (s : Side).

(** ** Matching *)

(** The allocation of an incoming order against a book. *)
Definition allocation_of (b : Book) (inc : RestingOrder) : list allocation * bool :=
  greedy (self_trade_policy b) (ro_maker inc) (available_base inc)
    (candidates inc (book_side (opposite (ro_side inc)) b)).

Definition credit_side (s : Side) (fs : list allocation) (o : RestingOrder) : RestingOrder :=
  if decide (ro_side o = s) then credit fs o else o.

Lemma credit_keeps fs : keeps_place (credit fs).
Proof. done. Qed.

Lemma live_order_ok o : live o → order_ok o.
Proof. by intros []. Qed.

Lemma allocation_filled b inc s o :
  book_ok b → s = opposite (ro_side inc) → get b (ro_digest o) = Some o → ro_side o = s →
  0 ≤ filled (allocation_of b inc).1 (ro_digest o) ≤ available_base o.
Proof.
  intros Hb -> Hg Hs. apply filled_candidates; [|apply available_nonneg|].
  - apply (book_side_levels_ok Hb), live_order_ok.
  - by apply (level_orders_get Hb).
Qed.

Lemma match_incoming_ok b inc :
  book_ok b → order_ok inc →
  let g := allocation_of b inc in
  ∃ b', match_incoming b inc =
    (b', set_pending (ro_pending_base inc + total g.1) inc,
     alloc_intent (m_registry_id (market b)) inc <$> g.1, g.2) ∧
  book_ok b' ∧ index b' = index b ∧ market b' = market b ∧
  self_trade_policy b' = self_trade_policy b ∧ next_seq b' = next_seq b ∧
  book_side (ro_side inc) b' = book_side (ro_side inc) b ∧
  (∀ d, get b' d = credit_side (opposite (ro_side inc)) g.1 <$> get b d).
Proof.
  intros Hb Hinc. cbn zeta. eexists. split.
  { apply match_incoming_spec; [|done]. apply (book_side_levels_ok Hb), live_order_ok. }
  fold (allocation_of b inc). rewrite credit_levels_map.
  fold (map_side (opposite (ro_side inc)) (credit (allocation_of b inc).1) b).
  split_and!.
  - apply (map_side_inv Hb); [apply credit_keeps| |naive_solver].
    intros d o Hg [Hok Hpos] Hs. destruct (get_filed Hb _ _ Hg) as (_ & Hd & _).
    pose proof (allocation_filled b inc _ o Hb eq_refl) as Hf. rewrite Hd in Hf.
    specialize (Hf Hg Hs). rewrite available_ok in Hf by done.
    unfold live, order_ok, credit in *. simpl. rewrite Hd. lia.
  - apply index_map_side.
  - by destruct (ro_side inc).
  - by destruct (ro_side inc).
  - by destruct (ro_side inc).
  - by destruct (ro_side inc).
  - intros d. by apply (get_map_side Hb (λ _, True)).
Qed.

(** Quantities of the incoming order after matching. *)
Lemma allocation_total b inc : 0 ≤ total (allocation_of b inc).1 ≤ available_base inc.
Proof. apply greedy_total, available_nonneg. Qed.

Lemma matched_incoming_ok b inc :
  order_ok inc →
  let inc' := set_pending (ro_pending_base inc + total (allocation_of b inc).1) inc in
  order_ok inc' ∧ available_base inc' = available_base inc - total (allocation_of b inc).1.
Proof.
  intros Hinc. cbn zeta. pose proof (allocation_total b inc) as Ht.
  destruct (take_qty_ok (total (allocation_of b inc).1) inc Hinc Ht) as (Heq & Hok & Hav).
  by rewrite Heq in Hok, Hav.
Qed.

(** ** The price grid *)

Lemma price_and_size_inv m od s ticks base :
  price_and_size m od = Ok (s, ticks, base) →
  side_of m od = Some s ∧
  base = (match s with Ask => maker_amount od | Bid => taker_amount od end) ∧
  base ≠ 0 ∧ ticks ≠ 0 ∧ ticks ≤ u64_max ∧ min_size m ≤ base.
Proof.
  unfold price_and_size. destruct (side_of m od) as [s'|]; simpl; [|done].
  destruct s'; simpl; intros H; repeat (case_bool; simpl in H; try discriminate);
    simplify_eq; reflect_bools; split_and!; (done || lia).
Qed.

Lemma price_and_size_base m od s ticks base :
  order_wf od → price_and_size m od = Ok (s, ticks, base) → 0 < base ≤ u64_max.
Proof.
  unfold order_wf, u64. intros (?&?&_) (_ & -> & Hne & _)%price_and_size_inv. destruct s; lia.
Qed.

(** ** Place *)

Definition incoming_of (b : Book) (d : Digest) (od : Order) (s : Side) (ticks base : Z) : RestingOrder :=
  mkResting d (maker od) s ticks base 0 (next_seq b).

(** What is left at rest of an incoming order of size [base] of which
    [filled] was matched. *)
Definition residue (g : list allocation * bool) (inc : RestingOrder) : option RestingOrder :=
  let matched := total g.1 in
  if g.2 then
    if 0 <? matched then Some (set_remaining matched (set_pending matched inc)) else None
  else Some (set_pending matched inc).

Definition place_outcome (g : list allocation * bool) (base : Z) : PlaceOutcome :=
  if g.2 then SelfTradeCancelled
  else if total g.1 =? base then Matched else Rested (base - total g.1).

Lemma set_next_seq_ok P b n : book_inv P b → book_inv P (set_next_seq n b).
Proof.
  intros [H1 H2 H3 H4 H5]. split; [intros []; apply (H1 Bid) || apply (H1 Ask)|intros [];
    [apply (H2 Bid)|apply (H2 Ask)]|intros []; [apply (H3 Bid)|apply (H3 Ask)]|
    intros []; [apply (H4 Bid)|apply (H4 Ask)]|].
  intros d [] p; [apply (H5 d Bid)|apply (H5 d Ask)].
Qed.

Lemma get_set_next_seq b n d : get (set_next_seq n b) d = get b d.
Proof. unfold get. simpl. by destruct (index b !! d) as [[[] ?]|]. Qed.

Lemma place_effect b d od :
  book_ok b → order_wf od →
  match get b d, price_and_size (market b) od with
  | Some _, _ => place b d od = (b, Err Duplicate)
  | None, Err e => place b d od = (b, Err e)
  | None, Ok (s, ticks, base) =>
      let inc := incoming_of b d od s ticks base in
      let g := allocation_of b inc in
      ∃ b', place b d od =
        (b', Ok (place_outcome g base, alloc_intent (m_registry_id (market b)) inc <$> g.1)) ∧
      book_ok b' ∧ market b' = market b ∧ self_trade_policy b' = self_trade_policy b ∧
      ∀ d', get b' d' = if decide (d' = d) then residue g inc
                        else credit_side (opposite s) g.1 <$> get b d'
  end.
Proof.
  intros Hb Hod. unfold place. destruct (get b d) as [o|] eqn:Hg.
  { rewrite decide_True; [done|]. destruct (get_filed Hb _ _ Hg) as (_ & _ & -> & _). eauto. }
  pose proof (proj1 (get_None Hb _) Hg) as Hi. rewrite decide_False by (rewrite Hi; by intros [? ?]).
  destruct (price_and_size (market b) od) as [[[s ticks] base]|e] eqn:Hps; [|done].
  apply price_and_size_base in Hps as Hbase; [|done]. fold (incoming_of b d od s ticks base).
  set (inc := incoming_of b d od s ticks base).
  assert (order_ok inc) as Hinc by (unfold order_ok; simpl; lia).
  assert (available_base inc = base) as Hav by (rewrite available_ok by done; simpl; lia).
  set (b1 := set_next_seq _ b). assert (book_ok b1) as Hb1 by by apply set_next_seq_ok.
  assert (allocation_of b1 inc = allocation_of b inc) as Hal by (unfold allocation_of; by destruct s).
  destruct (match_incoming_ok b1 inc Hb1 Hinc) as (b2 & -> & Hb2 & Hi2 & Hm2 & Hp2 & _ & _ & Hg2).
  destruct (matched_incoming_ok b1 inc Hinc) as (Hok' & Hav').
  pose proof (allocation_total b1 inc) as Ht. rewrite Hal in *. rewrite Hav in *.
  assert (get b2 d = None) as Hfresh.
  { rewrite Hg2. unfold b1. by rewrite get_set_next_seq, Hg. }
  assert (∀ d', get b2 d' = credit_side (opposite s) (allocation_of b inc).1 <$> get b d') as Hg2'.
  { intros d'. rewrite Hg2. unfold b1. by rewrite get_set_next_seq. }
  unfold place_outcome, residue. destruct (allocation_of b inc) as [fs st]. cbn [fst snd] in *.
  set (inc' := set_pending (ro_pending_base inc + total fs) inc) in *.
  assert (ro_pending_base inc' = total fs) as Hpend by done.
  assert (∀ o, live o → ro_digest o = d → ∃ b', rest b2 o = b' ∧ book_ok b' ∧
    market b' = market b ∧ self_trade_policy b' = self_trade_policy b ∧
    ∀ d', get b' d' = if decide (d' = d) then Some o else credit_side (opposite s) fs <$> get b d') as Hrest.
  { intros o Hl Hd. subst d. eexists. split_and!; [done|by apply (rest_inv Hb2)|..].
    - unfold rest. by destruct (ro_side o).
    - unfold rest. by destruct (ro_side o).
    - intros d'. rewrite (get_rest Hb2) by done. by rewrite Hg2'. }
  assert (∀ d', get b2 d' = if decide (d' = d) then None else credit_side (opposite s) fs <$> get b d') as Hnone.
  { intros d'. rewrite Hg2'. case_decide as E; [by rewrite E, Hg|done]. }
  rewrite Hav', Hpend. destruct st; [|destruct (Z.eqb_spec (total fs) base)].
  - change (ro_pending_base (set_remaining (total fs) inc')) with (total fs).
    destruct (Z.ltb_spec 0 (total fs)).
    + destruct (Hrest (set_remaining (total fs) inc')) as (b' & <- & ?); [|done|by eexists].
      unfold live, order_ok. simpl. lia.
    + eexists; split; [done|]. by rewrite Hm2, Hp2.
  - replace (base - total fs =? 0) with true by lia. replace (0 <? total fs) with true by lia.
    destruct (Hrest inc') as (b' & <- & ?); [|done|by eexists]. split; [done|simpl; lia].
  - replace (base - total fs =? 0) with false by lia.
    destruct (Hrest inc') as (b' & <- & ?); [|done|by eexists]. split; [done|simpl; lia].
Qed.

(** ** Settlement, cancels and external fills *)

Lemma settle_order_facts fill o :
  0 ≤ fill → order_ok o →
  let qty := Z.min fill (ro_pending_base o) in
  settle_order fill o = set_remaining (ro_remaining_base o - qty) (set_pending (ro_pending_base o - qty) o)
  ∧ order_ok (settle_order fill o).
Proof.
  intros Hf (?&?). cbn zeta. unfold settle_order.
  rewrite !u64_sub_small by (unfold u64; lia). split; [done|]. unfold order_ok; simpl; lia.
Qed.

Lemma restore_order_facts fill o :
  0 ≤ fill → order_ok o →
  restore_order fill o = set_pending (ro_pending_base o - Z.min fill (ro_pending_base o)) o
  ∧ order_ok (restore_order fill o).
Proof.
  intros Hf (?&?). unfold restore_order. rewrite u64_sub_small by (unfold u64; lia).
  split; [done|]. unfold order_ok; simpl; lia.
Qed.

Lemma external_fill_order_facts amt o :
  0 ≤ amt → order_ok o →
  let r := Z.max 0 (ro_remaining_base o - amt) in
  external_fill_order amt o = set_remaining r (set_pending (Z.min (ro_pending_base o) r) o)
  ∧ order_ok (external_fill_order amt o).
Proof.
  intros Ha (?&?). cbn zeta. unfold external_fill_order, u64_saturating_sub. simpl.
  rewrite (Z.max_comm 0). case_bool; reflect_bools; (split; [|unfold order_ok; simpl; lia]);
    destruct o; unfold set_remaining, set_pending; simpl in *; f_equal; lia.
Qed.

(** One step of [settle_success]. *)
Definition settle_one (fill : Z) (b : Book) (d : Digest) : Book :=
  prune_if_done (get_mut b d (settle_order fill)) d.

Lemma settle_one_effect fill b d :
  book_ok b → 0 ≤ fill →
  book_ok (settle_one fill b d) ∧
  ∀ d', get (settle_one fill b d) d' =
        if decide (d' = d) then (settle_order fill <$> get b d) ≫= pruned else get b d'.
Proof.
  intros Hb Hf. apply update_prune_ok; [done|done|]. intros o [Ho _].
  by apply settle_order_facts.
Qed.

Lemma settle_success_fold b i :
  settle_success b i = settle_one (fill_base_amount i) (settle_one (fill_base_amount i) b (ask_digest i)) (bid_digest i).
Proof. done. Qed.

Lemma settle_success_ok b i : book_ok b → 0 ≤ fill_base_amount i → book_ok (settle_success b i).
Proof. intros. rewrite settle_success_fold. by do 2 (apply settle_one_effect; [|done]). Qed.

Lemma restore_effect fill b d :
  book_ok b → 0 ≤ fill →
  book_ok (get_mut b d (restore_order fill)) ∧
  ∀ d', get (get_mut b d (restore_order fill)) d' =
        if decide (d' = d) then restore_order fill <$> get b d else get b d'.
Proof.
  intros Hb Hf. split.
  - apply (get_mut_inv Hb); [done| |done]. intros o Hg [Ho Hr].
    split; [by apply restore_order_facts|done].
  - intros d'. by apply (get_get_mut Hb).
Qed.

Definition removes (b : Book) (ds : list Digest) : Book := foldl (λ b d, (remove b d).1) b ds.

Lemma removes_effect ds : ∀ b,
  book_ok b → book_ok (removes b ds) ∧
  ∀ d, get (removes b ds) d = if decide (d ∈ ds) then None else get b d.
Proof.
  induction ds as [|d0 ds IH]; intros b Hb; [done|].
  destruct (IH (remove b d0).1 (remove_inv Hb d0)) as [Hok Hg]. split; [done|].
  intros d. change (removes b (d0 :: ds)) with (removes (remove b d0).1 ds).
  rewrite Hg, (get_remove Hb). repeat case_decide; set_solver.
Qed.

Lemma settle_failed_effect b i drop :
  book_ok b → 0 ≤ fill_base_amount i → ask_digest i ≠ bid_digest i →
  book_ok (settle_failed b i drop) ∧
  ∀ d, get (settle_failed b i drop) d =
       if decide (d ∈ drop) then None
       else if decide (d = ask_digest i ∨ d = bid_digest i)
            then restore_order (fill_base_amount i) <$> get b d else get b d.
Proof.
  intros Hb Hf Hne. unfold settle_failed. cbn [foldl].
  destruct (restore_effect (fill_base_amount i) b (ask_digest i) Hb Hf) as [Hb1 Hg1].
  destruct (restore_effect (fill_base_amount i) _ (bid_digest i) Hb1 Hf) as [Hb2 Hg2].
  destruct (removes_effect drop _ Hb2) as [Hb3 Hg3]. split; [exact Hb3|].
  intros d. etransitivity; [apply Hg3|]. case_decide; [done|]. rewrite Hg2, !Hg1.
  repeat case_decide; subst; (done || naive_solver).
Qed.

Lemma settle_failed_ok b i drop :
  book_ok b → 0 ≤ fill_base_amount i → book_ok (settle_failed b i drop).
Proof.
  intros Hb Hf. unfold settle_failed. cbn [foldl].
  apply removes_effect. by do 2 (apply restore_effect; [|done]).
Qed.

Lemma settle_success_effect b i :
  book_ok b → 0 ≤ fill_base_amount i → ask_digest i ≠ bid_digest i →
  ∀ d, get (settle_success b i) d =
       if decide (d = ask_digest i ∨ d = bid_digest i)
       then (settle_order (fill_base_amount i) <$> get b d) ≫= pruned else get b d.
Proof.
  intros Hb Hf Hne d. rewrite settle_success_fold.
  destruct (settle_one_effect (fill_base_amount i) b (ask_digest i) Hb Hf) as [Hb1 Hg1].
  destruct (settle_one_effect (fill_base_amount i) _ (bid_digest i) Hb1 Hf) as [Hb2 Hg2].
  rewrite Hg2, !Hg1. repeat case_decide; subst; (done || naive_solver).
Qed.

Lemma external_fill_effect b d amt :
  book_ok b → 0 ≤ amt →
  book_ok (apply_external_fill b d amt) ∧
  ∀ d', get (apply_external_fill b d amt) d' =
        if decide (d' = d) then (external_fill_order amt <$> get b d) ≫= pruned else get b d'.
Proof.
  intros Hb Ha. apply update_prune_ok; [done| |].
  - intros o. unfold external_fill_order. by case_bool.
  - intros o [Ho _]. by apply external_fill_order_facts.
Qed.

(** ** Rematch *)

Lemma rematch_effect b d :
  book_ok b →
  match get b d with
  | Some o =>
      if available_base o =? 0 then rematch b d = (b, [])
      else
        let b1 := (remove b d).1 in
        let g := allocation_of b1 o in
        ∃ b', rematch b d = (b', alloc_intent (m_registry_id (market b)) o <$> g.1) ∧
          book_ok b' ∧
          (∀ d', get b' d' = if decide (d' = d) then Some (set_pending (ro_pending_base o + total g.1) o)
                             else credit_side (opposite (ro_side o)) g.1 <$> get b d') ∧
          bt_get (ro_price_ticks o) (book_side (ro_side o) b') =
            Some (default [] (bt_get (ro_price_ticks o) (book_side (ro_side o) b1)) ++
                  [set_pending (ro_pending_base o + total g.1) o])
  | None => rematch b d = (b, [])
  end.
Proof.
  intros Hb. unfold rematch. destruct (get b d) as [o|] eqn:Hg; [|done].
  destruct (Z.eqb_spec (available_base o) 0); [done|]. cbn zeta.
  destruct (get_filed Hb _ _ Hg) as ([Hok Hpos] & Hd & _).
  pose proof (remove_inv Hb d) as Hb1. set (b1 := (remove b d).1) in *.
  destruct (match_incoming_ok b1 o Hb1 Hok) as (b2 & -> & Hb2 & Hi2 & Hm & Hp & _ & Hside & Hg2).
  destruct (matched_incoming_ok b1 o Hok) as (Hok' & _).
  set (o' := set_pending _ o) in *.
  assert (live o') as Hl by done.
  assert (get b2 (ro_digest o') = None) as Hfresh.
  { rewrite Hg2. simpl. rewrite Hd. unfold b1. by rewrite (get_remove Hb), decide_True. }
  exists (rest b2 o'). split_and!.
  - f_equal. f_equal. unfold b1, remove. destruct (index b !! d) as [[s p]|]; [|done].
    case_match; by destruct s.
  - by apply (rest_inv Hb2).
  - intros d'. rewrite (get_rest Hb2) by done. rewrite Hg2. simpl. rewrite Hd.
    unfold b1. rewrite (get_remove Hb). by case_decide.
  - rewrite level_rest, decide_True by done. change (ro_side o') with (ro_side o). by rewrite Hside.
Qed.

(** ** Intents *)

(** The incoming order's own digest in an intent, and the other one. *)
Definition own_digest (s : Side) (i : MatchIntent) : Digest :=
  match s with Ask => ask_digest i | Bid => bid_digest i end.
Definition counter_digest (s : Side) (i : MatchIntent) : Digest := own_digest (opposite s) i.

Definition fills_total (ints : list MatchIntent) : Z := Zsum_with fill_base_amount ints.

Definition fills_on (s : Side) (d : Digest) (ints : list MatchIntent) : Z :=
  Zsum_with (λ i, if bool_decide (counter_digest s i = d) then fill_base_amount i else 0) ints.

Lemma alloc_intent_own mkt inc f : own_digest (ro_side inc) (alloc_intent mkt inc f) = ro_digest inc.
Proof. unfold alloc_intent, mk_intent. by destruct (ro_side inc). Qed.

Lemma alloc_intent_counter mkt inc f :
  counter_digest (ro_side inc) (alloc_intent mkt inc f) = ro_digest (al_order f).
Proof. unfold alloc_intent, mk_intent, counter_digest. by destruct (ro_side inc). Qed.

Lemma alloc_intent_fill mkt inc f : fill_base_amount (alloc_intent mkt inc f) = al_qty f.
Proof. unfold alloc_intent, mk_intent. by destruct (ro_side inc). Qed.

Lemma fills_total_alloc mkt inc fs : fills_total (alloc_intent mkt inc <$> fs) = total fs.
Proof.
  unfold fills_total. induction fs as [|f fs IH]; [done|].
  by rewrite fmap_cons, Zsum_with_cons, total_cons, IH, alloc_intent_fill.
Qed.

Lemma fills_on_alloc mkt inc fs d :
  fills_on (ro_side inc) d (alloc_intent mkt inc <$> fs) = filled fs d.
Proof.
  unfold fills_on. induction fs as [|f fs IH]; [done|].
  by rewrite fmap_cons, Zsum_with_cons, filled_cons, IH, alloc_intent_fill, alloc_intent_counter.
Qed.

Section intents.
Context {b : Book} (Hb : book_ok b) (inc : RestingOrder).

(** Every allocation is to an order at rest on the opposite side, that is
    available, crosses, and is not the maker's own under [CancelNewest]. *)
Lemma allocation_elem f :
  f ∈ (allocation_of b inc).1 →
  get b (ro_digest (al_order f)) = Some (al_order f) ∧
  ro_side (al_order f) = opposite (ro_side inc) ∧
  al_price f = ro_price_ticks (al_order f) ∧ crosses inc (al_price f) = true ∧
  0 < available_base (al_order f) ∧ 0 < al_qty f ≤ available_base (al_order f) ∧
  (self_trade_policy b = CancelNewest → ro_maker (al_order f) ≠ ro_maker inc).
Proof.
  intros Hf. unfold allocation_of in Hf.
  pose proof (greedy_sub _ _ _ _ _ Hf) as Hin.
  pose proof (greedy_qty_pos (self_trade_policy b) (ro_maker inc) _ _ f (available_nonneg inc)
                (candidates_available _ _) Hf) as (Hq & Hst).
  apply candidates_elem in Hin as (q & Hq' & Hcr & Ho & Hav).
  apply bt_elem_get in Hq'; [|apply (bi_wf _ _ Hb)].
  destruct (bi_order _ _ Hb _ _ _ _ Hq' Ho) as (_ & Hs & Hp & _).
  split_and!; first [done|lia|by eapply (level_get Hb)|congruence].
Qed.
End intents.

(** ** Price-time priority *)

(** [p1] is a better price than [p2] among orders resting on side [s]. *)
Definition better_price (s : Side) (p1 p2 : Z) : Prop :=
  match s with Ask => p1 < p2 | Bid => p2 < p1 end.

(** [o1] has priority over [o2]: a better price, or the same level and an
    earlier place in its queue. *)
Definition has_priority (b : Book) (s : Side) (o1 o2 : RestingOrder) : Prop :=
  better_price s (ro_price_ticks o1) (ro_price_ticks o2) ∨
  ∃ p q1 q2 q3, bt_get p (book_side s b) = Some (q1 ++ o1 :: q2 ++ o2 :: q3).

Lemma level_candidates_app p q1 q2 :
  level_candidates (p, q1 ++ q2) = level_candidates (p, q1) ++ level_candidates (p, q2).
Proof. unfold level_candidates. simpl. by rewrite List.filter_app, fmap_app. Qed.

Section priority.
Context {b : Book} (Hb : book_ok b) (inc : RestingOrder).
Abbreviation other := (opposite (ro_side inc)).
Abbreviation cs := (candidates inc (book_side other b)).

Definition crossing_available (o : RestingOrder) : Prop :=
  get b (ro_digest o) = Some o ∧ ro_side o = other ∧
  crosses inc (ro_price_ticks o) = true ∧ 0 < available_base o.

Lemma elem_of_best_first {V} s (l : btree V) x : x ∈ best_first s l ↔ x ∈ l.
Proof. destruct s; [done|]. apply elem_of_reverse. Qed.

Lemma level_split (o : RestingOrder) :
  crossing_available o →
  ∃ q L1 L2, best_first (ro_side inc) (book_side other b) = L1 ++ (ro_price_ticks o, q) :: L2 ∧
    o ∈ q ∧ (ro_price_ticks o, o) ∈ level_candidates (ro_price_ticks o, q).
Proof.
  intros (Hg & Hs & Hcr & Hav). destruct (get_filed Hb _ _ Hg) as (_ & _ & _ & q & Hq & Ho).
  rewrite Hs in Hq. apply bt_get_Some_elem in Hq. rewrite <- (elem_of_best_first (ro_side inc)) in Hq.
  apply list_elem_of_split in Hq as (L1 & L2 & HL). exists q, L1, L2. split_and!; [done|done|].
  apply elem_of_level_candidates. simpl. unfold is_available. split_and!; [done|done|lia].
Qed.

Lemma crossing_available_candidate o : crossing_available o → (ro_price_ticks o, o) ∈ cs.
Proof.
  intros Ho. destruct (level_split o Ho) as (q & L1 & L2 & HL & _ & Hin).
  rewrite candidates_cands, HL, cands_app, cands_cons. simpl.
  destruct Ho as (_ & _ & -> & _). set_solver.
Qed.

(** A level with a better price is walked first. *)
Lemma best_first_sorted s (l : levels) p1 p2 q1 q2 L1 L2 :
  bt_wf l → best_first s l = L1 ++ (p1, q1) :: L2 →
  better_price (opposite s) p1 p2 → (p2, q2) ∈ l → (p2, q2) ∈ L2.
Proof.
  destruct s; simpl; intros Hwf HL Hbetter Hin.
  - subst l. apply bt_wf_app_keys in Hwf as [H1 H2].
    apply elem_of_app in Hin as [Hin|Hin]; [specialize (H1 _ Hin); simpl in *; lia|].
    apply elem_of_cons in Hin as [?|]; [simplify_eq; lia|done].
  - rewrite <- (reverse_involutive l), HL, reverse_app, reverse_cons, <- app_assoc in Hwf.
    apply bt_wf_app_keys in Hwf as [H1 H2].
    rewrite <- elem_of_reverse, HL in Hin.
    apply elem_of_app in Hin as [Hin|Hin].
    + specialize (H2 (p2, q2)). simpl in H2. rewrite elem_of_reverse in H2. specialize (H2 Hin). lia.
    + apply elem_of_cons in Hin as [?|]; [simplify_eq; lia|done].
Qed.

Lemma candidates_before o1 o2 :
  crossing_available o1 → crossing_available o2 → has_priority b other o1 o2 →
  ∃ cs1 cs2, cs = cs1 ++ (ro_price_ticks o1, o1) :: cs2 ∧ (ro_price_ticks o2, o2) ∈ cs2.
Proof.
  intros Ho1 Ho2 Hpr. pose proof (bi_wf _ _ Hb other) as Hwf.
  destruct (level_split o1 Ho1) as (q & L1 & L2 & HL & Hin & Hc).
  pose proof Ho1 as (Hg1 & Hs1 & Hcr1 & Hav1). pose proof Ho2 as (Hg2 & Hs2 & Hcr2 & Hav2).
  rewrite candidates_cands, HL, cands_app, cands_cons. simpl. rewrite Hcr1.
  destruct Hpr as [Hbetter|(p & r1 & r2 & r3 & Hq)].
  - apply list_elem_of_split in Hc as (c1 & c2 & ->).
    exists (cands inc L1 ++ c1), (c2 ++ cands inc L2). split; [by rewrite <- !app_assoc|].
    destruct (get_filed Hb _ _ Hg2) as (_ & _ & _ & q2 & Hq2 & Hin2). rewrite Hs2 in Hq2.
    assert ((ro_price_ticks o2, q2) ∈ L2) as HL2.
    { eapply best_first_sorted; [done|done|done|by apply bt_get_Some_elem]. }
    apply elem_of_app. right. apply list_elem_of_join.
    exists (level_candidates (ro_price_ticks o2, q2)). split.
    + apply elem_of_level_candidates. simpl. unfold is_available. split_and!; [done|done|lia].
    + apply list_elem_of_fmap_2, elem_of_bfilter. done.
  - assert (p = ro_price_ticks o1 ∧ p = ro_price_ticks o2) as [Hp1 Hp2].
    { split; symmetry; eapply (bi_order _ _ Hb); first [done|set_solver]. }
    assert (bt_get p (book_side other b) = Some q) as Hq'.
    { apply bt_elem_get; [done|]. rewrite <- (elem_of_best_first (ro_side inc)), HL, Hp1. set_solver. }
    rewrite Hq in Hq'. injection Hq' as <-. rewrite <- Hp1, <- Hp2.
    assert (is_available o1 = true ∧ is_available o2 = true) as [Ha1 Ha2]
      by (unfold is_available; lia).
    exists (cands inc L1 ++ level_candidates (p, r1)), (level_candidates (p, r2 ++ o2 :: r3) ++ cands inc L2).
    split.
    + rewrite level_candidates_app, level_candidates_cons, Ha1. by rewrite <- !app_assoc.
    + rewrite level_candidates_app, level_candidates_cons, Ha2. set_solver.
Qed.

(** Nothing is taken from an order while one with priority over it is
    left with something available. *)
Lemma allocation_priority o1 o2 :
  crossing_available o1 → crossing_available o2 → has_priority b other o1 o2 →
  filled (allocation_of b inc).1 (ro_digest o2) ≠ 0 →
  filled (allocation_of b inc).1 (ro_digest o1) = available_base o1.
Proof.
  intros Ho1 Ho2 Hpr. destruct (candidates_before o1 o2 Ho1 Ho2 Hpr) as (cs1 & cs2 & Hcs & Hin).
  unfold allocation_of. pose proof (candidates_NoDup inc _ (NoDup_level_orders Hb other)) as Hnd.
  rewrite Hcs in *. intros Hf.
  eapply (greedy_priority _ _ _ cs1 (ro_price_ticks o1, o1) cs2 (ro_price_ticks o2, o2));
    [apply available_nonneg|done|done|done].
Qed.

(** An allocation that leaves something wanted takes every crossing
    available order whole. *)
Lemma allocation_exhausts o :
  (allocation_of b inc).2 = false → total (allocation_of b inc).1 < available_base inc →
  crossing_available o → filled (allocation_of b inc).1 (ro_digest o) = available_base o.
Proof.
  intros Hst Ht Ho%crossing_available_candidate. unfold allocation_of in *.
  destruct (greedy_exhausts (self_trade_policy b) (ro_maker inc) (available_base inc) cs) as [?|[Hall Hq]];
    [apply available_nonneg|done|lia|].
  apply (filled_all cs _ (ro_price_ticks o, o)); [|done..].
  apply candidates_NoDup, (NoDup_level_orders Hb).
Qed.
End priority.
