(* ===== verification/BookOps.v ===== *)
(** What the operations of the book do: settling and failing intents, placing
    an order, the views of a book; what each of them keeps, and how it moves the
    queues of the levels. *)

From S2P Require Import Prelude BTreeMap ExchangeTypes Book BookMatch BookInv BookProps.

Implicit Types (b : Book) (o : RestingOrder) (d : Digest) (s : Side).

Lemma fills_total_cons i ints : fills_total (i :: ints) = fill_base_amount i + fills_total ints.
Proof. apply Zsum_with_cons. Qed.

Lemma fills_on_cons s d i ints :
  fills_on s d (i :: ints) =
  (if bool_decide (counter_digest s i = d) then fill_base_amount i else 0) + fills_on s d ints.
Proof. apply Zsum_with_cons. Qed.

Lemma fills_total_nonneg ints : (∀ i, i ∈ ints → 0 ≤ fill_base_amount i) → 0 ≤ fills_total ints.
Proof. apply Zsum_with_nonneg. Qed.

Lemma fills_on_nonneg s d ints : (∀ i, i ∈ ints → 0 ≤ fill_base_amount i) → 0 ≤ fills_on s d ints.
Proof. intros H. apply Zsum_with_nonneg. intros i Hi. specialize (H i Hi). case_bool_decide; lia. Qed.

Lemma fills_on_notin s d ints : (∀ i, i ∈ ints → counter_digest s i ≠ d) → fills_on s d ints = 0.
Proof.
  induction ints as [|i ints IH]; [done|]. intros H. rewrite fills_on_cons, IH by set_solver.
  by rewrite bool_decide_false by set_solver.
Qed.

(** The amount the intents move on the order with digest [d'], when they
    all have [d] on side [s]. *)
Definition moved s d (ints : list MatchIntent) (d' : Digest) : Z :=
  if decide (d' = d) then fills_total ints else fills_on s d' ints.

(** The intents of one match: the same order on side [s], others opposite. *)
Definition match_batch s d (ints : list MatchIntent) : Prop :=
  ∀ i, i ∈ ints → own_digest s i = d ∧ counter_digest s i ≠ d ∧ 0 ≤ fill_base_amount i.

Lemma moved_nonneg s d ints d' : match_batch s d ints → 0 ≤ moved s d ints d'.
Proof.
  intros H. unfold moved. case_decide; [apply fills_total_nonneg|apply fills_on_nonneg];
    intros i Hi; by apply H.
Qed.

Lemma moved_cons s d i ints d' :
  match_batch s d (i :: ints) →
  moved s d (i :: ints) d' =
  (if decide (d' = ask_digest i ∨ d' = bid_digest i) then fill_base_amount i else 0) + moved s d ints d'.
Proof.
  intros H. destruct (H i) as (Ho & Hc & _); [set_solver|]. unfold moved.
  rewrite fills_total_cons, fills_on_cons. unfold counter_digest in *.
  destruct s; simpl in *; repeat (case_decide || case_bool_decide); (lia || naive_solver).
Qed.

Lemma match_batch_cons s d i ints :
  match_batch s d (i :: ints) →
  ask_digest i ≠ bid_digest i ∧ 0 ≤ fill_base_amount i ∧ match_batch s d ints.
Proof.
  intros H. destruct (H i) as (Ho & Hc & Hf); [set_solver|]. split_and!; [|done|].
  - unfold counter_digest in *. destruct s; simpl in *; congruence.
  - intros j Hj. apply H. set_solver.
Qed.

(** An order from which a quantity is released, or consumed. *)
Definition released (n : Z) o : RestingOrder := set_pending (ro_pending_base o - n) o.
Definition consumed (n : Z) o : option RestingOrder :=
  pruned (set_remaining (ro_remaining_base o - n) (released n o)).

Lemma released_0 o : released 0 o = o.
Proof. unfold released. rewrite Z.sub_0_r. apply set_pending_id. Qed.

Lemma consumed_0 o : live o → consumed 0 o = Some o.
Proof.
  intros [_ Hr]. unfold consumed. rewrite released_0, Z.sub_0_r.
  replace (set_remaining (ro_remaining_base o) o) with o by by destruct o.
  unfold pruned. by replace (ro_remaining_base o =? 0) with false by lia.
Qed.

Lemma settle_order_consumed n o :
  order_ok o → 0 ≤ n ≤ ro_pending_base o → pruned (settle_order n o) = consumed n o.
Proof.
  intros Ho Hn. destruct (settle_order_facts n o) as [-> _]; [lia|done|].
  unfold consumed, released. by rewrite Z.min_l by lia.
Qed.

Lemma restore_order_released n o :
  order_ok o → 0 ≤ n ≤ ro_pending_base o → restore_order n o = released n o.
Proof.
  intros Ho Hn. destruct (restore_order_facts n o) as [-> _]; [lia|done|].
  unfold released. by rewrite Z.min_l by lia.
Qed.

(** Consuming twice is consuming the sum. *)
Lemma consumed_consumed n1 n2 o :
  order_ok o → 0 ≤ n1 → 0 ≤ n2 → n1 + n2 ≤ ro_pending_base o →
  consumed n1 o ≫= consumed n2 = consumed (n1 + n2) o.
Proof.
  unfold order_ok. intros Ho H1 H2 Hle. unfold consumed, pruned, released. simpl.
  destruct ((ro_remaining_base o - n1 =? 0) && (ro_pending_base o - n1 =? 0)) eqn:E; simpl.
  - reflect_bools. replace n2 with 0 by lia.
    by replace ((ro_remaining_base o - (n1 + 0) =? 0) && (ro_pending_base o - (n1 + 0) =? 0)) with true by lia.
  - rewrite !Z.sub_add_distr. by case_bool.
Qed.

Definition settle_all b (ints : list MatchIntent) : Book := foldl settle_success b ints.
Definition fail_all b (ints : list MatchIntent) : Book := foldl (λ b i, settle_failed b i []) b ints.

Lemma fail_all_effect s d ints : ∀ b,
  book_ok b → match_batch s d ints →
  (∀ d' o, get b d' = Some o → moved s d ints d' ≤ ro_pending_base o) →
  book_ok (fail_all b ints) ∧ ∀ d', get (fail_all b ints) d' = released (moved s d ints d') <$> get b d'.
Proof.
  induction ints as [|i ints IH]; intros b Hb Hm Hp.
  { split; [done|]. intros d'. simpl. unfold moved. case_decide; simpl;
      destruct (get b d'); simpl; by rewrite ?released_0. }
  destruct (match_batch_cons _ _ _ _ Hm) as (Hne & Hf & Hm').
  destruct (settle_failed_effect b i [] Hb Hf Hne) as [Hb1 Hg1].
  assert (∀ d', get (settle_failed b i []) d' =
    released (if decide (d' = ask_digest i ∨ d' = bid_digest i) then fill_base_amount i else 0) <$> get b d') as Hg1'.
  { intros d'. rewrite Hg1. rewrite decide_False by set_solver.
    destruct (get b d') as [o|] eqn:E; [|by case_decide].
    specialize (Hp d' o E). rewrite (moved_cons _ _ _ _ _ Hm) in Hp.
    pose proof (moved_nonneg s d ints d' Hm'). destruct (get_filed Hb _ _ E) as ([Ho _] & _).
    case_decide; simpl; [|by rewrite released_0]. f_equal. apply restore_order_released; [done|lia]. }
  destruct (IH (settle_failed b i []) Hb1 Hm') as [Hok Hg].
  - intros d' o. rewrite Hg1'. intros (o' & Ho' & ->)%fmap_Some. specialize (Hp d' o' Ho').
    rewrite (moved_cons _ _ _ _ _ Hm) in Hp. simpl. lia.
  - split; [done|]. intros d'. change (fail_all b (i :: ints)) with (fail_all (settle_failed b i []) ints).
    rewrite Hg, Hg1', (moved_cons _ _ _ _ _ Hm), <- option_fmap_compose.
    apply option_fmap_ext. intros o. unfold compose, released. simpl. by rewrite Z.sub_add_distr.
Qed.

Lemma settle_all_effect s d ints : ∀ b,
  book_ok b → match_batch s d ints →
  (∀ d' o, get b d' = Some o → moved s d ints d' ≤ ro_pending_base o) →
  book_ok (settle_all b ints) ∧ ∀ d', get (settle_all b ints) d' = get b d' ≫= consumed (moved s d ints d').
Proof.
  induction ints as [|i ints IH]; intros b Hb Hm Hp.
  { split; [done|]. intros d'. simpl. destruct (get b d') as [o|] eqn:E; [|done]. simpl.
    destruct (get_filed Hb _ _ E) as (Hl & _). unfold moved. case_decide; simpl; by rewrite consumed_0. }
  destruct (match_batch_cons _ _ _ _ Hm) as (Hne & Hf & Hm').
  pose proof (settle_success_ok b i Hb Hf) as Hb1.
  pose proof (settle_success_effect b i Hb Hf Hne) as Hg1.
  assert (∀ d', get (settle_success b i) d' = get b d' ≫=
    consumed (if decide (d' = ask_digest i ∨ d' = bid_digest i) then fill_base_amount i else 0)) as Hg1'.
  { intros d'. rewrite Hg1. destruct (get b d') as [o|] eqn:E; [|by case_decide].
    specialize (Hp d' o E). rewrite (moved_cons _ _ _ _ _ Hm) in Hp.
    pose proof (moved_nonneg s d ints d' Hm'). destruct (get_filed Hb _ _ E) as (Hl & _).
    case_decide; simpl; [|by rewrite consumed_0]. apply settle_order_consumed; [apply Hl|lia]. }
  destruct (IH (settle_success b i) Hb1 Hm') as [Hok Hg].
  - intros d' o. rewrite Hg1'. intros (o' & Ho' & Hc)%bind_Some. specialize (Hp d' o' Ho').
    rewrite (moved_cons _ _ _ _ _ Hm) in Hp. unfold consumed, pruned in Hc.
    case_bool; simplify_eq. simpl. lia.
  - split; [done|]. intros d'. change (settle_all b (i :: ints)) with (settle_all (settle_success b i) ints).
    rewrite Hg, Hg1', (moved_cons _ _ _ _ _ Hm). destruct (get b d') as [o|] eqn:E; [|done].
    simpl. specialize (Hp d' o E). rewrite (moved_cons _ _ _ _ _ Hm) in Hp.
    destruct (get_filed Hb _ _ E) as ([Ho _] & _). apply consumed_consumed; [done| |by apply moved_nonneg|lia].
    case_decide; lia.
Qed.


(** An order of price [ticks] on side [s] crosses a level of the other side. *)
Definition crosses_price s (ticks p : Z) : Prop :=
  match s with Ask => ticks ≤ p | Bid => p ≤ ticks end.

Lemma crosses_spec inc p : crosses inc p = true ↔ crosses_price (ro_side inc) (ro_price_ticks inc) p.
Proof. unfold crosses, crosses_price. destruct (ro_side inc); apply Z.leb_le. Qed.

(** What an intent of a match against [b] commits to. *)
Record fair_intent b (d : Digest) s (ticks : Z) (mk : SuiAddress) (i : MatchIntent) : Prop := {
  fi_market : mi_market i = m_registry_id (market b);
  fi_own : own_digest s i = d;
  fi_counter : ∃ o, get b (counter_digest s i) = Some o ∧ ro_side o = opposite s ∧
    exec_price_ticks i = ro_price_ticks o ∧ crosses_price s ticks (ro_price_ticks o) ∧
    0 < fill_base_amount i ≤ available_base o ∧
    (self_trade_policy b = CancelNewest → ro_maker o ≠ mk);
}.

Section place.
Context {b : Book} (Hb : book_ok b).

Lemma fair_alloc (inc : RestingOrder) i :
  i ∈ (alloc_intent (m_registry_id (market b)) inc <$> (allocation_of b inc).1) →
  fair_intent b (ro_digest inc) (ro_side inc) (ro_price_ticks inc) (ro_maker inc) i.
Proof.
  intros (f & -> & Hf)%list_elem_of_fmap.
  destruct (allocation_elem Hb inc f Hf) as (Hg & Hs & Hp & Hcr & _ & Hq & Hst).
  rewrite Hp in Hcr. apply crosses_spec in Hcr. split.
  - unfold alloc_intent, mk_intent. by destruct (ro_side inc).
  - apply alloc_intent_own.
  - exists (al_order f). rewrite alloc_intent_counter, alloc_intent_fill. split_and!; try done; try lia.
    unfold alloc_intent, mk_intent. by destruct (ro_side inc).
Qed.

Lemma fair_batch d s ticks mk ints :
  (∀ i, i ∈ ints → fair_intent b d s ticks mk i) → get b d = None → match_batch s d ints.
Proof.
  intros H Hd i Hi. destruct (H i Hi) as [_ Ho (o & Hg & _ & _ & _ & Hq & _)].
  split; [done|]. split; [congruence|lia].
Qed.

(** Crediting is visible only on the opposite side. *)
Lemma credit_side_get (inc : RestingOrder) d o :
  get b d = Some o →
  credit_side (opposite (ro_side inc)) (allocation_of b inc).1 o =
  set_pending (ro_pending_base o + filled (allocation_of b inc).1 d) o.
Proof.
  intros Hg. destruct (get_filed Hb _ _ Hg) as (_ & Hd & _). unfold credit_side.
  case_decide as Hs; [unfold credit; by rewrite Hd|].
  rewrite filled_notin, Z.add_0_r, set_pending_id; [done|].
  intros (f & Heq & Hf)%list_elem_of_fmap. unfold compose in Heq.
  destruct (allocation_elem Hb inc f Hf) as (Hg' & Hs' & _). congruence.
Qed.

Lemma place_Ok d od b' out ints :
  order_wf od → place b d od = (b', Ok (out, ints)) →
  ∃ s ticks base,
    get b d = None ∧ price_and_size (market b) od = Ok (s, ticks, base) ∧
    let g := allocation_of b (incoming_of b d od s ticks base) in
    out = place_outcome g base ∧
    ints = (alloc_intent (m_registry_id (market b)) (incoming_of b d od s ticks base) <$> g.1) ∧
    available_base (incoming_of b d od s ticks base) = base ∧ 0 < base ∧
    0 ≤ fills_total ints ≤ base ∧ fills_total ints = total g.1 ∧
    (∀ d', fills_on s d' ints = filled g.1 d') ∧
    (∀ i, i ∈ ints → fair_intent b d s ticks (maker od) i) ∧
    match_batch s d ints ∧ book_ok b' ∧ self_trade_policy b' = self_trade_policy b ∧
    (∀ d' o, get b' d' = Some o → moved s d ints d' ≤ ro_pending_base o) ∧
    get b' d = residue g (incoming_of b d od s ticks base) ∧
    ∀ d', d' ≠ d → get b' d' = (λ o, set_pending (ro_pending_base o + fills_on s d' ints) o) <$> get b d'.
Proof.
  intros Hod Hpl. pose proof (place_effect b d od Hb Hod) as He.
  destruct (get b d) eqn:Hg; [congruence|].
  destruct (price_and_size (market b) od) as [[[s ticks] base]|] eqn:Hps; [|congruence].
  cbn zeta in He. destruct He as (b2 & He & Hok & _ & Hpol & Hget). rewrite He in Hpl.
  injection Hpl as <- <- <-. exists s, ticks, base. do 2 (split; [done|]). cbn zeta.
  set (inc := incoming_of b d od s ticks base) in *.
  pose proof (price_and_size_base _ _ _ _ _ Hod Hps) as Hbase.
  assert (available_base inc = base) as Hav by (rewrite available_ok; unfold order_ok; simpl; lia).
  pose proof (allocation_total b inc) as Ht. rewrite Hav in Ht.
  set (ints := alloc_intent _ inc <$> _) in *.
  assert (∀ i, i ∈ ints → fair_intent b d s ticks (maker od) i) as Hfair by apply (fair_alloc inc).
  assert (∀ d', fills_on s d' ints = filled (allocation_of b inc).1 d') as Hon.
  { intros d'. apply (fills_on_alloc _ inc). }
  unfold ints at 3 4 5. rewrite fills_total_alloc.
  split_and!; try done; try lia.
  - by eapply fair_batch.
  - intros d' o Ho. unfold moved. rewrite Hget in Ho. unfold ints at 1. rewrite fills_total_alloc.
    case_decide as Hd.
    + unfold residue in Ho. repeat case_bool; simplify_eq; simpl; lia.
    + rewrite Hon. apply fmap_Some in Ho as (o1 & Hg1 & ->). pose proof (credit_side_get inc d' o1 Hg1) as Hc.
      change (ro_side inc) with s in Hc. rewrite Hc. simpl. destruct (get_filed Hb _ _ Hg1) as ([[? ?] _] & _). lia.
  - by rewrite Hget, decide_True.
  - intros d' Hne. rewrite Hget, decide_False, Hon by done.
    destruct (get b d') as [o|] eqn:E; [|done]. simpl. f_equal. by apply (credit_side_get inc).
Qed.

Lemma place_Err d od b' e :
  order_wf od → place b d od = (b', Err e) →
  b' = b ∧ (is_Some (get b d) ∧ e = Duplicate ∨ get b d = None ∧ price_and_size (market b) od = Err e).
Proof.
  intros Hod Hpl. pose proof (place_effect b d od Hb Hod) as He.
  destruct (get b d) eqn:Hg; [rewrite He in Hpl; naive_solver|].
  destruct (price_and_size (market b) od) as [[[s t] n]|e'] eqn:Hps.
  - cbn zeta in He. destruct He as (? & He & _). congruence.
  - rewrite He in Hpl. naive_solver.
Qed.
End place.


(** [v] is the aggregate of the liquidity available in the queue [q]. *)
Definition level_view (q : list RestingOrder) (v : BookLevel) : Prop :=
  base_quantity v = Zsum_with available_base q ∧ 0 < base_quantity v ∧
  order_count v = Z.of_nat (length (List.filter is_available q)) ∧ 0 < order_count v.

Definition agg_level (pq : Z * list RestingOrder) : BookLevel := agg pq.1 pq.2.
Definition shown (v : BookLevel) : bool := 0 <? base_quantity v.

Definition fits (l : levels) : Prop :=
  ∀ p q, (p, q) ∈ l → Zsum_with available_base q ≤ u64_max.

Lemma available_sum_pos q : 0 < Zsum_with available_base q ↔ has_avail q = true.
Proof.
  unfold has_avail. induction q as [|o q IH]; simpl; [done|].
  rewrite Zsum_with_cons, orb_true_iff, <- IH, Z.ltb_lt. pose proof (available_nonneg o).
  pose proof (Zsum_with_nonneg available_base q (λ o _, available_nonneg o)). lia.
Qed.

Lemma has_avail_count q : has_avail q = true ↔ (0 < length (List.filter is_available q))%nat.
Proof.
  unfold has_avail, is_available. induction q as [|o q IH]; simpl; [split; [done|lia]|].
  destruct (0 <? available_base o); simpl; [split; [lia|done]|done].
Qed.

Lemma agg_quantity p q :
  Zsum_with available_base q ≤ u64_max → base_quantity (agg p q) = Zsum_with available_base q.
Proof.
  intros H. apply wrap64_small. split; [|done].
  apply Zsum_with_nonneg. intros o _. apply available_nonneg.
Qed.

Section view.
Context (l : levels) (Hfit : fits l).

Lemma shown_agg p q : (p, q) ∈ l → shown (agg p q) = has_avail q.
Proof.
  intros Hin. unfold shown. rewrite agg_quantity by by eapply Hfit.
  apply eq_true_iff_eq. by rewrite Z.ltb_lt, available_sum_pos.
Qed.

Lemma shown_elem v :
  v ∈ List.filter shown (agg_level <$> l) → ∃ q, (price_ticks v, q) ∈ l ∧ level_view q v.
Proof.
  intros [Hin Hs]%elem_of_bfilter. apply list_elem_of_fmap in Hin as ([p q] & -> & Hin).
  exists q. split; [done|]. change (agg_level (p, q)) with (agg p q) in *.
  rewrite (shown_agg _ _ Hin) in Hs. unfold level_view. rewrite agg_quantity by by eapply Hfit.
  rewrite available_sum_pos. split_and!; [done|done|done|].
  apply has_avail_count in Hs. simpl. unfold is_available in Hs. lia.
Qed.

Lemma shown_complete p q :
  (p, q) ∈ l → has_avail q = true → p ∈ price_ticks <$> List.filter shown (agg_level <$> l).
Proof.
  intros Hin Hav. apply (list_elem_of_fmap_2' price_ticks _ (agg p q)); [|done].
  apply elem_of_bfilter. rewrite shown_agg by done. split; [|done].
  by apply (list_elem_of_fmap_2 agg_level l (p, q)).
Qed.
End view.

(** The first level shown is the first with something available. *)
Lemma shown_head l :
  fits l →
  head (price_ticks <$> List.filter shown (agg_level <$> l)) =
  fst <$> List.find (λ pq, has_avail pq.2) l.
Proof.
  induction l as [|[p q] l IH]; intros Hfit; [done|].
  assert (shown (agg_level (p, q)) = has_avail q) as Hs by (eapply shown_agg; [exact Hfit|set_solver]).
  simpl. change (agg_level <$> (p, q) :: l) with (agg_level (p, q) :: (agg_level <$> l)).
  simpl. rewrite Hs. destruct (has_avail q); [done|].
  apply IH. intros p' q' Hin. apply (Hfit p'). set_solver.
Qed.

Lemma StronglySorted_filter_map (R : Z → Z → Prop) l :
  StronglySorted R (l.*1) →
  StronglySorted R (price_ticks <$> List.filter shown (agg_level <$> l)).
Proof.
  induction l as [|[p q] l IH]; simpl; [constructor|]. inversion 1; subst.
  case_bool; [|auto]. simpl. constructor; [auto|]. apply Forall_forall.
  intros p' (v & -> & [Hin _]%elem_of_bfilter)%list_elem_of_fmap.
  apply list_elem_of_fmap in Hin as ([p' q'] & -> & Hin). simpl.
  eapply Forall_forall; [done|]. by apply (list_elem_of_fmap_2 fst l (p', q')).
Qed.

Lemma StronglySorted_take {A} (R : A → A → Prop) n l : StronglySorted R l → StronglySorted R (take n l).
Proof.
  intros H. revert n. induction H as [|x l H IH Hx]; intros [|n]; simpl; try constructor; [done|].
  apply Forall_forall. intros y Hy. rewrite Forall_forall in Hx. apply Hx.
  by apply (subseteq_take n l).
Qed.

Lemma StronglySorted_reverse (R : Z → Z → Prop) l :
  StronglySorted R l → StronglySorted (flip R) (reverse l).
Proof.
  induction 1 as [|x l H IH Hx]; [constructor|]. rewrite reverse_cons.
  revert Hx. rewrite <- (reverse_involutive l) at 1. induction IH as [|y l' Hl IH' Hy]; intros Hx.
  - simpl. repeat constructor.
  - simpl. rewrite reverse_cons, Forall_app, Forall_singleton in Hx. destruct Hx as [Hx Hxy].
    constructor; [auto|]. apply Forall_app. split; [done|]. by apply Forall_singleton.
Qed.

(** What a side's snapshot says, for levels listed in walk order. *)
Definition view_ok (R : Z → Z → Prop) (depth : nat) (l : levels) (best : option Z)
    (vs : list BookLevel) : Prop :=
  (length vs ≤ depth)%nat ∧ StronglySorted R (price_ticks <$> vs) ∧
  (∀ v, v ∈ vs → ∃ q, (price_ticks v, q) ∈ l ∧ level_view q v) ∧
  ((0 < depth)%nat → head (price_ticks <$> vs) = best) ∧
  ((length vs < depth)%nat → ∀ p q, (p, q) ∈ l → has_avail q = true → p ∈ price_ticks <$> vs).

Lemma snapshot_side_ok R depth l :
  StronglySorted R (l.*1) → fits l →
  view_ok R depth l (fst <$> List.find (λ pq, has_avail pq.2) l) (snapshot_side depth l).
Proof.
  intros HR Hfit. unfold view_ok, snapshot_side. fold shown agg_level.
  change ((λ pq : Z * list RestingOrder, agg pq.1 pq.2) <$> l) with (agg_level <$> l).
  change (λ v : BookLevel, 0 <? base_quantity v) with shown.
  set (vs := List.filter shown (agg_level <$> l)). split_and!.
  - rewrite length_take. lia.
  - rewrite fmap_take. by apply StronglySorted_take, StronglySorted_filter_map.
  - intros v Hv%(subseteq_take depth vs). by apply shown_elem.
  - intros Hd. rewrite fmap_take, <- shown_head by done. fold vs.
    destruct depth; [lia|]. by destruct (price_ticks <$> vs).
  - rewrite length_take. intros Hlt p q Hin Hav. rewrite take_ge by lia. by eapply shown_complete.
Qed.

(** ** All orders *)

Lemma iter_orders_get b o :
  book_ok b → o ∈ iter_orders b ↔ get b (ro_digest o) = Some o.
Proof.
  intros Hb. unfold iter_orders. rewrite elem_of_app.
  change (mjoin (bids b).*2) with (level_orders (book_side Bid b)).
  change (mjoin (asks b).*2) with (level_orders (book_side Ask b)). rewrite !(level_orders_get Hb).
  destruct (ro_side o); naive_solver.
Qed.

Lemma iter_orders_NoDup b : book_ok b → NoDup (ro_digest <$> iter_orders b).
Proof.
  intros Hb. unfold iter_orders. rewrite fmap_app. apply NoDup_app. split_and!.
  - apply (NoDup_level_orders Hb Bid).
  - intros d (o & -> & Ho)%list_elem_of_fmap (o' & Hd & Ho')%list_elem_of_fmap.
    apply (level_orders_get Hb Bid) in Ho as [Hg Hs].
    apply (level_orders_get Hb Ask) in Ho' as [Hg' Hs']. congruence.
  - apply (NoDup_level_orders Hb Ask).
Qed.


Definition same_place o o' : Prop :=
  ro_digest o' = ro_digest o ∧ ro_maker o' = ro_maker o ∧ ro_side o' = ro_side o ∧
  ro_price_ticks o' = ro_price_ticks o.

Record keeps b b' : Prop := {
  k_ok : book_ok b';
  k_market : market b' = market b;
  k_get d o' : get b' d = Some o' → ∃ o, get b d = Some o ∧ same_place o o';
}.

Lemma keeps_refl b : book_ok b → keeps b b.
Proof. intros Hb. split; [done..|]. intros d o Ho. by exists o. Qed.

Lemma keeps_trans b1 b2 b3 : keeps b1 b2 → keeps b2 b3 → keeps b1 b3.
Proof.
  intros [_ Hm1 Hg1] [Hok Hm2 Hg2]. split; [done|congruence|]. intros d o3 Ho3.
  destruct (Hg2 d o3 Ho3) as (o2 & Ho2 & E2), (Hg1 d o2) as (o1 & Ho1 & E1); [done|].
  exists o1. split; [done|]. destruct E1 as (?&?&?&?), E2 as (?&?&?&?). split_and!; congruence.
Qed.

Lemma market_get_mut b d f : market (get_mut b d f) = market b.
Proof. unfold get_mut. repeat case_match; try done. by destruct s. Qed.

Lemma market_remove b d : market (remove b d).1 = market b.
Proof. unfold remove. repeat case_match; try done; by destruct s. Qed.

Lemma market_prune b d : market (prune_if_done b d) = market b.
Proof. unfold prune_if_done. repeat case_match; try done. apply market_remove. Qed.

(** An update that touches one order, and perhaps drops it. *)
Lemma keeps_one b b' d0 (f : RestingOrder → option RestingOrder) :
  book_ok b' → market b' = market b →
  (∀ o o', f o = Some o' → same_place o o') →
  (∀ d, get b' d = if decide (d = d0) then get b d0 ≫= f else get b d) → keeps b b'.
Proof.
  intros Hok Hm Hf Hg. split; [done..|]. intros d o'. rewrite Hg. case_decide as Hd; subst.
  - intros (o & Ho & Hfo)%bind_Some. eauto.
  - intros Ho. by exists o'.
Qed.

Lemma pruned_same o o' : pruned o = Some o' → o' = o.
Proof. unfold pruned. case_bool; by intros [= ->]. Qed.

Section keeps.
Context {b : Book} (Hb : book_ok b).

Lemma keeps_remove d : keeps b (remove b d).1.
Proof.
  apply (keeps_one b _ d (λ _, None)); [apply (remove_inv Hb)|apply market_remove|done|].
  intros d'. rewrite (get_remove Hb). case_decide; [|done]. by destruct (get b d).
Qed.

Lemma keeps_restore fill d : 0 ≤ fill → keeps b (get_mut b d (restore_order fill)).
Proof.
  intros Hf. destruct (restore_effect fill b d Hb Hf) as [Hok Hg].
  apply (keeps_one b _ d (λ o, Some (restore_order fill o))); [done|apply market_get_mut| |].
  - by intros o o' [= <-].
  - intros d'. rewrite Hg. case_decide; [|done]. by destruct (get b d).
Qed.

Lemma keeps_settle_one fill d : 0 ≤ fill → keeps b (settle_one fill b d).
Proof.
  intros Hf. destruct (settle_one_effect fill b d Hb Hf) as [Hok Hg].
  apply (keeps_one b _ d (λ o, pruned (settle_order fill o))); [done| | |].
  - unfold settle_one. by rewrite market_prune, market_get_mut.
  - by intros o o' ->%pruned_same.
  - intros d'. rewrite Hg. case_decide; [|done]. by destruct (get b d).
Qed.

Lemma keeps_external d amt : 0 ≤ amt → keeps b (apply_external_fill b d amt).
Proof.
  intros Ha. destruct (external_fill_effect b d amt Hb Ha) as [Hok Hg].
  apply (keeps_one b _ d (λ o, pruned (external_fill_order amt o))); [done| | |].
  - unfold apply_external_fill. by rewrite market_prune, market_get_mut.
  - intros o o' ->%pruned_same. unfold external_fill_order. by case_bool.
  - intros d'. rewrite Hg. case_decide; [|done]. by destruct (get b d).
Qed.
End keeps.

Lemma keeps_settle_success b i : book_ok b → 0 ≤ fill_base_amount i → keeps b (settle_success b i).
Proof.
  intros Hb Hf. rewrite settle_success_fold. eapply keeps_trans; [by apply (keeps_settle_one Hb)|].
  apply keeps_settle_one; [|done]. by apply settle_one_effect.
Qed.

Lemma keeps_removes ds : ∀ b, book_ok b → keeps b (removes b ds).
Proof.
  induction ds as [|d ds IH]; intros b Hb; [by apply keeps_refl|].
  change (removes b (d :: ds)) with (removes (remove b d).1 ds).
  eapply keeps_trans; [by apply (keeps_remove Hb)|]. apply IH. by apply keeps_remove.
Qed.

Lemma keeps_settle_failed b i drop :
  book_ok b → 0 ≤ fill_base_amount i → keeps b (settle_failed b i drop).
Proof.
  intros Hb Hf. unfold settle_failed. cbn [foldl].
  assert (book_ok (get_mut b (ask_digest i) (restore_order (fill_base_amount i)))) as Hb1
    by by apply restore_effect.
  eapply keeps_trans; [by apply (keeps_restore Hb)|].
  eapply keeps_trans; [by apply (keeps_restore Hb1)|].
  apply keeps_removes. by apply restore_effect.
Qed.

(** * Intents *)

(** [known d s p]: the order [d] is on side [s] at price [p].  An intent of
    market [mkt] fills a positive amount of a known ask and a known bid, at
    a price between theirs. *)
Definition intent_ok (mkt : SuiAddress) (known : Digest → Side → Z → Prop) (i : MatchIntent) : Prop :=
  mi_market i = mkt ∧ 0 < fill_base_amount i ≤ u64_max ∧
  ∃ pa pb, known (ask_digest i) Ask pa ∧ known (bid_digest i) Bid pb ∧ pa ≤ exec_price_ticks i ≤ pb.

Section intents.
Context {b : Book} (Hb : book_ok b) (known : Digest → Side → Z → Prop)
  (Hknown : ∀ d o, get b d = Some o → known d (ro_side o) (ro_price_ticks o)).

Lemma fair_intent_ok d s ticks mk i :
  known d s ticks → fair_intent b d s ticks mk i → intent_ok (m_registry_id (market b)) known i.
Proof.
  intros Hd [Hm Ho (o & Hg & Hs & He & Hc & Hq & _)]. split; [done|].
  destruct (get_filed Hb _ _ Hg) as ([Hok _] & _). rewrite available_ok in Hq by done.
  split; [unfold order_ok in Hok; lia|]. apply Hknown in Hg. rewrite Hs in Hg.
  unfold counter_digest, own_digest, crosses_price in *.
  destruct s; simpl in *; subst d; [exists (ro_price_ticks o), ticks|exists ticks, (ro_price_ticks o)];
    split_and!; done || lia.
Qed.

Lemma place_keeps d od :
  order_wf od → (∀ s ticks n, price_and_size (market b) od = Ok (s, ticks, n) → known d s ticks) →
  let '(b', r) := place b d od in
  book_ok b' ∧ market b' = market b ∧
  (∀ d' o', get b' d' = Some o' →
     (∃ o, get b d' = Some o ∧ same_place o o') ∨
     (d' = d ∧ ro_digest o' = d ∧ ro_maker o' = maker od ∧
      ∃ n, price_and_size (market b) od = Ok (ro_side o', ro_price_ticks o', n))) ∧
  match r with
  | Ok (_, ints) => ∀ i, i ∈ ints → intent_ok (m_registry_id (market b)) known i
  | Err _ => True
  end.
Proof.
  intros Hod Hk. pose proof (place_effect b d od Hb Hod) as He.
  destruct (get b d) as [o0|] eqn:Hg; [rewrite He; split_and!; [done..| |done]; intros; left; by exists o'|].
  destruct (price_and_size (market b) od) as [[[s ticks] n]|e] eqn:Hps.
  2: { rewrite He. split_and!; [done..| |done]. intros d' o' Ho. left. by exists o'. }
  cbn zeta in He. destruct He as (b' & -> & Hok & Hm & _ & Hget). split_and!; [done..| |].
  - intros d' o'. rewrite Hget. case_decide as Hd.
    + subst d'. unfold residue. repeat case_bool; intros; simplify_eq; right; simpl; eauto 6.
    + intros (o & Ho & ->)%fmap_Some. left. exists o. split; [done|].
      unfold credit_side, credit. by case_decide.
  - intros i Hi. eapply fair_intent_ok; [by apply (Hk s ticks n)|].
    by apply (fair_alloc Hb (incoming_of b d od s ticks n)).
Qed.
End intents.

Lemma rematch_keeps b d known :
  book_ok b → (∀ d o, get b d = Some o → known d (ro_side o) (ro_price_ticks o)) →
  keeps b (rematch b d).1 ∧
  ∀ i, i ∈ (rematch b d).2 → intent_ok (m_registry_id (market b)) known i.
Proof.
  intros Hb Hknown. pose proof (rematch_effect b d Hb) as He.
  destruct (get b d) as [o|] eqn:Hg; [|rewrite He; split; [by apply keeps_refl|set_solver]].
  destruct (available_base o =? 0); [rewrite He; split; [by apply keeps_refl|set_solver]|].
  cbn zeta in He. destruct He as (b' & E & Hok & Hget & _). rewrite E. cbn [fst snd].
  pose proof (keeps_remove Hb d) as [Hb1 Hm1 Hg1].
  assert (market b' = market b) as Hm.
  { assert (market (rematch b d).1 = market b) as Hm; [|by rewrite E in Hm].
    unfold rematch. rewrite Hg. case_bool; [done|].
    destruct (get_filed Hb _ _ Hg) as ([Hoo _] & _).
    destruct (match_incoming_ok (remove b d).1 o Hb1 Hoo) as (b2 & -> & _ & _ & Hm2 & _).
    unfold rest. simpl. destruct (ro_side o); simpl; congruence. }
  split.
  - split; [done..|]. intros d' o'. rewrite Hget. case_decide as Hd; subst.
    + intros [= <-]. exists o. by split.
    + intros (o1 & Ho1 & ->)%fmap_Some. exists o1. split; [done|].
      unfold credit_side, credit. by case_decide.
  - intros i Hi. rewrite <- Hm1. eapply (fair_intent_ok Hb1 known).
    + intros d' o' Ho'. destruct (Hg1 d' o' Ho') as (o1 & Ho1 & _ & _ & -> & ->). by apply Hknown.
    + apply Hknown. exact Hg.
    + destruct (get_filed Hb _ _ Hg) as (_ & <- & _).
      apply (fair_alloc Hb1 o). by rewrite Hm1.
Qed.

(** * Places in the queues *)

(** The digests and sequence numbers of the orders of a level, in queue order. *)
Definition place_key (o : RestingOrder) : Digest * Z := (ro_digest o, ro_seq o).
Definition level_keys b s (p : Z) : list (Digest * Z) :=
  place_key <$> default [] (bt_get p (book_side s b)).

(** No order of [b'] is new or has moved: each queue lost some orders, and
    no sequence number was given out. *)
Record thins b b' : Prop := {
  th_seq : next_seq b' = next_seq b;
  th_keys s p : level_keys b' s p `sublist_of` level_keys b s p;
}.

#[export] Instance thins_preorder : PreOrder thins.
Proof.
  split; [intros b; split; [done|intros s p; reflexivity]|]. intros b1 b2 b3 [H1 K1] [H2 K2].
  split; [congruence|]. intros s p. etransitivity; [apply K2|apply K1].
Qed.

(** The order of key [k] takes the last place of a queue it was not in. *)
Record files b b' (k : Digest * Z) : Prop := {
  fl_level s p : ∃ l, l `sublist_of` level_keys b s p ∧ k.1 ∉ l.*1 ∧
                      (level_keys b' s p = l ∨ level_keys b' s p = l ++ [k]);
}.

Definition keeps_key (f : RestingOrder → RestingOrder) : Prop := ∀ o, place_key (f o) = place_key o.

Lemma level_keys_fmap g (q : list RestingOrder) : keeps_key g → place_key <$> (g <$> q) = place_key <$> q.
Proof. intros Hg. rewrite <- list_fmap_compose. apply list_fmap_ext. intros ? o _. apply Hg. Qed.

Lemma thins_map_side s g b : keeps_key g → thins b (map_side s g b).
Proof.
  intros Hg. split; [by destruct s|]. intros s' p. unfold level_keys. rewrite level_map_side.
  case_decide; subst; [|done]. destruct (bt_get p (book_side s b)); simpl; [|done].
  by rewrite level_keys_fmap.
Qed.

Lemma at_digest_key d f : keeps_key f → keeps_key (at_digest d f).
Proof. intros Hf o. unfold at_digest. case_match; [apply Hf|done]. Qed.

Lemma next_seq_set_side s l b : next_seq (set_book_side s l b) = next_seq b.
Proof. by destruct s. Qed.

Lemma bfilter_sublist {A} (f : A → bool) l : List.filter f l `sublist_of` l.
Proof. induction l as [|x l IH]; simpl; [done|]. destruct (f x); by constructor. Qed.

Lemma fmap_sublist {A B} (f : A → B) l l' : l `sublist_of` l' → f <$> l `sublist_of` f <$> l'.
Proof. induction 1; simpl; by constructor. Qed.

Section thins.
Context {P : RestingOrder → Prop} {b : Book} (Hb : book_inv P b) (d : Digest).

Lemma thins_get_mut f : keeps_key f → thins b (get_mut b d f).
Proof.
  intros Hf. destruct (index b !! d) as [[s p]|] eqn:Hi; [|by rewrite get_mut_absent].
  rewrite (get_mut_map_side P b d f s p Hb Hi). by apply thins_map_side, at_digest_key.
Qed.

Lemma thins_remove : thins b (remove b d).1.
Proof.
  split.
  { unfold remove. repeat case_match; simpl; by rewrite ?next_seq_set_side. }
  intros s p. unfold level_keys. rewrite (level_remove Hb). case_decide; [|done].
  destruct (bt_get p (book_side s b)) as [q|]; simpl; [|done]. case_decide; simpl.
  - apply sublist_nil_l.
  - apply fmap_sublist, bfilter_sublist.
Qed.

Lemma thins_prune : thins b (prune_if_done b d).
Proof. unfold prune_if_done. repeat case_match; try done. apply thins_remove. Qed.
End thins.

Lemma thins_removes ds : ∀ b, book_ok b → thins b (removes b ds).
Proof.
  induction ds as [|d ds IH]; intros b Hb; [done|].
  change (removes b (d :: ds)) with (removes (remove b d).1 ds).
  etransitivity; [by apply (thins_remove Hb d)|]. apply IH, (remove_inv Hb).
Qed.

Lemma thins_update_prune b d f :
  book_ok b → keeps_place f → keeps_key f → thins b (prune_if_done (get_mut b d f) d).
Proof.
  intros Hb Hf Hk. etransitivity; [by apply (thins_get_mut Hb d f)|].
  assert (book_inv (λ _, True) (get_mut b d f)) as Hb' by (by apply (get_mut_inv Hb)).
  by apply (thins_prune Hb').
Qed.

Lemma thins_settle_one fill b d : book_ok b → thins b (settle_one fill b d).
Proof. intros Hb. by apply thins_update_prune. Qed.

Lemma thins_settle_success b i : book_ok b → 0 ≤ fill_base_amount i → thins b (settle_success b i).
Proof.
  intros Hb Hf. rewrite settle_success_fold. etransitivity; [by apply thins_settle_one|].
  apply thins_settle_one. by apply settle_one_effect.
Qed.

Lemma thins_settle_failed b i drop :
  book_ok b → 0 ≤ fill_base_amount i → thins b (settle_failed b i drop).
Proof.
  intros Hb Hf. unfold settle_failed. cbn [foldl].
  destruct (restore_effect (fill_base_amount i) b (ask_digest i) Hb Hf) as [Hb1 _].
  destruct (restore_effect (fill_base_amount i) _ (bid_digest i) Hb1 Hf) as [Hb2 _].
  assert (keeps_key (restore_order (fill_base_amount i))) as Hk by done.
  etransitivity; [exact (thins_get_mut Hb (ask_digest i) _ Hk)|].
  etransitivity; [exact (thins_get_mut Hb1 (bid_digest i) _ Hk)|].
  by apply thins_removes.
Qed.

Lemma thins_external b d n : book_ok b → thins b (apply_external_fill b d n).
Proof.
  intros Hb. apply thins_update_prune; [done|..]; intros o; unfold external_fill_order; by case_bool.
Qed.

Lemma thins_match_incoming b inc :
  book_ok b → order_ok inc → thins b (match_incoming b inc).1.1.1.
Proof.
  intros Hb Hinc. rewrite (match_incoming_spec b inc); [|apply (book_side_levels_ok Hb), live_order_ok|done].
  cbn [fst]. rewrite credit_levels_map. by apply (thins_map_side (opposite (ro_side inc)) (credit _) b).
Qed.

(** A digest that is not in the book is in none of its queues. *)
Lemma level_keys_absent b d s p : book_ok b → get b d = None → d ∉ (level_keys b s p).*1.
Proof.
  intros Hb Hg. unfold level_keys. rewrite <- list_fmap_compose.
  intros (o & -> & Ho)%list_elem_of_fmap. destruct (bt_get p (book_side s b)) as [q|] eqn:Eq; [|set_solver].
  simpl in *. by rewrite (level_get Hb s p q o) in Hg.
Qed.

Lemma files_rest b b1 o :
  book_ok b1 → get b1 (ro_digest o) = None → (∀ s p, level_keys b1 s p `sublist_of` level_keys b s p) →
  files b (rest b1 o) (place_key o).
Proof.
  intros Hb Hg Hs. split. intros s p. exists (level_keys b1 s p).
  split_and!; [done|by apply level_keys_absent|]. unfold level_keys. rewrite level_rest.
  case_decide; [right|by left]. simpl. by rewrite fmap_app.
Qed.

Lemma files_thin b b1 k :
  book_ok b1 → get b1 k.1 = None → (∀ s p, level_keys b1 s p `sublist_of` level_keys b s p) → files b b1 k.
Proof.
  intros Hb Hg Hs. split. intros s p. exists (level_keys b1 s p).
  split_and!; [done|by apply level_keys_absent|by left].
Qed.

(** What [place] does to the queues: nothing when refused, otherwise the
    order of the next sequence number is filed last. *)
Lemma place_files b d od :
  book_ok b → order_wf od →
  match place b d od with
  | (b', Err _) => b' = b
  | (b', Ok _) => files b b' (d, next_seq b) ∧ next_seq b' = u64_add (next_seq b) 1
  end.
Proof.
  intros Hb Hod. unfold place. destruct (decide _) as [Hd|Hd]; [done|].
  assert (get b d = None) as Hg.
  { apply (get_None Hb). by apply eq_None_not_Some. }
  destruct (price_and_size (market b) od) as [[[s ticks] base]|e] eqn:Hps; [|done].
  apply price_and_size_base in Hps as Hbase; [|done]. fold (incoming_of b d od s ticks base).
  set (inc := incoming_of b d od s ticks base). set (b1 := set_next_seq _ b).
  assert (book_ok b1) as Hb1 by by apply set_next_seq_ok.
  assert (order_ok inc) as Hinc by (unfold order_ok; simpl; lia).
  destruct (match_incoming_ok b1 inc Hb1 Hinc) as (b2 & E & Hb2 & _ & _ & _ & Hn2 & _ & Hg2).
  pose proof (thins_match_incoming b1 inc Hb1 Hinc) as [_ Hk]. rewrite E in *. cbn [fst] in Hk.
  assert (get b2 d = None) as Hg2'. { rewrite Hg2. unfold b1. by rewrite get_set_next_seq, Hg. }
  assert (∀ s p, level_keys b2 s p `sublist_of` level_keys b s p) as Hk'.
  { intros s' p. pose proof (Hk s' p) as H. by destruct s'. }
  assert (∀ o, place_key o = (d, next_seq b) →
    files b (rest b2 o) (d, next_seq b) ∧ next_seq (rest b2 o) = u64_add (next_seq b) 1) as Hrest.
  { intros o Ho. split; [|unfold rest; rewrite next_seq_set_side; exact Hn2]. rewrite <- Ho.
    apply files_rest; [done| |done]. by injection Ho as -> _. }
  assert (files b b2 (d, next_seq b) ∧ next_seq b2 = u64_add (next_seq b) 1) as Hthin.
  { split; [by apply files_thin|exact Hn2]. }
  repeat case_match; simplify_eq; auto.
Qed.

Lemma rematch_files b d o :
  book_ok b → get b d = Some o → available_base o ≠ 0 →
  files b (rematch b d).1 (d, ro_seq o) ∧ next_seq (rematch b d).1 = next_seq b.
Proof.
  intros Hb Hg Hav. unfold rematch. rewrite Hg, (proj2 (Z.eqb_neq _ _) Hav).
  destruct (get_filed Hb _ _ Hg) as ([Hok Hpos] & Hd & _).
  pose proof (remove_inv Hb d) as Hb1. pose proof (thins_remove Hb d) as [Hn1 Hk1].
  set (b1 := (remove b d).1) in *.
  destruct (match_incoming_ok b1 o Hb1 Hok) as (b2 & E & Hb2 & _ & _ & _ & Hn2 & _ & Hg2).
  pose proof (thins_match_incoming b1 o Hb1 Hok) as [_ Hk2]. rewrite E in *. cbn [fst] in *.
  set (o' := set_pending _ o). split; [|unfold rest; rewrite next_seq_set_side; simpl; congruence].
  replace (d, ro_seq o) with (place_key o') by (unfold place_key; simpl; by rewrite Hd).
  apply files_rest; [done| |intros s p; etransitivity; [apply Hk2|apply Hk1]]. rewrite Hg2. simpl. rewrite Hd.
  unfold b1. by rewrite (get_remove Hb), decide_True.
Qed.
