(* ===== verification/BookTheorems.v ===== *)
(** The properties of the matching engine, with concrete instances. *)

From stdpp Require Import sorting.
From S2P Require Import Demo Prelude BTreeMap RustStr ExchangeTypes Book BookMatch BookInv BookProps BookOps.

Implicit Types (b : Book) (o : RestingOrder) (d : Digest) (s : Side).

(** * Reachable books *)

(** The calls the service makes on a book. *)
Inductive book_event :=
  | EvPlace (d : Digest) (od : Order)
  | EvSettleSuccess (i : MatchIntent)
  | EvSettleFailed (i : MatchIntent) (drop : list Digest)
  | EvExternalFill (d : Digest) (base_amount : Z)
  | EvRemove (d : Digest)
  | EvRematch (d : Digest)
  | EvPolicy (p : SelfTradePolicy).

Definition book_step b (e : book_event) : Book :=
  match e with
  | EvPlace d od => (place b d od).1
  | EvSettleSuccess i => settle_success b i
  | EvSettleFailed i drop => settle_failed b i drop
  | EvExternalFill d n => apply_external_fill b d n
  | EvRemove d => (remove b d).1
  | EvRematch d => (rematch b d).1
  | EvPolicy p => set_self_trade_policy p b
  end.

(** The arguments are within the ranges of their Rust types. *)
Definition event_wf (e : book_event) : Prop :=
  match e with
  | EvPlace _ od => order_wf od
  | EvSettleSuccess i | EvSettleFailed i _ => u64 (fill_base_amount i)
  | EvExternalFill _ n => u64 n
  | EvRemove _ | EvRematch _ | EvPolicy _ => True
  end.

Inductive reachable (m : Market) : Book → Prop :=
  | reachable_new : reachable m (Book_new m)
  | reachable_step b e : reachable m b → event_wf e → reachable m (book_step b e).

Lemma Book_new_ok m : book_ok (Book_new m).
Proof.
  split; [intros []; apply bt_wf_nil|by intros []..|].
  intros d s p. simpl. by rewrite lookup_empty.
Qed.

Lemma set_self_trade_policy_ok P b p : book_inv P b → book_inv P (set_self_trade_policy p b).
Proof.
  intros [H1 H2 H3 H4 H5]. split; [intros []; apply (H1 Bid) || apply (H1 Ask)|intros [];
    [apply (H2 Bid)|apply (H2 Ask)]|intros []; [apply (H3 Bid)|apply (H3 Ask)]|
    intros []; [apply (H4 Bid)|apply (H4 Ask)]|].
  intros d [] p'; [apply (H5 d Bid)|apply (H5 d Ask)].
Qed.

Lemma book_step_ok b e : book_ok b → event_wf e → book_ok (book_step b e).
Proof.
  intros Hb. destruct e as [d od|i|i drop|d n|d|d|p]; simpl; intros Hwf.
  - destruct (place b d od) as [b' [[out ints]|e]] eqn:E; simpl.
    + by destruct (place_Ok Hb _ _ _ _ _ Hwf E) as (? & ? & ? & ? & ? & ? & ? & ? & ? & ? & ? & ? & ? & ? & ? & ? & _).
    + by destruct (place_Err Hb _ _ _ _ Hwf E) as [-> _].
  - apply settle_success_ok; [done|apply Hwf].
  - apply settle_failed_ok; [done|apply Hwf].
  - apply external_fill_effect; [done|apply Hwf].
  - by apply remove_inv.
  - pose proof (rematch_effect b d Hb) as H. destruct (get b d); [|by rewrite H].
    case_bool; [by rewrite H|]. by destruct H as (b' & -> & ? & _).
  - by apply set_self_trade_policy_ok.
Qed.

Lemma reachable_ok m b : reachable m b → book_ok b.
Proof. induction 1; [apply Book_new_ok|by apply book_step_ok]. Qed.

(** ** Histories *)

(** The order a call sends to the back of its level: an order placed, or
    rematched with something available. *)
Definition queued b (e : book_event) : option Digest :=
  match e with
  | EvPlace d od => match (place b d od).2 with Ok _ => Some d | Err _ => None end
  | EvRematch d => o ← get b d; if available_base o =? 0 then None else Some d
  | _ => None
  end.

(** A book with the number of calls made on it, the call at which each order
    last came to the back of its level, and the orders rematched since they
    were placed. *)
Record history := mkHistory {
  h_book : Book;
  h_calls : nat;
  h_came : gmap Digest nat;
  h_rematched : gset Digest;
}.

Definition advance (h : history) (e : book_event) : history :=
  mkHistory (book_step (h_book h) e) (S (h_calls h))
    match queued (h_book h) e with Some d => <[d := h_calls h]> (h_came h) | None => h_came h end
    match queued (h_book h) e, e with
    | Some d, EvPlace _ _ => h_rematched h ∖ {[d]}
    | Some d, EvRematch _ => {[d]} ∪ h_rematched h
    | _, _ => h_rematched h
    end.

Definition history_of (m : Market) (es : list book_event) : history :=
  foldl advance (mkHistory (Book_new m) 0 ∅ ∅) es.

Definition came (h : history) d : nat := default 0%nat (h_came h !! d).

Definition comes_before (h : history) s o1 o2 : Prop :=
  better_price s (ro_price_ticks o1) (ro_price_ticks o2) ∨
  ro_price_ticks o1 = ro_price_ticks o2 ∧
  (ro_seq o1 < ro_seq o2 ∧ ro_digest o1 ∉ h_rematched h ∨
   (came h (ro_digest o1) < came h (ro_digest o2))%nat).

(** Every queue is in the order of arrival at its back, which is that of the
    sequence numbers for the orders not rematched. *)
Record history_ok (h : history) : Prop := {
  ho_book : book_ok (h_book h);
  ho_sorted s p : StronglySorted (λ k1 k2, (came h k1.1 < came h k2.1)%nat) (level_keys (h_book h) s p);
  ho_came s p k : k ∈ level_keys (h_book h) s p → (came h k.1 < h_calls h)%nat ∧ k.2 < next_seq (h_book h);
  ho_seq s1 p1 k1 s2 p2 k2 :
    k1 ∈ level_keys (h_book h) s1 p1 → k2 ∈ level_keys (h_book h) s2 p2 →
    k1.1 ∉ h_rematched h → k1.2 < k2.2 → (came h k1.1 < came h k2.1)%nat;
  ho_next : 0 ≤ next_seq (h_book h) ≤ Z.of_nat (h_calls h);
}.

Lemma StronglySorted_sublist {A} (R : A → A → Prop) l l' :
  l `sublist_of` l' → StronglySorted R l' → StronglySorted R l.
Proof.
  induction 1 as [|x l l' Hs IH|x l l' Hs IH]; [done|..]; inversion_clear 1 as [|? ? H' Hf]; [|auto].
  constructor; [auto|]. rewrite Forall_forall in *. intros y Hy. apply Hf. by eapply sublist_subseteq.
Qed.

(** What a call does to the queues. *)
Lemma book_step_keys b e :
  book_ok b → event_wf e →
  match queued b e with
  | None => thins b (book_step b e)
  | Some d =>
      ∃ n, files b (book_step b e) (d, n) ∧
        match e with
        | EvPlace _ _ => n = next_seq b ∧ next_seq (book_step b e) = u64_add (next_seq b) 1
        | _ => next_seq (book_step b e) = next_seq b ∧ ∃ s p, (d, n) ∈ level_keys b s p
        end
  end.
Proof.
  intros Hb. destruct e as [d od|i|i drop|d n|d|d|p]; cbn [queued book_step]; intros Hwf.
  - pose proof (place_files b d od Hb Hwf) as H. destruct (place b d od) as [b' [x|e]]; cbn [fst snd] in *.
    + exists (next_seq b). naive_solver.
    + by subst.
  - apply thins_settle_success; [done|apply Hwf].
  - apply thins_settle_failed; [done|apply Hwf].
  - by apply thins_external.
  - by apply (thins_remove Hb).
  - destruct (get b d) as [o|] eqn:Hg; simpl; [|by unfold rematch; rewrite Hg].
    destruct (Z.eqb_spec (available_base o) 0) as [Hav|Hav].
    + pose proof (rematch_effect b d Hb) as H. rewrite Hg, Hav in H. by rewrite H.
    + exists (ro_seq o). destruct (rematch_files b d o Hb Hg Hav) as [? ?]. split_and!; [done..|].
      destruct (get_filed Hb _ _ Hg) as (_ & <- & _ & q & Hq & Ho).
      exists (ro_side o), (ro_price_ticks o). unfold level_keys. rewrite Hq.
      by apply (list_elem_of_fmap_2 place_key).
  - split; [done|]. intros [] p'; reflexivity.
Qed.

Lemma history_start m : history_ok (mkHistory (Book_new m) 0 ∅ ∅).
Proof.
  split; simpl; [apply Book_new_ok|..].
  - intros [] p; constructor.
  - intros [] p k; set_solver.
  - intros [] p1 k1; set_solver.
  - lia.
Qed.

Lemma files_elem b b' d n s p k :
  files b b' (d, n) → k ∈ level_keys b' s p → k.1 ≠ d ∧ k ∈ level_keys b s p ∨ k = (d, n).
Proof.
  intros [Hl] Hk. destruct (Hl s p) as (l & Hsub & Hd & Heq). simpl in Hd.
  assert (k ∈ l → k.1 ≠ d ∧ k ∈ level_keys b s p) as Hin.
  { intros Hin. split; [|by eapply sublist_subseteq].
    intros <-. by apply Hd, list_elem_of_fmap_2. }
  destruct Heq as [Heq|Heq]; rewrite Heq in Hk; [auto|].
  apply elem_of_app in Hk as [Hk|Hk%list_elem_of_singleton]; auto.
Qed.

Section advance.
Context (h : history) (Hh : history_ok h) (e : book_event) (Hwf : event_wf e).

Lemma advance_book : book_ok (book_step (h_book h) e).
Proof. apply book_step_ok; [apply (ho_book _ Hh)|done]. Qed.

Lemma advance_thins :
  queued (h_book h) e = None → thins (h_book h) (book_step (h_book h) e) → history_ok (advance h e).
Proof.
  intros Hq [Hn Hk].
  assert (advance h e = mkHistory (book_step (h_book h) e) (S (h_calls h)) (h_came h) (h_rematched h)) as ->.
  { unfold advance. by rewrite Hq. }
  assert (∀ s p k, k ∈ level_keys (book_step (h_book h) e) s p → k ∈ level_keys (h_book h) s p) as Hin.
  { intros s p k. apply sublist_subseteq, Hk. }
  split; simpl; [apply advance_book|..].
  - intros s p. eapply StronglySorted_sublist; [apply Hk|apply (ho_sorted _ Hh)].
  - intros s p k Hk1%Hin%(ho_came _ Hh). rewrite Hn. unfold came in *. simpl. lia.
  - intros s1 p1 k1 s2 p2 k2 H1%Hin H2%Hin. by apply (ho_seq _ Hh s1 p1 k1 s2 p2 k2).
  - pose proof (ho_next _ Hh). rewrite Hn. lia.
Qed.

Lemma came_advance d d' :
  queued (h_book h) e = Some d → came (advance h e) d' = if decide (d' = d) then h_calls h else came h d'.
Proof.
  intros Hq. unfold advance, came. rewrite Hq. simpl. case_decide; subst.
  - by rewrite lookup_insert_eq.
  - by rewrite lookup_insert_ne.
Qed.

Lemma rematched_advance d d' :
  queued (h_book h) e = Some d → d' ≠ d → d' ∈ h_rematched (advance h e) ↔ d' ∈ h_rematched h.
Proof. intros Hq Hne. unfold advance. rewrite Hq. destruct e; simpl; set_solver. Qed.

Context (Hfit : Z.of_nat (S (h_calls h)) ≤ u64_max).

Lemma advance_files d :
  queued (h_book h) e = Some d → history_ok (advance h e).
Proof.
  intros Hq. pose proof (book_step_keys _ _ (ho_book _ Hh) Hwf) as H. rewrite Hq in H.
  destruct H as (n & Hfl & Hcase). pose proof (ho_next _ Hh) as Hnext.
  assert (next_seq (h_book h) ≤ next_seq (book_step (h_book h) e) ≤ Z.of_nat (S (h_calls h)) ∧
          n < next_seq (book_step (h_book h) e)) as [Hgrow Hn].
  { destruct e; [rewrite (proj2 Hcase), (proj1 Hcase), u64_add_small by (unfold u64; lia); lia|..];
      destruct Hcase as (-> & s0 & p0 & Hin); pose proof (ho_came _ Hh _ _ _ Hin); simpl in *; lia. }
  pose proof (λ s p k, files_elem _ _ d n s p k Hfl) as Hel.
  pose proof (λ d', came_advance d d' Hq) as Hcame.
  split; [apply advance_book|..].
  - intros s p. destruct Hfl as [Hl]. destruct (Hl s p) as (l & Hsub & Hd & Heq). simpl in Hd.
    change (h_book (advance h e)) with (book_step (h_book h) e).
    assert (Forall (λ k, came (advance h e) k.1 = came h k.1 ∧ (came h k.1 < h_calls h)%nat) l) as Hold.
    { apply Forall_forall. intros k Hk. rewrite Hcame, decide_False.
      - split; [done|]. eapply (ho_came _ Hh s p). by eapply sublist_subseteq.
      - intros <-. by apply Hd, list_elem_of_fmap_2. }
    assert (StronglySorted (λ k1 k2, (came (advance h e) k1.1 < came (advance h e) k2.1)%nat) l) as Hsort.
    { pose proof (StronglySorted_sublist _ _ _ Hsub (ho_sorted _ Hh s p)) as Hs. clear -Hs Hold.
      induction Hs as [|k l Hs IH Hf]; [constructor|]. apply Forall_cons in Hold as [[Hk _] Hold].
      constructor; [auto|]. rewrite Forall_forall in *. intros k' Hk'.
      rewrite Hk, (proj1 (Hold k' Hk')). by apply Hf. }
    destruct Heq as [->| ->]; [done|]. apply StronglySorted_app_2; [|done|repeat constructor].
    intros k k' Hk ->%list_elem_of_singleton. rewrite Forall_forall in Hold.
    destruct (Hold k Hk) as [-> ?]. rewrite Hcame, decide_True by done. done.
  - intros s p k [[Hne Hk]| ->]%Hel; rewrite Hcame; simpl.
    + rewrite decide_False by done. pose proof (ho_came _ Hh _ _ _ Hk). lia.
    + rewrite decide_True by done. lia.
  - intros s1 p1 k1 s2 p2 k2 [[Hne1 Hk1]| ->]%Hel.
    + rewrite rematched_advance, !Hcame, (decide_False _ _ Hne1) by done.
      intros [[Hne2 Hk2]| ->]%Hel.
      * rewrite decide_False by done. by apply (ho_seq _ Hh s1 p1 k1 s2 p2 k2).
      * intros _ _. rewrite decide_True by done. by apply (ho_came _ Hh s1 p1).
    + intros Hk2 Hnot Hlt. exfalso. destruct e as [d' od| | | | |d'|]; try done.
      * destruct Hcase as [-> _]. apply Hel in Hk2 as [[_ Hk2]| ->]; [|simpl in Hlt; lia].
        pose proof (ho_came _ Hh _ _ _ Hk2). simpl in Hlt. lia.
      * apply Hnot. unfold advance. rewrite Hq. set_solver.
  - simpl. lia.
Qed.

Lemma advance_ok : history_ok (advance h e).
Proof.
  destruct (queued (h_book h) e) as [d|] eqn:Hq; [by eapply advance_files|].
  apply advance_thins; [done|]. pose proof (book_step_keys _ _ (ho_book _ Hh) Hwf) as H. by rewrite Hq in H.
Qed.
End advance.

Lemma history_of_ok m es :
  Forall event_wf es → Z.of_nat (length es) ≤ u64_max →
  history_ok (history_of m es) ∧ h_calls (history_of m es) = length es.
Proof.
  unfold history_of. induction es as [|e es IH] using rev_ind; [intros _ _; split; [apply history_start|done]|].
  rewrite Forall_app, length_app, foldl_app. cbn [foldl length]. intros [Hes He] Hlen.
  destruct IH as [IH Hc]; [done|lia|]. rewrite Forall_singleton in He.
  split; [apply advance_ok; [done..|]; rewrite Hc; lia|]. simpl. rewrite Hc. lia.
Qed.

(** An order that comes before another at rest precedes it in their queue,
    or is at a better price. *)
Lemma comes_before_priority h (Hh : history_ok h) s o1 o2 :
  get (h_book h) (ro_digest o1) = Some o1 → ro_side o1 = s →
  get (h_book h) (ro_digest o2) = Some o2 → ro_side o2 = s →
  comes_before h s o1 o2 → has_priority (h_book h) s o1 o2.
Proof.
  intros Hg1 <- Hg2 Hs2 [Hbetter|[Hp Hbefore]]; [by left|]. right.
  pose proof (ho_book _ Hh) as Hb.
  destruct (get_filed Hb _ _ Hg1) as (_ & _ & _ & q & Hq & Ho1).
  destruct (get_filed Hb _ _ Hg2) as (_ & _ & _ & q2 & Hq2 & Ho2). rewrite <- Hp, Hs2, Hq in Hq2.
  injection Hq2 as <-.
  assert (∀ o, o ∈ q → place_key o ∈ level_keys (h_book h) (ro_side o1) (ro_price_ticks o1)) as Hkey.
  { intros o Ho. unfold level_keys. rewrite Hq. by apply (list_elem_of_fmap_2 place_key). }
  assert (came h (ro_digest o1) < came h (ro_digest o2))%nat as Hlt.
  { destruct Hbefore as [[Hseq Hnot]|]; [|done].
    by eapply (ho_seq _ Hh _ _ (place_key o1) _ _ (place_key o2)); [apply Hkey|apply Hkey|..]. }
  pose proof (ho_sorted _ Hh (ro_side o1) (ro_price_ticks o1)) as Hsort.
  unfold level_keys in Hsort. rewrite Hq in Hsort. simpl in Hsort.
  apply list_elem_of_split in Ho1 as (l1 & l2 & ->). exists (ro_price_ticks o1), l1.
  apply elem_of_app in Ho2 as [Ho2|Ho2].
  { exfalso. rewrite fmap_app in Hsort. apply StronglySorted_app in Hsort as (Hs & _).
    pose proof (Hs (place_key o2) (place_key o1) (list_elem_of_fmap_2 place_key _ _ Ho2)
      (list_elem_of_fmap_2 place_key _ _ (list_elem_of_here o1 l2))). simpl in *. lia. }
  apply elem_of_cons in Ho2 as [->|Ho2]; [lia|].
  apply list_elem_of_split in Ho2 as (l3 & l4 & ->). by exists l3, l4.
Qed.

(** C1: In every book reachable from the empty one by the calls of the
    service, the digest index and the two sides agree: [get] finds exactly
    the iterated orders, each at rest once; no order promises more than
    its remainder, which is positive and a [u64]; its availability does not wrap. *)
Theorem reachable_book_consistent m b :
  reachable m b →
  NoDup (ro_digest <$> iter_orders b) ∧
  (∀ d o, get b d = Some o ↔ o ∈ iter_orders b ∧ ro_digest o = d) ∧
  (∀ d, is_Some (index b !! d) ↔ is_Some (get b d)) ∧
  (∀ o, o ∈ iter_orders b →
    0 ≤ ro_pending_base o ≤ ro_remaining_base o ∧ 0 < ro_remaining_base o ≤ u64_max ∧
    available_base o = ro_remaining_base o - ro_pending_base o).
Proof.
  intros Hb%reachable_ok. split_and!.
  - by apply iter_orders_NoDup.
  - intros d o. rewrite iter_orders_get by done. split; [|by intros [? <-]].
    intros Hg. by destruct (get_filed Hb _ _ Hg) as (_ & -> & _).
  - intros d. rewrite <- !not_eq_None_Some. by rewrite (get_None Hb).
  - intros o Ho. apply (iter_orders_get b o Hb) in Ho as Hg.
    destruct (get_filed Hb _ _ Hg) as ([Hok Hr] & _). pose proof Hok as [? ?].
    split_and!; try lia. by apply available_ok.
Qed.

(** C2: The matching loop, which looks up the best level again after each
    level it consumes, terminates within one iteration per level of the
    opposite side plus the final test, and computes the single-pass greedy
    allocation of the crossing, available orders in price-time order. *)
Theorem match_loop_refines_greedy b inc fuel :
  let opp := book_side (opposite (ro_side inc)) b in
  let mkt := m_registry_id (market b) in
  let g := allocation_of b inc in
  let inc' := set_pending (ro_pending_base inc + total g.1) inc in
  let ints := alloc_intent mkt inc <$> g.1 in
  book_ok b → order_ok inc → (length opp < fuel)%nat →
  match_loop (self_trade_policy b) mkt fuel opp inc [] =
    Some (credit_levels g.1 opp, inc', ints, g.2) ∧
  match_incoming b inc =
    (set_book_side (opposite (ro_side inc)) (credit_levels g.1 opp) b, inc', ints, g.2).
Proof.
  cbn zeta. intros Hb Hinc Hfuel.
  pose proof (book_side_levels_ok Hb (opposite (ro_side inc)) live_order_ok) as Hl.
  pose proof (match_incoming_spec b inc Hl Hinc) as Hmi.
  split; [|done]. rewrite match_loop_spec; [done|done|done|].
  unfold live_levels. eapply Nat.le_lt_trans; [apply bfilter_length|].
  destruct (ro_side inc); simpl in *; rewrite ?length_reverse; done.
Qed.

(** C3: The outcome of [place] on every branch: an error leaves the book
    unchanged and is [Duplicate] or the grid error; otherwise the intents
    pair the order with resting orders of the other side, at their price,
    within what they have available and never with the same maker under
    [CancelNewest]; every counterparty's pending grows by exactly its
    fills; and what rests of the new order is what the outcome says. *)
Theorem place_spec b d od :
  book_ok b → order_wf od →
  match place b d od with
  | (b', Err e) =>
      b' = b ∧ (is_Some (get b d) ∧ e = Duplicate ∨
                get b d = None ∧ price_and_size (market b) od = Err e)
  | (b', Ok (out, ints)) =>
      ∃ s ticks base, let n := fills_total ints in
        get b d = None ∧ price_and_size (market b) od = Ok (s, ticks, base) ∧
        (∀ i, i ∈ ints → fair_intent b d s ticks (maker od) i) ∧
        (∀ d', d' ≠ d →
          get b' d' = (λ o, set_pending (ro_pending_base o + fills_on s d' ints) o) <$> get b d') ∧
        match out with
        | Matched => n = base ∧
            get b' d = Some (mkResting d (maker od) s ticks base base (next_seq b))
        | Rested r => r = base - n ∧ 0 < r ≤ base ∧
            get b' d = Some (mkResting d (maker od) s ticks base n (next_seq b))
        | SelfTradeCancelled => 0 ≤ n ≤ base ∧
            get b' d = if 0 <? n then Some (mkResting d (maker od) s ticks n n (next_seq b)) else None
        end
  end.
Proof.
  intros Hb Hod. destruct (place b d od) as [b' [[out ints]|e]] eqn:E.
  2: { by apply place_Err in E. }
  apply place_Ok in E; [|done..].
  destruct E as (s & ticks & base & Hg & Hps & -> & _ & Hav & Hbase & Hn & Ht & _ & Hfair & _ & _ & _ & _ & Hres & Hget).
  exists s, ticks, base. cbn zeta. do 4 (split; [done|]).
  unfold place_outcome, residue in *. rewrite <- Ht in *. rewrite Hres.
  destruct (allocation_of _ _).2; [done|].
  destruct (Z.eqb_spec (fills_total ints) base) as [->|]; [done|]. split_and!; [done|lia..|done].
Qed.

(** C4: Price-time priority, in any book a history of calls makes: an
    incoming order takes nothing from a resting order while another crossing
    order that comes before it still has something available.  Before is a
    better price or, at the same price, a smaller sequence number
    ([RestingOrder::seq], the order of arrival) as long as the order has not
    been rematched since it was placed: [rematch] sends an order to the back
    of its level, from where its arrival there counts. *)
Theorem place_price_time_priority m es d od b' out ints s ticks base o1 o2 :
  let h := history_of m es in let b := h_book h in
  Forall event_wf es → Z.of_nat (length es) ≤ u64_max → order_wf od →
  place b d od = (b', Ok (out, ints)) → price_and_size (market b) od = Ok (s, ticks, base) →
  get b (ro_digest o1) = Some o1 → ro_side o1 = opposite s → crosses_price s ticks (ro_price_ticks o1) →
  get b (ro_digest o2) = Some o2 → ro_side o2 = opposite s → crosses_price s ticks (ro_price_ticks o2) →
  comes_before h (opposite s) o1 o2 →
  fills_on s (ro_digest o2) ints ≠ 0 → fills_on s (ro_digest o1) ints = available_base o1.
Proof.
  cbn zeta. intros Hes Hlen Hod Hpl Hps Hg1 Hs1 Hc1 Hg2 Hs2 Hc2 Hbefore Hf.
  destruct (history_of_ok m es Hes Hlen) as [Hh _]. pose proof (ho_book _ Hh) as Hb.
  pose proof (comes_before_priority _ Hh _ _ _ Hg1 Hs1 Hg2 Hs2 Hbefore) as Hpr.
  destruct (place_Ok Hb _ _ _ _ _ Hod Hpl) as (s' & t' & n' & _ & Hps' & _ & _ & _ & _ & _ & _ & Hon & _).
  rewrite Hps in Hps'. injection Hps' as <- <- <-. rewrite Hon in *.
  set (inc := incoming_of _ d od s ticks base) in *.
  destruct (Z.eq_dec (available_base o2) 0) as [H2|H2].
  { pose proof (allocation_filled _ inc _ o2 Hb eq_refl Hg2 Hs2). lia. }
  destruct (Z.eq_dec (available_base o1) 0) as [H1|H1].
  { pose proof (allocation_filled _ inc _ o1 Hb eq_refl Hg1 Hs1). lia. }
  pose proof (available_nonneg o1). pose proof (available_nonneg o2).
  apply (allocation_priority Hb inc o1 o2); [..|done|done];
    (split_and!; [done|done|by apply crosses_spec|lia]).
Qed.

(** C5: An order that comes to rest leaves no crossing liquidity behind:
    whatever rests on the other side at a price it accepts is wholly
    committed to pending settlements. *)
Theorem rested_not_crossed b d od b' r ints o :
  book_ok b → order_wf od → place b d od = (b', Ok (Rested r, ints)) →
  get b' (ro_digest o) = Some o →
  (∃ o0, get b' d = Some o0 ∧ ro_side o = opposite (ro_side o0) ∧
         crosses_price (ro_side o0) (ro_price_ticks o0) (ro_price_ticks o)) →
  available_base o = 0.
Proof.
  intros Hb Hod Hpl Hg (o0 & Hg0 & Hs & Hc).
  destruct (place_Ok Hb _ _ _ _ _ Hod Hpl) as
    (s & t & n & Hfresh & _ & Hout & _ & Hav & _ & Hn & Ht & Hon & _ & _ & Hok & _ & _ & Hres & Hget).
  set (inc := incoming_of b d od s t n) in *.
  unfold place_outcome, residue in *. destruct (allocation_of b inc).2 eqn:Est; [done|].
  rewrite <- Ht in *. case_bool; [done|]. reflect_bools.
  rewrite Hres in Hg0. injection Hg0 as <-. simpl in *.
  destruct (decide (ro_digest o = d)) as [E|Hne].
  { rewrite E, Hres in Hg. injection Hg as <-. simpl in Hs. by destruct s. }
  pose proof (get_filed Hok _ _ Hg) as ([Hok' _] & _).
  rewrite Hget in Hg by done. apply fmap_Some in Hg as (o1 & Hg1 & Heq).
  pose proof (get_filed Hb _ _ Hg1) as ([Hok1 _] & Hd1 & _).
  pose proof (available_nonneg o1).
  assert (filled (allocation_of b inc).1 (ro_digest o) = available_base o1) as Hfill.
  { destruct (Z.eq_dec (available_base o1) 0) as [Hz|Hz].
    - rewrite <- Hd1 in Hg1 |- *.
      pose proof (allocation_filled b inc _ o1 Hb eq_refl Hg1 ltac:(by rewrite Heq in Hs)). lia.
    - rewrite <- Hd1. apply (allocation_exhausts Hb); [done|lia|]. rewrite Heq in Hs, Hc.
      split_and!; [by rewrite Hd1|done|by apply crosses_spec|lia]. }
  assert (ro_remaining_base o = ro_remaining_base o1) by (by rewrite Heq).
  assert (ro_pending_base o = ro_pending_base o1 + available_base o1) by (rewrite Heq; simpl; by rewrite Hon, Hfill).
  rewrite (available_ok o Hok'). rewrite (available_ok o1 Hok1) in *. lia.
Qed.

(** C6: Placing an order and then failing the settlement of every intent it
    produced restores every other order of the book; the order itself is
    left with nothing pending, and only if it had come to rest. *)
Theorem place_then_fail_restores b d od b' out ints :
  book_ok b → order_wf od → place b d od = (b', Ok (out, ints)) →
  (∀ d', d' ≠ d → get (fail_all b' ints) d' = get b d') ∧
  get (fail_all b' ints) d = set_pending 0 <$> get b' d.
Proof.
  intros Hb Hod Hpl. destruct (place_Ok Hb _ _ _ _ _ Hod Hpl) as
    (s & t & n & _ & _ & _ & _ & _ & _ & _ & Ht & _ & _ & Hm & Hok & _ & Hmv & Hres & Hget).
  destruct (fail_all_effect s d ints b' Hok Hm Hmv) as [_ Hf]. split.
  - intros d' Hne. rewrite Hf, Hget by done. unfold moved. rewrite decide_False by done.
    destruct (get b d') as [o|]; [|done]. simpl. f_equal. unfold released. simpl.
    rewrite Z.add_simpl_r, set_pending_set. apply set_pending_id.
  - rewrite Hf. unfold moved. rewrite decide_True by done. rewrite Hres. unfold residue.
    rewrite <- Ht. unfold released. repeat case_bool; simpl; by rewrite ?Z.sub_diag.
Qed.

(** C7: Placing an order and then settling every intent it produced takes
    from each counterparty exactly its fills, removing it when nothing of
    it remains and leaving what it had pending before untouched; the new
    order keeps exactly what the outcome says rested, with nothing pending. *)
Theorem place_then_settle_conserves b d od b' out ints s ticks base :
  book_ok b → order_wf od → place b d od = (b', Ok (out, ints)) →
  price_and_size (market b) od = Ok (s, ticks, base) →
  (∀ d', d' ≠ d → get (settle_all b' ints) d' =
    o ← get b d'; let r := ro_remaining_base o - fills_on s d' ints in
    if r =? 0 then None else Some (set_remaining r o)) ∧
  get (settle_all b' ints) d =
    match out with
    | Rested r => Some (mkResting d (maker od) s ticks r 0 (next_seq b))
    | Matched | SelfTradeCancelled => None
    end.
Proof.
  intros Hb Hod Hpl Hps. destruct (place_Ok Hb _ _ _ _ _ Hod Hpl) as
    (s' & t & n & _ & Hps' & -> & _ & _ & Hn0 & Hn & Ht & _ & _ & Hm & Hok & _ & Hmv & Hres & Hget).
  rewrite Hps in Hps'. injection Hps' as <- <- <-.
  destruct (settle_all_effect s d ints b' Hok Hm Hmv) as [_ Hf]. split.
  - intros d' Hne. pose proof (Hmv d') as Hp. rewrite Hf, Hget in * by done. unfold moved in *.
    rewrite decide_False in * by done. destruct (get b d') as [o|] eqn:Hg; [|done]. simpl in *.
    destruct (get_filed Hb _ _ Hg) as ([[? ?] ?] & _).
    assert (get b' d' = Some (set_pending (ro_pending_base o + fills_on s d' ints) o)) as Hg'
      by (by rewrite Hget, Hg).
    destruct (get_filed Hok _ _ Hg') as ([[? ?] _] & _). simpl in *.
    unfold consumed, released, pruned. simpl. rewrite Z.add_simpl_r.
    destruct (Z.eqb_spec (ro_remaining_base o - fills_on s d' ints) 0); simpl.
    + by replace (ro_pending_base o =? 0) with true by lia.
    + by destruct o.
  - rewrite Hf. unfold moved. rewrite decide_True by done. rewrite Hres.
    unfold residue, place_outcome. rewrite <- Ht. unfold consumed, released, pruned.
    destruct (allocation_of _ _).2; [|destruct (Z.eqb_spec (fills_total ints) base) as [->|]];
      repeat case_bool; simpl in *; rewrite ?Z.sub_diag in *; reflect_bools; try done; try lia.
    by rewrite (proj2 (Z.eqb_neq _ _)) by lia.
Qed.

(** [rematch] sends the order to the back of its price level: whatever
    else rests at its price now precedes it, although its sequence number
    is the old one. *)
Theorem rematch_requeues_last b d o q :
  book_ok b → get b d = Some o → available_base o ≠ 0 →
  bt_get (ro_price_ticks o) (book_side (ro_side o) b) = Some q →
  ∃ o', bt_get (ro_price_ticks o) (book_side (ro_side o) (rematch b d).1) =
          Some (List.filter (λ x, negb (has_digest d x)) q ++ [o']) ∧
        get (rematch b d).1 d = Some o' ∧ ro_seq o' = ro_seq o ∧
        ro_remaining_base o' = ro_remaining_base o.
Proof.
  intros Hb Hg Hav Hq. pose proof (rematch_effect b d Hb) as H. rewrite Hg in H.
  rewrite (proj2 (Z.eqb_neq _ _) Hav) in H. cbn zeta in H. destruct H as (b' & -> & _ & Hget & Hlev).
  set (o' := set_pending _ o) in *. exists o'. simpl. rewrite Hlev, Hget, decide_True by done.
  split_and!; [|done..]. rewrite (level_remove Hb).
  destruct (get_filed Hb _ _ Hg) as (_ & _ & Hi & _). rewrite decide_True, Hq by done. simpl.
  case_decide as E; simpl; [by rewrite E|done].
Qed.

(** C9: [price_and_size] accepts exactly the orders on the market's grid:
    the quote amount is a whole positive number of ticks per lot of base,
    within [u64], on a market with a tick, and the base amount is at least
    the minimum; the products never wrap. *)
Theorem price_and_size_exact m od s ticks n :
  market_wf m → order_wf od →
  price_and_size m od = Ok (s, ticks, n) ↔
  side_of m od = Some s ∧
  let '(base_amount, quote_amount) :=
    match s with
    | Ask => (maker_amount od, taker_amount od)
    | Bid => (taker_amount od, maker_amount od)
    end in
  n = base_amount ∧ 0 < base_amount ∧ min_size m ≤ base_amount ∧
  0 < tick_size m ∧ 0 < ticks ≤ u64_max ∧
  quote_amount * lot_size m = ticks * (base_amount * tick_size m).
Proof.
  intros (Ht & Hmin & Hlot & _) (Hma & Hta & _). unfold price_and_size.
  destruct (side_of m od) as [s'|]; simpl; [|naive_solver].
  assert (∀ ba qa, u64 ba → u64 qa →
    (if (ba =? 0) || (qa =? 0) then Err BelowMinSize else
     let num := u128_mul qa (lot_size m) in let den := u128_mul ba (tick_size m) in
     if (den =? 0) || negb (num mod den =? 0) then Err OffTick else
     t ← (if num / den <=? u64_max then Ok (num / den) else Err Overflow);
     if t =? 0 then Err OffTick else
     if ba <? min_size m then Err BelowMinSize else Ok (s', t, ba)) = Ok (s, ticks, n) ↔
    s' = s ∧ n = ba ∧ 0 < ba ∧ min_size m ≤ ba ∧ 0 < tick_size m ∧ 0 < ticks ≤ u64_max ∧
    qa * lot_size m = ticks * (ba * tick_size m)) as Hcore.
  { intros ba qa Hba Hqa. cbn zeta. rewrite !u128_mul_u64 by done. unfold u64 in *.
    split.
    - intros H. repeat (case_bool; simpl in H; try discriminate); reflect_bools. simplify_eq.
      assert (0 < tick_size m) by nia.
      pose proof (Z.div_mod (qa * lot_size m) (n * tick_size m) ltac:(done)).
      assert (0 ≤ qa * lot_size m / (n * tick_size m)) by (apply Z.div_pos; nia).
      split_and!; try done; lia.
    - intros (-> & -> & Hb0 & Hmin' & Ht0 & Htk & Heq).
      assert (0 < ba * tick_size m) by nia.
      assert (qa ≠ 0) by nia. rewrite Heq, Z.div_mul, Z.mod_mul by lia.
      rewrite !(proj2 (Z.eqb_neq _ _)) by lia. simpl.
      rewrite (proj2 (Z.leb_le _ _)) by lia. simpl. rewrite (proj2 (Z.eqb_neq _ _)) by lia.
      by rewrite (proj2 (Z.ltb_ge _ _)) by lia. }
  destruct s'; simpl; rewrite Hcore by done; (split; [intros (<- & ?); done|]);
    intros ([= <-] & ?); done.
Qed.

(** The depth snapshot: on both sides it lists, strictly sorted best
    price first and up to the depth asked, exactly the levels with
    something available, each with the sum and the number of its available
    orders; its heads are [best_bid] and [best_ask]. *)
Theorem snapshot_shows_available b depth :
  book_ok b → fits (bids b) → fits (asks b) →
  view_ok Z.gt depth (reverse (bids b)) (best_bid b) (snapshot b depth).1 ∧
  view_ok Z.lt depth (asks b) (best_ask b) (snapshot b depth).2.
Proof.
  intros Hb Hfb Hfa. split; apply snapshot_side_ok.
  - rewrite fmap_reverse. pose proof (StronglySorted_reverse _ _ (bi_wf _ _ Hb Bid)) as H.
    simpl in H. clear -H. induction H as [|x l Hl IH Hx]; constructor; [done|].
    eapply Forall_impl; [exact Hx|]. unfold flip. lia.
  - intros p q Hin. apply (Hfb p). by apply elem_of_reverse.
  - apply (bi_wf _ _ Hb Ask).
  - done.
Qed.

(** * Concrete instances *)

Definition demo_events : list book_event :=
  [EvPlace (demo_digest 1) (demo_order Ask 1 1000 5); EvPlace (demo_digest 2) (demo_order Ask 2 1000 5);
   EvPlace (demo_digest 3) (demo_order Ask 3 1000 4); EvPlace (demo_digest 4) (demo_order Bid 4 1000 3)].
Definition demo_book : Book := foldl book_step (Book_new demo_market) demo_events.
Definition demo_taker : Order := demo_order Bid 5 1500 6.

Lemma demo_reachable : reachable demo_market demo_book.
Proof.
  unfold demo_book, demo_events. cbn [foldl].
  do 4 (apply reachable_step; [|apply demo_order_wf; [lia|split; vm_compute; discriminate..]]).
  apply reachable_new.
Qed.

Lemma demo_book_ok : book_ok demo_book.
Proof. apply (reachable_ok _ _ demo_reachable). Qed.

Lemma demo_taker_wf : order_wf demo_taker.
Proof. apply demo_order_wf; [lia|split; vm_compute; discriminate..]. Qed.

Definition placed_intents (r : Book * result BookError (PlaceOutcome * list MatchIntent)) : list MatchIntent :=
  match r.2 with Ok (_, ints) => ints | Err _ => [] end.

Definition demo_after : Book := (place demo_book (demo_digest 9) demo_taker).1.
Definition demo_intents : list MatchIntent := placed_intents (place demo_book (demo_digest 9) demo_taker).

Lemma demo_place : place demo_book (demo_digest 9) demo_taker = (demo_after, Ok (Matched, demo_intents)).
Proof. vm_compute. reflexivity. Qed.

Lemma demo_grid : price_and_size (market demo_book) demo_taker = Ok (Bid, 6, 1500).
Proof. vm_compute. reflexivity. Qed.

(** A taker larger than the book's asks, that comes to rest. *)
Definition demo_big : Order := demo_order Bid 5 5000 5.
Definition demo_rested : Book := (place demo_book (demo_digest 9) demo_big).1.
Definition demo_big_intents : list MatchIntent := placed_intents (place demo_book (demo_digest 9) demo_big).

Lemma demo_big_wf : order_wf demo_big.
Proof. apply demo_order_wf; [lia|split; vm_compute; discriminate..]. Qed.

Definition demo_resting (d : Z) : RestingOrder :=
  default (mkResting (demo_digest 0) (demo_addr 0) Bid 0 0 0 0) (get demo_book (demo_digest d)).

Lemma reachable_book_consistent_witness :
  NoDup (ro_digest <$> iter_orders demo_book) ∧ length (iter_orders demo_book) = 4%nat.
Proof.
  split; [|vm_compute; reflexivity].
  exact (proj1 (reachable_book_consistent demo_market demo_book demo_reachable)).
Defined.

Definition demo_incoming : RestingOrder :=
  incoming_of demo_book (demo_digest 9) demo_taker Bid 6 1500.

Lemma match_loop_refines_greedy_witness :
  (match_incoming demo_book demo_incoming).1.2 =
    alloc_intent (m_registry_id demo_market) demo_incoming <$> (allocation_of demo_book demo_incoming).1 ∧
  al_qty <$> (allocation_of demo_book demo_incoming).1 = [1000; 500].
Proof.
  split; [|vm_compute; reflexivity].
  destruct (match_loop_refines_greedy demo_book demo_incoming 3 demo_book_ok) as [_ H].
  - split; [split; vm_compute; discriminate|vm_compute; discriminate].
  - vm_compute. repeat constructor.
  - rewrite H. reflexivity.
Defined.

Lemma place_spec_witness :
  ∃ s ticks base,
    price_and_size (market demo_book) demo_taker = Ok (s, ticks, base) ∧ fills_total demo_intents = base.
Proof.
  pose proof (place_spec demo_book (demo_digest 9) demo_taker demo_book_ok demo_taker_wf) as H.
  rewrite demo_place in H. destruct H as (s & t & n & _ & H1 & _ & _ & H2 & _). eauto.
Defined.

Lemma demo_events_wf : Forall event_wf demo_events.
Proof.
  unfold demo_events. repeat (constructor; [apply demo_order_wf; [lia|split; vm_compute; discriminate..]|]).
  constructor.
Qed.

(** A taker that reaches into the second order at the price 5. *)
Definition demo_deep : Order := demo_order Bid 5 2500 6.
Definition demo_deep_after : Book := (place demo_book (demo_digest 9) demo_deep).1.
Definition demo_deep_intents : list MatchIntent := placed_intents (place demo_book (demo_digest 9) demo_deep).

Lemma place_price_time_priority_witness :
  fills_on Bid (demo_digest 1) demo_deep_intents = 1000 ∧ fills_on Bid (demo_digest 2) demo_deep_intents = 500.
Proof.
  split; [|vm_compute; reflexivity].
  refine (place_price_time_priority demo_market demo_events (demo_digest 9) demo_deep demo_deep_after Matched
    demo_deep_intents Bid 6 2500 (demo_resting 1) (demo_resting 2) demo_events_wf _ _
    _ _ _ _ _ _ _ _ _ _).
  2: { apply demo_order_wf; [lia|split; vm_compute; discriminate..]. }
  10: { right. split; [vm_compute; reflexivity|]. left. split; [vm_compute; reflexivity|].
        vm_compute. discriminate. }
  all: vm_compute; first [reflexivity|discriminate].
Defined.

(** Once rematched, the first order comes after the second one, although its
    sequence number is the smaller. *)
Definition demo_requeued : history := history_of demo_market (demo_events ++ [EvRematch (demo_digest 1)]).

Lemma demo_rematched_after :
  ro_seq (demo_resting 1) < ro_seq (demo_resting 2) ∧
  (came demo_requeued (demo_digest 2) < came demo_requeued (demo_digest 1))%nat.
Proof. split; vm_compute; [reflexivity|lia]. Qed.

Definition demo_committed : RestingOrder :=
  default (mkResting (demo_digest 0) (demo_addr 0) Bid 0 0 0 0) (get demo_rested (demo_digest 1)).

Lemma rested_not_crossed_witness : available_base demo_committed = 0.
Proof.
  refine (rested_not_crossed demo_book (demo_digest 9) demo_big demo_rested 2000 demo_big_intents
    demo_committed demo_book_ok demo_big_wf _ _ _); [vm_compute; reflexivity..|].
  exists (mkResting (demo_digest 9) (demo_addr 5) Bid 5 5000 3000 4).
  split_and!; [vm_compute; reflexivity..|vm_compute; discriminate].
Defined.

Lemma place_then_fail_restores_witness :
  get (fail_all demo_after demo_intents) (demo_digest 3) = get demo_book (demo_digest 3).
Proof.
  apply (place_then_fail_restores demo_book (demo_digest 9) demo_taker demo_after Matched demo_intents
    demo_book_ok demo_taker_wf demo_place). vm_compute. discriminate.
Defined.

Lemma place_then_settle_conserves_witness :
  get (settle_all demo_after demo_intents) (demo_digest 9) = None.
Proof.
  exact (proj2 (place_then_settle_conserves demo_book (demo_digest 9) demo_taker demo_after Matched
    demo_intents Bid 6 1500 demo_book_ok demo_taker_wf demo_place demo_grid)).
Defined.

Lemma rematch_requeues_last_witness :
  ∃ o', bt_get 5 (asks (rematch demo_book (demo_digest 1)).1) = Some ([demo_resting 2] ++ [o']) ∧
        ro_seq o' = 0.
Proof.
  destruct (rematch_requeues_last demo_book (demo_digest 1) (demo_resting 1)
    [demo_resting 1; demo_resting 2] demo_book_ok) as (o' & H1 & _ & H2 & _);
    [vm_compute; first [reflexivity|discriminate]..|].
  exists o'. split; [exact H1|exact H2].
Defined.

Lemma price_and_size_exact_witness :
  price_and_size demo_market demo_taker = Ok (Bid, 6, 1500) ∧ 9 * 1000000 = 6 * (1500 * 1000).
Proof.
  assert (market_wf demo_market) as Hm by (split_and!; split; vm_compute; discriminate).
  split; [|reflexivity].
  apply (price_and_size_exact demo_market demo_taker Bid 6 1500 Hm demo_taker_wf).
  split; [vm_compute; reflexivity|].
  split_and!; vm_compute; first [reflexivity|discriminate].
Defined.

Lemma snapshot_shows_available_witness :
  view_ok Z.lt 1 (asks demo_book) (best_ask demo_book) (snapshot demo_book 1).2 ∧
  (price_ticks <$> (snapshot demo_book 1).2) = [4].
Proof.
  split; [|vm_compute; reflexivity].
  assert (∀ l : levels, forallb (λ pq, Zsum_with available_base pq.2 <=? u64_max) l = true → fits l) as Hfit.
  { intros l Hl p q Hin. rewrite forallb_forall in Hl. apply list_elem_of_In in Hin.
    specialize (Hl (p, q) Hin). simpl in Hl. lia. }
  apply (snapshot_shows_available demo_book 1 demo_book_ok); apply Hfit; vm_compute; reflexivity.
Defined.
