(* ===== verification/MoveType.v ===== *)
(** [crates/exchange-types/src/types.rs]: the normalization of Move coin type
    strings, to which every token comparison of the exchange refers. *)

From S2P Require Import Prelude RustStr.

Inductive ParseTypeError := mkParseTypeError (s : rstring).

Inductive Tok := Atom (a : rstring) | Open | Close | Comma.

Definition is_punct (c : Z) : bool := (c =? 60) || (c =? 62) || (c =? 44).

Definition punct_tok (c : Z) : Tok := if c =? 60 then Open else if c =? 62 then Close else Comma.

(** [start.take()] followed by a push. *)
Definition flush (start : option rstring) : list Tok :=
  match start with Some a => [Atom a] | None => [] end.

(** The [char_indices] loop: [start] holds the atom being read. *)
Fixpoint tokenize (start : option rstring) (s : rstring) : list Tok :=
  match s with
  | [] => flush start
  | c :: s' =>
      if is_punct c then flush start ++ punct_tok c :: tokenize None s'
      else if is_whitespace c then flush start ++ tokenize None s'
      else tokenize (Some (default [] start ++ [c])) s'
  end.

Definition canonicalize_atom (atom : rstring) (prefixed : bool) : option rstring :=
  '(addr, rest) ← split_once (str "::") atom;
  let addr_hex := default addr (strip_prefix (str "0x") addr) in
  if bool_decide (addr_hex = []) || (64 <? str_len addr_hex) || negb (forallb is_ascii_hexdigit addr_hex)
  then None else
  match split_colons rest with
  | [m; n] =>
      if negb (bool_decide (m = [])) && negb (bool_decide (n = [])) then
        let prefix := if prefixed then str "0x" else [] in
        Some (prefix ++ pad_left0 64 (to_ascii_lowercase addr_hex) ++ str "::" ++ m ++ str "::" ++ n)
      else None
  | _ => None
  end.

(** The token loop; the [u32] depth wraps. *)
Fixpoint canonicalize_toks (out : rstring) (depth : Z) (have_item : bool) (toks : list Tok)
    : option rstring :=
  match toks with
  | [] => if negb (depth =? 0) || negb have_item then None else Some out
  | Atom a :: toks' =>
      if have_item then None else
      r ← canonicalize_atom a (depth =? 0);
      canonicalize_toks (out ++ r) depth true toks'
  | Open :: toks' =>
      if negb have_item then None else
      canonicalize_toks (out ++ [60]) ((depth + 1) mod 2 ^ 32) false toks'
  | Close :: toks' =>
      if (depth =? 0) || negb have_item then None else
      canonicalize_toks (out ++ [62]) (depth - 1) have_item toks'
  | Comma :: toks' =>
      if (depth =? 0) || negb have_item then None else
      canonicalize_toks (out ++ [44]) depth false toks'
  end.

Definition canonicalize_move_type (s : rstring) : result ParseTypeError rstring :=
  ok_or (canonicalize_toks [] 0 false (tokenize None s)) (mkParseTypeError s).

(** * Idempotence *)

(** A character that ends no atom. *)
Definition atom_char (c : Z) : bool := negb (is_punct c) && negb (is_whitespace c).
Definition clean (a : rstring) : Prop := a ≠ [] ∧ Forall (λ c, atom_char c = true) a.

Definition render (t : Tok) : rstring :=
  match t with Atom a => a | Open => [60] | Close => [62] | Comma => [44] end.
Definition render_all (ts : list Tok) : rstring := mjoin (render <$> ts).

(** No atom follows another, nor (for [have_item]) a completed type. *)
Fixpoint separated (have_item : bool) (ts : list Tok) : Prop :=
  match ts with
  | [] => True
  | Atom a :: ts' => have_item = false ∧ clean a ∧ separated true ts'
  | Close :: ts' => separated have_item ts'
  | _ :: ts' => separated false ts'
  end.

Lemma tokenize_clean s : ∀ start a,
  (∀ a, start = Some a → clean a) → Atom a ∈ tokenize start s → clean a.
Proof.
  induction s as [|c s IH]; intros start a Hs; simpl.
  { destruct start; simpl; set_solver. }
  assert (∀ a, Atom a ∈ flush start → clean a) as Hf.
  { intros a'. destruct start as [b|]; simpl; [|set_solver].
    intros [= ->]%list_elem_of_singleton. by apply Hs. }
  destruct (is_punct c) eqn:Ep.
  - rewrite elem_of_app, elem_of_cons. intros [Hin|[Hin|Hin]]; [auto| |by eapply (IH None)].
    unfold punct_tok in Hin. by repeat case_bool.
  - destruct (is_whitespace c) eqn:Ew.
    + rewrite elem_of_app. intros [Hin|Hin]; [auto|by eapply (IH None)].
    + apply IH. intros a' [= <-]. split; [by destruct (default [] start)|].
      apply Forall_app. split.
      * destruct start as [b|]; simpl; [|constructor]. by apply (Hs b).
      * apply Forall_singleton. unfold atom_char. by rewrite Ep, Ew.
Qed.

Lemma tokenize_atom a s start :
  Forall (λ c, atom_char c = true) a → a ≠ [] →
  tokenize start (a ++ s) = tokenize (Some (default [] start ++ a)) s.
Proof.
  revert start. induction a as [|c a IH]; intros start Ha Hne; [done|].
  inversion Ha as [|? ? Hc Ha']; subst. unfold atom_char in Hc. reflect_bools. simpl.
  rewrite H, H0. destruct a as [|c' a]; [done|].
  rewrite IH by done. simpl. by rewrite <- app_assoc.
Qed.

Lemma tokenize_punct start c s :
  is_punct c = true → tokenize start (c :: s) = flush start ++ punct_tok c :: tokenize None s.
Proof. simpl. by intros ->. Qed.

Lemma render_all_cons t ts : render_all (t :: ts) = render t ++ render_all ts.
Proof. done. Qed.

Lemma render_all_app ts ts' : render_all (ts ++ ts') = render_all ts ++ render_all ts'.
Proof. unfold render_all. by rewrite fmap_app, join_app. Qed.

(** Rendering separated tokens and reading them back. *)
Lemma tokenize_render ts : ∀ have,
  separated have ts →
  tokenize None (render_all ts) = ts ∧
  (have = true → ∀ a, tokenize (Some a) (render_all ts) = Atom a :: ts).
Proof.
  induction ts as [|t ts IH]; intros have; [done|].
  rewrite render_all_cons. destruct t as [a| | |]; cbn [separated render app]; intros Hsep.
  2-4: apply IH in Hsep as [E _]; rewrite !tokenize_punct by done; split; [by rewrite E|];
    intros _ a; rewrite tokenize_punct by done; by rewrite E.
  destruct Hsep as (-> & [Hne Ha] & Hsep). split; [|done].
  rewrite tokenize_atom by done. by apply (IH true Hsep).
Qed.

(** ** Canonical atoms *)

Lemma hexdigit_not_x c : is_ascii_hexdigit c = true → c ≠ 120 ∧ c ≠ 58 ∧ atom_char c = true.
Proof.
  unfold is_ascii_hexdigit, is_ascii_digit. intros H.
  assert (48 ≤ c ≤ 57 ∨ 97 ≤ c ≤ 102 ∨ 65 ≤ c ≤ 70) as Hc by lia. split; [lia|]. split; [lia|].
  unfold atom_char, is_punct, is_whitespace. lia.
Qed.

Lemma lowercase_hexdigit c :
  is_ascii_hexdigit c = true → is_ascii_hexdigit (to_ascii_lowercase_char c) = true ∧
  to_ascii_lowercase_char (to_ascii_lowercase_char c) = to_ascii_lowercase_char c.
Proof.
  unfold is_ascii_hexdigit, is_ascii_digit, to_ascii_lowercase_char. intros H.
  destruct ((65 <=? c) && (c <=? 90)) eqn:E; [|by rewrite E].
  destruct ((65 <=? c + 32) && (c + 32 <=? 90)) eqn:E'; lia.
Qed.

Lemma str_len_ascii s : Forall (λ c, c < 128) s → str_len s = Z.of_nat (length s).
Proof.
  unfold str_len. induction 1 as [|c s Hc _ IH]; [done|].
  rewrite Zsum_with_cons, IH. unfold char_len_utf8. rewrite (proj2 (Z.ltb_lt _ _) Hc). simpl. lia.
Qed.

(** The address part of a canonical atom. *)
Definition hex64 (h : rstring) : Prop :=
  length h = 64%nat ∧ Forall (λ c, is_ascii_hexdigit c = true) h ∧ to_ascii_lowercase h = h.

Lemma pad_hex64 h :
  (length h ≤ 64)%nat → Forall (λ c, is_ascii_hexdigit c = true) h →
  hex64 (pad_left0 64 (to_ascii_lowercase h)).
Proof.
  intros Hlen Hh. unfold to_ascii_lowercase. split; [|split].
  - apply length_pad_left0. by rewrite length_fmap.
  - apply Forall_app. split; [by apply Forall_replicate|]. apply Forall_fmap.
    eapply Forall_impl; [exact Hh|]. apply lowercase_hexdigit.
  - unfold pad_left0, to_ascii_lowercase. rewrite fmap_app, fmap_replicate. f_equal.
    rewrite <- list_fmap_compose. apply list_fmap_ext. intros i c Hc%list_elem_of_lookup_2.
    rewrite Forall_forall in Hh. by apply lowercase_hexdigit, Hh.
Qed.

Definition atom_text (prefixed : bool) (h m n : rstring) : rstring :=
  (if prefixed then str "0x" else []) ++ h ++ str "::" ++ m ++ str "::" ++ n.

Lemma canonicalize_atom_text prefixed h m n :
  hex64 h → m ≠ [] → n ≠ [] → split_colons (m ++ str "::" ++ n) = [m; n] →
  canonicalize_atom (atom_text prefixed h m n) prefixed = Some (atom_text prefixed h m n).
Proof.
  intros (Hlen & Hh & Hlow) Hm Hn Hsp. unfold canonicalize_atom, atom_text.
  assert (58 ∉ (if prefixed then str "0x" else []) ++ h) as Hc.
  { rewrite not_elem_of_app. split; [destruct prefixed; by apply not_in_text|].
    intros Hin. rewrite Forall_forall in Hh. by destruct (hexdigit_not_x 58 (Hh _ Hin)) as (_ & ? & _). }
  rewrite (app_assoc _ h), split_once_colons by done. cbn [mbind option_bind].
  replace (default ((if prefixed then str "0x" else []) ++ h) _) with h.
  2: { destruct prefixed; [by rewrite strip_prefix_app|].
       destruct h as [|c1 [|c2 h]]; [done..|]. rewrite !Forall_cons in Hh.
       destruct Hh as (_ & [Hx _]%hexdigit_not_x & _). change (str "0x") with [48; 120].
       cbn [strip_prefix app]. destruct (48 =? c1); [|done]. by destruct (Z.eqb_spec 120 c2). }
  rewrite bool_decide_false by by destruct h.
  rewrite str_len_ascii, Hlen.
  2: { eapply Forall_impl; [exact Hh|]. unfold is_ascii_hexdigit, is_ascii_digit. simpl. lia. }
  replace (forallb is_ascii_hexdigit h) with true.
  2: { symmetry. apply forallb_forall. intros c Hin%list_elem_of_In. rewrite Forall_forall in Hh. auto. }
  change (64 <? Z.of_nat 64) with false. cbn [orb negb]. rewrite Hsp, !bool_decide_false by done.
  cbn [andb negb].
  rewrite Hlow, pad_left0_id by lia. by rewrite <- !app_assoc.
Qed.

Lemma canonicalize_atom_Some a prefixed r :
  clean a → canonicalize_atom a prefixed = Some r →
  ∃ h m n, r = atom_text prefixed h m n ∧ hex64 h ∧ m ≠ [] ∧ n ≠ [] ∧
    split_colons (m ++ str "::" ++ n) = [m; n] ∧ clean r.
Proof.
  intros [_ Ha]. unfold canonicalize_atom. destruct (split_once _ a) as [[addr rest]|] eqn:E; [|done].
  cbn [mbind option_bind]. apply split_once_Some in E as ->.
  set (hx := default addr _). case_bool; [done|]. reflect_bools.
  destruct (split_colons rest) as [|m [|n [|]]] eqn:Es; try done. case_bool; [|done]. reflect_bools.
  intros [= <-].
  assert (Forall (λ c, is_ascii_hexdigit c = true) hx) as Hh.
  { apply Forall_forall. intros c Hin%list_elem_of_In. by eapply forallb_forall. }
  rewrite str_len_ascii in *.
  2: { eapply Forall_impl; [exact Hh|]. unfold is_ascii_hexdigit, is_ascii_digit. simpl. lia. }
  assert (hex64 (pad_left0 64 (to_ascii_lowercase hx))) as H64 by (apply pad_hex64; [lia|done]).
  assert (rest = m ++ str "::" ++ n) as Hrest by (rewrite <- (join_split_colons rest), Es; done).
  rewrite Hrest in Ha, Es. eexists _, m, n. split_and!; [done|done|done|done|done|].
  apply Forall_app in Ha as [_ Hr]. split.
  - destruct prefixed; [done|]. destruct H64 as [Hl _].
    intros [_ [E _]%app_eq_nil]%app_eq_nil. by rewrite E in Hl.
  - destruct H64 as (_ & H64 & _). apply Forall_app. split; [destruct prefixed; by repeat constructor|].
    apply Forall_app. split; [|exact Hr].
    eapply Forall_impl; [exact H64|]. intros; by apply hexdigit_not_x.
Qed.

(** ** The token loop *)

Lemma canonicalize_toks_fixpoint ts : ∀ out depth have t,
  (∀ a, Atom a ∈ ts → clean a) →
  canonicalize_toks out depth have ts = Some t →
  ∃ ts', t = out ++ render_all ts' ∧ separated have ts' ∧
    ∀ out', canonicalize_toks out' depth have ts' = Some (out' ++ render_all ts').
Proof.
  induction ts as [|tok ts IH]; intros out depth have t Hclean; cbn [canonicalize_toks].
  - intros H. exists []. case_bool; [done|]. injection H as <-.
    split; [by rewrite app_nil_r|]. split; [done|]. intros out'. cbn [canonicalize_toks].
    rewrite Heqb. by rewrite app_nil_r.
  - assert (∀ a, Atom a ∈ ts → clean a) as Hclean' by set_solver.
    destruct tok as [a| | |]; (case_bool; [done|]).
    + destruct (canonicalize_atom a (depth =? 0)) as [r|] eqn:Er; [|done]. cbn [mbind option_bind].
      intros H. destruct (IH _ _ _ _ Hclean' H) as (ts' & -> & Hsep & Hfix).
      apply canonicalize_atom_Some in Er as (h & m & n & Hr & Hh & Hm & Hn & Hs & Hc); [|set_solver].
      exists (Atom r :: ts'). rewrite render_all_cons. split; [by rewrite app_assoc|].
      split; [done|]. intros out'. cbn [canonicalize_toks].
      rewrite Hr, canonicalize_atom_text by done. cbn [mbind option_bind]. by rewrite Hfix, app_assoc.
    + intros H. destruct (IH _ _ _ _ Hclean' H) as (ts' & -> & Hsep & Hfix). exists (Open :: ts').
      rewrite render_all_cons. split; [by rewrite app_assoc|]. split; [done|].
      intros out'. cbn [canonicalize_toks]. by rewrite Heqb, Hfix, app_assoc.
    + intros H. destruct (IH _ _ _ _ Hclean' H) as (ts' & -> & Hsep & Hfix). exists (Close :: ts').
      rewrite render_all_cons. split; [by rewrite app_assoc|]. split; [done|].
      intros out'. cbn [canonicalize_toks]. by rewrite Heqb, Hfix, app_assoc.
    + intros H. destruct (IH _ _ _ _ Hclean' H) as (ts' & -> & Hsep & Hfix). exists (Comma :: ts').
      rewrite render_all_cons. split; [by rewrite app_assoc|]. split; [done|].
      intros out'. cbn [canonicalize_toks]. by rewrite Heqb, Hfix, app_assoc.
Qed.

(** A canonical string has the signed form: the outermost address carries
    [0x] and 64 digits, and nothing is left of the spacing. *)
Lemma canonicalize_toks_head ts t :
  (∀ a, Atom a ∈ ts → clean a) → canonicalize_toks [] 0 false ts = Some t →
  ∃ h r, t = str "0x" ++ h ++ str "::" ++ r ∧ hex64 h.
Proof.
  intros Hclean. destruct ts as [|[a| | |] ts]; try done. cbn [canonicalize_toks].
  destruct (canonicalize_atom a (0 =? 0)) as [r|] eqn:Er; [|done]. cbn [mbind option_bind app].
  intros H. apply canonicalize_toks_fixpoint in H as (ts' & -> & _ & _); [|set_solver].
  apply canonicalize_atom_Some in Er as (h & m & n & -> & Hh & _); [|set_solver].
  exists h, ((m ++ str "::" ++ n) ++ render_all ts'). split; [|done].
  unfold atom_text. by rewrite !app_assoc.
Qed.

(** Normalizing a Move type string is idempotent: whatever form a coin
    type arrives in, the string it is normalized to is the one every later
    normalization (and so every token comparison) yields; it begins with
    [0x], a 64-digit lower-case address and [::]. *)
Theorem canonicalize_move_type_idempotent s t :
  canonicalize_move_type s = Ok t →
  canonicalize_move_type t = Ok t ∧
  ∃ h r, t = str "0x" ++ h ++ str "::" ++ r ∧ hex64 h.
Proof.
  unfold canonicalize_move_type. destruct (canonicalize_toks _ _ _ (tokenize None s)) as [t'|] eqn:E; [|done].
  intros [= <-]. assert (∀ a, Atom a ∈ tokenize None s → clean a) as Hclean.
  { intros a. by apply tokenize_clean. }
  split; [|by eapply canonicalize_toks_head].
  destruct (canonicalize_toks_fixpoint _ _ _ _ _ Hclean E) as (ts' & -> & Hsep & Hfix).
  cbn [app]. destruct (tokenize_render ts' false Hsep) as [-> _]. by rewrite (Hfix []).
Qed.

Lemma canonicalize_move_type_idempotent_witness :
  let t := str "0x000000000000000000000000000000000000000000000000000000000000000a::m::A<000000000000000000000000000000000000000000000000000000000000000a::m::B,0000000000000000000000000000000000000000000000000000000000000002::sui::SUI>" in
  canonicalize_move_type (str "A::m::A<0xa::m::B, 2::sui::SUI>") = Ok t ∧ canonicalize_move_type t = Ok t.
Proof.
  cbn zeta. split; [vm_compute; reflexivity|].
  apply (canonicalize_move_type_idempotent (str "A::m::A<0xa::m::B, 2::sui::SUI>")).
  vm_compute. reflexivity.
Defined.
