(* ===== verification/Crates.v ===== *)
(** The third-party crates the source relies on for encodings and signatures:
    each is a class of functions, with what its documentation promises as a
    second class; [bcs_format] is an implementation of BCS that keeps the
    promises. *)

From S2P Require Import Prelude RustStr ExchangeTypes.

Definition len (l : list Z) : Z := Z.of_nat (length l).

(** [bcs]: the encodings of the types that occur in orders and quotes. *)
Class BcsCrate := {
  bcs_u8 : Z → list Z;
  bcs_u64 : Z → list Z;
  bcs_u128 : Z → list Z;
  bcs_bool : bool → list Z;
  bcs_str : rstring → list Z;
  bcs_bytes : list Z → list Z;
}.

(** A Rust [str] holds Unicode scalar values. *)
Definition str_wf (s : rstring) : Prop := Forall (λ c, 0 ≤ c < 1114112) s.

Definition byte_wf (b : Z) : Prop := 0 ≤ b < 256.

(** What BCS documents: a byte is itself, an integer has a fixed width, a
    string or a byte vector carries its length, so that it is read back from
    the front of a longer encoding. *)
Class BcsSpec `{BcsCrate} : Prop := {
  bcs_u8_raw b : bcs_u8 b = [b];
  bcs_u64_length n : length (bcs_u64 n) = 8%nat;
  bcs_u64_inj n n' : u64 n → u64 n' → bcs_u64 n = bcs_u64 n' → n = n';
  bcs_u128_length n : length (bcs_u128 n) = 16%nat;
  bcs_u128_inj n n' : u128 n → u128 n' → bcs_u128 n = bcs_u128 n' → n = n';
  bcs_bool_length b : length (bcs_bool b) = 1%nat;
  bcs_bool_inj b b' : bcs_bool b = bcs_bool b' → b = b';
  bcs_bytes_cancel l l' r r' :
    Forall byte_wf l → Forall byte_wf l' → bcs_bytes l ++ r = bcs_bytes l' ++ r' → l = l' ∧ r = r';
  bcs_str_cancel s s' r r' :
    str_wf s → str_wf s' → bcs_str s ++ r = bcs_str s' ++ r' → s = s' ∧ r = r';
}.

(** [blake2], [sha2], [ed25519_dalek], [k256] and [p256]. *)
Class CryptoCrates := {
  blake2b256 : list Z → list Z;
  sha256 : list Z → list Z;
  ed25519_key_ok : list Z → bool;
  ed25519_verify : list Z → list Z → list Z → bool;   (* key, message, signature *)
  k256_key_ok : list Z → bool;
  k256_signature_ok : list Z → bool;
  k256_verify_prehash : list Z → list Z → list Z → bool;
  p256_key_ok : list Z → bool;
  p256_signature_ok : list Z → bool;
  p256_verify_prehash : list Z → list Z → list Z → bool;
}.

(** [dashmap]: iteration over a map has no specified order. *)
Class DashMapCrate := { dash_values : ∀ {V : Type}, gmap SuiAddress V → list V }.
Class DashMapCrateSpec `{DashMapCrate} : Prop := {
  dash_values_perm {V} (m : gmap SuiAddress V) : dash_values m ≡ₚ (map_to_list m).*2;
}.

(** * Reading back fixed-width integers *)

Section cancel.
Context `{BcsSpec}.

Lemma u64_cancel n n' r r' :
  u64 n → u64 n' → bcs_u64 n ++ r = bcs_u64 n' ++ r' → n = n' ∧ r = r'.
Proof.
  intros Hn Hn' E. apply app_inj_1 in E as [E ->]; [|by rewrite !bcs_u64_length].
  split; [by apply bcs_u64_inj|done].
Qed.

Lemma u128_cancel n n' r r' :
  u128 n → u128 n' → bcs_u128 n ++ r = bcs_u128 n' ++ r' → n = n' ∧ r = r'.
Proof.
  intros Hn Hn' E. apply app_inj_1 in E as [E ->]; [|by rewrite !bcs_u128_length].
  split; [by apply bcs_u128_inj|done].
Qed.

Lemma bool_cancel b b' r r' : bcs_bool b ++ r = bcs_bool b' ++ r' → b = b' ∧ r = r'.
Proof.
  intros E. apply app_inj_1 in E as [E ->]; [|by rewrite !bcs_bool_length].
  split; [by apply bcs_bool_inj|done].
Qed.

Lemma u8_cancel b b' r r' : bcs_u8 b ++ r = bcs_u8 b' ++ r' → b = b' ∧ r = r'.
Proof. rewrite !bcs_u8_raw. by intros [= -> ->]. Qed.
End cancel.

(** * The BCS format

    An implementation of the primitives that satisfies what is asked of
    them, used in the concrete instances. *)

Fixpoint le_bytes (k : nat) (n : Z) : list Z :=
  match k with O => [] | S k' => n mod 256 :: le_bytes k' (n / 256) end.

Fixpoint uleb (fuel : nat) (n : Z) : list Z :=
  match fuel with
  | O => []
  | S fuel' => if n <? 128 then [n] else (n mod 128 + 128) :: uleb fuel' (n / 128)
  end.

Definition utf8_char (c : Z) : list Z :=
  if c <? 128 then [c]
  else if c <? 2048 then [192 + c / 64; 128 + c mod 64]
  else if c <? 65536 then [224 + c / 4096; 128 + c / 64 mod 64; 128 + c mod 64]
  else [240 + c / 262144; 128 + c / 4096 mod 64; 128 + c / 64 mod 64; 128 + c mod 64].
Definition utf8 (s : rstring) : list Z := mjoin (utf8_char <$> s).

Definition vec_u8 (l : list Z) : list Z := uleb (S (length l)) (len l) ++ l.

Definition bcs_format : BcsCrate := {|
  bcs_u8 b := [b];
  bcs_u64 := le_bytes 8;
  bcs_u128 := le_bytes 16;
  bcs_bool b := [if b then 1 else 0];
  bcs_str s := vec_u8 (utf8 s);
  bcs_bytes := vec_u8;
|}.

Lemma le_bytes_length k n : length (le_bytes k n) = k.
Proof. revert n. induction k as [|k IH]; intros n; [done|]. simpl. by rewrite IH. Qed.

Lemma le_bytes_inj k : ∀ n n',
  0 ≤ n < 256 ^ Z.of_nat k → 0 ≤ n' < 256 ^ Z.of_nat k → le_bytes k n = le_bytes k n' → n = n'.
Proof.
  induction k as [|k IH]; intros n n'; [simpl; lia|].
  rewrite Nat2Z.inj_succ, Z.pow_succ_r by lia. intros Hn Hn' [= Hm Hd].
  apply IH in Hd; [|split; [apply Z.div_pos|apply Z.div_lt_upper_bound]; lia..].
  pose proof (Z.div_mod n 256). pose proof (Z.div_mod n' 256). lia.
Qed.

Lemma uleb_cancel f : ∀ f' n n' r r',
  0 ≤ n < 128 ^ Z.of_nat f → 0 ≤ n' < 128 ^ Z.of_nat f' →
  (0 < f)%nat → (0 < f')%nat → uleb f n ++ r = uleb f' n' ++ r' → n = n' ∧ r = r'.
Proof.
  induction f as [|f IH]; intros [|f'] n n' r r'; [lia..|].
  rewrite !Nat2Z.inj_succ, !Z.pow_succ_r by lia. intros Hn Hn' _ _. cbn [uleb].
  pose proof (Z.mod_pos_bound n 128 ltac:(lia)). pose proof (Z.mod_pos_bound n' 128 ltac:(lia)).
  destruct (Z.ltb_spec n 128), (Z.ltb_spec n' 128); simpl; intros [= E1 E2]; [done|lia..|].
  assert (∀ k m : Z, 0 ≤ m < 128 * 128 ^ k → 128 ≤ m → 0 ≤ m / 128 < 128 ^ k) as Hdiv.
  { intros k m Hm _. split; [apply Z.div_pos; lia|apply Z.div_lt_upper_bound; lia]. }
  assert (∀ g m, 0 ≤ m < 128 * 128 ^ Z.of_nat g → 128 ≤ m → (0 < g)%nat) as Hpos.
  { intros [|g] m Hm Hge; [simpl in Hm; lia|lia]. }
  apply IH in E2 as [E2 ->]; [|eauto..].
  split; [|done]. pose proof (Z.div_mod n 128). pose proof (Z.div_mod n' 128). lia.
Qed.

Lemma utf8_char_cancel c c' r r' :
  0 ≤ c < 1114112 → 0 ≤ c' < 1114112 →
  utf8_char c ++ r = utf8_char c' ++ r' → c = c' ∧ r = r'.
Proof.
  intros Hc Hc'. unfold utf8_char.
  assert (∀ z, z = z / 64 * 64 + z mod 64 ∧ 0 ≤ z mod 64 < 64) as H64.
  { intros z. pose proof (Z.div_mod z 64). pose proof (Z.mod_pos_bound z 64). lia. }
  assert (∀ z, z / 4096 = z / 64 / 64) as Hd1 by (intros; by rewrite Z.div_div).
  assert (∀ z, z / 262144 = z / 4096 / 64) as Hd2 by (intros; by rewrite Z.div_div).
  pose proof (H64 c). pose proof (H64 (c / 64)). pose proof (H64 (c / 4096)).
  pose proof (H64 c'). pose proof (H64 (c' / 64)). pose proof (H64 (c' / 4096)).
  pose proof (Hd1 c). pose proof (Hd1 c'). pose proof (Hd2 c). pose proof (Hd2 c').
  repeat case_bool; reflect_bools; simpl; intros E; injection E; intros; subst;
    (lia || (split; [lia|done])).
Qed.

Lemma utf8_cancel s : ∀ s', str_wf s → str_wf s' → utf8 s = utf8 s' → s = s'.
Proof.
  assert (∀ c s, utf8 (c :: s) = utf8_char c ++ utf8 s) as Hcons by done.
  assert (∀ c s, utf8 (c :: s) ≠ []) as Hne.
  { intros c t. rewrite Hcons. unfold utf8_char. by repeat case_bool. }
  induction s as [|c s IH]; intros [|c' s'] Hs Hs' E; [done|by destruct (Hne c' s')|by destruct (Hne c s)|].
  rewrite !Hcons in E. apply Forall_cons in Hs as [Hc Hs]. apply Forall_cons in Hs' as [Hc' Hs'].
  apply utf8_char_cancel in E as [-> E]; [|done..]. by rewrite (IH s').
Qed.

Lemma vec_u8_cancel l l' r r' : vec_u8 l ++ r = vec_u8 l' ++ r' → l = l' ∧ r = r'.
Proof.
  unfold vec_u8. rewrite <- !app_assoc. intros E.
  assert (∀ l : list Z, 0 ≤ len l < 128 ^ Z.of_nat (S (length l))) as Hb.
  { intros k. unfold len. split; [lia|]. rewrite Nat2Z.inj_succ.
    pose proof (Z.pow_gt_lin_r 128 (Z.of_nat (length k))). rewrite Z.pow_succ_r by lia. lia. }
  apply uleb_cancel in E as [El E]; [|auto with lia..].
  by apply app_inj_1 in E; [|unfold len in El; lia].
Qed.

#[export] Instance bcs_format_spec : @BcsSpec bcs_format.
Proof.
  split.
  - done.
  - apply (le_bytes_length 8).
  - intros n n' Hn Hn'. apply le_bytes_inj; unfold u64, u64_max in *; lia.
  - apply (le_bytes_length 16).
  - intros n n' Hn Hn'. apply le_bytes_inj; unfold u128, u128_max in *; lia.
  - done.
  - by intros [] [].
  - intros l l' r r' _ _. apply vec_u8_cancel.
  - intros s s' r r' Hs Hs' E. apply vec_u8_cancel in E as [E ->]. split; [|done].
    by apply utf8_cancel.
Qed.
