(* ===== verification/Signing.v ===== *)
(** [crates/exchange-signing]: order digests and signature verification.
    The hash functions, the signature schemes and the BCS primitives are
    crates of their own and parameters here. *)

From S2P Require Import Prelude RustStr ExchangeTypes Crates.

(** * The source *)

Definition DOMAIN_TAG : list Z := str "SUI_HYBRID_EXCHANGE_ORDER".
Definition DOMAIN_VERSION : Z := 1.
Definition PERSONAL_MESSAGE_INTENT : list Z := [3; 0; 0].
Definition TRANSACTION_DATA_INTENT : list Z := [0; 0; 0].

Inductive VerifyError :=
  | BadSignatureLength (expected got : Z)
  | BadPublicKeyLength (expected got : Z)
  | MalformedPublicKey
  | HighS
  | Invalid
  | SignerNotAuthorized (derived : SuiAddress).

Section signing.
Context `{BcsCrate, CryptoCrates}.

(** The [Serialize] instance of an address in BCS: 32 raw bytes. *)
Definition address_bcs (a : SuiAddress) : list Z := mjoin (bcs_u8 <$> addr_bytes a).

(** [Order::to_bcs]: the fields in declaration order. *)
Definition to_bcs (o : Order) : list Z :=
  bcs_str (maker_token o) ++ bcs_str (taker_token o) ++
  bcs_u64 (maker_amount o) ++ bcs_u64 (taker_amount o) ++ bcs_u64 (max_fee_bps o) ++
  address_bcs (maker o) ++ address_bcs (maker_manager_id o) ++
  address_bcs (taker o) ++ address_bcs (sender o) ++
  bcs_u64 (expiry_ms o) ++ bcs_u64 (salt o).

Definition order_preimage (o : Order) (registry_id : ObjectId) : list Z :=
  DOMAIN_TAG ++ [DOMAIN_VERSION] ++ address_bcs registry_id ++ to_bcs o.

Definition order_digest (o : Order) (registry_id : ObjectId) : Digest :=
  mkDigest (blake2b256 (order_preimage o registry_id)).

Definition personal_message_signing_digest (message : list Z) : list Z :=
  blake2b256 (PERSONAL_MESSAGE_INTENT ++ bcs_bytes message).

Definition derive_address (scheme : SignatureScheme) (public_key : list Z) : SuiAddress :=
  mkSuiAddress (blake2b256 (scheme_flag scheme :: public_key)).
End signing.

Definition SECP256K1_HALF_ORDER : list Z :=
  [127; 255; 255; 255; 255; 255; 255; 255; 255; 255; 255; 255; 255; 255; 255;
   255; 93; 87; 110; 115; 87; 164; 80; 29; 223; 233; 47; 70; 104; 27;
   32; 160].

(** [<=] on slices: lexicographic. *)
Fixpoint slice_le (a b : list Z) : bool :=
  match a, b with
  | [], _ => true
  | _ :: _, [] => false
  | x :: a', y :: b' => if x =? y then slice_le a' b' else x <? y
  end.

Definition is_low_s (sig64 : list Z) : bool :=
  (len sig64 =? 64) && slice_le (take 32 (drop 32 sig64)) SECP256K1_HALF_ORDER.

Section verify.
Context `{BcsCrate, CryptoCrates}.

Definition verify_signature (scheme : SignatureScheme) (message signature public_key : list Z)
    : result VerifyError SuiAddress :=
  if negb (len signature =? 64) then Err (BadSignatureLength 64 (len signature)) else
  let signing_digest := personal_message_signing_digest message in
  _ ← match scheme with
      | Ed25519 =>
          if negb (len public_key =? 32) then Err (BadPublicKeyLength 32 (len public_key)) else
          if negb (ed25519_key_ok public_key) then Err MalformedPublicKey else
          if ed25519_verify public_key signing_digest signature then Ok () else Err Invalid
      | Secp256k1 =>
          if negb (len public_key =? 33) then Err (BadPublicKeyLength 33 (len public_key)) else
          if negb (is_low_s signature) then Err HighS else
          if negb (k256_key_ok public_key) then Err MalformedPublicKey else
          if negb (k256_signature_ok signature) then Err Invalid else
          let prehash := sha256 signing_digest in
          if k256_verify_prehash public_key prehash signature then Ok () else Err Invalid
      end;
  Ok (derive_address scheme public_key).

Definition verify_order (o : Order) (registry_id : ObjectId) (scheme : SignatureScheme)
    (signature public_key : list Z) (approved_signers : list SuiAddress)
    : result VerifyError Digest :=
  let digest := order_digest o registry_id in
  signer ← verify_signature scheme (digest_bytes digest) signature public_key;
  if negb (bool_decide (signer = maker o)) && negb (bool_decide (signer ∈ approved_signers))
  then Err (SignerNotAuthorized signer)
  else Ok digest.
End verify.

(** * The preimage determines the order *)

Section binding.
Context `{BcsSpec}.

Lemma address_bcs_raw a : address_bcs a = addr_bytes a.
Proof.
  unfold address_bcs. induction (addr_bytes a) as [|b l IH]; [done|].
  rewrite fmap_cons. simpl. by rewrite bcs_u8_raw, IH.
Qed.

Lemma address_cancel a a' r r' :
  bytes32 (addr_bytes a) → bytes32 (addr_bytes a') →
  address_bcs a ++ r = address_bcs a' ++ r' → a = a' ∧ r = r'.
Proof.
  rewrite !address_bcs_raw. intros [Hl _] [Hl' _] E.
  apply app_inj_1 in E as [E ->]; [|congruence]. split; [|done].
  destruct a, a'. simpl in *. congruence.
Qed.

(** A signable order: its fields have their types and its tokens are strings. *)
Definition signable (o : Order) : Prop := order_wf o ∧ str_wf (maker_token o) ∧ str_wf (taker_token o).

Lemma to_bcs_inj o o' : signable o → signable o' → to_bcs o = to_bcs o' → o = o'.
Proof.
  intros [(W1 & W2 & W3 & W4 & W5 & W6 & W7 & W8 & W9) [S1 S2]]
    [(V1 & V2 & V3 & V4 & V5 & V6 & V7 & V8 & V9) [T1 T2]] E. unfold to_bcs in E.
  apply bcs_str_cancel in E as [E1 E]; [|done..]. apply bcs_str_cancel in E as [E2 E]; [|done..].
  apply u64_cancel in E as [E3 E]; [|done..]. apply u64_cancel in E as [E4 E]; [|done..].
  apply u64_cancel in E as [E5 E]; [|done..].
  apply address_cancel in E as [E6 E]; [|done..]. apply address_cancel in E as [E7 E]; [|done..].
  apply address_cancel in E as [E8 E]; [|done..]. apply address_cancel in E as [E9 E]; [|done..].
  apply u64_cancel in E as [E10 E]; [|done..]. apply bcs_u64_inj in E; [|done..].
  destruct o, o'. simpl in *. congruence.
Qed.

Lemma order_preimage_inj o o' r r' :
  signable o → signable o' → bytes32 (addr_bytes r) → bytes32 (addr_bytes r') →
  order_preimage o r = order_preimage o' r' → o = o' ∧ r = r'.
Proof.
  intros Ho Ho' Hr Hr' E. unfold order_preimage in E. apply (inj (app _)) in E.
  apply (inj (app _)) in E. apply address_cancel in E as [-> E]; [|done..].
  by apply to_bcs_inj in E as ->.
Qed.
End binding.

(** * Low-s *)

(** The number a big-endian byte string denotes. *)
Definition be (l : list Z) : Z := foldl (λ n b, n * 256 + b) 0 l.

Definition secp256k1_order : Z :=
  0xfffffffffffffffffffffffffffffffebaaedce6af48a03bbfd25e8cd0364141.

Lemma foldl_be n l : foldl (λ n b, n * 256 + b) n l = n * 256 ^ len l + be l.
Proof.
  unfold be, len. revert n. induction l as [|b l IH]; intros n; [simpl; lia|].
  cbn [foldl length]. rewrite (IH (n * 256 + b)), (IH (0 * 256 + b)).
  rewrite Nat2Z.inj_succ, Z.pow_succ_r by lia. lia.
Qed.

Lemma be_cons b l : be (b :: l) = b * 256 ^ len l + be l.
Proof. unfold be at 1. cbn [foldl]. rewrite foldl_be. lia. Qed.

Lemma be_bound l : bytes l → 0 ≤ be l < 256 ^ len l.
Proof.
  induction 1 as [|b l Hb _ IH]; [done|]. rewrite be_cons. unfold len in *.
  cbn [length]. rewrite Nat2Z.inj_succ, Z.pow_succ_r by lia. nia.
Qed.

(** On byte strings of one length the slice order is the numeric order. *)
Lemma slice_le_be a : ∀ b,
  length a = length b → bytes a → bytes b → slice_le a b = (be a <=? be b).
Proof.
  induction a as [|x a IH]; intros [|y b] Hlen Ha Hb; [done..|].
  injection Hlen as Hlen. apply Forall_cons in Ha as [Hx Ha]. apply Forall_cons in Hb as [Hy Hb].
  cbn [slice_le]. rewrite !be_cons, (IH b Hlen Ha Hb).
  pose proof (be_bound a Ha). pose proof (be_bound b Hb).
  unfold len in *. rewrite Hlen in *. apply eq_true_iff_eq.
  destruct (Z.eqb_spec x y); rewrite ?Z.leb_le, ?Z.ltb_lt; [subst; lia|]. nia.
Qed.

Lemma be_half_order : be SECP256K1_HALF_ORDER = secp256k1_order / 2.
Proof. vm_compute. reflexivity. Qed.

Lemma is_low_s_spec sig :
  bytes sig → is_low_s sig = true ↔ length sig = 64%nat ∧ be (drop 32 sig) ≤ secp256k1_order / 2.
Proof.
  intros Hb. unfold is_low_s, len. rewrite andb_true_iff, Z.eqb_eq.
  split; intros [Hl Hs]; (split; [lia|]); rewrite <- be_half_order in *.
  - rewrite take_ge in Hs by (rewrite length_drop; lia). rewrite slice_le_be in Hs; [lia|..].
    + rewrite length_drop. simpl. lia.
    + by apply Forall_drop.
    + by repeat constructor.
  - rewrite take_ge by (rewrite length_drop; lia). rewrite slice_le_be; [lia|..].
    + rewrite length_drop. simpl. lia.
    + by apply Forall_drop.
    + by repeat constructor.
Qed.

(** * Properties *)

Section properties.
Context `{BcsSpec, CryptoCrates}.

(** C12: An order digest binds the whole order and the registry: two
    signable orders with one digest are the same order on the same
    registry, or their two preimages are a collision of [blake2b256]. *)
Theorem order_digest_binding o o' r r' :
  signable o → signable o' → bytes32 (addr_bytes r) → bytes32 (addr_bytes r') →
  order_digest o r = order_digest o' r' →
  (o = o' ∧ r = r') ∨
  (order_preimage o r ≠ order_preimage o' r' ∧
   blake2b256 (order_preimage o r) = blake2b256 (order_preimage o' r')).
Proof.
  intros Ho Ho' Hr Hr' [= E]. destruct (decide (order_preimage o r = order_preimage o' r')) as [Hp|]; [|auto].
  left. by apply order_preimage_inj.
Qed.

(** What [verify_signature] requires of each scheme. *)
Definition signature_valid (scheme : SignatureScheme) (message signature public_key : list Z) : Prop :=
  let d := personal_message_signing_digest message in
  length signature = 64%nat ∧
  match scheme with
  | Ed25519 => length public_key = 32%nat ∧ ed25519_key_ok public_key = true ∧
      ed25519_verify public_key d signature = true
  | Secp256k1 => length public_key = 33%nat ∧ is_low_s signature = true ∧
      k256_key_ok public_key = true ∧ k256_signature_ok signature = true ∧
      k256_verify_prehash public_key (sha256 d) signature = true
  end.

Lemma verify_signature_iff scheme message signature public_key a :
  verify_signature scheme message signature public_key = Ok a ↔
  a = derive_address scheme public_key ∧ signature_valid scheme message signature public_key.
Proof.
  unfold verify_signature, signature_valid, len. destruct (Z.eqb_spec (Z.of_nat (length signature)) 64).
  2: { split; [done|]. intros (_ & ? & _). lia. }
  simpl. split.
  - destruct scheme; intros H'; repeat (case_bool; simpl in H'; try discriminate);
      reflect_bools; injection H' as <-; (split_and!; done || lia).
  - intros (-> & _ & H'). destruct scheme.
    + destruct H' as (-> & -> & ->). done.
    + destruct H' as (-> & -> & -> & -> & ->). done.
Qed.

(** C13: [verify_order] accepts exactly the well-formed signatures over
    the order's digest on this registry by a key whose address is the
    maker or an approved signer, and then returns that digest. *)
Theorem verify_order_accepts o r scheme sig pk approved d :
  verify_order o r scheme sig pk approved = Ok d ↔
  d = order_digest o r ∧ signature_valid scheme (digest_bytes (order_digest o r)) sig pk ∧
  (derive_address scheme pk = maker o ∨ derive_address scheme pk ∈ approved).
Proof.
  unfold verify_order. destruct (verify_signature _ _ _ _) as [a|e] eqn:E.
  - apply verify_signature_iff in E as [-> Hv]. cbn [mbind result_bind].
    repeat case_bool_decide; naive_solver.
  - split; [done|]. intros (_ & Hv & _).
    assert (verify_signature scheme (digest_bytes (order_digest o r)) sig pk = Ok (derive_address scheme pk))
      as Hok by by apply verify_signature_iff. congruence.
Qed.

(** secp256k1 signatures are not malleable: when [s] is low, the twin
    signature with [n - s] is not, and is rejected as [HighS]. *)
Theorem high_s_twin_rejected message sig sig' pk :
  bytes sig → bytes sig' → length sig' = 64%nat → length pk = 33%nat →
  is_low_s sig = true → be (drop 32 sig') = secp256k1_order - be (drop 32 sig) →
  verify_signature Secp256k1 message sig' pk = Err HighS.
Proof.
  intros Hb Hb' Hl Hpk [_ Hlow]%is_low_s_spec Htwin; [|done].
  assert (is_low_s sig' = false) as Hhigh.
  { apply not_true_iff_false. rewrite is_low_s_spec by done. intros [_ Hlow'].
    assert (secp256k1_order = 2 * (secp256k1_order / 2) + 1) as Hodd by (vm_compute; reflexivity).
    generalize dependent (secp256k1_order / 2). lia. }
  unfold verify_signature, len. rewrite Hl, Hpk, Hhigh. done.
Qed.
End properties.

(** * Concrete instances *)

#[local] Existing Instance bcs_format.

(** A stand-in hash and schemes that accept one signature. *)
Definition demo_crypto : CryptoCrates := {|
  blake2b256 l := replicate 32 (Zsum_with id l mod 251);
  sha256 l := l;
  ed25519_key_ok _ := true;
  ed25519_verify pk m s := bool_decide (s = replicate 64 7);
  k256_key_ok _ := true;
  k256_signature_ok _ := true;
  k256_verify_prehash pk m s := true;
  p256_key_ok _ := true;
  p256_signature_ok _ := true;
  p256_verify_prehash pk m s := true;
|}.
#[local] Existing Instance demo_crypto.

Definition demo_key : list Z := replicate 32 3.
Definition demo_signed_order : Order :=
  mkOrder (str "0xb::b::BASE") (str "0xc::c::QUOTE") 10 20 5 (derive_address Ed25519 demo_key)
    (mkSuiAddress (replicate 32 4)) (mkSuiAddress (replicate 32 0)) (mkSuiAddress (replicate 32 0)) 99 1.
Definition demo_registry : ObjectId := mkSuiAddress (replicate 32 6).

Lemma demo_signable : signable demo_signed_order.
Proof.
  assert (∀ z, 0 ≤ z < 256 → bytes32 (replicate 32 z)) as Hr.
  { intros z Hz. split; [done|]. by apply Forall_replicate. }
  unfold signable, order_wf. split_and!.
  1-5: split; vm_compute; discriminate.
  1-4: cbn [addr_bytes maker maker_manager_id taker sender demo_signed_order derive_address blake2b256
    demo_crypto]; apply Hr; split; vm_compute; (discriminate || reflexivity).
  1-2: apply Forall_forall; intros c Hc; cbn [maker_token taker_token demo_signed_order] in Hc;
    vm_compute in Hc; repeat (apply elem_of_cons in Hc as [->|Hc]; [split; vm_compute; (discriminate || reflexivity)|]);
    by apply not_elem_of_nil in Hc.
Qed.

Lemma order_digest_binding_witness :
  (demo_signed_order = demo_signed_order ∧ demo_registry = demo_registry) ∨
  (order_preimage demo_signed_order demo_registry ≠ order_preimage demo_signed_order demo_registry ∧
   blake2b256 (order_preimage demo_signed_order demo_registry) =
   blake2b256 (order_preimage demo_signed_order demo_registry)).
Proof.
  apply (order_digest_binding demo_signed_order demo_signed_order demo_registry demo_registry);
    [apply demo_signable..| | |reflexivity];
    (split; [reflexivity|by apply Forall_replicate]).
Defined.

Lemma verify_order_accepts_witness :
  verify_order demo_signed_order demo_registry Ed25519 (replicate 64 7) demo_key [] =
    Ok (order_digest demo_signed_order demo_registry) ∧
  verify_order demo_signed_order demo_registry Ed25519 (replicate 64 8) demo_key [] = Err Invalid.
Proof.
  split; [|vm_compute; reflexivity].
  apply verify_order_accepts. split; [reflexivity|]. split; [|left; reflexivity].
  split_and!; vm_compute; reflexivity.
Defined.

Lemma high_s_twin_rejected_witness :
  verify_signature Secp256k1 [1] (replicate 32 1 ++ le_bytes 0 0 ++
    [255; 255; 255; 255; 255; 255; 255; 255; 255; 255; 255; 255; 255; 255; 255; 254;
     186; 174; 220; 230; 175; 72; 160; 59; 191; 210; 94; 140; 208; 54; 65; 64]) (replicate 33 2) = Err HighS.
Proof.
  apply (high_s_twin_rejected [1] (replicate 32 1 ++ replicate 31 0 ++ [1])).
  1-2: repeat (constructor; [split; vm_compute; (discriminate || reflexivity)|]); constructor.
  all: vm_compute; reflexivity.
Defined.
