(* ===== verification/F64.v ===== *)
(** [f64]: IEEE-754 binary64 with rounding to nearest even, on the Standard
    Library's executable specification of floating point; when a quotient is a
    number, and why numbers are totally preordered. *)

From S2P Require Import Prelude.

From Stdlib Require Import Floats.SpecFloat.

Abbreviation f64 := spec_float.
Definition f64_of_u64 (n : Z) : f64 := binary_normalize 53 1024 n 0 false.
Definition f64_div (a b : f64) : f64 := SFdiv 53 1024 a b.
Definition f64_mul (a b : f64) : f64 := SFmul 53 1024 a b.
Definition f64_sub (a b : f64) : f64 := SFsub 53 1024 a b.
Definition f64_gt (a b : f64) : bool := SFltb b a.
Definition f64_zero : f64 := S754_zero false.

(** [partial_cmp]: [None] for a NaN. *)
Definition f64_partial_cmp (a b : f64) : option comparison := SFcompare a b.

(** [x.clamp(lo, hi)]; a NaN stays one. *)
Definition f64_clamp (x lo hi : f64) : f64 :=
  let x := if SFltb x lo then lo else x in
  if SFltb hi x then hi else x.

(** * The order of numbers *)

Definition is_number (x : f64) : bool := match x with S754_nan => false | _ => true end.

(** Sign and class, exponent, mantissa. *)
Definition f64_key (x : f64) : Z * Z * Z :=
  match x with
  | S754_zero _ | S754_nan => (0, 0, 0)
  | S754_infinity s => (if s : bool then -2 else 2, 0, 0)
  | S754_finite s m e => if s : bool then (-1, -e, Z.neg m) else (1, e, Z.pos m)
  end.

Definition key_compare (a b : Z * Z * Z) : comparison :=
  match Z.compare a.1.1 b.1.1 with
  | Eq => match Z.compare a.1.2 b.1.2 with Eq => Z.compare a.2 b.2 | c => c end
  | c => c
  end.

Lemma f64_partial_cmp_key a b :
  is_number a = true → is_number b = true → f64_partial_cmp a b = Some (key_compare (f64_key a) (f64_key b)).
Proof.
  unfold f64_partial_cmp, key_compare.
  destruct a as [[]|[]| |[] m e], b as [[]|[]| |[] m' e']; try done; intros _ _; cbn.
  rewrite Z.compare_opp, (Z.compare_antisym e' e). by destruct (Z.compare e' e).
Qed.

(** [a ≤ b], as a stable sort asks. *)
Definition key_le (a b : Z * Z * Z) : bool := match key_compare a b with Gt => false | _ => true end.

Lemma key_le_spec a b :
  key_le a b = true ↔ a.1.1 < b.1.1 ∨ (a.1.1 = b.1.1 ∧ (a.1.2 < b.1.2 ∨ (a.1.2 = b.1.2 ∧ a.2 ≤ b.2))).
Proof.
  unfold key_le, key_compare.
  destruct (Z.compare_spec a.1.1 b.1.1); [|split; [lia|done]|split; [done|lia]].
  destruct (Z.compare_spec a.1.2 b.1.2); [|split; [lia|done]|split; [done|lia]].
  destruct (Z.compare_spec a.2 b.2); split; (done || lia).
Qed.

Lemma key_le_trans a b c : key_le a b = true → key_le b c = true → key_le a c = true.
Proof. rewrite !key_le_spec. lia. Qed.

Lemma key_le_total a b : key_le a b = false → key_le b a = true.
Proof.
  intros Hn. destruct (key_le b a) eqn:E; [done|].
  assert (¬ key_le a b = true) as Ha by (by rewrite Hn). assert (¬ key_le b a = true) as Hb by (by rewrite E).
  rewrite key_le_spec in Ha, Hb. lia.
Qed.

(** * Quotients are numbers *)

Lemma shr_1_nonneg r : 0 ≤ shr_m r → 0 ≤ shr_m (shr_1 r).
Proof. destruct r as [[|[]|] ? ?]; cbn; lia. Qed.

Lemma iter_shr_nonneg n r : 0 ≤ shr_m r → 0 ≤ shr_m (SpecFloat.iter_pos shr_1 n r).
Proof.
  revert r. induction n as [n IH|n IH|]; intros r Hr; cbn [SpecFloat.iter_pos]; auto using shr_1_nonneg.
Qed.

Lemma shr_record_of_loc_m m l : shr_m (shr_record_of_loc m l) = m.
Proof. by destruct l as [|[]]. Qed.

Lemma shr_fexp_nonneg m e l : 0 ≤ m → 0 ≤ shr_m (shr_fexp 53 1024 m e l).1.
Proof.
  intros Hm. unfold shr_fexp, shr. destruct (_ - e); cbn [fst]; [by rewrite shr_record_of_loc_m| |by rewrite shr_record_of_loc_m].
  apply iter_shr_nonneg. by rewrite shr_record_of_loc_m.
Qed.

Lemma round_nearest_even_nonneg m l : 0 ≤ m → 0 ≤ round_nearest_even m l.
Proof. intros Hm. destruct l as [|[]]; cbn; [lia| |lia..]. destruct (Z.even m); lia. Qed.

Lemma binary_round_aux_number s m e l : 0 ≤ m → is_number (binary_round_aux 53 1024 s m e l) = true.
Proof.
  intros Hm. unfold binary_round_aux.
  pose proof (shr_fexp_nonneg m e l Hm) as H1. destruct (shr_fexp 53 1024 m e l) as [r1 e1]. cbn [fst] in H1.
  pose proof (shr_fexp_nonneg _ e1 loc_Exact (round_nearest_even_nonneg _ (loc_of_shr_record r1) H1)) as H2.
  destruct (shr_fexp _ _ _ e1 _) as [r2 e2]. cbn [fst] in H2.
  destruct (shr_m r2); [done| |lia]. by destruct (_ <=? _).
Qed.

Lemma f64_div_number a m e : is_number a = true → is_number (f64_div a (S754_finite false m e)) = true.
Proof.
  unfold f64_div. destruct a as [s|s| |s m' e']; try done. intros _. unfold SFdiv, SFdiv_core_binary. cbv zeta.
  match goal with |- context [Z.div_eucl ?x ?y] => assert (0 ≤ x) as Hx; [|assert (0 ≤ (Z.div_eucl x y).1) as Hq] end.
  - destruct (_ - _ - _); [done|by apply Z.shiftl_nonneg|done].
  - by apply Z.div_pos.
  - destruct (Z.div_eucl _ _) as [q r]. by apply binary_round_aux_number.
Qed.

(** ** The conversion of a positive [u64] is finite *)

Lemma digits2_pos_log2 p : Z.pos (digits2_pos p) = Z.log2 (Z.pos p) + 1.
Proof.
  assert (digits2_pos p = Pos.size p) as -> by (induction p as [p IH|p IH|]; cbn; by rewrite ?IH).
  destruct p; cbn; lia.
Qed.

Lemma Zdigits2_log2 m : 0 < m → Zdigits2 m = Z.log2 m + 1.
Proof. destruct m; try lia. intros _. apply digits2_pos_log2. Qed.

Lemma shr_1_div r : 0 ≤ shr_m r → shr_m (shr_1 r) = shr_m r / 2.
Proof. destruct r as [m ? ?]. rewrite <- Z.div2_div. by destruct m as [|[]|]. Qed.

Lemma iter_shr_div n r : 0 ≤ shr_m r → shr_m (SpecFloat.iter_pos shr_1 n r) = shr_m r / 2 ^ Z.pos n.
Proof.
  revert r. induction n as [n IH|n IH|]; intros r Hr; cbn [SpecFloat.iter_pos].
  - rewrite !IH, shr_1_div; auto using shr_1_nonneg, iter_shr_nonneg.
    rewrite !Z.div_div by lia. f_equal. rewrite Pos2Z.inj_xI, Z.add_1_r, Z.pow_succ_r, Z.pow_twice_r by lia. lia.
  - rewrite !IH; auto using iter_shr_nonneg. rewrite !Z.div_div by lia. f_equal.
    rewrite <- Z.pow_add_r by lia. f_equal. lia.
  - by apply shr_1_div.
Qed.

(** A mantissa is shifted to at most 53 digits, and stays positive. *)
Lemma shr_fexp_small m e l :
  0 < m → -53 ≤ e ≤ 64 → Z.log2 m ≤ 64 →
  let '(r, e') := shr_fexp 53 1024 m e l in 0 < shr_m r ∧ Z.log2 (shr_m r) ≤ 52 ∧ -53 ≤ e' ≤ Z.max e (e + Z.log2 m - 52).
Proof.
  intros Hm He Hl. unfold shr_fexp, fexp, emin. rewrite Zdigits2_log2 by done.
  replace (Z.max (Z.log2 m + 1 + e - 53) (3 - 1024 - 53) - e) with (Z.max (Z.log2 m - 52) (-1074 - e)) by lia.
  pose proof (Z.log2_nonneg m).
  destruct (Z.max (Z.log2 m - 52) (-1074 - e)) as [|n|n] eqn:En; cbn [shr]; rewrite ?shr_record_of_loc_m; try lia.
  rewrite iter_shr_div by (rewrite shr_record_of_loc_m; lia). rewrite shr_record_of_loc_m.
  rewrite <- Z.shiftr_div_pow2, Z.log2_shiftr by lia.
  rewrite Z.shiftr_div_pow2 by lia. pose proof (Z.log2_spec m Hm) as [Hpow _].
  assert (2 ^ Z.pos n ≤ m) by (etransitivity; [|exact Hpow]; apply Z.pow_le_mono_r; lia).
  split; [apply Z.div_str_pos; lia|lia].
Qed.

Lemma iter_xO p d : Z.pos (Pos.iter xO p d) = Z.pos p * 2 ^ Z.pos d.
Proof.
  induction d as [|d IH] using Pos.peano_ind; [cbn; lia|].
  rewrite Pos.iter_succ, Pos2Z.inj_succ, Z.pow_succ_r, Pos2Z.inj_xO by lia. lia.
Qed.

Lemma shl_align_small p :
  Z.log2 (Z.pos p) ≤ 63 →
  let '(mz, ez) := shl_align p 0 (fexp 53 1024 (Z.pos (digits2_pos p) + 0)) in
  Z.log2 (Z.pos mz) ≤ 63 ∧ -53 ≤ ez ≤ 0.
Proof.
  intros Hp. unfold fexp, emin, shl_align. rewrite digits2_pos_log2. pose proof (Z.log2_nonneg (Z.pos p)).
  replace (Z.max (Z.log2 (Z.pos p) + 1 + 0 - 53) (3 - 1024 - 53)) with (Z.log2 (Z.pos p) - 52) by lia.
  rewrite Z.sub_0_r. destruct (Z.log2 (Z.pos p) - 52) as [|d|d] eqn:Ed; [lia|lia|].
  rewrite iter_xO, Z.log2_mul_pow2 by lia. lia.
Qed.

Lemma f64_of_u64_finite n : 0 < n → u64 n → ∃ m e, f64_of_u64 n = S754_finite false m e.
Proof.
  intros Hn [_ Hmax]. destruct n as [|p|]; try lia.
  assert (Z.log2 (Z.pos p) ≤ 63) as Hp.
  { apply Z.lt_succ_r. apply Z.log2_lt_pow2; unfold u64_max in *; lia. }
  unfold f64_of_u64, binary_normalize, binary_round. pose proof (shl_align_small p Hp) as Hs.
  destruct (shl_align _ _ _) as [mz ez]. destruct Hs as [Hm He]. unfold binary_round_aux.
  pose proof (shr_fexp_small (Z.pos mz) ez loc_Exact ltac:(lia) ltac:(lia) ltac:(lia)) as H1.
  destruct (shr_fexp 53 1024 (Z.pos mz) ez loc_Exact) as [r1 e1]. destruct H1 as (Hr1 & Hl1 & He1).
  set (m2 := round_nearest_even _ _).
  assert (0 < m2 ∧ Z.log2 m2 ≤ 53) as [Hm2 Hl2].
  { assert (shr_m r1 ≤ m2 ≤ shr_m r1 + 1) as Hle.
    { unfold m2. destruct (loc_of_shr_record r1) as [|[]]; cbn; [lia| |lia..]. destruct (Z.even _); lia. }
    split; [lia|]. transitivity (Z.log2 (Z.succ (shr_m r1))); [apply Z.log2_le_mono; lia|].
    pose proof (Z.log2_succ_le (shr_m r1)). lia. }
  pose proof (shr_fexp_small m2 e1 loc_Exact ltac:(lia) ltac:(lia) ltac:(lia)) as H2.
  destruct (shr_fexp 53 1024 m2 e1 loc_Exact) as [r2 e2]. destruct H2 as (Hr2 & _ & He2).
  destruct (shr_m r2); try lia. rewrite (proj2 (Z.leb_le _ _)) by lia. eauto.
Qed.

(** ** Clamping *)

Lemma f64_clamp_number x lo hi :
  is_number x = true → is_number lo = true → is_number hi = true → is_number (f64_clamp x lo hi) = true.
Proof. intros Hx Hlo Hhi. unfold f64_clamp. by repeat case_match. Qed.

Lemma f64_sub_zero x : is_number x = true → is_number (f64_sub x f64_zero) = true.
Proof. by destruct x as [[]|[]| |[] m e]. Qed.
