(* ===== verification/Router.v ===== *)
(** [crates/exchange-router]: the multi-hop split-route planner.  A
    definition returns [None] where the source panics (division by zero) or
    where a loop would run out of fuel; [plan_route_total] in
    [RouterTheorems] shows that neither happens on well-formed ladders. *)

From S2P Require Import Prelude F64 RustStr ExchangeTypes.

Definition checked_div (a b : Z) : option Z := if b =? 0 then None else Some (a / b).

Record LiquiditySegment := mkSegment { sg_digest : Digest; max_in : Z; num : Z; den : Z }.

Definition out_for_in (s : LiquiditySegment) (input : Z) : option Z :=
  q ← checked_div (u128_mul input (num s)) (den s); Some (wrap64 q).

Definition seg_rate (s : LiquiditySegment) : f64 := f64_div (f64_of_u64 (num s)) (f64_of_u64 (den s)).

Record HopLadder := mkLadder {
  lad_market : ObjectId;
  from : rstring;
  to : rstring;
  segments : list LiquiditySegment;
}.

Record RouterConfig := mkRouterConfig { max_hops : nat; max_paths : nat }.
Definition RouterConfig_default : RouterConfig := mkRouterConfig 3 4.

Record FillLeg := mkLeg { leg_digest : Digest; amount_in : Z }.

Record PathPlan := mkPathPlan {
  pp_tokens : list rstring;
  pp_markets : list ObjectId;
  pp_input : Z;
  pp_expected_out : Z;
  pp_hops : list (list FillLeg);
}.

Record RoutePlan := mkRoutePlan {
  rp_input : Z;
  unrouted : Z;
  rp_expected_out : Z;
  paths : list PathPlan;
}.

Inductive RouterError := NoPath (from to : rstring) | ZeroInput.

(** * Path enumeration *)

(** [dfs]; [hops_left] is [max_hops - stack.len()]. *)
Fixpoint dfs (ladders : list HopLadder) (target : rstring) (hops_left : nat) (here : rstring)
    (visited : list rstring) (stack : list HopLadder) : list (list HopLadder) :=
  if bool_decide (here = target) then (if bool_decide (stack = []) then [] else [stack])
  else match hops_left with
  | O => []
  | S n =>
      flat_map (λ l,
        if bool_decide (from l = here) && negb (bool_decide (to l ∈ visited)) then
          dfs ladders target n (to l) (visited ++ [to l]) (stack ++ [l])
        else []) ladders
  end.

Definition enumerate_paths (ladders : list HopLadder) (start target : rstring) (hops : nat)
    : list (list HopLadder) :=
  dfs ladders target hops start [start] [].

(** * One path's staircase *)

Abbreviation amounts := (gmap Digest Z).

Record PathState := mkPathState {
  ps_hops : list HopLadder;
  consumed : list amounts;
  ps_input : Z;
  ps_out : Z;
}.

Definition PathState_new (hops : list HopLadder) : PathState :=
  mkPathState hops (replicate (length hops) ∅) 0 0.

(** The loop of [gcd]; [gcd_loop_gcd] shows that 257 iterations are enough
    for [u128] arguments. *)
Fixpoint gcd_loop (fuel : nat) (a b : Z) : Z :=
  match fuel with
  | O => a
  | S fuel' => if b =? 0 then a else gcd_loop fuel' b (a mod b)
  end.
Definition gcd (a b : Z) : Z := Z.max (gcd_loop 257 a b) 1.

(** [segment_capacity] of a segment of a hop that consumed [used]. *)
Definition segment_capacity (used : amounts) (seg : LiquiditySegment) (budget : amounts) : Z :=
  let global := default (max_in seg) (budget !! sg_digest seg) in
  let local_used := default 0 (used !! sg_digest seg) in
  Z.min global (u64_saturating_sub (max_in seg) local_used).

Definition live_segment (hop : HopLadder) (used budget : amounts) : option LiquiditySegment :=
  List.find (λ s, 0 <? segment_capacity used s budget) (segments hop).

(** The loop of [head] from some hop on; the inner [None] is exhaustion. *)
Fixpoint head_loop (budget : amounts) (hops : list (HopLadder * amounts))
    (rate : f64) (cap up_num up_den : Z) : option (option (f64 * Z)) :=
  match hops with
  | [] => Some (if cap =? 0 then None else Some (rate, cap))
  | (hop, used) :: hops' =>
      match live_segment hop used budget with
      | None => Some None
      | Some seg =>
          let local_cap := segment_capacity used seg budget in
          translated ← checked_div (u128_saturating_mul local_cap up_den) up_num;
          let cap := Z.min cap (Z.min translated u64_max) in
          let rate := f64_mul rate (seg_rate seg) in
          let up_num := u128_saturating_mul up_num (num seg) in
          let up_den := u128_saturating_mul up_den (den seg) in
          let g := gcd up_num up_den in
          head_loop budget hops' rate cap (up_num / g) (up_den / g)
      end
  end.

Definition head (st : PathState) (budget : amounts) : option (option (f64 * Z)) :=
  head_loop budget (zip (ps_hops st) (consumed st)) (f64_of_u64 1) u64_max 1 1.

(** The [while hop_in_left > 0] loop of [allocate]: a segment is exhausted
    in every iteration but the last. *)
Fixpoint fill_hop (fuel : nat) (hop : HopLadder) (used budget : amounts) (hop_in_left hop_out : Z)
    : option (amounts * amounts * Z) :=
  match fuel with
  | O => None
  | S fuel' =>
      if 0 <? hop_in_left then
        match live_segment hop used budget with
        | None => Some (used, budget, hop_out)
        | Some seg =>
            let cap := segment_capacity used seg budget in
            let take := Z.min hop_in_left cap in
            if take =? 0 then Some (used, budget, hop_out) else
            o ← out_for_in seg take;
            let d := sg_digest seg in
            let used := <[d := u64_add (default 0 (used !! d)) take]> used in
            let budget := <[d := u64_sub (default (max_in seg) (budget !! d)) take]> budget in
            fill_hop fuel' hop used budget (u64_sub hop_in_left take) (u64_add hop_out o)
        end
      else Some (used, budget, hop_out)
  end.

(** The [for i in 0..self.hops.len()] loop of [allocate]: the output of a
    hop is the input of the next. *)
Fixpoint allocate_hops (hops : list (HopLadder * amounts)) (budget : amounts) (flow : Z)
    : option (list amounts * amounts * Z) :=
  match hops with
  | [] => Some ([], budget, flow)
  | (hop, used) :: hops' =>
      '(used', budget', out) ← fill_hop (S (length (segments hop))) hop used budget flow 0;
      '(useds, budget'', flow') ← allocate_hops hops' budget' out;
      Some (used' :: useds, budget'', flow')
  end.

Definition allocate (st : PathState) (chunk : Z) (budget : amounts) : option (PathState * amounts) :=
  '(consumed', budget', flow) ← allocate_hops (zip (ps_hops st) (consumed st)) budget chunk;
  Some (mkPathState (ps_hops st) consumed' (u64_add (ps_input st) chunk) (u64_add (ps_out st) flow), budget').

(** * The planner *)

(** The [for (i, st) in states.iter().enumerate()] loop. *)
Fixpoint best_state (i : nat) (states : list PathState) (budget : amounts)
    (best : option (nat * f64 * Z)) : option (option (nat * f64 * Z)) :=
  match states with
  | [] => Some best
  | st :: states' =>
      h ← head st budget;
      let best' :=
        match h with
        | None => best
        | Some (rate, cap) =>
            if match best with Some (_, r, _) => f64_gt rate r | None => true end
            then Some (i, rate, cap) else best
        end in
      best_state (S i) states' budget best'
  end.

(** The [while remaining > 0] loop; every iteration routes something. *)
Fixpoint plan_loop (fuel : nat) (states : list PathState) (budget : amounts) (remaining : Z)
    : option (list PathState * amounts * Z) :=
  match fuel with
  | O => None
  | S fuel' =>
      if 0 <? remaining then
        best ← best_state 0 states budget None;
        match best with
        | None => Some (states, budget, remaining)
        | Some (i, _, cap) =>
            let chunk := Z.min remaining cap in
            st ← states !! i;
            '(st', budget') ← allocate st chunk budget;
            plan_loop fuel' (<[i := st']> states) budget' (u64_sub remaining chunk)
        end
      else Some (states, budget, remaining)
  end.

(** [budget.entry(s.digest).or_insert(s.max_in)] over all segments. *)
Definition add_budget (budget : amounts) (s : LiquiditySegment) : amounts :=
  match budget !! sg_digest s with Some _ => budget | None => <[sg_digest s := max_in s]> budget end.
Definition initial_budget (ladders : list HopLadder) : amounts :=
  foldl add_budget ∅ (flat_map segments ladders).

Definition hop_legs (hop : HopLadder) (m : amounts) : list FillLeg :=
  omap (λ s, mkLeg (sg_digest s) <$> m !! sg_digest s) (segments hop).

Definition path_plan (st : PathState) : PathPlan :=
  mkPathPlan
    (match ps_hops st with h :: _ => [from h] | [] => [] end ++ (to <$> ps_hops st))
    (lad_market <$> ps_hops st) (ps_input st) (ps_out st)
    (zip_with hop_legs (ps_hops st) (consumed st)).

Definition routed (states : list PathState) : list PathState :=
  List.filter (λ st, negb (ps_input st =? 0)) states.

Definition plan_route (ladders : list HopLadder) (start target : rstring) (amount : Z)
    (config : RouterConfig) : option (result RouterError RoutePlan) :=
  if amount =? 0 then Some (Err ZeroInput) else
  let candidates := enumerate_paths ladders start target (max_hops config) in
  if bool_decide (candidates = []) then Some (Err (NoPath start target)) else
  let candidates := sort_by (λ p q, (length p <=? length q)%nat) candidates in
  let candidates := take (max_paths config) candidates in
  let states := PathState_new <$> candidates in
  let budget := initial_budget ladders in
  '(states, _, remaining) ← plan_loop (S (Z.to_nat amount)) states budget amount;
  Some (Ok (mkRoutePlan (u64_sub amount remaining) remaining
    (foldl (λ acc st, u64_add acc (ps_out st)) 0 (routed states))
    (path_plan <$> routed states))).
