(* ===== verification/RouterTheorems.v ===== *)
(** The route planner: it never panics and terminates on well-formed ladders,
    never plans more against an order than it can absorb, and accounts for its
    whole input; with concrete instances. *)

From S2P Require Import Prelude F64 RustStr ExchangeTypes Router.

(** * Euclid *)

Lemma gcd_loop_gcd k : ∀ a b f,
  0 ≤ a → 0 ≤ b < 2 ^ Z.of_nat k → (2 * k + 1 ≤ f)%nat → gcd_loop f a b = Z.gcd a b.
Proof.
  induction k as [|k IH]; intros a b f Ha Hb Hf.
  - simpl in Hb. replace b with 0 by lia. destruct f; [lia|]. simpl. rewrite Z.gcd_0_r. lia.
  - destruct f as [|[|f]]; [lia..|]. rewrite Nat2Z.inj_succ, Z.pow_succ_r in Hb by lia.
    cbn [gcd_loop]. destruct (Z.eqb_spec b 0) as [->|Hb0]; [rewrite Z.gcd_0_r; lia|].
    pose proof (Z.mod_pos_bound a b ltac:(lia)).
    destruct (Z.eqb_spec (a mod b) 0) as [Hr|Hr].
    { rewrite Z.gcd_comm, <- Z.gcd_mod, Hr, Z.gcd_0_l by lia. lia. }
    rewrite IH; [|lia| |lia].
    + by rewrite (Z.gcd_comm (a mod b)), !Z.gcd_mod, Z.gcd_comm by lia.
    + pose proof (Z.mod_pos_bound b (a mod b) ltac:(lia)).
      pose proof (Z.div_mod b (a mod b) ltac:(lia)).
      assert (1 ≤ b / (a mod b)) by (apply Z.div_le_lower_bound; lia). nia.
Qed.

Lemma gcd_pos_divides a b : 0 < a ≤ u128_max → 0 < b ≤ u128_max → 1 ≤ a / gcd a b ≤ a ∧ 1 ≤ b / gcd a b ≤ b.
Proof.
  intros Ha Hb. unfold gcd. rewrite (gcd_loop_gcd 128) by (unfold u128_max in *; lia).
  pose proof (Z.gcd_nonneg a b).
  assert (Z.gcd a b ≠ 0) by (intros E%Z.gcd_eq_0_l; lia). rewrite Z.max_l by lia.
  assert (∀ g n, 0 < g → (g | n) → 1 ≤ n → 1 ≤ n / g ≤ n) as Hz.
  { intros g n Hg [z ->] Hn. rewrite Z.div_mul by lia. nia. }
  split; (apply Hz; [lia| |lia]); [apply Z.gcd_divide_l|apply Z.gcd_divide_r].
Qed.

(** * Amounts per digest *)

Definition amt (m : amounts) (d : Digest) : Z := default 0 (m !! d).

Definition seg_wf (s : LiquiditySegment) : Prop := u64 (max_in s) ∧ 0 < num s ≤ u64_max ∧ 0 < den s ≤ u64_max.
Definition hop_wf (h : HopLadder) : Prop := Forall seg_wf (segments h).

(** Every segment of the hop has its order budgeted. *)
Definition budgeted (budget : amounts) (h : HopLadder) : Prop :=
  ∀ s, s ∈ segments h → is_Some (budget !! sg_digest s).

(** What one hop consumed and what is left are within [u64] together. *)
Definition amounts_ok (used budget : amounts) : Prop :=
  ∀ d, 0 ≤ amt used d ∧ 0 ≤ amt budget d ∧ amt used d + amt budget d ≤ u64_max.

Lemma amt_insert m d v d' : amt (<[d := v]> m) d' = if decide (d' = d) then v else amt m d'.
Proof.
  unfold amt. case_decide; [subst; by rewrite lookup_insert_eq|by rewrite lookup_insert_ne].
Qed.

Lemma capacity_amt used seg budget :
  is_Some (budget !! sg_digest seg) →
  segment_capacity used seg budget =
  Z.min (amt budget (sg_digest seg)) (u64_saturating_sub (max_in seg) (amt used (sg_digest seg))).
Proof. intros [b Hb]. unfold segment_capacity, amt. by rewrite Hb. Qed.

(** Taking [t] of digest [d]: the moved amounts. *)
Definition use (d : Digest) (t : Z) (m : amounts) : amounts := <[d := amt m d + t]> m.
Definition spend (d : Digest) (t : Z) (m : amounts) : amounts := <[d := amt m d - t]> m.

Section fill.
Context (hop : HopLadder).

Lemma live_segment_Some used budget seg :
  live_segment hop used budget = Some seg → seg ∈ segments hop ∧ 0 < segment_capacity used seg budget.
Proof. intros (l1 & l2 & -> & H & _)%bfind_Some. split; [set_solver|]. simpl in H. lia. Qed.

Lemma live_segment_None used budget :
  live_segment hop used budget = None → ∀ s, s ∈ segments hop → segment_capacity used s budget ≤ 0.
Proof. intros H s Hs. unfold live_segment in H. rewrite bfind_None in H. specialize (H s Hs). simpl in H. lia. Qed.

Lemma seg_of seg : hop_wf hop → seg ∈ segments hop → seg_wf seg.
Proof. unfold hop_wf. rewrite Forall_forall. auto. Qed.

(** How many segments can still absorb something. *)
Definition live_count (used budget : amounts) : nat :=
  length (List.filter (λ s, 0 <? segment_capacity used s budget) (segments hop)).

Lemma filter_length_lt {A} (f g : A → bool) l x :
  (∀ y, g y = true → f y = true) → x ∈ l → f x = true → g x = false →
  (length (List.filter g l) < length (List.filter f l))%nat.
Proof.
  intros Hgf Hx Hf Hg.
  assert (∀ l, (length (List.filter g l) ≤ length (List.filter f l))%nat) as Hle.
  { intros k. induction k as [|y k IH]; simpl; [done|]. destruct (g y) eqn:E.
    - rewrite (Hgf y E). simpl. lia.
    - destruct (f y); simpl; lia. }
  induction l as [|y l IH]; [set_solver|]. apply elem_of_cons in Hx as [->|Hx]; simpl.
  - rewrite Hf, Hg. simpl. specialize (Hle l). lia.
  - specialize (IH Hx). destruct (g y) eqn:E; [rewrite (Hgf y E); simpl; lia|]. destruct (f y); simpl; lia.
Qed.

Context {used budget : amounts} (Hok : amounts_ok used budget) (Hb : budgeted budget hop).

(** One iteration of the loop. *)
Lemma take_step seg t :
  seg ∈ segments hop → 0 ≤ t ≤ segment_capacity used seg budget →
  let d := sg_digest seg in
  <[d := u64_add (default 0 (used !! d)) t]> used = use d t used ∧
  <[d := u64_sub (default (max_in seg) (budget !! d)) t]> budget = spend d t budget ∧
  amounts_ok (use d t used) (spend d t budget) ∧ budgeted (spend d t budget) hop ∧
  (∀ d', amt (use d t used) d' + amt (spend d t budget) d' = amt used d' + amt budget d').
Proof.
  intros Hin Ht d. pose proof (Hb seg Hin) as Hs. rewrite capacity_amt in Ht by done.
  pose proof (Hok d) as Hd. unfold u64_saturating_sub in Ht. fold d in Ht.
  split_and!.
  - unfold use. f_equal. apply u64_add_small. unfold u64. fold (amt used d). lia.
  - unfold spend. f_equal. destruct Hs as [v Hv]. fold d in Hv. unfold amt in *. rewrite Hv in *.
    simpl in *. apply u64_sub_small. unfold u64. lia.
  - intros d'. unfold use, spend. rewrite !amt_insert. case_decide; [lia|]. apply Hok.
  - intros s Hs'. unfold spend. destruct (decide (sg_digest s = d)) as [->|];
      [by rewrite lookup_insert_eq|rewrite lookup_insert_ne by done; by apply Hb].
  - intros d'. unfold use, spend. rewrite !amt_insert. case_decide; subst; lia.
Qed.

Lemma live_count_step seg t :
  seg ∈ segments hop → 0 < segment_capacity used seg budget → t = segment_capacity used seg budget →
  (live_count (use (sg_digest seg) t used) (spend (sg_digest seg) t budget) < live_count used budget)%nat.
Proof.
  intros Hin Hpos Ht. set (d := sg_digest seg).
  destruct (take_step seg t Hin ltac:(lia)) as (_ & _ & Hok' & Hb' & _).
  assert (∀ s, s ∈ segments hop →
    segment_capacity (use d t used) s (spend d t budget) =
    if decide (sg_digest s = d)
    then Z.min (amt budget d - t) (u64_saturating_sub (max_in s) (amt used d + t))
    else segment_capacity used s budget) as Hcap.
  { intros s Hs. rewrite !capacity_amt by auto. unfold use, spend. rewrite !amt_insert.
    by case_decide as E; rewrite ?E. }
  rewrite capacity_amt in Hpos, Ht by auto. fold d in Hpos, Ht.
  unfold live_count.
  assert (∀ l, (∀ s, s ∈ l → s ∈ segments hop) →
    List.filter (λ s, 0 <? segment_capacity (use d t used) s (spend d t budget)) l =
    List.filter (λ s, 0 <? if decide (sg_digest s = d)
      then Z.min (amt budget d - t) (u64_saturating_sub (max_in s) (amt used d + t))
      else segment_capacity used s budget) l) as Hf.
  { induction l as [|s l IH]; intros Hl; [done|]. simpl. rewrite Hcap by set_solver. by rewrite IH by set_solver. }
  rewrite Hf by done. apply (filter_length_lt _ _ _ seg); [|done| |].
  - intros s. case_decide as E; [|done]. unfold segment_capacity. rewrite E.
    fold (amt used d). destruct (Hb seg Hin) as [v Hv]. fold d in Hv. unfold amt in *. rewrite Hv in *.
    unfold u64_saturating_sub in *. simpl in *. lia.
  - rewrite capacity_amt by auto. fold d. lia.
  - rewrite decide_True by done. unfold u64_saturating_sub in *. lia.
Qed.
End fill.

(** What filling one hop preserves and moves. *)
Definition moves (hop : HopLadder) (used budget used' budget' : amounts) : Prop :=
  amounts_ok used' budget' ∧ budgeted budget' hop ∧
  (∀ d, amt used' d + amt budget' d = amt used d + amt budget d) ∧
  (∀ d, is_Some (budget !! d) → is_Some (budget' !! d)) ∧
  (∀ d, amt budget' d ≤ amt budget d).

Lemma out_for_in_Some s n : seg_wf s → ∃ o, out_for_in s n = Some o.
Proof.
  intros (_ & _ & Hd). unfold out_for_in, checked_div.
  destruct (Z.eqb_spec (den s) 0); [lia|]. simpl. eauto.
Qed.

Lemma fill_hop_total hop fuel : ∀ used budget left out,
  hop_wf hop → amounts_ok used budget → budgeted budget hop → u64 left →
  (0 < fuel)%nat → (0 < left → (live_count hop used budget < fuel)%nat) →
  ∃ used' budget' out', fill_hop fuel hop used budget left out = Some (used', budget', out') ∧
    moves hop used budget used' budget' ∧ (u64 out → u64 out').
Proof.
  induction fuel as [|fuel IH]; intros used budget left out Hwf Hok Hb Hl Hf0 Hf; [lia|].
  assert (moves hop used budget used budget) as Hid by (split_and!; [done|done|done|done|lia]).
  cbn [fill_hop]. destruct (Z.ltb_spec 0 left); [|by eauto 10].
  destruct (live_segment hop used budget) as [seg|] eqn:El; [|by eauto 10].
  destruct (live_segment_Some hop _ _ _ El) as [Hin Hpos].
  set (t := Z.min left (segment_capacity used seg budget)).
  destruct (Z.eqb_spec t 0); [lia|].
  destruct (out_for_in_Some seg t (seg_of hop seg Hwf Hin)) as [o ->]. cbn [mbind option_bind].
  destruct (take_step hop Hok Hb seg t Hin ltac:(lia)) as (-> & -> & Hok' & Hb' & Hsum).
  unfold u64 in Hl. rewrite (u64_sub_small left t) by (unfold u64; lia).
  assert (live_count hop used budget ≠ 0)%nat as Hne.
  { intros Hz. assert (seg ∈ List.filter (λ s, 0 <? segment_capacity used s budget) (segments hop)) as Hs
      by (apply elem_of_bfilter; split; [done|lia]).
    unfold live_count in Hz. apply nil_length_inv in Hz. rewrite Hz in Hs. set_solver. }
  destruct (IH (use (sg_digest seg) t used) (spend (sg_digest seg) t budget) (left - t) (u64_add out o))
    as (u' & b' & o' & E & (Hok2 & Hb2 & Hs2 & Hd2 & Hle2) & Hout); try done; [unfold u64; lia|lia| |].
  - intros Hleft. pose proof (live_count_step hop Hok Hb seg t Hin Hpos ltac:(lia)). lia.
  - exists u', b', o'. split; [done|]. split; [|intros _; apply Hout, wrap64_range]. split_and!; [done|done| | |].
    + intros d. by rewrite Hs2, Hsum.
    + intros d Hd. apply Hd2. unfold spend. destruct (decide (d = sg_digest seg)) as [->|];
        [by rewrite lookup_insert_eq|by rewrite lookup_insert_ne].
    + intros d. etransitivity; [apply Hle2|]. unfold spend. rewrite amt_insert. case_decide; [subst; lia|done].
Qed.

(** A flow that the live segment can absorb is consumed by it alone. *)
Lemma fill_hop_single hop fuel used budget left out seg used' budget' out' :
  amounts_ok used budget → budgeted budget hop →
  live_segment hop used budget = Some seg → 0 < left ≤ segment_capacity used seg budget →
  fill_hop (S (S fuel)) hop used budget left out = Some (used', budget', out') →
  used' = use (sg_digest seg) left used.
Proof.
  intros Hok Hb El Hl. destruct (live_segment_Some hop _ _ _ El) as [Hin _].
  cbn [fill_hop]. rewrite (proj2 (Z.ltb_lt _ _)), El, Z.min_l by lia.
  rewrite (proj2 (Z.eqb_neq _ _)) by lia. destruct (out_for_in seg left) as [o|]; [|done].
  cbn [mbind option_bind].
  destruct (take_step hop Hok Hb seg left Hin ltac:(lia)) as (-> & -> & _).
  rewrite u64_sub_small by (unfold u64, u64_max; lia). rewrite Z.sub_diag. simpl. by intros [= <- _ _].
Qed.

(** * One path *)

Definition path_used (useds : list amounts) (d : Digest) : Z := Zsum_with (λ m, amt m d) useds.

Definition path_ok (useds : list amounts) (budget : amounts) : Prop :=
  (∀ m d, m ∈ useds → 0 ≤ amt m d) ∧
  ∀ d, 0 ≤ amt budget d ∧ path_used useds d + amt budget d ≤ u64_max.

Lemma path_used_cons m ms d : path_used (m :: ms) d = amt m d + path_used ms d.
Proof. exact (Zsum_with_cons (λ m, amt m d) m ms). Qed.

Lemma path_used_nonneg useds d : (∀ m d, m ∈ useds → 0 ≤ amt m d) → 0 ≤ path_used useds d.
Proof. intros H. apply Zsum_with_nonneg. auto. Qed.

Lemma path_ok_cons m ms budget :
  path_ok (m :: ms) budget → amounts_ok m budget ∧ path_ok ms budget.
Proof.
  intros [Hn Hb]. assert (∀ m d, m ∈ ms → 0 ≤ amt m d) as Hn' by (intros; apply Hn; set_solver).
  split; [|split; [done|]]; intros d; specialize (Hb d); rewrite path_used_cons in Hb;
    pose proof (Hn m d ltac:(set_solver)); pose proof (path_used_nonneg ms d Hn'); lia.
Qed.

Lemma live_count_bound hop used budget : (live_count hop used budget < S (length (segments hop)))%nat.
Proof. unfold live_count. pose proof (bfilter_length (λ s, 0 <? segment_capacity used s budget) (segments hop)). lia. Qed.

Lemma allocate_hops_total hops : ∀ useds budget flow,
  length useds = length hops → Forall hop_wf hops → Forall (budgeted budget) hops →
  path_ok useds budget → u64 flow →
  ∃ useds' budget' flow',
    allocate_hops (zip hops useds) budget flow = Some (useds', budget', flow') ∧
    length useds' = length hops ∧ path_ok useds' budget' ∧ u64 flow' ∧
    (∀ d, path_used useds' d + amt budget' d = path_used useds d + amt budget d) ∧
    (∀ d, is_Some (budget !! d) → is_Some (budget' !! d)).
Proof.
  induction hops as [|h hops IH]; intros [|m ms] budget flow Hlen Hwf Hb Hok Hfl; try done.
  { exists [], budget, flow. done. }
  apply Forall_cons in Hwf as [Hwf Hwfs]. apply Forall_cons in Hb as [Hb Hbs].
  destruct (path_ok_cons _ _ _ Hok) as [Hm Hms]. injection Hlen as Hlen.
  destruct (fill_hop_total h (S (length (segments h))) m budget flow 0 Hwf Hm Hb Hfl) as
    (m' & b' & out & E & (Hok1 & Hb1 & Hs1 & Hd1 & Hle1) & Hout); [lia|intros _; apply live_count_bound|].
  destruct (IH ms b' out Hlen Hwfs) as (ms' & b2 & fl' & E2 & Hl2 & Hok2 & Hf2 & Hs2 & Hd2).
  - eapply Forall_impl; [exact Hbs|]. intros h' Hh' s Hs. by apply Hd1, Hh'.
  - split; [apply Hms|]. intros d. destruct (Hok1 d) as (? & ? & ?).
    specialize (Hs1 d). destruct Hok as [_ Hok]. specialize (Hok d). rewrite path_used_cons in Hok. lia.
  - by apply Hout.
  - exists (m' :: ms'), b2, fl'. cbn [zip zip_with allocate_hops]. rewrite E. cbn [mbind option_bind].
    rewrite E2. cbn [mbind option_bind]. split; [done|]. split; [simpl; lia|].
    assert (∀ d, path_used (m' :: ms') d + amt b2 d = path_used (m :: ms) d + amt budget d) as Hsum.
    { intros d. rewrite !path_used_cons. specialize (Hs1 d). specialize (Hs2 d). lia. }
    split; [|split; [done|split; [done|auto]]]. split.
    + intros x d [->|Hx]%elem_of_cons; [apply (Hok1 d)|by apply Hok2].
    + intros d. rewrite Hsum. split; [apply (proj2 Hok2)|apply (proj2 Hok)].
Qed.

(** * The head of a path *)

Lemma u128_satmul_pos a b : 1 ≤ a ≤ u128_max → 1 ≤ b → 1 ≤ u128_saturating_mul a b ≤ u128_max.
Proof.
  intros Ha Hb. unfold u128_saturating_mul. split; [|apply Z.le_min_r].
  apply Z.min_glb; [nia|unfold u128_max; lia].
Qed.

Lemma u128_satmul_nonneg a b : 0 ≤ a → 0 ≤ b → 0 ≤ u128_saturating_mul a b.
Proof. intros. apply Z.min_glb; [nia|unfold u128_max; lia]. Qed.

(** The upstream rate stays a positive [u128] fraction. *)
Lemma up_step seg un ud :
  seg_wf seg → 1 ≤ un ≤ u128_max → 1 ≤ ud ≤ u128_max →
  let un' := u128_saturating_mul un (num seg) in
  let ud' := u128_saturating_mul ud (den seg) in
  1 ≤ un' / gcd un' ud' ≤ u128_max ∧ 1 ≤ ud' / gcd un' ud' ≤ u128_max.
Proof.
  intros (_ & Hnum & Hden) Hun Hud un' ud'.
  pose proof (u128_satmul_pos un (num seg) Hun ltac:(lia)) as Hn.
  pose proof (u128_satmul_pos ud (den seg) Hud ltac:(lia)) as Hd.
  destruct (gcd_pos_divides un' ud'); unfold un', ud' in *; lia.
Qed.

Lemma head_loop_total budget hops : ∀ rate cap un ud,
  Forall (λ hm, hop_wf hm.1) hops → 1 ≤ un ≤ u128_max → 1 ≤ ud ≤ u128_max → 0 ≤ cap →
  ∃ r, head_loop budget hops rate cap un ud = Some r ∧
       ∀ rate' cap', r = Some (rate', cap') → 0 < cap' ≤ cap.
Proof.
  induction hops as [|[h m] hops IH]; intros rate cap un ud Hwf Hun Hud Hcap; cbn [head_loop].
  - eexists. split; [done|]. destruct (Z.eqb_spec cap 0); intros ?? [=]; subst; lia.
  - destruct (live_segment h m budget) as [seg|] eqn:El; [|by eexists].
    apply Forall_cons in Hwf as [Hwf Hwfs]. destruct (live_segment_Some h _ _ _ El) as [Hin Hpos].
    destruct (seg_of h seg Hwf Hin) as (_ & Hnum & Hden).
    unfold checked_div. rewrite (proj2 (Z.eqb_neq _ _)) by lia. cbn [mbind option_bind].
    set (tr := u128_saturating_mul _ ud / un).
    assert (0 ≤ tr) as Htr.
    { apply Z.div_pos; [apply u128_satmul_nonneg; lia|lia]. }
    destruct (up_step seg un ud (seg_of h seg Hwf Hin) Hun Hud) as [Hn' Hd'].
    destruct (IH (f64_mul rate (seg_rate seg)) (Z.min cap (Z.min tr u64_max)) _ _ Hwfs Hn' Hd')
      as (r & Hr & Hcap').
    + unfold u64_max. lia.
    + exists r. split; [exact Hr|]. intros rate' cap' Heq. specialize (Hcap' _ _ Heq). lia.
Qed.

(** The chunk of a head fits the live segment of the first hop. *)
Lemma head_first_hop budget h m hops rate rate' cap' :
  hop_wf h → amounts_ok m budget → budgeted budget h → Forall (λ hm, hop_wf hm.1) hops →
  head_loop budget ((h, m) :: hops) rate u64_max 1 1 = Some (Some (rate', cap')) →
  ∃ seg, live_segment h m budget = Some seg ∧ 0 < cap' ≤ segment_capacity m seg budget.
Proof.
  intros Hwf Hok Hb Hwfs. cbn [head_loop]. destruct (live_segment h m budget) as [seg|] eqn:El; [|done].
  destruct (live_segment_Some h _ _ _ El) as [Hin Hpos]. destruct (seg_of h seg Hwf Hin) as (Hmax & Hnum & Hden).
  assert (segment_capacity m seg budget ≤ u64_max) as Hle.
  { rewrite capacity_amt by by apply Hb. specialize (Hok (sg_digest seg)). lia. }
  unfold checked_div. simpl (1 =? 0). cbn [mbind option_bind]. rewrite Z.div_1_r.
  replace (u128_saturating_mul (segment_capacity m seg budget) 1) with (segment_capacity m seg budget)
    by (unfold u128_saturating_mul, u128_max, u64_max in *; lia).
  assert (1 ≤ 1 ≤ u128_max) as H1 by (unfold u128_max; lia).
  destruct (up_step seg 1 1 (seg_of h seg Hwf Hin) H1 H1) as [Hn' Hd'].
  intros Hh. exists seg. split; [done|].
  destruct (head_loop_total budget hops (f64_mul rate (seg_rate seg))
    (Z.min u64_max (Z.min (segment_capacity m seg budget) u64_max)) _ _ Hwfs Hn' Hd') as (r & Hr & Hc);
    [unfold u64_max in *; lia|].
  rewrite Hr in Hh. injection Hh as ->. specialize (Hc _ _ eq_refl). lia.
Qed.

(** * The planner's invariant *)

Definition ladder_wf (h : HopLadder) : Prop :=
  hop_wf h ∧ NoDup (sg_digest <$> segments h).

(** What the first hop of a path consumed. *)
Definition first_used (st : PathState) : Z :=
  match ps_hops st, consumed st with
  | h :: _, m :: _ => Zsum_with (λ s, amt m (sg_digest s)) (segments h)
  | _, _ => 0
  end.

Lemma first_used_use h m s t :
  NoDup (sg_digest <$> segments h) → s ∈ segments h →
  Zsum_with (λ x, amt (use (sg_digest s) t m) (sg_digest x)) (segments h) =
  Zsum_with (λ x, amt m (sg_digest x)) (segments h) + t.
Proof.
  intros Hnd Hin. unfold use.
  induction (segments h) as [|x l IH]; [set_solver|]. rewrite !Zsum_with_cons.
  rewrite fmap_cons, NoDup_cons in Hnd. destruct Hnd as [Hnin Hnd].
  apply elem_of_cons in Hin as [->|Hin].
  - rewrite amt_insert, decide_True by done.
    rewrite (Zsum_with_ext _ (λ x, amt m (sg_digest x)) l); [lia|].
    intros y Hy. rewrite amt_insert, decide_False; [done|]. intros E. apply Hnin. rewrite <- E.
    by apply list_elem_of_fmap_2.
  - rewrite IH by done. rewrite amt_insert, decide_False; [lia|]. intros E. apply Hnin. rewrite E.
    by apply list_elem_of_fmap_2.
Qed.

Record state_ok (budget : amounts) (st : PathState) : Prop := {
  so_ne : ps_hops st ≠ [];
  so_len : length (consumed st) = length (ps_hops st);
  so_wf : Forall ladder_wf (ps_hops st);
  so_budgeted : Forall (budgeted budget) (ps_hops st);
  so_used m d : m ∈ consumed st → 0 ≤ amt m d;
  so_input : 0 ≤ ps_input st;
  so_first : first_used st = ps_input st;
}.

Definition st_used (d : Digest) (st : PathState) : Z := path_used (consumed st) d.
Definition total_used (states : list PathState) (d : Digest) : Z := Zsum_with (st_used d) states.
Definition total_input (states : list PathState) : Z := Zsum_with ps_input states.

Record plan_inv (B0 : amounts) (amount : Z) (states : list PathState) (budget : amounts)
    (remaining : Z) : Prop := {
  pi_states st : st ∈ states → state_ok budget st;
  pi_budget d : 0 ≤ amt budget d;
  pi_used d : total_used states d + amt budget d = amt B0 d;
  pi_bound d : amt B0 d ≤ u64_max;
  pi_amount : 0 ≤ remaining ∧ total_input states + remaining = amount ∧ amount ≤ u64_max;
}.

Lemma ladder_wf_hops hops : Forall ladder_wf hops → Forall hop_wf hops.
Proof. intros H. eapply Forall_impl; [exact H|]. by intros h []. Qed.

Lemma zip_wf (hops : list HopLadder) (useds : list amounts) :
  Forall hop_wf hops → Forall (λ hm, hop_wf hm.1) (zip hops useds).
Proof.
  intros H. apply Forall_forall. intros [h m] Hin%elem_of_zip_l. rewrite Forall_forall in H. by apply H.
Qed.

Section step.
Context (budget : amounts) (st : PathState) (Hst : state_ok budget st).
Context (Hok : path_ok (consumed st) budget).

Lemma head_total :
  ∃ r, head st budget = Some r ∧ ∀ rate cap, r = Some (rate, cap) → 0 < cap ≤ u64_max.
Proof.
  apply head_loop_total; [|unfold u128_max, u64_max; lia..].
  apply zip_wf, ladder_wf_hops, (so_wf _ _ Hst).
Qed.

Lemma allocate_ok rate cap chunk :
  head st budget = Some (Some (rate, cap)) → 0 < chunk ≤ cap → cap ≤ u64_max →
  ps_input st + chunk ≤ u64_max →
  ∃ st' budget', allocate st chunk budget = Some (st', budget') ∧
    state_ok budget' st' ∧ ps_hops st' = ps_hops st ∧ ps_input st' = ps_input st + chunk ∧
    (∀ d, st_used d st' + amt budget' d = st_used d st + amt budget d) ∧
    (∀ d, 0 ≤ amt budget' d) ∧
    (∀ d, is_Some (budget !! d) → is_Some (budget' !! d)).
Proof.
  destruct Hst as [Hne Hlen Hwf Hb Hused Hin Hfirst]. unfold head, allocate.
  intros Hh Hc Hcap Hbound.
  destruct (allocate_hops_total (ps_hops st) (consumed st) budget chunk Hlen (ladder_wf_hops _ Hwf) Hb Hok)
    as (us & b' & fl & E & Hl' & Hok' & Hfl & Hsum & Hdom); [unfold u64; lia|].
  rewrite E. cbn [mbind option_bind]. eexists _, _. split; [done|].
  rewrite u64_add_small by (unfold u64; lia).
  split; [|split_and!; [done|done|exact Hsum|apply Hok'|done]].
  split; simpl; [done|done|done| |by apply Hok'|lia|].
  { eapply Forall_impl; [exact Hb|]. intros h Hh' s Hs. by apply Hdom, Hh'. }
  unfold first_used in *. simpl.
  destruct (ps_hops st) as [|h hs]; [done|]. destruct (consumed st) as [|m ms]; [done|].
  apply Forall_cons in Hwf as [[Hw Hnd] Hws]. apply Forall_cons in Hb as [Hb Hbs].
  destruct (path_ok_cons _ _ _ Hok) as [Hm _].
  destruct (head_first_hop budget h m (zip hs ms) (f64_of_u64 1) rate cap Hw Hm Hb) as (seg & El & Hcs);
    [by apply zip_wf, ladder_wf_hops|done|].
  cbn [zip zip_with allocate_hops] in E.
  destruct (fill_hop _ h m budget chunk 0) as [[[m1 b1] o1]|] eqn:Ef; [|done]. cbn [mbind option_bind] in E.
  destruct (allocate_hops (zip hs ms) b1 o1) as [[[us1 b2] f2]|]; [|done]. cbn [mbind option_bind] in E.
  injection E as <- <- <-.
  destruct (live_segment_Some h _ _ _ El) as [Hs _].
  assert (∃ n, S (length (segments h)) = S (S n)) as [n Hn].
  { destruct (segments h); [set_solver|]. simpl. eauto. }
  rewrite Hn in Ef. apply (fill_hop_single h n m budget chunk 0 seg) in Ef; [|done|done|done|lia].
  subst m1. rewrite first_used_use by done. lia.
Qed.
End step.

Lemma total_used_bound B0 amount states budget remaining st :
  plan_inv B0 amount states budget remaining → st ∈ states → path_ok (consumed st) budget.
Proof.
  intros Hinv Hst. destruct (pi_states _ _ _ _ _ Hinv st Hst) as [_ _ _ _ Hused _ _].
  split; [done|]. intros d. split; [apply (pi_budget _ _ _ _ _ Hinv)|].
  pose proof (pi_used _ _ _ _ _ Hinv d). pose proof (pi_bound _ _ _ _ _ Hinv d).
  assert (st_used d st ≤ total_used states d); [|unfold st_used in *; lia].
  apply (Zsum_with_elem (st_used d)); [|done]. intros st' Hst'. apply path_used_nonneg.
  intros m d'. apply (so_used _ _ (pi_states _ _ _ _ _ Hinv st' Hst')).
Qed.

(** * The planner's loop *)

Lemma best_state_total budget (states0 : list PathState) : ∀ states i best,
  (∀ st, st ∈ states → state_ok budget st ∧ path_ok (consumed st) budget) →
  (∀ j st, states !! j = Some st → states0 !! (i + j)%nat = Some st) →
  (∀ j r c, best = Some (j, r, c) → ∃ st, states0 !! j = Some st ∧ head st budget = Some (Some (r, c))) →
  ∃ b, best_state i states budget best = Some b ∧
    ∀ j r c, b = Some (j, r, c) → ∃ st, states0 !! j = Some st ∧ head st budget = Some (Some (r, c)).
Proof.
  induction states as [|st states IH]; intros i best Hok Hidx Hbest; cbn [best_state]; [eauto|].
  destruct (Hok st) as [Hst Hp]; [set_solver|].
  destruct (head_total budget st Hst) as (r & Hr & _). rewrite Hr. cbn [mbind option_bind].
  apply IH; [intros x Hx; apply Hok, elem_of_cons; by right| |].
  - intros j st' Hj. replace (S i + j)%nat with (i + S j)%nat by lia. by apply Hidx.
  - intros j r' c Hb. destruct r as [[rate cap]|]; [|by apply Hbest].
    case_bool; [|by apply Hbest]. simplify_eq. exists st. split; [|done].
    specialize (Hidx 0%nat st eq_refl). by rewrite Nat.add_0_r in Hidx.
Qed.

Lemma plan_loop_total B0 amount fuel : ∀ states budget remaining,
  plan_inv B0 amount states budget remaining → (Z.to_nat remaining < fuel)%nat →
  ∃ states' budget' remaining',
    plan_loop fuel states budget remaining = Some (states', budget', remaining') ∧
    plan_inv B0 amount states' budget' remaining' ∧ ps_hops <$> states' = ps_hops <$> states.
Proof.
  induction fuel as [|fuel IH]; intros states budget remaining Hinv Hf; [lia|]. cbn [plan_loop].
  destruct (Z.ltb_spec 0 remaining); [|by eauto 10].
  destruct (best_state_total budget states states 0 None) as (b & -> & Hb).
  { intros st Hst. split; [by apply (pi_states _ _ _ _ _ Hinv)|by eapply total_used_bound]. }
  { done. }
  { done. }
  cbn [mbind option_bind]. destruct b as [[[i rate] cap]|]; [|by eauto 10].
  destruct (Hb i rate cap eq_refl) as (st & Hi & Hh). rewrite Hi. cbn [mbind option_bind].
  apply list_elem_of_lookup_2 in Hi as Hst.
  pose proof (pi_states _ _ _ _ _ Hinv st Hst) as Hso. pose proof (total_used_bound _ _ _ _ _ _ Hinv Hst) as Hpo.
  destruct (head_total budget st Hso) as (r & Hr & Hcap). rewrite Hh in Hr. injection Hr as <-.
  specialize (Hcap rate cap eq_refl). destruct (pi_amount _ _ _ _ _ Hinv) as (Hr0 & Hsum & Ham).
  assert (∀ st, st ∈ states → 0 ≤ ps_input st) as Hins by (intros; by eapply so_input, pi_states).
  pose proof (Zsum_with_elem ps_input states st Hins Hst).
  pose proof (Zsum_with_nonneg ps_input states Hins). fold (total_input states) in *.
  destruct (allocate_ok budget st Hso Hpo rate cap (Z.min remaining cap) Hh)
    as (st' & b' & -> & Hso' & Hhops & Hin' & Hus & Hpos & Hdom); [lia|lia|lia|].
  cbn [mbind option_bind]. rewrite u64_sub_small by (unfold u64; lia).
  destruct (IH (<[i := st']> states) b' (remaining - Z.min remaining cap)) as (s2 & b2 & r2 & E & Hinv2 & Hh2).
  - split.
    + intros x Hx. apply list_elem_of_lookup in Hx as [j Hj].
      rewrite list_lookup_insert in Hj. case_decide; [by simplify_eq|].
      apply list_elem_of_lookup_2 in Hj. destruct (pi_states _ _ _ _ _ Hinv x Hj). split; try done.
      eapply Forall_impl; [done|]. intros h Hh' s Hs. by apply Hdom, Hh'.
    + done.
    + intros d. unfold total_used. rewrite (Zsum_with_insert _ _ _ _ _ Hi).
      specialize (Hus d). pose proof (pi_used _ _ _ _ _ Hinv d). unfold total_used in *. lia.
    + apply (pi_bound _ _ _ _ _ Hinv).
    + unfold total_input in *. rewrite (Zsum_with_insert _ _ _ _ _ Hi). lia.
  - lia.
  - exists s2, b2, r2. split; [done|]. split; [done|]. rewrite Hh2, list_fmap_insert, Hhops.
    apply list_insert_id. by rewrite list_lookup_fmap, Hi.
Qed.

(** * Paths *)

(** A route: each ladder starts where the one before ended. *)
Fixpoint is_chain (here target : rstring) (p : list HopLadder) : Prop :=
  match p with
  | [] => here = target
  | l :: p' => from l = here ∧ is_chain (to l) target p'
  end.

Lemma is_chain_last here target p l : is_chain here target (p ++ [l]) → to l = target.
Proof. revert here. induction p as [|x p IH]; simpl; intros here [_ H]; [done|by eapply IH]. Qed.

(** At the target the path so far is complete. *)
Lemma chain_home target p : is_chain target target p → target ∉ to <$> p → p = [].
Proof.
  destruct p as [|l p _] using rev_ind; [done|]. intros Hc%is_chain_last Hn.
  destruct Hn. rewrite fmap_app, <- Hc. set_solver.
Qed.

Definition extends (ladders : list HopLadder) (target : rstring) (n : nat) (here : rstring)
    (visited : list rstring) (stack p : list HopLadder) : Prop :=
  ∃ q, p = stack ++ q ∧ p ≠ [] ∧ is_chain here target q ∧ (length q ≤ n)%nat ∧
    (∀ l, l ∈ q → l ∈ ladders ∧ to l ∉ visited) ∧ NoDup (to <$> q).

Lemma extends_home ladders target n visited stack p :
  target ∈ visited →
  p ∈ (if bool_decide (stack = []) then [] else [stack]) ↔ extends ladders target n target visited stack p.
Proof.
  intros Ht. unfold extends. split.
  - case_bool_decide; [set_solver|]. intros ->%list_elem_of_singleton. exists [].
    rewrite app_nil_r. split_and!; try done; [simpl; lia|set_solver|constructor].
  - intros (q & -> & Hne & Hc & _ & Hq & _). apply chain_home in Hc as ->.
    + rewrite app_nil_r in *. rewrite bool_decide_false by done. set_solver.
    + intros (l & E & Hl)%list_elem_of_fmap. destruct (Hq l Hl) as [_ Hn]. by rewrite <- E in Hn.
Qed.

Lemma dfs_exact ladders target n : ∀ here visited stack p,
  here ∈ visited →
  p ∈ dfs ladders target n here visited stack ↔ extends ladders target n here visited stack p.
Proof.
  induction n as [|n IH]; intros here visited stack p Hhere; cbn [dfs];
    (case_bool_decide as Ht; [subst here; by apply extends_home|]).
  - rewrite elem_of_nil. split; [done|]. intros ([|l q] & -> & _ & Hc & Hl & _); simpl in *; [done|lia].
  - rewrite list_elem_of_In, in_flat_map. split.
    + intros (l & Hl%list_elem_of_In & Hp). destruct (bool_decide (from l = here) && _) eqn:E; [|done].
      reflect_bools. apply list_elem_of_In, IH in Hp; [|set_solver].
      destruct Hp as (q & -> & Hne & Hc & Hlen & Hq & Hnd). exists (l :: q).
      rewrite <- app_assoc in *. split_and!; try done; [simpl; lia| |].
      * intros x [->|Hx]%elem_of_cons; [done|]. destruct (Hq x Hx). set_solver.
      * rewrite fmap_cons. apply NoDup_cons. split; [|done]. intros (x & E & Hx)%list_elem_of_fmap.
        destruct (Hq x Hx). rewrite <- E in *. set_solver.
    + intros ([|l q] & -> & Hne & Hc & Hlen & Hq & Hnd); [done|]. destruct Hc as [Hf Hc].
      destruct (Hq l) as [Hl Hto]; [set_solver|]. exists l. split; [by apply list_elem_of_In|].
      rewrite bool_decide_true, bool_decide_false by done. simpl.
      apply list_elem_of_In, IH; [set_solver|]. exists q. rewrite <- app_assoc.
      rewrite fmap_cons, NoDup_cons in Hnd. destruct Hnd as [Hnin Hnd].
      split_and!; try done; [simpl in *; lia|]. intros x Hx. destruct (Hq x) as [? Hx']; [set_solver|].
      split; [done|]. rewrite not_elem_of_app, list_elem_of_singleton. split; [done|].
      intros E. apply Hnin. rewrite <- E. by apply list_elem_of_fmap_2.
Qed.

(** * From the plan back to the states *)

Lemma fold_budget_Some segs : ∀ m d v,
  foldl add_budget m segs !! d = Some v →
  m !! d = Some v ∨ ∃ s, s ∈ segs ∧ sg_digest s = d ∧ max_in s = v.
Proof.
  induction segs as [|s segs IH]; intros m d v H; [auto|]. simpl in H.
  apply IH in H as [H|(s' & ? & ? & ?)]; [|right; exists s'; set_solver].
  unfold add_budget in H. destruct (m !! sg_digest s) eqn:E; [auto|].
  apply lookup_insert_Some in H as [[<- <-]|[_ H]]; [|auto]. right. exists s. set_solver.
Qed.

Lemma fold_budget_is_Some segs : ∀ m d,
  is_Some (m !! d) ∨ d ∈ sg_digest <$> segs → is_Some (foldl add_budget m segs !! d).
Proof.
  induction segs as [|s segs IH]; intros m d H; simpl; [destruct H; [done|set_solver]|].
  apply IH. unfold add_budget. destruct (decide (d = sg_digest s)) as [->|Hne].
  - left. destruct (m !! sg_digest s) eqn:E; [by rewrite E|]. by rewrite lookup_insert_eq.
  - destruct H as [H|H]; [left|right; set_solver].
    destruct (m !! sg_digest s); [done|]. by rewrite lookup_insert_ne.
Qed.

Section initial.
Context (ladders : list HopLadder) (Hwf : Forall ladder_wf ladders).

Lemma initial_bound d : 0 ≤ amt (initial_budget ladders) d ≤ u64_max.
Proof.
  unfold amt. destruct (initial_budget ladders !! d) as [v|] eqn:E; simpl; [|unfold u64_max; lia].
  apply fold_budget_Some in E as [E|(s & Hs & _ & <-)]; [by rewrite lookup_empty in E|].
  apply list_elem_of_In, in_flat_map in Hs as (h & Hh%list_elem_of_In & Hs%list_elem_of_In).
  rewrite Forall_forall in Hwf. destruct (Hwf h Hh) as [Hw _]. unfold hop_wf in Hw.
  rewrite Forall_forall in Hw. apply (Hw s Hs).
Qed.

Lemma initial_budgeted h : h ∈ ladders → budgeted (initial_budget ladders) h.
Proof.
  intros Hh s Hs. apply fold_budget_is_Some. right. apply list_elem_of_fmap_2.
  apply list_elem_of_In, in_flat_map. exists h. by rewrite <- !list_elem_of_In.
Qed.

Lemma initial_state hops :
  hops ≠ [] → (∀ h, h ∈ hops → h ∈ ladders) → state_ok (initial_budget ladders) (PathState_new hops).
Proof.
  intros Hne Hin. split; simpl; [done|by rewrite length_replicate|..|done|].
  - apply Forall_forall. intros h Hh. rewrite Forall_forall in Hwf. auto.
  - apply Forall_forall. intros h Hh. by apply initial_budgeted, Hin.
  - intros m d [-> _]%elem_of_replicate. unfold amt. by rewrite lookup_empty.
  - unfold first_used. simpl. destruct hops as [|h hops]; [done|]. simpl.
    induction (segments h) as [|s l IH]; [done|]. rewrite Zsum_with_cons, IH. unfold amt.
    by rewrite lookup_empty.
Qed.

Lemma initial_inv cands amount :
  u64 amount → (∀ p, p ∈ cands → p ≠ [] ∧ ∀ h, h ∈ p → h ∈ ladders) →
  plan_inv (initial_budget ladders) amount (PathState_new <$> cands) (initial_budget ladders) amount.
Proof.
  intros Ha Hc. split.
  - intros st (p & -> & Hp)%list_elem_of_fmap. destruct (Hc p Hp). by apply initial_state.
  - intros d. apply initial_bound.
  - intros d. unfold total_used. rewrite Zsum_with_fmap.
    rewrite Zsum_with_0; [done|]. intros p _. apply Zsum_with_0. intros m [-> _]%elem_of_replicate.
    unfold amt. by rewrite lookup_empty.
  - intros d. apply initial_bound.
  - destruct Ha. split; [done|]. split; [|done]. unfold total_input. rewrite Zsum_with_fmap.
    by rewrite Zsum_with_0.
Qed.
End initial.

(** What the plan takes from the order [d]. *)
Definition hop_planned (d : Digest) (legs : list FillLeg) : Z :=
  Zsum_with (λ l, if bool_decide (leg_digest l = d) then amount_in l else 0) legs.
Definition path_planned (d : Digest) (p : PathPlan) : Z := Zsum_with (hop_planned d) (pp_hops p).
Definition planned (d : Digest) (plan : RoutePlan) : Z := Zsum_with (path_planned d) (paths plan).

Definition leg_of (m : amounts) (s : LiquiditySegment) : option FillLeg :=
  mkLeg (sg_digest s) <$> m !! sg_digest s.

Lemma hop_legs_elem h m l : l ∈ hop_legs h m → ∃ s, s ∈ segments h ∧ leg_digest l = sg_digest s.
Proof.
  intros (s & Hs & Hl)%list_elem_of_omap. exists s. split; [done|].
  destruct (m !! sg_digest s); simplify_eq/=; done.
Qed.

Lemma hop_legs_NoDup h m : NoDup (sg_digest <$> segments h) → NoDup (leg_digest <$> hop_legs h m).
Proof.
  unfold hop_legs. induction (segments h) as [|s l IH]; simpl; [done|].
  rewrite NoDup_cons. intros [Hnin Hnd]. destruct (m !! sg_digest s) as [v|]; simpl; [|auto].
  apply NoDup_cons. split; [|auto]. intros (x & E & (s' & Hs' & Hx)%list_elem_of_omap)%list_elem_of_fmap.
  apply Hnin. destruct (m !! sg_digest s'); simplify_eq/=. rewrite E. by apply list_elem_of_fmap_2.
Qed.

Lemma hop_legs_total h m : Zsum_with amount_in (hop_legs h m) = Zsum_with (λ s, amt m (sg_digest s)) (segments h).
Proof.
  unfold hop_legs. induction (segments h) as [|s l IH]; [done|]. rewrite Zsum_with_cons, omap_cons.
  unfold amt at 1. destruct (m !! sg_digest s) as [v|]; cbn [fmap option_fmap option_map default];
    rewrite ?Zsum_with_cons, IH; simpl; lia.
Qed.

Lemma hop_planned_le h m d :
  NoDup (sg_digest <$> segments h) → (∀ d, 0 ≤ amt m d) → hop_planned d (hop_legs h m) ≤ amt m d.
Proof.
  unfold hop_legs, hop_planned. intros Hnd Hpos.
  assert (∀ l : list LiquiditySegment, d ∉ sg_digest <$> l →
    Zsum_with (λ l, if bool_decide (leg_digest l = d) then amount_in l else 0)
      (omap (λ s, mkLeg (sg_digest s) <$> m !! sg_digest s) l) = 0) as Hz.
  { induction l as [|s l IH]; [done|]. rewrite fmap_cons, not_elem_of_cons, omap_cons. intros [Hne Hnin].
    destruct (m !! sg_digest s); cbn [fmap option_fmap option_map]; [|auto].
    rewrite Zsum_with_cons, IH by done. simpl. by rewrite bool_decide_false by congruence. }
  induction (segments h) as [|s l IH]; [apply Hpos|].
  rewrite fmap_cons, NoDup_cons in Hnd. destruct Hnd as [Hnin Hnd]. rewrite omap_cons.
  destruct (m !! sg_digest s) as [v|] eqn:E; cbn [fmap option_fmap option_map]; [|auto].
  rewrite Zsum_with_cons. simpl.
  case_bool_decide as Hd; [|specialize (IH Hnd); lia]. subst d. rewrite Hz by done.
  unfold amt. rewrite E. simpl. lia.
Qed.

Lemma path_planned_le budget st d : state_ok budget st → path_planned d (path_plan st) ≤ st_used d st.
Proof.
  intros [_ Hlen Hwf _ Hused _ _]. unfold path_planned, path_plan, st_used, path_used. simpl.
  revert Hlen Hwf Hused. generalize (consumed st) as ms.
  induction (ps_hops st) as [|h hs IH]; intros [|m ms] Hlen Hwf Hused; try done.
  simpl. rewrite !Zsum_with_cons. apply Forall_cons in Hwf as [[_ Hnd] Hwf]. injection Hlen as Hlen.
  pose proof (hop_planned_le h m d Hnd (λ d, Hused m d ltac:(apply elem_of_cons; by left))).
  specialize (IH ms Hlen Hwf (λ m' d' Hm, Hused m' d' ltac:(apply elem_of_cons; by right))). lia.
Qed.

Lemma routed_input states :
  (∀ st, st ∈ states → 0 ≤ ps_input st) → Zsum_with ps_input (routed states) = total_input states.
Proof.
  intros _. unfold routed, total_input. apply Zsum_with_filter0. intros st _ H. reflect_bools. done.
Qed.

(** The candidate paths the planner considers. *)
Definition candidates_of (ladders : list HopLadder) (start target : rstring) (config : RouterConfig)
    : list (list HopLadder) :=
  take (max_paths config)
    (sort_by (λ p q, (length p <=? length q)%nat) (enumerate_paths ladders start target (max_hops config))).

Lemma enumerate_paths_elem ladders start target hops p :
  p ∈ enumerate_paths ladders start target hops ↔
  p ≠ [] ∧ is_chain start target p ∧ (length p ≤ hops)%nat ∧ (∀ l, l ∈ p → l ∈ ladders) ∧
  NoDup (start :: (to <$> p)).
Proof.
  unfold enumerate_paths. rewrite dfs_exact by set_solver. unfold extends. rewrite NoDup_cons. split.
  - intros (q & -> & Hne & Hc & Hl & Hq & Hnd). simpl in *. split_and!; try done.
    + intros l Hin. by apply Hq.
    + intros (l & E & Hin)%list_elem_of_fmap. destruct (Hq l Hin). set_solver.
  - intros (Hne & Hc & Hl & Hin & Hnin & Hnd). exists p. split_and!; try done. intros l Hl'.
    split; [auto|]. intros E%list_elem_of_singleton. apply Hnin. rewrite <- E. by apply list_elem_of_fmap_2.
Qed.

Lemma candidates_elem_of ladders start target config p :
  p ∈ candidates_of ladders start target config → p ∈ enumerate_paths ladders start target (max_hops config).
Proof. unfold candidates_of. intros H%(subseteq_take _ _). by rewrite sort_by_perm in H. Qed.

(** What [plan_route] returns when there is something to route. *)
Lemma plan_route_states ladders start target amount config :
  Forall ladder_wf ladders → u64 amount → amount ≠ 0 →
  enumerate_paths ladders start target (max_hops config) ≠ [] →
  ∃ states budget remaining,
    plan_route ladders start target amount config =
      Some (Ok (mkRoutePlan (amount - remaining) remaining
        (foldl (λ acc st, u64_add acc (ps_out st)) 0 (routed states)) (path_plan <$> routed states))) ∧
    plan_inv (initial_budget ladders) amount states budget remaining ∧
    ps_hops <$> states = candidates_of ladders start target config.
Proof.
  intros Hwf Ha Hne Hen. unfold plan_route. rewrite (proj2 (Z.eqb_neq _ _)), bool_decide_false by done.
  fold (candidates_of ladders start target config).
  destruct (plan_loop_total (initial_budget ladders) amount (S (Z.to_nat amount))
    (PathState_new <$> candidates_of ladders start target config) (initial_budget ladders) amount)
    as (states & b & r & -> & Hinv & Hh); [|lia|].
  - apply initial_inv; [done|done|]. intros p Hp%candidates_elem_of%enumerate_paths_elem. naive_solver.
  - cbn [mbind option_bind]. exists states, b, r.
    destruct (pi_amount _ _ _ _ _ Hinv) as (Hr & Hsum & _).
    rewrite u64_sub_small.
    + split; [done|]. split; [done|]. rewrite Hh, <- list_fmap_compose. apply list_fmap_id.
    + assert (0 ≤ total_input states); [|unfold u64 in *; lia].
      apply Zsum_with_nonneg. intros st Hst. by eapply so_input, pi_states.
Qed.

Lemma routed_elem states st : st ∈ routed states → st ∈ states ∧ ps_input st ≠ 0.
Proof. intros [Hin H]%elem_of_bfilter. split; [done|]. by reflect_bools. Qed.

(** C15: The dedup constraint: whatever the split, the legs a plan emits
    against one order never add up to more than the order can absorb, over
    all hops of all paths; and a hop has at most one leg per order. *)
Theorem plan_within_budgets ladders start target amount config plan :
  Forall ladder_wf ladders → u64 amount →
  plan_route ladders start target amount config = Some (Ok plan) →
  (∀ d, planned d plan ≤ default 0 (initial_budget ladders !! d)) ∧
  ∀ p hop, p ∈ paths plan → hop ∈ pp_hops p → NoDup (leg_digest <$> hop).
Proof.
  intros Hwf Ha Hplan. pose proof Hplan as Hp. unfold plan_route in Hp.
  destruct (Z.eqb_spec amount 0); [done|]. case_bool_decide as He; [done|]. clear Hp.
  destruct (plan_route_states ladders start target amount config Hwf Ha n He)
    as (states & b & r & E & Hinv & _). rewrite Hplan in E. injection E as ->. split.
  - intros d. unfold planned. simpl. rewrite Zsum_with_fmap.
    pose proof (pi_used _ _ _ _ _ Hinv d) as Hu. pose proof (pi_budget _ _ _ _ _ Hinv d).
    change (default 0 (initial_budget ladders !! d)) with (amt (initial_budget ladders) d).
    transitivity (Zsum_with (st_used d) (routed states)).
    + apply Zsum_with_le. intros st [Hst _]%routed_elem. eapply path_planned_le, pi_states; eauto.
    + assert (Zsum_with (st_used d) (routed states) ≤ total_used states d); [|lia].
      assert (∀ st, st ∈ states → 0 ≤ st_used d st) as Hpos.
      { intros st Hst. apply path_used_nonneg. intros m d'. eapply so_used, pi_states; eauto. }
      clear -Hpos. unfold routed, total_used. induction states as [|st l IH]; [done|]. simpl.
      pose proof (Hpos st ltac:(set_solver)). specialize (IH ltac:(set_solver)).
      case_bool; rewrite ?Zsum_with_cons; lia.
  - intros p hop (st & -> & [Hst _]%routed_elem)%list_elem_of_fmap Hhop. simpl in Hhop.
    apply elem_of_lookup_zip_with in Hhop as (i & h & m & -> & Hi & _).
    apply hop_legs_NoDup. apply list_elem_of_lookup_2 in Hi.
    pose proof (so_wf _ _ (pi_states _ _ _ _ _ Hinv st Hst)) as Hw. rewrite Forall_forall in Hw.
    by apply Hw.
Qed.

(** C16: The planner is total: on well-formed ladders it never divides by
    zero and its loops terminate; it fails exactly when nothing is to be
    routed or no simple chain of at most [max_hops] ladders leads to the
    target, and otherwise returns a plan. *)
Theorem plan_route_total ladders start target amount config :
  Forall ladder_wf ladders → u64 amount →
  ∃ r, plan_route ladders start target amount config = Some r ∧
    match r with
    | Err ZeroInput => amount = 0
    | Err (NoPath f t) => amount ≠ 0 ∧ f = start ∧ t = target ∧
        ¬ ∃ p, p ≠ [] ∧ is_chain start target p ∧ (length p ≤ max_hops config)%nat ∧
               (∀ l, l ∈ p → l ∈ ladders) ∧ NoDup (start :: (to <$> p))
    | Ok _ => amount ≠ 0 ∧
        ∃ p, p ≠ [] ∧ is_chain start target p ∧ (length p ≤ max_hops config)%nat ∧
             (∀ l, l ∈ p → l ∈ ladders) ∧ NoDup (start :: (to <$> p))
    end.
Proof.
  intros Hwf Ha. destruct (Z.eq_dec amount 0) as [->|Hne]; [by exists (Err ZeroInput)|].
  destruct (decide (enumerate_paths ladders start target (max_hops config) = [])) as [He|He].
  - exists (Err (NoPath start target)). unfold plan_route.
    rewrite (proj2 (Z.eqb_neq _ _)), bool_decide_true by done. split; [done|]. split_and!; try done.
    intros (p & Hp%enumerate_paths_elem). rewrite He in Hp. set_solver.
  - destruct (plan_route_states ladders start target amount config Hwf Ha Hne He)
      as (states & b & r & -> & _). eexists. split; [done|]. split; [done|].
    destruct (enumerate_paths ladders start target (max_hops config)) as [|p ps] eqn:E; [done|].
    exists p. apply (enumerate_paths_elem ladders start target (max_hops config)). rewrite E. set_solver.
Qed.

(** C17: A plan accounts for its whole input: what is routed and what is
    not add up to the amount asked, the paths' inputs to what is routed, and
    the legs of a path's first hop to the path's input; every path is a
    simple chain of ladders from the source token to the target, within the
    hop limit, and there are at most [max_paths] of them. *)
Theorem plan_accounts_for_input ladders start target amount config plan :
  Forall ladder_wf ladders → u64 amount →
  plan_route ladders start target amount config = Some (Ok plan) →
  rp_input plan + unrouted plan = amount ∧ 0 ≤ unrouted plan ∧
  Zsum_with pp_input (paths plan) = rp_input plan ∧ (length (paths plan) ≤ max_paths config)%nat ∧
  ∀ p, p ∈ paths plan → 0 < pp_input p ∧
    (∃ legs hops, pp_hops p = legs :: hops ∧ Zsum_with amount_in legs = pp_input p) ∧
    ∃ hops, pp_tokens p = start :: (to <$> hops) ∧ pp_markets p = lad_market <$> hops ∧
      is_chain start target hops ∧ (length hops ≤ max_hops config)%nat ∧ NoDup (pp_tokens p).
Proof.
  intros Hwf Ha Hplan. pose proof Hplan as Hp. unfold plan_route in Hp.
  destruct (Z.eqb_spec amount 0); [done|]. case_bool_decide as He; [done|]. clear Hp.
  destruct (plan_route_states ladders start target amount config Hwf Ha n He)
    as (states & b & r & E & Hinv & Hcand). rewrite Hplan in E. injection E as ->.
  destruct (pi_amount _ _ _ _ _ Hinv) as (Hr & Hsum & _).
  assert (∀ st, st ∈ states → 0 ≤ ps_input st) as Hins by (intros; by eapply so_input, pi_states).
  simpl. split; [lia|]. split; [done|]. split; [|split].
  - rewrite Zsum_with_fmap. change (Zsum_with ps_input (routed states) = amount - r).
    rewrite routed_input by done. lia.
  - rewrite length_fmap. etransitivity; [apply bfilter_length|].
    rewrite <- (length_fmap ps_hops), Hcand. unfold candidates_of. rewrite length_take. lia.
  - intros p (st & -> & [Hst Hnz]%routed_elem)%list_elem_of_fmap. simpl. specialize (Hins st Hst).
    pose proof (pi_states _ _ _ _ _ Hinv st Hst) as [Hne Hlen Hw _ _ _ Hfirst].
    split; [lia|]. split.
    + unfold first_used in Hfirst. destruct (ps_hops st) as [|h hs]; [done|].
      destruct (consumed st) as [|m ms]; [done|]. simpl. eexists _, _. split; [done|].
      by rewrite hop_legs_total.
    + exists (ps_hops st).
      assert (ps_hops st ∈ candidates_of ladders start target config) as Hc
        by (rewrite <- Hcand; by apply list_elem_of_fmap_2).
      apply candidates_elem_of, enumerate_paths_elem in Hc as (_ & Hc & Hl & _ & Hnd).
      assert (match ps_hops st with h :: _ => [from h] | [] => [] end = [start]) as ->.
      { destruct (ps_hops st); [done|]. by destruct Hc as [-> _]. }
      simpl. split_and!; done.
Qed.

(** Path enumeration is exact: it finds every non-empty chain of ladders
    of the graph from the source to the target that revisits no token and
    respects the hop limit, and nothing else. *)
Theorem enumerate_paths_exact ladders start target hops p :
  p ∈ enumerate_paths ladders start target hops ↔
  p ≠ [] ∧ is_chain start target p ∧ (length p ≤ hops)%nat ∧ (∀ l, l ∈ p → l ∈ ladders) ∧
  NoDup (start :: (to <$> p)).
Proof. apply enumerate_paths_elem. Qed.

(** * Concrete instances *)

Definition demo_segment (n cap a b : Z) : LiquiditySegment := mkSegment (mkDigest [n]) cap a b.
Definition demo_ladder (m : Z) (f t : rstring) (s : list LiquiditySegment) : HopLadder :=
  mkLadder (mkSuiAddress [m]) f t s.

Definition demo_graph : list HopLadder :=
  [demo_ladder 1 (str "SUI") (str "WAL") [demo_segment 1 100 1 1; demo_segment 2 1000 1 2];
   demo_ladder 2 (str "SUI") (str "USDC") [demo_segment 3 100000 2 1];
   demo_ladder 3 (str "USDC") (str "WAL") [demo_segment 4 100000 45 100]].

Definition demo_plan : RoutePlan :=
  match plan_route demo_graph (str "SUI") (str "WAL") 300 RouterConfig_default with
  | Some (Ok plan) => plan
  | _ => mkRoutePlan 0 0 0 []
  end.

Lemma demo_graph_wf : Forall ladder_wf demo_graph.
Proof.
  assert (∀ h, (forallb (λ s, (0 <=? max_in s) && (max_in s <=? u64_max) && (0 <? num s) && (num s <=? u64_max)
    && (0 <? den s) && (den s <=? u64_max)) (segments h) = true) →
    bool_decide (NoDup (sg_digest <$> segments h)) = true → ladder_wf h) as H.
  { intros h Hs Hd. split; [|by apply bool_decide_eq_true in Hd]. apply Forall_forall. intros s Hin.
    rewrite forallb_forall in Hs. apply list_elem_of_In in Hin. specialize (Hs s Hin).
    unfold seg_wf, u64. lia. }
  repeat (constructor; [apply H; vm_compute; reflexivity|]). constructor.
Qed.

Lemma demo_planned :
  plan_route demo_graph (str "SUI") (str "WAL") 300 RouterConfig_default = Some (Ok demo_plan).
Proof. vm_compute. reflexivity. Qed.

Lemma plan_within_budgets_witness : planned (mkDigest [1]) demo_plan ≤ 100.
Proof.
  apply (plan_within_budgets demo_graph (str "SUI") (str "WAL") 300 RouterConfig_default demo_plan
    demo_graph_wf); [split; vm_compute; discriminate|apply demo_planned].
Defined.

Lemma plan_route_total_witness :
  ∃ r, plan_route demo_graph (str "SUI") (str "WAL") 300 RouterConfig_default = Some r ∧ r = Ok demo_plan.
Proof.
  destruct (plan_route_total demo_graph (str "SUI") (str "WAL") 300 RouterConfig_default demo_graph_wf)
    as (r & H & _); [split; vm_compute; discriminate|].
  exists r. split; [exact H|]. rewrite demo_planned in H. by injection H as <-.
Defined.

Lemma plan_accounts_for_input_witness :
  rp_input demo_plan + unrouted demo_plan = 300 ∧ (pp_input <$> paths demo_plan) = [100; 200].
Proof.
  split; [|vm_compute; reflexivity].
  apply (plan_accounts_for_input demo_graph (str "SUI") (str "WAL") 300 RouterConfig_default demo_plan
    demo_graph_wf); [split; vm_compute; discriminate|apply demo_planned].
Defined.

(** A remainder too small for one unit of path input blocks the liquidity
    behind it: 499 of the 500 units stay unrouted although the second order
    of the last hop could absorb them. *)
Definition dust_graph : list HopLadder :=
  [demo_ladder 1 (str "SUI") (str "USDC") [demo_segment 1 1000 2 1];
   demo_ladder 2 (str "USDC") (str "WAL") [demo_segment 9 3 1 1; demo_segment 10 1000 1 1]].

Lemma dust_blocks_liquidity :
  match plan_route dust_graph (str "SUI") (str "WAL") 500 RouterConfig_default with
  | Some (Ok plan) => rp_input plan = 1 ∧ unrouted plan = 499
  | _ => False
  end.
Proof. vm_compute. done. Qed.
