(* ===== verification/Ladders.v ===== *)
(** [services/orderbook/src/ladders.rs]: the router's ladders of a market,
    built from its live book, and their well-formedness, which is what the
    planner asks of them. *)

From S2P Require Import Prelude F64 BTreeMap RustStr ExchangeTypes Book BookMatch BookInv BookOps Router RouterTheorems.

Definition BPS_DENOM : Z := 10000.

Definition fee_keep (m : Market) : Z := u64_sub BPS_DENOM (Z.min (current_fee_bps m) BPS_DENOM).

Definition bid_segment (m : Market) (o : RestingOrder) : LiquiditySegment :=
  mkSegment (ro_digest o) (available_base o)
    (u64_saturating_mul (u64_saturating_mul (ro_price_ticks o) (tick_size m)) (fee_keep m))
    (u64_saturating_mul (lot_size m) BPS_DENOM).

(** [None]: division by a zero lot size. *)
Definition ask_segment (m : Market) (o : RestingOrder) : option LiquiditySegment :=
  q ← checked_div (u128_mul (u128_mul (available_base o) (ro_price_ticks o)) (tick_size m)) (lot_size m);
  Some (mkSegment (ro_digest o) (wrap64 q)
    (u64_saturating_mul (lot_size m) (fee_keep m))
    (u64_saturating_mul (u64_saturating_mul (ro_price_ticks o) (tick_size m)) BPS_DENOM)).

(** The loop over the sorted orders: both vectors, in push order. *)
Fixpoint collect_segments (m : Market) (orders : list RestingOrder)
    (base_to_quote quote_to_base : list LiquiditySegment)
    : option (list LiquiditySegment * list LiquiditySegment) :=
  match orders with
  | [] => Some (base_to_quote, quote_to_base)
  | o :: orders' =>
      match ro_side o with
      | Bid => collect_segments m orders' (base_to_quote ++ [bid_segment m o]) quote_to_base
      | Ask =>
          s ← ask_segment m o;
          collect_segments m orders' base_to_quote (quote_to_base ++ [s])
      end
  end.

Definition by_price (o1 o2 : RestingOrder) : bool := ro_price_ticks o1 <=? ro_price_ticks o2.

Definition router_orders (b : Book) : list RestingOrder :=
  sort_by by_price (List.filter (λ o, 0 <? available_base o) (iter_orders b)).

Definition ladders_for_market (m : Market) (b : Book) : option (list HopLadder) :=
  '(base_to_quote, quote_to_base) ← collect_segments m (router_orders b) [] [];
  let base_to_quote := reverse base_to_quote in
  Some ((if bool_decide (base_to_quote = []) then []
         else [mkLadder (m_registry_id m) (base m) (quote m) base_to_quote]) ++
        (if bool_decide (quote_to_base = []) then []
         else [mkLadder (m_registry_id m) (quote m) (base m) quote_to_base])).

(** * Well-formedness *)

(** A market on which the segments' rates are positive. *)
Definition tradable (m : Market) : Prop :=
  market_wf m ∧ 0 < tick_size m ∧ 0 < lot_size m ∧ current_fee_bps m < BPS_DENOM.

Definition on_side (s : Side) (os : list RestingOrder) : list RestingOrder :=
  List.filter (λ o, bool_decide (ro_side o = s)) os.

(** The ask segment when the lot size is not zero. *)
Definition ask_segment' (m : Market) (o : RestingOrder) : LiquiditySegment :=
  mkSegment (ro_digest o)
    (wrap64 (u128_mul (u128_mul (available_base o) (ro_price_ticks o)) (tick_size m) / lot_size m))
    (u64_saturating_mul (lot_size m) (fee_keep m))
    (u64_saturating_mul (u64_saturating_mul (ro_price_ticks o) (tick_size m)) BPS_DENOM).

Lemma ask_segment_Some m o : lot_size m ≠ 0 → ask_segment m o = Some (ask_segment' m o).
Proof. intros H. unfold ask_segment, checked_div. by rewrite (proj2 (Z.eqb_neq _ _) H). Qed.

Lemma collect_segments_Some m os : ∀ bq qb,
  lot_size m ≠ 0 →
  collect_segments m os bq qb =
    Some (bq ++ (bid_segment m <$> on_side Bid os), qb ++ (ask_segment' m <$> on_side Ask os)).
Proof.
  induction os as [|o os IH]; intros bq qb Hl; simpl; [by rewrite !app_nil_r|].
  unfold on_side. simpl. destruct (ro_side o); simpl.
  - rewrite IH by done. by rewrite <- app_assoc.
  - rewrite ask_segment_Some by done. cbn [mbind option_bind]. rewrite IH by done. by rewrite <- app_assoc.
Qed.

Lemma satmul_pos a b : 0 < a → 0 < b → 0 < u64_saturating_mul a b ≤ u64_max.
Proof. intros. unfold u64_saturating_mul. split; [|apply Z.le_min_r]. apply Z.min_glb_lt; [nia|done]. Qed.

Section ladders.
Context {b : Book} (Hb : book_ok b) {m : Market} (Hm : tradable m).
(** Prices at rest are positive, as [price_and_size] makes them. *)
Context (Hprices : ∀ o, o ∈ iter_orders b → 0 < ro_price_ticks o).

Lemma fee_keep_pos : 0 < fee_keep m.
Proof.
  destruct Hm as ((_ & _ & _ & Hf) & _ & _ & Hlt). unfold fee_keep, u64, BPS_DENOM in *.
  rewrite u64_sub_small; [|unfold u64, u64_max]; lia.
Qed.

Lemma router_orders_elem o : o ∈ router_orders b ↔ o ∈ iter_orders b ∧ 0 < available_base o.
Proof. unfold router_orders. rewrite elem_of_sort_by, elem_of_bfilter. by rewrite Z.ltb_lt. Qed.

Lemma NoDup_filter_fmap (f : RestingOrder → bool) os :
  NoDup (ro_digest <$> os) → NoDup (ro_digest <$> List.filter f os).
Proof.
  induction os as [|o os IH]; simpl; [done|]. rewrite NoDup_cons. intros [Hn Hd].
  destruct (f o); simpl; [|auto]. apply NoDup_cons. split; [|auto].
  intros (o' & E & [Ho' _]%elem_of_bfilter)%list_elem_of_fmap. apply Hn. rewrite E. by apply list_elem_of_fmap_2.
Qed.

Lemma router_orders_NoDup s : NoDup (ro_digest <$> on_side s (router_orders b)).
Proof.
  apply NoDup_filter_fmap. unfold router_orders. rewrite sort_by_perm.
  by apply NoDup_filter_fmap, iter_orders_NoDup.
Qed.

Lemma bid_segment_wf o : o ∈ router_orders b → seg_wf (bid_segment m o).
Proof.
  intros [Hin Hav]%router_orders_elem. pose proof fee_keep_pos. specialize (Hprices o Hin).
  destruct Hm as (_ & Ht & Hl & _). unfold seg_wf. simpl. split; [apply u64_sub_range|].
  split; apply satmul_pos; [apply satmul_pos|..]; done.
Qed.

Lemma ask_segment_wf o : o ∈ router_orders b → seg_wf (ask_segment' m o).
Proof.
  intros [Hin Hav]%router_orders_elem. pose proof fee_keep_pos. specialize (Hprices o Hin).
  destruct Hm as (_ & Ht & Hl & _). unfold seg_wf. simpl. split; [apply wrap64_range|].
  split; apply satmul_pos; [done|done|apply satmul_pos|]; done.
Qed.

(** Sorted by price, in the sense of the sort. *)
Lemma on_side_sorted s : StronglySorted (λ o1 o2, ro_price_ticks o1 ≤ ro_price_ticks o2) (on_side s (router_orders b)).
Proof.
  assert (StronglySorted (λ o1 o2, by_price o1 o2 = true) (router_orders b)) as H.
  { apply sort_by_sorted; unfold by_price; intros; lia. }
  unfold on_side. induction H as [|o l Hl IH Ho]; simpl; [constructor|]. case_bool; [|done].
  constructor; [done|]. apply Forall_forall. intros o' [Ho' _]%elem_of_bfilter.
  rewrite Forall_forall in Ho. specialize (Ho o' Ho'). unfold by_price in Ho. lia.
Qed.

Lemma segment_ladder_wf mk f t (seg : RestingOrder → LiquiditySegment) os :
  (∀ o, sg_digest (seg o) = ro_digest o) → NoDup (ro_digest <$> os) →
  (∀ o, o ∈ os → seg_wf (seg o)) → ladder_wf (mkLadder mk f t (seg <$> os)).
Proof.
  intros Hd Hnd Hwf. split; simpl.
  - apply Forall_fmap, Forall_forall. auto.
  - rewrite <- list_fmap_compose. by rewrite (list_fmap_ext _ ro_digest os) by (intros; apply Hd).
Qed.

Lemma on_side_elem s o : o ∈ on_side s (router_orders b) → o ∈ router_orders b.
Proof. by intros [? _]%elem_of_bfilter. Qed.
End ladders.

(** C19: The ladders of a market are what the planner needs: on a tradable
    market they always exist and are well formed; the bid ladder lists one
    segment per available bid by decreasing price with exactly the base
    available, the ask ladder one per available ask by increasing price, and
    a side with nothing available has no ladder. *)
Theorem ladders_for_market_wf m b :
  book_ok b → tradable m → (∀ o, o ∈ iter_orders b → 0 < ro_price_ticks o) →
  ∃ bs as_ ls, ladders_for_market m b = Some ls ∧ Forall ladder_wf ls ∧
    (∀ o, o ∈ bs ↔ get b (ro_digest o) = Some o ∧ ro_side o = Bid ∧ 0 < available_base o) ∧
    (∀ o, o ∈ as_ ↔ get b (ro_digest o) = Some o ∧ ro_side o = Ask ∧ 0 < available_base o) ∧
    StronglySorted (λ o1 o2, ro_price_ticks o1 ≤ ro_price_ticks o2) (reverse bs) ∧
    StronglySorted (λ o1 o2, ro_price_ticks o1 ≤ ro_price_ticks o2) as_ ∧
    ls = (if bool_decide (bs = []) then []
          else [mkLadder (m_registry_id m) (base m) (quote m) (bid_segment m <$> bs)]) ++
         (if bool_decide (as_ = []) then []
          else [mkLadder (m_registry_id m) (quote m) (base m) (ask_segment' m <$> as_)]).
Proof.
  intros Hb Hm Hp. pose proof Hm as (_ & _ & Hl & _).
  exists (reverse (on_side Bid (router_orders b))), (on_side Ask (router_orders b)). eexists.
  unfold ladders_for_market. rewrite collect_segments_Some by lia. cbn [mbind option_bind app].
  assert (∀ (f : RestingOrder → LiquiditySegment) os, bool_decide (f <$> os = []) = bool_decide (os = [])) as Hnil.
  { intros f os. apply bool_decide_ext. split; [apply fmap_nil_inv|by intros ->]. }
  rewrite <- fmap_reverse, !Hnil. split; [reflexivity|].
  assert (∀ s o, o ∈ on_side s (router_orders b) ↔
    get b (ro_digest o) = Some o ∧ ro_side o = s ∧ 0 < available_base o) as Helem.
  { intros s o. unfold on_side.
    rewrite elem_of_bfilter, router_orders_elem, (iter_orders_get b o Hb), bool_decide_eq_true. tauto. }
  split; [|split_and!].
  - apply Forall_app. split; case_bool_decide; try apply Forall_nil; try done; apply Forall_singleton.
    + apply segment_ladder_wf; [done| |].
      * rewrite (reverse_Permutation (on_side _ _)). by apply router_orders_NoDup.
      * intros o Ho%elem_of_reverse%on_side_elem. by apply (bid_segment_wf Hm Hp).
    + apply segment_ladder_wf; [done|by apply router_orders_NoDup|].
      intros o Ho%on_side_elem. by apply (ask_segment_wf Hm Hp).
  - intros o. rewrite elem_of_reverse. apply Helem.
  - apply Helem.
  - rewrite reverse_involutive. apply on_side_sorted.
  - apply on_side_sorted.
  - done.
Qed.

Definition demo_bid (d n p : Z) : RestingOrder := mkResting (mkDigest [d]) (mkSuiAddress [d]) Bid p n 0 d.
Definition demo_mkt : Market := mkMarket (str "B/Q") (mkSuiAddress [7]) (str "B") (str "Q") 1000 100 1000000 25.
Definition demo_bids : Book := rest (rest (Book_new demo_mkt) (demo_bid 1 1000 5)) (demo_bid 2 500 6).

Lemma demo_bids_ok : book_ok demo_bids.
Proof.
  assert (∀ d n p, 0 < n ≤ u64_max → live (demo_bid d n p)) as Hlive by (unfold live, order_ok; simpl; lia).
  assert (book_ok (Book_new demo_mkt)) as H0.
  { split; [intros []; apply bt_wf_nil|by intros []..|]. intros d s p. simpl. by rewrite lookup_empty. }
  assert (book_ok (rest (Book_new demo_mkt) (demo_bid 1 1000 5))) as H1.
  { apply (rest_inv H0); [apply Hlive; unfold u64_max; lia|reflexivity]. }
  apply (rest_inv H1); [apply Hlive; unfold u64_max; lia|vm_compute; reflexivity].
Qed.

Lemma ladders_for_market_wf_witness :
  ∃ ls, ladders_for_market demo_mkt demo_bids = Some ls ∧ Forall ladder_wf ls ∧ length ls = 1%nat.
Proof.
  destruct (ladders_for_market_wf demo_mkt demo_bids demo_bids_ok) as (bs & as_ & ls & H & Hwf & _).
  - split; [split_and!; split; vm_compute; discriminate|]. vm_compute. done.
  - intros o Ho. apply list_elem_of_In in Ho. vm_compute in Ho.
    destruct Ho as [<-|[<-|[]]]; reflexivity.
  - exists ls. split; [exact H|]. split; [exact Hwf|]. vm_compute in H. injection H as <-. reflexivity.
Defined.
