(* ===== verification/Repo.v ===== *)
(** [services/orderbook/src/db]: the exchange tables and the repository over
    them.  Id columns hold [to_hex] text of 32-byte ids, which [parse] inverts
    ([parse_hex_32_to_hex]); the model keeps the id itself.  [order_json]
    holds the signed order.  Rows of [exchange_orders] are listed in
    [created_at] order.  A pooled connection may fail to be checked out:
    [pool] is the outcome of the next checkouts. *)

From S2P Require Import Prelude RustStr ExchangeTypes.

(** * Rows ([models.rs], [schema.rs]) *)

Inductive MarketSource := Deployments | Discovered.

Record NewMarket := mkNewMarket {
  nm_registry_id : SuiAddress;
  nm_symbol : rstring;
  nm_base : rstring;
  nm_quote : rstring;
  nm_tick_size : Z;
  nm_min_size : Z;
  nm_lot_size : Z;
  nm_current_fee_bps : Z;
  nm_source : MarketSource;
}.

(** A row of [exchange_markets]: the inserted values, and the two columns
    with a default. *)
Record MarketRow := mkMarketRow {
  mr_values : NewMarket;
  mr_enabled : bool;
  mr_paused : bool;
}.

Inductive OrderStatus := OPEN | FILLED | CANCELLED | PRUNED | EXPIRED.

Definition as_str (s : OrderStatus) : rstring :=
  match s with
  | OPEN => str "OPEN"
  | FILLED => str "FILLED"
  | CANCELLED => str "CANCELLED"
  | PRUNED => str "PRUNED"
  | EXPIRED => str "EXPIRED"
  end.

Record NewOrder := mkNewOrder {
  no_digest : Digest;
  no_registry_id : SuiAddress;
  no_maker : SuiAddress;
  no_manager_id : SuiAddress;
  no_maker_token : rstring;
  no_side : Side;
  no_price_ticks : Z;
  no_salt : Z;
  no_expiry_ms : Z;
  no_taker_amount : Z;
  no_maker_amount : Z;
  no_order_json : SignedOrder;
  no_order_bytes : list Z;
}.

(** A row of [exchange_orders]. *)
Record OrderRow := mkOrderRow {
  or_values : NewOrder;
  or_filled_taker : Z;
  or_status : OrderStatus;
}.

Definition or_digest (r : OrderRow) : Digest := no_digest (or_values r).
Definition set_or_status (st : OrderStatus) (r : OrderRow) : OrderRow :=
  mkOrderRow (or_values r) (or_filled_taker r) st.
Definition set_or_filled (f : Z) (r : OrderRow) : OrderRow :=
  mkOrderRow (or_values r) f (or_status r).

Record NewFill := mkNewFill {
  nf_tx_digest : rstring;
  nf_event_seq : Z;
  nf_digest : Digest;
  nf_registry_id : SuiAddress;
  nf_maker : SuiAddress;
  nf_taker : SuiAddress;
  nf_base_amount : Z;
  nf_quote_amount : Z;
  nf_maker_fee : Z;
  nf_taker_fee : Z;
  nf_maker_sold_base : bool;
  nf_filled_total : Z;
  nf_timestamp_ms : Z;
}.

Record VaultManagerRow := mkVaultManagerRow {
  vm_manager_id : SuiAddress;
  vm_vault_id : SuiAddress;
  vm_custody_id : SuiAddress;
  vm_direct : bool;
}.

Record StoredOrder := mkStoredOrder {
  so_digest : Digest;
  so_signed : SignedOrder;
  so_side : Side;
  so_price_ticks : Z;
  so_filled_taker : Z;
  so_status : OrderStatus;
}.

Inductive DbErrorKind := UniqueViolation | ForeignKeyViolation.

Inductive StoreError :=
  | Diesel (e : DbErrorKind)
  | Pool
  | AmountRange (v : Z)
  | Corrupt
  | Join.

Definition is_unique_violation (e : StoreError) : bool :=
  match e with Diesel UniqueViolation => true | _ => false end.

#[export] Instance MarketSource_eq_dec : EqDecision MarketSource.
Proof. solve_decision. Defined.
#[export] Instance NewMarket_eq_dec : EqDecision NewMarket.
Proof. solve_decision. Defined.
#[export] Instance MarketRow_eq_dec : EqDecision MarketRow.
Proof. solve_decision. Defined.
#[export] Instance OrderStatus_eq_dec : EqDecision OrderStatus.
Proof. solve_decision. Defined.
#[export] Instance NewOrder_eq_dec : EqDecision NewOrder.
Proof. solve_decision. Defined.
#[export] Instance OrderRow_eq_dec : EqDecision OrderRow.
Proof. solve_decision. Defined.
#[export] Instance NewFill_eq_dec : EqDecision NewFill.
Proof. solve_decision. Defined.
#[export] Instance VaultManagerRow_eq_dec : EqDecision VaultManagerRow.
Proof. solve_decision. Defined.
#[export] Instance StoredOrder_eq_dec : EqDecision StoredOrder.
Proof. solve_decision. Defined.
#[export] Instance DbErrorKind_eq_dec : EqDecision DbErrorKind.
Proof. solve_decision. Defined.
#[export] Instance StoreError_eq_dec : EqDecision StoreError.
Proof. solve_decision. Defined.

(** * The database *)

Record Tables := mkTables {
  exchange_markets : gmap SuiAddress MarketRow;
  exchange_orders : list OrderRow;
  exchange_fills : list NewFill;
  exchange_balances : gmap (SuiAddress * rstring) Z;
  exchange_approved_signers : gset (SuiAddress * SuiAddress);
  exchange_vault_managers : gmap SuiAddress VaultManagerRow;
  exchange_salt_watermarks : gmap (SuiAddress * SuiAddress) Z;
  exchange_cursors : gmap rstring rstring;
}.

Definition empty_tables : Tables := mkTables ∅ [] [] ∅ ∅ ∅ ∅ ∅.

Definition set_markets m t := mkTables m (exchange_orders t) (exchange_fills t)
  (exchange_balances t) (exchange_approved_signers t) (exchange_vault_managers t)
  (exchange_salt_watermarks t) (exchange_cursors t).
Definition set_orders o t := mkTables (exchange_markets t) o (exchange_fills t)
  (exchange_balances t) (exchange_approved_signers t) (exchange_vault_managers t)
  (exchange_salt_watermarks t) (exchange_cursors t).
Definition set_fills f t := mkTables (exchange_markets t) (exchange_orders t) f
  (exchange_balances t) (exchange_approved_signers t) (exchange_vault_managers t)
  (exchange_salt_watermarks t) (exchange_cursors t).
Definition set_balances b t := mkTables (exchange_markets t) (exchange_orders t)
  (exchange_fills t) b (exchange_approved_signers t) (exchange_vault_managers t)
  (exchange_salt_watermarks t) (exchange_cursors t).
Definition set_signers g t := mkTables (exchange_markets t) (exchange_orders t)
  (exchange_fills t) (exchange_balances t) g (exchange_vault_managers t)
  (exchange_salt_watermarks t) (exchange_cursors t).
Definition set_vault_managers v t := mkTables (exchange_markets t) (exchange_orders t)
  (exchange_fills t) (exchange_balances t) (exchange_approved_signers t) v
  (exchange_salt_watermarks t) (exchange_cursors t).
Definition set_watermarks w t := mkTables (exchange_markets t) (exchange_orders t)
  (exchange_fills t) (exchange_balances t) (exchange_approved_signers t)
  (exchange_vault_managers t) w (exchange_cursors t).
Definition set_cursors c t := mkTables (exchange_markets t) (exchange_orders t)
  (exchange_fills t) (exchange_balances t) (exchange_approved_signers t)
  (exchange_vault_managers t) (exchange_salt_watermarks t) c.

(** [pool] lists the outcome of the next checkouts; past its end they succeed. *)
Record Store := mkStore { tables : Tables; pool : list bool }.

(** ** Database computations: explicit state and [StoreError] *)

Definition sto (A : Type) : Type := Store → Store * result StoreError A.

#[export] Instance sto_ret : MRet sto := λ A a s, (s, Ok a).
#[export] Instance sto_bind : MBind sto := λ A B f m s,
  match m s with
  | (s', Ok a) => f a s'
  | (s', Err e) => (s', Err e)
  end.

Definition sto_lift {A} (r : result StoreError A) : sto A := λ s, (s, r).
Definition sto_fail {A} (e : StoreError) : sto A := λ s, (s, Err e).
Definition query {A} (f : Tables → A) : sto A := λ s, (s, Ok (f (tables s))).
Definition execute (f : Tables → Tables) : sto unit :=
  λ s, (mkStore (f (tables s)) (pool s), Ok tt).

Definition conn : sto unit := λ s,
  match pool s with
  | [] => (s, Ok tt)
  | true :: p => (mkStore (tables s) p, Ok tt)
  | false :: p => (mkStore (tables s) p, Err Pool)
  end.

Definition to_i64 (v : Z) : result StoreError Z :=
  if v <=? i64_max then Ok v else Err (AmountRange v).

(** * Markets *)

Definition market_row (m : Market) (source : MarketSource) : result StoreError NewMarket :=
  tick_size ← to_i64 (tick_size m);
  min_size ← to_i64 (min_size m);
  lot_size ← to_i64 (lot_size m);
  current_fee_bps ← to_i64 (current_fee_bps m);
  Ok (mkNewMarket (m_registry_id m) (symbol m) (base m) (quote m)
        tick_size min_size lot_size current_fee_bps source).

(** [enabled] defaults to true, [paused] to false. *)
Definition new_market_row (row : NewMarket) : MarketRow := mkMarketRow row true false.

(** On conflict the inserted columns are overwritten and the others kept. *)
Definition upsert_market (m : Market) : sto unit :=
  row ← sto_lift (market_row m Deployments);
  _ ← conn;
  execute (λ t,
    let row' := match exchange_markets t !! nm_registry_id row with
                | Some old => mkMarketRow row (mr_enabled old) (mr_paused old)
                | None => new_market_row row
                end in
    set_markets (<[nm_registry_id row := row']> (exchange_markets t)) t).

Definition insert_discovered_market (m : Market) : sto bool :=
  row ← sto_lift (market_row m Discovered);
  _ ← conn;
  old ← query (λ t, exchange_markets t !! nm_registry_id row);
  match old with
  | Some _ => mret false
  | None =>
      _ ← execute (λ t,
        set_markets (<[nm_registry_id row := new_market_row row]> (exchange_markets t)) t);
      mret true
  end.

Definition is_stale (current_ids : list SuiAddress) (id : SuiAddress) (r : MarketRow) : bool :=
  mr_enabled r && bool_decide (nm_source (mr_values r) = Deployments) && bool_decide (id ∉ current_ids).

Definition disable_markets_absent_from (current_ids : list SuiAddress) : sto Z :=
  _ ← conn;
  n ← query (λ t, Z.of_nat (length (List.filter (λ p, is_stale current_ids p.1 p.2)
                                      (map_to_list (exchange_markets t)))));
  _ ← execute (λ t, set_markets (map_imap (λ id r,
        Some (if is_stale current_ids id r then mkMarketRow (mr_values r) false (mr_paused r) else r))
        (exchange_markets t)) t);
  mret n.

(** Text order, by code point. *)
Fixpoint str_le (a b : rstring) : bool :=
  match a, b with
  | [], _ => true
  | _ :: _, [] => false
  | x :: a', y :: b' => (x <? y) || ((x =? y) && str_le a' b')
  end.

Definition row_market (r : MarketRow) : Market :=
  let v := mr_values r in
  mkMarket (nm_symbol v) (nm_registry_id v) (nm_base v) (nm_quote v) (i64_as_u64 (nm_tick_size v))
    (i64_as_u64 (nm_min_size v)) (i64_as_u64 (nm_lot_size v)) (i64_as_u64 (nm_current_fee_bps v)).

Definition enabled_markets : sto (list (Market * bool)) :=
  _ ← conn;
  query (λ t, (λ r, (row_market r, mr_paused r)) <$>
    sort_by (λ r1 r2, str_le (nm_symbol (mr_values r1)) (nm_symbol (mr_values r2)))
      (List.filter mr_enabled ((map_to_list (exchange_markets t)).*2))).

Definition get_enabled_market (registry_id : SuiAddress) : sto (option (Market * bool)) :=
  ms ← enabled_markets;
  mret (List.find (λ mp, bool_decide (m_registry_id mp.1 = registry_id)) ms).

Definition update_market (id : SuiAddress) (f : MarketRow → MarketRow) (t : Tables) : Tables :=
  set_markets (alter f id (exchange_markets t)) t.

Definition set_market_paused (registry_id : SuiAddress) (paused : bool) : sto unit :=
  _ ← conn;
  execute (update_market registry_id (λ r, mkMarketRow (mr_values r) (mr_enabled r) paused)).

Definition set_nm_fee (fee : Z) (v : NewMarket) : NewMarket :=
  mkNewMarket (nm_registry_id v) (nm_symbol v) (nm_base v) (nm_quote v) (nm_tick_size v)
    (nm_min_size v) (nm_lot_size v) fee (nm_source v).

Definition set_market_fee (registry_id : SuiAddress) (fee_bps : Z) : sto unit :=
  fee ← sto_lift (to_i64 fee_bps);
  _ ← conn;
  execute (update_market registry_id
    (λ r, mkMarketRow (set_nm_fee fee (mr_values r)) (mr_enabled r) (mr_paused r))).

Definition enabled_market_ids : sto (list SuiAddress) :=
  _ ← conn;
  query (λ t, (List.filter (λ p, mr_enabled p.2) (map_to_list (exchange_markets t))).*1).

(** * Orders *)

Definition stored_order (r : OrderRow) : StoredOrder :=
  let v := or_values r in
  mkStoredOrder (no_digest v) (no_order_json v) (no_side v) (i64_as_u64 (no_price_ticks v))
    (i64_as_u64 (or_filled_taker r)) (or_status r).

Definition new_order (digest : Digest) (signed : SignedOrder) (side : Side) (price_ticks : Z)
    (order_bytes : list Z) : result StoreError NewOrder :=
  let o := order signed in
  price ← to_i64 price_ticks;
  salt ← to_i64 (salt o);
  expiry ← to_i64 (expiry_ms o);
  taker_amount ← to_i64 (taker_amount o);
  maker_amount ← to_i64 (maker_amount o);
  Ok (mkNewOrder digest (registry_id signed) (maker o) (maker_manager_id o) (maker_token o)
        side price salt expiry taker_amount maker_amount signed order_bytes).

Definition order_row (d : Digest) (t : Tables) : option OrderRow :=
  List.find (λ r, bool_decide (or_digest r = d)) (exchange_orders t).

(** The primary key, the foreign key to the market, and the insertion. *)
Definition insert_order (digest : Digest) (signed : SignedOrder) (side : Side) (price_ticks : Z)
    (order_bytes : list Z) : sto unit :=
  v ← sto_lift (new_order digest signed side price_ticks order_bytes);
  _ ← conn;
  t ← query id;
  if bool_decide (is_Some (order_row digest t)) then sto_fail (Diesel UniqueViolation)
  else if bool_decide (exchange_markets t !! no_registry_id v = None) then
    sto_fail (Diesel ForeignKeyViolation)
  else execute (λ t, set_orders (exchange_orders t ++ [mkOrderRow v 0 OPEN]) t).

Definition get_order (digest : Digest) : sto (option StoredOrder) :=
  _ ← conn;
  query (λ t, stored_order <$> order_row digest t).

Definition is_open (r : OrderRow) : bool := bool_decide (or_status r = OPEN).

Definition open_orders (registry_id : SuiAddress) : sto (list StoredOrder) :=
  _ ← conn;
  query (λ t, stored_order <$>
    List.filter (λ r, bool_decide (no_registry_id (or_values r) = registry_id) && is_open r)
      (exchange_orders t)).

Definition open_orders_by_manager (manager_id : SuiAddress) : sto (list StoredOrder) :=
  _ ← conn;
  query (λ t, stored_order <$>
    List.filter (λ r, bool_decide (no_manager_id (or_values r) = manager_id) && is_open r)
      (exchange_orders t)).

(** [UPDATE exchange_orders SET ... WHERE digest = d]. *)
Definition update_order (d : Digest) (f : OrderRow → OrderRow) (t : Tables) : Tables :=
  set_orders ((λ r, if bool_decide (or_digest r = d) then f r else r) <$> exchange_orders t) t.

Definition set_order_status (digest : Digest) (status : OrderStatus) : sto unit :=
  _ ← conn;
  execute (update_order digest (set_or_status status)).

Definition max_of (l : list Z) : option Z :=
  foldr (λ v acc, Some (match acc with Some m => Z.max v m | None => v end)) None l.

Definition maker_orders (registry_id maker : SuiAddress) (t : Tables) : list OrderRow :=
  List.filter (λ r, bool_decide (no_registry_id (or_values r) = registry_id)
                    && bool_decide (no_maker (or_values r) = maker)) (exchange_orders t).

Definition max_salt (registry_id maker : SuiAddress) : sto (option Z) :=
  _ ← conn;
  query (λ t, i64_as_u64 <$>
    max_of ((λ r, no_salt (or_values r)) <$> maker_orders registry_id maker t)).

Definition commits (manager_id : SuiAddress) (maker_token : rstring) (r : OrderRow) : bool :=
  bool_decide (no_manager_id (or_values r) = manager_id)
  && bool_decide (no_maker_token (or_values r) = maker_token) && is_open r.

(** What an order still commits of its maker token. *)
Definition row_commitment (r : OrderRow) : Z :=
  let m := i64_as_u64 (no_maker_amount (or_values r)) in
  let t := i64_as_u64 (no_taker_amount (or_values r)) in
  let f := i64_as_u64 (or_filled_taker r) in
  let paid_out := muldiv_floor f m (Z.max t 1) in
  u64_saturating_sub m paid_out.

Definition open_commitment (manager_id : SuiAddress) (maker_token : rstring) : sto Z :=
  _ ← conn;
  query (λ t, foldl (λ total r, u64_saturating_add total (row_commitment r)) 0
    (List.filter (commits manager_id maker_token) (exchange_orders t))).

(** The JSON objects the API lists: digest, order, status and fill. *)
Definition orders_by_account (maker : SuiAddress)
    : sto (list (Digest * SignedOrder * OrderStatus * Z)) :=
  _ ← conn;
  query (λ t, (λ r, (or_digest r, no_order_json (or_values r), or_status r, or_filled_taker r)) <$>
    take 500 (reverse (List.filter (λ r, bool_decide (no_maker (or_values r) = maker))
                         (exchange_orders t)))).

(** * Fills *)

Definition fill_id (f : NewFill) : rstring * Z := (nf_tx_digest f, nf_event_seq f).

Definition has_fill (i : rstring * Z) (t : Tables) : bool :=
  existsb (λ f, bool_decide (fill_id f = i)) (exchange_fills t).

(** The two updates of the order the fill names. *)
Definition advance_order (fill : NewFill) (t : Tables) : Tables :=
  match order_row (nf_digest fill) t with
  | None => t
  | Some row =>
      let new_filled := Z.max (or_filled_taker row) (nf_filled_total fill) in
      let t1 := update_order (nf_digest fill) (set_or_filled new_filled) t in
      if no_taker_amount (or_values row) <=? new_filled then
        update_order (nf_digest fill) (set_or_status FILLED) t1
      else t1
  end.

(** One transaction: it inserts the fill and advances the order, or neither. *)
Definition apply_fill (fill : NewFill) : sto bool :=
  _ ← conn;
  dup ← query (has_fill (fill_id fill));
  if (dup : bool) then mret false else
  _ ← execute (λ t, advance_order fill (set_fills (exchange_fills t ++ [fill]) t));
  mret true.

(** [ORDER BY timestamp_ms DESC LIMIT n]. *)
Definition newest_first (limit : nat) (l : list NewFill) : list NewFill :=
  take limit (sort_by (λ f g, nf_timestamp_ms g <=? nf_timestamp_ms f) l).

Definition recent_trades (registry_id : SuiAddress) (limit : nat) : sto (list NewFill) :=
  _ ← conn;
  query (λ t, newest_first limit
    (List.filter (λ f, bool_decide (nf_registry_id f = registry_id)) (exchange_fills t))).

Definition fills_by_account (addr : SuiAddress) : sto (list NewFill) :=
  _ ← conn;
  query (λ t, newest_first 500
    (List.filter (λ f, bool_decide (nf_maker f = addr) || bool_decide (nf_taker f = addr))
       (exchange_fills t))).

(** * Balances, signers, watermarks *)

Definition apply_balance_delta (manager_id : SuiAddress) (token : rstring) (delta : Z) : sto Z :=
  _ ← conn;
  existing ← query (λ t, exchange_balances t !! (manager_id, token));
  let new := Z.max (i64_saturating_add (default 0 existing) delta) 0 in
  _ ← execute (λ t, set_balances (<[(manager_id, token) := new]> (exchange_balances t)) t);
  mret new.

Definition balance (manager_id : SuiAddress) (token : rstring) : sto Z :=
  _ ← conn;
  query (λ t, i64_as_u64 (Z.max (default 0 (exchange_balances t !! (manager_id, token))) 0)).

Definition balances_of (manager_id : SuiAddress) : sto (list (rstring * Z)) :=
  _ ← conn;
  query (λ t, (λ p, (p.1.2, p.2)) <$>
    List.filter (λ p, bool_decide (p.1.1 = manager_id)) (map_to_list (exchange_balances t))).

Definition set_signer (manager_id signer : SuiAddress) (approved : bool) : sto unit :=
  _ ← conn;
  execute (λ t,
    if approved then set_signers ({[(manager_id, signer)]} ∪ exchange_approved_signers t) t
    else set_signers (exchange_approved_signers t ∖ {[(manager_id, signer)]}) t).

Definition is_approved_signer (manager_id signer : SuiAddress) : sto bool :=
  _ ← conn;
  query (λ t, bool_decide ((manager_id, signer) ∈ exchange_approved_signers t)).

Definition upsert_vault_manager (row : VaultManagerRow) : sto unit :=
  _ ← conn;
  execute (λ t, set_vault_managers (<[vm_manager_id row := row]> (exchange_vault_managers t)) t).

Definition vault_manager (manager_id : SuiAddress) : sto (option VaultManagerRow) :=
  _ ← conn;
  query (λ t, exchange_vault_managers t !! manager_id).

Definition set_watermark (registry_id maker : SuiAddress) (min_valid_salt : Z) : sto unit :=
  salt ← sto_lift (to_i64 min_valid_salt);
  _ ← conn;
  existing ← query (λ t, exchange_salt_watermarks t !! (registry_id, maker));
  let new := Z.max (default 0 existing) salt in
  execute (λ t, set_watermarks (<[(registry_id, maker) := new]> (exchange_salt_watermarks t)) t).

Definition watermark (registry_id maker : SuiAddress) : sto Z :=
  _ ← conn;
  query (λ t, i64_as_u64 (Z.max (default 0 (exchange_salt_watermarks t !! (registry_id, maker))) 0)).

(** * Cursors *)

Definition save_cursor (name cursor : rstring) : sto unit :=
  _ ← conn;
  execute (λ t, set_cursors (<[name := cursor]> (exchange_cursors t)) t).

Definition load_cursor (name : rstring) : sto (option rstring) :=
  _ ← conn;
  query (λ t, exchange_cursors t !! name).
