(* ===== verification/RepoProps.v ===== *)
(** Lemmas on the repository: every operation is atomic, preserves the
    well-formedness of the tables, and only ever extends their history. *)

From S2P Require Import Prelude RustStr ExchangeTypes Repo.

(** * Operations as data *)

Inductive StoreOp :=
  | UpsertMarket (m : Market)
  | InsertDiscovered (m : Market)
  | DisableAbsent (ids : list SuiAddress)
  | SetPaused (id : SuiAddress) (paused : bool)
  | SetFee (id : SuiAddress) (fee_bps : Z)
  | InsertOrder (d : Digest) (signed : SignedOrder) (side : Side) (price_ticks : Z) (bytes : list Z)
  | SetStatus (d : Digest) (st : OrderStatus)
  | ApplyFill (f : NewFill)
  | BalanceDelta (manager : SuiAddress) (token : rstring) (delta : Z)
  | SetSigner (manager signer : SuiAddress) (approved : bool)
  | UpsertVault (row : VaultManagerRow)
  | SetWatermark (registry maker : SuiAddress) (min_valid_salt : Z)
  | SaveCursor (name cursor : rstring).

Definition void {A} (m : sto A) : sto unit := _ ← m; mret ().

Definition exec (op : StoreOp) : sto unit :=
  match op with
  | UpsertMarket m => upsert_market m
  | InsertDiscovered m => void (insert_discovered_market m)
  | DisableAbsent ids => void (disable_markets_absent_from ids)
  | SetPaused id b => set_market_paused id b
  | SetFee id fee => set_market_fee id fee
  | InsertOrder d signed side price b => insert_order d signed side price b
  | SetStatus d st => set_order_status d st
  | ApplyFill f => void (apply_fill f)
  | BalanceDelta mgr tok delta => void (apply_balance_delta mgr tok delta)
  | SetSigner mgr sg b => set_signer mgr sg b
  | UpsertVault row => upsert_vault_manager row
  | SetWatermark r mk salt => set_watermark r mk salt
  | SaveCursor n c => save_cursor n c
  end.

(** The arguments have the ranges of their types. *)
Definition op_wf (op : StoreOp) : Prop :=
  match op with
  | UpsertMarket m | InsertDiscovered m => market_wf m
  | SetFee _ fee => u64 fee
  | InsertOrder _ signed _ price _ => order_wf (order signed) ∧ u64 price
  | ApplyFill f => i64 (nf_filled_total f)
  | SetWatermark _ _ salt => u64 salt
  | _ => True
  end.

(** * Atomicity *)

(** What an operation does on a working connection. *)
Definition online {A} (m : sto A) (t : Tables) : Tables * result StoreError A :=
  let '(s, r) := m (mkStore t []) in (tables s, r).

Ltac run_sto :=
  unfold online, void, mbind, sto_bind, mret, sto_ret, query, execute, conn, sto_lift, sto_fail;
  cbn [tables pool].

(** An operation fails to get a connection and changes nothing, or behaves
    as on a working one; whatever the error, it changes nothing. *)
Definition atomic {A} (m : sto A) : Prop := ∀ s,
  (∃ p, m s = (mkStore (tables s) p, Err Pool) ∨
        m s = (mkStore (online m (tables s)).1 p, (online m (tables s)).2)) ∧
  ∀ e, (m s).2 = Err e → tables (m s).1 = tables s.

(** A computation that does not check out a connection. *)
Definition pure_body {A} (m : sto A) : Prop := ∀ t p,
  m (mkStore t p) = (mkStore (online m t).1 p, (online m t).2) ∧
  ∀ e, (online m t).2 = Err e → (online m t).1 = t.

Lemma atomic_conn {A} (body : sto A) : pure_body body → atomic (_ ← conn; body).
Proof.
  intros Hb [t p]. unfold online, mbind, sto_bind, conn. simpl.
  destruct p as [|[] p]; simpl.
  - destruct (Hb t []) as [H He]. split.
    + exists []. right. rewrite H at 1. unfold online. by destruct (body _) as [? ?].
    + intros e. unfold online in He. destruct (body _) as [s' r]. apply He.
  - destruct (Hb t p) as [H He]. rewrite H. split; [|exact He].
    exists p. right. unfold online. by destruct (body _) as [? ?].
  - split; [|done]. exists p. by left.
Qed.

Lemma atomic_lift {A B} (r : result StoreError A) (k : A → sto B) :
  (∀ a, r = Ok a → atomic (k a)) → atomic (a ← sto_lift r; k a).
Proof.
  intros Hk [t p]. destruct r as [a|e].
  - apply (Hk a eq_refl (mkStore t p)).
  - split; [|done]. exists p. by right.
Qed.

Lemma pure_query {A B} (f : Tables → A) (k : A → sto B) :
  (∀ a, pure_body (k a)) → pure_body (a ← query f; k a).
Proof.
  intros Hk t p. specialize (Hk (f t) t p). exact Hk.
Qed.

Lemma pure_query_last {A} (f : Tables → A) : pure_body (query f).
Proof. done. Qed.

Lemma pure_execute (f : Tables → Tables) : pure_body (execute f).
Proof. done. Qed.

Lemma pure_execute_ret {A} (f : Tables → Tables) (a : A) : pure_body (_ ← execute f; mret a).
Proof. done. Qed.

Lemma pure_ret {A} (a : A) : pure_body (mret a).
Proof. done. Qed.

Lemma pure_fail {A} e : pure_body (sto_fail (A := A) e).
Proof. done. Qed.

Lemma pure_bind_ret {A B} (m : sto A) (f : A → B) : pure_body m → pure_body (a ← m; mret (f a)).
Proof.
  intros Hm t p. destruct (Hm t p) as [H He].
  unfold online, mbind, sto_bind in *. rewrite H. destruct (m (mkStore t [])) as [s' [a|e]] eqn:E; simpl in *.
  - split; [done|]. done.
  - split; [done|]. intros _ _. by apply (He e).
Qed.

Lemma void_assoc {A B} (m : sto A) (k : A → sto B) s :
  void (a ← m; k a) s = (a ← m; void (k a)) s.
Proof. unfold void, mbind, sto_bind. by destruct (m s) as [? []]. Qed.

Lemma atomic_void {A} (m : sto A) : atomic m → atomic (void m).
Proof.
  intros Hm s. destruct (Hm s) as [[p Hp] He]. unfold void, online, mbind, sto_bind in *.
  destruct (m s) as [s' r] eqn:E. simpl in *. split.
  - exists p. destruct Hp as [Hp|Hp].
    + left. by simplify_eq.
    + right. destruct (m (mkStore (tables s) [])) as [s0 r0]. simpl in *. simplify_eq.
      by destruct r0.
  - intros e. destruct r as [a|e']; [done|]. intros [= ->]. by eapply He.
Qed.

Lemma online_void {A} (m : sto A) t : (online (void m) t).1 = (online m t).1.
Proof. unfold void, online, mbind, sto_bind. by destruct (m _) as [s []]. Qed.

Ltac solve_atomic :=
  repeat first
    [ apply atomic_void | apply atomic_lift; intros ? ? | apply atomic_conn
    | apply pure_execute | apply pure_execute_ret | apply pure_ret | apply pure_fail
    | apply pure_query_last | apply pure_query; intros ? | apply pure_bind_ret | case_match ].

Lemma exec_atomic op : atomic (exec op).
Proof.
  destruct op; unfold exec, upsert_market, insert_discovered_market, disable_markets_absent_from,
    set_market_paused, set_market_fee, insert_order, set_order_status, apply_fill,
    apply_balance_delta, set_signer, upsert_vault_manager, set_watermark, save_cursor;
    solve_atomic.
Qed.

(** * Rows *)

Definition in_i64 (z : Z) : Prop := 0 ≤ z ≤ i64_max.

Lemma to_i64_Ok v w : 0 ≤ v → to_i64 v = Ok w → w = v ∧ in_i64 v.
Proof. unfold to_i64, in_i64. case_bool; intros; simplify_eq; reflect_bools; lia. Qed.

Lemma to_i64_iff v : 0 ≤ v → in_i64 v → to_i64 v = Ok v.
Proof. unfold to_i64, in_i64. intros ? [_ H%Z.leb_le]. by rewrite H. Qed.

Lemma in_i64_as_u64 z : in_i64 z → i64_as_u64 z = z.
Proof. unfold in_i64, i64_max. intros. apply wrap64_small. unfold u64, u64_max. lia. Qed.

Lemma in_i64_u64 z : in_i64 z → u64 z.
Proof. unfold in_i64, i64_max, u64, u64_max. lia. Qed.

(** A stored order agrees with the signed order it was made from. *)
Definition values_ok (v : NewOrder) : Prop :=
  let o := order (no_order_json v) in
  no_registry_id v = registry_id (no_order_json v) ∧ no_maker v = maker o ∧
  no_manager_id v = maker_manager_id o ∧ no_maker_token v = maker_token o ∧
  no_salt v = salt o ∧ no_expiry_ms v = expiry_ms o ∧
  no_taker_amount v = taker_amount o ∧ no_maker_amount v = maker_amount o ∧
  order_wf o ∧ in_i64 (no_price_ticks v) ∧ in_i64 (no_salt v) ∧ in_i64 (no_expiry_ms v) ∧
  in_i64 (no_taker_amount v) ∧ in_i64 (no_maker_amount v).

Definition market_values_ok (id : SuiAddress) (v : NewMarket) : Prop :=
  nm_registry_id v = id ∧ in_i64 (nm_tick_size v) ∧ in_i64 (nm_min_size v) ∧
  in_i64 (nm_lot_size v) ∧ in_i64 (nm_current_fee_bps v).

Record tables_wf (t : Tables) : Prop := {
  tw_digests : NoDup (or_digest <$> exchange_orders t);
  tw_values r : r ∈ exchange_orders t → values_ok (or_values r) ∧ in_i64 (or_filled_taker r);
  tw_market r : r ∈ exchange_orders t → is_Some (exchange_markets t !! no_registry_id (or_values r));
  tw_fills : NoDup (fill_id <$> exchange_fills t);
  tw_markets id r : exchange_markets t !! id = Some r → market_values_ok id (mr_values r);
  tw_balances k v : exchange_balances t !! k = Some v → in_i64 v;
  tw_watermarks k v : exchange_salt_watermarks t !! k = Some v → in_i64 v;
}.

Lemma empty_tables_wf : tables_wf empty_tables.
Proof. split; simpl; try set_solver; try (by intros ? ? H; rewrite lookup_empty in H); constructor. Qed.

Lemma market_row_Ok m src row :
  market_wf m → market_row m src = Ok row →
  market_values_ok (m_registry_id m) row ∧ nm_source row = src ∧ row_market (new_market_row row) = m.
Proof.
  intros (H1 & H2 & H3 & H4). unfold market_row, u64 in *.
  destruct (to_i64 (tick_size m)) as [a|] eqn:E1; [|done]. apply to_i64_Ok in E1 as [-> R1]; [|lia].
  destruct (to_i64 (min_size m)) as [a|] eqn:E2; [|done]. apply to_i64_Ok in E2 as [-> R2]; [|lia].
  destruct (to_i64 (lot_size m)) as [a|] eqn:E3; [|done]. apply to_i64_Ok in E3 as [-> R3]; [|lia].
  destruct (to_i64 (current_fee_bps m)) as [a|] eqn:E4; [|done]. apply to_i64_Ok in E4 as [-> R4]; [|lia].
  intros [= <-]. split; [done|]. split; [done|]. unfold row_market. simpl.
  rewrite !in_i64_as_u64 by done. by destruct m.
Qed.

Lemma new_order_Ok d so side p b v :
  order_wf (order so) → u64 p → new_order d so side p b = Ok v →
  values_ok v ∧ no_digest v = d ∧ no_order_json v = so ∧ no_side v = side ∧
  no_price_ticks v = p ∧ no_order_bytes v = b.
Proof.
  intros Hwf Hp. pose proof Hwf as (H1 & H2 & H3 & H4 & H5 & _). unfold new_order, u64 in *.
  destruct (to_i64 p) as [a|] eqn:E1; [|done]. apply to_i64_Ok in E1 as [-> R1]; [|lia].
  destruct (to_i64 (salt _)) as [a|] eqn:E2; [|done]. apply to_i64_Ok in E2 as [-> R2]; [|lia].
  destruct (to_i64 (expiry_ms _)) as [a|] eqn:E3; [|done]. apply to_i64_Ok in E3 as [-> R3]; [|lia].
  destruct (to_i64 (taker_amount _)) as [a|] eqn:E4; [|done]. apply to_i64_Ok in E4 as [-> R4]; [|lia].
  destruct (to_i64 (maker_amount _)) as [a|] eqn:E5; [|done]. apply to_i64_Ok in E5 as [-> R5]; [|lia].
  intros [= <-]. by split.
Qed.

Lemma new_order_Err d so side p b e : new_order d so side p b = Err e → is_unique_violation e = false.
Proof.
  unfold new_order, to_i64. intros H.
  repeat match type of H with
  | context [if ?c then _ else _] => destruct c; cbn [mbind result_bind] in H; [|by injection H as <-]
  end. done.
Qed.

Lemma order_row_Some d t r : order_row d t = Some r → r ∈ exchange_orders t ∧ or_digest r = d.
Proof.
  intros (l1 & l2 & E & H & _)%bfind_Some. apply bool_decide_eq_true in H.
  rewrite E. set_solver.
Qed.

Lemma order_row_None d t : order_row d t = None ↔ d ∉ or_digest <$> exchange_orders t.
Proof.
  unfold order_row. rewrite bfind_None, list_elem_of_fmap. setoid_rewrite bool_decide_eq_false.
  naive_solver.
Qed.

Lemma order_row_iff d t r :
  tables_wf t → order_row d t = Some r ↔ r ∈ exchange_orders t ∧ or_digest r = d.
Proof.
  intros Hwf. split; [apply order_row_Some|]. intros [Hr Hd].
  destruct (order_row d t) as [r'|] eqn:E.
  - apply order_row_Some in E as [Hr' Hd']. f_equal.
    apply (NoDup_fmap_inj_on or_digest (exchange_orders t)); [apply tw_digests| | |congruence]; done.
  - exfalso. apply order_row_None in E. apply E. subst d. by apply list_elem_of_fmap_2.
Qed.

Lemma order_row_snoc d r t :
  order_row d (set_orders (exchange_orders t ++ [r]) t) =
  match order_row d t with
  | Some r' => Some r'
  | None => if bool_decide (or_digest r = d) then Some r else None
  end.
Proof. unfold order_row. cbn [exchange_orders set_orders]. by rewrite bfind_app. Qed.

(** ** Updates of one order *)

Definition on_digest (d : Digest) (f : OrderRow → OrderRow) (r : OrderRow) : OrderRow :=
  if bool_decide (or_digest r = d) then f r else r.

Lemma update_order_orders d f t :
  exchange_orders (update_order d f t) = on_digest d f <$> exchange_orders t.
Proof. done. Qed.

Lemma on_digest_digest d f r : (∀ r, or_digest (f r) = or_digest r) → or_digest (on_digest d f r) = or_digest r.
Proof. unfold on_digest. case_bool; auto. Qed.

Lemma order_row_update d d' f t :
  (∀ r, or_digest (f r) = or_digest r) →
  order_row d' (update_order d f t) = on_digest d f <$> order_row d' t.
Proof.
  intros Hf. unfold order_row. rewrite update_order_orders.
  induction (exchange_orders t) as [|r l IH]; simpl; [done|].
  rewrite on_digest_digest by done. by case_bool_decide.
Qed.

Lemma update_order_wf d f t :
  (∀ r, or_values (f r) = or_values r) →
  (∀ r, r ∈ exchange_orders t → or_digest r = d → in_i64 (or_filled_taker r) → in_i64 (or_filled_taker (f r))) →
  tables_wf t → tables_wf (update_order d f t).
Proof.
  intros Hv Hf Hwf.
  assert (∀ r, or_digest (f r) = or_digest r) as Hd by (intros r; unfold or_digest; by rewrite Hv).
  assert (∀ r, or_values (on_digest d f r) = or_values r) as Hv' by (intros; unfold on_digest; case_bool; auto).
  destruct Hwf. split; [|..|done|done|done|done]; rewrite ?update_order_orders.
  - rewrite <- list_fmap_compose, (list_fmap_ext _ or_digest); [done|].
    intros i r _. simpl. by apply on_digest_digest.
  - intros r (r0 & -> & Hr0)%list_elem_of_fmap. rewrite Hv'.
    destruct (tw_values0 r0 Hr0) as [? ?]. split; [done|].
    unfold on_digest. case_bool_decide; auto.
  - intros r (r0 & -> & Hr0)%list_elem_of_fmap. rewrite Hv'. by apply tw_market0.
Qed.

Lemma advance_order_orders fill t :
  exchange_orders (advance_order fill t) =
  match order_row (nf_digest fill) t with
  | None => exchange_orders t
  | Some row =>
      let new_filled := Z.max (or_filled_taker row) (nf_filled_total fill) in
      on_digest (nf_digest fill) (λ r,
        mkOrderRow (or_values r) new_filled
          (if no_taker_amount (or_values row) <=? new_filled then FILLED else or_status r))
        <$> exchange_orders t
  end.
Proof.
  unfold advance_order. destruct (order_row _ t) as [row|]; [|done]. cbn zeta.
  case_bool; simpl.
  - rewrite <- list_fmap_compose. apply list_fmap_ext. intros i r _. simpl. unfold on_digest.
    destruct (decide (or_digest r = nf_digest fill)) as [E|E].
    + rewrite (bool_decide_true _ E). by rewrite bool_decide_true.
    + by rewrite !(bool_decide_false _ E).
  - apply list_fmap_ext. intros i r _. unfold on_digest. by case_bool_decide.
Qed.

(** The order a fill names, after the fill. *)
Definition filled_row (fill : NewFill) (r : OrderRow) : OrderRow :=
  let new_filled := Z.max (or_filled_taker r) (nf_filled_total fill) in
  mkOrderRow (or_values r) new_filled
    (if no_taker_amount (or_values r) <=? new_filled then FILLED else or_status r).

Lemma advance_order_update fill t :
  tables_wf t →
  exchange_orders (advance_order fill t) = on_digest (nf_digest fill) (filled_row fill) <$> exchange_orders t.
Proof.
  intros Hwf. rewrite advance_order_orders. destruct (order_row _ t) as [row|] eqn:E.
  - apply list_fmap_ext. intros i r Hi%list_elem_of_lookup_2. unfold on_digest.
    case_bool_decide as Hd; [|done]. apply order_row_iff in E as [Hrow Hd']; [|done].
    assert (r = row) as ->; [|done].
    apply (NoDup_fmap_inj_on or_digest (exchange_orders t)); [by apply tw_digests|done..|congruence].
  - apply order_row_None in E. symmetry. rewrite <- (list_fmap_id (exchange_orders t)) at 2.
    apply list_fmap_ext. intros i r Hi%list_elem_of_lookup_2. unfold on_digest.
    rewrite bool_decide_false; [done|]. intros Hd. apply E. subst. rewrite <- Hd. by apply list_elem_of_fmap_2.
Qed.

Lemma advance_order_rest fill t :
  exchange_markets (advance_order fill t) = exchange_markets t ∧
  exchange_fills (advance_order fill t) = exchange_fills t ∧
  exchange_balances (advance_order fill t) = exchange_balances t ∧
  exchange_approved_signers (advance_order fill t) = exchange_approved_signers t ∧
  exchange_vault_managers (advance_order fill t) = exchange_vault_managers t ∧
  exchange_salt_watermarks (advance_order fill t) = exchange_salt_watermarks t.
Proof. unfold advance_order. by repeat case_match. Qed.

Lemma has_fill_true i t : has_fill i t = true ↔ i ∈ fill_id <$> exchange_fills t.
Proof.
  unfold has_fill. rewrite existsb_elem, list_elem_of_fmap. setoid_rewrite bool_decide_eq_true.
  naive_solver.
Qed.

(** What recording a new fill does to the tables. *)
Definition record_fill (fill : NewFill) (t : Tables) : Tables :=
  if has_fill (fill_id fill) t then t
  else advance_order fill (set_fills (exchange_fills t ++ [fill]) t).

Lemma apply_fill_online fill t :
  online (apply_fill fill) t = (record_fill fill t, Ok (negb (has_fill (fill_id fill) t))).
Proof.
  unfold apply_fill, record_fill. run_sto. by destruct (has_fill (fill_id fill) t).
Qed.

Lemma record_fill_orders fill t :
  tables_wf t →
  exchange_orders (record_fill fill t) =
  if has_fill (fill_id fill) t then exchange_orders t
  else on_digest (nf_digest fill) (filled_row fill) <$> exchange_orders t.
Proof.
  intros Hwf. unfold record_fill. destruct (has_fill _ t); [done|].
  assert (∀ t', exchange_orders t' = exchange_orders t →
    exchange_orders (advance_order fill t') = exchange_orders (advance_order fill t)) as Hcongr.
  { intros t' Ht'. rewrite !advance_order_orders. unfold order_row. by rewrite Ht'. }
  rewrite Hcongr by done. by apply advance_order_update.
Qed.

Lemma record_fill_fills fill t :
  exchange_fills (record_fill fill t) =
  if has_fill (fill_id fill) t then exchange_fills t else exchange_fills t ++ [fill].
Proof.
  unfold record_fill. destruct (has_fill _ t); [done|].
  by destruct (advance_order_rest fill (set_fills (exchange_fills t ++ [fill]) t)) as (_ & -> & _).
Qed.

Lemma set_orders_map_wf (g : OrderRow → OrderRow) t t' :
  exchange_orders t' = g <$> exchange_orders t →
  (∀ r, r ∈ exchange_orders t → or_values (g r) = or_values r ∧
     (in_i64 (or_filled_taker r) → in_i64 (or_filled_taker (g r)))) →
  tables_wf t →
  NoDup (or_digest <$> exchange_orders t') ∧
  (∀ r, r ∈ exchange_orders t' → values_ok (or_values r) ∧ in_i64 (or_filled_taker r)) ∧
  (∀ r, r ∈ exchange_orders t' → is_Some (exchange_markets t !! no_registry_id (or_values r))).
Proof.
  intros Ho Hg Hwf. rewrite Ho. split_and!.
  - rewrite <- list_fmap_compose.
    rewrite (list_fmap_ext (or_digest ∘ g) or_digest); [by apply tw_digests|].
    intros i r Hi%list_elem_of_lookup_2. unfold or_digest. simpl. by rewrite (proj1 (Hg r Hi)).
  - intros r (r0 & -> & Hr0)%list_elem_of_fmap. destruct (Hg r0 Hr0) as [-> Hf].
    destruct (tw_values _ Hwf r0 Hr0). auto.
  - intros r (r0 & -> & Hr0)%list_elem_of_fmap. rewrite (proj1 (Hg r0 Hr0)). by apply tw_market.
Qed.

Lemma filled_row_ok fill r :
  i64 (nf_filled_total fill) →
  or_values (filled_row fill r) = or_values r ∧
  (in_i64 (or_filled_taker r) → in_i64 (or_filled_taker (filled_row fill r))).
Proof.
  intros Hf. split; [done|]. unfold in_i64, i64, filled_row in *. simpl. lia.
Qed.

Lemma record_fill_wf fill t :
  i64 (nf_filled_total fill) → tables_wf t → tables_wf (record_fill fill t).
Proof.
  intros Hf Hwf. pose proof (record_fill_orders fill t Hwf) as Ho.
  pose proof (record_fill_fills fill t) as Hfl.
  destruct (has_fill (fill_id fill) t) eqn:E.
  { unfold record_fill. by rewrite E. }
  destruct (set_orders_map_wf (on_digest (nf_digest fill) (filled_row fill)) t
              (record_fill fill t) Ho) as (W1 & W2 & W3); [|done|].
  { intros r _. unfold on_digest. case_bool; [by apply filled_row_ok|done]. }
  unfold record_fill in *. rewrite E in *.
  destruct (advance_order_rest fill (set_fills (exchange_fills t ++ [fill]) t))
    as (Em & _ & Eb & _ & _ & Ew).
  split; [done|done| | | | |].
  - intros r Hr. rewrite Em. by apply W3.
  - rewrite Hfl, fmap_app. simpl. apply NoDup_app. split; [by apply tw_fills|].
    split; [|apply NoDup_singleton]. intros i Hi ->%list_elem_of_singleton.
    apply has_fill_true in Hi. simpl in Hi. congruence.
  - intros id r. rewrite Em. exact (tw_markets _ Hwf id r).
  - intros k v. rewrite Eb. exact (tw_balances _ Hwf k v).
  - intros k v. rewrite Ew. exact (tw_watermarks _ Hwf k v).
Qed.

(** * Well-formedness is preserved *)

Definition tstep (op : StoreOp) (t : Tables) : Tables := (online (exec op) t).1.

Lemma exec_tstep op s :
  tables (exec op s).1 = tables s ∨ tables (exec op s).1 = tstep op (tables s).
Proof.
  destruct (exec_atomic op s) as [[p [H|H]] _]; rewrite H; [by left|by right].
Qed.

Lemma set_markets_wf ms t :
  (∀ id r, ms !! id = Some r → market_values_ok id (mr_values r)) →
  (∀ id, is_Some (exchange_markets t !! id) → is_Some (ms !! id)) →
  tables_wf t → tables_wf (set_markets ms t).
Proof. intros H1 H2 []. split; simpl; eauto. Qed.

Lemma insert_market_wf id r t :
  market_values_ok id (mr_values r) → tables_wf t →
  tables_wf (set_markets (<[id := r]> (exchange_markets t)) t).
Proof.
  intros Hr Hwf. apply set_markets_wf; [| |done].
  - intros id' r'. rewrite lookup_insert_Some. intros [[<- <-]|[_ ?]]; [done|by apply (tw_markets t)].
  - intros id'. rewrite lookup_insert_is_Some. destruct (decide (id = id')); auto.
Qed.

Lemma update_market_wf id f t :
  (∀ r, exchange_markets t !! id = Some r → market_values_ok id (mr_values r) →
        market_values_ok id (mr_values (f r))) →
  tables_wf t → tables_wf (update_market id f t).
Proof.
  intros Hf Hwf. apply set_markets_wf; [| |done].
  - intros id' r'. destruct (decide (id' = id)) as [->|].
    + rewrite lookup_alter_eq, fmap_Some. intros (r & Hr & ->). apply Hf; [done|].
      by apply (tw_markets t).
    + rewrite lookup_alter_ne by done. by apply (tw_markets t).
  - intros id'. by rewrite lookup_alter_is_Some.
Qed.

Lemma insert_order_wf d so side p b v t :
  order_wf (order so) → u64 p → new_order d so side p b = Ok v → order_row d t = None →
  is_Some (exchange_markets t !! no_registry_id v) →
  tables_wf t → tables_wf (set_orders (exchange_orders t ++ [mkOrderRow v 0 OPEN]) t).
Proof.
  intros Hso Hp Hv Hd Hm Hwf. apply new_order_Ok in Hv as (Hv & Hvd & _); [|done..].
  split; simpl; [|..|apply Hwf|apply Hwf|apply Hwf|apply Hwf].
  - rewrite fmap_app. apply NoDup_app. split; [by apply tw_digests|]. split; [|apply NoDup_singleton].
    intros d' Hd' ->%list_elem_of_singleton. unfold or_digest at 1 in Hd'. simpl in Hd'.
    rewrite Hvd in Hd'. by apply order_row_None in Hd.
  - intros r [Hr| ->%list_elem_of_singleton]%elem_of_app; [by apply (tw_values t)|].
    split; [done|]. simpl. unfold in_i64. vm_compute. split; discriminate.
  - intros r [Hr| ->%list_elem_of_singleton]%elem_of_app; [by apply (tw_market t)|done].
Qed.

Lemma set_balances_wf k v t :
  in_i64 v → tables_wf t → tables_wf (set_balances (<[k := v]> (exchange_balances t)) t).
Proof.
  intros Hv []. split; simpl; eauto. intros k' v'.
  rewrite lookup_insert_Some. intros [[_ <-]|[_ ?]]; eauto.
Qed.

Lemma set_watermarks_wf k v t :
  in_i64 v → tables_wf t → tables_wf (set_watermarks (<[k := v]> (exchange_salt_watermarks t)) t).
Proof.
  intros Hv []. split; simpl; eauto. intros k' v'.
  rewrite lookup_insert_Some. intros [[_ <-]|[_ ?]]; eauto.
Qed.

(** The clamped sum of a balance and a delta. *)
Lemma clamped_in_i64 a d : in_i64 (Z.max (i64_saturating_add a d) 0).
Proof. unfold in_i64, i64_saturating_add, i64_min, i64_max. lia. Qed.

Lemma max_in_i64 a b : in_i64 a → in_i64 b → in_i64 (Z.max a b).
Proof. unfold in_i64. lia. Qed.

Lemma default_in_i64 (m : gmap (SuiAddress * SuiAddress) Z) k :
  (∀ k v, m !! k = Some v → in_i64 v) → in_i64 (default 0 (m !! k)).
Proof. intros H. destruct (m !! k) eqn:E; simpl; [eauto|]. unfold in_i64, i64_max. lia. Qed.

Lemma disable_wf ids t :
  tables_wf t →
  tables_wf (set_markets (map_imap (λ id r,
    Some (if is_stale ids id r then mkMarketRow (mr_values r) false (mr_paused r) else r))
    (exchange_markets t)) t).
Proof.
  intros Hwf. apply set_markets_wf; [| |done].
  - intros id r. rewrite map_lookup_imap. intros (r0 & Hr0 & [= <-])%bind_Some.
    apply (tw_markets t) in Hr0; [|done]. by case_match.
  - intros id [r Hr]. rewrite map_lookup_imap, Hr. eauto.
Qed.

Lemma tstep_wf op t : op_wf op → tables_wf t → tables_wf (tstep op t).
Proof.
  intros Hop Hwf. unfold tstep. destruct op; simpl exec; simpl in Hop.
  - unfold upsert_market. run_sto. destruct (market_row m Deployments) as [row|] eqn:E; [|done].
    apply market_row_Ok in E as (Hrow & _); [|done]. cbn [fst].
    apply insert_market_wf; [|done]. rewrite (proj1 Hrow). by case_match.
  - unfold insert_discovered_market. run_sto. destruct (market_row m Discovered) as [row|] eqn:E; [|done].
    apply market_row_Ok in E as (Hrow & _); [|done]. destruct (exchange_markets t !! _); [done|].
    cbn [fst tables]. apply insert_market_wf; [|done]. by rewrite (proj1 Hrow).
  - unfold disable_markets_absent_from. run_sto. by apply disable_wf.
  - by apply update_market_wf.
  - unfold set_market_fee. run_sto. destruct (to_i64 fee_bps) as [fee|] eqn:E; [|done].
    apply to_i64_Ok in E as [-> Hfee]; [|unfold u64 in *; lia]. cbn [fst tables].
    apply update_market_wf; [|done]. intros r _ (? & ? & ? & ? & _). by split_and!.
  - unfold insert_order. run_sto. destruct (new_order _ _ _ _ _) as [v|] eqn:E; [|done].
    case_bool_decide as Hd; [done|]. case_bool_decide as Hm; [done|]. destruct Hop. cbn [fst tables].
    eapply insert_order_wf; [done..| |by apply not_eq_None_Some|done]. by apply eq_None_not_Some.
  - apply update_order_wf; by try done.
  - rewrite online_void, apply_fill_online. by apply record_fill_wf.
  - unfold apply_balance_delta. run_sto. cbn [fst tables]. apply set_balances_wf; [apply clamped_in_i64|done].
  - unfold set_signer. run_sto. cbn [fst tables]. destruct approved; by destruct Hwf; split.
  - unfold upsert_vault_manager. run_sto. cbn [fst tables]. by destruct Hwf; split.
  - unfold set_watermark. run_sto. destruct (to_i64 _) as [s|] eqn:E; [|done].
    apply to_i64_Ok in E as [-> Hs]; [|unfold u64 in *; lia]. cbn [fst tables].
    apply set_watermarks_wf; [|done]. apply max_in_i64; [|done]. apply default_in_i64, Hwf.
  - unfold save_cursor. run_sto. cbn [fst tables]. by destruct Hwf; split.
Qed.

Lemma exec_wf op s : op_wf op → tables_wf (tables s) → tables_wf (tables (exec op s).1).
Proof. intros Hop Hwf. destruct (exec_tstep op s) as [->| ->]; [done|by apply tstep_wf]. Qed.

(** * Commitments *)

Definition committed (manager_id : SuiAddress) (maker_token : rstring) (t : Tables) : Z :=
  foldl (λ total r, u64_saturating_add total (row_commitment r)) 0
    (List.filter (commits manager_id maker_token) (exchange_orders t)).

Lemma row_commitment_nonneg r : 0 ≤ row_commitment r.
Proof. unfold row_commitment, u64_saturating_sub. cbn zeta. lia. Qed.

Lemma saturating_sum l acc :
  0 ≤ acc ≤ u64_max →
  foldl (λ total r, u64_saturating_add total (row_commitment r)) acc l =
  Z.min (acc + Zsum_with row_commitment l) u64_max.
Proof.
  revert acc. induction l as [|r l IH]; intros acc Hacc; cbn [foldl].
  - rewrite Zsum_with_nil. lia.
  - pose proof (row_commitment_nonneg r).
    pose proof (Zsum_with_nonneg row_commitment l ltac:(intros; apply row_commitment_nonneg)).
    rewrite Zsum_with_cons, IH; unfold u64_saturating_add; lia.
Qed.

(** The commitment of a manager in a token: the saturated sum over its open
    orders selling that token. *)
Lemma committed_sum mgr tok t :
  committed mgr tok t =
  Z.min (Zsum_with row_commitment (List.filter (commits mgr tok) (exchange_orders t))) u64_max.
Proof. unfold committed. rewrite saturating_sum; [f_equal; lia|]. unfold u64_max. lia. Qed.

(** The commitment of a well-formed order: its maker amount less the
    rounded-down share already filled. *)
Lemma row_commitment_spec r :
  values_ok (or_values r) → in_i64 (or_filled_taker r) →
  or_filled_taker r ≤ no_taker_amount (or_values r) →
  row_commitment r = no_maker_amount (or_values r) -
    or_filled_taker r * no_maker_amount (or_values r) / Z.max (no_taker_amount (or_values r)) 1.
Proof.
  intros (_ & _ & _ & _ & _ & _ & _ & _ & _ & _ & _ & _ & Ht & Hm) Hf Hle.
  unfold row_commitment. cbn zeta. rewrite !in_i64_as_u64 by done.
  set (m := no_maker_amount _) in *. set (t := no_taker_amount _) in *. set (f := or_filled_taker r) in *.
  assert (f * m / Z.max t 1 ≤ m) as Hq.
  { apply Z.div_le_upper_bound; unfold in_i64 in *; nia. }
  rewrite muldiv_floor_exact; [|by apply in_i64_u64..| |].
  - unfold u64_saturating_sub. lia.
  - lia.
  - apply in_i64_u64 in Hm. unfold u64 in Hm. lia.
Qed.

Lemma row_commitment_new v : values_ok v → row_commitment (mkOrderRow v 0 OPEN) = no_maker_amount v.
Proof.
  intros Hv. pose proof Hv as (_ & _ & _ & _ & _ & _ & _ & _ & _ & _ & _ & _ & Ht & Hm).
  rewrite row_commitment_spec; cbn [or_values or_filled_taker].
  - rewrite Z.mul_0_l, Z.div_0_l; lia.
  - done.
  - unfold in_i64, i64_max. lia.
  - unfold in_i64 in Ht. lia.
Qed.

Lemma committed_insert mgr tok v t :
  values_ok v →
  committed mgr tok (set_orders (exchange_orders t ++ [mkOrderRow v 0 OPEN]) t) =
  if bool_decide (no_manager_id v = mgr) && bool_decide (no_maker_token v = tok)
  then u64_saturating_add (committed mgr tok t) (no_maker_amount v)
  else committed mgr tok t.
Proof.
  intros Hv. rewrite !committed_sum. cbn [exchange_orders set_orders].
  rewrite List.filter_app, Zsum_with_app. cbn [List.filter].
  assert (commits mgr tok (mkOrderRow v 0 OPEN) =
    bool_decide (no_manager_id v = mgr) && bool_decide (no_maker_token v = tok)) as ->.
  { unfold commits. apply andb_true_r. }
  pose proof (Zsum_with_nonneg row_commitment (List.filter (commits mgr tok) (exchange_orders t))
    ltac:(intros; apply row_commitment_nonneg)).
  case_bool; rewrite ?Zsum_with_cons, ?Zsum_with_nil, ?row_commitment_new by done.
  - unfold u64_saturating_add. destruct Hv as (_ & _ & _ & _ & _ & _ & _ & _ & _ & _ & _ & _ & _ & Hm).
    unfold in_i64 in Hm. lia.
  - lia.
Qed.
