(* ===== verification/RepoTheorems.v ===== *)
(** The properties of the repository, with concrete instances. *)

From S2P Require Import Prelude RustStr ExchangeTypes Demo Repo RepoProps.

(** * History *)

Definition store_run (ops : list StoreOp) (s : Store) : Store := foldl (λ s op, (exec op s).1) s ops.

(** What a later state of the tables keeps of an earlier one. *)
Record evolves (t t' : Tables) : Prop := {
  ev_orders d r : order_row d t = Some r →
    ∃ r', order_row d t' = Some r' ∧ or_values r' = or_values r ∧ or_filled_taker r ≤ or_filled_taker r';
  ev_fills : exchange_fills t `prefix_of` exchange_fills t';
  ev_watermarks k :
    default 0 (exchange_salt_watermarks t !! k) ≤ default 0 (exchange_salt_watermarks t' !! k);
  ev_markets id r : exchange_markets t !! id = Some r →
    ∃ r', exchange_markets t' !! id = Some r' ∧ (mr_enabled r' = true → mr_enabled r = true);
}.

#[export] Instance evolves_preorder : PreOrder evolves.
Proof.
  split.
  - intros t. split; [|done|done|]; eauto with lia.
  - intros t1 t2 t3 [] []. split.
    + intros d r Hr. apply ev_orders0 in Hr as (r' & Hr' & ? & ?).
      apply ev_orders1 in Hr' as (r'' & ? & ? & ?). exists r''. split_and!; [done|congruence|lia].
    + by transitivity (exchange_fills t2).
    + intros k. etransitivity; [apply ev_watermarks0|apply ev_watermarks1].
    + intros id r Hr. apply ev_markets0 in Hr as (r' & Hr' & ?).
      apply ev_markets1 in Hr' as (r'' & ? & ?). eauto.
Qed.

(** Tables that differ only in what [evolves] does not mention. *)
Lemma evolves_same t t' :
  exchange_orders t' = exchange_orders t → exchange_fills t' = exchange_fills t →
  exchange_salt_watermarks t' = exchange_salt_watermarks t → exchange_markets t' = exchange_markets t →
  evolves t t'.
Proof.
  intros Ho Hf Hw Hm. split; rewrite ?Hf, ?Hm; [|done|..|eauto].
  - intros d r. unfold order_row. rewrite Ho. eauto with lia.
  - intros k. rewrite Hw. lia.
Qed.

Lemma evolves_markets ms t :
  (∀ id r, exchange_markets t !! id = Some r →
     ∃ r', ms !! id = Some r' ∧ (mr_enabled r' = true → mr_enabled r = true)) →
  evolves t (set_markets ms t).
Proof. intros H. split; simpl; [eauto with lia|done|done|done]. Qed.

Lemma evolves_insert_market id r t :
  (∀ r0, exchange_markets t !! id = Some r0 → mr_enabled r = mr_enabled r0) →
  evolves t (set_markets (<[id := r]> (exchange_markets t)) t).
Proof.
  intros H. apply evolves_markets. intros id' r0 Hr0. destruct (decide (id' = id)) as [->|].
  - exists r. rewrite lookup_insert_eq. split; [done|]. by rewrite (H _ Hr0).
  - exists r0. by rewrite lookup_insert_ne.
Qed.

Lemma evolves_update_market id f t :
  (∀ r, mr_enabled (f r) = mr_enabled r) → evolves t (update_market id f t).
Proof.
  intros H. apply evolves_markets. intros id' r Hr. destruct (decide (id' = id)) as [->|].
  - exists (f r). rewrite lookup_alter_eq, Hr, H. done.
  - exists r. by rewrite lookup_alter_ne.
Qed.

Lemma evolves_update_order d f t :
  (∀ r, or_values (f r) = or_values r ∧ or_filled_taker r ≤ or_filled_taker (f r)) →
  evolves t (update_order d f t).
Proof.
  intros Hf. split; [|done|done|simpl; eauto].
  intros d' r Hr. exists (on_digest d f r). rewrite order_row_update, Hr.
  - split; [done|]. unfold on_digest. case_bool; [apply Hf|]. split; [done|lia].
  - intros r0. unfold or_digest. by rewrite (proj1 (Hf r0)).
Qed.

Lemma evolves_record_fill f t : tables_wf t → evolves t (record_fill f t).
Proof.
  intros Hwf. unfold record_fill. destruct (has_fill _ t) eqn:E; [done|].
  pose proof (record_fill_orders f t Hwf) as Ho. unfold record_fill in Ho. rewrite E in Ho.
  destruct (advance_order_rest f (set_fills (exchange_fills t ++ [f]) t)) as (Em & Ef & _ & _ & _ & Ew).
  split; rewrite ?Em, ?Ew; [| |done|simpl; eauto].
  - intros d r Hr. exists (on_digest (nf_digest f) (filled_row f) r). split; [|].
    + transitivity (order_row d (update_order (nf_digest f) (filled_row f) t)).
      * unfold order_row. by rewrite Ho.
      * by rewrite order_row_update, Hr.
    + unfold on_digest. case_bool; simpl; [split; [done|lia]|split; [done|lia]].
  - rewrite Ef. simpl. by exists [f].
Qed.

Lemma evolves_watermark k v t :
  default 0 (exchange_salt_watermarks t !! k) ≤ v →
  evolves t (set_watermarks (<[k := v]> (exchange_salt_watermarks t)) t).
Proof.
  intros Hv. split; simpl; [eauto with lia|done| |eauto].
  intros k'. destruct (decide (k' = k)) as [->|].
  - by rewrite lookup_insert_eq.
  - rewrite lookup_insert_ne by done. lia.
Qed.

Lemma evolves_insert_order v t :
  order_row (no_digest v) t = None →
  evolves t (set_orders (exchange_orders t ++ [mkOrderRow v 0 OPEN]) t).
Proof.
  intros Hd. split; simpl; [|done|done|eauto].
  intros d r Hr. exists r. split; [|by split].
  unfold order_row in *. simpl. rewrite bfind_app, Hr. done.
Qed.

Lemma tstep_evolves op t : op_wf op → tables_wf t → evolves t (tstep op t).
Proof.
  intros Hop Hwf. unfold tstep. destruct op; simpl exec; simpl in Hop.
  - unfold upsert_market. run_sto. destruct (market_row m Deployments) as [row|]; [|done].
    apply evolves_insert_market. intros r0 Hr0. by rewrite Hr0.
  - unfold insert_discovered_market. run_sto. destruct (market_row m Discovered) as [row|]; [|done].
    destruct (exchange_markets t !! _) eqn:E; [done|]. apply evolves_insert_market.
    intros r0 Hr0. simpl in Hr0; congruence.
  - unfold disable_markets_absent_from. run_sto. apply evolves_markets. intros id r Hr.
    rewrite map_lookup_imap, Hr. eexists. split; [done|]. by case_match.
  - by apply evolves_update_market.
  - unfold set_market_fee. run_sto. destruct (to_i64 fee_bps); [|done]. by apply evolves_update_market.
  - unfold insert_order. run_sto. destruct (new_order _ _ _ _ _) as [v|] eqn:E; [|done].
    case_bool_decide as Hd; [done|]. case_bool_decide; [done|].
    apply evolves_insert_order. destruct Hop as [Ho Hp].
    apply new_order_Ok in E as (_ & -> & _); [|done..]. by apply eq_None_not_Some.
  - apply evolves_update_order. intros r. split; [done|]. simpl. lia.
  - rewrite online_void, apply_fill_online. by apply evolves_record_fill.
  - unfold apply_balance_delta. run_sto. by apply evolves_same.
  - unfold set_signer. run_sto. destruct approved; by apply evolves_same.
  - unfold upsert_vault_manager. run_sto. by apply evolves_same.
  - unfold set_watermark. run_sto. destruct (to_i64 _); [|done]. apply evolves_watermark. lia.
  - unfold save_cursor. run_sto. by apply evolves_same.
Qed.

Lemma store_run_app ops1 ops2 s : store_run (ops1 ++ ops2) s = store_run ops2 (store_run ops1 s).
Proof. apply foldl_app. Qed.

Lemma store_run_wf ops s :
  Forall op_wf ops → tables_wf (tables s) →
  tables_wf (tables (store_run ops s)) ∧ evolves (tables s) (tables (store_run ops s)).
Proof.
  intros Hops. revert s. induction Hops as [|op ops Hop Hops IH]; intros s Hwf; [done|].
  simpl. destruct (IH (exec op s).1) as [Hwf' Hev]; [by apply exec_wf|]. split; [done|].
  etransitivity; [|exact Hev]. destruct (exec_tstep op s) as [->| ->]; [done|by apply tstep_evolves].
Qed.

(** C20: Whatever operations run on the store, in whatever order and with
    whatever connection outages: the tables stay well formed (keys unique,
    every order on a listed market and equal to what was signed, amounts
    in range, balances and watermarks never negative); history only grows
    (no order or fill is lost, cumulative fills and watermarks never
    decrease, no delisted market is listed again); and an operation that
    returns an error has changed nothing. *)
Theorem store_history ops outages ops1 ops2 op e :
  Forall op_wf ops → ops = ops1 ++ ops2 →
  let s1 := store_run ops1 (mkStore empty_tables outages) in
  let s := store_run ops (mkStore empty_tables outages) in
  tables_wf (tables s) ∧ evolves (tables s1) (tables s) ∧
  ((exec op s).2 = Err e → tables (exec op s).1 = tables s).
Proof.
  intros Hops -> s1 s. apply Forall_app in Hops as [H1 H2]. split_and!.
  - apply store_run_wf; [by apply Forall_app|apply empty_tables_wf].
  - unfold s. rewrite store_run_app. apply store_run_wf; [done|].
    apply store_run_wf; [done|apply empty_tables_wf].
  - apply (exec_atomic op s).
Qed.

(** * Fills *)

(** The tables after the confirmed fills [fs] have been applied in order. *)
Definition apply_fills (fs : list NewFill) (t : Tables) : Tables :=
  tables (store_run (ApplyFill <$> fs) (mkStore t [])).

(** What a list of new fills makes of a row. *)
Definition absorb (r : OrderRow) (fs : list NewFill) : OrderRow :=
  foldl (λ r f, on_digest (nf_digest f) (filled_row f) r) r fs.

Definition filled_totals (d : Digest) (fs : list NewFill) : list Z :=
  nf_filled_total <$> List.filter (λ f, bool_decide (nf_digest f = d)) fs.

Lemma apply_fills_cons f fs t : apply_fills (f :: fs) t = apply_fills fs (record_fill f t).
Proof.
  unfold apply_fills. cbn [fmap list_fmap store_run foldl exec]. f_equal. f_equal.
  unfold apply_fill, record_fill. run_sto. by destruct (has_fill (fill_id f) t).
Qed.

Lemma absorb_cons r f fs : absorb r (f :: fs) = absorb (on_digest (nf_digest f) (filled_row f) r) fs.
Proof. done. Qed.

Lemma absorb_comm f g r :
  on_digest (nf_digest f) (filled_row f) (on_digest (nf_digest g) (filled_row g) r) =
  on_digest (nf_digest g) (filled_row g) (on_digest (nf_digest f) (filled_row f) r).
Proof.
  unfold on_digest.
  destruct (decide (or_digest r = nf_digest f)) as [Ef|Ef], (decide (or_digest r = nf_digest g)) as [Eg|Eg];
    repeat (rewrite ?(bool_decide_true _ Ef), ?(bool_decide_false _ Ef),
                    ?(bool_decide_true _ Eg), ?(bool_decide_false _ Eg)); try done.
  - unfold filled_row. cbn [or_filled_taker or_values or_status].
    rewrite <- !Z.max_assoc, (Z.max_comm (nf_filled_total g) (nf_filled_total f)). f_equal.
    repeat case_bool; reflect_bools; done || lia.
Qed.

Lemma absorb_perm r fs gs : fs ≡ₚ gs → absorb r fs = absorb r gs.
Proof.
  intros Hp. revert r. induction Hp as [|f fs gs _ IH|f g fs|fs gs hs _ IH1 _ IH2]; intros r.
  - done.
  - apply IH.
  - rewrite !absorb_cons. by rewrite absorb_comm.
  - by rewrite IH1.
Qed.

Lemma absorb_values r fs : or_values (absorb r fs) = or_values r.
Proof.
  revert r. induction fs as [|f fs IH]; intros r; [done|]. rewrite absorb_cons, IH.
  unfold on_digest. by case_bool.
Qed.

Lemma absorb_filled r fs :
  or_filled_taker (absorb r fs) = foldr Z.max (or_filled_taker r) (filled_totals (or_digest r) fs).
Proof.
  revert r. induction fs as [|f fs IH]; intros r; [done|]. rewrite absorb_cons, IH.
  unfold on_digest, filled_totals. cbn [List.filter]. rewrite (bool_decide_ext (nf_digest f = or_digest r) (or_digest r = nf_digest f)) by naive_solver.
  case_bool_decide as E; [|done]. cbn [fmap list_fmap foldr].
  change (or_digest (filled_row f r)) with (or_digest r). generalize (nf_filled_total <$>
    List.filter (λ f0, bool_decide (nf_digest f0 = or_digest r)) fs). intros l.
  cbn [filled_row or_filled_taker]. induction l as [|x l IHl]; simpl; lia.
Qed.

(** The fills that get recorded, and the orders they advance. *)
Lemma apply_fills_new fs t :
  tables_wf t → Forall (λ f, i64 (nf_filled_total f)) fs →
  (∀ f g, f ∈ fs → g ∈ fs → fill_id f = fill_id g → f = g) →
  ∃ new, exchange_fills (apply_fills fs t) = exchange_fills t ++ new ∧
    (∀ f, f ∈ new ↔ f ∈ fs ∧ has_fill (fill_id f) t = false) ∧
    exchange_orders (apply_fills fs t) = (λ r, absorb r new) <$> exchange_orders t ∧
    tables_wf (apply_fills fs t).
Proof.
  intros Hwf Hfs. revert t Hwf. induction Hfs as [|f fs Hf Hfs IH]; intros t Hwf Hid.
  - exists []. change (apply_fills [] t) with t. rewrite app_nil_r, list_fmap_id. set_solver.
  - rewrite apply_fills_cons.
    destruct (IH (record_fill f t)) as (new & Enew & Hnew & Eorders & Hwf');
      [by apply record_fill_wf|intros f0 g0 ? ?; apply Hid; by right|].
    rewrite record_fill_fills, record_fill_orders in * by done.
    assert (∀ i, has_fill i (record_fill f t) = true ↔
      has_fill i t = true ∨ i = fill_id f) as Hhas.
    { intros i. rewrite !has_fill_true, record_fill_fills. destruct (has_fill (fill_id f) t) eqn:E.
      - apply has_fill_true in E. naive_solver.
      - rewrite fmap_app, elem_of_app. simpl. by rewrite list_elem_of_singleton. }
    assert (∀ i, has_fill i (record_fill f t) = false ↔
      has_fill i t = false ∧ i ≠ fill_id f) as Hhas'.
    { intros i. specialize (Hhas i). destruct (has_fill i (record_fill f t)), (has_fill i t); naive_solver. }
    setoid_rewrite Hhas' in Hnew. clear Hhas Hhas'.
    destruct (has_fill (fill_id f) t) eqn:E.
    + exists new. split_and!; [done| |done|done]. intros g. rewrite Hnew, elem_of_cons.
      split; [naive_solver|]. intros [[->|Hg] Hgt]; [congruence|]. split_and!; [done..|congruence].
    + exists (f :: new). rewrite Enew, Eorders, <- app_assoc, <- list_fmap_compose.
      split_and!; [done| |done|done]. intros g. rewrite !elem_of_cons, Hnew.
      split; [naive_solver|]. intros [[->|Hg] Hgt]; [by left|].
      destruct (decide (fill_id g = fill_id f)) as [Eid|]; [|naive_solver].
      left. apply (Hid g f); [by right|by left|done].
Qed.

(** C21: Chain fills may be delivered again and out of order: two deliveries
    of the same set of fill events lead to the same orders and the same
    recorded fills, and the cumulative fill of an order is then the greatest
    of what it was and the totals of its new events. *)
Theorem fills_order_insensitive fs fs' t :
  tables_wf t → Forall (λ f, i64 (nf_filled_total f)) fs →
  (∀ f g, f ∈ fs → g ∈ fs → fill_id f = fill_id g → f = g) →
  (∀ f, f ∈ fs ↔ f ∈ fs') →
  exchange_orders (apply_fills fs' t) = exchange_orders (apply_fills fs t) ∧
  exchange_fills (apply_fills fs' t) ≡ₚ exchange_fills (apply_fills fs t) ∧
  ∃ new, exchange_fills (apply_fills fs t) = exchange_fills t ++ new ∧
    (∀ f, f ∈ new ↔ f ∈ fs ∧ has_fill (fill_id f) t = false) ∧
    ∀ d r, order_row d t = Some r → ∃ r', order_row d (apply_fills fs t) = Some r' ∧
      or_filled_taker r' = foldr Z.max (or_filled_taker r) (filled_totals d new).
Proof.
  intros Hwf Hfs Hid Hsame.
  destruct (apply_fills_new fs t) as (new & E & Hnew & Eo & Hwf1); [done..|].
  destruct (apply_fills_new fs' t) as (new' & E' & Hnew' & Eo' & Hwf2); [done| | |].
  2: { intros f g ?%Hsame ?%Hsame. by apply Hid. }
  { apply Forall_forall. intros f Hf%Hsame. by apply (proj1 (Forall_forall _ fs) Hfs). }
  assert (∀ l t', tables_wf t' → exchange_fills t' = exchange_fills t ++ l → NoDup l) as Hnd.
  { intros l t' Hw Hl. pose proof (tw_fills _ Hw) as H. rewrite Hl, fmap_app in H.
    apply NoDup_app in H as (_ & _ & H). by apply NoDup_fmap_1 in H. }
  assert (new' ≡ₚ new) as Hp.
  { apply NoDup_Permutation; [exact (Hnd new' _ Hwf2 E')|exact (Hnd new _ Hwf1 E)|].
    intros f. rewrite Hnew, Hnew', Hsame. done. }
  split_and!.
  - rewrite Eo, Eo'. apply list_fmap_ext. intros i r _. by apply absorb_perm.
  - rewrite E, E'. by rewrite Hp.
  - exists new. split_and!; [done..|]. intros d r Hr. apply order_row_iff in Hr as [Hr Hd]; [|done].
    exists (absorb r new). split.
    + apply order_row_iff; [done|]. rewrite Eo. split; [by apply (list_elem_of_fmap_2 (λ r, absorb r new))|].
      unfold or_digest. rewrite absorb_values. exact Hd.
    + rewrite absorb_filled. by rewrite Hd.
Qed.

(** * Concrete instances *)

Definition demo_signed (s : Side) (mk n ticks : Z) : SignedOrder :=
  mkSignedOrder (demo_order s mk n ticks) (demo_addr 7) Ed25519 (replicate 64 7) (replicate 32 3).

Definition demo_fill (seq n total : Z) : NewFill :=
  mkNewFill (str "tx") seq (demo_digest 1) (demo_addr 7) (demo_addr 1) (demo_addr 5) n 5 0 0 true total 10.

Definition demo_setup : list StoreOp :=
  [UpsertMarket demo_market;
   BalanceDelta (demo_addr 9) (base demo_market) 5000;
   InsertOrder (demo_digest 1) (demo_signed Ask 1 1000 5) Ask 5 []].

Definition demo_later : list StoreOp :=
  [ApplyFill (demo_fill 0 400 2); ApplyFill (demo_fill 0 400 2);
   SetWatermark (demo_addr 7) (demo_addr 1) 3; BalanceDelta (demo_addr 9) (base demo_market) (-9000)].

Lemma demo_market_wf : market_wf demo_market.
Proof. by vm_compute. Qed.

Lemma demo_ops_wf : Forall op_wf (demo_setup ++ demo_later).
Proof.
  assert (order_wf (demo_order Ask 1 1000 5)) as Ho.
  { apply demo_order_wf; [lia|split; vm_compute; discriminate..]. }
  unfold demo_setup, demo_later. cbn [app].
  repeat (apply Forall_cons; split); try apply Forall_nil; cbn [op_wf];
    first [exact demo_market_wf|exact I|split; [exact Ho|]|idtac]; split; vm_compute; discriminate.
Qed.

(** One outage, at the second call; the withdrawal is clamped at zero. *)
Lemma store_history_witness :
  let s1 := store_run demo_setup (mkStore empty_tables [true; false]) in
  let s := store_run (demo_setup ++ demo_later) (mkStore empty_tables [true; false]) in
  tables_wf (tables s) ∧ evolves (tables s1) (tables s) ∧
  or_filled_taker <$> exchange_orders (tables s) = [2].
Proof.
  intros s1 s.
  destruct (store_history (demo_setup ++ demo_later) [true; false] demo_setup demo_later
    (SetPaused (demo_addr 7) true) Pool demo_ops_wf eq_refl) as (H1 & H2 & _).
  split; [exact H1|]. split; [exact H2|]. vm_compute. reflexivity.
Defined.

Definition demo_tables : Tables := tables (store_run demo_setup (mkStore empty_tables [])).

Lemma demo_tables_wf : tables_wf demo_tables.
Proof.
  apply store_run_wf; [|apply empty_tables_wf]. pose proof demo_ops_wf as H.
  by apply Forall_app in H as [H _].
Qed.

Lemma fills_order_insensitive_witness :
  exchange_orders (apply_fills [demo_fill 1 300 4; demo_fill 0 200 2; demo_fill 1 300 4] demo_tables) =
  exchange_orders (apply_fills [demo_fill 0 200 2; demo_fill 1 300 4] demo_tables) ∧
  or_filled_taker <$> exchange_orders
    (apply_fills [demo_fill 0 200 2; demo_fill 1 300 4] demo_tables) = [4].
Proof.
  split; [|vm_compute; reflexivity].
  refine (proj1 (fills_order_insensitive [demo_fill 0 200 2; demo_fill 1 300 4]
    [demo_fill 1 300 4; demo_fill 0 200 2; demo_fill 1 300 4] demo_tables demo_tables_wf _ _ _)).
  - repeat constructor; vm_compute; discriminate.
  - intros f g Hf Hg. rewrite !elem_of_cons, elem_of_nil in Hf, Hg.
    destruct Hf as [->|[->|[]]], Hg as [->|[->|[]]]; done.
  - intros f. rewrite !elem_of_cons. naive_solver.
Defined.
