(* ===== verification/Intake.v ===== *)
(** [services/orderbook/src/intake.rs]: the order intake pipeline.  What it
    needs of the service state and of the store is the interface
    [IntakeState]; [IntakeStateSpec] says what the store promises.  The text
    of an error's [detail] is not modelled. *)

From S2P Require Import Prelude Prog RustStr ExchangeTypes Book MoveType Crates Signing Repo.

(** [state.rs]: the expiry window. *)
Record IntakeConfig := mkIntakeConfig { min_ttl_ms : Z; max_ttl_ms : Z }.

Definition IntakeConfig_default : IntakeConfig := mkIntakeConfig 30000 (24 * 60 * 60 * 1000).

Module Code.
Inductive IntakeErrorCode :=
  | UnknownMarket
  | MarketPaused
  | TokenMismatch
  | ZeroAmount
  | AmountRange
  | OffTick
  | BelowMinSize
  | ExpiryTooSoon
  | ExpiryTooFar
  | SaltNotMonotonic
  | SaltVoided
  | BadSignature
  | SignerNotAuthorized
  | InsufficientEscrow
  | Duplicate
  | Internal.

#[export] Instance IntakeErrorCode_eq_dec : EqDecision IntakeErrorCode.
Proof. solve_decision. Defined.
End Code.
Import Code.

Section stateless.
Context `{BcsCrate, CryptoCrates}.

Definition is_canonical (t : rstring) : bool :=
  match canonicalize_move_type t with Ok c => bool_decide (c = t) | Err _ => false end.

Definition book_error_code (e : BookError) : IntakeErrorCode :=
  match e with
  | Book.WrongMarket => TokenMismatch
  | Book.OffTick => OffTick
  | Book.BelowMinSize => BelowMinSize
  | Book.Duplicate | Book.Overflow => Internal
  end.

Definition validate_stateless (market : Market) (signed : SignedOrder) (cfg : IntakeConfig) (now : Z)
    : result IntakeErrorCode (Digest * Side * Z) :=
  let o := order signed in
  if negb (bool_decide (registry_id signed = m_registry_id market)) then Err UnknownMarket else
  if negb (is_canonical (maker_token o)) then Err TokenMismatch else
  if negb (is_canonical (taker_token o)) then Err TokenMismatch else
  if (maker_amount o =? 0) || (taker_amount o =? 0) then Err ZeroAmount else
  if (i64_max <? maker_amount o) || (i64_max <? taker_amount o) then Err AmountRange else
  '(side, price_ticks, _) ← map_err book_error_code (price_and_size market o);
  if expiry_ms o <? u64_add now (min_ttl_ms cfg) then Err ExpiryTooSoon else
  if u64_add now (max_ttl_ms cfg) <? expiry_ms o then Err ExpiryTooFar else
  let digest := order_digest o (registry_id signed) in
  _ ← map_err (λ _, BadSignature)
        (verify_signature (scheme signed) (digest_bytes digest) (signature signed) (public_key signed));
  Ok (digest, side, price_ticks).
End stateless.

(** * The interface to the service state *)

(** The served markets, and the seven store calls of the pipeline. *)
Class IntakeState (S : Type) := {
  is_market : S → SuiAddress → option Market;
  is_paused : S → SuiAddress → bool;
  is_config : S → IntakeConfig;
  db_is_approved_signer : SuiAddress → SuiAddress → S → S * result StoreError bool;
  db_watermark : SuiAddress → SuiAddress → S → S * result StoreError Z;
  db_max_salt : SuiAddress → SuiAddress → S → S * result StoreError (option Z);
  db_vault_manager : SuiAddress → S → S * result StoreError (option VaultManagerRow);
  db_balance : SuiAddress → rstring → S → S * result StoreError Z;
  db_open_commitment : SuiAddress → rstring → S → S * result StoreError Z;
  db_insert_order : Digest → SignedOrder → Side → Z → list Z → S → S * result StoreError unit;
}.

(** What the pipeline sees of the store. *)
Record IntakeView := mkIntakeView {
  v_approved : SuiAddress → SuiAddress → bool;
  v_watermark : SuiAddress → SuiAddress → Z;
  v_max_salt : SuiAddress → SuiAddress → option Z;
  v_vault : SuiAddress → option VaultManagerRow;
  v_balance : SuiAddress → rstring → Z;
  v_committed : SuiAddress → rstring → Z;
  v_known : Digest → bool;
}.

(** The view after an order has been recorded. *)
Record view_inserted (d : Digest) (o : SignedOrder) (v v' : IntakeView) : Prop := {
  vi_approved mgr sg : v_approved v' mgr sg = v_approved v mgr sg;
  vi_watermark r mk : v_watermark v' r mk = v_watermark v r mk;
  vi_max_salt r mk : v_max_salt v' r mk =
    if bool_decide (registry_id o = r) && bool_decide (maker (order o) = mk)
    then Some (Z.max (default 0 (v_max_salt v r mk)) (salt (order o)))
    else v_max_salt v r mk;
  vi_vault mgr : v_vault v' mgr = v_vault v mgr;
  vi_balance mgr tok : v_balance v' mgr tok = v_balance v mgr tok;
  vi_committed mgr tok : v_committed v' mgr tok =
    if bool_decide (maker_manager_id (order o) = mgr) && bool_decide (maker_token (order o) = tok)
    then u64_saturating_add (v_committed v mgr tok) (maker_amount (order o))
    else v_committed v mgr tok;
  vi_known d' : v_known v' d' = bool_decide (d' = d) || v_known v d';
}.

(** A call that reads [q] of the view, or fails, and changes nothing the
    pipeline sees. *)
Definition reads {S A} (view : S → IntakeView) (wf : S → Prop) (frame : S → S → Prop)
    (f : S → S * result StoreError A) (q : IntakeView → A) : Prop :=
  ∀ s, wf s → view (f s).1 = view s ∧ wf (f s).1 ∧ frame s (f s).1 ∧
    match (f s).2 with Ok a => a = q (view s) | Err e => is_unique_violation e = false end.

(** Same served markets and configuration. *)
Definition same_service {S} `{IntakeState S} (s s' : S) : Prop :=
  (∀ r, is_market s' r = is_market s r) ∧ (∀ r, is_paused s' r = is_paused s r) ∧
  is_config s' = is_config s.

Class IntakeStateSpec (S : Type) `{IntakeState S} := {
  is_wf : S → Prop;
  is_view : S → IntakeView;
  reads_approved mgr sg :
    reads is_view is_wf same_service (db_is_approved_signer mgr sg) (λ v, v_approved v mgr sg);
  reads_watermark r mk :
    reads is_view is_wf same_service (db_watermark r mk) (λ v, v_watermark v r mk);
  reads_max_salt r mk :
    reads is_view is_wf same_service (db_max_salt r mk) (λ v, v_max_salt v r mk);
  reads_vault mgr :
    reads is_view is_wf same_service (db_vault_manager mgr) (λ v, v_vault v mgr);
  reads_balance mgr tok :
    reads is_view is_wf same_service (db_balance mgr tok) (λ v, v_balance v mgr tok);
  reads_commitment mgr tok :
    reads is_view is_wf same_service (db_open_commitment mgr tok) (λ v, v_committed v mgr tok);
  inserts d o side p b s :
    is_wf s → order_wf (order o) → u64 p →
    let '(s', r) := db_insert_order d o side p b s in
    is_wf s' ∧ same_service s s' ∧
    match r with
    | Ok _ => v_known (is_view s) d = false ∧ view_inserted d o (is_view s) (is_view s')
    | Err e => is_view s' = is_view s ∧ (is_unique_violation e = true → v_known (is_view s) d = true)
    end;
}.

(** * The pipeline *)

Section intake.
Context `{BcsCrate, CryptoCrates} {S : Type} `{IntakeState S}.

(** A store call whose failure is an [Internal] rejection. *)
Definition internal {A} (f : S → S * result StoreError A) : prog S (result IntakeErrorCode A) :=
  prog_bind (λ r, Ret (map_err (λ _, Internal) r)) (act f).

(** [now] is the clock reading. *)
Definition intake_order (signed : SignedOrder) (now : Z)
    : prog S (result IntakeErrorCode (Digest * Side * Z)) :=
  market ←? read (λ s, ok_or (is_market s (registry_id signed)) UnknownMarket);
  paused ←? read (λ s, Ok (is_paused s (registry_id signed)));
  if (paused : bool) then Ret (Err MarketPaused) else
  cfg ←? read (λ s, Ok (is_config s));
  checked ←? Ret (validate_stateless market signed cfg now);
  let '(digest, side, price_ticks) := checked in
  let o := order signed in
  let derived := derive_address (scheme signed) (public_key signed) in
  _ ←? (if negb (bool_decide (derived = maker o)) then
          ok ←? internal (db_is_approved_signer (maker_manager_id o) derived);
          Ret (if (ok : bool) then Ok () else Err SignerNotAuthorized)
        else Ret (Ok ()));
  watermark ←? internal (db_watermark (registry_id signed) (maker o));
  if salt o <=? watermark then Ret (Err SaltVoided) else
  max_salt ←? internal (db_max_salt (registry_id signed) (maker o));
  _ ←? Ret (match max_salt with
            | Some max => if salt o <=? max then Err SaltNotMonotonic else Ok ()
            | None => Ok ()
            end);
  vault ←? internal (db_vault_manager (maker_manager_id o));
  let direct := match vault with Some v => vm_direct v | None => false end in
  _ ←? (if negb direct then
          balance ←? internal (db_balance (maker_manager_id o) (maker_token o));
          committed ←? internal (db_open_commitment (maker_manager_id o) (maker_token o));
          Ret (if balance <? u64_saturating_add committed (maker_amount o)
               then Err InsufficientEscrow else Ok ())
        else Ret (Ok ()));
  _ ←? prog_bind (λ r, Ret (map_err (λ e, if is_unique_violation e then Duplicate else Internal) r))
         (act (db_insert_order digest signed side price_ticks (to_bcs o)));
  Ret (Ok (digest, side, price_ticks)).
End intake.
