(* ===== verification/Db.v ===== *)
(** [services/orderbook/src/db/mod.rs]: the asynchronous facade over the
    repository.  Each of its methods runs one repository operation on the
    blocking pool, as one atomic action on the store of the service state;
    the store discharges the interface the intake pipeline relies on. *)

From S2P Require Import Prelude Prog RustStr ExchangeTypes Book Crates Signing Repo RepoProps Intake.

(** A state with a store. *)
Class HasStore (S : Type) := {
  get_store : S → Store;
  put_store : Store → S → S;
}.

Class HasStoreSpec (S : Type) `{HasStore S} : Prop := {
  get_put st s : get_store (put_store st s) = st;
}.

Section facade.
Context {S : Type} `{HasStore S}.

(** The [blocking!] macro. *)
Definition blocking {A} (m : sto A) : S → S * result StoreError A := λ s,
  let '(st, r) := m (get_store s) in (put_store st s, r).

Definition db {A} (m : sto A) : prog S (result StoreError A) := act (blocking m).

Definition tables_of (s : S) : Tables := tables (get_store s).

Lemma blocking_fst `{!HasStoreSpec S} {A} (m : sto A) s :
  get_store (blocking m s).1 = (m (get_store s)).1.
Proof. unfold blocking. destruct (m (get_store s)) as [st r]. apply get_put. Qed.

Lemma blocking_snd {A} (m : sto A) s : (blocking m s).2 = (m (get_store s)).2.
Proof. unfold blocking. by destruct (m _). Qed.

(** A read-only operation. *)
Lemma conn_query {A} (f : Tables → A) st :
  tables ((_ ← conn; query f) st).1 = tables st ∧
  match ((_ ← conn; query f) st).2 with
  | Ok a => a = f (tables st)
  | Err e => e = Pool
  end.
Proof. unfold mbind, sto_bind, conn, query. destruct st as [t [|[] p]]; by split. Qed.
End facade.

(** The methods of [Db]: [store.get_order d] is [state.db.get_order(&d)]. *)
Module store.
Section methods.
Context {S : Type} `{HasStore S}.

Definition upsert_market m := db (S := S) (Repo.upsert_market m).
Definition disable_markets_absent_from ids := db (S := S) (Repo.disable_markets_absent_from ids).
Definition enabled_market_ids := db (S := S) (Repo.enabled_market_ids).
Definition insert_discovered_market m := db (S := S) (Repo.insert_discovered_market m).
Definition enabled_markets := db (S := S) (Repo.enabled_markets).
Definition get_enabled_market registry_id := db (S := S) (Repo.get_enabled_market registry_id).
Definition set_market_paused registry_id paused := db (S := S) (Repo.set_market_paused registry_id paused).
Definition set_market_fee registry_id fee_bps := db (S := S) (Repo.set_market_fee registry_id fee_bps).
Definition insert_order digest signed side price_ticks order_bytes := db (S := S) (Repo.insert_order digest signed side price_ticks order_bytes).
Definition get_order digest := db (S := S) (Repo.get_order digest).
Definition open_orders registry_id := db (S := S) (Repo.open_orders registry_id).
Definition open_orders_by_manager manager_id := db (S := S) (Repo.open_orders_by_manager manager_id).
Definition set_order_status digest status := db (S := S) (Repo.set_order_status digest status).
Definition max_salt registry_id maker := db (S := S) (Repo.max_salt registry_id maker).
Definition open_commitment manager_id maker_token := db (S := S) (Repo.open_commitment manager_id maker_token).
Definition orders_by_account maker := db (S := S) (Repo.orders_by_account maker).
Definition apply_fill fill := db (S := S) (Repo.apply_fill fill).
Definition recent_trades registry_id limit := db (S := S) (Repo.recent_trades registry_id limit).
Definition fills_by_account addr := db (S := S) (Repo.fills_by_account addr).
Definition apply_balance_delta manager_id token delta := db (S := S) (Repo.apply_balance_delta manager_id token delta).
Definition balance manager_id token := db (S := S) (Repo.balance manager_id token).
Definition balances_of manager_id := db (S := S) (Repo.balances_of manager_id).
Definition set_signer manager_id signer approved := db (S := S) (Repo.set_signer manager_id signer approved).
Definition is_approved_signer manager_id signer := db (S := S) (Repo.is_approved_signer manager_id signer).
Definition set_watermark registry_id maker min_valid_salt := db (S := S) (Repo.set_watermark registry_id maker min_valid_salt).
Definition watermark registry_id maker := db (S := S) (Repo.watermark registry_id maker).
Definition upsert_vault_manager row := db (S := S) (Repo.upsert_vault_manager row).
Definition vault_manager manager_id := db (S := S) (Repo.vault_manager manager_id).
Definition save_cursor name cursor := db (S := S) (Repo.save_cursor name cursor).
Definition load_cursor name := db (S := S) (Repo.load_cursor name).
End methods.
End store.

(** * The store behind the intake interface *)

(** The rest of what the pipeline sees of the service. *)
Class Serving (S : Type) := {
  sv_market : S → SuiAddress → option Market;
  sv_paused : S → SuiAddress → bool;
  sv_config : S → IntakeConfig;
}.

Class ServingSpec (S : Type) `{HasStore S, Serving S} : Prop := {
  sv_market_put st s r : sv_market (put_store st s) r = sv_market s r;
  sv_paused_put st s r : sv_paused (put_store st s) r = sv_paused s r;
  sv_config_put st s : sv_config (put_store st s) = sv_config s;
}.

#[export] Instance db_intake_state {S} `{HasStore S, Serving S} : IntakeState S := {|
  is_market := sv_market;
  is_paused := sv_paused;
  is_config := sv_config;
  db_is_approved_signer mgr sg := blocking (is_approved_signer mgr sg);
  db_watermark r mk := blocking (watermark r mk);
  db_max_salt r mk := blocking (max_salt r mk);
  db_vault_manager mgr := blocking (vault_manager mgr);
  db_balance mgr tok := blocking (balance mgr tok);
  db_open_commitment mgr tok := blocking (open_commitment mgr tok);
  db_insert_order d so side p b := blocking (insert_order d so side p b);
|}.

Definition salts_of (r mk : SuiAddress) (t : Tables) : list Z :=
  (λ row, no_salt (or_values row)) <$> maker_orders r mk t.

(** The tables as the pipeline sees them. *)
Definition tables_view (t : Tables) : IntakeView := {|
  v_approved mgr sg := bool_decide ((mgr, sg) ∈ exchange_approved_signers t);
  v_watermark r mk := i64_as_u64 (Z.max (default 0 (exchange_salt_watermarks t !! (r, mk))) 0);
  v_max_salt r mk := i64_as_u64 <$> max_of (salts_of r mk t);
  v_vault mgr := exchange_vault_managers t !! mgr;
  v_balance mgr tok := i64_as_u64 (Z.max (default 0 (exchange_balances t !! (mgr, tok))) 0);
  v_committed mgr tok := committed mgr tok t;
  v_known d := bool_decide (is_Some (order_row d t));
|}.

Lemma max_of_snoc l x : max_of (l ++ [x]) = Some (match max_of l with Some m => Z.max m x | None => x end).
Proof. induction l as [|y l IH]; simpl; [done|]. rewrite IH. f_equal. destruct (max_of l); simpl; lia. Qed.

Lemma max_of_in_i64 l m : Forall in_i64 l → max_of l = Some m → in_i64 m.
Proof.
  intros Hl. revert m. induction Hl as [|x l Hx Hl IH]; simpl; [done|]. intros m [= <-].
  destruct (max_of l) as [y|]; [|done]. apply max_in_i64; auto.
Qed.

Lemma salts_in_i64 r mk t : tables_wf t → Forall in_i64 (salts_of r mk t).
Proof.
  intros Hwf. apply Forall_forall. intros z (row & -> & [Hrow _]%elem_of_bfilter)%list_elem_of_fmap.
  apply (tw_values t) in Hrow as [(_ & _ & _ & _ & _ & _ & _ & _ & _ & _ & Hs & _) _]; done.
Qed.

Lemma view_insert_order v t :
  tables_wf t → values_ok v → order_row (no_digest v) t = None →
  view_inserted (no_digest v) (no_order_json v) (tables_view t)
    (tables_view (set_orders (exchange_orders t ++ [mkOrderRow v 0 OPEN]) t)).
Proof.
  intros Hwf Hv Hd. pose proof Hv as (E1 & E2 & E3 & E4 & E5 & _ & _ & E8 & _ & _ & Hs & _).
  split; intros; simpl; try done.
  - rewrite <- E1, <- E2, <- E5. unfold salts_of, maker_orders. cbn [exchange_orders set_orders].
    rewrite List.filter_app, fmap_app. cbn [List.filter or_values].
    case_bool; [|by rewrite app_nil_r]. cbn [fmap list_fmap or_values].
    rewrite max_of_snoc. cbn [fmap option_fmap option_map]. f_equal.
    pose proof (salts_in_i64 r mk t Hwf) as Hsalts. unfold salts_of, maker_orders in Hsalts.
    destruct (max_of _) as [m|] eqn:Em.
    + apply max_of_in_i64 in Em; [|done]. cbn [default option_map fmap option_fmap]. simpl.
      rewrite !in_i64_as_u64 by (done || by apply max_in_i64). done.
    + simpl. rewrite in_i64_as_u64 by done. unfold in_i64 in Hs. lia.
  - rewrite committed_insert, E3, E4, E8 by done. done.
  - rewrite order_row_snoc.
    destruct (decide (d' = no_digest v)) as [->|Hne].
    + rewrite Hd. unfold or_digest. cbn [or_values]. rewrite (bool_decide_true (no_digest v = no_digest v)) by done.
      rewrite bool_decide_true by eauto. done.
    + unfold or_digest. cbn [or_values].
      rewrite (bool_decide_false (no_digest v = d')), (bool_decide_false (d' = no_digest v)) by done.
      by destruct (order_row d' t).
Qed.

Section intake_spec.
Context {S : Type} `{HasStoreSpec S, !Serving S, !ServingSpec S}.

Lemma blocking_same_service {A} (m : sto A) (s : S) : same_service s (blocking m s).1.
Proof.
  unfold blocking, same_service. destruct (m (get_store s)) as [st r]. simpl.
  split_and!; intros; [apply sv_market_put|apply sv_paused_put|apply sv_config_put].
Qed.

Lemma blocking_reads {A} (f : Tables → A) (q : IntakeView → A) :
  (∀ t, f t = q (tables_view t)) →
  reads (tables_view ∘ tables_of) (tables_wf ∘ tables_of) same_service (blocking (S := S) (_ ← conn; query f)) q.
Proof.
  intros Hq s Hs. pose proof (conn_query f (get_store s)) as [Ht Hr].
  unfold compose, tables_of in *. rewrite blocking_fst, blocking_snd, Ht.
  split_and!; [done..|apply blocking_same_service|].
  destruct (_ (get_store s)).2; subst; [by rewrite <- Hq|done].
Qed.

#[export] Program Instance db_intake_spec : IntakeStateSpec S := {|
  is_wf := tables_wf ∘ tables_of;
  is_view := tables_view ∘ tables_of;
|}.
Next Obligation. intros. by apply blocking_reads. Qed.
Next Obligation. intros. by apply blocking_reads. Qed.
Next Obligation. intros. by apply blocking_reads. Qed.
Next Obligation. intros. by apply blocking_reads. Qed.
Next Obligation. intros. by apply blocking_reads. Qed.
Next Obligation. intros. by apply blocking_reads. Qed.
Next Obligation.
  intros d so side p b s Hs Ho Hp. simpl.
  pose proof (blocking_same_service (insert_order d so side p b) s) as Hsv.
  pose proof (exec_wf (InsertOrder d so side p b) (get_store s) (conj Ho Hp) Hs) as Hwf.
  pose proof (blocking_fst (insert_order d so side p b) s) as E1.
  pose proof (blocking_snd (insert_order d so side p b) s) as E2.
  destruct (blocking (insert_order d so side p b) s) as [s' r]. simpl in *. subst r.
  unfold tables_of in *. rewrite E1. split_and!; [done..|].
  unfold compose in Hs. clear Hwf Hsv E1. revert Hs. unfold insert_order.
  destruct (get_store s) as [t pl]. run_sto. intros Hs.
  destruct (new_order d so side p b) as [v|e] eqn:Ev.
  2: { split; [done|]. cbn [snd]. by rewrite (new_order_Err _ _ _ _ _ _ Ev). }
  apply new_order_Ok in Ev as (Hv & <- & <- & _); [|done..].
  destruct pl as [|[] pl]; cbn [tables pool fst snd]; [| |by split].
  all: case_bool_decide as Hd; [split; [done|]; intros _; by apply bool_decide_true|].
  all: case_bool_decide; [done|].
  all: split; [by apply bool_decide_false|]; apply view_insert_order; [done..|].
  all: by apply eq_None_not_Some.
Qed.
End intake_spec.
