(* ===== verification/IntakeTheorems.v ===== *)
(** The intake of orders: its steps, and the properties of one request and of
    a sequence of requests. *)

From S2P Require Import Prelude Prog RustStr ExchangeTypes Book MoveType Crates Signing Repo Intake Demo RepoProps RepoTheorems Db.

Import Code.

(** * Lists of checks *)

(** Checks in the order they are made, each with the code of its failure. *)
Abbreviation check_list := (list (Prop * IntakeErrorCode)).

Definition all_pass (l : check_list) : Prop := Forall (λ p, ¬ p.1) l.

(** The first check that fails has the code [c]. *)
Fixpoint first_failure (l : check_list) (c : IntakeErrorCode) : Prop :=
  match l with
  | [] => False
  | (fails, code) :: l' => fails ∧ c = code ∨ ¬ fails ∧ first_failure l' c
  end.

(** A result that answers for the checks of a list. *)
Definition answers {A} (r : result IntakeErrorCode A) (l : check_list) : Prop :=
  match r with Ok _ => all_pass l | Err c => first_failure l c end.

Lemma first_failure_skip l1 l2 c : all_pass l1 → first_failure l2 c → first_failure (l1 ++ l2) c.
Proof. induction 1 as [|[P c'] l1 HP _ IH]; [done|]. intros Hl. right. auto. Qed.

Lemma first_failure_app_l l1 l2 c : first_failure l1 c → first_failure (l1 ++ l2) c.
Proof. induction l1 as [|[P c'] l1 IH]; [done|]. cbn. tauto. Qed.

Lemma answers_test {A} (b : bool) (P : Prop) c (r : result IntakeErrorCode A) l :
  (b = true ↔ P) → (¬ P → answers r l) → answers (if b then Err c else r) ((P, c) :: l).
Proof.
  intros Hb Hr. destruct b; [left; by rewrite <- Hb|].
  assert (¬ P) as HP by (by rewrite <- Hb). specialize (Hr HP). destruct r; [by constructor|by right].
Qed.

Lemma answers_bind {A B} (r : result IntakeErrorCode A) (f : A → result IntakeErrorCode B) l1 l2 :
  answers r l1 → (∀ a, r = Ok a → answers (f a) l2) → answers (r ≫= f) (l1 ++ l2).
Proof.
  intros H1 H2. destruct r as [x|c]; cbn [mbind result_bind]; [|by apply first_failure_app_l].
  specialize (H2 x eq_refl). destruct (f x); [by apply Forall_app|by apply first_failure_skip].
Qed.

Lemma map_err_test {A E F} (f : E → F) (b : bool) e (r : result E A) :
  map_err f (if b then Err e else r) = if b then Err (f e) else map_err f r.
Proof. by destruct b. Qed.

(** * The stateless stage *)

Section stateless.
Context `{BcsCrate, CryptoCrates}.

Lemma is_canonical_true t : is_canonical t = true ↔ canonicalize_move_type t = Ok t.
Proof.
  unfold is_canonical. destruct (canonicalize_move_type t) as [c|e]; [|done].
  rewrite bool_decide_eq_true. split; congruence.
Qed.

(** What the stateless stage requires of an order. *)
Record stateless_ok (m : Market) (so : SignedOrder) (cfg : IntakeConfig) (now : Z)
    (side : Side) (ticks : Z) : Prop := {
  so_market : registry_id so = m_registry_id m;
  so_maker_token : canonicalize_move_type (maker_token (order so)) = Ok (maker_token (order so));
  so_taker_token : canonicalize_move_type (taker_token (order so)) = Ok (taker_token (order so));
  so_amounts : 0 < maker_amount (order so) ≤ i64_max ∧ 0 < taker_amount (order so) ≤ i64_max;
  so_price : ∃ base, price_and_size m (order so) = Ok (side, ticks, base);
  so_window : u64_add now (min_ttl_ms cfg) ≤ expiry_ms (order so) ≤ u64_add now (max_ttl_ms cfg);
  so_signature : signature_valid (scheme so)
    (digest_bytes (order_digest (order so) (registry_id so))) (signature so) (public_key so);
}.

Lemma validate_stateless_iff m so cfg now d side ticks :
  order_wf (order so) →
  validate_stateless m so cfg now = Ok (d, side, ticks) ↔
  d = order_digest (order so) (registry_id so) ∧ stateless_ok m so cfg now side ticks.
Proof.
  intros (Hm & Ht & _). unfold u64 in *. unfold validate_stateless. cbn zeta. split.
  - case_bool_decide as Hr; [|done]. simpl.
    destruct (is_canonical (maker_token _)) eqn:H1; [|done]. simpl.
    destruct (is_canonical (taker_token _)) eqn:H2; [|done]. simpl.
    destruct (_ || _) eqn:H3; [done|]. destruct (_ || _) eqn:H4 in |- *; [done|].
    destruct (price_and_size _ _) as [[[s t] b]|] eqn:H5; [|done]. simpl.
    destruct (expiry_ms _ <? _) eqn:H6; [done|]. destruct (u64_add now (max_ttl_ms cfg) <? _) eqn:H7; [done|].
    destruct (verify_signature _ _ _ _) as [a|] eqn:H8; [|done]. simpl.
    intros [= <- <- <-]. split; [done|]. reflect_bools.
    apply is_canonical_true in H1, H2. apply verify_signature_iff in H8 as [_ H8].
    split; eauto with lia.
  - intros (-> & [Hr H1%is_canonical_true H2%is_canonical_true [] [b Hb] Hw Hs]).
    rewrite bool_decide_true, H1, H2 by done. cbn [negb orb map_err mbind result_bind].
    repeat (case_bool; reflect_bools; [lia|]). rewrite Hb. cbn [negb orb map_err mbind result_bind].
    repeat (case_bool; reflect_bools; [lia|]).
    by rewrite (proj2 (verify_signature_iff _ _ _ _ _) (conj eq_refl Hs)).
Qed.

(** The price in ticks is [quote * lot_size / (base * tick_size)]. *)
Definition grid_checks (m : Market) (o : Order) : check_list :=
  match side_of m o with
  | None => [(True, TokenMismatch)]
  | Some side =>
      let '(base_amount, quote_amount) :=
        match side with
        | Ask => (maker_amount o, taker_amount o)
        | Bid => (taker_amount o, maker_amount o)
        end in
      let num := u128_mul quote_amount (lot_size m) in
      let den := u128_mul base_amount (tick_size m) in
      [(den = 0 ∨ num mod den ≠ 0, OffTick);
       (u64_max < num / den, Internal);
       (num / den = 0, OffTick);
       (base_amount < min_size m, BelowMinSize)]
  end.

Definition stateless_checks (m : Market) (so : SignedOrder) (cfg : IntakeConfig) (now : Z) : check_list :=
  let o := order so in
  [(registry_id so ≠ m_registry_id m, UnknownMarket);
   (canonicalize_move_type (maker_token o) ≠ Ok (maker_token o), TokenMismatch);
   (canonicalize_move_type (taker_token o) ≠ Ok (taker_token o), TokenMismatch);
   (maker_amount o = 0 ∨ taker_amount o = 0, ZeroAmount);
   (i64_max < maker_amount o ∨ i64_max < taker_amount o, AmountRange)] ++
  grid_checks m o ++
  [(expiry_ms o < u64_add now (min_ttl_ms cfg), ExpiryTooSoon);
   (u64_add now (max_ttl_ms cfg) < expiry_ms o, ExpiryTooFar);
   (¬ signature_valid (scheme so) (digest_bytes (order_digest o (registry_id so))) (signature so) (public_key so),
    BadSignature)].

Lemma price_and_size_checks m o :
  maker_amount o ≠ 0 → taker_amount o ≠ 0 →
  answers (map_err book_error_code (price_and_size m o)) (grid_checks m o).
Proof.
  intros Hm Ht. unfold price_and_size, grid_checks. destruct (side_of m o) as [side|]; [|by left].
  cbn [ok_or mbind result_bind].
  assert (∀ ba qa, ba ≠ 0 → qa ≠ 0 →
    let num := u128_mul qa (lot_size m) in let den := u128_mul ba (tick_size m) in
    answers (map_err book_error_code
      (if (ba =? 0) || (qa =? 0) then Err Book.BelowMinSize
       else if (den =? 0) || negb (num mod den =? 0) then Err Book.OffTick
       else ticks ← (if num / den <=? u64_max then Ok (num / den) else Err Book.Overflow);
            if ticks =? 0 then Err Book.OffTick else
            if ba <? min_size m then Err Book.BelowMinSize else Ok (side, ticks, ba)))
      [(den = 0 ∨ num mod den ≠ 0, OffTick); (u64_max < num / den, Internal);
       (num / den = 0, OffTick); (ba < min_size m, BelowMinSize)]) as Hgrid.
  { intros ba qa Hb Hq. cbn zeta. set (num := u128_mul qa _). set (den := u128_mul ba _).
    rewrite (proj2 (Z.eqb_neq _ _) Hb), (proj2 (Z.eqb_neq _ _) Hq). cbn [orb].
    rewrite map_err_test. apply answers_test.
    { rewrite orb_true_iff, negb_true_iff, Z.eqb_eq, Z.eqb_neq. done. }
    intros Hden. destruct (Z.leb_spec (num / den) u64_max) as [Hfit|Hbig].
    2: { left. by split. }
    cbn [mbind result_bind]. apply (answers_test false); [split; [done|lia]|intros _].
    rewrite map_err_test. apply answers_test; [apply Z.eqb_eq|intros _].
    rewrite map_err_test. apply answers_test; [apply Z.ltb_lt|intros _]. constructor. }
  destruct side; apply Hgrid; done.
Qed.

(** The stateless stage makes these checks, in this order. *)
Lemma validate_stateless_checks m so cfg now :
  answers (validate_stateless m so cfg now) (stateless_checks m so cfg now).
Proof.
  assert (∀ t, negb (is_canonical t) = true ↔ canonicalize_move_type t ≠ Ok t) as Hcanon.
  { intros t. rewrite <- is_canonical_true. by destruct (is_canonical t). }
  unfold validate_stateless, stateless_checks. cbn zeta. cbn [app].
  apply answers_test; [rewrite negb_true_iff; apply bool_decide_eq_false|intros _].
  apply answers_test; [apply Hcanon|intros _]. apply answers_test; [apply Hcanon|intros _].
  apply answers_test; [by rewrite orb_true_iff, !Z.eqb_eq|intros Hnz].
  apply answers_test; [by rewrite orb_true_iff, !Z.ltb_lt|intros _].
  apply answers_bind; [apply price_and_size_checks; tauto|]. intros [[side ticks] base] _.
  apply answers_test; [apply Z.ltb_lt|intros _]. apply answers_test; [apply Z.ltb_lt|intros _].
  destruct (verify_signature _ _ _ _) as [a|e] eqn:E; cbn [map_err mbind result_bind answers].
  - apply verify_signature_iff in E as [_ Hv]. repeat constructor. cbn. tauto.
  - left. split; [|done]. intros Hv.
    assert (verify_signature (scheme so) (digest_bytes (order_digest (order so) (registry_id so))) (signature so)
      (public_key so) = Ok (derive_address (scheme so) (public_key so))) as Hok by by apply verify_signature_iff.
    congruence.
Qed.
End stateless.

(** * The pipeline *)

Section pipeline.
Context `{BcsCrate, CryptoCrates} {S : Type} `{IntakeStateSpec S}.
Implicit Types (s : S) (so : SignedOrder).

#[export] Instance same_service_preorder : PreOrder (same_service (S := S)).
Proof.
  split; [done|]. intros s1 s2 s3 (A1 & A2 & A3) (B1 & B2 & B3).
  split_and!; intros; congruence.
Qed.

Definition signer_of so : SuiAddress := derive_address (scheme so) (public_key so).

Definition direct_maker (v : IntakeView) so : bool :=
  match v_vault v (maker_manager_id (order so)) with Some r => vm_direct r | None => false end.

(** The escrow of the maker covers its open commitments and the order. *)
Definition escrow_covers (v : IntakeView) so : Prop :=
  u64_saturating_add (v_committed v (maker_manager_id (order so)) (maker_token (order so)))
    (maker_amount (order so)) ≤ v_balance v (maker_manager_id (order so)) (maker_token (order so)).

(** The checks an order passes to be accepted in state [s]. *)
Record admitted s so (now : Z) (d : Digest) (side : Side) (ticks : Z) : Prop := {
  ad_market : ∃ m, is_market s (registry_id so) = Some m ∧
    stateless_ok m so (is_config s) now side ticks;
  ad_live : is_paused s (registry_id so) = false;
  ad_digest : d = order_digest (order so) (registry_id so);
  ad_signer : signer_of so = maker (order so) ∨
    v_approved (is_view s) (maker_manager_id (order so)) (signer_of so) = true;
  ad_watermark : v_watermark (is_view s) (registry_id so) (maker (order so)) < salt (order so);
  ad_salt max : v_max_salt (is_view s) (registry_id so) (maker (order so)) = Some max → max < salt (order so);
  ad_escrow : direct_maker (is_view s) so = true ∨ escrow_covers (is_view s) so;
  ad_fresh : v_known (is_view s) d = false;
}.

(** The checks of the pipeline in state [s], in the order it makes them. *)
Definition store_checks (v : IntakeView) so : check_list :=
  let o := order so in
  [(signer_of so ≠ maker o ∧ v_approved v (maker_manager_id o) (signer_of so) = false, SignerNotAuthorized);
   (salt o ≤ v_watermark v (registry_id so) (maker o), SaltVoided);
   (∃ max, v_max_salt v (registry_id so) (maker o) = Some max ∧ salt o ≤ max, SaltNotMonotonic);
   (direct_maker v so = false ∧ ¬ escrow_covers v so, InsufficientEscrow);
   (v_known v (order_digest o (registry_id so)) = true, Duplicate)].

Definition intake_checks s so (now : Z) : check_list :=
  match is_market s (registry_id so) with
  | None => [(True, UnknownMarket)]
  | Some m =>
      [(is_paused s (registry_id so) = true, MarketPaused)] ++
      stateless_checks m so (is_config s) now ++ store_checks (is_view s) so
  end.

(** A state the pipeline has only read from. *)
Definition near s s1 : Prop := is_view s1 = is_view s ∧ is_wf s1 ∧ same_service s s1.

(** A call of the pipeline to the store fails. *)
Definition errs {A} (f : S → S * result StoreError A) (P : StoreError → Prop) s : Prop :=
  ∃ s1 e, near s s1 ∧ (f s1).2 = Err e ∧ P e.

Definition store_failed s so : Prop :=
  let o := order so in
  errs (db_is_approved_signer (maker_manager_id o) (signer_of so)) (λ _, True) s ∨
  errs (db_watermark (registry_id so) (maker o)) (λ _, True) s ∨
  errs (db_max_salt (registry_id so) (maker o)) (λ _, True) s ∨
  errs (db_vault_manager (maker_manager_id o)) (λ _, True) s ∨
  errs (db_balance (maker_manager_id o) (maker_token o)) (λ _, True) s ∨
  errs (db_open_commitment (maker_manager_id o) (maker_token o)) (λ _, True) s ∨
  ∃ side ticks, errs (db_insert_order (order_digest o (registry_id so)) so side ticks (to_bcs o))
                     (λ e, is_unique_violation e = false) s.

(** Why an order is refused in state [s]. *)
Definition refused s so (now : Z) (c : IntakeErrorCode) : Prop :=
  first_failure (intake_checks s so now) c ∨ c = Internal ∧ store_failed s so.

(** The two ways the pipeline can end. *)
Definition intake_outcome s so (now : Z) (out : S * result IntakeErrorCode (Digest * Side * Z)) : Prop :=
  is_wf out.1 ∧ same_service s out.1 ∧
  match out.2 with
  | Ok (d, side, ticks) => admitted s so now d side ticks ∧ view_inserted d so (is_view s) (is_view out.1)
  | Err c => refused s so now c ∧ is_view out.1 = is_view s
  end.

(** The checks of [l] are those left: the ones before it have passed. *)
Definition left_to_check s so (now : Z) (l : check_list) : Prop :=
  ∀ c, first_failure l c → first_failure (intake_checks s so now) c.

Lemma left_next s so now P c l : left_to_check s so now ((P, c) :: l) → ¬ P → left_to_check s so now l.
Proof. intros Hl HP c' Hc'. apply Hl. by right. Qed.

Lemma refused_here s so now P c l : left_to_check s so now ((P, c) :: l) → P → refused s so now c.
Proof. intros Hl HP. left. apply Hl. by left. Qed.

Lemma near_trans s s1 s2 : near s s1 → is_view s2 = is_view s1 → is_wf s2 → same_service s1 s2 → near s s2.
Proof. intros (Hv & _ & Hs) Hv2 Hw2 Hs2. split_and!; [congruence|done|by transitivity s1]. Qed.

Lemma run_internal_step {A B} (f : S → S * result StoreError A) (q : IntakeView → A)
    (k : A → prog S (result IntakeErrorCode B)) s s1 :
  reads is_view is_wf same_service f q → near s s1 →
  ∃ s2, near s s2 ∧
    (run (prog_try (internal f) k) s1 = run (k (q (is_view s))) s2 ∨
     run (prog_try (internal f) k) s1 = (s2, Err Internal) ∧ errs f (λ _, True) s).
Proof.
  intros Hf Hn. pose proof Hn as (Hv & Hw & Hs). destruct (Hf s1 Hw) as (Hv2 & Hw2 & Hs2 & Hr). exists (f s1).1.
  split; [by eapply near_trans|]. rewrite run_try. unfold internal. rewrite run_bind, run_act.
  destruct (f s1) as [s' [a|e]] eqn:E; cbn [fst snd run map_err] in *.
  - left. subst. by rewrite Hv.
  - right. split; [done|]. exists s1, e. by rewrite E.
Qed.

Lemma outcome_refused s s1 so now c :
  near s s1 → refused s so now c → intake_outcome s so now (s1, Err c).
Proof. intros (? & ? & ?) ?. unfold intake_outcome. by split_and!. Qed.

Lemma outcome_internal {A} (f : S → S * result StoreError A) (q : IntakeView → A) k s s1 so now :
  reads is_view is_wf same_service f q → (errs f (λ _, True) s → store_failed s so) → near s s1 →
  (∀ s2, near s s2 → intake_outcome s so now (run (k (q (is_view s))) s2)) →
  intake_outcome s so now (run (prog_try (internal f) k) s1).
Proof.
  intros Hf He Hn Hk. destruct (run_internal_step f q k s s1 Hf Hn) as (s2 & Hn2 & [->|[-> Hfail]]); [by apply Hk|].
  apply outcome_refused; [done|]. right. auto.
Qed.

Lemma outcome_insert s s1 so now d side ticks :
  near s s1 → order_wf (order so) → u64 ticks →
  d = order_digest (order so) (registry_id so) →
  left_to_check s so now [(v_known (is_view s) d = true, Duplicate)] →
  (v_known (is_view s) d = false → admitted s so now d side ticks) →
  intake_outcome s so now
    (run (_ ←? prog_bind (λ r, Ret (map_err (λ e, if is_unique_violation e then Duplicate else Internal) r))
             (act (db_insert_order d so side ticks (to_bcs (order so))));
          Ret (Ok (d, side, ticks))) s1).
Proof.
  intros Hn Ho Ht -> Hleft Hadm. pose proof Hn as (Hv & Hw & Hs). rewrite run_try, run_bind, run_act. cbn [run fst snd].
  pose proof (inserts (order_digest (order so) (registry_id so)) so side ticks (to_bcs (order so)) s1 Hw Ho Ht) as Hi.
  destruct (db_insert_order _ _ _ _ _ s1) as [s2 [[]|e]] eqn:E; destruct Hi as (Hw2 & Hs2 & Hr); cbn [fst snd map_err].
  - destruct Hr as [Hk Hins]. rewrite Hv in *. unfold intake_outcome. cbn [fst snd]. split_and!; [done|by transitivity s1|by apply Hadm|done].
  - destruct Hr as [Hv2 Hu]. rewrite Hv in *. apply outcome_refused.
    + split_and!; [congruence|done|by transitivity s1].
    + destruct (is_unique_violation e) eqn:Eu; [by eapply refused_here; [exact Hleft|apply Hu]|].
      right. split; [done|]. do 6 right. exists side, ticks, s1, e. by rewrite E.
Qed.

Lemma price_ticks_u64 m o side ticks n : price_and_size m o = Ok (side, ticks, n) → u64 ticks.
Proof.
  unfold price_and_size. destruct (side_of m o) as [sd|]; [|done]. cbn [ok_or mbind result_bind].
  destruct sd; case_bool; try done; case_bool; try done;
    match goal with |- context [?a / ?b <=? u64_max] => assert (0 ≤ a / b) end;
    try (destruct (_ <=? u64_max) eqn:E; [|done]; cbn [mbind result_bind];
         case_bool; [done|]; case_bool; [done|]; intros [= _ <- _]; reflect_bools; by split).
  all: unfold u128_mul, wrap128; apply Z_div_nonneg_nonneg; apply Z.mod_pos_bound; lia.
Qed.

(** A check that only reads: it passes and [Q] holds, or it refuses. *)
Definition checks s so now (p : prog S (result IntakeErrorCode unit)) (Q : Prop) : Prop :=
  ∀ s1, near s s1 → near s (run p s1).1 ∧
    match (run p s1).2 with Ok _ => Q | Err c => refused s so now c end.

Lemma outcome_check s s1 so now p (Q : Prop) k :
  checks s so now p Q → near s s1 →
  (∀ s2, near s s2 → Q → intake_outcome s so now (run (k ()) s2)) →
  intake_outcome s so now (run (prog_try p k) s1).
Proof.
  intros Hp Hn Hk. rewrite run_try. destruct (Hp s1 Hn) as [Hn2 Hq].
  destruct (run p s1).2 as [[]|c]; [by apply Hk|by apply outcome_refused].
Qed.

Lemma checks_read {A} (f : S → S * result StoreError A) (q : IntakeView → A)
    (h : A → prog S (result IntakeErrorCode unit)) s so now (Q : Prop) :
  reads is_view is_wf same_service f q → (errs f (λ _, True) s → store_failed s so) →
  checks s so now (h (q (is_view s))) Q → checks s so now (prog_try (internal f) h) Q.
Proof.
  intros Hf He Hh s1 Hn. destruct (run_internal_step f q h s s1 Hf Hn) as (s2 & Hn2 & [->|[-> Hfail]]); [by apply Hh|].
  split; [done|]. right. auto.
Qed.

Lemma checks_ret s so now (r : result IntakeErrorCode unit) (Q : Prop) :
  match r with Ok _ => Q | Err c => refused s so now c end → checks s so now (Ret r) Q.
Proof. intros Hr s1 Hn. by split. Qed.

Ltac step_read := rewrite run_try; cbn [run read act fst snd ok_or].

Lemma intake_order_outcome s so now :
  is_wf s → order_wf (order so) →
  intake_outcome s so now (run (intake_order so now) s).
Proof.
  intros Hwf Ho. assert (near s s) as Hn by by split_and!. unfold intake_order.
  assert (left_to_check s so now (intake_checks s so now)) as Hleft by (by intros c).
  unfold intake_checks in Hleft at 1.
  step_read. destruct (is_market s (registry_id so)) as [m|] eqn:Hm; cbn [ok_or].
  2: { apply outcome_refused; [done|]. by eapply refused_here. }
  step_read. destruct (is_paused s (registry_id so)) eqn:Hp.
  { apply outcome_refused; [done|]. by eapply refused_here. }
  apply left_next in Hleft; [|done].
  step_read. rewrite run_try. cbn [run fst snd].
  pose proof (validate_stateless_checks m so (is_config s) now) as Hst.
  destruct (validate_stateless m so (is_config s) now) as [[[d side] ticks]|c] eqn:Hv; cbn [answers] in Hst.
  2: { apply outcome_refused; [done|]. left. by apply Hleft, first_failure_app_l. }
  assert (left_to_check s so now (store_checks (is_view s) so)) as Hleft'
    by (intros c Hc; by apply Hleft, first_failure_skip).
  clear Hleft. rename Hleft' into Hleft. clear Hst. unfold store_checks in Hleft.
  apply validate_stateless_iff in Hv as [-> Hst]; [|done]. cbv beta iota zeta.
  apply (outcome_check _ _ _ _ _ (signer_of so = maker (order so) ∨
    v_approved (is_view s) (maker_manager_id (order so)) (signer_of so) = true)); [|done|].
  { fold (signer_of so). case_bool_decide as Hsg; cbn [negb]; [by apply checks_ret; left|].
    eapply checks_read; [apply reads_approved|by left|]. apply checks_ret.
    destruct (v_approved _ _ _) eqn:E; [by right|by eapply refused_here]. }
  intros s2 Hn2 Hsigner. apply left_next in Hleft; [|intros [? ?]; destruct Hsigner; congruence].
  apply (outcome_internal _ _ _ _ _ _ _ (reads_watermark _ _)); [by right; left|done|].
  intros s3 Hn3. cbv beta. destruct (salt (order so) <=? _) eqn:Hwm; reflect_bools.
  { apply outcome_refused; [done|]. by eapply refused_here. }
  apply left_next in Hleft; [|lia].
  apply (outcome_internal _ _ _ _ _ _ _ (reads_max_salt _ _)); [by do 2 right; left|done|]. intros s4 Hn4. cbv beta.
  apply (outcome_check _ _ _ _ _ (∀ max, v_max_salt (is_view s) (registry_id so) (maker (order so)) = Some max →
    max < salt (order so))); [|done|].
  { apply checks_ret. destruct (v_max_salt _ _ _) as [max|] eqn:E; [|done].
    destruct (_ <=? max) eqn:Hle; reflect_bools; [|by intros ? [= <-]].
    eapply refused_here; [exact Hleft|]. by exists max. }
  intros s5 Hn5 Hsalt. apply left_next in Hleft; [|intros (max & Hmax & ?); specialize (Hsalt max Hmax); lia].
  apply (outcome_internal _ _ _ _ _ _ _ (reads_vault _)); [by do 3 right; left|done|].
  intros s6 Hn6. cbv beta zeta.
  apply (outcome_check _ _ _ _ _ (direct_maker (is_view s) so = true ∨ escrow_covers (is_view s) so)); [|done|].
  { fold (direct_maker (is_view s) so). destruct (direct_maker _ _) eqn:Hd; cbn [negb].
    { by apply checks_ret; left. }
    eapply checks_read; [apply reads_balance|by do 4 right; left|].
    eapply checks_read; [apply reads_commitment|by do 5 right; left|].
    apply checks_ret. case_bool; reflect_bools; [|by right]. eapply refused_here; [exact Hleft|].
    split; [done|]. unfold escrow_covers. lia. }
  intros s7 Hn7 Hesc. apply left_next in Hleft; [|intros [? ?]; destruct Hesc; [congruence|done]].
  destruct Hst as [? ? ? ? [n Hps] ? ?] eqn:Hst'.
  apply outcome_insert; [done..|by eapply price_ticks_u64|done|done|].
  intros Hk. split; eauto.
Qed.
End pipeline.

Import Code.

Section theorems.
Context `{BcsCrate, CryptoCrates} {S : Type} `{IntakeStateSpec S}.

(** C22: An intake request ends in one of two ways.  Accepted: the market is
    served and not paused, the order is canonical, on the grid, within the
    expiry window and validly signed by its maker or an approved signer,
    its salt is above the watermark and every earlier one, the escrow
    covers it on top of what is committed (or its manager is direct), it was
    not known, and now it is recorded, with the digest, side and price
    returned.  Refused: the code is that of the first check of the pipeline's
    list that fails ([intake_checks]), or it is [Internal] and a call to the
    store failed; and nothing the pipeline reads has changed. *)
Theorem intake_order_decides (s : S) so now :
  is_wf s → order_wf (order so) →
  let '(s', r) := run (intake_order so now) s in
  is_wf s' ∧ same_service s s' ∧
  match r with
  | Ok (d, side, ticks) => admitted s so now d side ticks ∧ view_inserted d so (is_view s) (is_view s')
  | Err c => refused s so now c ∧ is_view s' = is_view s
  end.
Proof.
  intros Hs Ho. pose proof (intake_order_outcome s so now Hs Ho) as Hout.
  unfold intake_outcome in Hout. by destruct (run _ s).
Qed.

(** * Sequences of requests *)

(** Requests processed one after the other: the final state and the orders
    accepted, oldest first. *)
Fixpoint intake_all (reqs : list (SignedOrder * Z)) (s : S) : S * list SignedOrder :=
  match reqs with
  | [] => (s, [])
  | (so, now) :: reqs' =>
      let '(s1, r) := run (intake_order so now) s in
      let '(s2, acc) := intake_all reqs' s1 in
      (s2, match r with Ok _ => so :: acc | Err _ => acc end)
  end.

(** Every funded manager covers its commitments. *)
Definition covered (v : IntakeView) : Prop := ∀ mgr tok,
  match v_vault v mgr with Some r => vm_direct r | None => false end = false →
  v_committed v mgr tok ≤ v_balance v mgr tok.

Definition by_maker (r mk : SuiAddress) (so : SignedOrder) : bool :=
  bool_decide (registry_id so = r) && bool_decide (maker (order so) = mk).

Lemma covered_inserted d so side ticks now s s1 :
  covered (is_view s) → admitted s so now d side ticks → view_inserted d so (is_view s) (is_view s1) →
  covered (is_view s1).
Proof.
  intros Hc Ha [] mgr tok. rewrite vi_vault, vi_committed, vi_balance. intros Hd.
  case_bool; [|by apply Hc]. reflect_bools. subst.
  destruct (ad_escrow _ _ _ _ _ _ Ha) as [Hdir|He]; [|exact He].
  unfold direct_maker in Hdir. congruence.
Qed.

(** The salts accepted from a state, per market and maker. *)
Lemma intake_all_salts reqs s s' acc r mk :
  is_wf s → Forall (λ q, order_wf (order q.1)) reqs → intake_all reqs s = (s', acc) →
  let salts := (λ so, salt (order so)) <$> List.filter (by_maker r mk) acc in
  StronglySorted Z.lt salts ∧
  (∀ z, z ∈ salts → v_watermark (is_view s) r mk < z ∧
     ∀ max, v_max_salt (is_view s) r mk = Some max → max < z) ∧
  (covered (is_view s) → covered (is_view s')).
Proof.
  intros Hs Hreqs. revert s s' acc Hs. induction Hreqs as [|[so now] reqs Ho Hreqs IH];
    intros s s' acc Hs; cbn [intake_all].
  { intros [= <- <-]. split_and!; [constructor|set_solver|done]. }
  pose proof (intake_order_outcome s so now Hs Ho) as (Hw & _ & Hr).
  destruct (run (intake_order so now) s) as [s1 res]. cbn [fst snd] in *.
  destruct (intake_all reqs s1) as [s2 acc'] eqn:E. intros [= <- <-].
  destruct (IH s1 s2 acc' Hw E) as (Hsorted & Hlow & Hcov).
  destruct res as [[[d side] ticks]|c].
  - destruct Hr as [Ha Hi]. cbn [List.filter]. pose proof Hi as [].
    rewrite vi_watermark, vi_max_salt in Hlow.
    destruct (by_maker r mk so) eqn:Hby; unfold by_maker in Hby; rewrite Hby in Hlow.
    + reflect_bools. subst. cbn [fmap list_fmap].
      assert (∀ z, z ∈ (λ so0, salt (order so0)) <$>
          List.filter (by_maker (registry_id so) (maker (order so))) acc' →
        salt (order so) < z ∧ v_watermark (is_view s) (registry_id so) (maker (order so)) < z ∧
        ∀ max, v_max_salt (is_view s) (registry_id so) (maker (order so)) = Some max → max < z) as Hlater.
      { intros z Hz. destruct (Hlow z Hz) as [Hz1 Hz2]. specialize (Hz2 _ eq_refl).
        split_and!; [lia|done|]. intros max Hmax. rewrite Hmax in Hz2. simpl in Hz2. lia. }
      split_and!; [| |intros Hc; apply Hcov; exact (covered_inserted _ _ _ _ _ _ _ Hc Ha Hi)].
      * constructor; [done|]. apply Forall_forall. intros z Hz. by destruct (Hlater z Hz).
      * intros z [->|Hz]%elem_of_cons; [|by destruct (Hlater z Hz)]. split; apply Ha.
    + split_and!; [done|done|intros Hc; apply Hcov; exact (covered_inserted _ _ _ _ _ _ _ Hc Ha Hi)].
  - destruct Hr as [_ Hv]. rewrite Hv in *. done.
Qed.

(** C23: Requests taken one at a time keep the book honest: per market and
    maker the accepted salts strictly increase and lie above the watermark
    and every earlier salt, and as long as every funded manager covered its
    commitments at the start, every one still does at the end. *)
Theorem intake_sequence_honest (reqs : list (SignedOrder * Z)) (s s' : S) acc :
  is_wf s → Forall (λ q, order_wf (order q.1)) reqs → intake_all reqs s = (s', acc) →
  covered (is_view s) →
  covered (is_view s') ∧
  ∀ r mk, let salts := (λ so, salt (order so)) <$> List.filter (by_maker r mk) acc in
    StronglySorted Z.lt salts ∧
    ∀ z, z ∈ salts → v_watermark (is_view s) r mk < z ∧
      ∀ max, v_max_salt (is_view s) r mk = Some max → max < z.
Proof.
  intros Hs Hreqs E Hc. split.
  - by apply (intake_all_salts _ _ _ _ (SuiAddress_ZERO) (SuiAddress_ZERO) Hs Hreqs E).
  - intros r mk. destruct (intake_all_salts _ _ _ _ r mk Hs Hreqs E) as (Hz1 & Hz2 & _). by split.
Qed.
End theorems.

(** * Concrete instances *)

#[local] Existing Instance bcs_format.
#[local] Existing Instance demo_crypto.

(** A service that is a store and serves the demonstration market. *)
Section demo_service.
#[local] Instance demo_has_store : HasStore Store := {| get_store s := s; put_store st _ := st |}.
#[local] Instance demo_has_store_spec : HasStoreSpec Store.
Proof. by split. Qed.
#[local] Instance demo_serving : Serving Store := {|
  sv_market _ r := if bool_decide (r = m_registry_id demo_market) then Some demo_market else None;
  sv_paused _ _ := false;
  sv_config _ := IntakeConfig_default;
|}.
#[local] Instance demo_serving_spec : ServingSpec Store.
Proof. by split. Qed.

Definition with_salt (z : Z) (so : SignedOrder) : SignedOrder :=
  let o := order so in
  mkSignedOrder (mkOrder (maker_token o) (taker_token o) (maker_amount o) (taker_amount o) (max_fee_bps o)
    (maker o) (maker_manager_id o) (taker o) (sender o) (expiry_ms o) z)
    (registry_id so) (scheme so) (signature so) (public_key so).

(** Orders of the maker whose key the stand-in schemes accept. *)
Definition demo_request (n z : Z) : SignedOrder := with_salt z (demo_signed Ask 96 n 5).

Definition demo_store : Store := mkStore demo_tables [].

Lemma demo_request_wf n z : u64 n → u64 (n * 5 / 1000) → u64 z → order_wf (order (demo_request n z)).
Proof.
  intros Hn Hq Hz. destruct (demo_order_wf Ask 96 n 5 ltac:(lia) Hn Hq) as (? & ? & ? & ? & _ & ? & ? & ? & ?).
  by split_and!.
Qed.

Lemma intake_order_decides_witness :
  let '(s', r) := run (intake_order (demo_request 2000 1) 0) demo_store in
  tables_wf (tables s') ∧
  r = Ok (order_digest (order (demo_request 2000 1)) (demo_addr 7), Ask, 5) ∧
  (run (intake_order (demo_request 2000 2) 90000) demo_store).2 = Err ExpiryTooSoon.
Proof.
  pose proof (intake_order_decides demo_store (demo_request 2000 1) 0 demo_tables_wf) as H.
  destruct (run (intake_order (demo_request 2000 1) 0) demo_store) as [s' r] eqn:E.
  destruct H as (Hwf & _ & _).
  { apply demo_request_wf; vm_compute; split; discriminate. }
  split; [exact Hwf|]. split; [|vm_compute; reflexivity].
  assert ((run (intake_order (demo_request 2000 1) 0) demo_store).2 =
    Ok (order_digest (order (demo_request 2000 1)) (demo_addr 7), Ask, 5)) as Hr by (vm_compute; reflexivity).
  rewrite E in Hr. exact Hr.
Defined.

(** The second order reuses a salt, the fourth exceeds the escrow. *)
Definition demo_requests : list (SignedOrder * Z) :=
  [(demo_request 2000 4, 0); (demo_request 1000 4, 0); (demo_request 1000 6, 0); (demo_request 3000 7, 0)].

Definition demo_funded : Store := store_run (take 2 demo_setup) (mkStore empty_tables []).

Lemma demo_funded_wf : tables_wf (tables demo_funded).
Proof.
  apply store_run_wf; [|apply empty_tables_wf]. apply Forall_take.
  pose proof demo_ops_wf as H. by apply Forall_app in H as [H _].
Qed.

Lemma demo_funded_covered : covered (tables_view (tables demo_funded)).
Proof.
  intros mgr tok _. cbn [v_committed v_balance tables_view].
  assert (committed mgr tok (tables demo_funded) = 0) as -> by reflexivity.
  apply wrap64_range.
Qed.

Lemma demo_requests_wf : Forall (λ q, order_wf (order q.1)) demo_requests.
Proof.
  unfold demo_requests. repeat (apply Forall_cons; split); try exact (Forall_nil_2 _); cbn [fst];
    apply demo_request_wf; vm_compute; split; discriminate.
Qed.

Lemma intake_sequence_honest_witness :
  covered (tables_view (tables (intake_all demo_requests demo_funded).1)) ∧
  (λ so, salt (order so)) <$> (intake_all demo_requests demo_funded).2 = [4; 6].
Proof.
  split; [|vm_compute; reflexivity].
  destruct (intake_all demo_requests demo_funded) as [s' acc] eqn:E.
  exact (proj1 (intake_sequence_honest demo_requests demo_funded s' acc demo_funded_wf demo_requests_wf E
    demo_funded_covered)).
Defined.
End demo_service.
