(* ===== verification/Settlement.v ===== *)
(** [services/orderbook/src/settlement.rs]: the settlement submitter.  The
    transaction it builds is data; executing it is a parameter, and so is
    the parsing of type tags ([move_core_types]). *)

From S2P Require Import Prelude RustStr ExchangeTypes Book Crates Signing Repo Prog Intake Db Demo RepoTheorems.

Record DirectEscrow := mkDirectEscrow {
  adapter_package : SuiAddress;
  integration_registry : SuiAddress;
}.

Record VaultMaker := mkVaultMaker { vk_vault_id : SuiAddress; vk_custody_id : SuiAddress }.

Record MatchJob := mkMatchJob {
  intent : MatchIntent;
  ask : StoredOrder;
  bid : StoredOrder;
  base_type : rstring;
  quote_type : rstring;
  ask_vault : option VaultMaker;
  bid_vault : option VaultMaker;
}.

Inductive DeadReason := DrExpired | DrCancelled | DrSaltVoided | DrBadSignature.

Inductive SettleOutcome :=
  | Confirmed (tx_digest : rstring)
  | OrderDead (digest : Digest) (reason : DeadReason)
  | SoInsufficientEscrow
  | VaultEscrowInsufficient (ask_side : bool)
  | VaultQuotingDisabled
  | VaultRiskOff
  | SoMarketPaused
  | Congested
  | Stale
  | Failed (error : rstring).

#[export] Instance DeadReason_eq_dec : EqDecision DeadReason.
Proof. solve_decision. Defined.
#[export] Instance SettleOutcome_eq_dec : EqDecision SettleOutcome.
Proof. solve_decision. Defined.

(** * Abort codes *)

Definition E_PAUSED : Z := 1.
Definition E_EXPIRED : Z := 3.
Definition E_SALT_VOIDED : Z := 7.
Definition E_CANCELLED : Z := 8.
Definition E_ALREADY_FILLED : Z := 9.
Definition E_BAD_SIGNATURE : Z := 10.
Definition E_NOT_CROSSING : Z := 15.
Definition E_LIMIT_VIOLATED : Z := 16.
Definition E_OVERFILL : Z := 3.
Definition E_INSUFFICIENT_ESCROW : Z := 2.
Definition EA_INSUFFICIENT_ESCROW_A : Z := 9.
Definition EA_INSUFFICIENT_ESCROW_B : Z := 10.

(** [protocol_types::vault_abort]. *)
Definition VAULT_NOT_OPEN : Z := 72.
Definition ADAPTER_NOT_ALLOWED : Z := 75.
Definition QUOTE_ADAPTER_NOT_ENABLED : Z := 113.
Definition RISK_OFF : Z := 124.

Record MoveAbort := mkMoveAbort { ab_module : rstring; ab_code : Z }.

#[export] Instance MoveAbort_eq_dec : EqDecision MoveAbort.
Proof. solve_decision. Defined.

(** The double quote, which a string literal cannot hold here. *)
Definition dquote : rstring := [34].
Definition name_key : rstring := str "Identifier(" ++ dquote.

(** The loop over the closing braces; each round drops at least three
    characters of [search], so its length is fuel enough. *)
Fixpoint find_code (fuel : nat) (module search : rstring) : option MoveAbort :=
  match fuel with
  | O => None
  | S fuel' =>
      '(_, after) ← split_once (str "}, ") search;
      let '(digits, tail) := span is_ascii_digit after in
      if negb (bool_decide (digits = [])) && starts_with (str ")") tail then
        match parse_u64 digits with
        | Ok code => Some (mkMoveAbort module code)
        | Err _ => None
        end
      else find_code fuel' module after
  end.

(** [rest] keeps the key that was found. *)
Definition parse_move_abort (error : rstring) : option MoveAbort :=
  '(_, rest) ← split_once (str "MoveAbort(") error;
  '(_, named) ← split_once name_key (str "MoveAbort(" ++ rest);
  '(module, tail) ← split_once dquote named;
  let search := dquote ++ tail in
  find_code (length search) module search.

Definition is_congestion_cancellation (error : rstring) : bool :=
  contains (str "SharedObjectCongestion") error || contains (str "CongestedObjects") error.

Definition is_abort (abort : MoveAbort) (module : string) (code : Z) : bool :=
  bool_decide (ab_module abort = str module) && (ab_code abort =? code).

(** The match on the module and the code, arm by arm. *)
Definition decode_abort (abort : MoveAbort) (job : MatchJob) (raw : rstring) : SettleOutcome :=
  let at_code := is_abort abort in
  if at_code "balance_manager" E_INSUFFICIENT_ESCROW then SoInsufficientEscrow else
  if at_code "exchange_adapter" EA_INSUFFICIENT_ESCROW_A then VaultEscrowInsufficient true else
  if at_code "exchange_adapter" EA_INSUFFICIENT_ESCROW_B then VaultEscrowInsufficient false else
  if at_code "vault" VAULT_NOT_OPEN || at_code "vault" ADAPTER_NOT_ALLOWED
     || at_code "vault" QUOTE_ADAPTER_NOT_ENABLED then VaultQuotingDisabled else
  if at_code "vault" RISK_OFF then VaultRiskOff else
  if at_code "settlement" E_PAUSED then SoMarketPaused else
  if at_code "registry" E_OVERFILL then Stale else
  if at_code "settlement" E_ALREADY_FILLED || at_code "settlement" E_NOT_CROSSING
     || at_code "settlement" E_LIMIT_VIOLATED then Stale else
  if at_code "settlement" E_EXPIRED then
    let dead := if expiry_ms (order (so_signed (ask job))) <=? expiry_ms (order (so_signed (bid job)))
                then so_digest (ask job) else so_digest (bid job) in
    OrderDead dead DrExpired else
  if at_code "settlement" E_CANCELLED then OrderDead (so_digest (ask job)) DrCancelled else
  if at_code "settlement" E_SALT_VOIDED then OrderDead (so_digest (ask job)) DrSaltVoided else
  if at_code "settlement" E_BAD_SIGNATURE then OrderDead (so_digest (ask job)) DrBadSignature else
  Failed raw.

(** * The direct makers *)

(** The binding of a manager, when it is direct; a failed lookup degrades
    to the classic path. *)
Definition vault_maker_of {S} `{HasStore S} (manager : SuiAddress) : prog S (option VaultMaker) :=
  prog_bind (λ r, Ret
    match r with
    | Ok (Some row) =>
        if vm_direct row then Some (mkVaultMaker (vm_vault_id row) (vm_custody_id row)) else None
    | Ok None => None
    | Err _ => None
    end) (db (vault_manager manager)).

(** * The transaction *)

Definition label (job : MatchJob) : rstring :=
  match ask_vault job, bid_vault job with
  | None, None => str "exchange settlement::match_orders"
  | Some _, None => str "exchange_adapter::match_vault_vs_bm"
  | None, Some _ => str "exchange_adapter::match_bm_vs_vault"
  | Some _, Some _ => str "exchange_adapter::match_vault_vs_vault"
  end.

(** An argument of the Move call: a pure value, or a shared object. *)
Inductive PtbArg :=
  | PureBytes (b : list Z)
  | PureU64 (n : Z)
  | PureId (id : SuiAddress)
  | SharedObject (id : SuiAddress) (mutable : bool)
  | Clock.

Record MoveCall := mkMoveCall {
  mc_package : SuiAddress;
  mc_module : rstring;
  mc_function : rstring;
  mc_type_args : list rstring;
  mc_args : list PtbArg;
}.

Record Submitter := mkSubmitter {
  sub_package : SuiAddress;
  sub_whitelist : SuiAddress;
  sub_direct : option DirectEscrow;
}.

Section submit.
Context `{BcsCrate, CryptoCrates}.
(** [TypeTag::from_str] accepts the string, and the text of its error. *)
Context (type_tag_ok : rstring → bool) (type_tag_error : rstring).
(** Executing the call: the digest of the transaction, or an error's text. *)
Context (submit_ptb_rebuilding : rstring → MoveCall → result rstring rstring).

Definition order_args (so : SignedOrder) : list PtbArg :=
  [PureBytes (to_bcs (order so)); PureBytes (prefixed_signature so); PureBytes (public_key so)].

(** What [try_submit] builds; [None] for a direct maker without an adapter. *)
Definition match_call (sub : Submitter) (job : MatchJob) : option MoveCall :=
  let registry := registry_id (so_signed (ask job)) in
  let bm_a := maker_manager_id (order (so_signed (ask job))) in
  let bm_b := maker_manager_id (order (so_signed (bid job))) in
  let orders := order_args (so_signed (ask job)) ++ order_args (so_signed (bid job)) in
  let fill := PureU64 (fill_base_amount (intent job)) in
  let reg_arg := SharedObject registry true in
  let wl_arg := SharedObject (sub_whitelist sub) false in
  let type_args := [base_type job; quote_type job] in
  match ask_vault job, bid_vault job, sub_direct sub with
  | None, None, _ =>
      Some (mkMoveCall (sub_package sub) (str "settlement") (str "match_orders") type_args
        ([reg_arg; wl_arg; SharedObject bm_a true; SharedObject bm_b true] ++ orders ++ [fill; Clock]))
  | Some av, None, Some d =>
      Some (mkMoveCall (adapter_package d) (str "exchange_adapter") (str "match_vault_vs_bm") type_args
        ([SharedObject (vk_vault_id av) true; SharedObject (integration_registry d) false; reg_arg; wl_arg;
          SharedObject bm_a false; PureId (vk_custody_id av); SharedObject bm_b true]
         ++ orders ++ [fill; Clock]))
  | None, Some bv, Some d =>
      Some (mkMoveCall (adapter_package d) (str "exchange_adapter") (str "match_bm_vs_vault") type_args
        ([SharedObject (vk_vault_id bv) true; SharedObject (integration_registry d) false; reg_arg; wl_arg;
          SharedObject bm_a true; SharedObject bm_b false; PureId (vk_custody_id bv)]
         ++ orders ++ [fill; Clock]))
  | Some av, Some bv, Some d =>
      Some (mkMoveCall (adapter_package d) (str "exchange_adapter") (str "match_vault_vs_vault") type_args
        ([SharedObject (vk_vault_id av) true; PureId (vk_custody_id av); SharedObject bm_a false;
          SharedObject (vk_vault_id bv) true; PureId (vk_custody_id bv); SharedObject bm_b false;
          SharedObject (integration_registry d) false; reg_arg; wl_arg]
         ++ orders ++ [fill; Clock]))
  | _, _, None => None
  end.

Definition no_adapter_error : rstring :=
  str "direct-escrow maker but no exchange_adapter deployment configured".

Definition try_submit (sub : Submitter) (job : MatchJob) : result rstring rstring :=
  if negb (type_tag_ok (base_type job)) then
    Err (str "parsing base type " ++ base_type job ++ str ": " ++ type_tag_error) else
  if negb (type_tag_ok (quote_type job)) then
    Err (str "parsing quote type " ++ quote_type job ++ str ": " ++ type_tag_error) else
  match match_call sub job with
  | None => Err no_adapter_error
  | Some call => submit_ptb_rebuilding (label job) call
  end.

Definition submit_match (sub : Submitter) (job : MatchJob) : SettleOutcome :=
  match try_submit sub job with
  | Ok tx_digest => Confirmed tx_digest
  | Err msg =>
      if is_congestion_cancellation msg then Congested else
      match parse_move_abort msg with
      | Some abort => decode_abort abort job msg
      | None => Failed msg
      end
  end.
End submit.

(** * Searching *)

(** [p] does not occur in front of the end of [a], when [r] follows. *)
Definition absent (p a r : rstring) : Prop :=
  ∀ a1 a2, a = a1 ++ a2 → a2 ≠ [] → strip_prefix p (a2 ++ r) = None.

Lemma split_once_absent p a b : absent p a (p ++ b) → split_once p (a ++ p ++ b) = Some (a, b).
Proof.
  intros Ha. assert (∀ s, split_once p s = match strip_prefix p s with
    | Some rest => Some ([], rest)
    | None => match s with [] => None | c :: s' => prod_map (cons c) id <$> split_once p s' end end) as Hdef
    by (by intros []).
  induction a as [|c a IH]; rewrite Hdef.
  - rewrite app_nil_l, strip_prefix_app. done.
  - rewrite (Ha [] (c :: a)) by done. cbn [app]. rewrite IH; [done|].
    intros a1 a2 E Hne. apply (Ha (c :: a1)); [by rewrite E|done].
Qed.

Lemma absent_char c p a r : c ∉ a → absent (c :: p) a r.
Proof.
  intros Hc a1 a2 -> Hne. destruct a2 as [|d a2]; [done|]. simpl.
  destruct (Z.eqb_spec c d) as [->|]; [|done]. set_solver.
Qed.

Lemma absent_app p a1 a2 r : absent p a1 (a2 ++ r) → absent p a2 r → absent p (a1 ++ a2) r.
Proof.
  intros H1 H2 b1 b2 E Hne. apply app_eq_app in E as [l [[-> ->]|[-> ->]]].
  - rewrite <- app_assoc. destruct l as [|c l]; [by apply (H2 [] a2)|]. by apply (H1 b1).
  - by apply (H2 l).
Qed.

(** [p] and [s] differ before either ends. *)
Fixpoint clash (p s : rstring) : bool :=
  match p, s with
  | c :: p', d :: s' => if c =? d then clash p' s' else true
  | _, _ => false
  end.

Fixpoint clashes (p a : rstring) : bool :=
  match a with [] => true | _ :: a' => clash p a && clashes p a' end.

Lemma clash_strip p s r : clash p s = true → strip_prefix p (s ++ r) = None.
Proof.
  revert s. induction p as [|c p IH]; intros [|d s]; simpl; try done.
  destruct (c =? d); auto.
Qed.

(** A text in which [p] clashes everywhere, whatever follows it. *)
Lemma absent_clashes p a r : clashes p a = true → absent p a r.
Proof.
  intros Ha a1. revert a Ha. induction a1 as [|c a1 IH]; intros a Ha a2 -> Hne; simpl in *.
  - destruct a2 as [|d a2]; [done|]. apply andb_true_iff in Ha as [Ha _]. by apply clash_strip.
  - apply andb_true_iff in Ha as [_ Ha]. by apply (IH (a1 ++ a2)).
Qed.

Lemma span_app f s c t : (∀ d, d ∈ s → f d = true) → f c = false → span f (s ++ c :: t) = (s, c :: t).
Proof.
  intros Hs Hc. induction s as [|d s IH]; simpl; [by rewrite Hc|].
  rewrite Hs by set_solver. rewrite IH by set_solver. done.
Qed.

Lemma u64_to_string_digit n c : 0 ≤ n → c ∈ u64_to_string n → is_ascii_digit c = true.
Proof. apply digits_fuel_digit. Qed.

Lemma u64_to_string_ne n : u64_to_string n ≠ [].
Proof. unfold u64_to_string. destruct (digits_fuel_head 19 n) as (c & s & ->). done. Qed.

(** * Abort messages *)

(** The rendering of a Move abort inside the error text of an execution. *)
Definition render_abort (pre addr module : rstring) (function instruction : Z) (function_name : rstring)
    (code : Z) (post : rstring) : rstring :=
  pre ++ str "MoveAbort(" ++ str "MoveLocation { module: ModuleId { address: " ++ addr ++ str ", name: "
  ++ name_key ++ module ++ dquote ++ str ") " ++ str "}, " ++ str "function: " ++ u64_to_string function
  ++ str ", instruction: " ++ u64_to_string instruction ++ str ", function_name: " ++ function_name
  ++ str " " ++ str "}, " ++ u64_to_string code ++ str ")" ++ post.

Definition opening_absent (pre : rstring) : Prop := ∀ r, absent (str "MoveAbort(") pre r.

Lemma find_code_step fuel module a after :
  125 ∉ a →
  find_code (S fuel) module (a ++ str "}, " ++ after) =
  let '(digits, tail) := span is_ascii_digit after in
  if negb (bool_decide (digits = [])) && starts_with (str ")") tail then
    match parse_u64 digits with
    | Ok code => Some (mkMoveAbort module code)
    | Err _ => None
    end
  else find_code fuel module after.
Proof.
  intros Ha. cbn [find_code]. rewrite split_once_absent; [done|].
  by apply (absent_char 125).
Qed.

Lemma digits_no_brace n : 0 ≤ n → 125 ∉ u64_to_string n.
Proof. intros Hn Hin%u64_to_string_digit; [|done]. done. Qed.

Ltac not_in := repeat (rewrite not_elem_of_app; split); first
  [assumption|by apply digits_no_brace|apply not_in_text; vm_compute; reflexivity].

Lemma split_name_key addr rest :
  73 ∉ addr →
  split_once name_key (str "MoveAbort(" ++ str "MoveLocation { module: ModuleId { address: " ++ addr
    ++ str ", name: " ++ name_key ++ rest) =
  Some (str "MoveAbort(" ++ str "MoveLocation { module: ModuleId { address: " ++ addr ++ str ", name: ", rest).
Proof.
  intros Haddr.
  pose proof (split_once_absent name_key (str "MoveAbort(" ++ str "MoveLocation { module: ModuleId { address: "
    ++ addr ++ str ", name: ") rest) as H. rewrite <- !app_assoc in H. apply H.
  repeat apply absent_app; try (by apply absent_clashes; vm_compute; reflexivity).
  by apply (absent_char 73).
Qed.

(** The two closing braces after the module name: the second one has the code. *)
Lemma find_code_call module function instruction function_name code post :
  125 ∉ function_name → 0 ≤ function → 0 ≤ instruction → 0 ≤ code →
  let search := dquote ++ str ") " ++ str "}, " ++ str "function: " ++ u64_to_string function
    ++ str ", instruction: " ++ u64_to_string instruction ++ str ", function_name: " ++ function_name
    ++ str " " ++ str "}, " ++ u64_to_string code ++ str ")" ++ post in
  find_code (length search) module search =
  match parse_u64 (u64_to_string code) with
  | Ok code => Some (mkMoveAbort module code)
  | Err _ => None
  end.
Proof.
  intros Hfn Hf Hi Hc search.
  assert (∃ n, length search = S (S n)) as [n ->] by (eexists; reflexivity).
  unfold search.
  match goal with |- find_code _ _ (dquote ++ str ") " ++ str "}, " ++ ?r) = _ =>
    pose proof (find_code_step (S n) module (dquote ++ str ") ") r) as H1 end.
  rewrite <- app_assoc in H1. rewrite H1 by not_in. clear H1.
  change (str "function: ") with (102 :: str "unction: "). cbn [app span]. cbn [is_ascii_digit].
  match goal with |- context [is_ascii_digit 102] => change (is_ascii_digit 102) with false end.
  cbn iota beta. rewrite bool_decide_true by done. cbn [negb andb].
  match goal with |- find_code _ _ ?s = _ => assert (s = (str "function: " ++ u64_to_string function
    ++ str ", instruction: " ++ u64_to_string instruction ++ str ", function_name: " ++ function_name
    ++ str " ") ++ str "}, " ++ u64_to_string code ++ str ")" ++ post) as -> end.
  { by rewrite <- !app_assoc. }
  rewrite find_code_step by not_in.
  change (str ")" ++ post) with (41 :: post).
  rewrite span_app; [|intros d Hd; by apply u64_to_string_digit in Hd|done].
  rewrite bool_decide_false by apply u64_to_string_ne. done.
Qed.

(** Abort decoding reads the abort back: from any error text that holds
    the debug rendering of a Move abort, whatever surrounds it, the module
    and the code of that abort are recovered exactly. *)
Theorem parse_move_abort_rendered pre addr module function instruction function_name code post :
  opening_absent pre → 73 ∉ addr → 34 ∉ module → 125 ∉ function_name →
  0 ≤ function → 0 ≤ instruction → u64 code →
  parse_move_abort
    (render_abort pre addr module function instruction function_name code post) =
  Some (mkMoveAbort module code).
Proof.
  intros Hpre Haddr Hmod Hfn Hf Hi Hc. unfold render_abort, parse_move_abort.
  rewrite split_once_absent by apply Hpre. cbn [mbind option_bind].
  rewrite split_name_key by done. cbn [mbind option_bind].
  rewrite split_once_absent by by apply (absent_char 34). cbn [mbind option_bind].
  rewrite find_code_call by (done || apply Hc). by rewrite parse_u64_to_string.
Qed.

(** * Concrete instances *)

Definition demo_pre : rstring := str "exchange settlement::match_orders reverted: Failure { error: ".

(** An abort of the escrow check, read back and decoded. *)
Lemma parse_move_abort_rendered_witness :
  parse_move_abort (render_abort demo_pre (str "abc123") (str "balance_manager") 12 33
    (str "Some(match_orders)") 2 (str ", command: Some(0) }")) = Some (mkMoveAbort (str "balance_manager") 2).
Proof.
  apply (parse_move_abort_rendered demo_pre (str "abc123") (str "balance_manager") 12 33
    (str "Some(match_orders)") 2 (str ", command: Some(0) }")).
  - intros r. apply absent_clashes. vm_compute. reflexivity.
  - apply not_in_text. vm_compute. reflexivity.
  - apply not_in_text. vm_compute. reflexivity.
  - apply not_in_text. vm_compute. reflexivity.
  - lia.
  - lia.
  - vm_compute. split; discriminate.
Defined.
