(* ===== verification/Asset.v ===== *)
(** [crates/protocol-types/src/asset.rs]: the client form of a Move coin type
    (a padded [0x] address at every depth) and its chain form (no [0x]).
    Unlike [MoveType], which rejects what is not a struct tag, it passes
    whatever it does not recognize through. *)

From S2P Require Import Prelude RustStr.

Definition is_punct (c : Z) : bool := (c =? 60) || (c =? 62) || (c =? 44).

Definition canonicalize_atom (atom : rstring) : rstring :=
  match split_once (str "::") atom with
  | Some (addr, rest) =>
      if bool_decide (addr = []) then atom else
      let hex := default addr (strip_prefix (str "0x") addr) in
      if forallb is_ascii_hexdigit hex then
        str "0x" ++ pad_left0 64 (to_ascii_lowercase hex) ++ str "::" ++ rest
      else atom
  | None => atom
  end.

Definition flush (atom out : rstring) : rstring :=
  if bool_decide (atom = []) then out else out ++ canonicalize_atom atom.

Fixpoint canonicalize_chars (atom out s : rstring) : rstring :=
  match s with
  | [] => flush atom out
  | c :: s' =>
      if is_punct c then canonicalize_chars [] (flush atom out ++ [c]) s'
      else if is_whitespace c then canonicalize_chars [] (flush atom out) s'
      else canonicalize_chars (atom ++ [c]) out s'
  end.

Definition canonicalize_move_type (s : rstring) : rstring := canonicalize_chars [] [] s.

(** [s.replace("0x", "")]: every occurrence, from the left. *)
Fixpoint remove_0x (s : rstring) : rstring :=
  match s with
  | [] => []
  | c :: s' =>
      match s' with
      | d :: s'' => if (c =? 48) && (d =? 120) then remove_0x s'' else c :: remove_0x s'
      | [] => [c]
      end
  end.

Definition chain_form_move_type (s : rstring) : rstring := remove_0x (canonicalize_move_type s).

(** * Lemmas *)

(** A part of an atom: neither punctuation nor white space. *)
Definition plain (s : rstring) : Prop := ∀ c, c ∈ s → is_punct c = false ∧ is_whitespace c = false.

(** Canonical addresses: [0x] and 64 lower-case digits. *)
Definition lower_hex (c : Z) : bool := is_ascii_digit c || ((97 <=? c) && (c <=? 102)).
Definition hex64 (h : rstring) : Prop := length h = 64%nat ∧ ∀ c, c ∈ h → lower_hex c = true.

Lemma lower_hex_digit c : lower_hex c = true → is_ascii_hexdigit c = true.
Proof. unfold lower_hex, is_ascii_hexdigit. intros H. apply orb_true_iff in H as [->| ->]; [done|]. by rewrite orb_true_r. Qed.

Lemma lower_hex_plain c : lower_hex c = true → is_punct c = false ∧ is_whitespace c = false.
Proof.
  unfold lower_hex, is_ascii_digit, is_punct, is_whitespace. intros H.
  rewrite !orb_false_iff, !andb_false_iff, !Z.eqb_neq, !Z.leb_gt.
  apply orb_true_iff in H as [H|H]; reflect_bools; lia.
Qed.

Lemma lower_hex_lowercase h : (∀ c, c ∈ h → lower_hex c = true) → to_ascii_lowercase h = h.
Proof.
  intros Hh. unfold to_ascii_lowercase. rewrite <- (list_fmap_id h) at 2.
  apply list_fmap_ext. intros i c Hc%list_elem_of_lookup_2. apply Hh in Hc.
  unfold to_ascii_lowercase_char. case_bool; [|done]. unfold lower_hex, is_ascii_digit in Hc.
  reflect_bools. apply orb_true_iff in Hc as [Hc|Hc]; reflect_bools; lia.
Qed.

Lemma plain_app s1 s2 : plain (s1 ++ s2) ↔ plain s1 ∧ plain s2.
Proof. unfold plain. setoid_rewrite elem_of_app. naive_solver. Qed.

Lemma canonicalize_chars_plain a atom out s :
  plain a → canonicalize_chars atom out (a ++ s) = canonicalize_chars (atom ++ a) out s.
Proof.
  revert atom. induction a as [|c a IH]; intros atom Ha; [by rewrite app_nil_r|].
  destruct (Ha c ltac:(set_solver)) as [Hp Hw]. cbn [app canonicalize_chars]. rewrite Hp, Hw, IH.
  - by rewrite <- app_assoc.
  - intros d Hd. apply Ha. set_solver.
Qed.

(** An atom followed by a punctuation character, or by nothing. *)
Lemma canonicalize_chars_atom a out c s :
  plain a → a ≠ [] → is_punct c = true →
  canonicalize_chars [] out (a ++ c :: s) = canonicalize_chars [] (out ++ canonicalize_atom a ++ [c]) s.
Proof.
  intros Ha Hne Hc. rewrite canonicalize_chars_plain by done. cbn [app canonicalize_chars]. rewrite Hc.
  unfold flush. rewrite bool_decide_false by done. by rewrite <- app_assoc.
Qed.

Lemma hex64_checks h : hex64 h → forallb is_ascii_hexdigit h = true ∧ 58 ∉ h ∧ h ≠ [].
Proof.
  intros [Hlen Hh]. split_and!.
  - apply forallb_forall. intros c Hc%list_elem_of_In. by apply lower_hex_digit, Hh.
  - intros Hc%Hh. done.
  - by intros ->.
Qed.

Lemma canonicalize_atom_canonical h r :
  hex64 h → canonicalize_atom (str "0x" ++ h ++ str "::" ++ r) = str "0x" ++ h ++ str "::" ++ r.
Proof.
  intros [Hlen Hh]. unfold canonicalize_atom.
  destruct (hex64_checks h (conj Hlen Hh)) as (Hd & Hc & _).
  rewrite app_assoc, split_once_colons.
  - rewrite (bool_decide_false (str "0x" ++ h = [])), strip_prefix_app by done. unfold default, id.
    by rewrite Hd, lower_hex_lowercase, pad_left0_id, <- app_assoc by (done || lia).
  - rewrite not_elem_of_app. split; [by apply not_in_text|done].
Qed.

Lemma canonicalize_atom_bare h r :
  hex64 h → canonicalize_atom (h ++ str "::" ++ r) = str "0x" ++ h ++ str "::" ++ r.
Proof.
  intros Hh. pose proof Hh as [Hlen Hl]. destruct (hex64_checks h Hh) as (Hd & Hc & Hne).
  unfold canonicalize_atom. rewrite split_once_colons, bool_decide_false by done.
  assert (strip_prefix (str "0x") h = None) as ->.
  { destruct h as [|c [|d h]]; [done..|]. change (str "0x") with [48; 120]. cbn [strip_prefix].
    destruct (48 =? c); [|done]. destruct (Z.eqb_spec 120 d) as [<-|]; [|done].
    by discriminate (Hl 120 ltac:(set_solver)). }
  unfold default, id. by rewrite Hd, lower_hex_lowercase, pad_left0_id by (done || lia).
Qed.

Lemma plain_ascii s : forallb (λ c, negb (is_punct c) && negb (is_whitespace c)) s = true → plain s.
Proof.
  intros H c Hc%list_elem_of_In. rewrite forallb_forall in H. apply H in Hc.
  by apply andb_true_iff in Hc as [->%negb_true_iff ->%negb_true_iff].
Qed.

Lemma plain_hex64 h : hex64 h → plain h.
Proof. intros [_ Hh] c Hc. by apply lower_hex_plain, Hh. Qed.

(** [remove_0x] leaves a text without [0x] alone. *)
Definition no_0x (s : rstring) : Prop := remove_0x s = s.

Lemma remove_0x_cons2 c d s :
  remove_0x (c :: d :: s) = if (c =? 48) && (d =? 120) then remove_0x s else c :: remove_0x (d :: s).
Proof. done. Qed.

Lemma remove_0x_hex h r : (∀ c, c ∈ h → c ≠ 120) → 120 ∉ take 1 r → remove_0x (h ++ r) = h ++ remove_0x r.
Proof.
  intros Hh Hr. induction h as [|c h IH]; [done|]. cbn [app]. destruct (h ++ r) as [|d s] eqn:E.
  - apply app_nil in E as [-> ->]. done.
  - rewrite remove_0x_cons2. assert (d ≠ 120) as Hd.
    { destruct h as [|e h]; simplify_eq/=; [|apply Hh; set_solver].
      intros ->. apply Hr. set_solver. }
    rewrite (proj2 (Z.eqb_neq _ _) Hd), andb_false_r. f_equal. apply IH. intros e He. apply Hh. set_solver.
Qed.

Lemma hex64_no_x h : hex64 h → ∀ c, c ∈ h → c ≠ 120.
Proof. intros [_ Hh] c Hc%Hh ->. done. Qed.

Lemma remove_0x_canonical h r : hex64 h → remove_0x (str "0x" ++ h ++ str "::" ++ r) = h ++ str "::" ++ remove_0x r.
Proof.
  intros Hh. change (str "0x" ++ h ++ str "::" ++ r) with (48 :: 120 :: h ++ str "::" ++ r).
  rewrite remove_0x_cons2. cbn [andb Z.eqb Pos.eqb]. rewrite remove_0x_hex.
  - f_equal. change (str "::" ++ r) with (58 :: 58 :: r). rewrite !remove_0x_cons2.
    cbn [andb Z.eqb Pos.eqb]. change (str "::") with [58; 58]. cbn [app]. f_equal.
    destruct r as [|d r]; [done|]. by rewrite remove_0x_cons2.
  - by apply hex64_no_x.
  - change (str "::" ++ r) with (58 :: 58 :: r). cbn [take]. set_solver.
Qed.
