(* ===== verification/BucketSpec.v ===== *)
(** [crates/protocol-types/src/bucket_spec.rs]: a bucket's economic identity
    and its encoding as an option coin type.  [strike_scaled], a floating
    point view for pricing, is not modelled. *)

From S2P Require Import Prelude RustStr Asset.

Definition MAX_SIG : Z := 1099511627775.
Definition MINUTE_MS : Z := 60000.
Definition u32_max : Z := 2 ^ 32 - 1.

Record BucketSpec := mkBucketSpec {
  bs_asset : rstring;
  bs_settlement : rstring;
  bs_expiry_ms : Z;
  bs_sig : Z;
  bs_exp : Z;
  bs_is_put : bool;
}.

Inductive SpecError := ZeroStrike | StrikeNotRepresentable | ExpiryNotAligned | ExpiryOutOfRange.

#[export] Instance BucketSpec_eq_dec : EqDecision BucketSpec.
Proof. solve_decision. Defined.
#[export] Instance SpecError_eq_dec : EqDecision SpecError.
Proof. solve_decision. Defined.

(** The loop of [normalize_strike]; the exponent bounds its iterations. *)
Fixpoint strip_zeros (exp : nat) (sig : Z) : Z * Z :=
  match exp with
  | O => (sig, 0)
  | S exp' => if sig mod 10 =? 0 then strip_zeros exp' (sig / 10) else (sig, Z.of_nat exp)
  end.

Definition normalize_strike (strike strike_scale : Z) : result SpecError (Z * Z) :=
  if strike =? 0 then Err ZeroStrike else
  let '(sig, exp) := strip_zeros (Z.to_nat strike_scale) strike in
  if MAX_SIG <? sig then Err StrikeNotRepresentable else Ok (sig, exp).

Definition BucketSpec_new (asset settlement : rstring) (expiry_ms strike strike_scale : Z) (is_put : bool)
    : result SpecError BucketSpec :=
  '(sig, exp) ← normalize_strike strike strike_scale;
  Ok (mkBucketSpec (chain_form_move_type asset) (chain_form_move_type settlement) expiry_ms sig exp is_put).

Definition expiry_minutes (s : BucketSpec) : result SpecError Z :=
  if negb (bs_expiry_ms s mod MINUTE_MS =? 0) then Err ExpiryNotAligned else
  if bs_expiry_ms s / MINUTE_MS <=? u32_max then Ok (bs_expiry_ms s / MINUTE_MS) else Err ExpiryOutOfRange.

Definition is_creatable (s : BucketSpec) : bool :=
  match expiry_minutes s with Ok _ => true | Err _ => false end
  && (0 <? bs_sig s) && (bs_sig s <=? MAX_SIG).

(** * The coin type *)

(** [to_be_bytes], [n] bytes wide. *)
Fixpoint be_bytes (n : nat) (v : Z) : list Z :=
  match n with
  | O => []
  | S n' => be_bytes n' (v / 256) ++ [v mod 256]
  end.
Definition from_be_bytes (l : list Z) : Z := foldl (λ acc b, acc * 256 + b) 0 l.

Definition upper_hex_digit (d : Z) : Z := if d <? 10 then 48 + d else 55 + d.
(** [{b:02X}]. *)
Definition hex2 (b : Z) : rstring := [upper_hex_digit (b / 16); upper_hex_digit (b mod 16)].

(** The canonical address of a package. *)
Definition canonical_package (package : rstring) : option rstring :=
  fst <$> split_once (str "::") (canonicalize_move_type (package ++ str "::x::X")).

Definition marker (pkg : rstring) (b : Z) : rstring :=
  pkg ++ str "::" ++ (if b <? 128 then str "enc0" else str "enc1") ++ str "::B" ++ hex2 b.

Definition spec_bytes (minutes : Z) (s : BucketSpec) : list Z :=
  be_bytes 4 minutes ++ drop 3 (be_bytes 8 (bs_sig s)) ++ [bs_exp s].

Fixpoint join_commas (l : list rstring) : rstring :=
  match l with
  | [] => []
  | [s] => s
  | s :: l' => s ++ str "," ++ join_commas l'
  end.

Definition root_name (is_put : bool) : rstring := if is_put then str "OptionPut" else str "OptionCall".

Definition option_coin_type (package : rstring) (s : BucketSpec) : result SpecError rstring :=
  minutes ← expiry_minutes s;
  if MAX_SIG <? bs_sig s then Err StrikeNotRepresentable else
  let pkg := default package (canonical_package package) in
  let markers := marker pkg <$> spec_bytes minutes s in
  Ok (pkg ++ str "::option_coin::" ++ root_name (bs_is_put s) ++ str "<"
      ++ canonicalize_move_type (bs_asset s) ++ str ","
      ++ canonicalize_move_type (bs_settlement s) ++ str "," ++ join_commas markers ++ str ">").

(** * Decoding *)

(** The text after the last [::], as [rsplit] finds it. *)
Fixpoint after_last_colons (s : rstring) : option rstring :=
  match s with
  | [] => None
  | c :: s' =>
      match after_last_colons s' with
      | Some r => Some r
      | None => match s' with
                | d :: s'' => if (c =? 58) && (d =? 58) then Some s'' else None
                | [] => None
                end
      end
  end.
Definition last_segment (s : rstring) : rstring := default s (after_last_colons s).

(** The type arguments: split at the commas at depth zero; the [usize]
    depth wraps. *)
Fixpoint split_args (depth : Z) (cur s : rstring) : list rstring :=
  match s with
  | [] => [cur]
  | c :: s' =>
      if c =? 60 then split_args (wrap64 (depth + 1)) (cur ++ [c]) s'
      else if c =? 62 then split_args (wrap64 (depth - 1)) (cur ++ [c]) s'
      else if (c =? 44) && (depth =? 0) then cur :: split_args depth [] s'
      else split_args depth (cur ++ [c]) s'
  end.

Definition hex_value (c : Z) : option Z :=
  if is_ascii_digit c then Some (c - 48)
  else if (97 <=? c) && (c <=? 102) then Some (c - 87)
  else if (65 <=? c) && (c <=? 70) then Some (c - 55)
  else None.

Fixpoint hex_digits (acc : Z) (s : rstring) : option Z :=
  match s with
  | [] => Some acc
  | c :: s' =>
      d ← hex_value c;
      if acc * 16 + d <=? 255 then hex_digits (acc * 16 + d) s' else None
  end.

(** [u8::from_str_radix(s, 16)]: an optional [+], then at least one digit. *)
Definition u8_from_hex (s : rstring) : option Z :=
  match s with
  | [] => None
  | c :: s' => if c =? 43 then match s' with [] => None | _ => hex_digits 0 s' end else hex_digits 0 s
  end.

Definition marker_byte (m : rstring) : option Z :=
  hex ← strip_prefix (str "B") (last_segment m);
  u8_from_hex hex.

Definition decode_option_coin_type (package coin_type : rstring) : option BucketSpec :=
  pkg ← canonical_package package;
  let t := canonicalize_move_type coin_type in
  inner ← strip_suffix_char 62 t;
  '(root, args) ← split_once (str "<") inner;
  name ← strip_prefix (pkg ++ str "::option_coin::") root;
  is_put ← (if bool_decide (name = str "OptionCall") then Some false
            else if bool_decide (name = str "OptionPut") then Some true else None);
  match split_args 0 [] args with
  | asset :: settlement :: markers =>
      if negb (bool_decide (length markers = 10%nat)) then None else
      bytes ← mapM marker_byte markers;
      let minutes := from_be_bytes (take 4 bytes) in
      let sig := from_be_bytes (take 5 (drop 4 bytes)) in
      exp ← bytes !! 9%nat;
      Some (mkBucketSpec (chain_form_move_type asset) (chain_form_move_type settlement)
              (u64_mul minutes MINUTE_MS) sig exp is_put)
  | _ => None
  end.
