(* ===== verification/BucketSpecTheorems.v ===== *)
(** The properties of the bucket encoding, with concrete instances. *)

From S2P Require Import Prelude RustStr Asset BucketSpec.

(** * Strikes *)

(** What the loop returns: the same value, with the trailing zeros gone. *)
Lemma strip_zeros_spec exp sig :
  0 < sig → let '(s, e) := strip_zeros exp sig in
  0 ≤ e ≤ Z.of_nat exp ∧ 0 < s ∧ s * 10 ^ (Z.of_nat exp - e) = sig ∧ (e = 0 ∨ s mod 10 ≠ 0).
Proof.
  revert sig. induction exp as [|exp IH]; intros sig Hs; cbn [strip_zeros].
  { change (Z.of_nat 0 - 0) with 0. rewrite Z.pow_0_r. lia. }
  destruct (Z.eqb_spec (sig mod 10) 0) as [E|E].
  - pose proof (Z.div_mod sig 10 ltac:(lia)). specialize (IH (sig / 10) ltac:(lia)).
    destruct (strip_zeros exp (sig / 10)) as [s e]. destruct IH as (He & Hpos & Hv & Hc).
    split_and!; [lia|lia|done| |done].
    replace (Z.of_nat (S exp) - e) with (Z.succ (Z.of_nat exp - e)) by lia.
    rewrite Z.pow_succ_r by lia. lia.
  - rewrite Z.sub_diag, Z.pow_0_r. lia.
Qed.

(** Two reduced representations of one ratio are the same. *)
Lemma reduced_le s1 e1 s2 e2 :
  0 < s1 → 0 ≤ e1 ≤ e2 → s1 * 10 ^ e2 = s2 * 10 ^ e1 → (e2 = 0 ∨ s2 mod 10 ≠ 0) → s1 = s2 ∧ e1 = e2.
Proof.
  intros Hs1 He E Hc. replace e2 with (e2 - e1 + e1) in E by lia.
  rewrite Z.pow_add_r, Z.mul_assoc in E by lia. apply Z.mul_reg_r in E; [|lia].
  destruct (decide (e1 = e2)) as [->|Hne].
  - rewrite Z.sub_diag, Z.mul_1_r in E. done.
  - exfalso. destruct Hc as [->|Hc]; [lia|]. apply Hc. rewrite <- E.
    replace (e2 - e1) with (Z.succ (e2 - e1 - 1)) by lia. rewrite Z.pow_succ_r by lia.
    rewrite (Z.mul_comm 10), Z.mul_assoc. apply Z.mod_mul. lia.
Qed.

Lemma reduced_unique s1 e1 s2 e2 :
  0 < s1 → 0 < s2 → 0 ≤ e1 → 0 ≤ e2 → s1 * 10 ^ e2 = s2 * 10 ^ e1 →
  (e1 = 0 ∨ s1 mod 10 ≠ 0) → (e2 = 0 ∨ s2 mod 10 ≠ 0) → s1 = s2 ∧ e1 = e2.
Proof.
  intros. destruct (decide (e1 ≤ e2)).
  - apply reduced_le; auto with lia.
  - destruct (reduced_le s2 e2 s1 e1) as [-> ->]; auto with lia.
Qed.

(** [normalize_strike] keeps the value of a strike, in lowest terms
    within the forty bits of the encoding, and two raw encodings of one
    ratio always normalize to the same result: a bucket for a strike is
    unique. *)
Theorem normalize_strike_canonical strike scale strike' scale' :
  0 < strike → 0 < strike' → 0 ≤ scale → 0 ≤ scale' →
  match normalize_strike strike scale with
  | Ok (sig, exp) =>
      sig * 10 ^ (scale - exp) = strike ∧ 0 ≤ exp ≤ scale ∧ 0 < sig ≤ MAX_SIG ∧ (exp = 0 ∨ sig mod 10 ≠ 0)
  | Err e => e = StrikeNotRepresentable
  end ∧
  (strike * 10 ^ scale' = strike' * 10 ^ scale →
   normalize_strike strike scale = normalize_strike strike' scale').
Proof.
  intros Hs Hs' Hk Hk'. unfold normalize_strike.
  pose proof (strip_zeros_spec (Z.to_nat scale) strike Hs) as H.
  pose proof (strip_zeros_spec (Z.to_nat scale') strike' Hs') as H'.
  rewrite !Z2Nat.id in * by lia. rewrite !(proj2 (Z.eqb_neq _ 0)) by lia.
  destruct (strip_zeros _ strike) as [s e], (strip_zeros _ strike') as [s' e'].
  destruct H as (He & Hpos & Hv & Hc), H' as (He' & Hpos' & Hv' & Hc'). split.
  - destruct (Z.ltb_spec MAX_SIG s); [done|]. split_and!; done || lia.
  - intros E. destruct (reduced_unique s e s' e' Hpos Hpos') as [-> ->]; [lia|lia| |done|done|done].
    apply (Z.mul_reg_r _ _ (10 ^ (scale - e) * 10 ^ (scale' - e'))); [lia|].
    assert (10 ^ scale = 10 ^ (scale - e) * 10 ^ e) as E1 by (rewrite <- Z.pow_add_r by lia; f_equal; lia).
    assert (10 ^ scale' = 10 ^ (scale' - e') * 10 ^ e') as E2 by (rewrite <- Z.pow_add_r by lia; f_equal; lia).
    rewrite <- Hv, <- Hv', E1, E2 in E. lia.
Qed.

Lemma normalize_strike_canonical_witness :
  normalize_strike 257100 4 = normalize_strike 25710 3 ∧ normalize_strike 257100 4 = Ok (2571, 2).
Proof.
  split; [|vm_compute; reflexivity].
  apply (normalize_strike_canonical 257100 4 25710 3); [lia..|reflexivity].
Defined.

(** * Text of a coin type *)

(** A coin type in chain form: a bare 64-digit address and a name without
    punctuation in which [0x] does not occur. *)
Definition chain_coin (s : rstring) : Prop :=
  ∃ h r, s = h ++ str "::" ++ r ∧ hex64 h ∧ plain r ∧ no_0x r.

(** A piece of the argument list: an atom that is its own canonical form. *)
Definition piece (a : rstring) : Prop := plain a ∧ a ≠ [] ∧ canonicalize_atom a = a.


Lemma canonicalize_piece a : plain a → a ≠ [] → canonicalize_move_type a = canonicalize_atom a.
Proof.
  intros Ha Hne. unfold canonicalize_move_type. rewrite <- (app_nil_r a) at 1.
  rewrite canonicalize_chars_plain by done. cbn [app canonicalize_chars]. unfold flush.
  by rewrite bool_decide_false.
Qed.

Lemma piece_canonical h r : hex64 h → plain r → piece (str "0x" ++ h ++ str "::" ++ r).
Proof.
  intros Hh Hr. split_and!; [|done|by apply canonicalize_atom_canonical].
  rewrite !plain_app. split_and!; [by apply plain_ascii|by apply plain_hex64|by apply plain_ascii|done].
Qed.

(** The canonical and the chain form of a coin in chain form. *)
Lemma chain_coin_forms s :
  chain_coin s → piece (canonicalize_move_type s) ∧ chain_form_move_type (canonicalize_move_type s) = s.
Proof.
  intros (h & r & -> & Hh & Hr & Hx).
  assert (canonicalize_move_type (h ++ str "::" ++ r) = str "0x" ++ h ++ str "::" ++ r) as ->.
  { rewrite canonicalize_piece; [by apply canonicalize_atom_bare| |].
    - rewrite !plain_app. split_and!; [by apply plain_hex64|by apply plain_ascii|done].
    - destruct (hex64_checks h Hh) as (_ & _ & Hne). by destruct h. }
  destruct (piece_canonical h r Hh Hr) as (Hp & Hne & Hc). split; [done|].
  unfold chain_form_move_type. rewrite canonicalize_piece, Hc, remove_0x_canonical by done. by rewrite Hx.
Qed.

(** ** Lists of pieces *)

Lemma join_commas_cons a l : l ≠ [] → join_commas (a :: l) = a ++ str "," ++ join_commas l.
Proof. by destruct l. Qed.

Lemma canonicalize_join l out :
  Forall piece l → l ≠ [] →
  canonicalize_chars [] out (join_commas l ++ str ">") = out ++ join_commas l ++ str ">".
Proof.
  intros Hl. revert out. induction Hl as [|a l (Ha & Hne & Hc) Hl IH]; intros out Hl0; [done|].
  destruct l as [|b l].
  - cbn [join_commas]. change (a ++ str ">") with (a ++ 62 :: []).
    rewrite canonicalize_chars_atom, Hc by done. cbn [canonicalize_chars]. unfold flush. done.
  - rewrite join_commas_cons, <- !app_assoc by done.
    change (a ++ str "," ++ join_commas (b :: l) ++ str ">") with (a ++ 44 :: join_commas (b :: l) ++ str ">").
    rewrite canonicalize_chars_atom, Hc, IH by done. by rewrite <- !app_assoc.
Qed.

Lemma piece_clean a c : piece a → c ∈ a → c ≠ 60 ∧ c ≠ 62 ∧ c ≠ 44.
Proof.
  intros (Ha & _) Hc. destruct (Ha c Hc) as [Hp _]. unfold is_punct in Hp.
  rewrite !orb_false_iff, !Z.eqb_neq in Hp. tauto.
Qed.

Lemma split_args_piece cur a s :
  (∀ c, c ∈ a → c ≠ 60 ∧ c ≠ 62 ∧ c ≠ 44) → split_args 0 cur (a ++ s) = split_args 0 (cur ++ a) s.
Proof.
  revert cur. induction a as [|c a IH]; intros cur Ha; [by rewrite app_nil_r|].
  destruct (Ha c ltac:(set_solver)) as (H1 & H2 & H3). cbn [app split_args].
  rewrite !(proj2 (Z.eqb_neq _ _)) by done. cbn [andb]. rewrite IH by set_solver. by rewrite <- app_assoc.
Qed.

Lemma split_args_join l : Forall piece l → l ≠ [] → split_args 0 [] (join_commas l) = l.
Proof.
  induction 1 as [|a l Ha Hl IH]; intros Hne; [done|]. destruct l as [|b l].
  - cbn [join_commas]. rewrite <- (app_nil_r a) at 1.
    rewrite split_args_piece by (intros; by eapply piece_clean). done.
  - rewrite join_commas_cons, split_args_piece by (done || (intros; by eapply piece_clean)).
    change (str "," ++ join_commas (b :: l)) with (44 :: join_commas (b :: l)).
    cbn [split_args app]. cbn [Z.eqb Pos.eqb andb]. by rewrite IH.
Qed.

(** ** Markers *)

Lemma after_last_colons_none y : 58 ∉ y → after_last_colons y = None.
Proof.
  induction y as [|c y IH]; intros Hc; [done|]. cbn [after_last_colons]. rewrite IH by set_solver.
  destruct y as [|d y]; [done|]. rewrite (proj2 (Z.eqb_neq c 58)) by set_solver. done.
Qed.

Lemma after_last_colons_app x y : 58 ∉ y → after_last_colons (x ++ str "::" ++ y) = Some y.
Proof.
  intros Hy. change (str "::" ++ y) with (58 :: 58 :: y).
  induction x as [|c x IH]; cbn [app after_last_colons]; [|by rewrite IH].
  rewrite (after_last_colons_none y Hy). destruct y as [|d y]; [done|].
  rewrite (proj2 (Z.eqb_neq d 58)), andb_false_r by set_solver. done.
Qed.

Definition byte_range : list Z := seqZ 0 256.

(** The two digits of each byte read back, and are plain text. *)
Lemma hex2_checked :
  forallb (λ b, bool_decide (u8_from_hex (hex2 b) = Some b) && bool_decide (58 ∉ hex2 b)
                && forallb (λ c, negb (is_punct c) && negb (is_whitespace c)) (hex2 b)) byte_range = true.
Proof. vm_compute. reflexivity. Qed.

Lemma hex2_ok b : 0 ≤ b < 256 → u8_from_hex (hex2 b) = Some b ∧ 58 ∉ hex2 b ∧ plain (hex2 b).
Proof.
  intros Hb. pose proof hex2_checked as H. rewrite forallb_forall in H.
  specialize (H b). rewrite <- list_elem_of_In in H. unfold byte_range in H. rewrite elem_of_seqZ in H.
  specialize (H ltac:(lia)). apply andb_true_iff in H as [[H1 H2]%andb_true_iff H3].
  apply bool_decide_eq_true in H1, H2. split_and!; [done..|by apply plain_ascii].
Qed.

Lemma marker_byte_marker pkg b : 0 ≤ b < 256 → marker_byte (marker pkg b) = Some b.
Proof.
  intros Hb. destruct (hex2_ok b Hb) as (Hv & Hc & _). unfold marker_byte, last_segment, marker.
  change (str "::B" ++ hex2 b) with (str "::" ++ str "B" ++ hex2 b).
  pose proof (after_last_colons_app (pkg ++ str "::" ++ (if b <? 128 then str "enc0" else str "enc1"))
    (str "B" ++ hex2 b)) as Hlast. rewrite <- !app_assoc in Hlast. rewrite Hlast.
  - cbn [default]. unfold default, id. by rewrite strip_prefix_app.
  - rewrite not_elem_of_app. split; [by apply not_in_text|done].
Qed.

Lemma piece_marker h b : hex64 h → 0 ≤ b < 256 → piece (marker (str "0x" ++ h) b).
Proof.
  intros Hh Hb. destruct (hex2_ok b Hb) as (_ & _ & Hp). unfold marker. rewrite <- app_assoc.
  apply piece_canonical; [done|]. rewrite !plain_app.
  split_and!; [destruct (b <? 128); by apply plain_ascii|by apply plain_ascii|done].
Qed.

Lemma mapM_markers pkg l : Forall (λ b, 0 ≤ b < 256) l → mapM marker_byte (marker pkg <$> l) = Some l.
Proof.
  induction 1 as [|b l Hb Hl IH]; [done|]. cbn [fmap list_fmap mapM].
  rewrite marker_byte_marker by done. cbn [mbind option_bind]. by rewrite IH.
Qed.

(** ** Bytes *)

Lemma from_be_bytes_snoc l b : from_be_bytes (l ++ [b]) = from_be_bytes l * 256 + b.
Proof. unfold from_be_bytes. by rewrite foldl_app. Qed.

Lemma from_be_bytes_be_bytes n v : 0 ≤ v < 256 ^ Z.of_nat n → from_be_bytes (be_bytes n v) = v.
Proof.
  revert v. induction n as [|n IH]; intros v Hv; [cbn in *; lia|].
  cbn [be_bytes]. rewrite Nat2Z.inj_succ, Z.pow_succ_r in Hv by lia.
  rewrite from_be_bytes_snoc, IH by (split; [apply Z.div_pos|apply Z.div_lt_upper_bound]; lia).
  pose proof (Z.div_mod v 256). lia.
Qed.

Lemma be_bytes_range n v : Forall (λ b, 0 ≤ b < 256) (be_bytes n v).
Proof.
  revert v. induction n as [|n IH]; intros v; [constructor|]. cbn [be_bytes].
  apply Forall_app. split; [done|]. apply Forall_singleton, Z.mod_pos_bound. lia.
Qed.

Lemma spec_bytes_read minutes s :
  0 ≤ minutes ≤ u32_max → 0 ≤ bs_sig s ≤ MAX_SIG → 0 ≤ bs_exp s < 256 →
  let l := spec_bytes minutes s in
  Forall (λ b, 0 ≤ b < 256) l ∧ length l = 10%nat ∧
  from_be_bytes (take 4 l) = minutes ∧ from_be_bytes (take 5 (drop 4 l)) = bs_sig s ∧
  l !! 9%nat = Some (bs_exp s).
Proof.
  intros Hm Hs He l. unfold l, spec_bytes. clear l.
  change (drop 3 (be_bytes 8 (bs_sig s))) with (be_bytes 5 (bs_sig s)). split_and!.
  - rewrite !Forall_app. split_and!; [apply be_bytes_range..|by apply Forall_singleton].
  - reflexivity.
  - change (take 4 _) with (be_bytes 4 minutes). apply from_be_bytes_be_bytes.
    unfold u32_max in Hm. lia.
  - change (take 5 _) with (be_bytes 5 (bs_sig s)). apply from_be_bytes_be_bytes.
    unfold MAX_SIG in Hs. lia.
  - reflexivity.
Qed.

(** * The round trip *)

Definition spec_wf (s : BucketSpec) : Prop :=
  chain_coin (bs_asset s) ∧ chain_coin (bs_settlement s) ∧ 0 ≤ bs_expiry_ms s ∧
  0 ≤ bs_sig s ∧ 0 ≤ bs_exp s < 256.

Lemma strip_suffix_snoc s c : strip_suffix_char c (s ++ [c]) = Some s.
Proof. unfold strip_suffix_char. rewrite reverse_app. simpl. by rewrite Z.eqb_refl, reverse_involutive. Qed.

Lemma split_once_char c a r : c ∉ a → split_once [c] (a ++ c :: r) = Some (a, r).
Proof.
  induction a as [|d a IH]; intros Hc; cbn [app split_once strip_prefix].
  - by rewrite Z.eqb_refl.
  - destruct (Z.eqb_spec c d) as [->|]; [set_solver|]. by rewrite IH by set_solver.
Qed.

(** What the encoder writes is its own canonical form. *)
Lemma canonicalize_option_type h name l :
  hex64 h → plain name → Forall piece l → l ≠ [] →
  let t := (str "0x" ++ h ++ str "::" ++ name) ++ str "<" ++ join_commas l ++ str ">" in
  canonicalize_move_type t = t.
Proof.
  intros Hh Hn Hl Hne t. unfold t, canonicalize_move_type.
  destruct (piece_canonical h name Hh Hn) as (Hp & Hne' & Hc).
  change (str "<" ++ join_commas l ++ str ">") with (60 :: join_commas l ++ str ">").
  rewrite canonicalize_chars_atom, Hc by done. rewrite canonicalize_join by done.
  by rewrite <- !app_assoc.
Qed.

Lemma root_no_open h is_put :
  hex64 h → 60 ∉ str "0x" ++ h ++ str "::" ++ str "option_coin::" ++ root_name is_put.
Proof.
  intros [_ Hh]. rewrite !not_elem_of_app. split_and!; try (by apply not_in_text).
  - intros Hc%Hh. done.
  - destruct is_put; by apply not_in_text.
Qed.

(** An option coin type names its bucket: decoding the type that
    encodes a spec gives the spec back, for every package address, coins,
    expiry and normalized strike; so two specs with one type are equal. *)
Theorem option_coin_type_roundtrip package h s t :
  hex64 h → canonical_package package = Some (str "0x" ++ h) → spec_wf s →
  option_coin_type package s = Ok t → decode_option_coin_type package t = Some s.
Proof.
  intros Hh Hpkg (Ha & Hs & Hexp & Hsig & Hexp8). unfold option_coin_type, expiry_minutes.
  destruct (Z.eqb_spec (bs_expiry_ms s mod MINUTE_MS) 0) as [Hal|]; [cbn [negb]|done].
  destruct (Z.leb_spec (bs_expiry_ms s / MINUTE_MS) u32_max) as [Hmax|]; [|done]. cbn [mbind result_bind].
  destruct (Z.ltb_spec MAX_SIG (bs_sig s)); [done|]. rewrite Hpkg. cbn [default]. unfold default, id.
  set (minutes := bs_expiry_ms s / MINUTE_MS) in *.
  destruct (spec_bytes_read minutes s) as (Hb & Hlen & Hmin & Hsg & Hex); [|lia|done|].
  { split; [|done]. apply Z.div_pos; [done|]. unfold MINUTE_MS. lia. }
  set (l := spec_bytes minutes s) in *.
  match goal with |- Ok ?x = Ok t → _ => intros Ht; assert (t = x) as -> by congruence; clear Ht end.
  destruct (chain_coin_forms _ Ha) as [Hpa Hca], (chain_coin_forms _ Hs) as [Hps Hcs].
  set (A := canonicalize_move_type (bs_asset s)) in *. set (B := canonicalize_move_type (bs_settlement s)) in *.
  set (ms := marker (str "0x" ++ h) <$> l).
  assert (Forall piece (A :: B :: ms)) as Hpieces.
  { repeat (apply Forall_cons; split; [done|]). apply Forall_fmap. eapply Forall_impl; [exact Hb|].
    intros b. by apply piece_marker. }
  assert (ms ≠ []) as Hms by (unfold ms; destruct l; done).
  assert (plain (str "option_coin::" ++ root_name (bs_is_put s))) as Hname
    by (destruct (bs_is_put s); by apply plain_ascii).
  match goal with |- decode_option_coin_type _ ?t = _ => assert (t =
    (str "0x" ++ h ++ str "::" ++ str "option_coin::" ++ root_name (bs_is_put s))
      ++ str "<" ++ join_commas (A :: B :: ms) ++ str ">") as -> end.
  { rewrite !join_commas_cons by done. by rewrite <- !app_assoc. }
  unfold decode_option_coin_type. rewrite Hpkg. cbn [mbind option_bind].
  rewrite canonicalize_option_type by done. rewrite (app_assoc (str "<")), (app_assoc _ _ (str ">")).
  change (str ">") with [62]. rewrite strip_suffix_snoc. cbn [mbind option_bind].
  change (str "<" ++ join_commas (A :: B :: ms)) with (60 :: join_commas (A :: B :: ms)).
  change (str "<") with [60]. rewrite split_once_char by (by apply root_no_open).
  cbn [mbind option_bind].
  assert (str "0x" ++ h ++ str "::" ++ str "option_coin::" ++ root_name (bs_is_put s) =
    ((str "0x" ++ h) ++ str "::option_coin::") ++ root_name (bs_is_put s)) as -> by by rewrite <- !app_assoc.
  rewrite strip_prefix_app. cbn [mbind option_bind].
  assert ((if bool_decide (root_name (bs_is_put s) = str "OptionCall") then Some false
           else if bool_decide (root_name (bs_is_put s) = str "OptionPut") then Some true else None) =
    Some (bs_is_put s)) as -> by by destruct (bs_is_put s).
  cbn [mbind option_bind]. rewrite split_args_join by done.
  assert (length ms = 10%nat) as Hl10 by (unfold ms; by rewrite (length_fmap (marker (str "0x" ++ h)) l)).
  rewrite bool_decide_true by exact Hl10. cbn [negb].
  unfold ms. rewrite mapM_markers by done. cbn [mbind option_bind]. rewrite Hex. cbn [mbind option_bind].
  rewrite Hca, Hcs, Hmin, Hsg.
  assert (u64_mul minutes MINUTE_MS = bs_expiry_ms s) as ->.
  { unfold u64_mul. pose proof (Z.div_mod (bs_expiry_ms s) MINUTE_MS ltac:(done)).
    rewrite wrap64_small; [lia|]. unfold u64, u64_max, u32_max, MINUTE_MS in *. lia. }
  by destruct s.
Qed.

(** * Concrete instances *)

Definition demo_spec : BucketSpec :=
  mkBucketSpec (replicate 63 48 ++ str "9::tbtc::TBTC") (replicate 63 48 ++ str "9::tusdc::TUSDC")
    6000000000000 2571 2 false.

Lemma demo_spec_wf : spec_wf demo_spec.
Proof.
  split_and!; [exists (replicate 63 48 ++ str "9"), (str "tbtc::TBTC")
              |exists (replicate 63 48 ++ str "9"), (str "tusdc::TUSDC")|..].
  1-2: split_and!; [reflexivity|split; [reflexivity|]|by apply plain_ascii|reflexivity].
  1-2: intros c Hc%list_elem_of_In; revert c Hc; apply forallb_forall; vm_compute; reflexivity.
  all: vm_compute; split || done; discriminate.
Qed.

Lemma option_coin_type_roundtrip_witness :
  ∃ t, option_coin_type (str "0xabc") demo_spec = Ok t ∧
  decode_option_coin_type (str "0xabc") t = Some demo_spec.
Proof.
  eexists. split; [vm_compute; reflexivity|].
  apply (option_coin_type_roundtrip (str "0xabc") (replicate 61 48 ++ str "abc") demo_spec).
  - split; [reflexivity|]. intros c Hc%list_elem_of_In. revert c Hc. apply forallb_forall.
    vm_compute. reflexivity.
  - vm_compute. reflexivity.
  - exact demo_spec_wf.
  - vm_compute. reflexivity.
Defined.

(** The chain form deletes [0x] from names as well, so that two coins of one
    package get the same chain form, and their options the same spec. *)
Lemma chain_form_merges_coins :
  let a := str "0x9::a0x1::T" in let b := str "0x9::a1::T" in
  canonicalize_move_type a ≠ canonicalize_move_type b ∧
  chain_form_move_type a = chain_form_move_type b ∧
  BucketSpec_new a a 60000 5 0 false = BucketSpec_new b b 60000 5 0 false.
Proof. vm_compute. split; [discriminate|]. split; reflexivity. Qed.
