(* ===== verification/Discovery.v ===== *)
(** [services/orderbook/src/discovery.rs]: a servable market from a
    [MarketCreatedEvent], with its display symbol. *)

From S2P Require Import Prelude RustStr ExchangeTypes MoveType.
From S2P Require BucketSpec BucketSpecTheorems.

Import BucketSpec(BucketSpec, mkBucketSpec, bs_asset, bs_settlement, bs_expiry_ms, bs_sig, bs_exp,
  bs_is_put, decode_option_coin_type, last_segment).

Record CatalogToken := mkCatalogToken {
  canonical : rstring;
  ct_symbol : rstring;
  decimals : Z;
}.

Record MarketFactory := mkMarketFactory {
  core_package : option rstring;
  tokens : list CatalogToken;
}.

Definition token (f : MarketFactory) (c : rstring) : option CatalogToken :=
  List.find (λ t, bool_decide (canonical t = c)) (tokens f).

(** [sig / 10^exp] without floating point. *)
Definition strike_str (sig exp : Z) : rstring :=
  let digits := u64_to_string sig in
  if exp =? 0 then digits else
  let n := Z.to_nat exp in
  if (n <? length digits)%nat then
    take (length digits - n) digits ++ str "." ++ drop (length digits - n) digits
  else str "0." ++ replicate (n - length digits) 48 ++ digits.

(** The civil date of a unix time: year, month, day.  [/] on [i64]
    truncates; [div_euclid] and [rem_euclid] by a positive number are the
    floor division. *)
Definition utc_ymd (ms : Z) : Z * Z * Z :=
  let days := u64_as_i64 (ms / 86400000) in
  let z := days + 719468 in
  let era := z / 146097 in
  let doe := z mod 146097 in
  let yoe := Z.quot (doe - Z.quot doe 1460 + Z.quot doe 36524 - Z.quot doe 146096) 365 in
  let y := yoe + era * 400 in
  let doy := doe - (365 * yoe + Z.quot yoe 4 - Z.quot yoe 100) in
  let mp := Z.quot (5 * doy + 2) 153 in
  let d := doy - Z.quot (153 * mp + 2) 5 + 1 in
  let m := if mp <? 10 then mp + 3 else mp - 9 in
  let y := if m <=? 2 then y + 1 else y in
  (y, m, d).

Definition utc_yyyymmdd (ms : Z) : rstring :=
  let '(y, m, d) := utc_ymd ms in
  pad_left0 4 (u64_to_string y) ++ pad_left0 2 (u64_to_string m) ++ pad_left0 2 (u64_to_string d).

Definition option_symbol (spec : BucketSpec) (underlying_symbol : rstring) : rstring :=
  let side := if bs_is_put spec then str "P" else str "C" in
  underlying_symbol ++ str "-" ++ utc_yyyymmdd (bs_expiry_ms spec) ++ str "-"
  ++ strike_str (bs_sig spec) (bs_exp spec) ++ str "-" ++ side.

Definition short_name (c : rstring) : rstring := last_segment c.

Definition decode_option (f : MarketFactory) (base : rstring) : option (BucketSpec * CatalogToken) :=
  core ← core_package f;
  spec ← decode_option_coin_type core base;
  t ← (match canonicalize_move_type (bs_asset spec) with
       | Ok c => token f c
       | Err _ => None
       end);
  Some (spec, t).

Definition build (f : MarketFactory) (registry_id : SuiAddress) (base quote : rstring)
    (tick_size min_size fee_bps : Z) : option Market :=
  match canonicalize_move_type base with
  | Err _ => None
  | Ok base =>
      match canonicalize_move_type quote with
      | Err _ => None
      | Ok quote =>
          let quote_symbol :=
            match token f quote with Some t => ct_symbol t | None => short_name quote end in
          '(base_symbol, dec) ←
            match token f base with
            | Some t => Some (ct_symbol t, decimals t)
            | None =>
                match decode_option f base with
                | Some (spec, underlying) =>
                    Some (option_symbol spec (ct_symbol underlying), decimals underlying)
                | None => None
                end
            end;
          Some (mkMarket (base_symbol ++ str "/" ++ quote_symbol) registry_id base quote
                  tick_size min_size (wrap64 (10 ^ dec)) fee_bps)
      end
  end.

(** * The civil calendar *)

Definition is_leap (y : Z) : bool :=
  (y mod 4 =? 0) && (negb (y mod 100 =? 0) || (y mod 400 =? 0)).

Definition days_in_month (y m : Z) : Z :=
  if m =? 2 then if is_leap y then 29 else 28
  else if (m =? 4) || (m =? 6) || (m =? 9) || (m =? 11) then 30 else 31.

Definition next_day (ymd : Z * Z * Z) : Z * Z * Z :=
  let '(y, m, d) := ymd in
  if d <? days_in_month y m then (y, m, d + 1)
  else if m <? 12 then (y, m + 1, 1) else (y + 1, 1, 1).

(** The date [n] days after 1 January 1970. *)
Definition civil (n : nat) : Z * Z * Z := Nat.iter n next_day (1970, 1, 1).

(** The computation of [utc_ymd] on a day of a 400-year era that starts on
    1 March of the year 0. *)
Definition era_date (doe : Z) : Z * Z * Z :=
  let yoe := Z.quot (doe - Z.quot doe 1460 + Z.quot doe 36524 - Z.quot doe 146096) 365 in
  let doy := doe - (365 * yoe + Z.quot yoe 4 - Z.quot yoe 100) in
  let mp := Z.quot (5 * doy + 2) 153 in
  let d := doy - Z.quot (153 * mp + 2) 5 + 1 in
  let m := if mp <? 10 then mp + 3 else mp - 9 in
  (if m <=? 2 then yoe + 1 else yoe, m, d).

Definition shift_years (k : Z) (ymd : Z * Z * Z) : Z * Z * Z := (ymd.1.1 + k, ymd.1.2, ymd.2).

Definition date_of (z : Z) : Z * Z * Z := shift_years (z / 146097 * 400) (era_date (z mod 146097)).

Lemma utc_ymd_date ms : utc_ymd ms = date_of (u64_as_i64 (ms / 86400000) + 719468).
Proof.
  unfold utc_ymd, date_of, era_date, shift_years. cbn [fst snd].
  do 2 f_equal. case_bool; [|done]. ring.
Qed.

Lemma mod_add_mult a k n : 0 < n → (400 mod n = 0) → (a + k * 400) mod n = a mod n.
Proof.
  intros Hn Hd. apply Z_div_exact_2 in Hd; [|lia]. rewrite Hd.
  replace (a + k * (n * (400 / n))) with (a + k * (400 / n) * n) by ring. by apply Z_mod_plus_full.
Qed.

Lemma next_day_shift k ymd : next_day (shift_years (k * 400) ymd) = shift_years (k * 400) (next_day ymd).
Proof.
  destruct ymd as [[y m] d]. unfold next_day, shift_years, days_in_month, is_leap. cbn [fst snd].
  rewrite !mod_add_mult by done. repeat case_bool; cbn [fst snd]; try done; f_equal; f_equal; lia.
Qed.

Lemma shift_shift a b ymd : shift_years a (shift_years b ymd) = shift_years (b + a) ymd.
Proof. unfold shift_years. cbn [fst snd]. f_equal. f_equal. lia. Qed.

(** ** A day of an era: its year and its day of the year, from 1 March *)

Definition year_key (doe : Z) : Z := doe - Z.quot doe 1460 + Z.quot doe 36524 - Z.quot doe 146096.
Definition year_start (y : Z) : Z := 365 * y + Z.quot y 4 - Z.quot y 100.
Definition year_end (y : Z) : Z := if y =? 399 then 146097 else year_start (y + 1).

(** The date of a day of the year 0. *)
Definition month_day (doy : Z) : Z * Z * Z :=
  let mp := Z.quot (5 * doy + 2) 153 in
  let m := if mp <? 10 then mp + 3 else mp - 9 in
  (if m <=? 2 then 1 else 0, m, doy - Z.quot (153 * mp + 2) 5 + 1).

Lemma era_date_month_day doe :
  era_date doe =
  shift_years (Z.quot (year_key doe) 365) (month_day (doe - year_start (Z.quot (year_key doe) 365))).
Proof.
  unfold era_date, month_day, shift_years, year_start. fold (year_key doe). cbn [fst snd].
  do 2 f_equal. case_match; ring.
Qed.

Lemma year_key_step doe : 0 ≤ doe < 146096 → year_key doe ≤ year_key (doe + 1).
Proof.
  intros Hd. unfold year_key. rewrite !Z.quot_div_nonneg by lia.
  destruct (decide (doe = 146095)) as [->|]; [by vm_compute|].
  rewrite (Z.div_small doe 146096), (Z.div_small (doe + 1) 146096) by lia.
  assert (doe / 36524 ≤ (doe + 1) / 36524) by (apply Z.div_le_mono; lia).
  assert ((doe + 1) / 1460 ≤ doe / 1460 + 1).
  { transitivity ((doe + 1 * 1460) / 1460); [apply Z.div_le_mono; lia|]. rewrite Z.div_add; lia. }
  lia.
Qed.

Lemma year_key_mono a b : 0 ≤ a → a ≤ b → b < 146097 → year_key a ≤ year_key b.
Proof.
  intros Ha Hab. replace b with (a + Z.of_nat (Z.to_nat (b - a))) by lia.
  induction (Z.to_nat (b - a)) as [|n IH]; intros Hb; [by rewrite Z.add_0_r|].
  transitivity (year_key (a + Z.of_nat n)); [apply IH; lia|].
  replace (a + Z.of_nat (S n)) with (a + Z.of_nat n + 1) by lia. apply year_key_step. lia.
Qed.

(** Every year starts and ends where its key says, and has 366 days when its
    February is that of a leap year. *)
Definition year_checked (y : Z) : bool :=
  (Z.quot (year_key (year_start y)) 365 =? y) && (Z.quot (year_key (year_end y - 1)) 365 =? y) &&
  (0 <=? year_start y) && (year_end y <=? 146097) &&
  (year_end y - year_start y =? if is_leap (y + 1) then 366 else 365).

Lemma years_checked : forallb year_checked (seqZ 0 400) = true.
Proof. vm_compute. reflexivity. Qed.

Lemma forallb_seqZ (f : Z → bool) n i : forallb f (seqZ 0 n) = true → 0 ≤ i < n → f i = true.
Proof.
  rewrite forallb_forall. intros Hf Hi. apply Hf, list_elem_of_In, elem_of_seqZ. lia.
Qed.

Lemma year_length y :
  0 ≤ y < 400 →
  year_end y - year_start y = (if is_leap (y + 1) then 366 else 365) ∧ 0 ≤ year_start y ∧ year_end y ≤ 146097.
Proof.
  intros Hy. pose proof (forallb_seqZ _ _ _ years_checked Hy) as Hc.
  unfold year_checked in Hc. reflect_bools. lia.
Qed.

Lemma year_of_day y doe :
  0 ≤ y < 400 → year_start y ≤ doe < year_end y → Z.quot (year_key doe) 365 = y.
Proof.
  intros Hy Hd. pose proof (forallb_seqZ _ _ _ years_checked Hy) as Hc.
  unfold year_checked in Hc. reflect_bools.
  assert (year_key (year_start y) ≤ year_key doe) as Hlo by (apply year_key_mono; lia).
  assert (year_key doe ≤ year_key (year_end y - 1)) as Hhi by (apply year_key_mono; lia).
  apply (Z.quot_le_mono _ _ 365) in Hlo, Hhi; [|lia..]. lia.
Qed.

Lemma day_has_year doe : 0 ≤ doe < 146097 → ∃ y, 0 ≤ y < 400 ∧ year_start y ≤ doe < year_end y.
Proof.
  intros Hd.
  assert (∀ n, (n < 400)%nat → doe < year_end (Z.of_nat n) →
    ∃ y, 0 ≤ y < 400 ∧ year_start y ≤ doe < year_end y) as Hall.
  { induction n as [|n IH]; intros Hn Hlt; [exists 0; split; [lia|]; split; [apply Hd|exact Hlt]|].
    destruct (decide (doe < year_end (Z.of_nat n))) as [|Hge]; [apply IH; lia|].
    exists (Z.of_nat (S n)). split; [lia|]. split; [|done]. unfold year_end in Hge.
    rewrite (proj2 (Z.eqb_neq (Z.of_nat n) 399)) in Hge by lia.
    replace (Z.of_nat (S n)) with (Z.of_nat n + 1) by lia. lia. }
  apply (Hall 399%nat); [lia|]. change (year_end (Z.of_nat 399)) with 146097. lia.
Qed.

(** Within a year, away from the end of February, no leap rule applies. *)
Definition days_checked (doy : Z) : bool :=
  let '(y, m, d) := month_day doy in
  (negb (m =? 2) || (d <? 28)) && bool_decide (month_day (doy + 1) = next_day (y, m, d)).

Lemma days_of_year_checked : forallb days_checked (seqZ 0 364) = true.
Proof. vm_compute. reflexivity. Qed.

Lemma next_day_plain k y m d :
  negb (m =? 2) || (d <? 28) = true → next_day (shift_years k (y, m, d)) = shift_years k (next_day (y, m, d)).
Proof.
  unfold shift_years, next_day, days_in_month. cbn [fst snd]. intros Hp.
  destruct (Z.eqb_spec m 2) as [->|].
  - cbn [negb orb] in Hp. apply Z.ltb_lt in Hp.
    assert (∀ b : bool, d <? (if b then 29 else 28) = true) as Hlt by (intros []; apply Z.ltb_lt; lia).
    by rewrite !Hlt.
  - repeat case_match; cbn [fst snd]; try done; f_equal; f_equal; lia.
Qed.

Lemma era_date_at y doe :
  0 ≤ y < 400 → year_start y ≤ doe < year_end y → era_date doe = shift_years y (month_day (doe - year_start y)).
Proof. intros Hy Hd. by rewrite era_date_month_day, (year_of_day y doe). Qed.

Lemma date_of_era i : 0 ≤ i < 146097 → date_of i = era_date i.
Proof.
  intros Hi. unfold date_of. rewrite Z.div_small, Z.mod_small by lia. unfold shift_years.
  destruct (era_date i) as [[y m] d]. cbn [fst snd]. by rewrite Z.add_0_r.
Qed.

Lemma leap_day y :
  is_leap (y + 1) = true → shift_years y (month_day (364 + 1)) = next_day (shift_years y (month_day 364)).
Proof.
  intros Hleap. change (month_day (364 + 1)) with (1, 2, 29). change (month_day 364) with (1, 2, 28).
  unfold shift_years, next_day, days_in_month. cbn [fst snd]. by rewrite (Z.add_comm 1 y), Hleap.
Qed.

Lemma first_of_march y :
  (y + 1, 3, 1) = next_day (shift_years y (month_day ((if is_leap (y + 1) then 366 else 365) - 1))).
Proof.
  destruct (is_leap (y + 1)) eqn:Hleap;
    [change (month_day _) with (1, 2, 29)|change (month_day _) with (1, 2, 28)];
    unfold shift_years, next_day, days_in_month; cbn [fst snd]; by rewrite (Z.add_comm 1 y), Hleap.
Qed.

Lemma date_of_next i : 0 ≤ i < 146097 → date_of (i + 1) = next_day (date_of i).
Proof.
  intros Hi. destruct (day_has_year i Hi) as (y & Hy & Hd).
  destruct (year_length y Hy) as (Hlen & _ & Hend). rewrite (date_of_era i), (era_date_at y i) by done.
  destruct (decide (i + 1 < year_end y)) as [Hin|Hlast].
  - assert (i + 1 < 146097) by (destruct (year_of_day y (i + 1) Hy); lia).
    rewrite date_of_era, (era_date_at y) by lia. replace (i + 1 - year_start y) with (i - year_start y + 1) by lia.
    destruct (decide (i - year_start y < 364)) as [Hlt|].
    + pose proof (forallb_seqZ _ _ (i - year_start y) days_of_year_checked ltac:(lia)) as Hc.
      unfold days_checked in Hc. destruct (month_day (i - year_start y)) as [[yy m] d].
      apply andb_true_iff in Hc as [Hp Hc]. apply bool_decide_eq_true in Hc.
      by rewrite Hc, next_day_plain.
    + destruct (is_leap (y + 1)) eqn:Hleap; [|lia]. replace (i - year_start y) with 364 by lia.
      apply (leap_day y). done.
  - assert (date_of (i + 1) = (y + 1, 3, 1)) as ->.
    { replace (i + 1) with (year_end y) by lia. unfold year_end.
      destruct (Z.eqb_spec y 399) as [->|]; [by vm_compute|].
      destruct (year_length (y + 1)) as (Hlen' & ? & ?); [lia|].
      assert (year_start (y + 1) < year_end (y + 1)) by (destruct (is_leap (y + 1 + 1)); lia).
      rewrite date_of_era, (era_date_at (y + 1)), Z.sub_diag by lia.
      unfold shift_years. cbn -[Z.add]. by rewrite Z.add_0_l. }
    replace (i - year_start y) with (year_end y - year_start y - 1) by lia. rewrite Hlen.
    apply (first_of_march y).
Qed.

Lemma date_of_shift e i : date_of (146097 * e + i) = shift_years (e * 400) (date_of i).
Proof.
  unfold date_of. rewrite shift_shift.
  replace (146097 * e + i) with (i + e * 146097) by ring.
  rewrite Z_mod_plus_full, Z_div_plus_full by lia. f_equal. ring.
Qed.

Lemma date_of_succ z : date_of (z + 1) = next_day (date_of z).
Proof.
  rewrite (Z.div_mod z 146097) at 1 2 by lia. set (i := z mod 146097).
  assert (0 ≤ i < 146097) by (apply Z.mod_pos_bound; lia).
  rewrite <- Z.add_assoc, !date_of_shift, next_day_shift. f_equal.
  by apply date_of_next.
Qed.

Lemma date_of_civil n : date_of (Z.of_nat n + 719468) = civil n.
Proof.
  induction n as [|n IH]; [by vm_compute|].
  rewrite Nat2Z.inj_succ. replace (Z.succ (Z.of_nat n) + 719468) with (Z.of_nat n + 719468 + 1) by lia.
  rewrite date_of_succ, IH. done.
Qed.

(** For every unix time [ms] of a [u64], [utc_ymd] is the proleptic
    Gregorian date: 1 January 1970 advanced by one civil day, with the leap
    years of the 4/100/400 rule, for each whole day in [ms]. *)
Theorem utc_ymd_civil ms : u64 ms → utc_ymd ms = civil (Z.to_nat (ms / 86400000)).
Proof.
  intros [Hms Hmax]. unfold u64_max in Hmax. rewrite utc_ymd_date, <- date_of_civil.
  assert (0 ≤ ms / 86400000 ≤ 2 ^ 40) as Hq.
  { split; [apply Z.div_pos; lia|]. apply Z.div_le_upper_bound; lia. }
  rewrite Z2Nat.id by lia. unfold u64_as_i64, i64_max.
  destruct (decide _) as [_|Hn]; [done|]. contradict Hn. lia.
Qed.

Lemma utc_ymd_civil_witness : u64 1709164800000 ∧ utc_ymd 1709164800000 = (2024, 2, 29).
Proof.
  split; [by vm_compute|]. transitivity (civil (Z.to_nat (1709164800000 / 86400000))).
  - apply (utc_ymd_civil 1709164800000). by vm_compute.
  - by vm_compute.
Defined.

(** * The strike text *)

(** The natural number a run of decimal digits denotes. *)
Definition dec_value (s : rstring) : Z := foldl (λ acc c, acc * 10 + (c - 48)) 0 s.

Lemma dec_value_app s t : dec_value (s ++ t) = dec_value s * 10 ^ Z.of_nat (length t) + dec_value t.
Proof.
  unfold dec_value. rewrite foldl_app. generalize (foldl (λ acc c, acc * 10 + (c - 48)) 0 s) as a.
  intros a. induction t as [|c t IH] using rev_ind; [simpl; lia|].
  rewrite !foldl_app, length_app, Nat2Z.inj_add, Z.pow_add_r, IH by lia. simpl. lia.
Qed.

Lemma dec_value_zeros n : dec_value (replicate n 48) = 0.
Proof.
  induction n as [|n IH]; [done|]. change (S n) with (1 + n)%nat.
  rewrite replicate_add, dec_value_app, IH. done.
Qed.

Lemma digits_fuel_value fuel n : 0 ≤ n < 10 ^ Z.of_nat fuel → dec_value (digits_fuel fuel n) = n.
Proof.
  revert n. induction fuel as [|fuel IH]; intros n Hn; [simpl in *; unfold dec_value; simpl; lia|].
  rewrite Nat2Z.inj_succ, Z.pow_succ_r in Hn by lia. cbn [digits_fuel]. rewrite dec_value_app.
  pose proof (Z.div_mod n 10 ltac:(lia)) as Hdm. pose proof (Z.mod_pos_bound n 10 ltac:(lia)).
  replace (dec_value [48 + n mod 10]) with (n mod 10) by (unfold dec_value; simpl; lia).
  destruct (n <? 10) eqn:E; reflect_bools.
  - unfold dec_value. simpl. rewrite Z.mod_small; lia.
  - rewrite IH by (split; [apply Z.div_pos; lia|apply Z.div_lt_upper_bound; lia]).
    cbn [length]. lia.
Qed.

Lemma u64_to_string_value n : u64 n → dec_value (u64_to_string n) = n.
Proof. intros Hn. apply digits_fuel_value. unfold u64, u64_max in Hn. cbn. lia. Qed.

Lemma digits_fuel_no_leading_zero fuel n :
  0 < n < 10 ^ Z.of_nat fuel → head (digits_fuel fuel n) ≠ Some 48.
Proof.
  revert n. induction fuel as [|fuel IH]; intros n Hn; [simpl in Hn; lia|].
  rewrite Nat2Z.inj_succ, Z.pow_succ_r in Hn by lia. cbn [digits_fuel].
  destruct (n <? 10) eqn:E; reflect_bools.
  - rewrite Z.mod_small by lia. simpl. intros [= ?]. lia.
  - assert (head (digits_fuel fuel (n / 10)) ≠ Some 48) as IHn.
    { apply IH. split; [apply Z.div_str_pos; lia|apply Z.div_lt_upper_bound; lia]. }
    destruct (digits_fuel fuel (n / 10)) eqn:Ed; [|done].
    destruct fuel as [|fuel']; [simpl in Hn; lia|].
    destruct (digits_fuel_head fuel' (n / 10)) as (c & s & Eh). congruence.
Qed.

(** What a decimal text [i.f] says: the integer digits, then the fraction
    digits if there is a point. *)
Definition decimal_parts (s : rstring) : rstring * rstring :=
  match split_once (str ".") s with Some p => p | None => (s, []) end.

Lemma decimal_parts_point i f : 46 ∉ i → decimal_parts (i ++ str "." ++ f) = (i, f).
Proof.
  intros Hi. unfold decimal_parts. change (str ".") with [46].
  induction i as [|c i IH]; [done|]. apply not_elem_of_cons in Hi as [Hc Hi]. specialize (IH Hi).
  cbn [app split_once strip_prefix]. destruct (Z.eqb_spec 46 c) as [|_]; [congruence|].
  simpl in IH. destruct (split_once _ _) as [[a b]|] eqn:E; simpl in *; [congruence|].
  exfalso. injection IH as Ei Ef. apply (f_equal length) in Ei. rewrite length_app in Ei. simpl in Ei. lia.
Qed.

Lemma decimal_parts_plain s : 46 ∉ s → decimal_parts s = (s, []).
Proof.
  intros Hs. unfold decimal_parts. destruct (split_once _ s) as [[a b]|] eqn:E; [|done].
  apply split_once_Some in E as ->. set_solver.
Qed.

(** The strike text of a 64-bit significand and an exponent is exactly
    [sig / 10^exp]: it has [exp] fraction digits, its digits denote [sig], so
    [i.f = sig / 10^exp] with nothing rounded, and its integer part has no
    leading zero unless it is the single digit 0. *)
Theorem strike_str_exact sig exp :
  u64 sig → 0 < sig → 0 ≤ exp →
  let '(i, f) := decimal_parts (strike_str sig exp) in
  Z.of_nat (length f) = exp ∧
  dec_value i * 10 ^ exp + dec_value f = sig ∧
  (i = str "0" ∨ (i ≠ [] ∧ head i ≠ Some 48)) ∧
  Forall (λ c, is_ascii_digit c = true) (i ++ f).
Proof.
  intros Hs Hpos Hexp. unfold strike_str.
  assert (Forall (λ c, is_ascii_digit c = true) (u64_to_string sig)) as Hdig.
  { apply Forall_forall. intros c. apply digits_fuel_digit. lia. }
  assert (head (u64_to_string sig) ≠ Some 48) as Hhd.
  { apply digits_fuel_no_leading_zero. unfold u64, u64_max in Hs. cbn. lia. }
  assert (u64_to_string sig ≠ []) as Hne.
  { destruct (digits_fuel_head 19 sig) as (c & s & E). unfold u64_to_string. by rewrite E. }
  pose proof (u64_to_string_value sig Hs) as Hval.
  revert Hdig Hhd Hne Hval. generalize (u64_to_string sig) as ds. intros ds Hdig Hhd Hne Hval.
  assert (46 ∉ ds) as Hpt.
  { intros Hin. rewrite Forall_forall in Hdig. by specialize (Hdig 46 Hin). }
  destruct (Z.eqb_spec exp 0) as [->|Hnz].
  { rewrite decimal_parts_plain by done. simpl. rewrite app_nil_r. split_and!; [done| |by right|done].
    unfold dec_value at 2. simpl. lia. }
  destruct (Z.to_nat exp <? length ds)%nat eqn:E.
  - apply Nat.ltb_lt in E. rewrite decimal_parts_point.
    2: { intros Hin. apply Hpt. apply (subseteq_take (length ds - Z.to_nat exp)). done. }
    set (k := (length ds - Z.to_nat exp)%nat).
    assert (length (drop k ds) = Z.to_nat exp) as Hl by (rewrite length_drop; lia).
    split_and!; [lia| | |by rewrite take_drop].
    + rewrite <- Hval at 1. rewrite <- (take_drop k ds) at 3. rewrite dec_value_app, Hl, Z2Nat.id by lia. done.
    + right. destruct ds as [|c ds]; [done|]. assert (k = S (k - 1))%nat as -> by (simpl in *; lia).
      simpl in *. done.
  - apply Nat.ltb_ge in E. change (str "0.") with (str "0" ++ str "."). rewrite <- app_assoc.
    rewrite decimal_parts_point by set_solver.
    split_and!; [rewrite length_app, length_replicate; lia| |by left|].
    + rewrite dec_value_app, dec_value_zeros. change (dec_value (str "0")) with 0. lia.
    + apply Forall_app. split; [by repeat constructor|]. apply Forall_app. split; [|done].
      apply Forall_replicate. done.
Qed.

Lemma strike_str_exact_witness :
  strike_str 12345 2 = str "123.45" ∧ decimal_parts (str "123.45") = (str "123", str "45") ∧
  dec_value (str "123") * 10 ^ 2 + dec_value (str "45") = 12345.
Proof.
  split_and!; [by vm_compute..|].
  assert (u64 12345) as Hs by (by vm_compute).
  pose proof (strike_str_exact 12345 2 Hs ltac:(lia) ltac:(lia)) as Hx.
  replace (decimal_parts (strike_str 12345 2)) with (str "123", str "45") in Hx by (by vm_compute).
  destruct Hx as (_ & Hx & _). exact Hx.
Defined.
