(* ===== verification/Json.v ===== *)
(** JSON values as the source handles them ([serde_json::Value]): the
    constructors, the accessors and [pointer].  The keys of an object are
    unique; a lookup takes the first. *)

From S2P Require Import Prelude RustStr.

Inductive Number := PosInt (n : Z) | NegInt (n : Z) | Float (bits : Z).

Inductive Value :=
  | JNull
  | JBool (b : bool)
  | JNumber (n : Number)
  | JString (s : rstring)
  | JArray (l : list Value)
  | JObject (m : list (rstring * Value)).

Fixpoint assoc {A} (k : rstring) (m : list (rstring * A)) : option A :=
  match m with
  | [] => None
  | (k', v) :: m' => if bool_decide (k' = k) then Some v else assoc k m'
  end.

Definition get (v : Value) (k : rstring) : option Value :=
  match v with JObject m => assoc k m | _ => None end.

Definition as_str (v : Value) : option rstring :=
  match v with JString s => Some s | _ => None end.

Definition as_bool (v : Value) : option bool :=
  match v with JBool b => Some b | _ => None end.

(** Only a non-negative integer is a [u64]. *)
Definition as_u64 (v : Value) : option Z :=
  match v with JNumber (PosInt n) => Some n | _ => None end.

Definition as_array (v : Value) : option (list Value) :=
  match v with JArray l => Some l | _ => None end.

(** [Option::and_then]. *)
Definition and_then {A B} (o : option A) (f : A → option B) : option B :=
  match o with Some a => f a | None => None end.

(** The numbers of a value are those of the machine. *)
Definition number_wf (n : Number) : Prop :=
  match n with PosInt n => u64 n | NegInt n => i64_min ≤ n < 0 | Float _ => True end.

Lemma as_u64_wf v n : (∀ m, v = JNumber m → number_wf m) → as_u64 v = Some n → u64 n.
Proof. destruct v as [| |[]| | |]; intros Hwf [=]; subst. by apply (Hwf (PosInt n)). Qed.

Fixpoint value_wf (v : Value) : Prop :=
  match v with
  | JNumber n => number_wf n
  | JArray l => (fix all l := match l with [] => True | v :: l' => value_wf v ∧ all l' end) l
  | JObject m => (fix all m := match m with [] => True | (_, v) :: m' => value_wf v ∧ all m' end) m
  | _ => True
  end.

Lemma value_wf_array l : value_wf (JArray l) ↔ Forall value_wf l.
Proof.
  induction l as [|v l IH]; [by split|]. split.
  - intros [Hv Hl]. constructor; [done|]. by apply IH.
  - intros [Hv Hl]%Forall_cons. split; [done|]. by apply IH.
Qed.

Lemma value_wf_assoc m k v : value_wf (JObject m) → assoc k m = Some v → value_wf v.
Proof.
  induction m as [|[k' v'] m IH]; [done|]. intros [Hv Hm]. cbn [assoc].
  case_bool_decide; [by intros [= <-]|]. by apply IH.
Qed.

Lemma value_wf_get v k v' : value_wf v → get v k = Some v' → value_wf v'.
Proof. destruct v; try done. apply value_wf_assoc. Qed.

(** An array index of a pointer: no sign and no leading zero. *)
Definition parse_index (s : rstring) : option nat :=
  match s with
  | 43 :: _ => None
  | 48 :: _ :: _ => None
  | _ => match parse_u64 s with Ok n => Some (Z.to_nat n) | Err _ => None end
  end.

(** [pointer] on the tokens between the slashes. *)
Fixpoint pointer (path : list rstring) (v : Value) : option Value :=
  match path with
  | [] => Some v
  | k :: path' =>
      match v with
      | JObject m => v' ← assoc k m; pointer path' v'
      | JArray l => i ← parse_index k; v' ← l !! i; pointer path' v'
      | _ => None
      end
  end.

Lemma value_wf_pointer path v v' : value_wf v → pointer path v = Some v' → value_wf v'.
Proof.
  revert v. induction path as [|k path IH]; intros v Hv; cbn [pointer]; [by intros [= <-]|].
  destruct v as [| | | |l|m]; try done; intros E.
  - destruct (parse_index k) as [i|]; [|done]. cbn [mbind option_bind] in E.
    destruct (l !! i) as [x|] eqn:Hx; [|done]. cbn [mbind option_bind] in E.
    apply (IH x); [|done]. apply value_wf_array in Hv. by eapply Forall_lookup_1.
  - destruct (assoc k m) as [x|] eqn:Hx; [|done]. cbn [mbind option_bind] in E.
    apply (IH x); [|done]. by eapply value_wf_assoc.
Qed.

(** [json!] of the common cases. *)
Definition jstr (s : rstring) : Value := JString s.
Definition jnum (n : Z) : Value := JNumber (PosInt n).
Definition jopt {A} (f : A → Value) (o : option A) : Value :=
  match o with Some a => f a | None => JNull end.
(** An object with literal keys. *)
Definition jobj (m : list (string * Value)) : Value := JObject (prod_map str id <$> m).
Arguments jobj _%_list.

(** [to_string()] of a [u64], as a JSON string. *)
Definition jdec (n : Z) : Value := JString (u64_to_string n).
