(* ===== verification/Events.v ===== *)
(** [crates/sui-tx/src/events.rs]: paging through the events of a module
    over GraphQL.  The HTTP exchange is a parameter ([None] for a transport
    or HTTP failure), and so are the parsers of third-party types. *)

From S2P Require Import Prelude RustStr ExchangeTypes Json.

Record ChainEvent := mkChainEvent {
  tx_digest : rstring;
  event_seq : Z;
  type_name : rstring;
  parsed_json : Value;
  ev_sender : SuiAddress;
  timestamp_ms : option Z;
  transaction_module : rstring;
}.

Record EventPage := mkEventPage {
  data : list ChainEvent;
  next_cursor : option rstring;
  has_next_page : bool;
}.

Inductive EventError := Transport | GraphQlErrors | MissingEvents.

(** The parsers of [sui_types], [move_core_types] and [chrono]: a
    transaction digest (as its text), the name of a struct type, an address
    and a timestamp. *)
Class ChainParsers := {
  transaction_digest_from_str : rstring → option rstring;
  struct_tag_name : rstring → option rstring;
  sui_address_from_str : rstring → option SuiAddress;
  rfc3339_timestamp_millis : rstring → option Z;
}.

Section parse.
Context `{ChainParsers}.

Definition parse_rfc3339_ms (s : rstring) : option Z :=
  d ← rfc3339_timestamp_millis s; Some (i64_as_u64 (Z.max d 0)).

Definition parse_event (node : Value) : option ChainEvent :=
  digest ← and_then (pointer [str "transaction"; str "digest"] node) as_str;
  type_repr ← and_then (pointer [str "contents"; str "type"; str "repr"] node) as_str;
  tx ← transaction_digest_from_str digest;
  seq ← and_then (get node (str "sequenceNumber")) as_u64;
  name ← struct_tag_name type_repr;
  Some (mkChainEvent tx seq name
    (default JNull (pointer [str "contents"; str "json"] node))
    (default SuiAddress_ZERO
       (and_then (and_then (pointer [str "sender"; str "address"] node) as_str) sui_address_from_str))
    (and_then (and_then (get node (str "timestamp")) as_str) parse_rfc3339_ms)
    (default [] (and_then (pointer [str "transactionModule"; str "name"] node) as_str))).

(** The request: direction, filter, page size and cursor.  The query text
    names [last]/[before] and [hasPreviousPage]/[startCursor] when
    descending, [first]/[after] and [hasNextPage]/[endCursor] otherwise. *)
Record Request := mkRequest {
  rq_descending : bool;
  rq_filter : Value;
  rq_limit : Z;
  rq_cursor : option rstring;
}.

Definition query (post : Request → option Value) (filter : Value) (cursor : option rstring) (limit : Z)
    (descending : bool) : result EventError EventPage :=
  body ← ok_or (post (mkRequest descending filter limit cursor)) Transport;
  match get body (str "errors") with
  | Some _ => Err GraphQlErrors
  | None =>
      events ← ok_or (pointer [str "data"; str "events"] body) MissingEvents;
      let data := match and_then (get events (str "nodes")) as_array with
                  | Some nodes => omap parse_event nodes
                  | None => []
                  end in
      let page_info := get events (str "pageInfo") in
      let flag k := default false (and_then (and_then page_info (λ p, get p (str k))) as_bool) in
      let cur k := and_then (and_then page_info (λ p, get p (str k))) as_str in
      if (descending : bool)
      then Ok (mkEventPage (reverse data) (cur "startCursor"%string) (flag "hasPreviousPage"%string))
      else Ok (mkEventPage data (cur "endCursor"%string) (flag "hasNextPage"%string))
  end.

Definition query_by_type (post : Request → option Value) (event_type : rstring) :=
  query post (jobj [("type"%string, jstr event_type)]).

Definition query_by_module (post : Request → option Value) (module : rstring) :=
  query post (jobj [("module"%string, jstr module)]).
End parse.
