(* ===== verification/Wire.v ===== *)
(** The JSON formats of [crates/exchange-types] ([types.rs], [order.rs],
    [market.rs]), as the derived and hand-written [serde] code defines them:
    hex addresses and digests, amounts as decimal strings (read back from a
    string or a number), signatures in base64, an order flattened into its
    envelope.  Deserializing ignores unknown fields. *)

From S2P Require Import Prelude RustStr ExchangeTypes Demo Json.

(** The [base64] crate: its standard engine encodes any bytes to text that
    decodes back to them. *)
Class Base64Crate := {
  base64_encode : list Z → rstring;
  base64_decode : rstring → option (list Z);
}.

Class Base64CrateSpec `{Base64Crate} : Prop := {
  base64_decode_encode bs : bytes bs → base64_decode (base64_encode bs) = Some bs;
}.

Definition ok {E A} (r : result E A) : option A := match r with Ok a => Some a | Err _ => None end.

Section wire.
Context `{HexCrate, Base64Crate}.

Definition SuiAddress_serialize (a : SuiAddress) : Value := JString (SuiAddress_to_hex a).
Definition SuiAddress_deserialize (v : Value) : option SuiAddress :=
  s ← as_str v; ok (SuiAddress_parse s).

Definition Digest_serialize (d : Digest) : Value := JString (Digest_to_hex d).
Definition Digest_deserialize (v : Value) : option Digest :=
  s ← as_str v; ok (Digest_parse s).

(** [mod u64_as_string]. *)
Definition u64_as_string_serialize (n : Z) : Value := JString (u64_to_string n).
Definition u64_as_string_deserialize (v : Value) : option Z :=
  match v with
  | JNumber n => as_u64 (JNumber n)
  | JString s => ok (parse_u64 s)
  | _ => None
  end.

(** [mod base64_bytes]. *)
Definition base64_bytes_serialize (l : list Z) : Value := JString (base64_encode l).
Definition base64_bytes_deserialize (v : Value) : option (list Z) :=
  s ← as_str v; base64_decode s.

Definition scheme_serialize (s : SignatureScheme) : Value :=
  JString (match s with Ed25519 => str "ed25519" | Secp256k1 => str "secp256k1" end).
Definition scheme_deserialize (v : Value) : option SignatureScheme :=
  s ← as_str v;
  if bool_decide (s = str "ed25519") then Some Ed25519
  else if bool_decide (s = str "secp256k1") then Some Secp256k1 else None.

(** ** Orders *)

Definition Order_fields (o : Order) : list (string * Value) :=
  [("makerToken", JString (maker_token o));
   ("takerToken", JString (taker_token o));
   ("makerAmount", u64_as_string_serialize (maker_amount o));
   ("takerAmount", u64_as_string_serialize (taker_amount o));
   ("maxFeeBps", u64_as_string_serialize (max_fee_bps o));
   ("maker", SuiAddress_serialize (maker o));
   ("makerManagerId", SuiAddress_serialize (maker_manager_id o));
   ("taker", SuiAddress_serialize (taker o));
   ("sender", SuiAddress_serialize (sender o));
   ("expiryMs", jnum (expiry_ms o));
   ("salt", u64_as_string_serialize (salt o))]%string.

Definition Order_serialize (o : Order) : Value := jobj (Order_fields o).

(** A field of an object, read by [f]. *)
Definition field {A} (f : Value → option A) (k : string) (v : Value) : option A :=
  x ← get v (str k); f x.

Definition Order_deserialize (v : Value) : option Order :=
  maker_token ← field as_str "makerToken" v;
  taker_token ← field as_str "takerToken" v;
  maker_amount ← field u64_as_string_deserialize "makerAmount" v;
  taker_amount ← field u64_as_string_deserialize "takerAmount" v;
  max_fee_bps ← field u64_as_string_deserialize "maxFeeBps" v;
  maker ← field SuiAddress_deserialize "maker" v;
  maker_manager_id ← field SuiAddress_deserialize "makerManagerId" v;
  taker ← field SuiAddress_deserialize "taker" v;
  sender ← field SuiAddress_deserialize "sender" v;
  expiry_ms ← field as_u64 "expiryMs" v;
  salt ← field u64_as_string_deserialize "salt" v;
  Some (mkOrder maker_token taker_token maker_amount taker_amount max_fee_bps maker maker_manager_id
          taker sender expiry_ms salt).

Definition SignedOrder_serialize (so : SignedOrder) : Value :=
  jobj (app (Order_fields (order so))
    [("registryId", SuiAddress_serialize (registry_id so));
     ("scheme", scheme_serialize (scheme so));
     ("signature", base64_bytes_serialize (signature so));
     ("publicKey", base64_bytes_serialize (public_key so))]%string).

Definition SignedOrder_deserialize (v : Value) : option SignedOrder :=
  order ← Order_deserialize v;
  registry_id ← field SuiAddress_deserialize "registryId" v;
  scheme ← field scheme_deserialize "scheme" v;
  signature ← field base64_bytes_deserialize "signature" v;
  public_key ← field base64_bytes_deserialize "publicKey" v;
  Some (mkSignedOrder order registry_id scheme signature public_key).

(** ** Markets *)

Definition Market_serialize (m : Market) : Value :=
  jobj [("symbol", JString (symbol m));
        ("registryId", SuiAddress_serialize (m_registry_id m));
        ("base", JString (base m));
        ("quote", JString (quote m));
        ("tickSize", jnum (tick_size m));
        ("minSize", jnum (min_size m));
        ("lotSize", jnum (lot_size m));
        ("currentFeeBps", jnum (current_fee_bps m))]%string.

(** * Round trip *)

Lemma parse_hex_32_encode `{!HexCrateSpec} bs pad :
  bytes32 bs → parse_hex_32 (str "0x" ++ hex_encode bs) pad = Ok bs.
Proof.
  intros [Hl Hb]. unfold parse_hex_32. rewrite strip_prefix_app. cbn [default].
  unfold default, id.
  assert (length (hex_encode bs) = 64%nat) as Hlen by (rewrite hex_encode_length; lia).
  assert (str_len (hex_encode bs) = 64) as Hs.
  { unfold str_len. transitivity (Z.of_nat (length (hex_encode bs))); [|lia].
    assert (∀ c, c ∈ hex_encode bs → char_len_utf8 c = 1) as Hc.
    { intros c Hc%(hex_encode_digits bs c Hb). unfold char_len_utf8.
      unfold is_ascii_hexdigit, is_ascii_digit in Hc. by rewrite (proj2 (Z.ltb_lt c 128)) by lia. }
    clear Hlen. induction (hex_encode bs) as [|c s IH]; [done|].
    rewrite Zsum_with_cons, Hc, IH by set_solver. cbn [length]. lia. }
  rewrite Hs. change (64 <? 64) with false. rewrite andb_false_r, hex_decode_encode by done.
  cbn [ok_or mbind result_bind]. by rewrite decide_True.
Qed.

Lemma SuiAddress_roundtrip `{!HexCrateSpec} a :
  bytes32 (addr_bytes a) → SuiAddress_deserialize (SuiAddress_serialize a) = Some a.
Proof.
  intros Ha. unfold SuiAddress_deserialize, SuiAddress_serialize, SuiAddress_parse, SuiAddress_to_hex.
  cbn [as_str mbind option_bind]. rewrite parse_hex_32_encode by done. by destruct a.
Qed.

Lemma Digest_roundtrip `{!HexCrateSpec} d :
  bytes32 (digest_bytes d) → Digest_deserialize (Digest_serialize d) = Some d.
Proof.
  intros Hd. unfold Digest_deserialize, Digest_serialize, Digest_parse, Digest_to_hex.
  cbn [as_str mbind option_bind]. rewrite parse_hex_32_encode by done. by destruct d.
Qed.

Lemma u64_as_string_roundtrip n :
  u64 n → u64_as_string_deserialize (u64_as_string_serialize n) = Some n.
Proof. intros Hn. unfold u64_as_string_deserialize, u64_as_string_serialize. by rewrite parse_u64_to_string. Qed.

Lemma base64_bytes_roundtrip `{!Base64CrateSpec} l :
  bytes l → base64_bytes_deserialize (base64_bytes_serialize l) = Some l.
Proof.
  intros Hl. unfold base64_bytes_deserialize, base64_bytes_serialize. cbn [as_str mbind option_bind].
  by apply base64_decode_encode.
Qed.

Lemma scheme_roundtrip s : scheme_deserialize (scheme_serialize s) = Some s.
Proof. by destruct s. Qed.

(** What a signed order must satisfy to be written: 32-byte ids, [u64]
    amounts, byte strings. *)
Definition signed_wf (so : SignedOrder) : Prop :=
  order_wf (order so) ∧ bytes32 (addr_bytes (registry_id so)) ∧ bytes (signature so) ∧ bytes (public_key so).

Lemma field_hit {A} (f : Value → option A) k x a m :
  assoc (str k) (prod_map str id <$> m) = Some x → f x = Some a → field f k (jobj m) = Some a.
Proof. intros Hk Hf. unfold field, jobj, get. rewrite Hk. exact Hf. Qed.

Local Ltac read_field f k t :=
  erewrite (field_hit f k); [|reflexivity|t]; cbn [mbind option_bind].

(** The fields of an order are found by their names, whatever follows. *)
Lemma Order_fields_read `{!HexCrateSpec} o rest :
  order_wf o → Order_deserialize (jobj (Order_fields o ++ rest)) = Some o.
Proof.
  intros (? & ? & ? & ? & ? & ? & ? & ? & ?). unfold Order_deserialize.
  read_field as_str "makerToken"%string ltac:(reflexivity).
  read_field as_str "takerToken"%string ltac:(reflexivity).
  read_field u64_as_string_deserialize "makerAmount"%string ltac:(by apply u64_as_string_roundtrip).
  read_field u64_as_string_deserialize "takerAmount"%string ltac:(by apply u64_as_string_roundtrip).
  read_field u64_as_string_deserialize "maxFeeBps"%string ltac:(by apply u64_as_string_roundtrip).
  read_field SuiAddress_deserialize "maker"%string ltac:(by apply SuiAddress_roundtrip).
  read_field SuiAddress_deserialize "makerManagerId"%string ltac:(by apply SuiAddress_roundtrip).
  read_field SuiAddress_deserialize "taker"%string ltac:(by apply SuiAddress_roundtrip).
  read_field SuiAddress_deserialize "sender"%string ltac:(by apply SuiAddress_roundtrip).
  read_field as_u64 "expiryMs"%string ltac:(reflexivity).
  read_field u64_as_string_deserialize "salt"%string ltac:(by apply u64_as_string_roundtrip).
  by destruct o.
Qed.

(** A signed order written to the wire and read back is the same
    order: hex ids, decimal amounts and base64 byte strings are all
    inverted, and flattening the order into its envelope hides no field. *)
Theorem signed_order_roundtrip `{!HexCrateSpec, !Base64CrateSpec} so :
  signed_wf so → SignedOrder_deserialize (SignedOrder_serialize so) = Some so.
Proof.
  intros (Ho & ? & ? & ?). unfold SignedOrder_deserialize, SignedOrder_serialize.
  rewrite Order_fields_read by done. cbn [mbind option_bind].
  read_field SuiAddress_deserialize "registryId"%string ltac:(by apply SuiAddress_roundtrip).
  read_field scheme_deserialize "scheme"%string ltac:(apply scheme_roundtrip).
  read_field base64_bytes_deserialize "signature"%string ltac:(by apply base64_bytes_roundtrip).
  read_field base64_bytes_deserialize "publicKey"%string ltac:(by apply base64_bytes_roundtrip).
  by destruct so.
Qed.
End wire.

(** * A concrete instance *)

(** Stands in for the [base64] crate. *)
#[local] Instance demo_base64 : Base64Crate := {| base64_encode l := l; base64_decode s := Some s |}.
#[local] Instance demo_base64_spec : Base64CrateSpec.
Proof. by split. Qed.

Definition demo_wire : SignedOrder :=
  mkSignedOrder (demo_order Ask 1 1000 5) (demo_addr 7) Secp256k1 (replicate 64 7) (replicate 33 3).

Lemma demo_wire_wf : signed_wf demo_wire.
Proof.
  split; [apply demo_order_wf; [lia|split; vm_compute; discriminate..]|].
  split; [split; [done|]|split]; by apply Forall_replicate.
Qed.

Lemma signed_order_roundtrip_witness :
  SignedOrder_deserialize (SignedOrder_serialize demo_wire) = Some demo_wire.
Proof. apply (signed_order_roundtrip demo_wire). exact demo_wire_wf. Defined.
