(* ===== verification/Sync.v ===== *)
(** [services/orderbook/src/sync.rs]: the event ingestor.  It polls module
    streams from persisted cursors, mirrors each event into the store, and
    broadcasts it to the service; the HTTP exchange of a poll is a parameter,
    and so is the [base64] crate. *)

From S2P Require Import Prelude Prog RustStr ExchangeTypes Repo Db Json Wire.
From S2P Require Events Discovery.

Import Events(ChainParsers, ChainEvent, EventPage, Request, EventError).
Import Discovery(MarketFactory).

Definition MODULES : list rstring := [str "settlement"; str "balance_manager"; str "registry"].
Definition ADAPTER_MODULE : rstring := str "exchange_adapter".

Inductive SyncError := SyncEvents (e : EventError) | SyncStore (e : StoreError).

Inductive ExchangeEvent :=
  | Fill (registry : SuiAddress) (digest : Digest) (maker taker : SuiAddress)
      (base_amount quote_amount maker_fee taker_fee : Z) (maker_sold_base : bool)
      (filled_total timestamp_ms : Z)
  | Cancel (registry : SuiAddress) (digest : Digest) (maker : SuiAddress)
  | SaltWatermark (registry maker : SuiAddress) (min_valid_salt : Z)
  | Deposit (manager : SuiAddress) (token : rstring) (amount : Z)
  | Withdraw (manager : SuiAddress) (token : rstring) (amount : Z)
  | SignerAdded (manager signer : SuiAddress)
  | SignerRemoved (manager signer : SuiAddress)
  | VaultCustody (vault custody manager : SuiAddress) (direct : bool)
  | MarketCreated (registry : SuiAddress) (base quote : rstring) (tick_size min_size fee_bps : Z)
  | MarketPaused (registry : SuiAddress) (paused : bool)
  | MarketFee (registry : SuiAddress) (fee_bps : Z).

#[export] Instance ExchangeEvent_eq_dec : EqDecision ExchangeEvent.
Proof. solve_decision. Defined.

(** * Parsing *)

Section parse.
Context `{HexCrate, Base64Crate}.

Definition get_str (v : Value) (k : rstring) : option rstring := and_then (Json.get v k) as_str.

Definition get_addr (v : Value) (k : rstring) : option SuiAddress :=
  s ← get_str v k;
  match SuiAddress_parse s with Ok a => Some a | Err _ => None end.

Definition get_u64 (v : Value) (k : rstring) : option Z :=
  x ← Json.get v k;
  match x with
  | JString s => match parse_u64 s with Ok n => Some n | Err _ => None end
  | JNumber n => as_u64 (JNumber n)
  | _ => None
  end.

Definition get_bool (v : Value) (k : rstring) : option bool := and_then (Json.get v k) as_bool.

(** [x as u8] keeps the low byte. *)
Definition get_digest (v : Value) (k : rstring) : option Digest :=
  x ← Json.get v k;
  bytes ← match x with
          | JArray arr => mapM (λ b, n ← as_u64 b; Some (n mod 256)) arr
          | JString s => base64_decode s
          | _ => None
          end;
  if decide (length bytes = 32%nat) then Some (mkDigest bytes) else None.

Definition parse_fill (j : Value) : option ExchangeEvent :=
  registry ← get_addr j (str "registry");
  digest ← get_digest j (str "digest");
  maker ← get_addr j (str "maker");
  taker ← get_addr j (str "taker");
  base_amount ← get_u64 j (str "base_amount");
  quote_amount ← get_u64 j (str "quote_amount");
  maker_fee ← get_u64 j (str "maker_fee");
  taker_fee ← get_u64 j (str "taker_fee");
  maker_sold_base ← get_bool j (str "maker_sold_base");
  filled_total ← get_u64 j (str "taker_token_filled_total");
  timestamp_ms ← get_u64 j (str "timestamp_ms");
  Some (Fill registry digest maker taker base_amount quote_amount maker_fee taker_fee
          maker_sold_base filled_total timestamp_ms).

(** The match on the struct name, arm by arm. *)
Definition parse_event (ev : ChainEvent) : option ExchangeEvent :=
  let j := Events.parsed_json ev in
  let named name := bool_decide (Events.type_name ev = str name) in
  if named "FillEvent"%string then parse_fill j
  else if named "CancelEvent"%string then
    registry ← get_addr j (str "registry");
    digest ← get_digest j (str "digest");
    maker ← get_addr j (str "maker");
    Some (Cancel registry digest maker)
  else if named "SaltWatermarkEvent"%string then
    registry ← get_addr j (str "registry");
    maker ← get_addr j (str "maker");
    min_valid_salt ← get_u64 j (str "min_valid_salt");
    Some (SaltWatermark registry maker min_valid_salt)
  else if named "DepositEvent"%string then
    manager ← get_addr j (str "manager");
    token ← get_str j (str "token");
    amount ← get_u64 j (str "amount");
    Some (Deposit manager token amount)
  else if named "WithdrawEvent"%string then
    manager ← get_addr j (str "manager");
    token ← get_str j (str "token");
    amount ← get_u64 j (str "amount");
    Some (Withdraw manager token amount)
  else if named "SignerAddedEvent"%string then
    manager ← get_addr j (str "manager");
    signer ← get_addr j (str "signer");
    Some (SignerAdded manager signer)
  else if named "SignerRemovedEvent"%string then
    manager ← get_addr j (str "manager");
    signer ← get_addr j (str "signer");
    Some (SignerRemoved manager signer)
  else if named "MarketCreatedEvent"%string then
    registry ← get_addr j (str "registry");
    base ← get_str j (str "base");
    quote ← get_str j (str "quote");
    tick_size ← get_u64 j (str "tick_size");
    min_size ← get_u64 j (str "min_size");
    fee_bps ← get_u64 j (str "fee_bps");
    Some (MarketCreated registry base quote tick_size min_size fee_bps)
  else if named "PauseEvent"%string then
    registry ← get_addr j (str "registry");
    paused ← get_bool j (str "paused");
    Some (MarketPaused registry paused)
  else if named "FeeConfigEvent"%string then
    registry ← get_addr j (str "registry");
    fee_bps ← get_u64 j (str "fee_bps");
    Some (MarketFee registry fee_bps)
  else if named "CustodyCreated"%string then
    vault ← get_addr j (str "vault_id");
    custody ← get_addr j (str "custody_id");
    manager ← get_addr j (str "balance_manager_id");
    direct ← get_bool j (str "direct");
    Some (VaultCustody vault custody manager direct)
  else None.
End parse.

(** * The ingestor *)

Record EventIngestor := mkEventIngestor {
  package : rstring;
  in_adapter_package : option rstring;
  factory : MarketFactory;
}.

Definition page_size : Z := 50.

(** A cursor name and a module, per stream. *)
Definition streams (ing : EventIngestor) : list (rstring * rstring) :=
  ((λ m, (str "exchange-events:" ++ m, package ing ++ str "::" ++ m)) <$> MODULES) ++
  match in_adapter_package ing with
  | Some pkg => [(str "exchange-adapter-events:" ++ ADAPTER_MODULE, pkg ++ str "::" ++ ADAPTER_MODULE)]
  | None => []
  end.

(** A state with the broadcast channel of events. *)
Class HasFeed (S : Type) := { send_event : ExchangeEvent → S → S }.

Section ingest.
Context {S : Type} `{HasStore S}.

(** A store call under [?]. *)
Definition stored {A} (p : prog S (result StoreError A)) : prog S (result SyncError A) :=
  prog_bind (λ r, Ret (map_err SyncStore r)) p.

(** The row of a fill event; every amount is cast to [i64]. *)
Definition fill_row (raw : ChainEvent) (registry : SuiAddress) (digest : Digest) (maker taker : SuiAddress)
    (base_amount quote_amount maker_fee taker_fee : Z) (maker_sold_base : bool)
    (filled_total timestamp_ms : Z) : NewFill :=
  mkNewFill (Events.tx_digest raw) (u64_as_i64 (Events.event_seq raw)) digest registry maker taker
    (u64_as_i64 base_amount) (u64_as_i64 quote_amount) (u64_as_i64 maker_fee) (u64_as_i64 taker_fee)
    maker_sold_base (u64_as_i64 filled_total) (u64_as_i64 timestamp_ms).

(** The escrow deltas of a fill that was not known, when the order is. *)
Definition mirror_fill (digest : Digest) (base_amount quote_amount maker_fee : Z) (maker_sold_base : bool)
    : prog S (result SyncError unit) :=
  known ←? stored (store.get_order digest);
  match known with
  | None => Ret (Ok ())
  | Some so =>
      let o := order (so_signed so) in
      let manager := maker_manager_id o in
      vault ←? stored (store.vault_manager manager);
      if match vault with Some v => vm_direct v | None => false end then Ret (Ok ()) else
      let '(out_amt, in_amt) :=
        if (maker_sold_base : bool) then (base_amount, u64_saturating_sub quote_amount maker_fee)
        else (quote_amount, u64_saturating_sub base_amount maker_fee) in
      _ ←? stored (store.apply_balance_delta manager (maker_token o) (i64_neg (u64_as_i64 out_amt)));
      _ ←? stored (store.apply_balance_delta manager (taker_token o) (u64_as_i64 in_amt));
      Ret (Ok ())
  end.

Definition apply (ing : EventIngestor) (raw : ChainEvent) (ev : ExchangeEvent)
    : prog S (result SyncError unit) :=
  match ev with
  | Fill registry digest maker taker base_amount quote_amount maker_fee taker_fee maker_sold_base
      filled_total timestamp_ms =>
      let fill := fill_row raw registry digest maker taker base_amount quote_amount maker_fee taker_fee
                    maker_sold_base filled_total timestamp_ms in
      inserted ←? stored (store.apply_fill fill);
      if (inserted : bool) then mirror_fill digest base_amount quote_amount maker_fee maker_sold_base
      else Ret (Ok ())
  | Cancel _ digest _ => stored (store.set_order_status digest CANCELLED)
  | SaltWatermark registry maker min_valid_salt =>
      stored (store.set_watermark registry maker min_valid_salt)
  | Deposit manager token amount =>
      _ ←? stored (store.apply_balance_delta manager token (u64_as_i64 amount)); Ret (Ok ())
  | Withdraw manager token amount =>
      _ ←? stored (store.apply_balance_delta manager token (i64_neg (u64_as_i64 amount))); Ret (Ok ())
  | SignerAdded manager signer => stored (store.set_signer manager signer true)
  | SignerRemoved manager signer => stored (store.set_signer manager signer false)
  | VaultCustody vault custody manager direct =>
      stored (store.upsert_vault_manager (mkVaultManagerRow manager vault custody direct))
  | MarketCreated registry base quote tick_size min_size fee_bps =>
      match Discovery.build (factory ing) registry base quote tick_size min_size fee_bps with
      | Some market => _ ←? stored (store.insert_discovered_market market); Ret (Ok ())
      | None => Ret (Ok ())
      end
  | MarketPaused registry paused => stored (store.set_market_paused registry paused)
  | MarketFee registry fee_bps => stored (store.set_market_fee registry fee_bps)
  end.

Context `{HexCrate, Base64Crate, ChainParsers, HasFeed S}.

(** The loop over a page: an error leaves it. *)
Fixpoint apply_page (ing : EventIngestor) (evs : list ChainEvent) : prog S (result SyncError unit) :=
  match evs with
  | [] => Ret (Ok ())
  | ev :: evs' =>
      match parse_event ev with
      | Some typed =>
          _ ←? apply ing ev typed;
          _ ←? prog_bind (λ _, Ret (Ok ())) (modify (send_event typed));
          apply_page ing evs'
      | None => apply_page ing evs'
      end
  end.

(** [post] is the HTTP exchange of this poll. *)
Definition poll_module (ing : EventIngestor) (post : Request → option Value) (cursor_name module : rstring)
    : prog S (result SyncError bool) :=
  cursor ←? stored (store.load_cursor cursor_name);
  page ←? Ret (map_err SyncEvents (Events.query_by_module post module cursor page_size false));
  _ ←? apply_page ing (Events.data page);
  _ ←? match Events.next_cursor page with
       | Some next => stored (store.save_cursor cursor_name next)
       | None => Ret (Ok ())
       end;
  Ret (Ok (Events.has_next_page page)).

(** One round of [run] over the streams: whether every poll that succeeded
    had nothing more.  A failed poll is logged and slept on. *)
Fixpoint run_round (ing : EventIngestor) (post : Request → option Value) (ss : list (rstring * rstring))
    (drained : bool) : prog S bool :=
  match ss with
  | [] => Ret drained
  | (cursor_name, module) :: ss' =>
      prog_bind (λ r, run_round ing post ss'
        match r with Ok has_more => drained && negb has_more | Err _ => drained end)
        (poll_module ing post cursor_name module)
  end.

(** [run], one exchange per round. *)
Definition ingestor_run (ing : EventIngestor) (posts : list (Request → option Value)) : prog S unit :=
  for_each posts (λ post, prog_bind (λ _, Ret tt) (run_round ing post (streams ing) true)).
End ingest.
