(* ===== verification/State.v ===== *)
(** [services/orderbook/src/state.rs]: the state the handlers and tasks
    share, and its methods.  Each access to a concurrent map, a lock, a
    channel or the store is one atomic action of a program.

    A book is reached through its market id ([Arc<Mutex<Book>>]); entries are
    never removed or replaced, so a reference always finds its book.  The
    settlement queue holds 1024 jobs, and the senders that wait for room, in
    order; the event feed holds 4096 events and counts those it dropped. *)

From S2P Require Import Prelude Prog Channel RustStr ExchangeTypes Crates Book Repo Intake Db Settlement Json Wire Sync.

(** * Channels *)

(** [mpsc::channel::<MatchJob>(1024)]. *)
Definition queue_capacity : nat := 1024.

(** [broadcast::channel::<ExchangeEvent>] with one receiver. *)
Record Feed := mkFeed { fd_events : list ExchangeEvent; fd_lagged : nat }.

Definition feed_capacity : nat := 4096.

Definition feed_send (ev : ExchangeEvent) (f : Feed) : Feed :=
  if (length (fd_events f) <? feed_capacity)%nat then mkFeed (fd_events f ++ [ev]) (fd_lagged f)
  else mkFeed (drop 1 (fd_events f) ++ [ev]) (S (fd_lagged f)).

Inductive FeedRecv := FeedEvent (ev : ExchangeEvent) | FeedLagged (n : nat) | FeedEmpty.

Definition feed_recv (f : Feed) : Feed * FeedRecv :=
  match fd_lagged f with
  | S _ => (mkFeed (fd_events f) O, FeedLagged (fd_lagged f))
  | O => match fd_events f with
         | [] => (f, FeedEmpty)
         | ev :: evs => (mkFeed evs O, FeedEvent ev)
         end
  end.

(** * The state *)

Record WsMsg := mkWsMsg { channel : rstring; payload : Value }.

(** [config.rs]. *)
Record DirectEscrowIds := mkDirectEscrowIds {
  de_adapter_package : rstring;
  de_integration_registry_id : rstring;
}.

Record AppState := mkAppState {
  exchange_package : rstring;
  whitelist_id : option rstring;
  markets : gmap SuiAddress Market;
  paused : gset SuiAddress;
  books : gmap SuiAddress Book;
  app_db : Store;
  match_tx : Queue MatchJob;
  ws_tx : list WsMsg;
  intake : IntakeConfig;
  direct_escrow : option DirectEscrowIds;
  sync_feed : Feed;
}.

Definition set_app_markets m s := mkAppState (exchange_package s) (whitelist_id s) m (paused s) (books s)
  (app_db s) (match_tx s) (ws_tx s) (intake s) (direct_escrow s) (sync_feed s).
Definition set_app_paused p s := mkAppState (exchange_package s) (whitelist_id s) (markets s) p (books s)
  (app_db s) (match_tx s) (ws_tx s) (intake s) (direct_escrow s) (sync_feed s).
Definition set_app_books b s := mkAppState (exchange_package s) (whitelist_id s) (markets s) (paused s) b
  (app_db s) (match_tx s) (ws_tx s) (intake s) (direct_escrow s) (sync_feed s).
Definition set_app_db d s := mkAppState (exchange_package s) (whitelist_id s) (markets s) (paused s)
  (books s) d (match_tx s) (ws_tx s) (intake s) (direct_escrow s) (sync_feed s).
Definition set_app_queue q s := mkAppState (exchange_package s) (whitelist_id s) (markets s) (paused s)
  (books s) (app_db s) q (ws_tx s) (intake s) (direct_escrow s) (sync_feed s).
Definition set_app_ws w s := mkAppState (exchange_package s) (whitelist_id s) (markets s) (paused s)
  (books s) (app_db s) (match_tx s) w (intake s) (direct_escrow s) (sync_feed s).
Definition set_app_feed f s := mkAppState (exchange_package s) (whitelist_id s) (markets s) (paused s)
  (books s) (app_db s) (match_tx s) (ws_tx s) (intake s) (direct_escrow s) f.

(** The state provides what the store facade, the intake pipeline and the
    ingestor ask for. *)
#[export] Instance app_has_store : HasStore AppState := {| get_store := app_db; put_store := set_app_db |}.
#[export] Instance app_has_store_spec : HasStoreSpec AppState.
Proof. by split. Qed.
#[export] Instance app_serving : Serving AppState := {|
  sv_market s id := markets s !! id;
  sv_paused s id := bool_decide (id ∈ paused s);
  sv_config := intake;
|}.
#[export] Instance app_serving_spec : ServingSpec AppState.
Proof. by split. Qed.
#[export] Instance app_feed : HasFeed AppState := {|
  send_event ev s := set_app_feed (feed_send ev (sync_feed s)) s;
|}.

(** * Methods *)

Section methods.
Context `{HexCrate, DashMapCrate}.

Definition market (id : SuiAddress) : prog AppState (option Market) := read (λ s, markets s !! id).

(** [resolve_market]: by registry hex first, then by symbol. *)
Definition resolve_in (key : rstring) (ms : gmap SuiAddress Market) : option Market :=
  let by_symbol := List.find (λ m, eq_ignore_ascii_case (symbol m) key) (dash_values ms) in
  match SuiAddress_parse key with
  | Ok addr => match ms !! addr with Some m => Some m | None => by_symbol end
  | Err _ => by_symbol
  end.
Definition resolve_market (key : rstring) : prog AppState (option Market) :=
  read (λ s, resolve_in key (markets s)).

Definition snapshot_markets (ms : gmap SuiAddress Market) : list Market :=
  sort_by (λ a b, str_le (symbol a) (symbol b)) (dash_values ms).
Definition markets_snapshot : prog AppState (list Market) := read (λ s, snapshot_markets (markets s)).

Definition add_market (m : Market) : prog AppState bool :=
  known ← read (λ s, bool_decide (is_Some (markets s !! m_registry_id m)));
  if (known : bool) then Ret false else
  _ ← modify (λ s,
        match books s !! m_registry_id m with
        | Some _ => s
        | None => set_app_books (<[m_registry_id m := Book_new m]> (books s)) s
        end);
  _ ← modify (λ s, set_app_markets (<[m_registry_id m := m]> (markets s)) s);
  Ret true.

Definition set_paused (id : SuiAddress) (flag : bool) : prog AppState unit :=
  modify (λ s, set_app_paused (if flag then {[id]} ∪ paused s else paused s ∖ {[id]}) s).

Definition is_paused (id : SuiAddress) : prog AppState bool := read (λ s, bool_decide (id ∈ paused s)).

Definition set_fee (fee_bps : Z) (m : Market) : Market :=
  mkMarket (symbol m) (m_registry_id m) (base m) (quote m) (tick_size m) (min_size m) (lot_size m) fee_bps.

Definition set_market_fee (id : SuiAddress) (fee_bps : Z) : prog AppState unit :=
  modify (λ s, set_app_markets (alter (set_fee fee_bps) id (markets s)) s).

(** [book(id)]: a reference to the book of a market. *)
Definition BookRef : Type := SuiAddress.
Definition book (id : SuiAddress) : prog AppState (option BookRef) :=
  read (λ s, match books s !! id with Some _ => Some id | None => None end).

(** [book.lock()], the critical section of [f]. *)
Definition lock {A} (r : BookRef) (f : Book → Book * A) : prog AppState (option A) :=
  act (λ s, match books s !! r with
            | Some b => let '(b', a) := f b in (set_app_books (<[r := b']> (books s)) s, Some a)
            | None => (s, None)
            end).

(** A critical section whose result is not used. *)
Definition lock_ (r : BookRef) (f : Book → Book) : prog AppState unit :=
  _ ← lock r (λ b, (f b, tt)); Ret tt.

Definition publish (chan : rstring) (v : Value) : prog AppState unit :=
  modify (λ s, set_app_ws (ws_tx s ++ [mkWsMsg chan v]) s).

Definition BookLevel_serialize (l : BookLevel) : Value :=
  jobj [("priceTicks", jnum (price_ticks l)); ("baseQuantity", jnum (base_quantity l));
        ("orderCount", jnum (order_count l))]%string.

Definition snapshot_payload (m : Market) (views : list BookLevel * list BookLevel) : Value :=
  jobj [("type", jstr (str "snapshot"));
        ("market", JString (SuiAddress_to_hex (m_registry_id m)));
        ("bids", JArray (BookLevel_serialize <$> views.1));
        ("asks", JArray (BookLevel_serialize <$> views.2))]%string.

Definition publish_book_snapshot (m : Market) : prog AppState unit :=
  found ← book (m_registry_id m);
  match found with
  | None => Ret tt
  | Some r =>
      views ← lock r (λ b, (b, snapshot b 50));
      match views with
      | Some v => publish (str "book." ++ SuiAddress_to_hex (m_registry_id m)) (snapshot_payload m v)
      | None => Ret tt
      end
  end.

(** The queue and the feed. *)
Definition match_send (job : MatchJob) : prog AppState bool :=
  act (λ s, let '(q, ok) := queue_send queue_capacity job (match_tx s) in (set_app_queue q s, ok)).
Definition match_try_send (job : MatchJob) : prog AppState bool :=
  act (λ s, let '(q, ok) := queue_try_send queue_capacity job (match_tx s) in (set_app_queue q s, ok)).
Definition match_recv : prog AppState (option MatchJob) :=
  act (λ s, let '(q, job) := queue_recv (match_tx s) in (set_app_queue q s, job)).
Definition sync_recv : prog AppState FeedRecv :=
  act (λ s, let '(f, r) := feed_recv (sync_feed s) in (set_app_feed f s, r)).
End methods.
