(* ===== verification/Service.v ===== *)
(** [services/orderbook/src/main.rs]: the service around the books.  [boot]
    rebuilds the books from the store; [handle_sync_event] applies chain
    events; [settlement_worker] settles matches one at a time and reacts to
    each outcome.  Loops over channels are modelled by their body, one
    message per run. *)

From S2P Require Import Prelude Prog Channel RustStr ExchangeTypes Book Crates Signing Repo Intake Db Settlement Json Wire Sync State.

(** * Boot *)

(** [for m in &deployed_markets { db.upsert_market(m).await?; }]. *)
Fixpoint upsert_all (ms : list Market) : sto unit :=
  match ms with
  | [] => mret tt
  | m :: ms' => _ ← upsert_market m; upsert_all ms'
  end.

(** The loop over the open orders of a market; [now d] is the clock when
    order [d] is examined.  What [place] returns is dropped. *)
Fixpoint rebuild (now : Digest → Z) (orders : list StoredOrder) (b : Book) : sto Book :=
  match orders with
  | [] => mret b
  | stored :: orders' =>
      if expiry_ms (order (so_signed stored)) <=? now (so_digest stored) then
        _ ← set_order_status (so_digest stored) EXPIRED;
        rebuild now orders' b
      else
        let '(b', _) := place b (so_digest stored) (order (so_signed stored)) in
        rebuild now orders' b'
  end.

Record Maps := mkMaps {
  mp_markets : gmap SuiAddress Market;
  mp_paused : gset SuiAddress;
  mp_books : gmap SuiAddress Book;
}.

Fixpoint load_books (now : Digest → Z) (ms : list (Market * bool)) (maps : Maps) : sto Maps :=
  match ms with
  | [] => mret maps
  | (m, is_paused) :: ms' =>
      orders ← open_orders (m_registry_id m);
      b ← rebuild now orders (Book_new m);
      load_books now ms'
        (mkMaps (<[m_registry_id m := m]> (mp_markets maps))
                (if (is_paused : bool) then {[m_registry_id m]} ∪ mp_paused maps else mp_paused maps)
                (<[m_registry_id m := b]> (mp_books maps)))
  end.

Definition load_maps (now : Digest → Z) (deployed_markets : list Market) : sto Maps :=
  _ ← upsert_all deployed_markets;
  _ ← disable_markets_absent_from (m_registry_id <$> deployed_markets);
  ms ← enabled_markets;
  load_books now ms (mkMaps ∅ ∅ ∅).

(** The state the service starts with; [?] ends the process. *)
Definition boot (package : rstring) (whitelist : option rstring) (direct : option DirectEscrowIds)
    (now : Digest → Z) (deployed_markets : list Market) (db : Store) : option AppState :=
  match load_maps now deployed_markets db with
  | (db', Ok maps) =>
      Some (mkAppState package whitelist (mp_markets maps) (mp_paused maps) (mp_books maps) db'
              (mkQueue [] [] true) [] IntakeConfig_default direct (mkFeed [] O))
  | (_, Err _) => None
  end.

Section service.
Context `{BcsCrate, CryptoCrates, HexCrate}.

Definition addr_json (a : SuiAddress) : Value := JString (SuiAddress_to_hex a).
Definition digest_json (d : Digest) : Value := JString (Digest_to_hex d).
Definition orders_channel (a : SuiAddress) : rstring := str "orders." ++ SuiAddress_to_hex a.

(** * Pruning *)

Definition notify_prune (maker : SuiAddress) (d : Digest) (reason : rstring) : prog AppState unit :=
  publish (orders_channel maker)
    (jobj [("type", jstr (str "pruned")); ("digest", digest_json d); ("reason", jstr reason)]%string).

(** [if let Some(book) = state.book(r) { book.lock().remove(d); }]. *)
Definition remove_from_book (registry : SuiAddress) (d : Digest) : prog AppState unit :=
  found ← book registry;
  match found with
  | Some r => lock_ r (λ b, (remove b d).1)
  | None => Ret tt
  end.

(** [let _ = state.db.set_order_status(..)]. *)
Definition try_set_status (d : Digest) (st : OrderStatus) : prog AppState unit :=
  _ ← store.set_order_status d st; Ret tt.

(** [if let Some(m) = state.market(r) { state.publish_book_snapshot(&m); }]. *)
Definition publish_market (registry : SuiAddress) : prog AppState unit :=
  found ← market registry;
  match found with
  | Some m => publish_book_snapshot m
  | None => Ret tt
  end.

Definition prune_maker_orders (registry maker : SuiAddress) (voided : Z → bool) : prog AppState unit :=
  found ← book registry;
  match found with
  | None => Ret tt
  | Some r =>
      digests ← lock r (λ b, (b, orders_of b maker));
      _ ← for_each (default [] digests) (λ d,
            stored ← store.get_order d;
            match stored with
            | Ok (Some stored) =>
                if voided (salt (order (so_signed stored))) then
                  _ ← lock_ r (λ b, (remove b d).1);
                  _ ← try_set_status d PRUNED;
                  notify_prune maker d (str "salt watermark")
                else Ret tt
            | _ => Ret tt
            end);
      publish_market registry
  end.

(** Newest first; the sort is stable. *)
Definition newest_salt_first (a b : StoredOrder) : bool :=
  salt (order (so_signed b)) <=? salt (order (so_signed a)).

Definition freed_commitment (stored : StoredOrder) : Z :=
  let o := order (so_signed stored) in
  let paid_out := muldiv_floor (so_filled_taker stored) (maker_amount o) (Z.max (taker_amount o) 1) in
  u64_saturating_sub (maker_amount o) paid_out.

(** The removal of one order from the book and the store. *)
Definition prune_order (stored : StoredOrder) (reason : rstring) : prog AppState unit :=
  _ ← remove_from_book (registry_id (so_signed stored)) (so_digest stored);
  _ ← try_set_status (so_digest stored) PRUNED;
  notify_prune (maker (order (so_signed stored))) (so_digest stored) reason.

Fixpoint prune_until (balance committed : Z) (candidates : list StoredOrder) : prog AppState unit :=
  match candidates with
  | [] => Ret tt
  | stored :: candidates' =>
      if committed <=? balance then Ret tt else
      _ ← prune_order stored (str "escrow no longer covers order");
      prune_until balance (u64_saturating_sub committed (freed_commitment stored)) candidates'
  end.

Definition candidates_for (token : rstring) (open : list StoredOrder) : list StoredOrder :=
  sort_by newest_salt_first
    (List.filter (λ s, bool_decide (maker_token (order (so_signed s)) = token)) open).

Definition prune_uncovered (manager : SuiAddress) (token : rstring) : prog AppState unit :=
  balance ← store.balance manager token;
  match balance with
  | Err _ => Ret tt
  | Ok balance =>
      committed ← store.open_commitment manager token;
      match committed with
      | Err _ => Ret tt
      | Ok committed =>
          if committed <=? balance then Ret tt else
          open ← store.open_orders_by_manager manager;
          match open with
          | Err _ => Ret tt
          | Ok open => prune_until balance committed (candidates_for token open)
          end
      end
  end.

Definition prune_manager_orders (manager : SuiAddress) (token : option rstring) (reason : rstring)
    : prog AppState unit :=
  open ← store.open_orders_by_manager manager;
  match open with
  | Err _ => Ret tt
  | Ok open => for_each open (λ stored,
      if match token with
         | Some t => negb (bool_decide (maker_token (order (so_signed stored)) = t))
         | None => false
         end then Ret tt
      else prune_order stored reason)
  end.

Definition prune_orders_signed_by (manager signer : SuiAddress) : prog AppState unit :=
  open ← store.open_orders_by_manager manager;
  match open with
  | Err _ => Ret tt
  | Ok open => for_each open (λ stored,
      let derived := derive_address (scheme (so_signed stored)) (public_key (so_signed stored)) in
      if bool_decide (derived = signer) then prune_order stored (str "delegated signer removed") else Ret tt)
  end.

(** * Chain events *)

Definition handle_fill (registry : SuiAddress) (digest : Digest) (maker taker : SuiAddress)
    (base_amount quote_amount : Z) (maker_sold_base : bool) (timestamp_ms : Z) : prog AppState unit :=
  found ← book registry;
  _ ← match found with
      | Some r => lock_ r (λ b, apply_external_fill b digest base_amount)
      | None => Ret tt
      end;
  _ ← publish (str "trades." ++ SuiAddress_to_hex registry)
        (jobj [("type", jstr (str "trade")); ("digest", digest_json digest);
               ("baseAmount", jdec base_amount); ("quoteAmount", jdec quote_amount);
               ("makerSoldBase", JBool maker_sold_base); ("timestampMs", jnum timestamp_ms)]%string);
  _ ← for_each [maker; taker] (λ addr,
        publish (orders_channel addr)
          (jobj [("type", jstr (str "fill")); ("digest", digest_json digest);
                 ("baseAmount", jdec base_amount); ("quoteAmount", jdec quote_amount);
                 ("final", JBool true)]%string));
  publish_market registry.

Definition handle_sync_event (ev : ExchangeEvent) : prog AppState unit :=
  match ev with
  | Fill registry digest maker taker base_amount quote_amount _ _ maker_sold_base _ timestamp_ms =>
      handle_fill registry digest maker taker base_amount quote_amount maker_sold_base timestamp_ms
  | Cancel registry digest maker =>
      _ ← remove_from_book registry digest;
      _ ← publish (orders_channel maker)
            (jobj [("type", jstr (str "cancelled")); ("digest", digest_json digest);
                   ("soft", JBool false)]%string);
      publish_market registry
  | SaltWatermark registry maker min_valid_salt =>
      prune_maker_orders registry maker (λ salt, salt <=? min_valid_salt)
  | Withdraw manager token _ => prune_uncovered manager token
  | SignerRemoved manager signer => prune_orders_signed_by manager signer
  | MarketCreated registry _ _ _ _ _ =>
      row ← store.get_enabled_market registry;
      match row with
      | Ok (Some (m, flag)) =>
          _ ← set_paused registry flag;
          _ ← add_market m;
          Ret tt
      | _ => Ret tt
      end
  | MarketPaused registry flag => set_paused registry flag
  | MarketFee registry fee_bps => set_market_fee registry fee_bps
  | Deposit _ _ _ | SignerAdded _ _ | VaultCustody _ _ _ _ => Ret tt
  end.

(** One turn of the consumer task. *)
Definition sync_consumer : prog AppState unit :=
  ev ← sync_recv;
  match ev with
  | FeedEvent ev => handle_sync_event ev
  | FeedLagged _ | FeedEmpty => Ret tt
  end.

(** * Settlement *)

(** The job of an intent, when both orders are found. *)
Definition resolve_job (m : Market) (i : MatchIntent) : prog AppState (option MatchJob) :=
  ask ← store.get_order (ask_digest i);
  bid ← store.get_order (bid_digest i);
  match ask, bid with
  | Ok (Some ask), Ok (Some bid) =>
      ask_vault ← vault_maker_of (maker_manager_id (order (so_signed ask)));
      bid_vault ← vault_maker_of (maker_manager_id (order (so_signed bid)));
      Ret (Some (mkMatchJob i ask bid (base m) (quote m) ask_vault bid_vault))
  | _, _ => Ret None
  end.

Definition rematch_and_enqueue (market_id : SuiAddress) (digest : Digest) : prog AppState unit :=
  found ← book market_id;
  match found with
  | None => Ret tt
  | Some r =>
      m ← market market_id;
      match m with
      | None => Ret tt
      | Some m =>
          intents ← lock r (λ b, rematch b digest);
          for_each (default [] intents) (λ i,
            job ← resolve_job m i;
            match job with
            | Some job => _ ← match_try_send job; Ret tt
            | None => Ret tt
            end)
      end
  end.

(** Prune the involved direct makers of a match. *)
Definition prune_direct_makers (job : MatchJob) (reason : rstring) : prog AppState unit :=
  for_each [(ask job, ask_vault job); (bid job, bid_vault job)] (λ sv,
    match sv.2 with
    | Some _ => prune_manager_orders (maker_manager_id (order (so_signed sv.1))) None reason
    | None => Ret tt
    end).

Definition rematch_both (i : MatchIntent) : prog AppState unit :=
  for_each [ask_digest i; bid_digest i] (rematch_and_enqueue (mi_market i)).

Definition dead_status (reason : DeadReason) : OrderStatus :=
  match reason with
  | DrExpired => EXPIRED
  | DrCancelled => CANCELLED
  | _ => PRUNED
  end.

Definition fill_notice (d : Digest) (base_amount : Z) (tx_digest : rstring) : Value :=
  jobj [("type", jstr (str "fill")); ("digest", digest_json d); ("baseAmount", jdec base_amount);
        ("txDigest", JString tx_digest); ("final", JBool false)]%string.

Definition handle_settle_outcome (job : MatchJob) (outcome : SettleOutcome) : prog AppState unit :=
  let i := intent job in
  found ← book (mi_market i);
  match found with
  | None => Ret tt
  | Some r =>
      let restore drop := lock_ r (λ b, settle_failed b i drop) in
      match outcome with
      | Confirmed tx_digest =>
          _ ← lock_ r (λ b, settle_success b i);
          for_each [(ask_digest i, maker (order (so_signed (ask job))));
                    (bid_digest i, maker (order (so_signed (bid job))))] (λ da,
            publish (orders_channel da.2) (fill_notice da.1 (fill_base_amount i) tx_digest))
      | OrderDead digest reason =>
          _ ← restore [digest];
          _ ← try_set_status digest (dead_status reason);
          let survivor := if bool_decide (digest = ask_digest i) then bid_digest i else ask_digest i in
          rematch_and_enqueue (mi_market i) survivor
      | SoInsufficientEscrow =>
          _ ← restore [];
          _ ← for_each [ask job; bid job] (λ side,
                let o := order (so_signed side) in
                prune_uncovered (maker_manager_id o) (maker_token o));
          rematch_both i
      | VaultEscrowInsufficient ask_side =>
          _ ← restore [];
          let side := if (ask_side : bool) then ask job else bid job in
          let o := order (so_signed side) in
          _ ← prune_manager_orders (maker_manager_id o) (Some (maker_token o))
                (str "vault escrow no longer covers order");
          let survivor := if (ask_side : bool) then bid_digest i else ask_digest i in
          rematch_and_enqueue (mi_market i) survivor
      | VaultQuotingDisabled =>
          _ ← restore [];
          _ ← prune_direct_makers job (str "direct quoting disabled");
          rematch_both i
      | VaultRiskOff =>
          _ ← restore [];
          _ ← prune_direct_makers job (str "vault risk-off");
          rematch_both i
      | SoMarketPaused =>
          _ ← restore [];
          set_paused (mi_market i) true
      | Congested | Stale =>
          _ ← restore [];
          rematch_both i
      | Failed _ => restore []
      end
  end.

(** One turn of the worker; [submit] is the submission of this turn. *)
Definition settlement_worker (submit : MatchJob → SettleOutcome) : prog AppState unit :=
  job ← match_recv;
  match job with
  | Some job => handle_settle_outcome job (submit job)
  | None => Ret tt
  end.

(** Without a relayer key, the receiver drops every job. *)
Definition drain_jobs : prog AppState unit := _ ← match_recv; Ret tt.
End service.
