(* ===== verification/Handlers.v ===== *)
(** [services/orderbook/src/handlers.rs]: the REST handlers.  A reply is a
    JSON value, an API error (status and code; the detail text is not
    modelled), or a panic of the handler's task.  [now] is the server clock
    when the reply is made.  Routing and extraction (axum) are not modelled:
    a handler takes the extracted path, query and body. *)

From S2P Require Import Prelude Prog RustStr ExchangeTypes MoveType Book Crates Signing Repo Intake Db Settlement Router Ladders Json Wire Sync State Service.

Import Code.

Inductive ApiError :=
  | ApiFail (status : Z) (code : rstring)
  | Panic.

#[export] Instance ApiError_eq_dec : EqDecision ApiError.
Proof. solve_decision. Defined.

Definition ApiResult := result ApiError Value.

Definition bad (code : string) : ApiError := ApiFail 400 (str code).
Definition not_found : ApiError := ApiFail 404 (str "NOT_FOUND").
Definition internal : ApiError := ApiFail 500 (str "INTERNAL").

(** [format!("{:?}", code)]. *)
Definition debug_code (c : IntakeErrorCode) : rstring :=
  match c with
  | UnknownMarket => str "UnknownMarket"
  | MarketPaused => str "MarketPaused"
  | TokenMismatch => str "TokenMismatch"
  | ZeroAmount => str "ZeroAmount"
  | AmountRange => str "AmountRange"
  | OffTick => str "OffTick"
  | BelowMinSize => str "BelowMinSize"
  | ExpiryTooSoon => str "ExpiryTooSoon"
  | ExpiryTooFar => str "ExpiryTooFar"
  | SaltNotMonotonic => str "SaltNotMonotonic"
  | SaltVoided => str "SaltVoided"
  | BadSignature => str "BadSignature"
  | SignerNotAuthorized => str "SignerNotAuthorized"
  | InsufficientEscrow => str "InsufficientEscrow"
  | Duplicate => str "Duplicate"
  | Code.Internal => str "Internal"
  end.

Section handlers.
Context `{BcsCrate, CryptoCrates, HexCrate, Base64Crate, DashMapCrate}.

(** [?] on a store call and on an [Option]. *)
Definition db_call {A} (p : prog AppState (result StoreError A)) : prog AppState (result ApiError A) :=
  r ← p; Ret (map_err (λ _, internal) r).
Definition or_else {A} (e : ApiError) (p : prog AppState (option A)) : prog AppState (result ApiError A) :=
  r ← p; Ret (ok_or r e).
Definition pure_result {A} (r : result ApiError A) : prog AppState (result ApiError A) := Ret r.

Definition b64 (s : rstring) : result ApiError (list Z) := ok_or (base64_decode s) (bad "BAD_BASE64").

Definition parse_digest (s : rstring) : result ApiError Digest :=
  map_err (λ _, bad "BAD_DIGEST") (Digest_parse s).
Definition parse_address (s : rstring) : result ApiError SuiAddress :=
  map_err (λ _, bad "BAD_ADDRESS") (SuiAddress_parse s).

(** * Markets, book, trades *)

Definition markets_reply (now : Z) : prog AppState ApiResult :=
  s ← read (λ s, (exchange_package s, whitelist_id s, direct_escrow s));
  ms ← markets_snapshot;
  Ret (Ok (jobj
    [("serverTimeMs", jnum now);
     ("packageId", JString s.1.1);
     ("whitelistId", jopt JString s.1.2);
     ("directEscrow", jopt (λ d, jobj
        [("adapterPackageId", JString (de_adapter_package d));
         ("integrationRegistryId", JString (de_integration_registry_id d))]) s.2);
     ("markets", JArray (Market_serialize <$> ms))]%string)).

Definition default_depth : nat := 20.

Definition book_reply (now : Z) (key : rstring) (depth : nat) : prog AppState ApiResult :=
  m ←? or_else not_found (resolve_market key);
  r ←? or_else internal (book (m_registry_id m));
  views ←? or_else internal (lock r (λ b, (b, snapshot b (depth `min` 200))));
  Ret (Ok (jobj
    [("serverTimeMs", jnum now);
     ("market", addr_json (m_registry_id m));
     ("tickSize", jnum (tick_size m));
     ("lotSize", jnum (lot_size m));
     ("bids", JArray (BookLevel_serialize <$> views.1));
     ("asks", JArray (BookLevel_serialize <$> views.2))]%string)).

(** An [i64] column. *)
Definition ji64 (n : Z) : Value := JNumber (if 0 <=? n then PosInt n else NegInt n).

Definition FillRow_serialize (f : NewFill) : Value :=
  jobj [("txDigest", JString (nf_tx_digest f)); ("eventSeq", ji64 (nf_event_seq f));
        ("digest", digest_json (nf_digest f)); ("registryId", addr_json (nf_registry_id f));
        ("maker", addr_json (nf_maker f)); ("taker", addr_json (nf_taker f));
        ("baseAmount", ji64 (nf_base_amount f)); ("quoteAmount", ji64 (nf_quote_amount f));
        ("makerFee", ji64 (nf_maker_fee f)); ("takerFee", ji64 (nf_taker_fee f));
        ("makerSoldBase", JBool (nf_maker_sold_base f)); ("filledTotal", ji64 (nf_filled_total f));
        ("timestampMs", ji64 (nf_timestamp_ms f))]%string.

Definition trades_reply (now : Z) (key : rstring) : prog AppState ApiResult :=
  m ←? or_else not_found (resolve_market key);
  trades ←? db_call (store.recent_trades (m_registry_id m) 100);
  Ret (Ok (jobj [("serverTimeMs", jnum now); ("trades", JArray (FillRow_serialize <$> trades))]%string)).

(** The vault binding of a direct maker. *)
Definition direct_vault (row : option VaultManagerRow) : option VaultManagerRow :=
  v ← row; if vm_direct v then Some v else None.

Definition order_by_digest (now : Z) (key digest : rstring) : prog AppState ApiResult :=
  m ←? or_else not_found (resolve_market key);
  d ←? Ret (parse_digest digest);
  stored ←? db_call (store.get_order d);
  stored ←? Ret (ok_or stored not_found);
  if negb (bool_decide (registry_id (so_signed stored) = m_registry_id m)) then Ret (Err not_found) else
  row ←? db_call (store.vault_manager (maker_manager_id (order (so_signed stored))));
  Ret (Ok (jobj
    [("serverTimeMs", jnum now);
     ("digest", digest_json d);
     ("status", JString (Repo.as_str (so_status stored)));
     ("filledTaker", jdec (so_filled_taker stored));
     ("order", SignedOrder_serialize (so_signed stored));
     ("vaultMaker", jopt (λ v, jobj
        [("vaultId", addr_json (vm_vault_id v)); ("custodyId", addr_json (vm_custody_id v))])
        (direct_vault row))]%string)).

(** * Order placement *)

Definition outcome_str (o : PlaceOutcome) : rstring :=
  match o with
  | Matched => str "MATCHED"
  | Rested _ => str "OPEN"
  | SelfTradeCancelled => str "SELF_TRADE_CANCELLED"
  end.

(** The loop that resolves intents into jobs; here a failed lookup is an
    error of the request. *)
Fixpoint enqueue_all (m : Market) (intents : list MatchIntent) : prog AppState (result ApiError unit) :=
  match intents with
  | [] => Ret (Ok tt)
  | i :: intents' =>
      ask ←? db_call (store.get_order (ask_digest i));
      bid ←? db_call (store.get_order (bid_digest i));
      match ask, bid with
      | Some ask, Some bid =>
          ask_vault ← vault_maker_of (maker_manager_id (order (so_signed ask)));
          bid_vault ← vault_maker_of (maker_manager_id (order (so_signed bid)));
          _ ← match_send (mkMatchJob i ask bid (base m) (quote m) ask_vault bid_vault);
          enqueue_all m intents'
      | _, _ => enqueue_all m intents'
      end
  end.

(** [clock] is read by the intake, [now] by the reply. *)
Definition place_order (clock now : Z) (signed : SignedOrder) : prog AppState ApiResult :=
  accepted ←? (r ← intake_order signed clock; Ret (map_err (λ c, ApiFail 422 (debug_code c)) r));
  let digest := accepted.1.1 in
  m ←? or_else internal (market (registry_id signed));
  r ←? or_else internal (book (m_registry_id m));
  placed ←? or_else internal (lock r (λ b, place b digest (order signed)));
  placed ←? Ret (map_err (λ _, bad "BOOK_REJECT") placed);
  let '(outcome, intents) := placed in
  _ ←? enqueue_all m intents;
  _ ← publish (orders_channel (maker (order signed)))
        (jobj [("type", jstr (str "ack")); ("digest", digest_json digest);
               ("outcome", JString (outcome_str outcome))]%string);
  _ ← publish_book_snapshot m;
  Ret (Ok (jobj
    [("serverTimeMs", jnum now);
     ("digest", digest_json digest);
     ("status", JString (outcome_str outcome));
     ("matches", jnum (Z.of_nat (length intents)))]%string)).

(** * Soft cancel *)

Definition CANCEL_DOMAIN_TAG : list Z := str "SUI_HYBRID_EXCHANGE_CANCEL".

Record CancelRequest := mkCancelRequest {
  cr_scheme : SignatureScheme;
  cr_signature : rstring;
  cr_public_key : rstring;
}.

Definition cancel_message (d : Digest) : list Z := CANCEL_DOMAIN_TAG ++ digest_bytes d.

Definition cancel_order (now : Z) (digest : rstring) (req : CancelRequest) : prog AppState ApiResult :=
  d ←? Ret (parse_digest digest);
  stored ←? db_call (store.get_order d);
  stored ←? Ret (ok_or stored not_found);
  let so := so_signed stored in
  sig ←? Ret (b64 (cr_signature req));
  pk ←? Ret (b64 (cr_public_key req));
  derived ←? Ret (map_err (λ _, bad "BAD_SIGNATURE")
                   (verify_signature (cr_scheme req) (cancel_message d) sig pk));
  authorized ←? (if bool_decide (derived = maker (order so)) then Ret (Ok true)
                 else db_call (store.is_approved_signer (maker_manager_id (order so)) derived));
  if negb (authorized : bool) then Ret (Err (ApiFail 403 (str "NOT_MAKER"))) else
  _ ←? db_call (store.set_order_status d CANCELLED);
  found ← market (registry_id so);
  _ ← match found with
      | Some m =>
          _ ← remove_from_book (m_registry_id m) d;
          publish_book_snapshot m
      | None => Ret tt
      end;
  _ ← publish (orders_channel (maker (order so)))
        (jobj [("type", jstr (str "cancelled")); ("digest", digest_json d); ("soft", JBool true)]%string);
  let unrestricted := SuiAddress_is_zero (sender (order so)) in
  Ret (Ok (jobj
    [("serverTimeMs", jnum now);
     ("digest", digest_json d);
     ("status", jstr (str "CANCELLED"));
     ("softCancelOnly", JBool true);
     ("stillFillableOnChain", JBool unrestricted);
     ("hint", jstr (if unrestricted then str "sender is unrestricted: hard-cancel on chain for certainty"
                    else str "sender is pinned: only the pinned relayer could settle this"))]%string)).

(** * Accounts *)

Definition account_orders (now : Z) (addr : rstring) : prog AppState ApiResult :=
  a ←? Ret (parse_address addr);
  orders ←? db_call (store.orders_by_account a);
  Ret (Ok (jobj
    [("serverTimeMs", jnum now);
     ("orders", JArray ((λ r : Digest * SignedOrder * OrderStatus * Z,
        jobj [("digest", digest_json r.1.1.1); ("order", SignedOrder_serialize r.1.1.2);
              ("status", JString (Repo.as_str r.1.2)); ("filledTaker", jdec r.2)]) <$> orders))]%string)).

Definition account_fills (now : Z) (addr : rstring) : prog AppState ApiResult :=
  a ←? Ret (parse_address addr);
  fills ←? db_call (store.fills_by_account a);
  Ret (Ok (jobj [("serverTimeMs", jnum now); ("fills", JArray (FillRow_serialize <$> fills))]%string)).

Definition account_balance (now : Z) (addr : rstring) : prog AppState ApiResult :=
  a ←? Ret (parse_address addr);
  balances ←? db_call (store.balances_of a);
  Ret (Ok (jobj
    [("serverTimeMs", jnum now);
     ("manager", addr_json a);
     ("balances", JArray ((λ p : rstring * Z,
        jobj [("token", JString p.1); ("amount", jdec p.2)]) <$> balances))]%string)).

(** * Routes *)

Definition FillLeg_serialize (l : FillLeg) : Value :=
  jobj [("digest", digest_json (leg_digest l)); ("amountIn", jnum (amount_in l))]%string.
Definition PathPlan_serialize (p : PathPlan) : Value :=
  jobj [("tokens", JArray (JString <$> pp_tokens p)); ("markets", JArray (addr_json <$> pp_markets p));
        ("input", jnum (pp_input p)); ("expectedOut", jnum (pp_expected_out p));
        ("hops", JArray ((λ hop, JArray (FillLeg_serialize <$> hop)) <$> pp_hops p))]%string.
Definition RoutePlan_serialize (p : RoutePlan) : Value :=
  jobj [("input", jnum (rp_input p)); ("unrouted", jnum (unrouted p));
        ("expectedOut", jnum (rp_expected_out p)); ("paths", JArray (PathPlan_serialize <$> paths p))]%string.

(** The ladders of every market that has a book; a division by a zero lot
    size panics. *)
Fixpoint all_ladders (ms : list Market) : prog AppState (result ApiError (list HopLadder)) :=
  match ms with
  | [] => Ret (Ok [])
  | m :: ms' =>
      found ← book (m_registry_id m);
      match found with
      | None => all_ladders ms'
      | Some r =>
          l ← lock r (λ b, (b, ladders_for_market m b));
          l ←? Ret (ok_or (default None l) Panic);
          rest ←? all_ladders ms';
          Ret (Ok (l ++ rest))
      end
  end.

(** The command of a leg, before the common fields. *)
Definition leg_command (vault : option VaultManagerRow) (paying_quote : bool)
    (direct : option DirectEscrowIds) : result ApiError (list (string * Value)) :=
  match vault with
  | None => Ok [("command"%string, jstr (if paying_quote then str "fill_limit_order"
                                         else str "fill_limit_order_reverse"))]
  | Some v =>
      d ← ok_or direct internal;
      Ok [("command", jstr (if paying_quote then str "fill_vault_order" else str "fill_vault_order_reverse"));
          ("vaultId", addr_json (vm_vault_id v));
          ("custodyId", addr_json (vm_custody_id v));
          ("integrationRegistryId", JString (de_integration_registry_id d));
          ("adapterPackageId", JString (de_adapter_package d))]%string
  end.

(** The signed orders by digest, and the commands. *)
Definition Tickets : Type := list (rstring * Value) * list Value.

Fixpoint assoc_insert (k : rstring) (v : Value) (m : list (rstring * Value)) : list (rstring * Value) :=
  match m with
  | [] => [(k, v)]
  | (k', v') :: m' => if bool_decide (k' = k) then (k, v) :: m' else (k', v') :: assoc_insert k v m'
  end.

Definition route_leg (m : Market) (hop_from : rstring) (leg : FillLeg) (acc : Tickets)
    : prog AppState (result ApiError Tickets) :=
  stored ←? db_call (store.get_order (leg_digest leg));
  stored ←? Ret (ok_or stored internal);
  row ←? db_call (store.vault_manager (maker_manager_id (order (so_signed stored))));
  cfg ← read (λ s, (direct_escrow s, whitelist_id s));
  cmd ←? Ret (leg_command (direct_vault row) (bool_decide (hop_from = quote m)) cfg.1);
  Ret (Ok (assoc_insert (Digest_to_hex (leg_digest leg)) (SignedOrder_serialize (so_signed stored)) acc.1,
    acc.2 ++ [jobj (app cmd
      [("whitelistId", jopt JString cfg.2);
       ("market", addr_json (m_registry_id m));
       ("typeArgs", JArray [JString (base m); JString (quote m)]);
       ("digest", digest_json (leg_digest leg));
       ("amountIn", jdec (amount_in leg));
       ("minMakerAmountOut", jstr (str "0"))]%string)])).

Fixpoint route_legs (m : Market) (hop_from : rstring) (legs : list FillLeg) (acc : Tickets)
    : prog AppState (result ApiError Tickets) :=
  match legs with
  | [] => Ret (Ok acc)
  | leg :: legs' => acc ←? route_leg m hop_from leg acc; route_legs m hop_from legs' acc
  end.

(** [path.markets[i]] and [path.tokens[i]] panic out of range. *)
Fixpoint route_hops (p : PathPlan) (i : nat) (hops : list (list FillLeg)) (acc : Tickets)
    : prog AppState (result ApiError Tickets) :=
  match hops with
  | [] => Ret (Ok acc)
  | hop :: hops' =>
      market_id ←? Ret (ok_or (pp_markets p !! i) Panic);
      m ←? or_else internal (market market_id);
      hop_from ←? Ret (ok_or (pp_tokens p !! i) Panic);
      acc ←? route_legs m hop_from hop acc;
      route_hops p (S i) hops' acc
  end.

Fixpoint route_paths (ps : list PathPlan) (acc : Tickets) : prog AppState (result ApiError Tickets) :=
  match ps with
  | [] => Ret (Ok acc)
  | p :: ps' => acc ←? route_hops p 0 (pp_hops p) acc; route_paths ps' acc
  end.

Definition routes (now : Z) (from_ to_ : rstring) (amount : Z) : prog AppState ApiResult :=
  from ←? Ret (map_err (λ _, bad "BAD_TOKEN") (canonicalize_move_type from_));
  to ←? Ret (map_err (λ _, bad "BAD_TOKEN") (canonicalize_move_type to_));
  ms ← markets_snapshot;
  ladders ←? all_ladders ms;
  plan ←? Ret (ok_or (plan_route ladders from to amount RouterConfig_default) Panic);
  plan ←? Ret (map_err (λ _, bad "NO_ROUTE") plan);
  tickets ←? route_paths (paths plan) ([], []);
  Ret (Ok (jobj
    [("serverTimeMs", jnum now);
     ("plan", RoutePlan_serialize plan);
     ("orders", JObject tickets.1);
     ("ptbSkeleton", JArray (tickets.2 ++
        [jobj [("command", jstr (str "assert_coin_min"));
               ("typeArgs", JArray [JString to]);
               ("min", jdec (rp_expected_out plan));
               ("note", jstr (str "single strict route min-out; adjust for acceptable slippage"))]]))]%string)).
End handlers.
