(* ===== verification/ServiceInv.v ===== *)
(** The protocol of the service: the invariant its tasks keep over the
    shared state, and the changes they are allowed to make.

    The invariant: the tables are well formed and
    every stored order is priced as its market prices it; every book is consistent and
    is the book of its market, as listed in the tables up to the fee; every
    resting order is a stored order of that market, with the stored maker,
    side and price; every queued job holds the stored orders of an intent
    that pairs a crossing ask and bid of its market; every event waiting in
    the feed has amounts in range. *)

From S2P Require Import Prelude Prog Channel RustStr ExchangeTypes Book BookInv BookOps Repo RepoProps RepoTheorems Db Settlement Sync State BookProps Crates Signing BookTheorems Intake Service.

(** * Tables over time *)

Definition same_market (m m' : Market) : Prop := set_fee 0 m = set_fee 0 m'.

#[export] Instance same_market_equiv : Equivalence same_market.
Proof. unfold same_market. split; red; intros; congruence. Qed.

Record progress (t t' : Tables) : Prop := {
  pr_evolves : evolves t t';
  pr_markets id r : exchange_markets t !! id = Some r →
    ∃ r', exchange_markets t' !! id = Some r' ∧ same_market (row_market r) (row_market r');
}.

#[export] Instance progress_preorder : PreOrder progress.
Proof.
  split.
  - intros t. split; [reflexivity|]. intros id r ->. by exists r.
  - intros t1 t2 t3 [E1 H1] [E2 H2]. split; [by etransitivity|].
    intros id r Hr. destruct (H1 id r Hr) as (r' & Hr' & S1), (H2 id r' Hr') as (r'' & Hr'' & S2).
    exists r''. split; [done|]. by etransitivity.
Qed.

(** What the service does to the store while it runs: anything but
    overwriting a market. *)
Definition runtime_op (op : StoreOp) : Prop :=
  op_wf op ∧ match op with UpsertMarket _ => False | _ => True end.

Lemma update_market_static id f t :
  (∀ r, same_market (row_market r) (row_market (f r))) →
  ∀ id' r, exchange_markets t !! id' = Some r →
    ∃ r', exchange_markets (update_market id f t) !! id' = Some r' ∧ same_market (row_market r) (row_market r').
Proof.
  intros Hf id' r Hr. cbn [update_market set_markets exchange_markets].
  destruct (decide (id' = id)) as [->|Hne].
  - exists (f r). by rewrite lookup_alter_eq, Hr.
  - exists r. by rewrite lookup_alter_ne.
Qed.

Lemma tstep_progress op t : runtime_op op → tables_wf t → progress t (tstep op t).
Proof.
  intros [Hop Hrt] Hwf. split; [by apply tstep_evolves|].
  assert (∀ t', exchange_markets t' = exchange_markets t → ∀ id r, exchange_markets t !! id = Some r →
    ∃ r', exchange_markets t' !! id = Some r' ∧ same_market (row_market r) (row_market r')) as Hsame.
  { intros t' -> id r ->. by exists r. }
  unfold tstep. destruct op; simpl exec; try done.
  - unfold insert_discovered_market. run_sto. destruct (market_row m Discovered) as [row|]; [|exact (Hsame _ eq_refl)].
    destruct (exchange_markets t !! nm_registry_id row) eqn:E; [exact (Hsame _ eq_refl)|].
    intros id r Hr. exists r. cbn [fst tables set_markets exchange_markets].
    rewrite lookup_insert_ne by congruence. done.
  - unfold disable_markets_absent_from. run_sto. intros id r Hr. eexists. cbn [fst tables set_markets exchange_markets].
    rewrite map_lookup_imap, Hr. split; [done|]. by case_match.
  - by apply update_market_static.
  - unfold Repo.set_market_fee. run_sto. destruct (to_i64 fee_bps); [|exact (Hsame _ eq_refl)].
    by apply update_market_static.
  - refine (Hsame _ _). unfold insert_order. run_sto. destruct (new_order _ _ _ _ _); [|done]. by repeat case_bool_decide.
  - exact (Hsame _ eq_refl).
  - rewrite online_void, apply_fill_online. refine (Hsame _ _). unfold record_fill. cbn [fst].
    destruct (has_fill _ t); [done|]. by destruct (advance_order_rest f (set_fills (exchange_fills t ++ [f]) t)) as (-> & _).
  - exact (Hsame _ eq_refl).
  - refine (Hsame _ _). unfold set_signer. run_sto. by destruct approved.
  - exact (Hsame _ eq_refl).
  - refine (Hsame _ _). unfold set_watermark. run_sto. by destruct (to_i64 _).
  - exact (Hsame _ eq_refl).
Qed.

(** No new order. *)
Definition same_orders (t t' : Tables) : Prop := ∀ row', row' ∈ exchange_orders t' →
  ∃ row, row ∈ exchange_orders t ∧ or_values row = or_values row'.

Lemma same_orders_refl t t' : exchange_orders t' = exchange_orders t → same_orders t t'.
Proof. intros E row. rewrite E. by exists row. Qed.

Lemma same_orders_map t t' d f :
  exchange_orders t' = on_digest d f <$> exchange_orders t →
  (∀ r, or_values (f r) = or_values r) → same_orders t t'.
Proof.
  intros E Hf row'. rewrite E. intros (row & -> & Hrow)%list_elem_of_fmap. exists row. split; [done|].
  unfold on_digest. by case_bool_decide.
Qed.

Lemma tstep_same_orders op t :
  tables_wf t → match op with InsertOrder _ _ _ _ _ => False | _ => True end → same_orders t (tstep op t).
Proof.
  intros Hwf Hop. unfold tstep. destruct op; simpl exec; try done; try by apply same_orders_refl.
  - apply same_orders_refl. unfold upsert_market. run_sto. by destruct (market_row m Deployments).
  - apply same_orders_refl. unfold insert_discovered_market. run_sto.
    destruct (market_row m Discovered); [|done]. by destruct (exchange_markets t !! _).
  - apply same_orders_refl. unfold Repo.set_market_fee. run_sto. by destruct (to_i64 _).
  - by eapply same_orders_map.
  - rewrite online_void, apply_fill_online. cbn [fst]. pose proof (record_fill_orders f t Hwf) as E.
    destruct (has_fill _ t); [by apply same_orders_refl|]. by eapply same_orders_map.
  - apply same_orders_refl. unfold set_signer. run_sto. by destruct approved.
  - apply same_orders_refl. unfold set_watermark. run_sto. by destruct (to_i64 _).
Qed.

(** A store computation the service may run, other than the recording of an
    order. *)
Definition tame {A} (m : sto A) : Prop := ∀ st,
  tables_wf (tables st) → tables_wf (tables (m st).1) ∧ progress (tables st) (tables (m st).1) ∧
    same_orders (tables st) (tables (m st).1).

Lemma tame_op {A} (m : sto A) op :
  runtime_op op → match op with InsertOrder _ _ _ _ _ => False | _ => True end →
  (∀ st, tables (m st).1 = tables (exec op st).1) → tame m.
Proof.
  intros Hop Hno Hm st Hwf. rewrite Hm. split; [apply exec_wf; [apply Hop|done]|].
  destruct (exec_tstep op st) as [->| ->]; [split; [reflexivity|by apply same_orders_refl]|].
  split; [by apply tstep_progress|by apply tstep_same_orders].
Qed.

Lemma tame_read {A} (m : sto A) : (∀ st, tables (m st).1 = tables st) → tame m.
Proof. intros Hm st Hwf. rewrite Hm. split_and!; [done|reflexivity|by apply same_orders_refl]. Qed.

Lemma void_fst {A} (m : sto A) st : (void m st).1 = (m st).1.
Proof. unfold void, mbind, sto_bind. by destruct (m st) as [? []]. Qed.

Lemma tame_query {A} (f : Tables → A) : tame (_ ← conn; query f).
Proof. apply tame_read. intros st. apply conn_query. Qed.

(** ** The operations of the service *)

Lemma tame_set_order_status d st : tame (set_order_status d st).
Proof. by apply (tame_op _ (SetStatus d st)). Qed.

Lemma tame_apply_fill f : i64 (nf_filled_total f) → tame (apply_fill f).
Proof. intros Hf. apply (tame_op _ (ApplyFill f)); [done|done|]. intros st. simpl. by rewrite void_fst. Qed.

Lemma tame_apply_balance_delta mgr tok delta : tame (apply_balance_delta mgr tok delta).
Proof. apply (tame_op _ (BalanceDelta mgr tok delta)); [done|done|]. intros st. simpl. by rewrite void_fst. Qed.

Lemma tame_set_signer mgr sg b : tame (set_signer mgr sg b).
Proof. by apply (tame_op _ (SetSigner mgr sg b)). Qed.

Lemma tame_upsert_vault_manager row : tame (upsert_vault_manager row).
Proof. by apply (tame_op _ (UpsertVault row)). Qed.

Lemma tame_set_watermark r mk salt : u64 salt → tame (set_watermark r mk salt).
Proof. intros. by apply (tame_op _ (SetWatermark r mk salt)). Qed.

Lemma tame_insert_discovered m : market_wf m → tame (insert_discovered_market m).
Proof. intros. apply (tame_op _ (InsertDiscovered m)); [done|done|]. intros st. simpl. by rewrite void_fst. Qed.

Lemma tame_set_market_paused id b : tame (Repo.set_market_paused id b).
Proof. by apply (tame_op _ (SetPaused id b)). Qed.

Lemma tame_set_market_fee id fee : u64 fee → tame (Repo.set_market_fee id fee).
Proof. intros. by apply (tame_op _ (SetFee id fee)). Qed.

Lemma tame_save_cursor n c : tame (save_cursor n c).
Proof. by apply (tame_op _ (SaveCursor n c)). Qed.

Lemma tame_get_enabled_market id : tame (get_enabled_market id).
Proof.
  apply tame_read. intros st. unfold get_enabled_market, enabled_markets, mbind, sto_bind, conn, query.
  destruct st as [t [|[] p]]; done.
Qed.

(** * Prices

    Every stored order is on the side and at the price that the grid of its
    market gives it. *)

Definition priced (t : Tables) : Prop := ∀ row r,
  row ∈ exchange_orders t → exchange_markets t !! no_registry_id (or_values row) = Some r →
  ∃ n, price_and_size (row_market r) (order (no_order_json (or_values row))) =
    Ok (no_side (or_values row), no_price_ticks (or_values row), n).

(** What a market's price depends on. *)
Record same_grid (m m' : Market) : Prop := {
  sg_base : base m' = base m;
  sg_quote : quote m' = quote m;
  sg_tick : tick_size m' = tick_size m;
  sg_min : min_size m' = min_size m;
  sg_lot : lot_size m' = lot_size m;
}.

Lemma price_and_size_grid m m' o : same_grid m m' → price_and_size m' o = price_and_size m o.
Proof. intros [E1 E2 E3 E4 E5]. unfold price_and_size, side_of. by rewrite E1, E2, E3, E4, E5. Qed.

Lemma same_market_grid m m' : same_market m m' → same_grid m m'.
Proof.
  intros E. split; [pose proof (f_equal base E)|pose proof (f_equal quote E)|pose proof (f_equal tick_size E)|
    pose proof (f_equal min_size E)|pose proof (f_equal lot_size E)]; by simpl in *.
Qed.

Lemma price_and_size_fee m m' o : same_market m m' → price_and_size m' o = price_and_size m o.
Proof. intros. by apply price_and_size_grid, same_market_grid. Qed.

Lemma priced_later t t' : tables_wf t → progress t t' → same_orders t t' → priced t → priced t'.
Proof.
  intros Hwf Hp Ho Hpr row' r' Hrow' Hr'. destruct (Ho row' Hrow') as (row & Hrow & E). rewrite <- E in *.
  destruct (tw_market _ Hwf row Hrow) as [r Hr]. destruct (pr_markets _ _ Hp _ r Hr) as (r2 & Hr2 & Hs).
  simplify_eq. destruct (Hpr row r Hrow Hr) as [n Hn]. exists n. rewrite <- Hn. by apply price_and_size_fee.
Qed.

(** * The protocol *)

(** A stored order: the row, as far as it never changes. *)
Definition is_stored (t : Tables) (d : Digest) (so : StoredOrder) : Prop :=
  so_digest so = d ∧ ∃ row, order_row d t = Some row ∧ so_signed so = no_order_json (or_values row) ∧
    so_side so = no_side (or_values row) ∧ so_price_ticks so = no_price_ticks (or_values row).

(** An order of market [id]: its side and price. *)
Definition known (t : Tables) (id : SuiAddress) (d : Digest) (s : Side) (p : Z) : Prop :=
  ∃ row, order_row d t = Some row ∧ no_registry_id (or_values row) = id ∧
    no_side (or_values row) = s ∧ no_price_ticks (or_values row) = p.

(** A resting order is a stored order of the market. *)
Definition filed (t : Tables) (id : SuiAddress) (o : RestingOrder) : Prop :=
  known t id (ro_digest o) (ro_side o) (ro_price_ticks o) ∧
  ∃ row, order_row (ro_digest o) t = Some row ∧ no_maker (or_values row) = ro_maker o.

Definition job_ok (t : Tables) (job : MatchJob) : Prop :=
  let i := intent job in
  is_stored t (ask_digest i) (ask job) ∧ is_stored t (bid_digest i) (bid job) ∧
  intent_ok (mi_market i) (known t (mi_market i)) i.

(** The amounts of an event are [u64]. *)
Definition ev_wf (ev : ExchangeEvent) : Prop :=
  match ev with
  | Fill _ _ _ _ b q mf tf _ total ts => u64 b ∧ u64 q ∧ u64 mf ∧ u64 tf ∧ u64 total ∧ u64 ts
  | SaltWatermark _ _ salt => u64 salt
  | Deposit _ _ amount | Withdraw _ _ amount => u64 amount
  | MarketCreated _ _ _ tick min fee => u64 tick ∧ u64 min ∧ u64 fee
  | MarketFee _ fee => u64 fee
  | _ => True
  end.

Definition listed (t : Tables) (id : SuiAddress) (m : Market) : Prop :=
  m_registry_id m = id ∧ market_wf m ∧
  ∃ r, exchange_markets t !! id = Some r ∧ same_market m (row_market r).

Record book_served (t : Tables) (id : SuiAddress) (b : Book) : Prop := {
  bs_ok : book_ok b;
  bs_listed : listed t id (Book.market b);
  bs_filed d o : get b d = Some o → filed t id o;
}.

Record app_inv (s : AppState) : Prop := {
  ai_tables : tables_wf (tables_of s);
  ai_priced : priced (tables_of s);
  ai_books id b : books s !! id = Some b → book_served (tables_of s) id b;
  ai_markets id m : markets s !! id = Some m → listed (tables_of s) id m ∧ is_Some (books s !! id);
  ai_jobs job : job ∈ q_jobs (match_tx s) ++ q_waiting (match_tx s) → job_ok (tables_of s) job;
  ai_queue : (length (q_jobs (match_tx s)) ≤ queue_capacity)%nat;
  ai_feed ev : ev ∈ fd_events (sync_feed s) → ev_wf ev;
}.

(** Tables advance; a book stays the book of the same market; a market
    stays listed. *)
Record app_later (s s' : AppState) : Prop := {
  al_tables : progress (tables_of s) (tables_of s');
  al_books id b : books s !! id = Some b → ∃ b', books s' !! id = Some b' ∧ Book.market b' = Book.market b;
  al_markets id : is_Some (markets s !! id) → is_Some (markets s' !! id);
}.

#[export] Instance app_later_preorder : PreOrder app_later.
Proof.
  split.
  - intros s. split; [reflexivity|by eauto|done].
  - intros s1 s2 s3 [T1 B1 M1] [T2 B2 M2]. split; [by etransitivity| |auto].
    intros id b Hb. destruct (B1 id b Hb) as (b' & Hb' & E1), (B2 id b' Hb') as (b'' & Hb'' & E2).
    exists b''. split; [done|congruence].
Qed.

#[export] Instance app_protocol : Protocol AppState := {| inv := app_inv; later := app_later |}.

(** ** What stays true as the tables advance *)

Section over_time.
Context {t t' : Tables} (Hp : progress t t').

Lemma row_later d row :
  order_row d t = Some row → ∃ row', order_row d t' = Some row' ∧ or_values row' = or_values row.
Proof. intros Hr. destruct (ev_orders _ _ (pr_evolves _ _ Hp) d row Hr) as (row' & ? & ? & _). eauto. Qed.

Lemma is_stored_later d so : is_stored t d so → is_stored t' d so.
Proof.
  intros (Hd & row & Hr & ? & ? & ?). split; [done|].
  destruct (row_later d row Hr) as (row' & Hr' & E). exists row'. by rewrite E.
Qed.

Lemma known_later id d s p : known t id d s p → known t' id d s p.
Proof.
  intros (row & Hr & ? & ? & ?). destruct (row_later d row Hr) as (row' & Hr' & E).
  exists row'. by rewrite E.
Qed.

Lemma filed_later id o : filed t id o → filed t' id o.
Proof.
  intros [Hk (row & Hr & Hm)]. split; [by apply known_later|].
  destruct (row_later _ row Hr) as (row' & Hr' & E). exists row'. by rewrite E.
Qed.

Lemma intent_ok_later mkt id i : intent_ok mkt (known t id) i → intent_ok mkt (known t' id) i.
Proof.
  intros (? & ? & pa & pb & Ha & Hb & ?). split; [done|]. split; [done|].
  exists pa, pb. split; [by apply known_later|]. split; [by apply known_later|done].
Qed.

Lemma job_ok_later job : job_ok t job → job_ok t' job.
Proof. intros (? & ? & ?). split_and!; [by apply is_stored_later..|by apply intent_ok_later]. Qed.

Lemma listed_later id m : listed t id m → listed t' id m.
Proof.
  intros (? & ? & r & Hr & Hs). split_and!; [done..|].
  destruct (pr_markets _ _ Hp id r Hr) as (r' & Hr' & Hs'). exists r'. split; [done|]. by etransitivity.
Qed.

Lemma book_served_later id b : book_served t id b → book_served t' id b.
Proof. intros [? ? ?]. split; [done|by apply listed_later|]. intros d o Ho. apply filed_later. eauto. Qed.
End over_time.

(** What a program promises whatever the others do. *)
Notation "'ensures' p Q" := (triple (λ _, True) p Q) (at level 10, p at level 9, Q at level 9).
Notation "'follows' p" := (triple (λ _, True) p (λ _ _, True)) (at level 10, p at level 9).

Lemma stable_True : stable (S := AppState) (λ _, True).
Proof. done. Qed.

Lemma stable_tables (P : Tables → Prop) :
  (∀ t t', progress t t' → P t → P t') → stable (λ s : AppState, P (tables_of s)).
Proof. intros HP s s' Hs [Ht _ _] _. by eapply HP. Qed.

Lemma later_tables (s s' : AppState) : later s s' → progress (tables_of s) (tables_of s').
Proof. by intros []. Qed.

#[export] Hint Resolve stable_True : rust.

(** [triple_bind] from nothing, keeping only what the continuation needs. *)
Lemma follows_bind {A B} (p : prog AppState A) (h : A → prog AppState B) (Q : A → AppState → Prop) :
  ensures p Q → (∀ a, triple (Q a) (h a) (λ _ _, True)) → follows (prog_bind h p).
Proof. intros Hp Hh. eapply triple_bind; [exact Hp|exact Hh]. Qed.

Lemma follows_seq {A B} (p : prog AppState A) (h : A → prog AppState B) :
  follows p → (∀ a, follows (h a)) → follows (prog_bind h p).
Proof. intros Hp Hh. eapply follows_bind; [exact Hp|]. exact Hh. Qed.

Lemma triple_follows {A} (P : AppState → Prop) (p : prog AppState A) (Q : A → AppState → Prop) :
  triple P p Q → triple P p (λ _ _, True).
Proof. intros Hp. by eapply triple_weaken. Qed.

Lemma follows_pre {A} (P : AppState → Prop) (p : prog AppState A) : follows p → triple P p (λ _ _, True).
Proof. intros Hp. by eapply triple_pre. Qed.

Lemma follows_ret {A} (a : A) : follows (Ret (S := AppState) a).
Proof. by apply triple_ret. Qed.

Lemma follows_for_each {X} (l : list X) (f : X → prog AppState unit) :
  (∀ x, x ∈ l → follows (f x)) → follows (for_each l f).
Proof. apply triple_for_each. Qed.

(** A stable fact stays through a program. *)
Lemma ensures_frame {A} (P : AppState → Prop) (p : prog AppState A) (Q : A → AppState → Prop) :
  stable P → ensures p Q → triple P p (λ a s, Q a s ∧ P s).
Proof.
  intros HP Hp. eapply triple_pre; [by apply triple_frame|]. intros s _ Hs. by split.
Qed.

Lemma follows_frame {A} (P : AppState → Prop) (p : prog AppState A) :
  stable P → follows p → triple P p (λ _, P).
Proof. intros HP Hp. eapply triple_weaken; [by apply (ensures_frame P)|done|]. by intros a s _ [_ ?]. Qed.

(** * Actions *)

Lemma app_step s s' :
  app_inv s → tables_of s' = tables_of s →
  (∀ id b', books s' !! id = Some b' →
     book_served (tables_of s) id b' ∧ (books s !! id = None ∨ ∃ b, books s !! id = Some b ∧ Book.market b' = Book.market b)) →
  (∀ id, is_Some (books s !! id) → is_Some (books s' !! id)) →
  (∀ id m, markets s' !! id = Some m → listed (tables_of s) id m ∧ is_Some (books s' !! id)) →
  (∀ id, is_Some (markets s !! id) → is_Some (markets s' !! id)) →
  (∀ job, job ∈ q_jobs (match_tx s') ++ q_waiting (match_tx s') → job_ok (tables_of s) job) →
  (length (q_jobs (match_tx s')) ≤ queue_capacity)%nat →
  (∀ ev, ev ∈ fd_events (sync_feed s') → ev_wf ev) →
  app_inv s' ∧ app_later s s'.
Proof.
  intros Hinv Ht Hb Hb' Hm Hm' Hj Hq Hf. split.
  - split; rewrite ?Ht; try done; [apply Hinv..|]. intros id b Hid. by apply Hb.
  - split; [by rewrite Ht| |done].
    intros id b Hid. destruct (Hb' id) as [b' Hid']; [eauto|]. exists b'. split; [done|].
    destruct (Hb id b' Hid') as [_ [?|(b0 & ? & E)]]; congruence.
Qed.

(** A change of the maps or channels that leaves books and markets alone. *)
Lemma app_step_channels s s' :
  app_inv s → tables_of s' = tables_of s → books s' = books s → markets s' = markets s →
  (∀ job, job ∈ q_jobs (match_tx s') ++ q_waiting (match_tx s') → job_ok (tables_of s) job) →
  (length (q_jobs (match_tx s')) ≤ queue_capacity)%nat →
  (∀ ev, ev ∈ fd_events (sync_feed s') → ev_wf ev) →
  app_inv s' ∧ app_later s s'.
Proof.
  intros Hinv Ht Hb Hm Hj Hq Hf. apply app_step; rewrite ?Hb, ?Hm; try done.
  - intros id b Hid. split; [by apply Hinv|]. right. by exists b.
  - apply Hinv.
Qed.

Lemma app_step_store s st :
  app_inv s → tables_wf (tables st) → progress (tables_of s) (tables st) → priced (tables st) →
  app_inv (set_app_db st s) ∧ app_later s (set_app_db st s).
Proof.
  intros Hs Hwf Hp Hpr. split.
  - split; cbn; [done|done| | | | |].
    + intros id b Hb. eapply book_served_later; [exact Hp|]. by apply Hs.
    + intros id m Hm. destruct (ai_markets s Hs id m Hm). split; [by eapply listed_later|done].
    + intros job Hj. eapply job_ok_later; [exact Hp|]. by apply Hs.
    + apply Hs.
    + apply Hs.
  - split; cbn; [exact Hp|by eauto|done].
Qed.

(** A store call, made with a stable fact about the tables. *)
Lemma triple_store {A} (P : Tables → Prop) (m : sto A) (Q : result StoreError A → Tables → Prop) :
  stable (λ s : AppState, P (tables_of s)) →
  (∀ st, tables_wf (tables st) → priced (tables st) → P (tables st) →
     let '(st', r) := m st in
     tables_wf (tables st') ∧ progress (tables st) (tables st') ∧ priced (tables st') ∧ Q r (tables st')) →
  triple (λ s, P (tables_of s)) (db m) (λ r s, Q r (tables_of s)).
Proof.
  intros HP Hm. apply triple_act; [exact HP|]. intros s Hs Hps.
  specialize (Hm (app_db s) (ai_tables s Hs) (ai_priced s Hs) Hps).
  unfold blocking. cbn [get_store put_store app_has_store]. destruct (m (app_db s)) as [st r].
  destruct Hm as (Hwf & Hp & Hpr & HQ). cbn [fst snd].
  destruct (app_step_store s st Hs Hwf Hp Hpr). by split_and!.
Qed.

Lemma ensures_store {A} (m : sto A) (Q : result StoreError A → Tables → Prop) :
  tame m → (∀ st, tables_wf (tables st) → Q (m st).2 (tables (m st).1)) →
  ensures (db m) (λ r s, Q r (tables_of s)).
Proof.
  intros Hm HQ. apply (triple_store (λ _, True)); [done|]. intros st Hwf Hpr _.
  destruct (Hm st Hwf) as (? & ? & ?). specialize (HQ st Hwf). destruct (m st) as [st' r].
  split_and!; [done|done|by apply (priced_later (tables st))|done].
Qed.

Lemma follows_store {A} (m : sto A) : tame m → follows (db m).
Proof. intros Hm. by apply (ensures_store m (λ _ _, True)). Qed.

Lemma follows_query {A} (f : Tables → A) : follows (db (_ ← conn; query f)).
Proof. apply follows_store, tame_query. Qed.

(** What a query returns. *)
Lemma ensures_query {A} (f : Tables → A) (Q : A → Tables → Prop) :
  (∀ t, tables_wf t → Q (f t) t) →
  ensures (db (_ ← conn; query f)) (λ r s, match r with Ok a => Q a (tables_of s) | Err _ => True end).
Proof.
  intros HQ. apply (ensures_store _ (λ r t, match r with Ok a => Q a t | Err _ => True end)); [apply tame_query|].
  intros st Hwf. destruct (conn_query f st) as [-> Hr]. destruct (_ st).2; [subst; by apply HQ|done].
Qed.

(** A resting order of a served book is a known order of its market. *)
Lemma served_known t id b d o :
  book_served t id b → Book.get b d = Some o → known t id d (ro_side o) (ro_price_ticks o).
Proof.
  intros Hb Ho. destruct (bs_filed _ _ _ Hb d o Ho) as [Hkn _].
  destruct (get_filed (bs_ok _ _ _ Hb) _ _ Ho) as (_ & <- & _). exact Hkn.
Qed.

Lemma served_keeps t id b b' : book_served t id b → keeps b b' → book_served t id b'.
Proof.
  intros [Hok Hl Hf] [Hok' Hm Hg]. split; [done|by rewrite Hm|].
  intros d o' Ho'. destruct (Hg d o' Ho') as (o & Ho & E1 & E2 & E3 & E4).
  destruct (Hf d o Ho) as (Hk & row & Hr & Hmk). unfold filed. rewrite E1, E2, E3, E4. split; [done|]. by exists row.
Qed.

(** The intents of a list pair known orders. *)
Definition intents_ok (t : Tables) (ints : list MatchIntent) : Prop :=
  ∀ i, i ∈ ints → intent_ok (mi_market i) (known t (mi_market i)) i.

(** Placing a stored order in the book of its market. *)
Lemma place_served t id b d o side ticks n :
  book_served t id b → order_wf o → price_and_size (Book.market b) o = Ok (side, ticks, n) →
  known t id d side ticks → (∃ row, order_row d t = Some row ∧ no_maker (or_values row) = maker o) →
  let '(b', res) := place b d o in
  book_served t id b' ∧ Book.market b' = Book.market b ∧
  ∀ out ints, res = Ok (out, ints) → intents_ok t ints.
Proof.
  intros Hb Ho Hps Hk (row & Hrow & Hmk). pose proof (bs_listed _ _ _ Hb) as (Hid & _).
  pose proof (place_keeps (bs_ok _ _ _ Hb) (known t id) (λ d' o', served_known _ _ _ d' o' Hb) d o Ho) as Hp.
  destruct (place b d o) as [b' res].
  destruct Hp as (Hok & Hm & Hfiled & Hints); [intros s' ticks' n'; rewrite Hps; by intros [= <- <- <-]|].
  split_and!; [|done|].
  - split; [done|rewrite Hm; apply Hb|]. intros d' o' Ho'.
    destruct (Hfiled d' o' Ho') as [(o1 & Hget & E1 & E2 & E3 & E4)|(-> & E1 & E2 & n' & E3)].
    + destruct (bs_filed _ _ _ Hb _ _ Hget) as (Hk' & Hmk'). unfold filed. by rewrite E1, E2, E3, E4.
    + rewrite Hps in E3. injection E3 as -> -> _. unfold filed. rewrite E1, E2. split; [done|]. by exists row.
  - intros out ints -> i Hi. destruct (Hints i Hi) as (Em & ? & ?).
    rewrite Em, Hid. split; [congruence|done].
Qed.

(** A critical section, entered with a stable fact about the tables. *)
Lemma triple_lock {A} (P : Tables → Prop) (r : BookRef) (f : Book → Book * A) (Q : option A → Tables → Prop) :
  stable (λ s : AppState, P (tables_of s)) →
  (∀ t b, tables_wf t → P t → book_served t r b →
     book_served t r (f b).1 ∧ Book.market (f b).1 = Book.market b ∧ Q (Some (f b).2) t) →
  (∀ t, Q None t) →
  triple (λ s, P (tables_of s)) (lock r f) (λ a s, Q a (tables_of s)).
Proof.
  intros HP Hf HN. apply triple_act; [exact HP|]. intros s Hs Hps.
  destruct (books s !! r) as [b|] eqn:Hb; [|by split_and!].
  destruct (Hf (tables_of s) b (ai_tables s Hs) Hps (ai_books s Hs r b Hb)) as (Hb' & Hm & HQ).
  destruct (f b) as [b' a]. cbn [fst snd] in *.
  assert (app_inv (set_app_books (<[r:=b']> (books s)) s) ∧
    app_later s (set_app_books (<[r:=b']> (books s)) s)) as [? ?]; [|by split_and!].
  apply app_step; cbn [books markets match_tx sync_feed set_app_books]; try by (apply Hs || done).
  - intros id b0. rewrite lookup_insert_Some. intros [[<- <-]|[Hne Hid]].
    + split; [done|]. right. by exists b.
    + split; [by apply Hs|]. right. by exists b0.
  - intros id. rewrite lookup_insert_is_Some. destruct (decide (r = id)); auto.
  - intros id m Hid. destruct (ai_markets s Hs id m Hid). split; [done|].
    rewrite lookup_insert_is_Some. destruct (decide (r = id)); auto.
Qed.

Lemma ensures_lock {A} (r : BookRef) (f : Book → Book * A) (Q : option A → Tables → Prop) :
  (∀ t b, tables_wf t → book_served t r b →
     book_served t r (f b).1 ∧ Book.market (f b).1 = Book.market b ∧ Q (Some (f b).2) t) →
  (∀ t, Q None t) →
  ensures (lock r f) (λ a s, Q a (tables_of s)).
Proof. intros Hf HN. apply (triple_lock (λ _, True)); [done| |done]. intros t b Ht _. by apply Hf. Qed.

Lemma follows_lock_ (r : BookRef) (f : Book → Book) :
  (∀ b, book_ok b → keeps b (f b)) → follows (lock_ r f).
Proof.
  intros Hf. apply follows_seq; [|intros; apply follows_ret].
  apply (ensures_lock r _ (λ _ _, True)); [|done].
  intros t b _ Hb. cbn [fst snd]. pose proof (Hf b (bs_ok _ _ _ Hb)) as Hk.
  split_and!; [by eapply served_keeps|apply Hk|done].
Qed.

(** Reading a book inside the lock. *)
Lemma follows_lock_view {A} (r : BookRef) (f : Book → A) : follows (lock r (λ b, (b, f b))).
Proof. by apply (ensures_lock r _ (λ _ _, True)). Qed.

Lemma follows_read {A} (f : AppState → A) : follows (read f).
Proof. by apply triple_read. Qed.

Lemma follows_modify (f : AppState → AppState) :
  (∀ s, app_inv s → app_inv (f s) ∧ app_later s (f s)) → follows (modify f).
Proof. intros Hf. apply triple_modify; [done|]. intros s Hs _. destruct (Hf s Hs). by split_and!. Qed.

Lemma follows_set_paused id flag : follows (set_paused id flag).
Proof. apply follows_modify. intros s Hs. apply app_step_channels; try done; apply Hs. Qed.

Lemma follows_publish chan v : follows (publish chan v).
Proof. apply follows_modify. intros s Hs. apply app_step_channels; try done; apply Hs. Qed.

Lemma listed_fee t id m fee : u64 fee → listed t id m → listed t id (set_fee fee m).
Proof.
  intros Hfee (Hid & (? & ? & ? & _) & r & Hr & Hs). split_and!; [done|by split_and!|].
  exists r. split; [done|]. exact Hs.
Qed.

Lemma follows_set_market_fee id fee : u64 fee → follows (State.set_market_fee id fee).
Proof.
  intros Hfee. apply follows_modify. intros s Hs.
  apply app_step; cbn [books markets match_tx sync_feed set_app_markets]; try by (apply Hs || done).
  - intros id' b Hb. split; [by apply Hs|]. right. by exists b.
  - intros id' m. destruct (decide (id' = id)) as [->|].
    + rewrite lookup_alter_eq. intros (m0 & Hm0 & ->)%fmap_Some. destruct (ai_markets s Hs id m0 Hm0).
      split; [by apply listed_fee|done].
    + rewrite lookup_alter_ne by done. apply Hs.
  - intros id' Hid'. by rewrite lookup_alter_is_Some.
Qed.

Lemma Book_new_served t id m : listed t id m → book_served t id (Book_new m).
Proof. intros Hm. split; [apply Book_new_ok|done|]. intros d o. by unfold get. Qed.

Lemma triple_add_market (m : Market) :
  triple (λ s, listed (tables_of s) (m_registry_id m) m) (add_market m) (λ _ _, True).
Proof.
  assert (stable (λ s : AppState, listed (tables_of s) (m_registry_id m) m)) as Hst.
  { apply (stable_tables (λ t, listed t (m_registry_id m) m)). intros t t' Hp. by apply listed_later. }
  unfold add_market. eapply triple_bind; [apply (follows_frame _ _ Hst), follows_read|].
  intros known. cbv beta. destruct known; [by apply triple_ret|].
  eapply triple_bind; [eapply (triple_modify _ _ (λ s, listed (tables_of s) (m_registry_id m) m ∧
    is_Some (books s !! m_registry_id m))); [exact Hst|]|].
  - intros s Hs Hm. destruct (books s !! m_registry_id m) as [b|] eqn:Hb; [by split_and!; eauto|].
    set (s' := set_app_books _ s). assert (app_inv s' ∧ app_later s s') as [? ?].
    { apply app_step; cbn [books markets match_tx sync_feed set_app_books s']; try by (apply Hs || done).
      - intros id b'. rewrite lookup_insert_Some. intros [[<- <-]|[Hne Hid]].
        + split; [by apply Book_new_served|by left].
        + split; [by apply Hs|]. right. by exists b'.
      - intros id. rewrite lookup_insert_is_Some. destruct (decide (m_registry_id m = id)); auto.
      - intros id m' Hid. destruct (ai_markets s Hs id m' Hid). split; [done|].
        rewrite lookup_insert_is_Some. destruct (decide (m_registry_id m = id)); auto. }
    split_and!; [done..|]. cbn. rewrite lookup_insert_eq. eauto.
  - intros []. cbv beta. eapply triple_bind; [apply (triple_modify _ _ (λ _, True))|by intros ?; apply triple_ret].
    + intros s s' [Hl [b Hb]] Hs Hs'. split; [by apply (Hst s)|].
      destruct (al_books _ _ Hs _ b Hb) as (b' & -> & _). eauto.
    + intros s Hs [Hl Hb]. set (s' := set_app_markets _ s).
      assert (app_inv s' ∧ app_later s s') as [? ?]; [|by split_and!].
      apply app_step; cbn [books markets match_tx sync_feed set_app_markets s']; try by (apply Hs || done).
      * intros id b' Hid. split; [by apply Hs|]. right. by exists b'.
      * intros id m'. rewrite lookup_insert_Some. intros [[<- <-]|[Hne Hid]]; [by split|by apply Hs].
      * intros id. rewrite lookup_insert_is_Some. destruct (decide (m_registry_id m = id)); auto.
Qed.
