(* ===== verification/ServiceTasks.v ===== *)
(** Every program of the service follows the protocol: the handlers, the
    consumer, the settlement worker, and the tasks they make up. *)

From S2P Require Import Prelude Prog Channel RustStr ExchangeTypes Book BookInv BookProps BookOps Crates Signing Repo RepoProps RepoTheorems Intake Db Settlement Sync State Service ServiceInv MoveType IntakeTheorems Router Ladders Json Wire Handlers.
From S2P Require Events Discovery.

(** * Store calls *)

Lemma follows_get_order d : follows (store.get_order d).
Proof. exact (follows_query _). Qed.
Lemma follows_balance mgr tok : follows (store.balance mgr tok).
Proof. exact (follows_query _). Qed.
Lemma follows_open_commitment mgr tok : follows (store.open_commitment mgr tok).
Proof. exact (follows_query _). Qed.
Lemma follows_open_orders_by_manager mgr : follows (store.open_orders_by_manager mgr).
Proof. exact (follows_query _). Qed.
Lemma follows_vault_manager mgr : follows (store.vault_manager mgr).
Proof. exact (follows_query _). Qed.
Lemma follows_set_order_status d st : follows (store.set_order_status d st).
Proof. apply follows_store, tame_set_order_status. Qed.

(** A stored row as [get_order] returns it. *)
Lemma stored_order_is_stored t d row :
  tables_wf t → order_row d t = Some row → is_stored t d (stored_order row).
Proof.
  intros Hwf Hr. pose proof Hr as Hr0. apply order_row_iff in Hr as [Hin <-]; [|done].
  destruct (tw_values _ Hwf row Hin) as [(_ & _ & _ & _ & _ & _ & _ & _ & _ & Hp & _) _].
  split; [done|]. exists row. split_and!; [done..|]. simpl. by apply in_i64_as_u64.
Qed.

Lemma ensures_get_order d :
  ensures (store.get_order d)
    (λ r s, match r with Ok (Some so) => is_stored (tables_of s) d so | _ => True end).
Proof.
  eapply triple_weaken; [apply (ensures_query _ (λ o t, match o with Some so => is_stored t d so | None => True end))| |].
  - intros t Hwf. destruct (order_row d t) as [row|] eqn:Hr; [|done]. by apply stored_order_is_stored.
  - done.
  - intros [[so|]|] s _; done.
Qed.

Lemma row_market_wf row id :
  market_values_ok id (mr_values row) → market_wf (row_market row) ∧ m_registry_id (row_market row) = id.
Proof.
  intros (Hid & H1 & H2 & H3 & H4). unfold market_wf, row_market. simpl.
  rewrite !in_i64_as_u64 by done. split_and!; try done; by apply in_i64_u64.
Qed.

(** An enabled market is listed. *)
Lemma enabled_listed st m p ms :
  tables_wf (tables st) → (enabled_markets st).2 = Ok ms → (m, p) ∈ ms →
  listed (tables st) (m_registry_id m) m.
Proof.
  intros Hwf. unfold enabled_markets, mbind, sto_bind, conn, query. destruct st as [t [|[] pl]]; cbn [tables snd];
    [| |done].
  all: intros [= <-] (row & [= -> ->] & Hin)%list_elem_of_fmap.
  all: apply elem_of_sort_by, elem_of_bfilter in Hin as [Hin _].
  all: apply list_elem_of_fmap in Hin as ([id' row'] & -> & Hrow%elem_of_map_to_list); cbn [fst snd tables] in *.
  all: destruct (row_market_wf row' id') as [Hwfm Hreg]; [by apply (tw_markets _ Hwf)|].
  all: split; [done|]; split; [done|]; exists row'; by rewrite Hreg.
Qed.

Lemma ensures_get_enabled_market id :
  ensures (store.get_enabled_market id)
    (λ r s, match r with Ok (Some (m, _)) => listed (tables_of s) id m | _ => True end).
Proof.
  apply (ensures_store _ (λ r t, match r with Ok (Some (m, _)) => listed t id m | _ => True end));
    [apply tame_get_enabled_market|].
  intros st Hwf. unfold get_enabled_market, mbind, sto_bind.
  pose proof (enabled_listed st) as He. assert (tables (enabled_markets st).1 = tables st) as Ht by apply conn_query.
  destruct (enabled_markets st) as [st' [ms|e]]; cbn [fst snd] in *; [|done].
  destruct (List.find _ ms) as [[m p]|] eqn:E; [|done].
  apply bfind_Some in E as (l1 & l2 & -> & Hid & _). apply bool_decide_eq_true in Hid as <-.
  cbn [mret sto_ret fst snd]. rewrite Ht. eapply (He m p); [done|done|set_solver].
Qed.

(** * Programs *)

Ltac follow1 :=
  lazymatch goal with
  | |- triple _ (Ret _) _ => apply follows_ret
  | |- triple _ (publish _ _) _ => apply follows_publish
  | |- triple _ (set_paused _ _) _ => apply follows_set_paused
  | |- triple _ (book _) _ => apply follows_read
  | |- triple _ (market _) _ => apply follows_read
  | |- triple _ (read _) _ => apply follows_read
  | |- triple _ (lock _ (λ b, (b, _))) _ => apply follows_lock_view
  | |- triple _ (store.get_order _) _ => apply follows_get_order
  | |- triple _ (store.balance _ _) _ => apply follows_balance
  | |- triple _ (store.open_commitment _ _) _ => apply follows_open_commitment
  | |- triple _ (store.open_orders_by_manager _) _ => apply follows_open_orders_by_manager
  | |- triple _ (store.vault_manager _) _ => apply follows_vault_manager
  | |- triple _ (store.set_order_status _ _) _ => apply follows_set_order_status
  | |- triple _ (for_each _ _) _ => apply follows_for_each; intros ? ?
  | |- triple _ (mbind _ _) _ => apply follows_seq; [|intros ?]
  | |- triple _ (prog_try _ _) _ => apply follows_seq; [|intros [?|?]; [|apply follows_ret]]
  | |- triple _ (match ?x with _ => _ end) _ => destruct x
  | |- triple _ (if ?x then _ else _) _ => destruct x
  | |- triple _ (let '_ := ?x in _) _ => destruct x
  | |- triple _ _ _ => solve [eauto 2 with service]
  end.
Ltac follow := repeat (follow1; cbv beta).

Create HintDb service.

Section programs.
Context `{BcsCrate, CryptoCrates, HexCrate}.

Lemma follows_lock_remove r d : follows (lock_ r (λ b, (remove b d).1)).
Proof. apply follows_lock_. intros b Hb. by apply keeps_remove. Qed.

#[local] Hint Resolve follows_lock_remove : service.

Lemma follows_publish_book_snapshot m : follows (publish_book_snapshot m).
Proof. unfold publish_book_snapshot. follow. Qed.

#[local] Hint Resolve follows_publish_book_snapshot : service.

Lemma follows_publish_market id : follows (publish_market id).
Proof. unfold publish_market. follow. Qed.

Lemma follows_remove_from_book id d : follows (remove_from_book id d).
Proof. unfold remove_from_book. follow. Qed.

Lemma follows_try_set_status d st : follows (try_set_status d st).
Proof. unfold try_set_status. follow. Qed.

Lemma follows_notify_prune mk d reason : follows (notify_prune mk d reason).
Proof. unfold notify_prune. follow. Qed.

#[local] Hint Resolve follows_publish_market follows_remove_from_book follows_try_set_status
  follows_notify_prune : service.

Lemma follows_prune_order so reason : follows (prune_order so reason).
Proof. unfold prune_order. follow. Qed.

#[local] Hint Resolve follows_prune_order : service.

Lemma follows_prune_maker_orders registry mk voided : follows (prune_maker_orders registry mk voided).
Proof. unfold prune_maker_orders. follow. Qed.

Lemma follows_prune_until balance committed l : follows (prune_until balance committed l).
Proof.
  revert committed. induction l as [|so l IH]; intros committed; cbn [prune_until]; follow.
Qed.

#[local] Hint Resolve follows_prune_until : service.

Lemma follows_prune_uncovered mgr tok : follows (prune_uncovered mgr tok).
Proof. unfold prune_uncovered. follow. Qed.

Lemma follows_prune_manager_orders mgr tok reason : follows (prune_manager_orders mgr tok reason).
Proof. unfold prune_manager_orders. follow. Qed.

Lemma follows_prune_orders_signed_by mgr signer : follows (prune_orders_signed_by mgr signer).
Proof. unfold prune_orders_signed_by. follow. Qed.

#[local] Hint Resolve follows_prune_uncovered follows_prune_manager_orders
  follows_prune_orders_signed_by : service.

(** ** Chain events *)

Lemma follows_handle_sync_event ev : ev_wf ev → follows (handle_sync_event ev).
Proof.
  intros Hev. destruct ev; cbn [handle_sync_event]; try solve [follow]; try (apply follows_prune_maker_orders).
  - destruct Hev as ([Hb _] & _). unfold handle_fill. follow.
    apply follows_lock_. intros b0 Hok. by apply keeps_external.
  - eapply follows_bind; [apply ensures_get_enabled_market|]. intros [[[m flag]|]|]; cbv beta;
      try (apply follows_pre, follows_ret).
    assert (stable (λ s : AppState, listed (tables_of s) registry m)) as Hst.
    { apply (stable_tables (λ t, listed t registry m)). intros t t' Hp. by apply listed_later. }
    eapply triple_bind; [apply (follows_frame _ _ Hst), follows_set_paused|]. intros [].
    eapply triple_bind; [|intros ?; apply follows_ret].
    eapply triple_pre; [apply triple_add_market|]. intros s _ Hl. pose proof Hl as (E & _). by rewrite E.
  - by apply follows_set_market_fee.
Qed.

Lemma follows_sync_consumer : follows sync_consumer.
Proof.
  unfold sync_consumer. eapply follows_bind.
  - apply (triple_act _ _ (λ r _, match r with FeedEvent ev => ev_wf ev | _ => True end)); [done|].
    intros s Hs _. pose proof (ai_feed s Hs) as Hf. unfold feed_recv.
    destruct (sync_feed s) as [evs [|n]] eqn:E; cbn [fd_events fd_lagged] in *.
    + destruct evs as [|ev evs]; cbn [fst snd].
      * assert (set_app_feed (mkFeed [] 0) s = s) as -> by (rewrite <- E; by destruct s).
        split_and!; [done|reflexivity|done].
      * assert (app_inv (set_app_feed (mkFeed evs 0) s) ∧ app_later s (set_app_feed (mkFeed evs 0) s))
          as [? ?]; [|split_and!; [done..|apply Hf; set_solver]].
        apply app_step_channels; try done; [apply Hs..|]. cbn. intros ev' Hev'. apply Hf. set_solver.
    + cbn [fst snd]. assert (app_inv (set_app_feed (mkFeed evs 0) s) ∧
        app_later s (set_app_feed (mkFeed evs 0) s)) as [? ?]; [|by split_and!].
      apply app_step_channels; try done; apply Hs.
  - intros [ev|n|]; [|apply follows_ret..].
    intros s Hs Hev. by apply follows_handle_sync_event.
Qed.

(** ** Settlement *)

Lemma stable_intent mkt i : stable (λ s : AppState, intent_ok mkt (known (tables_of s) mkt) i).
Proof.
  apply (stable_tables (λ t, intent_ok mkt (known t mkt) i)). intros t t' Hp. by apply intent_ok_later.
Qed.

Lemma stable_intents ints : stable (λ s : AppState, intents_ok (tables_of s) ints).
Proof. intros s s' Hs Hl Hs' i Hi. eapply stable_intent; [by apply Hs|done..]. Qed.

Lemma stable_stored d so : stable (λ s : AppState, is_stored (tables_of s) d so).
Proof. apply (stable_tables (λ t, is_stored t d so)). intros t t' Hp. by apply is_stored_later. Qed.

Lemma stable_job job : stable (λ s : AppState, job_ok (tables_of s) job).
Proof. apply (stable_tables (λ t, job_ok t job)). intros t t' Hp. by apply job_ok_later. Qed.

Lemma stable_and (P Q : AppState → Prop) : stable P → stable Q → stable (λ s, P s ∧ Q s).
Proof. intros HP HQ s s' [? ?] ? ?. split; [by eapply HP|by eapply HQ]. Qed.

Lemma follows_vault_maker_of mgr : follows (vault_maker_of (S := AppState) mgr).
Proof. unfold vault_maker_of. apply follows_seq; [apply follows_vault_manager|]. intros. apply follows_ret. Qed.

(** Both orders have been fetched: the rest of the job. *)
Lemma triple_make_job {R} (F : AppState → Prop) m i ask bid (k : MatchJob → prog AppState R) :
  stable F → (∀ job, triple (λ s, job_ok (tables_of s) job ∧ F s) (k job) (λ _ _, True)) →
  triple (λ s, is_stored (tables_of s) (ask_digest i) ask ∧ is_stored (tables_of s) (bid_digest i) bid ∧
               intent_ok (mi_market i) (known (tables_of s) (mi_market i)) i ∧ F s)
    (ask_vault ← vault_maker_of (maker_manager_id (order (so_signed ask)));
     bid_vault ← vault_maker_of (maker_manager_id (order (so_signed bid)));
     k (mkMatchJob i ask bid (base m) (quote m) ask_vault bid_vault)) (λ _ _, True).
Proof.
  intros HF Hk. set (P := λ s : AppState, _ ∧ _ ∧ _ ∧ _).
  assert (stable P) as HP.
  { apply stable_and; [apply stable_stored|]. apply stable_and; [apply stable_stored|].
    apply stable_and; [apply stable_intent|exact HF]. }
  eapply triple_bind; [apply (follows_frame _ _ HP), follows_vault_maker_of|]. intros av.
  eapply triple_bind; [apply (follows_frame _ _ HP), follows_vault_maker_of|]. intros bv.
  eapply triple_pre; [apply Hk|]. intros s _ (? & ? & ? & ?). by split_and!.
Qed.

(** [resolve_job] followed by a use of the job. *)
Lemma triple_resolve_job m i (k : MatchJob → prog AppState unit) :
  (∀ job, triple (λ s, job_ok (tables_of s) job) (k job) (λ _ _, True)) →
  triple (λ s, intent_ok (mi_market i) (known (tables_of s) (mi_market i)) i)
    (job ← resolve_job m i; match job with Some job => k job | None => Ret tt end) (λ _ _, True).
Proof.
  intros Hk. eapply (triple_bind _ (λ job s, match job with Some job => job_ok (tables_of s) job | None => True end)).
  2: { intros [job|]; [apply Hk|apply follows_ret]. }
  set (I := λ s : AppState, intent_ok _ _ i). pose proof (stable_intent (mi_market i) i) as HI. fold I in HI.
  unfold resolve_job. eapply triple_bind; [eapply (ensures_frame I); [exact HI|apply ensures_get_order]|].
  intros ra. cbv beta.
  set (A := λ s : AppState, match ra with Ok (Some so) => is_stored (tables_of s) (ask_digest i) so | _ => True end).
  assert (stable A) as HA by (unfold A; destruct ra as [[so|]|]; [apply stable_stored|done..]).
  eapply triple_bind; [eapply (ensures_frame (λ s, A s ∧ I s)); [by apply stable_and|apply ensures_get_order]|].
  intros rb. cbv beta. unfold A. destruct ra as [[ask|]|], rb as [[bid|]|]; try by apply triple_ret.
  set (P := λ s : AppState, _ ∧ _ ∧ _).
  assert (stable P) as HP by (apply stable_and; [apply stable_stored|apply stable_and; [apply stable_stored|done]]).
  eapply triple_bind; [apply (follows_frame _ _ HP), follows_vault_maker_of|]. intros av.
  eapply triple_bind; [apply (follows_frame _ _ HP), follows_vault_maker_of|]. intros bv.
  apply triple_ret. by intros s _ (? & ? & ?).
Qed.

Lemma triple_match_try_send job :
  triple (λ s, job_ok (tables_of s) job) (match_try_send job) (λ _ _, True).
Proof.
  apply triple_act; [apply stable_job|]. intros s Hs Hj. unfold queue_try_send, has_room.
  destruct (negb _); [|destruct (_ && _) eqn:Hr]; cbn [fst snd].
  1, 3: assert (set_app_queue (match_tx s) s = s) as -> by (by destruct s); split_and!; [done|reflexivity|done].
  apply has_room_true in Hr as [Hlen Hw].
  set (s' := set_app_queue _ s). assert (app_inv s' ∧ app_later s s') as [? ?]; [|by split_and!].
  apply app_step_channels; try done; cbn.
  - intros j. rewrite Hw, app_nil_r, elem_of_app, list_elem_of_singleton. intros [Hin| ->]; [|done].
    apply Hs. set_solver.
  - rewrite length_app. cbn [length]. lia.
  - apply Hs.
Qed.

Lemma follows_rematch_and_enqueue mkt d : follows (rematch_and_enqueue mkt d).
Proof.
  unfold rematch_and_enqueue. apply follows_seq; [apply follows_read|]. intros [r|]; [|apply follows_ret].
  apply follows_seq; [apply follows_read|]. intros [m|]; [|apply follows_ret].
  eapply follows_bind.
  - apply (ensures_lock r _ (λ l t, intents_ok t (default [] l))).
    + intros t b Hwf Hb. pose proof (bs_listed _ _ _ Hb) as (Hid & _).
      destruct (rematch_keeps b d (known t r) (bs_ok _ _ _ Hb)) as [Hk Hi].
      { intros d' o. by apply served_known. }
      split_and!; [by eapply served_keeps|apply Hk|]. simpl. intros i Hin. destruct (Hi i Hin) as (Hm & ? & ?).
      rewrite Hm, Hid. split; [congruence|done].
    + intros t i. simpl. set_solver.
  - intros l. cbv beta. set (P := λ s : AppState, intents_ok (tables_of s) (default [] l)).
    pose proof (stable_intents (default [] l)) as HP. fold P in HP.
    eapply triple_weaken; [apply (triple_for_each P)| |]; [|done..].
    intros i Hi. eapply triple_weaken;
      [eapply triple_frame; [exact HP|apply (triple_resolve_job m i)]| |].
    + intros job. eapply triple_bind; [apply triple_match_try_send|]. intros; apply follows_ret.
    + intros s _ Hs. split; [by apply Hs|exact Hs].
    + by intros a s _ [_ ?].
Qed.

#[local] Hint Resolve follows_rematch_and_enqueue : service.

Lemma follows_rematch_both i : follows (rematch_both i).
Proof. unfold rematch_both. follow. Qed.

Lemma follows_prune_direct_makers job reason : follows (prune_direct_makers job reason).
Proof. unfold prune_direct_makers. follow. Qed.

#[local] Hint Resolve follows_rematch_both follows_prune_direct_makers : service.

Lemma follows_handle_settle_outcome job outcome :
  0 ≤ fill_base_amount (intent job) → follows (handle_settle_outcome job outcome).
Proof.
  intros Hf. unfold handle_settle_outcome.
  assert (∀ r drop, follows (lock_ r (λ b, settle_failed b (intent job) drop))) as Hfail.
  { intros r drop. apply follows_lock_. intros b Hb. by apply keeps_settle_failed. }
  apply follows_seq; [apply follows_read|]. intros [r|]; [|apply follows_ret]. cbv zeta.
  destruct outcome; try (apply follows_seq; [apply Hfail|intros ?]; solve [follow]).
  apply follows_seq; [|intros ?; solve [follow]].
  apply follows_lock_. intros b Hb. by apply keeps_settle_success.
Qed.

Lemma ensures_match_recv :
  ensures match_recv (λ job s, match job with Some job => job_ok (tables_of s) job | None => True end).
Proof.
  apply triple_act; [done|]. intros s Hs _. pose proof (queue_recv_elem (match_tx s)) as Hq.
  pose proof (ai_queue s Hs) as Hlen. pose proof (ai_jobs s Hs) as Hjobs.
  unfold queue_recv in *. destruct (match_tx s) as [js ws op] eqn:E; cbn [q_jobs q_waiting q_open] in *.
  destruct js as [|j js]; cbn [fst snd] in *.
  { rewrite <- E. assert (set_app_queue (match_tx s) s = s) as -> by (by destruct s).
    split_and!; [done|reflexivity|done]. }
  set (q' := match ws with [] => _ | _ => _ end) in *.
  assert (q' = ((q'.1), Some j)) as -> by (by unfold q'; destruct ws). cbn [fst snd].
  set (s' := set_app_queue q'.1 s). assert (app_inv s' ∧ app_later s s') as [? ?].
  { apply app_step_channels; try done; cbn.
    - intros job Hj. apply Hjobs, Hq. done.
    - unfold q'. destruct ws; simpl; rewrite ?length_app; simpl in *; lia.
    - apply Hs. }
  split_and!; [done..|]. apply Hjobs. set_solver.
Qed.

Lemma follows_settlement_worker submit : follows (settlement_worker submit).
Proof.
  unfold settlement_worker. eapply follows_bind; [apply ensures_match_recv|].
  intros [job|]; [|apply follows_ret]. intros s Hs (_ & _ & _ & [Hf _] & _).
  apply follows_handle_settle_outcome; [lia|done..].
Qed.

Lemma follows_drain_jobs : follows drain_jobs.
Proof.
  unfold drain_jobs. eapply follows_bind; [apply ensures_match_recv|]. intros. apply follows_pre, follows_ret.
Qed.
End programs.

#[export] Hint Resolve follows_publish_book_snapshot follows_remove_from_book follows_try_set_status
  follows_publish_market follows_notify_prune : service.

(** * Orders on their way into the book *)

(** The row of a newly recorded order. *)
Definition recorded (t : Tables) (so : SignedOrder) (d : Digest) (side : Side) (ticks : Z) : Prop :=
  ∃ row, order_row d t = Some row ∧ no_registry_id (or_values row) = registry_id so ∧
    no_maker (or_values row) = maker (order so) ∧ no_side (or_values row) = side ∧
    no_price_ticks (or_values row) = ticks.

Lemma recorded_later t t' so d side ticks : progress t t' → recorded t so d side ticks → recorded t' so d side ticks.
Proof.
  intros Hp (row & Hr & ?). destruct (row_later Hp _ row Hr) as (row' & Hr' & E). exists row'. by rewrite E.
Qed.

Lemma insert_order_recorded d so side ticks b st :
  order_wf (order so) → u64 ticks → tables_wf (tables st) →
  match (insert_order d so side ticks b st).2 with
  | Ok _ => recorded (tables (insert_order d so side ticks b st).1) so d side ticks
  | Err _ => True
  end.
Proof.
  intros Ho Ht Hwf. destruct st as [t pl]. unfold insert_order. run_sto.
  destruct (new_order d so side ticks b) as [v|e] eqn:Ev; [|done].
  apply new_order_Ok in Ev as (Hv & <- & E & <- & <- & _); [|done..].
  destruct pl as [|[] pl]; cbn [tables pool fst snd]; [| |done].
  all: case_bool_decide as Hd; [done|]; case_bool_decide; [done|]; cbn [fst snd tables].
  all: exists (mkOrderRow v 0 OPEN); destruct Hv as (Hreg & Hmk & _); cbn [or_values]; rewrite <- E;
    split_and!; try done; rewrite order_row_snoc; unfold or_digest; cbn [or_values];
    rewrite bool_decide_true by done; apply eq_None_not_Some in Hd; unfold id in Hd; by rewrite Hd.
Qed.

(** Markets of one id have one grid. *)
Lemma listed_same t id m m' : listed t id m → listed t id m' → same_market m m'.
Proof. intros (_ & _ & r & Hr & H1) (_ & _ & r' & Hr' & H2). simplify_eq. by rewrite H1. Qed.

Section tasks.
Context `{BcsCrate, CryptoCrates, HexCrate, Base64Crate, DashMapCrate}.

(** A read-only step under a stable fact. *)
Lemma frame_try {E A B} (P : AppState → Prop) (p : prog AppState (result E A))
    (h : A → prog AppState (result E B)) (Q : result E B → AppState → Prop) :
  stable P → follows p → (∀ e s, Q (Err e) s) → (∀ a, triple P (h a) Q) → triple P (prog_try p h) Q.
Proof.
  intros HP Hp HQ Hh. eapply triple_bind; [by apply (follows_frame P)|]. intros [a|e]; [apply Hh|].
  by apply triple_ret.
Qed.

Lemma frame_seq {A B} (P : AppState → Prop) (p : prog AppState A) (h : A → prog AppState B)
    (Q : B → AppState → Prop) :
  stable P → follows p → (∀ a, triple P (h a) Q) → triple P (prog_bind h p) Q.
Proof. intros HP Hp Hh. eapply triple_bind; [by apply (follows_frame P)|exact Hh]. Qed.

(** A pure result. *)
Lemma ret_try {E A B} (P : AppState → Prop) (r : result E A)
    (h : A → prog AppState (result E B)) (Q : result E B → AppState → Prop) :
  (∀ e s, Q (Err e) s) → (∀ a, r = Ok a → triple P (h a) Q) → triple P (prog_try (Ret r) h) Q.
Proof. intros HQ Hh. destruct r as [a|e]; [by apply Hh|by apply triple_ret]. Qed.

Lemma follows_internal {A} (f : Tables → A) :
  follows (Intake.internal (blocking (S := AppState) (_ ← conn; query f))).
Proof. apply follows_seq; [apply follows_query|]. intros. apply follows_ret. Qed.

(** ** Intake *)

(** The market of an order prices it. *)
Definition grid_price (t : Tables) (so : SignedOrder) (side : Side) (ticks : Z) : Prop :=
  ∃ m n, listed t (registry_id so) m ∧ price_and_size m (order so) = Ok (side, ticks, n).

Lemma stable_grid_price so side ticks : stable (λ s : AppState, grid_price (tables_of s) so side ticks).
Proof.
  apply (stable_tables (λ t, grid_price t so side ticks)). intros t t' Hp (m & n & Hl & E). exists m, n.
  split; [by eapply listed_later|done].
Qed.

(** What an accepted order has become. *)
Definition accepted (t : Tables) (so : SignedOrder) (d : Digest) (side : Side) (ticks : Z) : Prop :=
  recorded t so d side ticks ∧ grid_price t so side ticks.

Lemma accepted_later t t' so d side ticks : progress t t' → accepted t so d side ticks → accepted t' so d side ticks.
Proof.
  intros Hp [Hr (m & n & Hl & E)]. split; [by eapply recorded_later|]. exists m, n.
  split; [by eapply listed_later|done].
Qed.

Lemma insert_order_step d so side ticks b st :
  order_wf (order so) → u64 ticks → tables_wf (tables st) → priced (tables st) →
  grid_price (tables st) so side ticks →
  let '(st', r) := insert_order d so side ticks b st in
  tables_wf (tables st') ∧ progress (tables st) (tables st') ∧ priced (tables st') ∧
  match r with Ok _ => recorded (tables st') so d side ticks | Err _ => True end.
Proof.
  intros Ho Ht Hwf Hpr (m & n & Hl & Hps).
  pose proof (insert_order_recorded d so side ticks b st Ho Ht Hwf) as Hrec.
  pose proof (exec_wf (InsertOrder d so side ticks b) st (conj Ho Ht) Hwf) as Hwf'.
  assert (progress (tables st) (tables (exec (InsertOrder d so side ticks b) st).1)) as Hp.
  { destruct (exec_tstep (InsertOrder d so side ticks b) st) as [->| ->]; [reflexivity|by apply tstep_progress]. }
  simpl exec in *. destruct (insert_order d so side ticks b st) as [st' r] eqn:E. cbn [fst snd] in *.
  split_and!; [done..| |done]. revert E. destruct st as [t pl]. unfold insert_order. run_sto.
  destruct (new_order d so side ticks b) as [v|e] eqn:Ev; [|by intros [= <- _]].
  apply new_order_Ok in Ev as ((Hreg & _) & _ & Hso & Hsd & Hpt & _); [|done..].
  destruct pl as [|[] pl]; [| |by intros [= <- _]].
  all: case_bool_decide; [by intros [= <- _]|]; case_bool_decide; [by intros [= <- _]|]; intros [= <- _].
  all: intros row r0 [Hrow| ->%list_elem_of_singleton]%elem_of_app Hr0; [by apply (Hpr row r0)|].
  all: exists n; cbn [or_values] in *; rewrite Hso, Hsd, Hpt, <- Hps; apply price_and_size_fee.
  all: destruct Hl as (_ & _ & r1 & Hr1 & Hs); rewrite Hreg, Hso in Hr0; cbn in *; by simplify_eq.
Qed.

Lemma triple_insert so d side ticks b :
  order_wf (order so) → u64 ticks →
  triple (λ s, grid_price (tables_of s) so side ticks)
    (prog_bind (λ r, Ret (map_err (λ e, if is_unique_violation e then Code.Duplicate else Code.Internal) r))
      (act (blocking (insert_order d so side ticks b))))
    (λ r s, match r with Ok _ => accepted (tables_of s) so d side ticks | Err _ => True end).
Proof.
  intros Ho Ht.
  eapply triple_bind; [eapply triple_weaken; [eapply triple_frame; [apply (stable_grid_price so side ticks)|
    apply (triple_store (λ t, grid_price t so side ticks) _ (λ r t, match r with Ok _ => recorded t so d side ticks
      | Err _ => True end))]|by intros s _ Hs|done]|].
  - apply stable_grid_price.
  - intros st Hwf Hpr Hg. by apply insert_order_step.
  - intros r. cbv beta. destruct r as [[]|e]; apply triple_ret; intros s _ [? ?]; by split.
Qed.

Lemma ensures_intake so now :
  order_wf (order so) →
  ensures (intake_order (S := AppState) so now) (λ r s, match r with
    | Ok (d, side, ticks) => accepted (tables_of s) so d side ticks
    | Err _ => True
    end).
Proof.
  intros Ho. unfold intake_order. set (Q := λ (r : result _ _) s, match r with Ok _ => _ | Err _ => True end).
  assert (∀ e s, Q (Err e) s) as HE by done.
  eapply triple_try.
  { eapply triple_weaken; [apply (triple_read (λ _, True) _ (λ r s,
      match r with Ok m => listed (tables_of s) (registry_id so) m | Err _ => True end))| |]; [done| |done|].
    - intros s Hs _. cbn. destruct (markets s !! registry_id so) as [m|] eqn:Hm; [|done].
      by apply (ai_markets s Hs).
    - intros [m|e] s _ Hl; [exact Hl|done]. }
  intros m. cbv beta. set (P := λ s : AppState, listed _ _ m).
  assert (stable P) as HP by (apply (stable_tables (λ t, listed t _ m)); intros t t' Hp; by apply listed_later).
  apply frame_try; [done|apply follows_read|done|]. intros []; [by apply triple_ret|].
  apply frame_try; [done|apply follows_read|done|]. intros cfg.
  apply ret_try; [done|]. intros [[d side] ticks] Hv.
  apply validate_stateless_iff in Hv as [-> Hst]; [|done].
  destruct Hst as [_ _ _ _ [n Hn] _ _]. cbv zeta.
  apply frame_try; [done| |done|].
  { case_bool_decide; cbn [negb]; [apply follows_ret|].
    apply follows_seq; [apply follows_internal|]. intros [[]|e]; apply follows_ret. }
  intros _. apply frame_try; [done|apply follows_internal|done|]. intros watermark.
  destruct (_ <=? watermark); [by apply triple_ret|].
  apply frame_try; [done|apply follows_internal|done|]. intros max_salt.
  apply ret_try; [done|]. intros _ _.
  apply frame_try; [done|apply follows_internal|done|]. intros vault. cbv zeta.
  apply frame_try; [done| |done|].
  { destruct (negb _); [|apply follows_ret].
    apply follows_seq; [apply follows_internal|]. intros [bal|e]; [|apply follows_ret].
    apply follows_seq; [apply follows_internal|]. intros [c|e]; apply follows_ret. }
  intros _. eapply triple_try.
  - eapply triple_pre; [apply triple_insert; [done|by eapply price_ticks_u64]|].
    intros s _ Hl. by exists m, n.
  - intros []. apply triple_ret. by intros s _ Ha.
Qed.

(** ** Placement *)

Lemma recorded_known t so d side ticks :
  recorded t so d side ticks → known t (registry_id so) d side ticks ∧
  ∃ row, order_row d t = Some row ∧ no_maker (or_values row) = maker (order so).
Proof. intros (row & Hr & ? & ? & ? & ?). split; exists row; by split_and!. Qed.

(** The critical section of [place]. *)
Lemma triple_place r so d side ticks :
  order_wf (order so) → r = registry_id so →
  triple (λ s, accepted (tables_of s) so d side ticks) (lock r (λ b, place b d (order so)))
    (λ res s, ∀ o ints, res = Some (Ok (o, ints)) → intents_ok (tables_of s) ints).
Proof.
  intros Ho ->.
  eapply triple_weaken; [apply (triple_lock (λ t, accepted t so d side ticks) (registry_id so) _
    (λ res t, ∀ o ints, res = Some (Ok (o, ints)) → intents_ok t ints))|done|done].
  - apply (stable_tables (λ t, accepted t so d side ticks)). intros t t' Hp. by apply accepted_later.
  - intros t b Hwf (Hrec & m & n & Hl & Hps) Hb. pose proof (bs_listed _ _ _ Hb) as Hlb.
    assert (price_and_size (Book.market b) (order so) = Ok (side, ticks, n)) as Hpb.
    { rewrite <- Hps. apply price_and_size_fee. by eapply listed_same. }
    destruct (recorded_known _ _ _ _ _ Hrec) as [Hk Hrow].
    pose proof (place_served t _ b d (order so) side ticks n Hb Ho Hpb Hk Hrow) as Hp.
    destruct (place b d (order so)) as [b' res]. cbn [fst snd]. destruct Hp as (? & ? & Hints).
    split_and!; [done..|]. intros o ints [= ->]. by eapply Hints.
  - done.
Qed.

Lemma triple_match_send job : triple (λ s, job_ok (tables_of s) job) (match_send job) (λ _ _, True).
Proof.
  apply triple_act; [apply stable_job|]. intros s Hs Hj. unfold queue_send.
  destruct (q_open (match_tx s)) eqn:Ho; cbn [negb].
  2: { cbn [fst snd]. assert (set_app_queue (match_tx s) s = s) as -> by (by destruct s). by split_and!. }
  assert (∀ q, (∀ j, j ∈ q_jobs q ++ q_waiting q → j = job ∨ j ∈ q_jobs (match_tx s) ++ q_waiting (match_tx s)) →
    (length (q_jobs q) ≤ queue_capacity)%nat →
    app_inv (set_app_queue q s) ∧ app_later s (set_app_queue q s) ∧ True) as Hstep.
  { intros q Hq Hlen. assert (app_inv (set_app_queue q s) ∧ app_later s (set_app_queue q s)) as [? ?];
      [|by split_and!]. apply app_step_channels; try done; [|apply Hs].
    intros j Hin. destruct (Hq j Hin) as [->|?]; [done|by apply Hs]. }
  destruct (has_room _) eqn:Hr; cbn [fst snd]; apply Hstep; cbn [q_jobs q_waiting].
  - intros j. set_solver.
  - apply has_room_true in Hr as [Hlen _]. rewrite length_app. cbn [length]. lia.
  - intros j. set_solver.
  - apply Hs.
Qed.

Lemma triple_enqueue_all m ints :
  triple (λ s, intents_ok (tables_of s) ints) (enqueue_all m ints) (λ _ _, True).
Proof.
  induction ints as [|i ints IH]; cbn [enqueue_all]; [by apply triple_ret|].
  set (F := λ s : AppState, intents_ok (tables_of s) (i :: ints)).
  pose proof (stable_intents (i :: ints)) as HF. fold F in HF.
  assert (∀ d (k : option StoredOrder → prog AppState (result ApiError unit)) (G : AppState → Prop),
    stable G → (∀ o, triple (λ s, match o with Some so => is_stored (tables_of s) d so | None => True end ∧ G s)
                 (k o) (λ _ _, True)) →
    triple G (prog_try (db_call (store.get_order d)) k) (λ _ _, True)) as Hget.
  { intros d k G HG Hk. eapply triple_try; [|exact Hk].
    unfold db_call. eapply triple_bind; [eapply (ensures_frame G); [exact HG|apply ensures_get_order]|].
    intros [o|e]; apply triple_ret; [|done]. intros s _ [? ?]. by split. }
  apply Hget; [done|]. intros oa.
  set (A := λ s : AppState, match oa with Some so => is_stored (tables_of s) (ask_digest i) so | None => True end).
  assert (stable A) as HA by (unfold A; destruct oa; [apply stable_stored|done]).
  apply (Hget _ _ (λ s, A s ∧ F s)); [by apply stable_and|]. intros ob.
  assert (triple F (enqueue_all m ints) (λ _ _, True)) as IH'.
  { eapply triple_pre; [exact IH|]. intros s _ Hs i' Hi'. apply Hs. set_solver. }
  unfold A. destruct oa as [ask|], ob as [bid|]; try (eapply triple_pre; [exact IH'|]; by intros s _ (_ & _ & ?)).
  eapply triple_pre; [apply (triple_make_job F m i ask bid (λ job, _ ← match_send job; enqueue_all m ints)); [done|]|].
  - intros job. eapply triple_bind; [|intros ?; exact IH'].
    eapply triple_weaken; [eapply triple_frame; [exact HF|apply triple_match_send]|done|]. by intros ? s _ [_ ?].
  - intros s _ (? & ? & HFs). split_and!; [done..| |done]. apply HFs. set_solver.
Qed.

Lemma follows_place_order clock now so : order_wf (order so) → follows (place_order clock now so).
Proof.
  intros Ho. unfold place_order.
  eapply (triple_try _ (λ a s, accepted (tables_of s) so a.1.1 a.1.2 a.2)).
  { eapply triple_bind; [by apply ensures_intake|]. intros [[[d side] ticks]|c]; apply triple_ret; [|done].
    intros s _ Ha. exact Ha. }
  intros [[d side] ticks]. cbv beta iota zeta. cbn [fst].
  set (P := λ s : AppState, accepted (tables_of s) so d side ticks).
  assert (stable P) as HP.
  { apply (stable_tables (λ t, accepted t so d side ticks)). intros t t' Hp. by apply accepted_later. }
  eapply (triple_try _ (λ m s, m_registry_id m = registry_id so ∧ P s)).
  { unfold or_else. eapply triple_bind; [eapply (ensures_frame P (market (registry_id so))
      (λ o _, ∀ m, o = Some m → m_registry_id m = registry_id so)); [exact HP|]|].
    - apply triple_read; [done|]. intros s Hs _ m Hm. by destruct (ai_markets s Hs _ _ Hm) as ((? & _) & _).
    - intros [m|]; apply triple_ret; [|done]. intros s _ [Hm ?]. split; [by apply Hm|done]. }
  intros m. eapply (triple_try _ (λ r s, r = registry_id so ∧ P s)).
  { unfold or_else. eapply triple_bind; [eapply (triple_frame (λ _, m_registry_id m = registry_id so) P
      (λ o _, ∀ r, o = Some r → r = registry_id so)); [exact HP|]|].
    - apply triple_read; [by intros ? ? Hm|]. intros s _ Hm r. destruct (books s !! _); [|done]. intros [= <-]. done.
    - intros [r|]; apply triple_ret; [|done]. intros s _ [Hr ?]. split; [by apply Hr|done]. }
  intros r. eapply (triple_try _ (λ res s, ∀ o ints, res = Ok (o, ints) → intents_ok (tables_of s) ints)).
  { unfold or_else. eapply triple_bind;
      [intros s Hs [Hr HPs]; apply (triple_place r so d side ticks Ho Hr); [exact Hs|exact HPs]|].
    intros [res|]; apply triple_ret; [|done]. intros s _ Hres o ints ->. exact (Hres o ints eq_refl). }
  intros res. apply ret_try; [done|]. intros [o ints] Hres. destruct res as [[o' ints']|e]; [|done].
  injection Hres as -> ->.
  eapply (triple_try _ (λ _ _, True)); [eapply triple_weaken; [apply (triple_enqueue_all m ints)| |]|].
  - intros s _ Hs. by apply (Hs o).
  - by intros [[]|e] s _ _.
  - intros []. follow.
Qed.

(** ** The other handlers *)

Lemma follows_db_call {A} (p : prog AppState (result StoreError A)) : follows p → follows (db_call p).
Proof. intros Hp. apply follows_seq; [done|]. intros. apply follows_ret. Qed.

Lemma follows_or_else {A} e (p : prog AppState (option A)) : follows p → follows (or_else e p).
Proof. intros Hp. apply follows_seq; [done|]. intros. apply follows_ret. Qed.

Lemma follows_is_approved_signer mgr sg : follows (store.is_approved_signer mgr sg).
Proof. exact (follows_query _). Qed.
Lemma follows_recent_trades r n : follows (store.recent_trades r n).
Proof. exact (follows_query _). Qed.
Lemma follows_orders_by_account a : follows (store.orders_by_account a).
Proof. exact (follows_query _). Qed.
Lemma follows_fills_by_account a : follows (store.fills_by_account a).
Proof. exact (follows_query _). Qed.
Lemma follows_balances_of a : follows (store.balances_of a).
Proof. exact (follows_query _). Qed.

Ltac request1 :=
  lazymatch goal with
  | |- triple _ (db_call _) _ => apply follows_db_call
  | |- triple _ (or_else _ _) _ => apply follows_or_else
  | |- triple _ (resolve_market _) _ => apply follows_read
  | |- triple _ markets_snapshot _ => apply follows_read
  | |- triple _ (store.is_approved_signer _ _) _ => apply follows_is_approved_signer
  | |- triple _ (store.recent_trades _ _) _ => apply follows_recent_trades
  | |- triple _ (store.orders_by_account _) _ => apply follows_orders_by_account
  | |- triple _ (store.fills_by_account _) _ => apply follows_fills_by_account
  | |- triple _ (store.balances_of _) _ => apply follows_balances_of
  | _ => follow1
  end.
Ltac request := repeat (request1; cbv beta zeta).

Lemma follows_markets_reply now : follows (markets_reply now).
Proof. unfold markets_reply. request. Qed.

Lemma follows_book_reply now key depth : follows (book_reply now key depth).
Proof. unfold book_reply. request. Qed.

Lemma follows_trades_reply now key : follows (trades_reply now key).
Proof. unfold trades_reply. request. Qed.

Lemma follows_order_by_digest now key d : follows (order_by_digest now key d).
Proof. unfold order_by_digest. request. Qed.

Lemma follows_cancel_order now d req : follows (cancel_order now d req).
Proof. unfold cancel_order. request. Qed.

Lemma follows_account_orders now a : follows (account_orders now a).
Proof. unfold account_orders. request. Qed.

Lemma follows_account_fills now a : follows (account_fills now a).
Proof. unfold account_fills. request. Qed.

Lemma follows_account_balance now a : follows (account_balance now a).
Proof. unfold account_balance. request. Qed.

Lemma follows_all_ladders ms : follows (all_ladders ms).
Proof. induction ms as [|m ms IH]; cbn [all_ladders]; request. Qed.

Lemma follows_route_leg m hop_from leg acc : follows (route_leg m hop_from leg acc).
Proof. unfold route_leg. request. Qed.

#[local] Hint Resolve follows_route_leg : service.

Lemma follows_route_legs m hop_from legs acc : follows (route_legs m hop_from legs acc).
Proof.
  revert acc. induction legs as [|leg legs IH]; intros acc; cbn [route_legs]; [apply follows_ret|].
  request.
Qed.

#[local] Hint Resolve follows_route_legs : service.

Lemma follows_route_hops p i hops acc : follows (route_hops p i hops acc).
Proof.
  revert i acc. induction hops as [|hop hops IH]; intros i acc; cbn [route_hops]; [apply follows_ret|].
  request.
Qed.

#[local] Hint Resolve follows_route_hops : service.

Lemma follows_route_paths ps acc : follows (route_paths ps acc).
Proof.
  revert acc. induction ps as [|p ps IH]; intros acc; cbn [route_paths]; [apply follows_ret|].
  request.
Qed.

#[local] Hint Resolve follows_all_ladders follows_route_paths : service.

Lemma follows_routes now from to amount : follows (routes now from to amount).
Proof. unfold routes. request. Qed.
End tasks.
