(* ===== verification/ServiceBoot.v ===== *)
(** The state [boot] builds from well-formed tables satisfies the invariant of
    the service, and so does the state of a restart. *)

From S2P Require Import Prelude Prog Channel RustStr ExchangeTypes Book BookInv BookOps BookTheorems Repo RepoProps RepoTheorems Intake Db Settlement Sync State Service ServiceInv ServiceTasks Json Handlers.

(** * The deployed markets *)

(** The record lists well-formed markets, with one grid per registry, the
    grid of the stored row if there is one. *)
Record deployable (t : Tables) (ms : list Market) : Prop := {
  dp_wf : Forall market_wf ms;
  dp_unique m m' : m ∈ ms → m' ∈ ms → m_registry_id m = m_registry_id m' → same_grid m m';
  dp_stored m r : m ∈ ms → exchange_markets t !! m_registry_id m = Some r → same_grid m (row_market r);
}.

Lemma upsert_market_step m st :
  market_wf m → (∀ r, exchange_markets (tables st) !! m_registry_id m = Some r → same_grid m (row_market r)) →
  tables_wf (tables st) → priced (tables st) →
  let '(st', r) := upsert_market m st in
  tables_wf (tables st') ∧ priced (tables st') ∧
  ∀ id row, exchange_markets (tables st') !! id = Some row →
    exchange_markets (tables st) !! id = Some row ∨ id = m_registry_id m ∧ row_market row = m.
Proof.
  intros Hm Hgrid Hwf Hpr. pose proof (exec_wf (UpsertMarket m) st Hm Hwf) as Hwf'. simpl exec in Hwf'.
  revert Hwf'. destruct st as [t pl]. unfold upsert_market. run_sto.
  destruct (market_row m Deployments) as [nm|e] eqn:E; cbn [tables fst snd] in *; [|auto].
  apply (market_row_Ok m Deployments nm Hm) in E as (Hv & _ & Em). destruct Hv as (Hid & _).
  assert (∀ row', row_market row' = m → tables_wf (set_markets (<[m_registry_id m := row']> (exchange_markets t)) t) →
    tables_wf (set_markets (<[m_registry_id m := row']> (exchange_markets t)) t) ∧
    priced (set_markets (<[m_registry_id m := row']> (exchange_markets t)) t) ∧
    ∀ id row, <[m_registry_id m := row']> (exchange_markets t) !! id = Some row →
      exchange_markets t !! id = Some row ∨ id = m_registry_id m ∧ row_market row = m) as Hput.
  { intros row' Hrow' ?. split_and!; [done| |].
    - intros row r Hrow. cbn [exchange_markets exchange_orders set_markets] in *.
      rewrite lookup_insert_Some. intros [[Hi <-]|[Hne Hr]]; [|by apply (Hpr row r)].
      destruct (tw_market _ Hwf row Hrow) as [r0 Hr0]. destruct (Hpr row r0 Hrow Hr0) as [n Hn].
      exists n. rewrite <- Hn, Hrow'. symmetry. apply price_and_size_grid, Hgrid. by rewrite Hi.
    - intros id row. rewrite lookup_insert_Some. intros [[<- <-]|[Hne Hr]]; auto. }
  rewrite Hid. destruct pl as [|[] pl]; cbn [tables fst snd]; [| |auto].
  all: apply Hput; destruct (exchange_markets t !! m_registry_id m); exact Em.
Qed.

Lemma upsert_all_step ms : ∀ st,
  deployable (tables st) ms → tables_wf (tables st) → priced (tables st) →
  let '(st', r) := upsert_all ms st in tables_wf (tables st') ∧ priced (tables st').
Proof.
  induction ms as [|m ms IH]; intros st Hd Hwf Hpr; [done|]. cbn [upsert_all]. unfold mbind, sto_bind.
  pose proof (upsert_market_step m st) as Hstep. destruct Hd as [Hms Hu Hs].
  apply Forall_cons in Hms as [Hm Hms].
  specialize (Hstep Hm (λ r, Hs m r (list_elem_of_here _ _)) Hwf Hpr).
  destruct (upsert_market m st) as [st1 [[]|e]]; destruct Hstep as (Hwf1 & Hpr1 & Hrows); [|done].
  apply IH; [|done..]. split; [done|..].
  - intros m1 m2 H1 H2. apply Hu; set_solver.
  - intros m1 r Hin Hr. destruct (Hrows _ _ Hr) as [Hr'|[E <-]]; [apply Hs; [set_solver|done]|].
    by apply Hu; [set_solver..|].
Qed.

(** * The rebuild of a book *)

(** An order as [open_orders] returns it. *)
Definition fetched (t : Tables) (id : SuiAddress) (so : StoredOrder) : Prop :=
  ∃ row, order_row (so_digest so) t = Some row ∧ no_registry_id (or_values row) = id ∧
    so_signed so = no_order_json (or_values row).

Lemma fetched_later t t' id so : progress t t' → fetched t id so → fetched t' id so.
Proof.
  intros Hp (row & Hr & ? & ?). destruct (row_later Hp _ row Hr) as (row' & Hr' & E). exists row'. by rewrite E.
Qed.

Lemma open_orders_fetched id st sos :
  tables_wf (tables st) → (open_orders id st).2 = Ok sos → Forall (fetched (tables st) id) sos.
Proof.
  intros Hwf. pose proof (conn_query (λ t, stored_order <$> List.filter (λ r,
    bool_decide (no_registry_id (or_values r) = id) && is_open r) (exchange_orders t)) st) as [_ Hq].
  unfold open_orders. intros E. rewrite E in Hq. subst sos. apply Forall_forall.
  intros so (row & -> & [Hrow Hid]%elem_of_bfilter)%list_elem_of_fmap. reflect_bools.
  exists row. split_and!; [|done|done]. apply order_row_iff; [done|]. split; [done|]. done.
Qed.

(** What a step of the loading does to the store. *)
Definition loaded (st st' : Store) : Prop :=
  tables_wf (tables st') ∧ priced (tables st') ∧ progress (tables st) (tables st').

Lemma tame_loaded {A} (m : sto A) st : tame m → tables_wf (tables st) → priced (tables st) → loaded st (m st).1.
Proof.
  intros Hm Hwf Hpr. destruct (Hm st Hwf) as (? & ? & ?). split_and!; [done| |done].
  by apply (priced_later (tables st)).
Qed.

Lemma loaded_trans st st1 st2 : loaded st st1 → loaded st1 st2 → loaded st st2.
Proof. intros (_ & _ & H1) (? & ? & ?). split_and!; [done..|by etransitivity]. Qed.

(** An order of the market that is placed again. *)
Lemma place_fetched t id b so :
  tables_wf t → priced t → book_served t id b → fetched t id so →
  book_served t id (place b (so_digest so) (order (so_signed so))).1.
Proof.
  intros Hwf Hpr Hb (row & Hrow & Hid & Hso). pose proof (bs_listed _ _ _ Hb) as Hlb.
  pose proof Hrow as Hin. apply order_row_Some in Hin as [Hin Hd].
  destruct (tw_values _ Hwf row Hin) as [(_ & Hmk & _ & _ & _ & _ & _ & _ & Ho & _) _].
  destruct Hlb as (Hreg & _ & r & Hr & Hs). rewrite <- Hid in Hr.
  destruct (Hpr row r Hin Hr) as [n Hn]. rewrite (price_and_size_fee _ _ _ Hs), <- Hso in Hn.
  rewrite <- Hso in Ho, Hmk.
  pose proof (place_served t id b (so_digest so) (order (so_signed so)) _ _ n Hb Ho Hn) as Hp.
  destruct (place b (so_digest so) (order (so_signed so))) as [b' res].
  destruct Hp as (? & _); [by exists row|by exists row|done].
Qed.

Lemma rebuild_loaded now id sos : ∀ b st,
  tables_wf (tables st) → priced (tables st) → book_served (tables st) id b →
  Forall (fetched (tables st) id) sos →
  let '(st', r) := rebuild now sos b st in
  loaded st st' ∧ match r with Ok b' => book_served (tables st') id b' | Err _ => True end.
Proof.
  induction sos as [|so sos IH]; intros b st Hwf Hpr Hb Hf; cbn [rebuild].
  { split; [split_and!; done|done]. }
  apply Forall_cons in Hf as [Hso Hf]. destruct (_ <=? now _).
  - pose proof (tame_loaded _ st (tame_set_order_status (so_digest so) EXPIRED) Hwf Hpr) as Hl.
    unfold mbind, sto_bind. destruct (set_order_status (so_digest so) EXPIRED st) as [st1 [[]|e]]; cbn [fst] in *;
      [|done]. destruct Hl as (? & ? & Hp).
    specialize (IH b st1). destruct (rebuild now sos b st1) as [st2 r]. destruct IH as [Hl2 Hr]; [done|done| | |].
    + by eapply book_served_later.
    + eapply Forall_impl; [exact Hf|]. intros x. by apply fetched_later.
    + split; [|done]. eapply loaded_trans; [|done]. by split_and!.
  - pose proof (place_fetched (tables st) id b so Hwf Hpr Hb Hso) as Hb'.
    destruct (place b (so_digest so) (order (so_signed so))) as [b' res]. by apply IH.
Qed.

(** * The maps *)

Record maps_ok (t : Tables) (maps : Maps) : Prop := {
  mo_books id b : mp_books maps !! id = Some b → book_served t id b;
  mo_markets id m : mp_markets maps !! id = Some m → listed t id m ∧ is_Some (mp_books maps !! id);
}.

Lemma maps_ok_later t t' maps : progress t t' → maps_ok t maps → maps_ok t' maps.
Proof.
  intros Hp [Hb Hm]. split.
  - intros id b Hid. eapply book_served_later; eauto.
  - intros id m Hid. destruct (Hm id m Hid). split; [by eapply listed_later|done].
Qed.

Lemma maps_ok_insert t m b p maps :
  listed t (m_registry_id m) m → book_served t (m_registry_id m) b → maps_ok t maps →
  maps_ok t (mkMaps (<[m_registry_id m := m]> (mp_markets maps)) p (<[m_registry_id m := b]> (mp_books maps))).
Proof.
  intros Hl Hb [Hbs Hms]. split; cbn [mp_books mp_markets].
  - intros id b'. rewrite lookup_insert_Some. intros [[<- <-]|[Hne ?]]; [done|by apply Hbs].
  - intros id m'. rewrite lookup_insert_Some, lookup_insert_is_Some. intros [[<- <-]|[Hne Hid]]; [by auto|].
    destruct (Hms id m' Hid). auto.
Qed.

Lemma load_books_loaded now ms : ∀ maps st,
  tables_wf (tables st) → priced (tables st) → maps_ok (tables st) maps →
  (∀ m p, (m, p) ∈ ms → listed (tables st) (m_registry_id m) m) →
  let '(st', r) := load_books now ms maps st in
  loaded st st' ∧ match r with Ok maps' => maps_ok (tables st') maps' | Err _ => True end.
Proof.
  induction ms as [|[m p] ms IH]; intros maps st Hwf Hpr Hmaps Hms; cbn [load_books].
  { split; [split_and!; done|done]. }
  unfold mbind, sto_bind.
  assert (listed (tables st) (m_registry_id m) m) as Hl by (apply (Hms m p); set_solver).
  pose proof (open_orders_fetched (m_registry_id m) st) as Hf.
  assert (tables (open_orders (m_registry_id m) st).1 = tables st) as Ht by apply conn_query.
  destruct (open_orders (m_registry_id m) st) as [st1 [sos|e]]; cbn [fst snd] in *.
  2: { split; [|done]. unfold loaded. rewrite Ht. by split_and!. }
  specialize (Hf sos Hwf eq_refl). rewrite <- Ht in *.
  pose proof (rebuild_loaded now (m_registry_id m) sos (Book_new m) st1 Hwf Hpr
    (Book_new_served _ _ _ Hl) Hf) as Hr.
  assert (loaded st st1) as Hl1 by (unfold loaded; rewrite Ht in *; by split_and!).
  destruct (rebuild now sos (Book_new m) st1) as [st2 [b|e]]; destruct Hr as [Hl2 Hb].
  2: { split; [by eapply loaded_trans|done]. }
  pose proof Hl2 as (Hwf2 & Hpr2 & Hp2).
  match goal with |- context [load_books now ms ?maps' st2] => specialize (IH maps' st2) end.
  destruct (load_books now ms _ st2) as [st3 r]. destruct IH as [Hl3 Hr]; [done|done| | |].
  - apply maps_ok_insert; [by eapply listed_later|done|by eapply maps_ok_later].
  - intros m' p' Hin. eapply listed_later; [exact Hp2|]. apply (Hms m' p'). set_solver.
  - split; [|done]. eapply loaded_trans; [exact Hl1|]. by eapply loaded_trans.
Qed.

(** The service starts in a state of the invariant. *)
Lemma boot_inv package whitelist direct now ms db s :
  tables_wf (tables db) → priced (tables db) → deployable (tables db) ms →
  boot package whitelist direct now ms db = Some s → app_inv s.
Proof.
  intros Hwf Hpr Hd. unfold boot, load_maps, mbind, sto_bind.
  pose proof (upsert_all_step ms db Hd Hwf Hpr) as Hup.
  destruct (upsert_all ms db) as [st1 [[]|e]]; [|done]. destruct Hup as [Hwf1 Hpr1].
  assert (tame (void (disable_markets_absent_from (m_registry_id <$> ms)))) as Hdis
    by by apply (tame_op _ (DisableAbsent (m_registry_id <$> ms))).
  pose proof (tame_loaded _ st1 Hdis Hwf1 Hpr1) as (Hwf2 & Hpr2 & _). rewrite void_fst in *.
  destruct (disable_markets_absent_from _ st1) as [st2 [n|e]]; [|done]. cbn [fst] in *.
  pose proof (λ m p ms', enabled_listed st2 m p ms' Hwf2) as Hen.
  assert (tables (enabled_markets st2).1 = tables st2) as Ht by apply conn_query.
  destruct (enabled_markets st2) as [st3 [ens|e]]; [|done]. cbn [fst snd] in *. rewrite <- Ht in *.
  pose proof (load_books_loaded now ens (mkMaps ∅ ∅ ∅) st3 Hwf2 Hpr2) as Hload.
  destruct (load_books now ens _ st3) as [st4 [maps|e]]; [|done]. intros [= <-].
  destruct Hload as [(Hwf4 & Hpr4 & _) [Hbs Hms]].
  - split; intros id ?; cbn [mp_books mp_markets]; by rewrite lookup_empty.
  - intros m p. by apply (Hen m p ens).
  - split; cbn; try done; [set_solver|lia|set_solver].
Qed.

Lemma run_seq {S A B} (p : prog S A) (h : A → prog S B) s :
  run (p ≫= h) s = run (h (run p s).2) (run p s).1.
Proof. apply run_bind. Qed.

(** A state that differs in the connections left in the pool only. *)
Definition near (s s' : AppState) : Prop := ∃ pl, s' = set_app_db (mkStore (tables_of s) pl) s.

#[export] Instance near_preorder : PreOrder near.
Proof.
  split.
  - intros s. exists (pool (app_db s)). by destruct s as [? ? ? ? ? [] ? ? ? ? ?].
  - intros s1 s2 s3 [pl ->] [pl' ->]. by exists pl'.
Qed.

Lemma near_same s s' : near s s' → tables_of s' = tables_of s ∧ books s' = books s ∧ markets s' = markets s.
Proof. by intros [pl ->]. Qed.

(** A store query. *)
Lemma run_query {A} (f : Tables → A) s :
  near s (run (db (_ ← conn; query f)) s).1 ∧
  match (run (db (_ ← conn; query f)) s).2 with Ok a => a = f (tables_of s) | Err _ => True end.
Proof.
  unfold db. rewrite run_act. unfold blocking. cbn [get_store put_store app_has_store].
  pose proof (conn_query f (app_db s)) as [Ht Hr].
  destruct ((_ ← conn; query f) (app_db s)) as [st r]. cbn [fst snd] in *. split.
  - exists (pool st). unfold tables_of. cbn [get_store app_has_store]. rewrite <- Ht. by destruct st.
  - by destruct r.
Qed.

Lemma run_db_call {A B} (f : Tables → A) (k : A → prog AppState (result ApiError B)) s :
  ∃ s1, near s s1 ∧
    (run (prog_try (db_call (db (_ ← conn; query f))) k) s = run (k (f (tables_of s))) s1 ∨
     run (prog_try (db_call (db (_ ← conn; query f))) k) s = (s1, Err internal)).
Proof.
  destruct (run_query f s) as [Hn Hr]. exists (run (db (_ ← conn; query f)) s).1. split; [done|].
  rewrite run_try. unfold db_call. rewrite run_seq.
  destruct (run (db (_ ← conn; query f)) s) as [s1 [a|e]]; cbn [fst snd run] in *; [left; by subst|by right].
Qed.

Lemma run_get_order {B} d (k : option StoredOrder → prog AppState (result ApiError B)) s :
  ∃ s1, near s s1 ∧
    (run (prog_try (db_call (store.get_order d)) k) s = run (k (stored_order <$> order_row d (tables_of s))) s1 ∨
     run (prog_try (db_call (store.get_order d)) k) s = (s1, Err internal)).
Proof. exact (run_db_call (A := option StoredOrder) (λ t, stored_order <$> order_row d t) k s). Qed.

(** A status update. *)
Lemma run_set_order_status d st s :
  (∃ pl, run (store.set_order_status d st) s =
     (set_app_db (mkStore (update_order d (set_or_status st) (tables_of s)) pl) s, Ok tt)) ∨
  (∃ s1 e, near s s1 ∧ run (store.set_order_status d st) s = (s1, Err e)).
Proof.
  unfold store.set_order_status, db. rewrite run_act. unfold blocking. cbn [get_store put_store app_has_store].
  unfold set_order_status, mbind, sto_bind, conn, execute, near, tables_of. cbn [get_store app_has_store].
  destruct (app_db s) as [t [|[] pl]]; cbn [tables pool]; [left; by eexists|left; by eexists|].
  right. eexists _, _. split; [|done]. by exists pl.
Qed.

Lemma run_ret_try {A B} (r : result ApiError A) (k : A → prog AppState (result ApiError B)) s :
  run (prog_try (Ret r) k) s = match r with Ok a => run (k a) s | Err e => (s, Err e) end.
Proof. by destruct r. Qed.

Lemma alter_hit (f : Book → Book) (id : SuiAddress) (m : gmap SuiAddress Book) b : m !! id = Some b → alter f id m = <[id := f b]> m.
Proof.
  intros E. apply map_eq. intros k. destruct (decide (k = id)) as [->|].
  - by rewrite lookup_alter_eq, E, lookup_insert_eq.
  - by rewrite lookup_alter_ne, lookup_insert_ne.
Qed.

Lemma alter_miss (f : Book → Book) (id : SuiAddress) (m : gmap SuiAddress Book) : m !! id = None → alter f id m = m.
Proof.
  intros E. apply map_eq. intros k. destruct (decide (k = id)) as [->|].
  - by rewrite lookup_alter_eq, E.
  - by rewrite lookup_alter_ne.
Qed.

Section runs.
Context `{HexCrate}.

(** ** Books *)

Lemma run_lock_ r f s : (run (lock_ r f) s).1 = set_app_books (alter f r (books s)) s.
Proof.
  unfold lock_. rewrite run_seq. unfold lock. rewrite run_act. cbn [run fst].
  destruct (books s !! r) as [b|] eqn:E; cbn [fst].
  - by rewrite (alter_hit _ _ _ _ E).
  - rewrite (alter_miss _ _ _ E). by destruct s.
Qed.

Lemma run_remove_from_book id d s :
  (run (remove_from_book id d) s).1 = set_app_books (alter (λ b, (remove b d).1) id (books s)) s.
Proof.
  unfold remove_from_book, book. rewrite run_seq. cbn [run read act fst snd].
  destruct (books s !! id) eqn:E; [apply run_lock_|].
  cbn [run fst]. rewrite (alter_miss _ _ _ E). by destruct s.
Qed.

(** ** Publications *)

Lemma run_publish chan v s : ∃ w, (run (publish chan v) s).1 = set_app_ws w s.
Proof. eexists. unfold publish, modify. by rewrite run_act. Qed.

Lemma set_app_ws_ws w w' s : set_app_ws w (set_app_ws w' s) = set_app_ws w s.
Proof. done. Qed.

Lemma run_publish_book_snapshot m s : ∃ w, (run (publish_book_snapshot m) s).1 = set_app_ws w s.
Proof.
  unfold publish_book_snapshot, book. rewrite run_seq. cbn [run read act fst snd].
  destruct (books s !! m_registry_id m) as [b|] eqn:E; [|exists (ws_tx s); by destruct s].
  rewrite run_seq. unfold lock. rewrite run_act. cbv beta.
  change (@lookup BookRef) with (@lookup SuiAddress). rewrite E. cbn [fst snd].
  rewrite (insert_id _ _ _ E). assert (set_app_books (books s) s = s) as -> by (by destruct s).
  apply run_publish.
Qed.
End runs.
