(* ===== verification/ServiceDemo.v ===== *)
(** A service at work, for the concrete instances: one market, two resting
    asks of one manager, a funded escrow, stand-ins for the third-party
    parsers, the hash and the signature schemes. *)

From S2P Require Import Prelude Prog Channel RustStr ExchangeTypes Demo Book BookInv MoveType Crates Signing Repo RepoProps RepoTheorems Intake IntakeTheorems Db Settlement Json Wire Sync State Service ServiceInv ServiceBoot.
From S2P Require Events Discovery.

Definition demo_dash : DashMapCrate := {| dash_values V m := (map_to_list m).*2 |}.

Definition demo_parsers : Events.ChainParsers := {|
  Events.transaction_digest_from_str s := Some s;
  Events.struct_tag_name s := Some s;
  Events.sui_address_from_str _ := None;
  Events.rfc3339_timestamp_millis _ := None;
|}.

#[local] Existing Instance bcs_format.
#[local] Existing Instance demo_crypto.

(** Signed with the key the stand-in schemes accept, whose address is
    [demo_addr 96]. *)
Definition demo_ask (mk n ticks z : Z) : SignedOrder := with_salt z (demo_signed Ask mk n ticks).
Definition demo_bid (mk n ticks z : Z) : SignedOrder := with_salt z (demo_signed Bid mk n ticks).

Lemma with_salt_wf z so : u64 z → order_wf (order so) → order_wf (order (with_salt z so)).
Proof. intros Hz (? & ? & ? & ? & _ & ? & ? & ? & ?). by split_and!. Qed.

Definition demo_id (n : Z) : Digest := mkDigest (replicate 32 n).

Definition demo_service_ops : list StoreOp :=
  [UpsertMarket demo_market;
   BalanceDelta (demo_addr 9) (base demo_market) 8000;
   BalanceDelta (demo_addr 9) (quote demo_market) 50;
   SetSigner (demo_addr 9) (demo_addr 96) true;
   InsertOrder (demo_id 1) (demo_ask 1 1000 5 1) Ask 5 [];
   InsertOrder (demo_id 2) (demo_ask 1 2000 6 2) Ask 6 []].

Definition demo_service_store : Store := store_run demo_service_ops (mkStore empty_tables []).

Lemma demo_signed_wf s mk n ticks z :
  0 ≤ mk < 256 → u64 n → u64 (n * ticks / 1000) → u64 z → order_wf (order (with_salt z (demo_signed s mk n ticks))).
Proof. intros. apply with_salt_wf; [done|]. by apply demo_order_wf. Qed.

Ltac small := split; vm_compute; discriminate.

Lemma demo_service_wf : tables_wf (tables demo_service_store).
Proof.
  apply store_run_wf; [|apply empty_tables_wf]. unfold demo_service_ops.
  repeat (apply Forall_cons; split); try apply Forall_nil_2; cbn [op_wf];
    first [exact demo_market_wf|exact I|split; [apply demo_signed_wf; [lia|small..]|small]].
Qed.

Lemma demo_service_priced : priced (tables demo_service_store).
Proof.
  intros row r Hrow Hr.
  assert (forallb (λ row, bool_decide (no_registry_id (or_values row) = demo_addr 7) &&
      match price_and_size demo_market (order (no_order_json (or_values row))) with
      | Ok (sd, ticks, _) => bool_decide (sd = no_side (or_values row)) && (ticks =? no_price_ticks (or_values row))
      | Err _ => false
      end)
    (exchange_orders (tables demo_service_store)) = true) as Hall by (vm_compute; reflexivity).
  rewrite forallb_forall in Hall. specialize (Hall row). rewrite <- list_elem_of_In in Hall.
  specialize (Hall Hrow). apply andb_true_iff in Hall as [Hreg Hp].
  apply bool_decide_eq_true in Hreg. rewrite Hreg in Hr.
  assert (option_map row_market (exchange_markets (tables demo_service_store) !! demo_addr 7) = Some demo_market) as Hm
    by (vm_compute; reflexivity).
  rewrite Hr in Hm. apply (inj Some) in Hm. rewrite Hm.
  destruct (price_and_size demo_market _) as [[[sd ticks] n]|e]; [|done]. reflect_bools. exists n. by subst.
Qed.

Lemma demo_service_deployable : deployable (tables demo_service_store) [demo_market].
Proof.
  split.
  - apply Forall_singleton. exact demo_market_wf.
  - intros m m' ->%list_elem_of_singleton ->%list_elem_of_singleton _. by split.
  - intros m r ->%list_elem_of_singleton Hr.
    assert (option_map row_market (exchange_markets (tables demo_service_store) !! m_registry_id demo_market) =
      Some demo_market) as Hm by (vm_compute; reflexivity).
    rewrite Hr in Hm. apply (inj Some) in Hm. rewrite Hm. by split.
Qed.

Definition demo_boot : option AppState :=
  boot (str "0xe") None None (λ _, 0) [demo_market] demo_service_store.

(** The state the service starts with. *)
Definition demo_app : AppState :=
  default (mkAppState [] None ∅ ∅ ∅ demo_service_store (mkQueue [] [] true) [] IntakeConfig_default None (mkFeed [] O))
    demo_boot.

Lemma demo_app_boot : demo_boot = Some demo_app.
Proof.
  unfold demo_app. assert (match demo_boot with Some _ => true | None => false end = true) as H by (vm_compute; reflexivity).
  by destruct demo_boot.
Qed.

Lemma demo_app_inv : app_inv demo_app.
Proof.
  exact (boot_inv _ _ _ _ _ _ _ demo_service_wf demo_service_priced demo_service_deployable demo_app_boot).
Qed.

Lemma demo_app_known id : is_Some (books demo_app !! id) ↔ id = demo_addr 7.
Proof.
  assert (dom (books demo_app) = {[demo_addr 7]}) as Hd by (vm_compute; reflexivity).
  rewrite <- elem_of_dom, Hd. apply elem_of_singleton.
Qed.

(** Deposit events as the GraphQL service reports them, and an ingestor. *)
Definition demo_node (typ : string) (json : Value) : Value :=
  jobj [("transaction", jobj [("digest", jstr (str "tx"))]);
        ("contents", jobj [("type", jobj [("repr", jstr (str typ))]); ("json", json)]);
        ("sequenceNumber", jnum 0)]%string.

Definition demo_deposit (amount : Z) : Value :=
  demo_node "DepositEvent"
    (jobj [("manager", JString (SuiAddress_to_hex (demo_addr 9))); ("token", JString (base demo_market));
           ("amount", jdec amount)]%string).

Definition demo_ingestor : EventIngestor := mkEventIngestor (str "0xe") None (Discovery.mkMarketFactory None []).
