(* ===== verification/SyncTheorems.v ===== *)
(** The event ingestor follows the protocol of the service; its cursors and the
    pages it applies. *)

From S2P Require Import Prelude Prog RustStr ExchangeTypes MoveType Repo RepoProps RepoTheorems Db Json Wire Sync Settlement State ServiceInv ServiceTasks Demo ServiceBoot Crates Signing ServiceDemo.
From S2P Require Events Discovery.

(** * Ranges *)

Section parse.
Context `{HexCrate, Base64Crate, Events.ChainParsers}.

Lemma get_u64_range j k n : value_wf j → Sync.get_u64 j k = Some n → u64 n.
Proof.
  intros Hj. unfold Sync.get_u64. destruct (Json.get j k) as [x|] eqn:Hx; [|done]. cbn [mbind option_bind].
  apply value_wf_get in Hx; [|done]. destruct x as [| |m|s| |]; try done.
  - apply as_u64_wf. by intros m' [= <-].
  - destruct (parse_u64 s) as [z|] eqn:E; [|done]. intros [= <-]. by apply parse_u64_range in E.
Qed.

(** The fields of an event in turn. *)
Ltac event_fields :=
  repeat lazymatch goal with
  | |- mbind _ ?o = Some _ → _ => destruct o eqn:?; [cbn [mbind option_bind]|done]
  end.

Lemma parse_event_wf ev e :
  value_wf (Events.parsed_json ev) → Sync.parse_event ev = Some e → ev_wf e.
Proof.
  intros Hj. unfold Sync.parse_event, parse_fill. cbv zeta.
  repeat (case_bool_decide; [event_fields; intros [= <-]; simpl;
    repeat match goal with
    | E : Sync.get_u64 _ _ = Some _ |- _ => apply get_u64_range in E; [|exact Hj]
    end; by split_and?|]). done.
Qed.

Lemma node_event_wf node ev : value_wf node → Events.parse_event node = Some ev → value_wf (Events.parsed_json ev).
Proof.
  intros Hn. unfold Events.parse_event.
  destruct (pointer [str "contents"; str "json"] node) as [v|] eqn:E; event_fields; intros [= <-]; [|done].
  by eapply value_wf_pointer.
Qed.

(** An HTTP exchange returns JSON values. *)
Definition post_wf (post : Events.Request → option Value) : Prop := ∀ req v, post req = Some v → value_wf v.

Lemma query_wf post f cursor limit page :
  post_wf post → Events.query post f cursor limit false = Ok page →
  ∀ ev, ev ∈ Events.data page → value_wf (Events.parsed_json ev).
Proof.
  intros Hpost. unfold Events.query. destruct (post _) as [body|] eqn:Hb; [|done]. apply Hpost in Hb.
  cbn [ok_or mbind result_bind]. destruct (Json.get body (str "errors")); [done|].
  destruct (pointer [str "data"; str "events"] body) as [events|] eqn:He; [|done].
  cbn [ok_or mbind result_bind]. intros [= <-] ev. cbn [Events.data].
  apply value_wf_pointer in He; [|done].
  destruct (Json.get events (str "nodes")) as [v|] eqn:Hv; cbn [and_then]; [|set_solver].
  apply value_wf_get in Hv; [|done]. destruct v; cbn [as_array]; try set_solver.
  rewrite list_elem_of_omap. intros (node & Hin & Hp). apply value_wf_array in Hv.
  rewrite Forall_forall in Hv. eapply node_event_wf; [|exact Hp]. by apply Hv.
Qed.
End parse.

(** * The ingestor follows the protocol *)

Lemma build_wf f registry base quote tick min fee m :
  u64 tick → u64 min → u64 fee →
  Discovery.build f registry base quote tick min fee = Some m → market_wf m.
Proof.
  intros. unfold Discovery.build in *. destruct (canonicalize_move_type base) as [b|]; [|done].
  destruct (canonicalize_move_type quote) as [q|]; [|done].
  match goal with E : mbind _ ?o = Some _ |- _ => destruct o as [[sym dec]|] end; [|done].
  simplify_eq/=. split_and!; try done. split; simpl; unfold wrap64; [apply Z.mod_pos_bound; lia|].
  pose proof (Z.mod_pos_bound (10 ^ dec) (2 ^ 64)). unfold u64_max. lia.
Qed.

Lemma u64_as_i64_range z : u64 z → i64 (u64_as_i64 z).
Proof. unfold u64, i64, u64_as_i64, u64_max, i64_min, i64_max. intros. case_decide; lia. Qed.

Section ingest.
Context `{HexCrate, Base64Crate, Events.ChainParsers}.

Lemma stored_follows {A} (p : prog AppState (result StoreError A)) : follows p → follows (stored p).
Proof. intros Hp. apply follows_seq; [done|]. intros. apply follows_ret. Qed.

Lemma stored_tame {A} (m : sto A) : tame m → follows (stored (db (S := AppState) m)).
Proof. intros Hm. by apply stored_follows, follows_store. Qed.

Lemma follows_try {E A B} (p : prog AppState (result E A)) (h : A → prog AppState (result E B)) :
  follows p → (∀ a, follows (h a)) → follows (prog_try p h).
Proof. intros Hp Hh. apply follows_seq; [done|]. intros [a|e]; [apply Hh|apply follows_ret]. Qed.

Lemma follows_mirror_fill d b q mf sold : follows (mirror_fill (S := AppState) d b q mf sold).
Proof.
  assert (∀ mgr tok delta, follows (stored (store.apply_balance_delta (S := AppState) mgr tok delta))) as Hdelta
    by (intros; apply stored_tame, tame_apply_balance_delta).
  unfold mirror_fill. apply follows_try; [apply stored_follows, follows_get_order|].
  intros [so|]; [cbv zeta|apply follows_ret].
  apply follows_try; [apply stored_follows, follows_vault_manager|]. intros v.
  destruct (match v with Some _ => _ | None => _ end); [apply follows_ret|].
  destruct sold; (apply follows_try; [apply Hdelta|]; intros _;
    apply follows_try; [apply Hdelta|]; intros _; apply follows_ret).
Qed.

Lemma follows_apply ing raw ev : ev_wf ev → follows (Sync.apply (S := AppState) ing raw ev).
Proof.
  destruct ev; cbn [Sync.apply ev_wf]; intros Hev.
  - apply follows_try; [apply stored_tame, tame_apply_fill|].
    + apply u64_as_i64_range. apply Hev.
    + intros []; [apply follows_mirror_fill|apply follows_ret].
  - apply stored_tame, tame_set_order_status.
  - by apply stored_tame, tame_set_watermark.
  - apply follows_try; [apply stored_tame, tame_apply_balance_delta|]. intros; apply follows_ret.
  - apply follows_try; [apply stored_tame, tame_apply_balance_delta|]. intros; apply follows_ret.
  - apply stored_tame, tame_set_signer.
  - apply stored_tame, tame_set_signer.
  - apply stored_tame, tame_upsert_vault_manager.
  - destruct (Discovery.build _ _ _ _ _ _ _) as [m|] eqn:E; [|apply follows_ret].
    destruct Hev as (? & ? & ?). apply build_wf in E; [|done..].
    apply follows_try; [by apply stored_tame, tame_insert_discovered|]. intros; apply follows_ret.
  - apply stored_tame, tame_set_market_paused.
  - by apply stored_tame, tame_set_market_fee.
Qed.

Lemma follows_send_event ev : ev_wf ev → follows (modify (send_event (S := AppState) ev)).
Proof.
  intros Hev. apply follows_modify. intros s Hs. apply app_step_channels; try done; [apply Hs..|].
  cbn. unfold feed_send. intros ev'. case_match; cbn [fd_events];
    rewrite elem_of_app, list_elem_of_singleton; intros [Hin| ->]; try done; apply Hs; [done|].
  by eapply elem_of_subseteq; [|exact Hin]; apply subseteq_drop.
Qed.

Lemma follows_apply_page ing evs :
  (∀ ev, ev ∈ evs → value_wf (Events.parsed_json ev)) → follows (apply_page (S := AppState) ing evs).
Proof.
  induction evs as [|ev evs IH]; intros Hevs; cbn [apply_page]; [apply follows_ret|].
  assert (follows (apply_page (S := AppState) ing evs)) as Hrest by (apply IH; set_solver).
  destruct (Sync.parse_event ev) as [e|] eqn:E; [|exact Hrest].
  apply parse_event_wf in E; [|apply Hevs; set_solver].
  apply follows_try; [by apply follows_apply|]. intros _.
  apply follows_try; [apply follows_seq; [by apply follows_send_event|intros; apply follows_ret]|]. done.
Qed.

Lemma follows_poll_module ing post cursor_name module :
  post_wf post → follows (poll_module (S := AppState) ing post cursor_name module).
Proof.
  intros Hpost. unfold poll_module.
  apply follows_try; [apply stored_follows, (follows_query _)|]. intros cursor.
  destruct (Events.query_by_module post module cursor page_size false) as [page|e] eqn:E; [|apply follows_ret].
  pose proof (query_wf _ _ _ _ _ Hpost E) as Hw. cbn [map_err].
  change (follows (_ ←? apply_page (S := AppState) ing (Events.data page);
    _ ←? match Events.next_cursor page with
         | Some next => stored (store.save_cursor cursor_name next)
         | None => Ret (Ok ())
         end;
    Ret (Ok (Events.has_next_page page)))).
  apply follows_try; [by apply follows_apply_page|]. intros _.
  apply follows_try; [|intros; apply follows_ret].
  destruct (Events.next_cursor page); [|apply follows_ret]. apply stored_tame, tame_save_cursor.
Qed.

Lemma follows_run_round ing post ss drained :
  post_wf post → follows (run_round (S := AppState) ing post ss drained).
Proof.
  intros Hpost. revert drained. induction ss as [|[cursor_name module] ss IH]; intros drained;
    cbn [run_round]; [apply follows_ret|].
  apply follows_seq; [by apply follows_poll_module|]. intros r. apply IH.
Qed.

Lemma follows_ingestor_run ing posts :
  Forall post_wf posts → follows (ingestor_run (S := AppState) ing posts).
Proof.
  intros Hposts. unfold ingestor_run. apply follows_for_each. intros post Hin.
  rewrite Forall_forall in Hposts. apply follows_seq; [by apply follows_run_round, Hposts|].
  intros; apply follows_ret.
Qed.
End ingest.

(** * Computations that do not look at the cursors *)

Definition recursor (c : gmap rstring rstring) (st : Store) : Store := mkStore (set_cursors c (tables st)) (pool st).

Definition blind {A} (m : sto A) : Prop := ∀ st,
  (∀ c, m (recursor c st) = (recursor c (m st).1, (m st).2)) ∧ (pool st = [] → pool (m st).1 = []).

Lemma blind_bind {A B} (m : sto A) (f : A → sto B) : blind m → (∀ a, blind (f a)) → blind (m ≫= f).
Proof.
  intros Hm Hf st. destruct (Hm st) as [Hmc Hmp]. unfold mbind, sto_bind. split.
  - intros c. rewrite Hmc. destruct (m st) as [st1 [a|e]]; cbn [fst snd]; [|done]. by destruct (Hf a st1).
  - intros Hp. specialize (Hmp Hp). destruct (m st) as [st1 [a|e]]; cbn [fst snd] in *; [|done].
    by destruct (Hf a st1); auto.
Qed.

Lemma blind_conn : blind conn.
Proof. intros [t [|[] pl]]; split; done. Qed.

Lemma blind_query {A} (f : Tables → A) : (∀ c t, f (set_cursors c t) = f t) → blind (query f).
Proof. intros Hf st. split; [|done]. intros c. unfold query, recursor. cbn. by rewrite Hf. Qed.

Lemma blind_execute (f : Tables → Tables) : (∀ c t, f (set_cursors c t) = set_cursors c (f t)) → blind (execute f).
Proof. intros Hf st. split; [|done]. intros c. unfold execute, recursor. cbn. by rewrite Hf. Qed.

Lemma blind_pure {A} (r : result StoreError A) : blind (λ st, (st, r)).
Proof. by intros st. Qed.

Ltac blind :=
  repeat lazymatch goal with
  | |- blind (mbind _ _) => apply blind_bind; [|intros ?]
  | |- blind conn => apply blind_conn
  | |- blind (query _) => apply blind_query; done
  | |- blind (execute _) => apply blind_execute
  | |- blind (sto_lift _) => apply blind_pure
  | |- blind (mret _) => apply blind_pure
  | |- blind (match ?x with _ => _ end) => destruct x
  | |- blind (if ?x then _ else _) => destruct x
  end; try done.

Lemma blind_apply_balance_delta mgr tok delta : blind (apply_balance_delta mgr tok delta).
Proof. unfold apply_balance_delta. blind. Qed.

Lemma blind_set_order_status d st : blind (set_order_status d st).
Proof. unfold set_order_status. blind. Qed.

Lemma blind_set_signer mgr sg b : blind (set_signer mgr sg b).
Proof. unfold set_signer. blind. intros c t. by destruct b. Qed.

Lemma blind_set_watermark r mk salt : blind (set_watermark r mk salt).
Proof. unfold set_watermark. blind. Qed.

Lemma blind_upsert_vault_manager row : blind (upsert_vault_manager row).
Proof. unfold upsert_vault_manager. blind. Qed.

Lemma blind_insert_discovered_market m : blind (insert_discovered_market m).
Proof. unfold insert_discovered_market. blind. Qed.

Lemma blind_set_market_paused id b : blind (Repo.set_market_paused id b).
Proof. unfold Repo.set_market_paused. blind. Qed.

Lemma blind_set_market_fee id fee : blind (Repo.set_market_fee id fee).
Proof. unfold Repo.set_market_fee. blind. Qed.

Lemma blind_apply_fill f : blind (apply_fill f).
Proof.
  unfold apply_fill. blind. intros c t. unfold advance_order.
  change (order_row (nf_digest f) (set_fills ?x (set_cursors c t))) with (order_row (nf_digest f) (set_fills x t)).
  destruct (order_row _ _) as [row|]; [|done]. cbv zeta. by destruct (_ <=? _).
Qed.

(** ** The same for programs *)

Definition recur (c : gmap rstring rstring) (s : AppState) : AppState := set_app_db (recursor c (app_db s)) s.

Definition online (s : AppState) : Prop := pool (app_db s) = [].

Definition blind_prog {A} (p : prog AppState A) : Prop := ∀ s,
  (∀ c, run p (recur c s) = (recur c (run p s).1, (run p s).2)) ∧ (online s → online (run p s).1).

Lemma recur_recur c c' s : recur c (recur c' s) = recur c s.
Proof. done. Qed.

Lemma recur_self s : recur (exchange_cursors (tables_of s)) s = s.
Proof. by destruct s as [? ? ? ? ? [[] ?] ? ? ? ? ?]. Qed.

Lemma blind_run {A} (p : prog AppState A) s :
  blind_prog p → exchange_cursors (tables_of (run p s).1) = exchange_cursors (tables_of s).
Proof.
  intros Hp. destruct (Hp s) as [Hc _]. specialize (Hc (exchange_cursors (tables_of s))).
  rewrite recur_self in Hc. rewrite (f_equal fst Hc). done.
Qed.

Lemma blind_ret {A} (a : A) : blind_prog (Ret a).
Proof. by intros s. Qed.

Lemma blind_seq {A B} (p : prog AppState A) (h : A → prog AppState B) :
  blind_prog p → (∀ a, blind_prog (h a)) → blind_prog (prog_bind h p).
Proof.
  intros Hp Hh s. destruct (Hp s) as [Hpc Hpo]. split.
  - intros c. rewrite !run_bind, Hpc. cbn [fst snd]. by apply Hh.
  - intros Ho. rewrite run_bind. by apply Hh, Hpo.
Qed.

Lemma blind_try {E A B} (p : prog AppState (result E A)) (h : A → prog AppState (result E B)) :
  blind_prog p → (∀ a, blind_prog (h a)) → blind_prog (prog_try p h).
Proof. intros Hp Hh. apply blind_seq; [done|]. intros [a|e]; [apply Hh|apply blind_ret]. Qed.

Lemma blind_db {A} (m : sto A) : blind m → blind_prog (db (S := AppState) m).
Proof.
  intros Hm s. unfold db. rewrite run_act. destruct (Hm (app_db s)) as [Hc Hp]. unfold online.
  unfold blocking. cbn [get_store put_store app_has_store]. split.
  - intros c. rewrite run_act. change (app_db (recur c s)) with (recursor c (app_db s)). rewrite Hc.
    by destruct (m (app_db s)).
  - destruct (m (app_db s)) as [st r]. exact Hp.
Qed.

Lemma blind_stored {A} (m : sto A) : blind m → blind_prog (stored (db (S := AppState) m)).
Proof. intros Hm. apply blind_seq; [by apply blind_db|]. intros; apply blind_ret. Qed.

Lemma blind_mirror_fill d b q mf sold : blind_prog (mirror_fill (S := AppState) d b q mf sold).
Proof.
  assert (∀ mgr tok delta, blind_prog (stored (store.apply_balance_delta (S := AppState) mgr tok delta))) as Hdelta
    by (intros; apply blind_stored, blind_apply_balance_delta).
  unfold mirror_fill. apply blind_try; [apply blind_stored; unfold get_order; blind|].
  intros [so|]; [cbv zeta|apply blind_ret].
  apply blind_try; [apply blind_stored; unfold vault_manager; blind|]. intros v.
  destruct (match v with Some _ => _ | None => _ end); [apply blind_ret|].
  destruct sold; (apply blind_try; [apply Hdelta|]; intros _; apply blind_try; [apply Hdelta|]; intros _; apply blind_ret).
Qed.

Lemma blind_apply ing raw ev : blind_prog (Sync.apply (S := AppState) ing raw ev).
Proof.
  destruct ev; cbn [Sync.apply].
  - apply blind_try; [apply blind_stored, blind_apply_fill|].
    intros []; [apply blind_mirror_fill|apply blind_ret].
  - apply blind_stored, blind_set_order_status.
  - apply blind_stored, blind_set_watermark.
  - apply blind_try; [apply blind_stored, blind_apply_balance_delta|]. intros; apply blind_ret.
  - apply blind_try; [apply blind_stored, blind_apply_balance_delta|]. intros; apply blind_ret.
  - apply blind_stored, blind_set_signer.
  - apply blind_stored, blind_set_signer.
  - apply blind_stored, blind_upsert_vault_manager.
  - destruct (Discovery.build _ _ _ _ _ _ _); [|apply blind_ret].
    apply blind_try; [apply blind_stored, blind_insert_discovered_market|]. intros; apply blind_ret.
  - apply blind_stored, blind_set_market_paused.
  - apply blind_stored, blind_set_market_fee.
Qed.

(** A program that sends nothing to the event feed. *)
Definition silent {A} (p : prog AppState A) : Prop := ∀ s, sync_feed (run p s).1 = sync_feed s.

Lemma silent_try {E A B} (p : prog AppState (result E A)) (h : A → prog AppState (result E B)) :
  silent p → (∀ a, silent (h a)) → silent (prog_try p h).
Proof. intros Hp Hh s. rewrite run_try. destruct (run p s).2 as [a|e]; [rewrite Hh|]; apply Hp. Qed.

Lemma silent_stored {A} (m : sto A) : silent (stored (db (S := AppState) m)).
Proof. intros s. unfold stored, db. rewrite run_bind, run_act. unfold blocking. by destruct (m _). Qed.

Lemma silent_ret {A} (a : A) : silent (Ret a).
Proof. by intros s. Qed.

Lemma silent_apply ing raw ev : silent (Sync.apply (S := AppState) ing raw ev).
Proof.
  assert (∀ A B (m : sto A) (b : B), silent (prog_try (stored (db (S := AppState) m)) (λ _, Ret (Ok b)))) as Hthen.
  { intros. apply silent_try; [apply silent_stored|intros; apply silent_ret]. }
  destruct ev; cbn [Sync.apply]; try apply silent_stored; try apply Hthen.
  - apply silent_try; [apply silent_stored|]. intros []; [|apply silent_ret]. unfold mirror_fill.
    apply silent_try; [apply silent_stored|]. intros [so|]; [cbv zeta|apply silent_ret].
    apply silent_try; [apply silent_stored|]. intros v. destruct (match v with Some _ => _ | None => _ end); [apply silent_ret|].
    destruct maker_sold_base; (apply silent_try; [apply silent_stored|]); intros _; apply Hthen.
  - destruct (Discovery.build _ _ _ _ _ _ _); [apply Hthen|apply silent_ret].
Qed.

(** The feed after some events. *)
Definition feed_all (evs : list ExchangeEvent) (f : Feed) : Feed := foldl (λ f ev, feed_send ev f) f evs.

Lemma near_feed s s' : near s s' → sync_feed s' = sync_feed s.
Proof. by intros [pl ->]. Qed.

Section ingest.
Context `{HexCrate, Base64Crate, Events.ChainParsers}.

(** Every event of a page is announced once, in order, up to the failure. *)
Lemma apply_page_feed ing evs s :
  let out := run (apply_page (S := AppState) ing evs) s in
  let typed := omap Sync.parse_event evs in
  match out.2 with
  | Ok _ => sync_feed out.1 = feed_all typed (sync_feed s)
  | Err _ => ∃ sent, sent `prefix_of` typed ∧ sync_feed out.1 = feed_all sent (sync_feed s)
  end.
Proof.
  cbv zeta. revert s. induction evs as [|ev evs IH]; intros s; cbn [apply_page]; [done|].
  cbn [omap list_omap]. destruct (Sync.parse_event ev) as [e|]; [|apply IH].
  rewrite run_try. pose proof (silent_apply ing ev e s) as Hq.
  destruct (run (Sync.apply ing ev e) s) as [s1 [[]|err]]; cbn [fst snd] in *.
  2: { exists []. split; [apply prefix_nil|done]. }
  rewrite run_try, run_bind. cbn [modify act run fst snd].
  specialize (IH (send_event e s1)). rewrite <- Hq.
  destruct (run (apply_page ing evs) (send_event e s1)) as [s2 [[]|err]]; cbn [fst snd] in *; [done|].
  destruct IH as (sent & Hpre & Hs). exists (e :: sent). split; [by apply prefix_cons|done].
Qed.

Lemma blind_apply_page ing evs : blind_prog (apply_page (S := AppState) ing evs).
Proof.
  induction evs as [|ev evs IH]; cbn [apply_page]; [apply blind_ret|].
  destruct (Sync.parse_event ev) as [e|]; [|exact IH].
  apply blind_try; [apply blind_apply|]. intros _. apply blind_try; [|intros; exact IH].
  apply blind_seq; [by intros s|]. intros; apply blind_ret.
Qed.

(** A page is applied event by event. *)
Lemma apply_page_app ing l1 l2 s :
  run (apply_page (S := AppState) ing (l1 ++ l2)) s =
  run (prog_try (apply_page ing l1) (λ _, apply_page ing l2)) s.
Proof.
  revert s. induction l1 as [|ev l1 IH]; intros s; cbn [app apply_page]; [done|].
  destruct (Sync.parse_event ev) as [e|]; [|apply IH].
  rewrite run_try_assoc, !run_try. destruct (run (Sync.apply ing ev e) s) as [s1 [[]|err]]; cbn [fst snd]; [|done].
  destruct (run _ s1) as [s2 [[]|err]]; cbn [fst snd]; [|done]. rewrite IH. by rewrite run_try.
Qed.

(** * One poll *)

Lemma run_stored {A} (p : prog AppState (result StoreError A)) s :
  run (stored p) s = ((run p s).1, map_err SyncStore (run p s).2).
Proof. unfold stored. by rewrite run_bind. Qed.

Lemma run_load_cursor name s :
  near s (run (store.load_cursor name) s).1 ∧
  match (run (store.load_cursor name) s).2 with Ok c => c = exchange_cursors (tables_of s) !! name | Err _ => True end.
Proof. unfold store.load_cursor. by destruct (run_query (λ t, exchange_cursors t !! name) s). Qed.

Lemma run_save_cursor name c s :
  near match (run (store.save_cursor (S := AppState) name c) s).2 with
       | Ok _ => recur (<[name := c]> (exchange_cursors (tables_of s))) s
       | Err _ => s
       end (run (store.save_cursor (S := AppState) name c) s).1.
Proof.
  unfold store.save_cursor, db. rewrite run_act. unfold blocking. cbn [get_store put_store app_has_store].
  unfold save_cursor, mbind, sto_bind, conn, execute, tables_of, near.
  destruct s as [? ? ? ? ? [t [|[] pl]] ? ? ? ? ?]; cbn; by eexists.
Qed.

(** C33: The cursor of a stream moves only with a successful poll.  A poll
    that succeeds asked for the page at the cursor, applied its events to the
    state it found, each announced once and in order, and left that state but
    for this stream's cursor, which stands at the end cursor of the page; it
    reports whether there is more.  Whatever fails during a poll (a database
    call, the HTTP exchange, an answer that carries errors, an event that
    cannot be mirrored), every cursor is the one before, so the next poll asks
    for the same page again, although the events up to the failure have been
    announced.  ([near] states differ in the pool of connections only.) *)
Theorem poll_cursor_follows_page ing post name module s :
  let '(after, r) := run (poll_module (S := AppState) ing post name module) s in
  let cursors := exchange_cursors (tables_of s) in
  let answer := Events.query_by_module post module (cursors !! name) page_size false in
  match r with
  | Ok more => ∃ page s0 s1,
      answer = Ok page ∧ near s s0 ∧
      run (apply_page (S := AppState) ing (Events.data page)) s0 = (s1, Ok tt) ∧
      sync_feed s1 = feed_all (omap Sync.parse_event (Events.data page)) (sync_feed s) ∧
      near match Events.next_cursor page with Some next => recur (<[name := next]> cursors) s1 | None => s1 end after ∧
      more = Events.has_next_page page
  | Err _ =>
      exchange_cursors (tables_of after) = cursors ∧
      ∃ sent, sync_feed after = feed_all sent (sync_feed s) ∧
        match answer with Ok page => sent `prefix_of` omap Sync.parse_event (Events.data page) | Err _ => sent = [] end
  end.
Proof.
  unfold poll_module. rewrite run_try, run_stored. cbn [fst snd].
  destruct (run_load_cursor name s) as [Hn0 Hl].
  destruct (run (store.load_cursor name) s) as [s0 [c|e]]; cbn [fst snd map_err] in *;
    pose proof (near_feed _ _ Hn0) as Hf0; destruct (near_same _ _ Hn0) as (Ht0 & _).
  2: { rewrite Ht0. split; [done|]. exists []. split; [done|]. destruct (Events.query_by_module _ _ _ _ _); [apply prefix_nil|done]. }
  subst c. rewrite run_try. cbn [run fst snd]. destruct (Events.query_by_module _ _ _ _ _) as [page|e] eqn:Hq; cbn [map_err].
  2: { cbn [run]. rewrite Ht0. split; [done|]. by exists []. }
  rewrite run_try. pose proof (blind_run _ s0 (blind_apply_page ing (Events.data page))) as Hb.
  pose proof (apply_page_feed ing (Events.data page) s0) as Hfeed. cbv zeta in Hfeed.
  destruct (run (apply_page ing (Events.data page)) s0) as [s1 [[]|e]] eqn:Ha; cbn [fst snd] in *; rewrite Ht0 in Hb; rewrite Hf0 in Hfeed.
  2: { split; [done|]. destruct Hfeed as (sent & ? & ?). by exists sent. }
  rewrite run_try. destruct (Events.next_cursor page) as [next|] eqn:Hn; cbn [run fst snd].
  - rewrite run_stored. cbn [fst snd]. pose proof (run_save_cursor name next s1) as Hs. rewrite Hb in Hs.
    destruct (run (store.save_cursor name next) s1) as [s2 [[]|e]]; cbn [fst snd map_err run] in *.
    + exists page, s0, s1. by rewrite Hn.
    + rewrite (proj1 (near_same _ _ Hs)), (near_feed _ _ Hs). split; [done|]. by eexists.
  - exists page, s0, s1. rewrite Hn. by split_and!.
Qed.

(** * A stream is drained *)

(** The answer of the GraphQL service for a page. *)
Definition page_body (nodes : list Value) (cursor : option rstring) (more : bool) : Value :=
  jobj [("data", jobj [("events", jobj [("nodes", JArray nodes);
    ("pageInfo", jobj [("hasNextPage", JBool more); ("endCursor", jopt JString cursor)])])])]%string.

Section drain.
Variable nodes : list Value.
(** The cursor after the first [k] events, once there are any. *)
Variable cursor_at : nat → rstring.
Variable post : Events.Request → option Value.
Variable module : rstring.

Definition cursor_after (k : nat) : option rstring := if decide (k = 0%nat) then None else Some (cursor_at k).

(** The service answers with the events that follow the cursor, at most the
    limit, and tells whether there are more. *)
Definition serves : Prop := ∀ k, (k ≤ length nodes)%nat →
  post (Events.mkRequest false (jobj [("module"%string, jstr module)]) page_size (cursor_after k)) =
  Some (page_body (take 50 (drop k nodes))
          (if decide (k = length nodes) then None else Some (cursor_at (Nat.min (k + 50) (length nodes))))
          (bool_decide (k + 50 < length nodes)%nat)).

(** [run] on the one stream: poll while there is more. *)
Fixpoint poll_while_more (ing : EventIngestor) (name : rstring) (n : nat) : prog AppState (result SyncError bool) :=
  match n with
  | O => Ret (Ok true)
  | S n' =>
      more ←? poll_module ing post name module;
      if (more : bool) then poll_while_more ing name n' else Ret (Ok false)
  end.

Definition events_from (k : nat) : list Events.ChainEvent := omap Events.parse_event (drop k nodes).

Lemma query_served k :
  serves → (k ≤ length nodes)%nat →
  Events.query_by_module post module (cursor_after k) page_size false =
  Ok (Events.mkEventPage (omap Events.parse_event (take 50 (drop k nodes)))
        (if decide (k = length nodes) then None else Some (cursor_at (Nat.min (k + 50) (length nodes))))
        (bool_decide (k + 50 < length nodes)%nat)).
Proof.
  intros Hs Hk. unfold Events.query_by_module, Events.query. rewrite (Hs k Hk).
  by destruct (decide (k = length nodes)).
Qed.

Lemma run_load_cursor_online name s :
  online s → run (store.load_cursor name) s = (s, Ok (exchange_cursors (tables_of s) !! name)).
Proof.
  unfold online, store.load_cursor, db. intros Ho. rewrite run_act. unfold blocking. cbn [get_store put_store app_has_store].
  unfold load_cursor, mbind, sto_bind, conn, query. rewrite Ho. cbn. by destruct s as [? ? ? ? ? [? ?] ? ? ? ? ?].
Qed.

Lemma run_save_cursor_online name c s :
  online s → run (store.save_cursor name c) s = (recur (<[name := c]> (exchange_cursors (tables_of s))) s, Ok tt).
Proof.
  unfold online, store.save_cursor, db. intros Ho. rewrite run_act. unfold blocking. cbn [get_store put_store app_has_store].
  unfold save_cursor, mbind, sto_bind, conn, execute. rewrite Ho. unfold recur, recursor. by rewrite Ho.
Qed.

(** The cursors after a poll, or many, that reached position [k']. *)
Definition moved (name : rstring) (k k' : nat) (c : gmap rstring rstring) : gmap rstring rstring :=
  if decide (k = length nodes) then c else <[name := cursor_at k']> c.

Lemma poll_page ing name k s s1 :
  serves → (k ≤ length nodes)%nat → online s → exchange_cursors (tables_of s) !! name = cursor_after k →
  run (apply_page ing (omap Events.parse_event (take 50 (drop k nodes)))) s = (s1, Ok tt) →
  run (poll_module ing post name module) s =
  (recur (moved name k (Nat.min (k + 50) (length nodes)) (exchange_cursors (tables_of s))) s1,
   Ok (bool_decide (k + 50 < length nodes)%nat)).
Proof.
  intros Hs Hk Ho Hcur Ha. unfold poll_module. rewrite run_try, run_stored, run_load_cursor_online by done.
  cbn [fst snd map_err]. rewrite run_try, Hcur, (query_served k Hs Hk). cbn [run fst snd map_err Events.data].
  pose proof (blind_run _ s (blind_apply_page ing (omap Events.parse_event (take 50 (drop k nodes))))) as Hb.
  destruct (blind_apply_page ing (omap Events.parse_event (take 50 (drop k nodes))) s) as [_ Hon].
  rewrite run_try, Ha. rewrite Ha in Hb, Hon. cbn [fst snd Events.next_cursor Events.has_next_page] in *.
  unfold moved. rewrite run_try. destruct (decide (k = length nodes)); cbn [run fst snd].
  - by rewrite <- Hb, recur_self.
  - rewrite run_stored, run_save_cursor_online by auto. cbn [fst snd map_err run]. by rewrite Hb.
Qed.

Lemma polls_drain ing name n k s s' :
  serves → (k ≤ length nodes)%nat → (0 < n)%nat → (length nodes ≤ k + 50 * n)%nat → online s →
  exchange_cursors (tables_of s) !! name = cursor_after k →
  run (apply_page ing (events_from k)) s = (s', Ok tt) →
  run (poll_while_more ing name n) s =
  (recur (moved name k (length nodes) (exchange_cursors (tables_of s))) s', Ok false).
Proof.
  intros Hs. revert k s s'. induction n as [|n IH]; intros k s s' Hk Hn Hlen Ho Hcur Ha; [lia|].
  unfold events_from in Ha. rewrite <- (take_drop 50 (drop k nodes)), drop_drop, omap_app in Ha.
  rewrite apply_page_app, run_try in Ha. cbn [poll_while_more]. rewrite run_try.
  pose proof (blind_apply_page ing (omap Events.parse_event (take 50 (drop k nodes))) s) as [_ Hon].
  pose proof (blind_run _ s (blind_apply_page ing (omap Events.parse_event (take 50 (drop k nodes))))) as Hb.
  destruct (run _ s) as [s1 [[]|e]] eqn:Hs1; cbn [fst snd] in *; [|done].
  rewrite (poll_page ing name k s s1) by done. cbn [fst snd].
  case_bool_decide as Hmore.
  - assert (moved name k (Nat.min (k + 50) (length nodes)) (exchange_cursors (tables_of s)) =
      <[name := cursor_at (k + 50)]> (exchange_cursors (tables_of s))) as ->.
    { unfold moved. rewrite decide_False by lia. by rewrite Nat.min_l by lia. }
    destruct (blind_apply_page ing (events_from (k + 50)) s1) as [Hc2 _].
    unfold events_from in Hc2 at 1. specialize (Hc2 (<[name := cursor_at (k + 50)]> (exchange_cursors (tables_of s)))).
    unfold events_from in Hc2. rewrite Ha in Hc2. cbn [fst snd] in Hc2.
    erewrite IH; [| | | | | |exact Hc2]; [|lia|lia|lia|by apply Hon|].
    + f_equal. rewrite recur_recur. f_equal. unfold moved. rewrite !decide_False by lia.
      change (exchange_cursors (tables_of (recur ?c s1))) with c. apply insert_insert_eq.
    + change (exchange_cursors (tables_of (recur ?c s1))) with c. rewrite lookup_insert_eq.
      unfold cursor_after. by rewrite decide_False by lia.
  - rewrite drop_ge in Ha by lia. cbn in Ha. injection Ha as ->. cbn [run].
    by rewrite Nat.min_r by lia.
Qed.

(** C34: Draining a stream.  Over a service that pages through a finite log
    of a module (at most fifty events after the cursor, the end cursor of the
    page, and whether there are more), polling from the start while there is
    more ends, after at most one poll per fifty events and one, with nothing
    more to read: every event of the log has been applied exactly once and in
    the order of the log, the state being the one the whole log applied at
    once leaves, but for this stream's cursor, which stands at the end of the
    log. *)
Theorem ingestor_drains ing name s s' :
  serves →
  online s → exchange_cursors (tables_of s) !! name = None →
  run (apply_page ing (events_from 0)) s = (s', Ok tt) →
  run (poll_while_more ing name (S (length nodes / 50))) s =
  (recur (moved name 0 (length nodes) (exchange_cursors (tables_of s))) s', Ok false).
Proof.
  intros Hs Ho Hcur Ha. apply (polls_drain ing name _ 0); [done|lia|lia| |done..].
  pose proof (Nat.div_mod (length nodes) 50). pose proof (Nat.mod_upper_bound (length nodes) 50). lia.
Qed.
End drain.
End ingest.

(** A log of sixty deposits, whose cursors are positions in decimal. *)
Definition demo_log : list Value := demo_deposit <$> seqZ 1 60.

Definition demo_cursor_at (k : nat) : rstring := u64_to_string (Z.of_nat k).

Definition demo_post (rq : Events.Request) : option Value :=
  let k := match Events.rq_cursor rq with
           | None => O
           | Some c => match parse_u64 c with Ok n => Z.to_nat n | Err _ => O end
           end in
  Some (page_body (take 50 (drop k demo_log))
          (if decide (k = 60%nat) then None else Some (demo_cursor_at (Nat.min (k + 50) 60)))
          (bool_decide (k + 50 < 60)%nat)).

#[local] Existing Instance bcs_format.
#[local] Existing Instance demo_base64.
#[local] Existing Instance demo_parsers.

Lemma demo_serves : serves demo_log demo_cursor_at demo_post (str "0xe::balance_manager").
Proof.
  intros k Hk. change (length demo_log) with 60%nat in *. unfold demo_post, cursor_after. cbn [Events.rq_cursor].
  destruct (decide (k = 0%nat)) as [->|Hk0]; [done|].
  change (demo_cursor_at k) with (u64_to_string (Z.of_nat k)).
  rewrite parse_u64_to_string by (unfold u64, u64_max; lia). by rewrite Nat2Z.id.
Qed.

Lemma pair_known {A B} (x : A * B) b : x.2 = b → x = (x.1, b).
Proof. destruct x. cbn. by intros ->. Qed.

Lemma ingestor_drains_witness :
  let name := str "exchange-events:balance_manager" in
  let s' := (run (apply_page demo_ingestor (events_from demo_log 0)) demo_app).1 in
  run (poll_while_more demo_post (str "0xe::balance_manager") demo_ingestor name 2) demo_app =
  (recur (moved demo_log demo_cursor_at name 0 60 (exchange_cursors (tables_of demo_app))) s', Ok false).
Proof.
  refine (ingestor_drains demo_log demo_cursor_at demo_post (str "0xe::balance_manager") demo_ingestor
    (str "exchange-events:balance_manager") demo_app _ demo_serves _ _ _).
  - vm_compute. reflexivity.
  - vm_compute. reflexivity.
  - apply pair_known. vm_compute. reflexivity.
Defined.

(** The sixty deposits are all credited. *)
Example demo_drained :
  exchange_balances (tables_of (run (apply_page demo_ingestor (events_from demo_log 0)) demo_app).1) !!
    (demo_addr 9, base demo_market) = Some (8000 + 1830).
Proof. vm_compute. reflexivity. Qed.
