(* ===== verification/ServiceTheorems.v ===== *)
(** What the order-book service guarantees: uncovered orders are pruned; the
    invariant of the service under every interleaving; authorized
    cancellations. *)

From S2P Require Import Prelude Prog RustStr ExchangeTypes Demo Book BookInv Crates Signing Repo RepoProps RepoTheorems Intake Db Settlement Json Wire Sync State Service ServiceInv ServiceBoot Handlers ServiceDemo Channel ServiceTasks SyncTheorems.
From S2P Require Events Discovery.

(** * The number of orders pruned *)

Fixpoint prune_count (balance committed : Z) (l : list StoredOrder) : nat :=
  match l with
  | [] => O
  | so :: l' =>
      if committed <=? balance then O
      else S (prune_count balance (u64_saturating_sub committed (freed_commitment so)) l')
  end.

Lemma freed_nonneg so : 0 ≤ freed_commitment so.
Proof. unfold freed_commitment, u64_saturating_sub. cbv zeta. lia. Qed.

Lemma freed_sum_nonneg l : 0 ≤ Zsum_with freed_commitment l.
Proof. apply Zsum_with_nonneg. intros. apply freed_nonneg. Qed.

Lemma prune_count_spec balance l : 0 ≤ balance →
  let k := prune_count balance (Zsum_with freed_commitment l) l in
  Zsum_with freed_commitment (drop k l) ≤ balance ∧
  ∀ j, (j < k)%nat → balance < Zsum_with freed_commitment (drop j l).
Proof.
  intros Hb. induction l as [|so l IH]; cbn [prune_count]; cbv zeta.
  { cbn [drop]. rewrite Zsum_with_nil. split; [done|lia]. }
  case_bool; reflect_bools; [split; [done|lia]|].
  rewrite Zsum_with_cons in *. pose proof (freed_sum_nonneg l). pose proof (freed_nonneg so).
  replace (u64_saturating_sub (freed_commitment so + Zsum_with freed_commitment l) (freed_commitment so))
    with (Zsum_with freed_commitment l) by (unfold u64_saturating_sub; lia).
  destruct IH as [IH1 IH2]. split; [exact IH1|]. intros [|j] Hj; cbn [drop]; [rewrite Zsum_with_cons; lia|].
  apply IH2. lia.
Qed.

Section prune.
Context `{BcsCrate, CryptoCrates, HexCrate}.

(** * The state after the pruning of some orders *)

Definition prune_one (s : AppState) (so : StoredOrder) : AppState :=
  set_app_books (alter (λ b, (remove b (so_digest so)).1) (registry_id (so_signed so)) (books s))
    (set_app_db (mkStore (update_order (so_digest so) (set_or_status PRUNED) (tables_of s)) []) s).

Lemma run_prune_order so reason s :
  pool (app_db s) = [] → ∃ w, (run (prune_order so reason) s).1 = set_app_ws w (prune_one s so).
Proof.
  intros Hpool. unfold prune_order, notify_prune. rewrite !run_seq, run_remove_from_book.
  set (s1 := set_app_books _ s). unfold try_set_status. rewrite run_seq. cbn [run fst].
  assert (run (store.set_order_status (so_digest so) PRUNED) s1 =
    (set_app_db (mkStore (update_order (so_digest so) (set_or_status PRUNED) (tables_of s)) []) s1, Ok tt)) as ->.
  { unfold store.set_order_status, db. rewrite run_act. unfold blocking, s1, tables_of.
    cbn [get_store put_store app_has_store app_db set_app_books].
    unfold set_order_status, mbind, sto_bind, conn, execute. destruct (app_db s) as [t pl]. cbn in Hpool. by subst. }
  cbn [fst]. destruct (run_publish (orders_channel (maker (order (so_signed so))))
    (jobj [("type", jstr (str "pruned")); ("digest", digest_json (so_digest so)); ("reason", jstr reason)]%string)
    (set_app_db (mkStore (update_order (so_digest so) (set_or_status PRUNED) (tables_of s)) []) s1)) as [w ->].
  by exists w.
Qed.

Lemma prune_one_ws w s so : prune_one (set_app_ws w s) so = set_app_ws w (prune_one s so).
Proof. done. Qed.

Definition prune_many (s : AppState) (l : list StoredOrder) : AppState := foldl prune_one s l.

Lemma run_prune_until balance l : ∀ committed s,
  pool (app_db s) = [] →
  ∃ w, (run (prune_until balance committed l) s).1 =
    set_app_ws w (prune_many s (take (prune_count balance committed l) l)).
Proof.
  assert (∀ l w s, prune_many (set_app_ws w s) l = set_app_ws w (prune_many s l)) as Hws.
  { intros l'. induction l' as [|so l' IH]; intros w s; [done|]. cbn [prune_many foldl].
    rewrite prune_one_ws. apply IH. }
  induction l as [|so l IH]; intros committed s Hpool; cbn [prune_until prune_count].
  { exists (ws_tx s). by destruct s. }
  destruct (committed <=? balance); [exists (ws_tx s); by destruct s|].
  rewrite run_seq. destruct (run_prune_order so (str "escrow no longer covers order") s Hpool) as [w ->].
  destruct (IH (u64_saturating_sub committed (freed_commitment so)) (set_app_ws w (prune_one s so))) as [w' ->];
    [done|]. exists w'. cbn [take prune_many foldl]. by rewrite (Hws _ w).
Qed.

(** ** Its tables *)

Definition mark (ds : list Digest) (r : OrderRow) : OrderRow :=
  if bool_decide (or_digest r ∈ ds) then set_or_status PRUNED r else r.

Lemma prune_many_orders l s :
  exchange_orders (tables_of (prune_many s l)) = mark (so_digest <$> l) <$> exchange_orders (tables_of s).
Proof.
  revert s. induction l as [|so l IH]; intros s.
  - cbn. rewrite <- (list_fmap_id (exchange_orders (tables_of s))) at 1. apply list_fmap_ext. intros i r _.
    unfold mark. rewrite bool_decide_false; [done|]. apply not_elem_of_nil.
  - cbn [prune_many foldl]. fold (prune_many (prune_one s so) l). rewrite IH.
    change (exchange_orders (tables_of (prune_one s so))) with
      (on_digest (so_digest so) (set_or_status PRUNED) <$> exchange_orders (tables_of s)).
    rewrite <- list_fmap_compose. apply list_fmap_ext. intros i r _. unfold compose, mark, on_digest.
    cbn [fmap list_fmap]. destruct (decide (or_digest r = so_digest so)) as [E|E].
    + assert (or_digest r ∈ so_digest so :: (so_digest <$> l)) as Hin by (apply elem_of_cons; by left).
      rewrite (bool_decide_true _ E), (bool_decide_true _ Hin). by case_bool_decide.
    + rewrite (bool_decide_false _ E). f_equal. unfold or_digest in *. rewrite (bool_decide_ext _
        (no_digest (or_values r) ∈ so_digest so :: (so_digest <$> l))); [done|].
      rewrite elem_of_cons. naive_solver.
Qed.

(** ** Its books *)

Lemma prune_many_books l : ∀ s id b,
  (∀ id b, books s !! id = Some b → book_ok b) → books s !! id = Some b →
  ∃ b', books (prune_many s l) !! id = Some b' ∧
    ∀ d, Book.get b' d = if bool_decide ((id, d) ∈ (λ so, (registry_id (so_signed so), so_digest so)) <$> l)
                         then None else Book.get b d.
Proof.
  induction l as [|so l IH]; intros s id b Hok Hb.
  { exists b. split; [done|]. intros d. rewrite bool_decide_false; [done|]. apply not_elem_of_nil. }
  cbn [prune_many foldl fmap list_fmap]. fold (prune_many (prune_one s so) l).
  set (r := registry_id (so_signed so)). set (d0 := so_digest so).
  assert (∀ id b, books (prune_one s so) !! id = Some b → book_ok b) as Hok1.
  { intros id' b'. cbn [prune_one books set_app_books]. destruct (decide (id' = r)) as [->|].
    - rewrite lookup_alter_eq. intros (b0 & Hb0 & ->)%fmap_Some. apply remove_inv. by eapply Hok.
    - rewrite lookup_alter_ne by done. apply Hok. }
  assert (∃ b1, books (prune_one s so) !! id = Some b1 ∧
    ∀ d, Book.get b1 d = if bool_decide ((id, d) = (r, d0)) then None else Book.get b d) as (b1 & Hb1 & Hg1).
  { cbn [prune_one books set_app_books]. fold r d0. destruct (decide (id = r)) as [->|Hid].
    - rewrite lookup_alter_eq, Hb. eexists. split; [done|]. intros d. rewrite get_remove by by eapply Hok.
      destruct (decide (d = d0)) as [->|]; [by rewrite bool_decide_true|by rewrite bool_decide_false by congruence].
    - rewrite lookup_alter_ne by done. exists b. split; [done|]. intros d.
      by rewrite bool_decide_false by congruence. }
  destruct (IH _ id b1 Hok1 Hb1) as (b' & Hb' & Hg'). exists b'. split; [done|]. intros d. rewrite Hg', Hg1.
  destruct (decide ((id, d) = (r, d0))) as [E|E].
  - rewrite (bool_decide_true _ E). rewrite (bool_decide_true (_ ∈ _ :: _)); [by case_bool_decide|].
    apply elem_of_cons. by left.
  - rewrite (bool_decide_false _ E).
    rewrite (bool_decide_ext ((id, d) ∈ (r, d0) :: _) ((id, d) ∈ (λ so, (registry_id (so_signed so), so_digest so)) <$> l));
      [done|]. rewrite elem_of_cons. naive_solver.
Qed.

(** * Commitments *)

Lemma freed_stored r :
  values_ok (or_values r) → freed_commitment (stored_order r) = row_commitment r.
Proof.
  intros (_ & _ & _ & _ & _ & _ & Ht & Hm & _ & _ & _ & _ & Ht64 & Hm64).
  unfold freed_commitment, row_commitment, stored_order. cbn [so_signed so_filled_taker].
  by rewrite (in_i64_as_u64 _ Ht64), (in_i64_as_u64 _ Hm64), Ht, Hm.
Qed.

(** The open orders of the manager that sell the token, newest first. *)
Definition prune_candidates (mgr : SuiAddress) (tok : rstring) (t : Tables) : list StoredOrder :=
  candidates_for tok (stored_order <$>
    List.filter (λ r, bool_decide (no_manager_id (or_values r) = mgr) && is_open r) (exchange_orders t)).

Lemma candidates_perm mgr tok t :
  tables_wf t →
  prune_candidates mgr tok t ≡ₚ stored_order <$> List.filter (commits mgr tok) (exchange_orders t).
Proof.
  intros Hwf. unfold prune_candidates, candidates_for. rewrite sort_by_perm. match goal with |- ?a ≡ₚ ?b => assert (a = b) as ->; [|done] end.
  assert (∀ r, r ∈ exchange_orders t → maker_token (order (no_order_json (or_values r))) = no_maker_token (or_values r)) as Htok.
  { intros r Hr. by destruct (tw_values _ Hwf r Hr) as [(_ & _ & _ & -> & _) _]. }
  induction (exchange_orders t) as [|r l IH]; [done|]. cbn [List.filter]. unfold commits at 1.
  assert (∀ r, r ∈ l → maker_token (order (no_order_json (or_values r))) = no_maker_token (or_values r)) as Hl
    by (intros; apply Htok; by right).
  specialize (Htok r ltac:(by left)).
  destruct (bool_decide (no_manager_id (or_values r) = mgr)), (is_open r);
    cbn [andb fmap list_fmap List.filter]; rewrite ?andb_false_r; [|by apply IH..].
  cbn [stored_order so_signed]. rewrite Htok, andb_true_r.
  destruct (bool_decide (no_maker_token (or_values r) = tok)); cbn [fmap list_fmap]; [f_equal|]; by apply IH.
Qed.

(** What stays committed once some orders are marked. *)
Lemma committed_marked mgr tok ds l :
  Zsum_with row_commitment (List.filter (commits mgr tok) (mark ds <$> l)) =
  Zsum_with (λ r, if bool_decide (or_digest r ∈ ds) then 0 else row_commitment r) (List.filter (commits mgr tok) l).
Proof.
  induction l as [|r l IH]; [done|]. cbn [fmap list_fmap List.filter].
  destruct (decide (or_digest r ∈ ds)) as [Hd|Hd].
  - assert (mark ds r = set_or_status PRUNED r) as -> by (unfold mark; by rewrite bool_decide_true).
    assert (commits mgr tok (set_or_status PRUNED r) = false) as ->
      by (unfold commits, is_open; cbn; by rewrite andb_false_r).
    rewrite IH. destruct (commits mgr tok r); [|done]. rewrite Zsum_with_cons. rewrite (bool_decide_true _ Hd). lia.
  - assert (mark ds r = r) as -> by (unfold mark; by rewrite bool_decide_false).
    destruct (commits mgr tok r); [|done]. rewrite !Zsum_with_cons, IH. cbv beta. by rewrite (bool_decide_false _ Hd).
Qed.

Lemma committed_after mgr tok t k :
  tables_wf t →
  let cands := prune_candidates mgr tok t in
  Zsum_with row_commitment
    (List.filter (commits mgr tok) (mark (so_digest <$> take k cands) <$> exchange_orders t)) =
  Zsum_with freed_commitment (drop k cands).
Proof.
  intros Hwf cands. rewrite committed_marked. set (ds := so_digest <$> take k cands).
  set (f := λ so, if bool_decide (so_digest so ∈ ds) then 0 else freed_commitment so).
  rewrite (Zsum_with_ext _ (λ r, f (stored_order r))).
  2: { intros r [Hr _]%elem_of_bfilter. unfold f. rewrite freed_stored by by apply (tw_values t Hwf).
       unfold or_digest. done. }
  rewrite <- Zsum_with_fmap. rewrite <- (Zsum_with_perm f _ _ (candidates_perm mgr tok t Hwf)). fold cands.
  assert (NoDup (so_digest <$> cands)) as Hnd.
  { unfold cands. rewrite (candidates_perm mgr tok t Hwf), <- list_fmap_compose.
    pose proof (tw_digests t Hwf) as Hd. revert Hd. clear. induction (exchange_orders t) as [|r l IH]; [done|].
    cbn [fmap list_fmap List.filter]. intros [Hr Hl]%NoDup_cons. specialize (IH Hl).
    destruct (commits mgr tok r); [|done]. cbn [fmap list_fmap]. apply NoDup_cons. split; [|done].
    intros (r' & E & [Hr' _]%elem_of_bfilter)%list_elem_of_fmap. apply Hr. apply list_elem_of_fmap.
    exists r'. by split. }
  rewrite <- (take_drop k cands) at 1. rewrite Zsum_with_app.
  rewrite (Zsum_with_0 f (take k cands)).
  2: { intros so Hso. unfold f. rewrite bool_decide_true; [done|]. by apply list_elem_of_fmap_2. }
  rewrite Z.add_0_l. apply Zsum_with_ext. intros so Hso. unfold f. rewrite bool_decide_false; [done|].
  rewrite <- (take_drop k cands), fmap_app in Hnd. apply NoDup_app in Hnd as (_ & Hnd & _).
  intros Hin. apply (Hnd _ Hin). by apply list_elem_of_fmap_2.
Qed.

(** * The program *)

Lemma prune_count_covered bal c s l :
  (if c <=? bal then s else prune_many s (take (prune_count bal c l) l)) =
  prune_many s (take (prune_count bal c l) l).
Proof. destruct (c <=? bal) eqn:Hc; [|done]. destruct l as [|so l]; cbn [prune_count]; [done|]. by rewrite Hc. Qed.

Lemma run_query_online {A} (f : Tables → A) s :
  pool (app_db s) = [] → run (db (_ ← conn; query f)) s = (s, Ok (f (tables_of s))).
Proof.
  intros Hpool. unfold db. rewrite run_act. unfold blocking, tables_of, mbind, sto_bind, conn, query.
  cbn [get_store put_store app_has_store]. destruct s as [? ? ? ? ? [t pl] ? ? ? ? ?]. cbn in *. by subst.
Qed.

Lemma run_prune_uncovered mgr tok s :
  pool (app_db s) = [] →
  let t := tables_of s in
  let cands := prune_candidates mgr tok t in
  let bal := i64_as_u64 (Z.max (default 0 (exchange_balances t !! (mgr, tok))) 0) in
  ∃ w, (run (prune_uncovered mgr tok) s).1 =
    set_app_ws w (if committed mgr tok t <=? bal then s
                  else prune_many s (take (prune_count bal (committed mgr tok t) cands) cands)).
Proof.
  intros Hpool. cbv zeta. unfold prune_uncovered.
  rewrite run_seq. unfold store.balance, balance. rewrite run_query_online by done. cbn [fst snd].
  rewrite run_seq. unfold store.open_commitment, open_commitment. rewrite run_query_online by done. cbn [fst snd].
  fold (committed mgr tok (tables_of s)). destruct (committed mgr tok (tables_of s) <=? _); [exists (ws_tx s); by destruct s|].
  rewrite run_seq. unfold store.open_orders_by_manager, open_orders_by_manager.
  rewrite run_query_online by done. cbn [fst snd]. by apply run_prune_until.
Qed.

(** After a withdrawal, on a store that answers, [prune_uncovered]
    leaves the manager's open commitments in the token covered by its
    balance.  It prunes a prefix of the manager's open orders selling the
    token, newest salt first; no shorter prefix would have been enough; a
    pruned order is PRUNED in the store and gone from the book of its
    market, and every other order stays as it is.  (The sum of commitments is
    taken to fit a [u64]; a saturated sum would hide part of it.) *)
Theorem prune_uncovered_covers mgr tok s :
  app_inv s → pool (app_db s) = [] →
  Zsum_with row_commitment (List.filter (commits mgr tok) (exchange_orders (tables_of s))) ≤ u64_max →
  let cands := prune_candidates mgr tok (tables_of s) in
  let bal := i64_as_u64 (Z.max (default 0 (exchange_balances (tables_of s) !! (mgr, tok))) 0) in
  let s' := (run (prune_uncovered mgr tok) s).1 in
  committed mgr tok (tables_of s') ≤ bal ∧
  StronglySorted (λ a b, newest_salt_first a b = true) cands ∧
  ∃ k,
    exchange_orders (tables_of s') = mark (so_digest <$> take k cands) <$> exchange_orders (tables_of s) ∧
    (∀ id b, books s !! id = Some b → ∃ b', books s' !! id = Some b' ∧
       ∀ d, Book.get b' d =
         if bool_decide ((id, d) ∈ (λ so, (registry_id (so_signed so), so_digest so)) <$> take k cands)
         then None else Book.get b d) ∧
    ∀ j, (j < k)%nat → bal < Zsum_with freed_commitment (drop j cands).
Proof.
  intros Hs Hpool Hsum cands bal s'. pose proof (ai_tables s Hs) as Hwf.
  assert (0 ≤ bal) as Hbal by apply wrap64_range.
  assert (committed mgr tok (tables_of s) = Zsum_with freed_commitment cands) as Hc.
  { rewrite committed_sum, Z.min_l by done. rewrite (Zsum_with_perm _ _ _ (candidates_perm mgr tok _ Hwf)).
    rewrite Zsum_with_fmap. apply Zsum_with_ext. intros r [Hr _]%elem_of_bfilter. symmetry.
    by apply freed_stored, (tw_values _ Hwf). }
  set (k := prune_count bal (committed mgr tok (tables_of s)) cands).
  assert (∃ w, s' = set_app_ws w (prune_many s (take k cands))) as [w Hs'].
  { destruct (run_prune_uncovered mgr tok s Hpool) as [w Hrun]. exists w. unfold s'. rewrite Hrun.
    by rewrite prune_count_covered. }
  pose proof (prune_count_spec bal cands Hbal) as [Hle Hlt]. rewrite <- Hc in Hle, Hlt. fold k in Hle, Hlt.
  split_and!.
  - rewrite committed_sum, Hs'. change (tables_of (set_app_ws w ?x)) with (tables_of x).
    pose proof (committed_after mgr tok (tables_of s) k Hwf) as Hafter. cbv zeta in Hafter. fold cands in Hafter.
    rewrite prune_many_orders, Hafter. lia.
  - apply sort_by_sorted; unfold newest_salt_first; intros; reflect_bools; lia.
  - exists k. rewrite Hs'. change (tables_of (set_app_ws w ?x)) with (tables_of x).
    split_and!; [apply prune_many_orders| |done].
    intros id b Hb. apply prune_many_books; [|done]. intros id' b' Hb'.
    exact (bs_ok _ _ _ (ai_books s Hs id' b' Hb')).
Qed.
End prune.

(** * A concrete instance *)

#[local] Existing Instance bcs_format.
#[local] Existing Instance demo_crypto.

(** The store after a withdrawal that leaves 1500 units for commitments of
    1000 and 2000. *)
Definition demo_withdrawn : AppState :=
  set_app_db (exec (BalanceDelta (demo_addr 9) (base demo_market) (-6500)) (app_db demo_app)).1 demo_app.

Lemma demo_withdrawn_inv : app_inv demo_withdrawn.
Proof.
  pose proof demo_app_inv as Hs.
  pose proof (tame_op (void (apply_balance_delta (demo_addr 9) (base demo_market) (-6500)))
    (BalanceDelta (demo_addr 9) (base demo_market) (-6500)) (conj I I) I (λ _, eq_refl)) as Ht.
  destruct (Ht (app_db demo_app) (ai_tables _ Hs)) as (Hwf & Hp & Ho).
  apply (app_step_store demo_app); [done..|]. by apply (priced_later (tables_of demo_app)); [apply Hs|..|apply Hs].
Qed.

(** The newer order goes. *)
Lemma prune_uncovered_covers_witness :
  let s' := (run (prune_uncovered (demo_addr 9) (base demo_market)) demo_withdrawn).1 in
  committed (demo_addr 9) (base demo_market) (tables_of s') ≤ 1500 ∧
  or_status <$> exchange_orders (tables_of s') = [OPEN; PRUNED].
Proof.
  split; [|vm_compute; reflexivity].
  refine (proj1 (prune_uncovered_covers (demo_addr 9) (base demo_market) demo_withdrawn demo_withdrawn_inv _ _));
    [vm_compute; reflexivity|vm_compute; discriminate].
Defined.

(** * The invariant *)

Section tasks.
Context `{BcsCrate, CryptoCrates, HexCrate, Base64Crate, DashMapCrate, Events.ChainParsers}.

(** A request whose reply has been sent. *)
Definition discard {A} (p : prog AppState A) : prog AppState unit := _ ← p; Ret tt.

(** The tasks of the service: the three background loops, a turn each (or
    the drain of the queue when there is no relayer key), and a request. *)
Inductive service_task : prog AppState unit → Prop :=
  | task_sync : service_task sync_consumer
  | task_worker submit : service_task (settlement_worker submit)
  | task_drain : service_task drain_jobs
  | task_ingest ing posts : Forall post_wf posts → service_task (ingestor_run ing posts)
  | task_markets now : service_task (discard (markets_reply now))
  | task_book now key depth : service_task (discard (book_reply now key depth))
  | task_trades now key : service_task (discard (trades_reply now key))
  | task_order now key d : service_task (discard (order_by_digest now key d))
  | task_place clock now so : order_wf (order so) → service_task (discard (place_order clock now so))
  | task_cancel now d req : service_task (discard (cancel_order now d req))
  | task_orders now a : service_task (discard (account_orders now a))
  | task_fills now a : service_task (discard (account_fills now a))
  | task_balance now a : service_task (discard (account_balance now a))
  | task_routes now from to amount : service_task (discard (routes now from to amount)).

Lemma follows_discard {A} (p : prog AppState A) : follows p → follows (discard p).
Proof. intros Hp. apply follows_seq; [done|]. intros. apply follows_ret. Qed.

Lemma service_task_follows p : service_task p → follows p.
Proof.
  intros []; try apply follows_discard.
  - apply follows_sync_consumer.
  - apply follows_settlement_worker.
  - apply follows_drain_jobs.
  - by apply follows_ingestor_run.
  - apply follows_markets_reply.
  - apply follows_book_reply.
  - apply follows_trades_reply.
  - apply follows_order_by_digest.
  - by apply follows_place_order.
  - apply follows_cancel_order.
  - apply follows_account_orders.
  - apply follows_account_fills.
  - apply follows_account_balance.
  - apply follows_routes.
Qed.

(** C30: Whatever requests arrive and however they interleave with the
    ingestor, the consumer of chain events and the settlement worker, action
    by action, from the state [boot] builds: the tables stay well formed and
    priced; every book is consistent and holds only stored orders of its
    market, with the stored maker, side and price; every queued job pairs a
    stored ask and a stored bid of one market at a price between theirs, for
    a positive amount; the queue never exceeds its capacity; and no task
    loses history or a market.  The hypotheses: well-formed tables, and
    deployed markets on the grids already stored. *)
Theorem service_invariant package whitelist direct now ms db s tasks schedule :
  tables_wf (tables db) → priced (tables db) → deployable (tables db) ms →
  boot package whitelist direct now ms db = Some s →
  Forall service_task tasks →
  app_inv (sched schedule tasks s).2 ∧ app_later s (sched schedule tasks s).2.
Proof.
  intros Hwf Hpr Hd Hboot Htasks. pose proof (boot_inv _ _ _ _ _ _ _ Hwf Hpr Hd Hboot) as Hs.
  change (inv (sched schedule tasks s).2 ∧ later s (sched schedule tasks s).2).
  apply sched_safe; [exact Hs|]. eapply Forall_impl; [exact Htasks|].
  intros p Hp%service_task_follows. by eapply triple_pending.
Qed.

(** * Cancellation *)

(** The state after an accepted cancellation: the order is cancelled in the
    store and gone from its book, and no other order or book has changed. *)
Record cancelled (s s' : AppState) (d : Digest) (registry : SuiAddress) : Prop := {
  cn_orders : exchange_orders (tables_of s') =
    on_digest d (set_or_status CANCELLED) <$> exchange_orders (tables_of s);
  cn_book b : is_Some (markets s !! registry) → books s' !! registry = Some b → Book.get b d = None;
  cn_others id b d' : books s !! id = Some b → id ≠ registry ∨ d' ≠ d →
    ∃ b', books s' !! id = Some b' ∧ Book.get b' d' = Book.get b d';
}.

Lemma cancelled_intro s s' d id :
  app_inv s →
  exchange_orders (tables_of s') = on_digest d (set_or_status CANCELLED) <$> exchange_orders (tables_of s) →
  books s' = (if bool_decide (is_Some (markets s !! id)) then alter (λ b, (remove b d).1) id (books s) else books s) →
  cancelled s s' d id.
Proof.
  intros Hs Ho Eb. split; [done|..].
  - intros b Hsome. rewrite Eb, bool_decide_true by done. rewrite lookup_alter_eq.
    intros (b0 & Hb0 & ->)%fmap_Some. rewrite (get_remove (bs_ok _ _ _ (ai_books s Hs _ _ Hb0))).
    by rewrite decide_True.
  - intros id' b d' Hb0 Hne. rewrite Eb. case_bool_decide; [|by exists b].
    destruct (decide (id' = id)) as [->|Hid].
    + rewrite lookup_alter_eq, Hb0. eexists. split; [done|].
      rewrite (get_remove (bs_ok _ _ _ (ai_books s Hs _ _ Hb0))). by rewrite decide_False by naive_solver.
    + rewrite lookup_alter_ne by done. by exists b.
Qed.

(** The tail of the handler, once the cancellation is accepted. *)
Lemma run_cancel_tail so d s (v : Value) :
  (∀ m, markets s !! registry_id so = Some m → m_registry_id m = registry_id so) →
  let tail :=
    found ← market (registry_id so);
    _ ← match found with
        | Some m => _ ← remove_from_book (m_registry_id m) d; publish_book_snapshot m
        | None => Ret tt
        end;
    _ ← publish (orders_channel (maker (order so)))
          (jobj [("type", jstr (str "cancelled")); ("digest", digest_json d); ("soft", JBool true)]%string);
    Ret (Ok (E := ApiError) v) in
  (run tail s).2 = Ok v ∧ tables_of (run tail s).1 = tables_of s ∧
  books (run tail s).1 = (if bool_decide (is_Some (markets s !! registry_id so))
                          then alter (λ b, (remove b d).1) (registry_id so) (books s) else books s).
Proof.
  intros Hs tail. unfold tail, market. rewrite run_seq. cbn [run read act fst snd].
  destruct (markets s !! registry_id so) as [m|] eqn:Hm.
  - pose proof (Hs m eq_refl) as Hid. rewrite bool_decide_true by eauto.
    rewrite !run_seq. cbn [run fst snd]. rewrite run_remove_from_book, Hid.
    match goal with |- context [run (publish_book_snapshot m) ?s1] =>
      destruct (run_publish_book_snapshot m s1) as [w ->] end.
    by split_and!.
  - rewrite bool_decide_false by (intros [? ?]; done). by split_and!.
Qed.

(** The authorization of a cancellation. *)
Lemma run_authorized mk mgr derived s :
  ∃ s1, near s s1 ∧
    match run (if bool_decide (derived = mk) then Ret (Ok true)
               else db_call (store.is_approved_signer mgr derived)) s with
    | (s2, Ok true) => s2 = s1 ∧ (derived = mk ∨ (mgr, derived) ∈ exchange_approved_signers (tables_of s))
    | (s2, _) => s2 = s1
    end.
Proof.
  case_bool_decide; [exists s; split; [reflexivity|]; simpl; auto|].
  destruct (run_query (A := bool) (λ t, bool_decide ((mgr, derived) ∈ exchange_approved_signers t)) s) as [Hn Hr].
  exists (run (store.is_approved_signer mgr derived) s).1. split; [exact Hn|].
  unfold db_call. rewrite run_seq. unfold store.is_approved_signer, is_approved_signer in *.
  destruct (run _ s) as [s1 [[]|e]]; cbn [run fst snd map_err] in *; [|done..].
  split; [done|]. right. by apply (bool_decide_eq_true_1 _ (eq_sym Hr)).
Qed.

(** C31: A cancellation is accepted only for a stored order and only with a
    valid signature of the cancellation message by its maker or by a signer
    approved for its manager; then exactly that order is cancelled in the
    store and removed from the book of its market.  Whatever the error, the
    tables and the books are as before. *)
Theorem cancel_order_authorized now text req s s' r :
  app_inv s → run (cancel_order now text req) s = (s', r) →
  match r with
  | Ok _ => ∃ d row sig pk,
      Digest_parse text = Ok d ∧ order_row d (tables_of s) = Some row ∧
      base64_decode (cr_signature req) = Some sig ∧ base64_decode (cr_public_key req) = Some pk ∧
      signature_valid (cr_scheme req) (cancel_message d) sig pk ∧
      (derive_address (cr_scheme req) pk = no_maker (or_values row) ∨
       (no_manager_id (or_values row), derive_address (cr_scheme req) pk) ∈
         exchange_approved_signers (tables_of s)) ∧
      cancelled s s' d (no_registry_id (or_values row))
  | Err _ => tables_of s' = tables_of s ∧ books s' = books s
  end.
Proof.
  intros Hs E. unfold cancel_order, ApiResult in E.
  assert (∀ s1 e, near s s1 → (s1, Err (A := Value) e) = (s', r) → match r with
    | Ok _ => False | Err _ => tables_of s' = tables_of s ∧ books s' = books s end) as Herr.
  { intros s1 e [? ->] [= <- <-]. by split. }
  assert (∀ P Q : Prop, match r with Ok _ => False | Err _ => P end → match r with Ok _ => Q | Err _ => P end) as Hweak
    by (intros P Q; by destruct r).
  rewrite run_ret_try in E. unfold parse_digest in E. destruct (Digest_parse text) as [d|] eqn:Hd; cbn [map_err] in E.
  2: { apply Hweak. by eapply Herr. }
  match type of E with run (prog_try _ ?k) s = _ => destruct (run_get_order d k s) as (s1 & Hn1 & [E1|E1]) end;
    rewrite E1 in E; clear E1; [|apply Hweak; by eapply Herr].
  rewrite run_ret_try in E. destruct (order_row d (tables_of s)) as [row|] eqn:Hrow; cbn [fmap option_fmap option_map ok_or] in E.
  2: { apply Hweak. by eapply Herr. }
  rewrite run_ret_try in E. unfold b64 in E. destruct (base64_decode (cr_signature req)) as [sig|]; cbn [ok_or] in E.
  2: { apply Hweak. by eapply Herr. }
  rewrite run_ret_try in E. destruct (base64_decode (cr_public_key req)) as [pk|]; cbn [ok_or] in E.
  2: { apply Hweak. by eapply Herr. }
  rewrite run_ret_try in E. destruct (verify_signature _ _ _ _) as [derived|] eqn:Hsig; cbn [map_err] in E.
  2: { apply Hweak. by eapply Herr. }
  apply verify_signature_iff in Hsig as [-> Hsig].
  destruct (run_authorized (maker (order (so_signed (stored_order row))))
    (maker_manager_id (order (so_signed (stored_order row)))) (derive_address (cr_scheme req) pk) s1)
    as (s2 & Hn2 & Hauth). rewrite run_try in E.
  assert (near s s2) as Hn by (by transitivity s1). pose proof (near_same _ _ Hn1) as (Ht1 & _).
  destruct (run (if bool_decide _ then _ else _) s1) as [s2' [[]|e]]; cbn [fst snd negb] in *; subst;
    [destruct Hauth as [-> Hauth]|apply Hweak; by eapply Herr..].
  rewrite run_try in E. unfold db_call in E. rewrite run_seq in E. pose proof (near_same _ _ Hn) as (Ht & Hb & Hm).
  destruct (run_set_order_status d CANCELLED s2) as [[pl E3]|(s3 & e & Hn3 & E3)]; rewrite E3 in E;
    cbn [run fst snd map_err] in E; [|apply Hweak; eapply Herr; [by transitivity s2|exact E]].
  match type of E with run _ ?s3' = _ => set (s3 := s3') in E end.
  assert (∀ m, markets s3 !! registry_id (so_signed (stored_order row)) = Some m →
    m_registry_id m = registry_id (so_signed (stored_order row))) as Hids.
  { intros m. cbn [s3 markets set_app_db]. rewrite Hm. intros Hmk. by destruct (ai_markets s Hs _ m Hmk) as [(? & _) _]. }
  match type of E with run ?t _ = _ => match t with context [Ret (Ok ?v)] =>
    pose proof (run_cancel_tail (so_signed (stored_order row)) d s3 v Hids) as Htail end end.
  cbv zeta in Htail. rewrite E in Htail. cbn [fst snd] in Htail. destruct Htail as (-> & Et & Eb).
  pose proof Hrow as Hin. apply order_row_Some in Hin as [Hin Hdg].
  destruct (tw_values _ (ai_tables s Hs) row Hin) as [(Hreg & Hmk & Hmg & _) _].
  exists d, row, sig, pk. split_and!; try done.
  - rewrite Hmk, Hmg. rewrite Ht1 in Hauth. exact Hauth.
  - rewrite Hreg. apply cancelled_intro; [done| |].
    + rewrite Et. change (tables_of s3) with (update_order d (set_or_status CANCELLED) (tables_of s2)).
      by rewrite Ht.
    + rewrite Eb. cbn [s3 markets books set_app_db]. by rewrite Hm, Hb.
Qed.
End tasks.

(** * Concrete instances *)

#[local] Existing Instance bcs_format.
#[local] Existing Instance demo_crypto.
#[local] Existing Instance demo_base64.
#[local] Existing Instance demo_dash.
#[local] Existing Instance demo_parsers.

Definition demo_tasks : list (prog AppState unit) :=
  [discard (place_order 0 0 (demo_bid 5 2000 5 3));
   settlement_worker (λ _, SoInsufficientEscrow);
   sync_consumer;
   discard (cancel_order 0 (Digest_to_hex (demo_id 2)) (mkCancelRequest Ed25519 [] []))].

(** Two actions of the request for one of each of the others. *)
Definition demo_schedule : list nat := concat (replicate 30 [0; 1; 0; 2; 3]%nat).

Lemma demo_tasks_ok : Forall service_task demo_tasks.
Proof.
  unfold demo_tasks. repeat (apply Forall_cons; split); try apply Forall_nil_2; constructor.
  apply demo_signed_wf; [lia|small..].
Qed.

(** The bid takes the whole of the first ask; its job waits for the worker,
    whose turn came too early. *)
Lemma service_invariant_witness :
  let s := (sched demo_schedule demo_tasks demo_app).2 in
  app_inv s ∧ (λ j, fill_base_amount (intent j)) <$> q_jobs (match_tx s) = [1000].
Proof.
  split; [|vm_compute; reflexivity].
  exact (proj1 (service_invariant _ _ _ _ _ _ _ demo_tasks demo_schedule demo_service_wf demo_service_priced
    demo_service_deployable demo_app_boot demo_tasks_ok)).
Defined.

(** A cancellation of the first ask with a signature of the given bytes, by
    the approved signer. *)
Definition demo_cancel (sig : Z) : AppState * ApiResult :=
  run (cancel_order 0 (Digest_to_hex (demo_id 1)) (mkCancelRequest Ed25519 (replicate 64 sig) (replicate 32 3))) demo_app.

Lemma cancel_order_authorized_witness :
  (∃ d row, Digest_parse (Digest_to_hex (demo_id 1)) = Ok d ∧
     cancelled demo_app (demo_cancel 7).1 d (no_registry_id (or_values row))) ∧
  (demo_cancel 8).2 = Err (bad "BAD_SIGNATURE") ∧
  (or_status <$> exchange_orders (tables_of (demo_cancel 7).1)) = [CANCELLED; OPEN].
Proof.
  split; [|split; vm_compute; reflexivity].
  pose proof (cancel_order_authorized 0 (Digest_to_hex (demo_id 1))
    (mkCancelRequest Ed25519 (replicate 64 7) (replicate 32 3)) demo_app
    (demo_cancel 7).1 (demo_cancel 7).2 demo_app_inv (surjective_pairing _)) as H.
  assert (match (demo_cancel 7).2 with Ok _ => true | Err _ => false end = true) as Hok by (vm_compute; reflexivity).
  destruct (demo_cancel 7).2; [|discriminate].
  destruct H as (d & row & sig & pk & Hd & _ & _ & _ & _ & _ & Hc). exists d, row. by split.
Defined.
