(* ===== verification/ServiceFindings.v ===== *)
(** Behaviours of the service that its comments do not promise, each as a
    concrete execution. *)

From S2P Require Import Prelude Prog Channel RustStr ExchangeTypes Demo Book Crates Signing Repo RepoProps RepoTheorems Intake Db IntakeTheorems Settlement Json Wire Sync State Service Handlers ServiceBoot ServiceTheorems ServiceDemo SyncTheorems.

#[local] Existing Instance bcs_format.
#[local] Existing Instance demo_crypto.
#[local] Existing Instance demo_base64.
#[local] Existing Instance demo_dash.
#[local] Existing Instance demo_parsers.

(** The resting order [d] of the demonstration market: remaining and pending
    amounts. *)
Definition resting (s : AppState) (d : Digest) : option (Z * Z) :=
  b ← books s !! demo_addr 7; o ← Book.get b d; Some (ro_remaining_base o, ro_pending_base o).

(** * A matched fill is consumed twice

    A bid for 600 takes part of the ask of 1000.  The settlement is
    confirmed and consumes 600; then the FillEvent of the same settlement
    arrives and consumes 600 again, which removes the order although 400
    remain on chain. *)

Definition matched : AppState := (run (place_order 0 0 (demo_bid 5 600 5 3)) demo_app).1.
Definition confirmed : AppState := (run (settlement_worker (λ _, Confirmed (str "tx"))) matched).1.
Definition observed : AppState :=
  (run (handle_sync_event (Fill (demo_addr 7) (demo_id 1) (demo_addr 1) (demo_addr 5) 600 3 0 0 true 3 10)) confirmed).1.

Lemma matched_fill_consumed_twice :
  resting matched (demo_id 1) = Some (1000, 600) ∧
  resting confirmed (demo_id 1) = Some (400, 0) ∧
  resting observed (demo_id 1) = None.
Proof. split_and!; vm_compute; reflexivity. Qed.

(** * A restart strands the matches of the book

    An ask and a crossing bid are both open in the store, as when the service
    stops between a match and its settlement.  [boot] places them again and
    drops the intents: both rest with everything pending, the queue is empty,
    and nothing is available to later orders.  A partly filled order comes
    back with its full amount. *)

Definition crossing_store : Store :=
  store_run
    [InsertOrder (demo_id 3) (demo_bid 5 1000 5 3) Bid 5 [];
     ApplyFill (mkNewFill (str "tx") 0 (demo_id 2) (demo_addr 7) (demo_addr 1) (demo_addr 5) 1000 6 0 0 true 6 10)]
    demo_service_store.

Definition restarted : AppState :=
  default demo_app (boot (str "0xe") None None (λ _, 0) [demo_market] crossing_store).

Lemma restart_strands_matches :
  resting restarted (demo_id 1) = Some (1000, 1000) ∧ resting restarted (demo_id 3) = Some (1000, 1000) ∧
  match_tx restarted = mkQueue [] [] true.
Proof. split_and!; vm_compute; reflexivity. Qed.

Lemma restart_forgets_fills :
  (λ r, (or_filled_taker r, no_taker_amount (or_values r))) <$> order_row (demo_id 2) (tables_of restarted) =
    Some (6, 12) ∧
  resting restarted (demo_id 2) = Some (2000, 0).
Proof. split; vm_compute; reflexivity. Qed.

(** * Interleaved requests over-commit an escrow

    Two asks of 4000 from the makers of one manager, whose escrow of 8000
    already covers commitments of 3000.  Alone, the second is refused;
    interleaved, both pass the check before either is recorded. *)

Definition two_asks : list (prog AppState ApiResult) :=
  [place_order 0 0 (demo_ask 5 4000 9 3); place_order 0 0 (demo_ask 6 4000 9 3)].

Definition committed_after (schedule : list nat) : Z :=
  committed (demo_addr 9) (base demo_market) (tables_of (sched schedule two_asks demo_app).2).

Lemma interleaved_intake_over_commits :
  committed_after (replicate 60 0%nat ++ replicate 60 1%nat) = 7000 ∧
  committed_after (concat (replicate 60 [0; 1]%nat)) = 11000 ∧
  exchange_balances (tables_of demo_app) !! (demo_addr 9, base demo_market) = Some 8000.
Proof. split_and!; vm_compute; reflexivity. Qed.

(** * A cancellation between recording and placing is lost

    The order is recorded; its maker cancels it, and the reply says
    CANCELLED; then the request that is still running places it in the
    book. *)

Definition late_ask : SignedOrder := demo_ask 96 500 9 7.
Definition late_digest : Digest := order_digest (order late_ask) (registry_id late_ask).
Definition racing : list (prog AppState ApiResult) :=
  [place_order 0 0 late_ask;
   cancel_order 0 (Digest_to_hex late_digest) (mkCancelRequest Ed25519 (replicate 64 7) (replicate 32 3))].

(** The first nine actions of the request end with the insertion. *)
Definition race : AppState := (sched (replicate 9 0%nat ++ replicate 30 1%nat ++ replicate 30 0%nat) racing demo_app).2.

Lemma cancelled_order_rests :
  or_status <$> order_row late_digest (tables_of race) = Some CANCELLED ∧
  resting race late_digest = Some (500, 0).
Proof. split; vm_compute; reflexivity. Qed.

(** * A failed poll credits a deposit again

    A page holds two deposits; the store fails while the second is applied,
    so the cursor does not move and the next poll applies both: the first is
    credited twice. *)

Definition poll_deposits : prog AppState (result SyncError bool) :=
  poll_module demo_ingestor (λ _, Some (page_body [demo_deposit 100; demo_deposit 20] (Some (str "c1")) false))
    (str "exchange-events:balance_manager") (str "0xe::balance_manager").

(** The connection is lost at the third checkout. *)
Definition flaky : AppState := set_app_db (mkStore (tables_of demo_app) [true; true; false]) demo_app.
Definition polled_once : AppState * result SyncError bool := run poll_deposits flaky.
Definition polled_twice : AppState * result SyncError bool := run poll_deposits polled_once.1.

Lemma failed_poll_credits_again :
  polled_once.2 = Err (SyncStore Pool) ∧ polled_twice.2 = Ok false ∧
  exchange_balances (tables_of polled_twice.1) !! (demo_addr 9, base demo_market) = Some (8000 + 100 + 100 + 20) ∧
  length (fd_events (sync_feed polled_twice.1)) = 3%nat.
Proof. split_and!; vm_compute; reflexivity. Qed.
