(* ===== verification/Quote.v ===== *)
(** [crates/protocol-types]: the signed quote of the RFQ protocol
    ([quote.rs]), its signature schemes ([signing_scheme.rs]), the sides of an
    RFQ ([sides.rs]) and the protocol errors ([errors.rs]).  [bcs::to_bytes]
    of a quote does not fail. *)

From S2P Require Import Prelude RustStr ExchangeTypes Crates BucketSpec.

(** * Sides *)

Inductive Side := Writer | Trader.
Inductive MmRole := TraderMm | WriterMm.

#[export] Instance Side_eq_dec : EqDecision Side.
Proof. solve_decision. Defined.
#[export] Instance MmRole_eq_dec : EqDecision MmRole.
Proof. solve_decision. Defined.

Definition counterparty_mm (s : Side) : MmRole :=
  match s with Writer => TraderMm | Trader => WriterMm end.

(** * Errors *)

Inductive ProtocolError :=
  | QuoteExpired | QuoteNonceUsed | QuoteSignatureInvalid | QuoteProtocolMismatch | QuoteBucketMismatch
  | QuoteAccountMismatch | BucketExpired | BucketNotExpired | BucketNotDrained | InsufficientAccountBalance
  | AmountMismatch | SettlementAmountMismatch | CursorOverflow | NotOwner | PositionBucketMismatch
  | QuoteAlreadyReserved | UnknownBucket | UnknownAccount | Bcs (e : rstring) | InvalidSigningScheme.

#[export] Instance ProtocolError_eq_dec : EqDecision ProtocolError.
Proof. solve_decision. Defined.

(** * Signature schemes *)

Inductive SigningScheme := Ed25519 | Secp256k1 | Secp256r1.

#[export] Instance SigningScheme_eq_dec : EqDecision SigningScheme.
Proof. solve_decision. Defined.

Definition as_u8 (s : SigningScheme) : Z :=
  match s with Ed25519 => 0 | Secp256k1 => 1 | Secp256r1 => 2 end.

Definition from_u8 (byte : Z) : result ProtocolError SigningScheme :=
  if byte =? 0 then Ok Ed25519
  else if byte =? 1 then Ok Secp256k1
  else if byte =? 2 then Ok Secp256r1
  else Err InvalidSigningScheme.

Definition pubkey_len (s : SigningScheme) : Z :=
  match s with Ed25519 => 32 | Secp256k1 | Secp256r1 => 33 end.

Definition signature_len (s : SigningScheme) : Z := 64.

Section verify.
Context `{CryptoCrates}.

Definition verify_ed25519 (pubkey msg signature : list Z) : result ProtocolError unit :=
  if negb (ed25519_key_ok pubkey) then Err QuoteSignatureInvalid
  else if ed25519_verify pubkey msg signature then Ok () else Err QuoteSignatureInvalid.

Definition verify_secp256k1_sha256 (pubkey msg signature : list Z) : result ProtocolError unit :=
  if negb (k256_key_ok pubkey) then Err QuoteSignatureInvalid
  else if negb (k256_signature_ok signature) then Err QuoteSignatureInvalid
  else if k256_verify_prehash pubkey (sha256 msg) signature then Ok () else Err QuoteSignatureInvalid.

Definition verify_secp256r1_sha256 (pubkey msg signature : list Z) : result ProtocolError unit :=
  if negb (p256_key_ok pubkey) then Err QuoteSignatureInvalid
  else if negb (p256_signature_ok signature) then Err QuoteSignatureInvalid
  else if p256_verify_prehash pubkey (sha256 msg) signature then Ok () else Err QuoteSignatureInvalid.

Definition verify_signature (scheme : SigningScheme) (pubkey msg signature : list Z)
    : result ProtocolError unit :=
  if negb (len pubkey =? pubkey_len scheme) || negb (len signature =? signature_len scheme)
  then Err QuoteSignatureInvalid
  else match scheme with
       | Ed25519 => verify_ed25519 pubkey msg signature
       | Secp256k1 => verify_secp256k1_sha256 pubkey msg signature
       | Secp256r1 => verify_secp256r1_sha256 pubkey msg signature
       end.
End verify.

(** * Quotes *)

Record Quote := mkQuote {
  protocol_id : list Z;
  signer_id : ObjectId;
  collateral_source : ObjectId;
  release_package : SuiAddress;
  release_module : rstring;
  signer_token_recipient : SuiAddress;
  spec : BucketSpec;
  max_total_written : Z;
  write_amount : Z;
  premium : Z;
  valid_until_ms : Z;
  nonce : Z;
}.

Record SignedQuote := mkSignedQuote { quote : Quote; signature : list Z }.

#[export] Instance Quote_eq_dec : EqDecision Quote.
Proof. solve_decision. Defined.

Section bcs.
Context `{BcsCrate, CryptoCrates}.

(** [self.0.serialize(ser)] of a 32-byte array: the bytes. *)
Definition id_bcs (a : SuiAddress) : list Z := mjoin (bcs_u8 <$> addr_bytes a).

(** The fields in declaration order, with no tag around them. *)
Definition spec_bcs (s : BucketSpec) : list Z :=
  bcs_str (bs_asset s) ++ bcs_str (bs_settlement s) ++ bcs_u64 (bs_expiry_ms s) ++ bcs_u64 (bs_sig s) ++
  bcs_u8 (bs_exp s) ++ bcs_bool (bs_is_put s).

Definition to_bcs_bytes (q : Quote) : list Z :=
  bcs_bytes (protocol_id q) ++ id_bcs (signer_id q) ++ id_bcs (collateral_source q) ++
  id_bcs (release_package q) ++ bcs_str (release_module q) ++ id_bcs (signer_token_recipient q) ++
  spec_bcs (spec q) ++ bcs_u128 (max_total_written q) ++ bcs_u64 (write_amount q) ++
  bcs_u64 (premium q) ++ bcs_u64 (valid_until_ms q) ++ bcs_u64 (nonce q).

Definition verify (sq : SignedQuote) (scheme : SigningScheme) (signing_pubkey expected_protocol_id : list Z)
    (expected_signer_id : ObjectId) (now_ms : Z) : result ProtocolError unit :=
  let q := quote sq in
  if negb (bool_decide (protocol_id q = expected_protocol_id)) then Err QuoteProtocolMismatch
  else if negb (bool_decide (signer_id q = expected_signer_id)) then Err QuoteAccountMismatch
  else if valid_until_ms q <=? now_ms then Err QuoteExpired
  else verify_signature scheme signing_pubkey (to_bcs_bytes q) (signature sq).
End bcs.

(** * The signed bytes determine the quote *)

Definition spec_ok (s : BucketSpec) : Prop :=
  str_wf (bs_asset s) ∧ str_wf (bs_settlement s) ∧ u64 (bs_expiry_ms s) ∧ u64 (bs_sig s).

(** The fields have their types. *)
Definition quote_ok (q : Quote) : Prop :=
  Forall byte_wf (protocol_id q) ∧ bytes32 (addr_bytes (signer_id q)) ∧
  bytes32 (addr_bytes (collateral_source q)) ∧ bytes32 (addr_bytes (release_package q)) ∧
  str_wf (release_module q) ∧ bytes32 (addr_bytes (signer_token_recipient q)) ∧ spec_ok (spec q) ∧
  u128 (max_total_written q) ∧ u64 (write_amount q) ∧ u64 (premium q) ∧ u64 (valid_until_ms q) ∧ u64 (nonce q).

Section binding.
Context `{BcsSpec}.

Lemma id_cancel a a' r r' :
  bytes32 (addr_bytes a) → bytes32 (addr_bytes a') → id_bcs a ++ r = id_bcs a' ++ r' → a = a' ∧ r = r'.
Proof.
  intros [Hl _] [Hl' _]. unfold id_bcs.
  assert (∀ l, mjoin (bcs_u8 <$> l) = l) as Hraw.
  { induction l as [|b l IH]; [done|]. rewrite fmap_cons. simpl. by rewrite bcs_u8_raw, IH. }
  rewrite !Hraw. intros E. apply app_inj_1 in E as [E ->]; [|congruence].
  destruct a, a'. cbn in E. by subst.
Qed.

Lemma spec_cancel s s' r r' :
  spec_ok s → spec_ok s' → spec_bcs s ++ r = spec_bcs s' ++ r' → s = s' ∧ r = r'.
Proof.
  intros (A1 & A2 & A3 & A4) (B1 & B2 & B3 & B4). unfold spec_bcs. rewrite <- !app_assoc. intros E.
  apply bcs_str_cancel in E as [E1 E]; [|done..]. apply bcs_str_cancel in E as [E2 E]; [|done..].
  apply u64_cancel in E as [E3 E]; [|done..]. apply u64_cancel in E as [E4 E]; [|done..].
  apply u8_cancel in E as [E5 E]. apply bool_cancel in E as [E6 E].
  destruct s, s'. cbn in *. by subst.
Qed.

Lemma to_bcs_bytes_inj q q' : quote_ok q → quote_ok q' → to_bcs_bytes q = to_bcs_bytes q' → q = q'.
Proof.
  intros (A1 & A2 & A3 & A4 & A5 & A6 & A7 & A8 & A9 & A10 & A11 & A12)
    (B1 & B2 & B3 & B4 & B5 & B6 & B7 & B8 & B9 & B10 & B11 & B12) E. unfold to_bcs_bytes in E.
  apply bcs_bytes_cancel in E as [E1 E]; [|done..]. apply id_cancel in E as [E2 E]; [|done..].
  apply id_cancel in E as [E3 E]; [|done..]. apply id_cancel in E as [E4 E]; [|done..].
  apply bcs_str_cancel in E as [E5 E]; [|done..]. apply id_cancel in E as [E6 E]; [|done..].
  apply spec_cancel in E as [E7 E]; [|done..]. apply u128_cancel in E as [E8 E]; [|done..].
  apply u64_cancel in E as [E9 E]; [|done..]. apply u64_cancel in E as [E10 E]; [|done..].
  apply u64_cancel in E as [E11 E]; [|done..]. apply bcs_u64_inj in E; [|done..].
  destruct q, q'. cbn in *. congruence.
Qed.
End binding.
