(* ===== verification/Quoting.v ===== *)
(** [services/quoting-service], the state and the pure functions of the RFQ
    service: the nonce table, the reputation counters, the market-maker
    registry, the messages, quote validation and ranking, and the
    authentication of a market maker.

    The answers of the indexer and the clocks are the [world], which changes
    on its own. *)

From S2P Require Import Prelude Prog F64 Channel RustStr ExchangeTypes Crates BucketSpec Quote.

#[export] Instance BucketSpec_countable : Countable BucketSpec.
Proof.
  refine (inj_countable'
    (λ s, (bs_asset s, bs_settlement s, bs_expiry_ms s, bs_sig s, bs_exp s, bs_is_put s))
    (λ '(a, b, c, d, e, f), mkBucketSpec a b c d e f) _).
  by intros [].
Defined.

(** * [state/nonces.rs] *)

Abbreviation NonceTable := (gmap (ObjectId * Z) Z).

Inductive InsertOutcome := Inserted | DuplicateKey.

Definition nonce_insert (signer_id : ObjectId) (nonce valid_until_ms now_ms : Z) (t : NonceTable)
    : NonceTable * InsertOutcome :=
  let t := filter (λ kv, now_ms < kv.2) t in
  let key := (signer_id, nonce) in
  if decide (is_Some (t !! key)) then (t, DuplicateKey) else (<[key := valid_until_ms]> t, Inserted).

(** * [state/reputation.rs] *)

Record ReputationStats := mkStats {
  quotes_signed : Z;
  quotes_executed : Z;
  quotes_expired_unused : Z;
  quotes_reverted : Z;
}.

Definition stats_default : ReputationStats := mkStats 0 0 0 0.

Definition fill_rate (s : ReputationStats) : f64 :=
  if quotes_signed s =? 0 then f64_of_u64 1
  else f64_div (f64_of_u64 (quotes_executed s)) (f64_of_u64 (quotes_signed s)).

Definition revert_rate (s : ReputationStats) : f64 :=
  if quotes_signed s =? 0 then f64_zero
  else f64_div (f64_of_u64 (quotes_reverted s)) (f64_of_u64 (quotes_signed s)).

Definition composite_score (s : ReputationStats) : f64 :=
  let r := revert_rate s in
  let f := fill_rate s in
  f64_clamp (f64_sub f (f64_mul (f64_of_u64 2) r)) f64_zero (f64_of_u64 1).

Abbreviation ReputationStore := (gmap ObjectId ReputationStats).

Definition with_mut (id : ObjectId) (f : ReputationStats → ReputationStats) (m : ReputationStore) : ReputationStore :=
  <[id := f (default stats_default (m !! id))]> m.

Definition record_signed (id : ObjectId) : ReputationStore → ReputationStore :=
  with_mut id (λ s, mkStats (u64_add (quotes_signed s) 1) (quotes_executed s) (quotes_expired_unused s) (quotes_reverted s)).
Definition record_executed (id : ObjectId) : ReputationStore → ReputationStore :=
  with_mut id (λ s, mkStats (quotes_signed s) (u64_add (quotes_executed s) 1) (quotes_expired_unused s) (quotes_reverted s)).
Definition record_expired_unused (id : ObjectId) : ReputationStore → ReputationStore :=
  with_mut id (λ s, mkStats (quotes_signed s) (quotes_executed s) (u64_add (quotes_expired_unused s) 1) (quotes_reverted s)).
Definition record_reverted (id : ObjectId) : ReputationStore → ReputationStore :=
  with_mut id (λ s, mkStats (quotes_signed s) (quotes_executed s) (quotes_expired_unused s) (u64_add (quotes_reverted s) 1)).

Definition snapshot (id : ObjectId) (m : ReputationStore) : ReputationStats := default stats_default (m !! id).

(** * [messages.rs] *)

Record MmQuotePayload := mkMmQuote { mq_quote : Quote; mq_signature : list Z }.

Record RfqQuoteEntry := mkEntry {
  eq_quote : Quote;
  eq_signature : list Z;
  mm_id : ObjectId;
  mm_reputation : f64;
}.

Record BulkViewMmPremium := mkMmPremium { mp_spec : BucketSpec; mp_premium : Z }.

Record BulkViewPremium := mkBulkViewPremium {
  bv_spec : BucketSpec;
  bv_premium : Z;
  bv_mm_count : Z;
  stale : bool;
  cache_age_ms : Z;
}.

Inductive ServiceToMm :=
  | AuthChallenge (challenge : list Z)
  | AuthAck (session_id : rstring)
  | RFQBroadcast (request_id : rstring) (spec : BucketSpec) (write_amount : Z) (side : Side) (deadline_ms : Z)
  | BulkViewRFQBroadcast (request_id : rstring) (write_amount : Z) (side : Side) (deadline_ms : Z)
      (specs : list BucketSpec)
  | MmError (request_id : option rstring) (code : rstring)
  | MmPing.

Inductive ServiceToRetail :=
  | BucketUpdate (bucket_id : ObjectId) (total_written exercise_cursor expiry_ms : Z)
  | RFQResponse (request_id : rstring) (spec : BucketSpec) (bucket_id : option ObjectId) (write_amount : Z)
      (quotes : list RfqQuoteEntry)
  | BulkViewRFQResponse (request_id : rstring) (write_amount : Z) (premiums : list BulkViewPremium)
  | RetailError (request_id : option rstring) (code : rstring).

(** [state/mod.rs]: a response of a market maker, routed to its request. *)
Inductive MmResponse :=
  | RespQuote (mm : ObjectId) (payload : MmQuotePayload)
  | RespDecline (mm : ObjectId)
  | RespBulkView (mm : ObjectId) (premiums : list BulkViewMmPremium).

(** * [state/mm_registry.rs] *)

(** [mm_tx] names the outbound channel of the connection. *)
Record MmConnection := mkMmConnection {
  account_id : ObjectId;
  roles : list MmRole;
  bulk_view : bool;
  mm_tx : nat;
}.

Definition serves (c : MmConnection) (role : MmRole) : bool := bool_decide (role ∈ roles c).

Abbreviation MmRegistry := (gmap ObjectId MmConnection).

Definition mms_insert (c : MmConnection) (m : MmRegistry) : MmRegistry := <[account_id c := c]> m.
Definition mms_remove (a : ObjectId) (m : MmRegistry) : MmRegistry := delete a m.

Section registry.
Context `{DashMapCrate}.

Definition all_for_role (role : MmRole) (m : MmRegistry) : list MmConnection :=
  List.filter (λ c, serves c role) (dash_values m).

Definition all_for_bulk_view (role : MmRole) (m : MmRegistry) : list MmConnection :=
  List.filter (λ c, serves c role && bulk_view c) (dash_values m).
End registry.

(** * The indexer's answers *)

(** [crates/indexer-graphql]: an account and a bucket as the indexer reports
    them. *)
Record Account := mkAccount {
  ac_account_id : ObjectId;
  ac_owner : option SuiAddress;
  ac_signing_scheme : option SigningScheme;
  ac_signing_pubkey : list Z;
}.

Record Bucket := mkBucket {
  bk_bucket_id : ObjectId;
  bk_asset_type : rstring;
  bk_settlement_type : rstring;
  bk_call_type : rstring;
  bk_strike : Z;
  bk_strike_scale : Z;
  bk_expiry_ms : Z;
  bk_total_written : Z;
  bk_exercise_cursor : Z;
  bk_cleaned : bool;
  bk_invalidated : bool;
  bk_option_kind : rstring;
  bk_deepbook_pool_id : option ObjectId;
  bk_exchange_market_id : option ObjectId;
}.

(** What the indexer answers now; an error is a transport failure.
    [ix_buckets] is [buckets(false, asset, settlement, expiry)]. *)
Record Indexer := mkIndexer {
  ix_account : ObjectId → result unit (option Account);
  ix_bucket : ObjectId → result unit (option Bucket);
  ix_buckets : rstring → rstring → Z → result unit (list Bucket);
  ix_executed : ObjectId → Z → result unit (list (Z * Z));
}.

(** * [rfq/resolve.rs], the values *)

Inductive Resolved := Exists (b : Bucket) | Pending.

Definition bucket (r : Resolved) : option Bucket :=
  match r with Exists b => Some b | Pending => None end.

Definition total_written (r : Resolved) : Z := default 0 (bk_total_written <$> bucket r).

Definition is_invalidated (r : Resolved) : bool :=
  match bucket r with Some b => bk_invalidated b | None => false end.

(** Of the indexer's candidates, the bucket of the spec. *)
Definition bucket_of_spec (s : BucketSpec) (candidates : list Bucket) : option Bucket :=
  List.find (λ b,
    Bool.eqb (bool_decide (bk_option_kind b = str "put")) (bs_is_put s) && negb (bk_cleaned b) &&
    match normalize_strike (bk_strike b) (bk_strike_scale b) with
    | Ok se => bool_decide (se = (bs_sig s, bs_exp s))
    | Err _ => false
    end) candidates.

(** * [rfq/mod.rs], validation and ranking *)

Module Rejection.
Inductive QuoteRejection :=
  | ProtocolMismatch | SpecMismatch | QueueExceeded | WriteAmountMismatch | Expired | SignatureInvalid
  | DuplicateNonce | UnknownSigner | UnknownBucket | InvalidPubkey | BucketInvalidated | MissingRouting.

#[export] Instance QuoteRejection_eq_dec : EqDecision QuoteRejection.
Proof. solve_decision. Defined.

Definition from (e : ProtocolError) : QuoteRejection :=
  match e with
  | QuoteExpired => Expired
  | QuoteSignatureInvalid => SignatureInvalid
  | QuoteProtocolMismatch => ProtocolMismatch
  | QuoteBucketMismatch => SpecMismatch
  | QuoteAccountMismatch => SignatureInvalid
  | _ => SignatureInvalid
  end.
End Rejection.
Import Rejection(QuoteRejection).

Section validate.
Context `{BcsCrate, CryptoCrates}.

(** [validate_quote] up to the nonce table. *)
Definition check_quote (s : BucketSpec) (resolved : Resolved) (account : Account) (amount : Z)
    (payload : MmQuotePayload) (mm_signer_id : ObjectId) (protocol : list Z) (now_ms : Z)
    : result QuoteRejection unit :=
  let q := mq_quote payload in
  if negb (bool_decide (protocol_id q = protocol)) then Err Rejection.ProtocolMismatch
  else if negb (bool_decide (spec q = s)) then Err Rejection.SpecMismatch
  else if max_total_written q <? total_written resolved then Err Rejection.QueueExceeded
  else if negb (write_amount q =? amount) then Err Rejection.WriteAmountMismatch
  else if valid_until_ms q <=? now_ms then Err Rejection.Expired
  else if negb (bool_decide (signer_id q = mm_signer_id)) then Err Rejection.SignatureInvalid
  else if bool_decide (collateral_source q = SuiAddress_ZERO)
          || bool_decide (release_package q = SuiAddress_ZERO) || bool_decide (release_module q = [])
  then Err Rejection.MissingRouting
  else
    scheme ← ok_or (ac_signing_scheme account) Rejection.InvalidPubkey;
    _ ← map_err Rejection.from
          (verify (mkSignedQuote q (mq_signature payload)) scheme (ac_signing_pubkey account) protocol
             mm_signer_id now_ms);
    if is_invalidated resolved then Err Rejection.BucketInvalidated else Ok ().

(** [sort_by] puts [a] before [b] unless the comparison says greater; a
    comparison with a NaN is equal. *)
Definition rank_le (side : Side) (a b : RfqQuoteEntry) : bool :=
  let pa := premium (eq_quote a) in
  let pb := premium (eq_quote b) in
  let by_premium := match side with Writer => Z.compare pb pa | Trader => Z.compare pa pb end in
  let by_reputation := default Eq (f64_partial_cmp (mm_reputation b) (mm_reputation a)) in
  match by_premium with
  | Lt => true
  | Gt => false
  | Eq => match by_reputation with Gt => false | _ => true end
  end.

Definition sort_best_first (side : Side) (quotes : list RfqQuoteEntry) : list RfqQuoteEntry :=
  sort_by (rank_le side) quotes.

(** * [ws/auth.rs] *)

Inductive AuthError := PubkeyMismatch | SchemeUnknown | ChallengeSignatureInvalid.

Definition verify_challenge_response (indexer_scheme : option SigningScheme) (indexer_pubkey : list Z)
    (supplied_scheme : SigningScheme) (supplied_pubkey challenge signature : list Z) : result AuthError unit :=
  scheme ← ok_or indexer_scheme SchemeUnknown;
  if negb (bool_decide (scheme = supplied_scheme)) || negb (bool_decide (indexer_pubkey = supplied_pubkey))
  then Err PubkeyMismatch
  else map_err (λ _, ChallengeSignatureInvalid) (verify_signature scheme indexer_pubkey challenge signature).
End validate.

(** * [rfq/bulk_view.rs], the values *)

Record BulkViewCacheEntry := mkCacheEntry { ce_premium : Z; ce_mm_count : Z; ce_cached_at_ms : Z }.

(** A [u128] sum of [u64]s in memory does not overflow. *)
Definition mean_premium (premiums : list Z) : Z :=
  match premiums with
  | [] => 0
  | _ => wrap64 (wrap128 (Zsum_with id premiums) / Z.of_nat (length premiums))
  end.

Abbreviation CacheKey := (BucketSpec * Z)%type.

Definition age_ms (now_ms : Z) (e : BulkViewCacheEntry) : Z := u64_saturating_sub now_ms (ce_cached_at_ms e).

Inductive Freshness := Fresh | Stale | Cold.

Definition freshness (now_ms ttl_ms : Z) (entry : option BulkViewCacheEntry) : Freshness :=
  match entry with
  | Some e => if age_ms now_ms e <? ttl_ms then Fresh else Stale
  | None => Cold
  end.

(** A line of [build_response]. *)
Definition premium_line (now_ms ttl_ms : Z) (s : BucketSpec) (e : BulkViewCacheEntry) : BulkViewPremium :=
  let age := age_ms now_ms e in
  mkBulkViewPremium s (ce_premium e) (ce_mm_count e) (ttl_ms <=? age) age.
