(* ===== verification/QuotingService.v ===== *)
(** [services/quoting-service], the service: its shared state and the programs
    of its tasks.  A task is a request of a retail client, a frame of a market
    maker, a connection that opens or closes, a spawned refresh, or a step of
    the world.  Retail frames are handled in order by one loop per session up
    to the point where their work is spawned; taking them as tasks of their
    own allows more interleavings.

    A message to a retail client goes through the bounded channel of its
    session: a task that sends into a full one waits until the write loop takes
    a message or the session ends.

    A timeout is modelled by the number of times the receiver runs within the
    window ([polls]). *)

From S2P Require Import Prelude Prog F64 Channel RustStr ExchangeTypes Crates BucketSpec Quote Quoting.

Import Rejection(QuoteRejection).

(** * The state *)

(** The channel of an RFQ: what it holds, its capacity and its senders. *)
Record Matcher := mkMatcher { mt_queue : Queue MmResponse; mt_capacity : nat; mt_senders : nat }.

(** The clocks (milliseconds of the epoch; nanoseconds of the monotonic clock)
    and the indexer. *)
Record World := mkWorld { w_now_ms : Z; w_instant : Z; w_indexer : Indexer }.

(** A spawned bulk-view refresh. *)
Record RefreshJob := mkRefreshJob {
  rj_side : Side;
  rj_specs : list BucketSpec;
  rj_write_amount : Z;
  rj_now_ms : Z;
}.

Record QState := mkQState {
  nonces : NonceTable;
  reputation : ReputationStore;
  mms : MmRegistry;
  mm_channels : list (Queue ServiceToMm);
  reconcile_cursors : gmap ObjectId Z;
  pending_rfqs : gmap rstring nat;
  matchers : list Matcher;
  bulk_view_cache : gmap CacheKey BulkViewCacheEntry;
  hits : gmap BucketSpec Bucket;
  misses : gmap BucketSpec Z;
  bulk_view_refreshing : gset CacheKey;
  rfq_global_inflight : nat;          (* permits left *)
  session_inflight : gmap nat nat;    (* permits left, per session *)
  rfq_observers : list (rstring * BucketSpec * Z * Side);
  retail_tx : list (nat * ServiceToRetail);
  spawned : list RefreshJob;
  world : World;
  retail_written : gmap nat nat;      (* messages taken to the socket, per session *)
  retail_gone : gset nat;             (* sessions that ended *)
}.

(** Setters, one per field the programs change. *)
Definition set_nonces x s := mkQState x (reputation s) (mms s) (mm_channels s) (reconcile_cursors s) (pending_rfqs s)
  (matchers s) (bulk_view_cache s) (hits s) (misses s) (bulk_view_refreshing s) (rfq_global_inflight s)
  (session_inflight s) (rfq_observers s) (retail_tx s) (spawned s) (world s) (retail_written s) (retail_gone s).
Definition set_reputation x s := mkQState (nonces s) x (mms s) (mm_channels s) (reconcile_cursors s) (pending_rfqs s)
  (matchers s) (bulk_view_cache s) (hits s) (misses s) (bulk_view_refreshing s) (rfq_global_inflight s)
  (session_inflight s) (rfq_observers s) (retail_tx s) (spawned s) (world s) (retail_written s) (retail_gone s).
Definition set_mms x s := mkQState (nonces s) (reputation s) x (mm_channels s) (reconcile_cursors s) (pending_rfqs s)
  (matchers s) (bulk_view_cache s) (hits s) (misses s) (bulk_view_refreshing s) (rfq_global_inflight s)
  (session_inflight s) (rfq_observers s) (retail_tx s) (spawned s) (world s) (retail_written s) (retail_gone s).
Definition set_mm_channels x s := mkQState (nonces s) (reputation s) (mms s) x (reconcile_cursors s) (pending_rfqs s)
  (matchers s) (bulk_view_cache s) (hits s) (misses s) (bulk_view_refreshing s) (rfq_global_inflight s)
  (session_inflight s) (rfq_observers s) (retail_tx s) (spawned s) (world s) (retail_written s) (retail_gone s).
Definition set_reconcile_cursors x s := mkQState (nonces s) (reputation s) (mms s) (mm_channels s) x (pending_rfqs s)
  (matchers s) (bulk_view_cache s) (hits s) (misses s) (bulk_view_refreshing s) (rfq_global_inflight s)
  (session_inflight s) (rfq_observers s) (retail_tx s) (spawned s) (world s) (retail_written s) (retail_gone s).
Definition set_matchers p x s := mkQState (nonces s) (reputation s) (mms s) (mm_channels s) (reconcile_cursors s) p
  x (bulk_view_cache s) (hits s) (misses s) (bulk_view_refreshing s) (rfq_global_inflight s)
  (session_inflight s) (rfq_observers s) (retail_tx s) (spawned s) (world s) (retail_written s) (retail_gone s).
Definition set_cache x s := mkQState (nonces s) (reputation s) (mms s) (mm_channels s) (reconcile_cursors s)
  (pending_rfqs s) (matchers s) x (hits s) (misses s) (bulk_view_refreshing s) (rfq_global_inflight s)
  (session_inflight s) (rfq_observers s) (retail_tx s) (spawned s) (world s) (retail_written s) (retail_gone s).
Definition set_resolver h m s := mkQState (nonces s) (reputation s) (mms s) (mm_channels s) (reconcile_cursors s)
  (pending_rfqs s) (matchers s) (bulk_view_cache s) h m (bulk_view_refreshing s) (rfq_global_inflight s)
  (session_inflight s) (rfq_observers s) (retail_tx s) (spawned s) (world s) (retail_written s) (retail_gone s).
Definition set_refreshing x s := mkQState (nonces s) (reputation s) (mms s) (mm_channels s) (reconcile_cursors s)
  (pending_rfqs s) (matchers s) (bulk_view_cache s) (hits s) (misses s) x (rfq_global_inflight s)
  (session_inflight s) (rfq_observers s) (retail_tx s) (spawned s) (world s) (retail_written s) (retail_gone s).
Definition set_permits g ss s := mkQState (nonces s) (reputation s) (mms s) (mm_channels s) (reconcile_cursors s)
  (pending_rfqs s) (matchers s) (bulk_view_cache s) (hits s) (misses s) (bulk_view_refreshing s) g
  ss (rfq_observers s) (retail_tx s) (spawned s) (world s) (retail_written s) (retail_gone s).
Definition set_observers x s := mkQState (nonces s) (reputation s) (mms s) (mm_channels s) (reconcile_cursors s)
  (pending_rfqs s) (matchers s) (bulk_view_cache s) (hits s) (misses s) (bulk_view_refreshing s) (rfq_global_inflight s)
  (session_inflight s) x (retail_tx s) (spawned s) (world s) (retail_written s) (retail_gone s).
Definition set_retail_tx x s := mkQState (nonces s) (reputation s) (mms s) (mm_channels s) (reconcile_cursors s)
  (pending_rfqs s) (matchers s) (bulk_view_cache s) (hits s) (misses s) (bulk_view_refreshing s) (rfq_global_inflight s)
  (session_inflight s) (rfq_observers s) x (spawned s) (world s) (retail_written s) (retail_gone s).
Definition set_spawned x s := mkQState (nonces s) (reputation s) (mms s) (mm_channels s) (reconcile_cursors s)
  (pending_rfqs s) (matchers s) (bulk_view_cache s) (hits s) (misses s) (bulk_view_refreshing s) (rfq_global_inflight s)
  (session_inflight s) (rfq_observers s) (retail_tx s) x (world s) (retail_written s) (retail_gone s).
Definition set_world x s := mkQState (nonces s) (reputation s) (mms s) (mm_channels s) (reconcile_cursors s)
  (pending_rfqs s) (matchers s) (bulk_view_cache s) (hits s) (misses s) (bulk_view_refreshing s) (rfq_global_inflight s)
  (session_inflight s) (rfq_observers s) (retail_tx s) (spawned s) x (retail_written s) (retail_gone s).
Definition set_sessions x y s := mkQState (nonces s) (reputation s) (mms s) (mm_channels s) (reconcile_cursors s)
  (pending_rfqs s) (matchers s) (bulk_view_cache s) (hits s) (misses s) (bulk_view_refreshing s) (rfq_global_inflight s)
  (session_inflight s) (rfq_observers s) (retail_tx s) (spawned s) (world s) x y.

(** [AppState::with_global_rfq_cap]. *)
Definition with_global_rfq_cap (cap : nat) (w : World) : QState :=
  mkQState ∅ ∅ ∅ [] ∅ ∅ [] ∅ ∅ ∅ ∅ cap ∅ [] [] [] w ∅ ∅.

Definition now_ms : prog QState Z := read (λ s, w_now_ms (world s)).

(** The world moves on. *)
Definition world_step (w : World) : prog QState unit := modify (set_world w).

(** * [rfq/matcher.rs] *)

Record MatcherOutput := mkOutput { responses : list (ObjectId * MmQuotePayload); declines : list ObjectId }.

Definition update_matcher (ch : nat) (f : Matcher → Matcher) (s : QState) : QState :=
  set_matchers (pending_rfqs s) (alter f ch (matchers s)) s.

Definition add_senders (n : nat) (m : Matcher) : Matcher := mkMatcher (mt_queue m) (mt_capacity m) (mt_senders m + n).
Definition drop_sender (m : Matcher) : Matcher := mkMatcher (mt_queue m) (mt_capacity m) (pred (mt_senders m)).
Definition close_matcher (m : Matcher) : Matcher := mkMatcher (queue_close (mt_queue m)) (mt_capacity m) (mt_senders m).

(** [channel(capacity)]: one sender and the receiver. *)
Definition matcher_channel (capacity : nat) : prog QState nat :=
  act (λ s, (set_matchers (pending_rfqs s) (matchers s ++ [mkMatcher (mkQueue [] [] true) (Nat.max capacity 1) 1]) s,
             length (matchers s))).

(** [pending_rfqs.insert(request_id, tx)], of a clone or of the sender itself;
    a sender it replaces is dropped. *)
Definition pending_insert (clones : nat) (request_id : rstring) (ch : nat) : prog QState unit :=
  modify (λ s,
    let s1 := update_matcher ch (add_senders clones) s in
    let s2 := match pending_rfqs s !! request_id with
              | Some old => update_matcher old drop_sender s1
              | None => s1
              end in
    set_matchers (<[request_id := ch]> (pending_rfqs s2)) (matchers s2) s2).

Definition pending_remove (request_id : rstring) : prog QState unit :=
  modify (λ s,
    match pending_rfqs s !! request_id with
    | Some old =>
        let s1 := update_matcher old drop_sender s in
        set_matchers (delete request_id (pending_rfqs s1)) (matchers s1) s1
    | None => s
    end).

Definition drop_tx (ch : nat) : prog QState unit := modify (update_matcher ch drop_sender).
Definition drop_rx (ch : nat) : prog QState unit := modify (update_matcher ch close_matcher).

(** A market maker's response, sent to the request it names, if it is open. *)
Definition route_response (request_id : rstring) (r : MmResponse) : prog QState unit :=
  tx ← act (λ s, match pending_rfqs s !! request_id with
                 | Some ch => (update_matcher ch (add_senders 1) s, Some ch)
                 | None => (s, None)
                 end);
  match tx with
  | Some ch =>
      _ ← modify (update_matcher ch (λ m,
            mkMatcher (queue_send (mt_capacity m) r (mt_queue m)).1 (mt_capacity m) (mt_senders m)));
      drop_tx ch
  | None => Ret tt
  end.

Inductive Received := RecvMsg (r : MmResponse) | RecvClosed | RecvEmpty.

(** [rx.recv()]: closed when the channel is empty and no sender is left. *)
Definition matcher_recv (ch : nat) : prog QState Received :=
  act (λ s, match matchers s !! ch with
            | Some m =>
                match queue_recv (mt_queue m) with
                | (q, Some r) => (update_matcher ch (λ m, mkMatcher q (mt_capacity m) (mt_senders m)) s, RecvMsg r)
                | (_, None) => (s, if (mt_senders m =? 0)%nat then RecvClosed else RecvEmpty)
                end
            | None => (s, RecvClosed)
            end).

Fixpoint collect (polls : nat) (ch : nat) (out : MatcherOutput) : prog QState MatcherOutput :=
  match polls with
  | O => Ret out
  | S polls' =>
      r ← matcher_recv ch;
      match r with
      | RecvMsg (RespQuote mm q) => collect polls' ch (mkOutput (responses out ++ [(mm, q)]) (declines out))
      | RecvMsg (RespDecline mm) => collect polls' ch (mkOutput (responses out) (declines out ++ [mm]))
      | RecvMsg (RespBulkView _ _) => collect polls' ch out
      | RecvEmpty => collect polls' ch out
      | RecvClosed => Ret out
      end
  end.

Definition collect_with_deadline (polls : nat) (ch : nat) : prog QState MatcherOutput :=
  out ← collect polls ch (mkOutput [] []);
  _ ← drop_rx ch;
  Ret out.

(** [mm.tx.try_send(frame)]. *)
Definition mm_channel_capacity : nat := 64.

Definition mm_try_send (ch : nat) (frame : ServiceToMm) : prog QState bool :=
  act (λ s, match mm_channels s !! ch with
            | Some q =>
                let '(q', ok) := queue_try_send mm_channel_capacity frame q in
                (set_mm_channels (<[ch := q']> (mm_channels s)) s, ok)
            | None => (s, false)
            end).

(** * [rfq/resolve.rs] *)

Definition NEGATIVE_TTL : Z := 5000000000.

Definition resolve (s : BucketSpec) : prog QState (result unit Resolved) :=
  hit ← read (λ st, hits st !! s);
  match hit with
  | Some b => Ret (Ok (Exists b))
  | None =>
      missed ← read (λ st, match misses st !! s with
                           | Some at_ => Z.max (w_instant (world st) - at_) 0 <? NEGATIVE_TTL
                           | None => false
                           end);
      if (missed : bool) then Ret (Ok Pending) else
      candidates ← read (λ st, ix_buckets (w_indexer (world st)) (bs_asset s) (bs_settlement s) (bs_expiry_ms s));
      match candidates with
      | Err e => Ret (Err e)
      | Ok candidates =>
          match bucket_of_spec s candidates with
          | Some b =>
              _ ← modify (λ st, set_resolver (hits st) (delete s (misses st)) st);
              _ ← modify (λ st, set_resolver (<[s := b]> (hits st)) (misses st) st);
              Ret (Ok (Exists b))
          | None =>
              _ ← modify (λ st, set_resolver (hits st) (<[s := w_instant (world st)]> (misses st)) st);
              Ret (Ok Pending)
          end
      end
  end.

(** [invalidate], which nothing calls. *)
Definition invalidate (s : BucketSpec) : prog QState unit :=
  modify (λ st, set_resolver (delete s (hits st)) (misses st) st).

(** * [state/mod.rs] *)

Definition record_fills (signer : ObjectId) : prog QState (result unit unit) :=
  after ← read (λ s, default 0 (reconcile_cursors s !! signer));
  executed ← read (λ s, ix_executed (w_indexer (world s)) signer after);
  match executed with
  | Err e => Ret (Err e)
  | Ok executed =>
      _ ← for_each executed (λ _, modify (λ s, set_reputation (record_executed signer (reputation s)) s));
      let max_seq := foldl (λ m e, Z.max m e.1) after executed in
      _ ← (if after <? max_seq
           then modify (λ s, set_reconcile_cursors (<[signer := max_seq]> (reconcile_cursors s)) s)
           else Ret tt);
      Ret (Ok ())
  end.

Definition try_claim_bulk_view_refresh (key : CacheKey) : prog QState bool :=
  act (λ s, (set_refreshing ({[key]} ∪ bulk_view_refreshing s) s, negb (bool_decide (key ∈ bulk_view_refreshing s)))).

Definition release_bulk_view_refresh (key : CacheKey) : prog QState unit :=
  modify (λ s, set_refreshing (bulk_view_refreshing s ∖ {[key]}) s).

(** * [rfq/mod.rs] *)

Section service.
Context `{BcsCrate, CryptoCrates, DashMapCrate}.

Definition validate_quote (sp : BucketSpec) (resolved : Resolved) (account : Account) (amount : Z)
    (payload : MmQuotePayload) (mm_signer_id : ObjectId) (protocol : list Z) (now : Z)
    : prog QState (result QuoteRejection RfqQuoteEntry) :=
  let q := mq_quote payload in
  match check_quote sp resolved account amount payload mm_signer_id protocol now with
  | Err e => Ret (Err e)
  | Ok _ =>
      outcome ← act (λ s, let '(t, o) := nonce_insert mm_signer_id (nonce q) (valid_until_ms q) now (nonces s) in
                          (set_nonces t s, o));
      match outcome with
      | DuplicateKey => Ret (Err Rejection.DuplicateNonce)
      | Inserted =>
          _ ← modify (λ s, set_reputation (record_signed mm_signer_id (reputation s)) s);
          rep ← read (λ s, composite_score (snapshot mm_signer_id (reputation s)));
          Ret (Ok (mkEntry q (mq_signature payload) mm_signer_id rep))
      end
  end.

(** One response: the fills are reconciled, the account is looked up, the
    quote is validated. *)
Definition consider (sp : BucketSpec) (resolved : Resolved) (amount : Z) (protocol : list Z) (now : Z)
    (mm : ObjectId) (payload : MmQuotePayload) : prog QState (option RfqQuoteEntry) :=
  _ ← record_fills mm;
  account ← read (λ s, ix_account (w_indexer (world s)) mm);
  match account with
  | Ok (Some a) =>
      r ← validate_quote sp resolved a amount payload mm protocol now;
      Ret (match r with Ok entry => Some entry | Err _ => None end)
  | _ => Ret None
  end.

Fixpoint consider_all (sp : BucketSpec) (resolved : Resolved) (amount : Z) (protocol : list Z) (now : Z)
    (rs : list (ObjectId * MmQuotePayload)) (accepted : list RfqQuoteEntry) : prog QState (list RfqQuoteEntry) :=
  match rs with
  | [] => Ret accepted
  | (mm, payload) :: rs' =>
      e ← consider sp resolved amount protocol now mm payload;
      consider_all sp resolved amount protocol now rs' (accepted ++ option_list e)
  end.

(** The makers a response is expected from. *)
Fixpoint broadcast (frame : ServiceToMm) (ms : list MmConnection) (expected : gset ObjectId)
    : prog QState (gset ObjectId) :=
  match ms with
  | [] => Ret expected
  | c :: ms' =>
      sent ← mm_try_send (mm_tx c) frame;
      broadcast frame ms'
        (if (sent : bool) then {[account_id c]} ∪ expected else expected ∖ {[account_id c]})
  end.

(** The expected makers are recorded and not used: [collect_with_deadline]
    does not look at them. *)
Definition orchestrate (polls : nat) (side : Side) (sp : BucketSpec) (resolved : Resolved) (amount : Z)
    (request_id : rstring) (rfq_window_ms : Z) (protocol : list Z) (now : Z) : prog QState (list RfqQuoteEntry) :=
  let deadline := u64_saturating_add now (wrap64 rfq_window_ms) in
  if is_invalidated resolved then Ret [] else
  ms ← read (λ s, all_for_role (counterparty_mm side) (mms s));
  ch ← matcher_channel (Nat.max (length ms) 8);
  _ ← pending_insert 1 request_id ch;
  _ ← broadcast (RFQBroadcast request_id sp amount side deadline) ms ∅;
  _ ← drop_tx ch;
  collected ← collect_with_deadline polls ch;
  _ ← pending_remove request_id;
  accepted ← consider_all sp resolved amount protocol now (responses collected) [];
  Ret (sort_best_first side accepted).

(** * [rfq/bulk_view.rs] *)

Fixpoint claim_all (amount : Z) (specs claimed : list BucketSpec) : prog QState (list BucketSpec) :=
  match specs with
  | [] => Ret claimed
  | s :: specs' =>
      won ← try_claim_bulk_view_refresh (s, amount);
      claim_all amount specs' (if (won : bool) then claimed ++ [s] else claimed)
  end.

Fixpoint broadcast_count (frame : ServiceToMm) (ms : list MmConnection) (expected : nat) : prog QState nat :=
  match ms with
  | [] => Ret expected
  | c :: ms' =>
      sent ← mm_try_send (mm_tx c) frame;
      broadcast_count frame ms' (if (sent : bool) then S expected else expected)
  end.

Definition push_premium (by_spec : gmap BucketSpec (list Z)) (p : BulkViewMmPremium) : gmap BucketSpec (list Z) :=
  <[mp_spec p := default [] (by_spec !! mp_spec p) ++ [mp_premium p]]> by_spec.

Fixpoint collect_premiums (polls : nat) (ch : nat) (remaining : nat) (by_spec : gmap BucketSpec (list Z))
    : prog QState (gmap BucketSpec (list Z)) :=
  match polls with
  | O => Ret by_spec
  | S polls' =>
      r ← matcher_recv ch;
      match r with
      | RecvMsg (RespBulkView _ premiums) =>
          let by_spec := foldl push_premium by_spec premiums in
          match remaining with
          | S (S _ as remaining') => collect_premiums polls' ch remaining' by_spec
          | _ => Ret by_spec
          end
      | RecvMsg _ => collect_premiums polls' ch remaining by_spec
      | RecvEmpty => collect_premiums polls' ch remaining by_spec
      | RecvClosed => Ret by_spec
      end
  end.

Definition cache_insert (key : CacheKey) (e : BulkViewCacheEntry) : prog QState unit :=
  modify (λ s, set_cache (<[key := e]> (bulk_view_cache s)) s).

Definition write_cache (by_spec : gmap BucketSpec (list Z)) (amount now : Z) (claimed : list BucketSpec)
    : prog QState unit :=
  for_each claimed (λ s,
    match by_spec !! s with
    | Some (_ :: _ as premiums) =>
        cache_insert (s, amount)
          (mkCacheEntry (mean_premium premiums) (Z.of_nat (length premiums) mod 2 ^ 32) now)
    | _ => Ret tt
    end).

(** The drop of [ClaimGuard]. *)
Definition release_all (amount : Z) (claimed : list BucketSpec) : prog QState unit :=
  for_each claimed (λ s, release_bulk_view_refresh (s, amount)).

Definition refresh_buckets (polls : nat) (routing_id : rstring) (side : Side) (specs : list BucketSpec)
    (amount window_ms now : Z) : prog QState unit :=
  claimed ← claim_all amount specs [];
  match claimed with
  | [] => Ret tt
  | _ =>
      ms ← read (λ s, all_for_bulk_view (counterparty_mm side) (mms s));
      match ms with
      | [] => release_all amount claimed
      | _ =>
          let deadline := u64_saturating_add now (wrap64 window_ms) in
          ch ← matcher_channel (Nat.max (length ms) 8);
          _ ← pending_insert 0 routing_id ch;
          expected ← broadcast_count (BulkViewRFQBroadcast routing_id amount side deadline claimed) ms 0;
          by_spec ← (match expected with
                     | O => Ret ∅
                     | _ => collect_premiums polls ch expected ∅
                     end);
          _ ← pending_remove routing_id;
          _ ← write_cache by_spec amount now claimed;
          _ ← drop_rx ch;
          release_all amount claimed
      end
  end.

(** A spawned refresh, when there is one. *)
Definition spawned_refresh (polls : nat) (routing_id : rstring) (window_ms : Z) : prog QState unit :=
  job ← act (λ s, match spawned s with
                  | [] => (s, None)
                  | j :: js => (set_spawned js s, Some j)
                  end);
  match job with
  | Some j => refresh_buckets polls routing_id (rj_side j) (rj_specs j) (rj_write_amount j) window_ms (rj_now_ms j)
  | None => Ret tt
  end.

(** The specs never cached, and those cached too long ago. *)
Fixpoint partition_cache (amount now ttl_ms : Z) (specs cold old : list BucketSpec)
    : prog QState (list BucketSpec * list BucketSpec) :=
  match specs with
  | [] => Ret (cold, old)
  | s :: specs' =>
      f ← read (λ st, freshness now ttl_ms (bulk_view_cache st !! (s, amount)));
      match f with
      | Fresh => partition_cache amount now ttl_ms specs' cold old
      | Stale => partition_cache amount now ttl_ms specs' cold (old ++ [s])
      | Cold => partition_cache amount now ttl_ms specs' (cold ++ [s]) old
      end
  end.

Fixpoint build_response (amount now ttl_ms : Z) (requested : list BucketSpec) (out : list BulkViewPremium)
    : prog QState (list BulkViewPremium) :=
  match requested with
  | [] => Ret out
  | s :: requested' =>
      e ← read (λ st, bulk_view_cache st !! (s, amount));
      build_response amount now ttl_ms requested'
        (out ++ match e with Some e => [premium_line now ttl_ms s e] | None => [] end)
  end.

Definition orchestrate_bulk_view (polls : nat) (routing_id : rstring) (side : Side) (specs : list BucketSpec)
    (amount window_ms cache_ttl_ms now : Z) : prog QState (list BulkViewPremium) :=
  let ttl_ms := wrap64 cache_ttl_ms in
  parts ← partition_cache amount now ttl_ms specs [] [];
  let '(cold, old) := (parts : list BucketSpec * list BucketSpec) in
  let need_refresh := cold ++ old in
  _ ← (match need_refresh with
       | [] => Ret tt
       | _ =>
           match cold with
           | [] => modify (λ s, set_spawned (spawned s ++ [mkRefreshJob side need_refresh amount now]) s)
           | _ => refresh_buckets polls routing_id side need_refresh amount window_ms now
           end
       end);
  build_response amount now ttl_ms specs [].

(** * [ws/retail.rs] *)

Record Config := mkConfig {
  rfq_window_ms : Z;
  bulk_view_cache_ttl_ms : Z;
  cfg_protocol_id : list Z;
  max_inflight_rfqs_per_session : nat;
  max_bulk_view_specs : nat;
}.

(** The channel of a session: [retail_tx] keeps every message a task has handed
    to it, [retail_written] counts those the write loop has taken.  The rest is
    what the channel holds, which is nothing once the session has ended: its
    senders are told, and their messages reach nobody. *)
Definition retail_pending (s : QState) (session : nat) : nat :=
  if bool_decide (session ∈ retail_gone s) then 0%nat
  else (length (List.filter (λ m, (m.1 =? session)%nat) (retail_tx s)) - default 0%nat (retail_written s !! session))%nat.

Definition retail_capacity : nat := 64.

Definition retail_fits (s : QState) : bool :=
  forallb (λ m, (retail_pending s m.1 <=? retail_capacity)%nat) (retail_tx s).

(** [out_tx.send(m).await].  Where the channel has no room the sender waits:
    the schedule does not take the action ([serve]). *)
Definition retail_send (session : nat) (m : ServiceToRetail) : prog QState unit :=
  modify (λ s, set_retail_tx (retail_tx s ++ [(session, m)]) s).

Definition fail_request (session : nat) (request_id : rstring) (code : rstring) : prog QState unit :=
  retail_send session (RetailError (Some request_id) code).

(** A session opens with its own permits. *)
Definition retail_open (cfg : Config) (session : nat) : prog QState unit :=
  modify (λ s, match session_inflight s !! session with
               | Some _ => s
               | None => set_permits (rfq_global_inflight s)
                           (<[session := max_inflight_rfqs_per_session cfg]> (session_inflight s)) s
               end).

(** The write loop takes a message to the socket. *)
Definition retail_write (session : nat) : prog QState unit :=
  modify (λ s, match retail_pending s session with
               | S _ => set_sessions (<[session := S (default 0%nat (retail_written s !! session))]> (retail_written s))
                          (retail_gone s) s
               | O => s
               end).

(** The connection ends, or its socket fails: the write loop ends with it, and
    its channel is closed. *)
Definition retail_close (session : nat) : prog QState unit :=
  modify (λ s, set_sessions (retail_written s) ({[session]} ∪ retail_gone s) s).

(** [try_acquire_owned], and the drop of a permit. *)
Definition acquire_session (session : nat) : prog QState bool :=
  act (λ s, match session_inflight s !! session with
            | Some (S n) => (set_permits (rfq_global_inflight s) (<[session := n]> (session_inflight s)) s, true)
            | _ => (s, false)
            end).
Definition release_session (session : nat) : prog QState unit :=
  modify (λ s, set_permits (rfq_global_inflight s) (alter S session (session_inflight s)) s).
Definition acquire_global : prog QState bool :=
  act (λ s, match rfq_global_inflight s with
            | S n => (set_permits n (session_inflight s) s, true)
            | O => (s, false)
            end).
Definition release_global : prog QState unit :=
  modify (λ s, set_permits (S (rfq_global_inflight s)) (session_inflight s) s).

Definition subscribe_buckets (session : nat) (ids : list ObjectId) : prog QState unit :=
  for_each ids (λ id,
    b ← read (λ s, ix_bucket (w_indexer (world s)) id);
    match b with
    | Ok (Some b) =>
        retail_send session (BucketUpdate id (bk_total_written b) (bk_exercise_cursor b) (bk_expiry_ms b))
    | _ => Ret tt
    end).

(** The spawned part of a request, which holds both permits. *)
Definition rfq_task (polls : nat) (cfg : Config) (session : nat) (request_id : rstring) (side : Side)
    (sp : BucketSpec) (amount : Z) (resolved : Resolved) : prog QState unit :=
  now ← now_ms;
  let bucket_id := bk_bucket_id <$> bucket resolved in
  quotes ← orchestrate polls side sp resolved amount request_id (rfq_window_ms cfg) (cfg_protocol_id cfg) now;
  match quotes with
  | [] => fail_request session request_id (str "no_quotes")
  | _ => retail_send session (RFQResponse request_id sp bucket_id amount quotes)
  end.

Definition rfq_request (polls : nat) (cfg : Config) (session : nat) (request_id : rstring) (side : Side)
    (sp : BucketSpec) (amount : Z) : prog QState unit :=
  _ ← modify (λ s, set_observers (rfq_observers s ++ [(request_id, sp, amount, side)]) s);
  if negb (is_creatable sp) then fail_request session request_id (str "invalid_spec") else
  resolved ← resolve sp;
  match resolved with
  | Err _ => fail_request session request_id (str "indexer_unavailable")
  | Ok resolved =>
      if is_invalidated resolved then fail_request session request_id (str "bucket_invalidated") else
      permit ← acquire_session session;
      if negb (permit : bool) then fail_request session request_id (str "rate_limited") else
      permit ← acquire_global;
      if negb (permit : bool) then
        _ ← fail_request session request_id (str "rate_limited");
        release_session session
      else
        _ ← rfq_task polls cfg session request_id side sp amount resolved;
        _ ← release_global;
        release_session session
  end.

(** The specs of a bulk view that can be written. *)
Fixpoint wanted_specs (specs wanted : list BucketSpec) : prog QState (list BucketSpec) :=
  match specs with
  | [] => Ret wanted
  | s :: specs' =>
      if negb (is_creatable s) then wanted_specs specs' wanted else
      r ← resolve s;
      wanted_specs specs'
        (match r with
         | Ok r => if is_invalidated r then wanted else wanted ++ [s]
         | Err _ => wanted
         end)
  end.

Definition bulk_view_task (polls : nat) (routing_id : rstring) (cfg : Config) (session : nat) (request_id : rstring)
    (side : Side) (wanted : list BucketSpec) (amount : Z) : prog QState unit :=
  now ← now_ms;
  premiums ← orchestrate_bulk_view polls routing_id side wanted amount (rfq_window_ms cfg)
               (bulk_view_cache_ttl_ms cfg) now;
  retail_send session (BulkViewRFQResponse request_id amount premiums).

Definition bulk_view_request (polls : nat) (routing_id : rstring) (cfg : Config) (session : nat)
    (request_id : rstring) (side : Side) (specs : list BucketSpec) (amount : Z) : prog QState unit :=
  wanted ← wanted_specs (take (max_bulk_view_specs cfg) specs) [];
  permit ← acquire_session session;
  if negb (permit : bool) then Ret tt else
  permit ← acquire_global;
  if negb (permit : bool) then release_session session else
  _ ← bulk_view_task polls routing_id cfg session request_id side wanted amount;
  _ ← release_global;
  release_session session.

(** * [ws/mm.rs] *)

Record MmHello := mkMmHello {
  he_account_id : ObjectId;
  he_signing_scheme : SigningScheme;
  he_signing_pubkey : list Z;
  he_roles : list MmRole;
  he_bulk_view : bool;
}.

(** The connection up to the read loop: the handle of its channel, or the
    reason of the refusal. *)
Definition mm_open (hello : MmHello) (challenge signature : list Z) : prog QState (result AuthError nat) :=
  view ← read (λ s, ix_account (w_indexer (world s)) (he_account_id hello));
  let view := match view with Ok v => v | Err _ => None end in
  match verify_challenge_response (match view with Some a => ac_signing_scheme a | None => None end)
          (match view with Some a => ac_signing_pubkey a | None => [] end)
          (he_signing_scheme hello) (he_signing_pubkey hello) challenge signature with
  | Err e => Ret (Err e)
  | Ok _ =>
      ch ← act (λ s, (set_mm_channels (mm_channels s ++ [mkQueue [] [] true]) s, length (mm_channels s)));
      _ ← modify (λ s, set_mms (mms_insert (mkMmConnection (he_account_id hello) (he_roles hello)
                                              (he_bulk_view hello) ch) (mms s)) s);
      Ret (Ok ch)
  end.

(** A frame of an authenticated connection. *)
Inductive MmToService :=
  | MmQuote (request_id : rstring) (payload : MmQuotePayload)
  | MmDecline (request_id : rstring)
  | MmBulkViewQuote (request_id : rstring) (premiums : list BulkViewMmPremium)
  | MmPong
  | MmControl.

Definition mm_frame (account : ObjectId) (frame : MmToService) : prog QState unit :=
  match frame with
  | MmQuote request_id payload => route_response request_id (RespQuote account payload)
  | MmDecline request_id => route_response request_id (RespDecline account)
  | MmBulkViewQuote request_id premiums => route_response request_id (RespBulkView account premiums)
  | MmPong | MmControl => Ret tt
  end.

(** The write loop takes a frame to the socket. *)
Definition mm_write (ch : nat) : prog QState (option ServiceToMm) :=
  act (λ s, match mm_channels s !! ch with
            | Some q => let '(q', m) := queue_recv q in (set_mm_channels (<[ch := q']> (mm_channels s)) s, m)
            | None => (s, None)
            end).

(** The connection ends: its account leaves the registry, and aborting the
    write loop closes its channel. *)
Definition mm_close (account : ObjectId) (ch : nat) : prog QState unit :=
  _ ← modify (λ s, set_mms (mms_remove account (mms s)) s);
  modify (λ s, set_mm_channels (alter queue_close ch (mm_channels s)) s).

(** * The tasks *)

(** What the service is asked to do, or what happens around it. *)
Inductive QuotingTask :=
  | RetailOpen (session : nat)
  | RetailWrite (session : nat)
  | RetailClose (session : nat)
  | RetailSubscribe (session : nat) (ids : list ObjectId)
  | RetailRFQ (polls session : nat) (request_id : rstring) (side : Side) (spec : BucketSpec) (amount : Z)
  | RetailBulkView (polls : nat) (routing_id : rstring) (session : nat) (request_id : rstring) (side : Side)
      (specs : list BucketSpec) (amount : Z)
  | Refresh (polls : nat) (routing_id : rstring)
  | MmOpen (hello : MmHello) (challenge signature : list Z)
  | MmFrame (account : ObjectId) (frame : MmToService)
  | MmWrite (ch : nat)
  | MmClose (account : ObjectId) (ch : nat)
  | WorldMoves (w : World).

Definition task_prog (cfg : Config) (t : QuotingTask) : prog QState unit :=
  match t with
  | RetailOpen session => retail_open cfg session
  | RetailWrite session => retail_write session
  | RetailClose session => retail_close session
  | RetailSubscribe session ids => subscribe_buckets session ids
  | RetailRFQ polls session request_id side sp amount => rfq_request polls cfg session request_id side sp amount
  | RetailBulkView polls routing_id session request_id side specs amount =>
      bulk_view_request polls routing_id cfg session request_id side specs amount
  | Refresh polls routing_id => spawned_refresh polls routing_id (rfq_window_ms cfg)
  | MmOpen hello challenge signature => _ ← mm_open hello challenge signature; Ret tt
  | MmFrame account frame => mm_frame account frame
  | MmWrite ch => _ ← mm_write ch; Ret tt
  | MmClose account ch => mm_close account ch
  | WorldMoves w => world_step w
  end.

(** The service from its start, over a world that moves.  An action that would
    leave a retail channel over its capacity waits. *)
Definition serve (cfg : Config) (cap : nat) (w : World) (ts : list QuotingTask) (schedule : list nat)
    : list (prog QState unit) * QState :=
  sched_within retail_fits schedule (task_prog cfg <$> ts) (with_global_rfq_cap cap w).

(** One more move of tasks under way: one of them acts, if its message has
    room, or the write loop of a session takes a message to its socket. *)
Inductive move : relation (list (prog QState unit) * QState) :=
  | move_task i p tasks s :
      tasks !! i = Some p → retail_fits (step p s).2 = true →
      move (tasks, s) (<[i := (step p s).1]> tasks, (step p s).2)
  | move_write session tasks s :
      move (tasks, s) (tasks, (run (retail_write session) s).1).
End service.
