(* ===== verification/QuotingProps.v ===== *)
(** The invariant of the RFQ service, over the shared state and the tokens its
    tasks hold: a permit of the service or of a session, the claim of a
    bulk-view refresh, an accepted quote that has not been sent yet; that every
    task of the service keeps it; and that the tasks run to their end while the
    clients read what they are sent. *)

From stdpp Require Import gmultiset.
From S2P Require Import Prelude Prog F64 Channel RustStr ExchangeTypes Crates BucketSpec Quote Quoting QuotingService.

From Stdlib Require Import Floats.SpecFloat.

Inductive Token :=
  | TGlobal
  | TSession (session : nat)
  | TClaim (key : CacheKey)
  | TQuote (signer : ObjectId) (nonce valid_until_ms : Z).

#[export] Instance Token_eq_dec : EqDecision Token.
Proof. solve_decision. Defined.

#[export] Instance Token_countable : Countable Token.
Proof.
  refine (inj_countable'
    (λ t, match t with
          | TGlobal => inl (inl tt)
          | TSession n => inl (inr n)
          | TClaim k => inr (inl k)
          | TQuote a n v => inr (inr (a, n, v))
          end)
    (λ c, match c with
          | inl (inl _) => TGlobal
          | inl (inr n) => TSession n
          | inr (inl k) => TClaim k
          | inr (inr (a, n, v)) => TQuote a n v
          end) _).
  by intros [].
Defined.

Abbreviation tokens := (gmultiset Token).

Definition entry_token (e : RfqQuoteEntry) : Token :=
  TQuote (signer_id (eq_quote e)) (nonce (eq_quote e)) (valid_until_ms (eq_quote e)).

(** The quotes sent to retail clients. *)
Definition message_quotes (m : ServiceToRetail) : list RfqQuoteEntry :=
  match m with RFQResponse _ _ _ _ quotes => quotes | _ => [] end.

Definition sent_quotes (s : QState) : list RfqQuoteEntry := flat_map (λ m, message_quotes m.2) (retail_tx s).

Definition quote_tokens (l : list RfqQuoteEntry) : tokens := list_to_set_disj (entry_token <$> l).

Definition accepted (s : QState) (g : tokens) : tokens := quote_tokens (sent_quotes s) ⊎ g.

(** [a] is shown before [b]: a better premium for the side, or the same one
    and no smaller reputation. *)
Definition ranked (side : Side) (a b : RfqQuoteEntry) : Prop :=
  let pa := premium (eq_quote a) in
  let pb := premium (eq_quote b) in
  match side with Writer => pb < pa | Trader => pa < pb end ∨
  (pa = pb ∧ f64_gt (mm_reputation b) (mm_reputation a) = false).

(** Only executions and signatures are ever counted. *)
Definition stats_ok (st : ReputationStats) : Prop :=
  u64 (quotes_signed st) ∧ u64 (quotes_executed st) ∧ quotes_reverted st = 0.

Section inv.
Context `{BcsCrate, CryptoCrates}.

(** The latest time of the clock, the permits of the service, the accounts the
    indexer ever reports, and the requests made: session, id, side, spec and
    amount. *)
Variable horizon : Z.
Variable cap : nat.
Variable cfg : Config.
Variable known : ObjectId → Account → Prop.
Variable asked : nat → rstring → Side → BucketSpec → Z → Prop.

(** A quote that may be shown for a spec and an amount: signed over its own
    bytes, by the key registered for the market maker that sent it. *)
Definition entry_ok (sp : BucketSpec) (amount : Z) (e : RfqQuoteEntry) : Prop :=
  let q := eq_quote e in
  protocol_id q = cfg_protocol_id cfg ∧ spec q = sp ∧ write_amount q = amount ∧ signer_id q = mm_id e ∧
  collateral_source q ≠ SuiAddress_ZERO ∧ release_package q ≠ SuiAddress_ZERO ∧ release_module q ≠ [] ∧
  ∃ a scheme, known (mm_id e) a ∧ ac_signing_scheme a = Some scheme ∧
    verify_signature scheme (ac_signing_pubkey a) (to_bcs_bytes q) (eq_signature e) = Ok ().

(** A response answers a request of its session, with the best quotes for the
    side of the request first. *)
Definition response_ok (n : nat) (m : ServiceToRetail) : Prop :=
  match m with
  | RFQResponse rid sp _ amount quotes =>
      quotes ≠ [] ∧ Forall (entry_ok sp amount) quotes ∧
      ∃ side, asked n rid side sp amount ∧ StronglySorted (ranked side) quotes
  | _ => True
  end.

Definition world_ok (w : World) : Prop :=
  w_now_ms w ≤ horizon ∧ ∀ id a, ix_account (w_indexer w) id = Ok (Some a) → known id a.

Record qinv (s : QState) (g : tokens) : Prop := {
  qi_world : world_ok (world s);
  qi_global : (rfq_global_inflight s + multiplicity TGlobal g = cap)%nat;
  qi_session n :
    match session_inflight s !! n with
    | Some p => (p + multiplicity (TSession n) g = max_inflight_rfqs_per_session cfg)%nat
    | None => multiplicity (TSession n) g = 0%nat
    end;
  qi_claims k :
    multiplicity (TClaim k) g = if bool_decide (k ∈ bulk_view_refreshing s) then 1%nat else 0%nat;
  qi_nonces signer n vu :
    horizon < vu → TQuote signer n vu ∈ accepted s g → nonces s !! (signer, n) = Some vu;
  qi_unique signer n vu :
    horizon < vu → (multiplicity (TQuote signer n vu) (accepted s g) ≤ 1)%nat;
  qi_reputation id st : reputation s !! id = Some st → stats_ok st;
  qi_responses m : m ∈ retail_tx s → response_ok m.1 m.2;
}.

Lemma qinv_same s s' g :
  world s' = world s → rfq_global_inflight s' = rfq_global_inflight s →
  session_inflight s' = session_inflight s → bulk_view_refreshing s' = bulk_view_refreshing s →
  nonces s' = nonces s → reputation s' = reputation s → retail_tx s' = retail_tx s →
  qinv s g → qinv s' g.
Proof.
  intros E1 E2 E3 E4 E5 E6 E7 [].
  split; unfold accepted, sent_quotes in *; rewrite ?E1, ?E2, ?E3, ?E4, ?E5, ?E6, ?E7; done.
Qed.

Lemma qinv_boot w : world_ok w → qinv (with_global_rfq_cap cap w) ∅.
Proof.
  intros Hw. assert (accepted (with_global_rfq_cap cap w) ∅ = ∅) as Hacc.
  { unfold accepted. change (quote_tokens _) with (∅ : tokens). apply (left_id_L ∅ (⊎)). }
  split.
  - done.
  - cbn. rewrite multiplicity_empty. lia.
  - intros n. cbn. by rewrite lookup_empty, multiplicity_empty.
  - intros k. cbn. rewrite multiplicity_empty. by rewrite bool_decide_false by set_solver.
  - intros a n vu _ Hin. rewrite Hacc, elem_of_multiplicity, multiplicity_empty in Hin. lia.
  - intros a n vu _. rewrite Hacc, multiplicity_empty. lia.
  - intros id st Hl. cbn in Hl. by rewrite lookup_empty in Hl.
  - intros m Hm. cbn in Hm. by apply not_elem_of_nil in Hm.
Qed.
End inv.

(** * Reputations are numbers *)

Lemma f64_of_u64_number n : u64 n → is_number (f64_of_u64 n) = true.
Proof.
  intros Hn. destruct (decide (n = 0)) as [->|]; [done|].
  destruct (f64_of_u64_finite n) as (m & e & ->); [destruct Hn; lia|done|done].
Qed.

Lemma composite_score_number st : stats_ok st → is_number (composite_score st) = true.
Proof.
  intros (Hs & He & Hr). unfold composite_score. apply f64_clamp_number; [|done..].
  unfold revert_rate, fill_rate. rewrite Hr. destruct (Z.eqb_spec (quotes_signed st) 0) as [|Hne]; [done|].
  destruct (f64_of_u64_finite (quotes_signed st)) as (m & e & Ef); [destruct Hs; lia|done|].
  rewrite Ef. change (f64_mul (f64_of_u64 2) (f64_div (f64_of_u64 0) (S754_finite false m e))) with f64_zero.
  apply f64_sub_zero, f64_div_number, f64_of_u64_number, He.
Qed.

(** * Ranking *)

(** The comparison of [sort_best_first] on numbers, as a total preorder. *)
Definition rank_key_le (side : Side) (a b : RfqQuoteEntry) : bool :=
  let pa := premium (eq_quote a) in
  let pb := premium (eq_quote b) in
  match (match side with Writer => Z.compare pb pa | Trader => Z.compare pa pb end) with
  | Lt => true
  | Gt => false
  | Eq => key_le (f64_key (mm_reputation b)) (f64_key (mm_reputation a))
  end.

Definition has_number (e : RfqQuoteEntry) : Prop := is_number (mm_reputation e) = true.

Lemma rank_le_key side a b : has_number a → has_number b → rank_le side a b = rank_key_le side a b.
Proof.
  intros Ha Hb. unfold rank_le, rank_key_le. rewrite f64_partial_cmp_key by done. unfold key_le. cbn [default from_option].
  by destruct side; destruct (Z.compare _ _).
Qed.

Lemma rank_key_total side a b : rank_key_le side a b = false → rank_key_le side b a = true.
Proof.
  unfold rank_key_le. destruct side.
  all: rewrite (Z.compare_antisym (premium (eq_quote a)) (premium (eq_quote b)));
    destruct (Z.compare (premium (eq_quote a)) _); cbn; try done; apply key_le_total.
Qed.

Lemma rank_key_le_spec side a b :
  rank_key_le side a b = true ↔
  match side with Writer => premium (eq_quote b) < premium (eq_quote a)
                | Trader => premium (eq_quote a) < premium (eq_quote b) end ∨
  (premium (eq_quote a) = premium (eq_quote b) ∧
   key_le (f64_key (mm_reputation b)) (f64_key (mm_reputation a)) = true).
Proof.
  unfold rank_key_le. destruct side.
  - destruct (Z.compare_spec (premium (eq_quote b)) (premium (eq_quote a))); split; (done || naive_solver lia).
  - destruct (Z.compare_spec (premium (eq_quote a)) (premium (eq_quote b))); split; (done || naive_solver lia).
Qed.

Lemma rank_key_trans side a b c :
  rank_key_le side a b = true → rank_key_le side b c = true → rank_key_le side a c = true.
Proof.
  rewrite !rank_key_le_spec. pose proof (key_le_trans (f64_key (mm_reputation c)) (f64_key (mm_reputation b))
    (f64_key (mm_reputation a))) as Ht.
  destruct side; intros [?|[? ?]] [?|[? ?]]; (left; lia) || (right; split; [lia|by apply Ht]).
Qed.

Lemma key_le_gt a b :
  is_number a = true → is_number b = true → key_le (f64_key b) (f64_key a) = true → f64_gt b a = false.
Proof.
  intros Ha Hb Hle. unfold f64_gt, SFltb. change (SFcompare a b) with (f64_partial_cmp a b).
  rewrite f64_partial_cmp_key by done. unfold key_le, key_compare in *.
  rewrite (Z.compare_antisym (f64_key b).1.1 (f64_key a).1.1), (Z.compare_antisym (f64_key b).1.2 (f64_key a).1.2),
    (Z.compare_antisym (f64_key b).2 (f64_key a).2).
  destruct (Z.compare (f64_key b).1.1 _); [|done..]. cbn.
  destruct (Z.compare (f64_key b).1.2 _); [|done..]. cbn.
  by destruct (Z.compare (f64_key b).2 _).
Qed.

Lemma sort_insert_ext {A} (P : A → Prop) (le le' : A → A → bool) x l :
  (∀ a b, P a → P b → le a b = le' a b) → P x → Forall P l → sort_insert le x l = sort_insert le' x l.
Proof.
  intros He Hx. induction 1 as [|y l Hy _ IH]; [done|]. cbn. rewrite He, IH by done. done.
Qed.

Lemma sort_by_ext {A} (P : A → Prop) (le le' : A → A → bool) l :
  (∀ a b, P a → P b → le a b = le' a b) → Forall P l → sort_by le l = sort_by le' l.
Proof.
  intros He. induction 1 as [|x l Hx Hl IH]; [done|]. cbn. fold (sort_by le l) (sort_by le' l). rewrite IH.
  apply (sort_insert_ext P); [done..|]. by rewrite (sort_by_perm le' l).
Qed.

Lemma sort_best_first_ranked side l :
  Forall has_number l → StronglySorted (ranked side) (sort_best_first side l) ∧ sort_best_first side l ≡ₚ l.
Proof.
  intros Hn. unfold sort_best_first. split; [|apply sort_by_perm].
  rewrite (sort_by_ext has_number _ (rank_key_le side)); [|intros; by apply rank_le_key|done].
  pose proof (sort_by_sorted (rank_key_le side) (rank_key_total side) (rank_key_trans side) l) as Hs.
  assert (Forall has_number (sort_by (rank_key_le side) l)) as Hn' by (by rewrite sort_by_perm).
  revert Hs Hn'. generalize (sort_by (rank_key_le side) l) as l'. intros l'.
  induction 1 as [|x l' _ IH Hx]; intros Hn'; [constructor|]. apply Forall_cons in Hn' as [Hnx Hn'].
  constructor; [by apply IH|]. apply Forall_forall. intros y Hy.
  rewrite Forall_forall in Hx, Hn'. specialize (Hx y Hy). apply rank_key_le_spec in Hx as [Hp|[Hp Hk]].
  - by left.
  - right. split; [done|]. apply key_le_gt; [done| |done]. by apply Hn'.
Qed.

Import Rejection(QuoteRejection).

Section props.
Context `{BcsCrate, CryptoCrates, DashMapCrate}.
Variable horizon : Z.
Variable cap : nat.
Variable cfg : Config.
Variable known : ObjectId → Account → Prop.
Variable asked : nat → rstring → Side → BucketSpec → Z → Prop.

Abbreviation I := (qinv horizon cap cfg known asked).
Abbreviation holds := (owns I).

Abbreviation quiet := (Prog.quiet I).

(** The fields the invariant does not look at. *)
Lemma I_channels x s g : I s g → I (set_mm_channels x s) g.
Proof. by apply qinv_same. Qed.
Lemma I_mms x s g : I s g → I (set_mms x s) g.
Proof. by apply qinv_same. Qed.
Lemma I_matchers p x s g : I s g → I (set_matchers p x s) g.
Proof. by apply qinv_same. Qed.
Lemma I_cursors x s g : I s g → I (set_reconcile_cursors x s) g.
Proof. by apply qinv_same. Qed.
Lemma I_cache x s g : I s g → I (set_cache x s) g.
Proof. by apply qinv_same. Qed.
Lemma I_resolver h m s g : I s g → I (set_resolver h m s) g.
Proof. by apply qinv_same. Qed.
Lemma I_observers x s g : I s g → I (set_observers x s) g.
Proof. by apply qinv_same. Qed.
Lemma I_spawned x s g : I s g → I (set_spawned x s) g.
Proof. by apply qinv_same. Qed.
Lemma I_update ch f s g : I s g → I (update_matcher ch f s) g.
Proof. apply I_matchers. Qed.

Lemma I_reputation x s g :
  (∀ id st, x !! id = Some st → stats_ok st) → I s g → I (set_reputation x s) g.
Proof. intros Hx [H1' H2' H3' H4' H5' H6' H7' H8']. by split. Qed.

Lemma I_world w s g : world_ok horizon known w → I s g → I (set_world w s) g.
Proof. intros Hw [H1' H2' H3' H4' H5' H6' H7' H8']. by split. Qed.

Lemma stats_ok_with_mut f id (m : ReputationStore) :
  (∀ st, stats_ok st → stats_ok (f st)) → (∀ i st, m !! i = Some st → stats_ok st) →
  ∀ i st, with_mut id f m !! i = Some st → stats_ok st.
Proof.
  intros Hf Hm i st. unfold with_mut. destruct (decide (i = id)) as [->|].
  - rewrite lookup_insert_eq. intros [= <-]. apply Hf. destruct (m !! id) eqn:E; [by eapply Hm|].
    by split_and!; vm_compute.
  - rewrite lookup_insert_ne by done. apply Hm.
Qed.

Lemma u64_add_range a b : u64 (u64_add a b).
Proof. unfold u64, u64_add, wrap64, u64_max. pose proof (Z.mod_pos_bound (a + b) (2 ^ 64)). lia. Qed.

Create HintDb quoting.
#[local] Hint Resolve quiet_ret quiet_read I_channels I_mms I_matchers I_cursors I_cache I_resolver I_observers
  I_spawned I_update : quoting.

(** Programs are followed down to their actions. *)
Ltac quiet :=
  repeat first
    [ solve [auto with quoting]
    | apply quiet_seq; [|intros ?]
    | apply quiet_for_each; intros ?
    | match goal with |- quiet (match ?x with _ => _ end) => destruct x end ].

Ltac quiet_step :=
  first [apply quiet_modify|apply quiet_act]; intros ? ? ?; cbn [fst]; repeat case_match; simplify_eq; cbn [fst];
  first [assumption|eapply qinv_same; [| | | | | | |eassumption]; reflexivity|idtac].

Lemma quiet_drop_tx ch : quiet (drop_tx ch).
Proof. quiet_step. Qed.
Lemma quiet_drop_rx ch : quiet (drop_rx ch).
Proof. quiet_step. Qed.
Lemma quiet_matcher_channel n : quiet (matcher_channel n).
Proof. quiet_step. Qed.
Lemma quiet_pending_insert n r ch : quiet (pending_insert n r ch).
Proof. quiet_step. Qed.
Lemma quiet_pending_remove r : quiet (pending_remove r).
Proof. quiet_step. Qed.
Lemma quiet_matcher_recv ch : quiet (matcher_recv ch).
Proof. quiet_step. Qed.
Lemma quiet_mm_try_send ch m : quiet (mm_try_send ch m).
Proof. quiet_step. Qed.
#[local] Hint Resolve quiet_drop_tx quiet_drop_rx quiet_matcher_channel quiet_pending_insert quiet_pending_remove
  quiet_matcher_recv quiet_mm_try_send : quoting.

Lemma quiet_route_response r m : quiet (route_response r m).
Proof.
  unfold route_response. apply quiet_seq; [quiet_step|]. intros [ch|]; [|apply quiet_ret].
  apply quiet_seq; [quiet_step|]. intros _. apply quiet_drop_tx.
Qed.

Lemma quiet_collect polls ch out : quiet (collect polls ch out).
Proof. revert out. induction polls as [|polls IH]; intros out; cbn [collect]; quiet; apply IH. Qed.
#[local] Hint Resolve quiet_collect quiet_route_response : quoting.

Lemma quiet_collect_with_deadline polls ch : quiet (collect_with_deadline polls ch).
Proof. unfold collect_with_deadline. quiet. Qed.

Lemma quiet_resolve sp : quiet (resolve sp).
Proof. unfold resolve. quiet; quiet_step. Qed.

Lemma quiet_broadcast frame ms e : quiet (broadcast frame ms e).
Proof. revert e. induction ms as [|c ms IH]; intros e; cbn [broadcast]; quiet; apply IH. Qed.

Lemma quiet_broadcast_count frame ms n : quiet (broadcast_count frame ms n).
Proof. revert n. induction ms as [|c ms IH]; intros n; cbn [broadcast_count]; quiet; apply IH. Qed.

Lemma quiet_collect_premiums polls ch n b : quiet (collect_premiums polls ch n b).
Proof. revert n b. induction polls as [|polls IH]; intros n b; cbn [collect_premiums]; quiet; apply IH. Qed.

Lemma quiet_write_cache b amount now l : quiet (write_cache b amount now l).
Proof. unfold write_cache, cache_insert. quiet; quiet_step. Qed.

Lemma quiet_record_executed id : quiet (modify (λ s, set_reputation (record_executed id (reputation s)) s)).
Proof.
  apply quiet_modify. intros s g Hs. apply I_reputation; [|done]. apply stats_ok_with_mut; [|apply Hs].
  intros st (? & ? & ?). split_and!; [done|apply u64_add_range|done].
Qed.

Lemma quiet_record_signed id : quiet (modify (λ s, set_reputation (record_signed id (reputation s)) s)).
Proof.
  apply quiet_modify. intros s g Hs. apply I_reputation; [|done]. apply stats_ok_with_mut; [|apply Hs].
  intros st (? & ? & ?). split_and!; [apply u64_add_range|done|done].
Qed.
#[local] Hint Resolve quiet_collect_with_deadline quiet_resolve quiet_broadcast quiet_broadcast_count
  quiet_collect_premiums quiet_write_cache quiet_record_executed quiet_record_signed : quoting.

Lemma quiet_record_fills id : quiet (record_fills id).
Proof. unfold record_fills. quiet; quiet_step. Qed.
#[local] Hint Resolve quiet_record_fills : quoting.

(** * Permits and claims *)

Definition same_quotes (g g' : tokens) : Prop :=
  ∀ a n v, multiplicity (TQuote a n v) g' = multiplicity (TQuote a n v) g.

Lemma I_tokens s s' g g' :
  world s' = world s → nonces s' = nonces s → reputation s' = reputation s → retail_tx s' = retail_tx s →
  same_quotes g g' →
  (rfq_global_inflight s' + multiplicity TGlobal g' = rfq_global_inflight s + multiplicity TGlobal g)%nat →
  (∀ n, match session_inflight s' !! n, session_inflight s !! n with
        | Some p', Some p => (p' + multiplicity (TSession n) g' = p + multiplicity (TSession n) g)%nat
        | None, None => multiplicity (TSession n) g' = multiplicity (TSession n) g
        | _, _ => False
        end) →
  (∀ k, multiplicity (TClaim k) g' = if bool_decide (k ∈ bulk_view_refreshing s') then 1%nat else 0%nat) →
  I s g → I s' g'.
Proof.
  intros E1 E2 E3 E4 Hq Hg Hn Hk [W G N K U V R M].
  assert (∀ a n v, multiplicity (TQuote a n v) (accepted s' g') = multiplicity (TQuote a n v) (accepted s g)) as Hacc.
  { intros. unfold accepted, sent_quotes. rewrite E4, !multiplicity_disj_union, Hq. done. }
  split; rewrite ?E1, ?E2, ?E3, ?E4; try done.
  - lia.
  - intros n. specialize (Hn n). specialize (N n).
    destruct (session_inflight s' !! n), (session_inflight s !! n); (done || lia).
  - intros a n v Hv Hin. apply U; [done|]. rewrite elem_of_multiplicity, <- Hacc, <- elem_of_multiplicity. done.
  - intros a n v Hv. rewrite Hacc. by apply V.
Qed.

Lemma mult_self (t : Token) : multiplicity t {[+ t +]} = 1%nat.
Proof. rewrite multiplicity_singleton. by destruct (decide (t = t)). Qed.

Ltac tokens :=
  rewrite ?multiplicity_disj_union, ?multiplicity_empty;
  repeat match goal with
  | |- context [multiplicity ?t {[+ ?t +]}] => rewrite (mult_self t)
  | |- context [multiplicity ?t {[+ ?t' +]}] => rewrite (multiplicity_singleton_ne t t') by congruence
  end; try done; try lia.

Ltac fields := cbn [rfq_global_inflight session_inflight bulk_view_refreshing set_refreshing set_permits].

Lemma owns_claim key g :
  holds (λ won g', g' = (if (won : bool) then {[+ TClaim key +]} else ∅) ⊎ g) (try_claim_bulk_view_refresh key) g.
Proof.
  apply owns_act. intros s others Hs. eexists. split; [|reflexivity]. cbn [fst snd].
  case_bool_decide as Hin; cbn [negb].
  - rewrite (left_id_L ∅ (⊎)). replace ({[key]} ∪ bulk_view_refreshing s) with (bulk_view_refreshing s) by set_solver.
    by eapply qinv_same; [| | | | | | |exact Hs].
  - refine (I_tokens _ _ _ _ _ _ _ _ _ _ _ _ Hs); [reflexivity..| | | |].
    + intros a n v. tokens.
    + tokens.
    + intros n. fields. destruct (session_inflight s !! n); tokens.
    + intros k. fields. pose proof (qi_claims _ _ _ _ _ _ _ Hs k) as Hk.
      rewrite multiplicity_disj_union in Hk. rewrite !multiplicity_disj_union. destruct (decide (k = key)) as [->|Hne].
      * rewrite mult_self. rewrite bool_decide_false in Hk by done.
        rewrite bool_decide_true by set_solver. cbv iota in *.
        lia.
      * rewrite multiplicity_singleton_ne by congruence. rewrite Nat.add_0_l, Hk.
        erewrite bool_decide_ext; [reflexivity|]. set_solver.
Qed.

Lemma owns_release key g :
  holds (λ _ g', g' = g) (release_bulk_view_refresh key) ({[+ TClaim key +]} ⊎ g).
Proof.
  apply owns_act. intros s others Hs. exists g. split; [|done]. cbn [fst].
  refine (I_tokens _ _ _ _ _ _ _ _ _ _ _ _ Hs); [reflexivity..| | | |].
  - intros a n v. tokens.
  - tokens.
  - intros n. fields. destruct (session_inflight s !! n); tokens.
  - intros k. fields. pose proof (qi_claims _ _ _ _ _ _ _ Hs k) as Hk.
    rewrite !multiplicity_disj_union in Hk. rewrite multiplicity_disj_union.
    destruct (decide (k = key)) as [->|Hne].
    + rewrite mult_self in Hk. rewrite (bool_decide_false (key ∈ _ ∖ _)) by set_solver.
      cbv iota. destruct (bool_decide _); lia.
    + rewrite multiplicity_singleton_ne in Hk by congruence. rewrite Nat.add_0_l in Hk. rewrite Hk.
      erewrite bool_decide_ext; [reflexivity|]. set_solver.
Qed.

Lemma owns_acquire_global g :
  holds (λ ok g', g' = (if (ok : bool) then {[+ TGlobal +]} else ∅) ⊎ g) acquire_global g.
Proof.
  apply owns_act. intros s others Hs. eexists. split; [|reflexivity].
  destruct (rfq_global_inflight s) as [|n] eqn:E; cbn [fst snd]; [by rewrite (left_id_L ∅ (⊎))|].
  refine (I_tokens _ _ _ _ _ _ _ _ _ _ _ _ Hs); [reflexivity..| | | |].
  - intros a m v. tokens.
  - fields. rewrite E. tokens.
  - intros m. fields. destruct (session_inflight s !! m); tokens.
  - intros k. fields. rewrite <- (qi_claims _ _ _ _ _ _ _ Hs k). tokens.
Qed.

Lemma owns_release_global g : holds (λ _ g', g' = g) release_global ({[+ TGlobal +]} ⊎ g).
Proof.
  apply owns_act. intros s others Hs. exists g. split; [|done]. cbn [fst].
  refine (I_tokens _ _ _ _ _ _ _ _ _ _ _ _ Hs); [reflexivity..| | | |].
  - intros a m v. tokens.
  - fields. tokens.
  - intros m. fields. destruct (session_inflight s !! m); tokens.
  - intros k. fields. rewrite <- (qi_claims _ _ _ _ _ _ _ Hs k). tokens.
Qed.

Lemma owns_acquire_session n g :
  holds (λ ok g', g' = (if (ok : bool) then {[+ TSession n +]} else ∅) ⊎ g) (acquire_session n) g.
Proof.
  apply owns_act. intros s others Hs. eexists. split; [|reflexivity].
  destruct (session_inflight s !! n) as [[|p]|] eqn:E; cbn [fst snd]; try by rewrite (left_id_L ∅ (⊎)).
  refine (I_tokens _ _ _ _ _ _ _ _ _ _ _ _ Hs); [reflexivity..| | | |].
  - intros a m v. tokens.
  - fields. tokens.
  - intros m. fields. destruct (decide (m = n)) as [->|Hne].
    + rewrite lookup_insert_eq, E. tokens.
    + rewrite lookup_insert_ne by done. destruct (session_inflight s !! m); tokens.
  - intros k. fields. rewrite <- (qi_claims _ _ _ _ _ _ _ Hs k). tokens.
Qed.

Lemma owns_release_session n g : holds (λ _ g', g' = g) (release_session n) ({[+ TSession n +]} ⊎ g).
Proof.
  apply owns_act. intros s others Hs. exists g. split; [|done]. cbn [fst].
  pose proof (qi_session _ _ _ _ _ _ _ Hs n) as Hn.
  refine (I_tokens _ _ _ _ _ _ _ _ _ _ _ _ Hs); [reflexivity..| | | |].
  - intros a m v. tokens.
  - fields. tokens.
  - intros m. fields. destruct (decide (m = n)) as [->|Hne].
    + rewrite lookup_alter_eq. destruct (session_inflight s !! n); cbn [fmap option_fmap option_map]; [tokens|].
      rewrite !multiplicity_disj_union, mult_self in Hn. lia.
    + rewrite lookup_alter_ne by done. destruct (session_inflight s !! m); tokens.
  - intros k. fields. rewrite <- (qi_claims _ _ _ _ _ _ _ Hs k). tokens.
Qed.

(** * Accepted quotes *)

Lemma nonce_insert_spec signer n vu now t :
  match nonce_insert signer n vu now t with
  | (t', Inserted) =>
      (∀ v, t !! (signer, n) = Some v → v ≤ now) ∧
      ∀ k, t' !! k = if decide (k = (signer, n)) then Some vu
                     else match t !! k with Some v => if decide (now < v) then Some v else None | None => None end
  | (t', DuplicateKey) =>
      (∃ v, t !! (signer, n) = Some v ∧ now < v) ∧
      ∀ k, t' !! k = match t !! k with Some v => if decide (now < v) then Some v else None | None => None end
  end.
Proof.
  assert (∀ k, filter (λ kv : ObjectId * Z * Z, now < kv.2) t !! k =
    match t !! k with Some v => if decide (now < v) then Some v else None | None => None end) as Hf.
  { intros k. destruct (t !! k) as [v|] eqn:E; [|by apply map_lookup_filter_None_2; left].
    destruct (decide (now < v)); [by apply map_lookup_filter_Some_2|].
    apply map_lookup_filter_None_2. right. intros v' E'. rewrite E in E'. by injection E' as <-. }
  unfold nonce_insert. destruct (decide (is_Some _)) as [[v Hv]|Hn].
  - split; [|done]. rewrite Hf in Hv. destruct (t !! (signer, n)) as [v'|]; [|done].
    exists v'. split; [done|]. by destruct (decide (now < v')).
  - split.
    + intros v Hv. apply eq_None_not_Some in Hn. rewrite Hf, Hv in Hn. destruct (decide (now < v)); [done|lia].
    + intros k. destruct (decide (k = (signer, n))) as [->|]; [by rewrite lookup_insert_eq|].
      by rewrite lookup_insert_ne, Hf.
Qed.

Lemma I_nonces x s g :
  (∀ k v, horizon < v → nonces s !! k = Some v → x !! k = Some v) → I s g → I (set_nonces x s) g.
Proof.
  intros Hx [W G N K U V R M]. split; try done.
  intros a n v Hv Hin. apply Hx; [done|]. by apply U.
Qed.

(** A quote is added to those accepted. *)
Lemma I_quote s g a n v :
  (horizon < v → nonces s !! (a, n) = Some v ∧ multiplicity (TQuote a n v) (accepted s g) = 0%nat) →
  I s g → I s ({[+ TQuote a n v +]} ⊎ g).
Proof.
  intros Hnew [W G N K U V R M].
  assert (∀ t, multiplicity t (accepted s ({[+ TQuote a n v +]} ⊎ g)) =
    (multiplicity t {[+ TQuote a n v +]} + multiplicity t (accepted s g))%nat) as Hacc.
  { intros t. unfold accepted. rewrite !multiplicity_disj_union. lia. }
  split; try done.
  - tokens.
  - intros m. specialize (N m). destruct (session_inflight s !! m); tokens.
  - intros k. rewrite <- K. tokens.
  - intros a' n' v' Hv Hin. destruct (decide (TQuote a' n' v' = TQuote a n v)) as [[= -> -> ->]|Hne].
    { by apply Hnew. }
    apply U; [done|]. rewrite elem_of_multiplicity, Hacc, multiplicity_singleton_ne in Hin by done.
    by rewrite elem_of_multiplicity.
  - intros a' n' v' Hv. rewrite Hacc. destruct (decide (TQuote a' n' v' = TQuote a n v)) as [[= -> -> ->]|Hne].
    + destruct (Hnew Hv) as [_ ->]. by rewrite mult_self.
    + rewrite multiplicity_singleton_ne by done. by apply V.
Qed.

Lemma owns_nonce signer n vu now g :
  now ≤ horizon →
  holds (λ o g', g' = match o with Inserted => {[+ TQuote signer n vu +]} ⊎ g | DuplicateKey => g end)
    (act (λ s, let '(t, o) := nonce_insert signer n vu now (nonces s) in (set_nonces t s, o))) g.
Proof.
  intros Hnow. apply owns_act. intros s others Hs. eexists. split; [|reflexivity].
  pose proof (nonce_insert_spec signer n vu now (nonces s)) as Hspec.
  destruct (nonce_insert signer n vu now (nonces s)) as [t o]. cbn [fst snd].
  assert (∀ x : NonceTable, (∀ k v, horizon < v → nonces s !! k = Some v → x !! k = Some v) →
    I (set_nonces x s) (g ⊎ others)) as Hkeep by (intros; by apply I_nonces).
  destruct o; destruct Hspec as [Hold Ht].
  - rewrite <- (assoc_L (⊎)). apply I_quote.
    + intros Hv. cbn [nonces set_nonces]. split; [rewrite Ht; by rewrite decide_True|].
      change (accepted (set_nonces t s) (g ⊎ others)) with (accepted s (g ⊎ others)).
      destruct (decide (TQuote signer n vu ∈ accepted s (g ⊎ others))) as [Hin|Hnin].
      * pose proof (qi_nonces _ _ _ _ _ _ _ Hs signer n vu Hv Hin) as E. specialize (Hold _ E). lia.
      * rewrite elem_of_multiplicity in Hnin. lia.
    + apply Hkeep. intros k v Hv E. rewrite Ht. destruct (decide (k = (signer, n))) as [->|].
      * specialize (Hold _ E). lia.
      * rewrite E. by rewrite decide_True by lia.
  - apply Hkeep. intros k v Hv E. rewrite Ht, E. by rewrite decide_True by lia.
Qed.

(** What a response must satisfy to be kept, the nonce aside. *)
Definition acceptable (sp : BucketSpec) (r : Resolved) (a : Account) (amount : Z) (payload : MmQuotePayload)
    (mm : ObjectId) (protocol : list Z) (now : Z) : Prop :=
  let q := mq_quote payload in
  protocol_id q = protocol ∧ spec q = sp ∧ write_amount q = amount ∧ signer_id q = mm ∧
  collateral_source q ≠ SuiAddress_ZERO ∧ release_package q ≠ SuiAddress_ZERO ∧ release_module q ≠ [] ∧
  now < valid_until_ms q ∧ total_written r ≤ max_total_written q ∧ is_invalidated r = false ∧
  ∃ scheme, ac_signing_scheme a = Some scheme ∧
    verify_signature scheme (ac_signing_pubkey a) (to_bcs_bytes q) (mq_signature payload) = Ok ().

Lemma check_quote_iff sp r a amount payload mm protocol now :
  check_quote sp r a amount payload mm protocol now = Ok () ↔ acceptable sp r a amount payload mm protocol now.
Proof.
  unfold check_quote, verify, acceptable. cbv zeta. cbn [quote signature]. split.
  - destruct (bool_decide (protocol_id _ = _)) eqn:E1; cbn [negb]; [|done].
    destruct (bool_decide (spec _ = _)) eqn:E2; cbn [negb]; [|done].
    destruct (Z.ltb_spec (max_total_written (mq_quote payload)) (total_written r)); [done|].
    destruct (Z.eqb_spec (write_amount (mq_quote payload)) amount) as [Ew|]; cbn [negb]; [|done].
    destruct (Z.leb_spec (valid_until_ms (mq_quote payload)) now); [done|].
    destruct (bool_decide (signer_id _ = _)) eqn:E3; cbn [negb]; [|done].
    destruct (bool_decide (collateral_source _ = _)) eqn:E4; cbn [orb]; [done|].
    destruct (bool_decide (release_package _ = _)) eqn:E5; cbn [orb]; [done|].
    destruct (bool_decide (release_module _ = _)) eqn:E6; [done|].
    destruct (ac_signing_scheme a) as [scheme|]; cbn [ok_or mbind result_bind]; [|done].
    destruct (verify_signature _ _ _ _) as [[]|e] eqn:E7; cbn [map_err]; [|done].
    destruct (is_invalidated r) eqn:E8; [done|]. intros _. reflect_bools. split_and!; try done. by exists scheme.
  - intros (-> & -> & -> & -> & E5 & E6 & E7 & E8 & E9 & E10 & scheme & Es & Ev).
    rewrite !(bool_decide_true (_ = _)), !(bool_decide_false (_ = _)) by done. cbn [negb orb].
    rewrite (proj2 (Z.ltb_ge _ _)), Z.eqb_refl, (proj2 (Z.leb_gt _ _)), Es by done. cbn [negb ok_or mbind result_bind].
    by rewrite Ev, E10.
Qed.

Lemma owns_validate_quote sp r a amount payload mm now g :
  known mm a → now ≤ horizon →
  holds (λ res g', match res with
                   | Ok e => g' = {[+ entry_token e +]} ⊎ g ∧ entry_ok cfg known sp amount e ∧ has_number e
                   | Err _ => g' = g
                   end)
    (validate_quote sp r a amount payload mm (cfg_protocol_id cfg) now) g.
Proof.
  intros Ha Hnow. unfold validate_quote. cbv zeta.
  destruct (check_quote sp r a amount payload mm (cfg_protocol_id cfg) now) as [[]|e] eqn:Ec; [|done].
  apply check_quote_iff in Ec as (E1 & E2 & E3 & E4 & E5 & E6 & E7 & _ & _ & _ & scheme & E8 & E9).
  eapply owns_bind; [by apply owns_nonce|]. intros [] g' ->; [|done].
  eapply owns_bind; [apply quiet_record_signed|]. intros [] g' ->.
  eapply owns_bind; [apply (owns_read_pure _ _ (λ rep, is_number rep = true))|].
  - intros s g0 Hs. apply composite_score_number. unfold snapshot.
    destruct (reputation s !! mm) as [st|] eqn:E; [by apply (qi_reputation _ _ _ _ _ _ _ Hs mm)|].
    by split_and!; vm_compute.
  - intros rep g' [-> Hrep]. cbn [owns]. split_and!; [|split_and!; try done|done].
    + unfold entry_token. cbn [eq_quote]. by rewrite E4.
    + by exists a, scheme.
Qed.

Lemma quote_tokens_app l1 l2 : quote_tokens (l1 ++ l2) = quote_tokens l1 ⊎ quote_tokens l2.
Proof. unfold quote_tokens. by rewrite fmap_app, list_to_set_disj_app. Qed.

Lemma quote_tokens_perm l1 l2 : l1 ≡ₚ l2 → quote_tokens l1 = quote_tokens l2.
Proof. intros Hp. unfold quote_tokens. by rewrite Hp. Qed.

Definition good (sp : BucketSpec) (amount : Z) (e : RfqQuoteEntry) : Prop :=
  entry_ok cfg known sp amount e ∧ has_number e.

Lemma owns_consider sp r amount now mm payload g :
  now ≤ horizon →
  holds (λ o g', g' = quote_tokens (option_list o) ⊎ g ∧ Forall (good sp amount) (option_list o))
    (consider sp r amount (cfg_protocol_id cfg) now mm payload) g.
Proof.
  intros Hnow. unfold consider. eapply owns_bind; [apply quiet_record_fills|]. intros _ g' ->.
  eapply owns_bind; [apply (owns_read_pure _ _ (λ acc, ∀ a, acc = Ok (Some a) → known mm a))|].
  { intros s g0 Hs a Ea. by apply (qi_world _ _ _ _ _ _ _ Hs). }
  intros acc g' [-> Hacc].
  assert (g = quote_tokens [] ⊎ g) as Hnone by (symmetry; apply (left_id_L ∅ (⊎))).
  destruct acc as [[a|]|e]; try by split.
  eapply owns_bind; [by apply owns_validate_quote; [apply Hacc|]|].
  intros [e|e] g'; [|intros ->; by split].
  intros (-> & Hok & Hrep). cbn [owns]. change (option_list (Some e)) with [e]. split; [|by apply Forall_singleton].
  unfold quote_tokens. rewrite list_fmap_singleton. cbn [list_to_set_disj]. by rewrite (right_id_L ∅ (⊎)).
Qed.

Lemma owns_consider_all sp r amount now rs acc :
  now ≤ horizon → Forall (good sp amount) acc →
  holds (λ l g', g' = quote_tokens l ∧ Forall (good sp amount) l)
    (consider_all sp r amount (cfg_protocol_id cfg) now rs acc) (quote_tokens acc).
Proof.
  intros Hnow. revert acc. induction rs as [|[mm payload] rs IH]; intros acc Hacc; cbn [consider_all]; [done|].
  eapply owns_bind; [by apply owns_consider|]. intros o g' [-> Ho].
  replace (quote_tokens (option_list o) ⊎ quote_tokens acc) with (quote_tokens (acc ++ option_list o)).
  - apply IH. by apply Forall_app.
  - rewrite quote_tokens_app. apply (comm_L (⊎)).
Qed.

#[local] Hint Resolve quiet_read : quoting.

Lemma owns_orchestrate polls side sp r amount rid window now :
  now ≤ horizon →
  holds (λ l g', g' = quote_tokens l ∧ Forall (entry_ok cfg known sp amount) l ∧ StronglySorted (ranked side) l)
    (orchestrate polls side sp r amount rid window (cfg_protocol_id cfg) now) ∅.
Proof.
  intros Hnow. unfold orchestrate. cbv zeta. destruct (is_invalidated r).
  { split_and!; [done|constructor|constructor]. }
  do 7 (apply owns_quiet; [solve [auto with quoting]|intros ?]).
  eapply owns_bind; [by apply (owns_consider_all _ _ _ _ _ [])|]. intros l g' [-> Hl].
  destruct (sort_best_first_ranked side l) as [Hs Hp]; [by eapply Forall_impl; [exact Hl|intros ? []]|].
  cbn [owns]. split_and!; [by apply quote_tokens_perm| |done].
  rewrite Hp. eapply Forall_impl; [exact Hl|]. by intros ? [].
Qed.
(** * Responses *)

Lemma quote_tokens_other l t :
  (∀ a n v, t ≠ TQuote a n v) → multiplicity t (quote_tokens l) = 0%nat.
Proof.
  intros Ht. unfold quote_tokens. induction l as [|e l IH]; [done|].
  rewrite fmap_cons, list_to_set_disj_cons, multiplicity_disj_union, IH.
  by rewrite multiplicity_singleton_ne by apply Ht.
Qed.

(** A response takes its quotes from the task that sends it. *)
Lemma I_send n m s g :
  response_ok cfg known asked n m → I s (quote_tokens (message_quotes m) ⊎ g) → I (set_retail_tx (retail_tx s ++ [(n, m)]) s) g.
Proof.
  intros Hm [W G N K U V R M].
  assert (accepted (set_retail_tx (retail_tx s ++ [(n, m)]) s) g = accepted s (quote_tokens (message_quotes m) ⊎ g)) as Hacc.
  { unfold accepted, sent_quotes. cbn [retail_tx set_retail_tx]. rewrite flat_map_app, quote_tokens_app.
    cbn [flat_map]. rewrite app_nil_r. by rewrite (assoc_L (⊎)). }
  assert (∀ t, (∀ a k v, t ≠ TQuote a k v) → multiplicity t (quote_tokens (message_quotes m) ⊎ g) = multiplicity t g) as Ht.
  { intros t Ht. by rewrite multiplicity_disj_union, quote_tokens_other. }
  split; rewrite ?Hacc; try done.
  - by rewrite <- (Ht TGlobal).
  - intros i. specialize (N i). by rewrite Ht in N.
  - intros k. rewrite <- K. by rewrite Ht.
  - intros m' Hin. cbn [retail_tx set_retail_tx] in Hin. apply elem_of_app in Hin as [Hin|Hin]; [by apply M|].
    apply list_elem_of_singleton in Hin as ->. done.
Qed.

Lemma owns_respond n m g :
  response_ok cfg known asked n m → holds (λ _ g', g' = g) (retail_send n m) (quote_tokens (message_quotes m) ⊎ g).
Proof.
  intros Hm. apply owns_act. intros s others Hs. exists g. split; [|done]. cbn [fst].
  apply I_send; [done|]. by rewrite (assoc_L (⊎)).
Qed.

Lemma quiet_send n m : response_ok cfg known asked n m → message_quotes m = [] → quiet (retail_send n m).
Proof.
  intros Hm E g. pose proof (owns_respond n m g Hm) as Hs. rewrite E in Hs.
  change (quote_tokens []) with (∅ : tokens) in Hs. by rewrite (left_id_L ∅ (⊎)) in Hs.
Qed.

Lemma quiet_fail n rid code : quiet (fail_request n rid code).
Proof. by apply quiet_send. Qed.
#[local] Hint Resolve quiet_fail : quoting.
#[local] Hint Extern 1 (quiet (retail_send _ _)) => apply quiet_send; [exact Logic.I|reflexivity] : quoting.

Lemma quiet_rfq_task polls n rid side sp amount r :
  asked n rid side sp amount → quiet (rfq_task polls cfg n rid side sp amount r).
Proof.
  intros Hasked g. unfold rfq_task. eapply owns_bind.
  { apply (owns_read_pure _ _ (λ now, now ≤ horizon)). intros s g0 Hs. apply (qi_world _ _ _ _ _ _ _ Hs). }
  intros now g' [-> Hnow]. eapply owns_bind.
  { pose proof (owns_frame I _ _ _ g (owns_orchestrate polls side sp r amount rid (rfq_window_ms cfg) now Hnow)) as Ho.
    rewrite (left_id_L ∅ (⊎)) in Ho. exact Ho. }
  intros quotes g' (g0 & -> & -> & Hok & Hs). destruct quotes as [|e quotes].
  - change (quote_tokens []) with (∅ : tokens). rewrite (left_id_L ∅ (⊎)). apply quiet_fail.
  - apply (owns_respond n (RFQResponse rid sp _ amount (e :: quotes))). split; [done|].
    split; [done|]. by exists side.
Qed.

(** * Refreshes *)

Definition claim_tokens (amount : Z) (l : list BucketSpec) : tokens := list_to_set_disj ((λ s, TClaim (s, amount)) <$> l).

Lemma claim_tokens_snoc amount l s : claim_tokens amount (l ++ [s]) = {[+ TClaim (s, amount) +]} ⊎ claim_tokens amount l.
Proof.
  unfold claim_tokens. rewrite fmap_app, list_to_set_disj_app, list_fmap_singleton. cbn [list_to_set_disj].
  rewrite (right_id_L ∅ (⊎)). apply (comm_L (⊎)).
Qed.

Lemma owns_claim_all amount specs claimed g :
  holds (λ l g', g' = claim_tokens amount l ⊎ g) (claim_all amount specs claimed) (claim_tokens amount claimed ⊎ g).
Proof.
  revert claimed. induction specs as [|s specs IH]; intros claimed; cbn [claim_all]; [done|].
  eapply owns_bind; [apply owns_claim|]. intros [] g' ->.
  - rewrite (assoc_L (⊎)), <- claim_tokens_snoc. apply IH.
  - rewrite (left_id_L ∅ (⊎)). apply IH.
Qed.

Lemma owns_release_all amount l g : holds (λ _ g', g' = g) (release_all amount l) (claim_tokens amount l ⊎ g).
Proof.
  revert g. unfold release_all. induction l as [|s l IH]; intros g; cbn [for_each].
  { change (claim_tokens amount []) with (∅ : tokens). by rewrite (left_id_L ∅ (⊎)). }
  change (claim_tokens amount (s :: l)) with ({[+ TClaim (s, amount) +]} ⊎ claim_tokens amount l).
  rewrite <- (assoc_L (⊎)). eapply owns_bind; [apply owns_release|]. intros _ g' ->. apply IH.
Qed.

Lemma quiet_refresh_buckets polls rid side specs amount window now :
  quiet (refresh_buckets polls rid side specs amount window now).
Proof.
  intros g. unfold refresh_buckets. eapply owns_bind.
  { pose proof (owns_claim_all amount specs [] g) as Hc. change (claim_tokens amount []) with (∅ : tokens) in Hc.
    rewrite (left_id_L ∅ (⊎)) in Hc. exact Hc. }
  intros claimed g' ->. destruct claimed as [|s claimed].
  { change (claim_tokens amount []) with (∅ : tokens). by rewrite (left_id_L ∅ (⊎)). }
  apply owns_quiet; [solve [auto with quoting]|]. intros [|c ms]; [apply owns_release_all|].
  do 3 (apply owns_quiet; [solve [auto with quoting]|intros ?]).
  apply owns_quiet; [quiet|]. intros by_spec.
  do 3 (apply owns_quiet; [solve [auto with quoting]|intros ?]). apply owns_release_all.
Qed.
#[local] Hint Resolve quiet_refresh_buckets quiet_rfq_task : quoting.

Lemma quiet_spawned_refresh polls rid window : quiet (spawned_refresh polls rid window).
Proof. unfold spawned_refresh. apply quiet_seq; [quiet_step|]. intros job.
  quiet.
Qed.

Lemma quiet_partition_cache amount now ttl specs cold old : quiet (partition_cache amount now ttl specs cold old).
Proof. revert cold old. induction specs as [|s specs IH]; intros cold old; cbn [partition_cache]; quiet; apply IH. Qed.

Lemma quiet_build_response amount now ttl specs out : quiet (build_response amount now ttl specs out).
Proof. revert out. induction specs as [|s specs IH]; intros out; cbn [build_response]; quiet; apply IH. Qed.
#[local] Hint Resolve quiet_partition_cache quiet_build_response : quoting.

Lemma quiet_orchestrate_bulk_view polls rid side specs amount window ttl now :
  quiet (orchestrate_bulk_view polls rid side specs amount window ttl now).
Proof. unfold orchestrate_bulk_view. cbv zeta. quiet. quiet_step. Qed.
#[local] Hint Resolve quiet_orchestrate_bulk_view : quoting.

(** * The tasks *)

Lemma quiet_wanted_specs specs wanted : quiet (wanted_specs specs wanted).
Proof. revert wanted. induction specs as [|s specs IH]; intros wanted; cbn [wanted_specs]; quiet; apply IH. Qed.

Lemma quiet_now : quiet now_ms.
Proof. apply quiet_read. Qed.
#[local] Hint Resolve quiet_wanted_specs quiet_now : quoting.

Lemma quiet_observers x : quiet (modify (λ s, set_observers (rfq_observers s ++ [x]) s)).
Proof. quiet_step. Qed.
#[local] Hint Resolve quiet_observers : quoting.

(** Work between the permits of a session and of the service. *)
Lemma quiet_permits n (work full busy : prog QState unit) :
  quiet work → quiet full → quiet busy →
  quiet (permit ← acquire_session n;
         if negb (permit : bool) then busy else
         permit ← acquire_global;
         if negb (permit : bool) then (_ ← full; release_session n) else
         _ ← work; _ ← release_global; release_session n).
Proof.
  intros Hw Hf Hb g. eapply owns_bind; [apply owns_acquire_session|]. intros [] g' ->; cbn [negb].
  2: { rewrite (left_id_L ∅ (⊎)). apply Hb. }
  eapply owns_bind; [apply owns_acquire_global|]. intros [] g' ->; cbn [negb].
  - apply owns_quiet; [done|]. intros _. eapply owns_bind; [apply owns_release_global|]. intros _ g' ->.
    apply owns_release_session.
  - rewrite (left_id_L ∅ (⊎)). apply owns_quiet; [done|]. intros _. apply owns_release_session.
Qed.

Lemma quiet_rfq_request polls n rid side sp amount :
  asked n rid side sp amount → quiet (rfq_request polls cfg n rid side sp amount).
Proof.
  intros Hasked. unfold rfq_request. apply quiet_seq; [solve [auto with quoting]|]. intros _. destruct (negb _); [solve [auto with quoting]|].
  apply quiet_seq; [solve [auto with quoting]|]. intros [r|e]; [|solve [auto with quoting]].
  destruct (is_invalidated r); [solve [auto with quoting]|]. apply quiet_permits; auto with quoting.
Qed.

Lemma quiet_bulk_view_request polls routing n rid side specs amount :
  quiet (bulk_view_request polls routing cfg n rid side specs amount).
Proof.
  unfold bulk_view_request. apply quiet_seq; [solve [auto with quoting]|]. intros wanted.
  apply (quiet_permits n _ (Ret tt)); [|apply quiet_ret..]. unfold bulk_view_task. quiet.
Qed.

Lemma quiet_subscribe_buckets n ids : quiet (subscribe_buckets n ids).
Proof. unfold subscribe_buckets. quiet. Qed.

Lemma quiet_retail_open n : quiet (retail_open cfg n).
Proof.
  apply quiet_modify. intros s g Hs. pose proof (qi_session _ _ _ _ _ _ _ Hs n) as Hn.
  destruct (session_inflight s !! n) eqn:E; [done|]. destruct Hs as [W G N K U V R M]. split; try done.
  intros m. cbn [session_inflight set_permits]. destruct (decide (m = n)) as [->|].
  - rewrite lookup_insert_eq. lia.
  - rewrite lookup_insert_ne by done. apply N.
Qed.

Lemma quiet_retail_write n : quiet (retail_write n).
Proof. unfold retail_write. quiet_step. Qed.

Lemma quiet_retail_close n : quiet (retail_close n).
Proof. unfold retail_close. quiet_step. Qed.

Lemma quiet_mm_open hello challenge sig : quiet (mm_open hello challenge sig).
Proof. unfold mm_open. cbv zeta. quiet; quiet_step. Qed.

Lemma quiet_mm_frame account frame : quiet (mm_frame account frame).
Proof. unfold mm_frame. quiet. Qed.

Lemma quiet_mm_write ch : quiet (mm_write ch).
Proof. unfold mm_write. quiet_step. Qed.

Lemma quiet_mm_close account ch : quiet (mm_close account ch).
Proof. unfold mm_close. quiet; quiet_step. Qed.

Lemma quiet_world w : world_ok horizon known w → quiet (world_step w).
Proof. intros Hw. apply quiet_modify. intros s g. by apply I_world. Qed.
End props.

(** * The channels of the sessions

    No action of a task hands a session more than one message. *)
Definition one_message (s s' : QState) : Prop := ∀ n, (retail_pending s' n ≤ S (retail_pending s n))%nat.

Lemma one_same s s' :
  retail_tx s' = retail_tx s → retail_written s' = retail_written s → retail_gone s' = retail_gone s → one_message s s'.
Proof. intros E1 E2 E3 n. unfold retail_pending. rewrite E1, E2, E3. lia. Qed.

#[export] Instance one_message_refl : Reflexive one_message.
Proof. intros s. by apply one_same. Qed.

Lemma retail_fits_iff s : retail_fits s = true ↔ ∀ n, (retail_pending s n ≤ retail_capacity)%nat.
Proof.
  unfold retail_fits. rewrite forallb_forall. split.
  - intros Hf n. destruct (List.filter (λ m, (m.1 =? n)%nat) (retail_tx s)) as [|m l] eqn:E.
    + unfold retail_pending. rewrite E. case_bool_decide; cbn; lia.
    + assert (In m (List.filter (λ m, (m.1 =? n)%nat) (retail_tx s))) as Hin by (rewrite E; by left).
      apply filter_In in Hin as [Hin Hn%Nat.eqb_eq]. specialize (Hf m Hin). apply Nat.leb_le in Hf. by rewrite Hn in Hf.
  - intros Hp m _. apply Nat.leb_le, Hp.
Qed.

Section sends.
Context `{BcsCrate, CryptoCrates, DashMapCrate}.

Abbreviation sends := (each one_message).

Lemma sends_seq {A B} (p : prog QState A) (h : A → prog QState B) :
  sends p → (∀ a, sends (h a)) → sends (p ≫= h).
Proof. apply each_bind. Qed.

Ltac sends_state :=
  repeat match goal with |- context [match ?x with _ => _ end] => destruct x end; by apply one_same.

Ltac sends :=
  repeat match goal with
  | |- each _ (Ret _) => exact Logic.I
  | |- each _ (mret _) => exact Logic.I
  | |- each _ (mbind _ _) => apply sends_seq; [|intros ?]
  | |- each _ (read _) => apply each_read; apply _
  | |- each _ (for_each _ _) => apply each_for_each; intros ?
  | |- each _ (modify _) => apply each_modify; intros ?; cbv zeta; sends_state
  | |- each _ (act _) => apply each_act; intros ?; cbv zeta; sends_state
  | |- each _ (let _ := _ in _) => cbv zeta
  | |- each _ (match ?x with _ => _ end) => destruct x
  | |- _ => solve [auto with sends]
  end.

Lemma sends_retail_send n m : sends (retail_send n m).
Proof.
  apply each_modify. intros s k. unfold retail_pending. cbn [retail_tx retail_written retail_gone set_retail_tx].
  case_bool_decide; [lia|]. rewrite List.filter_app, length_app.
  assert (length (List.filter (λ m, (m.1 =? k)%nat) [(n, m)]) ≤ 1)%nat by (cbn; destruct (n =? k)%nat; cbn; lia). lia.
Qed.

Lemma sends_retail_write n : sends (retail_write n).
Proof.
  apply each_modify. intros s k. destruct (retail_pending s n) eqn:E; [by apply one_message_refl|].
  unfold retail_pending. cbn [retail_tx retail_written retail_gone set_sessions]. case_bool_decide; [lia|].
  destruct (decide (k = n)) as [->|Hne].
  - rewrite lookup_insert_eq. cbn [from_option id]. unfold id. lia.
  - rewrite lookup_insert_ne by done. lia.
Qed.

Lemma sends_retail_close n : sends (retail_close n).
Proof.
  apply each_modify. intros s k. unfold retail_pending. cbn [retail_tx retail_written retail_gone set_sessions].
  repeat case_bool_decide; (lia || set_solver).
Qed.
#[local] Hint Resolve sends_retail_send sends_retail_write sends_retail_close : sends.

Lemma sends_collect polls ch out : sends (collect polls ch out).
Proof. revert out. induction polls as [|polls IH]; intros out; cbn [collect]; unfold matcher_recv; sends. Qed.

Lemma sends_broadcast frame ms expected : sends (broadcast frame ms expected).
Proof. revert expected. induction ms as [|m ms IH]; intros expected; cbn [broadcast]; unfold mm_try_send; sends. Qed.

Lemma sends_broadcast_count frame ms expected : sends (broadcast_count frame ms expected).
Proof. revert expected. induction ms as [|m ms IH]; intros expected; cbn [broadcast_count]; unfold mm_try_send; sends. Qed.

Lemma sends_claim_all amount specs claimed : sends (claim_all amount specs claimed).
Proof.
  revert claimed. induction specs as [|sp specs IH]; intros claimed; cbn [claim_all]; unfold try_claim_bulk_view_refresh; sends.
Qed.

Lemma sends_collect_premiums polls ch remaining by_spec : sends (collect_premiums polls ch remaining by_spec).
Proof.
  revert remaining by_spec. induction polls as [|polls IH]; intros remaining by_spec; cbn [collect_premiums];
    unfold matcher_recv; cbv zeta; sends.
Qed.

Lemma sends_partition_cache amount now ttl specs cold old : sends (partition_cache amount now ttl specs cold old).
Proof. revert cold old. induction specs as [|sp specs IH]; intros cold old; cbn [partition_cache]; sends. Qed.

Lemma sends_build_response amount now ttl specs out : sends (build_response amount now ttl specs out).
Proof. revert out. induction specs as [|sp specs IH]; intros out; cbn [build_response]; sends. Qed.
#[local] Hint Resolve sends_collect sends_broadcast sends_broadcast_count sends_claim_all sends_collect_premiums
  sends_partition_cache sends_build_response : sends.

Lemma sends_consider_all sp r amount protocol now rs accepted : sends (consider_all sp r amount protocol now rs accepted).
Proof.
  revert accepted. induction rs as [|[mm payload] rs IH]; intros accepted; cbn [consider_all]; [sends|].
  unfold consider, record_fills, validate_quote. cbv zeta. sends.
Qed.
#[local] Hint Resolve sends_consider_all : sends.

Lemma sends_resolve sp : sends (resolve sp).
Proof. unfold resolve. sends. Qed.
#[local] Hint Resolve sends_resolve : sends.

Lemma sends_wanted_specs specs wanted : sends (wanted_specs specs wanted).
Proof. revert wanted. induction specs as [|sp specs IH]; intros wanted; cbn [wanted_specs]; sends. Qed.
#[local] Hint Resolve sends_wanted_specs : sends.

Lemma sends_orchestrate polls side sp r amount rid window protocol now :
  sends (orchestrate polls side sp r amount rid window protocol now).
Proof.
  unfold orchestrate, collect_with_deadline, matcher_channel, pending_insert, pending_remove, drop_tx, drop_rx. sends.
Qed.

Lemma sends_refresh_buckets polls rid side specs amount window now :
  sends (refresh_buckets polls rid side specs amount window now).
Proof.
  unfold refresh_buckets, release_all, release_bulk_view_refresh, matcher_channel, pending_insert, pending_remove,
    write_cache, cache_insert, drop_rx. sends.
Qed.
#[local] Hint Resolve sends_orchestrate sends_refresh_buckets : sends.

Lemma sends_orchestrate_bulk_view polls rid side specs amount window ttl now :
  sends (orchestrate_bulk_view polls rid side specs amount window ttl now).
Proof. unfold orchestrate_bulk_view. sends. Qed.
#[local] Hint Resolve sends_orchestrate_bulk_view : sends.

Lemma sends_task_prog cfg t : sends (task_prog cfg t).
Proof.
  destruct t; cbn [task_prog]; unfold retail_open, subscribe_buckets, rfq_request, rfq_task, fail_request, bulk_view_request,
    bulk_view_task, spawned_refresh, acquire_session, acquire_global, release_session, release_global, now_ms, mm_open,
    mm_frame, route_response, drop_tx, mm_write, mm_close, world_step; sends.
Qed.

(** ** The clients read

    The write loops can empty every channel, so that no task waits for ever
    while the clients read their sockets. *)
Lemma write_one tasks s n :
  ∃ s', move (tasks, s) (tasks, s') ∧ retail_pending s' n = pred (retail_pending s n) ∧
    ∀ k, k ≠ n → retail_pending s' k = retail_pending s k.
Proof.
  exists (run (retail_write n) s).1. split; [constructor|]. cbn [run retail_write modify act fst].
  destruct (retail_pending s n) eqn:E; [done|].
  split; [|intros k Hk]; revert E; unfold retail_pending; cbn [retail_tx retail_written retail_gone set_sessions].
  - case_bool_decide; [done|]. rewrite lookup_insert_eq. cbn [from_option id]. unfold id. lia.
  - by rewrite lookup_insert_ne by done.
Qed.

Lemma drain_one tasks s n :
  ∃ s', rtc move (tasks, s) (tasks, s') ∧ retail_pending s' n = 0%nat ∧
    ∀ k, k ≠ n → retail_pending s' k = retail_pending s k.
Proof.
  remember (retail_pending s n) as p eqn:E. revert s E. induction p as [|p IH]; intros s E.
  - by exists s.
  - destruct (write_one tasks s n) as (s1 & Hm & Hn & Hk). rewrite <- E in Hn.
    destruct (IH s1) as (s2 & Hr & Hn2 & Hk2); [done|]. exists s2. split_and!; [by eapply rtc_l|done|].
    intros k Hne. by rewrite Hk2, Hk.
Qed.

Lemma drain_all tasks s : ∃ s', rtc move (tasks, s) (tasks, s') ∧ ∀ n, retail_pending s' n = 0%nat.
Proof.
  assert (∀ (l : list nat) s, (∀ n, n ∉ l → retail_pending s n = 0%nat) →
    ∃ s', rtc move (tasks, s) (tasks, s') ∧ ∀ n, retail_pending s' n = 0%nat) as Hd.
  { clear s. induction l as [|n l IH]; intros s Hl; [exists s; split; [done|]; intros n; apply Hl; set_solver|].
    destruct (drain_one tasks s n) as (s1 & Hr & Hn & Hk).
    destruct (IH s1) as (s2 & Hr2 & Hz2); [|exists s2; split; [by etransitivity|done]].
    intros k Hin. destruct (decide (k = n)) as [->|]; [done|]. rewrite Hk by done. apply Hl. set_solver. }
  apply (Hd (retail_tx s).*1). intros n Hn. unfold retail_pending. case_bool_decide; [done|].
  assert (List.filter (λ m, (m.1 =? n)%nat) (retail_tx s) = []) as ->; [|done].
  destruct (List.filter _ _) as [|m l] eqn:E; [done|]. destruct Hn.
  assert (In m (List.filter (λ m, (m.1 =? n)%nat) (retail_tx s))) as Hin by (rewrite E; by left).
  apply filter_In in Hin as [Hin <-%Nat.eqb_eq]. apply list_elem_of_fmap. exists m. split; [done|].
  by apply list_elem_of_In.
Qed.

(** A task runs to its end. *)
Lemma task_completes i p tasks s :
  tasks !! i = Some p → sends p →
  ∃ s', rtc move (tasks, s) (<[i := Ret tt]> tasks, s').
Proof.
  revert tasks s. induction p as [[]|X f k IH]; intros tasks s Hi Hp.
  - exists s. by rewrite list_insert_id.
  - destruct Hp as [Hf Hk]. destruct (drain_all tasks s) as (s1 & Hr & Hz).
    destruct (IH (f s1).2 (<[i := k (f s1).2]> tasks) (f s1).1) as (s2 & Hr2); [|done|].
    { apply list_lookup_insert_eq. by eapply lookup_lt_Some. }
    exists s2. rewrite list_insert_insert_eq in Hr2. etransitivity; [exact Hr|]. eapply rtc_l; [|exact Hr2].
    apply (move_task i (Act f k)); [done|]. apply retail_fits_iff. intros n. specialize (Hf s1 n). rewrite Hz in Hf.
    cbn [step snd]. unfold retail_capacity. lia.
Qed.

Lemma tasks_complete tasks s :
  Forall sends tasks → ∃ fin, rtc move (tasks, s) fin ∧ Forall returned fin.1.
Proof.
  intros Ht.
  assert (∀ n, (n ≤ length tasks)%nat → ∃ s', rtc move (tasks, s) (replicate n (Ret tt) ++ drop n tasks, s')) as Hn.
  { induction n as [|n IH]; intros Hn; [by exists s|]. destruct IH as (s1 & Hr); [lia|].
    destruct (lookup_lt_is_Some_2 tasks n) as [p Hp]; [lia|].
    destruct (task_completes n p (replicate n (Ret tt) ++ drop n tasks) s1) as (s2 & Hr2).
    - rewrite lookup_app_r, length_replicate, lookup_drop by (rewrite length_replicate; lia).
      by rewrite Nat.sub_diag, Nat.add_0_r.
    - by eapply Forall_lookup_1.
    - exists s2. rewrite insert_app_r_alt in Hr2 by (rewrite length_replicate; lia).
      rewrite length_replicate, Nat.sub_diag in Hr2. rewrite (drop_S tasks p n) in Hr, Hr2 by done. cbn [list_insert insert] in Hr2.
      rewrite replicate_S_end, <- (assoc_L (++)). by etransitivity. }
  destruct (Hn (length tasks)) as (s' & Hr); [done|]. rewrite drop_all, app_nil_r in Hr.
  eexists. split; [exact Hr|]. apply Forall_replicate. exact Logic.I.
Qed.
End sends.
