(* ===== verification/QuotingTheorems.v ===== *)
(** What the RFQ service guarantees: which quotes it accepts, and what holds
    of its responses, its nonces, its permits and its claims under every
    interleaving of its tasks with the makers and with a world that moves. *)

From stdpp Require Import gmultiset.
From S2P Require Import Prelude Prog F64 Channel RustStr ExchangeTypes Demo Crates Signing BucketSpec ServiceDemo Quote Quoting QuotingService QuotingProps.

#[export] Existing Instance bcs_format.
#[export] Existing Instance demo_crypto.
#[export] Existing Instance demo_dash.

Definition demo_spec : BucketSpec := mkBucketSpec (str "0xb::b::BASE") (str "0xc::c::QUOTE") 6000000 5 2 false.

Definition demo_config : Config := mkConfig 500 1000 (replicate 32 9) 2 8.

Definition maker_account (id : ObjectId) : Account := mkAccount id None (Some Quote.Ed25519) (replicate 32 3).

Definition demo_indexer (buckets : list Bucket) (executed : list (Z * Z)) : Indexer := {|
  ix_account id := Ok (if bool_decide (id = demo_addr 1) || bool_decide (id = demo_addr 2)
                       then Some (maker_account id) else None);
  ix_bucket _ := Ok None;
  ix_buckets _ _ _ := Ok buckets;
  ix_executed _ after := Ok (List.filter (λ e, after <? e.1) executed);
|}.

Definition demo_world (now : Z) : World := mkWorld now 0 (demo_indexer [] []).

Definition demo_mm_quote (mm n premium : Z) : MmQuotePayload :=
  mkMmQuote
    (mkQuote (replicate 32 9) (demo_addr mm) (demo_addr 11) (demo_addr 12) (str "release") (demo_addr mm) demo_spec
       1000000 500 premium 9000 n)
    (replicate 64 7).

Definition demo_hello (mm : Z) : MmHello := mkMmHello (demo_addr mm) Quote.Ed25519 (replicate 32 3) [TraderMm] true.

(** A trader asks, two makers answer while the request collects, the clock
    moves on. *)
Definition demo_tasks : list QuotingTask :=
  [MmOpen (demo_hello 1) [1] (replicate 64 7);
   MmOpen (demo_hello 2) [2] (replicate 64 7);
   RetailOpen 0;
   RetailRFQ 4 0 (str "r1") Writer demo_spec 500;
   MmFrame (demo_addr 1) (MmQuote (str "r1") (demo_mm_quote 1 40 30));
   MmFrame (demo_addr 2) (MmQuote (str "r1") (demo_mm_quote 2 41 35));
   WorldMoves (demo_world 2000)].

Definition demo_schedule : list nat :=
  replicate 5 0%nat ++ replicate 5 1%nat ++ [2%nat] ++ replicate 14 3%nat ++ replicate 5 4%nat ++ replicate 5 5%nat ++
  [6%nat] ++ replicate 40 3%nat.

Abbreviation demo_served := (serve demo_config 3 (demo_world 1000) demo_tasks demo_schedule).

Definition demo_quotes : list RfqQuoteEntry :=
  [mkEntry (mq_quote (demo_mm_quote 2 41 35)) (replicate 64 7) (demo_addr 2) f64_zero;
   mkEntry (mq_quote (demo_mm_quote 1 40 30)) (replicate 64 7) (demo_addr 1) f64_zero].

Lemma demo_response : retail_tx demo_served.2 = [(0%nat, RFQResponse (str "r1") demo_spec None 500 demo_quotes)].
Proof. vm_compute. reflexivity. Qed.

Lemma demo_returned : forallb (λ p, match p with Ret _ => true | Act _ _ => false end) demo_served.1 = true.
Proof. vm_compute. reflexivity. Qed.

Import Rejection(QuoteRejection).

(** * Validation *)

Section validation.
Context `{BcsCrate, CryptoCrates}.

Lemma run_validate_ok sp r a amount payload mm protocol now s :
  check_quote sp r a amount payload mm protocol now = Ok () →
  run (validate_quote sp r a amount payload mm protocol now) s =
  let q := mq_quote payload in
  match nonce_insert mm (nonce q) (valid_until_ms q) now (nonces s) with
  | (t, DuplicateKey) => (set_nonces t s, Err Rejection.DuplicateNonce)
  | (t, Inserted) =>
      let rep := record_signed mm (reputation s) in
      (set_reputation rep (set_nonces t s), Ok (mkEntry q (mq_signature payload) mm (composite_score (snapshot mm rep))))
  end.
Proof.
  intros E. unfold validate_quote. rewrite E. cbn [run mbind prog_mbind prog_bind act]. cbv zeta.
  by destruct (nonce_insert _ _ _ _ _) as [t []].
Qed.

Lemma run_validate_err sp r a amount payload mm protocol now s e :
  check_quote sp r a amount payload mm protocol now = Err e →
  run (validate_quote sp r a amount payload mm protocol now) s = (s, Err e).
Proof. intros E. unfold validate_quote. by rewrite E. Qed.

(** [validate_quote] accepts a response exactly when it is acceptable
    (protocol, spec, amount, signer, routing, expiry, queue position and the
    signature over its own bytes under the key registered for the maker) and
    its nonce is not taken by a quote still valid.  An accepted quote is
    returned unchanged with the reputation it now has, its nonce is taken
    until it expires, and it is counted as signed; a refused one changes
    nothing but expired nonces.  Presenting the accepted quote again, at any
    time, is refused. *)
Theorem validate_quote_decides sp r a amount payload mm protocol now s :
  let q := mq_quote payload in
  let '(s', res) := run (validate_quote sp r a amount payload mm protocol now) s in
  ((∃ e, res = Ok e) ↔
     acceptable sp r a amount payload mm protocol now ∧ ∀ v, nonces s !! (mm, nonce q) = Some v → v ≤ now) ∧
  match res with
  | Ok e =>
      e = mkEntry q (mq_signature payload) mm (composite_score (snapshot mm (reputation s'))) ∧
      nonces s' !! (mm, nonce q) = Some (valid_until_ms q) ∧
      quotes_signed (snapshot mm (reputation s')) = u64_add (quotes_signed (snapshot mm (reputation s))) 1 ∧
      (∀ now', ∃ err, (run (validate_quote sp r a amount payload mm protocol now') s').2 = Err err)
  | Err _ =>
      s' = set_nonces (nonces s') s ∧
      ∀ k v, (nonces s' !! k = Some v → nonces s !! k = Some v) ∧
             (nonces s !! k = Some v → now < v → nonces s' !! k = Some v)
  end.
Proof.
  cbv zeta. set (q := mq_quote payload).
  destruct (check_quote sp r a amount payload mm protocol now) as [[]|e] eqn:Ec.
  - rewrite run_validate_ok by done. cbv zeta. fold q. pose proof (proj1 (check_quote_iff _ _ _ _ _ _ _ _) Ec) as Hacc.
    pose proof (nonce_insert_spec mm (nonce q) (valid_until_ms q) now (nonces s)) as Hn.
    destruct (nonce_insert _ _ _ _ _) as [t []]; destruct Hn as [Hold Ht].
    + assert (t !! (mm, nonce q) = Some (valid_until_ms q)) as Et by (rewrite Ht; by rewrite decide_True).
      split; [split; [done|intros _; by eexists]|]. split_and!; [done|exact Et| |].
      * unfold snapshot. cbn [reputation set_reputation]. unfold record_signed, with_mut. by rewrite lookup_insert_eq.
      * intros now'. destruct (check_quote sp r a amount payload mm protocol now') as [[]|e] eqn:Ec';
          [|rewrite (run_validate_err _ _ _ _ _ _ _ _ _ e) by done; by eexists].
        rewrite run_validate_ok by done. cbv zeta. fold q. cbn [nonces set_reputation set_nonces].
        pose proof (nonce_insert_spec mm (nonce q) (valid_until_ms q) now' t) as Hn'.
        destruct (nonce_insert mm _ _ now' t) as [t' []]; [|by eexists]. destruct Hn' as [Hold' _].
        specialize (Hold' _ Et). apply check_quote_iff in Ec'.
        destruct Ec' as (_ & _ & _ & _ & _ & _ & _ & Hv & _). fold q in Hv. lia.
    + split.
      * split; [intros [? [=]]|]. intros [_ Hfree]. destruct Hold as (v & Ev & Hv). specialize (Hfree v Ev). lia.
      * split; [done|]. intros k v. cbn [nonces set_nonces]. rewrite Ht.
        destruct (nonces s !! k); [|done]. case_decide; split; intros [= ->]; done.
  - rewrite (run_validate_err _ _ _ _ _ _ _ _ _ e) by done. split.
    + split; [intros [? [=]]|]. intros [Hacc _]. apply check_quote_iff in Hacc. congruence.
    + split; [by destruct s|done].
Qed.
End validation.

(** * Nonces *)

(** A call of the nonce table: signer, nonce, validity and time. *)
Record NonceCall := mkCall { nc_signer : ObjectId; nc_nonce : Z; nc_until : Z; nc_now : Z }.

Definition nc_key (c : NonceCall) : ObjectId * Z := (nc_signer c, nc_nonce c).

Fixpoint table_outcomes (calls : list NonceCall) (t : NonceTable) : list InsertOutcome :=
  match calls with
  | [] => []
  | c :: calls' =>
      let '(t', o) := nonce_insert (nc_signer c) (nc_nonce c) (nc_until c) (nc_now c) t in
      o :: table_outcomes calls' t'
  end.

(** The reference: a log of every insertion, never pruned.  A call is refused
    when an insertion of its key is still valid. *)
Fixpoint log_outcomes (calls log : list NonceCall) : list InsertOutcome :=
  match calls with
  | [] => []
  | c :: calls' =>
      if List.existsb (λ d, bool_decide (nc_key d = nc_key c) && (nc_now c <? nc_until d)) log
      then DuplicateKey :: log_outcomes calls' log
      else Inserted :: log_outcomes calls' (c :: log)
  end.

(** Pruned and full, the two agree on what is valid from [now] on. *)
Definition agree (now : Z) (t : NonceTable) (log : list NonceCall) : Prop :=
  ∀ k now', now ≤ now' →
    (∃ v, t !! k = Some v ∧ now' < v) ↔ ∃ d, d ∈ log ∧ nc_key d = k ∧ now' < nc_until d.

Lemma agree_later now now' t log : now ≤ now' → agree now t log → agree now' t log.
Proof. intros Hn Ha k n Hk. apply Ha. lia. Qed.

Lemma agree_prune now t t' log :
  (∀ k, t' !! k = match t !! k with Some v => if decide (now < v) then Some v else None | None => None end) →
  agree now t log → agree now t' log.
Proof.
  intros Ht Ha k now' Hn. rewrite <- (Ha k now' Hn), Ht. destruct (t !! k) as [v|]; [|done].
  destruct (decide (now < v)); [done|]. split; intros (v' & ? & ?); simplify_eq; lia.
Qed.

Lemma agree_insert c t t' log :
  (∀ v, t !! nc_key c = Some v → v ≤ nc_now c) →
  (∀ k, t' !! k = if decide (k = nc_key c) then Some (nc_until c)
                  else match t !! k with Some v => if decide (nc_now c < v) then Some v else None | None => None end) →
  agree (nc_now c) t log → agree (nc_now c) t' (c :: log).
Proof.
  intros Hold Ht Ha k now' Hn. rewrite Ht. specialize (Ha k now' Hn).
  destruct (decide (k = nc_key c)) as [->|Hne].
  - split.
    + intros (v & [= <-] & Hv). exists c. by split_and!; [left| |].
    + intros (d & Hd & Hk & Hv). apply elem_of_cons in Hd as [->|Hd]; [by eexists|].
      destruct (proj2 Ha) as (v & Ev & Hv'); [by exists d|]. specialize (Hold v Ev). lia.
  - transitivity (∃ v, t !! k = Some v ∧ now' < v).
    + destruct (t !! k) as [v|]; [|done]. destruct (decide (nc_now c < v)); [done|].
      split; intros (v' & ? & ?); simplify_eq; lia.
    + rewrite Ha. split; intros (d & Hd & Hk & Hv); exists d; (split; [|done]).
      * by right.
      * apply elem_of_cons in Hd as [->|Hd]; [by destruct Hne|done].
Qed.

Lemma log_refuses c log :
  List.existsb (λ d, bool_decide (nc_key d = nc_key c) && (nc_now c <? nc_until d)) log = true ↔
  ∃ d, d ∈ log ∧ nc_key d = nc_key c ∧ nc_now c < nc_until d.
Proof.
  rewrite existsb_exists. split; intros (d & Hd & Hk); exists d; (split; [by apply list_elem_of_In|]).
  - apply andb_true_iff in Hk as [Hk Hv]. reflect_bools. split; [done|lia].
  - destruct Hk as [Hk Hv]. rewrite bool_decide_true by done. cbn. lia.
Qed.

Lemma outcomes_agree calls t log now :
  StronglySorted (λ a b, nc_now a ≤ nc_now b) calls → Forall (λ c, now ≤ nc_now c) calls → agree now t log →
  table_outcomes calls t = log_outcomes calls log.
Proof.
  intros Hs. revert t log now. induction Hs as [|c calls Hs IH Hc]; intros t log now Hn Ha; [done|].
  apply Forall_cons in Hn as [Hn _]. apply (agree_later now (nc_now c)) in Ha; [|done]. cbn [table_outcomes log_outcomes].
  pose proof (nonce_insert_spec (nc_signer c) (nc_nonce c) (nc_until c) (nc_now c) t) as Hspec.
  pose proof (log_refuses c log) as Hl. rewrite <- (Ha (nc_key c) (nc_now c)) in Hl by lia.
  destruct (nonce_insert _ _ _ _ _) as [t' []]; destruct Hspec as [Hold Ht].
  - destruct (existsb _ log).
    + destruct (proj1 Hl eq_refl) as (v & Ev & Hv). specialize (Hold v Ev). lia.
    + f_equal. apply (IH _ _ (nc_now c)); [done|]. by apply (agree_insert c t).
  - rewrite (proj2 Hl) by done. f_equal. apply (IH _ _ (nc_now c)); [done|]. by apply (agree_prune _ t).
Qed.

(** C36: over calls whose clock does not go back, the nonce table, which
    forgets a nonce once it expires, answers exactly like a log that keeps
    every quote ever accepted: a call is refused if and only if an accepted
    quote of the same signer and nonce is still valid. *)
Theorem nonce_table_refines_log calls :
  StronglySorted (λ a b, nc_now a ≤ nc_now b) calls → table_outcomes calls ∅ = log_outcomes calls [].
Proof.
  intros Hs. destruct calls as [|c calls]; [done|]. apply (outcomes_agree _ _ _ (nc_now c)); [done| |].
  - apply StronglySorted_inv in Hs as [_ Hc]. by constructor.
  - intros k now' _. split; [intros (v & Hv & _); by rewrite lookup_empty in Hv|intros (d & Hd & _); set_solver].
Qed.

Lemma nonce_table_refines_log_witness :
  let calls := [mkCall (demo_addr 1) 7 20 10; mkCall (demo_addr 1) 7 30 15; mkCall (demo_addr 1) 7 40 25] in
  table_outcomes calls ∅ = [Inserted; DuplicateKey; Inserted] ∧ table_outcomes calls ∅ = log_outcomes calls [].
Proof.
  split; [vm_compute; reflexivity|]. apply nonce_table_refines_log. repeat constructor; cbn; lia.
Defined.

(** * Runs *)

(** The worlds a run goes through, its latest time, the accounts the indexer
    ever reports, and the requests made. *)
Definition worlds (w : World) (ts : list QuotingTask) : list World :=
  w :: omap (λ t, match t with WorldMoves w' => Some w' | _ => None end) ts.

Definition latest (ws : list World) : Z := foldr (λ w m, Z.max (w_now_ms w) m) 0 ws.

Definition reported (ws : list World) (id : ObjectId) (a : Account) : Prop :=
  ∃ w, w ∈ ws ∧ ix_account (w_indexer w) id = Ok (Some a).

Definition requested (ts : list QuotingTask) (n : nat) (rid : rstring) (side : Side) (sp : BucketSpec) (amount : Z) : Prop :=
  ∃ polls, RetailRFQ polls n rid side sp amount ∈ ts.

Lemma latest_ge ws w : w ∈ ws → w_now_ms w ≤ latest ws.
Proof.
  induction ws as [|w' ws IH]; intros Hw; [set_solver|].
  change (latest (w' :: ws)) with (Z.max (w_now_ms w') (latest ws)).
  apply elem_of_cons in Hw as [->|Hw]; [lia|]. specialize (IH Hw). lia.
Qed.

Lemma world_in_ok ws w : w ∈ ws → world_ok (latest ws) (reported ws) w.
Proof. intros Hw. split; [by apply latest_ge|]. intros id a Ha. by exists w. Qed.

Section runs.
Context `{BcsCrate, CryptoCrates, DashMapCrate}.
Variable cfg : Config.
Variable cap : nat.
Variable w : World.
Variable ts : list QuotingTask.

Abbreviation Inv := (qinv (latest (worlds w ts)) cap cfg (reported (worlds w ts)) (requested ts)).

Lemma task_prog_quiet t :
  t ∈ ts → quiet Inv (task_prog cfg t).
Proof.
  intros Ht. destruct t; cbn [task_prog].
  - apply quiet_retail_open.
  - apply quiet_retail_write.
  - apply quiet_retail_close.
  - apply quiet_subscribe_buckets.
  - apply quiet_rfq_request. by eexists.
  - apply quiet_bulk_view_request.
  - apply quiet_spawned_refresh.
  - apply quiet_seq; [apply quiet_mm_open|intros; apply quiet_ret].
  - apply quiet_mm_frame.
  - apply quiet_seq; [apply quiet_mm_write|intros; apply quiet_ret].
  - apply quiet_mm_close.
  - apply quiet_world, world_in_ok. right. apply list_elem_of_omap. by eexists.
Qed.

Lemma served schedule : holding Inv (serve cfg cap w ts schedule).1 (serve cfg cap w ts schedule).2.
Proof.
  unfold serve. destruct (sched_within_sched retail_fits schedule (task_prog cfg <$> ts) (with_global_rfq_cap cap w)) as [l ->].
  apply holding_sched, holding_start; [apply qinv_boot, world_in_ok; by left|].
  apply Forall_fmap, Forall_forall. intros t Ht. by apply task_prog_quiet.
Qed.

Lemma served_inv schedule : ∃ g, Inv (serve cfg cap w ts schedule).2 g.
Proof. eapply holding_any, served. Qed.

Lemma served_fits schedule n : (retail_pending (serve cfg cap w ts schedule).2 n ≤ retail_capacity)%nat.
Proof. revert n. apply retail_fits_iff. by apply sched_within_fits. Qed.

Lemma served_sends schedule : Forall (each one_message) (serve cfg cap w ts schedule).1.
Proof.
  unfold serve. destruct (sched_within_sched retail_fits schedule (task_prog cfg <$> ts) (with_global_rfq_cap cap w)) as [l ->].
  apply sched_each, Forall_fmap, Forall_forall. intros t _. apply sends_task_prog.
Qed.

Lemma move_holding c c' : move c c' → holding Inv c.1 c.2 → holding Inv c'.1 c'.2.
Proof.
  intros Hm Hh. destruct Hm as [i p tasks s Hi _|n tasks s]; cbn [fst snd] in *.
  - by apply holding_step.
  - destruct Hh as (gs & Hs & Ht). exists gs. split; [|done].
    destruct (quiet_retail_write (latest (worlds w ts)) cap cfg (reported (worlds w ts)) (requested ts) n (total gs) s ∅)
      as (g & Hg & ->).
    + by rewrite (right_id_L ∅ (⊎)).
    + by rewrite (right_id_L ∅ (⊎)) in Hg.
Qed.

Lemma moves_holding c c' : rtc move c c' → holding Inv c.1 c.2 → holding Inv c'.1 c'.2.
Proof. induction 1; eauto using move_holding. Qed.
End runs.

Section guarantees.
Context `{BcsCrate, CryptoCrates, DashMapCrate}.

(** C37: under every interleaving, a response sent to a session answers a
    request made on that session, for its spec and amount, with at least one
    quote, and every quote in it is for that spec and amount, with routing,
    named after the maker that sent it, and signed over its own bytes by a key
    the indexer reported for that maker; the quotes are best first for the
    side that asked: by premium, then by reputation.  (Expiry, the queue bound
    and invalidation are decided by [validate_quote_decides], and can change
    before the response is read.) *)
Theorem responses_valid_and_ranked cfg cap w ts schedule n rid sp b amount quotes :
  (n, RFQResponse rid sp b amount quotes) ∈ retail_tx (serve cfg cap w ts schedule).2 →
  quotes ≠ [] ∧ Forall (entry_ok cfg (reported (worlds w ts)) sp amount) quotes ∧
  ∃ side, requested ts n rid side sp amount ∧ StronglySorted (ranked side) quotes.
Proof.
  intros Hin. destruct (served_inv cfg cap w ts schedule) as [g Hg]. exact (qi_responses _ _ _ _ _ _ _ Hg _ Hin).
Qed.

Lemma quote_tokens_split l i e :
  l !! i = Some e → quote_tokens l = {[+ entry_token e +]} ⊎ (quote_tokens (take i l) ⊎ quote_tokens (drop (S i) l)).
Proof.
  intros Hi. rewrite <- (take_drop_middle l i e Hi) at 1. rewrite quote_tokens_app.
  change (quote_tokens (e :: drop (S i) l)) with ({[+ entry_token e +]} ⊎ quote_tokens (drop (S i) l)).
  rewrite !(assoc_L (⊎)). f_equal. apply (comm_L (⊎)).
Qed.

Lemma quote_tokens_elem l i e : l !! i = Some e → entry_token e ∈ quote_tokens l.
Proof. intros Hi. rewrite (quote_tokens_split l i e Hi). multiset_solver. Qed.

Lemma quote_tokens_twice l i j e e' :
  (i < j)%nat → l !! i = Some e → l !! j = Some e' → entry_token e = entry_token e' →
  (2 ≤ multiplicity (entry_token e) (quote_tokens l))%nat.
Proof.
  intros Hij Hi Hj E. rewrite (quote_tokens_split l i e Hi), !multiplicity_disj_union, mult_self.
  assert (entry_token e' ∈ quote_tokens (drop (S i) l)) as Hin.
  { apply (quote_tokens_elem _ (j - S i)). rewrite lookup_drop. rewrite <- Hj. f_equal. lia. }
  rewrite <- E, elem_of_multiplicity in Hin. lia.
Qed.

(** C38: among all the quotes ever sent, under every interleaving, no two that
    stay valid past the end of the run have the same signer and nonce: a
    maker's quote is never shown twice, to one client or to two. *)
Theorem sent_quotes_unique cfg cap w ts schedule i j e e' :
  let sent := sent_quotes (serve cfg cap w ts schedule).2 in
  sent !! i = Some e → sent !! j = Some e' →
  signer_id (eq_quote e) = signer_id (eq_quote e') → nonce (eq_quote e) = nonce (eq_quote e') →
  latest (worlds w ts) < valid_until_ms (eq_quote e) → latest (worlds w ts) < valid_until_ms (eq_quote e') →
  i = j.
Proof.
  intros sent Hi Hj Es En Hv Hv'. destruct (served_inv cfg cap w ts schedule) as [g Hg].
  assert (entry_token e = entry_token e') as Et.
  { assert (∀ k x, sent !! k = Some x → latest (worlds w ts) < valid_until_ms (eq_quote x) →
      nonces (serve cfg cap w ts schedule).2 !! (signer_id (eq_quote x), nonce (eq_quote x)) =
      Some (valid_until_ms (eq_quote x))) as Hlive.
    { intros k x Hk Hx. apply (qi_nonces _ _ _ _ _ _ _ Hg); [done|]. unfold accepted.
      apply quote_tokens_elem in Hk. unfold entry_token in Hk. multiset_solver. }
    pose proof (Hlive i e Hi Hv) as L1. pose proof (Hlive j e' Hj Hv') as L2. rewrite Es, En, L2 in L1.
    injection L1 as L1. unfold entry_token. congruence. }
  assert (∀ a b x y, (a < b)%nat → sent !! a = Some x → sent !! b = Some y → entry_token x = entry_token y →
    latest (worlds w ts) < valid_until_ms (eq_quote x) → False) as Hno.
  { intros a b x y Hab Ha Hb E Hx. pose proof (quote_tokens_twice sent a b x y Hab Ha Hb E) as H2.
    pose proof (qi_unique _ _ _ _ _ _ _ Hg (signer_id (eq_quote x)) (nonce (eq_quote x)) _ Hx) as H1'.
    unfold accepted in H1'. rewrite multiplicity_disj_union in H1'. unfold entry_token in H2. unfold sent in H2. lia. }
  destruct (lt_eq_lt_dec i j) as [[Hlt|]|Hlt]; [exfalso; by eapply (Hno i j)|done|exfalso; by eapply (Hno j i)].
Qed.

(** C39: at every point of every interleaving the permits of the service and
    of each session stay within their caps, and no session has more than the
    capacity of its channel waiting to be written.  From that point the tasks
    can all run to their end, whatever the schedule did before, provided the
    clients read their sockets; and once all have run, every permit is back
    and no refresh is claimed. *)
Theorem permits_return cfg cap w ts schedule :
  let '(tasks, s) := serve cfg cap w ts schedule in
  (rfq_global_inflight s ≤ cap)%nat ∧
  (∀ n p, session_inflight s !! n = Some p → (p ≤ max_inflight_rfqs_per_session cfg)%nat) ∧
  (∀ n, (retail_pending s n ≤ retail_capacity)%nat) ∧
  (∃ fin, rtc move (tasks, s) fin ∧ Forall returned fin.1) ∧
  ∀ fin, rtc move (tasks, s) fin → Forall returned fin.1 →
    rfq_global_inflight fin.2 = cap ∧
    (∀ n p, session_inflight fin.2 !! n = Some p → p = max_inflight_rfqs_per_session cfg) ∧
    bulk_view_refreshing fin.2 = ∅.
Proof.
  pose proof (served cfg cap w ts schedule) as Hh. pose proof (served_fits cfg cap w ts schedule) as Hf.
  pose proof (served_sends cfg cap w ts schedule) as Hsends.
  destruct (serve cfg cap w ts schedule) as [tasks s]. cbn [fst snd] in *. destruct (holding_any _ _ _ Hh) as [g Hg]. split_and!.
  - pose proof (qi_global _ _ _ _ _ _ _ Hg). lia.
  - intros n p Hp. pose proof (qi_session _ _ _ _ _ _ _ Hg n) as Hn. rewrite Hp in Hn. lia.
  - done.
  - by apply tasks_complete.
  - intros fin Hm Hr. pose proof (holding_end _ _ _ (moves_holding _ _ _ _ _ _ Hm Hh) Hr) as Hback. split_and!.
    + pose proof (qi_global _ _ _ _ _ _ _ Hback) as Hp. rewrite multiplicity_empty in Hp. lia.
    + intros n p Hp. pose proof (qi_session _ _ _ _ _ _ _ Hback n) as Hn. rewrite Hp, multiplicity_empty in Hn. lia.
    + apply set_eq. intros k. pose proof (qi_claims _ _ _ _ _ _ _ Hback k) as Hk. rewrite multiplicity_empty in Hk.
      destruct (bool_decide (k ∈ _)) eqn:Ek in Hk; [done|]. reflect_bools. set_solver.
Qed.
End guarantees.

Lemma responses_valid_and_ranked_witness :
  demo_quotes ≠ [] ∧
  Forall (entry_ok demo_config (reported (worlds (demo_world 1000) demo_tasks)) demo_spec 500) demo_quotes ∧
  ∃ side, requested demo_tasks 0 (str "r1") side demo_spec 500 ∧ StronglySorted (ranked side) demo_quotes.
Proof.
  pose proof (responses_valid_and_ranked demo_config 3 (demo_world 1000) demo_tasks demo_schedule 0 (str "r1") demo_spec
    None 500 demo_quotes) as Hr.
  apply Hr. rewrite demo_response. left.
Defined.

Lemma sent_quotes_unique_witness :
  ∃ e, sent_quotes demo_served.2 !! 1%nat = Some e ∧ (1 = 1)%nat.
Proof.
  assert (sent_quotes demo_served.2 = demo_quotes) as E by (unfold sent_quotes; by rewrite demo_response).
  set (e := mkEntry (mq_quote (demo_mm_quote 1 40 30)) (replicate 64 7) (demo_addr 1) f64_zero).
  exists e. split; [by rewrite E|].
  pose proof (sent_quotes_unique demo_config 3 (demo_world 1000) demo_tasks demo_schedule 1 1 e e) as Hu.
  cbv zeta in Hu. rewrite E in Hu. apply Hu; first [reflexivity|vm_compute; reflexivity].
Defined.

Lemma permits_return_witness :
  rfq_global_inflight demo_served.2 = 3%nat.
Proof.
  pose proof (permits_return demo_config 3 (demo_world 1000) demo_tasks demo_schedule) as Hp.
  pose proof demo_returned as Hr.
  revert Hp Hr. generalize demo_served. intros [tasks s] Hp Hr. destruct Hp as (_ & _ & _ & _ & Hback).
  apply (Hback (tasks, s)); [apply rtc_refl|].
  apply Forall_forall. intros p Hin. cbn [fst] in Hr, Hin.
  rewrite forallb_forall in Hr. specialize (Hr p (proj1 (list_elem_of_In _ _) Hin)). by destruct p.
Defined.

(** * A client that does not read keeps its permits

    Session 0 asks for an unknown spec until its channel is full, then for a
    quote, and reads nothing: its task waits for room with the only permit of
    the service, and session 1 is refused.  Once the client reads, or leaves,
    the permit is back. *)
Definition bad_spec : BucketSpec := mkBucketSpec (str "0xb::b::BASE") (str "0xc::c::QUOTE") 6000001 5 2 false.

Definition unread (after : list QuotingTask) : QState :=
  (serve demo_config 1 (demo_world 1000)
    ([RetailOpen 0; RetailOpen 1] ++ replicate 64 (RetailRFQ 4 0 (str "e") Writer bad_spec 500) ++
     [RetailRFQ 4 0 (str "r1") Writer demo_spec 500] ++ after ++ [RetailRFQ 4 1 (str "r2") Writer demo_spec 500])
    (flat_map (λ i, replicate 60 i) (seq 0 (67 + length after)) ++ replicate 60 66%nat ++
     replicate 60 (67 + length after)%nat)).2.

Lemma unread_client_keeps_permits :
  (rfq_global_inflight (unread []), drop 64 (retail_tx (unread []))) =
    (0%nat, [(1%nat, RetailError (Some (str "r2")) (str "rate_limited"))]) ∧
  Forall (λ after, (rfq_global_inflight (unread after), drop 64 (retail_tx (unread after))) =
      (1%nat, [(0%nat, RetailError (Some (str "r1")) (str "no_quotes")); (1%nat, RetailError (Some (str "r2")) (str "no_quotes"))]))
    [[RetailWrite 0]; [RetailClose 0]].
Proof. split; [vm_compute; reflexivity|]. repeat constructor; vm_compute; reflexivity. Qed.

(** * A resolved bucket is never read again

    A spec resolved to a bucket stays resolved to that bucket as it was. *)
Lemma resolve_cached sp b s :
  hits s !! sp = Some b → run (resolve sp) s = (s, Ok (Exists b)).
Proof. intros Hb. unfold resolve. cbn [run mbind prog_mbind prog_bind read act fst snd]. by rewrite Hb. Qed.

Definition demo_bucket (invalidated : bool) : Bucket :=
  mkBucket (demo_addr 20) (str "0xb::b::BASE") (str "0xc::c::QUOTE") (str "0xd::d::OPT") 5 2 6000000 0 0 false
    invalidated (str "call") None None.

Definition resolved_world (invalidated : bool) : World := mkWorld 1000 0 (demo_indexer [demo_bucket invalidated] []).

(** The bucket is invalidated after its spec was resolved: a new request is
    still served its quotes, where a fresh service refuses it. *)
Definition asked_after_invalidation (first : list QuotingTask) : list ServiceToRetail :=
  (retail_tx (serve demo_config 3 (resolved_world false)
    (first ++
     [WorldMoves (resolved_world true); MmOpen (demo_hello 1) [1] (replicate 64 7); RetailOpen 0;
      RetailRFQ 4 0 (str "r2") Writer demo_spec 500; MmFrame (demo_addr 1) (MmQuote (str "r2") (demo_mm_quote 1 40 30))])
    (let n := length first in
     flat_map (λ i, replicate 60 i) (seq 0 n) ++ replicate 5 n ++ replicate 5 (n + 1)%nat ++ replicate 5 (n + 2)%nat ++
     replicate (if (n =? 0)%nat then 60 else 11)%nat (n + 3)%nat ++ replicate 5 (n + 4)%nat ++
     replicate 60 (n + 3)%nat)).2).*2.

Lemma invalidated_bucket_still_quoted :
  asked_after_invalidation [] = [RetailError (Some (str "r2")) (str "bucket_invalidated")] ∧
  asked_after_invalidation [RetailOpen 0; RetailRFQ 1 0 (str "r1") Writer demo_spec 500] =
    [RetailError (Some (str "r1")) (str "no_quotes");
     RFQResponse (str "r2") demo_spec (Some (demo_addr 20)) 500
       [mkEntry (mq_quote (demo_mm_quote 1 40 30)) (replicate 64 7) (demo_addr 1) f64_zero]].
Proof. split; vm_compute; reflexivity. Qed.

(** * Every request waits out its window

    While [pending_rfqs] keeps the sender of a request, collecting takes every
    poll of the window, whoever has answered. *)
Lemma collect_waits polls ch out s m :
  matchers s !! ch = Some m → (0 < mt_senders m)%nat → steps (collect polls ch out) s = polls.
Proof.
  revert out s m. induction polls as [|polls IH]; intros out s m Hm Hs; [done|].
  cbn [collect]. unfold matcher_recv, mbind, prog_mbind. cbn [prog_bind act steps]. rewrite Hm. unfold queue_recv.
  assert ((mt_senders m =? 0)%nat = false) as E by (apply Nat.eqb_neq; lia).
  destruct (q_jobs (mt_queue m)) as [|r rs]; cbn [fst snd].
  - rewrite E. f_equal. by apply (IH _ _ m).
  - assert (∀ q, matchers (update_matcher ch (λ m, mkMatcher q (mt_capacity m) (mt_senders m)) s) !! ch =
      Some (mkMatcher q (mt_capacity m) (mt_senders m))) as Hm'.
    { intros q. cbn [update_matcher set_matchers matchers]. by rewrite list_lookup_alter_eq, Hm. }
    destruct (q_waiting (mt_queue m)); destruct r; cbn [fst snd]; f_equal; (eapply IH; [apply Hm'|done]).
Qed.

(** * A request id is the client's

    Two sessions ask under the same id: the maker's answers to both reach the
    later request only. *)
Definition same_id : list (nat * ServiceToRetail) :=
  retail_tx (serve demo_config 3 (demo_world 1000)
    [MmOpen (demo_hello 1) [1] (replicate 64 7); RetailOpen 0; RetailOpen 1;
     RetailRFQ 4 0 (str "1") Writer demo_spec 500; RetailRFQ 4 1 (str "1") Writer demo_spec 500;
     MmFrame (demo_addr 1) (MmQuote (str "1") (demo_mm_quote 1 40 30));
     MmFrame (demo_addr 1) (MmQuote (str "1") (demo_mm_quote 1 41 30))]
    (replicate 5 0 ++ [1; 2] ++ replicate 13 3 ++ replicate 13 4 ++ replicate 5 5 ++ replicate 5 6 ++ replicate 60 3 ++
     replicate 60 4)%nat).2.

Lemma same_id_starves_the_first :
  (λ m, (m.1, length (message_quotes m.2))) <$> same_id = [(0, 0); (1, 2)]%nat.
Proof. vm_compute. reflexivity. Qed.

(** * A reconnection is unregistered by the connection it replaces *)
Definition reconnected : QState :=
  (serve demo_config 3 (demo_world 1000)
    [MmOpen (demo_hello 1) [1] (replicate 64 7); MmOpen (demo_hello 1) [2] (replicate 64 7); MmClose (demo_addr 1) 0]
    (replicate 5 0 ++ replicate 5 1 ++ replicate 5 2)%nat).2.

Lemma reconnection_unregistered :
  mms reconnected !! demo_addr 1 = None ∧ q_open <$> mm_channels reconnected = [false; true].
Proof. split; vm_compute; reflexivity. Qed.

(** * Concurrent reconciliations count an execution twice *)
Definition one_execution : QState := with_global_rfq_cap 1 (mkWorld 1000 0 (demo_indexer [] [(7, 500)])).

Definition reconciled (schedule : list nat) : Z :=
  quotes_executed (snapshot (demo_addr 1)
    (reputation (sched schedule [record_fills (demo_addr 1); record_fills (demo_addr 1)] one_execution).2)).

Lemma execution_counted_twice :
  reconciled [0; 0; 0; 0; 1; 1; 1; 1]%nat = 1 ∧ reconciled [0; 0; 1; 1; 0; 0; 1; 1]%nat = 2.
Proof. split; vm_compute; reflexivity. Qed.

(** * No revert is ever counted *)
Section reverts.
Context `{BcsCrate, CryptoCrates, DashMapCrate}.

Lemma reverts_never_counted cfg cap w ts schedule id :
  quotes_reverted (snapshot id (reputation (serve cfg cap w ts schedule).2)) = 0.
Proof.
  destruct (served_inv cfg cap w ts schedule) as [g Hg]. unfold snapshot.
  destruct (reputation _ !! id) as [st|] eqn:E; [|done]. by apply (qi_reputation _ _ _ _ _ _ _ Hg id).
Qed.
End reverts.
