(* ===== verification/SuiTx.v ===== *)
(** The transactions of the Sui SDK ([sui_types::transaction]), reduced to what
    the policies of the services look at. *)

From S2P Require Import Prelude RustStr ExchangeTypes.

Abbreviation ObjectID := SuiAddress.

(** * Transactions *)

Inductive Argument := GasCoin | Input (i : nat) | Result (i : nat) | NestedResult (i j : nat).

Inductive ObjectArg := ImmOrOwnedObject (id : ObjectID) | SharedObject (id : ObjectID) | Receiving (id : ObjectID).

Inductive CallArg :=
  | Pure (bytes : list Z)
  | Object (o : ObjectArg)
  | FundsWithdrawal (amount : Z) (coin_type : rstring).

Record ProgrammableMoveCall := mkMoveCall {
  package : ObjectID;
  module : rstring;
  function : rstring;
  type_arguments : list rstring;
  arguments : list Argument;
}.

Inductive Command :=
  | MoveCall (c : ProgrammableMoveCall)
  | TransferObjects (objects : list Argument) (recipient : Argument)
  | SplitCoins (coin : Argument) (amounts : list Argument)
  | MergeCoins (target : Argument) (sources : list Argument)
  | MakeMoveVec (ty : option rstring) (elems : list Argument)
  | Publish
  | Upgrade.

Record ProgrammableTransaction := mkPT { inputs : list CallArg; commands : list Command }.

(** [TransactionData]; [kind] is [None] for what is not programmable. *)
Record TransactionData := mkTx { sender : SuiAddress; kind : option ProgrammableTransaction }.

(** The parsers and renderings of the SDK. *)
Class SuiSdk := {
  sui_address_from_str : rstring → option SuiAddress;
  object_id_from_hex_literal : rstring → option ObjectID;
  address_text : SuiAddress → rstring;
  address_from_bcs : list Z → option SuiAddress;
  u64_from_bcs : list Z → option Z;
  transaction_from_bcs : list Z → option TransactionData;
  transaction_digest_text : TransactionData → rstring;
}.

(** [ObjectID::from_hex_literal("0x..")] of a small literal. *)
Definition small_id (n : Z) : ObjectID := mkSuiAddress (replicate 31 0 ++ [n]).

Definition SUI_CLOCK_OBJECT_ID : ObjectID := small_id 6.
Definition framework : ObjectID := small_id 2.
Definition move_stdlib : ObjectID := small_id 1.

Section describe.
Context `{SuiSdk}.

(** [crates/sui-tx/src/tx/template.rs]: the summary of a transaction. *)
Definition describe_command (c : Command) : rstring :=
  match c with
  | MoveCall c =>
      address_text (package c) ++ str "::" ++ module c ++ str "::" ++ function c ++ str "<" ++
      u64_to_string (Z.of_nat (length (type_arguments c))) ++ str ">"
  | SplitCoins _ _ => str "SplitCoins"
  | MergeCoins _ _ => str "MergeCoins"
  | TransferObjects _ _ => str "TransferObjects"
  | MakeMoveVec _ _ => str "MakeMoveVec"
  | Publish => str "Publish"
  | Upgrade => str "Upgrade"
  end.

Definition describe_ptb (pt : ProgrammableTransaction) : rstring :=
  match describe_command <$> commands pt with
  | [] => []
  | d :: ds => foldl (λ acc d, acc ++ str "; " ++ d) d ds
  end.
End describe.
