(* ===== verification/HedgePolicy.v ===== *)
(** [services/hedge-signer/src/policy.rs]: which Sui transactions the signer
    endorses.  A denial names the check that failed, its text is not modelled. *)

From S2P Require Import Prelude RustStr ExchangeTypes Crates SuiTx.

(** * Policies *)

Inductive Tier := Strict.

Definition Tier_as_str (t : Tier) : rstring := match t with Strict => str "strict" end.

Inductive DenyReason :=
  | PublishOrUpgrade
  | SharedNotAllowed (id : ObjectID)
  | CallNotAllowed (package : ObjectID) (module function : rstring)
  | RecipientNotVault (a : SuiAddress)
  | RecipientNotPure
  | NoRecognizableCalls
  | BluefinUnpinned
  | SharedNotEds (id : ObjectID)
  | DepositCall (package : ObjectID) (module function : rstring)
  | DepositTransfer
  | DepositCount (n : nat)
  | DepositTarget
  | DepositTargetNotParent (a : SuiAddress)
  | UnknownKind (kind : rstring)
  | NotParsed
  | WrongType (ty : rstring)
  | NotParent (a : SuiAddress)
  | NotPositive
  | NoCuratorWallet
  | NotCurator (a : SuiAddress)
  | NotPinned (id : ObjectID)
  | NotProgrammable.

Inductive Decision := Approve (tier : Tier) | Deny (reason : DenyReason).

Record BluefinVaultConfig := mkBluefinConfig {
  ids_id : option rstring;
  eds_id : option rstring;
  package_id : option rstring;
}.

Record VaultConfig := mkVaultConfig {
  vc_vault_id : rstring;
  vc_external_account : rstring;
  vc_vault_address : rstring;
  vc_curator_pubkey_b64 : option rstring;
  vc_allowed_shared : list rstring;
  vc_curator_wallet : option rstring;
  vc_bluefin : option BluefinVaultConfig;
}.

Record VaultPolicy := mkPolicy {
  vault_id : rstring;
  external_account : SuiAddress;
  vault_address : SuiAddress;
  trading_vault_package : ObjectID;
  allowed_shared : gset ObjectID;
  allowed_shared_list : list ObjectID;
  curator_pubkey_b64 : option rstring;
  curator_wallet : option SuiAddress;
  bluefin_ids : option ObjectID;
  bluefin_eds : option ObjectID;
  bluefin_package : option ObjectID;
}.

(** An optional field, parsed when present; an error when it does not parse. *)
Definition transpose {A} (parse : rstring → option A) (o : option rstring) : option (option A) :=
  match o with Some s => Some <$> parse s | None => Some None end.

Section policy.
Context `{SuiSdk}.

(** [None] for an error at boot. *)
Definition from_config (cfg : VaultConfig) (trading_vault_package : ObjectID) : option VaultPolicy :=
  vault_object ← object_id_from_hex_literal (vc_vault_id cfg);
  external_account ← sui_address_from_str (vc_external_account cfg);
  vault_address ← sui_address_from_str (vc_vault_address cfg);
  allowed_shared_list ← mapM object_id_from_hex_literal (vc_allowed_shared cfg);
  let allowed_shared := {[vault_object]} ∪ list_to_set allowed_shared_list in
  curator_wallet ← transpose sui_address_from_str (vc_curator_wallet cfg);
  bluefin_ids ← transpose object_id_from_hex_literal (vc_bluefin cfg ≫= ids_id);
  bluefin_eds ← transpose object_id_from_hex_literal (vc_bluefin cfg ≫= eds_id);
  bluefin_package ← transpose object_id_from_hex_literal (vc_bluefin cfg ≫= package_id);
  Some (mkPolicy (vc_vault_id cfg) external_account vault_address trading_vault_package allowed_shared
    allowed_shared_list (vc_curator_pubkey_b64 cfg) curator_wallet bluefin_ids bluefin_eds bluefin_package).

Inductive CallKind := Neutral | ReturnExternal | Unknown.

Definition kind_of (p : VaultPolicy) (c : ProgrammableMoveCall) : CallKind :=
  if bool_decide (package c = framework) && bool_decide (module c = str "coin") then Neutral
  else if bool_decide (package c = move_stdlib) then Neutral
  else if bool_decide (package c = trading_vault_package p) && bool_decide (module c = str "vault")
          && bool_decide (function c = str "return_external") then ReturnExternal
  else Unknown.

Inductive Recipient := RPure (a : SuiAddress) | RMalformed | RNotPure.

Definition resolve_recipient (pt : ProgrammableTransaction) (arg : Argument) : Recipient :=
  match arg with
  | Input i =>
      match inputs pt !! i with
      | Some (Pure bytes) => match address_from_bcs bytes with Some a => RPure a | None => RMalformed end
      | _ => RNotPure
      end
  | _ => RNotPure
  end.

Definition is_deployment (c : Command) : bool := match c with Publish | Upgrade => true | _ => false end.

Definition calls_of (pt : ProgrammableTransaction) : list ProgrammableMoveCall :=
  omap (λ c, match c with MoveCall c => Some c | _ => None end) (commands pt).

(** The shared inputs outside an allowlist, in order. *)
Definition foreign_shared (allowed : ObjectID → bool) (pt : ProgrammableTransaction) : list ObjectID :=
  omap (λ i, match i with
             | Object (SharedObject id) => if allowed id then None else Some id
             | _ => None
             end) (inputs pt).

(** Why a transfer is refused. *)
Definition transfer_denied (p : VaultPolicy) (pt : ProgrammableTransaction) (c : Command) : option DenyReason :=
  match c with
  | TransferObjects _ recipient =>
      match resolve_recipient pt recipient with
      | RPure a =>
          if bool_decide (a = vault_address p) || bool_decide (a = external_account p) then None
          else Some (RecipientNotVault a)
      | RMalformed | RNotPure => Some RecipientNotPure
      end
  | _ => None
  end.

Definition call_denied (p : VaultPolicy) (c : ProgrammableMoveCall) : option DenyReason :=
  match kind_of p c with
  | Unknown => Some (CallNotAllowed (package c) (module c) (function c))
  | _ => None
  end.

Definition is_transfer (c : Command) : bool := match c with TransferObjects _ _ => true | _ => false end.

Definition classify (p : VaultPolicy) (pt : ProgrammableTransaction) : Decision :=
  if existsb is_deployment (commands pt) then Deny PublishOrUpgrade else
  let calls := calls_of pt in
  match foreign_shared (λ id, bool_decide (id = SUI_CLOCK_OBJECT_ID) || bool_decide (id ∈ allowed_shared p)) pt with
  | id :: _ => Deny (SharedNotAllowed id)
  | [] =>
      match omap (call_denied p) calls with
      | reason :: _ => Deny reason
      | [] =>
          match omap (transfer_denied p pt) (commands pt) with
          | reason :: _ => Deny reason
          | [] =>
              if match calls with [] => true | _ => false end && negb (existsb is_transfer (commands pt))
              then Deny NoRecognizableCalls
              else Approve Strict
          end
      end
  end.
End policy.
