(* ===== verification/BluefinPolicy.v ===== *)
(** [services/hedge-signer/src/policy/bluefin.rs]: which payloads the signer
    contributes a threshold-signature share to, and the digest that is signed.
    JSON text is parsed by [serde_json]: [json_from_slice] is the document of
    the bytes, with the members of an object in order and repeated keys
    kept. *)

From S2P Require Import Prelude RustStr ExchangeTypes Crates Json SuiTx HedgePolicy.

Class JsonCrate := { json_from_slice : list Z → option Value }.

Definition AUTHORIZE_TYPE : rstring := str "Bluefin Pro Authorize Account".
Definition WITHDRAW_TYPE : rstring := str "Bluefin Pro Withdrawal".
Definition INTENT_PERSONAL_MESSAGE : list Z := [3; 0; 0].
Definition INTENT_TRANSACTION_DATA : list Z := [0; 0; 0].

Inductive PayloadKind := Login | AuthorizeAccount | Withdraw | SuiTx.

#[export] Instance PayloadKind_eq_dec : EqDecision PayloadKind.
Proof. solve_decision. Defined.

Definition PayloadKind_parse (s : rstring) : option PayloadKind :=
  if bool_decide (s = str "login") then Some Login
  else if bool_decide (s = str "authorize_account") then Some AuthorizeAccount
  else if bool_decide (s = str "withdraw") then Some Withdraw
  else if bool_decide (s = str "sui_tx") then Some SuiTx
  else None.

Definition PayloadKind_as_str (k : PayloadKind) : rstring :=
  match k with
  | Login => str "login"
  | AuthorizeAccount => str "authorize_account"
  | Withdraw => str "withdraw"
  | SuiTx => str "sui_tx"
  end.

Record ApprovedPayload := mkApproved {
  message : list Z;
  ap_kind : PayloadKind;
  description : rstring;
  is_exit : bool;
  ap_tx_digest : option rstring;
}.

(** * Digests *)

(** The loop of [uleb128], over the bits of a [u64]: ten rounds at most. *)
Fixpoint uleb128_loop (fuel : nat) (n : Z) : list Z :=
  match fuel with
  | O => []
  | S fuel' =>
      let byte := Z.land n 127 in
      let n := Z.shiftr n 7 in
      if negb (n =? 0) then Z.lor byte 128 :: uleb128_loop fuel' n else [byte]
  end.

Definition uleb128 (n : Z) : list Z := uleb128_loop 10 n.

Section digests.
Context `{CryptoCrates}.

Definition blake2b256_parts (parts : list (list Z)) : list Z := blake2b256 (mjoin parts).

Definition personal_message_digest (message : list Z) : list Z :=
  blake2b256_parts [INTENT_PERSONAL_MESSAGE; uleb128 (len message); message].

Definition transaction_digest (tx_bytes : list Z) : list Z :=
  blake2b256_parts [INTENT_TRANSACTION_DATA; tx_bytes].
End digests.

(** * Payloads *)

Record LoginPayload := mkLogin { account_address : rstring; signed_at_millis : Z; audience : rstring }.

Record AuthorizePayload := mkAuthorize {
  au_type : rstring;
  au_ids : rstring;
  au_account : rstring;
  au_user : rstring;
  au_status : bool;
  au_salt : rstring;
  au_signed_at : rstring;
}.

Record WithdrawPayload := mkWithdraw {
  wd_type : rstring;
  wd_eds : rstring;
  wd_asset_symbol : rstring;
  wd_account : rstring;
  wd_amount : rstring;
  wd_salt : rstring;
  wd_signed_at : rstring;
}.

(** A derived [Deserialize] of a struct of required fields that denies unknown
    fields: an object with each field once, or an array of the fields in
    order. *)
Definition struct_fields (names : list rstring) (v : Value) : option (list Value) :=
  match v with
  | JObject m =>
      if forallb (λ kv, bool_decide (kv.1 ∈ names)) m && bool_decide (NoDup (m.*1))
      then mapM (λ n, assoc n m) names
      else None
  | JArray l => if (length l =? length names)%nat then Some l else None
  | _ => None
  end.

Definition as_i64 (v : Value) : option Z :=
  match v with
  | JNumber (PosInt n) => if n <=? i64_max then Some n else None
  | JNumber (NegInt n) => Some n
  | _ => None
  end.

Definition LoginPayload_deserialize (v : Value) : option LoginPayload :=
  fields ← struct_fields [str "accountAddress"; str "signedAtMillis"; str "audience"] v;
  match fields with
  | [a; t; u] => a ← as_str a; t ← as_i64 t; u ← as_str u; Some (mkLogin a t u)
  | _ => None
  end.

Definition AuthorizePayload_deserialize (v : Value) : option AuthorizePayload :=
  fields ← struct_fields
    [str "type"; str "ids"; str "account"; str "user"; str "status"; str "salt"; str "signedAt"] v;
  match fields with
  | [a; b; c; d; e; f; g] =>
      a ← as_str a; b ← as_str b; c ← as_str c; d ← as_str d; e ← as_bool e; f ← as_str f; g ← as_str g;
      Some (mkAuthorize a b c d e f g)
  | _ => None
  end.

Definition WithdrawPayload_deserialize (v : Value) : option WithdrawPayload :=
  fields ← struct_fields
    [str "type"; str "eds"; str "assetSymbol"; str "account"; str "amount"; str "salt"; str "signedAt"] v;
  match fields with
  | [a; b; c; d; e; f; g] =>
      a ← as_str a; b ← as_str b; c ← as_str c; d ← as_str d; e ← as_str e; f ← as_str f; g ← as_str g;
      Some (mkWithdraw a b c d e f g)
  | _ => None
  end.

(** * Classification *)

Section classify.
Context `{CryptoCrates, SuiSdk, JsonCrate}.

Definition parse_addr (s : rstring) : result DenyReason SuiAddress := ok_or (sui_address_from_str s) NotParsed.
Definition parse_object_id (s : rstring) : result DenyReason ObjectID := ok_or (object_id_from_hex_literal s) NotParsed.
Definition parse_u64_str (s : rstring) : result DenyReason Z := map_err (λ _, NotParsed) (parse_u64 s).

Definition touches_bluefin (p : VaultPolicy) (pt : ProgrammableTransaction) : bool :=
  match bluefin_package p with
  | None => false
  | Some pkg => existsb (λ c, match c with MoveCall c => bool_decide (package c = pkg) | _ => false end) (commands pt)
  end.

(** The deposit calls among the commands, or the first command that is
    outside the shape. *)
Fixpoint deposit_calls (pkg : ObjectID) (cs : list Command) : result DenyReason (list ProgrammableMoveCall) :=
  match cs with
  | [] => Ok []
  | c :: cs' =>
      match c with
      | MoveCall c =>
          if bool_decide (package c = pkg) && bool_decide (module c = str "exchange")
             && bool_decide (function c = str "deposit_to_asset_bank")
          then rest ← deposit_calls pkg cs'; Ok (c :: rest)
          else if bool_decide (package c = framework) && bool_decide (module c = str "coin") then deposit_calls pkg cs'
          else if bool_decide (package c = move_stdlib) then deposit_calls pkg cs'
          else Err (DepositCall (package c) (module c) (function c))
      | SplitCoins _ _ | MergeCoins _ _ | MakeMoveVec _ _ => deposit_calls pkg cs'
      | TransferObjects _ _ => Err DepositTransfer
      | Publish | Upgrade => Err PublishOrUpgrade
      end
  end.

(** A pure argument of a call, by position. *)
Definition pure_argument {A} (decode : list Z → option A) (pt : ProgrammableTransaction) (c : ProgrammableMoveCall)
    (i : nat) : option A :=
  match arguments c !! i with
  | Some (Input j) => match inputs pt !! j with Some (Pure bytes) => decode bytes | _ => None end
  | _ => None
  end.

Definition classify_bluefin_deposit (p : VaultPolicy) (parent : SuiAddress) (pt : ProgrammableTransaction)
    : result DenyReason rstring :=
  pkg ← ok_or (bluefin_package p) BluefinUnpinned;
  eds ← ok_or (bluefin_eds p) BluefinUnpinned;
  match foreign_shared (λ id, bool_decide (id = eds) || bool_decide (id = SUI_CLOCK_OBJECT_ID)) pt with
  | id :: _ => Err (SharedNotEds id)
  | [] =>
      deposits ← deposit_calls pkg (commands pt);
      match deposits with
      | [call] =>
          target ← ok_or (pure_argument address_from_bcs pt call 2) DepositTarget;
          if negb (bool_decide (target = parent)) then Err (DepositTargetNotParent target) else
          let amount := match pure_argument u64_from_bcs pt call 3 with
                        | Some a => u64_to_string a
                        | None => str "?"
                        end in
          Ok (str "bluefin deposit_to_asset_bank " ++ amount ++ str " crediting parent " ++ address_text parent)
      | _ => Err (DepositCount (length deposits))
      end
  end.

Definition classify_login (parent : SuiAddress) (payload : list Z) : result DenyReason ApprovedPayload :=
  login ← ok_or (v ← json_from_slice payload; LoginPayload_deserialize v) NotParsed;
  account ← parse_addr (account_address login);
  if negb (bool_decide (account = parent)) then Err (NotParent account)
  else if signed_at_millis login <=? 0 then Err NotPositive
  else Ok (mkApproved (personal_message_digest payload) Login
             (str "bluefin login (audience " ++ audience login ++ str ")") false None).

Definition classify_authorize (p : VaultPolicy) (parent : SuiAddress) (payload : list Z)
    : result DenyReason ApprovedPayload :=
  auth ← ok_or (v ← json_from_slice payload; AuthorizePayload_deserialize v) NotParsed;
  if negb (bool_decide (au_type auth = AUTHORIZE_TYPE)) then Err (WrongType (au_type auth)) else
  account ← parse_addr (au_account auth);
  if negb (bool_decide (account = parent)) then Err (NotParent account) else
  user ← parse_addr (au_user auth);
  curator ← ok_or (curator_wallet p) NoCuratorWallet;
  if negb (bool_decide (user = curator)) then Err (NotCurator user) else
  ids ← parse_object_id (au_ids auth);
  if match bluefin_ids p with Some pinned => negb (bool_decide (ids = pinned)) | None => false end
  then Err (NotPinned ids) else
  _ ← parse_u64_str (au_salt auth);
  _ ← parse_u64_str (au_signed_at auth);
  Ok (mkApproved (personal_message_digest payload) AuthorizeAccount
        (str "bluefin " ++ (if au_status auth then str "authorize" else str "deauthorize") ++
         str " curator wallet " ++ address_text user) false None).

Definition classify_withdraw (p : VaultPolicy) (parent : SuiAddress) (payload : list Z)
    : result DenyReason ApprovedPayload :=
  w ← ok_or (v ← json_from_slice payload; WithdrawPayload_deserialize v) NotParsed;
  if negb (bool_decide (wd_type w = WITHDRAW_TYPE)) then Err (WrongType (wd_type w)) else
  account ← parse_addr (wd_account w);
  if negb (bool_decide (account = parent)) then Err (NotParent account) else
  eds ← parse_object_id (wd_eds w);
  if match bluefin_eds p with Some pinned => negb (bool_decide (eds = pinned)) | None => false end
  then Err (NotPinned eds) else
  amount ← parse_u64_str (wd_amount w);
  _ ← parse_u64_str (wd_salt w);
  _ ← parse_u64_str (wd_signed_at w);
  Ok (mkApproved (personal_message_digest payload) Withdraw
        (str "bluefin withdraw " ++ u64_to_string amount ++ str " (e9) " ++ wd_asset_symbol w ++
         str " to parent " ++ address_text parent) true None).

Definition classify_sui_tx (p : VaultPolicy) (parent : SuiAddress) (payload : list Z)
    : result DenyReason ApprovedPayload :=
  tx ← ok_or (transaction_from_bcs payload) NotParsed;
  if negb (bool_decide (sender tx = parent)) then Err (NotParent (sender tx)) else
  pt ← ok_or (kind tx) NotProgrammable;
  let digest := Some (transaction_digest_text tx) in
  if touches_bluefin p pt then
    description ← classify_bluefin_deposit p parent pt;
    Ok (mkApproved (transaction_digest payload) SuiTx description false digest)
  else
    match classify p pt with
    | Approve Strict => Ok (mkApproved (transaction_digest payload) SuiTx (describe_ptb pt) true digest)
    | Deny reason => Err reason
    end.

Definition classify_payload (p : VaultPolicy) (parent : SuiAddress) (kind : rstring) (payload : list Z)
    : result DenyReason ApprovedPayload :=
  k ← ok_or (PayloadKind_parse kind) (UnknownKind kind);
  match k with
  | Login => classify_login parent payload
  | AuthorizeAccount => classify_authorize p parent payload
  | Withdraw => classify_withdraw p parent payload
  | SuiTx => classify_sui_tx p parent payload
  end.
End classify.
