(* ===== verification/BluefinProxy.v ===== *)
(** [services/hedge-signer/src/bluefin_proxy.rs]: the relay of venue requests.
    The exchange with the venue is a parameter. *)

From S2P Require Import Prelude RustStr Json.

Record BluefinProxyConfig := mkProxyConfig {
  auth_base_url : rstring;
  api_base_url : rstring;
  trade_base_url : rstring;
}.

Abbreviation HeaderMap := (list (rstring * list Z)).

(** A request, as the client sends it and as it goes to the venue. *)
Record OutRequest := mkOut {
  out_method : rstring;
  out_url : rstring;
  out_query : list (rstring * rstring);
  out_headers : HeaderMap;
  out_body : list Z;
}.

(** What comes back: nothing, a response whose body cannot be read, or one
    that can. *)
Inductive Upstream :=
  | SendFailed
  | BodyFailed
  | Responded (status : Z) (content_type : option rstring) (body : list Z).

Record ProxyResponse := mkResponse { rp_status : Z; rp_content_type : option rstring; rp_body : list Z }.

Definition FORWARD_HEADERS : list rstring := [str "authorization"; str "payloadsignature"; str "content-type"].

Definition ALLOWLIST : list (rstring * rstring * rstring) :=
  [(str "auth", str "POST", str "/auth/v2/token");
   (str "auth", str "PUT", str "/auth/token/refresh");
   (str "data", str "GET", str "/v1/exchange/info");
   (str "data", str "GET", str "/v1/exchange/fundingRateHistory");
   (str "data", str "GET", str "/api/v1/account");
   (str "data", str "GET", str "/api/v1/account/trades");
   (str "data", str "GET", str "/api/v1/account/transactions");
   (str "trade", str "GET", str "/api/v1/trade/openOrders");
   (str "trade", str "POST", str "/api/v1/trade/orders");
   (str "trade", str "PUT", str "/api/v1/trade/orders/cancel");
   (str "trade", str "POST", str "/api/v1/trade/withdraw");
   (str "trade", str "PUT", str "/api/v1/trade/accounts/authorize");
   (str "trade", str "PUT", str "/api/v1/trade/accounts/deauthorize")].

Definition allowed (host method path : rstring) : bool :=
  existsb (λ '(h, m, p), bool_decide (h = host) && bool_decide (m = method) && bool_decide (p = path)) ALLOWLIST.

Definition base_url (cfg : option BluefinProxyConfig) (host : rstring) : option rstring :=
  match cfg with
  | None => None
  | Some cfg =>
      if bool_decide (host = str "auth") then Some (auth_base_url cfg)
      else if bool_decide (host = str "data") then Some (api_base_url cfg)
      else if bool_decide (host = str "trade") then Some (trade_base_url cfg)
      else None
  end.

(** The status of an error; its text is not modelled. *)
Definition refuse (status : Z) : ProxyResponse := mkResponse status None [].

(** The request that goes out, or the refusal. *)
Definition forward_request (cfg : option BluefinProxyConfig) (host path : rstring) (query : list (rstring * rstring))
    (method : rstring) (headers : HeaderMap) (body : list Z) : result ProxyResponse OutRequest :=
  let path := str "/" ++ path in
  match cfg with
  | None => Err (refuse 503)
  | Some _ =>
      match base_url cfg host with
      | None => Err (refuse 403)
      | Some base =>
          if negb (allowed host method path) then Err (refuse 403) else
          Ok (mkOut method (base ++ path) query
                (omap (λ name, (name,.) <$> assoc name headers) FORWARD_HEADERS) body)
      end
  end.

(** [StatusCode::from_u16]: three digits. *)
Definition status_or_bad_gateway (status : Z) : Z := if (100 <=? status) && (status <=? 999) then status else 502.

Definition forward (send : OutRequest → Upstream) (cfg : option BluefinProxyConfig) (host path : rstring)
    (query : list (rstring * rstring)) (method : rstring) (headers : HeaderMap) (body : list Z) : ProxyResponse :=
  match forward_request cfg host path query method headers body with
  | Err r => r
  | Ok req =>
      match send req with
      | SendFailed | BodyFailed => refuse 502
      | Responded status content_type body =>
          mkResponse (status_or_bad_gateway status) (Some (default (str "application/octet-stream") content_type)) body
      end
  end.

(** A request goes out exactly for an entry of the allowlist, to the address
    configured for its host, with no header but the three. *)
Lemma forward_request_allowlisted cfg host path query method headers body :
  (∃ req, forward_request cfg host path query method headers body = Ok req) ↔
  is_Some cfg ∧ (host, method, str "/" ++ path) ∈ ALLOWLIST.
Proof.
  assert (∀ p, allowed host method p = true ↔ (host, method, p) ∈ ALLOWLIST) as Ha.
  { intros p. unfold allowed. rewrite existsb_exists. split.
    - intros ([[h m] q] & Hin & E). reflect_bools. subst. by apply list_elem_of_In.
    - intros Hin. exists (host, method, p). split; [by apply list_elem_of_In|]. rewrite !bool_decide_true by done. done. }
  unfold forward_request. destruct cfg as [cfg|]; [|split; [by intros [? [=]]|by intros [[? [=]] _]]].
  assert (allowed host method (str "/" ++ path) = true → is_Some (base_url (Some cfg) host)) as Hb.
  { rewrite Ha. intros Hin. unfold ALLOWLIST in Hin. unfold base_url.
    repeat (apply elem_of_cons in Hin as [[= -> _ _]|Hin]; [by eexists|]). by apply not_elem_of_nil in Hin. }
  destruct (allowed host method (str "/" ++ path)) eqn:E; cbn [negb].
  - destruct Hb as [b ->]; [done|]. split; [|by eexists]. intros _. split; [done|]. by apply Ha.
  - split; [destruct (base_url _ _); by intros [? [=]]|]. rewrite <- Ha, E. by intros [_ ?].
Qed.

Lemma forward_request_headers cfg host path query method headers body req name v :
  forward_request cfg host path query method headers body = Ok req → (name, v) ∈ out_headers req →
  name ∈ FORWARD_HEADERS ∧ assoc name headers = Some v.
Proof.
  unfold forward_request. destruct cfg as [cfg|]; [|done]. destruct (base_url _ _); [|done]. destruct (negb _); [done|].
  intros E. assert (out_headers req = omap (λ name, (name,.) <$> assoc name headers) FORWARD_HEADERS) as ->
    by (by injection E as <-).
  intros (n & Hn & En)%list_elem_of_omap.
  apply fmap_Some in En as (w & Hw & [= -> ->]). done.
Qed.
