(* ===== verification/HedgeService.v ===== *)
(** [services/hedge-signer]: the threshold ceremonies ([frost.rs]), the store
    of key shares, the audit log ([audit.rs]), the lookup of vaults on chain
    ([chain.rs]) and the handlers ([handlers.rs], [frost_handlers.rs]).

    The FROST crate works on opaque values, kept as their serialized bytes; a
    random value is the number of the draw that produced it.  [trace] records
    what leaves the service for good: the uses of signing nonces, the parent
    addresses reported by a keygen, and the countersigned transactions. *)

From S2P Require Import Prelude Prog RustStr ExchangeTypes Crates Json Wire SuiTx HedgePolicy BluefinPolicy.

(** * Third-party code *)

Class FrostCrate := {
  dkg_round1_package : list Z → option (list Z);
  dkg_round2_package : list Z → option (list Z);
  dkg_part1 : nat → option (list Z * list Z);                      (* secret, package *)
  dkg_part2 : list Z → list Z → option (list Z * list Z);          (* secret, package for the curator *)
  dkg_part3 : list Z → list Z → list Z → option (list Z * list Z); (* key package, public key package *)
  verifying_key : list Z → option (list Z);
  round1_commit : list Z → nat → list Z * option (list Z);         (* nonces, commitments *)
  signing_package : list Z → option (list Z);
  package_message : list Z → list Z;
  round2_sign : list Z → list Z → list Z → option (list Z);        (* package, nonces, key package *)
}.

(** [Uuid::new_v4().to_string()]. *)
Class UuidCrate := { uuid_v4 : nat → rstring }.

(** The key of the service: its signature of a transaction, and, for an
    ed25519 key, its public key and its signature of a message. *)
Class ServiceKey := {
  signature_from_signer : TransactionData → list Z;
  registrar_public : option (list Z);
  registrar_sign : list Z → list Z;
}.

(** * The state *)

Record VaultShare := mkShare { key_package : list Z; public_key_package : list Z }.

#[export] Instance VaultShare_eq_dec : EqDecision VaultShare.
Proof. solve_decision. Defined.
#[export] Instance VaultShare_countable : Countable VaultShare.
Proof.
  refine (inj_countable' (λ s, (key_package s, public_key_package s)) (λ '(k, p), mkShare k p) _). by intros [].
Defined.

Record KeygenSession := mkKeygen { round1_secret : list Z; curator_round1 : list Z; kg_created : Z }.

(** [ss_draw] is the draw of the nonces. *)
Record SignSession := mkSession {
  ss_vault_id : rstring;
  ss_message : list Z;
  ss_nonces : list Z;
  ss_draw : nat;
  ss_kind : PayloadKind;
  ss_description : rstring;
  ss_is_exit : bool;
  ss_tx_digest : option rstring;
  ss_created : Z;
}.

Inductive AuditReason :=
  | NotBase64 | NotATransaction | UnknownVault | NotProgrammableTx | WrongSender (a : SuiAddress)
  | PolicyDenied (r : DenyReason) | NoShare | NoSession | CeremonyFailed.

Record AuditEntry := mkAudit {
  ts_ms : Z;
  ae_vault_id : rstring;
  ae_sender : rstring;
  ae_tx_digest : rstring;
  approved : bool;
  tier : option rstring;
  reason : option AuditReason;
  ptb_summary : rstring;
}.

(** An object as the node reports it. *)
Record ChainObject := mkChainObject {
  co_shared : bool;
  co_type : option (ObjectID * rstring * rstring);   (* package, module, name *)
  co_json : option Value;
}.

(** The clocks, whether the disk takes writes, and the chain. *)
Record World := mkWorld {
  w_now_ms : Z;
  w_instant : Z;
  w_disk_ok : bool;
  w_object : ObjectID → result unit (option ChainObject);
}.

Inductive Trace :=
  | UsedNonces (vault_id : rstring) (draw : nat) (message package : list Z)
  | Reported (vault_id : rstring) (parent : SuiAddress)
  | Countersigned (vault_id : rstring) (tx : TransactionData).

Record HState := mkHState {
  shares : gmap rstring VaultShare;
  share_file : gmap rstring VaultShare;
  keygen : gmap rstring KeygenSession;
  signing : gmap rstring SignSession;
  audit : list AuditEntry;
  draws : nat;
  trace : list Trace;
  world : World;
}.

Definition set_shares sh f s :=
  mkHState sh f (keygen s) (signing s) (audit s) (draws s) (trace s) (world s).
Definition set_keygen k s := mkHState (shares s) (share_file s) k (signing s) (audit s) (draws s) (trace s) (world s).
Definition set_signing g s := mkHState (shares s) (share_file s) (keygen s) g (audit s) (draws s) (trace s) (world s).
Definition set_audit a s := mkHState (shares s) (share_file s) (keygen s) (signing s) a (draws s) (trace s) (world s).
Definition set_draws n s := mkHState (shares s) (share_file s) (keygen s) (signing s) (audit s) n (trace s) (world s).
Definition set_trace t s := mkHState (shares s) (share_file s) (keygen s) (signing s) (audit s) (draws s) t (world s).
Definition set_world w s := mkHState (shares s) (share_file s) (keygen s) (signing s) (audit s) (draws s) (trace s) w.

Definition KEYGEN_TTL : Z := 600000000000.
Definition SIGN_TTL : Z := 300000000000.
Definition SERVICE_ID : Z := 2.

(** [created.elapsed()]. *)
Definition elapsed (now created : Z) : Z := Z.max (now - created) 0.

(** A fresh random value. *)
Definition draw : prog HState nat := act (λ s, (set_draws (S (draws s)) s, draws s)).

Definition emit (t : Trace) : prog HState unit := modify (λ s, set_trace (trace s ++ [t]) s).

(** [AuditLog::record]: a write that fails is dropped. *)
Definition record (e : Z → AuditEntry) : prog HState unit :=
  now ← read (λ s, w_now_ms (world s));
  modify (λ s, if w_disk_ok (world s) then set_audit (audit s ++ [e now]) s else s).

(** * The store of shares *)

(** [ShareStore::open]: the shares of the file. *)
Definition open (file : gmap rstring VaultShare) (w : World) : HState := mkHState file file ∅ ∅ [] 0 [] w.

Definition store_get (vault_id : rstring) : prog HState (option VaultShare) := read (λ s, shares s !! vault_id).

(** [persist]: the file is replaced by all the shares in memory, or stays as
    it is. *)
Definition persist (sh : gmap rstring VaultShare) (s : HState) : HState * bool :=
  if w_disk_ok (world s) then (set_shares sh sh s, true) else (set_shares sh (share_file s) s, false).

Definition store_insert (vault_id : rstring) (share : VaultShare) : prog HState bool :=
  act (λ s, if decide (is_Some (shares s !! vault_id)) then (s, false) else persist (<[vault_id := share]> (shares s)) s).

Definition store_remove (vault_id : rstring) : prog HState bool :=
  act (λ s, if decide (is_Some (shares s !! vault_id)) then persist (delete vault_id (shares s)) s else (s, false)).

Section ceremonies.
Context `{CryptoCrates, SuiSdk, JsonCrate, HexCrate, Base64Crate, FrostCrate, UuidCrate, ServiceKey}.

Definition group_sui_address (pubkeys : list Z) : option SuiAddress :=
  pk ← verifying_key pubkeys;
  let digest := blake2b256 (0 :: pk) in
  if (length digest =? 32)%nat then Some (mkSuiAddress digest) else None.

(** * [Ceremonies] *)

Definition keygen_round1 (vault_id : rstring) (curator_round1 : list Z) : prog HState (option (list Z)) :=
  held ← store_get vault_id;
  if bool_decide (is_Some held) then Ret None else
  match dkg_round1_package curator_round1 with
  | None => Ret None
  | Some curator_round1 =>
      d ← draw;
      match dkg_part1 d with
      | None => Ret None
      | Some (round1_secret, out) =>
          _ ← modify (λ s,
                let now := w_instant (world s) in
                let live := filter (λ kv, elapsed now (kg_created kv.2) < KEYGEN_TTL) (keygen s) in
                set_keygen (<[vault_id := mkKeygen round1_secret curator_round1 now]> live) s);
          Ret (Some out)
      end
  end.

Definition keygen_round2 (vault_id : rstring) (curator_round2 : list Z)
    : prog HState (option (list Z * list Z * SuiAddress)) :=
  session ← act (λ s, (set_keygen (delete vault_id (keygen s)) s, keygen s !! vault_id));
  match session with
  | None => Ret None
  | Some session =>
      now ← read (λ s, w_instant (world s));
      if KEYGEN_TTL <=? elapsed now (kg_created session) then Ret None else
      match (r2 ← dkg_round2_package curator_round2;
             '(round2_secret, service_round2) ← dkg_part2 (round1_secret session) (curator_round1 session);
             '(key, public) ← dkg_part3 round2_secret (curator_round1 session) r2;
             address ← group_sui_address public;
             pubkey ← verifying_key public;
             Some (service_round2, mkShare key public, pubkey, address)) with
      | None => Ret None
      | Some (service_round2, share, pubkey, address) =>
          stored ← store_insert vault_id share;
          Ret (if (stored : bool) then Some (service_round2, pubkey, address) else None)
      end
  end.

(** The session of an approved payload: its id and the commitments. *)
Definition sign_round1 (vault_id : rstring) (a : ApprovedPayload) : prog HState (option (rstring * list Z)) :=
  share ← store_get vault_id;
  match share with
  | None => Ret None
  | Some share =>
      d ← draw;
      let '(nonces, commitments) := round1_commit (key_package share) d in
      match commitments with
      | None => Ret None
      | Some out =>
          created ← read (λ s, w_instant (world s));
          u ← draw;
          let id := uuid_v4 u in
          _ ← modify (λ s,
                let live := filter (λ kv, elapsed (w_instant (world s)) (ss_created kv.2) < SIGN_TTL) (signing s) in
                set_signing (<[id := mkSession vault_id (message a) nonces d (ap_kind a) (description a) (is_exit a)
                                       (ap_tx_digest a) created]> live) s);
          Ret (Some (id, out))
      end
  end.

Definition take_sign_session (session_id : rstring) : prog HState (option SignSession) :=
  act (λ s,
    let live := filter (λ kv, elapsed (w_instant (world s)) (ss_created kv.2) < SIGN_TTL) (signing s) in
    (set_signing (delete session_id live) s, live !! session_id)).

Definition sign_round2 (session : SignSession) (bytes : list Z) : prog HState (option (list Z)) :=
  match signing_package bytes with
  | None => Ret None
  | Some package =>
      if negb (bool_decide (package_message package = ss_message session)) then Ret None else
      share ← store_get (ss_vault_id session);
      match share with
      | None => Ret None
      | Some share =>
          _ ← emit (UsedNonces (ss_vault_id session) (ss_draw session) (package_message package) package);
          Ret (round2_sign package (ss_nonces session) (key_package share))
      end
  end.

(** * [chain.rs] *)

Inductive VaultLookup := Vault (external : option SuiAddress) | NotAVault.

Definition is_trading_vault_type (ty : ObjectID * rstring * rstring) (pkg : ObjectID) : bool :=
  let '(address, m, name) := ty in
  bool_decide (address = pkg) && bool_decide (m = str "vault") && bool_decide (name = str "TradingVault").

(** An unreadable field is an error. *)
Definition vault_external (fields : Value) : result unit (option SuiAddress) :=
  match get fields (str "external") with
  | None => Err ()
  | Some JNull => Ok None
  | Some value =>
      match and_then (get value (str "account")) as_str with
      | Some a => match sui_address_from_str a with Some a => Ok (Some a) | None => Err () end
      | None => Err ()
      end
  end.

Definition vault_resolve (trading_vault_package : ObjectID) (vault_id : rstring) : prog HState (result unit VaultLookup) :=
  match object_id_from_hex_literal vault_id with
  | None => Ret (Ok NotAVault)
  | Some id =>
      o ← read (λ s, w_object (world s) id);
      Ret (match o with
           | Err e => Err e
           | Ok None => Ok NotAVault
           | Ok (Some o) =>
               if negb (co_shared o) then Ok NotAVault else
               match co_type o with
               | None => Ok NotAVault
               | Some ty =>
                   if negb (is_trading_vault_type ty trading_vault_package) then Ok NotAVault else
                   match co_json o with
                   | None => Ok NotAVault
                   | Some fields => Vault <$> vault_external fields
                   end
               end
           end)
  end.

(** * Handlers *)

(** An error: its status; the text is not modelled. *)
Inductive ApiError := Plain (status : Z) | Conflict (parent group_key : rstring).

Inductive Reply :=
  | SignResp (signature tier description : rstring)
  | FrostPubkeyResp (vault_id group_key parent : rstring)
  | FrostRegistrationResp (vault_id parent registrar signature message : rstring)
  | KeygenRound1Resp (service_round1 : rstring)
  | KeygenRound2Resp (service_round2 group_key parent : rstring)
  | SignRound1Resp (session_id commitments message : rstring)
  | SignRound2Resp (signature_share : rstring).

Variable vaults : gmap rstring VaultPolicy.
Variable trading_vault_pkg : ObjectID.


Definition deny_request (vault_id : rstring) (status : Z) (why : AuditReason) (sender digest summary : rstring)
    : prog HState (result ApiError Reply) :=
  _ ← record (λ now, mkAudit now vault_id sender digest false None (Some why) summary);
  Ret (Err (Plain status)).

Definition sign (vault_id tx_bytes_b64 : rstring) : prog HState (result ApiError Reply) :=
  match base64_decode (trim tx_bytes_b64) with
  | None => deny_request vault_id 400 NotBase64 [] [] []
  | Some tx_bytes =>
      match transaction_from_bcs tx_bytes with
      | None => deny_request vault_id 400 NotATransaction [] [] []
      | Some tx =>
          let from := address_text (sender tx) in
          let digest := transaction_digest_text tx in
          match vaults !! vault_id with
          | None => deny_request vault_id 403 UnknownVault from digest []
          | Some vault =>
              match SuiTx.kind tx with
              | None => deny_request vault_id 403 NotProgrammableTx from digest []
              | Some pt =>
                  let summary := describe_ptb pt in
                  if negb (bool_decide (sender tx = external_account vault))
                  then deny_request vault_id 403 (WrongSender (sender tx)) from digest summary
                  else
                    match classify vault pt with
                    | Deny reason => deny_request vault_id 403 (PolicyDenied reason) from digest summary
                    | Approve t =>
                        _ ← emit (Countersigned vault_id tx);
                        _ ← record (λ now, mkAudit now vault_id from digest true (Some (Tier_as_str t)) None summary);
                        Ret (Ok (SignResp (base64_encode (signature_from_signer tx)) (Tier_as_str t) summary))
                    end
              end
          end
      end
  end.

(** The group key and the parent address of a share. *)
Definition share_parent (share : VaultShare) : option (list Z * SuiAddress) :=
  pk ← verifying_key (public_key_package share);
  address ← group_sui_address (public_key_package share);
  Some (pk, address).

Definition frost_pubkey (vault_id : rstring) : prog HState (result ApiError Reply) :=
  share ← store_get vault_id;
  Ret (match share with
       | None => Err (Plain 404)
       | Some share =>
           match share_parent share with
           | None => Err (Plain 500)
           | Some (pk, address) => Ok (FrostPubkeyResp vault_id (hex_encode pk) (address_text address))
           end
       end).

Definition REGISTRATION_DOMAIN : rstring := str "tv_external_reg_v1".

Definition registration (vault_id : rstring) : prog HState (result ApiError Reply) :=
  match object_id_from_hex_literal vault_id with
  | None => Ret (Err (Plain 400))
  | Some vault_object =>
      share ← store_get vault_id;
      Ret (match share with
           | None => Err (Plain 404)
           | Some share =>
               match group_sui_address (public_key_package share) with
               | None => Err (Plain 500)
               | Some parent =>
                   match registrar_public with
                   | None => Err (Plain 500)
                   | Some registrar_pk =>
                       let message := REGISTRATION_DOMAIN ++ addr_bytes vault_object ++ addr_bytes parent in
                       Ok (FrostRegistrationResp vault_id (address_text parent) (hex_encode registrar_pk)
                             (hex_encode (registrar_sign message)) (hex_encode message))
                   end
               end
           end)
  end.

Definition frost_keygen_round1 (vault_id curator_round1_b64 : rstring) : prog HState (result ApiError Reply) :=
  existing ← store_get vault_id;
  match existing with
  | Some share =>
      Ret (Err (match share_parent share with
                | None => Plain 500
                | Some (pk, address) => Conflict (address_text address) (hex_encode pk)
                end))
  | None =>
      lookup ← vault_resolve trading_vault_pkg vault_id;
      match lookup with
      | Ok (Vault None) =>
          match base64_decode (trim curator_round1_b64) with
          | None => Ret (Err (Plain 400))
          | Some curator_round1 =>
              out ← keygen_round1 vault_id curator_round1;
              Ret (match out with
                   | Some out => Ok (KeygenRound1Resp (base64_encode out))
                   | None => Err (Plain 400)
                   end)
          end
      | Ok (Vault (Some _)) => Ret (Err (Plain 409))
      | Ok NotAVault => Ret (Err (Plain 400))
      | Err _ => Ret (Err (Plain 503))
      end
  end.

Definition frost_keygen_round2 (vault_id curator_round2_b64 : rstring) : prog HState (result ApiError Reply) :=
  match base64_decode (trim curator_round2_b64) with
  | None => Ret (Err (Plain 400))
  | Some curator_round2 =>
      out ← keygen_round2 vault_id curator_round2;
      match out with
      | None => Ret (Err (Plain 400))
      | Some (service_round2, pubkey, address) =>
          _ ← emit (Reported vault_id address);
          Ret (Ok (KeygenRound2Resp (base64_encode service_round2) (hex_encode pubkey) (address_text address)))
      end
  end.

Definition frost_sign_round1 (vault_id payload_kind payload_b64 : rstring) : prog HState (result ApiError Reply) :=
  match vaults !! vault_id with
  | None => deny_request vault_id 403 UnknownVault [] [] []
  | Some vault =>
      share ← store_get vault_id;
      match share with
      | None => deny_request vault_id 403 NoShare [] [] []
      | Some share =>
          match group_sui_address (public_key_package share) with
          | None => Ret (Err (Plain 500))
          | Some parent =>
              match base64_decode (trim payload_b64) with
              | None => deny_request vault_id 400 NotBase64 (address_text parent) [] []
              | Some payload =>
                  match classify_payload vault parent payload_kind payload with
                  | Err reason =>
                      deny_request vault_id 403 (PolicyDenied reason) (address_text parent) []
                        (str "kind=" ++ payload_kind)
                  | Ok a =>
                      session ← sign_round1 vault_id a;
                      Ret (match session with
                           | Some (id, commitments) =>
                               Ok (SignRound1Resp id (base64_encode commitments) (hex_encode (message a)))
                           | None => Err (Plain 500)
                           end)
                  end
              end
          end
      end
  end.

Definition frost_sign_round2 (session_id signing_package_b64 : rstring) : prog HState (result ApiError Reply) :=
  session ← take_sign_session session_id;
  match session with
  | None => deny_request [] 403 NoSession [] [] []
  | Some session =>
      let digest := default [] (ss_tx_digest session) in
      match base64_decode (trim signing_package_b64) with
      | None => deny_request (ss_vault_id session) 400 NotBase64 [] digest (ss_description session)
      | Some package =>
          share ← sign_round2 session package;
          match share with
          | None => deny_request (ss_vault_id session) 403 CeremonyFailed [] digest (ss_description session)
          | Some share =>
              _ ← record (λ now, mkAudit now (ss_vault_id session) []
                    (default (hex_encode (ss_message session)) (ss_tx_digest session)) true
                    (Some (str "frost:" ++ PayloadKind_as_str (ss_kind session))) None (ss_description session));
              Ret (Ok (SignRound2Resp (base64_encode share)))
          end
      end
  end.

(** * [prune-share], a process of its own *)

(** [nonzero] tells whether an address still holds coins, or that the node
    does not say. *)
Definition prune_share (nonzero : SuiAddress → result unit bool) (vault_id : rstring) : prog HState bool :=
  share ← store_get vault_id;
  match share ≫= (λ share, group_sui_address (public_key_package share)) with
  | None => Ret false
  | Some parent =>
      lookup ← vault_resolve trading_vault_pkg vault_id;
      match lookup with
      | Ok (Vault external) =>
          if bool_decide (external = Some parent) then Ret false else
          match nonzero parent with
          | Ok false => store_remove vault_id
          | _ => Ret false
          end
      | _ => Ret false
      end
  end.

(** * The service *)

Inductive HedgeTask :=
  | Sign (vault_id tx_bytes_b64 : rstring)
  | FrostPubkey (vault_id : rstring)
  | Registration (vault_id : rstring)
  | KeygenRound1 (vault_id curator_round1_b64 : rstring)
  | KeygenRound2 (vault_id curator_round2_b64 : rstring)
  | SignRound1 (vault_id payload_kind payload_b64 : rstring)
  | SignRound2 (session_id signing_package_b64 : rstring)
  | WorldMoves (w : World).

Definition discard {A} (p : prog HState A) : prog HState unit := _ ← p; Ret tt.

Definition hedge_task (t : HedgeTask) : prog HState unit :=
  match t with
  | Sign v tx => discard (sign v tx)
  | FrostPubkey v => discard (frost_pubkey v)
  | Registration v => discard (registration v)
  | KeygenRound1 v p => discard (frost_keygen_round1 v p)
  | KeygenRound2 v p => discard (frost_keygen_round2 v p)
  | SignRound1 v k p => discard (frost_sign_round1 v k p)
  | SignRound2 id p => discard (frost_sign_round2 id p)
  | WorldMoves w => modify (set_world w)
  end.

(** The service from a share file, over a world that moves. *)
Definition hedge_serve (file : gmap rstring VaultShare) (w : World) (ts : list HedgeTask) (schedule : list nat)
    : list (prog HState unit) * HState :=
  sched schedule (hedge_task <$> ts) (open file w).
End ceremonies.
