(* ===== verification/HedgeTheorems.v ===== *)
(** What the signer's policy guarantees: the digest it signs determines the
    kind and the bytes of the payload it approved, and what an approved
    transaction pays goes to the vault and the accounts of the vault, the
    coin module apart. *)

From S2P Require Import Prelude Prog RustStr ExchangeTypes Demo Crates Signing Json Wire SuiTx HedgePolicy BluefinPolicy HedgeService.

#[export] Existing Instance demo_crypto.

Definition demo_vault_id : rstring := replicate 32 50.
Definition demo_parent : SuiAddress := demo_addr 9.
Definition demo_trading_vault : ObjectID := demo_addr 60.

Definition demo_policy : VaultPolicy :=
  mkPolicy demo_vault_id demo_parent (demo_addr 50) demo_trading_vault {[demo_addr 50]} [] None (Some (demo_addr 64))
    (Some (demo_addr 61)) (Some (demo_addr 62)) (Some (demo_addr 63)).

(** * Transactions *)

Definition demo_sweep : ProgrammableTransaction :=
  mkPT [Object (SharedObject (demo_addr 50)); Pure (replicate 32 50)]
    [MoveCall (mkMoveCall framework (str "coin") (str "redeem_funds") [] []);
     MoveCall (mkMoveCall demo_trading_vault (str "vault") (str "return_external") [] [Input 0; Result 0]);
     TransferObjects [Result 1] (Input 1)].

Definition demo_deposit : ProgrammableTransaction :=
  mkPT [Object (SharedObject (demo_addr 62)); Pure (replicate 32 9); Pure [7]]
    [SplitCoins GasCoin [Input 2];
     MoveCall (mkMoveCall (demo_addr 63) (str "exchange") (str "deposit_to_asset_bank") []
                 [Input 0; Input 2; Input 1; Input 2; Result 0])].

(** The coins of the account to another address, by a call of the coin
    module. *)
Definition demo_send_funds : ProgrammableTransaction :=
  mkPT [Pure (replicate 32 77)]
    [MoveCall (mkMoveCall framework (str "coin") (str "send_funds") [] [GasCoin; Input 0])].

Definition demo_txs : list TransactionData :=
  [mkTx demo_parent (Some demo_sweep); mkTx demo_parent (Some demo_deposit); mkTx demo_parent (Some demo_send_funds);
   mkTx demo_parent None].

#[export] Instance demo_sui : SuiSdk := {|
  sui_address_from_str s := if (length s =? 32)%nat then Some (mkSuiAddress s) else None;
  object_id_from_hex_literal s := if (length s =? 32)%nat then Some (mkSuiAddress s) else None;
  address_text := addr_bytes;
  address_from_bcs l := if (length l =? 32)%nat then Some (mkSuiAddress l) else None;
  u64_from_bcs l := head l;
  transaction_from_bcs l := match l with [k] => demo_txs !! Z.to_nat k | _ => None end;
  transaction_digest_text tx := addr_bytes (sender tx);
|}.

(** * Payloads *)

Definition demo_login : Value :=
  JObject [(str "accountAddress", JString (replicate 32 9)); (str "signedAtMillis", JNumber (PosInt 5));
           (str "audience", JString (str "api"))].

Definition demo_withdraw : Value :=
  JObject [(str "type", JString WITHDRAW_TYPE); (str "eds", JString (replicate 32 62));
           (str "assetSymbol", JString (str "USDC")); (str "account", JString (replicate 32 9));
           (str "amount", JString (str "25")); (str "salt", JString (str "1")); (str "signedAt", JString (str "5"))].

#[export] Instance demo_json : JsonCrate := {|
  json_from_slice l :=
    match l with
    | [k] => if k =? 120 then Some demo_login else if k =? 121 then Some demo_withdraw else None
    | _ => None
    end;
|}.

(** * Ceremonies *)

#[export] Instance demo_hex : HexCrate := {| hex_encode l := l; hex_decode s := Some s |}.
#[export] Instance demo_b64 : Base64Crate := {| base64_encode l := l; base64_decode s := Some s |}.
#[export] Instance demo_uuid : UuidCrate := {| uuid_v4 n := [100 + Z.of_nat n] |}.
#[export] Instance demo_service_key : ServiceKey := {|
  signature_from_signer _ := replicate 64 7;
  registrar_public := Some (replicate 32 3);
  registrar_sign _ := replicate 64 7;
|}.

#[export] Instance demo_frost : FrostCrate := {|
  dkg_round1_package := Some;
  dkg_round2_package := Some;
  dkg_part1 d := Some ([Z.of_nat d], [40; Z.of_nat d]);
  dkg_part2 secret package := Some (secret ++ package, [41]);
  dkg_part3 secret package1 package2 := Some (7 :: secret, 8 :: package1);
  verifying_key := Some;
  round1_commit _ d := ([Z.of_nat d], Some [42; Z.of_nat d]);
  signing_package := Some;
  package_message package := package;
  round2_sign package nonces key := Some (nonces ++ key);
|}.

Definition demo_chain (disk : bool) : World :=
  mkWorld 1000 0 disk (λ id, Ok (
    if bool_decide (id = demo_addr 50)
    then Some (mkChainObject true (Some (demo_trading_vault, str "vault", str "TradingVault"))
                 (Some (JObject [(str "external", JNull)])))
    else None)).

Definition demo_vaults : gmap rstring VaultPolicy := {[demo_vault_id := demo_policy]}.

(** The curator's package is [[1]], so the group key is [[8; 1]] and the
    account has the address [demo_parent]. *)
Definition demo_digest : list Z := transaction_digest [0].

Definition demo_hedge_tasks : list HedgeTask :=
  [KeygenRound1 demo_vault_id [1]; KeygenRound2 demo_vault_id [2];
   SignRound1 demo_vault_id (str "sui_tx") [0]; SignRound2 [102] demo_digest;
   SignRound2 [102] demo_digest; Sign demo_vault_id [0]].

Definition demo_in_turn (n : nat) : list nat := flat_map (λ i, replicate 20 i) (seq 0 n).

Abbreviation hedge_demo :=
  (hedge_serve demo_vaults demo_trading_vault ∅ (demo_chain true) demo_hedge_tasks (demo_in_turn 6)).

Lemma demo_hedge_trace :
  trace hedge_demo.2 =
    [Reported demo_vault_id demo_parent; UsedNonces demo_vault_id 1 demo_digest demo_digest;
     Countersigned demo_vault_id (mkTx demo_parent (Some demo_sweep))].
Proof. vm_compute. reflexivity. Qed.

Lemma demo_hedge_returned : forallb (λ p, match p with Ret _ => true | Act _ _ => false end) hedge_demo.1 = true.
Proof. vm_compute. reflexivity. Qed.

(** * The length prefix *)

Lemma uleb128_loop_uleb fuel n : 0 ≤ n → uleb128_loop fuel n = uleb fuel n.
Proof.
  revert n. induction fuel as [|fuel IH]; intros n Hn; [done|]. cbn [uleb128_loop uleb].
  change 127 with (Z.ones 7). rewrite Z.land_ones, Z.shiftr_div_pow2 by lia. change (2 ^ 7) with 128.
  pose proof (Z.mod_pos_bound n 128). pose proof (Z.div_mod n 128).
  destruct (Z.ltb_spec n 128) as [Hlt|Hge].
  - rewrite Z.div_small, Z.mod_small by lia. done.
  - assert (1 ≤ n / 128) by (apply Z.div_le_lower_bound; lia).
    destruct (Z.eqb_spec (n / 128) 0); [lia|]. cbn [negb]. rewrite IH by lia. f_equal.
    rewrite <- Z.add_lor_land. replace (Z.land (n mod 128) 128) with 0; [lia|].
    symmetry. apply Z.bits_inj_0. intros i. rewrite Z.land_spec. change 128 with (2 ^ 7).
    destruct (decide (i < 0)); [by rewrite Z.testbit_neg_r|]. rewrite Z.pow2_bits_eqb by lia.
    destruct (Z.eqb_spec 7 i) as [<-|]; [|apply andb_false_r]. rewrite Z.mod_pow2_bits_high by lia. done.
Qed.

Lemma uleb128_cancel n n' r r' : u64 n → u64 n' → uleb128 n ++ r = uleb128 n' ++ r' → n = n' ∧ r = r'.
Proof.
  assert (∀ m, u64 m → 0 ≤ m < 128 ^ Z.of_nat 10) as Hb.
  { intros m [Hl Hu]. split; [done|]. eapply Z.le_lt_trans; [exact Hu|]. by vm_compute. }
  intros Hn Hn'. unfold uleb128. rewrite !uleb128_loop_uleb by (apply Hn || apply Hn').
  apply uleb_cancel; auto with lia.
Qed.

(** * One payload, one kind *)

Lemma struct_fields_first n ns v x xs :
  struct_fields (n :: ns) v = Some (x :: xs) →
  match v with JObject m => assoc n m = Some x | JArray l => head l = Some x | _ => False end.
Proof.
  destruct v as [| | | |l|m]; try done; cbn [struct_fields].
  - destruct (_ =? _)%nat; [|done]. by intros [= ->].
  - destruct (_ && _); [|done]. cbn [mapM mbind option_bind].
    destruct (assoc n m) as [y|]; [|done]. cbn [mbind option_bind].
    destruct (mapM _ ns); [|done]. by intros [= -> _].
Qed.

Lemma struct_fields_lookup names v xs i n x :
  struct_fields names v = Some xs → names !! i = Some n → xs !! i = Some x →
  match v with JObject m => assoc n m = Some x | JArray l => l !! i = Some x | _ => False end.
Proof.
  destruct v as [| | | |l|m]; try done; cbn [struct_fields].
  - destruct (_ =? _)%nat; [|done]. by intros [= ->].
  - destruct (_ && _); [|done]. intros Hm Hn Hx. apply mapM_Some in Hm.
    by destruct (Forall2_lookup_lr _ _ _ _ _ _ Hm Hn Hx).
Qed.

Lemma assoc_member {A} k (m : list (rstring * A)) v : assoc k m = Some v → k ∈ m.*1.
Proof.
  induction m as [|[k' v'] m IH]; [done|]. cbn [assoc]. case_bool_decide; [subst; by left|]. intros Hk. right. by apply IH.
Qed.

(** The fields of two structs read from one value, when a field of the one
    with a different number of fields is not one of the other's. *)
Lemma struct_fields_disjoint ns1 ns2 v xs1 xs2 n :
  struct_fields ns1 v = Some xs1 → struct_fields ns2 v = Some xs2 →
  length ns1 ≠ length ns2 → n ∈ ns2 → n ∉ ns1 → False.
Proof.
  destruct v as [| | | |l|m]; try done; cbn [struct_fields].
  - destruct (Nat.eqb_spec (length l) (length ns1)), (Nat.eqb_spec (length l) (length ns2)); try done. congruence.
  - destruct (forallb _ m) eqn:Hall; [|done]. cbn [andb]. destruct (bool_decide (NoDup _)); [|done].
    destruct (_ && _); [|done]. intros _ Hm2 _ Hn2 Hn1. apply mapM_Some in Hm2.
    apply list_elem_of_lookup in Hn2 as [i Hi].
    destruct (Forall2_lookup_l _ _ _ _ _ Hm2 Hi) as (x & _ & Hx). apply assoc_member in Hx.
    apply list_elem_of_fmap in Hx as ([k w] & -> & Hin). rewrite forallb_forall in Hall.
    specialize (Hall _ (proj1 (list_elem_of_In _ _) Hin)). by apply bool_decide_eq_true in Hall.
Qed.

Lemma login_shape v l :
  LoginPayload_deserialize v = Some l →
  ∃ xs, struct_fields [str "accountAddress"; str "signedAtMillis"; str "audience"] v = Some xs.
Proof. unfold LoginPayload_deserialize. destruct (struct_fields _ v) as [xs|]; [by eexists|done]. Qed.

Ltac read_fields :=
  repeat match goal with
  | H : context [match ?l with [] => _ | _ :: _ => _ end] |- _ => is_var l; destruct l; [done || idtac|]
  | H : (?o ≫= _) = Some _ |- _ => let E := fresh "E" in destruct o eqn:E; [cbn [mbind option_bind] in H|done]
  end.

Lemma authorize_type v a :
  AuthorizePayload_deserialize v = Some a →
  ∃ xs, struct_fields [str "type"; str "ids"; str "account"; str "user"; str "status"; str "salt"; str "signedAt"] v = Some xs ∧
    head xs = Some (JString (au_type a)).
Proof.
  unfold AuthorizePayload_deserialize. destruct (struct_fields _ v) as [xs|]; [|done]. cbn [mbind option_bind].
  intros H. destruct xs as [|x0 [|x1 [|x2 [|x3 [|x4 [|x5 [|x6 [|]]]]]]]]; try done.
  read_fields. injection H as <-. eexists. split; [done|]. by destruct x0; simplify_eq/=.
Qed.

Lemma withdraw_type v w :
  WithdrawPayload_deserialize v = Some w →
  ∃ xs, struct_fields [str "type"; str "eds"; str "assetSymbol"; str "account"; str "amount"; str "salt"; str "signedAt"] v = Some xs ∧
    head xs = Some (JString (wd_type w)).
Proof.
  unfold WithdrawPayload_deserialize. destruct (struct_fields _ v) as [xs|]; [|done]. cbn [mbind option_bind].
  intros H. destruct xs as [|x0 [|x1 [|x2 [|x3 [|x4 [|x5 [|x6 [|]]]]]]]]; try done.
  read_fields. injection H as <-. eexists. split; [done|]. by destruct x0; simplify_eq/=.
Qed.

Section binding.
Context `{CryptoCrates, SuiSdk, JsonCrate}.

Ltac deny := match goal with |- (if ?c then _ else _) = _ → _ => destruct c; [done|] end.

(** What an approval of each kind says about the payload. *)
Lemma login_approved parent payload a :
  classify_login parent payload = Ok a →
  ap_kind a = Login ∧ message a = personal_message_digest payload ∧
  ∃ v l, json_from_slice payload = Some v ∧ LoginPayload_deserialize v = Some l.
Proof.
  unfold classify_login. destruct (json_from_slice payload) as [v|]; [|done]. cbn [mbind option_bind].
  destruct (LoginPayload_deserialize v) as [l|] eqn:El; [|done]. cbn [ok_or mbind result_bind].
  destruct (parse_addr _); [|done]. cbn [mbind result_bind]. destruct (negb _); [done|].
  destruct (_ <=? 0); [done|]. intros [= <-]. eauto 10.
Qed.

Lemma authorize_approved p parent payload a :
  classify_authorize p parent payload = Ok a →
  ap_kind a = AuthorizeAccount ∧ message a = personal_message_digest payload ∧
  ∃ v au, json_from_slice payload = Some v ∧ AuthorizePayload_deserialize v = Some au ∧ au_type au = AUTHORIZE_TYPE.
Proof.
  unfold classify_authorize. destruct (json_from_slice payload) as [v|]; [|done]. cbn [mbind option_bind].
  destruct (AuthorizePayload_deserialize v) as [au|] eqn:Ea; [|done]. cbn [ok_or mbind result_bind].
  case_bool_decide as Ht; [|done]. cbn [negb]. destruct (parse_addr (au_account au)); [|done]. cbn [mbind result_bind].
  destruct (negb _); [done|]. destruct (parse_addr (au_user au)); [|done]. cbn [mbind result_bind].
  destruct (curator_wallet p); [|done]. cbn [ok_or mbind result_bind]. destruct (negb _); [done|].
  destruct (parse_object_id _); [|done]. cbn [mbind result_bind]. deny.
  destruct (parse_u64_str (au_salt au)); [|done]. cbn [mbind result_bind].
  destruct (parse_u64_str (au_signed_at au)); [|done]. cbn [mbind result_bind]. intros [= <-]. eauto 10.
Qed.

Lemma withdraw_approved p parent payload a :
  classify_withdraw p parent payload = Ok a →
  ap_kind a = Withdraw ∧ message a = personal_message_digest payload ∧
  ∃ v w, json_from_slice payload = Some v ∧ WithdrawPayload_deserialize v = Some w ∧ wd_type w = WITHDRAW_TYPE.
Proof.
  unfold classify_withdraw. destruct (json_from_slice payload) as [v|]; [|done]. cbn [mbind option_bind].
  destruct (WithdrawPayload_deserialize v) as [w|] eqn:Ew; [|done]. cbn [ok_or mbind result_bind].
  case_bool_decide as Ht; [|done]. cbn [negb]. destruct (parse_addr (wd_account w)); [|done]. cbn [mbind result_bind].
  destruct (negb _); [done|]. destruct (parse_object_id _); [|done]. cbn [mbind result_bind].
  deny.
  destruct (parse_u64_str (wd_amount w)); [|done]. cbn [mbind result_bind].
  destruct (parse_u64_str (wd_salt w)); [|done]. cbn [mbind result_bind].
  destruct (parse_u64_str (wd_signed_at w)); [|done]. cbn [mbind result_bind]. intros [= <-]. eauto 10.
Qed.

Lemma sui_tx_approved p parent payload a :
  classify_sui_tx p parent payload = Ok a →
  ap_kind a = SuiTx ∧ message a = transaction_digest payload ∧
  ∃ tx pt, transaction_from_bcs payload = Some tx ∧ sender tx = parent ∧ kind tx = Some pt ∧
    if touches_bluefin p pt then ∃ d, classify_bluefin_deposit p parent pt = Ok d else classify p pt = Approve Strict.
Proof.
  unfold classify_sui_tx. destruct (transaction_from_bcs payload) as [tx|] eqn:Etx; [|done]. cbn [ok_or mbind result_bind].
  case_bool_decide as Hs; [|done]. cbn [negb]. destruct (kind tx) as [pt|] eqn:Ek; [|done]. cbn [ok_or mbind result_bind].
  destruct (touches_bluefin p pt) eqn:Et.
  - destruct (classify_bluefin_deposit p parent pt) as [d|] eqn:Ed; [|done]. cbn [mbind result_bind].
    intros [= <-]. split_and!; [done..|]. exists tx, pt. rewrite Et. eauto 10.
  - destruct (classify p pt) as [[]|] eqn:Ec; [|done]. intros [= <-]. split_and!; [done..|]. exists tx, pt. by rewrite Et.
Qed.

(** What an approval says, whatever its kind. *)
Definition read_as (k : PayloadKind) (payload : list Z) : Prop :=
  match k with
  | Login => ∃ v l, json_from_slice payload = Some v ∧ LoginPayload_deserialize v = Some l
  | AuthorizeAccount =>
      ∃ v au, json_from_slice payload = Some v ∧ AuthorizePayload_deserialize v = Some au ∧ au_type au = AUTHORIZE_TYPE
  | Withdraw =>
      ∃ v w, json_from_slice payload = Some v ∧ WithdrawPayload_deserialize v = Some w ∧ wd_type w = WITHDRAW_TYPE
  | SuiTx => True
  end.

Lemma payload_approved p parent kind payload a :
  classify_payload p parent kind payload = Ok a →
  PayloadKind_parse kind = Some (ap_kind a) ∧ read_as (ap_kind a) payload ∧
  message a = match ap_kind a with SuiTx => transaction_digest payload | _ => personal_message_digest payload end.
Proof.
  unfold classify_payload. destruct (PayloadKind_parse kind) as [k|]; [|done]. cbn [ok_or mbind result_bind].
  destruct k; intros Ha.
  - apply login_approved in Ha as (-> & -> & ?). done.
  - apply authorize_approved in Ha as (-> & -> & ?). done.
  - apply withdraw_approved in Ha as (-> & -> & ?). done.
  - apply sui_tx_approved in Ha as (-> & -> & ?). done.
Qed.

(** Bytes are read as one kind of venue payload at most. *)
Lemma read_as_unique k1 k2 payload : k1 ≠ SuiTx → k2 ≠ SuiTx → read_as k1 payload → read_as k2 payload → k1 = k2.
Proof.
  assert (∀ v l xs n ns, LoginPayload_deserialize v = Some l → struct_fields (n :: ns) v = Some xs →
    length ns = 6%nat → n = str "type" → False) as Hlogin.
  { intros v l xs n ns Hl Hxs Hlen ->. apply login_shape in Hl as [ys Hys].
    apply (struct_fields_disjoint _ _ v ys xs (str "type") Hys Hxs); [cbn; lia|left|].
    intros Hin. by repeat (apply elem_of_cons in Hin as [[=]|Hin]); apply not_elem_of_nil in Hin. }
  assert (∀ v au w, AuthorizePayload_deserialize v = Some au → au_type au = AUTHORIZE_TYPE →
    WithdrawPayload_deserialize v = Some w → wd_type w = WITHDRAW_TYPE → False) as Htypes.
  { intros v au w Ha Hat Hw Hwt. apply authorize_type in Ha as (xs & Hxs & Hx). apply withdraw_type in Hw as (ys & Hys & Hy).
    rewrite Hat in Hx. rewrite Hwt in Hy. destruct xs as [|x xs]; [done|]. destruct ys as [|y ys]; [done|].
    apply struct_fields_first in Hxs, Hys. destruct v as [| | | |l|m]; try done; rewrite Hxs in Hys; injection Hys as <-;
      cbn in Hx, Hy; rewrite Hx in Hy; by injection Hy. }
  intros N1 N2. destruct k1, k2; cbn [read_as]; try done.
  - intros (v & l & Hv & Hl) (v' & au & Hv' & Ha & _). rewrite Hv in Hv'. injection Hv' as <-.
    apply authorize_type in Ha as (xs & Hxs & _). by destruct (Hlogin _ _ _ _ _ Hl Hxs).
  - intros (v & l & Hv & Hl) (v' & w & Hv' & Hw & _). rewrite Hv in Hv'. injection Hv' as <-.
    apply withdraw_type in Hw as (xs & Hxs & _). by destruct (Hlogin _ _ _ _ _ Hl Hxs).
  - intros (v' & au & Hv' & Ha & _) (v & l & Hv & Hl). rewrite Hv in Hv'. injection Hv' as <-.
    apply authorize_type in Ha as (xs & Hxs & _). by destruct (Hlogin _ _ _ _ _ Hl Hxs).
  - intros (v & au & Hv & Ha & Hat) (v' & w & Hv' & Hw & Hwt). rewrite Hv in Hv'. injection Hv' as <-.
    by destruct (Htypes _ _ _ Ha Hat Hw).
  - intros (v' & w & Hv' & Hw & _) (v & l & Hv & Hl). rewrite Hv in Hv'. injection Hv' as <-.
    apply withdraw_type in Hw as (xs & Hxs & _). by destruct (Hlogin _ _ _ _ _ Hl Hxs).
  - intros (v & w & Hv & Hw & Hwt) (v' & au & Hv' & Ha & Hat). rewrite Hv in Hv'. injection Hv' as <-.
    by destruct (Htypes _ _ _ Ha Hat Hw).
Qed.

(** The bytes an approval signs: an intent, then the transaction or the
    length-prefixed message. *)
Definition signed_bytes (k : PayloadKind) (payload : list Z) : list Z :=
  match k with
  | SuiTx => [0; 0; 0] ++ payload
  | _ => [3; 0; 0] ++ uleb128 (len payload) ++ payload
  end.

(** C28: what an approval signs binds what was approved.  For two approvals,
    whatever the vaults, parents and declared kinds, each message is the hash
    of its intent, prefix and payload, and these preimages are equal only for
    the same payload approved as the same kind: no login, authorization,
    withdrawal or transaction passes for another, unless these two preimages
    collide under the hash. *)
Theorem approved_digest_binds p1 p2 parent1 parent2 kind1 kind2 payload1 payload2 a1 a2 :
  u64 (len payload1) → u64 (len payload2) →
  classify_payload p1 parent1 kind1 payload1 = Ok a1 → classify_payload p2 parent2 kind2 payload2 = Ok a2 →
  let m1 := signed_bytes (ap_kind a1) payload1 in let m2 := signed_bytes (ap_kind a2) payload2 in
  message a1 = blake2b256 m1 ∧ message a2 = blake2b256 m2 ∧
  (m1 = m2 ↔ ap_kind a1 = ap_kind a2 ∧ payload1 = payload2).
Proof.
  intros L1 L2 (_ & R1 & M1)%payload_approved (_ & R2 & M2)%payload_approved. cbn zeta.
  assert (∀ k payload, blake2b256 (signed_bytes k payload) =
    match k with SuiTx => transaction_digest payload | _ => personal_message_digest payload end) as Hm.
  { intros k payload. destruct k; cbn [signed_bytes]; unfold transaction_digest, personal_message_digest, blake2b256_parts;
      cbn [mjoin list_join]; by rewrite app_nil_r. }
  rewrite !Hm. split_and!; [done..|]. split; [|by intros [-> ->]]. intros E.
  destruct (decide (ap_kind a1 = SuiTx)) as [K1|K1], (decide (ap_kind a2 = SuiTx)) as [K2|K2].
  - rewrite K1, K2 in *. by injection E.
  - rewrite K1 in E. by destruct (ap_kind a2).
  - rewrite K2 in E. by destruct (ap_kind a1).
  - assert (payload1 = payload2) as ->.
    { assert ([3; 0; 0] ++ uleb128 (len payload1) ++ payload1 = [3; 0; 0] ++ uleb128 (len payload2) ++ payload2) as Ep
        by (by destruct (ap_kind a1), (ap_kind a2)).
      cbn [app] in Ep. injection Ep as Ep. by apply uleb128_cancel in Ep as [_ ->]. }
    split; [|done]. by apply (read_as_unique _ _ payload2).
Qed.
End binding.

(** * Where value goes *)

Section flow.
Context `{CryptoCrates, SuiSdk, JsonCrate}.

(** The addresses a Move call transfers value to when it runs in a
    transaction; [None] for one that is not known. *)
Variable call_pays : ProgrammableTransaction → ProgrammableMoveCall → list (option SuiAddress).

(** The vault a call of [return_external] is passed: the object at its first
    argument.  A vault is a shared object, so a call with anything else there,
    or with the clock, does not run and pays nothing. *)
Definition returned_to (pt : ProgrammableTransaction) (c : ProgrammableMoveCall) : list (option SuiAddress) :=
  match arguments c with
  | Input i :: _ =>
      match inputs pt !! i with
      | Some (Object (SharedObject id)) => if decide (id = SUI_CLOCK_OBJECT_ID) then [] else [Some id]
      | _ => []
      end
  | _ => []
  end.

Definition plumbing (c : ProgrammableMoveCall) : Prop :=
  package c = framework ∧ module c = str "coin" ∨ package c = move_stdlib.

Definition return_call (p : VaultPolicy) (c : ProgrammableMoveCall) : Prop :=
  package c = trading_vault_package p ∧ module c = str "vault" ∧ function c = str "return_external".

(** What the packages document: the standard library moves nothing to an
    address, [vault::return_external] pays the vault it is passed
    ([vault.move]), and [exchange::deposit_to_asset_bank] credits its third
    argument.  Nothing is said of the coin module of the framework, whose
    functions may pay. *)
Record PackagesSpec (p : VaultPolicy) : Prop := {
  stdlib_pays pt c : package c = move_stdlib → call_pays pt c = [];
  return_pays pt c : return_call p c → call_pays pt c = returned_to pt c;
  deposit_pays pt c :
    bluefin_package p = Some (package c) → module c = str "exchange" → function c = str "deposit_to_asset_bank" →
    call_pays pt c = [pure_argument address_from_bcs pt c 2];
}.

Definition command_pays (pt : ProgrammableTransaction) (c : Command) : list (option SuiAddress) :=
  match c with
  | MoveCall c => call_pays pt c
  | TransferObjects _ r => [match resolve_recipient pt r with RPure a => Some a | _ => None end]
  | SplitCoins _ _ | MergeCoins _ _ | MakeMoveVec _ _ => []
  | Publish | Upgrade => [None]
  end.

Definition tx_pays (pt : ProgrammableTransaction) : list (option SuiAddress) := flat_map (command_pays pt) (commands pt).

(** What the transaction pays through calls of the coin module. *)
Definition coin_pays (pt : ProgrammableTransaction) (x : option SuiAddress) : Prop :=
  ∃ c, MoveCall c ∈ commands pt ∧ package c = framework ∧ module c = str "coin" ∧ x ∈ call_pays pt c.

(** What it pays to an allowlisted vault. *)
Definition vault_pays (p : VaultPolicy) (pt : ProgrammableTransaction) (x : option SuiAddress) : Prop :=
  ∃ c id, MoveCall c ∈ commands pt ∧ return_call p c ∧ returned_to pt c = [Some id] ∧
          id ∈ allowed_shared p ∧ x = Some id.

(** Plumbing pays nothing, unless it is the coin module that pays. *)
Lemma plumbing_pays p pt c x :
  PackagesSpec p → plumbing c → MoveCall c ∈ commands pt → x ∈ call_pays pt c → coin_pays pt x.
Proof.
  intros Hp [[E1 E2]|E] Hin Hx; [by exists c|].
  rewrite (stdlib_pays p Hp) in Hx by done. by apply not_elem_of_nil in Hx.
Qed.

Lemma kind_of_known p c : kind_of p c ≠ Unknown ↔ plumbing c ∨ return_call p c.
Proof.
  unfold kind_of, plumbing, return_call.
  repeat case_bool_decide; cbn [andb]; split; first [done|tauto].
Qed.

Lemma returned_to_elem pt c x :
  x ∈ returned_to pt c →
  ∃ id, returned_to pt c = [Some id] ∧ x = Some id ∧ id ≠ SUI_CLOCK_OBJECT_ID ∧
        Object (SharedObject id) ∈ inputs pt.
Proof.
  unfold returned_to. destruct (arguments c) as [|[|i| |] args]; try by intros ?%not_elem_of_nil.
  destruct (inputs pt !! i) as [[|[|id|]|]|] eqn:Ei; try by intros ?%not_elem_of_nil.
  case_decide; [by intros ?%not_elem_of_nil|]. intros ->%list_elem_of_singleton.
  exists id. split_and!; [done..|]. by eapply list_elem_of_lookup_2.
Qed.

Lemma tx_pays_all (P : option SuiAddress → Prop) pt :
  (∀ c x, c ∈ commands pt → x ∈ command_pays pt c → P x) → ∀ x, x ∈ tx_pays pt → P x.
Proof.
  intros HP x Hx. apply list_elem_of_In, in_flat_map in Hx as (c & Hc & Hx).
  apply (HP c); by apply list_elem_of_In.
Qed.

(** A sweep, as the module comment describes it. *)
Definition sweep (p : VaultPolicy) (pt : ProgrammableTransaction) : Prop :=
  (∀ c, c ∈ commands pt → is_deployment c = false) ∧
  (∀ id, Object (SharedObject id) ∈ inputs pt → id = SUI_CLOCK_OBJECT_ID ∨ id ∈ allowed_shared p) ∧
  (∀ c, MoveCall c ∈ commands pt → plumbing c ∨ return_call p c) ∧
  (∀ os r, TransferObjects os r ∈ commands pt →
     resolve_recipient pt r = RPure (vault_address p) ∨ resolve_recipient pt r = RPure (external_account p)) ∧
  (∃ c, c ∈ commands pt ∧ ((∃ call, c = MoveCall call) ∨ is_transfer c = true)).

Lemma foreign_shared_nil allowed pt :
  foreign_shared allowed pt = [] ↔ ∀ id, Object (SharedObject id) ∈ inputs pt → allowed id = true.
Proof.
  unfold foreign_shared. split.
  - intros Hn id Hin. destruct (allowed id) eqn:E; [done|].
    assert (id ∈ omap (λ i, match i with Object (SharedObject id) => if allowed id then None else Some id | _ => None end)
      (inputs pt)) as Hid.
    { apply list_elem_of_omap. exists (Object (SharedObject id)). by rewrite E. }
    rewrite Hn in Hid. by apply not_elem_of_nil in Hid.
  - intros Ha. apply elem_of_nil_inv. intros id (i & Hi & E)%list_elem_of_omap.
    destruct i as [|[|id'|]|]; try done. by rewrite (Ha id' Hi) in E.
Qed.

Lemma omap_nil {A B} (f : A → option B) l : omap f l = [] ↔ ∀ x, x ∈ l → f x = None.
Proof.
  split.
  - intros Hn x Hx. destruct (f x) as [y|] eqn:E; [|done].
    assert (y ∈ omap f l) as Hy by (apply list_elem_of_omap; by exists x). rewrite Hn in Hy. by apply not_elem_of_nil in Hy.
  - intros Hf. apply elem_of_nil_inv. intros y (x & Hx & E)%list_elem_of_omap. by rewrite (Hf x Hx) in E.
Qed.

Lemma calls_of_elem pt c : c ∈ calls_of pt ↔ MoveCall c ∈ commands pt.
Proof.
  unfold calls_of. rewrite list_elem_of_omap. split.
  - intros (x & Hx & E). destruct x; try done. by injection E as ->.
  - intros Hc. by exists (MoveCall c).
Qed.

Lemma existsb_false {A} (f : A → bool) l : existsb f l = false ↔ ∀ x, x ∈ l → f x = false.
Proof.
  split.
  - intros He x Hx. destruct (f x) eqn:E; [|done].
    rewrite <- He. symmetry. apply existsb_exists. exists x. split; [by apply list_elem_of_In|done].
  - intros Hf. destruct (existsb f l) eqn:E; [|done]. apply existsb_exists in E as (x & Hx & Ex).
    rewrite (Hf x) in Ex; [done|by apply list_elem_of_In].
Qed.

Lemma classify_sweep p pt : classify p pt = Approve Strict ↔ sweep p pt.
Proof.
  unfold classify, sweep. cbv zeta.
  assert (∀ c, call_denied p c = None ↔ plumbing c ∨ return_call p c) as Hcall.
  { intros c. rewrite <- kind_of_known. unfold call_denied. by destruct (kind_of p c). }
  assert (∀ os r, transfer_denied p pt (TransferObjects os r) = None ↔
    resolve_recipient pt r = RPure (vault_address p) ∨ resolve_recipient pt r = RPure (external_account p)) as Htr.
  { intros os r. cbn [transfer_denied]. destruct (resolve_recipient pt r) as [a| |]; [|split; [done|by intros [|]]..].
    destruct (bool_decide (a = vault_address p)) eqn:E1; cbn [orb].
    - reflect_bools. subst. split; [by left|done].
    - destruct (bool_decide (a = external_account p)) eqn:E2; reflect_bools; subst; [split; [by right|done]|].
      split; [done|]. by intros [[=]|[=]]. }
  split.
  - destruct (existsb is_deployment (commands pt)) eqn:Ed; [done|].
    destruct (foreign_shared _ pt) eqn:Es; [|done]. destruct (omap (call_denied p) _) eqn:Ec; [|done].
    destruct (omap (transfer_denied p pt) _) eqn:Et; [|done].
    destruct (match calls_of pt with [] => true | _ => false end && _) eqn:En; [done|]. intros _.
    pose proof (proj1 (foreign_shared_nil _ _) Es) as Hs. pose proof (proj1 (omap_nil _ _) Ec) as Hc.
    pose proof (proj1 (omap_nil _ _) Et) as Ht. split_and!.
    + by apply existsb_false.
    + intros id Hid. specialize (Hs id Hid). apply orb_true_iff in Hs as [Hs|Hs]; reflect_bools; auto.
    + intros c Hin. apply Hcall, Hc. by apply calls_of_elem.
    + intros os r Hin. apply (Htr os). by apply Ht.
    + apply andb_false_iff in En as [En|En].
      * destruct (calls_of pt) as [|c cs] eqn:E; [done|]. exists (MoveCall c). split; [|by left; eexists].
        apply calls_of_elem. rewrite E. left.
      * apply negb_false_iff, existsb_exists in En as (c & Hin & Hc'). exists c. split; [by apply list_elem_of_In|by right].
  - intros (Hd & Hs & Hc & Ht & c & Hin & Hsome).
    rewrite (proj2 (existsb_false _ _) Hd).
    rewrite (proj2 (foreign_shared_nil _ _)).
    2: { intros id Hid. apply orb_true_iff. destruct (Hs id Hid); [left|right]; by apply bool_decide_eq_true. }
    rewrite (proj2 (omap_nil _ _)); [|intros c' Hc'; by apply Hcall, Hc, calls_of_elem].
    rewrite (proj2 (omap_nil _ _)); [|intros c' Hc'; destruct c'; try done; by apply Htr, (Ht objects)].
    assert (match calls_of pt with [] => true | _ => false end && negb (existsb is_transfer (commands pt)) = false) as ->; [|done].
    apply andb_false_iff. destruct Hsome as [[call ->]|Htrans].
    + left. apply calls_of_elem in Hin. destruct (calls_of pt); [by apply not_elem_of_nil in Hin|done].
    + right. apply negb_false_iff, existsb_exists. exists c. split; [by apply list_elem_of_In|done].
Qed.

Lemma sweep_pays p pt x :
  PackagesSpec p → sweep p pt → x ∈ tx_pays pt →
  x = Some (vault_address p) ∨ x = Some (external_account p) ∨ vault_pays p pt x ∨ coin_pays pt x.
Proof.
  intros Hp (Hd & Hs & Hc & Ht & _). revert x. apply tx_pays_all. intros c x Hin Hx.
  destruct c as [c|os r| | | | |]; cbn [command_pays] in Hx; try by apply not_elem_of_nil in Hx.
  - destruct (Hc c Hin) as [Hk|Hk].
    + right. right. right. by apply (plumbing_pays p pt c).
    + rewrite (return_pays p Hp) in Hx by done. apply returned_to_elem in Hx as (id & Hto & -> & Hne & Hid).
      right. right. left. exists c, id. split_and!; [done..| |done]. by destruct (Hs id Hid).
  - apply list_elem_of_singleton in Hx as ->. destruct (Ht os r Hin) as [-> | ->]; auto.
  - by specialize (Hd _ Hin).
  - by specialize (Hd _ Hin).
Qed.

(** A command of the deposit shape, with the deposits found. *)
Definition deposit_command (pkg : ObjectID) (ds : list ProgrammableMoveCall) (c : Command) : Prop :=
  match c with
  | MoveCall c =>
      (c ∈ ds ∧ package c = pkg ∧ module c = str "exchange" ∧ function c = str "deposit_to_asset_bank") ∨
      plumbing c
  | SplitCoins _ _ | MergeCoins _ _ | MakeMoveVec _ _ => True
  | TransferObjects _ _ | Publish | Upgrade => False
  end.

Lemma deposit_command_mono pkg ds ds' c :
  (∀ d, d ∈ ds → d ∈ ds') → deposit_command pkg ds c → deposit_command pkg ds' c.
Proof. intros Hsub. destruct c; cbn; naive_solver. Qed.

Lemma deposit_calls_ok pkg cs ds :
  deposit_calls pkg cs = Ok ds → ∀ c, c ∈ cs → deposit_command pkg ds c.
Proof.
  revert ds. induction cs as [|c cs IH]; intros ds Hds; [by intros c Hc%not_elem_of_nil|].
  assert (∀ ds' c', deposit_calls pkg cs = Ok ds' → (∀ d, d ∈ ds' → d ∈ ds) → c' ∈ cs → deposit_command pkg ds c') as Hrest.
  { intros ds' c' Hds' Hsub Hc'. eapply deposit_command_mono; [exact Hsub|]. by apply IH. }
  cbn [deposit_calls] in Hds. intros c' Hc'. destruct c as [c|os r|os r|os r|os r| |]; try done.
  - destruct (bool_decide (package c = pkg) && bool_decide (module c = str "exchange")
      && bool_decide (function c = str "deposit_to_asset_bank")) eqn:E1.
    + destruct (deposit_calls pkg cs) as [rest|] eqn:Er; [|done]. injection Hds as <-. reflect_bools.
      apply elem_of_cons in Hc' as [->|Hc']; [left; split_and!; [left|done..]|].
      apply (Hrest rest); [done|intros d Hd; by right|done].
    + destruct (bool_decide (package c = framework) && bool_decide (module c = str "coin")) eqn:E2.
      * apply elem_of_cons in Hc' as [->|Hc']; [|by apply (Hrest ds)]. right. left. by reflect_bools.
      * destruct (bool_decide (package c = move_stdlib)) eqn:E3; [|done].
        apply elem_of_cons in Hc' as [->|Hc']; [|by apply (Hrest ds)]. right. right. by reflect_bools.
  - apply elem_of_cons in Hc' as [->|Hc']; [done|by apply (Hrest ds)].
  - apply elem_of_cons in Hc' as [->|Hc']; [done|by apply (Hrest ds)].
  - apply elem_of_cons in Hc' as [->|Hc']; [done|by apply (Hrest ds)].
Qed.

Lemma deposit_pays_parent p parent pt d x :
  PackagesSpec p → classify_bluefin_deposit p parent pt = Ok d → x ∈ tx_pays pt → x = Some parent ∨ coin_pays pt x.
Proof.
  intros Hp. unfold classify_bluefin_deposit. destruct (bluefin_package p) as [pkg|] eqn:Epkg; [|done].
  destruct (bluefin_eds p) as [eds|]; [|done]. cbn [ok_or mbind result_bind].
  destruct (foreign_shared _ pt); [|done]. destruct (deposit_calls pkg (commands pt)) as [ds|] eqn:Eds; [|done].
  cbn [mbind result_bind]. destruct ds as [|call [|]]; try done.
  destruct (pure_argument address_from_bcs pt call 2) as [target|] eqn:Et; [|done]. cbn [ok_or mbind result_bind].
  case_bool_decide as Etp; [|done]. cbn [negb]. subst target. intros _.
  revert x. apply tx_pays_all. intros c x Hin Hx. pose proof (deposit_calls_ok _ _ _ Eds c Hin) as Hc.
  destruct c as [c|os r| | | | |]; cbn [command_pays] in Hx; try done; try by apply not_elem_of_nil in Hx.
  destruct Hc as [(Hds & E1 & E2 & E3)|Hk].
  - apply list_elem_of_singleton in Hds as ->. rewrite (deposit_pays p Hp) in Hx by (by rewrite ?Epkg, ?E1).
    apply list_elem_of_singleton in Hx. left. by rewrite Et in Hx.
  - right. by apply (plumbing_pays p pt c).
Qed.

(** C8: the transactions the signer endorses.  The co-signer endorses exactly
    the sweeps: no deployment, no shared input outside the allowlist, no call
    but plumbing ([0x2::coin], [0x1]) and [vault::return_external] of the
    trading-vault package, every transfer to the vault or its account, and
    something to endorse.  As a venue payload a transaction is approved only
    when the parent sends it.  What it pays, given what the called packages
    document, goes to the vault, its account, the parent, or by
    [return_external] to a vault of the allowlist, the one the call is passed,
    which the policy does not compare with its own; but for what calls of the
    framework's coin module pay, which no check looks at. *)
Theorem endorsed_transactions_pay_the_vault p :
  PackagesSpec p →
  (∀ pt, classify p pt = Approve Strict ↔ sweep p pt) ∧
  (∀ pt x, classify p pt = Approve Strict → x ∈ tx_pays pt →
     x = Some (vault_address p) ∨ x = Some (external_account p) ∨ vault_pays p pt x ∨ coin_pays pt x) ∧
  ∀ parent kind payload a,
    classify_payload p parent kind payload = Ok a → ap_kind a = SuiTx →
    ∃ tx pt, transaction_from_bcs payload = Some tx ∧ SuiTx.kind tx = Some pt ∧ sender tx = parent ∧
      ∀ x, x ∈ tx_pays pt →
        x = Some (vault_address p) ∨ x = Some (external_account p) ∨ x = Some parent ∨
        vault_pays p pt x ∨ coin_pays pt x.
Proof.
  intros Hp. split_and!.
  - apply classify_sweep.
  - intros pt x Hc%classify_sweep Hx. by apply (sweep_pays p pt).
  - intros parent k payload a Ha Hk. pose proof (payload_approved _ _ _ _ _ Ha) as (Hkind & _ & _). rewrite Hk in Hkind.
    unfold classify_payload in Ha. rewrite Hkind in Ha. cbn [ok_or mbind result_bind] in Ha.
    apply sui_tx_approved in Ha as (_ & _ & tx & pt & Etx & Es & Ek & Hshape). exists tx, pt. split_and!; [done..|].
    intros x Hx. destruct (touches_bluefin p pt).
    + destruct Hshape as [d Hd]. destruct (deposit_pays_parent p parent pt d x Hp Hd Hx); auto 6.
    + apply classify_sweep in Hshape. destruct (sweep_pays p pt x Hp Hshape Hx) as [|[|[|]]]; auto 6.
Qed.
End flow.

(** * Instances *)

Lemma approved_digest_binds_witness :
  ap_kind <$> classify_payload demo_policy demo_parent (str "login") [120] = Ok Login ∧
  ap_kind <$> classify_payload demo_policy demo_parent (str "withdraw") [121] = Ok Withdraw ∧
  (signed_bytes Login [120] = signed_bytes Withdraw [121] ↔ Login = Withdraw ∧ [120] = [121]).
Proof.
  assert (∀ k, u64 (len [k])) as Hlen by (split; vm_compute; discriminate).
  split; [vm_compute; reflexivity|]. split; [vm_compute; reflexivity|].
  destruct (classify_payload demo_policy demo_parent (str "login") [120]) as [a1|] eqn:E1; [|vm_compute in E1; discriminate].
  destruct (classify_payload demo_policy demo_parent (str "withdraw") [121]) as [a2|] eqn:E2; [|vm_compute in E2; discriminate].
  pose proof (approved_digest_binds demo_policy demo_policy demo_parent demo_parent (str "login") (str "withdraw")
    [120] [121] a1 a2 (Hlen 120) (Hlen 121) E1 E2) as (_ & _ & H).
  assert (ap_kind a1 = Login) as K1 by (vm_compute in E1; injection E1 as <-; reflexivity).
  assert (ap_kind a2 = Withdraw) as K2 by (vm_compute in E2; injection E2 as <-; reflexivity).
  rewrite K1, K2 in H. exact H.
Defined.

(** What the packages of the instance pay. *)
Definition demo_pays (pt : ProgrammableTransaction) (c : ProgrammableMoveCall) : list (option SuiAddress) :=
  if bool_decide (package c = demo_addr 63) then [pure_argument address_from_bcs pt c 2]
  else if bool_decide (package c = demo_trading_vault) then returned_to pt c
  else if bool_decide (function c = str "send_funds") && bool_decide (package c = framework)
  then [pure_argument address_from_bcs pt c 1]
  else [].

Lemma demo_packages p :
  trading_vault_package p = demo_trading_vault → bluefin_package p = Some (demo_addr 63) → PackagesSpec demo_pays p.
Proof.
  intros Htv Hbf. split.
  - intros pt c E. unfold demo_pays. rewrite E. by destruct (bool_decide (function c = str "send_funds")).
  - intros pt c (E & _). unfold demo_pays. by rewrite E, Htv.
  - intros pt c E _ _. rewrite Hbf in E. injection E as E. unfold demo_pays. by rewrite <- E.
Qed.

Lemma endorsed_transactions_pay_the_vault_witness :
  classify demo_policy demo_sweep = Approve Strict ∧
  (∀ x, x ∈ tx_pays demo_pays demo_sweep →
     x = Some (demo_addr 50) ∨ x = Some demo_parent ∨ vault_pays demo_policy demo_sweep x ∨
     coin_pays demo_pays demo_sweep x) ∧
  tx_pays demo_pays demo_sweep = [Some (demo_addr 50); Some (demo_addr 50)].
Proof.
  assert (classify demo_policy demo_sweep = Approve Strict) as Hc by (vm_compute; reflexivity).
  split; [exact Hc|]. split.
  - intros x. exact (proj1 (proj2 (endorsed_transactions_pay_the_vault demo_pays demo_policy
      (demo_packages demo_policy eq_refl eq_refl))) demo_sweep x Hc).
  - vm_compute. reflexivity.
Defined.

(** * The sweep pays the vault it names

    With a second vault on the allowlist, a transaction that returns the
    coins of the account to that one is endorsed. *)
Definition demo_two_vaults : VaultPolicy :=
  mkPolicy demo_vault_id demo_parent (demo_addr 50) demo_trading_vault {[demo_addr 50; demo_addr 51]} [demo_addr 51]
    None None None None (Some (demo_addr 63)).

Definition demo_other_sweep : ProgrammableTransaction :=
  mkPT [Object (SharedObject (demo_addr 51))]
    [MoveCall (mkMoveCall demo_trading_vault (str "vault") (str "return_external") [] [Input 0; GasCoin])].

Lemma sweep_to_another_vault :
  classify demo_two_vaults demo_other_sweep = Approve Strict ∧
  tx_pays demo_pays demo_other_sweep = [Some (demo_addr 51)] ∧
  vault_address demo_two_vaults ≠ demo_addr 51.
Proof. split_and!; vm_compute; [reflexivity..|discriminate]. Qed.

(** * The coin module pays

    A call of [0x2::coin] is plumbing whatever its function: a transaction
    whose one call sends the coins to a stranger is endorsed. *)
Lemma coin_call_pays_stranger :
  classify demo_policy demo_send_funds = Approve Strict ∧
  tx_pays demo_pays demo_send_funds = [Some (demo_addr 77)] ∧
  ap_kind <$> classify_payload demo_policy demo_parent (str "sui_tx") [2] = Ok SuiTx.
Proof. split_and!; vm_compute; reflexivity. Qed.

(** * Requests in turn *)

Definition keygen_r1 (v p : rstring) := frost_keygen_round1 demo_trading_vault v p.

Fixpoint replies (ps : list (prog HState (result ApiError Reply))) (s : HState) : list (result ApiError Reply) * HState :=
  match ps with
  | [] => ([], s)
  | p :: ps' => let '(s1, r) := run p s in let '(rs, s2) := replies ps' s1 in (r :: rs, s2)
  end.

(** A vault at every address. *)
Definition any_vault (disk : bool) : World :=
  mkWorld 1000 0 disk (λ id, Ok (Some (mkChainObject true (Some (demo_trading_vault, str "vault", str "TradingVault"))
    (Some (JObject [(str "external", JNull)]))))).

(** * A keygen whose share cannot be written

    The second round answers with an error and nothing is on disk, but the
    share stays in memory: once the disk works again the vault's keygen is
    refused for a parent that no restart will know. *)
Lemma failed_keygen_blocks_the_vault :
  let r := replies
    [keygen_r1 demo_vault_id [1]; frost_keygen_round2 demo_vault_id [2];
     (_ ← modify (set_world (demo_chain true)); keygen_r1 demo_vault_id [1])]
    (open ∅ (demo_chain false)) in
  r.1 = [Ok (KeygenRound1Resp [40; 0]); Err (Plain 400); Err (Conflict (addr_bytes demo_parent) [8; 1])] ∧
  share_file r.2 = ∅.
Proof. split; vm_compute; reflexivity. Qed.

(** * A share pruned beside the running service

    [prune-share] removes the share from the file it opened; the service
    still holds it, refuses the vault's next keygen, and the keygen of another
    vault writes the pruned share back. *)
Definition other_vault : rstring := replicate 32 51.

Definition pruned_beside : list (result ApiError Reply) * gmap rstring VaultShare * gmap rstring VaultShare :=
  let '(_, s) := replies [keygen_r1 demo_vault_id [1]; frost_keygen_round2 demo_vault_id [2]] (open ∅ (any_vault true)) in
  let cli := (run (prune_share demo_trading_vault (λ _, Ok false) demo_vault_id) (open (share_file s) (world s))).1 in
  let '(rs, s') := replies
    [keygen_r1 demo_vault_id [1]; keygen_r1 other_vault [3]; frost_keygen_round2 other_vault [2]]
    (set_shares (shares s) (share_file cli) s) in
  (rs, share_file cli, share_file s').

Lemma pruned_share_comes_back :
  pruned_beside.1.2 = ∅ ∧ head pruned_beside.1.1 = Some (Err (Conflict (addr_bytes demo_parent) [8; 1])) ∧
  is_Some (pruned_beside.2 !! demo_vault_id).
Proof. split_and!; [vm_compute; reflexivity..|]. vm_compute. by eexists. Qed.

(** * Decisions without an audit line

    An approval in the first round of signing is not recorded. *)
Lemma approval_not_audited :
  let r := replies
    [keygen_r1 demo_vault_id [1]; frost_keygen_round2 demo_vault_id [2];
     frost_sign_round1 demo_vaults demo_vault_id (str "login") [120]]
    (open ∅ (demo_chain true)) in
  last r.1 = Some (Ok (SignRound1Resp [102] [42; 1] (personal_message_digest [120]))) ∧ audit r.2 = [].
Proof. split; vm_compute; reflexivity. Qed.
