(* ===== verification/HedgeSafety.v ===== *)
(** What holds of the signer under every schedule. *)

From stdpp Require Import gmultiset.
From S2P Require Import Prelude Prog RustStr ExchangeTypes Crates Json Wire SuiTx HedgePolicy BluefinPolicy HedgeService.

(** A task owns nonces, knows a share, knows that a share is on disk. *)
Inductive Token :=
  | TNonce (draw : nat)
  | TKnown (vault_id : rstring) (share : VaultShare)
  | TStored (vault_id : rstring) (share : VaultShare).

#[export] Instance Token_eq_dec : EqDecision Token.
Proof. solve_decision. Defined.
#[export] Instance Token_countable : Countable Token.
Proof.
  refine (inj_countable'
    (λ t, match t with
          | TNonce d => inl d
          | TKnown v s => inr (inl (v, s))
          | TStored v s => inr (inr (v, s))
          end)
    (λ c, match c with
          | inl d => TNonce d
          | inr (inl (v, s)) => TKnown v s
          | inr (inr (v, s)) => TStored v s
          end) _).
  by intros [].
Defined.

Abbreviation tokens := (gmultiset Token).

(** The draws whose nonces have signed. *)
Definition used_draws (l : list Trace) : list nat :=
  omap (λ t, match t with UsedNonces _ d _ _ => Some d | _ => None end) l.

Lemma used_draws_app l1 l2 : used_draws (l1 ++ l2) = used_draws l1 ++ used_draws l2.
Proof. apply omap_app. Qed.

Section props.
Context `{CryptoCrates, SuiSdk, JsonCrate, HexCrate, Base64Crate, FrostCrate, UuidCrate, ServiceKey}.
Variable vaults : gmap rstring VaultPolicy.
Variable trading_vault_pkg : ObjectID.

(** The policy of the vault approved a payload with this digest, for the
    parent address of the share. *)
Definition vouched (v : rstring) (share : VaultShare) (msg : list Z) : Prop :=
  ∃ policy parent kind payload a,
    vaults !! v = Some policy ∧ group_sui_address (public_key_package share) = Some parent ∧
    classify_payload policy parent kind payload = Ok a ∧ message a = msg.

Definition trace_ok (s : HState) (t : Trace) : Prop :=
  match t with
  | UsedNonces v d msg package =>
      package_message package = msg ∧ ∃ share, shares s !! v = Some share ∧ vouched v share msg
  | Reported v parent =>
      ∃ share, share_file s !! v = Some share ∧ group_sui_address (public_key_package share) = Some parent
  | Countersigned v tx =>
      ∃ policy pt, vaults !! v = Some policy ∧ sender tx = external_account policy ∧ SuiTx.kind tx = Some pt ∧
        classify policy pt = Approve Strict
  end.

Record hinv (s : HState) (g : tokens) : Prop := {
  hi_file v share : share_file s !! v = Some share → shares s !! v = Some share;
  hi_known v share : TKnown v share ∈ g → shares s !! v = Some share;
  hi_stored v share : TStored v share ∈ g → share_file s !! v = Some share;
  hi_owned d : TNonce d ∈ g → (d < draws s)%nat ∧ d ∉ used_draws (trace s) ∧ multiplicity (TNonce d) g = 1%nat;
  hi_session id a :
    signing s !! id = Some a →
    (ss_draw a < draws s)%nat ∧ ss_draw a ∉ used_draws (trace s) ∧ TNonce (ss_draw a) ∉ g ∧
    (∀ id' a', signing s !! id' = Some a' → ss_draw a' = ss_draw a → id' = id) ∧
    ∃ share, shares s !! ss_vault_id a = Some share ∧ vouched (ss_vault_id a) share (ss_message a);
  hi_used : NoDup (used_draws (trace s));
  hi_used_drawn d : d ∈ used_draws (trace s) → (d < draws s)%nat;
  hi_trace t : t ∈ trace s → trace_ok s t;
}.

Abbreviation holds := (owns hinv).
Abbreviation quiet := (Prog.quiet hinv).

Lemma nonce_once d (g : tokens) : multiplicity (TNonce d) ({[+ TNonce d +]} ⊎ g) = 1%nat ↔ TNonce d ∉ g.
Proof. rewrite multiplicity_disj_union, multiplicity_singleton, elem_of_multiplicity, decide_True by done. lia. Qed.

(** The fields the invariant does not look at. *)
Lemma hinv_same s s' g :
  shares s' = shares s → share_file s' = share_file s → signing s' = signing s → draws s' = draws s →
  trace s' = trace s → hinv s g → hinv s' g.
Proof.
  intros E1 E2 E3 E4 E5 [F K T O S U D R]. split; rewrite ?E1, ?E2, ?E3, ?E4, ?E5; try done.
  intros t Ht. specialize (R t Ht). by destruct t; unfold trace_ok in *; rewrite ?E1, ?E2.
Qed.

(** Nonces a task drops are never used. *)
Lemma hinv_weaken s g h : hinv s (g ⊎ h) → hinv s h.
Proof.
  assert (∀ t, t ∈ h → t ∈ g ⊎ h) as Hin by multiset_solver.
  intros [F K T O S U D R]. split; try done; auto.
  - intros d Hd. destruct (O d (Hin _ Hd)) as (? & ? & Hm). split_and!; [done..|].
    rewrite multiplicity_disj_union in Hm. rewrite elem_of_multiplicity in Hd. lia.
  - intros id a Ha. destruct (S id a Ha) as (? & ? & Hn & ? & ?). split_and!; auto.
Qed.

(** Sessions may go. *)
Lemma hinv_sessions x s g :
  (∀ id a, x !! id = Some a → signing s !! id = Some a) → hinv s g → hinv (set_signing x s) g.
Proof.
  intros Hx [F K T O S U D R]. split; try done.
  - intros id a Ha. cbn [signing set_signing] in Ha. destruct (S id a (Hx _ _ Ha)) as (? & ? & ? & Hu & ?).
    split_and!; try done. intros id' a' Ha'. apply Hu. by apply Hx.
Qed.

(** Draws only grow. *)
Lemma hinv_draw s g : hinv s g → hinv (set_draws (Datatypes.S (draws s)) s) g.
Proof.
  intros [F K T O S U D R]. split; try done; cbn [draws set_draws trace signing shares share_file].
  - intros d Hd. destruct (O d Hd) as (? & ?). split; [lia|done].
  - intros id a Ha. destruct (S id a Ha) as (? & ?). split; [lia|done].
  - intros d Hd. specialize (D d Hd). lia.
Qed.

(** A share learned. *)
Lemma hinv_known s g v share : shares s !! v = Some share → hinv s g → hinv s ({[+ TKnown v share +]} ⊎ g).
Proof.
  intros Hv [F K T O S U D R]. split; try done.
  - intros v' share' [Hin|Hin]%gmultiset_elem_of_disj_union; [|by apply K].
    apply gmultiset_elem_of_singleton in Hin as [= -> ->]. done.
  - intros v' share' [Hin|Hin]%gmultiset_elem_of_disj_union; [|by apply T].
    by apply gmultiset_elem_of_singleton in Hin.
  - intros d [Hin|Hin]%gmultiset_elem_of_disj_union; [by apply gmultiset_elem_of_singleton in Hin|].
    rewrite multiplicity_disj_union, multiplicity_singleton_ne by done. by apply O.
  - intros id a Ha. destruct (S id a Ha) as (? & ? & Hn & ?). split_and!; [done..| |naive_solver|naive_solver].
    intros [Hin|Hin]%gmultiset_elem_of_disj_union; [by apply gmultiset_elem_of_singleton in Hin|done].
Qed.

Lemma hinv_stored s g v share : share_file s !! v = Some share → hinv s g → hinv s ({[+ TStored v share +]} ⊎ g).
Proof.
  intros Hv [F K T O S U D R]. split; try done.
  - intros v' share' [Hin|Hin]%gmultiset_elem_of_disj_union; [by apply gmultiset_elem_of_singleton in Hin|by apply K].
  - intros v' share' [Hin|Hin]%gmultiset_elem_of_disj_union; [|by apply T].
    apply gmultiset_elem_of_singleton in Hin as [= -> ->]. done.
  - intros d [Hin|Hin]%gmultiset_elem_of_disj_union; [by apply gmultiset_elem_of_singleton in Hin|].
    rewrite multiplicity_disj_union, multiplicity_singleton_ne by done. by apply O.
  - intros id a Ha. destruct (S id a Ha) as (? & ? & Hn & ?). split_and!; [done..| |naive_solver|naive_solver].
    intros [Hin|Hin]%gmultiset_elem_of_disj_union; [by apply gmultiset_elem_of_singleton in Hin|done].
Qed.

(** Nonces drawn. *)
Lemma hinv_nonce s g : hinv s g → hinv (set_draws (Datatypes.S (draws s)) s) ({[+ TNonce (draws s) +]} ⊎ g).
Proof.
  intros Hs. assert (TNonce (draws s) ∉ g) as Hnew.
  { intros Hin. destruct (hi_owned _ _ Hs _ Hin). lia. }
  assert (draws s ∉ used_draws (trace s)) as Hun.
  { intros Hin. pose proof (hi_used_drawn _ _ Hs _ Hin). lia. }
  destruct Hs as [F K T O S U D R]. split; try done; cbn [draws set_draws trace signing shares share_file].
  - intros v share [Hin|Hin]%gmultiset_elem_of_disj_union; [by apply gmultiset_elem_of_singleton in Hin|by apply K].
  - intros v share [Hin|Hin]%gmultiset_elem_of_disj_union; [by apply gmultiset_elem_of_singleton in Hin|by apply T].
  - intros d Hin. rewrite multiplicity_disj_union. destruct (decide (d = draws s)) as [->|Hne].
    + split_and!; [lia|done|]. rewrite <- multiplicity_disj_union. by apply nonce_once.
    + apply gmultiset_elem_of_disj_union in Hin as [Hin|Hin]; [apply gmultiset_elem_of_singleton in Hin; congruence|].
      rewrite multiplicity_singleton_ne by congruence. destruct (O d Hin) as (? & ? & ?). split_and!; [lia|done..].
  - intros id a Ha. destruct (S id a Ha) as (? & ? & Hn & ?). split_and!; [lia|done| |naive_solver|naive_solver].
    intros [Hin|Hin]%gmultiset_elem_of_disj_union; [|done]. apply gmultiset_elem_of_singleton in Hin as [= E]. lia.
  - intros d Hd. specialize (D d Hd). lia.
Qed.

(** The shares in memory grow, and the file follows them. *)
Lemma hinv_shares x f s g :
  shares s ⊆ x → share_file s ⊆ f → f ⊆ x → hinv s g → hinv (set_shares x f s) g.
Proof.
  rewrite !map_subseteq_spec. intros Hx Hf Hfx [F K T O S U D R].
  split; cbn [shares share_file signing draws trace set_shares]; eauto.
  - intros id a Ha. destruct (S id a Ha) as (? & ? & ? & ? & share & ? & ?). split_and!; eauto.
  - intros t Ht. specialize (R t Ht). destruct t as [v d m p|v a|v tx]; unfold trace_ok in *;
      cbn [shares share_file set_shares].
    + destruct R as (? & share & ? & ?); eauto 6.
    + destruct R as (share & ? & ?); eauto.
    + done.
Qed.

(** A session takes the nonces of its task. *)
Lemma hinv_open id a share s g :
  TKnown (ss_vault_id a) share ∈ g → vouched (ss_vault_id a) share (ss_message a) →
  hinv s ({[+ TNonce (ss_draw a) +]} ⊎ g) → hinv (set_signing (<[id := a]> (signing s)) s) g.
Proof.
  intros Hk Hv Hs. pose proof Hs as [F K T O S U D R].
  assert (TNonce (ss_draw a) ∈ {[+ TNonce (ss_draw a) +]} ⊎ g) as Hin by multiset_solver.
  destruct (O _ Hin) as (Hlt & Hun & Hm). pose proof (hi_known _ _ Hs (ss_vault_id a) share) as Hsh.
  apply hinv_weaken in Hs as [F' K' T' O' S' U' D' R']. split; try done; cbn [signing set_signing draws trace shares].
  intros id' b. rewrite lookup_insert_Some. intros [[<- <-]|[Hne Hb]].
  - split_and!; [done..| | |].
    + by apply nonce_once.
    + intros id'. intros a'. rewrite lookup_insert_Some. intros [[-> _]|[_ Ha']] E; [done|].
      destruct (S _ _ Ha') as (_ & _ & Hn & _). rewrite E in Hn. done.
    + exists share. split; [|done]. apply Hsh. multiset_solver.
  - destruct (S id' b Hb) as (? & ? & Hn & Hu & Hsh'). split_and!; [done..| | |done].
    + by destruct (S' _ _ Hb) as (_ & _ & ? & _).
    + intros id2 a2. rewrite lookup_insert_Some. intros [[<- <-]|[_ Ha2]] E; [|by eapply Hu].
      exfalso. apply Hn. rewrite <- E. done.
Qed.

(** A session ends: its nonces go to the task that took it. *)
Lemma hinv_take id a share s g :
  signing s !! id = Some a → shares s !! ss_vault_id a = Some share → hinv s g →
  hinv (set_signing (delete id (signing s)) s) ({[+ TNonce (ss_draw a) +]} ⊎ ({[+ TKnown (ss_vault_id a) share +]} ⊎ g)).
Proof.
  intros Ha Hsh Hs. pose proof (hinv_known _ _ _ _ Hsh Hs) as Hk. revert Hk.
  generalize ({[+ TKnown (ss_vault_id a) share +]} ⊎ g). clear g Hs Hsh.
  intros g [F K T O S U D R]. destruct (S id a Ha) as (Hlt & Hun & Hn & Hu & _).
  split; try done; cbn [signing set_signing draws trace shares share_file].
  - intros v sh [Hin|Hin]%gmultiset_elem_of_disj_union; [by apply gmultiset_elem_of_singleton in Hin|by apply K].
  - intros v sh [Hin|Hin]%gmultiset_elem_of_disj_union; [by apply gmultiset_elem_of_singleton in Hin|by apply T].
  - intros d Hin. rewrite multiplicity_disj_union. destruct (decide (d = ss_draw a)) as [->|Hne].
    + split_and!; [done..|]. rewrite <- multiplicity_disj_union. by apply nonce_once.
    + apply gmultiset_elem_of_disj_union in Hin as [Hin|Hin]; [apply gmultiset_elem_of_singleton in Hin; congruence|].
      rewrite multiplicity_singleton_ne by congruence. by apply O.
  - intros id' b. rewrite lookup_delete_Some. intros [Hne Hb]. destruct (S id' b Hb) as (? & ? & Hn' & Hu' & ?).
    split_and!; [done..| | |done].
    + intros [Hin|Hin]%gmultiset_elem_of_disj_union; [|done]. apply gmultiset_elem_of_singleton in Hin as [= E].
      by destruct Hne; symmetry; apply (Hu _ _ Hb).
    + intros id2 a2. rewrite lookup_delete_Some. intros [_ Ha2]. by apply Hu'.
Qed.

(** An entry of the trace that uses no nonces. *)
Lemma hinv_trace t s g : used_draws [t] = [] → trace_ok s t → hinv s g → hinv (set_trace (trace s ++ [t]) s) g.
Proof.
  intros Ht Hok [F K T O S U D R].
  assert (used_draws (trace s ++ [t]) = used_draws (trace s)) as E by (by rewrite used_draws_app, Ht, app_nil_r).
  split; try done; cbn [signing set_trace draws trace shares share_file]; rewrite ?E; try done.
  intros t' [Ht'|Ht'%list_elem_of_singleton]%elem_of_app; [exact (R t' Ht')|by subst].
Qed.

(** The nonces a task holds are used. *)
Lemma hinv_use v d msg package s g :
  trace_ok s (UsedNonces v d msg package) → hinv s ({[+ TNonce d +]} ⊎ g) →
  hinv (set_trace (trace s ++ [UsedNonces v d msg package]) s) g.
Proof.
  intros Hok Hs. pose proof Hs as [F K T O S U D R].
  assert (TNonce d ∈ {[+ TNonce d +]} ⊎ g) as Hin by multiset_solver. destruct (O _ Hin) as (Hlt & Hun & Hm).
  assert (used_draws (trace s ++ [UsedNonces v d msg package]) = used_draws (trace s) ++ [d]) as E
    by (by rewrite used_draws_app).
  split; cbn [signing set_trace draws trace shares share_file]; rewrite ?E; auto.
  - intros v' sh Hin'. apply K. multiset_solver.
  - intros v' sh Hin'. apply T. multiset_solver.
  - intros d' Hin'. destruct (hi_owned _ _ (hinv_weaken _ _ _ Hs) d' Hin') as (? & Hu' & ?). split_and!; [done| |done].
    rewrite elem_of_app, list_elem_of_singleton. intros [?| ->]; [done|].
    by apply nonce_once in Hm.
  - intros id a Ha. destruct (S id a Ha) as (? & Hu' & Hn & ?). split_and!; [done| | |naive_solver|naive_solver].
    + rewrite elem_of_app, list_elem_of_singleton. intros [?|E']; [done|]. apply Hn. rewrite E'. done.
    + intros Hin'. apply Hn. multiset_solver.
  - apply NoDup_app. split_and!; [done| |apply NoDup_singleton]. intros d' Hd' ->%list_elem_of_singleton. done.
  - intros d'. rewrite elem_of_app, list_elem_of_singleton. intros [?| ->]; [by apply D|done].
  - intros t. rewrite elem_of_app, list_elem_of_singleton. intros [Ht| ->]; [exact (R t Ht)|exact Hok].
Qed.

Lemma hinv_start file w : hinv (open file w) ∅.
Proof.
  split; cbn; try done; try (by intros ? ? ?%gmultiset_not_elem_of_empty).
  - by intros d ?%gmultiset_not_elem_of_empty.
  - constructor.
  - by intros d ?%not_elem_of_nil.
  - by intros t ?%not_elem_of_nil.
Qed.

(** ** Programs *)

Lemma quiet_draw : quiet draw.
Proof. apply quiet_act. intros s g. apply hinv_draw. Qed.

Lemma quiet_record e : quiet (record e).
Proof.
  apply quiet_seq; [apply quiet_read|]. intros now. apply quiet_modify. intros s g Hs. case_match; [|done].
  by apply (hinv_same s).
Qed.

Lemma quiet_deny v status why from digest summary : quiet (deny_request v status why from digest summary).
Proof. apply quiet_seq; [apply quiet_record|]. intros []. apply quiet_ret. Qed.

Lemma quiet_get v : quiet (store_get v).
Proof. apply quiet_read. Qed.

Lemma quiet_vault_resolve pkg v : quiet (vault_resolve pkg v).
Proof.
  unfold vault_resolve. destruct (object_id_from_hex_literal v); [|apply quiet_ret].
  apply quiet_seq; [apply quiet_read|]. intros ?. apply quiet_ret. Qed.

Lemma quiet_keygen_round1 v p : quiet (keygen_round1 v p).
Proof.
  apply quiet_seq; [apply quiet_get|]. intros held. case_bool_decide; [apply quiet_ret|].
  destruct (dkg_round1_package p); [|apply quiet_ret]. apply quiet_seq; [apply quiet_draw|]. intros d.
  destruct (dkg_part1 d) as [[]|]; [|apply quiet_ret]. apply quiet_seq; [|intros ?; apply quiet_ret].
  apply quiet_modify. intros s g. by apply hinv_same.
Qed.

(** The holder of a vault's share learns it. *)
Lemma holds_get v g :
  holds (λ share g', match share with Some share => g' = {[+ TKnown v share +]} ⊎ g | None => g' = g end) (store_get v) g.
Proof.
  apply owns_act. intros s others Hs. cbn. destruct (shares s !! v) as [share|] eqn:Hv; [|by exists g].
  exists ({[+ TKnown v share +]} ⊎ g). rewrite <- (assoc_L (⊎)). split; [by apply hinv_known|done].
Qed.

(** ... and finds it again. *)
Lemma holds_get_known v share g :
  TKnown v share ∈ g → holds (λ o g', g' = g ∧ o = Some share) (store_get v) g.
Proof.
  intros Hin. apply owns_act. intros s others Hs. exists g. split; [done|]. split; [done|].
  apply (hi_known _ _ Hs). multiset_solver.
Qed.

Lemma holds_insert v share :
  holds (λ stored g, g = if (stored : bool) then {[+ TStored v share +]} else ∅) (store_insert v share) ∅.
Proof.
  apply owns_act. intros s others Hs. rewrite (left_id_L ∅ (⊎)) in Hs.
  destruct (decide (is_Some (shares s !! v))) as [|Hn]; cbn [fst snd].
  { exists ∅. by rewrite (left_id_L ∅ (⊎)). }
  apply eq_None_not_Some in Hn. unfold persist.
  assert (share_file s ⊆ shares s) as Hf by (apply map_subseteq_spec, Hs).
  assert (shares s ⊆ <[v:=share]> (shares s)) as Hsub by (by apply insert_subseteq).
  destruct (w_disk_ok (world s)); cbn [fst snd].
  - exists {[+ TStored v share +]}. split; [|done]. apply hinv_stored; [apply lookup_insert_eq|].
    apply hinv_shares; [done|by etrans|done|done].
  - exists ∅. rewrite (left_id_L ∅ (⊎)). split; [|done]. apply hinv_shares; [done|done|by etrans|done].
Qed.

Lemma holds_keygen_round2 v p :
  holds (λ out g, match out with
                  | Some (_, _, address) => ∃ share, g = {[+ TStored v share +]} ∧
                      group_sui_address (public_key_package share) = Some address
                  | None => g = ∅
                  end) (keygen_round2 v p) ∅.
Proof.
  apply owns_quiet; [apply quiet_act; intros s g; by apply hinv_same|]. intros [session|]; [|done].
  apply owns_quiet; [apply quiet_read|]. intros now. destruct (KEYGEN_TTL <=? _); [done|].
  destruct (r2 ← dkg_round2_package p; _) as [[[[service_round2 share] pubkey] address]|] eqn:E; [|done].
  eapply owns_bind; [apply holds_insert|]. intros [] g ->; [|done]. exists share. split; [done|].
  apply bind_Some in E as (r2 & _ & E). apply bind_Some in E as ([r2s sr2] & _ & E).
  apply bind_Some in E as ([key public] & _ & E). apply bind_Some in E as (a & Ha & E).
  apply bind_Some in E as (pk & _ & E). by simplify_eq.
Qed.

(** A session opens for an approved payload when the task knows the share
    that the payload was approved for. *)
Lemma holds_sign_round1 v a share g :
  TKnown v share ∈ g → vouched v share (message a) → holds (λ _ _, True) (sign_round1 v a) g.
Proof.
  intros Hk Hv. eapply owns_bind; [by apply holds_get_known|]. intros o g' [-> ->].
  eapply (owns_bind _ (λ d g', g' = {[+ TNonce d +]} ⊎ g)).
  { apply owns_act. intros s others Hs. eexists. split; [|done]. rewrite <- (assoc_L (⊎)). by apply hinv_nonce. }
  intros d g' ->. destruct (round1_commit _ d) as [nonces [out|]]; [|done].
  apply owns_quiet; [apply quiet_read|]. intros created. apply owns_quiet; [apply quiet_draw|]. intros u.
  eapply (owns_bind _ (λ _ _, True)); [|done]. apply owns_act. intros s others Hs. exists g. split; [|done].
  cbn [fst]. set (session := mkSession _ _ _ _ _ _ _ _ _). set (live := filter _ _).
  change (hinv (set_signing (<[uuid_v4 u := session]> (signing (set_signing live s))) (set_signing live s)) (g ⊎ others)).
  apply (hinv_open _ session share); [cbn; multiset_solver|done|].
  rewrite <- (assoc_L (⊎)) in Hs. apply hinv_sessions; [|done].
  intros id b. by intros [? _]%map_lookup_filter_Some.
Qed.

(** A session is taken once, with its nonces and what they may sign. *)
Lemma holds_take id :
  holds (λ o g, match o with
                | Some a => ∃ share, g = {[+ TNonce (ss_draw a) +]} ⊎ {[+ TKnown (ss_vault_id a) share +]} ∧
                    vouched (ss_vault_id a) share (ss_message a)
                | None => True
                end) (take_sign_session id) ∅.
Proof.
  apply owns_act. intros s others Hs. rewrite (left_id_L ∅ (⊎)) in Hs. cbn [fst snd]. set (live := filter _ _).
  assert (hinv (set_signing live s) others) as Hl.
  { apply hinv_sessions; [|done]. intros id' b. by intros [? _]%map_lookup_filter_Some. }
  destruct (live !! id) as [a|] eqn:Ha.
  - destruct (hi_session _ _ Hl id a Ha) as (_ & _ & _ & _ & share & Hsh & Hv).
    exists ({[+ TNonce (ss_draw a) +]} ⊎ {[+ TKnown (ss_vault_id a) share +]}). split; [|by eauto].
    rewrite <- (assoc_L (⊎)). by apply (hinv_take id a share) in Hl.
  - exists ∅. split; [|done]. rewrite (left_id_L ∅ (⊎)), delete_id; done.
Qed.

Lemma holds_sign_round2 a share p :
  vouched (ss_vault_id a) share (ss_message a) →
  holds (λ _ _, True) (sign_round2 a p) ({[+ TNonce (ss_draw a) +]} ⊎ {[+ TKnown (ss_vault_id a) share +]}).
Proof.
  intros Hv. unfold sign_round2. destruct (signing_package p) as [package|]; [|done].
  case_bool_decide as Hm; cbn [negb]; [|done].
  eapply owns_bind; [apply (holds_get_known _ share); multiset_solver|]. intros o g' [-> ->].
  eapply (owns_bind _ (λ _ _, True)); [|done]. apply owns_act. intros s others Hs. exists ∅. split; [|done].
  rewrite (left_id_L ∅ (⊎)). rewrite <- (assoc_L (⊎)) in Hs. cbn [fst]. apply hinv_use.
  - split; [done|]. exists share. split; [|by rewrite Hm]. apply (hi_known _ _ Hs). multiset_solver.
  - apply (hinv_weaken _ {[+ TKnown (ss_vault_id a) share +]}).
    rewrite (assoc_L (⊎)), (comm_L (⊎) {[+ TKnown _ _ +]}), <- (assoc_L (⊎)). done.
Qed.

(** ** Tasks *)

Abbreviation serves p := (holds (λ _ _, True) p ∅).

Lemma quiet_serves {A} (p : prog HState A) : quiet p → serves p.
Proof. intros Hp. eapply owns_weaken, Hp. done. Qed.

(** An entry of the trace, then quiet work. *)
Lemma holds_emit {A} t (p : unit → prog HState A) g :
  used_draws [t] = [] → (∀ s others, hinv s (g ⊎ others) → trace_ok s t) → (∀ u, quiet (p u)) →
  holds (λ _ _, True) (emit t ≫= p) g.
Proof.
  intros Hu Ht Hp. eapply (owns_bind _ (λ _ _, True)).
  - apply owns_act. intros s others Hs. exists g. split; [|done]. apply hinv_trace; [done|by eapply Ht|done].
  - intros u g' _. eapply owns_weaken, Hp. done.
Qed.

Lemma serves_sign v tx : serves (sign vaults v tx).
Proof.
  unfold sign. repeat (case_match; try apply quiet_serves, quiet_deny). apply holds_emit; [done| |].
  - intros s others _. match goal with t : Tier |- _ => destruct t end.
    match goal with Hn : negb (bool_decide _) = false |- _ => apply negb_false_iff, bool_decide_eq_true in Hn end.
    cbn. eauto 10.
  - intros u. apply quiet_seq; [apply quiet_record|]. intros ?. apply quiet_ret.
Qed.

Lemma serves_keygen_round1 v p : serves (frost_keygen_round1 trading_vault_pkg v p).
Proof.
  apply quiet_serves, quiet_seq; [apply quiet_get|]. intros [share|]; [apply quiet_ret|].
  apply quiet_seq; [apply quiet_vault_resolve|]. intros [[[external|]|]|]; try apply quiet_ret.
  destruct (base64_decode (trim p)); [|apply quiet_ret].
  apply quiet_seq; [apply quiet_keygen_round1|]. intros ?. apply quiet_ret.
Qed.

Lemma serves_keygen_round2 v p : serves (frost_keygen_round2 v p).
Proof.
  unfold frost_keygen_round2. destruct (base64_decode (trim p)) as [bytes|]; [|done].
  eapply owns_bind; [apply holds_keygen_round2|]. intros [[[sr2 pubkey] address]|] g Hg; [|done].
  destruct Hg as (share & -> & Ha). apply holds_emit; [done| |intros ?; apply quiet_ret].
  intros s others Hs. exists share. split; [|done]. apply (hi_stored _ _ Hs). multiset_solver.
Qed.

Lemma serves_sign_round1 v k p : serves (frost_sign_round1 vaults v k p).
Proof.
  unfold frost_sign_round1. destruct (vaults !! v) as [vault|] eqn:Hv; [|apply quiet_serves, quiet_deny].
  eapply owns_bind; [apply holds_get|]. intros [share|] g ->; [|apply quiet_serves, quiet_deny].
  rewrite (right_id_L ∅ (⊎)).
  destruct (group_sui_address (public_key_package share)) as [parent|] eqn:Hp; [|done].
  destruct (base64_decode (trim p)) as [payload|]; [|eapply owns_weaken, quiet_deny; done].
  destruct (classify_payload vault parent k payload) as [a|] eqn:Hc; [|eapply owns_weaken, quiet_deny; done].
  eapply owns_bind; [apply (holds_sign_round1 v a share)|by intros]; [multiset_solver|].
  exists vault, parent, k, payload, a. done.
Qed.

Lemma serves_sign_round2 id p : serves (frost_sign_round2 id p).
Proof.
  eapply owns_bind; [apply holds_take|]. intros [a|] g Hg; [|eapply owns_weaken, quiet_deny; done].
  destruct Hg as (share & -> & Hv).
  destruct (base64_decode (trim p)) as [package|]; [|eapply owns_weaken, quiet_deny; done].
  eapply owns_bind; [by apply holds_sign_round2|]. intros [out|] g' _; [|eapply owns_weaken, quiet_deny; done].
  eapply owns_weaken, quiet_seq; [done|apply quiet_record|intros ?; apply quiet_ret].
Qed.

Lemma serves_task t : serves (hedge_task vaults trading_vault_pkg t).
Proof.
  assert (∀ A (p : prog HState A), serves p → serves (discard p)) as Hd.
  { intros A p Hp. eapply owns_bind; [exact Hp|]. by intros. }
  destruct t; cbn [hedge_task]; try apply Hd.
  - apply serves_sign.
  - apply quiet_serves, quiet_seq; [apply quiet_get|]. intros ?. apply quiet_ret.
  - apply quiet_serves. unfold registration. destruct (object_id_from_hex_literal vault_id); [|apply quiet_ret].
    apply quiet_seq; [apply quiet_get|]. intros ?. apply quiet_ret.
  - apply serves_keygen_round1.
  - apply serves_keygen_round2.
  - apply serves_sign_round1.
  - apply serves_sign_round2.
  - apply quiet_serves, quiet_modify. intros s g. by apply hinv_same.
Qed.
End props.

Section safety.
Context `{CryptoCrates, SuiSdk, JsonCrate, HexCrate, Base64Crate, FrostCrate, UuidCrate, ServiceKey}.
Variable vaults : gmap rstring VaultPolicy.
Variable trading_vault_pkg : ObjectID.

Abbreviation serve := (hedge_serve vaults trading_vault_pkg).
Abbreviation hinv := (HedgeSafety.hinv vaults).

(** All that is in memory, known to an observer. *)
Definition known_shares (m : gmap rstring VaultShare) : gmultiset Token :=
  list_to_set_disj ((λ kv, TKnown kv.1 kv.2) <$> map_to_list m).

Lemma elem_of_known m v share : TKnown v share ∈ known_shares m ↔ m !! v = Some share.
Proof.
  unfold known_shares. rewrite elem_of_list_to_set_disj, list_elem_of_fmap. split.
  - intros ([v' share'] & [= -> ->] & Hin). by apply elem_of_map_to_list in Hin.
  - intros Hm. exists (v, share). split; [done|]. by apply elem_of_map_to_list.
Qed.

Lemma hinv_known_shares s g : hinv s g → hinv s (g ⊎ known_shares (shares s)).
Proof.
  intros Hs. unfold known_shares.
  assert (∀ l, (∀ kv, kv ∈ l → shares s !! kv.1 = Some kv.2) →
    hinv s (g ⊎ list_to_set_disj ((λ kv, TKnown kv.1 kv.2) <$> l))) as Hl.
  { induction l as [|[v share] l IH]; intros Hin; [cbn; by rewrite (right_id_L ∅ (⊎))|].
    rewrite fmap_cons, list_to_set_disj_cons, (assoc_L (⊎)), (comm_L (⊎) g), <- (assoc_L (⊎)). apply hinv_known; [apply (Hin (v, share)); left|].
    apply IH. intros kv Hkv. apply Hin. by right. }
  apply Hl. intros [v share] Hin. by apply elem_of_map_to_list in Hin.
Qed.

Lemma serves_all (ts : list HedgeTask) :
  Forall2 (owns hinv (λ _ _, True)) (hedge_task vaults trading_vault_pkg <$> ts) (replicate (length ts) ∅).
Proof. induction ts as [|t ts IH]; [constructor|]. constructor; [apply serves_task|exact IH]. Qed.

(** A point of a run, and a later one. *)
Lemma serve_invariant file w ts schedule schedule' :
  ∃ g g', hinv (serve file w ts schedule).2 g ∧
    hinv (serve file w ts (schedule ++ schedule')).2 (g' ⊎ known_shares (shares (serve file w ts schedule).2)).
Proof.
  unfold hedge_serve. set (tasks := hedge_task _ _ <$> ts).
  destruct (sched_owned hinv (λ _ _, True) ∅ schedule tasks (replicate (length ts) ∅) (open file w)) as (gs & Hs & Ht).
  - rewrite total_none, (left_id_L ∅ (⊎)). apply hinv_start.
  - apply serves_all.
  - rewrite (right_id_L ∅ (⊎)) in Hs. exists (total gs). rewrite sched_app.
    destruct (sched schedule tasks (open file w)) as [tasks' s]. cbn [fst snd] in *.
    destruct (sched_owned hinv (λ _ _, True) (known_shares (shares s)) schedule' tasks' gs s) as (gs' & Hs' & _).
    + by apply hinv_known_shares.
    + done.
    + by exists (total gs').
Qed.

(** C40: the key shares under every schedule of requests, from every share
    file and through every change of the clocks, the disk and the chain.  No
    signing nonces are used twice, however sessions are opened, taken,
    repeated and interleaved.  Every use signs a message that the policy of
    the vault approved for the parent address of the share that is held.  A
    keygen reports the address of a share that is on disk, and the
    transactions countersigned are the vault account's sweeps.  What is on
    disk is in memory, and a share held at one point is held, the same, at
    every later point. *)
Theorem frost_shares_safe file w ts schedule schedule' :
  let s := (serve file w ts schedule).2 in
  let s' := (serve file w ts (schedule ++ schedule')).2 in
  NoDup (used_draws (trace s)) ∧ Forall (trace_ok vaults s) (trace s) ∧
  share_file s ⊆ shares s ∧ shares s ⊆ shares s'.
Proof.
  destruct (serve_invariant file w ts schedule schedule') as (g & g' & Hs & Hs'). cbv zeta. split_and!.
  - apply Hs.
  - apply Forall_forall, Hs.
  - apply map_subseteq_spec, Hs.
  - apply map_subseteq_spec. intros v share Hv. apply (hi_known _ _ _ Hs'). apply gmultiset_elem_of_disj_union. right.
    by apply elem_of_known.
Qed.
End safety.
