(* ===== verification/GasTemplate.v ===== *)
(** [crates/sui-tx/src/tx/template.rs]: the shapes of transaction the gas
    station pays for, and how a transaction is matched against them. *)

From S2P Require Import Prelude RustStr ExchangeTypes Crates SuiTx.

(** * Templates *)

Record MoveTarget := mkTarget { tg_package : ObjectID; tg_module : rstring; tg_function : rstring }.

#[export] Instance MoveTarget_eq_dec : EqDecision MoveTarget.
Proof. solve_decision. Defined.

Definition target (p : ObjectID) (m f : string) : MoveTarget := mkTarget p (str m) (str f).

(** [MoveTarget::matches_call]. *)
Definition target_matches (t : MoveTarget) (c : ProgrammableMoveCall) : bool :=
  bool_decide (package c = tg_package t) && bool_decide (module c = tg_module t) &&
  bool_decide (function c = tg_function t).

Inductive TargetMatcher := Exact (t : MoveTarget) | AnyRelease.

Definition matches_call (m : TargetMatcher) (c : ProgrammableMoveCall) : bool :=
  match m with
  | Exact t => target_matches t c
  | AnyRelease => bool_decide (function c = str "release") && (length (type_arguments c) =? 1)%nat
  end.

Record PtbTemplate := mkTemplate {
  name : rstring;
  required : list TargetMatcher;
  allowed : list TargetMatcher;
  arities : list (MoveTarget * nat);
}.

Definition exact_only (name : rstring) (required allowed : list MoveTarget) (arities : list (MoveTarget * nat))
    : PtbTemplate :=
  mkTemplate name (Exact <$> required) (Exact <$> allowed) arities.

(** * Matching *)

Definition is_benign_coin_primitive (c : ProgrammableMoveCall) : bool :=
  bool_decide (package c = framework) && bool_decide (module c = str "coin") &&
  (bool_decide (function c = str "zero") || bool_decide (function c = str "destroy_zero")) &&
  (length (type_arguments c) =? 1)%nat.

(** The calls to look at, in order; [None] for a deployment. *)
Fixpoint collect_calls (cmds : list Command) : option (list ProgrammableMoveCall) :=
  match cmds with
  | [] => Some []
  | MoveCall c :: cmds' => if is_benign_coin_primitive c then collect_calls cmds' else cons c <$> collect_calls cmds'
  | (SplitCoins _ _ | MergeCoins _ _ | TransferObjects _ _ | MakeMoveVec _ _) :: cmds' => collect_calls cmds'
  | (Publish | Upgrade) :: _ => None
  end.

Definition is_exact_for (c : ProgrammableMoveCall) (m : TargetMatcher) : bool :=
  match m with Exact t => target_matches t c | AnyRelease => false end.

Definition is_wildcard_for (c : ProgrammableMoveCall) (m : TargetMatcher) : bool :=
  match m with Exact _ => false | AnyRelease => matches_call m c end.

(** The first exact entry of [allowed] for a call. *)
Definition find_exact (t : PtbTemplate) (c : ProgrammableMoveCall) : option MoveTarget :=
  match List.find (is_exact_for c) (allowed t) with Some (Exact tg) => Some tg | _ => None end.

Definition find_arity (t : PtbTemplate) (tg : MoveTarget) : option nat :=
  snd <$> List.find (λ e, bool_decide (e.1 = tg)) (arities t).

(** (a) closed target set and (b) arity: [wildcard_matches] counts the calls let
    through by the wildcard so far. *)
Fixpoint check_calls (t : PtbTemplate) (wildcard_matches : nat) (calls : list ProgrammableMoveCall) : bool :=
  match calls with
  | [] => true
  | c :: calls' =>
      match find_exact t c with
      | Some tg =>
          match find_arity t tg with
          | Some arity => if (length (type_arguments c) =? arity)%nat then check_calls t wildcard_matches calls' else false
          | None => check_calls t wildcard_matches calls'
          end
      | None =>
          if existsb (is_wildcard_for c) (allowed t) then
            if (1 <? S wildcard_matches)%nat then false else check_calls t (S wildcard_matches) calls'
          else false
      end
  end.

Definition slot_satisfied (t : PtbTemplate) (m : TargetMatcher) (c : ProgrammableMoveCall) : bool :=
  match m with
  | Exact _ => matches_call m c
  | AnyRelease => matches_call m c && negb (existsb (is_exact_for c) (allowed t))
  end.

(** (c) what is left of the required matchers after the calls. *)
Fixpoint remaining (t : PtbTemplate) (want : list TargetMatcher) (calls : list ProgrammableMoveCall)
    : list TargetMatcher :=
  match calls, want with
  | c :: calls', m :: want' => remaining t (if slot_satisfied t m c then want' else want) calls'
  | _, _ => want
  end.

Definition template_matches (t : PtbTemplate) (pt : ProgrammableTransaction) : bool :=
  match collect_calls (commands pt) with
  | None => false
  | Some calls =>
      check_calls t 0 calls &&
      match remaining t (required t) calls with [] => true | _ => false end
  end.

Definition match_any (templates : list PtbTemplate) (pt : ProgrammableTransaction) : option rstring :=
  name <$> List.find (λ t, template_matches t pt) templates.

(** * The templates of the protocol *)

Record ExchangeSponsorPkgs := mkExchangePkgs {
  exchange : ObjectID;
  adapter : option ObjectID;
  listing : option ObjectID;
}.

Record SwitchboardPkgs := mkSwitchboardPkgs { sb_adapter : ObjectID; sb_switchboard : ObjectID }.

Record PythPkgs := mkPythPkgs { pyth : ObjectID; wormhole : ObjectID }.

Record TradingVaultPkgs := mkTradingVaultPkgs {
  trading_vault : ObjectID;
  oracle_pyth : ObjectID;
  deepbook_adapter : option ObjectID;
  options_adapter : option ObjectID;
  exchange_adapter : option ObjectID;
  equity_oracle : option ObjectID;
  tv_pyth : option PythPkgs;
  switchboard : option SwitchboardPkgs;
}.

Definition SWITCHBOARD_MAX_ORACLES : nat := 6.

(** ** The flows of an option *)

Section flows.
Variable protocol : ObjectID.

Definition create_legs (module : string) : MoveTarget * MoveTarget :=
  if bool_decide (module = "put_bucket"%string)
  then (target protocol module "create_put_bucket_any_strike", target protocol module "share_put_bucket")
  else (target protocol module "create_bucket_any_strike", target protocol module "share_bucket").

Definition execute_flow (name request_fn execute_fn module : string) : PtbTemplate :=
  let request := target protocol module request_fn in
  let execute := target protocol module execute_fn in
  let '(create, share) := create_legs module in
  let matchers :=
    [Exact (target protocol "quote" "new_quote"); Exact (target protocol "quote" "new_signed_quote");
     Exact request; AnyRelease; Exact execute] in
  mkTemplate (str name) matchers (matchers ++ [Exact create; Exact share])
    [(target protocol "quote" "new_quote", 2%nat); (request, 3%nat); (execute, 3%nat); (create, 12%nat); (share, 3%nat)].

Definition create_only (name module : string) : PtbTemplate :=
  let '(create, share) := create_legs module in
  exact_only (str name) [create; share] [create; share] [(create, 12%nat); (share, 3%nat)].

(** A template of one call. *)
Definition one_call (name : rstring) (t : MoveTarget) (arity : nat) : PtbTemplate :=
  exact_only name [t] [t] [(t, arity)].

Definition single_call (name module function : string) : PtbTemplate :=
  one_call (str name) (target protocol module function) 3.

Definition flow_templates : list PtbTemplate :=
  [execute_flow "write" "request_writer_flow" "execute_writer_flow" "bucket";
   execute_flow "buy" "request_trader_flow" "execute_trader_flow" "bucket";
   single_call "exercise" "bucket" "exercise";
   single_call "redeem" "bucket" "redeem_position";
   execute_flow "put_write" "request_writer_flow" "execute_writer_flow" "put_bucket";
   execute_flow "put_buy" "request_trader_flow" "execute_trader_flow" "put_bucket";
   single_call "put_exercise" "put_bucket" "exercise";
   single_call "put_redeem" "put_bucket" "redeem_position";
   create_only "create_bucket" "bucket";
   create_only "put_create_bucket" "put_bucket"].
End flows.

(** ** Vaults, bridge, faucet *)

Definition vault_templates (vault_pkg : ObjectID) : list PtbTemplate :=
  (λ function, one_call (str "vault:" ++ function) (mkTarget vault_pkg (str "vault") function) 3) <$>
    [str "deposit"; str "claim_shares"; str "initiate_withdraw"; str "complete_withdraw"; str "instant_withdraw_pending"].

Definition cctp_template (token_messenger_minter : ObjectID) : PtbTemplate :=
  one_call (str "cctp_bridge") (target token_messenger_minter "deposit_for_burn" "deposit_for_burn") 1.

Definition faucet_templates (test_tokens : list (ObjectID * rstring)) : list PtbTemplate :=
  (λ '(pkg, module), one_call (str "faucet_mint:" ++ module) (mkTarget pkg module (str "mint_to_sender")) 0) <$> test_tokens.

(** ** The exchange *)

Definition adapter_fills (adapter : ObjectID) : list MoveTarget :=
  [target adapter "exchange_adapter" "fill_vault_order"; target adapter "exchange_adapter" "fill_vault_order_reverse"].

Definition route_fill (ex : ExchangeSponsorPkgs) : PtbTemplate :=
  let e := target (exchange ex) in
  let fill := e "settlement" "fill_limit_order" in
  let fill_rev := e "settlement" "fill_limit_order_reverse" in
  let assert_min := e "settlement" "assert_coin_min" in
  let legs := match adapter ex with Some a => adapter_fills a | None => [] end in
  exact_only (str "exchange_route_fill") [assert_min]
    ([fill; fill_rev; assert_min] ++ legs)
    ([(fill, 2%nat); (fill_rev, 2%nat); (assert_min, 1%nat)] ++ ((λ f, (f, 2%nat)) <$> legs)).

Definition exchange_templates (ex : ExchangeSponsorPkgs) : list PtbTemplate :=
  let e := target (exchange ex) in
  [route_fill ex;
   one_call (str "exchange_enable_escrow") (e "balance_manager" "new") 0;
   one_call (str "exchange_escrow_deposit") (e "balance_manager" "deposit") 1;
   one_call (str "exchange_escrow_withdraw") (e "balance_manager" "withdraw") 1;
   one_call (str "exchange_cancel_up_to") (e "settlement" "cancel_up_to") 2] ++
  match listing ex with
  | Some l =>
      [one_call (str "exchange_list_call_market") (target l "exchange_listing" "create_call_market") 12;
       one_call (str "exchange_list_put_market") (target l "exchange_listing" "create_put_market") 12]
  | None => []
  end.

(** ** The trading vault *)

Definition from_opt {A B} (f : A → list B) (o : option A) : list B :=
  match o with Some a => f a | None => [] end.

Definition run_legs (sb : SwitchboardPkgs) : list MoveTarget :=
  (λ n, mkTarget (sb_switchboard sb) (str "quote_submit_action") (str "run_" ++ u64_to_string (Z.of_nat n))) <$>
    seq 1 SWITCHBOARD_MAX_ORACLES.

Definition switchboard_attest (sb : SwitchboardPkgs) : MoveTarget := target (sb_adapter sb) "oracle_switchboard" "attest".

Definition pyth_legs (pp : PythPkgs) : list MoveTarget :=
  [target (wormhole pp) "vaa" "parse_and_verify";
   target (pyth pp) "pyth" "create_authenticated_price_infos_using_accumulator";
   target (pyth pp) "pyth" "update_single_price_feed";
   target (pyth pp) "hot_potato_vector" "destroy"].

Definition option_wraps : list MoveTarget := [target move_stdlib "option" "some"; target move_stdlib "option" "none"].

Definition appraisal_targets (tvp : TradingVaultPkgs) : list MoveTarget :=
  let tvt := target (trading_vault tvp) in
  [tvt "vault" "begin_appraisal"; tvt "vault" "appraise_balance"; tvt "vault" "record_position_value";
   tvt "vault_mm" "appraise_call_position"; tvt "vault_mm" "appraise_put_position"; tvt "vault_mm" "appraise_call_coin";
   target (oracle_pyth tvp) "oracle_pyth" "attest"] ++
  from_opt (λ dba, target dba "deepbook_adapter" <$>
    ["begin_custody_appraisal"; "value_asset"; "value_pool_locked"; "finalize_custody_appraisal"]%string) (deepbook_adapter tvp) ++
  from_opt (λ xa, target xa "exchange_adapter" <$>
    ["begin_custody_appraisal"; "value_asset"; "finalize_custody_appraisal"]%string) (exchange_adapter tvp) ++
  from_opt (λ oa, target oa "options_adapter" <$>
    ["appraise_rfq_ticket"; "appraise_call_position"; "appraise_put_position"]%string) (options_adapter tvp) ++
  from_opt (λ eo, [target eo "equity_oracle" "record"]) (equity_oracle tvp) ++
  from_opt (λ sb, switchboard_attest sb :: run_legs sb) (switchboard tvp) ++
  from_opt pyth_legs (tv_pyth tvp) ++ option_wraps.

Definition deposit_arities (tvp : TradingVaultPkgs) : list (MoveTarget * nat) :=
  let tvt := target (trading_vault tvp) in
  [(tvt "vault" "begin_appraisal", 1%nat); (tvt "vault" "deposit", 1%nat)] ++
  from_opt (λ eo, [(target eo "equity_oracle" "record", 0%nat)]) (equity_oracle tvp) ++
  ((λ t, (t, if bool_decide (tg_module t = str "hot_potato_vector") then 1%nat else 0%nat)) <$> from_opt pyth_legs (tv_pyth tvp)) ++
  ((λ t, (t, 1%nat)) <$> option_wraps) ++
  from_opt (λ sb, (switchboard_attest sb, 2%nat) :: ((λ t, (t, 0%nat)) <$> run_legs sb)) (switchboard tvp).

Definition trading_vault_deposit (tvp : TradingVaultPkgs) : PtbTemplate :=
  let begin := target (trading_vault tvp) "vault" "begin_appraisal" in
  let deposit := target (trading_vault tvp) "vault" "deposit" in
  exact_only (str "trading_vault:deposit") [begin; deposit] (appraisal_targets tvp ++ [deposit]) (deposit_arities tvp).

Definition trading_vault_templates (tvp : TradingVaultPkgs) : list PtbTemplate :=
  let tvt := target (trading_vault tvp) in
  [trading_vault_deposit tvp;
   one_call (str "trading_vault:create_vault") (tvt "vault" "create_vault") 1;
   one_call (str "trading_vault:request_withdraw") (tvt "vault" "request_withdraw") 1;
   one_call (str "trading_vault:amend_payout_asset") (tvt "vault" "amend_payout_asset") 1;
   one_call (str "trading_vault:redeem_settled_position") (tvt "vault" "redeem_settled_position") 1;
   one_call (str "trading_vault:settle_queued_request") (tvt "vault" "settle_queued_request") 1;
   one_call (str "trading_vault:burn_wiped_position") (tvt "vault" "burn_wiped_position") 0;
   one_call (str "trading_vault:split_position") (tvt "vault_position" "split") 0;
   one_call (str "trading_vault:merge_positions") (tvt "vault_position" "merge") 0].

Definition protocol_templates (protocol : ObjectID) (vault_pkg : option ObjectID)
    (test_tokens : list (ObjectID * rstring)) (allow_faucet : bool) (exchange : option ExchangeSponsorPkgs)
    (cctp : option ObjectID) (trading_vault : option TradingVaultPkgs) : list PtbTemplate :=
  flow_templates protocol ++
  from_opt vault_templates vault_pkg ++
  from_opt (λ tmm, [cctp_template tmm]) cctp ++
  (if allow_faucet then faucet_templates test_tokens else []) ++
  from_opt exchange_templates exchange ++
  from_opt trading_vault_templates trading_vault.
