(* ===== verification/GasStation.v ===== *)
(** The gas station: how a transaction of a user is checked, sized and signed
    ([crates/sui-tx/src/tx/sponsor.rs]), how the workspace pays for its own
    transactions ([tx/mod.rs], [chain.rs]) and funds coin arguments
    ([tx/funding.rs]), and the service ([services/gas-station]).  The reads and
    the execution of the chain are actions of a [ChainClient]. *)

From S2P Require Import Prelude Prog RustStr ExchangeTypes Crates Wire SuiTx GasTemplate.

(** * Errors

    An [anyhow::Error]: its messages, the outermost first. *)

Abbreviation Error := (list rstring).

Definition error (msg : rstring) : Error := [msg].
Definition context (msg : string) (e : Error) : Error := str msg :: e.

(** [{e}] shows the outermost message, [{e:#}] all of them. *)
Definition error_text (e : Error) : rstring := default [] (head e).
Definition full_text (e : Error) : rstring :=
  match e with [] => [] | m :: ms => foldl (λ acc m, acc ++ str ": " ++ m) m ms end.

(** * Transactions *)

Abbreviation ObjectRef := (ObjectID * Z * list Z)%type.

Record CoinRef := mkCoinRef { object_ref : ObjectRef; balance : Z }.

Record GasData := mkGasData { payment : list ObjectRef; owner : SuiAddress; price : Z; budget : Z }.

Inductive TransactionKind := Programmable (pt : ProgrammableTransaction) | SystemKind.

(** [TransactionData]: with a gas payment, or paid from the address balance of
    the sender, valid this epoch and the next on this chain. *)
Inductive TransactionData :=
  | new_with_gas_data (kind : TransactionKind) (sender : SuiAddress) (gas : GasData)
  | new_with_address_balance_gas (pt : ProgrammableTransaction) (sender : SuiAddress) (gas_budget gas_price : Z)
      (chain : list Z) (epoch nonce : Z).

Definition new_programmable (sender : SuiAddress) (coins : list ObjectRef) (pt : ProgrammableTransaction)
    (gas_budget gas_price : Z) : TransactionData :=
  new_with_gas_data (Programmable pt) sender (mkGasData coins sender gas_price gas_budget).

(** What a dry run and an execution report; [status] is the rendered failure. *)
Record Effects := mkEffects {
  status : option rstring;
  clever_error : option rstring;
  computation_cost : Z;
  storage_cost : Z;
  digest : rstring;
}.

(** Signatures and encodings of the SDK. *)
Class SponsorSdk := {
  kind_from_bcs : list Z → result Error TransactionKind;
  tx_to_bcs : TransactionData → list Z;
  sign : SuiAddress → TransactionData → rstring;
  is_gas_coin_used : Command → bool;
}.

(** The RPC client, as actions over the state of the node. *)
Class ChainClient (S : Type) := {
  get_owned_coins : SuiAddress → rstring → S → S * result Error (list CoinRef);
  get_balance : SuiAddress → rstring → S → S * result Error Z;
  get_address_balance : SuiAddress → rstring → S → S * result Error (option Z);
  get_reference_gas_price : S → S * result Error Z;
  get_chain_id : S → S * result Error (list Z);
  get_current_epoch : S → S * result Error Z;
  random_nonce : S → S * Z;
  simulate : TransactionData → S → S * result Error Effects;
  execute_transaction : TransactionData → rstring → S → S * result Error Effects;
}.

Definition sui_coin_type : rstring := str "0x2::sui::SUI".

Definition MAX_GAS_PAYMENT_OBJECTS : nat := 256.

Inductive GasPayment := Coins (refs : list ObjectRef) | AddressBalance.

Definition insufficient (gas_budget covered : Z) (n : nat) (address_balance : Z) : Error :=
  error (str "insufficient SUI for a gas budget of " ++ u64_to_string gas_budget ++ str " MIST: " ++
    u64_to_string covered ++ str " MIST across " ++ u64_to_string (Z.of_nat n) ++ str " coin object(s) and " ++
    u64_to_string address_balance ++ str " MIST of address balance").

(** The loop of [plan_gas]: the payment and the amount it covers so far. *)
Fixpoint gather (enough : Z) (coins : list CoinRef) (payment : list ObjectRef) (covered : Z)
    : list ObjectRef * Z :=
  match coins with
  | [] => (payment, covered)
  | c :: coins' =>
      let payment' := payment ++ [object_ref c] in
      let covered' := u64_saturating_add covered (balance c) in
      if enough <=? covered' then (payment', covered') else gather enough coins' payment' covered'
  end.

Definition plan_gas (coins : list CoinRef) (address_balance gas_budget : Z) : result Error GasPayment :=
  let '(payment, covered) := gather gas_budget (take MAX_GAS_PAYMENT_OBJECTS coins) [] 0 in
  if negb (bool_decide (payment = [])) && (gas_budget <=? covered) then Ok (Coins payment)
  else if gas_budget <=? address_balance then Ok AddressBalance
  else Err (insufficient gas_budget covered (length payment) address_balance).

Section client.
Context {S : Type} `{ChainClient S, SponsorSdk, SuiSdk}.

(** * [ChainClient] *)

(** The coins of a wallet on the first page the node lists, largest first. *)
Definition coins (owner : SuiAddress) (coin_type : rstring) : prog S (result Error (list CoinRef)) :=
  page ←? act (get_owned_coins owner coin_type);
  Ret (Ok (sort_by (λ a b : CoinRef, balance b <=? balance a) page)).

Definition address_balance (owner : SuiAddress) (coin_type : rstring) : prog S (result Error Z) :=
  b ←? act (get_address_balance owner coin_type); Ret (Ok (default 0 b)).

Definition with_context {A} (msg : string) (p : prog S (result Error A)) : prog S (result Error A) :=
  prog_bind (λ r, Ret (map_err (context msg) r)) p.

Definition gas_payment (owner : SuiAddress) (gas_budget : Z) : prog S (result Error GasPayment) :=
  cs ←? coins owner sui_coin_type;
  b ←? address_balance owner sui_coin_type;
  Ret (map_err (λ e, (str "selecting gas payment for " ++ address_text owner) :: e) (plan_gas cs b gas_budget)).

(** * Submission ([tx/mod.rs]) *)

Definition gas_coin_message (sender : SuiAddress) : Error :=
  error (str "this PTB borrows Argument::GasCoin, which needs a gas coin object, but " ++ address_text sender ++
    str " holds its SUI as an address balance " ++ [8212] ++
    str " fund the coin argument with sui_tx::tx::funding instead").

Definition gas_tx_data (sender : SuiAddress) (programmable : ProgrammableTransaction) (gas_budget : Z)
    : prog S (result Error TransactionData) :=
  payment ←? gas_payment sender gas_budget;
  gas_price ←? with_context "fetching reference gas price" (act get_reference_gas_price);
  match payment with
  | Coins refs => Ret (Ok (new_programmable sender refs programmable gas_budget gas_price))
  | AddressBalance =>
      if existsb is_gas_coin_used (commands programmable) then Ret (Err (gas_coin_message sender)) else
      chain ←? with_context "reading chain id / epoch for an address-balance gas payment" (act get_chain_id);
      epoch ←? with_context "reading chain id / epoch for an address-balance gas payment" (act get_current_epoch);
      prog_bind (λ nonce,
        Ret (Ok (new_with_address_balance_gas programmable sender gas_budget gas_price chain epoch nonce)))
        (act random_nonce)
  end.

Definition is_stale_gas_rejection (e : Error) : bool :=
  contains (str "is unavailable for consumption") (full_text e) ||
  contains (str "needs to be rebuilt because object") (full_text e).

Definition assert_success (label : rstring) (resp : Effects) : result Error unit :=
  match status resp with
  | None => Ok tt
  | Some s =>
      match clever_error resp with
      | Some ce => Err (error (label ++ str " reverted: " ++ s ++ str " (" ++ ce ++ str ")"))
      | None => Err (error (label ++ str " reverted: " ++ s))
      end
  end.

Definition submit_tx_data (signer : SuiAddress) (tx_data : TransactionData) (label : rstring)
    : prog S (result Error Effects) :=
  resp ←? prog_bind (λ r, Ret (map_err (λ e, (str "submitting " ++ label ++ str " tx") :: e) r))
            (act (execute_transaction tx_data (sign signer tx_data)));
  _ ←? Ret (assert_success label resp);
  Ret (Ok resp).

Definition GAS_REF_ATTEMPTS : nat := 4.

(** One attempt: build, pay, submit.  Only what the submission answers can be
    retried. *)
Definition attempt_submit (signer : SuiAddress) (gas_budget : Z) (label : rstring)
    (build : prog S (result Error ProgrammableTransaction)) : prog S (result Error (result Error Effects)) :=
  programmable ←? with_context "building the transaction" build;
  tx_data ←? gas_tx_data signer programmable gas_budget;
  prog_bind (λ r, Ret (Ok r)) (submit_tx_data signer tx_data label).

(** [None] where the loop would run out, the source's [unreachable!]. *)
Fixpoint submit_attempts (left : nat) (signer : SuiAddress) (gas_budget : Z) (label : rstring)
    (build : prog S (result Error ProgrammableTransaction)) : prog S (option (result Error Effects)) :=
  match left with
  | O => Ret None
  | Datatypes.S left' =>
      prog_bind (λ r,
        match r with
        | Err e => Ret (Some (Err e))
        | Ok (Ok resp) => Ret (Some (Ok resp))
        | Ok (Err e) =>
            if (0 <? left')%nat && is_stale_gas_rejection e
            then submit_attempts left' signer gas_budget label build
            else Ret (Some (Err e))
        end) (attempt_submit signer gas_budget label build)
  end.

Definition submit_ptb_rebuilding (signer : SuiAddress) (gas_budget : Z) (label : rstring)
    (build : prog S (result Error ProgrammableTransaction)) : prog S (option (result Error Effects)) :=
  submit_attempts GAS_REF_ATTEMPTS signer gas_budget label build.

Definition submit_ptb (signer : SuiAddress) (programmable : ProgrammableTransaction) (gas_budget : Z)
    (label : rstring) : prog S (option (result Error Effects)) :=
  submit_ptb_rebuilding signer gas_budget label (Ret (Ok programmable)).
End client.

(** * Sponsoring ([tx/sponsor.rs]) *)

Record BudgetPolicy := mkPolicy { max_gas_budget : Z; min_gas_budget : Z; buffer_bps : Z }.

Record SponsoredTx := mkSponsored {
  tx_bytes_b64 : rstring;
  sponsor_signature_b64 : rstring;
  gas_budget : Z;
  gas_price : Z;
}.

Definition is_deployment (c : Command) : bool := match c with Publish | Upgrade => true | _ => false end.

Section sponsor.
Context {S : Type} `{ChainClient S, SponsorSdk, SuiSdk, Base64Crate}.

Definition validate_kind (kind : TransactionKind) (templates : list PtbTemplate) : result Error unit :=
  match kind with
  | SystemKind => Err (error (str "only programmable transactions can be sponsored"))
  | Programmable pt =>
      if existsb is_deployment (commands pt)
      then Err (error (str "refusing to sponsor a publish/upgrade transaction")) else
      match templates with
      | [] => Ok tt
      | _ =>
          match match_any templates pt with
          | Some _ => Ok tt
          | None => Err (error (str "PTB matches no sponsored template: [" ++ describe_ptb pt ++ str "]"))
          end
      end
  end.

(** The budget after a dry run that used [used]. *)
Definition sized_budget (policy : BudgetPolicy) (effects : Effects) : Z :=
  let used := u64_saturating_add (computation_cost effects) (storage_cost effects) in
  let buffered := u64_saturating_add used (u64_saturating_mul used (buffer_bps policy) / 10000) in
  Z.min (Z.max buffered (min_gas_budget policy)) (max_gas_budget policy).

Definition too_low (available : Z) (n : nat) (min : Z) : Error :=
  error (str "gas station balance too low: " ++ u64_to_string available ++ str " MIST across " ++
    u64_to_string (Z.of_nat n) ++ str " coins < min budget " ++ u64_to_string min).

Definition over_balance (budget available : Z) : Error :=
  error (str "estimated budget " ++ u64_to_string budget ++ str " MIST exceeds gas station balance " ++
    u64_to_string available ++ str " MIST").

Definition signed_tx (signer : SuiAddress) (tx_data : TransactionData) (budget gas_price : Z) : SponsoredTx :=
  mkSponsored (base64_encode (tx_to_bcs tx_data)) (sign signer tx_data) budget gas_price.

Definition sponsor_transaction (signer : SuiAddress) (templates : list PtbTemplate) (policy : BudgetPolicy)
    (sender : SuiAddress) (kind_bytes : list Z) : prog S (result Error SponsoredTx) :=
  kind ←? Ret (map_err (context "decoding TransactionKind (GasLessTransactionData)") (kind_from_bcs kind_bytes));
  _ ←? Ret (validate_kind kind templates);
  cs ←? with_context "listing sponsor gas coins" (coins signer sui_coin_type);
  if bool_decide (cs = [])
  then Ret (Err (error (str "gas station wallet " ++ address_text signer ++ str " has no SUI coins"))) else
  let '(payment, available) := gather (max_gas_budget policy) cs [] 0 in
  gas_price ←? with_context "fetching reference gas price" (act get_reference_gas_price);
  let dry_budget := Z.min (max_gas_budget policy) available in
  if dry_budget <? min_gas_budget policy
  then Ret (Err (too_low available (length payment) (min_gas_budget policy))) else
  dry ←? with_context "dry-running sponsored transaction"
    (act (simulate (new_with_gas_data kind sender (mkGasData payment signer gas_price dry_budget))));
  match status dry with
  | Some s => Ret (Err (error (str "transaction would fail on chain: " ++ s)))
  | None =>
      let budget := sized_budget policy dry in
      if available <? budget then Ret (Err (over_balance budget available)) else
      let tx_data := new_with_gas_data kind sender (mkGasData payment signer gas_price budget) in
      Ret (Ok (signed_tx signer tx_data budget gas_price))
  end.

Definition sponsor_balance (signer : SuiAddress) : prog S (result Error Z) :=
  with_context "fetching sponsor balance" (act (get_balance signer sui_coin_type)).

(** ** Topping up ([tx/funding.rs]) *)

(** A withdrawal from the address balance of [owner], redeemed into a coin that
    is sent back to [owner]. *)
Definition redeem_to_coin (owner : SuiAddress) (coin_type : rstring) (amount : Z) : ProgrammableTransaction :=
  mkPT [FundsWithdrawal amount coin_type; Pure (addr_bytes owner)]
    [MoveCall (mkMoveCall framework (str "coin") (str "redeem_funds") [coin_type] [Input 0]);
     TransferObjects [Result 0] (Input 1)].

Definition top_up_amount (target gas_budget in_coins available : Z) : Z :=
  Z.min (u64_saturating_sub available gas_budget) (u64_saturating_sub target in_coins).

Definition top_up_gas_coins (signer : SuiAddress) (target gas_budget : Z) : prog S (result Error (option rstring)) :=
  cs ←? with_context "listing sponsor gas coins" (coins signer sui_coin_type);
  let in_coins := foldl (λ a c, u64_saturating_add a (balance c)) 0 cs in
  if target <=? in_coins then Ret (Ok None) else
  available ←? with_context "reading the sponsor's address balance" (address_balance signer sui_coin_type);
  let amount := top_up_amount target gas_budget in_coins available in
  if amount =? 0 then Ret (Ok None) else
  tx_data ←? gas_tx_data signer (redeem_to_coin signer sui_coin_type amount) gas_budget;
  resp ←? submit_tx_data signer tx_data (str "sponsor gas top-up");
  Ret (Ok (Some (digest resp))).

(** * The service ([services/gas-station]) *)

Record SponsorReq := mkSponsorReq { sr_sender : rstring; kind_bytes : rstring }.

Record SponsorResp := mkSponsorResp {
  tx_bytes : rstring; sponsor_signature : rstring; sp_gas_budget : rstring; sp_gas_price : rstring }.

Record AppState := mkAppState {
  signer : SuiAddress;
  templates : list PtbTemplate;
  policy : BudgetPolicy;
  min_balance_threshold_mist : Z;
}.

Inductive StatusCode := BAD_REQUEST | BAD_GATEWAY | UNPROCESSABLE_ENTITY.

Definition sponsor (s : AppState) (req : SponsorReq) : prog S (result (StatusCode * rstring) SponsorResp) :=
  match sui_address_from_str (trim (sr_sender req)) with
  | None => Ret (Err (BAD_REQUEST, str "invalid sender"))
  | Some sender =>
      match base64_decode (trim (kind_bytes req)) with
      | None => Ret (Err (BAD_REQUEST, str "kind_bytes is not base64"))
      | Some bytes =>
          prog_bind (λ r, Ret match r with
            | Ok out => Ok (mkSponsorResp (tx_bytes_b64 out) (sponsor_signature_b64 out)
                (u64_to_string (gas_budget out)) (u64_to_string (gas_price out)))
            | Err e => Err (UNPROCESSABLE_ENTITY, error_text e)
            end) (sponsor_transaction (signer s) (templates s) (policy s) sender bytes)
      end
  end.

Record BalanceResp := mkBalanceResp {
  br_address : rstring; balance_mist : rstring; threshold_mist : rstring; healthy : bool }.

Definition balance_handler (s : AppState) : prog S (result (StatusCode * rstring) BalanceResp) :=
  prog_bind (λ r, Ret match r with
    | Ok bal => Ok (mkBalanceResp (address_text (signer s)) (u64_to_string bal)
        (u64_to_string (min_balance_threshold_mist s)) (min_balance_threshold_mist s <=? bal))
    | Err e => Err (BAD_GATEWAY, error_text e)
    end) (sponsor_balance (signer s)).
End sponsor.
