(* ===== verification/GasTheorems.v ===== *)
(** What the gas station pays for: matching a template means that every call
    is pinned by it, or is its one wildcard call, and that the required calls
    come in order. *)

From S2P Require Import Prelude Prog RustStr ExchangeTypes Crates Wire SuiTx GasTemplate GasStation.

(** * The calls of a transaction *)

Definition call_target (c : ProgrammableMoveCall) : MoveTarget := mkTarget (package c) (module c) (function c).

(** The calls that are not value-neutral coin plumbing. *)
Definition paid_calls (cmds : list Command) : list ProgrammableMoveCall :=
  omap (λ cmd, match cmd with
               | MoveCall c => if is_benign_coin_primitive c then None else Some c
               | _ => None
               end) cmds.

Lemma collect_calls_spec cmds :
  collect_calls cmds = if existsb is_deployment cmds then None else Some (paid_calls cmds).
Proof.
  induction cmds as [|[c| | | | | |] cmds IH]; try done.
  cbn [collect_calls existsb is_deployment orb]. change (paid_calls (MoveCall c :: cmds)) with
    (match (if is_benign_coin_primitive c then None else Some c) with Some c => c :: paid_calls cmds | None => paid_calls cmds end).
  rewrite IH. by destruct (is_benign_coin_primitive c), (existsb is_deployment cmds).
Qed.

Lemma target_matches_iff t c : target_matches t c = true ↔ t = call_target c.
Proof.
  unfold target_matches, call_target. destruct t as [p m f]; cbn.
  rewrite !andb_true_iff, !bool_decide_eq_true. naive_solver.
Qed.

(** * Templates, declaratively *)

(** An exact entry lists the call; its number of type arguments is the one the
    template gives, if it gives one. *)
Definition pinned (t : PtbTemplate) (c : ProgrammableMoveCall) : Prop := Exact (call_target c) ∈ allowed t.

#[export] Instance TargetMatcher_eq_dec : EqDecision TargetMatcher.
Proof. solve_decision. Defined.
#[export] Instance pinned_dec t c : Decision (pinned t c).
Proof. unfold pinned. apply _. Defined.

Definition arity_ok (t : PtbTemplate) (c : ProgrammableMoveCall) : Prop :=
  ∀ n, find_arity t (call_target c) = Some n → length (type_arguments c) = n.

Definition released (t : PtbTemplate) (c : ProgrammableMoveCall) : Prop :=
  ¬ pinned t c ∧ AnyRelease ∈ allowed t ∧ function c = str "release" ∧ length (type_arguments c) = 1%nat.

Definition fills_slot (t : PtbTemplate) (m : TargetMatcher) (c : ProgrammableMoveCall) : Prop :=
  match m with
  | Exact tg => call_target c = tg
  | AnyRelease => function c = str "release" ∧ length (type_arguments c) = 1%nat ∧ ¬ pinned t c
  end.

(** What it means for a transaction to have the shape of a template. *)
Record has_shape (t : PtbTemplate) (pt : ProgrammableTransaction) : Prop := {
  no_deployment : Forall (λ c, is_deployment c = false) (commands pt);
  calls_listed : Forall (λ c, pinned t c ∧ arity_ok t c ∨ released t c) (paid_calls (commands pt));
  one_released : (length (filter (λ c, ¬ pinned t c) (paid_calls (commands pt))) ≤ 1)%nat;
  in_order : ∃ cs, cs `sublist_of` paid_calls (commands pt) ∧ Forall2 (fills_slot t) (required t) cs;
}.

Lemma is_exact_iff c m : is_exact_for c m = true ↔ m = Exact (call_target c).
Proof. destruct m as [t|]; cbn; [rewrite target_matches_iff|]; naive_solver. Qed.

Lemma existsb_exact t c : existsb (is_exact_for c) (allowed t) = bool_decide (pinned t c).
Proof.
  apply eq_true_iff_eq. rewrite bool_decide_eq_true, existsb_exists. unfold pinned. split.
  - intros [m [Hm E]]. apply is_exact_iff in E as ->. by apply list_elem_of_In.
  - intros Hm. exists (Exact (call_target c)). rewrite is_exact_iff. by rewrite <- list_elem_of_In.
Qed.

Lemma find_exact_pinned t c : find_exact t c = if decide (pinned t c) then Some (call_target c) else None.
Proof.
  unfold find_exact. destruct (List.find (is_exact_for c) (allowed t)) as [m|] eqn:E.
  - apply List.find_some in E as [Hm Em]. apply is_exact_iff in Em as ->.
    rewrite decide_True; [done|]. by apply list_elem_of_In.
  - rewrite decide_False; [done|]. intros Hp. apply list_elem_of_In in Hp.
    apply (List.find_none _ _ E) in Hp. by rewrite (proj2 (is_exact_iff c _) eq_refl) in Hp.
Qed.

Lemma existsb_wildcard t c :
  existsb (is_wildcard_for c) (allowed t) = true ↔
  AnyRelease ∈ allowed t ∧ function c = str "release" ∧ length (type_arguments c) = 1%nat.
Proof.
  rewrite existsb_exists. split.
  - intros [[tg|] [Hm E]]; [done|]. cbn in E. apply andb_true_iff in E as [E1 E2].
    apply bool_decide_eq_true in E1. apply Nat.eqb_eq in E2. by rewrite list_elem_of_In.
  - intros (Hm & E1 & E2). exists AnyRelease. split; [by apply list_elem_of_In|].
    cbn. by rewrite bool_decide_true, E2.
Qed.

Lemma arity_okb t c :
  match find_arity t (call_target c) with
  | Some arity => if (length (type_arguments c) =? arity)%nat then true else false
  | None => true
  end = true ↔ arity_ok t c.
Proof.
  unfold arity_ok. destruct (find_arity t (call_target c)) as [a|].
  - destruct (Nat.eqb_spec (length (type_arguments c)) a); naive_solver.
  - naive_solver.
Qed.

Lemma check_calls_spec t n calls :
  (n ≤ 1)%nat →
  check_calls t n calls = true ↔
  Forall (λ c, pinned t c ∧ arity_ok t c ∨ released t c) calls ∧
  (n + length (filter (λ c, ¬ pinned t c) calls) ≤ 1)%nat.
Proof.
  revert n. induction calls as [|c calls IH]; intros n Hn.
  { cbn. split; [|done]. intros _. split; [constructor|lia]. }
  cbn [check_calls]. rewrite find_exact_pinned, Forall_cons, filter_cons.
  destruct (decide (pinned t c)) as [Hp|Hp].
  - rewrite (decide_False (P := ¬ pinned t c)) by naive_solver.
    pose proof (arity_okb t c) as Ha. unfold released.
    destruct (find_arity t (call_target c)) as [a|]; [destruct (_ =? a)%nat|];
      rewrite ?IH by done; naive_solver.
  - rewrite decide_True by done. cbn [length].
    destruct (existsb _ _) eqn:Ew.
    + apply existsb_wildcard in Ew as (Ew1 & Ew2 & Ew3).
      assert (Hr : released t c) by (by repeat split).
      destruct (1 <? Datatypes.S n)%nat eqn:E1.
      * apply Nat.ltb_lt in E1. split; [done|]. intros [_ ?]. lia.
      * apply Nat.ltb_ge in E1. rewrite IH by lia. split.
        -- intros [??]. split; [split; [by right|done]|lia].
        -- intros [[??]?]. split; [done|lia].
    + split; [done|]. intros [[[[??]|(_&Hw)] _] _]; [done|].
      by rewrite (proj2 (existsb_wildcard t c) Hw) in Ew.
Qed.

Lemma slot_satisfied_iff t m c : slot_satisfied t m c = true ↔ fills_slot t m c.
Proof.
  destruct m as [tg|]; cbn; [rewrite target_matches_iff; naive_solver|].
  rewrite !andb_true_iff, negb_true_iff, existsb_exact, bool_decide_eq_true, bool_decide_eq_false, Nat.eqb_eq.
  naive_solver.
Qed.

(** Taking the first call that fits each slot finds an order whenever there is
    one. *)
Lemma remaining_spec t want calls :
  remaining t want calls = [] ↔ ∃ cs, cs `sublist_of` calls ∧ Forall2 (fills_slot t) want cs.
Proof.
  revert want. induction calls as [|c calls IH]; intros want; cbn [remaining].
  - split.
    + intros ->. exists []. split; [constructor|constructor].
    + intros (cs & Hs & Hf). apply sublist_nil_r in Hs as ->. by inversion Hf.
  - destruct want as [|m want].
    { split; [|done]. intros _. exists []. split; [apply sublist_nil_l|constructor]. }
    rewrite IH. split.
    + intros (cs & Hs & Hf). destruct (slot_satisfied t m c) eqn:Em.
      * apply slot_satisfied_iff in Em. exists (c :: cs). split; [by apply sublist_skip|by constructor].
      * exists cs. split; [by apply sublist_cons|done].
    + intros (cs & Hs & Hf). inversion Hf as [|? x ? cs' Hm Hf']; subst.
      apply sublist_cons_r in Hs as [Hs|(cs'' & [= -> ->] & Hs)].
      * destruct (slot_satisfied t m c).
        -- exists cs'. split; [|done]. etrans; [|exact Hs]. by apply sublist_cons.
        -- by exists (x :: cs').
      * rewrite (proj2 (slot_satisfied_iff t m c) Hm). by exists cs''.
Qed.

Lemma no_deployment_iff cmds : existsb is_deployment cmds = false ↔ Forall (λ c, is_deployment c = false) cmds.
Proof.
  induction cmds as [|c cmds IH]; [done|]. cbn. rewrite orb_false_iff, IH, Forall_cons. done.
Qed.

Lemma template_matches_shape t pt : template_matches t pt = true ↔ has_shape t pt.
Proof.
  unfold template_matches. rewrite collect_calls_spec.
  destruct (existsb is_deployment (commands pt)) eqn:Ed.
  - split; [done|]. intros [Hd _ _ _]. apply no_deployment_iff in Hd. congruence.
  - apply no_deployment_iff in Ed. rewrite andb_true_iff, check_calls_spec by lia.
    assert (Hr : ∀ l : list TargetMatcher, match l with [] => true | _ :: _ => false end = true ↔ l = []) by (by intros []).
    rewrite Hr, remaining_spec. split.
    + intros [[??]?]. by constructor.
    + intros [????]. done.
Qed.

(** * The templates of the protocol *)

Definition option_list {A} (o : option A) : list A := from_opt (λ a, [a]) o.

Definition exchange_packages (ex : ExchangeSponsorPkgs) : list ObjectID :=
  exchange ex :: option_list (adapter ex) ++ option_list (listing ex).

Definition trading_vault_packages (tvp : TradingVaultPkgs) : list ObjectID :=
  trading_vault tvp :: oracle_pyth tvp :: move_stdlib ::
  option_list (deepbook_adapter tvp) ++ option_list (options_adapter tvp) ++ option_list (exchange_adapter tvp) ++
  option_list (equity_oracle tvp) ++
  from_opt (λ sb, [sb_adapter sb; sb_switchboard sb]) (switchboard tvp) ++
  from_opt (λ pp, [pyth pp; wormhole pp]) (tv_pyth tvp).

(** Every exact entry of [t] is in one of [pkgs]. *)
Definition within (pkgs : list ObjectID) (t : PtbTemplate) : Prop :=
  ∀ tg, Exact tg ∈ allowed t → tg_package tg ∈ pkgs.

Definition no_wildcard (t : PtbTemplate) : Prop := AnyRelease ∉ allowed t.

Lemma exact_only_within pkgs name required allowed arities :
  Forall (λ tg, tg_package tg ∈ pkgs) allowed → within pkgs (exact_only name required allowed arities).
Proof.
  rewrite Forall_forall. intros Ha tg Htg. cbn in Htg. apply list_elem_of_fmap in Htg as (x & [= ->] & Hx).
  by apply Ha.
Qed.

Lemma exact_only_no_wildcard name required allowed arities : no_wildcard (exact_only name required allowed arities).
Proof. unfold no_wildcard. cbn. rewrite list_elem_of_fmap. naive_solver. Qed.

Lemma one_call_within pkgs name t n : tg_package t ∈ pkgs → within pkgs (one_call name t n).
Proof. intros Hp. apply exact_only_within. by repeat constructor. Qed.

Lemma Forall_from_opt {A B} (P : B → Prop) (f : A → list B) o :
  (∀ a, o = Some a → Forall P (f a)) → Forall P (from_opt f o).
Proof. destruct o as [a|]; cbn; [auto|constructor]. Qed.

Lemma within_mono pkgs pkgs' ts : pkgs ⊆ pkgs' → Forall (within pkgs) ts → Forall (within pkgs') ts.
Proof. intros Hs Hts. eapply Forall_impl; [exact Hts|]. intros t Ht tg Htg. by apply Hs, Ht. Qed.

Lemma elem_of_option_list {A} (a : A) o : a ∈ option_list o ↔ o = Some a.
Proof. destruct o; cbn; set_solver. Qed.

Ltac each_template :=
  repeat (first [apply Forall_cons; split | apply Forall_nil; exact I | apply Forall_app; split]).

Lemma exchange_within ex : Forall (within (exchange_packages ex)) (exchange_templates ex).
Proof.
  unfold exchange_templates, exchange_packages. destruct ex as [e [a|] [l|]]; cbn -[str one_call route_fill within];
    each_template; try (apply one_call_within; cbn; set_solver);
    apply exact_only_within; cbn -[str]; each_template; cbn; set_solver.
Qed.

Lemma trading_vault_deposit_within tvp : within (trading_vault_packages tvp) (trading_vault_deposit tvp).
Proof.
  apply exact_only_within. unfold appraisal_targets, trading_vault_packages.
  rewrite !Forall_app. repeat (first [apply Forall_from_opt; intros x Hx; rewrite Hx | split_and]);
    cbn -[str u64_to_string]; each_template; cbn; set_solver.
Qed.

Lemma trading_vault_within tvp : Forall (within (trading_vault_packages tvp)) (trading_vault_templates tvp).
Proof.
  unfold trading_vault_templates. apply Forall_cons. split; [apply trading_vault_deposit_within|].
  each_template; apply one_call_within; apply list_elem_of_here.
Qed.

Lemma create_legs_package p module :
  tg_package (create_legs p module).1 = p ∧ tg_package (create_legs p module).2 = p.
Proof. unfold create_legs. by case_bool_decide. Qed.

Lemma execute_flow_within p name rq ex module : within [p] (execute_flow p name rq ex module).
Proof.
  intros tg Htg. unfold execute_flow in Htg. pose proof (create_legs_package p module) as [Hc Hs].
  destruct (create_legs p module) as [create share]. cbn in Htg, Hc, Hs.
  rewrite !elem_of_cons, elem_of_nil in Htg.
  naive_solver (set_solver).
Qed.

Lemma create_only_within p name module : within [p] (create_only p name module).
Proof.
  unfold create_only. pose proof (create_legs_package p module) as [Hc Hs].
  destruct (create_legs p module) as [create share]. apply exact_only_within.
  cbn in *. each_template; set_solver.
Qed.

Lemma flow_within p : Forall (within [p]) (flow_templates p).
Proof.
  unfold flow_templates. each_template;
    first [apply execute_flow_within | apply create_only_within | apply one_call_within; set_solver].
Qed.

Lemma create_only_no_wildcard p name module : no_wildcard (create_only p name module).
Proof. unfold create_only. destruct (create_legs p module). apply exact_only_no_wildcard. Qed.

Section protocol.
Variables (protocol : ObjectID) (vault_pkg : option ObjectID) (test_tokens : list (ObjectID * rstring)).
Variables (allow_faucet : bool) (exchange : option ExchangeSponsorPkgs) (cctp : option ObjectID).
Variable trading_vault : option TradingVaultPkgs.

Abbreviation deployed_templates :=
  (protocol_templates protocol vault_pkg test_tokens allow_faucet exchange cctp trading_vault).

(** The packages the templates may name. *)
Definition deployed_packages : list ObjectID :=
  [protocol] ++ option_list vault_pkg ++ option_list cctp ++ (if allow_faucet then test_tokens.*1 else []) ++
  from_opt exchange_packages exchange ++ from_opt trading_vault_packages trading_vault.

Lemma protocol_within : Forall (within deployed_packages) deployed_templates.
Proof.
  unfold protocol_templates, deployed_packages. rewrite !Forall_app. split_and!.
  - eapply within_mono; [|apply flow_within]. set_solver.
  - apply Forall_from_opt. intros v ->. apply Forall_fmap, Forall_true. intros f. apply one_call_within. cbn. set_solver.
  - apply Forall_from_opt. intros c ->. apply Forall_singleton, one_call_within. cbn. set_solver.
  - destruct allow_faucet; [|constructor]. apply Forall_fmap, Forall_forall. intros [pkg m] Hin.
    apply one_call_within. cbn. apply (list_elem_of_fmap_2 fst) in Hin. set_solver.
  - apply Forall_from_opt. intros ex ->. eapply within_mono; [|apply exchange_within]. cbn. set_solver.
  - apply Forall_from_opt. intros tvp ->. eapply within_mono; [|apply trading_vault_within]. cbn. set_solver.
Qed.

(** The flows with a wildcard. *)
Definition option_flows : list PtbTemplate :=
  [execute_flow protocol "write" "request_writer_flow" "execute_writer_flow" "bucket";
   execute_flow protocol "buy" "request_trader_flow" "execute_trader_flow" "bucket";
   execute_flow protocol "put_write" "request_writer_flow" "execute_writer_flow" "put_bucket";
   execute_flow protocol "put_buy" "request_trader_flow" "execute_trader_flow" "put_bucket"].

Lemma wildcard_flows : Forall (λ t, no_wildcard t ∨ t ∈ option_flows) deployed_templates.
Proof.
  unfold protocol_templates. rewrite !Forall_app. split_and!.
  - unfold flow_templates, option_flows. each_template;
      first [left; first [apply exact_only_no_wildcard | apply create_only_no_wildcard] | right; set_solver].
  - apply Forall_from_opt. intros v _. apply Forall_fmap, Forall_true. intros f. left. apply exact_only_no_wildcard.
  - apply Forall_from_opt. intros v _. apply Forall_singleton. left. apply exact_only_no_wildcard.
  - destruct allow_faucet; [|constructor]. apply Forall_fmap, Forall_true. intros [? ?]. left. apply exact_only_no_wildcard.
  - apply Forall_from_opt. intros ex _. unfold exchange_templates. destruct (listing ex);
      each_template; left; apply exact_only_no_wildcard.
  - apply Forall_from_opt. intros tvp _. unfold trading_vault_templates. each_template; left; apply exact_only_no_wildcard.
Qed.

Lemma deployed_templates_some : deployed_templates ≠ [].
Proof. done. Qed.
End protocol.

(** * What is accepted *)

Lemma sublist_around {A} (pre : list A) x y (l : list A) :
  pre ++ [x; y] `sublist_of` l → ∃ l1 l2, l = l1 ++ x :: l2 ∧ pre `sublist_of` l1 ∧ y ∈ l2.
Proof.
  rewrite sublist_app_l. intros (k1 & k2 & -> & Hpre & Hk).
  apply sublist_cons_l in Hk as (k3 & k4 & -> & Hy).
  exists (k1 ++ k3), k4. split; [by rewrite <- app_assoc|]. split; [by apply sublist_inserts_r|].
  by apply sublist_submseteq, singleton_submseteq_l in Hy.
Qed.

Lemma fills_exact t tgs cs : Forall2 (fills_slot t) (Exact <$> tgs) cs → call_target <$> cs = tgs.
Proof.
  revert cs. induction tgs as [|tg tgs IH]; intros cs Hf; inversion Hf; subst; [done|].
  cbn in *. f_equal; [done|by apply IH].
Qed.

Lemma match_any_shape ts pt : (∃ n, match_any ts pt = Some n) ↔ ∃ t, t ∈ ts ∧ has_shape t pt.
Proof.
  unfold match_any. destruct (List.find _ ts) as [t|] eqn:E; cbn.
  - apply List.find_some in E as [Hin Hm]. apply template_matches_shape in Hm.
    split; [|eauto]. intros _. exists t. by rewrite list_elem_of_In.
  - split; [by intros [??]|]. intros (t & Hin & Hs). apply template_matches_shape in Hs.
    apply list_elem_of_In, (List.find_none _ _ E) in Hin. congruence.
Qed.

(** The one unpinned call of a flow stands between the request and the execution. *)
Lemma flow_released_between p n rq ex module pt c :
  let t := execute_flow p n rq ex module in
  has_shape t pt → c ∈ paid_calls (commands pt) → ¬ pinned t c →
  ∃ l1 l2, paid_calls (commands pt) = l1 ++ c :: l2 ∧ Forall (pinned t) (l1 ++ l2) ∧
    [target p "quote" "new_quote"; target p "quote" "new_signed_quote"; target p module rq] `sublist_of` (call_target <$> l1) ∧
    target p module ex ∈ call_target <$> l2.
Proof.
  intros t [_ _ Hone (cs & Hs & Hf)] Hc Hp.
  assert (required t = (Exact <$> [target p "quote" "new_quote"; target p "quote" "new_signed_quote"; target p module rq])
    ++ [AnyRelease; Exact (target p module ex)]) as Er
    by (subst t; unfold execute_flow; by destruct (create_legs p module)).
  rewrite Er in Hf. apply Forall2_app_inv_l in Hf as (cs1 & cs2 & H1 & H2 & ->).
  apply fills_exact in H1. inversion H2 as [|? r ? cs3 Hr H3]; subst. inversion H3 as [|? e ? cs4 He H4]; subst.
  inversion H4; subst. destruct Hr as (_ & _ & Hr). cbn in He.
  apply sublist_around in Hs as (l1 & l2 & El & Hpre & Hin).
  assert (filter (λ c, ¬ pinned t c) l1 = [] ∧ filter (λ c, ¬ pinned t c) l2 = []) as [F1 F2].
  { rewrite El, filter_app, filter_cons_True, length_app in Hone by done. cbn in Hone.
    split; apply length_zero_iff_nil; lia. }
  assert (Forall (pinned t) (l1 ++ l2)) as Hpin.
  { apply Forall_forall. intros x Hx. destruct (decide (pinned t x)) as [|Hn]; [done|]. exfalso.
    apply elem_of_app in Hx as [Hx|Hx]; [apply (not_elem_of_nil x); rewrite <- F1|apply (not_elem_of_nil x); rewrite <- F2];
      by apply list_elem_of_filter. }
  assert (c = r) as ->.
  { rewrite El in Hc. apply elem_of_app in Hc as [Hc|Hc]; [|apply elem_of_cons in Hc as [->|Hc]; [done|]];
      exfalso; apply Hp; apply (proj1 (Forall_forall _ _) Hpin); apply elem_of_app; auto. }
  exists l1, l2. split; [done|]. split; [done|]. split.
  - rewrite <- H1. by apply fmap_sublist.
  - rewrite <- He. by apply list_elem_of_fmap_2.
Qed.

Section accepted.
Context `{SuiSdk}.

Lemma validate_kind_ok pt ts :
  validate_kind (Programmable pt) ts = Ok tt ↔
  Forall (λ c, is_deployment c = false) (commands pt) ∧ (ts = [] ∨ ∃ t, t ∈ ts ∧ has_shape t pt).
Proof.
  unfold validate_kind. rewrite <- no_deployment_iff.
  destruct (existsb is_deployment (commands pt)) eqn:Ed; [naive_solver|].
  destruct ts as [|t ts]; [naive_solver|]. rewrite <- match_any_shape.
  destruct (match_any (t :: ts) pt); naive_solver.
Qed.

(** Commands that move values between calls. *)
Definition is_plumbing (c : Command) : bool :=
  match c with SplitCoins _ _ | MergeCoins _ _ | TransferObjects _ _ | MakeMoveVec _ _ => true | _ => false end.

Lemma paid_calls_plumbing cmds1 ps cmds2 :
  Forall (λ c, is_plumbing c = true) ps → paid_calls (cmds1 ++ ps ++ cmds2) = paid_calls (cmds1 ++ cmds2).
Proof.
  intros Hps. unfold paid_calls. rewrite !omap_app. f_equal.
  induction Hps as [|p ps Hp Hps IH]; [done|]. cbn. by destruct p.
Qed.

(** Plumbing is not looked at, wherever it stands and whatever coins it names. *)
Lemma plumbing_ignored t ins ins' cmds1 ps cmds2 :
  Forall (λ c, is_plumbing c = true) ps →
  has_shape t (mkPT ins (cmds1 ++ cmds2)) → has_shape t (mkPT ins' (cmds1 ++ ps ++ cmds2)).
Proof.
  intros Hps [Hd Hl Hone Ho]. constructor; cbn in *; rewrite ?paid_calls_plumbing by done; try done.
  apply Forall_app in Hd as [? ?]. rewrite !Forall_app. split_and!; [done| |done].
  eapply Forall_impl; [exact Hps|]. by intros [].
Qed.

(** A split of the gas coin, sent to the address in [recipient]. *)
Definition take_gas_coin (n amount recipient : nat) : list Command :=
  [SplitCoins GasCoin [Input amount]; TransferObjects [NestedResult n 0] (Input recipient)].

(** A transaction that is accepted is also accepted when it ends by sending
    part of the gas coin, the coin of the sponsor, to an address of its choice. *)
Lemma gas_coin_unguarded ts ins cmds amount recipient :
  validate_kind (Programmable (mkPT ins cmds)) ts = Ok tt →
  validate_kind (Programmable (mkPT (ins ++ [amount; recipient])
    (cmds ++ take_gas_coin (length cmds) (length ins) (Datatypes.S (length ins))))) ts = Ok tt.
Proof.
  rewrite !validate_kind_ok. cbn. rewrite Forall_app. intros [Hd Hs]. split.
  { split; [done|]. by repeat constructor. }
  destruct Hs as [->|(t & Hin & Hs)]; [by left|right]. exists t. split; [done|].
  rewrite <- (app_nil_r (take_gas_coin _ _ _)).
  apply plumbing_ignored with (ins := ins); [by repeat constructor|]. by rewrite app_nil_r.
Qed.
End accepted.

(** * Gathering coins *)

(** What a list of coins covers, as the source adds it up. *)
Definition covered (cs : list CoinRef) : Z := foldl (λ a c, u64_saturating_add a (balance c)) 0 cs.

(** [picked enough k cs]: the first [k] coins are taken, and one fewer would not
    have been enough. *)
Record picked (enough : Z) (k : nat) (cs : list CoinRef) : Prop := {
  picked_some : cs ≠ [] → (0 < k)%nat;
  picked_enough : (k ≤ length cs)%nat ∧ (enough ≤ covered (take k cs) ∨ k = length cs);
  picked_least : ∀ j, (0 < j < k)%nat → covered (take j cs) < enough;
}.

Lemma foldl_covered cs1 cs2 :
  foldl (λ a c, u64_saturating_add a (balance c)) (covered cs1) cs2 = covered (cs1 ++ cs2).
Proof. unfold covered. by rewrite foldl_app. Qed.

Lemma gather_from enough done rest :
  (∀ j, (0 < j ≤ length done)%nat → covered (take j (done ++ rest)) < enough) →
  ∃ k, (length done ≤ k ≤ length (done ++ rest))%nat ∧ (rest ≠ [] → (length done < k)%nat) ∧
    gather enough rest (object_ref <$> done) (covered done) =
      (object_ref <$> take k (done ++ rest), covered (take k (done ++ rest))) ∧
    (enough ≤ covered (take k (done ++ rest)) ∨ k = length (done ++ rest)) ∧
    ∀ j, (0 < j < k)%nat → covered (take j (done ++ rest)) < enough.
Proof.
  revert done. induction rest as [|c rest IH]; intros done Hlow.
  - exists (length done). rewrite app_nil_r in *. rewrite take_ge by lia. cbn. split_and!; [lia|lia|done|done|by right|].
    intros j Hj. apply Hlow. lia.
  - cbn [gather]. replace (u64_saturating_add (covered done) (balance c)) with (covered (done ++ [c]))
      by (unfold covered; by rewrite foldl_app).
    replace ((object_ref <$> done) ++ [object_ref c]) with (object_ref <$> (done ++ [c])) by by rewrite fmap_app.
    assert (take (length (done ++ [c])) (done ++ c :: rest) = done ++ [c]) as Et.
    { replace (done ++ c :: rest) with ((done ++ [c]) ++ rest) by by rewrite <- app_assoc. by rewrite take_app_length. }
    destruct (enough <=? covered (done ++ [c])) eqn:E.
    + exists (length (done ++ [c])). rewrite Et. apply Z.leb_le in E. rewrite !length_app in *. cbn in *.
      split_and!; [lia|lia|lia|done|by left|]. intros j Hj. apply Hlow. lia.
    + apply Z.leb_gt in E. replace (done ++ c :: rest) with ((done ++ [c]) ++ rest) in * by by rewrite <- app_assoc.
      destruct (IH (done ++ [c])) as (k & Hk & Hgt & Eg & Hor & Hl).
      { intros j Hj. destruct (decide (j = length (done ++ [c]))) as [->|Hne]; [by rewrite Et|].
        apply Hlow. rewrite length_app in *. cbn in *. lia. }
      exists k. rewrite !length_app in *. cbn in *. split_and!; [lia|lia|lia|done|done|done].
Qed.

Lemma gather_picked enough cs :
  ∃ k, picked enough k cs ∧ gather enough cs [] 0 = (object_ref <$> take k cs, covered (take k cs)).
Proof.
  destruct (gather_from enough [] cs) as (k & Hk & Hgt & Eg & Hor & Hl); [cbn; lia|].
  exists k. split; [|exact Eg]. constructor; [|split; [cbn in *; lia|done]|done].
  intros Hne. cbn in *. by apply Hgt.
Qed.

Lemma covered_sum cs : Forall (λ c, 0 ≤ balance c) cs → covered cs = Z.min (Zsum_with balance cs) u64_max.
Proof.
  unfold covered. intros Hb. assert (∀ a, 0 ≤ a ≤ u64_max →
    foldl (λ a c, u64_saturating_add a (balance c)) a cs = Z.min (a + Zsum_with balance cs) u64_max) as H; [|rewrite H by (unfold u64_max; lia); done].
  induction Hb as [|c cs Hc Hcs IH]; intros a Ha; cbn [foldl].
  - rewrite Zsum_with_nil. lia.
  - rewrite Zsum_with_cons, IH by (unfold u64_saturating_add; lia).
    assert (0 ≤ Zsum_with balance cs) by (apply Zsum_with_nonneg; by apply Forall_forall).
    unfold u64_saturating_add. lia.
Qed.

Lemma run_with_context {S A} msg (p : prog S (result Error A)) s :
  run (with_context msg p) s = ((run p s).1, map_err (context msg) (run p s).2).
Proof. unfold with_context. by rewrite run_bind. Qed.

Lemma map_err_ok {E F A} (f : E → F) (r : result E A) a : map_err f r = Ok a → r = Ok a.
Proof. destruct r; cbn; congruence. Qed.

(** The node reports balances as [u64]s. *)
Class ChainClientSpec (S : Type) `{ChainClient S} : Prop := {
  owned_u64 o ty s s' page : get_owned_coins o ty s = (s', Ok page) → Forall (λ c, u64 (balance c)) page;
}.

Definition largest_first (page : list CoinRef) : list CoinRef := sort_by (λ a b : CoinRef, balance b <=? balance a) page.

Section sponsored.
Context {S : Type} `{ChainClient S, SponsorSdk, SuiSdk, Base64Crate}.

Lemma run_coins_ok o ty s s' cs :
  run (coins o ty) s = (s', Ok cs) → ∃ page, get_owned_coins o ty s = (s', Ok page) ∧ cs = largest_first page.
Proof.
  unfold coins. rewrite run_try, run_act. destruct (get_owned_coins o ty s) as [s1 [page|e]]; cbn; naive_solver.
Qed.

(** A step of a program that ended well. *)
Lemma run_try_inv {A B} (p : prog S (result Error A)) (h : A → prog S (result Error B)) s s' b :
  run (prog_try p h) s = (s', Ok b) → ∃ s1 a, run p s = (s1, Ok a) ∧ run (h a) s1 = (s', Ok b).
Proof. rewrite run_try. destruct (run p s) as [s1 [a|e]]; cbn; naive_solver. Qed.

Lemma run_with_context_inv {A} msg (p : prog S (result Error A)) s s' a :
  run (with_context msg p) s = (s', Ok a) → run p s = (s', Ok a).
Proof.
  rewrite run_with_context. destruct (run p s) as [s1 r]; cbn. intros [= -> E]. apply map_err_ok in E. by subst.
Qed.

Lemma sponsor_transaction_ok signer ts policy sender kb s s' out :
  run (sponsor_transaction signer ts policy sender kb) s = (s', Ok out) →
  ∃ pt s1 page s2 price dry k b,
    let paid := take k (largest_first page) in
    let tx b := new_with_gas_data (Programmable pt) sender (mkGasData (object_ref <$> paid) signer price b) in
    kind_from_bcs kb = Ok (Programmable pt) ∧ validate_kind (Programmable pt) ts = Ok tt ∧
    get_owned_coins signer sui_coin_type s = (s1, Ok page) ∧ get_reference_gas_price s1 = (s2, Ok price) ∧
    picked (max_gas_budget policy) k (largest_first page) ∧ largest_first page ≠ [] ∧
    simulate (tx (Z.min (max_gas_budget policy) (covered paid))) s2 = (s', Ok dry) ∧ status dry = None ∧
    b = sized_budget policy dry ∧ out = signed_tx signer (tx b) b price ∧
    min_gas_budget policy ≤ Z.min (max_gas_budget policy) (covered paid) ∧ b ≤ covered paid.
Proof.
  unfold sponsor_transaction. intros Hr.
  apply run_try_inv in Hr as (s0 & kind & Hk & Hr). cbn in Hk. injection Hk as <- Hk. apply map_err_ok in Hk.
  apply run_try_inv in Hr as (s0 & [] & Hv & Hr). cbn in Hv. injection Hv as <- Hv.
  destruct kind as [pt|]; [|done].
  apply run_try_inv in Hr as (s1 & cs & Hc & Hr). apply run_with_context_inv, run_coins_ok in Hc as (page & Hpage & ->).
  case_bool_decide as Hne; [done|].
  destruct (gather_picked (max_gas_budget policy) (largest_first page)) as (k & Hpick & Eg). rewrite Eg in Hr.
  apply run_try_inv in Hr as (s2 & price & Hp & Hr). apply run_with_context_inv in Hp. rewrite run_act in Hp.
  destruct (_ <? _) eqn:El in Hr; [done|]. apply Z.ltb_ge in El.
  apply run_try_inv in Hr as (s3 & dry & Hd & Hr). apply run_with_context_inv in Hd. rewrite run_act in Hd.
  destruct (status dry) eqn:Es; [done|].
  destruct (_ <? _) eqn:Eb in Hr; [done|]. apply Z.ltb_ge in Eb. cbn in Hr. injection Hr as <- <-.
  eexists pt, s1, page, s2, price, dry, k, _. split_and!; try done.
Qed.
End sponsored.

(** * Submission *)

Section submission.
Context {S : Type} `{ChainClient S, SponsorSdk, SuiSdk}.
Variables (signer : SuiAddress) (gas_budget : Z) (label : rstring).
Variable build : prog S (result Error ProgrammableTransaction).

Abbreviation attempt := (attempt_submit signer gas_budget label build).

(** The state after [n] attempts. *)
Fixpoint after (n : nat) (s : S) : S := match n with O => s | Datatypes.S n' => after n' (run attempt s).1 end.

(** An attempt whose submission was refused for a stale reference. *)
Definition stale_at (s : S) : Prop := ∃ e, (run attempt s).2 = Ok (Err e) ∧ is_stale_gas_rejection e = true.

Definition outcome {A} (r : result Error (result Error A)) : result Error A :=
  match r with Ok r => r | Err e => Err e end.

Lemma submit_attempts_retry left s :
  ∃ n, (n ≤ left)%nat ∧ (∀ i, (i < n)%nat → stale_at (after i s)) ∧
    run (submit_attempts (Datatypes.S left) signer gas_budget label build) s =
      ((run attempt (after n s)).1, Some (outcome (run attempt (after n s)).2)) ∧
    ((n < left)%nat → ¬ stale_at (after n s)).
Proof.
  revert s. induction left as [|left IH]; intros s.
  - exists 0%nat. split_and!; [lia|lia| |lia]. cbn [submit_attempts after]. rewrite run_bind.
    by destruct (run attempt s) as [s' [[r|e]|e]].
  - cbn [submit_attempts]. rewrite run_bind.
    destruct (run attempt s) as [s' [[r|e]|e]] eqn:E; cbn [fst snd].
    + exists 0%nat. split_and!; [lia|lia|cbn [after]; by rewrite E|]. cbn [after]. intros _ (e & He & _). by rewrite E in He.
    + destruct (is_stale_gas_rejection e) eqn:Es.
      * destruct (IH s') as (n & Hn & Hb & Hr & Hl). exists (Datatypes.S n).
        assert (∀ i, after i s' = after (Datatypes.S i) s) as Ha.
        { intros i. cbn [after]. by rewrite E. }
        split_and!; [lia| | |].
        -- intros [|i] Hi; [exists e; cbn [after]; by rewrite E|]. rewrite <- Ha. apply Hb. lia.
        -- rewrite <- Ha. exact Hr.
        -- rewrite <- Ha. intros ?. apply Hl. lia.
      * exists 0%nat. split_and!; [lia|lia|cbn [after]; by rewrite E|]. cbn [after]. intros _ (e' & He & Hs).
        rewrite E in He. cbn in He. congruence.
    + exists 0%nat. split_and!; [lia|lia|cbn [after]; by rewrite E|]. cbn [after]. intros _ (e' & He & _). rewrite E in He. done.
Qed.
End submission.

(** What a top-up moves leaves the gas of its own transaction, and never takes
    the coins above the target. *)
Lemma top_up_amount_bounds target gas_budget in_coins available :
  0 ≤ gas_budget → 0 < top_up_amount target gas_budget in_coins available →
  top_up_amount target gas_budget in_coins available + gas_budget ≤ available ∧
  in_coins + top_up_amount target gas_budget in_coins available ≤ target.
Proof. unfold top_up_amount, u64_saturating_sub. lia. Qed.

(** * Results *)

(** C14: a transaction matches a template exactly when it has its shape: no deployment, every
    call pinned by the template with the right number of type arguments, but for
    at most one wildcard call, and the required calls in order.  The name
    returned is that of the first template with the shape. *)
Theorem match_any_decides ts pt n :
  match_any ts pt = Some n ↔
  ∃ i t, ts !! i = Some t ∧ name t = n ∧ has_shape t pt ∧ ∀ j t', (j < i)%nat → ts !! j = Some t' → ¬ has_shape t' pt.
Proof.
  unfold match_any. induction ts as [|t ts IH]; cbn [List.find].
  { split; [done|]. intros (i & t & Hi & _). by rewrite lookup_nil in Hi. }
  destruct (template_matches t pt) eqn:E.
  - apply template_matches_shape in E. cbn. split.
    + intros [= <-]. exists 0%nat, t. split_and!; [done|done|done|]. intros j t' Hj. lia.
    + intros ([|i] & t' & Hi & Hn & Hs & Hfirst).
      * cbn in Hi. congruence.
      * exfalso. by apply (Hfirst 0%nat t); [lia| |].
  - assert (¬ has_shape t pt) as Hno by (rewrite <- template_matches_shape; congruence).
    rewrite IH. split.
    + intros (i & t' & Hi & Hn & Hs & Hfirst). exists (Datatypes.S i), t'. split_and!; [done|done|done|].
      intros [|j] t'' Hj Hl; [by injection Hl as <-|]. apply (Hfirst j t''); [lia|done].
    + intros ([|i] & t' & Hi & Hn & Hs & Hfirst); [by injection Hi as <-|].
      exists i, t'. split_and!; [done|done|done|]. intros j t'' Hj Hl. apply (Hfirst (Datatypes.S j) t''); [lia|done].
Qed.

(** The calls around the release of the collateral in a flow: quotes and request before it, the execution after it. *)
Definition released_between (protocol : ObjectID) (l1 l2 : list ProgrammableMoveCall) : Prop :=
  ∃ module side, module ∈ ["bucket"; "put_bucket"]%string ∧ side ∈ ["writer"; "trader"]%string ∧
    [target protocol "quote" "new_quote"; target protocol "quote" "new_signed_quote";
     target protocol module ("request_" ++ side ++ "_flow")] `sublist_of` (call_target <$> l1) ∧
    target protocol module ("execute_" ++ side ++ "_flow") ∈ call_target <$> l2.

(** C29: what the station signs for with the templates of a deployment.  Every
    command is neither a publication nor an upgrade; every call that is not
    value-neutral coin plumbing goes into a deployed package, but for at most
    one: a [release] with one type argument, between the request and the
    execution of an option flow. *)
Theorem sponsored_calls_endorsed `{SuiSdk} protocol vault_pkg test_tokens allow_faucet exchange cctp trading_vault pt :
  let packages := deployed_packages protocol vault_pkg test_tokens allow_faucet exchange cctp trading_vault in
  validate_kind (Programmable pt)
    (protocol_templates protocol vault_pkg test_tokens allow_faucet exchange cctp trading_vault) = Ok tt →
  Forall (λ c, is_deployment c = false) (commands pt) ∧
  (Forall (λ c, package c ∈ packages) (paid_calls (commands pt)) ∨
   ∃ l1 c l2, paid_calls (commands pt) = l1 ++ c :: l2 ∧ Forall (λ c, package c ∈ packages) (l1 ++ l2) ∧
     function c = str "release" ∧ length (type_arguments c) = 1%nat ∧ released_between protocol l1 l2).
Proof.
  intros packages Hv. apply validate_kind_ok in Hv as [Hd [Hnil|(t & Hin & Hs)]].
  { by apply deployed_templates_some in Hnil. }
  split; [done|].
  assert (∀ c, pinned t c → package c ∈ packages) as Hpin.
  { intros c Hc. by apply (proj1 (Forall_forall _ _) (protocol_within _ _ _ _ _ _ _) t Hin (call_target c)). }
  destruct (decide (Forall (pinned t) (paid_calls (commands pt)))) as [Hall|Hnot].
  { left. eapply Forall_impl; [exact Hall|exact Hpin]. }
  right. apply not_Forall_Exists, Exists_exists in Hnot as (c & Hc & Hp); [|apply _].
  destruct (proj1 (Forall_forall _ _) (calls_listed _ _ Hs) c Hc) as [[? _]|(_ & Hw & Hf & Hn)]; [done|].
  destruct (proj1 (Forall_forall _ _) (wildcard_flows protocol vault_pkg test_tokens allow_faucet exchange cctp trading_vault) t Hin)
    as [Hno|Hflow]; [done|].
  assert (∃ nm module side, t = execute_flow protocol nm ("request_" ++ side ++ "_flow") ("execute_" ++ side ++ "_flow") module ∧
    module ∈ ["bucket"; "put_bucket"]%string ∧ side ∈ ["writer"; "trader"]%string) as (nm & module & side & -> & Hm & Hside).
  { unfold option_flows in Hflow. rewrite !elem_of_cons, elem_of_nil in Hflow.
    destruct Hflow as [->|[->|[->|[->|[]]]]]; [eexists _, "bucket"%string, "writer"%string|eexists _, "bucket"%string, "trader"%string
      |eexists _, "put_bucket"%string, "writer"%string|eexists _, "put_bucket"%string, "trader"%string];
      (split_and!; [reflexivity|rewrite !elem_of_cons; auto|rewrite !elem_of_cons; auto]). }
  destruct (flow_released_between _ _ _ _ _ _ _ Hs Hc Hp) as (l1 & l2 & El & Hl & Hpre & Hpost).
  exists l1, c, l2. split_and!; [done| |done|done|by exists module, side].
  eapply Forall_impl; [exact Hl|exact Hpin].
Qed.

(** C25: what the station signs is the transaction of the request, as a dry run of
    it succeeded, paid by coins of the station.  The budget is the cost of the
    dry run with the margin of the policy, raised to its minimum and cut at its
    maximum: it covers that cost unless the cap cuts it.  The coins cover the
    budget, and none of them could be spared. *)
Theorem sponsored_within_policy {S : Type} `{ChainClientSpec S, SponsorSdk, SuiSdk, Base64Crate} signer ts policy sender kb s s' out :
  run (sponsor_transaction signer ts policy sender kb) s = (s', Ok out) →
  ∃ pt s1 page s2 price dry k b,
    let paid := take k (largest_first page) in
    let tx b := new_with_gas_data (Programmable pt) sender (mkGasData (object_ref <$> paid) signer price b) in
    let used := u64_saturating_add (computation_cost dry) (storage_cost dry) in
    let buffered := u64_saturating_add used (u64_saturating_mul used (buffer_bps policy) / 10000) in
    kind_from_bcs kb = Ok (Programmable pt) ∧ validate_kind (Programmable pt) ts = Ok tt ∧
    get_owned_coins signer sui_coin_type s = (s1, Ok page) ∧ get_reference_gas_price s1 = (s2, Ok price) ∧
    (∃ dry_budget, min_gas_budget policy ≤ dry_budget ≤ max_gas_budget policy ∧
      simulate (tx dry_budget) s2 = (s', Ok dry) ∧ status dry = None) ∧
    out = signed_tx signer (tx b) b price ∧
    b = Z.min (Z.max buffered (min_gas_budget policy)) (max_gas_budget policy) ∧
    min_gas_budget policy ≤ b ≤ max_gas_budget policy ∧ b ≤ Zsum_with balance paid ∧
    (b < max_gas_budget policy → buffered ≤ b) ∧
    ∀ j, (0 < j < k)%nat → Zsum_with balance (take j (largest_first page)) < max_gas_budget policy ∨
      u64_max < max_gas_budget policy.
Proof.
  intros Hr. destruct (sponsor_transaction_ok _ _ _ _ _ _ _ _ Hr)
    as (pt & s1 & page & s2 & price & dry & k & b & Hk & Hv & Hpage & Hprice & [_ Hpk Hleast] & Hne & Hd & Hs & Eb & Eo & Hmin & Hb).
  assert (∀ j, Forall (λ c : CoinRef, 0 ≤ balance c) (take j (largest_first page))) as Hbal.
  { intros j. apply Forall_take. unfold largest_first. rewrite sort_by_perm.
    apply owned_u64 in Hpage. eapply Forall_impl; [exact Hpage|]. unfold u64. intros c Hc. lia. }
  exists pt, s1, page, s2, price, dry, k, b. split_and!; try done.
  - eexists. split; [|split; [exact Hd|done]]. split; [exact Hmin|apply Z.le_min_l].
  - subst b. unfold sized_budget. lia.
  - subst b. unfold sized_budget. lia.
  - rewrite covered_sum in Hb by apply Hbal. lia.
  - subst b. unfold sized_budget. lia.
  - intros j Hj. specialize (Hleast j Hj). rewrite covered_sum in Hleast by apply Hbal. lia.
Qed.

(** * A small station *)

Section demo.
#[local] Existing Instance demo_base64.

#[local] Instance demo_station_sui : SuiSdk := {|
  sui_address_from_str s := Some (mkSuiAddress s); object_id_from_hex_literal s := Some (mkSuiAddress s);
  address_text a := addr_bytes a; address_from_bcs bs := Some (mkSuiAddress bs); u64_from_bcs bs := head bs;
  transaction_from_bcs _ := None; transaction_digest_text _ := [] |}.

Definition demo_package : ObjectID := small_id 170.

(** A write of a call option, with the release in package 9. *)
Definition demo_write : ProgrammableTransaction :=
  mkPT [] (MoveCall <$>
    [mkMoveCall demo_package (str "quote") (str "new_quote") [[]; []] [];
     mkMoveCall demo_package (str "quote") (str "new_signed_quote") [] [];
     mkMoveCall demo_package (str "bucket") (str "request_writer_flow") [[]; []; []] [];
     mkMoveCall (small_id 9) (str "collateral") (str "release") [[]] [];
     mkMoveCall framework (str "coin") (str "zero") [[]] [];
     mkMoveCall demo_package (str "bucket") (str "execute_writer_flow") [[]; []; []] []]).

#[local] Instance demo_station_sdk : SponsorSdk := {|
  kind_from_bcs bs := match bs with [1] => Ok (Programmable demo_write) | _ => Err [str "bcs"] end;
  tx_to_bcs _ := [0]; sign _ _ := str "signature";
  is_gas_coin_used c := match c with SplitCoins GasCoin _ => true | _ => false end |}.

(** The node's coins, as its state. *)
#[local] Instance demo_node : ChainClient (list Z) := {|
  get_owned_coins _ _ s := (s, Ok (imap (λ i b, mkCoinRef (small_id (Z.of_nat i), 1, []) (Z.max 0 (Z.min b u64_max))) s));
  get_balance _ _ s := (s, Ok (Zsum_with id s)); get_address_balance _ _ s := (s, Ok None);
  get_reference_gas_price s := (s, Ok 1000); get_chain_id s := (s, Ok []); get_current_epoch s := (s, Ok 1);
  random_nonce s := (s, 4); simulate _ s := (s, Ok (mkEffects None None 1000000 2000000 []));
  execute_transaction _ _ s := (s, Ok (mkEffects None None 0 0 [])) |}.

#[local] Instance demo_node_spec : ChainClientSpec (list Z).
Proof.
  constructor. cbn. intros _ _ s s' page [= _ <-]. apply Forall_lookup. intros i c Hc.
  rewrite list_lookup_imap in Hc. destruct (s !! i); [|done]. injection Hc as <-. unfold u64, u64_max. cbn. lia.
Qed.

Definition demo_templates : list PtbTemplate :=
  protocol_templates demo_package None [] false None None None.

Definition demo_budget : BudgetPolicy := mkPolicy 500000000 1000000 2500.

Lemma sponsored_calls_endorsed_witness :
  validate_kind (Programmable demo_write) demo_templates = Ok tt ∧
  Forall (λ c, is_deployment c = false) (commands demo_write).
Proof.
  assert (E : validate_kind (Programmable demo_write) demo_templates = Ok tt) by (vm_compute; reflexivity).
  split; [exact E|]. apply (sponsored_calls_endorsed demo_package None [] false None None None demo_write E).
Defined.

Lemma sponsored_within_policy_witness :
  ∃ pt, kind_from_bcs [1] = Ok (Programmable pt) ∧ validate_kind (Programmable pt) demo_templates = Ok tt.
Proof.
  edestruct (sponsored_within_policy (S := list Z) (small_id 1) demo_templates demo_budget (small_id 2) [1]
    [300000000; 400000000; 100000000]) as (pt & s1 & page & s2 & price & dry & k & b & E1 & E2 & _).
  { vm_compute. reflexivity. }
  exists pt. split; [exact E1|exact E2].
Defined.

(** A route fill whose slippage guard stands before the fills, twice, is accepted. *)
Lemma guard_need_not_close :
  let ex := mkExchangePkgs (small_id 5) None None in
  let call f n := MoveCall (mkMoveCall (small_id 5) (str "settlement") (str f) (replicate n []) []) in
  match_any (protocol_templates demo_package None [] false (Some ex) None None)
    (mkPT [] [call "assert_coin_min" 1%nat; call "assert_coin_min" 1%nat; call "fill_limit_order" 2%nat]) =
  Some (str "exchange_route_fill").
Proof. vm_compute. reflexivity. Qed.

(** Two requests are sponsored with the same gas coins. *)
Lemma same_coins_twice :
  ∃ refs tx1 tx2 price b1 b2,
    let node := [300000000; 400000000; 100000000] in
    run (sponsor_transaction (small_id 1) demo_templates demo_budget (small_id 2) [1]) node =
      (node, Ok (signed_tx (small_id 1) tx1 b1 price)) ∧
    run (sponsor_transaction (small_id 1) demo_templates demo_budget (small_id 3) [1]) node =
      (node, Ok (signed_tx (small_id 1) tx2 b2 price)) ∧
    tx1 = new_with_gas_data (Programmable demo_write) (small_id 2) (mkGasData refs (small_id 1) price b1) ∧
    tx2 = new_with_gas_data (Programmable demo_write) (small_id 3) (mkGasData refs (small_id 1) price b2) ∧ refs ≠ [].
Proof.
  exists [(small_id 1, 1, []); (small_id 0, 1, [])]. do 2 eexists. exists 1000, 3750000, 3750000.
  split_and!; [| |reflexivity|reflexivity|done]; vm_compute; reflexivity.
Qed.
End demo.
