(* ===== verification/CctpRelay.v ===== *)
(** [services/cctp-relay]: the relay of USDC transfers between Sui and Solana.
    A transfer is registered by the hash of its burn ([router.rs]); the watcher
    waits for Circle's attestation ([watcher.rs], [iris.rs]); the relayer
    submits and confirms the mint on the other chain ([relayer.rs],
    [sui_mint.rs], [solana_mint.rs]); [db/repo.rs] keeps one row per transfer. *)

From S2P Require Import Prelude RecordUpdate Prog RustStr ExchangeTypes Crates Json Wire SuiTx GasTemplate GasStation.

Definition DOMAIN_SUI : Z := 8.
Definition DOMAIN_SOLANA : Z := 5.

(** * Messages ([message.rs]) *)

Definition HEADER_LEN : nat := 116.
Definition BURN_BODY_LEN : nat := 132.

Record BurnBody := mkBurnBody {
  bb_version : Z;
  burn_token : list Z;
  mint_recipient : list Z;
  bb_amount : Z;
  message_sender : list Z;
}.

Record CctpMessage := mkMessage {
  version : Z;
  source_domain : Z;
  destination_domain : Z;
  msg_nonce : Z;
  msg_sender : list Z;
  recipient : list Z;
  destination_caller : list Z;
  burn : BurnBody;
}.

(** [l[a..b]]. *)
Definition slice {A} (a b : nat) (l : list A) : list A := take (b - a) (drop a l).

(** [from_be_bytes]. *)
Definition from_be (bs : list Z) : Z := foldl (λ acc b, acc * 256 + b) 0 bs.

Definition too_short (n : nat) : Error :=
  error (str "message too short: " ++ u64_to_string (Z.of_nat n) ++ str " bytes (need " ++
    u64_to_string (Z.of_nat (HEADER_LEN + BURN_BODY_LEN)) ++ str ")").

Definition decode (message : list Z) : result Error CctpMessage :=
  if (length message <? HEADER_LEN + BURN_BODY_LEN)%nat then Err (too_short (length message)) else
  let u32_at o := from_be (slice o (o + 4) message) in
  let bytes32_at o := slice o (o + 32) message in
  let body := drop HEADER_LEN message in
  let amount_bytes := slice 68 100 body in
  if existsb (λ b, negb (b =? 0)) (take 24 amount_bytes) then Err (error (str "burn amount exceeds u64")) else
  let amount := from_be (drop 24 amount_bytes) in
  Ok (mkMessage (u32_at 0%nat) (u32_at 4%nat) (u32_at 8%nat) (from_be (slice 12 20 message)) (bytes32_at 20%nat)
    (bytes32_at 52%nat) (bytes32_at 84%nat)
    (mkBurnBody (from_be (slice 0 4 body)) (slice 4 36 body) (slice 36 68 body) amount (slice 100 132 body))).

Definition hex_bytes `{HexCrate} (s : rstring) : result Error (list Z) :=
  ok_or (hex_decode (trim_0x (length s) s)) (error (str "bad hex")).

(** * Rows ([db/models.rs]) *)

Inductive Chain := Sui | Solana.

(** [chain::SUI], [chain::SOLANA]. *)
Definition Chain_as_str (c : Chain) : rstring := match c with Sui => str "sui" | Solana => str "solana" end.

Inductive Status := PENDING_ATTESTATION | ATTESTED | MINTING | COMPLETE | FAILED.

#[export] Instance Chain_eq_dec : EqDecision Chain.
Proof. solve_decision. Defined.
#[export] Instance Status_eq_dec : EqDecision Status.
Proof. solve_decision. Defined.

(** The [INT] of the database and the [i32] of the service. *)
Definition i32_max : Z := 2 ^ 31 - 1.
Definition i32_add (a b : Z) : Z := (a + b + 2 ^ 31) mod 2 ^ 32 - 2 ^ 31.

(** Times are in microseconds. *)
Module TransferRow.
Record t := mk {
  id : Z;
  origin_chain : Chain;
  origin_tx_hash : rstring;
  origin_wallet : rstring;
  destination_wallet : option rstring;
  mint_recipient : option rstring;
  amount : option Z;
  status : Status;
  message_hex : option rstring;
  attestation_hex : option rstring;
  mint_tx_hash : option rstring;
  err : option rstring;
  attempts : Z;
  burned_at : option Z;
  attested_at : option Z;
  minted_at : option Z;
  created_at : Z;
  updated_at : Z;
}.

#[global] Instance fields : Fields t := λ r,
  mk (id r) (origin_chain r) (origin_tx_hash r) (origin_wallet r) (destination_wallet r) (mint_recipient r) (amount r)
    (status r) (message_hex r) (attestation_hex r) (mint_tx_hash r) (err r) (attempts r) (burned_at r) (attested_at r)
    (minted_at r) (created_at r) (updated_at r).

#[global] Instance eq_dec : EqDecision t.
Proof. solve_decision. Defined.

Definition destination_chain (r : t) : Chain := match origin_chain r with Sui => Solana | Solana => Sui end.
End TransferRow.

Module NewTransfer.
Record t := mk {
  origin_chain : Chain;
  origin_tx_hash : rstring;
  origin_wallet : rstring;
  destination_wallet : option rstring;
}.
End NewTransfer.

(** * The service and its surroundings *)

(** The other services and the clocks: their replies depend on, and may change,
    the state [W] of the world.  [now] is the clock of the database and of the
    service; [db_up] says whether a connection is to be had. *)
Class Bridge (W : Type) := {
  now : W → W * Z;
  db_up : W → W * bool;
  iris_get : rstring → W → W * result Error (Z * result Error Value);
  solana_post : rstring → Value → W → W * result Error Value;
  json_text : Value → rstring;
  timestamp_millis_opt : Z → option Z;
  sui_digest_ok : rstring → bool;
  sui_get_transaction : rstring → W → W * result Error (option (option Z));
  shared_object_arg : rstring → bool → W → W * result Error CallArg;
}.

(** The database, the world, and the mints the service has handed to a chain. *)
Record Relay (W : Type) := mkRelay {
  transfers : gmap Z TransferRow.t;
  next_id : Z;
  world : W;
}.
Arguments mkRelay {W} _ _ _.
Arguments transfers {W} _.
Arguments next_id {W} _.
Arguments world {W} _.

Section relay.
Context {W : Type} `{Bridge W}.

(** An action of the world. *)
Definition outside {A} (f : W → W * A) : prog (Relay W) A :=
  act (λ s, let '(w, a) := f (world s) in (mkRelay (transfers s) (next_id s) w, a)).

Definition set_transfers (f : gmap Z TransferRow.t → gmap Z TransferRow.t) (s : Relay W) : Relay W :=
  mkRelay (f (transfers s)) (next_id s) (world s).

(** * The repository ([db/repo.rs]) *)

Definition conn : prog (Relay W) (result Error unit) :=
  prog_bind (λ up : bool, Ret (if up then Ok tt else Err (error (str "checking out DB connection")))) (outside db_up).

(** [UPDATE ... WHERE id = ...]; the time is that of the database. *)
Definition update_row (id : Z) (f : Z → TransferRow.t → TransferRow.t) : prog (Relay W) (result Error unit) :=
  _ ←? conn;
  prog_bind (λ t, prog_bind (λ _, Ret (Ok tt)) (modify (set_transfers (alter (f t) id)))) (outside now).

Definition same_burn (new : NewTransfer.t) (r : TransferRow.t) : bool :=
  bool_decide (TransferRow.origin_chain r = NewTransfer.origin_chain new) &&
  bool_decide (TransferRow.origin_tx_hash r = NewTransfer.origin_tx_hash new).

Definition new_row (id now : Z) (new : NewTransfer.t) : TransferRow.t :=
  TransferRow.mk id (NewTransfer.origin_chain new) (NewTransfer.origin_tx_hash new) (NewTransfer.origin_wallet new)
    (NewTransfer.destination_wallet new) None None PENDING_ATTESTATION None None None None 0 None None None now now.

Definition rows (s : Relay W) : list TransferRow.t := (map_to_list (transfers s)).*2.

Definition find_burn (new : NewTransfer.t) (s : Relay W) : option TransferRow.t :=
  List.find (same_burn new) (rows s).

(** [INSERT ... ON CONFLICT DO NOTHING]; the sequence advances either way. *)
Definition insert_row (t : Z) (new : NewTransfer.t) (s : Relay W) : Relay W :=
  let id := next_id s in
  mkRelay (match find_burn new s with None => <[id := new_row id t new]> (transfers s) | Some _ => transfers s end)
    (id + 1) (world s).

Definition insert_transfer (new : NewTransfer.t) : prog (Relay W) (result Error TransferRow.t) :=
  _ ←? conn;
  prog_bind (λ t, prog_bind (λ _,
    prog_bind (λ r, Ret (ok_or r (error (str "reading back inserted transfer")))) (read (find_burn new)))
    (modify (insert_row t new))) (outside now).

Definition oldest_first (l : list TransferRow.t) : list TransferRow.t :=
  sort_by (λ a b, TransferRow.created_at a <=? TransferRow.created_at b) l.

Definition transfers_with_status (st : Status) : prog (Relay W) (result Error (list TransferRow.t)) :=
  _ ←? conn;
  prog_bind (λ l, Ret (Ok l))
    (read (λ s, oldest_first (List.filter (λ r, bool_decide (TransferRow.status r = st)) (rows s)))).

Definition of_wallet (wallet : rstring) (open_only : bool) (r : TransferRow.t) : bool :=
  (bool_decide (TransferRow.origin_wallet r = wallet) || bool_decide (TransferRow.destination_wallet r = Some wallet)) &&
  (negb open_only || (negb (bool_decide (TransferRow.status r = COMPLETE)) && negb (bool_decide (TransferRow.status r = FAILED)))).

Definition transfers_for_wallet (wallet : rstring) (open_only : bool) : prog (Relay W) (result Error (list TransferRow.t)) :=
  _ ←? conn;
  prog_bind (λ l, Ret (Ok l))
    (read (λ s, take 200 (sort_by (λ a b, TransferRow.created_at b <=? TransferRow.created_at a)
      (List.filter (of_wallet wallet open_only) (rows s))))).

Import TransferRow.

Definition mark_attested (id : Z) (message_hex attestation_hex : rstring) (amount : Z) (mint_recipient : rstring)
    : prog (Relay W) (result Error unit) :=
  update_row id (λ t r, r <| status := ATTESTED |> <| TransferRow.message_hex := Some message_hex |>
    <| TransferRow.attestation_hex := Some attestation_hex |> <| TransferRow.amount := Some amount |>
    <| TransferRow.mint_recipient := Some mint_recipient |> <| attested_at := Some t |> <| updated_at := t |>).

(** An update that counts an attempt; an [INT] out of range is an error. *)
Definition bump_row (msg : string) (id : Z) (f : Z → TransferRow.t → TransferRow.t) : prog (Relay W) (result Error unit) :=
  _ ←? conn;
  prog_bind (λ t, act (λ s : Relay W,
    match transfers s !! id with
    | Some r =>
        if i32_max <? attempts r + 1 then (s, Err (context msg (error (str "integer out of range"))))
        else (set_transfers (alter (λ r, f t r <| attempts := attempts r + 1 |>) id) s, Ok tt)
    | None => (s, Ok tt)
    end)) (outside now).

Definition set_burned_at (id at_ : Z) : prog (Relay W) (result Error unit) :=
  update_row id (λ t r, r <| burned_at := Some at_ |> <| updated_at := t |>).

Definition mark_minting (id : Z) (tx : rstring) : prog (Relay W) (result Error unit) :=
  bump_row "marking transfer minting" id
    (λ t r, r <| status := MINTING |> <| mint_tx_hash := Some tx |> <| updated_at := t |>).

Definition mark_complete (id at_ : Z) (note : option rstring) : prog (Relay W) (result Error unit) :=
  update_row id (λ t r, r <| status := COMPLETE |> <| minted_at := Some at_ |> <| err := note |> <| updated_at := t |>).

Definition record_mint_failure (id : Z) (msg : rstring) : prog (Relay W) (result Error unit) :=
  bump_row "recording mint failure" id (λ t r, r <| status := ATTESTED |> <| err := Some msg |> <| updated_at := t |>).

Definition mark_failed (id : Z) (msg : rstring) : prog (Relay W) (result Error unit) :=
  update_row id (λ t r, r <| status := FAILED |> <| err := Some msg |> <| updated_at := t |>).

(** * Circle's attestations ([iris.rs]) *)

Inductive Attestation := NotReady | Ready (message_hex attestation_hex : rstring).

(** An optional string field of a JSON object; an error when it is something else. *)
Definition opt_str (v : Value) (k : string) : result Error (option rstring) :=
  match get v (str k) with
  | None | Some JNull => Ok None
  | Some (JString s) => Ok (Some s)
  | Some _ => Err (error (str "parsing iris response"))
  end.

(** The messages of the reply, [serde]'s way: a missing list is empty. *)
Definition parse_messages (v : Value) : result Error (list (option rstring * option rstring)) :=
  match v with
  | JObject _ =>
      match get v (str "messages") with
      | None => Ok []
      | Some (JArray l) =>
          foldr (λ m acc,
            match m with
            | JObject _ =>
                match opt_str m "message", opt_str m "attestation", acc with
                | Ok a, Ok b, Ok acc => Ok ((a, b) :: acc)
                | Err e, _, _ | _, Err e, _ | _, _, Err e => Err e
                end
            | _ => Err (error (str "parsing iris response"))
            end) (Ok []) l
      | Some _ => Err (error (str "parsing iris response"))
      end
  | _ => Err (error (str "parsing iris response"))
  end.

Definition iris_url (base : rstring) (domain : Z) (tx_hash : rstring) : rstring :=
  base ++ str "/v1/messages/" ++ u64_to_string domain ++ str "/" ++ tx_hash.

Definition attestation_of (reply : result Error (Z * result Error Value)) : result Error Attestation :=
  match reply with
  | Err e => Err (context "calling iris" e)
  | Ok (code, body) =>
      if code =? 404 then Ok NotReady
      else if code =? 429 then Err (error (str "iris rate limited (429)"))
      else if (400 <=? code) && (code <? 600) then Err (error (str "iris error status"))
      else
        match body with
        | Err e => Err (context "parsing iris response" e)
        | Ok v =>
            match parse_messages v with
            | Err e => Err e
            | Ok [] => Ok NotReady
            | Ok ((Some message, Some attestation) :: _) =>
                if starts_with (str "0x") attestation && starts_with (str "0x") message
                then Ok (Ready message attestation) else Ok NotReady
            | Ok (_ :: _) => Ok NotReady
            end
        end
  end.

Definition attestation (base : rstring) (domain : Z) (tx_hash : rstring) : prog (Relay W) (result Error Attestation) :=
  prog_bind (λ reply, Ret (attestation_of reply)) (outside (iris_get (iris_url base domain tx_hash))).

(** * The Solana node ([solana_rpc.rs]) *)

Definition solana_call (method : string) (params : Value) : prog (Relay W) (result Error Value) :=
  prog_bind (λ reply, Ret match reply with
    | Err e => Err e
    | Ok resp =>
        match get resp (str "error") with
        | Some err => Err (error (str "solana rpc " ++ str method ++ str " error: " ++ json_text err))
        | None => Ok (default JNull (get resp (str "result")))
        end
    end) (outside (solana_post (str method) params)).

(** [v[k]]: [Null] where there is no such key. *)
Definition index (v : Value) (k : string) : Value := default JNull (get v (str k)).

Definition is_null (v : Value) : bool := match v with JNull => true | _ => false end.

Definition as_i64 (v : Value) : option Z :=
  match v with
  | JNumber (PosInt n) => if n <=? i64_max then Some n else None
  | JNumber (NegInt n) => Some n
  | _ => None
  end.

Definition confirmed : list (string * Value) := [("commitment"%string, jstr (str "confirmed"))].

Definition latest_blockhash : prog (Relay W) (result Error rstring) :=
  r ←? solana_call "getLatestBlockhash" (JArray [jobj confirmed]);
  Ret (ok_or (as_str (index (index r "value") "blockhash")) (error (str "no blockhash in response"))).

Definition send_transaction (tx_base64 : rstring) : prog (Relay W) (result Error rstring) :=
  r ←? solana_call "sendTransaction" (JArray [jstr tx_base64;
    jobj [("encoding"%string, jstr (str "base64")); ("preflightCommitment"%string, jstr (str "confirmed"))]]);
  Ret (ok_or (as_str r) (error (str "sendTransaction returned no signature"))).

Definition transaction_status (signature : rstring) : prog (Relay W) (result Error (option (Z * bool))) :=
  r ←? solana_call "getTransaction" (JArray [jstr signature;
    jobj (confirmed ++ [("encoding"%string, jstr (str "json")); ("maxSupportedTransactionVersion"%string, jnum 0)])]);
  Ret (Ok (if is_null r then None
           else Some (default 0 (as_i64 (index r "blockTime")), is_null (index (index r "meta") "err")))).

Definition account_exists (address : rstring) : prog (Relay W) (result Error bool) :=
  r ←? solana_call "getAccountInfo" (JArray [jstr address; jobj [("encoding"%string, jstr (str "base64"))]]);
  Ret (Ok (negb (is_null (index r "value")))).

(** * The watcher ([watcher.rs]) *)

Import TransferRow.

Definition origin_domain (c : Chain) : Z := match c with Sui => DOMAIN_SUI | Solana => DOMAIN_SOLANA end.

(** [None] while the node does not know the transaction. *)
Definition sui_timestamp (ctx digest : rstring) : prog (Relay W) (result Error (option Z)) :=
  if sui_digest_ok digest then
    prog_bind (λ r, Ret match r with
      | Ok (Some ts) => Ok ts
      | Ok None | Err _ => Ok None
      end) (outside (sui_get_transaction digest))
  else Ret (Err (error ctx)).

Definition burn_timestamp_ms (row : TransferRow.t) : prog (Relay W) (result Error (option Z)) :=
  match origin_chain row with
  | Sui => sui_timestamp (str "bad sui tx digest") (origin_tx_hash row)
  | Solana =>
      st ←? transaction_status (origin_tx_hash row);
      Ret (Ok ((λ x : Z * bool, u64_mul (i64_as_u64 x.1) 1000) <$> st))
  end.

Definition backfill_burn (row : TransferRow.t) : prog (Relay W) (result Error unit) :=
  match burned_at row with
  | Some _ => Ret (Ok tt)
  | None =>
      ts ←? burn_timestamp_ms row;
      match ts with
      | None => Ret (Ok tt)
      | Some ts_ms =>
          at_ ←? Ret (ok_or (timestamp_millis_opt (u64_as_i64 ts_ms)) (error (str "bad burn timestamp")));
          set_burned_at (id row) at_
      end
  end.

Section watcher.
Context `{HexCrate}.
Variable iris_base : rstring.

Definition domain_mismatch (source : Z) (origin : Chain) : Error :=
  error (str "message source domain " ++ u64_to_string source ++ str " does not match origin chain " ++ Chain_as_str origin).

Definition process_row (row : TransferRow.t) : prog (Relay W) (result Error unit) :=
  _ ←? backfill_burn row;
  let domain := origin_domain (origin_chain row) in
  att ←? attestation iris_base domain (origin_tx_hash row);
  match att with
  | NotReady => Ret (Ok tt)
  | Ready message_hex attestation_hex =>
      raw ←? Ret (hex_bytes message_hex);
      decoded ←? Ret (map_err (context "decoding CCTP message") (decode raw));
      if negb (source_domain decoded =? domain) then Ret (Err (domain_mismatch (source_domain decoded) (origin_chain row))) else
      mark_attested (id row) message_hex attestation_hex (bb_amount (burn decoded))
        (str "0x" ++ hex_encode (CctpRelay.mint_recipient (burn decoded)))
  end.

(** An error of one row is logged. *)
Definition watcher_tick : prog (Relay W) (result Error unit) :=
  pending ←? transfers_with_status PENDING_ATTESTATION;
  prog_bind (λ _, Ret (Ok tt)) (for_each pending (λ row, prog_bind (λ _, Ret tt) (process_row row))).

(** [n] ticks; an error of a tick is logged. *)
Fixpoint watcher_run (n : nat) : prog (Relay W) unit :=
  match n with O => Ret tt | S n' => prog_bind (λ _, watcher_run n') watcher_tick end.
End watcher.

(** * Minting on Sui ([sui_mint.rs]) *)

(** [network] is its text. *)
Record SuiConfig := mkSuiConfig {
  network : rstring;
  message_transmitter_package : rstring;
  token_messenger_minter_package : rstring;
  message_transmitter_state : rstring;
  token_messenger_minter_state : rstring;
  usdc_treasury : rstring;
  usdc_coin_type : rstring;
  cfg_gas_budget : Z;
}.

(** [sui_types] and [bcs]. *)
Class MintSdk := {
  object_id_from_str : rstring → option ObjectID;
  type_tag_ok : rstring → bool;
  pure_bytes : list Z → list Z;
}.

Section sui_mint.
Context `{SuiSdk, MintSdk, ChainClient W, SponsorSdk}.

(** The RPC client of the service acts on the world. *)
#[local] Instance relay_client : ChainClient (Relay W) :=
  let lift {A} (f : W → W * A) (s : Relay W) := let '(w, a) := f (world s) in (mkRelay (transfers s) (next_id s) w, a) in
  {| get_owned_coins o ty := lift (get_owned_coins o ty); get_balance o ty := lift (get_balance o ty);
     get_address_balance o ty := lift (get_address_balance o ty); get_reference_gas_price := lift get_reference_gas_price;
     get_chain_id := lift get_chain_id; get_current_epoch := lift get_current_epoch;
     random_nonce := lift random_nonce; simulate tx := lift (simulate tx);
     execute_transaction tx sig := lift (execute_transaction tx sig) |}.

(** The five calls.  The builder gives equal arguments one input; the objects
    and the two byte vectors differ. *)
Definition receive_ptb (mt_pkg tmm_pkg : ObjectID) (usdc authenticator : rstring)
    (mt_state tmm_state deny_list treasury : CallArg) (message attestation : list Z) : ProgrammableTransaction :=
  let call pkg module fun_ type_args args := MoveCall (mkMoveCall pkg (str module) (str fun_) type_args args) in
  mkPT [mt_state; tmm_state; deny_list; treasury; Pure (pure_bytes message); Pure (pure_bytes attestation)]
    [call mt_pkg "receive_message" "receive_message" [] [Input 4; Input 5; Input 0];
     call tmm_pkg "handle_receive_message" "handle_receive_message" [usdc] [Result 0; Input 1; Input 2; Input 3];
     call tmm_pkg "handle_receive_message" "deconstruct_stamp_receipt_ticket_with_burn_message" [] [Result 1];
     call mt_pkg "receive_message" "stamp_receipt" [authenticator] [NestedResult 2 0; Input 0];
     call mt_pkg "receive_message" "complete_receive_message" [] [Result 3; Input 0]].

Definition shared (id : rstring) (mutable : bool) : prog (Relay W) (result Error CallArg) :=
  match object_id_from_str id with
  | None => Ret (Err (error (str "invalid object id")))
  | Some _ => outside (shared_object_arg id mutable)
  end.

Definition sui_mint (signer : SuiAddress) (cfg : SuiConfig) (message attestation : list Z)
    : prog (Relay W) (result Error rstring) :=
  mt_pkg ←? Ret (ok_or (object_id_from_str (message_transmitter_package cfg)) (error (str "bad message_transmitter_package")));
  tmm_pkg ←? Ret (ok_or (object_id_from_str (token_messenger_minter_package cfg)) (error (str "bad token_messenger_minter_package")));
  let authenticator := token_messenger_minter_package cfg ++
    str "::message_transmitter_authenticator::MessageTransmitterAuthenticator" in
  if negb (type_tag_ok (usdc_coin_type cfg)) then Ret (Err (error (str "bad usdc_coin_type"))) else
  if negb (type_tag_ok authenticator) then Ret (Err (error (str "bad authenticator type"))) else
  mt_state ←? shared (message_transmitter_state cfg) true;
  tmm_state ←? shared (token_messenger_minter_state cfg) true;
  deny_list ←? shared (str "0x403") false;
  treasury ←? shared (usdc_treasury cfg) true;
  prog_bind (λ r : option (result Error Effects), Ret match r with
    | Some (Ok resp) => Ok (digest resp)
    | Some (Err e) => Err e
    | None => Err []
    end)
    (submit_ptb signer (receive_ptb mt_pkg tmm_pkg (usdc_coin_type cfg) authenticator mt_state tmm_state deny_list treasury
       message attestation) (cfg_gas_budget cfg) (str "cctp-receive")).
End sui_mint.

(** * Minting on Solana ([solana_mint.rs]) *)

Definition TOKEN_MESSENGER_MINTER : rstring := str "CCTPiPYPc6AsJuwueEnWgSgucamXDZwBd53dQ11YiKX3".
Definition MESSAGE_TRANSMITTER : rstring := str "CCTPmbSD7gX1bxKPAmg77w8oFzNFpaQiQUWD43TKaecd".
Definition TOKEN_PROGRAM : rstring := str "TokenkegQfeZyiNwAJbNbGKPFXCWuBvf9Ss623VQ5DA".
Definition ATA_PROGRAM : rstring := str "ATokenGPvbdGVxr1b2hvZbsiqW5xWH25efTNsLJA8knL".
Definition SYSTEM_PROGRAM : rstring := str "11111111111111111111111111111111".
Definition RECEIVE_MESSAGE_DISCRIMINATOR : list Z := [38; 144; 127; 225; 31; 225; 238; 25].
Definition MAX_NONCES : Z := 6400.

Abbreviation Pubkey := (list Z).

Record AccountMeta := mkMeta { am_key : Pubkey; is_signer : bool; is_writable : bool }.
Record Instruction := mkInstruction { program_id : Pubkey; accounts : list AccountMeta; data : list Z }.

Definition writable (k : Pubkey) (signer : bool) : AccountMeta := mkMeta k signer true.
Definition readonly (k : Pubkey) (signer : bool) : AccountMeta := mkMeta k signer false.

(** The Solana crates; the signed transaction is for the payer and a blockhash. *)
Class SolanaSdk := {
  pubkey_parse : rstring → option Pubkey;
  pubkey_text : Pubkey → rstring;
  derive_program_address : list (list Z) → Pubkey → Pubkey;
  sign_transaction : list Instruction → Pubkey → rstring → result Error (list Z);
}.

Section solana_mint.
Context `{SolanaSdk, Base64Crate}.
Variables (payer usdc_mint : Pubkey).

(** The program ids above parse. *)
Definition program (id : rstring) : Pubkey := default [] (pubkey_parse id).

Definition pda (seeds : list (list Z)) (p : Pubkey) : Pubkey := derive_program_address seeds p.

Definition derive_ata (owner : Pubkey) : Pubkey := pda [owner; program TOKEN_PROGRAM; usdc_mint] (program ATA_PROGRAM).

Definition create_ata (owner ata : Pubkey) : Instruction :=
  mkInstruction (program ATA_PROGRAM)
    [writable payer true; writable ata false; readonly owner false; readonly usdc_mint false;
     readonly (program SYSTEM_PROGRAM) false; readonly (program TOKEN_PROGRAM) false] [1].

(** The account nonces of a source domain are kept in, in buckets; the
    subtraction wraps at 0. *)
Definition used_nonces (decoded : CctpMessage) : Pubkey :=
  let first_nonce := u64_add (u64_mul (u64_sub (msg_nonce decoded) 1 / MAX_NONCES) MAX_NONCES) 1 in
  let domain := u64_to_string (source_domain decoded) in
  if source_domain decoded <? 11
  then pda [str "used_nonces"; domain; u64_to_string first_nonce] (program MESSAGE_TRANSMITTER)
  else pda [str "used_nonces"; domain; str "-"; u64_to_string first_nonce] (program MESSAGE_TRANSMITTER).

Definition u32_le (n : Z) : list Z :=
  [n mod 256; n / 256 mod 256; n / 65536 mod 256; n / 16777216 mod 256].

(** Borsh: a byte vector with its length. *)
Definition borsh_bytes (bs : list Z) : list Z := u32_le (Z.of_nat (length bs)) ++ bs.

Definition receive_message (raw attestation : list Z) (decoded : CctpMessage) : Instruction :=
  let mt := program MESSAGE_TRANSMITTER in
  let tmm := program TOKEN_MESSENGER_MINTER in
  let domain := u64_to_string (source_domain decoded) in
  mkInstruction mt
    [writable payer true; readonly payer true;
     readonly (pda [str "message_transmitter_authority"; tmm] mt) false;
     readonly (pda [str "message_transmitter"] mt) false;
     writable (used_nonces decoded) false;
     readonly tmm false;
     readonly (program SYSTEM_PROGRAM) false;
     readonly (pda [str "__event_authority"] mt) false;
     readonly mt false;
     readonly (pda [str "token_messenger"] tmm) false;
     readonly (pda [str "remote_token_messenger"; domain] tmm) false;
     writable (pda [str "token_minter"] tmm) false;
     writable (pda [str "local_token"; usdc_mint] tmm) false;
     readonly (pda [str "token_pair"; domain; burn_token (burn decoded)] tmm) false;
     writable (CctpRelay.mint_recipient (burn decoded)) false;
     writable (pda [str "custody"; usdc_mint] tmm) false;
     readonly (program TOKEN_PROGRAM) false;
     readonly (pda [str "__event_authority"] tmm) false;
     readonly tmm false]
    (RECEIVE_MESSAGE_DISCRIMINATOR ++ borsh_bytes raw ++ borsh_bytes attestation).

Definition wrong_ata (recipient ata : Pubkey) (wallet : rstring) : Error :=
  error (str "mint recipient " ++ pubkey_text recipient ++ str " is not the USDC ATA of destination wallet " ++ wallet ++
    str " (expected " ++ pubkey_text ata ++ str ")").

Definition no_account (recipient : Pubkey) : Error :=
  error (str "recipient token account " ++ pubkey_text recipient ++ str " does not exist and destination wallet is unknown").

(** The account of the recipient: created when its owner is known, else it
    must be there. *)
Definition recipient_account (decoded : CctpMessage) (destination_wallet : option rstring)
    : prog (Relay W) (result Error (list Instruction)) :=
  let recipient := CctpRelay.mint_recipient (burn decoded) in
  match destination_wallet with
  | Some wallet =>
      owner ←? Ret (ok_or (pubkey_parse wallet) (error (str "bad destination_wallet")));
      let ata := derive_ata owner in
      if bool_decide (ata = recipient) then Ret (Ok [create_ata owner ata]) else Ret (Err (wrong_ata recipient ata wallet))
  | None =>
      exists_ ←? account_exists (pubkey_text recipient);
      if exists_ : bool then Ret (Ok []) else Ret (Err (no_account recipient))
  end.

Definition solana_mint (raw attestation : list Z) (decoded : CctpMessage) (destination_wallet : option rstring)
    : prog (Relay W) (result Error rstring) :=
  create ←? recipient_account decoded destination_wallet;
  blockhash ←? latest_blockhash;
  tx ←? Ret (sign_transaction (create ++ [receive_message raw attestation decoded]) payer blockhash);
  send_transaction (base64_encode tx).
End solana_mint.

(** * The relayer ([relayer.rs]) *)

Record RelayerParams := mkRelayerParams {
  sui_signer : SuiAddress;
  sui_cfg : SuiConfig;
  solana_payer : Pubkey;
  solana_usdc_mint : Pubkey;
  max_mint_attempts : Z;
}.

Definition MICROS : Z := 1000000.

Section relayer.
Context `{HexCrate, SuiSdk, MintSdk, ChainClient W, SponsorSdk, SolanaSdk, Base64Crate}.
Variable p : RelayerParams.

Definition utc_now : prog (Relay W) Z := outside now.

(** The mint of a transfer on the chain of its destination. *)
Definition mint (row : TransferRow.t) (raw attestation : list Z) : prog (Relay W) (result Error rstring) :=
  match destination_chain row with
  | Sui => sui_mint (sui_signer p) (sui_cfg p) raw attestation
  | Solana =>
      decoded ←? Ret (decode raw);
      solana_mint (solana_payer p) (solana_usdc_mint p) raw attestation decoded (destination_wallet row)
  end.

Definition submit_mint (row : TransferRow.t) : prog (Relay W) (result Error unit) :=
  message ←? Ret (ok_or (message_hex row) (error (str "row missing message")));
  raw ←? Ret (hex_bytes message);
  att ←? Ret (ok_or (attestation_hex row) (error (str "row missing attestation")));
  attestation ←? Ret (hex_bytes att);
  mint_tx ←? mint row raw attestation;
  mark_minting (id row) mint_tx.

(** An error that says the nonce is used: someone else has minted.  (No
    character beyond ASCII has one of these letters as its lower case.) *)
Definition nonce_already_used (e : Error) : bool :=
  let lower := to_ascii_lowercase (full_text e) in
  contains (str "nonce") lower && (contains (str "used") lower || contains (str "already") lower).

Definition external_note : rstring := str "minted externally (nonce already used)".

Definition handle_mint_error (row : TransferRow.t) (e : Error) : prog (Relay W) unit :=
  if nonce_already_used e then
    prog_bind (λ t, prog_bind (λ _, Ret tt) (mark_complete (id row) t (Some external_note))) utc_now
  else if max_mint_attempts p <=? i32_add (attempts row) 1
  then prog_bind (λ _, Ret tt) (mark_failed (id row) (full_text e))
  else prog_bind (λ _, Ret tt) (record_mint_failure (id row) (full_text e)).

(** What is known of a mint: its time, that it was reverted, or nothing. *)
Inductive MintStatus := MintedAt (ms : Z) | Reverted | Unknown.

Definition mint_status (row : TransferRow.t) (mint_tx : rstring) : prog (Relay W) (result Error MintStatus) :=
  match destination_chain row with
  | Sui =>
      ts ←? sui_timestamp (str "bad tx digest") mint_tx;
      Ret (Ok match ts with Some ms => MintedAt ms | None => Unknown end)
  | Solana =>
      st ←? transaction_status mint_tx;
      Ret (Ok match st with
        | Some (block_time, true) => MintedAt (u64_mul (i64_as_u64 block_time) 1000)
        | Some (_, false) => Reverted
        | None => Unknown
        end)
  end.

Definition reverted_note : rstring := str "mint tx reverted on chain".
Definition not_found_note : rstring := str "mint tx not found after 2m; resubmitting".

Definition confirm_mint (row : TransferRow.t) : prog (Relay W) (result Error unit) :=
  mint_tx ←? Ret (ok_or (mint_tx_hash row) (error (str "minting row missing mint_tx_hash")));
  st ←? mint_status row mint_tx;
  match st with
  | Reverted => record_mint_failure (id row) reverted_note
  | MintedAt ms =>
      minted ←? Ret (ok_or (timestamp_millis_opt (u64_as_i64 ms)) (error (str "bad mint timestamp")));
      mark_complete (id row) minted None
  | Unknown =>
      prog_bind (λ t, if 120 * MICROS <? t - updated_at row then record_mint_failure (id row) not_found_note else Ret (Ok tt))
        utc_now
  end.

(** Whether to wait: thirty seconds for every attempt since the last change. *)
Definition backing_off (row : TransferRow.t) : prog (Relay W) bool :=
  if 0 <? attempts row
  then prog_bind (λ t, Ret (t - updated_at row <? 30 * MICROS * attempts row)) utc_now
  else Ret false.

Definition relay_row (row : TransferRow.t) : prog (Relay W) unit :=
  prog_bind (λ wait : bool,
    if wait then Ret tt else
    prog_bind (λ r, match r with Ok _ => Ret tt | Err e => handle_mint_error row e end) (submit_mint row))
    (backing_off row).

Definition relayer_tick : prog (Relay W) (result Error unit) :=
  attested ←? transfers_with_status ATTESTED;
  prog_bind (λ _,
    minting ←? transfers_with_status MINTING;
    prog_bind (λ _, Ret (Ok tt)) (for_each minting (λ row, prog_bind (λ _, Ret tt) (confirm_mint row))))
    (for_each attested relay_row).

Fixpoint relayer_run (n : nat) : prog (Relay W) unit :=
  match n with O => Ret tt | S n' => prog_bind (λ _, relayer_run n') relayer_tick end.
End relayer.

(** * The API ([router.rs]) *)

Record CreateTransferReq := mkCreateReq {
  cr_tx_hash : rstring;
  cr_origin_chain : rstring;
  cr_wallet : rstring;
  cr_destination_wallet : option rstring;
}.

Record TransferDto := mkDto {
  dto_id : Z; dto_origin_chain : rstring; dto_origin_tx_hash : rstring; dto_origin_wallet : rstring;
  dto_destination_chain : rstring; dto_destination_wallet : option rstring; dto_mint_recipient : option rstring;
  dto_amount : option Z; dto_status : Status; dto_mint_tx_hash : option rstring; dto_error : option rstring;
  burned_at_ms : option Z; attested_at_ms : option Z; minted_at_ms : option Z; duration_ms : option Z; created_at_ms : Z;
}.

Definition timestamp_millis (t : Z) : Z := t / 1000.

Definition TransferDto_from (r : TransferRow.t) : TransferDto :=
  let burned := timestamp_millis <$> burned_at r in
  let minted := timestamp_millis <$> minted_at r in
  mkDto (id r) (Chain_as_str (origin_chain r)) (origin_tx_hash r) (origin_wallet r) (Chain_as_str (destination_chain r))
    (destination_wallet r) (mint_recipient r) (a ← amount r; if a <=? u64_max then Some a else None) (status r)
    (mint_tx_hash r) (err r) burned (timestamp_millis <$> attested_at r) minted
    match burned, minted, status r with Some b, Some m, COMPLETE => Some (m - b) | _, _, _ => None end
    (timestamp_millis (created_at r)).

Record SolanaConfig := mkSolanaConfig { sol_network : rstring; rpc_url : rstring; cfg_usdc_mint : rstring }.

Record SuiCctpDto := mkSuiDto {
  sd_network : rstring; sd_message_transmitter_package : rstring; sd_token_messenger_package : rstring;
  sd_message_transmitter_state : rstring; sd_token_messenger_state : rstring; sd_usdc_treasury : rstring;
  sd_usdc_coin_type : rstring;
}.

Record SolanaCctpDto := mkSolanaDto {
  sl_network : rstring; sl_rpc_url : rstring; sl_usdc_mint : rstring; token_messenger_program : rstring;
  message_transmitter_program : rstring;
}.

Record CctpConfigDto := mkConfigDto {
  domain_sui : Z; domain_solana : Z; dto_sui : SuiCctpDto; dto_solana : SolanaCctpDto;
}.

(** What [GET /config] answers. *)
Definition CctpConfigDto_from_config (sui : SuiConfig) (solana : SolanaConfig) : CctpConfigDto :=
  mkConfigDto DOMAIN_SUI DOMAIN_SOLANA
    (mkSuiDto (network sui) (message_transmitter_package sui) (token_messenger_minter_package sui)
       (message_transmitter_state sui) (token_messenger_minter_state sui) (usdc_treasury sui) (usdc_coin_type sui))
    (mkSolanaDto (sol_network solana) (rpc_url solana) (cfg_usdc_mint solana) TOKEN_MESSENGER_MINTER MESSAGE_TRANSMITTER).

Definition parse_chain (s : rstring) : option Chain :=
  if bool_decide (s = str "sui") then Some Sui else if bool_decide (s = str "solana") then Some Solana else None.

Inductive ApiStatus := BAD_REQUEST | INTERNAL_SERVER_ERROR.

(** An error of the database answers with its outermost message. *)
Definition internal {A} (p : prog (Relay W) (result Error A)) : prog (Relay W) (result (ApiStatus * rstring) A) :=
  prog_bind (λ r, Ret (map_err (λ e, (INTERNAL_SERVER_ERROR, error_text e)) r)) p.

Definition validate_transfer (req : CreateTransferReq) : result (ApiStatus * rstring) NewTransfer.t :=
  match parse_chain (cr_origin_chain req) with
  | None => Err (BAD_REQUEST, str "origin_chain must be 'sui' or 'solana'")
  | Some chain =>
      let tx_hash := trim (cr_tx_hash req) in
      if bool_decide (tx_hash = []) || (128 <? str_len tx_hash) then Err (BAD_REQUEST, str "bad tx_hash")
      else if bool_decide (trim (cr_wallet req) = []) then Err (BAD_REQUEST, str "wallet is required")
      else Ok (NewTransfer.mk chain tx_hash (trim (cr_wallet req))
        (w ← cr_destination_wallet req; if bool_decide (trim w = []) then None else Some (trim w)))
  end.

Definition create_transfer (req : CreateTransferReq) : prog (Relay W) (result (ApiStatus * rstring) TransferDto) :=
  new ←? Ret (validate_transfer req);
  row ←? internal (insert_transfer new);
  Ret (Ok (TransferDto_from row)).

Definition list_transfers (wallet : rstring) (open_only : bool)
    : prog (Relay W) (result (ApiStatus * rstring) (list TransferDto)) :=
  l ←? internal (transfers_for_wallet wallet open_only);
  Ret (Ok (TransferDto_from <$> l)).
End relay.
