(* ===== verification/CctpTheorems.v ===== *)
(** What the relay guarantees: the history of a transfer under every
    interleaving of the watcher, the relayer and the API. *)

From stdpp Require Import gmultiset.
From S2P Require Import Prelude RecordUpdate Prog RustStr ExchangeTypes Crates Json Wire SuiTx GasTemplate GasStation CctpRelay Demo.

(** * Messages *)

(** [n] as [k] bytes, the most significant first. *)
Fixpoint to_be (k : nat) (n : Z) : list Z :=
  match k with O => [] | S k' => to_be k' (n / 256) ++ [n mod 256] end.

Lemma to_be_length k n : length (to_be k n) = k.
Proof. revert n. induction k as [|k IH]; intros n; [done|]. cbn. rewrite length_app, IH. cbn. lia. Qed.

Lemma from_be_app l b : from_be (l ++ [b]) = from_be l * 256 + b.
Proof. unfold from_be. by rewrite foldl_app. Qed.

Lemma from_to_be k n : 0 ≤ n < 256 ^ Z.of_nat k → from_be (to_be k n) = n.
Proof.
  revert n. induction k as [|k IH]; intros n Hn.
  - cbn in *. unfold from_be. cbn. lia.
  - cbn [to_be]. rewrite from_be_app, IH; [pose proof (Z.div_mod n 256); lia|].
    rewrite Nat2Z.inj_succ, Z.pow_succ_r in Hn by lia. split; [apply Z.div_pos; lia|apply Z.div_lt_upper_bound; lia].
Qed.

(** The wire format of a burn message. *)
Definition encode_burn (b : BurnBody) : list Z :=
  to_be 4 (bb_version b) ++ burn_token b ++ CctpRelay.mint_recipient b ++ to_be 32 (bb_amount b) ++ message_sender b.

Definition encode (m : CctpMessage) : list Z :=
  to_be 4 (version m) ++ to_be 4 (source_domain m) ++ to_be 4 (destination_domain m) ++ to_be 8 (msg_nonce m) ++
  msg_sender m ++ recipient m ++ destination_caller m ++ encode_burn (burn m).

Definition u32 (n : Z) : Prop := 0 ≤ n < 2 ^ 32.
Definition bytes32 (l : list Z) : Prop := length l = 32%nat.

Record message_wf (m : CctpMessage) : Prop := {
  wf_version : u32 (version m);
  wf_source : u32 (source_domain m);
  wf_destination : u32 (destination_domain m);
  wf_nonce : u64 (msg_nonce m);
  wf_sender : bytes32 (msg_sender m);
  wf_recipient : bytes32 (recipient m);
  wf_caller : bytes32 (destination_caller m);
  wf_bb_version : u32 (bb_version (burn m));
  wf_token : bytes32 (burn_token (burn m));
  wf_mint_recipient : bytes32 (CctpRelay.mint_recipient (burn m));
  wf_amount : u64 (bb_amount (burn m));
  wf_message_sender : bytes32 (message_sender (burn m));
}.

(** A slice of a concatenation, chunk by chunk. *)
Lemma slice_skip {A} a b n (l1 l2 : list A) :
  length l1 = n → (n ≤ a)%nat → slice a b (l1 ++ l2) = slice (a - n) (b - n) l2.
Proof.
  intros Hl Ha. unfold slice. rewrite drop_app_ge by lia. rewrite Hl. f_equal. lia.
Qed.

Lemma slice_here {A} b n (l1 l2 : list A) : length l1 = n → b = n → slice 0 b (l1 ++ l2) = l1.
Proof. intros Hl ->. unfold slice. rewrite Nat.sub_0_r, drop_0. subst n. by rewrite take_app_length. Qed.

Lemma drop_skip {A} a n (l1 l2 : list A) : length l1 = n → (n ≤ a)%nat → drop a (l1 ++ l2) = drop (a - n) l2.
Proof. intros Hl Ha. rewrite drop_app_ge by lia. by rewrite Hl. Qed.

(** The high bytes of an amount that fits a [u64] are zero. *)
Lemma to_be_split j k n : 0 ≤ n < 256 ^ Z.of_nat k → to_be (j + k) n = replicate j 0 ++ to_be k n.
Proof.
  revert n. induction k as [|k IH]; intros n Hn.
  - replace n with 0 by (cbn in Hn; lia). rewrite Nat.add_0_r, app_nil_r. clear.
    induction j as [|j IH]; [done|]. cbn [to_be]. rewrite Z.div_0_l, Z.mod_0_l, IH by lia.
    by rewrite <- replicate_cons_app.
  - replace (j + S k)%nat with (S (j + k)) by lia. cbn [to_be]. rewrite IH, app_assoc; [done|].
    rewrite Nat2Z.inj_succ, Z.pow_succ_r in Hn by lia. split; [apply Z.div_pos; lia|apply Z.div_lt_upper_bound; lia].
Qed.

Arguments to_be : simpl never.

Ltac chunk_length := first [apply to_be_length | eassumption].

(** Reads the fields of a concatenation. *)
Ltac read_chunks :=
  repeat first
    [ erewrite slice_here by first [chunk_length | reflexivity]
    | erewrite slice_skip; [|chunk_length|lia]; cbn [Nat.sub]
    | erewrite drop_skip; [|chunk_length|lia]; cbn [Nat.sub] ].

Lemma decode_encode_app m rest : message_wf m → decode (encode m ++ rest) = Ok m.
Proof.
  intros [Hv Hs Hd Hn Hse Hr Hc Hbv Ht Hm Ha Hms]. unfold bytes32, u32 in *.
  destruct m as [v s d n se r c [bv t mr a ms]]; cbn in *. unfold decode.
  assert (length (encode (mkMessage v s d n se r c (mkBurnBody bv t mr a ms)) ++ rest) = 248 + length rest)%nat as El.
  { unfold encode, encode_burn. cbn. rewrite !length_app, !to_be_length. lia. }
  rewrite El. replace (_ <? _)%nat with false by (symmetry; apply Nat.ltb_ge; unfold HEADER_LEN, BURN_BODY_LEN; lia).
  clear El. unfold encode, encode_burn, HEADER_LEN. cbn [version source_domain destination_domain msg_nonce msg_sender
    recipient destination_caller burn bb_version burn_token CctpRelay.mint_recipient bb_amount message_sender].
  rewrite <- !app_assoc. cbn [Nat.add]. read_chunks.
  rewrite drop_0. read_chunks. rewrite (to_be_split 24 8) by (unfold u64, u64_max in *; lia).
  rewrite take_app_length', drop_app_length' by by rewrite length_replicate.
  rewrite !from_to_be by (unfold u64, u64_max in *; lia).
  reflexivity.
Qed.

Definition byte (b : Z) : Prop := 0 ≤ b < 256.

Lemma from_be_range l : Forall byte l → 0 ≤ from_be l < 256 ^ Z.of_nat (length l).
Proof.
  induction l as [|b l IH] using rev_ind; [unfold from_be; cbn; lia|]. intros [Hl [Hb _]%Forall_cons]%Forall_app.
  rewrite from_be_app, length_app, Nat2Z.inj_add, Z.pow_add_r by lia. specialize (IH Hl). unfold byte in Hb. cbn. lia.
Qed.

Lemma from_be_below l k : Forall byte l → length l = k → 0 ≤ from_be l < 256 ^ Z.of_nat k.
Proof. intros Hl <-. by apply from_be_range. Qed.

Lemma to_from_be l k : Forall byte l → length l = k → to_be k (from_be l) = l.
Proof.
  revert k. induction l as [|b l IH] using rev_ind; intros k Hl <-; [done|].
  apply Forall_app in Hl as [Hl [Hb _]%Forall_cons]. unfold byte in Hb. rewrite length_app, Nat.add_1_r, from_be_app.
  change (to_be (S ?k) ?n) with (to_be k (n / 256) ++ [n mod 256]).
  rewrite Z.div_add_l, (Z.div_small b), Z.add_0_r by lia. rewrite Z.add_comm, Z_mod_plus_full, Z.mod_small by lia.
  by rewrite IH.
Qed.

(** The first [n] elements of a list that has them. *)
Lemma chunk {A} n (l : list A) : (n ≤ length l)%nat → ∃ a b, l = a ++ b ∧ length a = n ∧ (length b = length l - n)%nat.
Proof.
  intros Hn. exists (take n l), (drop n l). rewrite take_drop, length_take, length_drop. split_and!; [done|lia|done].
Qed.

Lemma existsb_nonzero l : existsb (λ b, negb (b =? 0)) l = false → l = replicate (length l) 0.
Proof.
  induction l as [|b l IH]; [done|]. cbn. intros [Hb Hl]%orb_false_iff. apply negb_false_iff, Z.eqb_eq in Hb as ->.
  f_equal. by apply IH.
Qed.

Lemma decode_Ok_encode l m : Forall byte l → decode l = Ok m → message_wf m ∧ ∃ rest, l = encode m ++ rest.
Proof.
  intros Hl Hd. unfold decode in Hd. destruct (_ <? _)%nat eqn:Hlen; [done|]. apply Nat.ltb_ge in Hlen.
  unfold HEADER_LEN, BURN_BODY_LEN in Hlen.
  destruct (chunk 4 l) as (v & l1 & -> & Lv & L1); [lia|]. destruct (chunk 4 l1) as (s & l2 & -> & Ls & L2); [lia|].
  destruct (chunk 4 l2) as (d & l3 & -> & Ld & L3); [lia|]. destruct (chunk 8 l3) as (n & l4 & -> & Ln & L4); [lia|].
  destruct (chunk 32 l4) as (se & l5 & -> & Lse & L5); [lia|]. destruct (chunk 32 l5) as (r & l6 & -> & Lr & L6); [lia|].
  destruct (chunk 32 l6) as (c & l7 & -> & Lc & L7); [lia|]. destruct (chunk 4 l7) as (bv & l8 & -> & Lbv & L8); [lia|].
  destruct (chunk 32 l8) as (t & l9 & -> & Lt & L9); [lia|]. destruct (chunk 32 l9) as (mr & l10 & -> & Lmr & L10); [lia|].
  destruct (chunk 32 l10) as (am & l11 & -> & Lam & L11); [lia|].
  destruct (chunk 32 l11) as (ms & rest & -> & Lms & _); [lia|]. destruct (chunk 24 am) as (z & a & Eam & Lz & La); [lia|].
  clear - Hl Hd Lv Ls Ld Ln Lse Lr Lc Lbv Lt Lmr Lam Lz La Lms Eam. revert Hd. unfold HEADER_LEN. cbn [Nat.add].
  read_chunks. rewrite drop_0. read_chunks. rewrite Eam, take_app_length', drop_app_length' by done.
  destruct (existsb _ z) eqn:Hz; [done|]. intros [= <-]. apply existsb_nonzero in Hz. rewrite Lz in Hz.
  rewrite Lam in La. subst am. repeat (apply Forall_app in Hl as [? Hl]).
  match goal with H : Forall byte (z ++ a) |- _ => apply Forall_app in H as [_ Ha] end.
  pose proof (from_be_below a 8 Ha La) as Hamount.
  assert (∀ x, Forall byte x → length x = 4%nat → u32 (from_be x)) as Hu32 by (intros x; apply from_be_below).
  assert (u64 (from_be n) ∧ u64 (from_be a)) as [Hn Hu].
  { pose proof (from_be_below n 8 ltac:(assumption) Ln). unfold u64, u64_max. cbn in *. split; lia. }
  split; [constructor; first [by apply Hu32 | assumption]|]. exists rest. unfold encode, encode_burn.
  cbn [version source_domain destination_domain msg_nonce msg_sender recipient destination_caller burn bb_version
    burn_token CctpRelay.mint_recipient bb_amount message_sender].
  rewrite (to_be_split 24 8) by done. rewrite <- Hz, !to_from_be by done. by rewrite <- !app_assoc.
Qed.

(** * The history of a transfer *)

Section history.
Context `{HexCrate}.
Variable max_attempts : Z.

Import TransferRow.

(** [m], in hexadecimal, is the message [d] from the chain of the transfer. *)
Definition message_of (c : Chain) (m : rstring) (d : CctpMessage) : Prop :=
  ∃ raw, hex_bytes m = Ok raw ∧ decode raw = Ok d ∧ source_domain d = origin_domain c.

Definition recipient_hex (d : CctpMessage) : rstring := str "0x" ++ hex_encode (CctpRelay.mint_recipient (burn d)).

(** One change of a row. *)
Inductive row_step : TransferRow.t → TransferRow.t → Prop :=
  | step_burned r at_ t :
      status r = PENDING_ATTESTATION → burned_at r = None →
      row_step r (r <| burned_at := Some at_ |> <| updated_at := t |>)
  | step_attested r m a d t :
      status r = PENDING_ATTESTATION → message_of (origin_chain r) m d →
      row_step r (r <| status := ATTESTED |> <| message_hex := Some m |> <| attestation_hex := Some a |>
        <| amount := Some (bb_amount (burn d)) |> <| mint_recipient := Some (recipient_hex d) |>
        <| attested_at := Some t |> <| updated_at := t |>)
  | step_submitted r tx t :
      status r = ATTESTED → attempts r < i32_max →
      row_step r (r <| status := MINTING |> <| mint_tx_hash := Some tx |> <| updated_at := t |> <| attempts := attempts r + 1 |>)
  | step_confirmed r at_ t :
      status r = MINTING →
      row_step r (r <| status := COMPLETE |> <| minted_at := Some at_ |> <| err := None |> <| updated_at := t |>)
  | step_external r at_ t :
      status r = ATTESTED →
      row_step r (r <| status := COMPLETE |> <| minted_at := Some at_ |> <| err := Some external_note |> <| updated_at := t |>)
  | step_retry r msg t :
      status r = ATTESTED ∨ status r = MINTING → attempts r < i32_max →
      row_step r (r <| status := ATTESTED |> <| err := Some msg |> <| updated_at := t |> <| attempts := attempts r + 1 |>)
  | step_failed r msg t :
      status r = ATTESTED → max_attempts ≤ i32_add (attempts r) 1 →
      row_step r (r <| status := FAILED |> <| err := Some msg |> <| updated_at := t |>).

(** What a registered row starts as. *)
Definition registered (r : TransferRow.t) : Prop := ∃ k t new, r = new_row k t new.

(** What the relay knows of a row by its status. *)
Record row_ok (r : TransferRow.t) : Prop := {
  ok_pending : status r = PENDING_ATTESTATION →
    message_hex r = None ∧ attestation_hex r = None ∧ mint_tx_hash r = None ∧ attempts r = 0;
  ok_attested : status r ≠ PENDING_ATTESTATION →
    ∃ m d, message_hex r = Some m ∧ is_Some (attestation_hex r) ∧ message_of (origin_chain r) m d ∧
      amount r = Some (bb_amount (burn d)) ∧ mint_recipient r = Some (recipient_hex d);
  ok_minting : status r = MINTING → is_Some (mint_tx_hash r);
  ok_complete : status r = COMPLETE → is_Some (minted_at r) ∧ (is_Some (mint_tx_hash r) ∨ err r = Some external_note);
  ok_unminted : is_Some (minted_at r) → status r = COMPLETE;
  ok_attempts : 0 ≤ attempts r ≤ i32_max;
}.

Lemma registered_ok r : registered r → row_ok r.
Proof. intros (k & t & new & ->). by constructor; cbn; try (intros [? ?]); try done. Qed.

Lemma row_step_ok r r' : row_step r r' → row_ok r → row_ok r'.
Proof.
  intros Hs [Hp Ha Hm Hc Hu Hat]. inversion Hs; subst; constructor; cbn -[external_note]; try done; try lia.
  - intros _. exists m, d. by eauto.
  - intros Hx. specialize (Hu Hx). congruence.
  - intros _. by apply Ha; congruence.
  - intros Hx. specialize (Hu Hx). congruence.
  - intros _. by apply Ha; congruence.
  - intros _. split; [by eexists|]. left. by apply Hm.
  - intros _. by apply Ha; congruence.
  - intros _. split; [by eexists|]. by right.
  - intros _. apply Ha. destruct H0; congruence.
  - intros Hx. specialize (Hu Hx). destruct H0; congruence.
  - intros _. by apply Ha; congruence.
  - intros Hx. specialize (Hu Hx). congruence.
Qed.

Definition identity (r : TransferRow.t) : Z * Chain * rstring * rstring * option rstring * Z :=
  (id r, origin_chain r, origin_tx_hash r, origin_wallet r, destination_wallet r, created_at r).

Lemma row_step_identity r r' : row_step r r' → identity r' = identity r.
Proof. by intros []. Qed.

Lemma row_steps_identity r r' : rtc row_step r r' → identity r' = identity r.
Proof. induction 1 as [|? ? ? Hs _ IH]; [done|]. by rewrite IH, (row_step_identity _ _ Hs). Qed.

Lemma row_steps_ok r r' : rtc row_step r r' → row_ok r → row_ok r'.
Proof. induction 1 as [|? ? ? Hs _ IH]; [done|]. intros Hr. by apply IH, (row_step_ok _ _ Hs). Qed.

Definition terminal (r : TransferRow.t) : Prop := status r = COMPLETE ∨ status r = FAILED.

(** A transfer that has ended stays as it is. *)
Lemma row_steps_terminal r r' : rtc row_step r r' → terminal r → r' = r.
Proof.
  induction 1 as [|r r1 r2 Hs _ IH]; [done|]. intros Ht. exfalso.
  unfold terminal in Ht. inversion Hs; subst; destruct Ht; intuition congruence.
Qed.

(** What the attestation said is never changed. *)
Definition attested_part (r : TransferRow.t) :=
  (message_hex r, attestation_hex r, amount r, mint_recipient r, attested_at r, burned_at r).

Lemma row_steps_attested r r' :
  rtc row_step r r' → status r ≠ PENDING_ATTESTATION →
  status r' ≠ PENDING_ATTESTATION ∧ attested_part r' = attested_part r ∧ attempts r ≤ attempts r'.
Proof.
  induction 1 as [|r r1 r2 Hs _ IH]; [done|]. intros Hr.
  assert (status r1 ≠ PENDING_ATTESTATION ∧ attested_part r1 = attested_part r ∧ attempts r ≤ attempts r1) as (H1 & H2 & H3).
  { inversion Hs; subst; cbn; try congruence; split_and!; try done; lia. }
  destruct (IH H1) as (? & E & ?). rewrite E, H2. split_and!; [done|done|lia].
Qed.
End history.

(** * The invariant

    The watcher and the relayer each hold a token with the rows they are
    working through; nobody else changes those. *)

#[export] Instance Chain_countable : Countable Chain.
Proof.
  refine (inj_countable' (λ c, match c with Sui => true | Solana => false end) (λ b : bool, if b then Sui else Solana) _).
  by intros [].
Defined.

#[export] Instance Status_countable : Countable Status.
Proof.
  refine (inj_countable'
    (λ s, match s with PENDING_ATTESTATION => 0 | ATTESTED => 1 | MINTING => 2 | COMPLETE => 3 | FAILED => 4 end)
    (λ n, if n =? 0 then PENDING_ATTESTATION else if n =? 1 then ATTESTED else if n =? 2 then MINTING
          else if n =? 3 then COMPLETE else FAILED) _).
  by intros [].
Defined.

#[export] Instance TransferRow_countable : Countable TransferRow.t.
Proof.
  refine (inj_countable'
    (λ r, match r with TransferRow.mk a b c d e f g h i j k l m n o p q u => (a, b, c, d, e, f, g, h, i, j, k, l, m, n, o, p, q, u) end)
    (λ x, match x with (a, b, c, d, e, f, g, h, i, j, k, l, m, n, o, p, q, u) => TransferRow.mk a b c d e f g h i j k l m n o p q u end) _).
  by intros [].
Defined.

Inductive Token := Watching (l : list TransferRow.t) | Relaying (l : list TransferRow.t).

#[export] Instance Token_eq_dec : EqDecision Token.
Proof. solve_decision. Defined.
#[export] Instance Token_countable : Countable Token.
Proof.
  refine (inj_countable' (λ t, match t with Watching l => inl l | Relaying l => inr l end)
    (λ x, match x with inl l => Watching l | inr l => Relaying l end) _).
  by intros [].
Defined.

Abbreviation tokens := (gmultiset Token).

Section invariant.
Context {W : Type} `{Bridge W, HexCrate}.
Variable max_attempts : Z.
Variable start : Relay W.

Import TransferRow.

(** The rows a worker has still to go through are as it read them. *)
Record working (s : Relay W) (active : Status → Prop) (l : list TransferRow.t) : Prop := {
  work_once : NoDup (id <$> l);
  work_known : Forall (λ r, transfers s !! id r = Some r ∧ active (status r)) l;
}.

Definition watched (st : Status) : Prop := st = PENDING_ATTESTATION.
Definition relayed (st : Status) : Prop := st = ATTESTED ∨ st = MINTING.

(** The table: rows under their ids, below the sequence, one per burn. *)
Record table_ok (s : Relay W) : Prop := {
  keyed : map_Forall (λ k r, id r = k ∧ k < next_id s) (transfers s);
  burns_once k1 k2 r1 r2 : transfers s !! k1 = Some r1 → transfers s !! k2 = Some r2 →
    origin_chain r1 = origin_chain r2 → origin_tx_hash r1 = origin_tx_hash r2 → k1 = k2;
}.

(** The rows of the start are there, each at a later point of its history; a
    row that is new since has been registered. *)
Record historic (s : Relay W) : Prop := {
  kept k r0 : transfers start !! k = Some r0 →
    ∃ r, transfers s !! k = Some r ∧ rtc (row_step max_attempts) r0 r;
  added k r : transfers s !! k = Some r → transfers start !! k = None →
    ∃ r0, registered r0 ∧ rtc (row_step max_attempts) r0 r;
  forward : next_id start ≤ next_id s;
}.

Record relay_inv (s : Relay W) (g : tokens) : Prop := {
  inv_table : table_ok s;
  inv_history : historic s;
  inv_rows : map_Forall (λ _, row_ok) (transfers s);
  inv_tokens : ∃ lw lr, g ⊆ {[+ Watching lw; Relaying lr +]} ∧ working s watched lw ∧ working s relayed lr;
}.

(** The holder of a worker's token. *)
Lemma inv_watching s l g :
  relay_inv s ({[+ Watching l +]} ⊎ g) →
  ∃ lr, g ⊆ {[+ Relaying lr +]} ∧ working s watched l ∧ working s relayed lr.
Proof.
  intros [_ _ _ (lw & lr & Hg & Hw & Hr)].
  assert (Watching l ∈ ({[+ Watching lw; Relaying lr +]} : tokens)) as Hin by multiset_solver.
  assert (l = lw) as -> by multiset_solver. exists lr. split; [multiset_solver|done].
Qed.

Lemma inv_relaying s l g :
  relay_inv s ({[+ Relaying l +]} ⊎ g) →
  ∃ lw, g ⊆ {[+ Watching lw +]} ∧ working s watched lw ∧ working s relayed l.
Proof.
  intros [_ _ _ (lw & lr & Hg & Hw & Hr)].
  assert (Relaying l ∈ ({[+ Watching lw; Relaying lr +]} : tokens)) as Hin by multiset_solver.
  assert (l = lr) as -> by multiset_solver. exists lw. split; [multiset_solver|done].
Qed.

(** ** Changes of the table *)

Lemma inv_world s w g : relay_inv s g → relay_inv (mkRelay (transfers s) (next_id s) w) g.
Proof.
  intros [[Hk Hb] [Hkept Hadd Hf] Hr (lw & lr & Hg & [? ?] & [? ?])].
  constructor; [by constructor|by constructor|done|]. exists lw, lr. by split_and!; constructor || done.
Qed.

Lemma working_alter s P l k f : k ∉ id <$> l → working s P l → working (set_transfers (alter f k) s) P l.
Proof.
  intros Hk [Hn Hl]. constructor; [done|]. apply Forall_forall. intros r Hr.
  destruct (proj1 (Forall_forall _ _) Hl r Hr) as [Hlook Hst]. split; [|done]. cbn.
  rewrite lookup_alter_ne; [done|]. intros ->. apply Hk. by apply list_elem_of_fmap_2.
Qed.

Lemma working_tail s P r l : working s P (r :: l) → transfers s !! id r = Some r ∧ P (status r) ∧ id r ∉ id <$> l ∧ working s P l.
Proof.
  intros [Hn Hl]. apply NoDup_cons in Hn as [Hni Hn]. apply Forall_cons in Hl as [[Hlook Hst] Hl].
  split_and!; [done..|]. by constructor.
Qed.

Lemma working_head s P r l : transfers s !! id r = Some r → P (status r) → id r ∉ id <$> l → working s P l → working s P (r :: l).
Proof. intros Hlook Hst Hni [Hn Hl]. constructor; [by constructor|]. by constructor. Qed.

(** Rows in different states are different rows. *)
Lemma working_apart s P r l : working s P l → transfers s !! id r = Some r → ¬ P (status r) → id r ∉ id <$> l.
Proof.
  intros [_ Hl] Hlook Hst Hin. apply list_elem_of_fmap in Hin as (r' & E & Hr').
  destruct (proj1 (Forall_forall _ _) Hl r' Hr') as [Hlook' Hst']. rewrite <- E, Hlook in Hlook'. by simplify_eq.
Qed.

Lemma table_alter s k r f :
  table_ok s → transfers s !! k = Some r → identity (f r) = identity r → table_ok (set_transfers (alter f k) s).
Proof.
  intros [Hk Hb] Hr Hid. unfold identity in Hid. injection Hid as Ei Ec Eh _ _ _.
  assert (∀ k' r', alter f k (transfers s) !! k' = Some r' → ∃ r0, transfers s !! k' = Some r0 ∧
    id r' = id r0 ∧ origin_chain r' = origin_chain r0 ∧ origin_tx_hash r' = origin_tx_hash r0) as Hold.
  { intros k' r' Hl. destruct (decide (k = k')) as [<-|Hne].
    - rewrite lookup_alter_eq, Hr in Hl. injection Hl as <-. by exists r.
    - rewrite lookup_alter_ne in Hl by done. by exists r'. }
  constructor.
  - intros k' r' Hl. destruct (Hold k' r' Hl) as (r0 & Hl0 & -> & _). by apply Hk.
  - intros k1 k2 r1 r2 Hl1 Hl2 Ech Eha.
    destruct (Hold _ _ Hl1) as (r01 & ? & _ & Ec1 & Eh1), (Hold _ _ Hl2) as (r02 & ? & _ & Ec2 & Eh2).
    by apply (Hb k1 k2 r01 r02); congruence.
Qed.

Lemma historic_alter s k r f :
  historic s → transfers s !! k = Some r → row_step max_attempts r (f r) → historic (set_transfers (alter f k) s).
Proof.
  intros [Hkept Hadd Hf] Hr Hs. constructor; [| |done]; cbn.
  - intros k' r0 Hst0. destruct (Hkept k' r0 Hst0) as (r' & Hr' & Hsteps). destruct (decide (k = k')) as [<-|Hne].
    + rewrite lookup_alter_eq, Hr'. cbn. simplify_eq. exists (f r). split; [done|]. by eapply rtc_r.
    + rewrite lookup_alter_ne by done. by exists r'.
  - intros k' r' Hl Hst0. destruct (decide (k = k')) as [<-|Hne].
    + rewrite lookup_alter_eq, Hr in Hl. injection Hl as <-. destruct (Hadd k r Hr Hst0) as (r0 & ? & ?).
      exists r0. split; [done|]. by eapply rtc_r.
    + rewrite lookup_alter_ne in Hl by done. by apply (Hadd k').
Qed.

Lemma rows_alter (s : Relay W) k r f :
  map_Forall (λ _, row_ok) (transfers s) → transfers s !! k = Some r → row_step max_attempts r (f r) →
  map_Forall (λ _, row_ok) (alter f k (transfers s)).
Proof.
  intros Hok Hr Hs k' r' Hl. destruct (decide (k = k')) as [<-|Hne].
  - rewrite lookup_alter_eq, Hr in Hl. injection Hl as <-. eapply row_step_ok; [exact Hs|]. by eapply Hok.
  - rewrite lookup_alter_ne in Hl by done. by eapply Hok.
Qed.

(** The watcher changes the row it is at: it may go on knowing it, as it now is. *)
Lemma inv_watch_change s r l g f :
  relay_inv s ({[+ Watching (r :: l) +]} ⊎ g) → row_step max_attempts r (f r) →
  relay_inv (set_transfers (alter f (id r)) s) ({[+ Watching l +]} ⊎ g) ∧
  (status (f r) = PENDING_ATTESTATION → relay_inv (set_transfers (alter f (id r)) s) ({[+ Watching (f r :: l) +]} ⊎ g)).
Proof.
  intros Hinv Hs. destruct (inv_watching _ _ _ Hinv) as (lr & Hg & Hw & Hr).
  destruct Hinv as [Ht Hh Hok _]. apply working_tail in Hw as (Hlook & Hst & Hni & Hw).
  pose proof (row_step_identity _ _ _ Hs) as Hid.
  assert (Hids : id (f r) = id r) by (unfold identity in Hid; congruence).
  assert (working (set_transfers (alter f (id r)) s) relayed lr) as Hr'.
  { apply working_alter; [|done]. eapply working_apart; [done..|]. rewrite Hst. by intros [?|?]. }
  assert (working (set_transfers (alter f (id r)) s) watched l) as Hw' by by apply working_alter.
  split; [|intros Hp]; constructor; try (by eapply table_alter); try (by eapply historic_alter); try (by eapply rows_alter).
  - exists l, lr. split; [multiset_solver|done].
  - exists (f r :: l), lr. split; [multiset_solver|]. split; [|done].
    apply working_head; [|done|by rewrite Hids|done]. cbn. by rewrite Hids, lookup_alter_eq, Hlook.
Qed.

Lemma inv_relay_change s r l g f :
  relay_inv s ({[+ Relaying (r :: l) +]} ⊎ g) → row_step max_attempts r (f r) →
  relay_inv (set_transfers (alter f (id r)) s) ({[+ Relaying l +]} ⊎ g).
Proof.
  intros Hinv Hs. destruct (inv_relaying _ _ _ Hinv) as (lw & Hg & Hw & Hr).
  destruct Hinv as [Ht Hh Hok _]. apply working_tail in Hr as (Hlook & Hst & Hni & Hr).
  constructor; [|by eapply historic_alter|by eapply rows_alter|].
  - eapply table_alter; [done..|]. by eapply row_step_identity.
  - exists lw, l. split; [multiset_solver|]. split; apply working_alter; try done.
    eapply working_apart; [done..|]. unfold watched. destruct Hst; congruence.
Qed.

(** What a worker lets go of is not changed. *)
Lemma inv_watch_drop s r l g : relay_inv s ({[+ Watching (r :: l) +]} ⊎ g) → relay_inv s ({[+ Watching l +]} ⊎ g).
Proof.
  intros Hinv. destruct (inv_watching _ _ _ Hinv) as (lr & Hg & Hw & Hr). destruct Hinv as [Ht Hh Hok _].
  constructor; [done..|]. exists l, lr. split; [multiset_solver|]. split; [|done]. by apply working_tail in Hw as (_ & _ & _ & ?).
Qed.

Lemma inv_relay_drop s r l g : relay_inv s ({[+ Relaying (r :: l) +]} ⊎ g) → relay_inv s ({[+ Relaying l +]} ⊎ g).
Proof.
  intros Hinv. destruct (inv_relaying _ _ _ Hinv) as (lw & Hg & Hw & Hr). destruct Hinv as [Ht Hh Hok _].
  constructor; [done..|]. exists lw, l. split; [multiset_solver|]. split; [done|]. by apply working_tail in Hr as (_ & _ & _ & ?).
Qed.
End invariant.

(** * The service *)

Section service.
Context {W : Type} `{Bridge W, HexCrate, SuiSdk, MintSdk, ChainClient W, SponsorSdk, SolanaSdk, Base64Crate}.
Variable p : RelayerParams.
Variable start : Relay W.
Variable iris_base : rstring.

Import TransferRow.

Abbreviation inv := (relay_inv (max_mint_attempts p) start).
Abbreviation quiet := (Prog.quiet inv).
Abbreviation owns := (Prog.owns inv).

Lemma quiet_outside {A} (f : W → W * A) : quiet (outside f).
Proof. apply quiet_act. intros s g Hs. destruct (f (world s)) as [w a]. by apply inv_world. Qed.

Lemma quiet_try {E A B} (q : prog (Relay W) (result E A)) (h : A → prog (Relay W) (result E B)) :
  quiet q → (∀ a, quiet (h a)) → quiet (prog_try q h).
Proof. intros Hq Hh. apply quiet_seq; [done|]. intros [a|e]; [apply Hh|apply quiet_ret]. Qed.

(** What only asks the world leaves the table alone. *)
Ltac quiet :=
  repeat first
    [ apply quiet_ret | apply quiet_read | apply quiet_outside | assumption
    | apply quiet_try; [|intros ?]
    | apply quiet_seq; [|intros ?]
    | match goal with |- Prog.quiet _ (match ?x with _ => _ end) => destruct x end
    | match goal with |- Prog.quiet _ (if ?x then _ else _) => destruct x end ].

Lemma quiet_conn : quiet conn.
Proof. unfold conn. quiet. Qed.

Lemma quiet_solana_call m v : quiet (solana_call m v).
Proof. unfold solana_call. quiet. Qed.

Lemma quiet_attestation d h : quiet (attestation iris_base d h).
Proof. unfold attestation. quiet. Qed.

Lemma quiet_transaction_status sig : quiet (transaction_status sig).
Proof. unfold transaction_status. pose proof quiet_solana_call. quiet; auto. Qed.

Lemma quiet_sui_timestamp e d : quiet (sui_timestamp e d).
Proof. unfold sui_timestamp. quiet. Qed.

Lemma quiet_burn_timestamp r : quiet (burn_timestamp_ms r).
Proof. unfold burn_timestamp_ms. destruct (origin_chain r); [apply quiet_sui_timestamp|]. apply quiet_try; [apply quiet_transaction_status|intros; apply quiet_ret]. Qed.

(** The actions of the client are the world's. *)
Lemma quiet_client {A} (f : W → W * A) :
  quiet (act (λ s : Relay W, let '(w, a) := f (world s) in (mkRelay (transfers s) (next_id s) w, a))).
Proof. apply quiet_outside. Qed.

Lemma quiet_gas_tx_data sender pt budget : quiet (gas_tx_data (S := Relay W) (H := relay_client) sender pt budget).
Proof.
  unfold gas_tx_data, gas_payment, coins, address_balance, with_context, get_owned_coins, get_address_balance,
    get_reference_gas_price, get_chain_id, get_current_epoch, random_nonce, relay_client.
  repeat first [apply quiet_client | progress quiet].
Qed.

Lemma quiet_submit signer pt budget label n :
  quiet (submit_attempts (S := Relay W) (H := relay_client) n signer budget label (Ret (Ok pt))).
Proof.
  induction n as [|n IH]; cbn [submit_attempts]; [apply quiet_ret|]. apply quiet_seq; [|intros r; quiet].
  apply quiet_try; [apply quiet_ret|]. intros pt'. apply quiet_try; [apply quiet_gas_tx_data|]. intros d.
  unfold submit_tx_data, execute_transaction, relay_client. repeat first [apply quiet_client | progress quiet].
Qed.

Lemma quiet_shared i b : quiet (shared i b).
Proof. unfold shared. quiet. Qed.

Lemma quiet_sui_mint signer cfg m a : quiet (sui_mint signer cfg m a).
Proof.
  unfold sui_mint. apply quiet_try; [apply quiet_ret|]. intros mt. apply quiet_try; [apply quiet_ret|]. intros tmm.
  repeat (case_match; [apply quiet_ret|]).
  repeat (apply quiet_try; [apply quiet_shared|]; intros ?).
  apply quiet_seq; [apply quiet_submit|]. intros r. apply quiet_ret.
Qed.

Lemma quiet_solana_mint payer usdc raw att d dest : quiet (solana_mint payer usdc raw att d dest).
Proof.
  pose proof quiet_solana_call as Hcall. unfold solana_mint, recipient_account, account_exists, latest_blockhash,
    send_transaction. repeat first [apply Hcall | progress quiet].
Qed.

Lemma quiet_mint r raw att : quiet (mint p r raw att).
Proof.
  unfold mint. destruct (destination_chain r); [apply quiet_sui_mint|].
  apply quiet_try; [apply quiet_ret|]. intros d. apply quiet_solana_mint.
Qed.

(** ** Changes *)

(** A change of a row trades one token for another; it fails without a change. *)
Lemma owns_update k f g (next : Z → tokens) :
  (∀ t s others, inv s (g ⊎ others) → inv (set_transfers (alter (f t) k) s) (next t ⊎ others)) →
  owns (λ r g', (∃ e, r = Err e ∧ g' = g) ∨ (∃ t, r = Ok tt ∧ g' = next t)) (update_row k f) g.
Proof.
  intros Hf. unfold update_row. apply owns_quiet; [apply quiet_conn|]. intros [[]|e]; [|left; by eexists].
  apply owns_quiet; [apply quiet_outside|]. intros t. eapply (owns_bind _ (λ _ g', g' = next t)).
  - apply owns_act. intros s others Hs. exists (next t). split; [by apply Hf|done].
  - intros _ g' ->. right. by exists t.
Qed.

(** The row a token is at takes a step. *)
Tactic Notation "by_change" uconstr(lem) hyp(Hs) :=
  match goal with
  | |- relay_inv _ _ (set_transfers (alter ?f _) _) _ => eapply (lem _ _ _ _ _ _ f Hs); cbv beta; [by constructor|..]
  end.

(** The watcher at [r], with [l] to come. *)
Definition at_watch (l : list TransferRow.t) (g : tokens) : Prop :=
  g = {[+ Watching l +]} ∨ ∃ r, g = {[+ Watching (r :: l) +]}.

Lemma owns_set_burned r l at_ :
  status r = PENDING_ATTESTATION → burned_at r = None →
  owns (λ _ g, ∃ r', identity r' = identity r ∧ status r' = PENDING_ATTESTATION ∧ g = {[+ Watching (r' :: l) +]})
    (set_burned_at (id r) at_) {[+ Watching (r :: l) +]}.
Proof.
  intros Hst Hb. eapply owns_weaken; [|apply (owns_update _ _ _
    (λ t, {[+ Watching (r <| burned_at := Some at_ |> <| updated_at := t |> :: l) +]}))].
  - intros res g [(e & _ & ->)|(t & _ & ->)]; eexists; split_and!; [| | done | | | done]; done.
  - intros t s others Hs. by_change inv_watch_change Hs. done.
Qed.

Lemma owns_mark_attested r l m a d :
  status r = PENDING_ATTESTATION → message_of (origin_chain r) m d →
  owns (λ _, at_watch l) (mark_attested (id r) m a (bb_amount (burn d)) (recipient_hex d)) {[+ Watching (r :: l) +]}.
Proof.
  intros Hst Hm. eapply owns_weaken; [|apply (owns_update _ _ _ (λ _, {[+ Watching l +]}))].
  - intros res g [(e & _ & ->)|(t & _ & ->)]; [right; by exists r|by left].
  - intros t s others Hs. by_change inv_watch_change Hs.
Qed.

Lemma owns_process_row r l :
  status r = PENDING_ATTESTATION → owns (λ _, at_watch l) (process_row iris_base r) {[+ Watching (r :: l) +]}.
Proof.
  intros Hst. unfold process_row. unfold prog_try at 1. eapply (owns_bind _
    (λ _ g, ∃ r', identity r' = identity r ∧ status r' = PENDING_ATTESTATION ∧ g = {[+ Watching (r' :: l) +]})).
  - unfold backfill_burn. destruct (burned_at r) eqn:Hb; [by exists r|].
    unfold prog_try at 1. apply owns_quiet; [apply quiet_burn_timestamp|]. intros [[ms|]|e]; try (by exists r).
    destruct (timestamp_millis_opt (u64_as_i64 ms)) as [at_|]; cbn; [|by exists r]. by apply owns_set_burned.
  - intros res g (r' & Hid & Hst' & ->). unfold identity in Hid. injection Hid as Ei Ec Eh _ _ _.
    destruct res as [[]|e]; [|right; by exists r'].
    unfold prog_try at 1. apply owns_quiet; [apply quiet_attestation|]. rewrite <- Ec, <- Ei.
    intros [[|m a]|e]; try (right; by exists r'). destruct (hex_bytes m) as [raw|] eqn:Hm; [|right; by exists r']. cbn.
    destruct (decode raw) as [d|] eqn:Hd; [|right; by exists r']. cbn.
    destruct (source_domain d =? _) eqn:Hdom; [|right; by exists r'].
    apply owns_mark_attested; [done|]. exists raw. split_and!; [done..|lia].
Qed.

(** ** The watcher *)

(** The rows a query answers with, of a table under its keys. *)
Lemma listed_working (s : Relay W) (st : Status) (P : Status → Prop) :
  table_ok s → P st →
  working s P (oldest_first (List.filter (λ r, bool_decide (status r = st)) (rows s))).
Proof.
  intros [Hk _] Hst. unfold rows. constructor.
  - unfold oldest_first. rewrite sort_by_perm.
    assert (NoDup (id <$> (map_to_list (transfers s)).*2)) as Hn.
    { replace (id <$> (map_to_list (transfers s)).*2) with (map_to_list (transfers s)).*1; [apply NoDup_fst_map_to_list|].
      rewrite <- list_fmap_compose. apply list_fmap_ext. intros i [k r] Hl. cbn.
      symmetry. apply (Hk k r). apply elem_of_map_to_list. by eapply list_elem_of_lookup_2. }
    revert Hn. generalize ((map_to_list (transfers s)).*2). intros l Hl.
    induction l as [|r l IH]; [constructor|]. cbn in Hl |- *. apply NoDup_cons in Hl as [Hni Hl].
    case_bool_decide; [|by apply IH]. cbn. apply NoDup_cons. split; [|by apply IH].
    intros Hin. apply Hni. apply list_elem_of_fmap in Hin as (r' & -> & Hr'). apply list_elem_of_fmap. exists r'.
    split; [done|]. apply list_elem_of_In, filter_In in Hr' as [? _]. by apply list_elem_of_In.
  - apply Forall_forall. intros r Hr. unfold oldest_first in Hr. apply elem_of_sort_by in Hr. apply list_elem_of_In, filter_In in Hr as [Hin Hb].
    apply bool_decide_eq_true in Hb. apply list_elem_of_In, list_elem_of_fmap in Hin as ([k r'] & -> & Hin). cbn in *.
    apply elem_of_map_to_list in Hin. destruct (Hk k r' Hin) as [-> _]. by rewrite Hb.
Qed.

Lemma inv_watch_anew s l l' g : working s watched l' → inv s ({[+ Watching l +]} ⊎ g) → inv s ({[+ Watching l' +]} ⊎ g).
Proof.
  intros Hw' Hinv. destruct (inv_watching _ _ _ _ _ Hinv) as (lr & Hg & Hw & Hr). destruct Hinv as [Ht Hh Hok _].
  constructor; [done..|]. exists l', lr. split; [multiset_solver|done].
Qed.

Lemma inv_relay_anew s l l' g : working s relayed l' → inv s ({[+ Relaying l +]} ⊎ g) → inv s ({[+ Relaying l' +]} ⊎ g).
Proof.
  intros Hr' Hinv. destruct (inv_relaying _ _ _ _ _ Hinv) as (lw & Hg & Hw & Hr). destruct Hinv as [Ht Hh Hok _].
  constructor; [done..|]. exists lw, l'. split; [multiset_solver|done].
Qed.

(** A query, whose rows become the work of the one who holds the token. *)
Lemma owns_listed st (P : Status → Prop) g (next : list TransferRow.t → tokens) :
  P st → (∀ s l others, working s P l → inv s (g ⊎ others) → inv s (next l ⊎ others)) →
  owns (λ res g', match res with Ok l => Forall (λ r, status r = st) l ∧ g' = next l | Err _ => g' = g end)
    (transfers_with_status st) g.
Proof.
  intros HP Hnext. unfold transfers_with_status, prog_try. apply owns_quiet; [apply quiet_conn|]. intros [[]|e]; [|done].
  eapply (owns_bind _ (λ l g', Forall (λ r, status r = st) l ∧ g' = next l)); [|intros l g' ?; done].
  apply owns_act. intros s others Hs. cbn. eexists. split; [|split; [|done]].
  - apply Hnext; [apply listed_working; [by destruct Hs|done]|done].
  - apply Forall_forall. intros r Hr. unfold oldest_first in Hr. apply elem_of_sort_by, elem_of_bfilter in Hr as [_ Hr].
    by apply bool_decide_eq_true in Hr.
Qed.

Definition watcher_idle (g : tokens) : Prop := ∃ l, g = {[+ Watching l +]}.
Definition relayer_idle (g : tokens) : Prop := ∃ l, g = {[+ Relaying l +]}.

(** One row after the other, where a row may be passed over. *)
Lemma owns_rows (mk : list TransferRow.t → Token) (idle : tokens → Prop) l (f : TransferRow.t → prog (Relay W) unit) :
  (∀ l, idle {[+ mk l +]}) →
  (∀ s r l g, inv s ({[+ mk (r :: l) +]} ⊎ g) → inv s ({[+ mk l +]} ⊎ g)) →
  (∀ r l', r ∈ l → owns (λ _ g, g = {[+ mk l' +]} ∨ ∃ r', g = {[+ mk (r' :: l') +]}) (f r) {[+ mk (r :: l') +]}) →
  owns (λ _, idle) (for_each l f) {[+ mk l +]}.
Proof.
  intros Hidle Hdrop. induction l as [|r l IH]; intros Hf; cbn [for_each]; [apply Hidle|].
  eapply owns_bind; [apply Hf; set_solver|].
  assert (owns (λ _, idle) (for_each l f) {[+ mk l +]}) as Hl by (apply IH; intros; apply Hf; set_solver).
  intros _ g [->|(r' & ->)]; [done|]. eapply owns_shift; [|intros; apply Hidle|exact Hl].
  intros s others. apply Hdrop.
Qed.

Lemma owns_watcher_tick g : watcher_idle g → owns (λ _, watcher_idle) (watcher_tick iris_base) g.
Proof.
  intros [l0 ->]. unfold watcher_tick, prog_try.
  eapply owns_bind.
  { apply (owns_listed _ watched _ (λ l, {[+ Watching l +]})); [done|]. intros s l others. apply inv_watch_anew. }
  intros [l|e] g1 Hg; [|subst; by eexists]. destruct Hg as [Hl ->].
  eapply owns_bind; [|intros u g2 Hg; exact Hg].
  apply (owns_rows Watching); [by eexists|intros s r l1 g2; apply inv_watch_drop|].
  intros r l' Hr. eapply owns_bind; [apply owns_process_row; by eapply Forall_forall in Hl|]. intros ? ? Hg. exact Hg.
Qed.

Lemma owns_watcher_run n g : watcher_idle g → owns (λ _, watcher_idle) (watcher_run iris_base n) g.
Proof.
  revert g. induction n as [|n IH]; intros g Hg; [done|]. cbn [watcher_run].
  eapply owns_bind; [by apply owns_watcher_tick|]. intros ? g'. apply IH.
Qed.

(** ** The relayer *)

(** The relayer at [r], with [l] to come. *)
Definition at_relay (r : TransferRow.t) (l : list TransferRow.t) (g : tokens) : Prop :=
  g = {[+ Relaying l +]} ∨ g = {[+ Relaying (r :: l) +]}.

(** A change of the row of the relayer: its token moves on when it is made. *)
Lemma owns_relay_update r l f :
  (∀ t, row_step (max_mint_attempts p) r (f t r)) →
  owns (λ res g, match res with Ok _ => g = {[+ Relaying l +]} | Err _ => g = {[+ Relaying (r :: l) +]} end)
    (update_row (id r) f) {[+ Relaying (r :: l) +]}.
Proof.
  intros Hf. eapply owns_weaken; [|apply (owns_update _ _ _ (λ _, {[+ Relaying l +]}))].
  - intros res g [(e & -> & ->)|(t & -> & ->)]; done.
  - intros t s others Hs. by apply inv_relay_change with (f := f t).
Qed.

Lemma owns_relay_bump r l msg f :
  (∀ t, attempts r < i32_max → row_step (max_mint_attempts p) r (f t r <| attempts := attempts r + 1 |>)) →
  owns (λ res g, match res with Ok _ => g = {[+ Relaying l +]} | Err _ => g = {[+ Relaying (r :: l) +]} end)
    (bump_row msg (id r) f) {[+ Relaying (r :: l) +]}.
Proof.
  intros Hf. unfold bump_row. apply owns_quiet; [apply quiet_conn|]. intros [[]|e]; [|done].
  apply owns_quiet; [apply quiet_outside|]. intros t. apply owns_act. intros s others Hs.
  destruct (inv_relaying _ _ _ _ _ Hs) as (lw & _ & _ & Hr). apply working_tail in Hr as (Hlook & _). rewrite Hlook.
  destruct (Z.ltb_spec i32_max (attempts r + 1)); cbn [fst snd]; [by eexists|].
  exists {[+ Relaying l +]}. split; [|done].
  apply inv_relay_change with (f := λ r, f t r <| attempts := attempts r + 1 |>); [done|]. apply Hf. lia.
Qed.

Lemma owns_submit_mint r l :
  status r = ATTESTED →
  owns (λ res g, match res with Ok _ => g = {[+ Relaying l +]} | Err _ => g = {[+ Relaying (r :: l) +]} end)
    (submit_mint p r) {[+ Relaying (r :: l) +]}.
Proof.
  intros Hst. unfold submit_mint. destruct (message_hex r) as [m|]; [|done]. cbn.
  destruct (hex_bytes m) as [raw|]; [|done]. cbn. destruct (attestation_hex r) as [a|]; [|done]. cbn.
  destruct (hex_bytes a) as [att|]; [|done]. cbn.
  unfold prog_try at 1. apply owns_quiet; [apply quiet_mint|]. intros [tx|e]; [|done].
  apply owns_relay_bump. intros t Hlt. by constructor.
Qed.

Lemma owns_handle_mint_error r l e :
  status r = ATTESTED → owns (λ _, at_relay r l) (handle_mint_error p r e) {[+ Relaying (r :: l) +]}.
Proof.
  intros Hst. unfold handle_mint_error.
  assert (∀ f, (∀ t, row_step (max_mint_attempts p) r (f t r)) →
    owns (λ _, at_relay r l) (prog_bind (λ _, Ret tt) (update_row (id r) f)) {[+ Relaying (r :: l) +]}) as Hu.
  { intros f Hf. eapply owns_bind; [by apply owns_relay_update|]. intros [u|e'] g ->; [by left|by right]. }
  destruct (nonce_already_used e).
  - apply owns_quiet; [apply quiet_outside|]. intros t. apply Hu. intros t'. by constructor.
  - destruct (_ <=? _) eqn:Hmax; [apply Hu; intros t'; apply step_failed; [done|lia]|].
    eapply owns_bind; [apply owns_relay_bump; intros t' Hlt; apply step_retry; [by left|done]|].
    intros [u|e'] g ->; [by left|by right].
Qed.

Lemma owns_relay_row r l :
  status r = ATTESTED → owns (λ _, at_relay r l) (relay_row p r) {[+ Relaying (r :: l) +]}.
Proof.
  intros Hst. unfold relay_row. apply owns_quiet; [unfold backing_off, utc_now; destruct (0 <? attempts r); [|apply quiet_ret];
    apply quiet_seq; [apply quiet_outside|intros; apply quiet_ret]|].
  intros [|]; [by right|]. eapply owns_bind; [by apply owns_submit_mint|]. intros [u|e] g ->; [by left|].
  by apply owns_handle_mint_error.
Qed.

Lemma owns_confirm_mint r l :
  status r = MINTING → owns (λ _, at_relay r l) (confirm_mint r) {[+ Relaying (r :: l) +]}.
Proof.
  intros Hst. unfold confirm_mint. destruct (mint_tx_hash r) as [tx|]; [|by right].
  unfold prog_try at 1. cbn [ok_or prog_bind].
  assert (∀ f, (∀ t, row_step (max_mint_attempts p) r (f t r)) →
    owns (λ _, at_relay r l) (update_row (id r) f) {[+ Relaying (r :: l) +]}) as Hu.
  { intros f Hf. eapply owns_weaken; [|by apply owns_relay_update]. intros [u|e'] g ->; [by left|by right]. }
  unfold prog_try at 1. apply owns_quiet.
  { unfold mint_status. destruct (destination_chain r); (apply quiet_try; [|intros; apply quiet_ret]);
      [apply quiet_sui_timestamp|apply quiet_transaction_status]. }
  assert (∀ msg note, owns (λ _, at_relay r l) (bump_row msg (id r)
    (λ t r, r <| status := ATTESTED |> <| err := Some note |> <| updated_at := t |>)) {[+ Relaying (r :: l) +]}) as Hb.
  { intros msg note. eapply owns_weaken; [|apply owns_relay_bump; intros t Hlt; apply step_retry; [by right|done]].
    intros [u|e'] g ->; [by left|by right]. }
  intros [[ms| |]|e]; [|apply Hb| |by right].
  - destruct (timestamp_millis_opt _) as [at_|]; [|by right]. unfold prog_try. cbn [ok_or prog_bind]. apply Hu. intros t. by constructor.
  - apply owns_quiet; [apply quiet_outside|]. intros t. destruct (_ <? _); [|by right]. apply Hb.
Qed.

(** A pass over the rows of one status, and what follows. *)
Lemma owns_relay_pass st (f : TransferRow.t → prog (Relay W) unit) (rest : prog (Relay W) (result Error unit)) g :
  relayed st → relayer_idle g →
  (∀ r l, status r = st → owns (λ _, at_relay r l) (f r) {[+ Relaying (r :: l) +]}) →
  (∀ g, relayer_idle g → owns (λ _, relayer_idle) rest g) →
  owns (λ _, relayer_idle) (l ←? transfers_with_status st; prog_bind (λ _, rest) (for_each l f)) g.
Proof.
  intros Hst [l0 ->] Hf Hrest. unfold prog_try. eapply owns_bind.
  { apply (owns_listed _ relayed _ (λ l, {[+ Relaying l +]})); [done|]. intros s l others. apply inv_relay_anew. }
  intros [l|e] g1 Hg; [|subst; by eexists]. destruct Hg as [Hl ->].
  eapply owns_bind; [|intros u; apply Hrest].
  apply (owns_rows Relaying); [by eexists|intros s r l1 g2; apply inv_relay_drop|].
  intros r l' Hr. eapply owns_weaken; [|apply Hf; by eapply Forall_forall in Hl].
  intros u g2 [->| ->]; [by left|right; by eexists].
Qed.

Lemma owns_relayer_tick g : relayer_idle g → owns (λ _, relayer_idle) (relayer_tick p) g.
Proof.
  intros Hg. apply owns_relay_pass; [by left|done|intros r l; apply owns_relay_row|]. intros g1 Hg1.
  apply owns_relay_pass; [by right|done| |by intros]. intros r l Hr.
  eapply owns_bind; [by apply owns_confirm_mint|]. intros u g2 Hg2. exact Hg2.
Qed.

Lemma owns_relayer_run n g : relayer_idle g → owns (λ _, relayer_idle) (relayer_run p n) g.
Proof.
  revert g. induction n as [|n IH]; intros g Hg; [done|]. cbn [relayer_run].
  eapply owns_bind; [by apply owns_relayer_tick|]. intros ? g'. apply IH.
Qed.

(** ** The API *)

Lemma find_burn_None new (s : Relay W) k r :
  find_burn new s = None → transfers s !! k = Some r → same_burn new r = false.
Proof.
  intros Hf Hr. apply (proj1 (bfind_None _ _) Hf). unfold rows. apply list_elem_of_fmap. exists (k, r).
  split; [done|]. by apply elem_of_map_to_list.
Qed.

Lemma same_burn_true new r :
  same_burn new r = true ↔ origin_chain r = NewTransfer.origin_chain new ∧ origin_tx_hash r = NewTransfer.origin_tx_hash new.
Proof. unfold same_burn. by rewrite andb_true_iff, !bool_decide_eq_true. Qed.

Lemma next_id_fresh (s : Relay W) k r : table_ok s → transfers s !! k = Some r → k ≠ next_id s.
Proof. intros [Hk _] Hr. destruct (Hk k r Hr). lia. Qed.

Lemma table_insert t new (s : Relay W) : table_ok s → table_ok (insert_row t new s).
Proof.
  intros [Hk Hb]. unfold insert_row.
  destruct (find_burn new s) eqn:Hf; constructor; cbn; try done.
  - intros k r Hr. destruct (Hk k r Hr). lia.
  - apply map_Forall_insert_2; [cbn; lia|]. intros k r Hr. destruct (Hk k r Hr). lia.
  - intros k1 k2 r1 r2 Hl1 Hl2 Ec Eh.
    assert (∀ k r, transfers s !! k = Some r → origin_chain r = NewTransfer.origin_chain new →
      origin_tx_hash r = NewTransfer.origin_tx_hash new → False) as Hnew.
    { intros k r Hr ? ?. pose proof (find_burn_None _ _ _ _ Hf Hr) as Hn.
      by rewrite (proj2 (same_burn_true new r)) in Hn. }
    apply lookup_insert_Some in Hl1 as [[<- <-]|[? Hl1]], Hl2 as [[<- <-]|[? Hl2]]; cbn in *.
    + done.
    + exfalso. by eapply Hnew.
    + exfalso. by eapply Hnew.
    + by eapply Hb.
Qed.

Lemma working_kept (s s' : Relay W) P l :
  (∀ k r, transfers s !! k = Some r → transfers s' !! k = Some r) → working s P l → working s' P l.
Proof.
  intros Hk [Hn Hl]. constructor; [done|]. eapply Forall_impl; [exact Hl|]. intros r [? ?]. split; [by apply Hk|done].
Qed.

Lemma inv_insert t new s g : inv s g → inv (insert_row t new s) g.
Proof.
  intros [Ht [Hkept Hadd Hf] Hok (lw & lr & Hg & Hw & Hr)].
  assert (∀ k r, transfers s !! k = Some r → transfers (insert_row t new s) !! k = Some r) as Hgrow.
  { intros k r Hl. unfold insert_row. destruct (find_burn new s); [done|]. cbn. rewrite lookup_insert_ne; [done|].
    intros <-. by eapply next_id_fresh. }
  assert (∀ k r, transfers (insert_row t new s) !! k = Some r →
    transfers s !! k = Some r ∨ k = next_id s ∧ registered r) as Hback.
  { intros k r. unfold insert_row. destruct (find_burn new s); cbn; [by left|].
    intros [[<- <-]|[_ Hl]]%lookup_insert_Some; [right; split; [done|by repeat eexists]|by left]. }
  constructor.
  - by apply table_insert.
  - constructor.
    + intros k r0 Hl0. destruct (Hkept k r0 Hl0) as (r & Hl & ?). exists r. split; [by apply Hgrow|done].
    + intros k r Hl Hnew. destruct (Hback k r Hl) as [?|[_ ?]]; [by eapply Hadd|]. exists r. by split.
    + cbn. lia.
  - intros k r Hl. destruct (Hback k r Hl) as [?|[_ ?]]; [by eapply Hok|by apply registered_ok].
  - exists lw, lr. split_and!; [done|by eapply working_kept..].
Qed.

Lemma quiet_insert_transfer new : quiet (insert_transfer new).
Proof.
  unfold insert_transfer. apply quiet_try; [apply quiet_conn|]. intros u. apply quiet_seq; [apply quiet_outside|]. intros t.
  apply quiet_seq; [apply quiet_modify; intros s g; apply inv_insert|]. intros v.
  apply quiet_seq; [apply quiet_read|]. intros r. apply quiet_ret.
Qed.

(** A request to the API, and what the service runs beside its answers. *)
Inductive Request := CreateTransfer (req : CreateTransferReq) | ListTransfers (wallet : rstring) (open_only : bool).

Definition answer (q : Request) : prog (Relay W) unit :=
  match q with
  | CreateTransfer req => prog_bind (λ _, Ret tt) (create_transfer req)
  | ListTransfers wallet open_only => prog_bind (λ _, Ret tt) (list_transfers wallet open_only)
  end.

Definition service (n m : nat) (requests : list Request) : list (prog (Relay W) unit) :=
  watcher_run iris_base n :: relayer_run p m :: (answer <$> requests).

Lemma quiet_answer q : quiet (answer q).
Proof.
  destruct q as [req|w o]; cbn [answer]; (apply quiet_seq; [|intros; apply quiet_ret]).
  - unfold create_transfer, internal. apply quiet_try; [apply quiet_ret|]. intros new.
    apply quiet_try; [|intros; apply quiet_ret]. apply quiet_seq; [apply quiet_insert_transfer|intros; apply quiet_ret].
  - unfold list_transfers, internal, transfers_for_wallet. apply quiet_try; [|intros; apply quiet_ret].
    apply quiet_seq; [|intros; apply quiet_ret]. apply quiet_try; [apply quiet_conn|]. intros u.
    apply quiet_seq; [apply quiet_read|intros; apply quiet_ret].
Qed.

(** Where the service can start from. *)
Definition relay_wf (s : Relay W) : Prop := table_ok s ∧ map_Forall (λ _, row_ok) (transfers s).

Lemma inv_start : relay_wf start → inv start {[+ Watching []; Relaying [] +]}.
Proof.
  intros [Ht Hok]. constructor; [done| |done|].
  - constructor; [|congruence|done]. intros k r Hr. by exists r.
  - exists [], []. split; [done|]. split; constructor; by constructor.
Qed.

Lemma sched_inv schedule n m requests :
  relay_wf start → ∃ g, inv (sched schedule (service n m requests) start).2 g.
Proof.
  intros Hwf. destruct (sched_owned inv (λ _ _, True) ∅ schedule (service n m requests)
    ({[+ Watching [] +]} :: {[+ Relaying [] +]} :: replicate (length requests) ∅) start) as (gs & Hs & _).
  - cbn [total]. rewrite total_none, !(right_id_L ∅ (⊎)). by apply inv_start.
  - constructor; [|constructor].
    + eapply owns_weaken; [|apply owns_watcher_run; by eexists]. done.
    + eapply owns_weaken; [|apply owns_relayer_run; by eexists]. done.
    + clear. induction requests as [|q l IH]; cbn; constructor; [|done].
      eapply owns_weaken; [|apply quiet_answer]. done.
  - by eexists.
Qed.

(** C10: Whatever the watcher, the relayer and the API do, and in whatever
    order their database and network calls come, the table keeps one row per
    burn under its id and every row is well formed for its status.  No row is
    lost: each stands at a later point of its history, with the transfer it was
    registered for and what the attestation said unchanged, and as it was if it
    had ended; a row that was not there has gone through its history from its
    registration. *)
Theorem transfers_only_advance schedule n m requests :
  relay_wf start →
  let s := (sched schedule (service n m requests) start).2 in
  relay_wf s ∧
  (∀ k r0, transfers start !! k = Some r0 →
    ∃ r, transfers s !! k = Some r ∧ rtc (row_step (max_mint_attempts p)) r0 r ∧ identity r = identity r0 ∧
      (status r0 ≠ PENDING_ATTESTATION → attested_part r = attested_part r0) ∧ (terminal r0 → r = r0)) ∧
  (∀ k r, transfers s !! k = Some r → transfers start !! k = None →
    ∃ r0, registered r0 ∧ rtc (row_step (max_mint_attempts p)) r0 r).
Proof.
  intros Hwf s. destruct (sched_inv schedule n m requests Hwf) as (g & [Ht [Hkept Hadd _] Hok _]).
  split; [by split|]. split; [|exact Hadd]. intros k r0 Hr0. destruct (Hkept k r0 Hr0) as (r & Hr & Hs). exists r.
  split_and!; [done|done|by eapply row_steps_identity| |intros Hend; by eapply row_steps_terminal].
  intros Hst. by destruct (row_steps_attested _ _ _ Hs Hst) as (_ & ? & _).
Qed.
End service.

(** C35: A message decodes exactly when its bytes are those of a well-formed
    message with a burn of at most a [u64], whatever bytes follow, and then to
    that message; a shorter message or a larger burn is refused. *)
Theorem decode_exact l m :
  Forall byte l → decode l = Ok m ↔ message_wf m ∧ ∃ rest, l = encode m ++ rest.
Proof.
  intros Hl. split; [by apply decode_Ok_encode|]. intros [Hm [rest ->]]. by apply decode_encode_app.
Qed.

(** * Examples *)

Section demo.
Import TransferRow.

Definition demo_burn : CctpMessage :=
  mkMessage 0 DOMAIN_SUI DOMAIN_SOLANA 77 (replicate 32 1) (replicate 32 2) (replicate 32 0)
    (mkBurnBody 0 (replicate 32 3) (replicate 32 4) 2500000 (replicate 32 5)).

Lemma decode_exact_witness : decode (encode demo_burn) = Ok demo_burn.
Proof.
  apply decode_exact; [repeat (apply Forall_cons; split; [split; vm_compute; congruence|]); apply Forall_nil_2|].
  split; [|exists []; by rewrite app_nil_r]. split; try reflexivity; split; vm_compute; congruence.
Defined.

#[local] Existing Instance demo_hex.
#[local] Instance demo_b64 : Base64Crate := {| base64_encode l := l; base64_decode s := Some s |}.

#[local] Instance demo_sui : SuiSdk := {|
  sui_address_from_str s := Some (mkSuiAddress s); object_id_from_hex_literal s := Some (mkSuiAddress s);
  address_text a := addr_bytes a; address_from_bcs bs := Some (mkSuiAddress bs); u64_from_bcs bs := head bs;
  transaction_from_bcs _ := None; transaction_digest_text _ := [] |}.
#[local] Instance demo_mint_sdk : MintSdk := {|
  object_id_from_str s := Some (mkSuiAddress s); type_tag_ok _ := true; pure_bytes l := l |}.
#[local] Instance demo_sponsor : SponsorSdk := {|
  kind_from_bcs _ := Err [str "bcs"]; tx_to_bcs _ := []; sign _ _ := []; is_gas_coin_used _ := false |}.
#[local] Instance demo_solana : SolanaSdk := {|
  pubkey_parse s := Some s; pubkey_text k := k; derive_program_address _ _ := replicate 32 4;
  sign_transaction _ _ _ := Ok [1] |}.

(** The world is a clock that a look at it puts forward by a minute. *)
#[local] Instance demo_client : ChainClient Z := {|
  get_owned_coins _ _ s := (s, Ok []); get_balance _ _ s := (s, Ok 0); get_address_balance _ _ s := (s, Ok None);
  get_reference_gas_price s := (s, Ok 1000); get_chain_id s := (s, Ok []); get_current_epoch s := (s, Ok 1);
  random_nonce s := (s, 4); simulate _ s := (s, Err []); execute_transaction _ _ s := (s, Err []) |}.

(** Circle attests the burn; the node answers a submission with [sent], and
    knows no transaction. *)
Definition demo_bridge (sent : Value) : Bridge Z := {|
  now t := (t + 60 * MICROS, t);
  db_up t := (t, true);
  iris_get _ t := (t, Ok (200, Ok (jobj [("messages"%string, JArray [jobj
    [("message"%string, jstr (str "0x" ++ hex_encode (encode demo_burn))); ("attestation"%string, jstr (str "0x00"))]])])));
  solana_post method _ t := (t, Ok
    (if bool_decide (method = str "sendTransaction") then sent else
     if bool_decide (method = str "getLatestBlockhash")
     then jobj [("result"%string, jobj [("value"%string, jobj [("blockhash"%string, jstr (str "hash"))])])]
     else jobj [("result"%string, JNull)]));
  json_text v := match v with JString s => s | _ => [] end;
  timestamp_millis_opt ms := Some (ms * 1000);
  sui_digest_ok _ := true;
  sui_get_transaction _ t := (t, Ok (Some (Some 1000)));
  shared_object_arg _ _ t := (t, Err []) |}.

Definition demo_params : RelayerParams :=
  mkRelayerParams (small_id 1) (mkSuiConfig [] [] [] [] [] [] [] 0) [9] [8] 5.

Definition demo_request : CreateTransferReq :=
  mkCreateReq (str "burntx") (str "sui") (str "0xalice") (Some (replicate 32 7)).

Definition demo_new : NewTransfer.t := NewTransfer.mk Sui (str "burntx") (str "0xalice") (Some (replicate 32 7)).
Definition demo_start : Relay Z := mkRelay {[1 := new_row 1 0 demo_new]} 2 0.

Lemma demo_start_wf : relay_wf demo_start.
Proof.
  split; [constructor|].
  - apply map_Forall_singleton. cbn. lia.
  - cbn. intros k1 k2 r1 r2 [<- _]%lookup_singleton_Some [<- _]%lookup_singleton_Some _ _. reflexivity.
  - apply map_Forall_singleton, registered_ok. by repeat eexists.
Qed.

Definition sent_ok : Value := jobj [("result"%string, jstr (str "minttx"))].

Lemma transfers_only_advance_witness :
  ∃ r, transfers (sched (concat (replicate 40 [0%nat; 1%nat; 2%nat]))
    (service (H := demo_bridge sent_ok) demo_params (str "iris") 2 2 [CreateTransfer demo_request]) demo_start).2 !! 1 = Some r ∧
    identity r = identity (new_row 1 0 demo_new).
Proof.
  destruct (transfers_only_advance (H := demo_bridge sent_ok) demo_params demo_start (str "iris")
    (concat (replicate 40 [0%nat; 1%nat; 2%nat])) 2 2 [CreateTransfer demo_request] demo_start_wf) as (_ & Hkept & _).
  destruct (Hkept 1 (new_row 1 0 demo_new) eq_refl) as (r & Hr & _ & Hid & _). exists r. by split.
Defined.

(** The row of the demo after a tick of the watcher and [n] of the relayer. *)
Definition relayed_row (sent : Value) (n : nat) : option TransferRow.t :=
  let s := (run (watcher_run (H := demo_bridge sent) (str "iris") 1) demo_start).1 in
  transfers (run (relayer_run (H := demo_bridge sent) demo_params n) s).1 !! 1.

(** [max_mint_attempts] is 5 here and the row has 36 attempts, two for each of
    its 18 submissions: a mint that is not found is submitted again without end. *)
Lemma resubmitted_past_cap :
  (λ r, (status r, attempts r)) <$> relayed_row sent_ok 200 = Some (ATTESTED, 36).
Proof. vm_compute. reflexivity. Qed.

Definition refused : Value :=
  jobj [("error"%string, jstr (str "AnchorError caused by account: used_nonces. Error Code: AccountNotInitialized."))].

(** A refusal that names the account of the nonces is taken for a mint by
    someone else: the transfer is complete, and nothing was minted. *)
Lemma completed_by_account_name :
  (λ r, (status r, mint_tx_hash r, minted_at r)) <$> relayed_row refused 1 = Some (COMPLETE, None, Some 120000000).
Proof. vm_compute. reflexivity. Qed.

(** The same refusal under another name is a failure, tried again. *)
Lemma refusal_is_retried :
  (λ r, (status r, attempts r)) <$>
    relayed_row (jobj [("error"%string, jstr (str "AnchorError caused by account: custody. Error Code: AccountNotInitialized."))]) 1 =
  Some (ATTESTED, 1).
Proof. vm_compute. reflexivity. Qed.
End demo.
