(* ===== verification/Keeper.v ===== *)
(** [services/keeper]: the cranks of the trading vaults.  Every tick reads each
    vault, settles what is due, and then fulfills withdrawals, or refreshes the
    capital of the vault, or settles a closed one ([trading_vault.rs]); the
    values of external accounts come from a venue ([venue_equity.rs]). *)

From Stdlib Require Import Floats.SpecFloat.
From S2P Require Import Prelude RecordUpdate Prog RustStr F64 ExchangeTypes Crates Json Wire Asset SuiTx GasTemplate GasStation.

(** * Steps of a mark ([venue_equity.rs]) *)

Definition clamp_step (previous target max_delta_bps : Z) : Z :=
  if previous =? 0 then target else
  let max_delta := wrap64 (u128_mul previous max_delta_bps / 10000) in
  if previous <? target then Z.min target (u64_saturating_add previous max_delta)
  else Z.max target (u64_saturating_sub previous max_delta).

(** [s.parse::<i128>()]: an optional sign, then digits with checked arithmetic. *)
Definition i128_max : Z := 2 ^ 127 - 1.

Fixpoint parse_i128_digits (acc : Z) (negative : bool) (s : rstring) : option Z :=
  match s with
  | [] => Some acc
  | c :: s' =>
      if is_ascii_digit c then
        let acc' := if negative then acc * 10 - (c - 48) else acc * 10 + (c - 48) in
        if (- i128_max - 1 <=? acc') && (acc' <=? i128_max) then parse_i128_digits acc' negative s' else None
      else None
  end.

Definition parse_i128 (s : rstring) : option Z :=
  match s with
  | [] => None
  | c :: s' =>
      if c =? 43 then match s' with [] => None | _ => parse_i128_digits 0 false s' end
      else if c =? 45 then match s' with [] => None | _ => parse_i128_digits 0 true s' end
      else parse_i128_digits 0 false s
  end.

(** The integer of [totalAccountValueE9]: a decimal string, or a number. *)
Definition value_e9 (raw : Value) : option Z :=
  match raw with
  | JString s => parse_i128 s
  | JNumber (PosInt n) => if n <=? i64_max then Some n else None
  | JNumber (NegInt n) => Some n
  | _ => None
  end.

Definition equity_from_account (v : Value) (asset_decimals : Z) : result Error Z :=
  match get v (str "totalAccountValueE9") with
  | None => Err (error (str "bluefin account response missing totalAccountValueE9"))
  | Some raw =>
      match value_e9 raw with
      | None => Err (error (str "totalAccountValueE9 is not an integer"))
      | Some e9 =>
          if 9 <? asset_decimals then Err (error (str "asset_decimals is unsupported for an E9 venue value")) else
          let scaled := Z.max e9 0 / 10 ^ (9 - asset_decimals) in
          if scaled <=? u64_max then Ok scaled else Err (error (str "scaled bluefin equity overflows u64"))
      end
  end.

Record BluefinVenueAccount := mkVenueAccount { va_account : SuiAddress; asset_decimals : Z }.

(** The sources of a venue's value. *)
Inductive VenueEquitySource :=
  | Disabled
  | Fixed (targets : gmap ObjectID Z)
  | Bluefin (accounts : gmap ObjectID BluefinVenueAccount) (max_age : Z).

(** [equity_for]: the cache holds values with the time they were read at. *)
Definition equity_for (source : VenueEquitySource) (cache : gmap ObjectID (Z * Z)) (now : Z)
    (vault_id : ObjectID) (external_account : SuiAddress) : option Z :=
  match source with
  | Disabled => None
  | Fixed targets => targets !! vault_id
  | Bluefin accounts max_age =>
      acct ← accounts !! vault_id;
      if negb (bool_decide (va_account acct = external_account)) then None else
      '(equity, at_) ← cache !! vault_id;
      if max_age <? now - at_ then None else Some equity
  end.

(** * Holdings and the appraisal ([sui-tx/tx/appraisal.rs]) *)

Inductive PositionInfo :=
  | DeepBookCustody (id : ObjectID) (assets : list rstring) (pools : list (ObjectID * rstring * rstring))
  | ExchangeCustody (id bm_id : ObjectID) (assets : list rstring)
  | RfqTicket (id : ObjectID) (escrow_type : rstring) (auction_id bucket_id : ObjectID) (is_put : bool)
  | BidTicket (id : ObjectID) (escrow_type win_type : rstring) (auction_id : ObjectID) (escrow_amount win_amount : Z)
  | OptionPosition (id bucket_id : ObjectID) (is_put : bool) (underlying settlement call_type : rstring) (via_vault_mm : bool)
  | OptionCoin (id : ObjectID) (call_type : rstring).

Record VaultHoldings := mkHoldings {
  deposit_type : rstring;
  free_assets : list rstring;
  positions : list PositionInfo;
  external_account : option rstring;
  external_equity_oracle : option rstring;
  external_exposure : Z;
}.

Record OptionBucketInfo := mkBucketInfo { bucket_id : ObjectID; underlying : rstring; settlement : rstring; is_put : bool }.

Definition is_cash_only (h : VaultHoldings) : bool :=
  bool_decide (free_assets h = []) && bool_decide (positions h = []).

(** The assets a position is valued in. *)
Definition position_assets (p : PositionInfo) : list rstring :=
  match p with
  | DeepBookCustody _ assets pools => assets ++ concat ((λ x : ObjectID * rstring * rstring, [x.1.2; x.2]) <$> pools)
  | ExchangeCustody _ _ assets => assets
  | RfqTicket _ escrow _ _ _ => [escrow]
  | BidTicket _ escrow _ _ _ _ => [escrow]
  | OptionPosition _ _ _ underlying settlement _ _ => [underlying; settlement]
  | OptionCoin _ _ => []
  end.

Definition assets_needing_attestation (h : VaultHoldings) : gset rstring :=
  list_to_set (free_assets h ++ concat (position_assets <$> positions h)) ∖ {[deposit_type h]}.

(** An option coin is priced by the legs of its bucket. *)
Definition price_assets_needed (h : VaultHoldings) (option_buckets : gmap rstring OptionBucketInfo) : gset rstring :=
  let legs (b : OptionBucketInfo) : gset rstring := {[underlying b; settlement b]} in
  let priced : list (gset rstring) :=
    (λ t, match option_buckets !! t with Some b => legs b | None => {[t]} end) <$> elements (assets_needing_attestation h) in
  let held : list (gset rstring) := omap (λ p, match p with OptionCoin _ c => legs <$> option_buckets !! c | _ => None end) (positions h) in
  (⋃ priced ∪ ⋃ held) ∖ {[deposit_type h]}.

(** The order of a [BTreeSet<String>]: that of the bytes, which UTF-8 makes that
    of the characters. *)
Fixpoint str_leb (a b : rstring) : bool :=
  match a, b with
  | [], _ => true
  | _, [] => false
  | c :: a', d :: b' => (c <? d) || ((c =? d) && str_leb a' b')
  end.

Definition in_order (X : gset rstring) : list rstring := sort_by str_leb (elements X).

#[export] Instance PositionInfo_eq_dec : EqDecision PositionInfo.
Proof. solve_decision. Defined.

(** * Transactions

    A transaction as the keeper hands it to the builder, which replaces the
    inputs by their indexes: the arguments of a call are inputs, the composed
    appraisal and its attestations, and results of the commands after it. *)
Inductive Arg :=
  | Shared (id : ObjectID) (mutable : bool)
  | ReceivingArg (id : ObjectID)
  | PureId (id : ObjectID)
  | PureU64 (n : Z)
  | Appraisal
  | Attestation (asset : rstring)
  | ResultOf (command : nat).

Definition clock : Arg := Shared SUI_CLOCK_OBJECT_ID false.

Inductive Cmd :=
  | Call (package : ObjectID) (module function : string) (type_arguments : list rstring) (arguments : list Arg)
  | MakeVec (ty : rstring) (elems : list Arg).

(** [appraisal] says whose appraisal comes before the commands. *)
Record Tx := mkTransaction { appraisal : option ObjectID; tx_commands : list Cmd }.

Definition plain_tx (commands : list Cmd) : Tx := mkTransaction None commands.

(** * The keeper's surroundings *)

Abbreviation FeedId := (list Z).

Record ExternalView := mkExternalView {
  ev_account : SuiAddress;
  exposure : Z;
  equity : option Z;
  equity_updated_at_ms : option Z;
}.

(** What the indexer says of a vault and of a bucket. *)
Record TradingVaultInfo := mkVaultInfo {
  tv_vault_id : SuiAddress;
  tv_external_account : option SuiAddress;
  tv_external_exposure : Z;
  tv_latest_external_equity : option Z;
  tv_external_equity_updated_at_ms : option Z;
}.

Record BucketInfo := mkIndexerBucket {
  ib_bucket_id : SuiAddress;
  ib_call_type : rstring;
  ib_asset_type : rstring;
  ib_settlement_type : rstring;
  ib_option_kind : rstring;
}.

(** An owned object: its type, and its balance when it is a coin. *)
Record OwnedObject := mkOwned {
  oo_ref : ObjectID;
  oo_type : option rstring;
  oo_coin : option Z;
  oo_type_params : list rstring;
}.

Inductive OracleProvider := Pyth | Switchboard.

(** The legs an appraisal takes its prices from. *)
Inductive OracleLegs :=
  | NoLegs
  | PythLegs (price_infos : list (rstring * ObjectID)) (feeds : list FeedId) (update : list Z)
  | SwitchboardLegs.

(** The chain, the indexer, the oracle service and the clock.  [composed] is what
    the appraisal composer answers: the assets it has an attestation for. *)
Class VaultNode (W : Type) := {
  clock_ms : W → W * Z;
  trading_vaults : W → W * result Error (list TradingVaultInfo);
  buckets : W → W * result Error (list BucketInfo);
  discover_holdings : ObjectID → W → W * result Error VaultHoldings;
  get_object_json : ObjectID → W → W * result Error (option Value);
  try_get_object_json : ObjectID → W → W * result Error (option (option Value));
  get_object_type : ObjectID → W → W * result Error (option rstring);
  owned_objects : SuiAddress → nat → W → W * result Error (list OwnedObject);
  fetch_shared : ObjectID → bool → W → W * result Error unit;
  dev_inspect_fails : Tx → W → W * result Error bool;
  dev_inspect_bool : Tx → W → W * result Error (result Error bool);
  submit : string → Tx → W → W * result Error unit;
  realized_vol : FeedId → Z → W → W * result Error f64;
  descriptor : W → W * result Error OracleProvider;
  hermes_update : list FeedId → W → W * result Error (list (list Z));
  composed : ObjectID → VaultHoldings → gmap rstring OptionBucketInfo → OracleLegs → W → W * result Error (gset rstring);
  fetch_equity : BluefinVenueAccount → W → W * result Error Value;
}.

(** [sui_types]: the ids of dynamic fields, type tags and [bcs]. *)
Class FieldSdk := {
  derive_dynamic_field_id : ObjectID → rstring → list Z → result Error ObjectID;
  bcs_u64 : Z → list Z;
  bcs_string : rstring → list Z;
  bcs_bytes : list Z → list Z;
  type_tag_ok : rstring → bool;
  object_id_parse : rstring → option ObjectID;
}.

(** * The context *)

Record PriceInfoTable := mkPriceTable { table_id : ObjectID; identifier_type : rstring }.

Record TradingVaultCtx := mkCtx {
  trading_vault_pkg : ObjectID;
  deepbook_adapter_pkg : option ObjectID;
  options_adapter_pkg : option ObjectID;
  core_pkg : ObjectID;
  protocol_config_id : ObjectID;
  integration_registry_id : ObjectID;
  core_protocol_config_id : ObjectID;
  treasury_id : ObjectID;
  feeds : list (rstring * FeedId);
  price_table : option PriceInfoTable;
  equity_oracle_pkg : option ObjectID;
  equity_book_id : option ObjectID;
  equity_source : VenueEquitySource;
  vol_book_id : option ObjectID;
  vol_window_days : Z;
  reconciliation_tolerance_bps : Z;
  equity_stale_alert_ms : Z;
  mark_refresh_interval_ms : Z;
}.

Record CapitalWatch := mkCapitalWatch {
  cw_risk_state : Z;
  cw_reset_proposed : bool;
  cw_commitment_breached : bool;
  accrual_alerted : bool;
}.

Definition CapitalWatch_default : CapitalWatch := mkCapitalWatch 0 false false false.

(** What is observable: the submissions and the alerts. *)
Inductive Event :=
  | Submitted (label : string) (tx : Tx) (outcome : result Error unit)
  | Alert (alert_id : string) (about : ObjectID).

(** The mutable part of the context, the log, and the world. *)
Record Keeper (W : Type) := mkKeeper {
  descriptor_cache : option (Z * OracleProvider);
  mark_refreshed_at : gmap ObjectID Z;
  crank_backoff : gmap ObjectID (Z * Z);
  capital_watch : gmap ObjectID CapitalWatch;
  settlement_watch : gmap ObjectID (Z * bool);
  settled_done : gset ObjectID;
  equity_cache : gmap ObjectID (Z * Z);
  log : list Event;
  world : W;
}.
Arguments mkKeeper {W} _ _ _ _ _ _ _ _ _.
Arguments descriptor_cache {W} _.
Arguments mark_refreshed_at {W} _.
Arguments crank_backoff {W} _.
Arguments capital_watch {W} _.
Arguments settlement_watch {W} _.
Arguments settled_done {W} _.
Arguments equity_cache {W} _.
Arguments log {W} _.
Arguments world {W} _.

#[export] Instance Keeper_fields W : Fields (Keeper W) := λ s,
  mkKeeper (descriptor_cache s) (mark_refreshed_at s) (crank_backoff s) (capital_watch s) (settlement_watch s)
    (settled_done s) (equity_cache s) (log s) (world s).

Definition CRANK_BACKOFF_BASE_MS : Z := 15000.
Definition CRANK_BACKOFF_CAP_MS : Z := 600000.
Definition ACCRUAL_CAP_MS : Z := 63072000000.
Definition SETTLEMENT_MISSING_ALERT_MS : Z := 3600000.
Definition DESCRIPTOR_TTL_MS : Z := 30000.
Definition MAX_MIXED_RUN : Z := 25.

Section keeper.
Context {W : Type} `{VaultNode W, FieldSdk, SuiSdk, HexCrate}.
Variable ctx : TradingVaultCtx.

Abbreviation task := (prog (Keeper W)).


(** An action of the world. *)
Definition outside {A} (f : W → W * A) : task A :=
  act (λ s : Keeper W, let '(w, a) := f (world s) in (s <| world := w |>, a)).

Definition emit (e : Event) : task unit := modify (λ s : Keeper W, s <| log ::= λ l, l ++ [e] |>).

Definition alert (alert_id : string) (about : ObjectID) : task unit := emit (Alert alert_id about).

Definition submit_ptb (label : string) (tx : Tx) : task (result Error unit) :=
  prog_bind (λ r, prog_bind (λ _, Ret r) (emit (Submitted label tx r))) (outside (submit label tx)).

(** [pt.obj(shared_object_arg(client, id, mutable).await?)?] *)
Definition shared_obj (id : ObjectID) (mutable : bool) : task (result Error Arg) :=
  _ ←? outside (fetch_shared id mutable); Ret (Ok (Shared id mutable)).

Definition type_tag (t : rstring) : result Error rstring := if type_tag_ok t then Ok t else Err (error (str "type tag " ++ t)).

Fixpoint type_tags (l : list rstring) : result Error (list rstring) :=
  match l with
  | [] => Ok []
  | t :: l' =>
      match type_tag t, type_tags l' with
      | Ok t, Ok l' => Ok (t :: l')
      | Err e, _ | _, Err e => Err e
      end
  end.

(** [collect::<Result<Vec<_>>>()] of actions, in order. *)
Fixpoint try_each {A B} (l : list A) (f : A → task (result Error B)) : task (result Error (list B)) :=
  match l with
  | [] => Ret (Ok [])
  | a :: l' => b ←? f a; bs ←? try_each l' f; Ret (Ok (b :: bs))
  end.

(** * Reading objects *)

Definition at_ (path : list string) (v : Value) : option Value := pointer (str <$> path) v.

(** A string of digits, or a number. *)
Definition as_u64 (v : Value) : option Z :=
  match (s ← as_str v; match parse_u64 s with Ok n => Some n | Err _ => None end) with
  | Some n => Some n
  | None => Json.as_u64 v
  end.

Definition field_text (path : list string) : rstring := concat ((λ k, str "/" ++ str k) <$> path).

Definition json_field (id : ObjectID) (path : list string) : task (result Error Value) :=
  json ←? outside (get_object_json id);
  Ret match json with
      | None => Err (error (str "object " ++ address_text id ++ str " missing content"))
      | Some v => ok_or (at_ path v) (error (str "object " ++ address_text id ++ str " missing " ++ field_text path))
      end.

(** The number of a field; [unreadable] is the error where it is none. *)
Definition json_u64 (id : ObjectID) (path : list string) (unreadable : rstring) : task (result Error Z) :=
  v ←? json_field id path; Ret (ok_or (as_u64 v) (error unreadable)).

Definition object_type_of (id : ObjectID) : task (result Error rstring) :=
  t ←? outside (get_object_type id); Ret (ok_or t (error (str "object " ++ address_text id ++ str " missing type"))).

(** * The vault *)

Record LaneView := mkLane { head : Z; tail : Z; entries_table : ObjectID }.

Record VaultView := mkView {
  closed : bool;
  settled : bool;
  tranched : bool;
  risk_state : Z;
  reset_proposed : bool;
  commitment_breached : bool;
  last_accrual_ms : Z;
  active_junior_generation : Z;
  unwind_grace_ms : Z;
  requests_table : ObjectID;
  senior : LaneView;
  junior : LaneView;
}.

Definition lane_table_id (v : Value) (path : list string) : result Error ObjectID :=
  ok_or (x ← at_ path v; s ← as_str x; object_id_from_hex_literal s)
    (error (str "vault table id at " ++ field_text path ++ str " unreadable")).

Definition variant (v : Value) (path : list string) : option rstring :=
  x ← at_ path v; t ← get x (str "@variant"); as_str t.

Definition vault_num (v : Value) (path : list string) : result Error Z :=
  match at_ path v with
  | None => Err (error (str "vault missing " ++ field_text path))
  | Some x => ok_or (as_u64 x) (error (str "vault " ++ field_text path ++ str " unreadable"))
  end.

(** Present and not null. *)
Definition present (v : Value) (path : list string) : bool :=
  match at_ path v with None | Some JNull => false | Some _ => true end.

Definition result_bind {E A B} (r : result E A) (f : A → result E B) : result E B :=
  match r with Ok a => f a | Err e => Err e end.

Notation "x ←! r ; q" := (result_bind r (λ x, q)) (at level 20, r at level 100, q at level 200, right associativity).

Definition lane_view (v : Value) (name : string) : result Error LaneView :=
  head ←! vault_num v [name; "head"%string];
  tail ←! vault_num v [name; "tail"%string];
  entries ←! lane_table_id v [name; "entries"%string; "id"%string];
  Ok (mkLane head tail entries).

Definition risk_code (s : rstring) : option Z :=
  if bool_decide (s = str "Healthy") then Some 0 else if bool_decide (s = str "CoverageBreach") then Some 1
  else if bool_decide (s = str "Impaired") then Some 2 else if bool_decide (s = str "ResetPending") then Some 3 else None.

Definition parse_vault (vault_id : ObjectID) (v : Value) : result Error VaultView :=
  name ←! ok_or (variant v ["book"; "risk_state"]%string)
    (error (str "vault " ++ address_text vault_id ++ str " book.risk_state unreadable"));
  risk ←! ok_or (risk_code name) (error (str "unknown risk state " ++ [34] ++ name ++ [34]));
  last_accrual ←! vault_num v ["book"; "last_accrual_ms"]%string;
  generation ←! vault_num v ["book"; "active_junior_generation"]%string;
  grace ←! vault_num v ["config"; "unwind_grace_ms"]%string;
  requests ←! lane_table_id v ["requests"; "id"]%string;
  senior ←! lane_view v "senior_lane";
  junior ←! lane_view v "junior_lane";
  Ok (mkView (bool_decide (variant v ["state"%string] = Some (str "Closed"))) (present v ["settlement"%string])
    (bool_decide (variant v ["capital"%string] = Some (str "SeniorJunior"))) risk
    (present v ["book"; "reset_proposal"]%string)
    (default false (x ← at_ ["curator_commitment_breached"%string] v; as_bool x))
    last_accrual generation grace requests senior junior).

Definition vault_view (vault_id : ObjectID) : task (result Error VaultView) :=
  json ←? outside (get_object_json vault_id);
  Ret match json with
      | None => Err (error (str "vault " ++ address_text vault_id ++ str " has no parsed content"))
      | Some v => parse_vault vault_id v
      end.

(** * The queue *)

Record QueueEntry := mkEntry { global_seq : Z; lane : Z; payout : rstring; requested_at_ms : Z; wiped : bool }.

Definition table_entry_json (table : ObjectID) (key : Z) : task (result Error (option Value)) :=
  field_id ←? Ret (map_err (context "deriving table entry field id") (derive_dynamic_field_id table (str "u64") (bcs_u64 key)));
  prog_bind (λ r, Ret match r with
    | Ok o => Ok (default None o)
    | Err e => Err ((str "reading table entry " ++ u64_to_string key) :: e)
    end) (outside (try_get_object_json field_id)).

Definition queue_missing (seq : Z) (field : string) : Error :=
  error (str "queue request " ++ u64_to_string seq ++ str " missing " ++ str field).

(** A request as the table holds it. *)
Definition parse_request (view : VaultView) (lane_code seq : Z) (req : Value) : result Error QueueEntry :=
  payout ←! ok_or (v ← at_ ["value"; "payout_asset"]%string req;
    match as_str v with Some s => Some s | None => x ← at_ ["name"%string] v; as_str x end) (queue_missing seq "payout_asset");
  requested ←! ok_or (v ← at_ ["value"; "requested_at_ms"]%string req; as_u64 v) (queue_missing seq "requested_at_ms");
  let junior := bool_decide (variant req ["value"; "tranche"]%string = Some (str "Junior")) in
  let generation := default 0 (v ← at_ ["value"; "capital_generation"]%string req; as_u64 v) in
  Ok (mkEntry seq lane_code (canonicalize_move_type payout) requested (junior && (generation <? active_junior_generation view))).

(** The entry of a lane at [idx]; [None] for a gap. *)
Definition read_entry (view : VaultView) (lane_code : Z) (l : LaneView) (idx : Z) : task (result Error (option QueueEntry)) :=
  j ←? table_entry_json (entries_table l) idx;
  match (j ← j; v ← at_ ["value"%string] j; as_u64 v) with
  | None => Ret (Ok None)
  | Some seq =>
      req ←? table_entry_json (requests_table view) seq;
      match req with
      | None => Ret (Ok None)
      | Some req => Ret (e ←! parse_request view lane_code seq req; Ok (Some e))
      end
  end.

(** The indexes of a lane that are read, [head..tail.min(head + max)]. *)
Definition window (max : Z) (l : LaneView) : list Z := seqZ (head l) (Z.min (tail l) (u64_add (head l) max) - head l).

Definition read_lane (view : VaultView) (max lane_code : Z) (l : LaneView) : task (result Error (list QueueEntry)) :=
  es ←? try_each (window max l) (read_entry view lane_code l); Ret (Ok (omap id es)).

Definition queue_run (view : VaultView) (max : Z) : task (result Error (list QueueEntry)) :=
  s ←? read_lane view max 0 (senior view);
  j ←? read_lane view max 1 (junior view);
  Ret (Ok (take (Z.to_nat max) (sort_by (λ a b, global_seq a <=? global_seq b) (s ++ j)))).

(** * Monitors *)

Definition when (b : bool) (p : task unit) : task unit := if b then p else Ret tt.

Definition risk_alert (vault_id : ObjectID) (risk : Z) : task unit :=
  if risk =? 1 then alert "tv-coverage-breach" vault_id else if risk =? 2 then alert "tv-impaired" vault_id else Ret tt.

Definition accrual_late (view : VaultView) (now_ms : Z) : bool :=
  tranched view && (ACCRUAL_CAP_MS / 100 <? u64_saturating_sub now_ms (last_accrual_ms view)).

Definition monitor_capital (vault_id : ObjectID) (view : VaultView) (now_ms : Z) : task unit :=
  prog_bind (λ prev,
    prog_bind (λ _,
    prog_bind (λ _,
    prog_bind (λ _,
    prog_bind (λ _,
      modify (λ s : Keeper W, s <| capital_watch ::= <[vault_id := mkCapitalWatch (risk_state view) (reset_proposed view)
        (commitment_breached view) (accrual_late view now_ms)]> |>))
      (when (accrual_late view now_ms && negb (accrual_alerted prev)) (alert "tv-accrual-cadence" vault_id)))
      (when (commitment_breached view && negb (cw_commitment_breached prev)) (alert "tv-commitment-breach" vault_id)))
      (when (reset_proposed view && negb (cw_reset_proposed prev)) (alert "tv-reset-proposed" vault_id)))
      (when (negb (risk_state view =? cw_risk_state prev)) (risk_alert vault_id (risk_state view))))
    (read (λ s, default CapitalWatch_default (capital_watch s !! vault_id))).

Definition abs_diff (a b : Z) : Z := Z.abs (a - b).

Definition diverges (ext : ExternalView) : bool :=
  match equity ext with
  | None => false
  | Some eq => u128_mul (exposure ext) (reconciliation_tolerance_bps ctx) <? u128_mul (abs_diff eq (exposure ext)) 10000
  end.

Definition mark_stale (ext : ExternalView) (now_ms : Z) : bool :=
  match equity_updated_at_ms ext with
  | Some t => equity_stale_alert_ms ctx <? u64_saturating_sub now_ms t
  | None => true
  end.

Definition monitor_external (vault_id : ObjectID) (ext : ExternalView) (now_ms : Z) : task unit :=
  prog_bind (λ _,
    when ((0 <? exposure ext) && (negb (bool_decide (is_Some (equity ext))) || mark_stale ext now_ms))
      (alert "hedge-reconciliation" vault_id))
    (when (diverges ext) (alert "hedge-reconciliation" vault_id)).

(** * Errors of a crank *)

(** [", {code})"], as an abort is rendered. *)
Definition abort_text (code : Z) : rstring := str ", " ++ u64_to_string code ++ str ")".

Definition APPRAISAL_INCOMPLETE : Z := 82.
Definition APPRAISAL_MISMATCH : Z := 83.
Definition INSUFFICIENT_BALANCE : Z := 78.
Definition POSITION_MISSING : Z := 86.
Definition RISK_OFF : Z := 124.
Definition QUEUE_SETTLED : Z := 136.

(** A race that was lost. *)
Definition benign (msg : rstring) : bool :=
  let abort code := contains (abort_text code) msg in
  let about s := contains (str s) msg in
  existsb abort [APPRAISAL_INCOMPLETE; APPRAISAL_MISMATCH; INSUFFICIENT_BALANCE] ||
  (about "deadline" || about "not expired") ||
  (about "vault" && (abort RISK_OFF || abort QUEUE_SETTLED)) ||
  (about "equity_oracle" && about ", 3)") ||
  (about "vol_book" && about ", 3)") ||
  ((about "options_adapter" && about ", 10)") || (about "vault" && abort POSITION_MISSING) ||
   about "not available for consumption").

Definition classify_and_log (vault_id : ObjectID) (e : Error) : task bool :=
  if benign (full_text e) then Ret true else prog_bind (λ _, Ret false) (alert "tx-failed-keeper" vault_id).

(** The end of a crank: an error is classified and goes no further. *)
Definition contained (about : ObjectID) (p : task (result Error unit)) : task unit :=
  prog_bind (λ r, match r with Ok _ => Ret tt | Err e => prog_bind (λ _, Ret tt) (classify_and_log about e) end) p.

(** * Volatilities *)

(** [x.round() as u64]: to the nearest integer, halves away from zero; a
    negative number gives 0, a large one the maximum. *)
Definition round_to_u64 (x : f64) : Z :=
  match x with
  | S754_finite false m e =>
      if 0 <=? e then Z.min (Z.shiftl (Z.pos m) e) u64_max
      else Z.min ((Z.pos m + 2 ^ (- e - 1)) / 2 ^ (- e)) u64_max
  | S754_infinity false => u64_max
  | _ => 0
  end.

Definition is_finite (x : f64) : bool := match x with S754_zero _ | S754_finite _ _ _ => true | _ => false end.

Definition vol_book_meta (book_id : ObjectID) : task (result Error (Z * Z * ObjectID)) :=
  min_interval ←? json_u64 book_id ["min_interval_ms"%string] (str "VolBook min_interval_ms unreadable");
  max_delta ←? json_u64 book_id ["max_delta_bps"%string] (str "VolBook max_delta_bps unreadable");
  table ←? json_field book_id ["entries"; "id"]%string;
  Ret (match (s ← as_str table; object_id_from_hex_literal s) with
       | Some table => Ok (min_interval, max_delta, table)
       | None => Err (error (str "VolBook entries table id unreadable"))
       end).

Definition vol_num (json : Value) (path : list string) : result Error Z :=
  match at_ path json with
  | None => Err (error (str "VolBook entry missing " ++ field_text path))
  | Some x => ok_or (as_u64 x) (error (str "VolBook entry " ++ field_text path ++ str " unreadable"))
  end.

Definition vol_entry (entries : ObjectID) (canonical_type : rstring) : task (result Error (option (Z * Z))) :=
  field_id ←? Ret (map_err (context "deriving VolBook entry field id")
    (derive_dynamic_field_id entries (str "0x1::type_name::TypeName") (bcs_string (trim_0x (length canonical_type) canonical_type))));
  o ←? with_context "reading VolBook entry" (outside (try_get_object_json field_id));
  match o with
  | None => Ret (Ok None)
  | Some None => Ret (Err (error (str "VolBook entry has no readable content")))
  | Some (Some json) =>
      Ret (vol ←! vol_num json ["value"; "vol_bps"]%string;
           updated ←! vol_num json ["value"; "updated_at_ms"]%string;
           Ok (Some (vol, updated)))
  end.

(** The step of one underlying, when one is due. *)
Definition vol_step (book : Z * Z * ObjectID) (now_ms : Z) (feed : FeedId) (entry : option (Z * Z))
    : task (result Error (option Z)) :=
  let '(min_interval, max_delta, _) := book in
  match entry with
  | None => Ret (Ok None)
  | Some (previous, updated_at) =>
      if previous =? 0 then Ret (Ok None) else
      if u64_saturating_sub now_ms updated_at <? min_interval then Ret (Ok None) else
      prog_bind (λ r, match r with
        | Err _ => Ret (Ok None)
        | Ok sigma =>
            if negb (is_finite sigma && f64_gt sigma f64_zero) then Ret (Ok None) else
            let clamped := clamp_step previous (round_to_u64 (f64_mul sigma (f64_of_u64 10000))) max_delta in
            Ret (Ok (if clamped =? previous then None else Some clamped))
        end) (outside (realized_vol feed (vol_window_days ctx)))
  end.

Definition post_vol_tx (adapter : ObjectID) (coin_type : rstring) (book : Arg) (clamped : Z) : Tx :=
  plain_tx [Call move_stdlib "type_name" "with_defining_ids" [coin_type] [];
            Call adapter "vol_book" "post_vol" [] [book; ResultOf 0; PureU64 clamped; clock]].

Definition post_vol (book_id : ObjectID) (meta : Z * Z * ObjectID) (now_ms : Z) (coin : rstring * FeedId)
    : task (result Error unit) :=
  let '(coin_type, feed) := coin in
  entry ←? vol_entry meta.2 coin_type;
  step ←? vol_step meta now_ms feed entry;
  match step with
  | None => Ret (Ok tt)
  | Some clamped =>
      book ←? shared_obj book_id true;
      tag ←? Ret (map_err (λ e, (str "parsing underlying type " ++ coin_type) :: e) (type_tag coin_type));
      adapter ←? Ret (ok_or (options_adapter_pkg ctx) (error (str "options_adapter package unresolved")));
      submit_ptb "vol_book::post_vol" (post_vol_tx adapter tag book clamped)
  end.

Definition post_vols (now_ms : Z) : task unit :=
  match vol_book_id ctx with
  | None => Ret tt
  | Some book_id =>
      if bool_decide (feeds ctx = []) then Ret tt else
      prog_bind (λ meta, match meta with
        | Err _ => Ret tt
        | Ok meta => for_each (feeds ctx) (λ coin, contained book_id (post_vol book_id meta now_ms coin))
        end) (vol_book_meta book_id)
  end.

(** * Settlements and redemptions *)

(** The splitting of type arguments at the commas of the outer level. *)
Fixpoint split_args (depth : Z) (cur : rstring) (s : rstring) : list rstring :=
  match s with
  | [] => if bool_decide (trim cur = []) then [] else [trim cur]
  | c :: s' =>
      if c =? 60 then split_args (u64_add depth 1) (cur ++ [c]) s'
      else if c =? 62 then split_args (u64_sub depth 1) (cur ++ [c]) s'
      else if (c =? 44) && (depth =? 0) then trim cur :: split_args depth [] s'
      else split_args depth (cur ++ [c]) s'
  end.

Definition bucket_type_args (bucket_ty : rstring) : result Error (list rstring) :=
  match ('(_, rest) ← split_once (str "<") bucket_ty; strip_suffix_char 62 rest) with
  | None => Err (error (str "unparseable bucket type " ++ bucket_ty))
  | Some inner => type_tags (split_args 0 [] inner)
  end.

(** Call and put, alive and dead. *)
Definition settle_function (is_put bucket_dead : bool) : string :=
  match is_put, bucket_dead with
  | false, false => "settle_call_rfq"
  | false, true => "settle_call_rfq_expired"
  | true, false => "settle_put_rfq"
  | true, true => "settle_put_rfq_expired"
  end.

Definition settle_ticket (oa vault_id id auction_id bucket_id : ObjectID) (is_put : bool) (now_ms : Z) : task (result Error unit) :=
  deadline ←? json_u64 auction_id ["deadline_ms"%string] (str "auction missing deadline");
  bucket_ty ←? object_type_of bucket_id;
  expiry ←? json_field bucket_id ["expiry_ms"%string];
  prog_bind (λ invalid,
    let invalidated := match invalid with Ok v => default false (as_bool v) | Err _ => false end in
    let bucket_dead := (default u64_max (as_u64 expiry) <=? now_ms) || invalidated in
    if (now_ms <? deadline) && negb bucket_dead then Ret (Ok tt) else
    tags ←? Ret (bucket_type_args bucket_ty);
    vault ←? shared_obj vault_id true;
    ireg ←? shared_obj (integration_registry_id ctx) false;
    auction ←? shared_obj auction_id true;
    rest ←?
      (if negb bucket_dead then
         bucket ←? shared_obj bucket_id true;
         cfg ←? shared_obj (core_protocol_config_id ctx) false;
         treasury ←? shared_obj (treasury_id ctx) true;
         Ret (Ok [bucket; cfg; treasury; clock])
       else bucket ←? shared_obj bucket_id false; Ret (Ok [bucket; clock]));
    submit_ptb "options_adapter::settle_rfq"
      (plain_tx [Call oa "options_adapter" (settle_function is_put bucket_dead) tags
        ([vault; ireg; PureId id; auction] ++ rest)]))
    (json_field bucket_id ["invalidated"%string]).

Definition settle_due_tickets (vault_id : ObjectID) (h : VaultHoldings) (now_ms : Z) : task unit :=
  match options_adapter_pkg ctx with
  | None => Ret tt
  | Some oa => for_each (positions h) (λ p,
      match p with
      | RfqTicket id _ auction_id bucket_id is_put =>
          contained vault_id (settle_ticket oa vault_id id auction_id bucket_id is_put now_ms)
      | _ => Ret tt
      end)
  end.

(** The payout at the address of a ticket: the win, and the refund; the last of
    each counts. *)
Definition payouts (escrow_type win_type : rstring) (escrow_amount win_amount : Z) (objects : list OwnedObject)
    : option ObjectID * option ObjectID :=
  foldl (λ acc obj,
    match oo_coin obj, oo_type obj, oo_type_params obj with
    | Some balance, Some _, inner :: _ =>
        let coin_type := canonicalize_move_type inner in
        if bool_decide (coin_type = win_type) && (win_amount <=? balance) then (Some (oo_ref obj), acc.2)
        else if bool_decide (coin_type = escrow_type) && (balance =? escrow_amount) then (acc.1, Some (oo_ref obj))
        else acc
    | _, _, _ => acc
    end) (None, None) objects.

Definition reclaim (oa id auction_id : ObjectID) (escrow_type : rstring) (vault ireg : Arg) (re : ObjectID)
    : task (result Error Cmd) :=
  prog_bind (λ ty, match ty with
    | Ok auction_ty =>
        auction ←? shared_obj auction_id false;
        tags ←? Ret (bucket_type_args auction_ty);
        Ret (Ok (Call oa "options_adapter" "reclaim_outbid_ticket" tags [vault; ireg; PureId id; auction; ReceivingArg re]))
    | Err _ =>
        tag ←? Ret (type_tag escrow_type);
        Ret (Ok (Call oa "options_adapter" "reclaim_refunded_ticket" [tag] [vault; ireg; PureId id; ReceivingArg re]))
    end) (object_type_of auction_id).

Definition burn_ticket (oa vault_id id : ObjectID) (escrow_type win_type : rstring) (auction_id : ObjectID)
    (escrow_amount win_amount : Z) : task (result Error unit) :=
  objects ←? with_context "listing bid-ticket-address objects" (outside (owned_objects id 20));
  let '(won, refunded) := payouts escrow_type win_type escrow_amount win_amount objects in
  match won, refunded with
  | None, None => Ret (Ok tt)
  | Some re, _ =>
      vault ←? shared_obj vault_id true;
      ireg ←? shared_obj (integration_registry_id ctx) false;
      tag ←? Ret (type_tag win_type);
      submit_ptb "options_adapter::redeem_won_ticket"
        (plain_tx [Call oa "options_adapter" "redeem_won_ticket" [tag] [vault; ireg; PureId id; ReceivingArg re]])
  | None, Some re =>
      vault ←? shared_obj vault_id true;
      ireg ←? shared_obj (integration_registry_id ctx) false;
      cmd ←? reclaim oa id auction_id escrow_type vault ireg re;
      submit_ptb "options_adapter::reclaim_bid_ticket" (plain_tx [cmd])
  end.

Definition crank_bid_tickets (vault_id : ObjectID) (h : VaultHoldings) : task unit :=
  match options_adapter_pkg ctx with
  | None => Ret tt
  | Some oa => for_each (positions h) (λ p,
      match p with
      | BidTicket id escrow win auction_id escrow_amount win_amount =>
          contained vault_id (burn_ticket oa vault_id id escrow win auction_id escrow_amount win_amount)
      | _ => Ret tt
      end)
  end.

Definition redeem_position (vault_id id bucket_id : ObjectID) (is_put : bool) (underlying settlement call_type : rstring)
    (via_vault_mm : bool) (now_ms : Z) : task (result Error unit) :=
  expiry ←? json_field bucket_id ["expiry_ms"%string];
  if now_ms <? default u64_max (as_u64 expiry) then Ret (Ok tt) else
  target ←? Ret (if via_vault_mm then Ok (trading_vault_pkg ctx, "vault_mm"%string)
    else match options_adapter_pkg ctx with
         | Some oa => Ok (oa, "options_adapter"%string)
         | None => Err (error (str "options adapter unavailable"))
         end);
  vault ←? shared_obj vault_id true;
  ireg ←? shared_obj (integration_registry_id ctx) false;
  bucket ←? shared_obj bucket_id true;
  tags ←? Ret (type_tags [underlying; settlement; call_type]);
  submit_ptb "trading_vault::redeem" (plain_tx [Call target.1 target.2
    (if is_put then "redeem_put_position" else "redeem_call_position") tags [vault; ireg; bucket; PureId id; clock]]).

Definition redeem_expired_positions (vault_id : ObjectID) (h : VaultHoldings) (now_ms : Z) : task unit :=
  for_each (positions h) (λ p,
    match p with
    | OptionPosition id bucket_id is_put underlying settlement call_type via =>
        contained vault_id (redeem_position vault_id id bucket_id is_put underlying settlement call_type via now_ms)
    | _ => Ret tt
    end).

(** * Sweeps *)

Abbreviation Pool := (ObjectID * rstring * rstring)%type.

(** One command for every pool. *)
Definition pool_command (dba : ObjectID) (function : string) (id : ObjectID) (vault ireg : Arg) (tail : list Arg) (pool : Pool)
    : task (result Error Cmd) :=
  let '(pool_id, base, quote) := pool in
  p ←? shared_obj pool_id true;
  tags ←? Ret (type_tags [base; quote]);
  Ret (Ok (Call dba "deepbook_adapter" function tags ([vault; ireg; PureId id; p] ++ tail))).

Definition build_sweep (dba vault_id id : ObjectID) (pools : list Pool) : task (result Error Tx) :=
  vault ←? shared_obj vault_id true;
  ireg ←? shared_obj (integration_registry_id ctx) false;
  cmds ←? try_each pools (pool_command dba "crank_withdraw_settled" id vault ireg []);
  Ret (Ok (plain_tx cmds)).

(** The transaction is tried for nothing first. *)
Definition sweep_custody (dba vault_id id : ObjectID) (pools : list Pool) : task (result Error unit) :=
  probe ←? build_sweep dba vault_id id pools;
  fails ←? outside (dev_inspect_fails probe);
  if fails : bool then Ret (Ok tt) else
  tx ←? build_sweep dba vault_id id pools;
  submit_ptb "deepbook_adapter::crank_settle" tx.

Definition sweep_custody_settled (vault_id : ObjectID) (h : VaultHoldings) : task unit :=
  match deepbook_adapter_pkg ctx with
  | None => Ret tt
  | Some dba => for_each (positions h) (λ p,
      match p with
      | DeepBookCustody id _ pools =>
          if bool_decide (pools = []) then Ret tt else contained vault_id (sweep_custody dba vault_id id pools)
      | _ => Ret tt
      end)
  end.

Definition position_type : rstring := address_text (core_pkg ctx) ++ str "::position::Position".

(** The coin type of a coin's type. *)
Definition coin_inner (t : rstring) : option rstring :=
  match strip_prefix (str "0x2::coin::Coin<") t with
  | Some inner => Some inner
  | None => snd <$> split_once (str "::coin::Coin<") t
  end.

(** What receives an object at the vault's address; [None] for what stays. *)
Definition receive_command (vault ireg : Arg) (obj : OwnedObject) : result Error (option Cmd) :=
  match oo_type obj with
  | None => Ok None
  | Some t =>
      if bool_decide (t = position_type)
      then Ok (Some (Call (trading_vault_pkg ctx) "vault_mm" "receive_mm_position" [] [vault; ireg; ReceivingArg (oo_ref obj)]))
      else match coin_inner t with
        | None => Ok None
        | Some inner =>
            let coin_type := canonicalize_move_type (default inner (strip_suffix_char 62 inner)) in
            tag ←! type_tag coin_type;
            let function := (if bool_decide (is_Some (assoc coin_type (feeds ctx))) || bool_decide (coin_type = [])
              then "receive_mm_coin" else "receive_mm_option_coin")%string in
            Ok (Some (Call (trading_vault_pkg ctx) "vault_mm" function [tag] [vault; ireg; ReceivingArg (oo_ref obj)]))
        end
  end.

(** (The receiving input of an object that stays is not used.) *)
Definition sweep_address (vault_id : ObjectID) : task (result Error unit) :=
  objects ←? with_context "listing vault-address objects" (outside (owned_objects vault_id 20));
  if bool_decide (length objects = 0%nat) then Ret (Ok tt) else
  vault ←? shared_obj vault_id true;
  ireg ←? shared_obj (integration_registry_id ctx) false;
  cmds ←? try_each objects (λ obj, Ret (receive_command vault ireg obj));
  if bool_decide (length (omap id cmds) = 0%nat) then Ret (Ok tt) else
  submit_ptb "vault_mm::sweep" (plain_tx (omap id cmds)).

Definition sweep_vault_address (vault_id : ObjectID) : task unit := contained vault_id (sweep_address vault_id).

(** * Starved queues *)

Definition starved (view : VaultView) (run : list QueueEntry) (now_ms : Z) : bool :=
  match run with
  | [] => false
  | oldest :: _ => unwind_grace_ms view <? u64_saturating_sub now_ms (requested_at_ms oldest)
  end.

Definition unwind_custody (dba vault_id id : ObjectID) (assets : list rstring) (pools : list Pool) (deposit : rstring)
    : task (result Error unit) :=
  vault ←? shared_obj vault_id true;
  ireg ←? shared_obj (integration_registry_id ctx) false;
  cancels ←? try_each pools (pool_command dba "force_cancel_all" id vault ireg [clock]);
  let sweep_types := if bool_decide (deposit ∈ assets) then assets else assets ++ [deposit] in
  sweeps ←? try_each sweep_types (λ asset, tag ←? Ret (type_tag asset);
    Ret (Ok (Call dba "deepbook_adapter" "force_sweep" [tag] [vault; ireg; PureId id; clock])));
  submit_ptb "deepbook_adapter::force_unwind" (plain_tx (cancels ++ sweeps)).

(** The first custody that fails ends the crank. *)
Fixpoint unwind_all (dba vault_id : ObjectID) (deposit : rstring) (ps : list PositionInfo) : task (result Error unit) :=
  match ps with
  | [] => Ret (Ok tt)
  | DeepBookCustody id assets pools :: ps' =>
      _ ←? unwind_custody dba vault_id id assets pools deposit; unwind_all dba vault_id deposit ps'
  | _ :: ps' => unwind_all dba vault_id deposit ps'
  end.

Definition force_unwind_if_starved (vault_id : ObjectID) (h : VaultHoldings) (view : VaultView) (run : list QueueEntry)
    (now_ms : Z) : task unit :=
  match deepbook_adapter_pkg ctx with
  | None => Ret tt
  | Some dba =>
      if starved view run now_ms then contained vault_id (unwind_all dba vault_id (deposit_type h) (positions h)) else Ret tt
  end.

(** * External accounts *)

Definition equity_book_params (book_id : ObjectID) : task (result Error (Z * Z)) :=
  min_interval ←? json_u64 book_id ["min_interval_ms"%string] (str "EquityBook min_interval_ms unreadable");
  max_delta ←? json_u64 book_id ["max_delta_bps"%string] (str "EquityBook max_delta_bps unreadable");
  Ret (Ok (min_interval, max_delta)).

(** The step towards [target], when one is due. *)
Definition equity_step (ext : ExternalView) (target min_interval max_delta now_ms : Z) : option Z :=
  let previous := default 0 (equity ext) in
  if u64_saturating_sub now_ms (default 0 (equity_updated_at_ms ext)) <? min_interval then None else
  let clamped := clamp_step previous target max_delta in
  if clamped =? previous then None else Some clamped.

Definition post_equity_step (vault_id : ObjectID) (ext : ExternalView) (target : Z) (book_params : option (Z * Z)) (now_ms : Z)
    : task (result Error unit) :=
  match equity_oracle_pkg ctx, equity_book_id ctx with
  | Some pkg, Some book_id =>
      match book_params with
      | None => Ret (Ok tt)
      | Some (min_interval, max_delta) =>
          match equity_step ext target min_interval max_delta now_ms with
          | None => Ret (Ok tt)
          | Some clamped =>
              book ←? shared_obj book_id true;
              submit_ptb "equity_oracle::post_equity"
                (plain_tx [Call pkg "equity_oracle" "post_equity" [] [book; PureId vault_id; PureU64 clamped; clock]])
          end
      end
  | _, _ => Ret (Ok tt)
  end.

Definition post_external_equity (vault_id : ObjectID) (ext : ExternalView) (book_params : option (Z * Z)) (now_ms : Z) : task unit :=
  prog_bind (λ now,
    prog_bind (λ cache,
      match equity_for (equity_source ctx) cache now vault_id (ev_account ext) with
      | None => Ret tt
      | Some target => contained vault_id (post_equity_step vault_id ext target book_params now_ms)
      end) (read equity_cache)) (outside clock_ms).

Definition equity_book_has_entry (pkg book_id vault_id : ObjectID) : task (result Error bool) :=
  book ←? shared_obj book_id false;
  r ←? with_context "devInspect equity_oracle::has_entry"
    (outside (dev_inspect_bool (plain_tx [Call pkg "equity_oracle" "has_entry" [] [book; PureId vault_id]])));
  Ret (map_err (context "decoding has_entry bool return") r).

Definition init_entry (pkg book_id vault_id : ObjectID) : task (result Error unit) :=
  has ←? equity_book_has_entry pkg book_id vault_id;
  if has : bool then Ret (Ok tt) else
  vault ←? shared_obj vault_id false;
  book ←? shared_obj book_id true;
  submit_ptb "equity_oracle::init_entry" (plain_tx [Call pkg "equity_oracle" "init_entry" [] [vault; book; clock]]).

Definition init_external_entry (vault_id : ObjectID) (h : VaultHoldings) : task unit :=
  if 0 <? external_exposure h then Ret tt else
  match equity_oracle_pkg ctx, equity_book_id ctx with
  | Some pkg, Some book_id =>
      let expected := canonicalize_move_type (address_text pkg ++ str "::equity_oracle::EquityOracle") in
      if negb (bool_decide (external_equity_oracle h = Some expected)) then Ret tt else
      prog_bind (λ r, match r with
        | Ok _ => Ret tt
        | Err e =>
            if contains (str "MoveAbort") (full_text e) then Ret tt
            else prog_bind (λ _, Ret tt) (classify_and_log vault_id e)
        end) (init_entry pkg book_id vault_id)
  | _, _ => Ret tt
  end.

(** The polling task of a venue: one round over its accounts. *)
Definition poll_venue (accounts : list (ObjectID * BluefinVenueAccount)) : task unit :=
  for_each accounts (λ '(vault, acct),
    prog_bind (λ r,
      match (v ←! r; equity_from_account v (asset_decimals acct)) with
      | Ok e => prog_bind (λ now, modify (λ s : Keeper W, s <| equity_cache ::= <[vault := (e, now)]> |>)) (outside clock_ms)
      | Err _ => Ret tt
      end) (outside (fetch_equity acct))).

(** * Appraisals *)

Definition live_descriptor : task (result Error OracleProvider) :=
  prog_bind (λ now,
    prog_bind (λ cached : option (Z * OracleProvider),
      let fetch :=
        d ←? with_context "fetching /oracle/descriptor" (outside descriptor);
        prog_bind (λ now, prog_bind (λ _, Ret (Ok d))
          (modify (λ s : Keeper W, s <| descriptor_cache := Some (now, d) |>))) (outside clock_ms) in
      match cached with
      | Some (at_, d) => if now - at_ <? DESCRIPTOR_TTL_MS then Ret (Ok d) else fetch
      | None => fetch
      end) (read descriptor_cache)) (outside clock_ms).

(** [discovery.rs]: the price object of a feed. *)
Definition price_info_object_for (table : PriceInfoTable) (feed : FeedId) : task (result Error ObjectID) :=
  field_id ←? Ret (map_err (context "deriving price info field id")
    (derive_dynamic_field_id (table_id table) (identifier_type table) (bcs_bytes feed)));
  o ←? with_context "looking up price info object" (outside (try_get_object_json field_id));
  match default None o with
  | None => Ret (Err (error (str "feed has no PriceInfoObject on this network")))
  | Some fields =>
      Ret (match (v ← get fields (str "value"); as_str v) with
           | None => Err (error (str "price info field has no value"))
           | Some id => ok_or (object_id_parse id) (error (str "parsing PriceInfoObject id"))
           end)
  end.

(** The feeds and price objects of the assets that have a feed. *)
Fixpoint pyth_legs (table : PriceInfoTable) (types : list rstring) (fs : list FeedId) (infos : list (rstring * ObjectID))
    : task (result Error (list FeedId * list (rstring * ObjectID))) :=
  match types with
  | [] => Ret (Ok (fs, infos))
  | t :: types' =>
      match assoc t (feeds ctx) with
      | None => pyth_legs table types' fs infos
      | Some feed =>
          info ←? price_info_object_for table feed;
          pyth_legs table types' (if bool_decide (feed ∈ fs) then fs else fs ++ [feed]) (infos ++ [(t, info)])
      end
  end.

(** The assets an attestation has been composed for. *)
Definition compose_full_appraisal (vault_id : ObjectID) (h : VaultHoldings) (option_buckets : gmap rstring OptionBucketInfo)
    : task (result Error (gset rstring)) :=
  let needed := price_assets_needed h option_buckets in
  if bool_decide (needed = ∅) then outside (composed vault_id h option_buckets NoLegs) else
  provider ←? live_descriptor;
  match provider with
  | Switchboard => outside (composed vault_id h option_buckets SwitchboardLegs)
  | Pyth =>
      table ←? Ret (ok_or (price_table ctx) (error (str "price table unresolved - cannot appraise multi-asset vault")));
      legs ←? pyth_legs table (in_order needed ++ [deposit_type h]) [] [];
      payloads ←? with_context "fetching hermes update" (outside (hermes_update legs.1));
      update ←? Ret (ok_or (List.hd_error payloads) (error (str "hermes returned no update payloads")));
      outside (composed vault_id h option_buckets (PythLegs legs.2 legs.1 update))
  end.

(** A transaction that consumes the appraisal of its vault. *)
Definition appraised (vault_id : ObjectID) (cmds : list Cmd) : Tx := mkTransaction (Some vault_id) cmds.

Definition vault_call (function : string) (tags : list rstring) (args : list Arg) : Cmd :=
  Call (trading_vault_pkg ctx) "vault" function tags args.

(** [parsing deposit type]. *)
Definition deposit_tag (h : VaultHoldings) : result Error (list rstring) :=
  tag ←! map_err (λ e, (str "parsing deposit type " ++ deposit_type h) :: e) (type_tag (deposit_type h)); Ok [tag].

Definition build_fulfill_withdrawals (vault_id : ObjectID) (h : VaultHoldings) : task (result Error (list Cmd)) :=
  vault ←? shared_obj vault_id true;
  cfg ←? shared_obj (protocol_config_id ctx) false;
  treasury ←? shared_obj (treasury_id ctx) true;
  tags ←? Ret (deposit_tag h);
  Ret (Ok [vault_call "fulfill_withdrawals" tags [vault; cfg; treasury; Appraisal; clock]]).

Definition build_capital_call (function : string) (vault_id : ObjectID) : task (result Error (list Cmd)) :=
  vault ←? shared_obj vault_id true;
  cfg ←? shared_obj (protocol_config_id ctx) false;
  Ret (Ok [vault_call function [] [vault; cfg; Appraisal; clock]]).

Definition attestation_type : rstring := address_text (trading_vault_pkg ctx) ++ str "::price::PriceAttestation".

(** [fulfill_next] for every request of the plan. *)
Definition fulfill_nexts (vault cfg treasury f : Arg) (plan : list (rstring * nat)) : list Cmd :=
  concat ((λ x : rstring * nat, replicate x.2 (vault_call "fulfill_next" [x.1] [vault; cfg; treasury; f; clock])) <$> plan).

Definition build_fulfill_mixed (vault_id : ObjectID) (atts : list Arg) (plan : list (rstring * nat))
    : task (result Error (list Cmd)) :=
  vault ←? shared_obj vault_id true;
  cfg ←? shared_obj (protocol_config_id ctx) false;
  treasury ←? shared_obj (treasury_id ctx) true;
  tag ←? Ret (map_err (context "attestation type tag") (type_tag attestation_type));
  _ ←? Ret (type_tags (fst <$> plan));
  Ret (Ok ([MakeVec tag atts; vault_call "begin_fulfillment" [] [vault; cfg; Appraisal; ResultOf 0; clock]] ++
    fulfill_nexts vault cfg treasury (ResultOf 1) plan ++ [vault_call "end_fulfillment" [] [vault; ResultOf 1]])).

Definition build_settle_queued_request (vault_id : ObjectID) (h : VaultHoldings) (e : QueueEntry) : task (result Error Cmd) :=
  vault ←? shared_obj vault_id true;
  cfg ←? shared_obj (protocol_config_id ctx) false;
  treasury ←? shared_obj (treasury_id ctx) true;
  tags ←? Ret (deposit_tag h);
  Ret (Ok (vault_call "settle_queued_request" tags [vault; cfg; treasury; PureU64 (global_seq e)])).

(** * Fulfillment *)

(** Heads of the junior lane cannot be paid while the vault is at risk. *)
Definition payable (view : VaultView) (run : list QueueEntry) : list QueueEntry :=
  List.filter (λ e, negb (negb (risk_state view =? 0) && (lane e =? 1))) run.

Definition aged (view : VaultView) (now_ms requested_at : Z) : bool :=
  u64_saturating_add requested_at (unwind_grace_ms view) <? now_ms.

(** The asset a request is paid in; [None] for one the vault does not hold. *)
Definition paid_in (h : VaultHoldings) (view : VaultView) (now_ms : Z) (e : QueueEntry) : option rstring :=
  if wiped e || bool_decide (payout e = deposit_type h) ||
     (aged view now_ms (requested_at_ms e) && negb (bool_decide (payout e ∈ free_assets h)))
  then Some (deposit_type h)
  else if bool_decide (payout e ∈ free_assets h) then Some (payout e) else None.

(** [plan.last_mut()]: one more of the last asset, or a new one. *)
Definition extend_plan (plan : list (rstring * nat)) (p : rstring) : list (rstring * nat) :=
  match last plan with
  | Some (ty, count) => if bool_decide (ty = p) then removelast plan ++ [(ty, S count)] else plan ++ [(p, 1%nat)]
  | None => [(p, 1%nat)]
  end.

(** The loop over the payable requests, up to the first that is unheld. *)
Fixpoint plan_loop (h : VaultHoldings) (view : VaultView) (now_ms : Z) (es : list QueueEntry)
    (plan : list (rstring * nat)) (non_accounting : gset rstring) : list (rstring * nat) * gset rstring :=
  match es with
  | [] => (plan, non_accounting)
  | e :: es' =>
      match paid_in h view now_ms e with
      | None => (plan, non_accounting)
      | Some p =>
          plan_loop h view now_ms es' (extend_plan plan p)
            (if bool_decide (p = deposit_type h) then non_accounting else {[p]} ∪ non_accounting)
      end
  end.

(** The attestations of the assets, each of which must have been composed. *)
Fixpoint attestations (have : gset rstring) (assets : list rstring) : result Error (list Arg) :=
  match assets with
  | [] => Ok []
  | t :: assets' =>
      if bool_decide (t ∈ have) then (rest ←! attestations have assets'; Ok (Attestation t :: rest))
      else Err (error (str "no attestation composed for payout asset " ++ t))
  end.

Definition accounting_payable (h : VaultHoldings) (view : VaultView) (now_ms : Z) (head : QueueEntry) : bool :=
  wiped head || bool_decide (payout head = deposit_type h) || aged view now_ms (requested_at_ms head).

Definition fulfill (vault_id : ObjectID) (h : VaultHoldings) (option_buckets : gmap rstring OptionBucketInfo)
    (view : VaultView) (run : list QueueEntry) (now_ms : Z) : task (result Error unit) :=
  let heads := payable view run in
  match heads with
  | [] => Ret (Ok tt)
  | head :: _ =>
      if accounting_payable h view now_ms head then
        _ ←? compose_full_appraisal vault_id h option_buckets;
        cmds ←? build_fulfill_withdrawals vault_id h;
        submit_ptb "trading_vault::fulfill_withdrawals" (appraised vault_id cmds)
      else
        let '(plan, non_accounting) := plan_loop h view now_ms heads [] ∅ in
        if bool_decide (plan = []) then Ret (Ok tt) else
        have ←? compose_full_appraisal vault_id h option_buckets;
        atts ←? Ret (attestations have (in_order non_accounting));
        cmds ←? build_fulfill_mixed vault_id atts plan;
        submit_ptb "trading_vault::fulfill_mixed" (appraised vault_id cmds)
  end.

Definition crank_capital_pass (vault_id : ObjectID) (h : VaultHoldings) (option_buckets : gmap rstring OptionBucketInfo)
    : task (result Error unit) :=
  _ ←? compose_full_appraisal vault_id h option_buckets;
  cmds ←? build_capital_call "crank_capital" vault_id;
  submit_ptb "trading_vault::crank_capital" (appraised vault_id cmds).

(** * Closed vaults *)

Definition forget_settlement (vault_id : ObjectID) : task unit :=
  modify (λ s : Keeper W, s <| settlement_watch ::= delete vault_id |>).

(** The time a closed vault is first seen unsettled, and the alert after an hour. *)
Definition watch_settlement (vault_id : ObjectID) (now_ms : Z) : task unit :=
  prog_bind (λ w : option (Z * bool),
    let '(since, alerted) := default (now_ms, false) w in
    prog_bind (λ _,
      when (negb alerted && (SETTLEMENT_MISSING_ALERT_MS <? u64_saturating_sub now_ms since))
        (prog_bind (λ _, modify (λ s : Keeper W, s <| settlement_watch ::= <[vault_id := (since, true)]> |>))
          (alert "tv-settlement-missing" vault_id)))
      (modify (λ s : Keeper W, s <| settlement_watch ::= <[vault_id := (since, alerted)]> |>)))
    (read (λ s, settlement_watch s !! vault_id)).

Definition snapshot (vault_id : ObjectID) (h : VaultHoldings) (option_buckets : gmap rstring OptionBucketInfo)
    : task (result Error unit) :=
  _ ←? compose_full_appraisal vault_id h option_buckets;
  cmds ←? build_capital_call "snapshot_settlement" vault_id;
  _ ←? submit_ptb "trading_vault::snapshot_settlement" (appraised vault_id cmds);
  prog_bind (λ _, Ret (Ok tt)) (forget_settlement vault_id).

Definition terminal_settlement (vault_id : ObjectID) (h : VaultHoldings) (option_buckets : gmap rstring OptionBucketInfo)
    (view : VaultView) (now_ms : Z) : task (result Error unit) :=
  if negb (settled view) then prog_bind (λ _, snapshot vault_id h option_buckets) (watch_settlement vault_id now_ms) else
  prog_bind (λ _,
    run ←? queue_run view MAX_MIXED_RUN;
    if bool_decide (length run = 0%nat)
    then prog_bind (λ _, Ret (Ok tt)) (modify (λ s : Keeper W, s <| settled_done ::= λ d, {[vault_id]} ∪ d |>))
    else
      cmds ←? try_each run (build_settle_queued_request vault_id h);
      submit_ptb "trading_vault::settle_queued_request" (plain_tx cmds))
    (forget_settlement vault_id).

(** * The tick *)

Definition mark_refresh_due (vault_id : ObjectID) (now_ms : Z) (s : Keeper W) : bool :=
  mark_refresh_interval_ms ctx <=? u64_saturating_sub now_ms (default 0 (mark_refreshed_at s !! vault_id)).

(** Fulfillment, or the refresh of the capital when nothing can be fulfilled. *)
Definition drain_or_refresh (vault_id : ObjectID) (h : VaultHoldings) (option_buckets : gmap rstring OptionBucketInfo)
    (view : VaultView) (run : list QueueEntry) (now_ms : Z) : task (result Error unit) :=
  if negb (bool_decide (length (payable view run) = 0%nat)) then
    h' ←? outside (discover_holdings vault_id);
    fulfill vault_id h' option_buckets view run now_ms
  else if tranched view || negb (is_cash_only h) then
    prog_bind (λ due : bool,
      if due then
        h' ←? outside (discover_holdings vault_id);
        if tranched view || negb (is_cash_only h') then
          _ ←? crank_capital_pass vault_id h' option_buckets;
          prog_bind (λ _, Ret (Ok tt)) (modify (λ s : Keeper W, s <| mark_refreshed_at ::= <[vault_id := now_ms]> |>))
        else Ret (Ok tt)
      else Ret (Ok tt)) (read (mark_refresh_due vault_id now_ms))
  else Ret (Ok tt).

Definition open_vault (vault_id : ObjectID) (option_buckets : gmap rstring OptionBucketInfo) (external : option ExternalView)
    (book_params : option (Z * Z)) (h : VaultHoldings) (view : VaultView) (now_ms : Z) : task (result Error unit) :=
  prog_bind (λ _, prog_bind (λ _, prog_bind (λ _, prog_bind (λ _, prog_bind (λ _, prog_bind (λ _,
    run ←? queue_run view MAX_MIXED_RUN;
    prog_bind (λ _, prog_bind (λ _, prog_bind (λ _,
      drain_or_refresh vault_id h option_buckets view run now_ms)
      (match external with Some ext => post_external_equity vault_id ext book_params now_ms | None => Ret tt end))
      (init_external_entry vault_id h))
      (force_unwind_if_starved vault_id h view run now_ms))
    (sweep_vault_address vault_id))
    (sweep_custody_settled vault_id h))
    (redeem_expired_positions vault_id h now_ms))
    (crank_bid_tickets vault_id h))
    (settle_due_tickets vault_id h now_ms))
    (forget_settlement vault_id).

Definition tick_one (vault_id : ObjectID) (option_buckets : gmap rstring OptionBucketInfo) (external : option ExternalView)
    (book_params : option (Z * Z)) : task (result Error unit) :=
  h ←? outside (discover_holdings vault_id);
  view ←? vault_view vault_id;
  prog_bind (λ now_ms,
    prog_bind (λ _,
      if closed view then terminal_settlement vault_id h option_buckets view now_ms
      else open_vault vault_id option_buckets external book_params h view now_ms)
      (monitor_capital vault_id view now_ms)) (outside clock_ms).

(** The wait after [fails] failures in a row. *)
Definition backoff_delay (fails : Z) : Z :=
  Z.min (u64_saturating_mul CRANK_BACKOFF_BASE_MS (Z.shiftl 1 (Z.min fails 16))) CRANK_BACKOFF_CAP_MS.

Definition back_off (vault_id : ObjectID) (now_ms : Z) : task unit :=
  modify (λ s : Keeper W,
    let fails := match crank_backoff s !! vault_id with Some (f, _) => u32_add f 1 | None => 1 end in
    s <| crank_backoff ::= <[vault_id := (fails, u64_add now_ms (backoff_delay fails))]> |>).

(** The crank of a vault and its bookkeeping. *)
Definition crank_vault (vault_id : ObjectID) (option_buckets : gmap rstring OptionBucketInfo) (external : option ExternalView)
    (book_params : option (Z * Z)) (now_ms : Z) : task unit :=
  prog_bind (λ r, match r with
    | Ok _ => modify (λ s : Keeper W, s <| crank_backoff ::= delete vault_id |>)
    | Err e => prog_bind (λ b : bool, if b then Ret tt else back_off vault_id now_ms) (classify_and_log vault_id e)
    end) (tick_one vault_id option_buckets external book_params).

Definition waiting (vault_id : ObjectID) (now_ms : Z) (s : Keeper W) : bool :=
  match crank_backoff s !! vault_id with Some (_, until) => now_ms <? until | None => false end.

Definition external_view (v : TradingVaultInfo) : option ExternalView :=
  a ← tv_external_account v;
  if bool_decide (length (addr_bytes a) = 32%nat)
  then Some (mkExternalView a (tv_external_exposure v) (tv_latest_external_equity v) (tv_external_equity_updated_at_ms v))
  else None.

Definition tick_vault (option_buckets : gmap rstring OptionBucketInfo) (book_params : option (Z * Z)) (now_ms : Z)
    (v : TradingVaultInfo) : task unit :=
  match object_id_from_hex_literal (SuiAddress_to_hex (tv_vault_id v)) with
  | None => Ret tt
  | Some vault_id =>
      prog_bind (λ done : bool,
        if done then Ret tt else
        let external := external_view v in
        prog_bind (λ _,
          prog_bind (λ wait : bool,
            if wait then Ret tt else crank_vault vault_id option_buckets external book_params now_ms)
            (read (waiting vault_id now_ms)))
          (match external with Some ext => monitor_external vault_id ext now_ms | None => Ret tt end))
        (read (λ s, bool_decide (vault_id ∈ settled_done s)))
  end.

(** The option coins and their buckets. *)
Definition bucket_entry (b : BucketInfo) : option (rstring * OptionBucketInfo) :=
  let id := default SuiAddress_ZERO (object_id_from_hex_literal (SuiAddress_to_hex (ib_bucket_id b))) in
  if bool_decide (id = SuiAddress_ZERO) then None
  else Some (canonicalize_move_type (ib_call_type b),
    mkBucketInfo id (canonicalize_move_type (ib_asset_type b)) (canonicalize_move_type (ib_settlement_type b))
      (bool_decide (ib_option_kind b = str "put"))).

Definition bucket_map (bs : list BucketInfo) : gmap rstring OptionBucketInfo :=
  foldl (λ m b, match bucket_entry b with Some (k, i) => <[k := i]> m | None => m end) ∅ bs.

Definition tick : task unit :=
  prog_bind (λ vs, match vs with
    | Err _ => Ret tt
    | Ok vaults =>
        prog_bind (λ bs,
          let option_buckets := match bs with Ok bs => bucket_map bs | Err _ => ∅ end in
          prog_bind (λ now_ms,
            prog_bind (λ book_params,
              prog_bind (λ _, for_each vaults (tick_vault option_buckets book_params now_ms)) (post_vols now_ms))
              (match equity_book_id ctx with
               | Some book_id =>
                   if existsb (λ v, bool_decide (is_Some (tv_external_account v))) vaults
                   then prog_bind (λ r, Ret match r with Ok p => Some p | Err _ => None end) (equity_book_params book_id)
                   else Ret None
               | None => Ret None
               end))
            (outside clock_ms))
          (outside buckets)
    end) (outside trading_vaults).

(** [n] ticks. *)
Fixpoint ticks (n : nat) : task unit := match n with O => Ret tt | S n' => prog_bind (λ _, ticks n') tick end.
End keeper.
