(* ===== verification/KeeperTheorems.v ===== *)
(** What the keeper guarantees: the failures of a vault stay with the vault, the
    plan of a fulfillment pays the requests in order, and marks move within the
    bounds of the chain. *)

From S2P Require Import Prelude RecordUpdate Prog RustStr F64 ExchangeTypes Crates Json Wire Asset SuiTx GasTemplate GasStation Keeper Demo.

(** * Marks *)

(** What the chain asks of a step: [delta * 10_000 <= previous * max_delta_bps]. *)
Definition within_band (previous bps x : Z) : Prop := Z.abs (x - previous) * 10000 ≤ previous * bps.

(** Where a step rests: at its target, or where the band rounds down to nothing. *)
Definition rests (bps target x : Z) : Prop := x = target ∨ x ≠ 0 ∧ x * bps < 10000.

Lemma clamp_step_bounds previous target bps :
  u64 previous → u64 target → u64 bps →
  let x := clamp_step previous target bps in
  u64 x ∧ (previous = 0 → x = target) ∧ (previous ≠ 0 → within_band previous bps x) ∧
  Z.min previous target ≤ x ≤ Z.max previous target ∧
  (bps ≤ 10000 → x = previous ↔ rests bps target previous).
Proof.
  intros Hp Ht Hb. unfold clamp_step, within_band, rests. unfold u64, u64_max in *.
  assert (u128_mul previous bps = previous * bps) as ->.
  { unfold u128_mul, wrap128. apply Z.mod_small. nia. }
  pose proof (Z.div_mod (previous * bps) 10000 ltac:(lia)) as Hd.
  pose proof (Z.mod_pos_bound (previous * bps) 10000 ltac:(lia)) as Hm.
  assert (0 ≤ previous * bps / 10000) as Hq by (apply Z.div_pos; nia).
  assert (0 ≤ wrap64 (previous * bps / 10000) ≤ previous * bps / 10000) as Hw.
  { unfold wrap64. split; [apply Z.mod_pos_bound; lia|apply Z.mod_le; lia]. }
  assert (bps ≤ 10000 → wrap64 (previous * bps / 10000) = previous * bps / 10000) as He.
  { intros Hle. apply Z.mod_small. nia. }
  revert Hw He. generalize (wrap64 (previous * bps / 10000)). intros step Hw He.
  unfold u64_saturating_add, u64_saturating_sub, u64_max.
  destruct (Z.eqb_spec previous 0) as [->|Hne]; [split_and!; lia|].
  destruct (Z.ltb_spec previous target); split_and!; nia.
Qed.

(** The marks after [n] steps towards one target. *)
Definition marks (target bps : Z) (n : nat) (previous : Z) : Z := Nat.iter n (λ p, clamp_step p target bps) previous.

Lemma marks_S target bps n p : marks target bps (S n) p = marks target bps n (clamp_step p target bps).
Proof. unfold marks. rewrite Nat.iter_succ_r. done. Qed.

(** Steps towards a target come to rest, never leaving the way to it. *)
Theorem marks_come_to_rest previous target bps :
  u64 previous → u64 target → u64 bps → bps ≤ 10000 →
  ∃ n, (n ≤ Z.to_nat (Z.abs (target - previous)))%nat ∧ rests bps target (marks target bps n previous) ∧
    ∀ k, Z.min previous target ≤ marks target bps k previous ≤ Z.max previous target.
Proof.
  intros Hp Ht Hb Hle.
  remember (Z.to_nat (Z.abs (target - previous))) as d eqn:Ed. revert previous Hp Ed.
  induction d as [d IH] using lt_wf_ind. intros previous Hp ->.
  destruct (clamp_step_bounds previous target bps Hp Ht Hb) as (Hx & _ & _ & Hbetween & Hrest). specialize (Hrest Hle).
  set (x := clamp_step previous target bps) in *. destruct (decide (x = previous)) as [Heq|Hne].
  - exists 0%nat. split; [lia|]. split; [by apply Hrest|]. intros k.
    assert (marks target bps k previous = previous) as ->; [|lia].
    induction k as [|k IHk]; [done|]. rewrite marks_S. fold x. by rewrite Heq.
  - destruct (IH (Z.to_nat (Z.abs (target - x))) ltac:(lia) x Hx eq_refl) as (n & Hn & Hr & Hall).
    exists (S n). rewrite marks_S. fold x. split_and!; [lia|done|].
    intros [|k]; [cbn; lia|]. rewrite marks_S. fold x. specialize (Hall k). lia.
Qed.

(** * The order of strings *)

Lemma str_leb_total a b : str_leb a b = false → str_leb b a = true.
Proof.
  revert b. induction a as [|c a IH]; intros [|d b]; cbn; try done. rewrite orb_false_iff, andb_false_iff, orb_true_iff.
  intros [Hlt [Hne|Hle]]; [left; lia|]. destruct (Z.eqb_spec d c); [right; cbn; by apply IH|left; lia].
Qed.

Lemma str_leb_trans a b c : str_leb a b = true → str_leb b c = true → str_leb a c = true.
Proof.
  revert b c. induction a as [|x a IH]; intros [|y b] [|z c]; cbn; try done.
  rewrite !orb_true_iff, !andb_true_iff. intros [?|[? ?]] [?|[? ?]]; [left; lia..|right]. split; [lia|by apply (IH b)].
Qed.

Lemma in_order_spec (X : gset rstring) :
  NoDup (in_order X) ∧ StronglySorted (λ a b, str_leb a b = true) (in_order X) ∧ ∀ t, t ∈ in_order X ↔ t ∈ X.
Proof.
  unfold in_order. split_and!.
  - rewrite sort_by_perm. apply NoDup_elements.
  - apply sort_by_sorted; [exact str_leb_total|exact str_leb_trans].
  - intros t. by rewrite elem_of_sort_by, elem_of_elements.
Qed.

(** * What a program changes *)

Section programs.
Context {W : Type} `{VaultNode W, FieldSdk, SuiSdk, HexCrate}.
Variable ctx : TradingVaultCtx.

Abbreviation task := (prog (Keeper W)).

(** The bookkeeping of one vault, and what is no vault's. *)
Definition vault_state (u : ObjectID) (s : Keeper W) :=
  (mark_refreshed_at s !! u, crank_backoff s !! u, capital_watch s !! u, settlement_watch s !! u, bool_decide (u ∈ settled_done s)).

(** Only the world and the descriptor change. *)
Record calm (s s' : Keeper W) : Prop := {
  calm_marks : mark_refreshed_at s' = mark_refreshed_at s;
  calm_backoff : crank_backoff s' = crank_backoff s;
  calm_capital : capital_watch s' = capital_watch s;
  calm_settlement : settlement_watch s' = settlement_watch s;
  calm_done : settled_done s' = settled_done s;
  calm_equity : equity_cache s' = equity_cache s;
  calm_log : log s' = log s;
}.

#[export] Instance calm_preorder : PreOrder calm.
Proof.
  split; [by constructor|]. intros s1 s2 s3 [] []. by constructor; etransitivity.
Qed.

Definition effect {A} (R : Keeper W → Keeper W → Prop) (p : task A) : Prop := ∀ s, R s (run p s).1.

Section effects.
Context (R : Keeper W → Keeper W → Prop) `{!PreOrder R}.

Lemma effect_ret {A} (a : A) : effect R (Ret a).
Proof. intros s. reflexivity. Qed.

Lemma effect_bind {A B} (p : task A) (h : A → task B) : effect R p → (∀ a, effect R (h a)) → effect R (prog_bind h p).
Proof. intros Hp Hh s. rewrite run_bind. etransitivity; [apply Hp|apply Hh]. Qed.

Lemma effect_try {E A B} (p : task (result E A)) (h : A → task (result E B)) :
  effect R p → (∀ a, effect R (h a)) → effect R (prog_try p h).
Proof. intros Hp Hh. apply effect_bind; [done|]. intros [a|e]; [apply Hh|apply effect_ret]. Qed.

Lemma effect_read {A} (f : Keeper W → A) : effect R (read f).
Proof. intros s. reflexivity. Qed.

Lemma effect_for_each {X} (l : list X) (f : X → task unit) : (∀ x, effect R (f x)) → effect R (for_each l f).
Proof. intros Hf. induction l as [|x l IH]; [apply effect_ret|]. cbn. apply effect_bind; [apply Hf|]. intros _. exact IH. Qed.

Lemma effect_try_each {A B} (l : list A) (f : A → task (result Error B)) : (∀ a, effect R (f a)) → effect R (try_each l f).
Proof.
  intros Hf. induction l as [|a l IH]; [apply effect_ret|]. cbn. apply effect_try; [apply Hf|]. intros b.
  apply effect_try; [exact IH|]. intros bs. apply effect_ret.
Qed.

Lemma effect_sub {A} (R1 : Keeper W → Keeper W → Prop) (p : task A) : (∀ s s', R1 s s' → R s s') → effect R1 p → effect R p.
Proof. intros Hsub Hp s. apply Hsub, Hp. Qed.
End effects.

Lemma calm_outside {A} (f : W → W * A) : effect calm (outside f).
Proof. intros s. cbn. destruct (f (world s)). by constructor. Qed.

Create HintDb keeper.
Hint Resolve effect_ret effect_read calm_outside calm_preorder : keeper.

(** Walks through a program whose steps are known. *)
Ltac walk :=
  repeat first
    [ apply effect_ret; apply _ | apply effect_read; apply _
    | solve [auto with keeper]
    | apply effect_try; [apply _| |intros ?]
    | apply effect_bind; [apply _| |intros ?]
    | apply effect_for_each; [apply _|intros ?]
    | apply effect_try_each; [apply _|intros ?]
    | match goal with |- effect _ (match ?x with _ => _ end) => destruct x end
    | match goal with |- effect _ (if ?x then _ else _) => destruct x end ].

Lemma calm_shared i b : effect calm (shared_obj i b).
Proof. unfold shared_obj. walk. Qed.

Lemma calm_with_context {A} m (p : task (result Error A)) : effect calm p → effect calm (with_context m p).
Proof. intros Hp. unfold with_context. walk. Qed.

Lemma calm_json_field i path : effect calm (json_field i path).
Proof. unfold json_field. walk. Qed.

Lemma calm_object_type i : effect calm (object_type_of i).
Proof. unfold object_type_of. walk. Qed.
Hint Resolve calm_shared calm_with_context calm_json_field calm_object_type : keeper.

Lemma calm_json_u64 i path e : effect calm (json_u64 i path e).
Proof. unfold json_u64. walk. Qed.
Hint Resolve calm_json_u64 : keeper.

Lemma calm_vault_view i : effect calm (vault_view i).
Proof. unfold vault_view. walk. Qed.

Lemma calm_table_entry t k : effect calm (table_entry_json t k).
Proof. unfold table_entry_json. walk. Qed.
Hint Resolve calm_vault_view calm_table_entry : keeper.

Lemma calm_queue_run view n : effect calm (queue_run view n).
Proof. unfold queue_run, read_lane, read_entry. walk. Qed.

Lemma calm_live_descriptor : effect calm live_descriptor.
Proof.
  unfold live_descriptor. apply effect_bind; [apply _|walk|]. intros now. apply effect_bind; [apply _|walk|]. intros cached.
  assert (effect calm (d ←? with_context "fetching /oracle/descriptor" (outside descriptor);
    prog_bind (λ now, prog_bind (λ _, Ret (Ok d)) (modify (λ s : Keeper W, s <| descriptor_cache := Some (now, d) |>)))
      (outside clock_ms))) as Hf.
  { walk. intros s. by constructor. }
  destruct cached as [[]|]; [|exact Hf]. destruct (_ <? _); [walk|exact Hf].
Qed.
Hint Resolve calm_queue_run calm_live_descriptor : keeper.

Lemma calm_pyth_legs table types fs infos : effect calm (pyth_legs ctx table types fs infos).
Proof.
  revert fs infos. induction types as [|t types IH]; intros fs infos; cbn [pyth_legs]; [walk|].
  destruct (assoc t (feeds ctx)); [|apply IH]. apply effect_try; [apply _|unfold price_info_object_for; walk|]. intros info. apply IH.
Qed.
Hint Resolve calm_pyth_legs : keeper.

Lemma calm_compose i h ob : effect calm (compose_full_appraisal ctx i h ob).
Proof. unfold compose_full_appraisal. walk. Qed.
Hint Resolve calm_compose : keeper.

(** ** Results *)

(** A calm program; what it answers when it succeeds. *)
Definition gives {A} (p : task (result Error A)) (P : A → Prop) : Prop :=
  effect calm p ∧ ∀ s a, (run p s).2 = Ok a → P a.

Lemma gives_ret {A} (r : result Error A) (P : A → Prop) : (∀ a, r = Ok a → P a) → gives (Ret r) P.
Proof. intros HP. split; [apply effect_ret; apply _|]. intros s a. apply HP. Qed.

Lemma gives_calm {A} (p : task (result Error A)) : effect calm p → gives p (λ _, True).
Proof. by split. Qed.

Lemma gives_try {A B} (p : task (result Error A)) (h : A → task (result Error B)) P1 P :
  gives p P1 → (∀ a, P1 a → gives (h a) P) → gives (prog_try p h) P.
Proof.
  intros [Hp Hq] Hh. split.
  - intros s. rewrite run_try. destruct (run p s).2 as [a|e] eqn:E; [|apply Hp].
    etransitivity; [apply Hp|]. by apply (Hh a (Hq s a E)).
  - intros s b. rewrite run_try. destruct (run p s).2 as [a|e] eqn:E; [|done]. by apply (Hh a (Hq s a E)).
Qed.

Lemma gives_shared i b : gives (shared_obj i b) (λ a, a = Shared i b).
Proof.
  unfold shared_obj. eapply gives_try; [apply gives_calm, calm_outside|]. intros u _. apply gives_ret. by intros a [= <-].
Qed.

(** Only the log grows, by what [Q] says when something is submitted, and by
    nothing when an error comes first. *)
Definition quiet_but_log (s s' : Keeper W) : Prop := calm (s <| log := [] |>) (s' <| log := [] |>).

Definition submits (p : task (result Error unit)) (Q : string → Tx → Prop) : Prop :=
  ∀ s, quiet_but_log s (run p s).1 ∧
    (log (run p s).1 = log s ∧ (∃ e, (run p s).2 = Err e) ∨
     ∃ label tx, log (run p s).1 = log s ++ [Submitted label tx (run p s).2] ∧ Q label tx).

Lemma quiet_calm s s' : calm s s' → quiet_but_log s s'.
Proof. intros []. by constructor. Qed.

Lemma quiet_trans s1 s2 s3 : quiet_but_log s1 s2 → quiet_but_log s2 s3 → quiet_but_log s1 s3.
Proof. unfold quiet_but_log. intros ? ?. by etransitivity. Qed.

Lemma submits_submit (Q : string → Tx → Prop) label tx : Q label tx → submits (submit_ptb label tx) Q.
Proof.
  intros HQ s. unfold submit_ptb. rewrite run_bind. unfold outside. rewrite run_act.
  destruct (submit label tx (world s)) as [w r]. cbn. split; [by constructor|]. right. by exists label, tx.
Qed.

Lemma submits_try {A} (p : task (result Error A)) (h : A → task (result Error unit)) P Q :
  gives p P → (∀ a, P a → submits (h a) Q) → submits (prog_try p h) Q.
Proof.
  intros [Hp Hq] Hh s. rewrite run_try. pose proof (Hp s) as Hc. destruct (run p s).2 as [a|e] eqn:E.
  - destruct (Hh a (Hq s a E) (run p s).1) as [Hquiet Hlog]. split; [eapply quiet_trans; [by apply quiet_calm|done]|].
    by rewrite (calm_log _ _ Hc) in Hlog.
  - split; [by apply quiet_calm|]. left. split; [apply Hc|by exists e].
Qed.

(** ** Fulfillment *)

(** The assets the requests are paid in, up to the first that is not held. *)
Fixpoint payout_assets (h : VaultHoldings) (view : VaultView) (now : Z) (es : list QueueEntry) : list rstring :=
  match es with
  | [] => []
  | e :: es' => match paid_in h view now e with Some p => p :: payout_assets h view now es' | None => [] end
  end.

Definition expand (plan : list (rstring * nat)) : list rstring := concat ((λ x : rstring * nat, replicate x.2 x.1) <$> plan).

Lemma expand_app l1 l2 : expand (l1 ++ l2) = expand l1 ++ expand l2.
Proof. unfold expand. by rewrite fmap_app, concat_app. Qed.

Lemma expand_extend plan p : expand (extend_plan plan p) = expand plan ++ [p].
Proof.
  unfold extend_plan. destruct (last plan) as [[ty n]|] eqn:Hl.
  - apply last_Some in Hl as [l ->]. case_bool_decide as Hp; [subst ty|by rewrite expand_app].
    rewrite removelast_last, !expand_app. unfold expand. cbn. rewrite !app_nil_r, <- app_assoc. f_equal.
    by rewrite <- replicate_cons_app.
  - apply last_None in Hl as ->. done.
Qed.

Lemma plan_loop_spec h view now es plan foreign :
  let '(plan', foreign') := plan_loop h view now es plan foreign in
  expand plan' = expand plan ++ payout_assets h view now es ∧
  (∀ t, t ∈ foreign' ↔ t ∈ foreign ∨ (t ∈ payout_assets h view now es ∧ t ≠ deposit_type h)) ∧
  (payout_assets h view now es = [] → plan' = plan).
Proof.
  revert plan foreign. induction es as [|e es IH]; intros plan foreign; cbn.
  - rewrite app_nil_r. split_and!; [done|set_solver|done].
  - destruct (paid_in h view now e) as [p|]; [|rewrite app_nil_r; split_and!; [done|set_solver|done]].
    specialize (IH (extend_plan plan p) (if bool_decide (p = deposit_type h) then foreign else {[p]} ∪ foreign)).
    destruct (plan_loop _ _ _ _ _ _) as [plan' foreign']. destruct IH as (IH1 & IH2 & IH3).
    rewrite IH1, expand_extend, <- app_assoc. split_and!; [done| |].
    + intros t. rewrite IH2. case_bool_decide; set_solver.
    + done.
Qed.

Lemma payout_assets_held h view now es t :
  t ∈ payout_assets h view now es → t = deposit_type h ∨ t ∈ free_assets h.
Proof.
  induction es as [|e es IH]; cbn; [set_solver|]. destruct (paid_in h view now e) as [p|] eqn:Hp; [|set_solver].
  intros [->|?]%elem_of_cons; [|by apply IH]. unfold paid_in in Hp. destruct (_ || _); [left; congruence|].
  case_bool_decide; [right; congruence|done].
Qed.

(** The transactions of a fulfillment. *)
Definition vault_args (id : ObjectID) : list Arg :=
  [Shared id true; Shared (protocol_config_id ctx) false; Shared (treasury_id ctx) true].

Definition batch_tx (id : ObjectID) (h : VaultHoldings) : Tx :=
  appraised id [vault_call ctx "fulfill_withdrawals" [deposit_type h] (vault_args id ++ [Appraisal; clock])].

Definition mixed_tx (id : ObjectID) (foreign assets : list rstring) : Tx :=
  appraised id
    ([MakeVec (attestation_type ctx) (Attestation <$> foreign);
      vault_call ctx "begin_fulfillment" []
        [Shared id true; Shared (protocol_config_id ctx) false; Appraisal; ResultOf 0; clock]] ++
     ((λ t, vault_call ctx "fulfill_next" [t] (vault_args id ++ [ResultOf 1; clock])) <$> assets) ++
     [vault_call ctx "end_fulfillment" [] [Shared id true; ResultOf 1]]).

Lemma type_tag_Ok t t' : type_tag t = Ok t' → t' = t.
Proof. unfold type_tag. destruct (type_tag_ok t); [by intros [= <-]|done]. Qed.

Lemma deposit_tag_Ok h tags : deposit_tag h = Ok tags → tags = [deposit_type h].
Proof.
  unfold deposit_tag. destruct (type_tag (deposit_type h)) eqn:E; [|done]. cbn. intros [= <-]. by apply type_tag_Ok in E as ->.
Qed.

Lemma gives_batch id h : gives (build_fulfill_withdrawals ctx id h) (λ cmds, appraised id cmds = batch_tx id h).
Proof.
  unfold build_fulfill_withdrawals. repeat (eapply gives_try; [apply gives_shared|]; intros ? ->).
  eapply gives_try; [apply (gives_ret _ (λ tags, tags = [deposit_type h])), deposit_tag_Ok|]. intros tags ->.
  apply gives_ret. by intros a [= <-].
Qed.

Lemma fulfill_nexts_expand v c t f plan :
  fulfill_nexts ctx v c t f plan = (λ x, vault_call ctx "fulfill_next" [x] [v; c; t; f; clock]) <$> expand plan.
Proof.
  unfold fulfill_nexts, expand. induction plan as [|[x n] plan IH]; [done|]. cbn. rewrite IH, fmap_app. f_equal.
  by rewrite fmap_replicate.
Qed.

Lemma gives_mixed id atts plan foreign :
  atts = Attestation <$> foreign →
  gives (build_fulfill_mixed ctx id atts plan) (λ cmds, appraised id cmds = mixed_tx id foreign (expand plan)).
Proof.
  intros ->. unfold build_fulfill_mixed. repeat (eapply gives_try; [apply gives_shared|]; intros ? ->).
  eapply gives_try; [apply (gives_ret _ (λ t, t = attestation_type ctx))|].
  { intros a. unfold type_tag. by destruct (type_tag_ok _); [intros [= <-]|]. }
  intros tag ->. eapply gives_try; [apply gives_calm, effect_ret; apply _|]. intros tags _.
  apply gives_ret. intros a [= <-]. by rewrite fulfill_nexts_expand.
Qed.

Lemma attestations_Ok have assets atts : attestations have assets = Ok atts → atts = Attestation <$> assets.
Proof.
  revert atts. induction assets as [|t assets IH]; intros atts; cbn; [by intros [= <-]|].
  case_bool_decide; [|done]. destruct (attestations have assets) as [r|]; [|done]. cbn. intros [= <-]. by rewrite (IH r).
Qed.

Lemma submits_batch id h ob :
  submits (_ ←? compose_full_appraisal ctx id h ob;
           cmds ←? build_fulfill_withdrawals ctx id h;
           submit_ptb "trading_vault::fulfill_withdrawals" (appraised id cmds))
    (λ label tx, label = "trading_vault::fulfill_withdrawals"%string ∧ tx = batch_tx id h).
Proof.
  eapply submits_try; [apply gives_calm, calm_compose|]. intros u _. eapply submits_try; [apply gives_batch|].
  intros cmds E. apply submits_submit. by rewrite E.
Qed.

Lemma submits_mixed id h ob plan foreign :
  submits (have ←? compose_full_appraisal ctx id h ob;
           atts ←? Ret (attestations have (in_order foreign));
           cmds ←? build_fulfill_mixed ctx id atts plan;
           submit_ptb "trading_vault::fulfill_mixed" (appraised id cmds))
    (λ label tx, label = "trading_vault::fulfill_mixed"%string ∧ tx = mixed_tx id (in_order foreign) (expand plan)).
Proof.
  eapply submits_try; [apply gives_calm, calm_compose|]. intros u _.
  eapply submits_try; [apply (gives_ret _ (λ atts, atts = Attestation <$> in_order foreign)), attestations_Ok|].
  intros atts Ea. eapply submits_try; [exact (gives_mixed _ _ _ _ Ea)|]. intros cmds E. apply submits_submit. by rewrite E.
Qed.

(** C26: A fulfillment of the queue submits at most one transaction, with the
    appraisal of the vault.  When the first request that the risk state lets
    through can be paid in the accounting asset, it is the batch crank in that
    asset; else it pays, in the order of the queue and each in its own asset or,
    if it is wiped or has aged out, in the accounting asset, every request up to
    the first that wants an asset the vault does not hold, with an attestation
    for each other asset once, in order; when that is the first, nothing is submitted. *)
Theorem fulfill_submits id h ob view rn now s :
  let s' := (run (fulfill ctx id h ob view rn now) s).1 in
  let r := (run (fulfill ctx id h ob view rn now) s).2 in
  let assets := payout_assets h view now (payable view rn) in
  let untouched := log s' = log s in
  quiet_but_log s s' ∧
  match payable view rn with
  | [] => untouched ∧ r = Ok tt
  | head :: _ =>
      if accounting_payable h view now head then
        untouched ∧ (∃ e, r = Err e) ∨
        log s' = log s ++ [Submitted "trading_vault::fulfill_withdrawals" (batch_tx id h) r]
      else if decide (assets = []) then untouched ∧ r = Ok tt
      else
        untouched ∧ (∃ e, r = Err e) ∨
        ∃ foreign, NoDup foreign ∧ StronglySorted (λ a b, str_leb a b = true) foreign ∧ (∀ t, t ∈ foreign ↔ t ∈ assets ∧ t ≠ deposit_type h) ∧
          (∀ t, t ∈ foreign → t ∈ free_assets h) ∧
          log s' = log s ++ [Submitted "trading_vault::fulfill_mixed" (mixed_tx id foreign assets) r]
  end.
Proof.
  cbn zeta. unfold fulfill. destruct (payable view rn) as [|head es] eqn:Hheads.
  { split; [|done]. apply quiet_calm. reflexivity. }
  destruct (accounting_payable h view now head) eqn:Hacc.
  { destruct (submits_batch id h ob s) as [Hq [Hl|(label & tx & Hl & -> & ->)]]; (split; [exact Hq|]); [by left|by right]. }
  pose proof (plan_loop_spec h view now (head :: es) [] ∅) as Hplan.
  destruct (plan_loop h view now (head :: es) [] ∅) as [plan foreign]. destruct Hplan as (Hexp & Hforeign & Hnil). change (expand []) with (@nil rstring) in Hexp. cbn [app] in Hexp.
  destruct (decide (payout_assets h view now (head :: es) = [])) as [Ha|Ha].
  { rewrite (Hnil Ha). split; [apply quiet_calm; reflexivity|done]. }
  rewrite bool_decide_false by (intros ->; by apply Ha; rewrite <- Hexp).
  destruct (submits_mixed id h ob plan foreign s) as [Hq [Hl|(label & tx & Hl & -> & ->)]]; (split; [exact Hq|]); [by left|].
  right. exists (in_order foreign). rewrite <- Hexp. destruct (in_order_spec foreign) as (Hnd & Hsorted & Hin).
  split_and!; [done|done| | |exact Hl].
  - intros t. rewrite Hin, Hforeign, Hexp. split; [by intros [?%elem_of_empty|?]|by right].
  - intros t Ht. apply Hin, Hforeign in Ht as [?%elem_of_empty|[Ht Hne]]; [done|].
    by destruct (payout_assets_held _ _ _ _ _ Ht).
Qed.

(** ** The tick of a vault *)

(** Nothing of another vault changes, no equity of a venue, nothing is unsaid,
    and the backoff stays. *)
Record cranks (v : ObjectID) (s s' : Keeper W) : Prop := {
  cranks_others u : u ≠ v → vault_state u s' = vault_state u s;
  cranks_equity : equity_cache s' = equity_cache s;
  cranks_log : log s `prefix_of` log s';
  cranks_backoff : crank_backoff s' = crank_backoff s;
}.

#[export] Instance cranks_preorder v : PreOrder (cranks v).
Proof.
  split; [by constructor|]. intros s1 s2 s3 [O1 E1 L1 B1] [O2 E2 L2 B2]. constructor.
  - intros u Hu. rewrite O2 by done. by apply O1.
  - by rewrite E2.
  - by etransitivity.
  - by rewrite B2.
Qed.

Lemma calm_cranks v s s' : calm s s' → cranks v s s'.
Proof. intros [Hm Hb Hc Hs Hd He Hl]. constructor; [|done|by rewrite Hl|done]. intros u _. unfold vault_state. by rewrite Hm, Hb, Hc, Hs, Hd. Qed.

Lemma cranks_calm {A} v (p : task A) : effect calm p → effect (cranks v) p.
Proof. apply effect_sub. intros s s'. apply calm_cranks. Qed.

Lemma cranks_emit v e : effect (cranks v) (emit e).
Proof. intros s. constructor; try done. cbn. by eexists. Qed.
Hint Resolve cranks_preorder cranks_calm cranks_emit : keeper.

Lemma cranks_alert v a b : effect (cranks v) (alert a b).
Proof. apply cranks_emit. Qed.
Hint Resolve cranks_alert : keeper.

Lemma cranks_submit v label tx : effect (cranks v) (submit_ptb label tx).
Proof. unfold submit_ptb. walk. Qed.
Hint Resolve cranks_submit : keeper.

Lemma cranks_classify v u e : effect (cranks v) (classify_and_log u e).
Proof. unfold classify_and_log. walk. Qed.
Hint Resolve cranks_classify : keeper.

Lemma cranks_contained v u p : effect (cranks v) p → effect (cranks v) (contained u p).
Proof. intros Hp. unfold contained. walk. Qed.
Hint Resolve cranks_contained : keeper.

(** Changes of the entry of one vault. *)
Lemma cranks_own v (f : Keeper W → Keeper W) :
  (∀ s, (∀ u, u ≠ v → vault_state u (f s) = vault_state u s) ∧ equity_cache (f s) = equity_cache s ∧
    log (f s) = log s ∧ crank_backoff (f s) = crank_backoff s) → effect (cranks v) (modify f).
Proof. intros Hf s. destruct (Hf s) as (Ho & He & Hl & Hb). constructor; cbn; [done|done|by rewrite Hl|done]. Qed.

Ltac own :=
  apply cranks_own; intros s; split_and!; [intros u Hu; unfold vault_state; cbn|done..];
  rewrite ?lookup_insert_ne, ?lookup_delete_ne by congruence; try done.

Lemma cranks_monitor v view now : effect (cranks v) (monitor_capital v view now).
Proof. unfold monitor_capital, when, risk_alert. walk. own. Qed.

Lemma cranks_forget v : effect (cranks v) (forget_settlement v).
Proof. unfold forget_settlement. own. Qed.

Lemma cranks_watch v now : effect (cranks v) (watch_settlement v now).
Proof. unfold watch_settlement, when. walk; own. Qed.
Hint Resolve cranks_monitor cranks_forget cranks_watch : keeper.

Lemma cranks_terminal v h ob view now : effect (cranks v) (terminal_settlement ctx v h ob view now).
Proof.
  unfold terminal_settlement, snapshot, build_capital_call, build_settle_queued_request. walk. own.
  f_equal. apply bool_decide_ext. set_solver.
Qed.

Lemma cranks_fulfill v h ob view rn now : effect (cranks v) (fulfill ctx v h ob view rn now).
Proof.
  intros s. destruct (fulfill_submits v h ob view rn now s) as [[Hm Hb Hc Hs Hd He _] Hlog]. cbn in *.
  constructor; [|done| |done].
  - intros u _. unfold vault_state. by rewrite Hm, Hb, Hc, Hs, Hd.
  - assert (∃ l, log (run (fulfill ctx v h ob view rn now) s).1 = log s ++ l) as [l ->]; [|by eexists].
    destruct (payable view rn) as [|head es]; [exists []; rewrite app_nil_r; apply Hlog|].
    destruct (accounting_payable h view now head).
    { destruct Hlog as [[-> _]| ->]; [exists []; by rewrite app_nil_r|by eexists]. }
    destruct (decide _); [exists []; rewrite app_nil_r; apply Hlog|].
    destruct Hlog as [[-> _]|(? & _ & _ & _ & _ & ->)]; [exists []; by rewrite app_nil_r|by eexists].
Qed.
Hint Resolve cranks_terminal cranks_fulfill : keeper.

Lemma cranks_tickets v h now : effect (cranks v) (settle_due_tickets ctx v h now).
Proof. unfold settle_due_tickets, settle_ticket. walk. Qed.

Lemma cranks_bids v h : effect (cranks v) (crank_bid_tickets ctx v h).
Proof. unfold crank_bid_tickets, burn_ticket, reclaim. walk. Qed.

Lemma cranks_redeem v h now : effect (cranks v) (redeem_expired_positions ctx v h now).
Proof. unfold redeem_expired_positions, redeem_position. walk. Qed.

Lemma cranks_sweeps v h : effect (cranks v) (sweep_custody_settled ctx v h).
Proof. unfold sweep_custody_settled, sweep_custody, build_sweep, pool_command. walk. Qed.

Lemma cranks_address v : effect (cranks v) (sweep_vault_address ctx v).
Proof. unfold sweep_vault_address, sweep_address. walk. Qed.

Lemma cranks_unwind v h view rn now : effect (cranks v) (force_unwind_if_starved ctx v h view rn now).
Proof.
  unfold force_unwind_if_starved. destruct (deepbook_adapter_pkg ctx) as [dba|]; [|walk].
  destruct (starved _ _ _); [|walk]. apply cranks_contained. induction (positions h) as [|x ps IH]; [walk|].
  destruct x; cbn [unwind_all]; try exact IH. unfold unwind_custody, pool_command. walk.
Qed.

Lemma cranks_init v h : effect (cranks v) (init_external_entry ctx v h).
Proof. unfold init_external_entry, init_entry, equity_book_has_entry, classify_and_log. walk. Qed.

Lemma cranks_post v ext bp now : effect (cranks v) (post_external_equity ctx v ext bp now).
Proof. unfold post_external_equity, post_equity_step. walk. Qed.
Hint Resolve cranks_tickets cranks_bids cranks_redeem cranks_sweeps cranks_address cranks_unwind cranks_init cranks_post : keeper.

Lemma cranks_drain v h ob view rn now : effect (cranks v) (drain_or_refresh ctx v h ob view rn now).
Proof. unfold drain_or_refresh, crank_capital_pass, build_capital_call. walk. own. Qed.
Hint Resolve cranks_drain : keeper.

Lemma cranks_tick_one v ob ext bp : effect (cranks v) (tick_one ctx v ob ext bp).
Proof. unfold tick_one, open_vault. walk. Qed.

(** The failures in a row that are on record. *)
Definition failures (v : ObjectID) (s : Keeper W) : Z := match crank_backoff s !! v with Some (f, _) => f | None => 0 end.

Lemma backoff_delay_doubles fails :
  0 ≤ fails → backoff_delay fails = Z.min (15000 * 2 ^ fails) 600000 ∧ 15000 ≤ backoff_delay fails ≤ 600000.
Proof.
  intros Hf. unfold backoff_delay, CRANK_BACKOFF_BASE_MS, CRANK_BACKOFF_CAP_MS, u64_saturating_mul. rewrite Z.shiftl_1_l.
  assert (1 ≤ 2 ^ Z.min fails 16 ≤ 65536) as Hp.
  { change 65536 with (2 ^ 16). change 1 with (2 ^ 0) at 1. split; apply Z.pow_le_mono_r; lia. }
  split; [|unfold u64_max; lia]. destruct (Z.le_gt_cases fails 16) as [Hle|Hgt].
  - rewrite (Z.min_l fails 16) by lia. rewrite (Z.min_l fails 16) in Hp by lia. unfold u64_max. lia.
  - rewrite (Z.min_r fails 16) by lia. assert (2 ^ 16 ≤ 2 ^ fails) by (apply Z.pow_le_mono_r; lia). unfold u64_max. lia.
Qed.

Lemma classify_result v e (s : Keeper W) : (run (classify_and_log v e) s).2 = benign (full_text e).
Proof. unfold classify_and_log. by destruct (benign (full_text e)). Qed.

(** The crank of a vault, and the record of its failures. *)
Lemma crank_vault_spec v ob ext bp now s :
  let s' := (run (crank_vault ctx v ob ext bp now) s).1 in
  (∀ u, u ≠ v → vault_state u s' = vault_state u s) ∧ equity_cache s' = equity_cache s ∧ log s `prefix_of` log s' ∧
  crank_backoff s' =
    match (run (tick_one ctx v ob ext bp) s).2 with
    | Ok _ => delete v (crank_backoff s)
    | Err e => if benign (full_text e) then crank_backoff s
               else <[v := (u32_add (failures v s) 1, u64_add now (backoff_delay (u32_add (failures v s) 1)))]> (crank_backoff s)
    end.
Proof.
  cbn zeta. unfold crank_vault. rewrite run_bind. destruct (cranks_tick_one v ob ext bp s) as [Ho He Hl Hb].
  destruct (run (tick_one ctx v ob ext bp) s) as [s1 [u|e]]; cbn [fst snd] in *.
  - cbn. rewrite Hb. split_and!; [|done|done|done]. intros u' Hu. rewrite <- Ho by done. unfold vault_state. cbn.
    by rewrite lookup_delete_ne by congruence.
  - rewrite run_bind. pose proof (classify_result v e s1) as Hr. destruct (cranks_classify v v e s1) as [Ho2 He2 Hl2 Hb2].
    destruct (run (classify_and_log v e) s1) as [s2 b]; cbn [fst snd] in *. subst b. rewrite Hb in Hb2.
    destruct (benign (full_text e)).
    + cbn. split_and!; [|by rewrite He2|by etransitivity|done]. intros u Hu. rewrite Ho2 by done. by apply Ho.
    + cbn. rewrite Hb2. unfold failures. split_and!; [|by rewrite He2|by etransitivity|by destruct (crank_backoff s !! v) as [[]|]].
      intros u Hu. rewrite <- Ho, <- Ho2 by done. unfold vault_state. cbn. by rewrite lookup_insert_ne by congruence.
Qed.

(** The alerts of the monitor of an external account. *)
Lemma monitor_external_log v ext now (s : Keeper W) :
  ∃ alerts, run (monitor_external ctx v ext now) s = (s <| log := log s ++ alerts |>, tt) ∧
    Forall (λ e, e = Alert "hedge-reconciliation" v) alerts.
Proof.
  set (a := Alert "hedge-reconciliation" v). unfold monitor_external, when, alert. rewrite run_bind. fold a.
  destruct (diverges ctx ext), (_ && _).
  - exists [a; a]. split; [|by repeat constructor].
    transitivity (s <| log := (log s ++ [a]) ++ [a] |>, tt); [done|by rewrite <- app_assoc].
  - exists [a]. split; [done|by repeat constructor].
  - exists [a]. split; [done|by repeat constructor].
  - exists []. rewrite app_nil_r. split; [by destruct s|constructor].
Qed.

(** The state in which a vault is cranked. *)
Definition monitored (info : TradingVaultInfo) (id : ObjectID) (now : Z) (s : Keeper W) : Keeper W :=
  (run (match external_view info with Some ext => monitor_external ctx id ext now | None => Ret tt end) s).1.

Lemma monitored_log info id now (s : Keeper W) :
  ∃ alerts, monitored info id now s = s <| log := log s ++ alerts |> ∧ Forall (λ e, e = Alert "hedge-reconciliation" id) alerts.
Proof.
  unfold monitored. destruct (external_view info) as [ext|].
  - destruct (monitor_external_log id ext now s) as (alerts & -> & Ha). by exists alerts.
  - exists []. rewrite app_nil_r. split; [by destruct s|constructor].
Qed.

(** C18: The tick of a vault, whatever the chain and the services answer.
    Nothing that is recorded of another vault changes.  A settled vault is left
    alone, and one that waits out its failures only has its external account
    compared.  Otherwise the vault is cranked once: a success clears its record,
    a lost race keeps it, and any other failure counts and makes it wait, half a
    minute after the first and twice as long after each, up to ten minutes.
    (The count is a [u32] and wraps.) *)
Theorem tick_vault_contained ob bp now info s id :
  object_id_from_hex_literal (SuiAddress_to_hex (tv_vault_id info)) = Some id → 0 ≤ failures id s →
  let s0 := monitored info id now s in
  let s' := (run (tick_vault ctx ob bp now info) s).1 in
  let fails := u32_add (failures id s) 1 in
  let delay := Z.min (15000 * 2 ^ fails) 600000 in
  (∀ u, u ≠ id → vault_state u s' = vault_state u s) ∧ equity_cache s' = equity_cache s ∧ log s `prefix_of` log s' ∧
  (∃ alerts, s0 = s <| log := log s ++ alerts |> ∧ Forall (λ e, e = Alert "hedge-reconciliation" id) alerts) ∧
  (id ∈ settled_done s → s' = s) ∧
  (id ∉ settled_done s → waiting id now s = true → s' = s0) ∧
  (id ∉ settled_done s → waiting id now s = false →
    crank_backoff s' =
      match (run (tick_one ctx id ob (external_view info) bp) s0).2 with
      | Ok _ => delete id (crank_backoff s)
      | Err e => if benign (full_text e) then crank_backoff s
                 else <[id := (fails, u64_add now delay)]> (crank_backoff s)
      end).
Proof.
  intros Hid Hf s0 s' fails delay. destruct (monitored_log info id now s) as (alerts & E0 & Ha). fold s0 in E0.
  assert (Hs' : s' = if decide (id ∈ settled_done s) then s else if waiting id now s then s0
    else (run (crank_vault ctx id ob (external_view info) bp now) s0).1).
  { unfold s', tick_vault. rewrite Hid, run_bind. cbn [run read act fst snd]. destruct (decide (id ∈ settled_done s)) as [Hin|Hin].
    - by rewrite bool_decide_true.
    - rewrite bool_decide_false by done. rewrite run_bind. fold (monitored info id now s) s0. rewrite run_bind.
      cbn [run read act fst snd]. assert (waiting id now s0 = waiting id now s) as -> by by rewrite E0.
      by destruct (waiting id now s). }
  assert (failures id s0 = failures id s ∧ crank_backoff s0 = crank_backoff s) as [Ef Eb] by by rewrite E0.
  assert ((∀ u, u ≠ id → vault_state u s0 = vault_state u s) ∧ equity_cache s0 = equity_cache s ∧ log s `prefix_of` log s0)
    as (Ho0 & He0 & Hl0) by (rewrite E0; split_and!; [done|done|by eexists]).
  destruct (crank_vault_spec id ob (external_view info) bp now s0) as (Ho & He & Hl & Hb).
  destruct (backoff_delay_doubles fails ltac:(unfold fails, u32_add; by apply Z.mod_pos_bound)) as [Hd _]. fold delay in Hd.
  rewrite Ef, Eb in Hb. fold fails in Hb. rewrite Hd in Hb.
  split_and!; rewrite ?Hs'.
  - intros u Hu. destruct (decide _); [done|]. destruct (waiting _ _ _); [by apply Ho0|]. rewrite Ho by done. by apply Ho0.
  - destruct (decide _); [done|]. destruct (waiting _ _ _); [done|]. by rewrite He.
  - destruct (decide _); [done|]. destruct (waiting _ _ _); [done|]. by etransitivity.
  - by exists alerts.
  - intros Hin. by rewrite decide_True.
  - intros Hin Hw. by rewrite decide_False, Hw.
  - intros Hin Hw. rewrite decide_False, Hw by done. exact Hb.
Qed.
End programs.

(** * A closed vault *)

Section demo.
#[local] Existing Instance demo_hex.

#[local] Instance demo_sdk : SuiSdk := {|
  sui_address_from_str s := None;
  object_id_from_hex_literal s := d ← strip_prefix (str "0x") s; mkSuiAddress <$> hex_decode d;
  address_text a := str "0x" ++ hex_encode (addr_bytes a);
  address_from_bcs _ := None; u64_from_bcs _ := None; transaction_from_bcs _ := None; transaction_digest_text _ := [] |}.

(** The id of a field is the id of its table and the key. *)
#[local] Instance demo_fields : FieldSdk := {|
  derive_dynamic_field_id table _ key := Ok (mkSuiAddress (addr_bytes table ++ key));
  bcs_u64 n := [n]; bcs_string s := s; bcs_bytes l := l;
  type_tag_ok _ := true; object_id_parse _ := None |}.

Definition demo_vault_id : ObjectID := small_id 20.
Definition senior_table : ObjectID := small_id 21.
Definition junior_table : ObjectID := small_id 22.
Definition request_table : ObjectID := small_id 23.

Definition json_variant (name : string) : Value := jobj [("@variant"%string, jstr (str name))].
Definition json_num (n : Z) : Value := JNumber (PosInt n).
Definition json_table (id : ObjectID) : Value := jobj [("id"%string, jstr (SuiAddress_to_hex id))].
Definition json_lane (n : Z) (table : ObjectID) : Value :=
  jobj [("head"%string, json_num 0); ("tail"%string, json_num n); ("entries"%string, json_table table)].

(** A closed and settled vault with [n] requests in its senior lane.  The head of
    a lane stays when requests are settled out of their turn. *)
Definition demo_vault_json (n : Z) : Value := jobj
  [("state"%string, json_variant "Closed"); ("settlement"%string, jobj []); ("capital"%string, json_variant "SeniorJunior");
   ("book"%string, jobj [("risk_state"%string, json_variant "Healthy"); ("last_accrual_ms"%string, json_num 0);
     ("active_junior_generation"%string, json_num 0); ("reset_proposal"%string, JNull)]);
   ("config"%string, jobj [("unwind_grace_ms"%string, json_num 1000)]);
   ("curator_commitment_breached"%string, JBool false);
   ("requests"%string, json_table request_table);
   ("senior_lane"%string, json_lane n senior_table); ("junior_lane"%string, json_lane 0 junior_table)].

Definition demo_request_json : Value := jobj [("value"%string, jobj
  [("payout_asset"%string, jstr (str "0x2::usdc::USDC")); ("requested_at_ms"%string, json_num 5);
   ("tranche"%string, json_variant "Senior"); ("capital_generation"%string, json_num 0)])].

(** The requests that are pending: the world of the vault. *)
Definition table_row (pending : list Z) (id : ObjectID) : option (option Value) :=
  let table := mkSuiAddress (take 32 (addr_bytes id)) in
  match drop 32 (addr_bytes id) with
  | [k] =>
      if bool_decide (k ∈ pending) then
        if bool_decide (table = senior_table) then Some (Some (jobj [("value"%string, json_num k)]))
        else if bool_decide (table = request_table) then Some (Some demo_request_json) else None
      else None
  | _ => None
  end.

(** [settle_queued_request] removes the request and its entry in the lane. *)
Definition settle_call (pending : list Z) (c : Cmd) : list Z :=
  match c with
  | Call _ _ "settle_queued_request" _ [_; _; _; PureU64 seq] => List.filter (λ k, negb (k =? seq)) pending
  | _ => pending
  end.

Definition demo_holdings : VaultHoldings := mkHoldings (str "0x2::usdc::USDC") [] [] None None 0.

Definition demo_info : TradingVaultInfo := mkVaultInfo demo_vault_id None 0 None None.

#[local] Instance demo_node (n : Z) : VaultNode (list Z) := {|
  clock_ms w := (w, 1000000);
  trading_vaults w := (w, Ok [demo_info]);
  buckets w := (w, Ok []);
  discover_holdings _ w := (w, Ok demo_holdings);
  get_object_json id w := (w, Ok (if bool_decide (id = demo_vault_id) then Some (demo_vault_json n) else None));
  try_get_object_json id w := (w, Ok (table_row w id));
  get_object_type _ w := (w, Ok None);
  owned_objects _ _ w := (w, Ok []);
  fetch_shared _ _ w := (w, Ok tt);
  dev_inspect_fails _ w := (w, Ok false);
  dev_inspect_bool _ w := (w, Ok (Ok false));
  submit _ tx w := (foldl settle_call w (tx_commands tx), Ok tt);
  realized_vol _ _ w := (w, Err []);
  descriptor w := (w, Err []);
  hermes_update _ w := (w, Err []);
  composed _ _ _ _ w := (w, Ok ∅);
  fetch_equity _ w := (w, Err []) |}.

Definition demo_ctx : TradingVaultCtx :=
  mkCtx (small_id 10) None None (small_id 11) (small_id 12) (small_id 13) (small_id 14) (small_id 15) [] None None None Disabled
    None 30 500 3600000 60000.

Definition demo_keeper (n : Z) : Keeper (list Z) := mkKeeper None ∅ ∅ ∅ ∅ ∅ ∅ [] (seqZ 0 n).

Definition demo_failing : Keeper (list Z) := demo_keeper 3 <| crank_backoff := {[small_id 9 := (4, 2000000)]} |>.

Lemma tick_vault_contained_witness :
  let s' := (run (tick_vault (H := demo_node 3) demo_ctx ∅ None 1000000 demo_info) demo_failing).1 in
  vault_state (small_id 9) s' = vault_state (small_id 9) demo_failing ∧ crank_backoff s' = {[small_id 9 := (4, 2000000)]}.
Proof.
  destruct (tick_vault_contained (H := demo_node 3) demo_ctx ∅ None 1000000 demo_info demo_failing demo_vault_id)
    as (Hothers & _ & _ & _ & _ & _ & Hcranked); [vm_compute; reflexivity|vm_compute; discriminate|].
  split; [apply Hothers; vm_compute; discriminate|].
  rewrite Hcranked; [vm_compute; reflexivity|apply (bool_decide_eq_false_1 _); vm_compute; reflexivity|vm_compute; reflexivity].
Defined.

(** The requests that are pending after [t] ticks, and whether the vault is
    settled for the keeper. *)
Definition after_ticks (n : Z) (t : nat) : list Z * bool :=
  let s := (run (ticks (H := demo_node n) demo_ctx t) (demo_keeper n)).1 in
  (world s, bool_decide (demo_vault_id ∈ settled_done s)).

(** Up to [MAX_MIXED_RUN] requests are settled, and then the vault is done. *)
Lemma few_requests_settled : after_ticks 25 1 = ([], false) ∧ after_ticks 25 2 = ([], true).
Proof. split; vm_compute; reflexivity. Qed.

(** Of more requests only the first [MAX_MIXED_RUN] are settled: the next tick
    reads the same indexes, finds nothing there, and never looks at the vault
    again. *)
Lemma late_requests_abandoned :
  after_ticks 27 1 = ([25; 26], false) ∧ after_ticks 27 2 = ([25; 26], true) ∧ after_ticks 27 20 = ([25; 26], true).
Proof. split_and!; vm_compute; reflexivity. Qed.
End demo.
