(* ===== verification/IndexerEvents.v ===== *)
(** [crates/protocol-types]: the events of the Move packages ([events.rs]) as
    the indexer consumes them, and the identifiers of [ids.rs].  [wf] says that
    the numbers of an event are in the range of their types. *)

From S2P Require Import Prelude RustStr ExchangeTypes Json Quote.

(** * Identifiers ([ids.rs]) *)

Inductive IdParseError := NotHex | WrongLength (got : nat).

Definition id_wf (id : ObjectId) : Prop := bytes32 (addr_bytes id).

Section ids.
Context `{HexCrate}.

Definition to_hex (id : ObjectId) : rstring := str "0x" ++ hex_encode (addr_bytes id).

Definition from_hex (s : rstring) : result IdParseError ObjectId :=
  let stripped := match strip_prefix (str "0x") s with Some s' => s' | None => s end in
  match hex_decode stripped with
  | None => Err NotHex
  | Some bs => if (length bs =? 32)%nat then Ok (mkSuiAddress bs) else Err (WrongLength (length bs))
  end.

Lemma from_hex_to_hex `{!HexCrateSpec} id : id_wf id → from_hex (to_hex id) = Ok id.
Proof.
  intros [Hlen Hb]. unfold from_hex, to_hex. rewrite strip_prefix_app, hex_decode_encode by done.
  rewrite Hlen. by destruct id.
Qed.
End ids.

(** * Events ([events.rs]) *)

Definition u8 (n : Z) : Prop := 0 ≤ n < 256.

Abbreviation AssetType := rstring.

Module TvTypeAmount.
Record t := mk {
  key : AssetType; value : Z
}.
End TvTypeAmount.

Module TvTypeAmountMap.
Record t := mk {
  contents : list TvTypeAmount.t
}.
End TvTypeAmountMap.

Module BucketCreated.
Record t := mk {
  bucket_id : ObjectId; asset_type : AssetType; settlement_type : AssetType; call_type : AssetType;
  expiry_ms : Z; strike : Z; strike_scale : Z
}.
Definition wf (e : t) : Prop :=
  id_wf (bucket_id e) ∧ u64 (expiry_ms e) ∧ u128 (strike e) ∧ u8 (strike_scale e).
End BucketCreated.

Module WriteExecuted.
Record t := mk {
  bucket_id : ObjectId; signer_id : ObjectId; collateral_source : ObjectId;
  signer_token_recipient : SuiAddress; executor : SuiAddress; position_id : ObjectId;
  position_recipient : SuiAddress; call_token_recipient : SuiAddress; write_amount : Z; gross_premium : Z;
  fee : Z; net_premium : Z; range_start : Z; range_end : Z; nonce : Z
}.
Definition wf (e : t) : Prop :=
  id_wf (bucket_id e) ∧ id_wf (signer_id e) ∧ id_wf (collateral_source e) ∧ id_wf (signer_token_recipient e) ∧
  id_wf (executor e) ∧ id_wf (position_id e) ∧ id_wf (position_recipient e) ∧ id_wf (call_token_recipient e) ∧
  u64 (write_amount e) ∧ u64 (gross_premium e) ∧ u64 (fee e) ∧ u64 (net_premium e) ∧ u128 (range_start e) ∧
  u128 (range_end e) ∧ u64 (nonce e).
End WriteExecuted.

Module Exercised.
Record t := mk {
  bucket_id : ObjectId; exerciser : SuiAddress; amount : Z; settlement_paid : Z; cursor_after : Z
}.
Definition wf (e : t) : Prop :=
  id_wf (bucket_id e) ∧ id_wf (exerciser e) ∧ u64 (amount e) ∧ u64 (settlement_paid e) ∧ u128 (cursor_after e).
End Exercised.

Module Redeemed.
Record t := mk {
  bucket_id : ObjectId; position_id : ObjectId; redeemer : SuiAddress; range_start : Z; range_end : Z;
  underlying_returned : Z; settlement_returned : Z
}.
Definition wf (e : t) : Prop :=
  id_wf (bucket_id e) ∧ id_wf (position_id e) ∧ id_wf (redeemer e) ∧ u128 (range_start e) ∧
  u128 (range_end e) ∧ u64 (underlying_returned e) ∧ u64 (settlement_returned e).
End Redeemed.

Module ExpiredOptionBurned.
Record t := mk {
  bucket_id : ObjectId; burner : SuiAddress; amount : Z
}.
Definition wf (e : t) : Prop :=
  id_wf (bucket_id e) ∧ id_wf (burner e) ∧ u64 (amount e).
End ExpiredOptionBurned.

Module BucketCleaned.
Record t := mk {
  bucket_id : ObjectId
}.
Definition wf (e : t) : Prop :=
  id_wf (bucket_id e).
End BucketCleaned.

Module BucketInvalidated.
Record t := mk {
  bucket_id : ObjectId; at_ms : Z; admin : SuiAddress; reason : list Z
}.
Definition wf (e : t) : Prop :=
  id_wf (bucket_id e) ∧ u64 (at_ms e) ∧ id_wf (admin e) ∧ bytes (reason e).
End BucketInvalidated.

Module BucketRevalidated.
Record t := mk {
  bucket_id : ObjectId; at_ms : Z; admin : SuiAddress; reason : list Z
}.
Definition wf (e : t) : Prop :=
  id_wf (bucket_id e) ∧ u64 (at_ms e) ∧ id_wf (admin e) ∧ bytes (reason e).
End BucketRevalidated.

Module SignerCreated.
Record t := mk {
  signer_id : ObjectId; owner : SuiAddress; signing_scheme : SigningScheme; signing_pubkey : list Z
}.
Definition wf (e : t) : Prop :=
  id_wf (signer_id e) ∧ id_wf (owner e) ∧ bytes (signing_pubkey e).
End SignerCreated.

Module SigningKeyRotated.
Record t := mk {
  signer_id : ObjectId; new_scheme : SigningScheme; new_pubkey : list Z
}.
Definition wf (e : t) : Prop :=
  id_wf (signer_id e) ∧ bytes (new_pubkey e).
End SigningKeyRotated.

Module FeeUpdated.
Record t := mk {
  old_bps : Z; new_bps : Z
}.
Definition wf (e : t) : Prop :=
  u64 (old_bps e) ∧ u64 (new_bps e).
End FeeUpdated.

Module TreasuryWithdrawn.
Record t := mk {
  asset_type : AssetType; amount : Z; recipient : SuiAddress
}.
Definition wf (e : t) : Prop :=
  u64 (amount e) ∧ id_wf (recipient e).
End TreasuryWithdrawn.

Module DeepBookPoolCreated.
Record t := mk {
  pool_id : ObjectId; bucket_id : ObjectId; base_asset_type : AssetType; quote_asset_type : AssetType;
  tick_size : Z; lot_size : Z; min_size : Z; taker_fee : Z; maker_fee : Z
}.
Definition wf (e : t) : Prop :=
  id_wf (pool_id e) ∧ id_wf (bucket_id e) ∧ u64 (tick_size e) ∧ u64 (lot_size e) ∧ u64 (min_size e) ∧
  u64 (taker_fee e) ∧ u64 (maker_fee e).
End DeepBookPoolCreated.

Module DeepBookOrderFilled.
Record t := mk {
  pool_id : ObjectId; bucket_id : ObjectId; taker_balance_manager_id : ObjectId;
  maker_balance_manager_id : ObjectId; taker_is_bid : bool; base_quantity : Z; quote_quantity : Z; price : Z;
  taker_fee : Z; taker_fee_is_deep : bool; maker_fee : Z; maker_fee_is_deep : bool; timestamp_ms : Z
}.
Definition wf (e : t) : Prop :=
  id_wf (pool_id e) ∧ id_wf (bucket_id e) ∧ id_wf (taker_balance_manager_id e) ∧
  id_wf (maker_balance_manager_id e) ∧ u64 (base_quantity e) ∧ u64 (quote_quantity e) ∧ u64 (price e) ∧
  u64 (taker_fee e) ∧ u64 (maker_fee e) ∧ u64 (timestamp_ms e).
End DeepBookOrderFilled.

Module CollateralizedWrite.
Record t := mk {
  bucket_id : ObjectId; writer : SuiAddress; position_id : option ObjectId; amount : Z; range_start : Z;
  range_end : Z
}.
Definition wf (e : t) : Prop :=
  id_wf (bucket_id e) ∧ id_wf (writer e) ∧ from_option id_wf True (position_id e) ∧ u64 (amount e) ∧
  u128 (range_start e) ∧ u128 (range_end e).
End CollateralizedWrite.

Module AuctionCreated.
Record t := mk {
  auction_id : ObjectId; origin : ObjectId; escrow_type : AssetType; bid_type : AssetType; amount : Z;
  reserve_bid : Z; deadline_ms : Z; max_deadline_ms : Z; min_increment_bps : Z; coupled : bool
}.
Definition wf (e : t) : Prop :=
  id_wf (auction_id e) ∧ id_wf (origin e) ∧ u64 (amount e) ∧ u64 (reserve_bid e) ∧ u64 (deadline_ms e) ∧
  u64 (max_deadline_ms e) ∧ u64 (min_increment_bps e).
End AuctionCreated.

Module AuctionBid.
Record t := mk {
  auction_id : ObjectId; bidder : SuiAddress; token_recipient : SuiAddress; amount : Z; previous_best : Z;
  deadline_ms : Z
}.
Definition wf (e : t) : Prop :=
  id_wf (auction_id e) ∧ id_wf (bidder e) ∧ id_wf (token_recipient e) ∧ u64 (amount e) ∧
  u64 (previous_best e) ∧ u64 (deadline_ms e).
End AuctionBid.

Module AuctionSettled.
Record t := mk {
  auction_id : ObjectId; origin : ObjectId; bidder : SuiAddress; token_recipient : SuiAddress; amount : Z;
  winning_bid : Z
}.
Definition wf (e : t) : Prop :=
  id_wf (auction_id e) ∧ id_wf (origin e) ∧ id_wf (bidder e) ∧ id_wf (token_recipient e) ∧ u64 (amount e) ∧
  u64 (winning_bid e).
End AuctionSettled.

Module AuctionUnfilled.
Record t := mk {
  auction_id : ObjectId; origin : ObjectId; amount : Z; reserve_bid : Z
}.
Definition wf (e : t) : Prop :=
  id_wf (auction_id e) ∧ id_wf (origin e) ∧ u64 (amount e) ∧ u64 (reserve_bid e).
End AuctionUnfilled.

Module RfqCreated.
Record t := mk {
  rfq_id : ObjectId; auction_id : ObjectId; bucket_id : ObjectId; origin : ObjectId; amount : Z;
  reserve_premium : Z
}.
Definition wf (e : t) : Prop :=
  id_wf (rfq_id e) ∧ id_wf (auction_id e) ∧ id_wf (bucket_id e) ∧ id_wf (origin e) ∧ u64 (amount e) ∧
  u64 (reserve_premium e).
End RfqCreated.

Module RfqSettled.
Record t := mk {
  rfq_id : ObjectId; auction_id : ObjectId; bucket_id : ObjectId; origin : ObjectId; winner : SuiAddress;
  call_recipient : SuiAddress; position_id : ObjectId; position_recipient : SuiAddress; amount : Z;
  gross_premium : Z; fee : Z; net_premium : Z; range_start : Z; range_end : Z
}.
Definition wf (e : t) : Prop :=
  id_wf (rfq_id e) ∧ id_wf (auction_id e) ∧ id_wf (bucket_id e) ∧ id_wf (origin e) ∧ id_wf (winner e) ∧
  id_wf (call_recipient e) ∧ id_wf (position_id e) ∧ id_wf (position_recipient e) ∧ u64 (amount e) ∧
  u64 (gross_premium e) ∧ u64 (fee e) ∧ u64 (net_premium e) ∧ u128 (range_start e) ∧ u128 (range_end e).
End RfqSettled.

Module RfqExpiredUnsold.
Record t := mk {
  rfq_id : ObjectId; auction_id : ObjectId; bucket_id : ObjectId; origin : ObjectId; amount : Z;
  reserve_premium : Z
}.
Definition wf (e : t) : Prop :=
  id_wf (rfq_id e) ∧ id_wf (auction_id e) ∧ id_wf (bucket_id e) ∧ id_wf (origin e) ∧ u64 (amount e) ∧
  u64 (reserve_premium e).
End RfqExpiredUnsold.

Module VaultRfqSettled.
Record t := mk {
  auction_id : ObjectId; bucket_id : ObjectId; vault_id : ObjectId; round : Z; winner : SuiAddress;
  call_recipient : SuiAddress; position_id : ObjectId; amount : Z; gross_premium : Z; fee : Z; net_premium : Z;
  range_start : Z; range_end : Z
}.
Definition wf (e : t) : Prop :=
  id_wf (auction_id e) ∧ id_wf (bucket_id e) ∧ id_wf (vault_id e) ∧ u64 (round e) ∧ id_wf (winner e) ∧
  id_wf (call_recipient e) ∧ id_wf (position_id e) ∧ u64 (amount e) ∧ u64 (gross_premium e) ∧ u64 (fee e) ∧
  u64 (net_premium e) ∧ u128 (range_start e) ∧ u128 (range_end e).
End VaultRfqSettled.

Module VaultRfqUnsold.
Record t := mk {
  auction_id : ObjectId; bucket_id : ObjectId; vault_id : ObjectId; round : Z; amount : Z; reserve_premium : Z
}.
Definition wf (e : t) : Prop :=
  id_wf (auction_id e) ∧ id_wf (bucket_id e) ∧ id_wf (vault_id e) ∧ u64 (round e) ∧ u64 (amount e) ∧
  u64 (reserve_premium e).
End VaultRfqUnsold.

Module SwapRfqSettled.
Record t := mk {
  swap_id : ObjectId; vault_id : ObjectId; round : Z; winner : SuiAddress; settlement_filled : Z;
  underlying_in : Z
}.
Definition wf (e : t) : Prop :=
  id_wf (swap_id e) ∧ id_wf (vault_id e) ∧ u64 (round e) ∧ id_wf (winner e) ∧ u64 (settlement_filled e) ∧
  u64 (underlying_in e).
End SwapRfqSettled.

Module SwapRfqUnfilled.
Record t := mk {
  swap_id : ObjectId; vault_id : ObjectId; round : Z; amount_s : Z
}.
Definition wf (e : t) : Prop :=
  id_wf (swap_id e) ∧ id_wf (vault_id e) ∧ u64 (round e) ∧ u64 (amount_s e).
End SwapRfqUnfilled.

Module VaultCreated.
Record t := mk {
  vault_id : ObjectId; underlying_type : AssetType; settlement_type : AssetType; share_type : AssetType;
  mgmt_fee_bps_annual : Z; perf_fee_bps : Z; round_ms : Z; selling_window_ms : Z; min_strike_bps_over_spot : Z;
  max_strike_bps_over_spot : Z
}.
Definition wf (e : t) : Prop :=
  id_wf (vault_id e) ∧ u64 (mgmt_fee_bps_annual e) ∧ u64 (perf_fee_bps e) ∧ u64 (round_ms e) ∧
  u64 (selling_window_ms e) ∧ u64 (min_strike_bps_over_spot e) ∧ u64 (max_strike_bps_over_spot e).
End VaultCreated.

Module VaultConfigApplied.
Record t := mk {
  vault_id : ObjectId; round : Z; mgmt_fee_bps_annual : Z; perf_fee_bps : Z; round_ms : Z;
  selling_window_ms : Z; min_strike_bps_over_spot : Z; max_strike_bps_over_spot : Z
}.
Definition wf (e : t) : Prop :=
  id_wf (vault_id e) ∧ u64 (round e) ∧ u64 (mgmt_fee_bps_annual e) ∧ u64 (perf_fee_bps e) ∧ u64 (round_ms e) ∧
  u64 (selling_window_ms e) ∧ u64 (min_strike_bps_over_spot e) ∧ u64 (max_strike_bps_over_spot e).
End VaultConfigApplied.

Module VaultDeposit.
Record t := mk {
  vault_id : ObjectId; depositor : SuiAddress; round : Z; amount : Z
}.
Definition wf (e : t) : Prop :=
  id_wf (vault_id e) ∧ id_wf (depositor e) ∧ u64 (round e) ∧ u64 (amount e).
End VaultDeposit.

Module SharesClaimed.
Record t := mk {
  vault_id : ObjectId; owner : SuiAddress; round : Z; amount : Z; shares : Z
}.
Definition wf (e : t) : Prop :=
  id_wf (vault_id e) ∧ id_wf (owner e) ∧ u64 (round e) ∧ u64 (amount e) ∧ u64 (shares e).
End SharesClaimed.

Module WithdrawInitiated.
Record t := mk {
  vault_id : ObjectId; owner : SuiAddress; round : Z; shares : Z
}.
Definition wf (e : t) : Prop :=
  id_wf (vault_id e) ∧ id_wf (owner e) ∧ u64 (round e) ∧ u64 (shares e).
End WithdrawInitiated.

Module WithdrawCompleted.
Record t := mk {
  vault_id : ObjectId; owner : SuiAddress; round : Z; shares : Z; amount : Z
}.
Definition wf (e : t) : Prop :=
  id_wf (vault_id e) ∧ id_wf (owner e) ∧ u64 (round e) ∧ u64 (shares e) ∧ u64 (amount e).
End WithdrawCompleted.

Module InstantWithdraw.
Record t := mk {
  vault_id : ObjectId; owner : SuiAddress; round : Z; amount : Z
}.
Definition wf (e : t) : Prop :=
  id_wf (vault_id e) ∧ id_wf (owner e) ∧ u64 (round e) ∧ u64 (amount e).
End InstantWithdraw.

Module VaultBucketSelected.
Record t := mk {
  vault_id : ObjectId; round : Z; bucket_id : ObjectId; strike : Z; strike_scale : Z; expiry_ms : Z;
  selling_ends_ms : Z; spot : Z; spot_scale : Z
}.
Definition wf (e : t) : Prop :=
  id_wf (vault_id e) ∧ u64 (round e) ∧ id_wf (bucket_id e) ∧ u128 (strike e) ∧ u8 (strike_scale e) ∧
  u64 (expiry_ms e) ∧ u64 (selling_ends_ms e) ∧ u128 (spot e) ∧ u8 (spot_scale e).
End VaultBucketSelected.

Module VaultPositionRedeemed.
Record t := mk {
  vault_id : ObjectId; round : Z; position_id : ObjectId; underlying_returned : Z; settlement_returned : Z
}.
Definition wf (e : t) : Prop :=
  id_wf (vault_id e) ∧ u64 (round e) ∧ id_wf (position_id e) ∧ u64 (underlying_returned e) ∧
  u64 (settlement_returned e).
End VaultPositionRedeemed.

Module VaultFeesCharged.
Record t := mk {
  vault_id : ObjectId; round : Z; mgmt_fee : Z; perf_fee : Z
}.
Definition wf (e : t) : Prop :=
  id_wf (vault_id e) ∧ u64 (round e) ∧ u64 (mgmt_fee e) ∧ u64 (perf_fee e).
End VaultFeesCharged.

Module VaultRoundFinalized.
Record t := mk {
  vault_id : ObjectId; round : Z; pps : Z; aum : Z; shares : Z; premium_collected : Z; premium_underlying : Z;
  withdrawals_owed : Z; shares_burned : Z; deposits_processed : Z; shares_minted : Z
}.
Definition wf (e : t) : Prop :=
  id_wf (vault_id e) ∧ u64 (round e) ∧ u128 (pps e) ∧ u64 (aum e) ∧ u64 (shares e) ∧
  u64 (premium_collected e) ∧ u64 (premium_underlying e) ∧ u64 (withdrawals_owed e) ∧ u64 (shares_burned e) ∧
  u64 (deposits_processed e) ∧ u64 (shares_minted e).
End VaultRoundFinalized.

Module VaultConfigUpdated.
Record t := mk {
  vault_id : ObjectId; round : Z
}.
Definition wf (e : t) : Prop :=
  id_wf (vault_id e) ∧ u64 (round e).
End VaultConfigUpdated.

Module VaultDepositsPaused.
Record t := mk {
  vault_id : ObjectId; paused : bool
}.
Definition wf (e : t) : Prop :=
  id_wf (vault_id e).
End VaultDepositsPaused.

Module PutBucketCreated.
Record t := mk {
  bucket_id : ObjectId; asset_type : AssetType; settlement_type : AssetType; put_type : AssetType;
  expiry_ms : Z; strike : Z; strike_scale : Z
}.
Definition wf (e : t) : Prop :=
  id_wf (bucket_id e) ∧ u64 (expiry_ms e) ∧ u128 (strike e) ∧ u8 (strike_scale e).
End PutBucketCreated.

Module PutWriteExecuted.
Record t := mk {
  bucket_id : ObjectId; signer_id : ObjectId; collateral_source : ObjectId;
  signer_token_recipient : SuiAddress; executor : SuiAddress; position_id : ObjectId;
  position_recipient : SuiAddress; put_token_recipient : SuiAddress; write_amount : Z; collateral : Z;
  gross_premium : Z; fee : Z; net_premium : Z; range_start : Z; range_end : Z; nonce : Z
}.
Definition wf (e : t) : Prop :=
  id_wf (bucket_id e) ∧ id_wf (signer_id e) ∧ id_wf (collateral_source e) ∧ id_wf (signer_token_recipient e) ∧
  id_wf (executor e) ∧ id_wf (position_id e) ∧ id_wf (position_recipient e) ∧ id_wf (put_token_recipient e) ∧
  u64 (write_amount e) ∧ u64 (collateral e) ∧ u64 (gross_premium e) ∧ u64 (fee e) ∧ u64 (net_premium e) ∧
  u128 (range_start e) ∧ u128 (range_end e) ∧ u64 (nonce e).
End PutWriteExecuted.

Module PutCollateralizedWrite.
Record t := mk {
  bucket_id : ObjectId; writer : SuiAddress; position_id : option ObjectId; write_amount : Z; collateral : Z;
  range_start : Z; range_end : Z
}.
Definition wf (e : t) : Prop :=
  id_wf (bucket_id e) ∧ id_wf (writer e) ∧ from_option id_wf True (position_id e) ∧ u64 (write_amount e) ∧
  u64 (collateral e) ∧ u128 (range_start e) ∧ u128 (range_end e).
End PutCollateralizedWrite.

Module PutExercised.
Record t := mk {
  bucket_id : ObjectId; exerciser : SuiAddress; amount : Z; settlement_paid : Z; cursor_after : Z
}.
Definition wf (e : t) : Prop :=
  id_wf (bucket_id e) ∧ id_wf (exerciser e) ∧ u64 (amount e) ∧ u64 (settlement_paid e) ∧ u128 (cursor_after e).
End PutExercised.

Module PutRedeemed.
Record t := mk {
  bucket_id : ObjectId; position_id : ObjectId; redeemer : SuiAddress; range_start : Z; range_end : Z;
  underlying_returned : Z; settlement_returned : Z
}.
Definition wf (e : t) : Prop :=
  id_wf (bucket_id e) ∧ id_wf (position_id e) ∧ id_wf (redeemer e) ∧ u128 (range_start e) ∧
  u128 (range_end e) ∧ u64 (underlying_returned e) ∧ u64 (settlement_returned e).
End PutRedeemed.

Module PutExpiredOptionBurned.
Record t := mk {
  bucket_id : ObjectId; burner : SuiAddress; amount : Z
}.
Definition wf (e : t) : Prop :=
  id_wf (bucket_id e) ∧ id_wf (burner e) ∧ u64 (amount e).
End PutExpiredOptionBurned.

Module PutBucketCleaned.
Record t := mk {
  bucket_id : ObjectId; dust_swept : Z
}.
Definition wf (e : t) : Prop :=
  id_wf (bucket_id e) ∧ u64 (dust_swept e).
End PutBucketCleaned.

Module PutBucketInvalidated.
Record t := mk {
  bucket_id : ObjectId; at_ms : Z; admin : SuiAddress; reason : list Z
}.
Definition wf (e : t) : Prop :=
  id_wf (bucket_id e) ∧ u64 (at_ms e) ∧ id_wf (admin e) ∧ bytes (reason e).
End PutBucketInvalidated.

Module PutBucketRevalidated.
Record t := mk {
  bucket_id : ObjectId; at_ms : Z; admin : SuiAddress; reason : list Z
}.
Definition wf (e : t) : Prop :=
  id_wf (bucket_id e) ∧ u64 (at_ms e) ∧ id_wf (admin e) ∧ bytes (reason e).
End PutBucketRevalidated.

Module PutRfqCreated.
Record t := mk {
  rfq_id : ObjectId; auction_id : ObjectId; bucket_id : ObjectId; origin : ObjectId; amount : Z;
  collateral : Z; reserve_premium : Z
}.
Definition wf (e : t) : Prop :=
  id_wf (rfq_id e) ∧ id_wf (auction_id e) ∧ id_wf (bucket_id e) ∧ id_wf (origin e) ∧ u64 (amount e) ∧
  u64 (collateral e) ∧ u64 (reserve_premium e).
End PutRfqCreated.

Module PutRfqSettled.
Record t := mk {
  rfq_id : ObjectId; auction_id : ObjectId; bucket_id : ObjectId; origin : ObjectId; winner : SuiAddress;
  put_recipient : SuiAddress; position_id : ObjectId; position_recipient : SuiAddress; amount : Z;
  gross_premium : Z; fee : Z; net_premium : Z; range_start : Z; range_end : Z
}.
Definition wf (e : t) : Prop :=
  id_wf (rfq_id e) ∧ id_wf (auction_id e) ∧ id_wf (bucket_id e) ∧ id_wf (origin e) ∧ id_wf (winner e) ∧
  id_wf (put_recipient e) ∧ id_wf (position_id e) ∧ id_wf (position_recipient e) ∧ u64 (amount e) ∧
  u64 (gross_premium e) ∧ u64 (fee e) ∧ u64 (net_premium e) ∧ u128 (range_start e) ∧ u128 (range_end e).
End PutRfqSettled.

Module PutRfqExpiredUnsold.
Record t := mk {
  rfq_id : ObjectId; auction_id : ObjectId; bucket_id : ObjectId; origin : ObjectId; amount : Z;
  reserve_premium : Z
}.
Definition wf (e : t) : Prop :=
  id_wf (rfq_id e) ∧ id_wf (auction_id e) ∧ id_wf (bucket_id e) ∧ id_wf (origin e) ∧ u64 (amount e) ∧
  u64 (reserve_premium e).
End PutRfqExpiredUnsold.

Module OffsetClosed.
Record t := mk {
  bucket_id : ObjectId; closer : SuiAddress; position_id : ObjectId; is_put : bool; amount : Z;
  collateral_returned : Z; range_start : Z; range_end : Z
}.
Definition wf (e : t) : Prop :=
  id_wf (bucket_id e) ∧ id_wf (closer e) ∧ id_wf (position_id e) ∧ u64 (amount e) ∧
  u64 (collateral_returned e) ∧ u128 (range_start e) ∧ u128 (range_end e).
End OffsetClosed.

Module SpreadWritten.
Record t := mk {
  bucket_id : ObjectId; long_bucket_id : ObjectId; writer : SuiAddress; position_id : ObjectId; amount : Z;
  exercise_cash : Z; range_start : Z; range_end : Z
}.
Definition wf (e : t) : Prop :=
  id_wf (bucket_id e) ∧ id_wf (long_bucket_id e) ∧ id_wf (writer e) ∧ id_wf (position_id e) ∧ u64 (amount e) ∧
  u64 (exercise_cash e) ∧ u128 (range_start e) ∧ u128 (range_end e).
End SpreadWritten.

Module SpreadUnwound.
Record t := mk {
  bucket_id : ObjectId; long_bucket_id : ObjectId; caller : SuiAddress; range_start : Z; range_end : Z;
  amount : Z
}.
Definition wf (e : t) : Prop :=
  id_wf (bucket_id e) ∧ id_wf (long_bucket_id e) ∧ id_wf (caller e) ∧ u128 (range_start e) ∧
  u128 (range_end e) ∧ u64 (amount e).
End SpreadUnwound.

Module SpreadClosed.
Record t := mk {
  bucket_id : ObjectId; closer : SuiAddress; position_id : ObjectId; range_start : Z; range_end : Z; amount : Z
}.
Definition wf (e : t) : Prop :=
  id_wf (bucket_id e) ∧ id_wf (closer e) ∧ id_wf (position_id e) ∧ u128 (range_start e) ∧ u128 (range_end e) ∧
  u64 (amount e).
End SpreadClosed.

Module SpreadRedeemed.
Record t := mk {
  bucket_id : ObjectId; redeemer : SuiAddress; position_id : ObjectId; range_start : Z; range_end : Z;
  amount : Z
}.
Definition wf (e : t) : Prop :=
  id_wf (bucket_id e) ∧ id_wf (redeemer e) ∧ id_wf (position_id e) ∧ u128 (range_start e) ∧
  u128 (range_end e) ∧ u64 (amount e).
End SpreadRedeemed.

Module PutSpreadWritten.
Record t := mk {
  bucket_id : ObjectId; long_bucket_id : ObjectId; writer : SuiAddress; position_id : ObjectId; amount : Z;
  top_up : Z; range_start : Z; range_end : Z
}.
Definition wf (e : t) : Prop :=
  id_wf (bucket_id e) ∧ id_wf (long_bucket_id e) ∧ id_wf (writer e) ∧ id_wf (position_id e) ∧ u64 (amount e) ∧
  u64 (top_up e) ∧ u128 (range_start e) ∧ u128 (range_end e).
End PutSpreadWritten.

Module PutSpreadExercised.
Record t := mk {
  bucket_id : ObjectId; long_bucket_id : ObjectId; exerciser : SuiAddress; amount : Z; payout : Z; cursor : Z
}.
Definition wf (e : t) : Prop :=
  id_wf (bucket_id e) ∧ id_wf (long_bucket_id e) ∧ id_wf (exerciser e) ∧ u64 (amount e) ∧ u64 (payout e) ∧
  u128 (cursor e).
End PutSpreadExercised.

Module PutSpreadClosed.
Record t := mk {
  bucket_id : ObjectId; closer : SuiAddress; position_id : ObjectId; range_start : Z; range_end : Z; amount : Z
}.
Definition wf (e : t) : Prop :=
  id_wf (bucket_id e) ∧ id_wf (closer e) ∧ id_wf (position_id e) ∧ u128 (range_start e) ∧ u128 (range_end e) ∧
  u64 (amount e).
End PutSpreadClosed.

Module PutSpreadRedeemed.
Record t := mk {
  bucket_id : ObjectId; redeemer : SuiAddress; position_id : ObjectId; range_start : Z; range_end : Z;
  amount : Z
}.
Definition wf (e : t) : Prop :=
  id_wf (bucket_id e) ∧ id_wf (redeemer e) ∧ id_wf (position_id e) ∧ u128 (range_start e) ∧
  u128 (range_end e) ∧ u64 (amount e).
End PutSpreadRedeemed.

Module VolPosted.
Record t := mk {
  underlying : AssetType; poster : SuiAddress; vol_bps : Z; previous : Z; seeded : bool
}.
Definition wf (e : t) : Prop :=
  id_wf (poster e) ∧ u64 (vol_bps e) ∧ u64 (previous e).
End VolPosted.

Module TvVaultCreated.
Record t := mk {
  vault_id : ObjectId; creator : SuiAddress; curator_cap_id : ObjectId; accounting_asset : AssetType;
  lockup_ms : Z; curator_fee_bps : Z; unwind_grace_ms : Z; structure_code : Z; senior_hurdle_bps_annual : Z;
  target_junior_bps : Z; maintenance_junior_bps : Z; upside_code : Z; residual_participation_bps : Z;
  total_return_cap_bps : Z; terms_version : Z; spec_hash : list Z
}.
Definition wf (e : t) : Prop :=
  id_wf (vault_id e) ∧ id_wf (creator e) ∧ id_wf (curator_cap_id e) ∧ u64 (lockup_ms e) ∧
  u64 (curator_fee_bps e) ∧ u64 (unwind_grace_ms e) ∧ u8 (structure_code e) ∧
  u64 (senior_hurdle_bps_annual e) ∧ u64 (target_junior_bps e) ∧ u64 (maintenance_junior_bps e) ∧
  u8 (upside_code e) ∧ u64 (residual_participation_bps e) ∧ u64 (total_return_cap_bps e) ∧
  u64 (terms_version e) ∧ bytes (spec_hash e).
End TvVaultCreated.

Module TvVaultClosing.
Record t := mk {
  vault_id : ObjectId
}.
Definition wf (e : t) : Prop :=
  id_wf (vault_id e).
End TvVaultClosing.

Module TvVaultClosed.
Record t := mk {
  vault_id : ObjectId
}.
Definition wf (e : t) : Prop :=
  id_wf (vault_id e).
End TvVaultClosed.

Module TvDepositsPaused.
Record t := mk {
  vault_id : ObjectId; paused : bool
}.
Definition wf (e : t) : Prop :=
  id_wf (vault_id e).
End TvDepositsPaused.

Module TvMmReleaseToggled.
Record t := mk {
  vault_id : ObjectId; enabled : bool
}.
Definition wf (e : t) : Prop :=
  id_wf (vault_id e).
End TvMmReleaseToggled.

Module TvCuratorRotated.
Record t := mk {
  vault_id : ObjectId; old_cap_id : ObjectId; new_cap_id : ObjectId; recipient : SuiAddress
}.
Definition wf (e : t) : Prop :=
  id_wf (vault_id e) ∧ id_wf (old_cap_id e) ∧ id_wf (new_cap_id e) ∧ id_wf (recipient e).
End TvCuratorRotated.

Module TvDeposited.
Record t := mk {
  vault_id : ObjectId; depositor : SuiAddress; commitment_position : option ObjectId; position_id : ObjectId;
  tranche : Z; capital_generation : Z; asset : AssetType; amount : Z; value : Z; shares : Z;
  tranche_shares : Z; locked_until_ms : Z
}.
Definition wf (e : t) : Prop :=
  id_wf (vault_id e) ∧ id_wf (depositor e) ∧ from_option id_wf True (commitment_position e) ∧
  id_wf (position_id e) ∧ u8 (tranche e) ∧ u64 (capital_generation e) ∧ u64 (amount e) ∧ u64 (value e) ∧
  u128 (shares e) ∧ u128 (tranche_shares e) ∧ u64 (locked_until_ms e).
End TvDeposited.

Module TvWithdrawRequested.
Record t := mk {
  vault_id : ObjectId; global_seq : Z; lane : Z; position_id : ObjectId; recipient : SuiAddress; tranche : Z;
  capital_generation : Z; shares : Z; basis : Z; payout_asset : AssetType; requested_at_ms : Z
}.
Definition wf (e : t) : Prop :=
  id_wf (vault_id e) ∧ u64 (global_seq e) ∧ u8 (lane e) ∧ id_wf (position_id e) ∧ id_wf (recipient e) ∧
  u8 (tranche e) ∧ u64 (capital_generation e) ∧ u128 (shares e) ∧ u64 (basis e) ∧ u64 (requested_at_ms e).
End TvWithdrawRequested.

Module TvWithdrawFulfilled.
Record t := mk {
  vault_id : ObjectId; global_seq : Z; lane : Z; recipient : SuiAddress; tranche : Z; capital_generation : Z;
  shares : Z; value : Z; basis : Z; profit : Z; gross_fee : Z; protocol_cut : Z; curator_net : Z;
  curator_shares_minted : Z; payout : Z; payout_asset : AssetType; payout_units : Z; price : Z;
  tranche_shares : Z
}.
Definition wf (e : t) : Prop :=
  id_wf (vault_id e) ∧ u64 (global_seq e) ∧ u8 (lane e) ∧ id_wf (recipient e) ∧ u8 (tranche e) ∧
  u64 (capital_generation e) ∧ u128 (shares e) ∧ u64 (value e) ∧ u64 (basis e) ∧ u64 (profit e) ∧
  u64 (gross_fee e) ∧ u64 (protocol_cut e) ∧ u64 (curator_net e) ∧ u128 (curator_shares_minted e) ∧
  u64 (payout e) ∧ u64 (payout_units e) ∧ u128 (price e) ∧ u128 (tranche_shares e).
End TvWithdrawFulfilled.

Module TvPositionMinted.
Record t := mk {
  vault_id : ObjectId; position_id : ObjectId; tranche : Z; shares : Z; cost_basis : Z; locked_until_ms : Z;
  capital_generation : Z
}.
Definition wf (e : t) : Prop :=
  id_wf (vault_id e) ∧ id_wf (position_id e) ∧ u8 (tranche e) ∧ u128 (shares e) ∧ u64 (cost_basis e) ∧
  u64 (locked_until_ms e) ∧ u64 (capital_generation e).
End TvPositionMinted.

Module TvPositionSplit.
Record t := mk {
  vault_id : ObjectId; parent_id : ObjectId; child_id : ObjectId; parent_shares : Z; parent_basis : Z;
  child_shares : Z; child_basis : Z
}.
Definition wf (e : t) : Prop :=
  id_wf (vault_id e) ∧ id_wf (parent_id e) ∧ id_wf (child_id e) ∧ u128 (parent_shares e) ∧
  u64 (parent_basis e) ∧ u128 (child_shares e) ∧ u64 (child_basis e).
End TvPositionSplit.

Module TvPositionMerged.
Record t := mk {
  vault_id : ObjectId; kept_id : ObjectId; merged_id : ObjectId; shares : Z; cost_basis : Z;
  locked_until_ms : Z
}.
Definition wf (e : t) : Prop :=
  id_wf (vault_id e) ∧ id_wf (kept_id e) ∧ id_wf (merged_id e) ∧ u128 (shares e) ∧ u64 (cost_basis e) ∧
  u64 (locked_until_ms e).
End TvPositionMerged.

Module TvWipedPositionBurned.
Record t := mk {
  vault_id : ObjectId; position_id : ObjectId; capital_generation : Z; shares : Z
}.
Definition wf (e : t) : Prop :=
  id_wf (vault_id e) ∧ id_wf (position_id e) ∧ u64 (capital_generation e) ∧ u128 (shares e).
End TvWipedPositionBurned.

Module TvCapitalSynced.
Record t := mk {
  vault_id : ObjectId; total_nav : Z; senior_nav : Z; junior_nav : Z; senior_claim : Z; senior_shares : Z;
  junior_shares : Z; risk_state : Z; active_junior_generation : Z; curator_commitment_breached : bool
}.
Definition wf (e : t) : Prop :=
  id_wf (vault_id e) ∧ u128 (total_nav e) ∧ u128 (senior_nav e) ∧ u128 (junior_nav e) ∧ u128 (senior_claim e) ∧
  u128 (senior_shares e) ∧ u128 (junior_shares e) ∧ u8 (risk_state e) ∧ u64 (active_junior_generation e).
End TvCapitalSynced.

Module TvRiskStateChanged.
Record t := mk {
  vault_id : ObjectId; old_state : Z; new_state : Z; timestamp_ms : Z
}.
Definition wf (e : t) : Prop :=
  id_wf (vault_id e) ∧ u8 (old_state e) ∧ u8 (new_state e) ∧ u64 (timestamp_ms e).
End TvRiskStateChanged.

Module TvJuniorResetProposed.
Record t := mk {
  vault_id : ObjectId; old_generation : Z; proposed_at_ms : Z; executable_at_ms : Z; total_nav : Z;
  senior_claim : Z; senior_deficit : Z; required_deposit : Z
}.
Definition wf (e : t) : Prop :=
  id_wf (vault_id e) ∧ u64 (old_generation e) ∧ u64 (proposed_at_ms e) ∧ u64 (executable_at_ms e) ∧
  u128 (total_nav e) ∧ u128 (senior_claim e) ∧ u128 (senior_deficit e) ∧ u64 (required_deposit e).
End TvJuniorResetProposed.

Module TvJuniorResetCancelled.
Record t := mk {
  vault_id : ObjectId; old_generation : Z
}.
Definition wf (e : t) : Prop :=
  id_wf (vault_id e) ∧ u64 (old_generation e).
End TvJuniorResetCancelled.

Module TvJuniorResetExecuted.
Record t := mk {
  vault_id : ObjectId; old_generation : Z; new_generation : Z; recapitalizer : SuiAddress; deposit_value : Z;
  post_junior_nav : Z; position_id : ObjectId
}.
Definition wf (e : t) : Prop :=
  id_wf (vault_id e) ∧ u64 (old_generation e) ∧ u64 (new_generation e) ∧ id_wf (recapitalizer e) ∧
  u64 (deposit_value e) ∧ u128 (post_junior_nav e) ∧ id_wf (position_id e).
End TvJuniorResetExecuted.

Module TvCommitmentReleased.
Record t := mk {
  vault_id : ObjectId; curator_cap_id : ObjectId; position_id : ObjectId; shares : Z; basis : Z
}.
Definition wf (e : t) : Prop :=
  id_wf (vault_id e) ∧ id_wf (curator_cap_id e) ∧ id_wf (position_id e) ∧ u128 (shares e) ∧ u64 (basis e).
End TvCommitmentReleased.

Module TvSettlementSnapshot.
Record t := mk {
  vault_id : ObjectId; final_nav : Z; senior_pool : Z; senior_supply : Z; junior_pool : Z; junior_supply : Z;
  active_junior_generation : Z
}.
Definition wf (e : t) : Prop :=
  id_wf (vault_id e) ∧ u128 (final_nav e) ∧ u64 (senior_pool e) ∧ u128 (senior_supply e) ∧
  u64 (junior_pool e) ∧ u128 (junior_supply e) ∧ u64 (active_junior_generation e).
End TvSettlementSnapshot.

Module TvSettlementRedeemed.
Record t := mk {
  vault_id : ObjectId; position_id : ObjectId; from_queue : bool; global_seq : Z; recipient : SuiAddress;
  tranche : Z; capital_generation : Z; shares : Z; entitlement : Z; basis : Z; gross_fee : Z; protocol_cut : Z;
  curator_net : Z; payout : Z
}.
Definition wf (e : t) : Prop :=
  id_wf (vault_id e) ∧ id_wf (position_id e) ∧ u64 (global_seq e) ∧ id_wf (recipient e) ∧ u8 (tranche e) ∧
  u64 (capital_generation e) ∧ u128 (shares e) ∧ u64 (entitlement e) ∧ u64 (basis e) ∧ u64 (gross_fee e) ∧
  u64 (protocol_cut e) ∧ u64 (curator_net e) ∧ u64 (payout e).
End TvSettlementRedeemed.

Module TvSettlementCuratorFeesClaimed.
Record t := mk {
  vault_id : ObjectId; curator_cap_id : ObjectId; amount : Z
}.
Definition wf (e : t) : Prop :=
  id_wf (vault_id e) ∧ id_wf (curator_cap_id e) ∧ u64 (amount e).
End TvSettlementCuratorFeesClaimed.

Module TvDepositAssetAdded.
Record t := mk {
  vault_id : ObjectId; asset : AssetType
}.
Definition wf (e : t) : Prop :=
  id_wf (vault_id e).
End TvDepositAssetAdded.

Module TvDepositAssetRemoved.
Record t := mk {
  vault_id : ObjectId; asset : AssetType
}.
Definition wf (e : t) : Prop :=
  id_wf (vault_id e).
End TvDepositAssetRemoved.

Module TvHaircutsSet.
Record t := mk {
  vault_id : ObjectId; entry_haircut_bps : Z; exit_haircut_bps : Z
}.
Definition wf (e : t) : Prop :=
  id_wf (vault_id e) ∧ u64 (entry_haircut_bps e) ∧ u64 (exit_haircut_bps e).
End TvHaircutsSet.

Module TvPayoutAssetAmended.
Record t := mk {
  vault_id : ObjectId; seq : Z; payout_asset : AssetType
}.
Definition wf (e : t) : Prop :=
  id_wf (vault_id e) ∧ u64 (seq e).
End TvPayoutAssetAmended.

Module TvSessionSettled.
Record t := mk {
  vault_id : ObjectId; adapter : AssetType; forced : bool; taken : TvTypeAmountMap.t;
  returned : TvTypeAmountMap.t; positions_added : Z; positions_removed : Z
}.
Definition wf (e : t) : Prop :=
  id_wf (vault_id e) ∧ u64 (positions_added e) ∧ u64 (positions_removed e).
End TvSessionSettled.

Module TvPositionStored.
Record t := mk {
  vault_id : ObjectId; adapter : AssetType; position_id : ObjectId
}.
Definition wf (e : t) : Prop :=
  id_wf (vault_id e) ∧ id_wf (position_id e).
End TvPositionStored.

Module TvPositionRemoved.
Record t := mk {
  vault_id : ObjectId; adapter : AssetType; position_id : ObjectId
}.
Definition wf (e : t) : Prop :=
  id_wf (vault_id e) ∧ id_wf (position_id e).
End TvPositionRemoved.

Module TvPositionAppraised.
Record t := mk {
  vault_id : ObjectId; adapter : AssetType; position_id : ObjectId; value : Z
}.
Definition wf (e : t) : Prop :=
  id_wf (vault_id e) ∧ id_wf (position_id e) ∧ u64 (value e).
End TvPositionAppraised.

Module TvVaultAppraised.
Record t := mk {
  vault_id : ObjectId; total_value : Z; position_total : Z
}.
Definition wf (e : t) : Prop :=
  id_wf (vault_id e) ∧ u128 (total_value e) ∧ u64 (position_total e).
End TvVaultAppraised.

Module TvAdapterAllowed.
Record t := mk {
  adapter : AssetType
}.
Definition wf (e : t) : Prop :=
  True.
End TvAdapterAllowed.

Module TvAdapterDisallowed.
Record t := mk {
  adapter : AssetType
}.
Definition wf (e : t) : Prop :=
  True.
End TvAdapterDisallowed.

Module TvOracleAllowed.
Record t := mk {
  oracle : AssetType
}.
Definition wf (e : t) : Prop :=
  True.
End TvOracleAllowed.

Module TvOracleDisallowed.
Record t := mk {
  oracle : AssetType
}.
Definition wf (e : t) : Prop :=
  True.
End TvOracleDisallowed.

Module TvProtocolConfigUpdated.
Record t := mk {
  min_curator_share_bps : Z; enforce_curator_share : bool; max_curator_fee_bps : Z; protocol_fee_bps : Z;
  max_price_age_ms : Z; max_deposit_assets : Z; paused : bool; max_senior_hurdle_bps : Z;
  min_target_junior_bps : Z; min_maintenance_junior_bps : Z; min_curator_commitment_bps : Z
}.
Definition wf (e : t) : Prop :=
  u64 (min_curator_share_bps e) ∧ u64 (max_curator_fee_bps e) ∧ u64 (protocol_fee_bps e) ∧
  u64 (max_price_age_ms e) ∧ u64 (max_deposit_assets e) ∧ u64 (max_senior_hurdle_bps e) ∧
  u64 (min_target_junior_bps e) ∧ u64 (min_maintenance_junior_bps e) ∧ u64 (min_curator_commitment_bps e).
End TvProtocolConfigUpdated.

Module TvCollateralReleased.
Record t := mk {
  vault_id : ObjectId; asset_type : AssetType; amount : Z; bucket_id : ObjectId; quote_nonce : Z;
  is_writer_flow : bool
}.
Definition wf (e : t) : Prop :=
  id_wf (vault_id e) ∧ u64 (amount e) ∧ id_wf (bucket_id e) ∧ u64 (quote_nonce e).
End TvCollateralReleased.

Module TvCustodyCreated.
Record t := mk {
  vault_id : ObjectId; custody_id : ObjectId; balance_manager_id : ObjectId
}.
Definition wf (e : t) : Prop :=
  id_wf (vault_id e) ∧ id_wf (custody_id e) ∧ id_wf (balance_manager_id e).
End TvCustodyCreated.

Module TvExchangeCustodyCreated.
Record t := mk {
  vault_id : ObjectId; custody_id : ObjectId; balance_manager_id : ObjectId; direct : bool
}.
Definition wf (e : t) : Prop :=
  id_wf (vault_id e) ∧ id_wf (custody_id e) ∧ id_wf (balance_manager_id e).
End TvExchangeCustodyCreated.

Module TvVaultQuoteFilled.
Record t := mk {
  vault_id : ObjectId; custody_id : ObjectId; balance_manager_id : ObjectId; sold_base : bool; base_amount : Z;
  quote_amount : Z
}.
Definition wf (e : t) : Prop :=
  id_wf (vault_id e) ∧ id_wf (custody_id e) ∧ id_wf (balance_manager_id e) ∧ u64 (base_amount e) ∧
  u64 (quote_amount e).
End TvVaultQuoteFilled.

Module TvQuoteAdapterAdded.
Record t := mk {
  vault_id : ObjectId; adapter : AssetType
}.
Definition wf (e : t) : Prop :=
  id_wf (vault_id e).
End TvQuoteAdapterAdded.

Module TvQuoteAdapterRemoved.
Record t := mk {
  vault_id : ObjectId; adapter : AssetType
}.
Definition wf (e : t) : Prop :=
  id_wf (vault_id e).
End TvQuoteAdapterRemoved.

Module TvPoolAllowed.
Record t := mk {
  pool_id : ObjectId
}.
Definition wf (e : t) : Prop :=
  id_wf (pool_id e).
End TvPoolAllowed.

Module TvPoolDisallowed.
Record t := mk {
  pool_id : ObjectId
}.
Definition wf (e : t) : Prop :=
  id_wf (pool_id e).
End TvPoolDisallowed.

Module TvRfqOpened.
Record t := mk {
  vault_id : ObjectId; ticket_id : ObjectId; auction_id : ObjectId; bucket_id : ObjectId; write_amount : Z;
  escrow_amount : Z; reserve_premium : Z; is_put : bool
}.
Definition wf (e : t) : Prop :=
  id_wf (vault_id e) ∧ id_wf (ticket_id e) ∧ id_wf (auction_id e) ∧ id_wf (bucket_id e) ∧
  u64 (write_amount e) ∧ u64 (escrow_amount e) ∧ u64 (reserve_premium e).
End TvRfqOpened.

Module TvRfqSettled.
Record t := mk {
  vault_id : ObjectId; ticket_id : ObjectId; auction_id : ObjectId; bucket_id : ObjectId; filled : bool;
  net_premium : Z; fee : Z; position_id : option ObjectId; is_put : bool
}.
Definition wf (e : t) : Prop :=
  id_wf (vault_id e) ∧ id_wf (ticket_id e) ∧ id_wf (auction_id e) ∧ id_wf (bucket_id e) ∧ u64 (net_premium e) ∧
  u64 (fee e) ∧ from_option id_wf True (position_id e).
End TvRfqSettled.

Module TvPositionRedeemed.
Record t := mk {
  vault_id : ObjectId; bucket_id : ObjectId; position_id : ObjectId; underlying_out : Z; settlement_out : Z;
  is_put : bool
}.
Definition wf (e : t) : Prop :=
  id_wf (vault_id e) ∧ id_wf (bucket_id e) ∧ id_wf (position_id e) ∧ u64 (underlying_out e) ∧
  u64 (settlement_out e).
End TvPositionRedeemed.

Module TvMmCoinExercised.
Record t := mk {
  vault_id : ObjectId; bucket_id : ObjectId; coin_position_id : ObjectId; is_put : bool; amount : Z;
  settlement_amount : Z
}.
Definition wf (e : t) : Prop :=
  id_wf (vault_id e) ∧ id_wf (bucket_id e) ∧ id_wf (coin_position_id e) ∧ u64 (amount e) ∧
  u64 (settlement_amount e).
End TvMmCoinExercised.

Module TvMmOffsetClosed.
Record t := mk {
  vault_id : ObjectId; bucket_id : ObjectId; position_id : ObjectId; is_put : bool; amount : Z;
  collateral_returned : Z; position_closed : bool
}.
Definition wf (e : t) : Prop :=
  id_wf (vault_id e) ∧ id_wf (bucket_id e) ∧ id_wf (position_id e) ∧ u64 (amount e) ∧
  u64 (collateral_returned e).
End TvMmOffsetClosed.

Module TvMmCoinReleased.
Record t := mk {
  vault_id : ObjectId; coin_position_id : ObjectId; asset_type : AssetType; amount : Z
}.
Definition wf (e : t) : Prop :=
  id_wf (vault_id e) ∧ id_wf (coin_position_id e) ∧ u64 (amount e).
End TvMmCoinReleased.

Module TvTakerSwapExecuted.
Record t := mk {
  vault_id : ObjectId; pool_id : ObjectId; base_for_quote : bool; amount_in : Z; amount_out : Z; unswapped : Z
}.
Definition wf (e : t) : Prop :=
  id_wf (vault_id e) ∧ id_wf (pool_id e) ∧ u64 (amount_in e) ∧ u64 (amount_out e) ∧ u64 (unswapped e).
End TvTakerSwapExecuted.

Module TvBidPlaced.
Record t := mk {
  vault_id : ObjectId; ticket_id : ObjectId; auction_id : ObjectId; bucket_id : ObjectId; escrow_amount : Z;
  win_type : AssetType; win_amount : Z; is_put : bool
}.
Definition wf (e : t) : Prop :=
  id_wf (vault_id e) ∧ id_wf (ticket_id e) ∧ id_wf (auction_id e) ∧ id_wf (bucket_id e) ∧
  u64 (escrow_amount e) ∧ u64 (win_amount e).
End TvBidPlaced.

Module TvBidReclaimed.
Record t := mk {
  vault_id : ObjectId; ticket_id : ObjectId; auction_id : ObjectId; refunded : Z
}.
Definition wf (e : t) : Prop :=
  id_wf (vault_id e) ∧ id_wf (ticket_id e) ∧ id_wf (auction_id e) ∧ u64 (refunded e).
End TvBidReclaimed.

Module TvBidRedeemed.
Record t := mk {
  vault_id : ObjectId; ticket_id : ObjectId; auction_id : ObjectId; win_type : AssetType; win_amount : Z
}.
Definition wf (e : t) : Prop :=
  id_wf (vault_id e) ∧ id_wf (ticket_id e) ∧ id_wf (auction_id e) ∧ u64 (win_amount e).
End TvBidRedeemed.

Module TvExternalAccountSet.
Record t := mk {
  vault_id : ObjectId; account : SuiAddress; equity_oracle : AssetType; budget_bps : Z; daily_release_bps : Z
}.
Definition wf (e : t) : Prop :=
  id_wf (vault_id e) ∧ id_wf (account e) ∧ u64 (budget_bps e) ∧ u64 (daily_release_bps e).
End TvExternalAccountSet.

Module TvExternalAccountCleared.
Record t := mk {
  vault_id : ObjectId
}.
Definition wf (e : t) : Prop :=
  id_wf (vault_id e).
End TvExternalAccountCleared.

Module TvExternalReleased.
Record t := mk {
  vault_id : ObjectId; account : SuiAddress; amount : Z; exposure : Z; nav : Z
}.
Definition wf (e : t) : Prop :=
  id_wf (vault_id e) ∧ id_wf (account e) ∧ u64 (amount e) ∧ u64 (exposure e) ∧ u128 (nav e).
End TvExternalReleased.

Module TvExternalReturned.
Record t := mk {
  vault_id : ObjectId; from : SuiAddress; amount : Z; exposure : Z
}.
Definition wf (e : t) : Prop :=
  id_wf (vault_id e) ∧ id_wf (from e) ∧ u64 (amount e) ∧ u64 (exposure e).
End TvExternalReturned.

Module EquityPosted.
Record t := mk {
  vault_id : ObjectId; poster : SuiAddress; equity : Z; previous : Z; seeded : bool
}.
Definition wf (e : t) : Prop :=
  id_wf (vault_id e) ∧ id_wf (poster e) ∧ u64 (equity e) ∧ u64 (previous e).
End EquityPosted.

Module OptionMarketListed.
Record t := mk {
  registry : ObjectId; bucket : ObjectId; base : AssetType; quote : AssetType; tick_size : Z; min_size : Z;
  fee_bps : Z; is_put : bool
}.
Definition wf (e : t) : Prop :=
  id_wf (registry e) ∧ id_wf (bucket e) ∧ u64 (tick_size e) ∧ u64 (min_size e) ∧ u64 (fee_bps e).
End OptionMarketListed.

Module ExchangeOptionFill.
Record t := mk {
  registry : ObjectId; bucket_id : ObjectId; digest : rstring; maker : SuiAddress; taker : SuiAddress;
  base_amount : Z; quote_amount : Z; maker_fee : Z; taker_fee : Z; maker_sold_base : bool; timestamp_ms : Z
}.
Definition wf (e : t) : Prop :=
  id_wf (registry e) ∧ id_wf (bucket_id e) ∧ id_wf (maker e) ∧ id_wf (taker e) ∧ u64 (base_amount e) ∧
  u64 (quote_amount e) ∧ u64 (maker_fee e) ∧ u64 (taker_fee e) ∧ u64 (timestamp_ms e).
End ExchangeOptionFill.

Module ChainEvent.
Inductive t :=
  | BucketCreated (e : BucketCreated.t)
  | WriteExecuted (e : WriteExecuted.t)
  | Exercised (e : Exercised.t)
  | Redeemed (e : Redeemed.t)
  | ExpiredOptionBurned (e : ExpiredOptionBurned.t)
  | BucketCleaned (e : BucketCleaned.t)
  | BucketInvalidated (e : BucketInvalidated.t)
  | BucketRevalidated (e : BucketRevalidated.t)
  | SignerCreated (e : SignerCreated.t)
  | SigningKeyRotated (e : SigningKeyRotated.t)
  | FeeUpdated (e : FeeUpdated.t)
  | TreasuryWithdrawn (e : TreasuryWithdrawn.t)
  | DeepBookPoolCreated (e : DeepBookPoolCreated.t)
  | DeepBookOrderFilled (e : DeepBookOrderFilled.t)
  | CollateralizedWrite (e : CollateralizedWrite.t)
  | AuctionCreated (e : AuctionCreated.t)
  | AuctionBid (e : AuctionBid.t)
  | AuctionSettled (e : AuctionSettled.t)
  | AuctionUnfilled (e : AuctionUnfilled.t)
  | RfqCreated (e : RfqCreated.t)
  | RfqSettled (e : RfqSettled.t)
  | RfqExpiredUnsold (e : RfqExpiredUnsold.t)
  | VaultRfqSettled (e : VaultRfqSettled.t)
  | VaultRfqUnsold (e : VaultRfqUnsold.t)
  | SwapRfqSettled (e : SwapRfqSettled.t)
  | SwapRfqUnfilled (e : SwapRfqUnfilled.t)
  | VaultCreated (e : VaultCreated.t)
  | VaultDeposit (e : VaultDeposit.t)
  | SharesClaimed (e : SharesClaimed.t)
  | WithdrawInitiated (e : WithdrawInitiated.t)
  | WithdrawCompleted (e : WithdrawCompleted.t)
  | InstantWithdraw (e : InstantWithdraw.t)
  | VaultBucketSelected (e : VaultBucketSelected.t)
  | VaultPositionRedeemed (e : VaultPositionRedeemed.t)
  | VaultFeesCharged (e : VaultFeesCharged.t)
  | VaultRoundFinalized (e : VaultRoundFinalized.t)
  | VaultConfigUpdated (e : VaultConfigUpdated.t)
  | VaultConfigApplied (e : VaultConfigApplied.t)
  | VaultDepositsPaused (e : VaultDepositsPaused.t)
  | PutBucketCreated (e : PutBucketCreated.t)
  | PutWriteExecuted (e : PutWriteExecuted.t)
  | PutCollateralizedWrite (e : PutCollateralizedWrite.t)
  | PutExercised (e : PutExercised.t)
  | PutRedeemed (e : PutRedeemed.t)
  | PutExpiredOptionBurned (e : PutExpiredOptionBurned.t)
  | PutBucketCleaned (e : PutBucketCleaned.t)
  | PutBucketInvalidated (e : PutBucketInvalidated.t)
  | PutBucketRevalidated (e : PutBucketRevalidated.t)
  | PutRfqCreated (e : PutRfqCreated.t)
  | PutRfqSettled (e : PutRfqSettled.t)
  | PutRfqExpiredUnsold (e : PutRfqExpiredUnsold.t)
  | OffsetClosed (e : OffsetClosed.t)
  | SpreadWritten (e : SpreadWritten.t)
  | SpreadUnwound (e : SpreadUnwound.t)
  | SpreadClosed (e : SpreadClosed.t)
  | SpreadRedeemed (e : SpreadRedeemed.t)
  | PutSpreadWritten (e : PutSpreadWritten.t)
  | PutSpreadExercised (e : PutSpreadExercised.t)
  | PutSpreadClosed (e : PutSpreadClosed.t)
  | PutSpreadRedeemed (e : PutSpreadRedeemed.t)
  | TvVaultCreated (e : TvVaultCreated.t)
  | TvVaultClosing (e : TvVaultClosing.t)
  | TvVaultClosed (e : TvVaultClosed.t)
  | TvDepositsPaused (e : TvDepositsPaused.t)
  | TvMmReleaseToggled (e : TvMmReleaseToggled.t)
  | TvCuratorRotated (e : TvCuratorRotated.t)
  | TvDeposited (e : TvDeposited.t)
  | TvWithdrawRequested (e : TvWithdrawRequested.t)
  | TvWithdrawFulfilled (e : TvWithdrawFulfilled.t)
  | TvPositionMinted (e : TvPositionMinted.t)
  | TvPositionSplit (e : TvPositionSplit.t)
  | TvPositionMerged (e : TvPositionMerged.t)
  | TvWipedPositionBurned (e : TvWipedPositionBurned.t)
  | TvCapitalSynced (e : TvCapitalSynced.t)
  | TvRiskStateChanged (e : TvRiskStateChanged.t)
  | TvJuniorResetProposed (e : TvJuniorResetProposed.t)
  | TvJuniorResetCancelled (e : TvJuniorResetCancelled.t)
  | TvJuniorResetExecuted (e : TvJuniorResetExecuted.t)
  | TvCommitmentReleased (e : TvCommitmentReleased.t)
  | TvSettlementSnapshot (e : TvSettlementSnapshot.t)
  | TvSettlementRedeemed (e : TvSettlementRedeemed.t)
  | TvSettlementCuratorFeesClaimed (e : TvSettlementCuratorFeesClaimed.t)
  | TvDepositAssetAdded (e : TvDepositAssetAdded.t)
  | TvDepositAssetRemoved (e : TvDepositAssetRemoved.t)
  | TvHaircutsSet (e : TvHaircutsSet.t)
  | TvPayoutAssetAmended (e : TvPayoutAssetAmended.t)
  | TvSessionSettled (e : TvSessionSettled.t)
  | TvPositionStored (e : TvPositionStored.t)
  | TvPositionRemoved (e : TvPositionRemoved.t)
  | TvPositionAppraised (e : TvPositionAppraised.t)
  | TvVaultAppraised (e : TvVaultAppraised.t)
  | TvAdapterAllowed (e : TvAdapterAllowed.t)
  | TvAdapterDisallowed (e : TvAdapterDisallowed.t)
  | TvOracleAllowed (e : TvOracleAllowed.t)
  | TvOracleDisallowed (e : TvOracleDisallowed.t)
  | TvProtocolConfigUpdated (e : TvProtocolConfigUpdated.t)
  | TvCollateralReleased (e : TvCollateralReleased.t)
  | TvCustodyCreated (e : TvCustodyCreated.t)
  | TvExchangeCustodyCreated (e : TvExchangeCustodyCreated.t)
  | TvVaultQuoteFilled (e : TvVaultQuoteFilled.t)
  | TvQuoteAdapterAdded (e : TvQuoteAdapterAdded.t)
  | TvQuoteAdapterRemoved (e : TvQuoteAdapterRemoved.t)
  | TvPoolAllowed (e : TvPoolAllowed.t)
  | TvPoolDisallowed (e : TvPoolDisallowed.t)
  | TvRfqOpened (e : TvRfqOpened.t)
  | TvRfqSettled (e : TvRfqSettled.t)
  | TvPositionRedeemed (e : TvPositionRedeemed.t)
  | TvMmCoinExercised (e : TvMmCoinExercised.t)
  | TvMmOffsetClosed (e : TvMmOffsetClosed.t)
  | TvMmCoinReleased (e : TvMmCoinReleased.t)
  | TvTakerSwapExecuted (e : TvTakerSwapExecuted.t)
  | TvBidPlaced (e : TvBidPlaced.t)
  | TvBidReclaimed (e : TvBidReclaimed.t)
  | TvBidRedeemed (e : TvBidRedeemed.t)
  | TvExternalAccountSet (e : TvExternalAccountSet.t)
  | TvExternalAccountCleared (e : TvExternalAccountCleared.t)
  | TvExternalReleased (e : TvExternalReleased.t)
  | TvExternalReturned (e : TvExternalReturned.t)
  | EquityPosted (e : EquityPosted.t)
  | VolPosted (e : VolPosted.t)
  | OptionMarketListed (e : OptionMarketListed.t)
  | ExchangeOptionFill (e : ExchangeOptionFill.t).

Definition wf (ev : t) : Prop :=
  match ev with
  | BucketCreated e => BucketCreated.wf e
  | WriteExecuted e => WriteExecuted.wf e
  | Exercised e => Exercised.wf e
  | Redeemed e => Redeemed.wf e
  | ExpiredOptionBurned e => ExpiredOptionBurned.wf e
  | BucketCleaned e => BucketCleaned.wf e
  | BucketInvalidated e => BucketInvalidated.wf e
  | BucketRevalidated e => BucketRevalidated.wf e
  | SignerCreated e => SignerCreated.wf e
  | SigningKeyRotated e => SigningKeyRotated.wf e
  | FeeUpdated e => FeeUpdated.wf e
  | TreasuryWithdrawn e => TreasuryWithdrawn.wf e
  | DeepBookPoolCreated e => DeepBookPoolCreated.wf e
  | DeepBookOrderFilled e => DeepBookOrderFilled.wf e
  | CollateralizedWrite e => CollateralizedWrite.wf e
  | AuctionCreated e => AuctionCreated.wf e
  | AuctionBid e => AuctionBid.wf e
  | AuctionSettled e => AuctionSettled.wf e
  | AuctionUnfilled e => AuctionUnfilled.wf e
  | RfqCreated e => RfqCreated.wf e
  | RfqSettled e => RfqSettled.wf e
  | RfqExpiredUnsold e => RfqExpiredUnsold.wf e
  | VaultRfqSettled e => VaultRfqSettled.wf e
  | VaultRfqUnsold e => VaultRfqUnsold.wf e
  | SwapRfqSettled e => SwapRfqSettled.wf e
  | SwapRfqUnfilled e => SwapRfqUnfilled.wf e
  | VaultCreated e => VaultCreated.wf e
  | VaultDeposit e => VaultDeposit.wf e
  | SharesClaimed e => SharesClaimed.wf e
  | WithdrawInitiated e => WithdrawInitiated.wf e
  | WithdrawCompleted e => WithdrawCompleted.wf e
  | InstantWithdraw e => InstantWithdraw.wf e
  | VaultBucketSelected e => VaultBucketSelected.wf e
  | VaultPositionRedeemed e => VaultPositionRedeemed.wf e
  | VaultFeesCharged e => VaultFeesCharged.wf e
  | VaultRoundFinalized e => VaultRoundFinalized.wf e
  | VaultConfigUpdated e => VaultConfigUpdated.wf e
  | VaultConfigApplied e => VaultConfigApplied.wf e
  | VaultDepositsPaused e => VaultDepositsPaused.wf e
  | PutBucketCreated e => PutBucketCreated.wf e
  | PutWriteExecuted e => PutWriteExecuted.wf e
  | PutCollateralizedWrite e => PutCollateralizedWrite.wf e
  | PutExercised e => PutExercised.wf e
  | PutRedeemed e => PutRedeemed.wf e
  | PutExpiredOptionBurned e => PutExpiredOptionBurned.wf e
  | PutBucketCleaned e => PutBucketCleaned.wf e
  | PutBucketInvalidated e => PutBucketInvalidated.wf e
  | PutBucketRevalidated e => PutBucketRevalidated.wf e
  | PutRfqCreated e => PutRfqCreated.wf e
  | PutRfqSettled e => PutRfqSettled.wf e
  | PutRfqExpiredUnsold e => PutRfqExpiredUnsold.wf e
  | OffsetClosed e => OffsetClosed.wf e
  | SpreadWritten e => SpreadWritten.wf e
  | SpreadUnwound e => SpreadUnwound.wf e
  | SpreadClosed e => SpreadClosed.wf e
  | SpreadRedeemed e => SpreadRedeemed.wf e
  | PutSpreadWritten e => PutSpreadWritten.wf e
  | PutSpreadExercised e => PutSpreadExercised.wf e
  | PutSpreadClosed e => PutSpreadClosed.wf e
  | PutSpreadRedeemed e => PutSpreadRedeemed.wf e
  | TvVaultCreated e => TvVaultCreated.wf e
  | TvVaultClosing e => TvVaultClosing.wf e
  | TvVaultClosed e => TvVaultClosed.wf e
  | TvDepositsPaused e => TvDepositsPaused.wf e
  | TvMmReleaseToggled e => TvMmReleaseToggled.wf e
  | TvCuratorRotated e => TvCuratorRotated.wf e
  | TvDeposited e => TvDeposited.wf e
  | TvWithdrawRequested e => TvWithdrawRequested.wf e
  | TvWithdrawFulfilled e => TvWithdrawFulfilled.wf e
  | TvPositionMinted e => TvPositionMinted.wf e
  | TvPositionSplit e => TvPositionSplit.wf e
  | TvPositionMerged e => TvPositionMerged.wf e
  | TvWipedPositionBurned e => TvWipedPositionBurned.wf e
  | TvCapitalSynced e => TvCapitalSynced.wf e
  | TvRiskStateChanged e => TvRiskStateChanged.wf e
  | TvJuniorResetProposed e => TvJuniorResetProposed.wf e
  | TvJuniorResetCancelled e => TvJuniorResetCancelled.wf e
  | TvJuniorResetExecuted e => TvJuniorResetExecuted.wf e
  | TvCommitmentReleased e => TvCommitmentReleased.wf e
  | TvSettlementSnapshot e => TvSettlementSnapshot.wf e
  | TvSettlementRedeemed e => TvSettlementRedeemed.wf e
  | TvSettlementCuratorFeesClaimed e => TvSettlementCuratorFeesClaimed.wf e
  | TvDepositAssetAdded e => TvDepositAssetAdded.wf e
  | TvDepositAssetRemoved e => TvDepositAssetRemoved.wf e
  | TvHaircutsSet e => TvHaircutsSet.wf e
  | TvPayoutAssetAmended e => TvPayoutAssetAmended.wf e
  | TvSessionSettled e => TvSessionSettled.wf e
  | TvPositionStored e => TvPositionStored.wf e
  | TvPositionRemoved e => TvPositionRemoved.wf e
  | TvPositionAppraised e => TvPositionAppraised.wf e
  | TvVaultAppraised e => TvVaultAppraised.wf e
  | TvAdapterAllowed e => TvAdapterAllowed.wf e
  | TvAdapterDisallowed e => TvAdapterDisallowed.wf e
  | TvOracleAllowed e => TvOracleAllowed.wf e
  | TvOracleDisallowed e => TvOracleDisallowed.wf e
  | TvProtocolConfigUpdated e => TvProtocolConfigUpdated.wf e
  | TvCollateralReleased e => TvCollateralReleased.wf e
  | TvCustodyCreated e => TvCustodyCreated.wf e
  | TvExchangeCustodyCreated e => TvExchangeCustodyCreated.wf e
  | TvVaultQuoteFilled e => TvVaultQuoteFilled.wf e
  | TvQuoteAdapterAdded e => TvQuoteAdapterAdded.wf e
  | TvQuoteAdapterRemoved e => TvQuoteAdapterRemoved.wf e
  | TvPoolAllowed e => TvPoolAllowed.wf e
  | TvPoolDisallowed e => TvPoolDisallowed.wf e
  | TvRfqOpened e => TvRfqOpened.wf e
  | TvRfqSettled e => TvRfqSettled.wf e
  | TvPositionRedeemed e => TvPositionRedeemed.wf e
  | TvMmCoinExercised e => TvMmCoinExercised.wf e
  | TvMmOffsetClosed e => TvMmOffsetClosed.wf e
  | TvMmCoinReleased e => TvMmCoinReleased.wf e
  | TvTakerSwapExecuted e => TvTakerSwapExecuted.wf e
  | TvBidPlaced e => TvBidPlaced.wf e
  | TvBidReclaimed e => TvBidReclaimed.wf e
  | TvBidRedeemed e => TvBidRedeemed.wf e
  | TvExternalAccountSet e => TvExternalAccountSet.wf e
  | TvExternalAccountCleared e => TvExternalAccountCleared.wf e
  | TvExternalReleased e => TvExternalReleased.wf e
  | TvExternalReturned e => TvExternalReturned.wf e
  | EquityPosted e => EquityPosted.wf e
  | VolPosted e => VolPosted.wf e
  | OptionMarketListed e => OptionMarketListed.wf e
  | ExchangeOptionFill e => ExchangeOptionFill.wf e
  end.
End ChainEvent.

Module IndexedEvent.
Record t := mk {
  sequence : Z; timestamp_ms : Z; event : ChainEvent.t
}.
End IndexedEvent.
