(* ===== verification/IndexerStore.v ===== *)
(** [services/indexer/src/store/mod.rs]: the materialized views of the protocol
    and how an event changes them.  A [BTreeMap] is a [gmap]; where the source
    iterates one, the entries are sorted by key. *)

From stdpp Require Import sorting.
From S2P Require Import Prelude RecordUpdate RustStr ExchangeTypes MoveType Asset Quote IndexerEvents.

(** * The state of one entity *)

Inductive RfqStatus := Open | Settled | ExpiredUnsold.

#[export] Instance RfqStatus_eq_dec : EqDecision RfqStatus.
Proof. solve_decision. Defined.

Definition RfqStatus_tag (s : RfqStatus) : rstring :=
  match s with Open => str "open" | Settled => str "settled" | ExpiredUnsold => str "expired_unsold" end.

Definition RfqStatus_from_str_tag (s : rstring) : result unit RfqStatus :=
  if bool_decide (s = str "open") then Ok Open
  else if bool_decide (s = str "settled") then Ok Settled
  else if bool_decide (s = str "expired_unsold") then Ok ExpiredUnsold
  else Err ().

Module AccountState.
Record t := mk {
  owner : option SuiAddress; signing_pubkey : list Z; signing_scheme : option SigningScheme
}.
#[global] Instance expand : Fields t := λ s, mk
  (owner s) (signing_pubkey s) (signing_scheme s).
Definition wf (s : t) : Prop :=
  from_option id_wf True (owner s).
End AccountState.

Module BucketState.
Record t := mk {
  asset_type : AssetType; settlement_type : AssetType; call_type : AssetType; strike : Z; strike_scale : Z;
  expiry_ms : Z; total_written : Z; exercise_cursor : Z; cleaned : bool; invalidated : bool;
  option_kind : rstring
}.
#[global] Instance expand : Fields t := λ s, mk
  (asset_type s) (settlement_type s) (call_type s) (strike s) (strike_scale s) (expiry_ms s) (total_written s)
  (exercise_cursor s) (cleaned s) (invalidated s) (option_kind s).
Definition wf (s : t) : Prop :=
  u128 (strike s) ∧ u8 (strike_scale s) ∧ u64 (expiry_ms s) ∧ u128 (total_written s) ∧ u128 (exercise_cursor s).
End BucketState.

Module DeepBookPoolState.
Record t := mk {
  pool_id : ObjectId; base_asset_type : AssetType; quote_asset_type : AssetType; tick_size : Z; lot_size : Z;
  min_size : Z; taker_fee : Z; maker_fee : Z
}.
#[global] Instance expand : Fields t := λ s, mk
  (pool_id s) (base_asset_type s) (quote_asset_type s) (tick_size s) (lot_size s) (min_size s) (taker_fee s)
  (maker_fee s).
Definition wf (s : t) : Prop :=
  id_wf (pool_id s) ∧ u64 (tick_size s) ∧ u64 (lot_size s) ∧ u64 (min_size s) ∧ u64 (taker_fee s) ∧
  u64 (maker_fee s).
End DeepBookPoolState.

Module ExchangeMarketState.
Record t := mk {
  registry_id : ObjectId; is_put : bool
}.
#[global] Instance expand : Fields t := λ s, mk
  (registry_id s) (is_put s).
Definition wf (s : t) : Prop :=
  id_wf (registry_id s).
End ExchangeMarketState.

Module PositionState.
Record t := mk {
  bucket_id : ObjectId; object_id : ObjectId; recipient : SuiAddress; range_start : Z; range_end : Z;
  option_kind : rstring
}.
#[global] Instance expand : Fields t := λ s, mk
  (bucket_id s) (object_id s) (recipient s) (range_start s) (range_end s) (option_kind s).
Definition wf (s : t) : Prop :=
  id_wf (bucket_id s) ∧ id_wf (object_id s) ∧ id_wf (recipient s) ∧ u128 (range_start s) ∧ u128 (range_end s).
End PositionState.

Module RfqState.
Record t := mk {
  meta_id : option ObjectId; bucket_id : option ObjectId; origin : ObjectId; amount : Z; reserve_premium : Z;
  deadline_ms : Z; best_premium : option Z; best_bidder : option SuiAddress; status : RfqStatus;
  winner : option SuiAddress; net_premium : option Z; position_id : option ObjectId; gross_premium : option Z;
  fee : option Z; auction_kind : rstring
}.
#[global] Instance expand : Fields t := λ s, mk
  (meta_id s) (bucket_id s) (origin s) (amount s) (reserve_premium s) (deadline_ms s) (best_premium s)
  (best_bidder s) (status s) (winner s) (net_premium s) (position_id s) (gross_premium s) (fee s)
  (auction_kind s).
Definition wf (s : t) : Prop :=
  from_option id_wf True (meta_id s) ∧ from_option id_wf True (bucket_id s) ∧ id_wf (origin s) ∧
  u64 (amount s) ∧ u64 (reserve_premium s) ∧ u64 (deadline_ms s) ∧ from_option u64 True (best_premium s) ∧
  from_option id_wf True (best_bidder s) ∧ from_option id_wf True (winner s) ∧
  from_option u64 True (net_premium s) ∧ from_option id_wf True (position_id s) ∧
  from_option u64 True (gross_premium s) ∧ from_option u64 True (fee s).
End RfqState.

Module VaultState.
Record t := mk {
  underlying_type : AssetType; settlement_type : AssetType; share_type : AssetType; round : Z;
  current_bucket : option ObjectId; latest_pps : option Z; total_shares : Z; pending_deposits : Z;
  deposits_paused : bool; mgmt_fee_bps_annual : option Z; perf_fee_bps : option Z; round_ms : option Z;
  selling_window_ms : option Z; min_strike_bps_over_spot : option Z; max_strike_bps_over_spot : option Z
}.
#[global] Instance expand : Fields t := λ s, mk
  (underlying_type s) (settlement_type s) (share_type s) (round s) (current_bucket s) (latest_pps s)
  (total_shares s) (pending_deposits s) (deposits_paused s) (mgmt_fee_bps_annual s) (perf_fee_bps s)
  (round_ms s) (selling_window_ms s) (min_strike_bps_over_spot s) (max_strike_bps_over_spot s).
Definition wf (s : t) : Prop :=
  u64 (round s) ∧ from_option id_wf True (current_bucket s) ∧ from_option u128 True (latest_pps s) ∧
  u64 (total_shares s) ∧ u64 (pending_deposits s) ∧ from_option u64 True (mgmt_fee_bps_annual s) ∧
  from_option u64 True (perf_fee_bps s) ∧ from_option u64 True (round_ms s) ∧
  from_option u64 True (selling_window_ms s) ∧ from_option u64 True (min_strike_bps_over_spot s) ∧
  from_option u64 True (max_strike_bps_over_spot s).
End VaultState.

Module VaultRoundState.
Record t := mk {
  bucket_id : option ObjectId; strike : option Z; strike_scale : option Z; expiry_ms : option Z;
  pps : option Z; aum : option Z; shares : option Z; premium_collected : option Z; mgmt_fee : option Z;
  perf_fee : option Z; finalized_at_ms : option Z
}.
#[global] Instance expand : Fields t := λ s, mk
  (bucket_id s) (strike s) (strike_scale s) (expiry_ms s) (pps s) (aum s) (shares s) (premium_collected s)
  (mgmt_fee s) (perf_fee s) (finalized_at_ms s).
Definition wf (s : t) : Prop :=
  from_option id_wf True (bucket_id s) ∧ from_option u128 True (strike s) ∧
  from_option u8 True (strike_scale s) ∧ from_option u64 True (expiry_ms s) ∧ from_option u128 True (pps s) ∧
  from_option u64 True (aum s) ∧ from_option u64 True (shares s) ∧ from_option u64 True (premium_collected s) ∧
  from_option u64 True (mgmt_fee s) ∧ from_option u64 True (perf_fee s) ∧
  from_option u64 True (finalized_at_ms s).
End VaultRoundState.

Module ReceiptState.
Record t := mk {
  amount : Z; settled : Z
}.
#[global] Instance expand : Fields t := λ s, mk
  (amount s) (settled s).
Definition wf (s : t) : Prop :=
  u64 (amount s) ∧ u64 (settled s).
End ReceiptState.

Module TradingVaultState.
Record t := mk {
  accounting_asset : AssetType; creator : SuiAddress; curator : SuiAddress; curator_cap_id : ObjectId;
  state : rstring; lockup_ms : Z; curator_fee_bps : Z; unwind_grace_ms : Z; deposits_paused : bool;
  mm_release_enabled : bool; total_shares : Z; position_count : Z; pending_withdrawals : Z;
  latest_pps_e12 : option Z; updated_at_ms : Z; external_account : option rstring; external_exposure : Z;
  latest_external_equity : option Z; external_equity_updated_at_ms : option Z; latest_nav : option Z;
  nav_updated_at_ms : option Z; structure_code : Z; senior_hurdle_bps_annual : Z; target_junior_bps : Z;
  maintenance_junior_bps : Z; upside_code : Z; residual_participation_bps : Z; total_return_cap_bps : Z;
  terms_version : Z; spec_hash : option rstring; senior_shares : Z; junior_shares : Z; senior_claim : Z;
  senior_principal_basis : Z; senior_nav : option Z; junior_nav : option Z; latest_senior_pps_e12 : option Z;
  latest_junior_pps_e12 : option Z; risk_state : Z; curator_commitment_breached : bool;
  impaired_since_ms : option Z; active_junior_generation : Z; reset_old_generation : option Z;
  reset_proposed_at_ms : option Z; reset_executable_at_ms : option Z; reset_recorded_nav : option Z;
  reset_recorded_senior_claim : option Z; reset_recorded_required_deposit : option Z; settled : bool;
  settlement_final_nav : option Z; senior_pool : option Z; senior_supply : option Z; junior_pool : option Z;
  junior_supply : option Z; settlement_snapshot_at_ms : option Z; settlement_redeemed : Z;
  senior_lane_head : Z; senior_lane_tail : Z; junior_lane_head : Z; junior_lane_tail : Z
}.
#[global] Instance expand : Fields t := λ s, mk
  (accounting_asset s) (creator s) (curator s) (curator_cap_id s) (state s) (lockup_ms s) (curator_fee_bps s)
  (unwind_grace_ms s) (deposits_paused s) (mm_release_enabled s) (total_shares s) (position_count s)
  (pending_withdrawals s) (latest_pps_e12 s) (updated_at_ms s) (external_account s) (external_exposure s)
  (latest_external_equity s) (external_equity_updated_at_ms s) (latest_nav s) (nav_updated_at_ms s)
  (structure_code s) (senior_hurdle_bps_annual s) (target_junior_bps s) (maintenance_junior_bps s)
  (upside_code s) (residual_participation_bps s) (total_return_cap_bps s) (terms_version s) (spec_hash s)
  (senior_shares s) (junior_shares s) (senior_claim s) (senior_principal_basis s) (senior_nav s) (junior_nav s)
  (latest_senior_pps_e12 s) (latest_junior_pps_e12 s) (risk_state s) (curator_commitment_breached s)
  (impaired_since_ms s) (active_junior_generation s) (reset_old_generation s) (reset_proposed_at_ms s)
  (reset_executable_at_ms s) (reset_recorded_nav s) (reset_recorded_senior_claim s)
  (reset_recorded_required_deposit s) (settled s) (settlement_final_nav s) (senior_pool s) (senior_supply s)
  (junior_pool s) (junior_supply s) (settlement_snapshot_at_ms s) (settlement_redeemed s) (senior_lane_head s)
  (senior_lane_tail s) (junior_lane_head s) (junior_lane_tail s).
Definition wf (s : t) : Prop :=
  id_wf (creator s) ∧ id_wf (curator s) ∧ id_wf (curator_cap_id s) ∧ u64 (lockup_ms s) ∧
  u64 (curator_fee_bps s) ∧ u64 (unwind_grace_ms s) ∧ u128 (total_shares s) ∧ u64 (position_count s) ∧
  u64 (pending_withdrawals s) ∧ from_option u128 True (latest_pps_e12 s) ∧ u64 (updated_at_ms s) ∧
  u64 (external_exposure s) ∧ from_option u64 True (latest_external_equity s) ∧
  from_option u64 True (external_equity_updated_at_ms s) ∧ from_option u128 True (latest_nav s) ∧
  from_option u64 True (nav_updated_at_ms s) ∧ u8 (structure_code s) ∧ u64 (senior_hurdle_bps_annual s) ∧
  u64 (target_junior_bps s) ∧ u64 (maintenance_junior_bps s) ∧ u8 (upside_code s) ∧
  u64 (residual_participation_bps s) ∧ u64 (total_return_cap_bps s) ∧ u64 (terms_version s) ∧
  u128 (senior_shares s) ∧ u128 (junior_shares s) ∧ u128 (senior_claim s) ∧ u128 (senior_principal_basis s) ∧
  from_option u128 True (senior_nav s) ∧ from_option u128 True (junior_nav s) ∧
  from_option u128 True (latest_senior_pps_e12 s) ∧ from_option u128 True (latest_junior_pps_e12 s) ∧
  u8 (risk_state s) ∧ from_option u64 True (impaired_since_ms s) ∧ u64 (active_junior_generation s) ∧
  from_option u64 True (reset_old_generation s) ∧ from_option u64 True (reset_proposed_at_ms s) ∧
  from_option u64 True (reset_executable_at_ms s) ∧ from_option u128 True (reset_recorded_nav s) ∧
  from_option u128 True (reset_recorded_senior_claim s) ∧
  from_option u64 True (reset_recorded_required_deposit s) ∧ from_option u128 True (settlement_final_nav s) ∧
  from_option u64 True (senior_pool s) ∧ from_option u128 True (senior_supply s) ∧
  from_option u64 True (junior_pool s) ∧ from_option u128 True (junior_supply s) ∧
  from_option u64 True (settlement_snapshot_at_ms s) ∧ u128 (settlement_redeemed s) ∧
  u64 (senior_lane_head s) ∧ u64 (senior_lane_tail s) ∧ u64 (junior_lane_head s) ∧ u64 (junior_lane_tail s).
End TradingVaultState.

Module VaultPositionState.
Record t := mk {
  vault_id : ObjectId; tranche : Z; capital_generation : Z; shares : Z; cost_basis : Z; locked_until_ms : Z;
  status : rstring; parent_position_id : option ObjectId; merged_into : option ObjectId;
  queued_global_seq : option Z; created_at_ms : Z; updated_at_ms : Z
}.
#[global] Instance expand : Fields t := λ s, mk
  (vault_id s) (tranche s) (capital_generation s) (shares s) (cost_basis s) (locked_until_ms s) (status s)
  (parent_position_id s) (merged_into s) (queued_global_seq s) (created_at_ms s) (updated_at_ms s).
Definition wf (s : t) : Prop :=
  id_wf (vault_id s) ∧ u8 (tranche s) ∧ u64 (capital_generation s) ∧ u128 (shares s) ∧ u64 (cost_basis s) ∧
  u64 (locked_until_ms s) ∧ from_option id_wf True (parent_position_id s) ∧
  from_option id_wf True (merged_into s) ∧ from_option u64 True (queued_global_seq s) ∧ u64 (created_at_ms s) ∧
  u64 (updated_at_ms s).
End VaultPositionState.

Module TradingVaultPositionState.
Record t := mk {
  adapter : AssetType; active : bool; stored_at_ms : Z; removed_at_ms : option Z; last_value : option Z;
  last_appraised_at_ms : option Z
}.
#[global] Instance expand : Fields t := λ s, mk
  (adapter s) (active s) (stored_at_ms s) (removed_at_ms s) (last_value s) (last_appraised_at_ms s).
Definition wf (s : t) : Prop :=
  u64 (stored_at_ms s) ∧ from_option u64 True (removed_at_ms s) ∧ from_option u64 True (last_value s) ∧
  from_option u64 True (last_appraised_at_ms s).
End TradingVaultPositionState.

Definition OPTION_KIND_CALL : rstring := str "call".
Definition OPTION_KIND_PUT : rstring := str "put".
Definition AUCTION_KIND_CALL : rstring := OPTION_KIND_CALL.
Definition AUCTION_KIND_PUT : rstring := OPTION_KIND_PUT.
Definition AUCTION_KIND_SWAP : rstring := str "swap".
Definition AUCTION_KIND_UNKNOWN : rstring := str "unknown".
Definition RECEIPT_DEPOSIT : rstring := str "deposit".
Definition RECEIPT_WITHDRAW : rstring := str "withdraw".
Definition SHARE_OFFSET : Z := 1000000.
Definition PPS_ONE : Z := 1000000000000.
Definition TRANCHE_UNTRANCHED : Z := 0.
Definition TRANCHE_SENIOR : Z := 1.
Definition TRANCHE_JUNIOR : Z := 2.
Definition LANE_SENIOR : Z := 0.
Definition RISK_IMPAIRED : Z := 2.
Definition POSITION_LIVE : rstring := str "live".
Definition POSITION_QUEUED : rstring := str "queued".
Definition POSITION_CONSUMED : rstring := str "consumed".
Definition POSITION_SETTLED : rstring := str "settled".
Definition POSITION_BURNED : rstring := str "burned".

Definition ZERO_ID : ObjectId := mkSuiAddress (replicate 32 0).

Definition u128_saturating_add (a b : Z) : Z := Z.min (a + b) u128_max.
Definition u128_saturating_sub (a b : Z) : Z := Z.max (a - b) 0.

Definition RfqState_blank : RfqState.t :=
  RfqState.mk None None ZERO_ID 0 0 0 None None Open None None None None None AUCTION_KIND_UNKNOWN.

Definition AccountState_default : AccountState.t := AccountState.mk None [] None.
Definition VaultRoundState_default : VaultRoundState.t :=
  VaultRoundState.mk None None None None None None None None None None None.
Definition ReceiptState_default : ReceiptState.t := ReceiptState.mk 0 0.

Section text.
Context `{HexCrate}.

(** [hex_lower] writes what the [hex] crate writes. *)
Definition hex_lower (bytes : list Z) : rstring := hex_encode bytes.

Definition TradingVaultState_from_created (v : TvVaultCreated.t) (timestamp_ms : Z) : TradingVaultState.t := {|
  TradingVaultState.accounting_asset := TvVaultCreated.accounting_asset v;
  TradingVaultState.creator := TvVaultCreated.creator v;
  TradingVaultState.curator := TvVaultCreated.creator v;
  TradingVaultState.curator_cap_id := TvVaultCreated.curator_cap_id v;
  TradingVaultState.state := str "open";
  TradingVaultState.lockup_ms := TvVaultCreated.lockup_ms v;
  TradingVaultState.curator_fee_bps := TvVaultCreated.curator_fee_bps v;
  TradingVaultState.unwind_grace_ms := TvVaultCreated.unwind_grace_ms v;
  TradingVaultState.deposits_paused := false;
  TradingVaultState.mm_release_enabled := false;
  TradingVaultState.total_shares := 0;
  TradingVaultState.position_count := 0;
  TradingVaultState.pending_withdrawals := 0;
  TradingVaultState.latest_pps_e12 := None;
  TradingVaultState.updated_at_ms := timestamp_ms;
  TradingVaultState.external_account := None;
  TradingVaultState.external_exposure := 0;
  TradingVaultState.latest_external_equity := None;
  TradingVaultState.external_equity_updated_at_ms := None;
  TradingVaultState.latest_nav := None;
  TradingVaultState.nav_updated_at_ms := None;
  TradingVaultState.structure_code := TvVaultCreated.structure_code v;
  TradingVaultState.senior_hurdle_bps_annual := TvVaultCreated.senior_hurdle_bps_annual v;
  TradingVaultState.target_junior_bps := TvVaultCreated.target_junior_bps v;
  TradingVaultState.maintenance_junior_bps := TvVaultCreated.maintenance_junior_bps v;
  TradingVaultState.upside_code := TvVaultCreated.upside_code v;
  TradingVaultState.residual_participation_bps := TvVaultCreated.residual_participation_bps v;
  TradingVaultState.total_return_cap_bps := TvVaultCreated.total_return_cap_bps v;
  TradingVaultState.terms_version := TvVaultCreated.terms_version v;
  TradingVaultState.spec_hash :=
    match TvVaultCreated.spec_hash v with
    | [] => None
    | h => Some (str "0x" ++ hex_lower h)
    end;
  TradingVaultState.senior_shares := 0;
  TradingVaultState.junior_shares := 0;
  TradingVaultState.senior_claim := 0;
  TradingVaultState.senior_principal_basis := 0;
  TradingVaultState.senior_nav := None;
  TradingVaultState.junior_nav := None;
  TradingVaultState.latest_senior_pps_e12 := None;
  TradingVaultState.latest_junior_pps_e12 := None;
  TradingVaultState.risk_state := 0;
  TradingVaultState.curator_commitment_breached := false;
  TradingVaultState.impaired_since_ms := None;
  TradingVaultState.active_junior_generation := 0;
  TradingVaultState.reset_old_generation := None;
  TradingVaultState.reset_proposed_at_ms := None;
  TradingVaultState.reset_executable_at_ms := None;
  TradingVaultState.reset_recorded_nav := None;
  TradingVaultState.reset_recorded_senior_claim := None;
  TradingVaultState.reset_recorded_required_deposit := None;
  TradingVaultState.settled := false;
  TradingVaultState.settlement_final_nav := None;
  TradingVaultState.senior_pool := None;
  TradingVaultState.senior_supply := None;
  TradingVaultState.junior_pool := None;
  TradingVaultState.junior_supply := None;
  TradingVaultState.settlement_snapshot_at_ms := None;
  TradingVaultState.settlement_redeemed := 0;
  TradingVaultState.senior_lane_head := 0;
  TradingVaultState.senior_lane_tail := 0;
  TradingVaultState.junior_lane_head := 0;
  TradingVaultState.junior_lane_tail := 0;
|}.
End text.

(** [value * 1e12 * SHARE_OFFSET / shares], saturating. *)
Definition price_per_share (value shares : Z) : Z :=
  u128_saturating_mul (u128_saturating_mul value PPS_ONE) SHARE_OFFSET / shares.

Definition observe_tranche_flow (tranche tranche_shares value shares : Z) (v : TradingVaultState.t) : TradingVaultState.t :=
  let v := if tranche =? TRANCHE_SENIOR then v <| TradingVaultState.senior_shares := tranche_shares |>
           else v <| TradingVaultState.junior_shares := tranche_shares |> in
  let v := v <| TradingVaultState.total_shares :=
    u128_saturating_add (TradingVaultState.senior_shares v) (TradingVaultState.junior_shares v) |> in
  if (0 <? value) && (0 <? shares) then
    let pps := price_per_share value shares in
    if tranche =? TRANCHE_SENIOR then v <| TradingVaultState.latest_senior_pps_e12 := Some pps |>
    else if tranche =? TRANCHE_JUNIOR then v <| TradingVaultState.latest_junior_pps_e12 := Some pps |>
    else v <| TradingVaultState.latest_pps_e12 := Some pps |>
  else v.

Definition bump_lane (global_seq cursor : Z) : Z := Z.max cursor (u64_saturating_add global_seq 1).

(** * The views *)

(** vault, owner in hex, round, kind. *)
Abbreviation ReceiptKey := (ObjectId * rstring * Z * rstring)%type.

Module Inner.
Record t := mk {
  next_sequence : Z;
  accounts : gmap ObjectId AccountState.t;
  buckets : gmap ObjectId BucketState.t;
  positions : gmap (ObjectId * Z) PositionState.t;
  deepbook_pools : gmap ObjectId DeepBookPoolState.t;
  exchange_markets : gmap ObjectId ExchangeMarketState.t;
  rfqs : gmap ObjectId RfqState.t;
  vaults : gmap ObjectId VaultState.t;
  vault_rounds : gmap (ObjectId * Z) VaultRoundState.t;
  vault_receipts : gmap ReceiptKey ReceiptState.t;
  trading_vaults : gmap ObjectId TradingVaultState.t;
  trading_vault_positions : gmap (ObjectId * ObjectId) TradingVaultPositionState.t;
  vault_positions : gmap ObjectId VaultPositionState.t
}.
#[global] Instance expand : Fields t := λ s, mk
  (next_sequence s) (accounts s) (buckets s) (positions s) (deepbook_pools s) (exchange_markets s) (rfqs s) (vaults s)
  (vault_rounds s) (vault_receipts s) (trading_vaults s) (trading_vault_positions s) (vault_positions s).
End Inner.

Definition Inner_default : Inner.t := Inner.mk 1 ∅ ∅ ∅ ∅ ∅ ∅ ∅ ∅ ∅ ∅ ∅ ∅.

(** [entry(k).or_insert_with(d)], then changed by [f]. *)
Definition entry_or_insert `{Countable K} {V} (k : K) (d : V) (f : V → V) (m : gmap K V) : gmap K V :=
  <[k := f (default d (m !! k))]> m.

(** ** Iteration in the order of the keys *)

Fixpoint lex_le (a b : list Z) : bool :=
  match a, b with
  | [], _ => true
  | _ :: _, [] => false
  | x :: a', y :: b' => (x <? y) || ((x =? y) && lex_le a' b')
  end.

Definition id_le {V} (a b : ObjectId * V) : Prop := lex_le (addr_bytes a.1) (addr_bytes b.1) = true.
#[export] Instance id_le_dec {V} : RelDecision (@id_le V).
Proof. intros a b. unfold id_le. apply _. Defined.

Definition entries {V} (m : gmap ObjectId V) : list (ObjectId * V) := merge_sort id_le (map_to_list m).

(** The queued position that a fulfilment consumes. *)
Definition queued_position (inner : Inner.t) (vault_id : ObjectId) (global_seq : Z) : option ObjectId :=
  fst <$> List.find (λ '(_, p), bool_decide (VaultPositionState.vault_id p = vault_id) &&
                                bool_decide (VaultPositionState.queued_global_seq p = Some global_seq))
            (entries (Inner.vault_positions inner)).

Lemma lex_le_refl a : lex_le a a = true.
Proof. induction a as [|x a IH]; [done|]. cbn. rewrite Z.eqb_refl, IH. by rewrite orb_true_r. Qed.

Lemma lex_le_total a b : lex_le a b = true ∨ lex_le b a = true.
Proof.
  revert b. induction a as [|x a IH]; intros [|y b]; cbn; auto.
  destruct (Z.lt_trichotomy x y) as [Hlt|[->|Hlt]].
  - left. by rewrite (proj2 (Z.ltb_lt _ _) Hlt).
  - rewrite Z.ltb_irrefl, Z.eqb_refl. apply IH.
  - right. by rewrite (proj2 (Z.ltb_lt _ _) Hlt).
Qed.

Lemma lex_le_cons x a y b : lex_le (x :: a) (y :: b) = true ↔ x < y ∨ (x = y ∧ lex_le a b = true).
Proof. cbn. rewrite orb_true_iff, andb_true_iff, Z.ltb_lt, Z.eqb_eq. done. Qed.

Lemma lex_le_trans a b c : lex_le a b = true → lex_le b c = true → lex_le a c = true.
Proof.
  revert b c. induction a as [|x a IH]; intros [|y b] [|z c]; try done.
  rewrite !lex_le_cons. intros [?|[-> ?]] [?|[-> ?]]; [left; lia|auto..|right]. eauto.
Qed.

Lemma lex_le_antisym a b : lex_le a b = true → lex_le b a = true → a = b.
Proof.
  revert b. induction a as [|x a IH]; intros [|y b]; try done.
  rewrite !lex_le_cons. intros [?|[-> ?]] [?|[? ?]]; try lia. f_equal. auto.
Qed.

Section entries.
Context {V : Type}.
Implicit Types m : gmap ObjectId V.

#[local] Instance id_le_total : Total (@id_le V).
Proof. intros a b. apply lex_le_total. Qed.
#[local] Instance id_le_trans : Transitive (@id_le V).
Proof. intros a b c. apply lex_le_trans. Qed.

Lemma elem_of_entries m k v : (k, v) ∈ entries m ↔ m !! k = Some v.
Proof. unfold entries. by rewrite merge_sort_Permutation, elem_of_map_to_list. Qed.

Lemma find_sorted (P : ObjectId * V → bool) l kv :
  StronglySorted id_le l → List.find P l = Some kv →
  kv ∈ l ∧ P kv = true ∧ ∀ kv', kv' ∈ l → P kv' = true → id_le kv kv'.
Proof.
  induction 1 as [|x l Hs IH Hx]; [done|]. cbn. destruct (P x) eqn:E.
  - intros [= ->]. split_and!; [by left|done|]. intros kv' [->|Hin]%elem_of_cons _; [apply lex_le_refl|].
    by rewrite Forall_forall in Hx; apply Hx.
  - intros Hf. destruct (IH Hf) as (Hin & Hp & Hmin). split_and!; [by right|done|].
    intros kv' [->|Hin']%elem_of_cons; [by rewrite E|by apply Hmin].
Qed.

Lemma find_entry (P : ObjectId * V → bool) m k v :
  List.find P (entries m) = Some (k, v) ↔
  m !! k = Some v ∧ P (k, v) = true ∧
  ∀ k' v', m !! k' = Some v' → P (k', v') = true → lex_le (addr_bytes k) (addr_bytes k') = true.
Proof.
  assert (Hs : StronglySorted id_le (entries m)) by apply (StronglySorted_merge_sort id_le). split.
  - intros Hf. destruct (find_sorted _ _ _ Hs Hf) as (Hin & Hp & Hmin).
    split_and!; [by apply elem_of_entries|done|]. intros k' v' Hk' Hp'.
    apply (Hmin (k', v')); [by apply elem_of_entries|done].
  - intros (Hk & Hp & Hmin). destruct (List.find P (entries m)) as [[k' v']|] eqn:Hf.
    + destruct (find_sorted _ _ _ Hs Hf) as (Hin & Hp' & Hmin').
      apply elem_of_entries in Hin. specialize (Hmin _ _ Hin Hp').
      specialize (Hmin' (k, v) ltac:(by apply elem_of_entries) Hp).
      assert (k' = k) as ->.
      { destruct k', k. f_equal. by apply lex_le_antisym. }
      rewrite Hk in Hin. by injection Hin as ->.
    + exfalso. apply elem_of_entries, list_elem_of_In in Hk. by rewrite (List.find_none _ _ Hf _ Hk) in Hp.
Qed.

Lemma find_entry_none (P : ObjectId * V → bool) m :
  List.find P (entries m) = None ↔ ∀ k v, m !! k = Some v → P (k, v) = false.
Proof.
  split.
  - intros Hf k v Hk. apply (List.find_none _ _ Hf), list_elem_of_In, elem_of_entries, Hk.
  - intros Hall. destruct (List.find P (entries m)) as [[k v]|] eqn:Hf; [|done].
    apply find_entry in Hf as (Hk & Hp & _). by rewrite (Hall _ _ Hk) in Hp.
Qed.
End entries.

(** The position a fulfilment consumes depends only on where positions are queued. *)
Lemma queued_position_ext s s' vault_id seq :
  (∀ k, (p ← Inner.vault_positions s !! k; Some (VaultPositionState.vault_id p, VaultPositionState.queued_global_seq p)) =
        (p ← Inner.vault_positions s' !! k; Some (VaultPositionState.vault_id p, VaultPositionState.queued_global_seq p))) →
  queued_position s vault_id seq = queued_position s' vault_id seq.
Proof.
  intros Hext. unfold queued_position. set (P := λ _ : ObjectId * VaultPositionState.t, _).
  assert (Hone : ∀ m m' : gmap ObjectId VaultPositionState.t,
    (∀ k, (p ← m !! k; Some (VaultPositionState.vault_id p, VaultPositionState.queued_global_seq p)) =
          (p ← m' !! k; Some (VaultPositionState.vault_id p, VaultPositionState.queued_global_seq p))) →
    ∀ k v, m !! k = Some v → P (k, v) = true → ∃ v', m' !! k = Some v' ∧ P (k, v') = true).
  { intros m m' Hmm k v Hk Hp. specialize (Hmm k). rewrite Hk in Hmm. destruct (m' !! k) as [v'|]; [|done].
    injection Hmm as E1 E2. exists v'. split; [done|]. unfold P in *. by rewrite <- E1, <- E2. }
  destruct (List.find P (entries (Inner.vault_positions s))) as [[k v]|] eqn:Hf.
  - apply find_entry in Hf as (Hk & Hp & Hmin). destruct (Hone _ _ Hext _ _ Hk Hp) as (v' & Hk' & Hp').
    assert (List.find P (entries (Inner.vault_positions s')) = Some (k, v')) as ->; [|done].
    apply find_entry. split_and!; [done..|]. intros j w Hj Hw.
    destruct (Hone _ _ (λ i, eq_sym (Hext i)) _ _ Hj Hw) as (w' & Hj' & Hw'). eauto.
  - rewrite find_entry_none in Hf. symmetry.
    assert (List.find P (entries (Inner.vault_positions s')) = None) as ->; [|done].
    apply find_entry_none. intros k v Hk. destruct (P (k, v)) eqn:Hp; [|done].
    destruct (Hone _ _ (λ i, eq_sym (Hext i)) _ _ Hk Hp) as (v' & Hk' & Hp'). by rewrite (Hf _ _ Hk') in Hp'.
Qed.
