(* ===== verification/IndexerRows.v ===== *)
(** The rows of the indexer's tables ([services/indexer/src/db/models.rs]), how
    a state is written as a row ([store/mod.rs]) and how a row is read back as a
    state ([into_state]).  A [NUMERIC] column holds a [BigDecimal], here the
    integer it denotes; a [BIGINT] column holds an [i64]. *)

From S2P Require Import Prelude RecordUpdate RustStr ExchangeTypes Json Quote IndexerEvents IndexerStore.

(** * Numbers and tags *)

Inductive RowError :=
  | BadId (e : IdParseError)
  | OutOfRange (v : Z)
  | BadStatus (s : rstring)
  | BadScheme (s : Z).

Definition u64_to_bigdecimal (v : Z) : Z := v.
Definition u128_to_bigdecimal (v : Z) : Z := v.

Definition bigdecimal_to_u64 (v : Z) : result RowError Z :=
  if decide (u64 v) then Ok v else Err (OutOfRange v).
Definition bigdecimal_to_u128 (v : Z) : result RowError Z :=
  if decide (u128 v) then Ok v else Err (OutOfRange v).

(** [u8::try_from(i16)] and [i16 as u8]. *)
Definition u8_try_from (v : Z) : result RowError Z :=
  if (0 <=? v) && (v <? 256) then Ok v else Err (OutOfRange v).
Definition i16_as_u8 (v : Z) : Z := v `mod` 256.

(** [Option::map(f).transpose()]. *)
Definition transpose_ok {E A B} (f : A → result E B) (o : option A) : result E (option B) :=
  match o with
  | None => Ok None
  | Some a => match f a with Ok b => Ok (Some b) | Err e => Err e end
  end.

Definition scheme_of_i16 (s : Z) : result RowError SigningScheme :=
  match u8_try_from s with
  | Err _ => Err (BadScheme s)
  | Ok b => map_err (λ _, BadScheme s) (from_u8 b)
  end.

Definition status_of_text (s : rstring) : result RowError RfqStatus :=
  map_err (λ _, BadStatus s) (RfqStatus_from_str_tag s).


(** * Rows *)

Module NewIndexedEventRow.
Record t := mk {
  sequence : Z; checkpoint : Z; tx_digest : rstring; event_index : Z; timestamp_ms : Z; event_type : rstring;
  payload : Value
}.
#[global] Instance expand : Fields t := λ s, mk
  (sequence s) (checkpoint s) (tx_digest s) (event_index s) (timestamp_ms s) (event_type s) (payload s).
End NewIndexedEventRow.

Module EventParticipantRow.
Record t := mk {
  sequence : Z; address : rstring; role : rstring
}.
#[global] Instance expand : Fields t := λ s, mk
  (sequence s) (address s) (role s).
End EventParticipantRow.

Module AccountRow.
Record t := mk {
  account_id : rstring; owner : option rstring; signing_pubkey : list Z; signing_scheme : option Z;
  updated_at_seq : Z
}.
#[global] Instance expand : Fields t := λ s, mk
  (account_id s) (owner s) (signing_pubkey s) (signing_scheme s) (updated_at_seq s).
End AccountRow.

Module BucketRow.
Record t := mk {
  bucket_id : rstring; asset_type : rstring; settlement_type : rstring; call_type : rstring; strike : Z;
  strike_scale : Z; expiry_ms : Z; total_written : Z; exercise_cursor : Z; cleaned : bool; invalidated : bool;
  updated_at_seq : Z; option_kind : rstring
}.
#[global] Instance expand : Fields t := λ s, mk
  (bucket_id s) (asset_type s) (settlement_type s) (call_type s) (strike s) (strike_scale s) (expiry_ms s)
  (total_written s) (exercise_cursor s) (cleaned s) (invalidated s) (updated_at_seq s) (option_kind s).
End BucketRow.

Module DeepBookPoolRow.
Record t := mk {
  bucket_id : rstring; pool_id : rstring; base_asset_type : rstring; quote_asset_type : rstring; tick_size : Z;
  lot_size : Z; min_size : Z; taker_fee : Z; maker_fee : Z; created_checkpoint : Z; created_timestamp_ms : Z;
  updated_at_seq : Z
}.
#[global] Instance expand : Fields t := λ s, mk
  (bucket_id s) (pool_id s) (base_asset_type s) (quote_asset_type s) (tick_size s) (lot_size s) (min_size s)
  (taker_fee s) (maker_fee s) (created_checkpoint s) (created_timestamp_ms s) (updated_at_seq s).
End DeepBookPoolRow.

Module ExchangeMarketLinkRow.
Record t := mk {
  bucket_id : rstring; registry_id : rstring; is_put : bool; updated_at_seq : Z
}.
#[global] Instance expand : Fields t := λ s, mk
  (bucket_id s) (registry_id s) (is_put s) (updated_at_seq s).
End ExchangeMarketLinkRow.

Module PositionRow.
Record t := mk {
  bucket_id : rstring; range_start : Z; range_end : Z; object_id : rstring; recipient : rstring;
  updated_at_seq : Z; premium_received : Z; mm_account_id : rstring; tx_digest : rstring; minted_at_ms : Z;
  option_kind : rstring
}.
#[global] Instance expand : Fields t := λ s, mk
  (bucket_id s) (range_start s) (range_end s) (object_id s) (recipient s) (updated_at_seq s)
  (premium_received s) (mm_account_id s) (tx_digest s) (minted_at_ms s) (option_kind s).
End PositionRow.

Module RfqRow.
Record t := mk {
  rfq_id : rstring; bucket_id : option rstring; origin : rstring; amount : Z; reserve_premium : Z;
  deadline_ms : Z; best_premium : option Z; best_bidder : option rstring; status : rstring;
  winner : option rstring; net_premium : option Z; position_id : option rstring; gross_premium : option Z;
  fee : option Z; updated_at_seq : Z; auction_kind : rstring; meta_id : option rstring
}.
#[global] Instance expand : Fields t := λ s, mk
  (rfq_id s) (bucket_id s) (origin s) (amount s) (reserve_premium s) (deadline_ms s) (best_premium s)
  (best_bidder s) (status s) (winner s) (net_premium s) (position_id s) (gross_premium s) (fee s)
  (updated_at_seq s) (auction_kind s) (meta_id s).
End RfqRow.

Module RfqBidRow.
Record t := mk {
  rfq_id : rstring; sequence : Z; bidder : rstring; call_recipient : rstring; premium : Z;
  auction_kind : rstring
}.
#[global] Instance expand : Fields t := λ s, mk
  (rfq_id s) (sequence s) (bidder s) (call_recipient s) (premium s) (auction_kind s).
End RfqBidRow.

Module VaultRow.
Record t := mk {
  vault_id : rstring; underlying_type : rstring; settlement_type : rstring; share_type : rstring; round : Z;
  current_bucket : option rstring; latest_pps : option Z; total_shares : Z; pending_deposits : Z;
  deposits_paused : bool; updated_at_seq : Z; mgmt_fee_bps_annual : option Z; perf_fee_bps : option Z;
  round_ms : option Z; selling_window_ms : option Z; min_strike_bps_over_spot : option Z;
  max_strike_bps_over_spot : option Z
}.
#[global] Instance expand : Fields t := λ s, mk
  (vault_id s) (underlying_type s) (settlement_type s) (share_type s) (round s) (current_bucket s)
  (latest_pps s) (total_shares s) (pending_deposits s) (deposits_paused s) (updated_at_seq s)
  (mgmt_fee_bps_annual s) (perf_fee_bps s) (round_ms s) (selling_window_ms s) (min_strike_bps_over_spot s)
  (max_strike_bps_over_spot s).
End VaultRow.

Module VaultRoundRow.
Record t := mk {
  vault_id : rstring; round : Z; bucket_id : option rstring; strike : option Z; strike_scale : option Z;
  expiry_ms : option Z; pps : option Z; aum : option Z; shares : option Z; premium_collected : option Z;
  mgmt_fee : option Z; perf_fee : option Z; finalized_at_ms : option Z; updated_at_seq : Z
}.
#[global] Instance expand : Fields t := λ s, mk
  (vault_id s) (round s) (bucket_id s) (strike s) (strike_scale s) (expiry_ms s) (pps s) (aum s) (shares s)
  (premium_collected s) (mgmt_fee s) (perf_fee s) (finalized_at_ms s) (updated_at_seq s).
End VaultRoundRow.

Module VaultReceiptRow.
Record t := mk {
  vault_id : rstring; owner : rstring; round : Z; kind : rstring; amount : Z; settled : Z; updated_at_seq : Z
}.
#[global] Instance expand : Fields t := λ s, mk
  (vault_id s) (owner s) (round s) (kind s) (amount s) (settled s) (updated_at_seq s).
End VaultReceiptRow.

Module TradingVaultRow.
Record t := mk {
  vault_id : rstring; accounting_asset : rstring; creator : rstring; curator : rstring;
  curator_cap_id : rstring; state : rstring; lockup_ms : Z; curator_fee_bps : Z; unwind_grace_ms : Z;
  deposits_paused : bool; mm_release_enabled : bool; total_shares : Z; position_count : Z;
  pending_withdrawals : Z; latest_pps_e12 : option Z; updated_at_seq : Z; updated_at_ms : Z;
  external_account : option rstring; external_exposure : Z; latest_external_equity : option Z;
  external_equity_updated_at_ms : option Z; latest_nav : option Z; nav_updated_at_ms : option Z;
  structure_code : Z; senior_hurdle_bps_annual : Z; target_junior_bps : Z; maintenance_junior_bps : Z;
  upside_code : Z; residual_participation_bps : Z; total_return_cap_bps : Z; terms_version : Z;
  spec_hash : option rstring; senior_shares : Z; junior_shares : Z; senior_claim : Z;
  senior_principal_basis : Z; senior_nav : option Z; junior_nav : option Z; latest_senior_pps_e12 : option Z;
  latest_junior_pps_e12 : option Z; risk_state : Z; curator_commitment_breached : bool;
  impaired_since_ms : option Z; active_junior_generation : Z; reset_old_generation : option Z;
  reset_proposed_at_ms : option Z; reset_executable_at_ms : option Z; reset_recorded_nav : option Z;
  reset_recorded_senior_claim : option Z; reset_recorded_required_deposit : option Z; settled : bool;
  settlement_final_nav : option Z; senior_pool : option Z; senior_supply : option Z; junior_pool : option Z;
  junior_supply : option Z; settlement_snapshot_at_ms : option Z; settlement_redeemed : Z;
  senior_lane_head : Z; senior_lane_tail : Z; junior_lane_head : Z; junior_lane_tail : Z
}.
#[global] Instance expand : Fields t := λ s, mk
  (vault_id s) (accounting_asset s) (creator s) (curator s) (curator_cap_id s) (state s) (lockup_ms s)
  (curator_fee_bps s) (unwind_grace_ms s) (deposits_paused s) (mm_release_enabled s) (total_shares s)
  (position_count s) (pending_withdrawals s) (latest_pps_e12 s) (updated_at_seq s) (updated_at_ms s)
  (external_account s) (external_exposure s) (latest_external_equity s) (external_equity_updated_at_ms s)
  (latest_nav s) (nav_updated_at_ms s) (structure_code s) (senior_hurdle_bps_annual s) (target_junior_bps s)
  (maintenance_junior_bps s) (upside_code s) (residual_participation_bps s) (total_return_cap_bps s)
  (terms_version s) (spec_hash s) (senior_shares s) (junior_shares s) (senior_claim s)
  (senior_principal_basis s) (senior_nav s) (junior_nav s) (latest_senior_pps_e12 s) (latest_junior_pps_e12 s)
  (risk_state s) (curator_commitment_breached s) (impaired_since_ms s) (active_junior_generation s)
  (reset_old_generation s) (reset_proposed_at_ms s) (reset_executable_at_ms s) (reset_recorded_nav s)
  (reset_recorded_senior_claim s) (reset_recorded_required_deposit s) (settled s) (settlement_final_nav s)
  (senior_pool s) (senior_supply s) (junior_pool s) (junior_supply s) (settlement_snapshot_at_ms s)
  (settlement_redeemed s) (senior_lane_head s) (senior_lane_tail s) (junior_lane_head s) (junior_lane_tail s).
End TradingVaultRow.

Module VaultPositionRow.
Record t := mk {
  position_id : rstring; vault_id : rstring; tranche : Z; capital_generation : Z; shares : Z; cost_basis : Z;
  locked_until_ms : Z; status : rstring; parent_position_id : option rstring; merged_into : option rstring;
  queued_global_seq : option Z; created_at_ms : Z; updated_at_ms : Z; updated_at_seq : Z
}.
#[global] Instance expand : Fields t := λ s, mk
  (position_id s) (vault_id s) (tranche s) (capital_generation s) (shares s) (cost_basis s) (locked_until_ms s)
  (status s) (parent_position_id s) (merged_into s) (queued_global_seq s) (created_at_ms s) (updated_at_ms s)
  (updated_at_seq s).
End VaultPositionRow.

Module TradingVaultPositionRow.
Record t := mk {
  vault_id : rstring; position_id : rstring; adapter : rstring; active : bool; stored_at_ms : Z;
  removed_at_ms : option Z; updated_at_seq : Z; last_value : option Z; last_appraised_at_ms : option Z
}.
#[global] Instance expand : Fields t := λ s, mk
  (vault_id s) (position_id s) (adapter s) (active s) (stored_at_ms s) (removed_at_ms s) (updated_at_seq s)
  (last_value s) (last_appraised_at_ms s).
End TradingVaultPositionRow.


(** * States as rows *)

Section rows.
Context `{HexCrate}.

Definition id_of_text (s : rstring) : result RowError ObjectId := map_err BadId (from_hex s).

Definition bucket_row (id : ObjectId) (s : BucketState.t) (sequence : Z) : BucketRow.t := {|
  BucketRow.bucket_id := to_hex id; BucketRow.asset_type := BucketState.asset_type s;
  BucketRow.settlement_type := BucketState.settlement_type s; BucketRow.call_type := BucketState.call_type s;
  BucketRow.strike := u128_to_bigdecimal (BucketState.strike s);
  BucketRow.strike_scale := BucketState.strike_scale s;
  BucketRow.expiry_ms := u64_as_i64 (BucketState.expiry_ms s);
  BucketRow.total_written := u128_to_bigdecimal (BucketState.total_written s);
  BucketRow.exercise_cursor := u128_to_bigdecimal (BucketState.exercise_cursor s);
  BucketRow.cleaned := BucketState.cleaned s; BucketRow.invalidated := BucketState.invalidated s;
  BucketRow.updated_at_seq := sequence; BucketRow.option_kind := BucketState.option_kind s
|}.

Definition rfq_row (auction_id : ObjectId) (s : RfqState.t) (sequence : Z) : RfqRow.t := {|
  RfqRow.rfq_id := to_hex auction_id; RfqRow.bucket_id := to_hex <$> RfqState.bucket_id s;
  RfqRow.origin := to_hex (RfqState.origin s); RfqRow.amount := u64_to_bigdecimal (RfqState.amount s);
  RfqRow.reserve_premium := u64_to_bigdecimal (RfqState.reserve_premium s);
  RfqRow.deadline_ms := u64_as_i64 (RfqState.deadline_ms s);
  RfqRow.best_premium := u64_to_bigdecimal <$> RfqState.best_premium s;
  RfqRow.best_bidder := to_hex <$> RfqState.best_bidder s; RfqRow.status := RfqStatus_tag (RfqState.status s);
  RfqRow.winner := to_hex <$> RfqState.winner s;
  RfqRow.net_premium := u64_to_bigdecimal <$> RfqState.net_premium s;
  RfqRow.position_id := to_hex <$> RfqState.position_id s;
  RfqRow.gross_premium := u64_to_bigdecimal <$> RfqState.gross_premium s;
  RfqRow.fee := u64_to_bigdecimal <$> RfqState.fee s; RfqRow.updated_at_seq := sequence;
  RfqRow.auction_kind := RfqState.auction_kind s; RfqRow.meta_id := to_hex <$> RfqState.meta_id s
|}.

Definition vault_row (id : ObjectId) (s : VaultState.t) (sequence : Z) : VaultRow.t := {|
  VaultRow.vault_id := to_hex id; VaultRow.underlying_type := VaultState.underlying_type s;
  VaultRow.settlement_type := VaultState.settlement_type s; VaultRow.share_type := VaultState.share_type s;
  VaultRow.round := u64_as_i64 (VaultState.round s);
  VaultRow.current_bucket := to_hex <$> VaultState.current_bucket s;
  VaultRow.latest_pps := u128_to_bigdecimal <$> VaultState.latest_pps s;
  VaultRow.total_shares := u64_to_bigdecimal (VaultState.total_shares s);
  VaultRow.pending_deposits := u64_to_bigdecimal (VaultState.pending_deposits s);
  VaultRow.deposits_paused := VaultState.deposits_paused s; VaultRow.updated_at_seq := sequence;
  VaultRow.mgmt_fee_bps_annual := u64_as_i64 <$> VaultState.mgmt_fee_bps_annual s;
  VaultRow.perf_fee_bps := u64_as_i64 <$> VaultState.perf_fee_bps s;
  VaultRow.round_ms := u64_as_i64 <$> VaultState.round_ms s;
  VaultRow.selling_window_ms := u64_as_i64 <$> VaultState.selling_window_ms s;
  VaultRow.min_strike_bps_over_spot := u64_as_i64 <$> VaultState.min_strike_bps_over_spot s;
  VaultRow.max_strike_bps_over_spot := u64_as_i64 <$> VaultState.max_strike_bps_over_spot s
|}.

Definition vault_round_row (vault_id : ObjectId) (round : Z) (s : VaultRoundState.t) (sequence : Z) : VaultRoundRow.t := {|
  VaultRoundRow.vault_id := to_hex vault_id; VaultRoundRow.round := u64_as_i64 round;
  VaultRoundRow.bucket_id := to_hex <$> VaultRoundState.bucket_id s;
  VaultRoundRow.strike := u128_to_bigdecimal <$> VaultRoundState.strike s;
  VaultRoundRow.strike_scale := VaultRoundState.strike_scale s;
  VaultRoundRow.expiry_ms := u64_as_i64 <$> VaultRoundState.expiry_ms s;
  VaultRoundRow.pps := u128_to_bigdecimal <$> VaultRoundState.pps s;
  VaultRoundRow.aum := u64_to_bigdecimal <$> VaultRoundState.aum s;
  VaultRoundRow.shares := u64_to_bigdecimal <$> VaultRoundState.shares s;
  VaultRoundRow.premium_collected := u64_to_bigdecimal <$> VaultRoundState.premium_collected s;
  VaultRoundRow.mgmt_fee := u64_to_bigdecimal <$> VaultRoundState.mgmt_fee s;
  VaultRoundRow.perf_fee := u64_to_bigdecimal <$> VaultRoundState.perf_fee s;
  VaultRoundRow.finalized_at_ms := u64_as_i64 <$> VaultRoundState.finalized_at_ms s;
  VaultRoundRow.updated_at_seq := sequence
|}.

Definition trading_vault_row (id : ObjectId) (s : TradingVaultState.t) (sequence : Z) : TradingVaultRow.t := {|
  TradingVaultRow.vault_id := to_hex id;
  TradingVaultRow.accounting_asset := TradingVaultState.accounting_asset s;
  TradingVaultRow.creator := to_hex (TradingVaultState.creator s);
  TradingVaultRow.curator := to_hex (TradingVaultState.curator s);
  TradingVaultRow.curator_cap_id := to_hex (TradingVaultState.curator_cap_id s);
  TradingVaultRow.state := TradingVaultState.state s;
  TradingVaultRow.lockup_ms := u64_as_i64 (TradingVaultState.lockup_ms s);
  TradingVaultRow.curator_fee_bps := u64_as_i64 (TradingVaultState.curator_fee_bps s);
  TradingVaultRow.unwind_grace_ms := u64_as_i64 (TradingVaultState.unwind_grace_ms s);
  TradingVaultRow.deposits_paused := TradingVaultState.deposits_paused s;
  TradingVaultRow.mm_release_enabled := TradingVaultState.mm_release_enabled s;
  TradingVaultRow.total_shares := u128_to_bigdecimal (TradingVaultState.total_shares s);
  TradingVaultRow.position_count := u64_as_i64 (TradingVaultState.position_count s);
  TradingVaultRow.pending_withdrawals := u64_as_i64 (TradingVaultState.pending_withdrawals s);
  TradingVaultRow.latest_pps_e12 := u128_to_bigdecimal <$> TradingVaultState.latest_pps_e12 s;
  TradingVaultRow.updated_at_seq := sequence;
  TradingVaultRow.updated_at_ms := u64_as_i64 (TradingVaultState.updated_at_ms s);
  TradingVaultRow.external_account := TradingVaultState.external_account s;
  TradingVaultRow.external_exposure := u64_as_i64 (TradingVaultState.external_exposure s);
  TradingVaultRow.latest_external_equity := u64_as_i64 <$> TradingVaultState.latest_external_equity s;
  TradingVaultRow.external_equity_updated_at_ms := u64_as_i64 <$> TradingVaultState.external_equity_updated_at_ms s;
  TradingVaultRow.latest_nav := u128_to_bigdecimal <$> TradingVaultState.latest_nav s;
  TradingVaultRow.nav_updated_at_ms := u64_as_i64 <$> TradingVaultState.nav_updated_at_ms s;
  TradingVaultRow.structure_code := TradingVaultState.structure_code s;
  TradingVaultRow.senior_hurdle_bps_annual := u64_as_i64 (TradingVaultState.senior_hurdle_bps_annual s);
  TradingVaultRow.target_junior_bps := u64_as_i64 (TradingVaultState.target_junior_bps s);
  TradingVaultRow.maintenance_junior_bps := u64_as_i64 (TradingVaultState.maintenance_junior_bps s);
  TradingVaultRow.upside_code := TradingVaultState.upside_code s;
  TradingVaultRow.residual_participation_bps := u64_as_i64 (TradingVaultState.residual_participation_bps s);
  TradingVaultRow.total_return_cap_bps := u64_as_i64 (TradingVaultState.total_return_cap_bps s);
  TradingVaultRow.terms_version := u64_as_i64 (TradingVaultState.terms_version s);
  TradingVaultRow.spec_hash := TradingVaultState.spec_hash s;
  TradingVaultRow.senior_shares := u128_to_bigdecimal (TradingVaultState.senior_shares s);
  TradingVaultRow.junior_shares := u128_to_bigdecimal (TradingVaultState.junior_shares s);
  TradingVaultRow.senior_claim := u128_to_bigdecimal (TradingVaultState.senior_claim s);
  TradingVaultRow.senior_principal_basis := u128_to_bigdecimal (TradingVaultState.senior_principal_basis s);
  TradingVaultRow.senior_nav := u128_to_bigdecimal <$> TradingVaultState.senior_nav s;
  TradingVaultRow.junior_nav := u128_to_bigdecimal <$> TradingVaultState.junior_nav s;
  TradingVaultRow.latest_senior_pps_e12 := u128_to_bigdecimal <$> TradingVaultState.latest_senior_pps_e12 s;
  TradingVaultRow.latest_junior_pps_e12 := u128_to_bigdecimal <$> TradingVaultState.latest_junior_pps_e12 s;
  TradingVaultRow.risk_state := TradingVaultState.risk_state s;
  TradingVaultRow.curator_commitment_breached := TradingVaultState.curator_commitment_breached s;
  TradingVaultRow.impaired_since_ms := u64_as_i64 <$> TradingVaultState.impaired_since_ms s;
  TradingVaultRow.active_junior_generation := u64_as_i64 (TradingVaultState.active_junior_generation s);
  TradingVaultRow.reset_old_generation := u64_as_i64 <$> TradingVaultState.reset_old_generation s;
  TradingVaultRow.reset_proposed_at_ms := u64_as_i64 <$> TradingVaultState.reset_proposed_at_ms s;
  TradingVaultRow.reset_executable_at_ms := u64_as_i64 <$> TradingVaultState.reset_executable_at_ms s;
  TradingVaultRow.reset_recorded_nav := u128_to_bigdecimal <$> TradingVaultState.reset_recorded_nav s;
  TradingVaultRow.reset_recorded_senior_claim := u128_to_bigdecimal <$> TradingVaultState.reset_recorded_senior_claim s;
  TradingVaultRow.reset_recorded_required_deposit := u64_as_i64 <$> TradingVaultState.reset_recorded_required_deposit s;
  TradingVaultRow.settled := TradingVaultState.settled s;
  TradingVaultRow.settlement_final_nav := u128_to_bigdecimal <$> TradingVaultState.settlement_final_nav s;
  TradingVaultRow.senior_pool := u64_as_i64 <$> TradingVaultState.senior_pool s;
  TradingVaultRow.senior_supply := u128_to_bigdecimal <$> TradingVaultState.senior_supply s;
  TradingVaultRow.junior_pool := u64_as_i64 <$> TradingVaultState.junior_pool s;
  TradingVaultRow.junior_supply := u128_to_bigdecimal <$> TradingVaultState.junior_supply s;
  TradingVaultRow.settlement_snapshot_at_ms := u64_as_i64 <$> TradingVaultState.settlement_snapshot_at_ms s;
  TradingVaultRow.settlement_redeemed := u128_to_bigdecimal (TradingVaultState.settlement_redeemed s);
  TradingVaultRow.senior_lane_head := u64_as_i64 (TradingVaultState.senior_lane_head s);
  TradingVaultRow.senior_lane_tail := u64_as_i64 (TradingVaultState.senior_lane_tail s);
  TradingVaultRow.junior_lane_head := u64_as_i64 (TradingVaultState.junior_lane_head s);
  TradingVaultRow.junior_lane_tail := u64_as_i64 (TradingVaultState.junior_lane_tail s)
|}.

Definition vault_position_row (position_id : ObjectId) (s : VaultPositionState.t) (sequence : Z) : VaultPositionRow.t := {|
  VaultPositionRow.position_id := to_hex position_id;
  VaultPositionRow.vault_id := to_hex (VaultPositionState.vault_id s);
  VaultPositionRow.tranche := VaultPositionState.tranche s;
  VaultPositionRow.capital_generation := u64_as_i64 (VaultPositionState.capital_generation s);
  VaultPositionRow.shares := u128_to_bigdecimal (VaultPositionState.shares s);
  VaultPositionRow.cost_basis := u64_to_bigdecimal (VaultPositionState.cost_basis s);
  VaultPositionRow.locked_until_ms := u64_as_i64 (VaultPositionState.locked_until_ms s);
  VaultPositionRow.status := VaultPositionState.status s;
  VaultPositionRow.parent_position_id := to_hex <$> VaultPositionState.parent_position_id s;
  VaultPositionRow.merged_into := to_hex <$> VaultPositionState.merged_into s;
  VaultPositionRow.queued_global_seq := u64_as_i64 <$> VaultPositionState.queued_global_seq s;
  VaultPositionRow.created_at_ms := u64_as_i64 (VaultPositionState.created_at_ms s);
  VaultPositionRow.updated_at_ms := u64_as_i64 (VaultPositionState.updated_at_ms s);
  VaultPositionRow.updated_at_seq := sequence
|}.

Definition trading_vault_position_row (vault_id position_id : ObjectId) (s : TradingVaultPositionState.t) (sequence : Z) : TradingVaultPositionRow.t := {|
  TradingVaultPositionRow.vault_id := to_hex vault_id;
  TradingVaultPositionRow.position_id := to_hex position_id;
  TradingVaultPositionRow.adapter := TradingVaultPositionState.adapter s;
  TradingVaultPositionRow.active := TradingVaultPositionState.active s;
  TradingVaultPositionRow.stored_at_ms := u64_as_i64 (TradingVaultPositionState.stored_at_ms s);
  TradingVaultPositionRow.removed_at_ms := u64_as_i64 <$> TradingVaultPositionState.removed_at_ms s;
  TradingVaultPositionRow.updated_at_seq := sequence;
  TradingVaultPositionRow.last_value := u64_as_i64 <$> TradingVaultPositionState.last_value s;
  TradingVaultPositionRow.last_appraised_at_ms := u64_as_i64 <$> TradingVaultPositionState.last_appraised_at_ms s
|}.

Definition receipt_row (key : ReceiptKey) (s : ReceiptState.t) (sequence : Z) : VaultReceiptRow.t := {|
  VaultReceiptRow.vault_id := to_hex key.1.1.1; VaultReceiptRow.owner := key.1.1.2;
  VaultReceiptRow.round := u64_as_i64 key.1.2; VaultReceiptRow.kind := key.2;
  VaultReceiptRow.amount := u64_to_bigdecimal (ReceiptState.amount s);
  VaultReceiptRow.settled := u64_to_bigdecimal (ReceiptState.settled s);
  VaultReceiptRow.updated_at_seq := sequence
|}.

Definition account_row (id : ObjectId) (s : AccountState.t) (sequence : Z) : AccountRow.t := {|
  AccountRow.account_id := to_hex id; AccountRow.owner := to_hex <$> AccountState.owner s;
  AccountRow.signing_pubkey := AccountState.signing_pubkey s;
  AccountRow.signing_scheme := as_u8 <$> AccountState.signing_scheme s; AccountRow.updated_at_seq := sequence
|}.

Definition write_position_row (w : WriteExecuted.t) (sequence : Z) (tx_digest : rstring) (minted_at_ms : Z) : PositionRow.t := {|
  PositionRow.bucket_id := to_hex (WriteExecuted.bucket_id w);
  PositionRow.range_start := u128_to_bigdecimal (WriteExecuted.range_start w);
  PositionRow.range_end := u128_to_bigdecimal (WriteExecuted.range_end w);
  PositionRow.object_id := to_hex (WriteExecuted.position_id w);
  PositionRow.recipient := to_hex (WriteExecuted.position_recipient w); PositionRow.updated_at_seq := sequence;
  PositionRow.premium_received := u64_to_bigdecimal (WriteExecuted.gross_premium w);
  PositionRow.mm_account_id := to_hex (WriteExecuted.signer_id w); PositionRow.tx_digest := tx_digest;
  PositionRow.minted_at_ms := minted_at_ms; PositionRow.option_kind := OPTION_KIND_CALL
|}.

Definition put_write_position_row (w : PutWriteExecuted.t) (sequence : Z) (tx_digest : rstring) (minted_at_ms : Z) : PositionRow.t := {|
  PositionRow.bucket_id := to_hex (PutWriteExecuted.bucket_id w);
  PositionRow.range_start := u128_to_bigdecimal (PutWriteExecuted.range_start w);
  PositionRow.range_end := u128_to_bigdecimal (PutWriteExecuted.range_end w);
  PositionRow.object_id := to_hex (PutWriteExecuted.position_id w);
  PositionRow.recipient := to_hex (PutWriteExecuted.position_recipient w);
  PositionRow.updated_at_seq := sequence;
  PositionRow.premium_received := u64_to_bigdecimal (PutWriteExecuted.gross_premium w);
  PositionRow.mm_account_id := to_hex (PutWriteExecuted.signer_id w); PositionRow.tx_digest := tx_digest;
  PositionRow.minted_at_ms := minted_at_ms; PositionRow.option_kind := OPTION_KIND_PUT
|}.

Definition settled_position_row (s : RfqSettled.t) (sequence : Z) (tx_digest : rstring) (minted_at_ms : Z) : PositionRow.t := {|
  PositionRow.bucket_id := to_hex (RfqSettled.bucket_id s);
  PositionRow.range_start := u128_to_bigdecimal (RfqSettled.range_start s);
  PositionRow.range_end := u128_to_bigdecimal (RfqSettled.range_end s);
  PositionRow.object_id := to_hex (RfqSettled.position_id s);
  PositionRow.recipient := to_hex (RfqSettled.position_recipient s); PositionRow.updated_at_seq := sequence;
  PositionRow.premium_received := u64_to_bigdecimal (RfqSettled.gross_premium s);
  PositionRow.mm_account_id := to_hex ZERO_ID; PositionRow.tx_digest := tx_digest;
  PositionRow.minted_at_ms := minted_at_ms; PositionRow.option_kind := OPTION_KIND_CALL
|}.

Definition put_settled_position_row (s : PutRfqSettled.t) (sequence : Z) (tx_digest : rstring) (minted_at_ms : Z) : PositionRow.t := {|
  PositionRow.bucket_id := to_hex (PutRfqSettled.bucket_id s);
  PositionRow.range_start := u128_to_bigdecimal (PutRfqSettled.range_start s);
  PositionRow.range_end := u128_to_bigdecimal (PutRfqSettled.range_end s);
  PositionRow.object_id := to_hex (PutRfqSettled.position_id s);
  PositionRow.recipient := to_hex (PutRfqSettled.position_recipient s); PositionRow.updated_at_seq := sequence;
  PositionRow.premium_received := u64_to_bigdecimal (PutRfqSettled.gross_premium s);
  PositionRow.mm_account_id := to_hex ZERO_ID; PositionRow.tx_digest := tx_digest;
  PositionRow.minted_at_ms := minted_at_ms; PositionRow.option_kind := OPTION_KIND_PUT
|}.

Definition vault_settled_position_row (s : VaultRfqSettled.t) (sequence : Z) (tx_digest : rstring) (minted_at_ms : Z) : PositionRow.t := {|
  PositionRow.bucket_id := to_hex (VaultRfqSettled.bucket_id s);
  PositionRow.range_start := u128_to_bigdecimal (VaultRfqSettled.range_start s);
  PositionRow.range_end := u128_to_bigdecimal (VaultRfqSettled.range_end s);
  PositionRow.object_id := to_hex (VaultRfqSettled.position_id s);
  PositionRow.recipient := to_hex (mkSuiAddress (addr_bytes (VaultRfqSettled.vault_id s)));
  PositionRow.updated_at_seq := sequence;
  PositionRow.premium_received := u64_to_bigdecimal (VaultRfqSettled.gross_premium s);
  PositionRow.mm_account_id := to_hex ZERO_ID; PositionRow.tx_digest := tx_digest;
  PositionRow.minted_at_ms := minted_at_ms; PositionRow.option_kind := OPTION_KIND_CALL
|}.

Definition deepbook_pool_row (p : DeepBookPoolCreated.t) (checkpoint timestamp_ms sequence : Z) : DeepBookPoolRow.t := {|
  DeepBookPoolRow.bucket_id := to_hex (DeepBookPoolCreated.bucket_id p);
  DeepBookPoolRow.pool_id := to_hex (DeepBookPoolCreated.pool_id p);
  DeepBookPoolRow.base_asset_type := DeepBookPoolCreated.base_asset_type p;
  DeepBookPoolRow.quote_asset_type := DeepBookPoolCreated.quote_asset_type p;
  DeepBookPoolRow.tick_size := u64_as_i64 (DeepBookPoolCreated.tick_size p);
  DeepBookPoolRow.lot_size := u64_as_i64 (DeepBookPoolCreated.lot_size p);
  DeepBookPoolRow.min_size := u64_as_i64 (DeepBookPoolCreated.min_size p);
  DeepBookPoolRow.taker_fee := u64_as_i64 (DeepBookPoolCreated.taker_fee p);
  DeepBookPoolRow.maker_fee := u64_as_i64 (DeepBookPoolCreated.maker_fee p);
  DeepBookPoolRow.created_checkpoint := checkpoint; DeepBookPoolRow.created_timestamp_ms := timestamp_ms;
  DeepBookPoolRow.updated_at_seq := sequence
|}.

Definition exchange_market_row (m : OptionMarketListed.t) (sequence : Z) : ExchangeMarketLinkRow.t := {|
  ExchangeMarketLinkRow.bucket_id := to_hex (OptionMarketListed.bucket m);
  ExchangeMarketLinkRow.registry_id := to_hex (OptionMarketListed.registry m);
  ExchangeMarketLinkRow.is_put := OptionMarketListed.is_put m; ExchangeMarketLinkRow.updated_at_seq := sequence
|}.

(** * Rows as states *)

Definition BucketRow_into_state (r : BucketRow.t) : result RowError (ObjectId * BucketState.t) :=
  id ← id_of_text (BucketRow.bucket_id r);
  strike ← bigdecimal_to_u128 (BucketRow.strike r);
  strike_scale ← u8_try_from (BucketRow.strike_scale r);
  total_written ← bigdecimal_to_u128 (BucketRow.total_written r);
  exercise_cursor ← bigdecimal_to_u128 (BucketRow.exercise_cursor r);
  Ok (id, {|
    BucketState.asset_type := BucketRow.asset_type r;
    BucketState.settlement_type := BucketRow.settlement_type r; BucketState.call_type := BucketRow.call_type r;
    BucketState.strike := strike; BucketState.strike_scale := strike_scale;
    BucketState.expiry_ms := i64_as_u64 (BucketRow.expiry_ms r); BucketState.total_written := total_written;
    BucketState.exercise_cursor := exercise_cursor; BucketState.cleaned := BucketRow.cleaned r;
    BucketState.invalidated := BucketRow.invalidated r; BucketState.option_kind := BucketRow.option_kind r
  |}).

Definition DeepBookPoolRow_into_state (r : DeepBookPoolRow.t) : result RowError (ObjectId * DeepBookPoolState.t) :=
  bucket ← id_of_text (DeepBookPoolRow.bucket_id r);
  pool_id ← id_of_text (DeepBookPoolRow.pool_id r);
  Ok (bucket, {|
    DeepBookPoolState.pool_id := pool_id;
    DeepBookPoolState.base_asset_type := DeepBookPoolRow.base_asset_type r;
    DeepBookPoolState.quote_asset_type := DeepBookPoolRow.quote_asset_type r;
    DeepBookPoolState.tick_size := i64_as_u64 (DeepBookPoolRow.tick_size r);
    DeepBookPoolState.lot_size := i64_as_u64 (DeepBookPoolRow.lot_size r);
    DeepBookPoolState.min_size := i64_as_u64 (DeepBookPoolRow.min_size r);
    DeepBookPoolState.taker_fee := i64_as_u64 (DeepBookPoolRow.taker_fee r);
    DeepBookPoolState.maker_fee := i64_as_u64 (DeepBookPoolRow.maker_fee r)
  |}).

Definition ExchangeMarketLinkRow_into_state (r : ExchangeMarketLinkRow.t) : result RowError (ObjectId * ExchangeMarketState.t) :=
  bucket ← id_of_text (ExchangeMarketLinkRow.bucket_id r);
  registry_id ← id_of_text (ExchangeMarketLinkRow.registry_id r);
  Ok (bucket, {|
    ExchangeMarketState.registry_id := registry_id;
    ExchangeMarketState.is_put := ExchangeMarketLinkRow.is_put r
  |}).

Definition account_row_into_state (r : AccountRow.t) : result RowError (ObjectId * AccountState.t) :=
  id ← id_of_text (AccountRow.account_id r);
  owner ← transpose_ok id_of_text (AccountRow.owner r);
  signing_scheme ← transpose_ok scheme_of_i16 (AccountRow.signing_scheme r);
  Ok (id, {|
    AccountState.owner := owner; AccountState.signing_pubkey := AccountRow.signing_pubkey r;
    AccountState.signing_scheme := signing_scheme
  |}).

Definition RfqRow_into_state (r : RfqRow.t) : result RowError (ObjectId * RfqState.t) :=
  id ← id_of_text (RfqRow.rfq_id r);
  meta_id ← transpose_ok id_of_text (RfqRow.meta_id r);
  bucket_id ← transpose_ok id_of_text (RfqRow.bucket_id r);
  origin ← id_of_text (RfqRow.origin r);
  amount ← bigdecimal_to_u64 (RfqRow.amount r);
  reserve_premium ← bigdecimal_to_u64 (RfqRow.reserve_premium r);
  best_premium ← transpose_ok bigdecimal_to_u64 (RfqRow.best_premium r);
  best_bidder ← transpose_ok id_of_text (RfqRow.best_bidder r);
  status ← status_of_text (RfqRow.status r);
  winner ← transpose_ok id_of_text (RfqRow.winner r);
  net_premium ← transpose_ok bigdecimal_to_u64 (RfqRow.net_premium r);
  position_id ← transpose_ok id_of_text (RfqRow.position_id r);
  gross_premium ← transpose_ok bigdecimal_to_u64 (RfqRow.gross_premium r);
  fee ← transpose_ok bigdecimal_to_u64 (RfqRow.fee r);
  Ok (id, {|
    RfqState.meta_id := meta_id; RfqState.bucket_id := bucket_id; RfqState.origin := origin;
    RfqState.amount := amount; RfqState.reserve_premium := reserve_premium;
    RfqState.deadline_ms := i64_as_u64 (RfqRow.deadline_ms r); RfqState.best_premium := best_premium;
    RfqState.best_bidder := best_bidder; RfqState.status := status; RfqState.winner := winner;
    RfqState.net_premium := net_premium; RfqState.position_id := position_id;
    RfqState.gross_premium := gross_premium; RfqState.fee := fee;
    RfqState.auction_kind := RfqRow.auction_kind r
  |}).

Definition VaultRow_into_state (r : VaultRow.t) : result RowError (ObjectId * VaultState.t) :=
  id ← id_of_text (VaultRow.vault_id r);
  current_bucket ← transpose_ok id_of_text (VaultRow.current_bucket r);
  latest_pps ← transpose_ok bigdecimal_to_u128 (VaultRow.latest_pps r);
  total_shares ← bigdecimal_to_u64 (VaultRow.total_shares r);
  pending_deposits ← bigdecimal_to_u64 (VaultRow.pending_deposits r);
  Ok (id, {|
    VaultState.underlying_type := VaultRow.underlying_type r;
    VaultState.settlement_type := VaultRow.settlement_type r; VaultState.share_type := VaultRow.share_type r;
    VaultState.round := i64_as_u64 (VaultRow.round r); VaultState.current_bucket := current_bucket;
    VaultState.latest_pps := latest_pps; VaultState.total_shares := total_shares;
    VaultState.pending_deposits := pending_deposits; VaultState.deposits_paused := VaultRow.deposits_paused r;
    VaultState.mgmt_fee_bps_annual := i64_as_u64 <$> VaultRow.mgmt_fee_bps_annual r;
    VaultState.perf_fee_bps := i64_as_u64 <$> VaultRow.perf_fee_bps r;
    VaultState.round_ms := i64_as_u64 <$> VaultRow.round_ms r;
    VaultState.selling_window_ms := i64_as_u64 <$> VaultRow.selling_window_ms r;
    VaultState.min_strike_bps_over_spot := i64_as_u64 <$> VaultRow.min_strike_bps_over_spot r;
    VaultState.max_strike_bps_over_spot := i64_as_u64 <$> VaultRow.max_strike_bps_over_spot r
  |}).

Definition VaultRoundRow_into_state (r : VaultRoundRow.t) : result RowError ((ObjectId * Z) * VaultRoundState.t) :=
  id ← id_of_text (VaultRoundRow.vault_id r);
  bucket_id ← transpose_ok id_of_text (VaultRoundRow.bucket_id r);
  strike ← transpose_ok bigdecimal_to_u128 (VaultRoundRow.strike r);
  strike_scale ← transpose_ok u8_try_from (VaultRoundRow.strike_scale r);
  pps ← transpose_ok bigdecimal_to_u128 (VaultRoundRow.pps r);
  aum ← transpose_ok bigdecimal_to_u64 (VaultRoundRow.aum r);
  shares ← transpose_ok bigdecimal_to_u64 (VaultRoundRow.shares r);
  premium_collected ← transpose_ok bigdecimal_to_u64 (VaultRoundRow.premium_collected r);
  mgmt_fee ← transpose_ok bigdecimal_to_u64 (VaultRoundRow.mgmt_fee r);
  perf_fee ← transpose_ok bigdecimal_to_u64 (VaultRoundRow.perf_fee r);
  Ok ((id, i64_as_u64 (VaultRoundRow.round r)), {|
    VaultRoundState.bucket_id := bucket_id; VaultRoundState.strike := strike;
    VaultRoundState.strike_scale := strike_scale;
    VaultRoundState.expiry_ms := i64_as_u64 <$> VaultRoundRow.expiry_ms r; VaultRoundState.pps := pps;
    VaultRoundState.aum := aum; VaultRoundState.shares := shares;
    VaultRoundState.premium_collected := premium_collected; VaultRoundState.mgmt_fee := mgmt_fee;
    VaultRoundState.perf_fee := perf_fee;
    VaultRoundState.finalized_at_ms := i64_as_u64 <$> VaultRoundRow.finalized_at_ms r
  |}).

Definition VaultReceiptRow_into_state (r : VaultReceiptRow.t) : result RowError (ReceiptKey * ReceiptState.t) :=
  id ← id_of_text (VaultReceiptRow.vault_id r);
  amount ← bigdecimal_to_u64 (VaultReceiptRow.amount r);
  settled ← bigdecimal_to_u64 (VaultReceiptRow.settled r);
  Ok ((id, VaultReceiptRow.owner r, i64_as_u64 (VaultReceiptRow.round r), VaultReceiptRow.kind r), {|
    ReceiptState.amount := amount; ReceiptState.settled := settled
  |}).

Definition TradingVaultRow_into_state (r : TradingVaultRow.t) : result RowError (ObjectId * TradingVaultState.t) :=
  id ← id_of_text (TradingVaultRow.vault_id r);
  creator ← id_of_text (TradingVaultRow.creator r);
  curator ← id_of_text (TradingVaultRow.curator r);
  curator_cap_id ← id_of_text (TradingVaultRow.curator_cap_id r);
  total_shares ← bigdecimal_to_u128 (TradingVaultRow.total_shares r);
  latest_pps_e12 ← transpose_ok bigdecimal_to_u128 (TradingVaultRow.latest_pps_e12 r);
  latest_nav ← transpose_ok bigdecimal_to_u128 (TradingVaultRow.latest_nav r);
  senior_shares ← bigdecimal_to_u128 (TradingVaultRow.senior_shares r);
  junior_shares ← bigdecimal_to_u128 (TradingVaultRow.junior_shares r);
  senior_claim ← bigdecimal_to_u128 (TradingVaultRow.senior_claim r);
  senior_principal_basis ← bigdecimal_to_u128 (TradingVaultRow.senior_principal_basis r);
  senior_nav ← transpose_ok bigdecimal_to_u128 (TradingVaultRow.senior_nav r);
  junior_nav ← transpose_ok bigdecimal_to_u128 (TradingVaultRow.junior_nav r);
  latest_senior_pps_e12 ← transpose_ok bigdecimal_to_u128 (TradingVaultRow.latest_senior_pps_e12 r);
  latest_junior_pps_e12 ← transpose_ok bigdecimal_to_u128 (TradingVaultRow.latest_junior_pps_e12 r);
  reset_recorded_nav ← transpose_ok bigdecimal_to_u128 (TradingVaultRow.reset_recorded_nav r);
  reset_recorded_senior_claim ← transpose_ok bigdecimal_to_u128 (TradingVaultRow.reset_recorded_senior_claim r);
  settlement_final_nav ← transpose_ok bigdecimal_to_u128 (TradingVaultRow.settlement_final_nav r);
  senior_supply ← transpose_ok bigdecimal_to_u128 (TradingVaultRow.senior_supply r);
  junior_supply ← transpose_ok bigdecimal_to_u128 (TradingVaultRow.junior_supply r);
  settlement_redeemed ← bigdecimal_to_u128 (TradingVaultRow.settlement_redeemed r);
  Ok (id, {|
    TradingVaultState.accounting_asset := TradingVaultRow.accounting_asset r;
    TradingVaultState.creator := creator; TradingVaultState.curator := curator;
    TradingVaultState.curator_cap_id := curator_cap_id; TradingVaultState.state := TradingVaultRow.state r;
    TradingVaultState.lockup_ms := i64_as_u64 (TradingVaultRow.lockup_ms r);
    TradingVaultState.curator_fee_bps := i64_as_u64 (TradingVaultRow.curator_fee_bps r);
    TradingVaultState.unwind_grace_ms := i64_as_u64 (TradingVaultRow.unwind_grace_ms r);
    TradingVaultState.deposits_paused := TradingVaultRow.deposits_paused r;
    TradingVaultState.mm_release_enabled := TradingVaultRow.mm_release_enabled r;
    TradingVaultState.total_shares := total_shares;
    TradingVaultState.position_count := i64_as_u64 (TradingVaultRow.position_count r);
    TradingVaultState.pending_withdrawals := i64_as_u64 (TradingVaultRow.pending_withdrawals r);
    TradingVaultState.latest_pps_e12 := latest_pps_e12;
    TradingVaultState.updated_at_ms := i64_as_u64 (TradingVaultRow.updated_at_ms r);
    TradingVaultState.external_account := TradingVaultRow.external_account r;
    TradingVaultState.external_exposure := i64_as_u64 (TradingVaultRow.external_exposure r);
    TradingVaultState.latest_external_equity := i64_as_u64 <$> TradingVaultRow.latest_external_equity r;
    TradingVaultState.external_equity_updated_at_ms := i64_as_u64 <$> TradingVaultRow.external_equity_updated_at_ms r;
    TradingVaultState.latest_nav := latest_nav;
    TradingVaultState.nav_updated_at_ms := i64_as_u64 <$> TradingVaultRow.nav_updated_at_ms r;
    TradingVaultState.structure_code := i16_as_u8 (TradingVaultRow.structure_code r);
    TradingVaultState.senior_hurdle_bps_annual := i64_as_u64 (TradingVaultRow.senior_hurdle_bps_annual r);
    TradingVaultState.target_junior_bps := i64_as_u64 (TradingVaultRow.target_junior_bps r);
    TradingVaultState.maintenance_junior_bps := i64_as_u64 (TradingVaultRow.maintenance_junior_bps r);
    TradingVaultState.upside_code := i16_as_u8 (TradingVaultRow.upside_code r);
    TradingVaultState.residual_participation_bps := i64_as_u64 (TradingVaultRow.residual_participation_bps r);
    TradingVaultState.total_return_cap_bps := i64_as_u64 (TradingVaultRow.total_return_cap_bps r);
    TradingVaultState.terms_version := i64_as_u64 (TradingVaultRow.terms_version r);
    TradingVaultState.spec_hash := TradingVaultRow.spec_hash r;
    TradingVaultState.senior_shares := senior_shares; TradingVaultState.junior_shares := junior_shares;
    TradingVaultState.senior_claim := senior_claim;
    TradingVaultState.senior_principal_basis := senior_principal_basis;
    TradingVaultState.senior_nav := senior_nav; TradingVaultState.junior_nav := junior_nav;
    TradingVaultState.latest_senior_pps_e12 := latest_senior_pps_e12;
    TradingVaultState.latest_junior_pps_e12 := latest_junior_pps_e12;
    TradingVaultState.risk_state := i16_as_u8 (TradingVaultRow.risk_state r);
    TradingVaultState.curator_commitment_breached := TradingVaultRow.curator_commitment_breached r;
    TradingVaultState.impaired_since_ms := i64_as_u64 <$> TradingVaultRow.impaired_since_ms r;
    TradingVaultState.active_junior_generation := i64_as_u64 (TradingVaultRow.active_junior_generation r);
    TradingVaultState.reset_old_generation := i64_as_u64 <$> TradingVaultRow.reset_old_generation r;
    TradingVaultState.reset_proposed_at_ms := i64_as_u64 <$> TradingVaultRow.reset_proposed_at_ms r;
    TradingVaultState.reset_executable_at_ms := i64_as_u64 <$> TradingVaultRow.reset_executable_at_ms r;
    TradingVaultState.reset_recorded_nav := reset_recorded_nav;
    TradingVaultState.reset_recorded_senior_claim := reset_recorded_senior_claim;
    TradingVaultState.reset_recorded_required_deposit := i64_as_u64 <$> TradingVaultRow.reset_recorded_required_deposit r;
    TradingVaultState.settled := TradingVaultRow.settled r;
    TradingVaultState.settlement_final_nav := settlement_final_nav;
    TradingVaultState.senior_pool := i64_as_u64 <$> TradingVaultRow.senior_pool r;
    TradingVaultState.senior_supply := senior_supply;
    TradingVaultState.junior_pool := i64_as_u64 <$> TradingVaultRow.junior_pool r;
    TradingVaultState.junior_supply := junior_supply;
    TradingVaultState.settlement_snapshot_at_ms := i64_as_u64 <$> TradingVaultRow.settlement_snapshot_at_ms r;
    TradingVaultState.settlement_redeemed := settlement_redeemed;
    TradingVaultState.senior_lane_head := i64_as_u64 (TradingVaultRow.senior_lane_head r);
    TradingVaultState.senior_lane_tail := i64_as_u64 (TradingVaultRow.senior_lane_tail r);
    TradingVaultState.junior_lane_head := i64_as_u64 (TradingVaultRow.junior_lane_head r);
    TradingVaultState.junior_lane_tail := i64_as_u64 (TradingVaultRow.junior_lane_tail r)
  |}).

Definition VaultPositionRow_into_state (r : VaultPositionRow.t) : result RowError (ObjectId * VaultPositionState.t) :=
  position ← id_of_text (VaultPositionRow.position_id r);
  vault_id ← id_of_text (VaultPositionRow.vault_id r);
  shares ← bigdecimal_to_u128 (VaultPositionRow.shares r);
  cost_basis ← bigdecimal_to_u64 (VaultPositionRow.cost_basis r);
  parent_position_id ← transpose_ok id_of_text (VaultPositionRow.parent_position_id r);
  merged_into ← transpose_ok id_of_text (VaultPositionRow.merged_into r);
  Ok (position, {|
    VaultPositionState.vault_id := vault_id;
    VaultPositionState.tranche := i16_as_u8 (VaultPositionRow.tranche r);
    VaultPositionState.capital_generation := i64_as_u64 (VaultPositionRow.capital_generation r);
    VaultPositionState.shares := shares; VaultPositionState.cost_basis := cost_basis;
    VaultPositionState.locked_until_ms := i64_as_u64 (VaultPositionRow.locked_until_ms r);
    VaultPositionState.status := VaultPositionRow.status r;
    VaultPositionState.parent_position_id := parent_position_id; VaultPositionState.merged_into := merged_into;
    VaultPositionState.queued_global_seq := i64_as_u64 <$> VaultPositionRow.queued_global_seq r;
    VaultPositionState.created_at_ms := i64_as_u64 (VaultPositionRow.created_at_ms r);
    VaultPositionState.updated_at_ms := i64_as_u64 (VaultPositionRow.updated_at_ms r)
  |}).

Definition TradingVaultPositionRow_into_state (r : TradingVaultPositionRow.t) : result RowError ((ObjectId * ObjectId) * TradingVaultPositionState.t) :=
  vault ← id_of_text (TradingVaultPositionRow.vault_id r);
  position ← id_of_text (TradingVaultPositionRow.position_id r);
  Ok ((vault, position), {|
    TradingVaultPositionState.adapter := TradingVaultPositionRow.adapter r;
    TradingVaultPositionState.active := TradingVaultPositionRow.active r;
    TradingVaultPositionState.stored_at_ms := i64_as_u64 (TradingVaultPositionRow.stored_at_ms r);
    TradingVaultPositionState.removed_at_ms := i64_as_u64 <$> TradingVaultPositionRow.removed_at_ms r;
    TradingVaultPositionState.last_value := i64_as_u64 <$> TradingVaultPositionRow.last_value r;
    TradingVaultPositionState.last_appraised_at_ms := i64_as_u64 <$> TradingVaultPositionRow.last_appraised_at_ms r
  |}).

Definition PositionRow_into_state (r : PositionRow.t) : result RowError ((ObjectId * Z) * PositionState.t) :=
  bucket ← id_of_text (PositionRow.bucket_id r);
  object_id ← id_of_text (PositionRow.object_id r);
  recipient ← id_of_text (PositionRow.recipient r);
  start ← bigdecimal_to_u128 (PositionRow.range_start r);
  end_ ← bigdecimal_to_u128 (PositionRow.range_end r);
  Ok ((bucket, start), {|
    PositionState.bucket_id := bucket; PositionState.object_id := object_id;
    PositionState.recipient := recipient; PositionState.range_start := start;
    PositionState.range_end := end_; PositionState.option_kind := PositionRow.option_kind r
  |}).
End rows.
