(* ===== verification/IndexerApply.v ===== *)
(** [apply_event] of [services/indexer/src/store/mod.rs]: what each event does
    to the materialized views, one definition per arm of the match.  An arm that
    only logs leaves the views as they are. *)

From S2P Require Import Prelude RecordUpdate RustStr ExchangeTypes MoveType Asset Quote IndexerEvents IndexerStore.

Section apply.
Context `{HexCrate}.

(** * Buckets, writes and positions *)

Definition bucket_of_created (b : BucketCreated.t) : BucketState.t := {|
  BucketState.asset_type := BucketCreated.asset_type b;
  BucketState.settlement_type := BucketCreated.settlement_type b;
  BucketState.call_type := BucketCreated.call_type b;
  BucketState.strike := BucketCreated.strike b;
  BucketState.strike_scale := BucketCreated.strike_scale b;
  BucketState.expiry_ms := BucketCreated.expiry_ms b;
  BucketState.total_written := 0; BucketState.exercise_cursor := 0;
  BucketState.cleaned := false; BucketState.invalidated := false;
  BucketState.option_kind := OPTION_KIND_CALL
|}.

Definition apply_bucket_created (b : BucketCreated.t) (inner : Inner.t) : Inner.t :=
  inner <| Inner.buckets ::= <[BucketCreated.bucket_id b := bucket_of_created b]> |>.

Definition apply_write_executed (w : WriteExecuted.t) (inner : Inner.t) : Inner.t :=
  let inner := inner <| Inner.buckets ::=
    alter (λ b, b <| BucketState.total_written := WriteExecuted.range_end w |>)
      (WriteExecuted.bucket_id w) |> in
  inner <| Inner.positions ::= <[(WriteExecuted.bucket_id w, WriteExecuted.range_start w) := {|
      PositionState.bucket_id := WriteExecuted.bucket_id w;
      PositionState.object_id := WriteExecuted.position_id w;
      PositionState.recipient := WriteExecuted.position_recipient w;
      PositionState.range_start := WriteExecuted.range_start w;
      PositionState.range_end := WriteExecuted.range_end w;
      PositionState.option_kind := OPTION_KIND_CALL
    |}]> |>.

Definition apply_exercised (e : Exercised.t) (inner : Inner.t) : Inner.t :=
  inner <| Inner.buckets ::=
    alter (λ b, b <| BucketState.exercise_cursor := Exercised.cursor_after e |>)
      (Exercised.bucket_id e) |>.

Definition apply_redeemed (r : Redeemed.t) (inner : Inner.t) : Inner.t :=
  inner <| Inner.positions ::= delete (Redeemed.bucket_id r, Redeemed.range_start r) |>.

Definition bucket_of_put_created (b : PutBucketCreated.t) : BucketState.t := {|
  BucketState.asset_type := PutBucketCreated.asset_type b;
  BucketState.settlement_type := PutBucketCreated.settlement_type b;
  BucketState.call_type := PutBucketCreated.put_type b;
  BucketState.strike := PutBucketCreated.strike b;
  BucketState.strike_scale := PutBucketCreated.strike_scale b;
  BucketState.expiry_ms := PutBucketCreated.expiry_ms b;
  BucketState.total_written := 0; BucketState.exercise_cursor := 0;
  BucketState.cleaned := false; BucketState.invalidated := false;
  BucketState.option_kind := OPTION_KIND_PUT
|}.

Definition apply_put_bucket_created (b : PutBucketCreated.t) (inner : Inner.t) : Inner.t :=
  inner <| Inner.buckets ::= <[PutBucketCreated.bucket_id b := bucket_of_put_created b]> |>.

Definition apply_put_write_executed (w : PutWriteExecuted.t) (inner : Inner.t) : Inner.t :=
  let inner := inner <| Inner.buckets ::=
    alter (λ b, b <| BucketState.total_written := PutWriteExecuted.range_end w |>)
      (PutWriteExecuted.bucket_id w) |> in
  inner <| Inner.positions ::= <[(PutWriteExecuted.bucket_id w, PutWriteExecuted.range_start w) := {|
      PositionState.bucket_id := PutWriteExecuted.bucket_id w;
      PositionState.object_id := PutWriteExecuted.position_id w;
      PositionState.recipient := PutWriteExecuted.position_recipient w;
      PositionState.range_start := PutWriteExecuted.range_start w;
      PositionState.range_end := PutWriteExecuted.range_end w;
      PositionState.option_kind := OPTION_KIND_PUT
    |}]> |>.

(** The first pool of a bucket wins. *)
Definition on_DeepBookPoolCreated (p : DeepBookPoolCreated.t) (inner : Inner.t) : Inner.t :=
  match Inner.deepbook_pools inner !! DeepBookPoolCreated.bucket_id p with
  | Some _ => inner
  | None =>
      inner <| Inner.deepbook_pools ::= <[DeepBookPoolCreated.bucket_id p := {|
          DeepBookPoolState.pool_id := DeepBookPoolCreated.pool_id p;
          DeepBookPoolState.base_asset_type := DeepBookPoolCreated.base_asset_type p;
          DeepBookPoolState.quote_asset_type := DeepBookPoolCreated.quote_asset_type p;
          DeepBookPoolState.tick_size := DeepBookPoolCreated.tick_size p;
          DeepBookPoolState.lot_size := DeepBookPoolCreated.lot_size p;
          DeepBookPoolState.min_size := DeepBookPoolCreated.min_size p;
          DeepBookPoolState.taker_fee := DeepBookPoolCreated.taker_fee p;
          DeepBookPoolState.maker_fee := DeepBookPoolCreated.maker_fee p
        |}]> |>
  end.

(** The first listing of a bucket wins. *)
Definition on_OptionMarketListed (m : OptionMarketListed.t) (inner : Inner.t) : Inner.t :=
  match Inner.exchange_markets inner !! OptionMarketListed.bucket m with
  | Some _ => inner
  | None =>
      inner <| Inner.exchange_markets ::= <[OptionMarketListed.bucket m := {|
          ExchangeMarketState.registry_id := OptionMarketListed.registry m;
          ExchangeMarketState.is_put := OptionMarketListed.is_put m
        |}]> |>
  end.

(** The kind of an auction, from the coin types it trades; the [TypeName]s of
    events are compared in canonical form. *)
Definition classify_auction (inner : Inner.t) (a : AuctionCreated.t) : rstring * option ObjectId :=
  match Inner.vaults inner !! AuctionCreated.origin a with
  | None => (AUCTION_KIND_UNKNOWN, None)
  | Some vault =>
      let escrow := canonicalize_move_type (AuctionCreated.escrow_type a) in
      let bid := canonicalize_move_type (AuctionCreated.bid_type a) in
      let underlying := canonicalize_move_type (VaultState.underlying_type vault) in
      let settlement := canonicalize_move_type (VaultState.settlement_type vault) in
      if bool_decide (escrow = underlying) && bool_decide (bid = settlement) then
        (AUCTION_KIND_CALL, VaultState.current_bucket vault)
      else if bool_decide (escrow = settlement) && bool_decide (bid = settlement) then
        (AUCTION_KIND_PUT, VaultState.current_bucket vault)
      else if bool_decide (escrow = settlement) && bool_decide (bid = underlying) then
        (AUCTION_KIND_SWAP, None)
      else (AUCTION_KIND_UNKNOWN, None)
  end.

Definition on_AuctionCreated (a : AuctionCreated.t) (inner : Inner.t) : Inner.t :=
  let '(kind, bucket_id) := classify_auction inner a in
  inner <| Inner.rfqs ::= <[AuctionCreated.auction_id a :=
    RfqState_blank
      <| RfqState.meta_id := None |>
      <| RfqState.bucket_id := bucket_id |>
      <| RfqState.origin := AuctionCreated.origin a |>
      <| RfqState.amount := AuctionCreated.amount a |>
      <| RfqState.reserve_premium := AuctionCreated.reserve_bid a |>
      <| RfqState.deadline_ms := AuctionCreated.deadline_ms a |>
      <| RfqState.auction_kind := kind |>]> |>.

(** * Trading vaults *)

Definition on_TvVaultCreated (v : TvVaultCreated.t) (timestamp_ms : Z) (inner : Inner.t) : Inner.t :=
  inner <| Inner.trading_vaults ::=
    <[TvVaultCreated.vault_id v := TradingVaultState_from_created v timestamp_ms]> |>.

Definition on_TvDeposited (d : TvDeposited.t) (timestamp_ms : Z) (inner : Inner.t) : Inner.t :=
  inner <| Inner.trading_vaults ::=
    alter (λ v,
      let v := observe_tranche_flow (TvDeposited.tranche d) (TvDeposited.tranche_shares d)
                 (TvDeposited.value d) (TvDeposited.shares d) v in
      let v :=
        if TvDeposited.tranche d =? TRANCHE_SENIOR then
          v <| TradingVaultState.senior_principal_basis ::= λ x, u128_saturating_add x (TvDeposited.value d) |>
        else v in
      v <| TradingVaultState.updated_at_ms := timestamp_ms |>)
      (TvDeposited.vault_id d) |>.

Definition on_TvWithdrawRequested (w : TvWithdrawRequested.t) (timestamp_ms : Z) (inner : Inner.t) : Inner.t :=
  let inner := inner <| Inner.trading_vaults ::=
    alter (λ v,
      let v := v <| TradingVaultState.pending_withdrawals ::= λ x, u64_saturating_add x 1 |> in
      let v :=
        if TvWithdrawRequested.lane w =? LANE_SENIOR then
          v <| TradingVaultState.senior_lane_tail ::= bump_lane (TvWithdrawRequested.global_seq w) |>
        else v <| TradingVaultState.junior_lane_tail ::= bump_lane (TvWithdrawRequested.global_seq w) |> in
      v <| TradingVaultState.updated_at_ms := timestamp_ms |>)
      (TvWithdrawRequested.vault_id w) |> in
  inner <| Inner.vault_positions ::=
    alter (λ p, p
      <| VaultPositionState.status := POSITION_QUEUED |>
      <| VaultPositionState.queued_global_seq := Some (TvWithdrawRequested.global_seq w) |>
      <| VaultPositionState.updated_at_ms := timestamp_ms |>)
      (TvWithdrawRequested.position_id w) |>.

Definition on_TvWithdrawFulfilled (w : TvWithdrawFulfilled.t) (timestamp_ms : Z) (inner : Inner.t) : Inner.t :=
  let inner := inner <| Inner.trading_vaults ::=
    alter (λ v,
      let v := v <| TradingVaultState.pending_withdrawals ::= λ x, u64_saturating_sub x 1 |> in
      let v := observe_tranche_flow (TvWithdrawFulfilled.tranche w) (TvWithdrawFulfilled.tranche_shares w)
                 (TvWithdrawFulfilled.value w) (TvWithdrawFulfilled.shares w) v in
      let v :=
        if TvWithdrawFulfilled.tranche w =? TRANCHE_SENIOR then
          v <| TradingVaultState.senior_principal_basis ::= λ x, u128_saturating_sub x (TvWithdrawFulfilled.basis w) |>
        else v in
      let v :=
        if TvWithdrawFulfilled.lane w =? LANE_SENIOR then
          v <| TradingVaultState.senior_lane_head ::= bump_lane (TvWithdrawFulfilled.global_seq w) |>
        else v <| TradingVaultState.junior_lane_head ::= bump_lane (TvWithdrawFulfilled.global_seq w) |> in
      v <| TradingVaultState.updated_at_ms := timestamp_ms |>)
      (TvWithdrawFulfilled.vault_id w) |> in
  match queued_position inner (TvWithdrawFulfilled.vault_id w) (TvWithdrawFulfilled.global_seq w) with
  | None => inner
  | Some position_id =>
      inner <| Inner.vault_positions ::=
        alter (λ p, p
          <| VaultPositionState.status := POSITION_CONSUMED |>
          <| VaultPositionState.updated_at_ms := timestamp_ms |>)
          position_id |>
  end.

Definition on_TvPositionMinted (m : TvPositionMinted.t) (timestamp_ms : Z) (inner : Inner.t) : Inner.t :=
  inner <| Inner.vault_positions ::=
    entry_or_insert (TvPositionMinted.position_id m) {|
        VaultPositionState.vault_id := TvPositionMinted.vault_id m;
        VaultPositionState.tranche := TvPositionMinted.tranche m;
        VaultPositionState.capital_generation := TvPositionMinted.capital_generation m;
        VaultPositionState.shares := TvPositionMinted.shares m;
        VaultPositionState.cost_basis := TvPositionMinted.cost_basis m;
        VaultPositionState.locked_until_ms := TvPositionMinted.locked_until_ms m;
        VaultPositionState.status := POSITION_LIVE;
        VaultPositionState.parent_position_id := None; VaultPositionState.merged_into := None;
        VaultPositionState.queued_global_seq := None;
        VaultPositionState.created_at_ms := timestamp_ms; VaultPositionState.updated_at_ms := timestamp_ms
      |}
      (λ entry, entry
      <| VaultPositionState.tranche := TvPositionMinted.tranche m |>
      <| VaultPositionState.capital_generation := TvPositionMinted.capital_generation m |>
      <| VaultPositionState.shares := TvPositionMinted.shares m |>
      <| VaultPositionState.cost_basis := TvPositionMinted.cost_basis m |>
      <| VaultPositionState.locked_until_ms := TvPositionMinted.locked_until_ms m |>
      <| VaultPositionState.updated_at_ms := timestamp_ms |>) |>.

Definition on_TvPositionSplit (s : TvPositionSplit.t) (timestamp_ms : Z) (inner : Inner.t) : Inner.t :=
  let '(parent_tranche, parent_generation, parent_lock, parent_created) :=
    match Inner.vault_positions inner !! TvPositionSplit.parent_id s with
    | Some parent => (VaultPositionState.tranche parent, VaultPositionState.capital_generation parent,
                      VaultPositionState.locked_until_ms parent, VaultPositionState.created_at_ms parent)
    | None => (TRANCHE_UNTRANCHED, 0, 0, timestamp_ms)
    end in
  let inner := inner <| Inner.vault_positions ::=
    alter (λ parent, parent
      <| VaultPositionState.shares := TvPositionSplit.parent_shares s |>
      <| VaultPositionState.cost_basis := TvPositionSplit.parent_basis s |>
      <| VaultPositionState.updated_at_ms := timestamp_ms |>)
      (TvPositionSplit.parent_id s) |> in
  inner <| Inner.vault_positions ::=
    entry_or_insert (TvPositionSplit.child_id s) {|
        VaultPositionState.vault_id := TvPositionSplit.vault_id s;
        VaultPositionState.tranche := parent_tranche;
        VaultPositionState.capital_generation := parent_generation;
        VaultPositionState.shares := TvPositionSplit.child_shares s;
        VaultPositionState.cost_basis := TvPositionSplit.child_basis s;
        VaultPositionState.locked_until_ms := parent_lock;
        VaultPositionState.status := POSITION_LIVE;
        VaultPositionState.parent_position_id := None; VaultPositionState.merged_into := None;
        VaultPositionState.queued_global_seq := None;
        VaultPositionState.created_at_ms := Z.max parent_created timestamp_ms;
        VaultPositionState.updated_at_ms := timestamp_ms
      |}
      (λ child, child
      <| VaultPositionState.shares := TvPositionSplit.child_shares s |>
      <| VaultPositionState.cost_basis := TvPositionSplit.child_basis s |>
      <| VaultPositionState.parent_position_id := Some (TvPositionSplit.parent_id s) |>
      <| VaultPositionState.updated_at_ms := timestamp_ms |>) |>.

(** Entering the impaired state starts its clock; leaving it stops it. *)
Definition observe_risk (new_state since : Z) (v : TradingVaultState.t) : TradingVaultState.t :=
  if (new_state =? RISK_IMPAIRED) && negb (TradingVaultState.risk_state v =? RISK_IMPAIRED) then
    v <| TradingVaultState.impaired_since_ms := Some since |>
  else if negb (new_state =? RISK_IMPAIRED) then
    v <| TradingVaultState.impaired_since_ms := None |>
  else v.

Definition pps (nav shares : Z) : option Z :=
  if 0 <? shares then Some (price_per_share nav shares) else None.

Definition sync_pps (c : TvCapitalSynced.t) (v : TradingVaultState.t) : TradingVaultState.t :=
  if TradingVaultState.structure_code v =? 0 then
    match pps (TvCapitalSynced.total_nav c) (TvCapitalSynced.junior_shares c) with
    | Some p => v <| TradingVaultState.latest_pps_e12 := Some p |>
    | None => v
    end
  else
    let v :=
      match pps (TvCapitalSynced.senior_nav c) (TvCapitalSynced.senior_shares c) with
      | Some p => v <| TradingVaultState.latest_senior_pps_e12 := Some p |>
      | None => v
      end in
    match pps (TvCapitalSynced.junior_nav c) (TvCapitalSynced.junior_shares c) with
    | Some p => v <| TradingVaultState.latest_junior_pps_e12 := Some p |>
    | None => v
    end.

Definition on_TvCapitalSynced (c : TvCapitalSynced.t) (timestamp_ms : Z) (inner : Inner.t) : Inner.t :=
  inner <| Inner.trading_vaults ::=
    alter (λ v,
      let v := v
        <| TradingVaultState.latest_nav := Some (TvCapitalSynced.total_nav c) |>
        <| TradingVaultState.nav_updated_at_ms := Some timestamp_ms |>
        <| TradingVaultState.senior_nav := Some (TvCapitalSynced.senior_nav c) |>
        <| TradingVaultState.junior_nav := Some (TvCapitalSynced.junior_nav c) |>
        <| TradingVaultState.senior_claim := TvCapitalSynced.senior_claim c |>
        <| TradingVaultState.senior_shares := TvCapitalSynced.senior_shares c |>
        <| TradingVaultState.junior_shares := TvCapitalSynced.junior_shares c |>
        <| TradingVaultState.total_shares :=
             u128_saturating_add (TvCapitalSynced.senior_shares c) (TvCapitalSynced.junior_shares c) |> in
      let v := observe_risk (TvCapitalSynced.risk_state c) timestamp_ms v in
      let v := v
        <| TradingVaultState.risk_state := TvCapitalSynced.risk_state c |>
        <| TradingVaultState.active_junior_generation := TvCapitalSynced.active_junior_generation c |>
        <| TradingVaultState.curator_commitment_breached := TvCapitalSynced.curator_commitment_breached c |> in
      sync_pps c v <| TradingVaultState.updated_at_ms := timestamp_ms |>)
      (TvCapitalSynced.vault_id c) |>.

Definition on_TvRiskStateChanged (r : TvRiskStateChanged.t) (timestamp_ms : Z) (inner : Inner.t) : Inner.t :=
  inner <| Inner.trading_vaults ::=
    alter (λ v,
      observe_risk (TvRiskStateChanged.new_state r) (TvRiskStateChanged.timestamp_ms r) v
      <| TradingVaultState.risk_state := TvRiskStateChanged.new_state r |>
      <| TradingVaultState.updated_at_ms := timestamp_ms |>)
      (TvRiskStateChanged.vault_id r) |>.

Definition on_TvSettlementRedeemed (r : TvSettlementRedeemed.t) (timestamp_ms : Z) (inner : Inner.t) : Inner.t :=
  let inner := inner <| Inner.trading_vaults ::=
    alter (λ v,
      let v := v <| TradingVaultState.settlement_redeemed ::=
                      λ x, u128_saturating_add x (TvSettlementRedeemed.entitlement r) |> in
      let v :=
        if TvSettlementRedeemed.from_queue r then
          let v := v <| TradingVaultState.pending_withdrawals ::= λ x, u64_saturating_sub x 1 |> in
          if TvSettlementRedeemed.tranche r =? TRANCHE_SENIOR then
            v <| TradingVaultState.senior_lane_head ::= bump_lane (TvSettlementRedeemed.global_seq r) |>
          else v <| TradingVaultState.junior_lane_head ::= bump_lane (TvSettlementRedeemed.global_seq r) |>
        else v in
      v <| TradingVaultState.updated_at_ms := timestamp_ms |>)
      (TvSettlementRedeemed.vault_id r) |> in
  inner <| Inner.vault_positions ::=
    alter (λ p, p
      <| VaultPositionState.status := POSITION_SETTLED |>
      <| VaultPositionState.updated_at_ms := timestamp_ms |>)
      (TvSettlementRedeemed.position_id r) |>.

(** * The other arms *)

Definition on_BucketCleaned (c : BucketCleaned.t) (inner : Inner.t) : Inner.t :=
  inner <| Inner.buckets ::=
    alter (λ b, b <| BucketState.cleaned := true |>)
      (BucketCleaned.bucket_id c) |>.

Definition on_BucketInvalidated (i : BucketInvalidated.t) (inner : Inner.t) : Inner.t :=
  inner <| Inner.buckets ::=
    alter (λ b, b <| BucketState.invalidated := true |>)
      (BucketInvalidated.bucket_id i) |>.

Definition on_BucketRevalidated (r : BucketRevalidated.t) (inner : Inner.t) : Inner.t :=
  inner <| Inner.buckets ::=
    alter (λ b, b <| BucketState.invalidated := false |>)
      (BucketRevalidated.bucket_id r) |>.

Definition on_SignerCreated (a : SignerCreated.t) (inner : Inner.t) : Inner.t :=
  inner <| Inner.accounts ::=
    entry_or_insert (SignerCreated.signer_id a) AccountState_default
      (λ acct, acct
      <| AccountState.signing_pubkey := SignerCreated.signing_pubkey a |>
      <| AccountState.signing_scheme := Some (SignerCreated.signing_scheme a) |>
      <| AccountState.owner := Some (SignerCreated.owner a) |>) |>.

Definition on_SigningKeyRotated (r : SigningKeyRotated.t) (inner : Inner.t) : Inner.t :=
  inner <| Inner.accounts ::=
    alter (λ acct, acct
      <| AccountState.signing_pubkey := SigningKeyRotated.new_pubkey r |>
      <| AccountState.signing_scheme := Some (SigningKeyRotated.new_scheme r) |>)
      (SigningKeyRotated.signer_id r) |>.

Definition on_CollateralizedWrite (w : CollateralizedWrite.t) (inner : Inner.t) : Inner.t :=
  inner <| Inner.buckets ::=
    alter (λ b, b <| BucketState.total_written := CollateralizedWrite.range_end w |>)
      (CollateralizedWrite.bucket_id w) |>.

Definition on_AuctionBid (b : AuctionBid.t) (inner : Inner.t) : Inner.t :=
  inner <| Inner.rfqs ::=
    alter (λ rfq, rfq
      <| RfqState.best_premium := Some (AuctionBid.amount b) |>
      <| RfqState.best_bidder := Some (AuctionBid.bidder b) |>
      <| RfqState.deadline_ms := AuctionBid.deadline_ms b |>)
      (AuctionBid.auction_id b) |>.

Definition on_AuctionSettled (s : AuctionSettled.t) (inner : Inner.t) : Inner.t :=
  inner <| Inner.rfqs ::=
    entry_or_insert (AuctionSettled.auction_id s) RfqState_blank
      (λ rfq, rfq
      <| RfqState.status := Settled |>
      <| RfqState.winner := Some (AuctionSettled.bidder s) |>) |>.

Definition on_AuctionUnfilled (u : AuctionUnfilled.t) (inner : Inner.t) : Inner.t :=
  inner <| Inner.rfqs ::=
    entry_or_insert (AuctionUnfilled.auction_id u) RfqState_blank
      (λ rfq, rfq <| RfqState.status := ExpiredUnsold |>) |>.

Definition on_RfqCreated (r : RfqCreated.t) (inner : Inner.t) : Inner.t :=
  inner <| Inner.rfqs ::=
    entry_or_insert (RfqCreated.auction_id r) RfqState_blank
      (λ rfq, rfq
      <| RfqState.meta_id := Some (RfqCreated.rfq_id r) |>
      <| RfqState.bucket_id := Some (RfqCreated.bucket_id r) |>
      <| RfqState.origin := RfqCreated.origin r |>
      <| RfqState.amount := RfqCreated.amount r |>
      <| RfqState.reserve_premium := RfqCreated.reserve_premium r |>
      <| RfqState.auction_kind := AUCTION_KIND_CALL |>) |>.

Definition on_RfqSettled (s : RfqSettled.t) (inner : Inner.t) : Inner.t :=
  let inner := inner <| Inner.rfqs ::=
    entry_or_insert (RfqSettled.auction_id s) RfqState_blank
      (λ rfq, rfq
      <| RfqState.meta_id := Some (RfqSettled.rfq_id s) |>
      <| RfqState.bucket_id := Some (RfqSettled.bucket_id s) |>
      <| RfqState.auction_kind := AUCTION_KIND_CALL |>
      <| RfqState.status := Settled |>
      <| RfqState.winner := Some (RfqSettled.winner s) |>
      <| RfqState.net_premium := Some (RfqSettled.net_premium s) |>
      <| RfqState.position_id := Some (RfqSettled.position_id s) |>
      <| RfqState.gross_premium := Some (RfqSettled.gross_premium s) |>
      <| RfqState.fee := Some (RfqSettled.fee s) |>) |> in
  inner <| Inner.positions ::= <[(RfqSettled.bucket_id s, RfqSettled.range_start s) := {|
      PositionState.bucket_id := RfqSettled.bucket_id s;
      PositionState.object_id := RfqSettled.position_id s;
      PositionState.recipient := RfqSettled.position_recipient s;
      PositionState.range_start := RfqSettled.range_start s;
      PositionState.range_end := RfqSettled.range_end s; PositionState.option_kind := OPTION_KIND_CALL
    |}]> |>.

Definition on_RfqExpiredUnsold (e : RfqExpiredUnsold.t) (inner : Inner.t) : Inner.t :=
  inner <| Inner.rfqs ::=
    entry_or_insert (RfqExpiredUnsold.auction_id e) RfqState_blank
      (λ rfq, rfq
      <| RfqState.meta_id := Some (RfqExpiredUnsold.rfq_id e) |>
      <| RfqState.bucket_id := Some (RfqExpiredUnsold.bucket_id e) |>
      <| RfqState.auction_kind := AUCTION_KIND_CALL |>
      <| RfqState.status := ExpiredUnsold |>) |>.

Definition on_VaultRfqSettled (s : VaultRfqSettled.t) (inner : Inner.t) : Inner.t :=
  let inner := inner <| Inner.rfqs ::=
    entry_or_insert (VaultRfqSettled.auction_id s) RfqState_blank
      (λ rfq, rfq
      <| RfqState.bucket_id := Some (VaultRfqSettled.bucket_id s) |>
      <| RfqState.origin := VaultRfqSettled.vault_id s |>
      <| RfqState.auction_kind := AUCTION_KIND_CALL |>
      <| RfqState.status := Settled |>
      <| RfqState.winner := Some (VaultRfqSettled.winner s) |>
      <| RfqState.net_premium := Some (VaultRfqSettled.net_premium s) |>
      <| RfqState.position_id := Some (VaultRfqSettled.position_id s) |>
      <| RfqState.gross_premium := Some (VaultRfqSettled.gross_premium s) |>
      <| RfqState.fee := Some (VaultRfqSettled.fee s) |>) |> in
  inner <| Inner.positions ::= <[(VaultRfqSettled.bucket_id s, VaultRfqSettled.range_start s) := {|
      PositionState.bucket_id := VaultRfqSettled.bucket_id s;
      PositionState.object_id := VaultRfqSettled.position_id s;
      PositionState.recipient := mkSuiAddress (addr_bytes (VaultRfqSettled.vault_id s));
      PositionState.range_start := VaultRfqSettled.range_start s;
      PositionState.range_end := VaultRfqSettled.range_end s;
      PositionState.option_kind := OPTION_KIND_CALL
    |}]> |>.

Definition on_VaultRfqUnsold (u : VaultRfqUnsold.t) (inner : Inner.t) : Inner.t :=
  inner <| Inner.rfqs ::=
    entry_or_insert (VaultRfqUnsold.auction_id u) RfqState_blank
      (λ rfq, rfq
      <| RfqState.bucket_id := Some (VaultRfqUnsold.bucket_id u) |>
      <| RfqState.origin := VaultRfqUnsold.vault_id u |>
      <| RfqState.auction_kind := AUCTION_KIND_CALL |>
      <| RfqState.status := ExpiredUnsold |>) |>.

Definition on_SwapRfqSettled (s : SwapRfqSettled.t) (inner : Inner.t) : Inner.t :=
  inner <| Inner.rfqs ::=
    entry_or_insert (SwapRfqSettled.swap_id s) RfqState_blank
      (λ rfq, rfq
      <| RfqState.origin := SwapRfqSettled.vault_id s |>
      <| RfqState.auction_kind := AUCTION_KIND_SWAP |>
      <| RfqState.status := Settled |>
      <| RfqState.winner := Some (SwapRfqSettled.winner s) |>) |>.

Definition on_SwapRfqUnfilled (u : SwapRfqUnfilled.t) (inner : Inner.t) : Inner.t :=
  inner <| Inner.rfqs ::=
    entry_or_insert (SwapRfqUnfilled.swap_id u) RfqState_blank
      (λ rfq, rfq
      <| RfqState.origin := SwapRfqUnfilled.vault_id u |>
      <| RfqState.auction_kind := AUCTION_KIND_SWAP |>
      <| RfqState.status := ExpiredUnsold |>) |>.

Definition on_VaultCreated (v : VaultCreated.t) (inner : Inner.t) : Inner.t :=
  inner <| Inner.vaults ::= <[VaultCreated.vault_id v := {|
      VaultState.underlying_type := VaultCreated.underlying_type v;
      VaultState.settlement_type := VaultCreated.settlement_type v;
      VaultState.share_type := VaultCreated.share_type v; VaultState.round := 0;
      VaultState.current_bucket := None; VaultState.latest_pps := None; VaultState.total_shares := 0;
      VaultState.pending_deposits := 0; VaultState.deposits_paused := false;
      VaultState.mgmt_fee_bps_annual := Some (VaultCreated.mgmt_fee_bps_annual v);
      VaultState.perf_fee_bps := Some (VaultCreated.perf_fee_bps v);
      VaultState.round_ms := Some (VaultCreated.round_ms v);
      VaultState.selling_window_ms := Some (VaultCreated.selling_window_ms v);
      VaultState.min_strike_bps_over_spot := Some (VaultCreated.min_strike_bps_over_spot v);
      VaultState.max_strike_bps_over_spot := Some (VaultCreated.max_strike_bps_over_spot v)
    |}]> |>.

Definition on_VaultConfigApplied (c : VaultConfigApplied.t) (inner : Inner.t) : Inner.t :=
  inner <| Inner.vaults ::=
    alter (λ v, v
      <| VaultState.mgmt_fee_bps_annual := Some (VaultConfigApplied.mgmt_fee_bps_annual c) |>
      <| VaultState.perf_fee_bps := Some (VaultConfigApplied.perf_fee_bps c) |>
      <| VaultState.round_ms := Some (VaultConfigApplied.round_ms c) |>
      <| VaultState.selling_window_ms := Some (VaultConfigApplied.selling_window_ms c) |>
      <| VaultState.min_strike_bps_over_spot := Some (VaultConfigApplied.min_strike_bps_over_spot c) |>
      <| VaultState.max_strike_bps_over_spot := Some (VaultConfigApplied.max_strike_bps_over_spot c) |>)
      (VaultConfigApplied.vault_id c) |>.

Definition on_VaultDeposit (d : VaultDeposit.t) (inner : Inner.t) : Inner.t :=
  let inner := inner <| Inner.vaults ::=
    alter (λ v, v
      <| VaultState.pending_deposits ::= λ x, u64_saturating_add x (VaultDeposit.amount d) |>)
      (VaultDeposit.vault_id d) |> in
  inner <| Inner.vault_receipts ::=
    entry_or_insert (VaultDeposit.vault_id d, to_hex (VaultDeposit.depositor d), VaultDeposit.round d,
       RECEIPT_DEPOSIT) ReceiptState_default
      (λ r, r <| ReceiptState.amount ::= λ x, u64_saturating_add x (VaultDeposit.amount d) |>) |>.

Definition on_InstantWithdraw (w : InstantWithdraw.t) (inner : Inner.t) : Inner.t :=
  let inner := inner <| Inner.vaults ::=
    alter (λ v, v
      <| VaultState.pending_deposits ::= λ x, u64_saturating_sub x (InstantWithdraw.amount w) |>)
      (InstantWithdraw.vault_id w) |> in
  inner <| Inner.vault_receipts ::=
    entry_or_insert (InstantWithdraw.vault_id w, to_hex (InstantWithdraw.owner w), InstantWithdraw.round w,
       RECEIPT_DEPOSIT) ReceiptState_default
      (λ r, r <| ReceiptState.settled ::= λ x, u64_saturating_add x (InstantWithdraw.amount w) |>) |>.

Definition on_SharesClaimed (c : SharesClaimed.t) (inner : Inner.t) : Inner.t :=
  inner <| Inner.vault_receipts ::=
    entry_or_insert (SharesClaimed.vault_id c, to_hex (SharesClaimed.owner c), SharesClaimed.round c,
       RECEIPT_DEPOSIT) ReceiptState_default
      (λ r, r <| ReceiptState.settled ::= λ x, u64_saturating_add x (SharesClaimed.amount c) |>) |>.

Definition on_WithdrawInitiated (w : WithdrawInitiated.t) (inner : Inner.t) : Inner.t :=
  inner <| Inner.vault_receipts ::=
    entry_or_insert (WithdrawInitiated.vault_id w, to_hex (WithdrawInitiated.owner w), WithdrawInitiated.round w,
       RECEIPT_WITHDRAW) ReceiptState_default
      (λ r, r <| ReceiptState.amount ::= λ x, u64_saturating_add x (WithdrawInitiated.shares w) |>) |>.

Definition on_WithdrawCompleted (w : WithdrawCompleted.t) (inner : Inner.t) : Inner.t :=
  inner <| Inner.vault_receipts ::=
    entry_or_insert (WithdrawCompleted.vault_id w, to_hex (WithdrawCompleted.owner w), WithdrawCompleted.round w,
       RECEIPT_WITHDRAW) ReceiptState_default
      (λ r, r <| ReceiptState.settled ::= λ x, u64_saturating_add x (WithdrawCompleted.shares w) |>) |>.

Definition on_VaultBucketSelected (s : VaultBucketSelected.t) (inner : Inner.t) : Inner.t :=
  let inner := inner <| Inner.vaults ::=
    alter (λ v, v
      <| VaultState.current_bucket := Some (VaultBucketSelected.bucket_id s) |>
      <| VaultState.round := VaultBucketSelected.round s |>)
      (VaultBucketSelected.vault_id s) |> in
  inner <| Inner.vault_rounds ::=
    entry_or_insert (VaultBucketSelected.vault_id s, VaultBucketSelected.round s) VaultRoundState_default
      (λ r, r
      <| VaultRoundState.bucket_id := Some (VaultBucketSelected.bucket_id s) |>
      <| VaultRoundState.strike := Some (VaultBucketSelected.strike s) |>
      <| VaultRoundState.strike_scale := Some (VaultBucketSelected.strike_scale s) |>
      <| VaultRoundState.expiry_ms := Some (VaultBucketSelected.expiry_ms s) |>) |>.

Definition on_VaultFeesCharged (f : VaultFeesCharged.t) (inner : Inner.t) : Inner.t :=
  inner <| Inner.vault_rounds ::=
    entry_or_insert (VaultFeesCharged.vault_id f, VaultFeesCharged.round f) VaultRoundState_default
      (λ r, r
      <| VaultRoundState.mgmt_fee := Some (VaultFeesCharged.mgmt_fee f) |>
      <| VaultRoundState.perf_fee := Some (VaultFeesCharged.perf_fee f) |>) |>.

Definition on_VaultRoundFinalized (f : VaultRoundFinalized.t) (timestamp_ms : Z) (inner : Inner.t) : Inner.t :=
  let inner := inner <| Inner.vaults ::=
    alter (λ v, v
      <| VaultState.round := u64_add (VaultRoundFinalized.round f) 1 |>
      <| VaultState.current_bucket := None |>
      <| VaultState.latest_pps := Some (VaultRoundFinalized.pps f) |>
      <| VaultState.total_shares := 
          u64_saturating_add (u64_saturating_sub (VaultRoundFinalized.shares f) (VaultRoundFinalized.shares_burned f)) (VaultRoundFinalized.shares_minted f) |>
      <| VaultState.pending_deposits ::= λ x, u64_saturating_sub x (VaultRoundFinalized.deposits_processed f) |>)
      (VaultRoundFinalized.vault_id f) |> in
  inner <| Inner.vault_rounds ::=
    entry_or_insert (VaultRoundFinalized.vault_id f, VaultRoundFinalized.round f) VaultRoundState_default
      (λ r, r
      <| VaultRoundState.pps := Some (VaultRoundFinalized.pps f) |>
      <| VaultRoundState.aum := Some (VaultRoundFinalized.aum f) |>
      <| VaultRoundState.shares := Some (VaultRoundFinalized.shares f) |>
      <| VaultRoundState.premium_collected := Some (VaultRoundFinalized.premium_collected f) |>
      <| VaultRoundState.finalized_at_ms := Some timestamp_ms |>) |>.

Definition on_VaultDepositsPaused (p : VaultDepositsPaused.t) (inner : Inner.t) : Inner.t :=
  inner <| Inner.vaults ::=
    alter (λ v, v <| VaultState.deposits_paused := VaultDepositsPaused.paused p |>)
      (VaultDepositsPaused.vault_id p) |>.

Definition on_PutExercised (e : PutExercised.t) (inner : Inner.t) : Inner.t :=
  inner <| Inner.buckets ::=
    alter (λ b, b <| BucketState.exercise_cursor := PutExercised.cursor_after e |>)
      (PutExercised.bucket_id e) |>.

Definition on_PutRedeemed (r : PutRedeemed.t) (inner : Inner.t) : Inner.t :=
  inner <| Inner.positions ::= delete (PutRedeemed.bucket_id r, PutRedeemed.range_start r) |>.

Definition on_PutBucketCleaned (c : PutBucketCleaned.t) (inner : Inner.t) : Inner.t :=
  inner <| Inner.buckets ::=
    alter (λ b, b <| BucketState.cleaned := true |>)
      (PutBucketCleaned.bucket_id c) |>.

Definition on_PutBucketInvalidated (i : PutBucketInvalidated.t) (inner : Inner.t) : Inner.t :=
  inner <| Inner.buckets ::=
    alter (λ b, b <| BucketState.invalidated := true |>)
      (PutBucketInvalidated.bucket_id i) |>.

Definition on_PutBucketRevalidated (r : PutBucketRevalidated.t) (inner : Inner.t) : Inner.t :=
  inner <| Inner.buckets ::=
    alter (λ b, b <| BucketState.invalidated := false |>)
      (PutBucketRevalidated.bucket_id r) |>.

Definition on_PutCollateralizedWrite (w : PutCollateralizedWrite.t) (inner : Inner.t) : Inner.t :=
  inner <| Inner.buckets ::=
    alter (λ b, b <| BucketState.total_written := PutCollateralizedWrite.range_end w |>)
      (PutCollateralizedWrite.bucket_id w) |>.

Definition on_PutRfqCreated (r : PutRfqCreated.t) (inner : Inner.t) : Inner.t :=
  inner <| Inner.rfqs ::=
    entry_or_insert (PutRfqCreated.auction_id r) RfqState_blank
      (λ rfq, rfq
      <| RfqState.meta_id := Some (PutRfqCreated.rfq_id r) |>
      <| RfqState.bucket_id := Some (PutRfqCreated.bucket_id r) |>
      <| RfqState.origin := PutRfqCreated.origin r |>
      <| RfqState.amount := PutRfqCreated.amount r |>
      <| RfqState.reserve_premium := PutRfqCreated.reserve_premium r |>
      <| RfqState.auction_kind := AUCTION_KIND_PUT |>) |>.

Definition on_PutRfqSettled (s : PutRfqSettled.t) (inner : Inner.t) : Inner.t :=
  let inner := inner <| Inner.rfqs ::=
    entry_or_insert (PutRfqSettled.auction_id s) RfqState_blank
      (λ rfq, rfq
      <| RfqState.meta_id := Some (PutRfqSettled.rfq_id s) |>
      <| RfqState.bucket_id := Some (PutRfqSettled.bucket_id s) |>
      <| RfqState.auction_kind := AUCTION_KIND_PUT |>
      <| RfqState.status := Settled |>
      <| RfqState.winner := Some (PutRfqSettled.winner s) |>
      <| RfqState.net_premium := Some (PutRfqSettled.net_premium s) |>
      <| RfqState.position_id := Some (PutRfqSettled.position_id s) |>
      <| RfqState.gross_premium := Some (PutRfqSettled.gross_premium s) |>
      <| RfqState.fee := Some (PutRfqSettled.fee s) |>) |> in
  inner <| Inner.positions ::= <[(PutRfqSettled.bucket_id s, PutRfqSettled.range_start s) := {|
      PositionState.bucket_id := PutRfqSettled.bucket_id s;
      PositionState.object_id := PutRfqSettled.position_id s;
      PositionState.recipient := PutRfqSettled.position_recipient s;
      PositionState.range_start := PutRfqSettled.range_start s;
      PositionState.range_end := PutRfqSettled.range_end s;
      PositionState.option_kind := OPTION_KIND_PUT
    |}]> |>.

Definition on_PutRfqExpiredUnsold (e : PutRfqExpiredUnsold.t) (inner : Inner.t) : Inner.t :=
  inner <| Inner.rfqs ::=
    entry_or_insert (PutRfqExpiredUnsold.auction_id e) RfqState_blank
      (λ rfq, rfq
      <| RfqState.meta_id := Some (PutRfqExpiredUnsold.rfq_id e) |>
      <| RfqState.bucket_id := Some (PutRfqExpiredUnsold.bucket_id e) |>
      <| RfqState.auction_kind := AUCTION_KIND_PUT |>
      <| RfqState.status := ExpiredUnsold |>) |>.

Definition on_TvVaultClosing (c : TvVaultClosing.t) (timestamp_ms : Z) (inner : Inner.t) : Inner.t :=
  inner <| Inner.trading_vaults ::=
    alter (λ v, v
      <| TradingVaultState.state := str "closing" |>
      <| TradingVaultState.updated_at_ms := timestamp_ms |>)
      (TvVaultClosing.vault_id c) |>.

Definition on_TvVaultClosed (c : TvVaultClosed.t) (timestamp_ms : Z) (inner : Inner.t) : Inner.t :=
  inner <| Inner.trading_vaults ::=
    alter (λ v, v
      <| TradingVaultState.state := str "closed" |>
      <| TradingVaultState.updated_at_ms := timestamp_ms |>)
      (TvVaultClosed.vault_id c) |>.

Definition on_TvDepositsPaused (p : TvDepositsPaused.t) (timestamp_ms : Z) (inner : Inner.t) : Inner.t :=
  inner <| Inner.trading_vaults ::=
    alter (λ v, v
      <| TradingVaultState.deposits_paused := TvDepositsPaused.paused p |>
      <| TradingVaultState.updated_at_ms := timestamp_ms |>)
      (TvDepositsPaused.vault_id p) |>.

Definition on_TvMmReleaseToggled (t : TvMmReleaseToggled.t) (timestamp_ms : Z) (inner : Inner.t) : Inner.t :=
  inner <| Inner.trading_vaults ::=
    alter (λ v, v
      <| TradingVaultState.mm_release_enabled := TvMmReleaseToggled.enabled t |>
      <| TradingVaultState.updated_at_ms := timestamp_ms |>)
      (TvMmReleaseToggled.vault_id t) |>.

Definition on_TvCuratorRotated (r : TvCuratorRotated.t) (timestamp_ms : Z) (inner : Inner.t) : Inner.t :=
  inner <| Inner.trading_vaults ::=
    alter (λ v, v
      <| TradingVaultState.curator_cap_id := TvCuratorRotated.new_cap_id r |>
      <| TradingVaultState.curator := TvCuratorRotated.recipient r |>
      <| TradingVaultState.updated_at_ms := timestamp_ms |>)
      (TvCuratorRotated.vault_id r) |>.

Definition on_TvPositionMerged (m : TvPositionMerged.t) (timestamp_ms : Z) (inner : Inner.t) : Inner.t :=
  let inner := inner <| Inner.vault_positions ::=
    alter (λ kept, kept
      <| VaultPositionState.shares := TvPositionMerged.shares m |>
      <| VaultPositionState.cost_basis := TvPositionMerged.cost_basis m |>
      <| VaultPositionState.locked_until_ms := TvPositionMerged.locked_until_ms m |>
      <| VaultPositionState.updated_at_ms := timestamp_ms |>)
      (TvPositionMerged.kept_id m) |> in
  inner <| Inner.vault_positions ::=
    alter (λ merged, merged
      <| VaultPositionState.status := POSITION_CONSUMED |>
      <| VaultPositionState.merged_into := Some (TvPositionMerged.kept_id m) |>
      <| VaultPositionState.updated_at_ms := timestamp_ms |>)
      (TvPositionMerged.merged_id m) |>.

Definition on_TvWipedPositionBurned (b : TvWipedPositionBurned.t) (timestamp_ms : Z) (inner : Inner.t) : Inner.t :=
  inner <| Inner.vault_positions ::=
    alter (λ p, p
      <| VaultPositionState.status := POSITION_BURNED |>
      <| VaultPositionState.updated_at_ms := timestamp_ms |>)
      (TvWipedPositionBurned.position_id b) |>.

Definition on_TvJuniorResetProposed (p : TvJuniorResetProposed.t) (timestamp_ms : Z) (inner : Inner.t) : Inner.t :=
  inner <| Inner.trading_vaults ::=
    alter (λ v, v
      <| TradingVaultState.reset_old_generation := Some (TvJuniorResetProposed.old_generation p) |>
      <| TradingVaultState.reset_proposed_at_ms := Some (TvJuniorResetProposed.proposed_at_ms p) |>
      <| TradingVaultState.reset_executable_at_ms := Some (TvJuniorResetProposed.executable_at_ms p) |>
      <| TradingVaultState.reset_recorded_nav := Some (TvJuniorResetProposed.total_nav p) |>
      <| TradingVaultState.reset_recorded_senior_claim := Some (TvJuniorResetProposed.senior_claim p) |>
      <| TradingVaultState.reset_recorded_required_deposit := Some (TvJuniorResetProposed.required_deposit p) |>
      <| TradingVaultState.updated_at_ms := timestamp_ms |>)
      (TvJuniorResetProposed.vault_id p) |>.

Definition on_TvJuniorResetCancelled (c : TvJuniorResetCancelled.t) (timestamp_ms : Z) (inner : Inner.t) : Inner.t :=
  inner <| Inner.trading_vaults ::=
    alter (λ v, v
      <| TradingVaultState.reset_old_generation := None |>
      <| TradingVaultState.reset_proposed_at_ms := None |>
      <| TradingVaultState.reset_executable_at_ms := None |>
      <| TradingVaultState.reset_recorded_nav := None |>
      <| TradingVaultState.reset_recorded_senior_claim := None |>
      <| TradingVaultState.reset_recorded_required_deposit := None |>
      <| TradingVaultState.updated_at_ms := timestamp_ms |>)
      (TvJuniorResetCancelled.vault_id c) |>.

Definition on_TvJuniorResetExecuted (e : TvJuniorResetExecuted.t) (timestamp_ms : Z) (inner : Inner.t) : Inner.t :=
  inner <| Inner.trading_vaults ::=
    alter (λ v, v
      <| TradingVaultState.active_junior_generation := TvJuniorResetExecuted.new_generation e |>
      <| TradingVaultState.junior_nav := Some (TvJuniorResetExecuted.post_junior_nav e) |>
      <| TradingVaultState.latest_junior_pps_e12 := Some 1000000000000 |>
      <| TradingVaultState.reset_old_generation := None |>
      <| TradingVaultState.reset_proposed_at_ms := None |>
      <| TradingVaultState.reset_executable_at_ms := None |>
      <| TradingVaultState.reset_recorded_nav := None |>
      <| TradingVaultState.reset_recorded_senior_claim := None |>
      <| TradingVaultState.reset_recorded_required_deposit := None |>
      <| TradingVaultState.updated_at_ms := timestamp_ms |>)
      (TvJuniorResetExecuted.vault_id e) |>.

Definition on_TvSettlementSnapshot (s : TvSettlementSnapshot.t) (timestamp_ms : Z) (inner : Inner.t) : Inner.t :=
  inner <| Inner.trading_vaults ::=
    alter (λ v, v
      <| TradingVaultState.settled := true |>
      <| TradingVaultState.settlement_final_nav := Some (TvSettlementSnapshot.final_nav s) |>
      <| TradingVaultState.senior_pool := Some (TvSettlementSnapshot.senior_pool s) |>
      <| TradingVaultState.senior_supply := Some (TvSettlementSnapshot.senior_supply s) |>
      <| TradingVaultState.junior_pool := Some (TvSettlementSnapshot.junior_pool s) |>
      <| TradingVaultState.junior_supply := Some (TvSettlementSnapshot.junior_supply s) |>
      <| TradingVaultState.settlement_snapshot_at_ms := Some timestamp_ms |>
      <| TradingVaultState.active_junior_generation := TvSettlementSnapshot.active_junior_generation s |>
      <| TradingVaultState.updated_at_ms := timestamp_ms |>)
      (TvSettlementSnapshot.vault_id s) |>.

Definition on_TvPositionStored (p : TvPositionStored.t) (timestamp_ms : Z) (inner : Inner.t) : Inner.t :=
  let inner := inner <| Inner.trading_vaults ::=
    alter (λ v, v
      <| TradingVaultState.position_count ::= λ x, u64_saturating_add x 1 |>
      <| TradingVaultState.updated_at_ms := timestamp_ms |>)
      (TvPositionStored.vault_id p) |> in
  inner <| Inner.trading_vault_positions ::= <[(TvPositionStored.vault_id p, TvPositionStored.position_id p) := {|
      TradingVaultPositionState.adapter := TvPositionStored.adapter p;
      TradingVaultPositionState.active := true; TradingVaultPositionState.stored_at_ms := timestamp_ms;
      TradingVaultPositionState.removed_at_ms := None; TradingVaultPositionState.last_value := None;
      TradingVaultPositionState.last_appraised_at_ms := None
    |}]> |>.

Definition on_TvPositionRemoved (p : TvPositionRemoved.t) (timestamp_ms : Z) (inner : Inner.t) : Inner.t :=
  let inner := inner <| Inner.trading_vaults ::=
    alter (λ v, v
      <| TradingVaultState.position_count ::= λ x, u64_saturating_sub x 1 |>
      <| TradingVaultState.updated_at_ms := timestamp_ms |>)
      (TvPositionRemoved.vault_id p) |> in
  inner <| Inner.trading_vault_positions ::=
    alter (λ pos, pos
      <| TradingVaultPositionState.active := false |>
      <| TradingVaultPositionState.removed_at_ms := Some timestamp_ms |>)
      (TvPositionRemoved.vault_id p, TvPositionRemoved.position_id p) |>.

Definition on_TvPositionAppraised (a : TvPositionAppraised.t) (timestamp_ms : Z) (inner : Inner.t) : Inner.t :=
  inner <| Inner.trading_vault_positions ::=
    alter (λ pos, pos
      <| TradingVaultPositionState.last_value := Some (TvPositionAppraised.value a) |>
      <| TradingVaultPositionState.last_appraised_at_ms := Some timestamp_ms |>)
      (TvPositionAppraised.vault_id a, TvPositionAppraised.position_id a) |>.

Definition on_TvVaultAppraised (a : TvVaultAppraised.t) (timestamp_ms : Z) (inner : Inner.t) : Inner.t :=
  inner <| Inner.trading_vaults ::=
    alter (λ v, v
      <| TradingVaultState.latest_nav := Some (TvVaultAppraised.total_value a) |>
      <| TradingVaultState.nav_updated_at_ms := Some timestamp_ms |>
      <| TradingVaultState.updated_at_ms := timestamp_ms |>)
      (TvVaultAppraised.vault_id a) |>.

Definition on_TvExternalAccountSet (s : TvExternalAccountSet.t) (timestamp_ms : Z) (inner : Inner.t) : Inner.t :=
  inner <| Inner.trading_vaults ::=
    alter (λ v, v
      <| TradingVaultState.external_account := Some (to_hex (TvExternalAccountSet.account s)) |>
      <| TradingVaultState.updated_at_ms := timestamp_ms |>)
      (TvExternalAccountSet.vault_id s) |>.

Definition on_TvExternalAccountCleared (c : TvExternalAccountCleared.t) (timestamp_ms : Z) (inner : Inner.t) : Inner.t :=
  inner <| Inner.trading_vaults ::=
    alter (λ v, v
      <| TradingVaultState.external_account := None |>
      <| TradingVaultState.external_exposure := 0 |>
      <| TradingVaultState.updated_at_ms := timestamp_ms |>)
      (TvExternalAccountCleared.vault_id c) |>.

Definition on_TvExternalReleased (r : TvExternalReleased.t) (timestamp_ms : Z) (inner : Inner.t) : Inner.t :=
  inner <| Inner.trading_vaults ::=
    alter (λ v, v
      <| TradingVaultState.external_exposure := TvExternalReleased.exposure r |>
      <| TradingVaultState.updated_at_ms := timestamp_ms |>)
      (TvExternalReleased.vault_id r) |>.

Definition on_TvExternalReturned (r : TvExternalReturned.t) (timestamp_ms : Z) (inner : Inner.t) : Inner.t :=
  inner <| Inner.trading_vaults ::=
    alter (λ v, v
      <| TradingVaultState.external_exposure := TvExternalReturned.exposure r |>
      <| TradingVaultState.updated_at_ms := timestamp_ms |>)
      (TvExternalReturned.vault_id r) |>.

Definition on_EquityPosted (p : EquityPosted.t) (timestamp_ms : Z) (inner : Inner.t) : Inner.t :=
  inner <| Inner.trading_vaults ::=
    alter (λ v, v
      <| TradingVaultState.latest_external_equity := Some (EquityPosted.equity p) |>
      <| TradingVaultState.external_equity_updated_at_ms := Some timestamp_ms |>
      <| TradingVaultState.updated_at_ms := timestamp_ms |>)
      (EquityPosted.vault_id p) |>.

(** * The match *)

Definition apply_event (event : ChainEvent.t) (timestamp_ms : Z) (inner : Inner.t) : Inner.t :=
  match event with
  | ChainEvent.BucketCreated e => apply_bucket_created e inner
  | ChainEvent.WriteExecuted e => apply_write_executed e inner
  | ChainEvent.Exercised e => apply_exercised e inner
  | ChainEvent.Redeemed e => apply_redeemed e inner
  | ChainEvent.ExpiredOptionBurned _ => inner
  | ChainEvent.BucketCleaned e => on_BucketCleaned e inner
  | ChainEvent.BucketInvalidated e => on_BucketInvalidated e inner
  | ChainEvent.BucketRevalidated e => on_BucketRevalidated e inner
  | ChainEvent.SignerCreated e => on_SignerCreated e inner
  | ChainEvent.SigningKeyRotated e => on_SigningKeyRotated e inner
  | ChainEvent.FeeUpdated _ => inner
  | ChainEvent.TreasuryWithdrawn _ => inner
  | ChainEvent.DeepBookPoolCreated e => on_DeepBookPoolCreated e inner
  | ChainEvent.DeepBookOrderFilled _ => inner
  | ChainEvent.CollateralizedWrite e => on_CollateralizedWrite e inner
  | ChainEvent.AuctionCreated e => on_AuctionCreated e inner
  | ChainEvent.AuctionBid e => on_AuctionBid e inner
  | ChainEvent.AuctionSettled e => on_AuctionSettled e inner
  | ChainEvent.AuctionUnfilled e => on_AuctionUnfilled e inner
  | ChainEvent.RfqCreated e => on_RfqCreated e inner
  | ChainEvent.RfqSettled e => on_RfqSettled e inner
  | ChainEvent.RfqExpiredUnsold e => on_RfqExpiredUnsold e inner
  | ChainEvent.VaultRfqSettled e => on_VaultRfqSettled e inner
  | ChainEvent.VaultRfqUnsold e => on_VaultRfqUnsold e inner
  | ChainEvent.SwapRfqSettled e => on_SwapRfqSettled e inner
  | ChainEvent.SwapRfqUnfilled e => on_SwapRfqUnfilled e inner
  | ChainEvent.VaultCreated e => on_VaultCreated e inner
  | ChainEvent.VaultDeposit e => on_VaultDeposit e inner
  | ChainEvent.SharesClaimed e => on_SharesClaimed e inner
  | ChainEvent.WithdrawInitiated e => on_WithdrawInitiated e inner
  | ChainEvent.WithdrawCompleted e => on_WithdrawCompleted e inner
  | ChainEvent.InstantWithdraw e => on_InstantWithdraw e inner
  | ChainEvent.VaultBucketSelected e => on_VaultBucketSelected e inner
  | ChainEvent.VaultPositionRedeemed _ => inner
  | ChainEvent.VaultFeesCharged e => on_VaultFeesCharged e inner
  | ChainEvent.VaultRoundFinalized e => on_VaultRoundFinalized e timestamp_ms inner
  | ChainEvent.VaultConfigUpdated _ => inner
  | ChainEvent.VaultConfigApplied e => on_VaultConfigApplied e inner
  | ChainEvent.VaultDepositsPaused e => on_VaultDepositsPaused e inner
  | ChainEvent.PutBucketCreated e => apply_put_bucket_created e inner
  | ChainEvent.PutWriteExecuted e => apply_put_write_executed e inner
  | ChainEvent.PutCollateralizedWrite e => on_PutCollateralizedWrite e inner
  | ChainEvent.PutExercised e => on_PutExercised e inner
  | ChainEvent.PutRedeemed e => on_PutRedeemed e inner
  | ChainEvent.PutExpiredOptionBurned _ => inner
  | ChainEvent.PutBucketCleaned e => on_PutBucketCleaned e inner
  | ChainEvent.PutBucketInvalidated e => on_PutBucketInvalidated e inner
  | ChainEvent.PutBucketRevalidated e => on_PutBucketRevalidated e inner
  | ChainEvent.PutRfqCreated e => on_PutRfqCreated e inner
  | ChainEvent.PutRfqSettled e => on_PutRfqSettled e inner
  | ChainEvent.PutRfqExpiredUnsold e => on_PutRfqExpiredUnsold e inner
  | ChainEvent.OffsetClosed _ => inner
  | ChainEvent.SpreadWritten _ => inner
  | ChainEvent.SpreadUnwound _ => inner
  | ChainEvent.SpreadClosed _ => inner
  | ChainEvent.SpreadRedeemed _ => inner
  | ChainEvent.PutSpreadWritten _ => inner
  | ChainEvent.PutSpreadExercised _ => inner
  | ChainEvent.PutSpreadClosed _ => inner
  | ChainEvent.PutSpreadRedeemed _ => inner
  | ChainEvent.TvVaultCreated e => on_TvVaultCreated e timestamp_ms inner
  | ChainEvent.TvVaultClosing e => on_TvVaultClosing e timestamp_ms inner
  | ChainEvent.TvVaultClosed e => on_TvVaultClosed e timestamp_ms inner
  | ChainEvent.TvDepositsPaused e => on_TvDepositsPaused e timestamp_ms inner
  | ChainEvent.TvMmReleaseToggled e => on_TvMmReleaseToggled e timestamp_ms inner
  | ChainEvent.TvCuratorRotated e => on_TvCuratorRotated e timestamp_ms inner
  | ChainEvent.TvDeposited e => on_TvDeposited e timestamp_ms inner
  | ChainEvent.TvWithdrawRequested e => on_TvWithdrawRequested e timestamp_ms inner
  | ChainEvent.TvWithdrawFulfilled e => on_TvWithdrawFulfilled e timestamp_ms inner
  | ChainEvent.TvPositionMinted e => on_TvPositionMinted e timestamp_ms inner
  | ChainEvent.TvPositionSplit e => on_TvPositionSplit e timestamp_ms inner
  | ChainEvent.TvPositionMerged e => on_TvPositionMerged e timestamp_ms inner
  | ChainEvent.TvWipedPositionBurned e => on_TvWipedPositionBurned e timestamp_ms inner
  | ChainEvent.TvCapitalSynced e => on_TvCapitalSynced e timestamp_ms inner
  | ChainEvent.TvRiskStateChanged e => on_TvRiskStateChanged e timestamp_ms inner
  | ChainEvent.TvJuniorResetProposed e => on_TvJuniorResetProposed e timestamp_ms inner
  | ChainEvent.TvJuniorResetCancelled e => on_TvJuniorResetCancelled e timestamp_ms inner
  | ChainEvent.TvJuniorResetExecuted e => on_TvJuniorResetExecuted e timestamp_ms inner
  | ChainEvent.TvCommitmentReleased _ => inner
  | ChainEvent.TvSettlementSnapshot e => on_TvSettlementSnapshot e timestamp_ms inner
  | ChainEvent.TvSettlementRedeemed e => on_TvSettlementRedeemed e timestamp_ms inner
  | ChainEvent.TvSettlementCuratorFeesClaimed _ => inner
  | ChainEvent.TvDepositAssetAdded _ => inner
  | ChainEvent.TvDepositAssetRemoved _ => inner
  | ChainEvent.TvHaircutsSet _ => inner
  | ChainEvent.TvPayoutAssetAmended _ => inner
  | ChainEvent.TvSessionSettled _ => inner
  | ChainEvent.TvPositionStored e => on_TvPositionStored e timestamp_ms inner
  | ChainEvent.TvPositionRemoved e => on_TvPositionRemoved e timestamp_ms inner
  | ChainEvent.TvPositionAppraised e => on_TvPositionAppraised e timestamp_ms inner
  | ChainEvent.TvVaultAppraised e => on_TvVaultAppraised e timestamp_ms inner
  | ChainEvent.TvAdapterAllowed _ => inner
  | ChainEvent.TvAdapterDisallowed _ => inner
  | ChainEvent.TvOracleAllowed _ => inner
  | ChainEvent.TvOracleDisallowed _ => inner
  | ChainEvent.TvProtocolConfigUpdated _ => inner
  | ChainEvent.TvCollateralReleased _ => inner
  | ChainEvent.TvCustodyCreated _ => inner
  | ChainEvent.TvExchangeCustodyCreated _ => inner
  | ChainEvent.TvVaultQuoteFilled _ => inner
  | ChainEvent.TvQuoteAdapterAdded _ => inner
  | ChainEvent.TvQuoteAdapterRemoved _ => inner
  | ChainEvent.TvPoolAllowed _ => inner
  | ChainEvent.TvPoolDisallowed _ => inner
  | ChainEvent.TvRfqOpened _ => inner
  | ChainEvent.TvRfqSettled _ => inner
  | ChainEvent.TvPositionRedeemed _ => inner
  | ChainEvent.TvMmCoinExercised _ => inner
  | ChainEvent.TvMmOffsetClosed _ => inner
  | ChainEvent.TvMmCoinReleased _ => inner
  | ChainEvent.TvTakerSwapExecuted _ => inner
  | ChainEvent.TvBidPlaced _ => inner
  | ChainEvent.TvBidReclaimed _ => inner
  | ChainEvent.TvBidRedeemed _ => inner
  | ChainEvent.TvExternalAccountSet e => on_TvExternalAccountSet e timestamp_ms inner
  | ChainEvent.TvExternalAccountCleared e => on_TvExternalAccountCleared e timestamp_ms inner
  | ChainEvent.TvExternalReleased e => on_TvExternalReleased e timestamp_ms inner
  | ChainEvent.TvExternalReturned e => on_TvExternalReturned e timestamp_ms inner
  | ChainEvent.EquityPosted e => on_EquityPosted e timestamp_ms inner
  | ChainEvent.VolPosted _ => inner
  | ChainEvent.OptionMarketListed e => on_OptionMarketListed e inner
  | ChainEvent.ExchangeOptionFill _ => inner
  end.
End apply.
