(* ===== verification/IndexerStage.v ===== *)
(** How the store turns the events of a checkpoint into rows
    ([services/indexer/src/store/mod.rs]: [stage_batch] and what it calls;
    [db/repo.rs]: [CheckpointBatch], [EventBuild]; [db/models.rs]:
    [event_type_tag]), and what it reads back ([hydrate]). *)

From S2P Require Import Prelude RecordUpdate RustStr ExchangeTypes MoveType Asset Json Quote IndexerEvents IndexerStore IndexerRows IndexerApply.

(** * A checkpoint's rows *)

Module CheckpointBatch.
Record t := mk {
  checkpoint : Z; last_sequence : Z; events : list NewIndexedEventRow.t; accounts : list AccountRow.t;
  buckets : list BucketRow.t; deepbook_pools : list DeepBookPoolRow.t;
  exchange_markets : list ExchangeMarketLinkRow.t; position_upserts : list PositionRow.t;
  position_deletes : list (rstring * Z); event_participants : list EventParticipantRow.t; rfqs : list RfqRow.t;
  rfq_bids : list RfqBidRow.t; vaults : list VaultRow.t; vault_rounds : list VaultRoundRow.t;
  vault_receipts : list VaultReceiptRow.t; trading_vaults : list TradingVaultRow.t;
  trading_vault_positions : list TradingVaultPositionRow.t; vault_positions : list VaultPositionRow.t
}.
#[global] Instance expand : Fields t := λ s, mk
  (checkpoint s) (last_sequence s) (events s) (accounts s) (buckets s) (deepbook_pools s) (exchange_markets s)
  (position_upserts s) (position_deletes s) (event_participants s) (rfqs s) (rfq_bids s) (vaults s)
  (vault_rounds s) (vault_receipts s) (trading_vaults s) (trading_vault_positions s) (vault_positions s).

Definition empty (checkpoint last_sequence : Z) : t :=
  mk checkpoint last_sequence [] [] [] [] [] [] [] [] [] [] [] [] [] [] [] [].

Definition null {A} (l : list A) : bool := match l with [] => true | _ => false end.

Definition is_empty (s : t) : bool :=
  null (events s) &&
  null (accounts s) &&
  null (buckets s) &&
  null (deepbook_pools s) &&
  null (exchange_markets s) &&
  null (position_upserts s) &&
  null (position_deletes s) &&
  null (event_participants s) &&
  null (rfqs s) &&
  null (rfq_bids s) &&
  null (vaults s) &&
  null (vault_rounds s) &&
  null (vault_receipts s) &&
  null (trading_vaults s) &&
  null (trading_vault_positions s) &&
  null (vault_positions s).
End CheckpointBatch.

(** The derived serializer of events; it may refuse a value. *)
Class EventJson := event_to_value : ChainEvent.t → option Value.

Definition event_type_tag (ev : ChainEvent.t) : rstring :=
  str match ev with
  | ChainEvent.BucketCreated _ => "BucketCreated"
  | ChainEvent.WriteExecuted _ => "WriteExecuted"
  | ChainEvent.Exercised _ => "Exercised"
  | ChainEvent.Redeemed _ => "Redeemed"
  | ChainEvent.ExpiredOptionBurned _ => "ExpiredOptionBurned"
  | ChainEvent.BucketCleaned _ => "BucketCleaned"
  | ChainEvent.BucketInvalidated _ => "BucketInvalidated"
  | ChainEvent.BucketRevalidated _ => "BucketRevalidated"
  | ChainEvent.SignerCreated _ => "SignerCreated"
  | ChainEvent.SigningKeyRotated _ => "SigningKeyRotated"
  | ChainEvent.FeeUpdated _ => "FeeUpdated"
  | ChainEvent.TreasuryWithdrawn _ => "TreasuryWithdrawn"
  | ChainEvent.DeepBookPoolCreated _ => "DeepBookPoolCreated"
  | ChainEvent.DeepBookOrderFilled _ => "DeepBookOrderFilled"
  | ChainEvent.CollateralizedWrite _ => "CollateralizedWrite"
  | ChainEvent.AuctionCreated _ => "AuctionCreated"
  | ChainEvent.AuctionBid _ => "AuctionBid"
  | ChainEvent.AuctionSettled _ => "AuctionSettled"
  | ChainEvent.AuctionUnfilled _ => "AuctionUnfilled"
  | ChainEvent.RfqCreated _ => "RfqCreated"
  | ChainEvent.RfqSettled _ => "RfqSettled"
  | ChainEvent.RfqExpiredUnsold _ => "RfqExpiredUnsold"
  | ChainEvent.VaultRfqSettled _ => "VaultRfqSettled"
  | ChainEvent.VaultRfqUnsold _ => "VaultRfqUnsold"
  | ChainEvent.SwapRfqSettled _ => "SwapRfqSettled"
  | ChainEvent.SwapRfqUnfilled _ => "SwapRfqUnfilled"
  | ChainEvent.VaultCreated _ => "VaultCreated"
  | ChainEvent.VaultDeposit _ => "VaultDeposit"
  | ChainEvent.SharesClaimed _ => "SharesClaimed"
  | ChainEvent.WithdrawInitiated _ => "WithdrawInitiated"
  | ChainEvent.WithdrawCompleted _ => "WithdrawCompleted"
  | ChainEvent.InstantWithdraw _ => "InstantWithdraw"
  | ChainEvent.VaultBucketSelected _ => "VaultBucketSelected"
  | ChainEvent.VaultPositionRedeemed _ => "VaultPositionRedeemed"
  | ChainEvent.VaultFeesCharged _ => "VaultFeesCharged"
  | ChainEvent.VaultRoundFinalized _ => "VaultRoundFinalized"
  | ChainEvent.VaultConfigUpdated _ => "VaultConfigUpdated"
  | ChainEvent.VaultConfigApplied _ => "VaultConfigApplied"
  | ChainEvent.VaultDepositsPaused _ => "VaultDepositsPaused"
  | ChainEvent.PutBucketCreated _ => "PutBucketCreated"
  | ChainEvent.PutWriteExecuted _ => "PutWriteExecuted"
  | ChainEvent.PutCollateralizedWrite _ => "PutCollateralizedWrite"
  | ChainEvent.PutExercised _ => "PutExercised"
  | ChainEvent.PutRedeemed _ => "PutRedeemed"
  | ChainEvent.PutExpiredOptionBurned _ => "PutExpiredOptionBurned"
  | ChainEvent.PutBucketCleaned _ => "PutBucketCleaned"
  | ChainEvent.PutBucketInvalidated _ => "PutBucketInvalidated"
  | ChainEvent.PutBucketRevalidated _ => "PutBucketRevalidated"
  | ChainEvent.PutRfqCreated _ => "PutRfqCreated"
  | ChainEvent.PutRfqSettled _ => "PutRfqSettled"
  | ChainEvent.PutRfqExpiredUnsold _ => "PutRfqExpiredUnsold"
  | ChainEvent.OffsetClosed _ => "OffsetClosed"
  | ChainEvent.SpreadWritten _ => "SpreadWritten"
  | ChainEvent.SpreadUnwound _ => "SpreadUnwound"
  | ChainEvent.SpreadClosed _ => "SpreadClosed"
  | ChainEvent.SpreadRedeemed _ => "SpreadRedeemed"
  | ChainEvent.TvVaultCreated _ => "TvVaultCreated"
  | ChainEvent.TvVaultClosing _ => "TvVaultClosing"
  | ChainEvent.TvVaultClosed _ => "TvVaultClosed"
  | ChainEvent.TvDepositsPaused _ => "TvDepositsPaused"
  | ChainEvent.TvMmReleaseToggled _ => "TvMmReleaseToggled"
  | ChainEvent.TvCuratorRotated _ => "TvCuratorRotated"
  | ChainEvent.TvDeposited _ => "TvDeposited"
  | ChainEvent.TvWithdrawRequested _ => "TvWithdrawRequested"
  | ChainEvent.TvWithdrawFulfilled _ => "TvWithdrawFulfilled"
  | ChainEvent.TvPositionMinted _ => "TvPositionMinted"
  | ChainEvent.TvPositionSplit _ => "TvPositionSplit"
  | ChainEvent.TvPositionMerged _ => "TvPositionMerged"
  | ChainEvent.TvWipedPositionBurned _ => "TvWipedPositionBurned"
  | ChainEvent.TvCapitalSynced _ => "TvCapitalSynced"
  | ChainEvent.TvRiskStateChanged _ => "TvRiskStateChanged"
  | ChainEvent.TvJuniorResetProposed _ => "TvJuniorResetProposed"
  | ChainEvent.TvJuniorResetCancelled _ => "TvJuniorResetCancelled"
  | ChainEvent.TvJuniorResetExecuted _ => "TvJuniorResetExecuted"
  | ChainEvent.TvCommitmentReleased _ => "TvCommitmentReleased"
  | ChainEvent.TvSettlementSnapshot _ => "TvSettlementSnapshot"
  | ChainEvent.TvSettlementRedeemed _ => "TvSettlementRedeemed"
  | ChainEvent.TvSettlementCuratorFeesClaimed _ => "TvSettlementCuratorFeesClaimed"
  | ChainEvent.TvDepositAssetAdded _ => "TvDepositAssetAdded"
  | ChainEvent.TvDepositAssetRemoved _ => "TvDepositAssetRemoved"
  | ChainEvent.TvHaircutsSet _ => "TvHaircutsSet"
  | ChainEvent.TvPayoutAssetAmended _ => "TvPayoutAssetAmended"
  | ChainEvent.TvSessionSettled _ => "TvSessionSettled"
  | ChainEvent.TvPositionStored _ => "TvPositionStored"
  | ChainEvent.TvPositionRemoved _ => "TvPositionRemoved"
  | ChainEvent.TvPositionAppraised _ => "TvPositionAppraised"
  | ChainEvent.TvVaultAppraised _ => "TvVaultAppraised"
  | ChainEvent.TvAdapterAllowed _ => "TvAdapterAllowed"
  | ChainEvent.TvAdapterDisallowed _ => "TvAdapterDisallowed"
  | ChainEvent.TvOracleAllowed _ => "TvOracleAllowed"
  | ChainEvent.TvOracleDisallowed _ => "TvOracleDisallowed"
  | ChainEvent.TvProtocolConfigUpdated _ => "TvProtocolConfigUpdated"
  | ChainEvent.TvCollateralReleased _ => "TvCollateralReleased"
  | ChainEvent.TvCustodyCreated _ => "TvCustodyCreated"
  | ChainEvent.TvExchangeCustodyCreated _ => "TvExchangeCustodyCreated"
  | ChainEvent.TvVaultQuoteFilled _ => "TvVaultQuoteFilled"
  | ChainEvent.TvQuoteAdapterAdded _ => "TvQuoteAdapterAdded"
  | ChainEvent.TvQuoteAdapterRemoved _ => "TvQuoteAdapterRemoved"
  | ChainEvent.TvPoolAllowed _ => "TvPoolAllowed"
  | ChainEvent.TvPoolDisallowed _ => "TvPoolDisallowed"
  | ChainEvent.TvRfqOpened _ => "TvRfqOpened"
  | ChainEvent.TvRfqSettled _ => "TvRfqSettled"
  | ChainEvent.TvPositionRedeemed _ => "TvPositionRedeemed"
  | ChainEvent.TvMmCoinExercised _ => "TvMmCoinExercised"
  | ChainEvent.TvMmOffsetClosed _ => "TvMmOffsetClosed"
  | ChainEvent.TvMmCoinReleased _ => "TvMmCoinReleased"
  | ChainEvent.TvTakerSwapExecuted _ => "TvTakerSwapExecuted"
  | ChainEvent.TvBidPlaced _ => "TvBidPlaced"
  | ChainEvent.TvBidReclaimed _ => "TvBidReclaimed"
  | ChainEvent.TvBidRedeemed _ => "TvBidRedeemed"
  | ChainEvent.TvExternalAccountSet _ => "TvExternalAccountSet"
  | ChainEvent.TvExternalAccountCleared _ => "TvExternalAccountCleared"
  | ChainEvent.TvExternalReleased _ => "TvExternalReleased"
  | ChainEvent.TvExternalReturned _ => "TvExternalReturned"
  | ChainEvent.EquityPosted _ => "EquityPosted"
  | ChainEvent.PutSpreadWritten _ => "PutSpreadWritten"
  | ChainEvent.PutSpreadExercised _ => "PutSpreadExercised"
  | ChainEvent.PutSpreadClosed _ => "PutSpreadClosed"
  | ChainEvent.PutSpreadRedeemed _ => "PutSpreadRedeemed"
  | ChainEvent.VolPosted _ => "VolPosted"
  | ChainEvent.OptionMarketListed _ => "OptionMarketListed"
  | ChainEvent.ExchangeOptionFill _ => "ExchangeOptionFill"
  end.

Inductive StageError := EncodingPayload.

Definition new_event_row `{EventJson} (sequence checkpoint : Z) (tx_digest : rstring) (event_index timestamp_ms : Z)
    (event : ChainEvent.t) : result StageError NewIndexedEventRow.t :=
  payload ← ok_or (event_to_value event) EncodingPayload;
  Ok {|
    NewIndexedEventRow.sequence := sequence; NewIndexedEventRow.checkpoint := checkpoint;
    NewIndexedEventRow.tx_digest := tx_digest; NewIndexedEventRow.event_index := event_index;
    NewIndexedEventRow.timestamp_ms := timestamp_ms;
    NewIndexedEventRow.event_type := event_type_tag event;
    NewIndexedEventRow.payload := payload
  |}.

(** [batch.f.push(x)]. *)
Definition push {A} (x : A) (l : list A) : list A := l ++ [x].

(** [if let Some(state) = ... { batch.f.push(...) }]. *)
Definition push_some {S A} (row : S → A) (o : option S) (l : list A) : list A :=
  match o with Some s => push (row s) l | None => l end.

Section stage.
Context `{HexCrate}.

(** * Participants *)

Definition account_owner_hex (inner : Inner.t) (account_id : ObjectId) : option rstring :=
  a ← Inner.accounts inner !! account_id; to_hex <$> AccountState.owner a.

Definition owner_edge (inner : Inner.t) (account_id : ObjectId) (role : rstring) : list (rstring * rstring) :=
  match account_owner_hex inner account_id with Some o => [(o, role)] | None => [] end.

(** The addresses an event touches, each with its role. *)
Definition participants (inner : Inner.t) (event : ChainEvent.t) : list (rstring * rstring) :=
  match event with
  | ChainEvent.WriteExecuted w =>
      [(to_hex (WriteExecuted.position_recipient w), str "position_recipient");
       (to_hex (WriteExecuted.call_token_recipient w), str "call_token_recipient");
       (to_hex (WriteExecuted.signer_token_recipient w), str "signer_token_recipient");
       (to_hex (WriteExecuted.executor w), str "executor")] ++
      owner_edge inner (WriteExecuted.signer_id w) (str "signer_account_owner")
  | ChainEvent.Exercised e => [(to_hex (Exercised.exerciser e), str "exerciser")]
  | ChainEvent.Redeemed r => [(to_hex (Redeemed.redeemer r), str "redeemer")]
  | ChainEvent.ExpiredOptionBurned b => [(to_hex (ExpiredOptionBurned.burner b), str "burner")]
  | ChainEvent.BucketInvalidated i => [(to_hex (BucketInvalidated.admin i), str "admin")]
  | ChainEvent.BucketRevalidated r => [(to_hex (BucketRevalidated.admin r), str "admin")]
  | ChainEvent.SignerCreated a => [(to_hex (SignerCreated.owner a), str "account_owner")]
  | ChainEvent.SigningKeyRotated r =>
      owner_edge inner (SigningKeyRotated.signer_id r) (str "account_owner")
  | ChainEvent.TreasuryWithdrawn t =>
      [(to_hex (TreasuryWithdrawn.recipient t), str "treasury_recipient")]
  | ChainEvent.CollateralizedWrite w => [(to_hex (CollateralizedWrite.writer w), str "writer")]
  | ChainEvent.AuctionBid b =>
      [(to_hex (AuctionBid.bidder b), str "bidder");
       (to_hex (AuctionBid.token_recipient b), str "token_recipient")]
  | ChainEvent.AuctionSettled s =>
      [(to_hex (AuctionSettled.bidder s), str "winner");
       (to_hex (AuctionSettled.token_recipient s), str "token_recipient")]
  | ChainEvent.RfqSettled s =>
      [(to_hex (RfqSettled.winner s), str "winner");
       (to_hex (RfqSettled.call_recipient s), str "call_recipient");
       (to_hex (RfqSettled.position_recipient s), str "position_recipient")]
  | ChainEvent.VaultRfqSettled s =>
      [(to_hex (VaultRfqSettled.winner s), str "winner");
       (to_hex (VaultRfqSettled.call_recipient s), str "call_recipient")]
  | ChainEvent.VaultDeposit d => [(to_hex (VaultDeposit.depositor d), str "depositor")]
  | ChainEvent.SharesClaimed c => [(to_hex (SharesClaimed.owner c), str "owner")]
  | ChainEvent.WithdrawInitiated w => [(to_hex (WithdrawInitiated.owner w), str "owner")]
  | ChainEvent.WithdrawCompleted w => [(to_hex (WithdrawCompleted.owner w), str "owner")]
  | ChainEvent.InstantWithdraw w => [(to_hex (InstantWithdraw.owner w), str "owner")]
  | ChainEvent.SwapRfqSettled s => [(to_hex (SwapRfqSettled.winner s), str "winner")]
  | ChainEvent.DeepBookOrderFilled f =>
      [(to_hex (DeepBookOrderFilled.taker_balance_manager_id f), str "deepbook_taker_bm");
       (to_hex (DeepBookOrderFilled.maker_balance_manager_id f), str "deepbook_maker_bm")]
  | ChainEvent.ExchangeOptionFill f =>
      [(to_hex (ExchangeOptionFill.maker f), str "maker");
       (to_hex (ExchangeOptionFill.taker f), str "taker")]
  | ChainEvent.PutWriteExecuted w =>
      [(to_hex (PutWriteExecuted.position_recipient w), str "position_recipient");
       (to_hex (PutWriteExecuted.put_token_recipient w), str "put_token_recipient");
       (to_hex (PutWriteExecuted.signer_token_recipient w), str "signer_token_recipient");
       (to_hex (PutWriteExecuted.executor w), str "executor")] ++
      owner_edge inner (PutWriteExecuted.signer_id w) (str "signer_account_owner")
  | ChainEvent.PutExercised e => [(to_hex (PutExercised.exerciser e), str "exerciser")]
  | ChainEvent.PutRedeemed r => [(to_hex (PutRedeemed.redeemer r), str "redeemer")]
  | ChainEvent.PutExpiredOptionBurned b => [(to_hex (PutExpiredOptionBurned.burner b), str "burner")]
  | ChainEvent.PutBucketInvalidated i => [(to_hex (PutBucketInvalidated.admin i), str "admin")]
  | ChainEvent.PutBucketRevalidated r => [(to_hex (PutBucketRevalidated.admin r), str "admin")]
  | ChainEvent.PutCollateralizedWrite w => [(to_hex (PutCollateralizedWrite.writer w), str "writer")]
  | ChainEvent.PutRfqSettled s =>
      [(to_hex (PutRfqSettled.winner s), str "winner");
       (to_hex (PutRfqSettled.put_recipient s), str "put_recipient");
       (to_hex (PutRfqSettled.position_recipient s), str "position_recipient")]
  | ChainEvent.TvVaultCreated v =>
      [(to_hex (TvVaultCreated.creator v), str "creator");
       (to_hex (TvVaultCreated.creator v), str "curator")]
  | ChainEvent.TvDeposited d => [(to_hex (TvDeposited.depositor d), str "depositor")]
  | ChainEvent.TvWithdrawRequested w =>
      [(to_hex (TvWithdrawRequested.recipient w), str "withdrawer")]
  | ChainEvent.TvWithdrawFulfilled w =>
      [(to_hex (TvWithdrawFulfilled.recipient w), str "withdrawer")]
  | ChainEvent.TvCuratorRotated r => [(to_hex (TvCuratorRotated.recipient r), str "curator")]
  | ChainEvent.TvJuniorResetExecuted r =>
      [(to_hex (TvJuniorResetExecuted.recapitalizer r), str "recapitalizer")]
  | ChainEvent.TvSettlementRedeemed r =>
      [(to_hex (TvSettlementRedeemed.recipient r), str "redeemer")]
  | ChainEvent.TvExternalAccountSet s =>
      [(to_hex (TvExternalAccountSet.account s), str "external_account")]
  | ChainEvent.TvExternalReleased r =>
      [(to_hex (TvExternalReleased.account r), str "external_account")]
  | ChainEvent.TvExternalReturned r =>
      [(to_hex (TvExternalReturned.from r), str "external_account")]
  | ChainEvent.EquityPosted p => [(to_hex (EquityPosted.poster p), str "poster")]
  | ChainEvent.OffsetClosed c => [(to_hex (OffsetClosed.closer c), str "closer")]
  | ChainEvent.SpreadWritten w => [(to_hex (SpreadWritten.writer w), str "writer")]
  | ChainEvent.SpreadUnwound u => [(to_hex (SpreadUnwound.caller u), str "caller")]
  | ChainEvent.SpreadClosed c => [(to_hex (SpreadClosed.closer c), str "closer")]
  | ChainEvent.SpreadRedeemed r => [(to_hex (SpreadRedeemed.redeemer r), str "redeemer")]
  | ChainEvent.PutSpreadWritten w => [(to_hex (PutSpreadWritten.writer w), str "writer")]
  | ChainEvent.PutSpreadExercised e => [(to_hex (PutSpreadExercised.exerciser e), str "exerciser")]
  | ChainEvent.PutSpreadClosed c => [(to_hex (PutSpreadClosed.closer c), str "closer")]
  | ChainEvent.PutSpreadRedeemed r => [(to_hex (PutSpreadRedeemed.redeemer r), str "redeemer")]
  | ChainEvent.VolPosted p => [(to_hex (VolPosted.poster p), str "poster")]
  | _ => []
  end.

Definition collect_participants (inner : Inner.t) (event : ChainEvent.t) (sequence : Z)
    (batch : CheckpointBatch.t) : CheckpointBatch.t :=
  batch <| CheckpointBatch.event_participants ::= λ l,
    l ++ ((λ '(address, role), EventParticipantRow.mk sequence address role) <$> participants inner event) |>.

(** * Snapshots of the entities an event touched *)

Definition stage_bucket (inner : Inner.t) (id : ObjectId) (sequence : Z) (batch : CheckpointBatch.t) : CheckpointBatch.t :=
  batch <| CheckpointBatch.buckets ::=
    push_some (λ state, bucket_row id state sequence) (Inner.buckets inner !! id) |>.

Definition stage_account (inner : Inner.t) (id : ObjectId) (sequence : Z) (batch : CheckpointBatch.t) : CheckpointBatch.t :=
  batch <| CheckpointBatch.accounts ::=
    push_some (λ state, account_row id state sequence) (Inner.accounts inner !! id) |>.

Definition stage_rfq (inner : Inner.t) (auction_id : ObjectId) (sequence : Z) (batch : CheckpointBatch.t) : CheckpointBatch.t :=
  batch <| CheckpointBatch.rfqs ::=
    push_some (λ state, rfq_row auction_id state sequence) (Inner.rfqs inner !! auction_id) |>.

Definition stage_vault (inner : Inner.t) (vault_id : ObjectId) (sequence : Z) (batch : CheckpointBatch.t) : CheckpointBatch.t :=
  batch <| CheckpointBatch.vaults ::=
    push_some (λ state, vault_row vault_id state sequence) (Inner.vaults inner !! vault_id) |>.

Definition stage_vault_round (inner : Inner.t) (vault_id : ObjectId) (round sequence : Z) (batch : CheckpointBatch.t) : CheckpointBatch.t :=
  batch <| CheckpointBatch.vault_rounds ::=
    push_some (λ state, vault_round_row vault_id round state sequence) (Inner.vault_rounds inner !! (vault_id, round)) |>.

Definition stage_trading_vault (inner : Inner.t) (vault_id : ObjectId) (sequence : Z) (batch : CheckpointBatch.t) : CheckpointBatch.t :=
  batch <| CheckpointBatch.trading_vaults ::=
    push_some (λ state, trading_vault_row vault_id state sequence) (Inner.trading_vaults inner !! vault_id) |>.

Definition stage_trading_vault_position (inner : Inner.t) (vault_id position_id : ObjectId) (sequence : Z)
    (batch : CheckpointBatch.t) : CheckpointBatch.t :=
  batch <| CheckpointBatch.trading_vault_positions ::=
    push_some (λ state, trading_vault_position_row vault_id position_id state sequence)
      (Inner.trading_vault_positions inner !! (vault_id, position_id)) |>.

Definition stage_vault_position (inner : Inner.t) (position_id : ObjectId) (sequence : Z) (batch : CheckpointBatch.t) : CheckpointBatch.t :=
  batch <| CheckpointBatch.vault_positions ::=
    push_some (λ state, vault_position_row position_id state sequence) (Inner.vault_positions inner !! position_id) |>.

Definition stage_receipt (inner : Inner.t) (key : ReceiptKey) (sequence : Z) (batch : CheckpointBatch.t) : CheckpointBatch.t :=
  batch <| CheckpointBatch.vault_receipts ::=
    push_some (λ state, receipt_row key state sequence) (Inner.vault_receipts inner !! key) |>.

Definition push_position (row : PositionRow.t) (batch : CheckpointBatch.t) : CheckpointBatch.t :=
  batch <| CheckpointBatch.position_upserts ::= push row |>.

Definition push_delete (key : rstring * Z) (batch : CheckpointBatch.t) : CheckpointBatch.t :=
  batch <| CheckpointBatch.position_deletes ::= push key |>.

(** The pool is written only when it is the one the views recorded. *)
Definition stage_deepbook_pool (inner : Inner.t) (p : DeepBookPoolCreated.t) (timestamp_ms sequence : Z)
    (batch : CheckpointBatch.t) : CheckpointBatch.t :=
  if bool_decide (DeepBookPoolState.pool_id <$> Inner.deepbook_pools inner !! DeepBookPoolCreated.bucket_id p =
                  Some (DeepBookPoolCreated.pool_id p))
  then batch <| CheckpointBatch.deepbook_pools ::=
         push (deepbook_pool_row p (CheckpointBatch.checkpoint batch) timestamp_ms sequence) |>
  else batch.

Definition stage_exchange_market (inner : Inner.t) (m : OptionMarketListed.t) (sequence : Z)
    (batch : CheckpointBatch.t) : CheckpointBatch.t :=
  if bool_decide (ExchangeMarketState.registry_id <$> Inner.exchange_markets inner !! OptionMarketListed.bucket m =
                  Some (OptionMarketListed.registry m))
  then batch <| CheckpointBatch.exchange_markets ::= push (exchange_market_row m sequence) |>
  else batch.

Definition bid_row (inner : Inner.t) (b : AuctionBid.t) (sequence : Z) : RfqBidRow.t := {|
  RfqBidRow.rfq_id := to_hex (AuctionBid.auction_id b); RfqBidRow.sequence := sequence;
  RfqBidRow.bidder := to_hex (AuctionBid.bidder b);
  RfqBidRow.call_recipient := to_hex (AuctionBid.token_recipient b);
  RfqBidRow.premium := u64_to_bigdecimal (AuctionBid.amount b);
  RfqBidRow.auction_kind :=
    default AUCTION_KIND_UNKNOWN (RfqState.auction_kind <$> Inner.rfqs inner !! AuctionBid.auction_id b)
|}.

Definition push_bid (row : RfqBidRow.t) (batch : CheckpointBatch.t) : CheckpointBatch.t :=
  batch <| CheckpointBatch.rfq_bids ::= push row |>.

(** The position a fulfilment consumed is found again by its queue number. *)
Definition stage_consumed (inner : Inner.t) (w : TvWithdrawFulfilled.t) (sequence : Z)
    (batch : CheckpointBatch.t) : CheckpointBatch.t :=
  match queued_position inner (TvWithdrawFulfilled.vault_id w) (TvWithdrawFulfilled.global_seq w) with
  | Some id => stage_vault_position inner id sequence batch
  | None => batch
  end.

Definition stage_event_into_batch (inner : Inner.t) (event : ChainEvent.t) (sequence : Z) (tx_digest : rstring)
    (timestamp_ms : Z) (batch : CheckpointBatch.t) : CheckpointBatch.t :=
  match event with
  | ChainEvent.BucketCreated b =>
      stage_bucket inner (BucketCreated.bucket_id b) sequence batch
  | ChainEvent.WriteExecuted w =>
      let batch := stage_bucket inner (WriteExecuted.bucket_id w) sequence batch in
      push_position (write_position_row w sequence tx_digest timestamp_ms) batch
  | ChainEvent.Exercised e =>
      stage_bucket inner (Exercised.bucket_id e) sequence batch
  | ChainEvent.Redeemed r =>
      push_delete (to_hex (Redeemed.bucket_id r), u128_to_bigdecimal (Redeemed.range_start r)) batch
  | ChainEvent.BucketCleaned c =>
      stage_bucket inner (BucketCleaned.bucket_id c) sequence batch
  | ChainEvent.BucketInvalidated i =>
      stage_bucket inner (BucketInvalidated.bucket_id i) sequence batch
  | ChainEvent.BucketRevalidated r =>
      stage_bucket inner (BucketRevalidated.bucket_id r) sequence batch
  | ChainEvent.SignerCreated a =>
      stage_account inner (SignerCreated.signer_id a) sequence batch
  | ChainEvent.SigningKeyRotated r =>
      stage_account inner (SigningKeyRotated.signer_id r) sequence batch
  | ChainEvent.DeepBookPoolCreated p =>
      stage_deepbook_pool inner p timestamp_ms sequence batch
  | ChainEvent.CollateralizedWrite w =>
      stage_bucket inner (CollateralizedWrite.bucket_id w) sequence batch
  | ChainEvent.AuctionCreated a =>
      stage_rfq inner (AuctionCreated.auction_id a) sequence batch
  | ChainEvent.AuctionBid b =>
      let batch := stage_rfq inner (AuctionBid.auction_id b) sequence batch in
      push_bid (bid_row inner b sequence) batch
  | ChainEvent.AuctionSettled s =>
      stage_rfq inner (AuctionSettled.auction_id s) sequence batch
  | ChainEvent.AuctionUnfilled u =>
      stage_rfq inner (AuctionUnfilled.auction_id u) sequence batch
  | ChainEvent.RfqCreated r =>
      stage_rfq inner (RfqCreated.auction_id r) sequence batch
  | ChainEvent.RfqSettled s =>
      let batch := stage_rfq inner (RfqSettled.auction_id s) sequence batch in
      push_position (settled_position_row s sequence tx_digest timestamp_ms) batch
  | ChainEvent.RfqExpiredUnsold e =>
      stage_rfq inner (RfqExpiredUnsold.auction_id e) sequence batch
  | ChainEvent.VaultRfqSettled s =>
      let batch := stage_rfq inner (VaultRfqSettled.auction_id s) sequence batch in
      push_position (vault_settled_position_row s sequence tx_digest timestamp_ms) batch
  | ChainEvent.VaultRfqUnsold u =>
      stage_rfq inner (VaultRfqUnsold.auction_id u) sequence batch
  | ChainEvent.SwapRfqSettled s =>
      stage_rfq inner (SwapRfqSettled.swap_id s) sequence batch
  | ChainEvent.SwapRfqUnfilled u =>
      stage_rfq inner (SwapRfqUnfilled.swap_id u) sequence batch
  | ChainEvent.VaultCreated v =>
      stage_vault inner (VaultCreated.vault_id v) sequence batch
  | ChainEvent.VaultDeposit d =>
      let batch := stage_vault inner (VaultDeposit.vault_id d) sequence batch in
      stage_receipt inner (VaultDeposit.vault_id d, to_hex (VaultDeposit.depositor d), VaultDeposit.round d, RECEIPT_DEPOSIT) sequence batch
  | ChainEvent.SharesClaimed c =>
      stage_receipt inner (SharesClaimed.vault_id c, to_hex (SharesClaimed.owner c), SharesClaimed.round c, RECEIPT_DEPOSIT) sequence batch
  | ChainEvent.WithdrawInitiated w =>
      stage_receipt inner (WithdrawInitiated.vault_id w, to_hex (WithdrawInitiated.owner w), WithdrawInitiated.round w, RECEIPT_WITHDRAW) sequence batch
  | ChainEvent.WithdrawCompleted w =>
      stage_receipt inner (WithdrawCompleted.vault_id w, to_hex (WithdrawCompleted.owner w), WithdrawCompleted.round w, RECEIPT_WITHDRAW) sequence batch
  | ChainEvent.InstantWithdraw w =>
      let batch := stage_vault inner (InstantWithdraw.vault_id w) sequence batch in
      stage_receipt inner (InstantWithdraw.vault_id w, to_hex (InstantWithdraw.owner w), InstantWithdraw.round w, RECEIPT_DEPOSIT) sequence batch
  | ChainEvent.VaultBucketSelected s =>
      let batch := stage_vault inner (VaultBucketSelected.vault_id s) sequence batch in
      stage_vault_round inner (VaultBucketSelected.vault_id s) (VaultBucketSelected.round s) sequence batch
  | ChainEvent.VaultFeesCharged f =>
      stage_vault_round inner (VaultFeesCharged.vault_id f) (VaultFeesCharged.round f) sequence batch
  | ChainEvent.VaultRoundFinalized f =>
      let batch := stage_vault inner (VaultRoundFinalized.vault_id f) sequence batch in
      stage_vault_round inner (VaultRoundFinalized.vault_id f) (VaultRoundFinalized.round f) sequence batch
  | ChainEvent.VaultConfigApplied c =>
      stage_vault inner (VaultConfigApplied.vault_id c) sequence batch
  | ChainEvent.VaultDepositsPaused p =>
      stage_vault inner (VaultDepositsPaused.vault_id p) sequence batch
  | ChainEvent.PutBucketCreated b =>
      stage_bucket inner (PutBucketCreated.bucket_id b) sequence batch
  | ChainEvent.PutWriteExecuted w =>
      let batch := stage_bucket inner (PutWriteExecuted.bucket_id w) sequence batch in
      push_position (put_write_position_row w sequence tx_digest timestamp_ms) batch
  | ChainEvent.PutCollateralizedWrite w =>
      stage_bucket inner (PutCollateralizedWrite.bucket_id w) sequence batch
  | ChainEvent.PutExercised e =>
      stage_bucket inner (PutExercised.bucket_id e) sequence batch
  | ChainEvent.PutRedeemed r =>
      push_delete (to_hex (PutRedeemed.bucket_id r), u128_to_bigdecimal (PutRedeemed.range_start r)) batch
  | ChainEvent.PutBucketCleaned c =>
      stage_bucket inner (PutBucketCleaned.bucket_id c) sequence batch
  | ChainEvent.PutBucketInvalidated i =>
      stage_bucket inner (PutBucketInvalidated.bucket_id i) sequence batch
  | ChainEvent.PutBucketRevalidated r =>
      stage_bucket inner (PutBucketRevalidated.bucket_id r) sequence batch
  | ChainEvent.PutRfqCreated r =>
      stage_rfq inner (PutRfqCreated.auction_id r) sequence batch
  | ChainEvent.PutRfqSettled s =>
      let batch := stage_rfq inner (PutRfqSettled.auction_id s) sequence batch in
      push_position (put_settled_position_row s sequence tx_digest timestamp_ms) batch
  | ChainEvent.PutRfqExpiredUnsold e =>
      stage_rfq inner (PutRfqExpiredUnsold.auction_id e) sequence batch
  | ChainEvent.TvVaultCreated v =>
      stage_trading_vault inner (TvVaultCreated.vault_id v) sequence batch
  | ChainEvent.TvVaultClosing c =>
      stage_trading_vault inner (TvVaultClosing.vault_id c) sequence batch
  | ChainEvent.TvVaultClosed c =>
      stage_trading_vault inner (TvVaultClosed.vault_id c) sequence batch
  | ChainEvent.TvDepositsPaused p =>
      stage_trading_vault inner (TvDepositsPaused.vault_id p) sequence batch
  | ChainEvent.TvMmReleaseToggled t =>
      stage_trading_vault inner (TvMmReleaseToggled.vault_id t) sequence batch
  | ChainEvent.TvCuratorRotated r =>
      stage_trading_vault inner (TvCuratorRotated.vault_id r) sequence batch
  | ChainEvent.TvDeposited d =>
      stage_trading_vault inner (TvDeposited.vault_id d) sequence batch
  | ChainEvent.TvWithdrawRequested w =>
      let batch := stage_trading_vault inner (TvWithdrawRequested.vault_id w) sequence batch in
      stage_vault_position inner (TvWithdrawRequested.position_id w) sequence batch
  | ChainEvent.TvWithdrawFulfilled w =>
      let batch := stage_trading_vault inner (TvWithdrawFulfilled.vault_id w) sequence batch in
      stage_consumed inner w sequence batch
  | ChainEvent.TvPositionMinted m =>
      stage_vault_position inner (TvPositionMinted.position_id m) sequence batch
  | ChainEvent.TvPositionSplit s =>
      let batch := stage_vault_position inner (TvPositionSplit.parent_id s) sequence batch in
      stage_vault_position inner (TvPositionSplit.child_id s) sequence batch
  | ChainEvent.TvPositionMerged m =>
      let batch := stage_vault_position inner (TvPositionMerged.kept_id m) sequence batch in
      stage_vault_position inner (TvPositionMerged.merged_id m) sequence batch
  | ChainEvent.TvWipedPositionBurned b =>
      stage_vault_position inner (TvWipedPositionBurned.position_id b) sequence batch
  | ChainEvent.TvCapitalSynced c =>
      stage_trading_vault inner (TvCapitalSynced.vault_id c) sequence batch
  | ChainEvent.TvRiskStateChanged r =>
      stage_trading_vault inner (TvRiskStateChanged.vault_id r) sequence batch
  | ChainEvent.TvJuniorResetProposed p =>
      stage_trading_vault inner (TvJuniorResetProposed.vault_id p) sequence batch
  | ChainEvent.TvJuniorResetCancelled c =>
      stage_trading_vault inner (TvJuniorResetCancelled.vault_id c) sequence batch
  | ChainEvent.TvJuniorResetExecuted e =>
      stage_trading_vault inner (TvJuniorResetExecuted.vault_id e) sequence batch
  | ChainEvent.TvSettlementSnapshot s =>
      stage_trading_vault inner (TvSettlementSnapshot.vault_id s) sequence batch
  | ChainEvent.TvSettlementRedeemed r =>
      let batch := stage_trading_vault inner (TvSettlementRedeemed.vault_id r) sequence batch in
      stage_vault_position inner (TvSettlementRedeemed.position_id r) sequence batch
  | ChainEvent.TvPositionStored p =>
      let batch := stage_trading_vault inner (TvPositionStored.vault_id p) sequence batch in
      stage_trading_vault_position inner (TvPositionStored.vault_id p) (TvPositionStored.position_id p) sequence batch
  | ChainEvent.TvPositionRemoved p =>
      let batch := stage_trading_vault inner (TvPositionRemoved.vault_id p) sequence batch in
      stage_trading_vault_position inner (TvPositionRemoved.vault_id p) (TvPositionRemoved.position_id p) sequence batch
  | ChainEvent.TvPositionAppraised a =>
      stage_trading_vault_position inner (TvPositionAppraised.vault_id a) (TvPositionAppraised.position_id a) sequence batch
  | ChainEvent.TvVaultAppraised a =>
      stage_trading_vault inner (TvVaultAppraised.vault_id a) sequence batch
  | ChainEvent.TvExternalAccountSet s =>
      stage_trading_vault inner (TvExternalAccountSet.vault_id s) sequence batch
  | ChainEvent.TvExternalAccountCleared c =>
      stage_trading_vault inner (TvExternalAccountCleared.vault_id c) sequence batch
  | ChainEvent.TvExternalReleased r =>
      stage_trading_vault inner (TvExternalReleased.vault_id r) sequence batch
  | ChainEvent.TvExternalReturned r =>
      stage_trading_vault inner (TvExternalReturned.vault_id r) sequence batch
  | ChainEvent.EquityPosted p =>
      stage_trading_vault inner (EquityPosted.vault_id p) sequence batch
  | ChainEvent.OptionMarketListed m =>
      stage_exchange_market inner m sequence batch
  | _ => batch
  end.

(** * Staging *)

(** [Store::ingest]. *)
Definition ingest (inner : Inner.t) (event : ChainEvent.t) (timestamp_ms : Z) : IndexedEvent.t * Inner.t :=
  let sequence := Inner.next_sequence inner in
  let inner := inner <| Inner.next_sequence ::= λ n, u64_add n 1 |> in
  (IndexedEvent.mk sequence timestamp_ms event, apply_event event timestamp_ms inner).

Context `{EventJson}.

(** One turn of the loop of [stage_batch]; on an error the views keep what was
    applied. *)
Definition stage_one (checkpoint timestamp_ms : Z) (e : ChainEvent.t * rstring * Z)
    (s : Inner.t * CheckpointBatch.t) : Inner.t * result StageError CheckpointBatch.t :=
  let '(event, tx_digest, event_index) := e in
  let '(inner, batch) := s in
  let sequence := Inner.next_sequence inner in
  let inner := inner <| Inner.next_sequence ::= λ n, u64_add n 1 |> in
  let inner := apply_event event timestamp_ms inner in
  let batch := stage_event_into_batch inner event (u64_as_i64 sequence) tx_digest (u64_as_i64 timestamp_ms) batch in
  let batch := collect_participants inner event (u64_as_i64 sequence) batch in
  match new_event_row (u64_as_i64 sequence) (u64_as_i64 checkpoint) tx_digest event_index
          (u64_as_i64 timestamp_ms) event with
  | Err x => (inner, Err x)
  | Ok row => (inner, Ok (batch <| CheckpointBatch.events ::= push row |>))
  end.

Fixpoint stage_loop (checkpoint timestamp_ms : Z) (events : list (ChainEvent.t * rstring * Z))
    (inner : Inner.t) (batch : CheckpointBatch.t) : Inner.t * result StageError CheckpointBatch.t :=
  match events with
  | [] => (inner, Ok batch)
  | e :: events =>
      match stage_one checkpoint timestamp_ms e (inner, batch) with
      | (inner, Err x) => (inner, Err x)
      | (inner, Ok batch) => stage_loop checkpoint timestamp_ms events inner batch
      end
  end.

Definition last_sequence (inner : Inner.t) : Z := u64_as_i64 (u64_sub (Inner.next_sequence inner) 1).

(** [Store::stage_batch]: the views after it, and the rows to write.  The list
    of [IndexedEvent]s, which only the log uses, is left out. *)
Definition stage_batch (checkpoint timestamp_ms : Z) (events : list (ChainEvent.t * rstring * Z))
    (inner : Inner.t) : Inner.t * result StageError CheckpointBatch.t :=
  match events with
  | [] => (inner, Ok (CheckpointBatch.empty (u64_as_i64 checkpoint) (last_sequence inner)))
  | _ =>
      match stage_loop checkpoint timestamp_ms events inner (CheckpointBatch.empty (u64_as_i64 checkpoint) 0) with
      | (inner, Err x) => (inner, Err x)
      | (inner, Ok batch) => (inner, Ok (batch <| CheckpointBatch.last_sequence := last_sequence inner |>))
      end
  end.
End stage.
