(* ===== verification/IndexerRepo.v ===== *)
(** The indexer's repository over Postgres
    ([services/indexer/src/db/repo.rs], the tables of [db/migrations]) and the
    boot of the indexer ([main.rs]).  A table is a map from its primary key; the
    constraints of the migrations that can refuse or skip a row are written out:
    the unique keys behind [ON CONFLICT DO NOTHING] and the foreign keys. *)

From S2P Require Import Prelude RecordUpdate RustStr ExchangeTypes Json Quote IndexerEvents IndexerStore IndexerRows IndexerStage.

(** * Tables *)

Module Database.
Record t := mk {
  indexed_events : gmap Z NewIndexedEventRow.t;
  event_participants : gset (Z * rstring * rstring);
  accounts : gmap rstring AccountRow.t;
  buckets : gmap rstring BucketRow.t;
  bucket_deepbook_pools : gmap rstring DeepBookPoolRow.t;
  exchange_market_links : gmap rstring ExchangeMarketLinkRow.t;
  positions : gmap (rstring * Z) PositionRow.t;
  rfqs : gmap rstring RfqRow.t;
  rfq_bids : gmap (rstring * Z) RfqBidRow.t;
  vaults : gmap rstring VaultRow.t;
  vault_rounds : gmap (rstring * Z) VaultRoundRow.t;
  vault_user_receipts : gmap (rstring * rstring * Z * rstring) VaultReceiptRow.t;
  trading_vaults : gmap rstring TradingVaultRow.t;
  trading_vault_positions : gmap (rstring * rstring) TradingVaultPositionRow.t;
  vault_positions : gmap rstring VaultPositionRow.t;
  indexer_progress : option (Z * Z)
}.
#[global] Instance expand : Fields t := λ s, mk
  (indexed_events s) (event_participants s) (accounts s) (buckets s) (bucket_deepbook_pools s)
  (exchange_market_links s) (positions s) (rfqs s) (rfq_bids s) (vaults s) (vault_rounds s)
  (vault_user_receipts s) (trading_vaults s) (trading_vault_positions s) (vault_positions s)
  (indexer_progress s).

(** A database the migrations have just created. *)
Definition fresh : t := mk ∅ ∅ ∅ ∅ ∅ ∅ ∅ ∅ ∅ ∅ ∅ ∅ ∅ ∅ ∅ None.
End Database.

Inductive DbError :=
  | Unavailable
  | ForeignKeyViolation (table : rstring).

(** * Statements *)

Section statements.
Context {K R : Type} `{Countable K} (pk : R → K).

(** [INSERT ... ON CONFLICT (pk) DO UPDATE SET ...]: [set new old] is the row
    left by a conflict. *)
Definition upsert (set : R → R → R) (r : R) (t : gmap K R) : gmap K R :=
  match t !! pk r with
  | Some old => <[pk r := set r old]> t
  | None => <[pk r := r]> t
  end.

Definition upsert_all (set : R → R → R) (rows : list R) (t : gmap K R) : gmap K R :=
  foldl (λ t r, upsert set r t) t rows.

(** [INSERT ... ON CONFLICT DO NOTHING]: a row is skipped when its primary key
    is taken, or when it agrees with a row of the table on a unique key. *)
Definition insert_or_skip (clash : R → R → bool) (r : R) (t : gmap K R) : gmap K R :=
  if bool_decide (is_Some (t !! pk r)) || existsb (clash r) (map_to_list t).*2 then t
  else <[pk r := r]> t.

Definition insert_all_or_skip (clash : R → R → bool) (rows : list R) (t : gmap K R) : gmap K R :=
  foldl (λ t r, insert_or_skip clash r t) t rows.
End statements.

Definition never {R} (r s : R) : bool := false.

(** ** Keys and updated columns *)

(** [UNIQUE (checkpoint, tx_digest, event_index)]. *)
Definition same_event (r s : NewIndexedEventRow.t) : bool :=
  bool_decide (NewIndexedEventRow.checkpoint r = NewIndexedEventRow.checkpoint s) &&
  bool_decide (NewIndexedEventRow.tx_digest r = NewIndexedEventRow.tx_digest s) &&
  bool_decide (NewIndexedEventRow.event_index r = NewIndexedEventRow.event_index s).

(** [pool_id UNIQUE] and [registry_id UNIQUE]. *)
Definition same_pool (r s : DeepBookPoolRow.t) : bool :=
  bool_decide (DeepBookPoolRow.pool_id r = DeepBookPoolRow.pool_id s).
Definition same_registry (r s : ExchangeMarketLinkRow.t) : bool :=
  bool_decide (ExchangeMarketLinkRow.registry_id r = ExchangeMarketLinkRow.registry_id s).

Definition position_pk (r : PositionRow.t) := (PositionRow.bucket_id r, PositionRow.range_start r).
Definition round_pk (r : VaultRoundRow.t) := (VaultRoundRow.vault_id r, VaultRoundRow.round r).
Definition receipt_pk (r : VaultReceiptRow.t) :=
  (VaultReceiptRow.vault_id r, VaultReceiptRow.owner r, VaultReceiptRow.round r, VaultReceiptRow.kind r).
Definition tv_position_pk (r : TradingVaultPositionRow.t) :=
  (TradingVaultPositionRow.vault_id r, TradingVaultPositionRow.position_id r).
Definition bid_pk (r : RfqBidRow.t) := (RfqBidRow.rfq_id r, RfqBidRow.sequence r).

Definition set_account (r old : AccountRow.t) : AccountRow.t :=
  old <| AccountRow.owner := AccountRow.owner r |>
      <| AccountRow.signing_pubkey := AccountRow.signing_pubkey r |>
      <| AccountRow.signing_scheme := AccountRow.signing_scheme r |>
      <| AccountRow.updated_at_seq := AccountRow.updated_at_seq r |>.

Definition set_bucket (r old : BucketRow.t) : BucketRow.t :=
  old <| BucketRow.total_written := BucketRow.total_written r |>
      <| BucketRow.exercise_cursor := BucketRow.exercise_cursor r |>
      <| BucketRow.cleaned := BucketRow.cleaned r |>
      <| BucketRow.invalidated := BucketRow.invalidated r |>
      <| BucketRow.updated_at_seq := BucketRow.updated_at_seq r |>.

Definition set_position (r old : PositionRow.t) : PositionRow.t :=
  old <| PositionRow.range_end := PositionRow.range_end r |>
      <| PositionRow.recipient := PositionRow.recipient r |>
      <| PositionRow.updated_at_seq := PositionRow.updated_at_seq r |>.

Definition set_rfq (r old : RfqRow.t) : RfqRow.t :=
  old <| RfqRow.bucket_id := RfqRow.bucket_id r |>
      <| RfqRow.meta_id := RfqRow.meta_id r |>
      <| RfqRow.origin := RfqRow.origin r |>
      <| RfqRow.amount := RfqRow.amount r |>
      <| RfqRow.reserve_premium := RfqRow.reserve_premium r |>
      <| RfqRow.deadline_ms := RfqRow.deadline_ms r |>
      <| RfqRow.best_premium := RfqRow.best_premium r |>
      <| RfqRow.best_bidder := RfqRow.best_bidder r |>
      <| RfqRow.status := RfqRow.status r |>
      <| RfqRow.winner := RfqRow.winner r |>
      <| RfqRow.net_premium := RfqRow.net_premium r |>
      <| RfqRow.position_id := RfqRow.position_id r |>
      <| RfqRow.gross_premium := RfqRow.gross_premium r |>
      <| RfqRow.fee := RfqRow.fee r |>
      <| RfqRow.auction_kind := RfqRow.auction_kind r |>
      <| RfqRow.updated_at_seq := RfqRow.updated_at_seq r |>.

Definition set_vault (r old : VaultRow.t) : VaultRow.t :=
  old <| VaultRow.round := VaultRow.round r |>
      <| VaultRow.current_bucket := VaultRow.current_bucket r |>
      <| VaultRow.latest_pps := VaultRow.latest_pps r |>
      <| VaultRow.total_shares := VaultRow.total_shares r |>
      <| VaultRow.pending_deposits := VaultRow.pending_deposits r |>
      <| VaultRow.deposits_paused := VaultRow.deposits_paused r |>
      <| VaultRow.updated_at_seq := VaultRow.updated_at_seq r |>.

Definition set_vault_round (r old : VaultRoundRow.t) : VaultRoundRow.t :=
  old <| VaultRoundRow.bucket_id := VaultRoundRow.bucket_id r |>
      <| VaultRoundRow.strike := VaultRoundRow.strike r |>
      <| VaultRoundRow.strike_scale := VaultRoundRow.strike_scale r |>
      <| VaultRoundRow.expiry_ms := VaultRoundRow.expiry_ms r |>
      <| VaultRoundRow.pps := VaultRoundRow.pps r |>
      <| VaultRoundRow.aum := VaultRoundRow.aum r |>
      <| VaultRoundRow.shares := VaultRoundRow.shares r |>
      <| VaultRoundRow.premium_collected := VaultRoundRow.premium_collected r |>
      <| VaultRoundRow.mgmt_fee := VaultRoundRow.mgmt_fee r |>
      <| VaultRoundRow.perf_fee := VaultRoundRow.perf_fee r |>
      <| VaultRoundRow.finalized_at_ms := VaultRoundRow.finalized_at_ms r |>
      <| VaultRoundRow.updated_at_seq := VaultRoundRow.updated_at_seq r |>.

Definition set_receipt (r old : VaultReceiptRow.t) : VaultReceiptRow.t :=
  old <| VaultReceiptRow.amount := VaultReceiptRow.amount r |>
      <| VaultReceiptRow.settled := VaultReceiptRow.settled r |>
      <| VaultReceiptRow.updated_at_seq := VaultReceiptRow.updated_at_seq r |>.

(** [AsChangeset] with [treat_none_as_null]: every column. *)
Definition set_all {R} (r old : R) : R := r.

Definition set_tv_position (r old : TradingVaultPositionRow.t) : TradingVaultPositionRow.t :=
  old <| TradingVaultPositionRow.active := TradingVaultPositionRow.active r |>
      <| TradingVaultPositionRow.removed_at_ms := TradingVaultPositionRow.removed_at_ms r |>
      <| TradingVaultPositionRow.updated_at_seq := TradingVaultPositionRow.updated_at_seq r |>
      <| TradingVaultPositionRow.last_value := TradingVaultPositionRow.last_value r |>
      <| TradingVaultPositionRow.last_appraised_at_ms := TradingVaultPositionRow.last_appraised_at_ms r |>.

(** ** Foreign keys *)

(** A row that an [INSERT] adds must point at a row of the other table. *)
Definition references {K R} `{Countable K} {L S} `{Countable L} (table : rstring) (fk : R → L) (parent : gmap L S)
    (before after : gmap K R) : result DbError (gmap K R) :=
  if forallb (λ '(k, r), bool_decide (is_Some (before !! k)) || bool_decide (is_Some (parent !! fk r)))
       (map_to_list after)
  then Ok after else Err (ForeignKeyViolation table).

Definition insert_participants (rows : list EventParticipantRow.t) (db : Database.t) : result DbError Database.t :=
  let keys := (λ r, (EventParticipantRow.sequence r, EventParticipantRow.address r, EventParticipantRow.role r)) <$> rows in
  let added := List.filter (λ k, negb (bool_decide (k ∈ Database.event_participants db))) keys in
  if forallb (λ k, bool_decide (is_Some (Database.indexed_events db !! k.1.1))) added
  then Ok (db <| Database.event_participants ::= λ t, t ∪ list_to_set added |>)
  else Err (ForeignKeyViolation (str "event_participants")).

Definition insert_pools (rows : list DeepBookPoolRow.t) (db : Database.t) : result DbError Database.t :=
  let before := Database.bucket_deepbook_pools db in
  let after := insert_all_or_skip DeepBookPoolRow.bucket_id same_pool rows before in
  t ← references (str "bucket_deepbook_pools") DeepBookPoolRow.bucket_id (Database.buckets db) before after;
  Ok (db <| Database.bucket_deepbook_pools := t |>).

Definition insert_markets (rows : list ExchangeMarketLinkRow.t) (db : Database.t) : result DbError Database.t :=
  let before := Database.exchange_market_links db in
  let after := insert_all_or_skip ExchangeMarketLinkRow.bucket_id same_registry rows before in
  t ← references (str "exchange_market_links") ExchangeMarketLinkRow.bucket_id (Database.buckets db) before after;
  Ok (db <| Database.exchange_market_links := t |>).

Definition insert_bids (rows : list RfqBidRow.t) (db : Database.t) : result DbError Database.t :=
  let before := Database.rfq_bids db in
  let after := insert_all_or_skip bid_pk never rows before in
  t ← references (str "rfq_bids") RfqBidRow.sequence (Database.indexed_events db) before after;
  Ok (db <| Database.rfq_bids := t |>).

Definition delete_positions (keys : list (rstring * Z)) (t : gmap (rstring * Z) PositionRow.t) :
    gmap (rstring * Z) PositionRow.t :=
  foldl (λ t k, delete k t) t keys.

(** * The repository *)

Definition advance_progress (checkpoint last_sequence : Z) (db : Database.t) : Database.t :=
  db <| Database.indexer_progress := Some (checkpoint, last_sequence) |>.

(** One transaction: an error leaves the database as it was. *)
Definition apply_checkpoint (batch : CheckpointBatch.t) (db : Database.t) : result DbError Database.t :=
  if CheckpointBatch.is_empty batch then
    Ok (advance_progress (CheckpointBatch.checkpoint batch) (CheckpointBatch.last_sequence batch) db)
  else
    let db := db <| Database.indexed_events ::=
      insert_all_or_skip NewIndexedEventRow.sequence same_event (CheckpointBatch.events batch) |> in
    db ← insert_participants (CheckpointBatch.event_participants batch) db;
    let db := db <| Database.accounts ::=
      upsert_all AccountRow.account_id set_account (CheckpointBatch.accounts batch) |> in
    let db := db <| Database.buckets ::=
      upsert_all BucketRow.bucket_id set_bucket (CheckpointBatch.buckets batch) |> in
    db ← insert_pools (CheckpointBatch.deepbook_pools batch) db;
    db ← insert_markets (CheckpointBatch.exchange_markets batch) db;
    let db := db <| Database.positions ::=
      upsert_all position_pk set_position (CheckpointBatch.position_upserts batch) |> in
    let db := db <| Database.positions ::= delete_positions (CheckpointBatch.position_deletes batch) |> in
    let db := db <| Database.rfqs ::= upsert_all RfqRow.rfq_id set_rfq (CheckpointBatch.rfqs batch) |> in
    db ← insert_bids (CheckpointBatch.rfq_bids batch) db;
    let db := db <| Database.vaults ::= upsert_all VaultRow.vault_id set_vault (CheckpointBatch.vaults batch) |> in
    let db := db <| Database.vault_rounds ::=
      upsert_all round_pk set_vault_round (CheckpointBatch.vault_rounds batch) |> in
    let db := db <| Database.vault_user_receipts ::=
      upsert_all receipt_pk set_receipt (CheckpointBatch.vault_receipts batch) |> in
    let db := db <| Database.trading_vaults ::=
      upsert_all TradingVaultRow.vault_id set_all (CheckpointBatch.trading_vaults batch) |> in
    let db := db <| Database.trading_vault_positions ::=
      upsert_all tv_position_pk set_tv_position (CheckpointBatch.trading_vault_positions batch) |> in
    let db := db <| Database.vault_positions ::=
      upsert_all VaultPositionRow.position_id set_all (CheckpointBatch.vault_positions batch) |> in
    Ok (advance_progress (CheckpointBatch.checkpoint batch) (CheckpointBatch.last_sequence batch) db).

Definition load_progress (db : Database.t) : option (Z * Z) := Database.indexer_progress db.

(** * Reading the views back *)

(** The rows of a table, read into a map. *)
Definition load_view {K R L V} `{Countable K, Countable L} (into_state : R → result RowError (L * V))
    (t : gmap K R) : result RowError (gmap L V) :=
  foldl (λ acc r, m ← acc; kv ← into_state r; Ok (<[kv.1 := kv.2]> m)) (Ok ∅) (map_to_list t).*2.

Module HydratedViews.
Record t := mk {
  accounts : gmap ObjectId AccountState.t;
  buckets : gmap ObjectId BucketState.t;
  positions : gmap (ObjectId * Z) PositionState.t;
  deepbook_pools : gmap ObjectId DeepBookPoolState.t;
  exchange_markets : gmap ObjectId ExchangeMarketState.t;
  rfqs : gmap ObjectId RfqState.t;
  vaults : gmap ObjectId VaultState.t;
  vault_rounds : gmap (ObjectId * Z) VaultRoundState.t;
  vault_receipts : gmap ReceiptKey ReceiptState.t;
  trading_vaults : gmap ObjectId TradingVaultState.t;
  trading_vault_positions : gmap (ObjectId * ObjectId) TradingVaultPositionState.t;
  vault_positions : gmap ObjectId VaultPositionState.t
}.
End HydratedViews.

Section hydrate.
Context `{HexCrate}.

(** [Repo::hydrate]. *)
Definition hydrate (db : Database.t) : result RowError HydratedViews.t :=
  acct_map ← load_view account_row_into_state (Database.accounts db);
  bucket_map ← load_view BucketRow_into_state (Database.buckets db);
  position_map ← load_view PositionRow_into_state (Database.positions db);
  deepbook_map ← load_view DeepBookPoolRow_into_state (Database.bucket_deepbook_pools db);
  exchange_market_map ← load_view ExchangeMarketLinkRow_into_state (Database.exchange_market_links db);
  rfq_map ← load_view RfqRow_into_state (Database.rfqs db);
  vault_map ← load_view VaultRow_into_state (Database.vaults db);
  round_map ← load_view VaultRoundRow_into_state (Database.vault_rounds db);
  receipt_map ← load_view VaultReceiptRow_into_state (Database.vault_user_receipts db);
  trading_vault_map ← load_view TradingVaultRow_into_state (Database.trading_vaults db);
  trading_vault_position_map ← load_view TradingVaultPositionRow_into_state (Database.trading_vault_positions db);
  vault_position_map ← load_view VaultPositionRow_into_state (Database.vault_positions db);
  Ok (HydratedViews.mk acct_map bucket_map position_map deepbook_map exchange_market_map rfq_map vault_map
        round_map receipt_map trading_vault_map trading_vault_position_map vault_position_map).

(** [Store::hydrate]. *)
Definition Store_hydrate (views : HydratedViews.t) (last_sequence : Z) : Inner.t := {|
  Inner.accounts := HydratedViews.accounts views;
  Inner.buckets := HydratedViews.buckets views;
  Inner.positions := HydratedViews.positions views;
  Inner.deepbook_pools := HydratedViews.deepbook_pools views;
  Inner.exchange_markets := HydratedViews.exchange_markets views;
  Inner.rfqs := HydratedViews.rfqs views;
  Inner.vaults := HydratedViews.vaults views;
  Inner.vault_rounds := HydratedViews.vault_rounds views;
  Inner.vault_receipts := HydratedViews.vault_receipts views;
  Inner.trading_vaults := HydratedViews.trading_vaults views;
  Inner.trading_vault_positions := HydratedViews.trading_vault_positions views;
  Inner.vault_positions := HydratedViews.vault_positions views;
  Inner.next_sequence := u64_add last_sequence 1
|}.

(** The boot of [main.rs]: the store it ingests into, and the checkpoint it
    starts from ([tip] is the answer of the chain). *)
Definition boot (db : Database.t) (cfg_start_checkpoint : option Z) (tip : Z) : result RowError (Inner.t * Z) :=
  let progress := load_progress db in
  views ← hydrate db;
  let last_persisted_sequence := match progress with Some p => i64_as_u64 p.2 | None => 0 end in
  let start_checkpoint :=
    match progress with
    | Some p => u64_add (i64_as_u64 p.1) 1
    | None => match cfg_start_checkpoint with Some s => s | None => tip end
    end in
  Ok (Store_hydrate views last_persisted_sequence, start_checkpoint).
End hydrate.
