(* ===== verification/IndexerTypes.v ===== *)
(** The event types the indexer subscribes to and how an event of the chain is
    decoded ([services/indexer/src/event_types.rs]).  The [bcs] crate is a
    parameter: a decoder for each type. *)

From S2P Require Import Prelude RecordUpdate RustStr ExchangeTypes MoveType Asset Json Quote IndexerEvents.

(** * Package ids and type strings *)

Module PackageIds.
Record t := mk {
  core : rstring; auction : option rstring; rfq : option rstring; vault : option rstring;
  trading_vault : option rstring; deepbook_adapter : option rstring; options_adapter : option rstring;
  exchange_adapter : option rstring; equity_oracle : option rstring; exchange_listing : option rstring;
  exchange : option rstring
}.
End PackageIds.

Module EventTypes.
Record t := mk {
  bucket_created : rstring; write_executed : rstring; exercised : rstring; redeemed : rstring;
  expired_option_burned : rstring; bucket_cleaned : rstring; bucket_invalidated : rstring;
  bucket_revalidated : rstring; signer_created : rstring; signing_key_rotated : rstring;
  fee_updated : rstring; treasury_withdrawn : rstring; collateralized_write : rstring;
  auction_created : rstring; auction_bid : rstring; auction_settled : rstring; auction_unfilled : rstring;
  rfq_created : rstring; rfq_settled : rstring; rfq_expired_unsold : rstring; vault_rfq_settled : rstring;
  vault_rfq_unsold : rstring; swap_rfq_settled : rstring; swap_rfq_unfilled : rstring;
  vault_created : rstring; vault_deposit : rstring; shares_claimed : rstring; withdraw_initiated : rstring;
  withdraw_completed : rstring; instant_withdraw : rstring; vault_bucket_selected : rstring;
  vault_position_redeemed : rstring; vault_fees_charged : rstring; vault_round_finalized : rstring;
  vault_config_updated : rstring; vault_config_applied : rstring; vault_deposits_paused : rstring;
  put_bucket_created : rstring; put_write_executed : rstring; put_collateralized_write : rstring;
  put_exercised : rstring; put_redeemed : rstring; put_expired_option_burned : rstring;
  put_bucket_cleaned : rstring; put_bucket_invalidated : rstring; put_bucket_revalidated : rstring;
  put_rfq_created : rstring; put_rfq_settled : rstring; put_rfq_expired_unsold : rstring;
  offset_closed : rstring; spread_written : rstring; spread_unwound : rstring; spread_closed : rstring;
  spread_redeemed : rstring; deepbook_pool_created_prefix : option rstring;
  deepbook_order_filled : option rstring; tv_vault_created : rstring; tv_vault_closing : rstring;
  tv_vault_closed : rstring; tv_deposits_paused : rstring; tv_mm_release_toggled : rstring;
  tv_curator_rotated : rstring; tv_deposited : rstring; tv_withdraw_requested : rstring;
  tv_withdraw_fulfilled : rstring; tv_position_minted : rstring; tv_position_split : rstring;
  tv_position_merged : rstring; tv_wiped_position_burned : rstring; tv_capital_synced : rstring;
  tv_risk_state_changed : rstring; tv_junior_reset_proposed : rstring; tv_junior_reset_cancelled : rstring;
  tv_junior_reset_executed : rstring; tv_commitment_released : rstring; tv_settlement_snapshot : rstring;
  tv_settlement_redeemed : rstring; tv_settlement_curator_fees_claimed : rstring;
  tv_deposit_asset_added : rstring; tv_deposit_asset_removed : rstring; tv_haircuts_set : rstring;
  tv_payout_asset_amended : rstring; tv_session_settled : rstring; tv_position_stored : rstring;
  tv_position_removed : rstring; tv_position_appraised : rstring; tv_vault_appraised : rstring;
  tv_adapter_allowed : rstring; tv_adapter_disallowed : rstring; tv_oracle_allowed : rstring;
  tv_oracle_disallowed : rstring; tv_protocol_config_updated : rstring; tv_collateral_released : rstring;
  tv_custody_created : rstring; tv_exchange_custody_created : rstring; tv_vault_quote_filled : rstring;
  tv_quote_adapter_added : rstring; tv_quote_adapter_removed : rstring; tv_pool_allowed : rstring;
  tv_pool_disallowed : rstring; tv_rfq_opened : rstring; tv_rfq_settled : rstring;
  tv_position_redeemed : rstring; tv_mm_coin_exercised : rstring; tv_mm_offset_closed : rstring;
  tv_mm_coin_released : rstring; tv_taker_swap_executed : rstring; tv_bid_placed : rstring;
  tv_bid_reclaimed : rstring; tv_bid_redeemed : rstring; tv_external_account_set : rstring;
  tv_external_account_cleared : rstring; tv_external_released : rstring; tv_external_returned : rstring;
  equity_posted : rstring; put_spread_written : rstring; put_spread_exercised : rstring;
  put_spread_closed : rstring; put_spread_redeemed : rstring; vol_posted : rstring;
  option_market_listed : rstring; exchange_fill : rstring
}.
End EventTypes.

Definition EVENTS_MODULE : rstring := str "events".

(** [format!("{pkg}::{module}::{name}")]; a package that is not deployed gives a
    string that no event has. *)
Definition move_type (pkg module name : rstring) : rstring := pkg ++ str "::" ++ module ++ str "::" ++ name.

Definition deployed (pkg : option rstring) (module name : rstring) : rstring :=
  match pkg with
  | Some pkg => move_type pkg module name
  | None => move_type (str "unset") module name
  end.

Definition for_packages (pkgs : PackageIds.t) (deepbook_original_package_id : option rstring) : EventTypes.t :=
  let core name := move_type (PackageIds.core pkgs) EVENTS_MODULE (str name) in
  let auction name := deployed (PackageIds.auction pkgs) EVENTS_MODULE (str name) in
  let rfq name := deployed (PackageIds.rfq pkgs) EVENTS_MODULE (str name) in
  let vault name := deployed (PackageIds.vault pkgs) EVENTS_MODULE (str name) in
  let tv name := deployed (PackageIds.trading_vault pkgs) EVENTS_MODULE (str name) in
  let tv_mm name := deployed (PackageIds.trading_vault pkgs) (str "vault_mm") (str name) in
  let dba name := deployed (PackageIds.deepbook_adapter pkgs) (str "deepbook_adapter") (str name) in
  let oa name := deployed (PackageIds.options_adapter pkgs) (str "options_adapter") (str name) in
  let ea name := deployed (PackageIds.exchange_adapter pkgs) (str "exchange_adapter") (str name) in
  let eo name := deployed (PackageIds.equity_oracle pkgs) (str "equity_oracle") (str name) in
  let vb name := deployed (PackageIds.options_adapter pkgs) (str "vol_book") (str name) in
  let el name := deployed (PackageIds.exchange_listing pkgs) (str "exchange_listing") (str name) in
  let exch name := deployed (PackageIds.exchange pkgs) (str "settlement") (str name) in
  {|
    EventTypes.bucket_created := core "BucketCreated"%string;
    EventTypes.write_executed := core "WriteExecuted"%string;
    EventTypes.exercised := core "Exercised"%string;
    EventTypes.redeemed := core "Redeemed"%string;
    EventTypes.expired_option_burned := core "ExpiredOptionBurned"%string;
    EventTypes.bucket_cleaned := core "BucketCleaned"%string;
    EventTypes.bucket_invalidated := core "BucketInvalidated"%string;
    EventTypes.bucket_revalidated := core "BucketRevalidated"%string;
    EventTypes.signer_created := core "SignerCreated"%string;
    EventTypes.signing_key_rotated := core "SigningKeyRotated"%string;
    EventTypes.fee_updated := core "FeeUpdated"%string;
    EventTypes.treasury_withdrawn := core "TreasuryWithdrawn"%string;
    EventTypes.collateralized_write := core "CollateralizedWrite"%string;
    EventTypes.auction_created := auction "AuctionCreated"%string;
    EventTypes.auction_bid := auction "AuctionBid"%string;
    EventTypes.auction_settled := auction "AuctionSettled"%string;
    EventTypes.auction_unfilled := auction "AuctionUnfilled"%string;
    EventTypes.rfq_created := rfq "RfqCreated"%string;
    EventTypes.rfq_settled := rfq "RfqSettled"%string;
    EventTypes.rfq_expired_unsold := rfq "RfqExpiredUnsold"%string;
    EventTypes.vault_rfq_settled := vault "VaultRfqSettled"%string;
    EventTypes.vault_rfq_unsold := vault "VaultRfqUnsold"%string;
    EventTypes.swap_rfq_settled := vault "SwapRfqSettled"%string;
    EventTypes.swap_rfq_unfilled := vault "SwapRfqUnfilled"%string;
    EventTypes.vault_created := vault "VaultCreated"%string;
    EventTypes.vault_deposit := vault "VaultDeposit"%string;
    EventTypes.shares_claimed := vault "SharesClaimed"%string;
    EventTypes.withdraw_initiated := vault "WithdrawInitiated"%string;
    EventTypes.withdraw_completed := vault "WithdrawCompleted"%string;
    EventTypes.instant_withdraw := vault "InstantWithdraw"%string;
    EventTypes.vault_bucket_selected := vault "VaultBucketSelected"%string;
    EventTypes.vault_position_redeemed := vault "VaultPositionRedeemed"%string;
    EventTypes.vault_fees_charged := vault "VaultFeesCharged"%string;
    EventTypes.vault_round_finalized := vault "VaultRoundFinalized"%string;
    EventTypes.vault_config_updated := vault "VaultConfigUpdated"%string;
    EventTypes.vault_config_applied := vault "VaultConfigApplied"%string;
    EventTypes.vault_deposits_paused := vault "VaultDepositsPaused"%string;
    EventTypes.put_bucket_created := core "PutBucketCreated"%string;
    EventTypes.put_write_executed := core "PutWriteExecuted"%string;
    EventTypes.put_collateralized_write := core "PutCollateralizedWrite"%string;
    EventTypes.put_exercised := core "PutExercised"%string;
    EventTypes.put_redeemed := core "PutRedeemed"%string;
    EventTypes.put_expired_option_burned := core "PutExpiredOptionBurned"%string;
    EventTypes.put_bucket_cleaned := core "PutBucketCleaned"%string;
    EventTypes.put_bucket_invalidated := core "PutBucketInvalidated"%string;
    EventTypes.put_bucket_revalidated := core "PutBucketRevalidated"%string;
    EventTypes.put_rfq_created := rfq "PutRfqCreated"%string;
    EventTypes.put_rfq_settled := rfq "PutRfqSettled"%string;
    EventTypes.put_rfq_expired_unsold := rfq "PutRfqExpiredUnsold"%string;
    EventTypes.offset_closed := core "OffsetClosed"%string;
    EventTypes.spread_written := core "SpreadWritten"%string;
    EventTypes.spread_unwound := core "SpreadUnwound"%string;
    EventTypes.spread_closed := core "SpreadClosed"%string;
    EventTypes.spread_redeemed := core "SpreadRedeemed"%string;
    EventTypes.deepbook_pool_created_prefix := (λ pkg, pkg ++ str "::pool::PoolCreated<") <$> deepbook_original_package_id;
    EventTypes.deepbook_order_filled := (λ pkg, pkg ++ str "::order_info::OrderFilled") <$> deepbook_original_package_id;
    EventTypes.tv_vault_created := tv "VaultCreated"%string;
    EventTypes.tv_vault_closing := tv "VaultClosing"%string;
    EventTypes.tv_vault_closed := tv "VaultClosed"%string;
    EventTypes.tv_deposits_paused := tv "DepositsPaused"%string;
    EventTypes.tv_mm_release_toggled := tv "MmReleaseToggled"%string;
    EventTypes.tv_curator_rotated := tv "CuratorRotated"%string;
    EventTypes.tv_deposited := tv "Deposited"%string;
    EventTypes.tv_withdraw_requested := tv "WithdrawRequested"%string;
    EventTypes.tv_withdraw_fulfilled := tv "WithdrawFulfilled"%string;
    EventTypes.tv_position_minted := tv "PositionMinted"%string;
    EventTypes.tv_position_split := tv "PositionSplit"%string;
    EventTypes.tv_position_merged := tv "PositionMerged"%string;
    EventTypes.tv_wiped_position_burned := tv "WipedPositionBurned"%string;
    EventTypes.tv_capital_synced := tv "CapitalSynced"%string;
    EventTypes.tv_risk_state_changed := tv "RiskStateChanged"%string;
    EventTypes.tv_junior_reset_proposed := tv "JuniorResetProposed"%string;
    EventTypes.tv_junior_reset_cancelled := tv "JuniorResetCancelled"%string;
    EventTypes.tv_junior_reset_executed := tv "JuniorResetExecuted"%string;
    EventTypes.tv_commitment_released := tv "CommitmentReleased"%string;
    EventTypes.tv_settlement_snapshot := tv "SettlementSnapshot"%string;
    EventTypes.tv_settlement_redeemed := tv "SettlementRedeemed"%string;
    EventTypes.tv_settlement_curator_fees_claimed := tv "SettlementCuratorFeesClaimed"%string;
    EventTypes.tv_deposit_asset_added := tv "DepositAssetAdded"%string;
    EventTypes.tv_deposit_asset_removed := tv "DepositAssetRemoved"%string;
    EventTypes.tv_haircuts_set := tv "HaircutsSet"%string;
    EventTypes.tv_payout_asset_amended := tv "PayoutAssetAmended"%string;
    EventTypes.tv_session_settled := tv "SessionSettled"%string;
    EventTypes.tv_position_stored := tv "PositionStored"%string;
    EventTypes.tv_position_removed := tv "PositionRemoved"%string;
    EventTypes.tv_position_appraised := tv "PositionAppraised"%string;
    EventTypes.tv_vault_appraised := tv "VaultAppraised"%string;
    EventTypes.tv_adapter_allowed := tv "AdapterAllowed"%string;
    EventTypes.tv_adapter_disallowed := tv "AdapterDisallowed"%string;
    EventTypes.tv_oracle_allowed := tv "OracleAllowed"%string;
    EventTypes.tv_oracle_disallowed := tv "OracleDisallowed"%string;
    EventTypes.tv_protocol_config_updated := tv "ProtocolConfigUpdated"%string;
    EventTypes.tv_collateral_released := tv_mm "CollateralReleased"%string;
    EventTypes.tv_custody_created := dba "CustodyCreated"%string;
    EventTypes.tv_exchange_custody_created := ea "CustodyCreated"%string;
    EventTypes.tv_vault_quote_filled := ea "VaultQuoteFilled"%string;
    EventTypes.tv_quote_adapter_added := tv "QuoteAdapterAdded"%string;
    EventTypes.tv_quote_adapter_removed := tv "QuoteAdapterRemoved"%string;
    EventTypes.tv_pool_allowed := dba "PoolAllowed"%string;
    EventTypes.tv_pool_disallowed := dba "PoolDisallowed"%string;
    EventTypes.tv_rfq_opened := oa "RfqOpened"%string;
    EventTypes.tv_rfq_settled := oa "RfqSettled"%string;
    EventTypes.tv_position_redeemed := oa "PositionRedeemed"%string;
    EventTypes.tv_mm_coin_exercised := tv "MmCoinExercised"%string;
    EventTypes.tv_mm_offset_closed := tv "MmOffsetClosed"%string;
    EventTypes.tv_mm_coin_released := tv "MmCoinReleased"%string;
    EventTypes.tv_taker_swap_executed := dba "TakerSwapExecuted"%string;
    EventTypes.tv_bid_placed := oa "BidPlaced"%string;
    EventTypes.tv_bid_reclaimed := oa "BidReclaimed"%string;
    EventTypes.tv_bid_redeemed := oa "BidRedeemed"%string;
    EventTypes.tv_external_account_set := tv "ExternalAccountSet"%string;
    EventTypes.tv_external_account_cleared := tv "ExternalAccountCleared"%string;
    EventTypes.tv_external_released := tv "ExternalReleased"%string;
    EventTypes.tv_external_returned := tv "ExternalReturned"%string;
    EventTypes.equity_posted := eo "EquityPosted"%string;
    EventTypes.put_spread_written := core "PutSpreadWritten"%string;
    EventTypes.put_spread_exercised := core "PutSpreadExercised"%string;
    EventTypes.put_spread_closed := core "PutSpreadClosed"%string;
    EventTypes.put_spread_redeemed := core "PutSpreadRedeemed"%string;
    EventTypes.vol_posted := vb "VolPosted"%string;
    EventTypes.option_market_listed := el "OptionMarketListed"%string;
    EventTypes.exchange_fill := exch "FillEvent"%string
  |}.

Definition all_strings (types : EventTypes.t) : list rstring := [
  EventTypes.bucket_created types;
  EventTypes.write_executed types;
  EventTypes.exercised types;
  EventTypes.redeemed types;
  EventTypes.expired_option_burned types;
  EventTypes.bucket_cleaned types;
  EventTypes.bucket_invalidated types;
  EventTypes.bucket_revalidated types;
  EventTypes.signer_created types;
  EventTypes.signing_key_rotated types;
  EventTypes.fee_updated types;
  EventTypes.treasury_withdrawn types;
  EventTypes.collateralized_write types;
  EventTypes.auction_created types;
  EventTypes.auction_bid types;
  EventTypes.auction_settled types;
  EventTypes.auction_unfilled types;
  EventTypes.rfq_created types;
  EventTypes.rfq_settled types;
  EventTypes.rfq_expired_unsold types;
  EventTypes.vault_rfq_settled types;
  EventTypes.vault_rfq_unsold types;
  EventTypes.swap_rfq_settled types;
  EventTypes.swap_rfq_unfilled types;
  EventTypes.vault_created types;
  EventTypes.vault_deposit types;
  EventTypes.shares_claimed types;
  EventTypes.withdraw_initiated types;
  EventTypes.withdraw_completed types;
  EventTypes.instant_withdraw types;
  EventTypes.vault_bucket_selected types;
  EventTypes.vault_position_redeemed types;
  EventTypes.vault_fees_charged types;
  EventTypes.vault_round_finalized types;
  EventTypes.vault_config_updated types;
  EventTypes.vault_config_applied types;
  EventTypes.vault_deposits_paused types;
  EventTypes.put_bucket_created types;
  EventTypes.put_write_executed types;
  EventTypes.put_collateralized_write types;
  EventTypes.put_exercised types;
  EventTypes.put_redeemed types;
  EventTypes.put_expired_option_burned types;
  EventTypes.put_bucket_cleaned types;
  EventTypes.put_bucket_invalidated types;
  EventTypes.put_bucket_revalidated types;
  EventTypes.put_rfq_created types;
  EventTypes.put_rfq_settled types;
  EventTypes.put_rfq_expired_unsold types;
  EventTypes.offset_closed types;
  EventTypes.spread_written types;
  EventTypes.spread_unwound types;
  EventTypes.spread_closed types;
  EventTypes.spread_redeemed types;
  EventTypes.tv_vault_created types;
  EventTypes.tv_vault_closing types;
  EventTypes.tv_vault_closed types;
  EventTypes.tv_deposits_paused types;
  EventTypes.tv_mm_release_toggled types;
  EventTypes.tv_curator_rotated types;
  EventTypes.tv_deposited types;
  EventTypes.tv_withdraw_requested types;
  EventTypes.tv_withdraw_fulfilled types;
  EventTypes.tv_position_minted types;
  EventTypes.tv_position_split types;
  EventTypes.tv_position_merged types;
  EventTypes.tv_wiped_position_burned types;
  EventTypes.tv_capital_synced types;
  EventTypes.tv_risk_state_changed types;
  EventTypes.tv_junior_reset_proposed types;
  EventTypes.tv_junior_reset_cancelled types;
  EventTypes.tv_junior_reset_executed types;
  EventTypes.tv_commitment_released types;
  EventTypes.tv_settlement_snapshot types;
  EventTypes.tv_settlement_redeemed types;
  EventTypes.tv_settlement_curator_fees_claimed types;
  EventTypes.tv_deposit_asset_added types;
  EventTypes.tv_deposit_asset_removed types;
  EventTypes.tv_haircuts_set types;
  EventTypes.tv_payout_asset_amended types;
  EventTypes.tv_session_settled types;
  EventTypes.tv_position_stored types;
  EventTypes.tv_position_removed types;
  EventTypes.tv_position_appraised types;
  EventTypes.tv_vault_appraised types;
  EventTypes.tv_adapter_allowed types;
  EventTypes.tv_adapter_disallowed types;
  EventTypes.tv_oracle_allowed types;
  EventTypes.tv_oracle_disallowed types;
  EventTypes.tv_protocol_config_updated types;
  EventTypes.tv_collateral_released types;
  EventTypes.tv_custody_created types;
  EventTypes.tv_exchange_custody_created types;
  EventTypes.tv_vault_quote_filled types;
  EventTypes.tv_quote_adapter_added types;
  EventTypes.tv_quote_adapter_removed types;
  EventTypes.tv_pool_allowed types;
  EventTypes.tv_pool_disallowed types;
  EventTypes.tv_rfq_opened types;
  EventTypes.tv_rfq_settled types;
  EventTypes.tv_position_redeemed types;
  EventTypes.tv_mm_coin_exercised types;
  EventTypes.tv_mm_offset_closed types;
  EventTypes.tv_mm_coin_released types;
  EventTypes.tv_taker_swap_executed types;
  EventTypes.tv_bid_placed types;
  EventTypes.tv_bid_reclaimed types;
  EventTypes.tv_bid_redeemed types;
  EventTypes.tv_external_account_set types;
  EventTypes.tv_external_account_cleared types;
  EventTypes.tv_external_released types;
  EventTypes.tv_external_returned types;
  EventTypes.equity_posted types;
  EventTypes.put_spread_written types;
  EventTypes.put_spread_exercised types;
  EventTypes.put_spread_closed types;
  EventTypes.put_spread_redeemed types;
  EventTypes.vol_posted types;
  EventTypes.option_market_listed types;
  EventTypes.exchange_fill types
].

(** * Decoding *)

(** [bcs::from_bytes::<A>]. *)
Class Bcs (A : Type) := bcs_from_bytes : list Z → option A.

Module RawDeepBookPoolCreated.
Record t := mk {
  pool_id : ObjectId; taker_fee : Z; maker_fee : Z; tick_size : Z; lot_size : Z; min_size : Z;
  whitelisted_pool : bool; treasury_address : SuiAddress
}.
Definition wf (e : t) : Prop :=
  id_wf (pool_id e) ∧ u64 (taker_fee e) ∧ u64 (maker_fee e) ∧ u64 (tick_size e) ∧ u64 (lot_size e) ∧ u64 (min_size e).
End RawDeepBookPoolCreated.

Module RawOrderFilled.
Record t := mk {
  pool_id : ObjectId; maker_order_id : Z; taker_order_id : Z; maker_client_order_id : Z;
  taker_client_order_id : Z; price : Z; taker_is_bid : bool; taker_fee : Z; taker_fee_is_deep : bool;
  maker_fee : Z; maker_fee_is_deep : bool; base_quantity : Z; quote_quantity : Z;
  maker_balance_manager_id : ObjectId; taker_balance_manager_id : ObjectId; timestamp : Z
}.
Definition wf (e : t) : Prop :=
  id_wf (pool_id e) ∧ u64 (price e) ∧ u64 (taker_fee e) ∧ u64 (maker_fee e) ∧ u64 (base_quantity e) ∧
  u64 (quote_quantity e) ∧ id_wf (maker_balance_manager_id e) ∧ id_wf (taker_balance_manager_id e) ∧ u64 (timestamp e).
End RawOrderFilled.

Module RawExchangeFill.
Record t := mk {
  registry : ObjectId; digest : list Z; maker : SuiAddress; taker : SuiAddress; base_amount : Z;
  quote_amount : Z; maker_fee_bps : Z; taker_fee_bps : Z; maker_fee : Z; taker_fee : Z;
  maker_sold_base : bool; taker_token_filled_total : Z; timestamp_ms : Z
}.
Definition wf (e : t) : Prop :=
  id_wf (registry e) ∧ id_wf (maker e) ∧ id_wf (taker e) ∧ u64 (base_amount e) ∧ u64 (quote_amount e) ∧
  u64 (maker_fee e) ∧ u64 (taker_fee e) ∧ u64 (timestamp_ms e).
End RawExchangeFill.

Class BcsCrate := {
  #[global] bcs_BucketCreated :: Bcs BucketCreated.t;
  #[global] bcs_WriteExecuted :: Bcs WriteExecuted.t;
  #[global] bcs_Exercised :: Bcs Exercised.t;
  #[global] bcs_Redeemed :: Bcs Redeemed.t;
  #[global] bcs_ExpiredOptionBurned :: Bcs ExpiredOptionBurned.t;
  #[global] bcs_BucketCleaned :: Bcs BucketCleaned.t;
  #[global] bcs_BucketInvalidated :: Bcs BucketInvalidated.t;
  #[global] bcs_BucketRevalidated :: Bcs BucketRevalidated.t;
  #[global] bcs_SignerCreated :: Bcs SignerCreated.t;
  #[global] bcs_SigningKeyRotated :: Bcs SigningKeyRotated.t;
  #[global] bcs_FeeUpdated :: Bcs FeeUpdated.t;
  #[global] bcs_TreasuryWithdrawn :: Bcs TreasuryWithdrawn.t;
  #[global] bcs_CollateralizedWrite :: Bcs CollateralizedWrite.t;
  #[global] bcs_AuctionCreated :: Bcs AuctionCreated.t;
  #[global] bcs_AuctionBid :: Bcs AuctionBid.t;
  #[global] bcs_AuctionSettled :: Bcs AuctionSettled.t;
  #[global] bcs_AuctionUnfilled :: Bcs AuctionUnfilled.t;
  #[global] bcs_RfqCreated :: Bcs RfqCreated.t;
  #[global] bcs_RfqSettled :: Bcs RfqSettled.t;
  #[global] bcs_RfqExpiredUnsold :: Bcs RfqExpiredUnsold.t;
  #[global] bcs_VaultRfqSettled :: Bcs VaultRfqSettled.t;
  #[global] bcs_VaultRfqUnsold :: Bcs VaultRfqUnsold.t;
  #[global] bcs_SwapRfqSettled :: Bcs SwapRfqSettled.t;
  #[global] bcs_SwapRfqUnfilled :: Bcs SwapRfqUnfilled.t;
  #[global] bcs_VaultCreated :: Bcs VaultCreated.t;
  #[global] bcs_VaultDeposit :: Bcs VaultDeposit.t;
  #[global] bcs_SharesClaimed :: Bcs SharesClaimed.t;
  #[global] bcs_WithdrawInitiated :: Bcs WithdrawInitiated.t;
  #[global] bcs_WithdrawCompleted :: Bcs WithdrawCompleted.t;
  #[global] bcs_InstantWithdraw :: Bcs InstantWithdraw.t;
  #[global] bcs_VaultBucketSelected :: Bcs VaultBucketSelected.t;
  #[global] bcs_VaultPositionRedeemed :: Bcs VaultPositionRedeemed.t;
  #[global] bcs_VaultFeesCharged :: Bcs VaultFeesCharged.t;
  #[global] bcs_VaultRoundFinalized :: Bcs VaultRoundFinalized.t;
  #[global] bcs_VaultConfigUpdated :: Bcs VaultConfigUpdated.t;
  #[global] bcs_VaultConfigApplied :: Bcs VaultConfigApplied.t;
  #[global] bcs_VaultDepositsPaused :: Bcs VaultDepositsPaused.t;
  #[global] bcs_PutBucketCreated :: Bcs PutBucketCreated.t;
  #[global] bcs_PutWriteExecuted :: Bcs PutWriteExecuted.t;
  #[global] bcs_PutCollateralizedWrite :: Bcs PutCollateralizedWrite.t;
  #[global] bcs_PutExercised :: Bcs PutExercised.t;
  #[global] bcs_PutRedeemed :: Bcs PutRedeemed.t;
  #[global] bcs_PutExpiredOptionBurned :: Bcs PutExpiredOptionBurned.t;
  #[global] bcs_PutBucketCleaned :: Bcs PutBucketCleaned.t;
  #[global] bcs_PutBucketInvalidated :: Bcs PutBucketInvalidated.t;
  #[global] bcs_PutBucketRevalidated :: Bcs PutBucketRevalidated.t;
  #[global] bcs_PutRfqCreated :: Bcs PutRfqCreated.t;
  #[global] bcs_PutRfqSettled :: Bcs PutRfqSettled.t;
  #[global] bcs_PutRfqExpiredUnsold :: Bcs PutRfqExpiredUnsold.t;
  #[global] bcs_OffsetClosed :: Bcs OffsetClosed.t;
  #[global] bcs_SpreadWritten :: Bcs SpreadWritten.t;
  #[global] bcs_SpreadUnwound :: Bcs SpreadUnwound.t;
  #[global] bcs_SpreadClosed :: Bcs SpreadClosed.t;
  #[global] bcs_SpreadRedeemed :: Bcs SpreadRedeemed.t;
  #[global] bcs_PutSpreadWritten :: Bcs PutSpreadWritten.t;
  #[global] bcs_PutSpreadExercised :: Bcs PutSpreadExercised.t;
  #[global] bcs_PutSpreadClosed :: Bcs PutSpreadClosed.t;
  #[global] bcs_PutSpreadRedeemed :: Bcs PutSpreadRedeemed.t;
  #[global] bcs_VolPosted :: Bcs VolPosted.t;
  #[global] bcs_TvVaultCreated :: Bcs TvVaultCreated.t;
  #[global] bcs_TvVaultClosing :: Bcs TvVaultClosing.t;
  #[global] bcs_TvVaultClosed :: Bcs TvVaultClosed.t;
  #[global] bcs_TvDepositsPaused :: Bcs TvDepositsPaused.t;
  #[global] bcs_TvMmReleaseToggled :: Bcs TvMmReleaseToggled.t;
  #[global] bcs_TvCuratorRotated :: Bcs TvCuratorRotated.t;
  #[global] bcs_TvDeposited :: Bcs TvDeposited.t;
  #[global] bcs_TvWithdrawRequested :: Bcs TvWithdrawRequested.t;
  #[global] bcs_TvWithdrawFulfilled :: Bcs TvWithdrawFulfilled.t;
  #[global] bcs_TvPositionMinted :: Bcs TvPositionMinted.t;
  #[global] bcs_TvPositionSplit :: Bcs TvPositionSplit.t;
  #[global] bcs_TvPositionMerged :: Bcs TvPositionMerged.t;
  #[global] bcs_TvWipedPositionBurned :: Bcs TvWipedPositionBurned.t;
  #[global] bcs_TvCapitalSynced :: Bcs TvCapitalSynced.t;
  #[global] bcs_TvRiskStateChanged :: Bcs TvRiskStateChanged.t;
  #[global] bcs_TvJuniorResetProposed :: Bcs TvJuniorResetProposed.t;
  #[global] bcs_TvJuniorResetCancelled :: Bcs TvJuniorResetCancelled.t;
  #[global] bcs_TvJuniorResetExecuted :: Bcs TvJuniorResetExecuted.t;
  #[global] bcs_TvCommitmentReleased :: Bcs TvCommitmentReleased.t;
  #[global] bcs_TvSettlementSnapshot :: Bcs TvSettlementSnapshot.t;
  #[global] bcs_TvSettlementRedeemed :: Bcs TvSettlementRedeemed.t;
  #[global] bcs_TvSettlementCuratorFeesClaimed :: Bcs TvSettlementCuratorFeesClaimed.t;
  #[global] bcs_TvDepositAssetAdded :: Bcs TvDepositAssetAdded.t;
  #[global] bcs_TvDepositAssetRemoved :: Bcs TvDepositAssetRemoved.t;
  #[global] bcs_TvHaircutsSet :: Bcs TvHaircutsSet.t;
  #[global] bcs_TvPayoutAssetAmended :: Bcs TvPayoutAssetAmended.t;
  #[global] bcs_TvSessionSettled :: Bcs TvSessionSettled.t;
  #[global] bcs_TvPositionStored :: Bcs TvPositionStored.t;
  #[global] bcs_TvPositionRemoved :: Bcs TvPositionRemoved.t;
  #[global] bcs_TvPositionAppraised :: Bcs TvPositionAppraised.t;
  #[global] bcs_TvVaultAppraised :: Bcs TvVaultAppraised.t;
  #[global] bcs_TvAdapterAllowed :: Bcs TvAdapterAllowed.t;
  #[global] bcs_TvAdapterDisallowed :: Bcs TvAdapterDisallowed.t;
  #[global] bcs_TvOracleAllowed :: Bcs TvOracleAllowed.t;
  #[global] bcs_TvOracleDisallowed :: Bcs TvOracleDisallowed.t;
  #[global] bcs_TvProtocolConfigUpdated :: Bcs TvProtocolConfigUpdated.t;
  #[global] bcs_TvCollateralReleased :: Bcs TvCollateralReleased.t;
  #[global] bcs_TvCustodyCreated :: Bcs TvCustodyCreated.t;
  #[global] bcs_TvExchangeCustodyCreated :: Bcs TvExchangeCustodyCreated.t;
  #[global] bcs_TvVaultQuoteFilled :: Bcs TvVaultQuoteFilled.t;
  #[global] bcs_TvQuoteAdapterAdded :: Bcs TvQuoteAdapterAdded.t;
  #[global] bcs_TvQuoteAdapterRemoved :: Bcs TvQuoteAdapterRemoved.t;
  #[global] bcs_TvPoolAllowed :: Bcs TvPoolAllowed.t;
  #[global] bcs_TvPoolDisallowed :: Bcs TvPoolDisallowed.t;
  #[global] bcs_TvRfqOpened :: Bcs TvRfqOpened.t;
  #[global] bcs_TvRfqSettled :: Bcs TvRfqSettled.t;
  #[global] bcs_TvPositionRedeemed :: Bcs TvPositionRedeemed.t;
  #[global] bcs_TvMmCoinExercised :: Bcs TvMmCoinExercised.t;
  #[global] bcs_TvMmOffsetClosed :: Bcs TvMmOffsetClosed.t;
  #[global] bcs_TvMmCoinReleased :: Bcs TvMmCoinReleased.t;
  #[global] bcs_TvTakerSwapExecuted :: Bcs TvTakerSwapExecuted.t;
  #[global] bcs_TvBidPlaced :: Bcs TvBidPlaced.t;
  #[global] bcs_TvBidReclaimed :: Bcs TvBidReclaimed.t;
  #[global] bcs_TvBidRedeemed :: Bcs TvBidRedeemed.t;
  #[global] bcs_TvExternalAccountSet :: Bcs TvExternalAccountSet.t;
  #[global] bcs_TvExternalAccountCleared :: Bcs TvExternalAccountCleared.t;
  #[global] bcs_TvExternalReleased :: Bcs TvExternalReleased.t;
  #[global] bcs_TvExternalReturned :: Bcs TvExternalReturned.t;
  #[global] bcs_EquityPosted :: Bcs EquityPosted.t;
  #[global] bcs_OptionMarketListed :: Bcs OptionMarketListed.t;
  #[global] bcs_RawDeepBookPoolCreated :: Bcs RawDeepBookPoolCreated.t;
  #[global] bcs_RawOrderFilled :: Bcs RawOrderFilled.t;
  #[global] bcs_RawExchangeFill :: Bcs RawExchangeFill.t
}.

(** A value that was decoded is in the range of its type. *)
Class Decodes {A} (B : Bcs A) (wf : A → Prop) : Prop := bcs_in_range bs x : bcs_from_bytes bs = Some x → wf x.

Class BcsCrateSpec `{BcsCrate} : Prop := {
  #[global] bcs_BucketCreated_wf :: Decodes bcs_BucketCreated BucketCreated.wf;
  #[global] bcs_WriteExecuted_wf :: Decodes bcs_WriteExecuted WriteExecuted.wf;
  #[global] bcs_Exercised_wf :: Decodes bcs_Exercised Exercised.wf;
  #[global] bcs_Redeemed_wf :: Decodes bcs_Redeemed Redeemed.wf;
  #[global] bcs_ExpiredOptionBurned_wf :: Decodes bcs_ExpiredOptionBurned ExpiredOptionBurned.wf;
  #[global] bcs_BucketCleaned_wf :: Decodes bcs_BucketCleaned BucketCleaned.wf;
  #[global] bcs_BucketInvalidated_wf :: Decodes bcs_BucketInvalidated BucketInvalidated.wf;
  #[global] bcs_BucketRevalidated_wf :: Decodes bcs_BucketRevalidated BucketRevalidated.wf;
  #[global] bcs_SignerCreated_wf :: Decodes bcs_SignerCreated SignerCreated.wf;
  #[global] bcs_SigningKeyRotated_wf :: Decodes bcs_SigningKeyRotated SigningKeyRotated.wf;
  #[global] bcs_FeeUpdated_wf :: Decodes bcs_FeeUpdated FeeUpdated.wf;
  #[global] bcs_TreasuryWithdrawn_wf :: Decodes bcs_TreasuryWithdrawn TreasuryWithdrawn.wf;
  #[global] bcs_CollateralizedWrite_wf :: Decodes bcs_CollateralizedWrite CollateralizedWrite.wf;
  #[global] bcs_AuctionCreated_wf :: Decodes bcs_AuctionCreated AuctionCreated.wf;
  #[global] bcs_AuctionBid_wf :: Decodes bcs_AuctionBid AuctionBid.wf;
  #[global] bcs_AuctionSettled_wf :: Decodes bcs_AuctionSettled AuctionSettled.wf;
  #[global] bcs_AuctionUnfilled_wf :: Decodes bcs_AuctionUnfilled AuctionUnfilled.wf;
  #[global] bcs_RfqCreated_wf :: Decodes bcs_RfqCreated RfqCreated.wf;
  #[global] bcs_RfqSettled_wf :: Decodes bcs_RfqSettled RfqSettled.wf;
  #[global] bcs_RfqExpiredUnsold_wf :: Decodes bcs_RfqExpiredUnsold RfqExpiredUnsold.wf;
  #[global] bcs_VaultRfqSettled_wf :: Decodes bcs_VaultRfqSettled VaultRfqSettled.wf;
  #[global] bcs_VaultRfqUnsold_wf :: Decodes bcs_VaultRfqUnsold VaultRfqUnsold.wf;
  #[global] bcs_SwapRfqSettled_wf :: Decodes bcs_SwapRfqSettled SwapRfqSettled.wf;
  #[global] bcs_SwapRfqUnfilled_wf :: Decodes bcs_SwapRfqUnfilled SwapRfqUnfilled.wf;
  #[global] bcs_VaultCreated_wf :: Decodes bcs_VaultCreated VaultCreated.wf;
  #[global] bcs_VaultDeposit_wf :: Decodes bcs_VaultDeposit VaultDeposit.wf;
  #[global] bcs_SharesClaimed_wf :: Decodes bcs_SharesClaimed SharesClaimed.wf;
  #[global] bcs_WithdrawInitiated_wf :: Decodes bcs_WithdrawInitiated WithdrawInitiated.wf;
  #[global] bcs_WithdrawCompleted_wf :: Decodes bcs_WithdrawCompleted WithdrawCompleted.wf;
  #[global] bcs_InstantWithdraw_wf :: Decodes bcs_InstantWithdraw InstantWithdraw.wf;
  #[global] bcs_VaultBucketSelected_wf :: Decodes bcs_VaultBucketSelected VaultBucketSelected.wf;
  #[global] bcs_VaultPositionRedeemed_wf :: Decodes bcs_VaultPositionRedeemed VaultPositionRedeemed.wf;
  #[global] bcs_VaultFeesCharged_wf :: Decodes bcs_VaultFeesCharged VaultFeesCharged.wf;
  #[global] bcs_VaultRoundFinalized_wf :: Decodes bcs_VaultRoundFinalized VaultRoundFinalized.wf;
  #[global] bcs_VaultConfigUpdated_wf :: Decodes bcs_VaultConfigUpdated VaultConfigUpdated.wf;
  #[global] bcs_VaultConfigApplied_wf :: Decodes bcs_VaultConfigApplied VaultConfigApplied.wf;
  #[global] bcs_VaultDepositsPaused_wf :: Decodes bcs_VaultDepositsPaused VaultDepositsPaused.wf;
  #[global] bcs_PutBucketCreated_wf :: Decodes bcs_PutBucketCreated PutBucketCreated.wf;
  #[global] bcs_PutWriteExecuted_wf :: Decodes bcs_PutWriteExecuted PutWriteExecuted.wf;
  #[global] bcs_PutCollateralizedWrite_wf :: Decodes bcs_PutCollateralizedWrite PutCollateralizedWrite.wf;
  #[global] bcs_PutExercised_wf :: Decodes bcs_PutExercised PutExercised.wf;
  #[global] bcs_PutRedeemed_wf :: Decodes bcs_PutRedeemed PutRedeemed.wf;
  #[global] bcs_PutExpiredOptionBurned_wf :: Decodes bcs_PutExpiredOptionBurned PutExpiredOptionBurned.wf;
  #[global] bcs_PutBucketCleaned_wf :: Decodes bcs_PutBucketCleaned PutBucketCleaned.wf;
  #[global] bcs_PutBucketInvalidated_wf :: Decodes bcs_PutBucketInvalidated PutBucketInvalidated.wf;
  #[global] bcs_PutBucketRevalidated_wf :: Decodes bcs_PutBucketRevalidated PutBucketRevalidated.wf;
  #[global] bcs_PutRfqCreated_wf :: Decodes bcs_PutRfqCreated PutRfqCreated.wf;
  #[global] bcs_PutRfqSettled_wf :: Decodes bcs_PutRfqSettled PutRfqSettled.wf;
  #[global] bcs_PutRfqExpiredUnsold_wf :: Decodes bcs_PutRfqExpiredUnsold PutRfqExpiredUnsold.wf;
  #[global] bcs_OffsetClosed_wf :: Decodes bcs_OffsetClosed OffsetClosed.wf;
  #[global] bcs_SpreadWritten_wf :: Decodes bcs_SpreadWritten SpreadWritten.wf;
  #[global] bcs_SpreadUnwound_wf :: Decodes bcs_SpreadUnwound SpreadUnwound.wf;
  #[global] bcs_SpreadClosed_wf :: Decodes bcs_SpreadClosed SpreadClosed.wf;
  #[global] bcs_SpreadRedeemed_wf :: Decodes bcs_SpreadRedeemed SpreadRedeemed.wf;
  #[global] bcs_PutSpreadWritten_wf :: Decodes bcs_PutSpreadWritten PutSpreadWritten.wf;
  #[global] bcs_PutSpreadExercised_wf :: Decodes bcs_PutSpreadExercised PutSpreadExercised.wf;
  #[global] bcs_PutSpreadClosed_wf :: Decodes bcs_PutSpreadClosed PutSpreadClosed.wf;
  #[global] bcs_PutSpreadRedeemed_wf :: Decodes bcs_PutSpreadRedeemed PutSpreadRedeemed.wf;
  #[global] bcs_VolPosted_wf :: Decodes bcs_VolPosted VolPosted.wf;
  #[global] bcs_TvVaultCreated_wf :: Decodes bcs_TvVaultCreated TvVaultCreated.wf;
  #[global] bcs_TvVaultClosing_wf :: Decodes bcs_TvVaultClosing TvVaultClosing.wf;
  #[global] bcs_TvVaultClosed_wf :: Decodes bcs_TvVaultClosed TvVaultClosed.wf;
  #[global] bcs_TvDepositsPaused_wf :: Decodes bcs_TvDepositsPaused TvDepositsPaused.wf;
  #[global] bcs_TvMmReleaseToggled_wf :: Decodes bcs_TvMmReleaseToggled TvMmReleaseToggled.wf;
  #[global] bcs_TvCuratorRotated_wf :: Decodes bcs_TvCuratorRotated TvCuratorRotated.wf;
  #[global] bcs_TvDeposited_wf :: Decodes bcs_TvDeposited TvDeposited.wf;
  #[global] bcs_TvWithdrawRequested_wf :: Decodes bcs_TvWithdrawRequested TvWithdrawRequested.wf;
  #[global] bcs_TvWithdrawFulfilled_wf :: Decodes bcs_TvWithdrawFulfilled TvWithdrawFulfilled.wf;
  #[global] bcs_TvPositionMinted_wf :: Decodes bcs_TvPositionMinted TvPositionMinted.wf;
  #[global] bcs_TvPositionSplit_wf :: Decodes bcs_TvPositionSplit TvPositionSplit.wf;
  #[global] bcs_TvPositionMerged_wf :: Decodes bcs_TvPositionMerged TvPositionMerged.wf;
  #[global] bcs_TvWipedPositionBurned_wf :: Decodes bcs_TvWipedPositionBurned TvWipedPositionBurned.wf;
  #[global] bcs_TvCapitalSynced_wf :: Decodes bcs_TvCapitalSynced TvCapitalSynced.wf;
  #[global] bcs_TvRiskStateChanged_wf :: Decodes bcs_TvRiskStateChanged TvRiskStateChanged.wf;
  #[global] bcs_TvJuniorResetProposed_wf :: Decodes bcs_TvJuniorResetProposed TvJuniorResetProposed.wf;
  #[global] bcs_TvJuniorResetCancelled_wf :: Decodes bcs_TvJuniorResetCancelled TvJuniorResetCancelled.wf;
  #[global] bcs_TvJuniorResetExecuted_wf :: Decodes bcs_TvJuniorResetExecuted TvJuniorResetExecuted.wf;
  #[global] bcs_TvCommitmentReleased_wf :: Decodes bcs_TvCommitmentReleased TvCommitmentReleased.wf;
  #[global] bcs_TvSettlementSnapshot_wf :: Decodes bcs_TvSettlementSnapshot TvSettlementSnapshot.wf;
  #[global] bcs_TvSettlementRedeemed_wf :: Decodes bcs_TvSettlementRedeemed TvSettlementRedeemed.wf;
  #[global] bcs_TvSettlementCuratorFeesClaimed_wf :: Decodes bcs_TvSettlementCuratorFeesClaimed TvSettlementCuratorFeesClaimed.wf;
  #[global] bcs_TvDepositAssetAdded_wf :: Decodes bcs_TvDepositAssetAdded TvDepositAssetAdded.wf;
  #[global] bcs_TvDepositAssetRemoved_wf :: Decodes bcs_TvDepositAssetRemoved TvDepositAssetRemoved.wf;
  #[global] bcs_TvHaircutsSet_wf :: Decodes bcs_TvHaircutsSet TvHaircutsSet.wf;
  #[global] bcs_TvPayoutAssetAmended_wf :: Decodes bcs_TvPayoutAssetAmended TvPayoutAssetAmended.wf;
  #[global] bcs_TvSessionSettled_wf :: Decodes bcs_TvSessionSettled TvSessionSettled.wf;
  #[global] bcs_TvPositionStored_wf :: Decodes bcs_TvPositionStored TvPositionStored.wf;
  #[global] bcs_TvPositionRemoved_wf :: Decodes bcs_TvPositionRemoved TvPositionRemoved.wf;
  #[global] bcs_TvPositionAppraised_wf :: Decodes bcs_TvPositionAppraised TvPositionAppraised.wf;
  #[global] bcs_TvVaultAppraised_wf :: Decodes bcs_TvVaultAppraised TvVaultAppraised.wf;
  #[global] bcs_TvAdapterAllowed_wf :: Decodes bcs_TvAdapterAllowed TvAdapterAllowed.wf;
  #[global] bcs_TvAdapterDisallowed_wf :: Decodes bcs_TvAdapterDisallowed TvAdapterDisallowed.wf;
  #[global] bcs_TvOracleAllowed_wf :: Decodes bcs_TvOracleAllowed TvOracleAllowed.wf;
  #[global] bcs_TvOracleDisallowed_wf :: Decodes bcs_TvOracleDisallowed TvOracleDisallowed.wf;
  #[global] bcs_TvProtocolConfigUpdated_wf :: Decodes bcs_TvProtocolConfigUpdated TvProtocolConfigUpdated.wf;
  #[global] bcs_TvCollateralReleased_wf :: Decodes bcs_TvCollateralReleased TvCollateralReleased.wf;
  #[global] bcs_TvCustodyCreated_wf :: Decodes bcs_TvCustodyCreated TvCustodyCreated.wf;
  #[global] bcs_TvExchangeCustodyCreated_wf :: Decodes bcs_TvExchangeCustodyCreated TvExchangeCustodyCreated.wf;
  #[global] bcs_TvVaultQuoteFilled_wf :: Decodes bcs_TvVaultQuoteFilled TvVaultQuoteFilled.wf;
  #[global] bcs_TvQuoteAdapterAdded_wf :: Decodes bcs_TvQuoteAdapterAdded TvQuoteAdapterAdded.wf;
  #[global] bcs_TvQuoteAdapterRemoved_wf :: Decodes bcs_TvQuoteAdapterRemoved TvQuoteAdapterRemoved.wf;
  #[global] bcs_TvPoolAllowed_wf :: Decodes bcs_TvPoolAllowed TvPoolAllowed.wf;
  #[global] bcs_TvPoolDisallowed_wf :: Decodes bcs_TvPoolDisallowed TvPoolDisallowed.wf;
  #[global] bcs_TvRfqOpened_wf :: Decodes bcs_TvRfqOpened TvRfqOpened.wf;
  #[global] bcs_TvRfqSettled_wf :: Decodes bcs_TvRfqSettled TvRfqSettled.wf;
  #[global] bcs_TvPositionRedeemed_wf :: Decodes bcs_TvPositionRedeemed TvPositionRedeemed.wf;
  #[global] bcs_TvMmCoinExercised_wf :: Decodes bcs_TvMmCoinExercised TvMmCoinExercised.wf;
  #[global] bcs_TvMmOffsetClosed_wf :: Decodes bcs_TvMmOffsetClosed TvMmOffsetClosed.wf;
  #[global] bcs_TvMmCoinReleased_wf :: Decodes bcs_TvMmCoinReleased TvMmCoinReleased.wf;
  #[global] bcs_TvTakerSwapExecuted_wf :: Decodes bcs_TvTakerSwapExecuted TvTakerSwapExecuted.wf;
  #[global] bcs_TvBidPlaced_wf :: Decodes bcs_TvBidPlaced TvBidPlaced.wf;
  #[global] bcs_TvBidReclaimed_wf :: Decodes bcs_TvBidReclaimed TvBidReclaimed.wf;
  #[global] bcs_TvBidRedeemed_wf :: Decodes bcs_TvBidRedeemed TvBidRedeemed.wf;
  #[global] bcs_TvExternalAccountSet_wf :: Decodes bcs_TvExternalAccountSet TvExternalAccountSet.wf;
  #[global] bcs_TvExternalAccountCleared_wf :: Decodes bcs_TvExternalAccountCleared TvExternalAccountCleared.wf;
  #[global] bcs_TvExternalReleased_wf :: Decodes bcs_TvExternalReleased TvExternalReleased.wf;
  #[global] bcs_TvExternalReturned_wf :: Decodes bcs_TvExternalReturned TvExternalReturned.wf;
  #[global] bcs_EquityPosted_wf :: Decodes bcs_EquityPosted EquityPosted.wf;
  #[global] bcs_OptionMarketListed_wf :: Decodes bcs_OptionMarketListed OptionMarketListed.wf;
  #[global] bcs_RawDeepBookPoolCreated_wf :: Decodes bcs_RawDeepBookPoolCreated RawDeepBookPoolCreated.wf;
  #[global] bcs_RawOrderFilled_wf :: Decodes bcs_RawOrderFilled RawOrderFilled.wf;
  #[global] bcs_RawExchangeFill_wf :: Decodes bcs_RawExchangeFill RawExchangeFill.wf
}.

Inductive DecodeError :=
  | BcsDecode (type_name : rstring)
  | MalformedPoolType (type_str : rstring)
  | PoolTypeParams (got : nat).

Section dispatch.
Context `{BcsCrate}.

Definition decode {A} `{Bcs A} (variant : A → ChainEvent.t) (type_name : string) (contents : list Z) :
    result DecodeError (option ChainEvent.t) :=
  match bcs_from_bytes contents with
  | Some parsed => Ok (Some (variant parsed))
  | None => Err (BcsDecode (str type_name))
  end.

Definition dispatch (types : EventTypes.t) (type_str : rstring) (contents : list Z) :
    result DecodeError (option ChainEvent.t) :=
  if bool_decide (type_str = EventTypes.bucket_created types) then
    decode ChainEvent.BucketCreated "BucketCreated"%string contents
  else if bool_decide (type_str = EventTypes.write_executed types) then
    decode ChainEvent.WriteExecuted "WriteExecuted"%string contents
  else if bool_decide (type_str = EventTypes.exercised types) then
    decode ChainEvent.Exercised "Exercised"%string contents
  else if bool_decide (type_str = EventTypes.redeemed types) then
    decode ChainEvent.Redeemed "Redeemed"%string contents
  else if bool_decide (type_str = EventTypes.expired_option_burned types) then
    decode ChainEvent.ExpiredOptionBurned "ExpiredOptionBurned"%string contents
  else if bool_decide (type_str = EventTypes.bucket_cleaned types) then
    decode ChainEvent.BucketCleaned "BucketCleaned"%string contents
  else if bool_decide (type_str = EventTypes.bucket_invalidated types) then
    decode ChainEvent.BucketInvalidated "BucketInvalidated"%string contents
  else if bool_decide (type_str = EventTypes.bucket_revalidated types) then
    decode ChainEvent.BucketRevalidated "BucketRevalidated"%string contents
  else if bool_decide (type_str = EventTypes.signer_created types) then
    decode ChainEvent.SignerCreated "SignerCreated"%string contents
  else if bool_decide (type_str = EventTypes.signing_key_rotated types) then
    decode ChainEvent.SigningKeyRotated "SigningKeyRotated"%string contents
  else if bool_decide (type_str = EventTypes.fee_updated types) then
    decode ChainEvent.FeeUpdated "FeeUpdated"%string contents
  else if bool_decide (type_str = EventTypes.treasury_withdrawn types) then
    decode ChainEvent.TreasuryWithdrawn "TreasuryWithdrawn"%string contents
  else if bool_decide (type_str = EventTypes.collateralized_write types) then
    decode ChainEvent.CollateralizedWrite "CollateralizedWrite"%string contents
  else if bool_decide (type_str = EventTypes.auction_created types) then
    decode ChainEvent.AuctionCreated "AuctionCreated"%string contents
  else if bool_decide (type_str = EventTypes.auction_bid types) then
    decode ChainEvent.AuctionBid "AuctionBid"%string contents
  else if bool_decide (type_str = EventTypes.auction_settled types) then
    decode ChainEvent.AuctionSettled "AuctionSettled"%string contents
  else if bool_decide (type_str = EventTypes.auction_unfilled types) then
    decode ChainEvent.AuctionUnfilled "AuctionUnfilled"%string contents
  else if bool_decide (type_str = EventTypes.rfq_created types) then
    decode ChainEvent.RfqCreated "RfqCreated"%string contents
  else if bool_decide (type_str = EventTypes.rfq_settled types) then
    decode ChainEvent.RfqSettled "RfqSettled"%string contents
  else if bool_decide (type_str = EventTypes.rfq_expired_unsold types) then
    decode ChainEvent.RfqExpiredUnsold "RfqExpiredUnsold"%string contents
  else if bool_decide (type_str = EventTypes.vault_rfq_settled types) then
    decode ChainEvent.VaultRfqSettled "VaultRfqSettled"%string contents
  else if bool_decide (type_str = EventTypes.vault_rfq_unsold types) then
    decode ChainEvent.VaultRfqUnsold "VaultRfqUnsold"%string contents
  else if bool_decide (type_str = EventTypes.swap_rfq_settled types) then
    decode ChainEvent.SwapRfqSettled "SwapRfqSettled"%string contents
  else if bool_decide (type_str = EventTypes.swap_rfq_unfilled types) then
    decode ChainEvent.SwapRfqUnfilled "SwapRfqUnfilled"%string contents
  else if bool_decide (type_str = EventTypes.vault_created types) then
    decode ChainEvent.VaultCreated "VaultCreated"%string contents
  else if bool_decide (type_str = EventTypes.vault_deposit types) then
    decode ChainEvent.VaultDeposit "VaultDeposit"%string contents
  else if bool_decide (type_str = EventTypes.shares_claimed types) then
    decode ChainEvent.SharesClaimed "SharesClaimed"%string contents
  else if bool_decide (type_str = EventTypes.withdraw_initiated types) then
    decode ChainEvent.WithdrawInitiated "WithdrawInitiated"%string contents
  else if bool_decide (type_str = EventTypes.withdraw_completed types) then
    decode ChainEvent.WithdrawCompleted "WithdrawCompleted"%string contents
  else if bool_decide (type_str = EventTypes.instant_withdraw types) then
    decode ChainEvent.InstantWithdraw "InstantWithdraw"%string contents
  else if bool_decide (type_str = EventTypes.vault_bucket_selected types) then
    decode ChainEvent.VaultBucketSelected "VaultBucketSelected"%string contents
  else if bool_decide (type_str = EventTypes.vault_position_redeemed types) then
    decode ChainEvent.VaultPositionRedeemed "VaultPositionRedeemed"%string contents
  else if bool_decide (type_str = EventTypes.vault_fees_charged types) then
    decode ChainEvent.VaultFeesCharged "VaultFeesCharged"%string contents
  else if bool_decide (type_str = EventTypes.vault_round_finalized types) then
    decode ChainEvent.VaultRoundFinalized "VaultRoundFinalized"%string contents
  else if bool_decide (type_str = EventTypes.vault_config_updated types) then
    decode ChainEvent.VaultConfigUpdated "VaultConfigUpdated"%string contents
  else if bool_decide (type_str = EventTypes.vault_config_applied types) then
    decode ChainEvent.VaultConfigApplied "VaultConfigApplied"%string contents
  else if bool_decide (type_str = EventTypes.vault_deposits_paused types) then
    decode ChainEvent.VaultDepositsPaused "VaultDepositsPaused"%string contents
  else if bool_decide (type_str = EventTypes.put_bucket_created types) then
    decode ChainEvent.PutBucketCreated "PutBucketCreated"%string contents
  else if bool_decide (type_str = EventTypes.put_write_executed types) then
    decode ChainEvent.PutWriteExecuted "PutWriteExecuted"%string contents
  else if bool_decide (type_str = EventTypes.put_collateralized_write types) then
    decode ChainEvent.PutCollateralizedWrite "PutCollateralizedWrite"%string contents
  else if bool_decide (type_str = EventTypes.put_exercised types) then
    decode ChainEvent.PutExercised "PutExercised"%string contents
  else if bool_decide (type_str = EventTypes.put_redeemed types) then
    decode ChainEvent.PutRedeemed "PutRedeemed"%string contents
  else if bool_decide (type_str = EventTypes.put_expired_option_burned types) then
    decode ChainEvent.PutExpiredOptionBurned "PutExpiredOptionBurned"%string contents
  else if bool_decide (type_str = EventTypes.put_bucket_cleaned types) then
    decode ChainEvent.PutBucketCleaned "PutBucketCleaned"%string contents
  else if bool_decide (type_str = EventTypes.put_bucket_invalidated types) then
    decode ChainEvent.PutBucketInvalidated "PutBucketInvalidated"%string contents
  else if bool_decide (type_str = EventTypes.put_bucket_revalidated types) then
    decode ChainEvent.PutBucketRevalidated "PutBucketRevalidated"%string contents
  else if bool_decide (type_str = EventTypes.put_rfq_created types) then
    decode ChainEvent.PutRfqCreated "PutRfqCreated"%string contents
  else if bool_decide (type_str = EventTypes.put_rfq_settled types) then
    decode ChainEvent.PutRfqSettled "PutRfqSettled"%string contents
  else if bool_decide (type_str = EventTypes.put_rfq_expired_unsold types) then
    decode ChainEvent.PutRfqExpiredUnsold "PutRfqExpiredUnsold"%string contents
  else if bool_decide (type_str = EventTypes.offset_closed types) then
    decode ChainEvent.OffsetClosed "OffsetClosed"%string contents
  else if bool_decide (type_str = EventTypes.spread_written types) then
    decode ChainEvent.SpreadWritten "SpreadWritten"%string contents
  else if bool_decide (type_str = EventTypes.spread_unwound types) then
    decode ChainEvent.SpreadUnwound "SpreadUnwound"%string contents
  else if bool_decide (type_str = EventTypes.spread_closed types) then
    decode ChainEvent.SpreadClosed "SpreadClosed"%string contents
  else if bool_decide (type_str = EventTypes.spread_redeemed types) then
    decode ChainEvent.SpreadRedeemed "SpreadRedeemed"%string contents
  else if bool_decide (type_str = EventTypes.put_spread_written types) then
    decode ChainEvent.PutSpreadWritten "PutSpreadWritten"%string contents
  else if bool_decide (type_str = EventTypes.put_spread_exercised types) then
    decode ChainEvent.PutSpreadExercised "PutSpreadExercised"%string contents
  else if bool_decide (type_str = EventTypes.put_spread_closed types) then
    decode ChainEvent.PutSpreadClosed "PutSpreadClosed"%string contents
  else if bool_decide (type_str = EventTypes.put_spread_redeemed types) then
    decode ChainEvent.PutSpreadRedeemed "PutSpreadRedeemed"%string contents
  else if bool_decide (type_str = EventTypes.vol_posted types) then
    decode ChainEvent.VolPosted "VolPosted"%string contents
  else if bool_decide (type_str = EventTypes.tv_vault_created types) then
    decode ChainEvent.TvVaultCreated "TvVaultCreated"%string contents
  else if bool_decide (type_str = EventTypes.tv_vault_closing types) then
    decode ChainEvent.TvVaultClosing "TvVaultClosing"%string contents
  else if bool_decide (type_str = EventTypes.tv_vault_closed types) then
    decode ChainEvent.TvVaultClosed "TvVaultClosed"%string contents
  else if bool_decide (type_str = EventTypes.tv_deposits_paused types) then
    decode ChainEvent.TvDepositsPaused "TvDepositsPaused"%string contents
  else if bool_decide (type_str = EventTypes.tv_mm_release_toggled types) then
    decode ChainEvent.TvMmReleaseToggled "TvMmReleaseToggled"%string contents
  else if bool_decide (type_str = EventTypes.tv_curator_rotated types) then
    decode ChainEvent.TvCuratorRotated "TvCuratorRotated"%string contents
  else if bool_decide (type_str = EventTypes.tv_deposited types) then
    decode ChainEvent.TvDeposited "TvDeposited"%string contents
  else if bool_decide (type_str = EventTypes.tv_withdraw_requested types) then
    decode ChainEvent.TvWithdrawRequested "TvWithdrawRequested"%string contents
  else if bool_decide (type_str = EventTypes.tv_withdraw_fulfilled types) then
    decode ChainEvent.TvWithdrawFulfilled "TvWithdrawFulfilled"%string contents
  else if bool_decide (type_str = EventTypes.tv_position_minted types) then
    decode ChainEvent.TvPositionMinted "TvPositionMinted"%string contents
  else if bool_decide (type_str = EventTypes.tv_position_split types) then
    decode ChainEvent.TvPositionSplit "TvPositionSplit"%string contents
  else if bool_decide (type_str = EventTypes.tv_position_merged types) then
    decode ChainEvent.TvPositionMerged "TvPositionMerged"%string contents
  else if bool_decide (type_str = EventTypes.tv_wiped_position_burned types) then
    decode ChainEvent.TvWipedPositionBurned "TvWipedPositionBurned"%string contents
  else if bool_decide (type_str = EventTypes.tv_capital_synced types) then
    decode ChainEvent.TvCapitalSynced "TvCapitalSynced"%string contents
  else if bool_decide (type_str = EventTypes.tv_risk_state_changed types) then
    decode ChainEvent.TvRiskStateChanged "TvRiskStateChanged"%string contents
  else if bool_decide (type_str = EventTypes.tv_junior_reset_proposed types) then
    decode ChainEvent.TvJuniorResetProposed "TvJuniorResetProposed"%string contents
  else if bool_decide (type_str = EventTypes.tv_junior_reset_cancelled types) then
    decode ChainEvent.TvJuniorResetCancelled "TvJuniorResetCancelled"%string contents
  else if bool_decide (type_str = EventTypes.tv_junior_reset_executed types) then
    decode ChainEvent.TvJuniorResetExecuted "TvJuniorResetExecuted"%string contents
  else if bool_decide (type_str = EventTypes.tv_commitment_released types) then
    decode ChainEvent.TvCommitmentReleased "TvCommitmentReleased"%string contents
  else if bool_decide (type_str = EventTypes.tv_settlement_snapshot types) then
    decode ChainEvent.TvSettlementSnapshot "TvSettlementSnapshot"%string contents
  else if bool_decide (type_str = EventTypes.tv_settlement_redeemed types) then
    decode ChainEvent.TvSettlementRedeemed "TvSettlementRedeemed"%string contents
  else if bool_decide (type_str = EventTypes.tv_settlement_curator_fees_claimed types) then
    decode ChainEvent.TvSettlementCuratorFeesClaimed "TvSettlementCuratorFeesClaimed"%string contents
  else if bool_decide (type_str = EventTypes.tv_deposit_asset_added types) then
    decode ChainEvent.TvDepositAssetAdded "TvDepositAssetAdded"%string contents
  else if bool_decide (type_str = EventTypes.tv_deposit_asset_removed types) then
    decode ChainEvent.TvDepositAssetRemoved "TvDepositAssetRemoved"%string contents
  else if bool_decide (type_str = EventTypes.tv_haircuts_set types) then
    decode ChainEvent.TvHaircutsSet "TvHaircutsSet"%string contents
  else if bool_decide (type_str = EventTypes.tv_payout_asset_amended types) then
    decode ChainEvent.TvPayoutAssetAmended "TvPayoutAssetAmended"%string contents
  else if bool_decide (type_str = EventTypes.tv_session_settled types) then
    decode ChainEvent.TvSessionSettled "TvSessionSettled"%string contents
  else if bool_decide (type_str = EventTypes.tv_position_stored types) then
    decode ChainEvent.TvPositionStored "TvPositionStored"%string contents
  else if bool_decide (type_str = EventTypes.tv_position_removed types) then
    decode ChainEvent.TvPositionRemoved "TvPositionRemoved"%string contents
  else if bool_decide (type_str = EventTypes.tv_position_appraised types) then
    decode ChainEvent.TvPositionAppraised "TvPositionAppraised"%string contents
  else if bool_decide (type_str = EventTypes.tv_vault_appraised types) then
    decode ChainEvent.TvVaultAppraised "TvVaultAppraised"%string contents
  else if bool_decide (type_str = EventTypes.tv_adapter_allowed types) then
    decode ChainEvent.TvAdapterAllowed "TvAdapterAllowed"%string contents
  else if bool_decide (type_str = EventTypes.tv_adapter_disallowed types) then
    decode ChainEvent.TvAdapterDisallowed "TvAdapterDisallowed"%string contents
  else if bool_decide (type_str = EventTypes.tv_oracle_allowed types) then
    decode ChainEvent.TvOracleAllowed "TvOracleAllowed"%string contents
  else if bool_decide (type_str = EventTypes.tv_oracle_disallowed types) then
    decode ChainEvent.TvOracleDisallowed "TvOracleDisallowed"%string contents
  else if bool_decide (type_str = EventTypes.tv_protocol_config_updated types) then
    decode ChainEvent.TvProtocolConfigUpdated "TvProtocolConfigUpdated"%string contents
  else if bool_decide (type_str = EventTypes.tv_collateral_released types) then
    decode ChainEvent.TvCollateralReleased "TvCollateralReleased"%string contents
  else if bool_decide (type_str = EventTypes.tv_custody_created types) then
    decode ChainEvent.TvCustodyCreated "TvCustodyCreated"%string contents
  else if bool_decide (type_str = EventTypes.tv_exchange_custody_created types) then
    decode ChainEvent.TvExchangeCustodyCreated "TvExchangeCustodyCreated"%string contents
  else if bool_decide (type_str = EventTypes.tv_vault_quote_filled types) then
    decode ChainEvent.TvVaultQuoteFilled "TvVaultQuoteFilled"%string contents
  else if bool_decide (type_str = EventTypes.tv_quote_adapter_added types) then
    decode ChainEvent.TvQuoteAdapterAdded "TvQuoteAdapterAdded"%string contents
  else if bool_decide (type_str = EventTypes.tv_quote_adapter_removed types) then
    decode ChainEvent.TvQuoteAdapterRemoved "TvQuoteAdapterRemoved"%string contents
  else if bool_decide (type_str = EventTypes.tv_pool_allowed types) then
    decode ChainEvent.TvPoolAllowed "TvPoolAllowed"%string contents
  else if bool_decide (type_str = EventTypes.tv_pool_disallowed types) then
    decode ChainEvent.TvPoolDisallowed "TvPoolDisallowed"%string contents
  else if bool_decide (type_str = EventTypes.tv_rfq_opened types) then
    decode ChainEvent.TvRfqOpened "TvRfqOpened"%string contents
  else if bool_decide (type_str = EventTypes.tv_rfq_settled types) then
    decode ChainEvent.TvRfqSettled "TvRfqSettled"%string contents
  else if bool_decide (type_str = EventTypes.tv_position_redeemed types) then
    decode ChainEvent.TvPositionRedeemed "TvPositionRedeemed"%string contents
  else if bool_decide (type_str = EventTypes.tv_mm_coin_exercised types) then
    decode ChainEvent.TvMmCoinExercised "TvMmCoinExercised"%string contents
  else if bool_decide (type_str = EventTypes.tv_mm_offset_closed types) then
    decode ChainEvent.TvMmOffsetClosed "TvMmOffsetClosed"%string contents
  else if bool_decide (type_str = EventTypes.tv_mm_coin_released types) then
    decode ChainEvent.TvMmCoinReleased "TvMmCoinReleased"%string contents
  else if bool_decide (type_str = EventTypes.tv_taker_swap_executed types) then
    decode ChainEvent.TvTakerSwapExecuted "TvTakerSwapExecuted"%string contents
  else if bool_decide (type_str = EventTypes.tv_bid_placed types) then
    decode ChainEvent.TvBidPlaced "TvBidPlaced"%string contents
  else if bool_decide (type_str = EventTypes.tv_bid_reclaimed types) then
    decode ChainEvent.TvBidReclaimed "TvBidReclaimed"%string contents
  else if bool_decide (type_str = EventTypes.tv_bid_redeemed types) then
    decode ChainEvent.TvBidRedeemed "TvBidRedeemed"%string contents
  else if bool_decide (type_str = EventTypes.tv_external_account_set types) then
    decode ChainEvent.TvExternalAccountSet "TvExternalAccountSet"%string contents
  else if bool_decide (type_str = EventTypes.tv_external_account_cleared types) then
    decode ChainEvent.TvExternalAccountCleared "TvExternalAccountCleared"%string contents
  else if bool_decide (type_str = EventTypes.tv_external_released types) then
    decode ChainEvent.TvExternalReleased "TvExternalReleased"%string contents
  else if bool_decide (type_str = EventTypes.tv_external_returned types) then
    decode ChainEvent.TvExternalReturned "TvExternalReturned"%string contents
  else if bool_decide (type_str = EventTypes.equity_posted types) then
    decode ChainEvent.EquityPosted "EquityPosted"%string contents
  else if bool_decide (type_str = EventTypes.option_market_listed types) then
    decode ChainEvent.OptionMarketListed "OptionMarketListed"%string contents
  else Ok None.
End dispatch.

(** * The subscriptions, as a table

    The package, the module and the struct of every Move event, and the decoder
    it is meant for. *)

Inductive Package :=
  | Core | Auction | Rfq | Vault | TradingVault | DeepBookAdapter | OptionsAdapter | ExchangeAdapter
  | EquityOracle | ExchangeListing | Exchange.

#[export] Instance Package_eq_dec : EqDecision Package.
Proof. solve_decision. Defined.

Definition package_id (pkgs : PackageIds.t) (p : Package) : option rstring :=
  match p with
  | Core => Some (PackageIds.core pkgs)
  | Auction => PackageIds.auction pkgs
  | Rfq => PackageIds.rfq pkgs
  | Vault => PackageIds.vault pkgs
  | TradingVault => PackageIds.trading_vault pkgs
  | DeepBookAdapter => PackageIds.deepbook_adapter pkgs
  | OptionsAdapter => PackageIds.options_adapter pkgs
  | ExchangeAdapter => PackageIds.exchange_adapter pkgs
  | EquityOracle => PackageIds.equity_oracle pkgs
  | ExchangeListing => PackageIds.exchange_listing pkgs
  | Exchange => PackageIds.exchange pkgs
  end.

Record Subscription := {
  sub_package : Package; sub_module : string; sub_struct : string;
  sub_decode : list Z → result DecodeError (option ChainEvent.t)
}.

Definition subscriptions `{BcsCrate} : list Subscription := [
  Build_Subscription Core "events" "BucketCreated" (decode ChainEvent.BucketCreated "BucketCreated"%string);
  Build_Subscription Core "events" "WriteExecuted" (decode ChainEvent.WriteExecuted "WriteExecuted"%string);
  Build_Subscription Core "events" "Exercised" (decode ChainEvent.Exercised "Exercised"%string);
  Build_Subscription Core "events" "Redeemed" (decode ChainEvent.Redeemed "Redeemed"%string);
  Build_Subscription Core "events" "ExpiredOptionBurned" (decode ChainEvent.ExpiredOptionBurned "ExpiredOptionBurned"%string);
  Build_Subscription Core "events" "BucketCleaned" (decode ChainEvent.BucketCleaned "BucketCleaned"%string);
  Build_Subscription Core "events" "BucketInvalidated" (decode ChainEvent.BucketInvalidated "BucketInvalidated"%string);
  Build_Subscription Core "events" "BucketRevalidated" (decode ChainEvent.BucketRevalidated "BucketRevalidated"%string);
  Build_Subscription Core "events" "SignerCreated" (decode ChainEvent.SignerCreated "SignerCreated"%string);
  Build_Subscription Core "events" "SigningKeyRotated" (decode ChainEvent.SigningKeyRotated "SigningKeyRotated"%string);
  Build_Subscription Core "events" "FeeUpdated" (decode ChainEvent.FeeUpdated "FeeUpdated"%string);
  Build_Subscription Core "events" "TreasuryWithdrawn" (decode ChainEvent.TreasuryWithdrawn "TreasuryWithdrawn"%string);
  Build_Subscription Core "events" "CollateralizedWrite" (decode ChainEvent.CollateralizedWrite "CollateralizedWrite"%string);
  Build_Subscription Auction "events" "AuctionCreated" (decode ChainEvent.AuctionCreated "AuctionCreated"%string);
  Build_Subscription Auction "events" "AuctionBid" (decode ChainEvent.AuctionBid "AuctionBid"%string);
  Build_Subscription Auction "events" "AuctionSettled" (decode ChainEvent.AuctionSettled "AuctionSettled"%string);
  Build_Subscription Auction "events" "AuctionUnfilled" (decode ChainEvent.AuctionUnfilled "AuctionUnfilled"%string);
  Build_Subscription Rfq "events" "RfqCreated" (decode ChainEvent.RfqCreated "RfqCreated"%string);
  Build_Subscription Rfq "events" "RfqSettled" (decode ChainEvent.RfqSettled "RfqSettled"%string);
  Build_Subscription Rfq "events" "RfqExpiredUnsold" (decode ChainEvent.RfqExpiredUnsold "RfqExpiredUnsold"%string);
  Build_Subscription Vault "events" "VaultRfqSettled" (decode ChainEvent.VaultRfqSettled "VaultRfqSettled"%string);
  Build_Subscription Vault "events" "VaultRfqUnsold" (decode ChainEvent.VaultRfqUnsold "VaultRfqUnsold"%string);
  Build_Subscription Vault "events" "SwapRfqSettled" (decode ChainEvent.SwapRfqSettled "SwapRfqSettled"%string);
  Build_Subscription Vault "events" "SwapRfqUnfilled" (decode ChainEvent.SwapRfqUnfilled "SwapRfqUnfilled"%string);
  Build_Subscription Vault "events" "VaultCreated" (decode ChainEvent.VaultCreated "VaultCreated"%string);
  Build_Subscription Vault "events" "VaultDeposit" (decode ChainEvent.VaultDeposit "VaultDeposit"%string);
  Build_Subscription Vault "events" "SharesClaimed" (decode ChainEvent.SharesClaimed "SharesClaimed"%string);
  Build_Subscription Vault "events" "WithdrawInitiated" (decode ChainEvent.WithdrawInitiated "WithdrawInitiated"%string);
  Build_Subscription Vault "events" "WithdrawCompleted" (decode ChainEvent.WithdrawCompleted "WithdrawCompleted"%string);
  Build_Subscription Vault "events" "InstantWithdraw" (decode ChainEvent.InstantWithdraw "InstantWithdraw"%string);
  Build_Subscription Vault "events" "VaultBucketSelected" (decode ChainEvent.VaultBucketSelected "VaultBucketSelected"%string);
  Build_Subscription Vault "events" "VaultPositionRedeemed" (decode ChainEvent.VaultPositionRedeemed "VaultPositionRedeemed"%string);
  Build_Subscription Vault "events" "VaultFeesCharged" (decode ChainEvent.VaultFeesCharged "VaultFeesCharged"%string);
  Build_Subscription Vault "events" "VaultRoundFinalized" (decode ChainEvent.VaultRoundFinalized "VaultRoundFinalized"%string);
  Build_Subscription Vault "events" "VaultConfigUpdated" (decode ChainEvent.VaultConfigUpdated "VaultConfigUpdated"%string);
  Build_Subscription Vault "events" "VaultConfigApplied" (decode ChainEvent.VaultConfigApplied "VaultConfigApplied"%string);
  Build_Subscription Vault "events" "VaultDepositsPaused" (decode ChainEvent.VaultDepositsPaused "VaultDepositsPaused"%string);
  Build_Subscription Core "events" "PutBucketCreated" (decode ChainEvent.PutBucketCreated "PutBucketCreated"%string);
  Build_Subscription Core "events" "PutWriteExecuted" (decode ChainEvent.PutWriteExecuted "PutWriteExecuted"%string);
  Build_Subscription Core "events" "PutCollateralizedWrite" (decode ChainEvent.PutCollateralizedWrite "PutCollateralizedWrite"%string);
  Build_Subscription Core "events" "PutExercised" (decode ChainEvent.PutExercised "PutExercised"%string);
  Build_Subscription Core "events" "PutRedeemed" (decode ChainEvent.PutRedeemed "PutRedeemed"%string);
  Build_Subscription Core "events" "PutExpiredOptionBurned" (decode ChainEvent.PutExpiredOptionBurned "PutExpiredOptionBurned"%string);
  Build_Subscription Core "events" "PutBucketCleaned" (decode ChainEvent.PutBucketCleaned "PutBucketCleaned"%string);
  Build_Subscription Core "events" "PutBucketInvalidated" (decode ChainEvent.PutBucketInvalidated "PutBucketInvalidated"%string);
  Build_Subscription Core "events" "PutBucketRevalidated" (decode ChainEvent.PutBucketRevalidated "PutBucketRevalidated"%string);
  Build_Subscription Rfq "events" "PutRfqCreated" (decode ChainEvent.PutRfqCreated "PutRfqCreated"%string);
  Build_Subscription Rfq "events" "PutRfqSettled" (decode ChainEvent.PutRfqSettled "PutRfqSettled"%string);
  Build_Subscription Rfq "events" "PutRfqExpiredUnsold" (decode ChainEvent.PutRfqExpiredUnsold "PutRfqExpiredUnsold"%string);
  Build_Subscription Core "events" "OffsetClosed" (decode ChainEvent.OffsetClosed "OffsetClosed"%string);
  Build_Subscription Core "events" "SpreadWritten" (decode ChainEvent.SpreadWritten "SpreadWritten"%string);
  Build_Subscription Core "events" "SpreadUnwound" (decode ChainEvent.SpreadUnwound "SpreadUnwound"%string);
  Build_Subscription Core "events" "SpreadClosed" (decode ChainEvent.SpreadClosed "SpreadClosed"%string);
  Build_Subscription Core "events" "SpreadRedeemed" (decode ChainEvent.SpreadRedeemed "SpreadRedeemed"%string);
  Build_Subscription Core "events" "PutSpreadWritten" (decode ChainEvent.PutSpreadWritten "PutSpreadWritten"%string);
  Build_Subscription Core "events" "PutSpreadExercised" (decode ChainEvent.PutSpreadExercised "PutSpreadExercised"%string);
  Build_Subscription Core "events" "PutSpreadClosed" (decode ChainEvent.PutSpreadClosed "PutSpreadClosed"%string);
  Build_Subscription Core "events" "PutSpreadRedeemed" (decode ChainEvent.PutSpreadRedeemed "PutSpreadRedeemed"%string);
  Build_Subscription OptionsAdapter "vol_book" "VolPosted" (decode ChainEvent.VolPosted "VolPosted"%string);
  Build_Subscription TradingVault "events" "VaultCreated" (decode ChainEvent.TvVaultCreated "TvVaultCreated"%string);
  Build_Subscription TradingVault "events" "VaultClosing" (decode ChainEvent.TvVaultClosing "TvVaultClosing"%string);
  Build_Subscription TradingVault "events" "VaultClosed" (decode ChainEvent.TvVaultClosed "TvVaultClosed"%string);
  Build_Subscription TradingVault "events" "DepositsPaused" (decode ChainEvent.TvDepositsPaused "TvDepositsPaused"%string);
  Build_Subscription TradingVault "events" "MmReleaseToggled" (decode ChainEvent.TvMmReleaseToggled "TvMmReleaseToggled"%string);
  Build_Subscription TradingVault "events" "CuratorRotated" (decode ChainEvent.TvCuratorRotated "TvCuratorRotated"%string);
  Build_Subscription TradingVault "events" "Deposited" (decode ChainEvent.TvDeposited "TvDeposited"%string);
  Build_Subscription TradingVault "events" "WithdrawRequested" (decode ChainEvent.TvWithdrawRequested "TvWithdrawRequested"%string);
  Build_Subscription TradingVault "events" "WithdrawFulfilled" (decode ChainEvent.TvWithdrawFulfilled "TvWithdrawFulfilled"%string);
  Build_Subscription TradingVault "events" "PositionMinted" (decode ChainEvent.TvPositionMinted "TvPositionMinted"%string);
  Build_Subscription TradingVault "events" "PositionSplit" (decode ChainEvent.TvPositionSplit "TvPositionSplit"%string);
  Build_Subscription TradingVault "events" "PositionMerged" (decode ChainEvent.TvPositionMerged "TvPositionMerged"%string);
  Build_Subscription TradingVault "events" "WipedPositionBurned" (decode ChainEvent.TvWipedPositionBurned "TvWipedPositionBurned"%string);
  Build_Subscription TradingVault "events" "CapitalSynced" (decode ChainEvent.TvCapitalSynced "TvCapitalSynced"%string);
  Build_Subscription TradingVault "events" "RiskStateChanged" (decode ChainEvent.TvRiskStateChanged "TvRiskStateChanged"%string);
  Build_Subscription TradingVault "events" "JuniorResetProposed" (decode ChainEvent.TvJuniorResetProposed "TvJuniorResetProposed"%string);
  Build_Subscription TradingVault "events" "JuniorResetCancelled" (decode ChainEvent.TvJuniorResetCancelled "TvJuniorResetCancelled"%string);
  Build_Subscription TradingVault "events" "JuniorResetExecuted" (decode ChainEvent.TvJuniorResetExecuted "TvJuniorResetExecuted"%string);
  Build_Subscription TradingVault "events" "CommitmentReleased" (decode ChainEvent.TvCommitmentReleased "TvCommitmentReleased"%string);
  Build_Subscription TradingVault "events" "SettlementSnapshot" (decode ChainEvent.TvSettlementSnapshot "TvSettlementSnapshot"%string);
  Build_Subscription TradingVault "events" "SettlementRedeemed" (decode ChainEvent.TvSettlementRedeemed "TvSettlementRedeemed"%string);
  Build_Subscription TradingVault "events" "SettlementCuratorFeesClaimed" (decode ChainEvent.TvSettlementCuratorFeesClaimed "TvSettlementCuratorFeesClaimed"%string);
  Build_Subscription TradingVault "events" "DepositAssetAdded" (decode ChainEvent.TvDepositAssetAdded "TvDepositAssetAdded"%string);
  Build_Subscription TradingVault "events" "DepositAssetRemoved" (decode ChainEvent.TvDepositAssetRemoved "TvDepositAssetRemoved"%string);
  Build_Subscription TradingVault "events" "HaircutsSet" (decode ChainEvent.TvHaircutsSet "TvHaircutsSet"%string);
  Build_Subscription TradingVault "events" "PayoutAssetAmended" (decode ChainEvent.TvPayoutAssetAmended "TvPayoutAssetAmended"%string);
  Build_Subscription TradingVault "events" "SessionSettled" (decode ChainEvent.TvSessionSettled "TvSessionSettled"%string);
  Build_Subscription TradingVault "events" "PositionStored" (decode ChainEvent.TvPositionStored "TvPositionStored"%string);
  Build_Subscription TradingVault "events" "PositionRemoved" (decode ChainEvent.TvPositionRemoved "TvPositionRemoved"%string);
  Build_Subscription TradingVault "events" "PositionAppraised" (decode ChainEvent.TvPositionAppraised "TvPositionAppraised"%string);
  Build_Subscription TradingVault "events" "VaultAppraised" (decode ChainEvent.TvVaultAppraised "TvVaultAppraised"%string);
  Build_Subscription TradingVault "events" "AdapterAllowed" (decode ChainEvent.TvAdapterAllowed "TvAdapterAllowed"%string);
  Build_Subscription TradingVault "events" "AdapterDisallowed" (decode ChainEvent.TvAdapterDisallowed "TvAdapterDisallowed"%string);
  Build_Subscription TradingVault "events" "OracleAllowed" (decode ChainEvent.TvOracleAllowed "TvOracleAllowed"%string);
  Build_Subscription TradingVault "events" "OracleDisallowed" (decode ChainEvent.TvOracleDisallowed "TvOracleDisallowed"%string);
  Build_Subscription TradingVault "events" "ProtocolConfigUpdated" (decode ChainEvent.TvProtocolConfigUpdated "TvProtocolConfigUpdated"%string);
  Build_Subscription TradingVault "vault_mm" "CollateralReleased" (decode ChainEvent.TvCollateralReleased "TvCollateralReleased"%string);
  Build_Subscription DeepBookAdapter "deepbook_adapter" "CustodyCreated" (decode ChainEvent.TvCustodyCreated "TvCustodyCreated"%string);
  Build_Subscription ExchangeAdapter "exchange_adapter" "CustodyCreated" (decode ChainEvent.TvExchangeCustodyCreated "TvExchangeCustodyCreated"%string);
  Build_Subscription ExchangeAdapter "exchange_adapter" "VaultQuoteFilled" (decode ChainEvent.TvVaultQuoteFilled "TvVaultQuoteFilled"%string);
  Build_Subscription TradingVault "events" "QuoteAdapterAdded" (decode ChainEvent.TvQuoteAdapterAdded "TvQuoteAdapterAdded"%string);
  Build_Subscription TradingVault "events" "QuoteAdapterRemoved" (decode ChainEvent.TvQuoteAdapterRemoved "TvQuoteAdapterRemoved"%string);
  Build_Subscription DeepBookAdapter "deepbook_adapter" "PoolAllowed" (decode ChainEvent.TvPoolAllowed "TvPoolAllowed"%string);
  Build_Subscription DeepBookAdapter "deepbook_adapter" "PoolDisallowed" (decode ChainEvent.TvPoolDisallowed "TvPoolDisallowed"%string);
  Build_Subscription OptionsAdapter "options_adapter" "RfqOpened" (decode ChainEvent.TvRfqOpened "TvRfqOpened"%string);
  Build_Subscription OptionsAdapter "options_adapter" "RfqSettled" (decode ChainEvent.TvRfqSettled "TvRfqSettled"%string);
  Build_Subscription OptionsAdapter "options_adapter" "PositionRedeemed" (decode ChainEvent.TvPositionRedeemed "TvPositionRedeemed"%string);
  Build_Subscription TradingVault "events" "MmCoinExercised" (decode ChainEvent.TvMmCoinExercised "TvMmCoinExercised"%string);
  Build_Subscription TradingVault "events" "MmOffsetClosed" (decode ChainEvent.TvMmOffsetClosed "TvMmOffsetClosed"%string);
  Build_Subscription TradingVault "events" "MmCoinReleased" (decode ChainEvent.TvMmCoinReleased "TvMmCoinReleased"%string);
  Build_Subscription DeepBookAdapter "deepbook_adapter" "TakerSwapExecuted" (decode ChainEvent.TvTakerSwapExecuted "TvTakerSwapExecuted"%string);
  Build_Subscription OptionsAdapter "options_adapter" "BidPlaced" (decode ChainEvent.TvBidPlaced "TvBidPlaced"%string);
  Build_Subscription OptionsAdapter "options_adapter" "BidReclaimed" (decode ChainEvent.TvBidReclaimed "TvBidReclaimed"%string);
  Build_Subscription OptionsAdapter "options_adapter" "BidRedeemed" (decode ChainEvent.TvBidRedeemed "TvBidRedeemed"%string);
  Build_Subscription TradingVault "events" "ExternalAccountSet" (decode ChainEvent.TvExternalAccountSet "TvExternalAccountSet"%string);
  Build_Subscription TradingVault "events" "ExternalAccountCleared" (decode ChainEvent.TvExternalAccountCleared "TvExternalAccountCleared"%string);
  Build_Subscription TradingVault "events" "ExternalReleased" (decode ChainEvent.TvExternalReleased "TvExternalReleased"%string);
  Build_Subscription TradingVault "events" "ExternalReturned" (decode ChainEvent.TvExternalReturned "TvExternalReturned"%string);
  Build_Subscription EquityOracle "equity_oracle" "EquityPosted" (decode ChainEvent.EquityPosted "EquityPosted"%string);
  Build_Subscription ExchangeListing "exchange_listing" "OptionMarketListed" (decode ChainEvent.OptionMarketListed "OptionMarketListed"%string)
].

(** * Events of other packages *)

(** [split_top_level_generics]: the commas outside brackets separate. *)
Fixpoint split_generics (depth : Z) (current : rstring) (out : list rstring) (s : rstring) : list rstring :=
  match s with
  | [] => if bool_decide (trim current = []) then out else out ++ [trim current]
  | c :: s =>
      if c =? 60 then split_generics (depth + 1) (current ++ [c]) out s
      else if c =? 62 then split_generics (Z.max 0 (depth - 1)) (current ++ [c]) out s
      else if (c =? 44) && (depth =? 0) then split_generics depth [] (out ++ [trim current]) s
      else split_generics depth (current ++ [c]) out s
  end.

Definition split_top_level_generics (s : rstring) : list rstring := split_generics 0 [] [] s.

Module DeepBookPoolCreatedPartial.
Record t := mk {
  pool_id : ObjectId; base_asset_type : AssetType; quote_asset_type : AssetType; tick_size : Z; lot_size : Z;
  min_size : Z; taker_fee : Z; maker_fee : Z
}.
Definition wf (e : t) : Prop :=
  id_wf (pool_id e) ∧ u64 (tick_size e) ∧ u64 (lot_size e) ∧ u64 (min_size e) ∧ u64 (taker_fee e) ∧ u64 (maker_fee e).
End DeepBookPoolCreatedPartial.

Module DeepBookOrderFilledPartial.
Record t := mk {
  pool_id : ObjectId; taker_balance_manager_id : ObjectId; maker_balance_manager_id : ObjectId;
  taker_is_bid : bool; base_quantity : Z; quote_quantity : Z; price : Z; taker_fee : Z;
  taker_fee_is_deep : bool; maker_fee : Z; maker_fee_is_deep : bool; timestamp_ms : Z
}.
Definition wf (e : t) : Prop :=
  id_wf (pool_id e) ∧ id_wf (taker_balance_manager_id e) ∧ id_wf (maker_balance_manager_id e) ∧
  u64 (base_quantity e) ∧ u64 (quote_quantity e) ∧ u64 (price e) ∧ u64 (taker_fee e) ∧ u64 (maker_fee e) ∧
  u64 (timestamp_ms e).
End DeepBookOrderFilledPartial.

Abbreviation ExchangeFillPartial := RawExchangeFill.t.

Section foreign.
Context `{BcsCrate}.

Definition parse_deepbook_pool_created (types : EventTypes.t) (type_str : rstring) (contents : list Z) :
    result DecodeError (option DeepBookPoolCreatedPartial.t) :=
  match EventTypes.deepbook_pool_created_prefix types with
  | None => Ok None
  | Some prefix =>
      if negb (starts_with prefix type_str) then Ok None else
      generics ← ok_or (rest ← strip_prefix prefix type_str; strip_suffix_char 62 rest) (MalformedPoolType type_str);
      match split_top_level_generics generics with
      | [base; quote] =>
          raw ← ok_or (bcs_from_bytes contents) (BcsDecode (str "RawDeepBookPoolCreated"));
          Ok (Some {|
            DeepBookPoolCreatedPartial.pool_id := RawDeepBookPoolCreated.pool_id raw;
            DeepBookPoolCreatedPartial.base_asset_type := base;
            DeepBookPoolCreatedPartial.quote_asset_type := quote;
            DeepBookPoolCreatedPartial.tick_size := RawDeepBookPoolCreated.tick_size raw;
            DeepBookPoolCreatedPartial.lot_size := RawDeepBookPoolCreated.lot_size raw;
            DeepBookPoolCreatedPartial.min_size := RawDeepBookPoolCreated.min_size raw;
            DeepBookPoolCreatedPartial.taker_fee := RawDeepBookPoolCreated.taker_fee raw;
            DeepBookPoolCreatedPartial.maker_fee := RawDeepBookPoolCreated.maker_fee raw
          |})
      | params => Err (PoolTypeParams (length params))
      end
  end.

Definition parse_deepbook_order_filled (types : EventTypes.t) (type_str : rstring) (contents : list Z) :
    result DecodeError (option DeepBookOrderFilledPartial.t) :=
  match EventTypes.deepbook_order_filled types with
  | None => Ok None
  | Some expected =>
      if negb (bool_decide (type_str = expected)) then Ok None else
      raw ← ok_or (bcs_from_bytes contents) (BcsDecode (str "RawOrderFilled"));
      Ok (Some {|
        DeepBookOrderFilledPartial.pool_id := RawOrderFilled.pool_id raw;
        DeepBookOrderFilledPartial.taker_balance_manager_id := RawOrderFilled.taker_balance_manager_id raw;
        DeepBookOrderFilledPartial.maker_balance_manager_id := RawOrderFilled.maker_balance_manager_id raw;
        DeepBookOrderFilledPartial.taker_is_bid := RawOrderFilled.taker_is_bid raw;
        DeepBookOrderFilledPartial.base_quantity := RawOrderFilled.base_quantity raw;
        DeepBookOrderFilledPartial.quote_quantity := RawOrderFilled.quote_quantity raw;
        DeepBookOrderFilledPartial.price := RawOrderFilled.price raw;
        DeepBookOrderFilledPartial.taker_fee := RawOrderFilled.taker_fee raw;
        DeepBookOrderFilledPartial.taker_fee_is_deep := RawOrderFilled.taker_fee_is_deep raw;
        DeepBookOrderFilledPartial.maker_fee := RawOrderFilled.maker_fee raw;
        DeepBookOrderFilledPartial.maker_fee_is_deep := RawOrderFilled.maker_fee_is_deep raw;
        DeepBookOrderFilledPartial.timestamp_ms := RawOrderFilled.timestamp raw
      |})
  end.

(** The partial has the fields of the raw event, in the same order. *)
Definition parse_exchange_fill (types : EventTypes.t) (type_str : rstring) (contents : list Z) :
    result DecodeError (option ExchangeFillPartial) :=
  if negb (bool_decide (type_str = EventTypes.exchange_fill types)) then Ok None else
  raw ← ok_or (bcs_from_bytes contents) (BcsDecode (str "RawExchangeFill"));
  Ok (Some raw).
End foreign.

Lemma split_at_colon (p q r s : rstring) : 58 ∉ p → 58 ∉ q → p ++ 58 :: r = q ++ 58 :: s → p = q ∧ r = s.
Proof.
  revert q. induction p as [|c p IH]; intros [|d q] Hp Hq E; cbn in E.
  - by injection E.
  - injection E as <- _. set_solver.
  - injection E as -> _. set_solver.
  - injection E as -> E. apply IH in E as [-> ->]; [done|set_solver..].
Qed.

Lemma move_type_inj p m n p' m' n' :
  58 ∉ p → 58 ∉ p' → 58 ∉ m → 58 ∉ m' → move_type p m n = move_type p' m' n' → p = p' ∧ m = m' ∧ n = n'.
Proof.
  intros Hp Hp' Hm Hm' E. unfold move_type in E. change (str "::") with [58; 58] in E. cbn [app] in E.
  apply split_at_colon in E as [-> E]; [|done..]. injection E as E.
  apply split_at_colon in E as [-> E]; [|done..]. by injection E.
Qed.

Section subscriptions.
Context `{BcsCrate} (pkgs : PackageIds.t).
Implicit Types (sub : Subscription) (l : list Subscription).

Definition sub_type sub : rstring :=
  deployed (package_id pkgs (sub_package sub)) (str (sub_module sub)) (str (sub_struct sub)).

(** The branches of [dispatch], as a list. *)
Definition branches (types : EventTypes.t) : list (rstring * (list Z → result DecodeError (option ChainEvent.t))) := [
  (EventTypes.bucket_created types, decode ChainEvent.BucketCreated "BucketCreated"%string);
  (EventTypes.write_executed types, decode ChainEvent.WriteExecuted "WriteExecuted"%string);
  (EventTypes.exercised types, decode ChainEvent.Exercised "Exercised"%string);
  (EventTypes.redeemed types, decode ChainEvent.Redeemed "Redeemed"%string);
  (EventTypes.expired_option_burned types, decode ChainEvent.ExpiredOptionBurned "ExpiredOptionBurned"%string);
  (EventTypes.bucket_cleaned types, decode ChainEvent.BucketCleaned "BucketCleaned"%string);
  (EventTypes.bucket_invalidated types, decode ChainEvent.BucketInvalidated "BucketInvalidated"%string);
  (EventTypes.bucket_revalidated types, decode ChainEvent.BucketRevalidated "BucketRevalidated"%string);
  (EventTypes.signer_created types, decode ChainEvent.SignerCreated "SignerCreated"%string);
  (EventTypes.signing_key_rotated types, decode ChainEvent.SigningKeyRotated "SigningKeyRotated"%string);
  (EventTypes.fee_updated types, decode ChainEvent.FeeUpdated "FeeUpdated"%string);
  (EventTypes.treasury_withdrawn types, decode ChainEvent.TreasuryWithdrawn "TreasuryWithdrawn"%string);
  (EventTypes.collateralized_write types, decode ChainEvent.CollateralizedWrite "CollateralizedWrite"%string);
  (EventTypes.auction_created types, decode ChainEvent.AuctionCreated "AuctionCreated"%string);
  (EventTypes.auction_bid types, decode ChainEvent.AuctionBid "AuctionBid"%string);
  (EventTypes.auction_settled types, decode ChainEvent.AuctionSettled "AuctionSettled"%string);
  (EventTypes.auction_unfilled types, decode ChainEvent.AuctionUnfilled "AuctionUnfilled"%string);
  (EventTypes.rfq_created types, decode ChainEvent.RfqCreated "RfqCreated"%string);
  (EventTypes.rfq_settled types, decode ChainEvent.RfqSettled "RfqSettled"%string);
  (EventTypes.rfq_expired_unsold types, decode ChainEvent.RfqExpiredUnsold "RfqExpiredUnsold"%string);
  (EventTypes.vault_rfq_settled types, decode ChainEvent.VaultRfqSettled "VaultRfqSettled"%string);
  (EventTypes.vault_rfq_unsold types, decode ChainEvent.VaultRfqUnsold "VaultRfqUnsold"%string);
  (EventTypes.swap_rfq_settled types, decode ChainEvent.SwapRfqSettled "SwapRfqSettled"%string);
  (EventTypes.swap_rfq_unfilled types, decode ChainEvent.SwapRfqUnfilled "SwapRfqUnfilled"%string);
  (EventTypes.vault_created types, decode ChainEvent.VaultCreated "VaultCreated"%string);
  (EventTypes.vault_deposit types, decode ChainEvent.VaultDeposit "VaultDeposit"%string);
  (EventTypes.shares_claimed types, decode ChainEvent.SharesClaimed "SharesClaimed"%string);
  (EventTypes.withdraw_initiated types, decode ChainEvent.WithdrawInitiated "WithdrawInitiated"%string);
  (EventTypes.withdraw_completed types, decode ChainEvent.WithdrawCompleted "WithdrawCompleted"%string);
  (EventTypes.instant_withdraw types, decode ChainEvent.InstantWithdraw "InstantWithdraw"%string);
  (EventTypes.vault_bucket_selected types, decode ChainEvent.VaultBucketSelected "VaultBucketSelected"%string);
  (EventTypes.vault_position_redeemed types, decode ChainEvent.VaultPositionRedeemed "VaultPositionRedeemed"%string);
  (EventTypes.vault_fees_charged types, decode ChainEvent.VaultFeesCharged "VaultFeesCharged"%string);
  (EventTypes.vault_round_finalized types, decode ChainEvent.VaultRoundFinalized "VaultRoundFinalized"%string);
  (EventTypes.vault_config_updated types, decode ChainEvent.VaultConfigUpdated "VaultConfigUpdated"%string);
  (EventTypes.vault_config_applied types, decode ChainEvent.VaultConfigApplied "VaultConfigApplied"%string);
  (EventTypes.vault_deposits_paused types, decode ChainEvent.VaultDepositsPaused "VaultDepositsPaused"%string);
  (EventTypes.put_bucket_created types, decode ChainEvent.PutBucketCreated "PutBucketCreated"%string);
  (EventTypes.put_write_executed types, decode ChainEvent.PutWriteExecuted "PutWriteExecuted"%string);
  (EventTypes.put_collateralized_write types, decode ChainEvent.PutCollateralizedWrite "PutCollateralizedWrite"%string);
  (EventTypes.put_exercised types, decode ChainEvent.PutExercised "PutExercised"%string);
  (EventTypes.put_redeemed types, decode ChainEvent.PutRedeemed "PutRedeemed"%string);
  (EventTypes.put_expired_option_burned types, decode ChainEvent.PutExpiredOptionBurned "PutExpiredOptionBurned"%string);
  (EventTypes.put_bucket_cleaned types, decode ChainEvent.PutBucketCleaned "PutBucketCleaned"%string);
  (EventTypes.put_bucket_invalidated types, decode ChainEvent.PutBucketInvalidated "PutBucketInvalidated"%string);
  (EventTypes.put_bucket_revalidated types, decode ChainEvent.PutBucketRevalidated "PutBucketRevalidated"%string);
  (EventTypes.put_rfq_created types, decode ChainEvent.PutRfqCreated "PutRfqCreated"%string);
  (EventTypes.put_rfq_settled types, decode ChainEvent.PutRfqSettled "PutRfqSettled"%string);
  (EventTypes.put_rfq_expired_unsold types, decode ChainEvent.PutRfqExpiredUnsold "PutRfqExpiredUnsold"%string);
  (EventTypes.offset_closed types, decode ChainEvent.OffsetClosed "OffsetClosed"%string);
  (EventTypes.spread_written types, decode ChainEvent.SpreadWritten "SpreadWritten"%string);
  (EventTypes.spread_unwound types, decode ChainEvent.SpreadUnwound "SpreadUnwound"%string);
  (EventTypes.spread_closed types, decode ChainEvent.SpreadClosed "SpreadClosed"%string);
  (EventTypes.spread_redeemed types, decode ChainEvent.SpreadRedeemed "SpreadRedeemed"%string);
  (EventTypes.put_spread_written types, decode ChainEvent.PutSpreadWritten "PutSpreadWritten"%string);
  (EventTypes.put_spread_exercised types, decode ChainEvent.PutSpreadExercised "PutSpreadExercised"%string);
  (EventTypes.put_spread_closed types, decode ChainEvent.PutSpreadClosed "PutSpreadClosed"%string);
  (EventTypes.put_spread_redeemed types, decode ChainEvent.PutSpreadRedeemed "PutSpreadRedeemed"%string);
  (EventTypes.vol_posted types, decode ChainEvent.VolPosted "VolPosted"%string);
  (EventTypes.tv_vault_created types, decode ChainEvent.TvVaultCreated "TvVaultCreated"%string);
  (EventTypes.tv_vault_closing types, decode ChainEvent.TvVaultClosing "TvVaultClosing"%string);
  (EventTypes.tv_vault_closed types, decode ChainEvent.TvVaultClosed "TvVaultClosed"%string);
  (EventTypes.tv_deposits_paused types, decode ChainEvent.TvDepositsPaused "TvDepositsPaused"%string);
  (EventTypes.tv_mm_release_toggled types, decode ChainEvent.TvMmReleaseToggled "TvMmReleaseToggled"%string);
  (EventTypes.tv_curator_rotated types, decode ChainEvent.TvCuratorRotated "TvCuratorRotated"%string);
  (EventTypes.tv_deposited types, decode ChainEvent.TvDeposited "TvDeposited"%string);
  (EventTypes.tv_withdraw_requested types, decode ChainEvent.TvWithdrawRequested "TvWithdrawRequested"%string);
  (EventTypes.tv_withdraw_fulfilled types, decode ChainEvent.TvWithdrawFulfilled "TvWithdrawFulfilled"%string);
  (EventTypes.tv_position_minted types, decode ChainEvent.TvPositionMinted "TvPositionMinted"%string);
  (EventTypes.tv_position_split types, decode ChainEvent.TvPositionSplit "TvPositionSplit"%string);
  (EventTypes.tv_position_merged types, decode ChainEvent.TvPositionMerged "TvPositionMerged"%string);
  (EventTypes.tv_wiped_position_burned types, decode ChainEvent.TvWipedPositionBurned "TvWipedPositionBurned"%string);
  (EventTypes.tv_capital_synced types, decode ChainEvent.TvCapitalSynced "TvCapitalSynced"%string);
  (EventTypes.tv_risk_state_changed types, decode ChainEvent.TvRiskStateChanged "TvRiskStateChanged"%string);
  (EventTypes.tv_junior_reset_proposed types, decode ChainEvent.TvJuniorResetProposed "TvJuniorResetProposed"%string);
  (EventTypes.tv_junior_reset_cancelled types, decode ChainEvent.TvJuniorResetCancelled "TvJuniorResetCancelled"%string);
  (EventTypes.tv_junior_reset_executed types, decode ChainEvent.TvJuniorResetExecuted "TvJuniorResetExecuted"%string);
  (EventTypes.tv_commitment_released types, decode ChainEvent.TvCommitmentReleased "TvCommitmentReleased"%string);
  (EventTypes.tv_settlement_snapshot types, decode ChainEvent.TvSettlementSnapshot "TvSettlementSnapshot"%string);
  (EventTypes.tv_settlement_redeemed types, decode ChainEvent.TvSettlementRedeemed "TvSettlementRedeemed"%string);
  (EventTypes.tv_settlement_curator_fees_claimed types, decode ChainEvent.TvSettlementCuratorFeesClaimed "TvSettlementCuratorFeesClaimed"%string);
  (EventTypes.tv_deposit_asset_added types, decode ChainEvent.TvDepositAssetAdded "TvDepositAssetAdded"%string);
  (EventTypes.tv_deposit_asset_removed types, decode ChainEvent.TvDepositAssetRemoved "TvDepositAssetRemoved"%string);
  (EventTypes.tv_haircuts_set types, decode ChainEvent.TvHaircutsSet "TvHaircutsSet"%string);
  (EventTypes.tv_payout_asset_amended types, decode ChainEvent.TvPayoutAssetAmended "TvPayoutAssetAmended"%string);
  (EventTypes.tv_session_settled types, decode ChainEvent.TvSessionSettled "TvSessionSettled"%string);
  (EventTypes.tv_position_stored types, decode ChainEvent.TvPositionStored "TvPositionStored"%string);
  (EventTypes.tv_position_removed types, decode ChainEvent.TvPositionRemoved "TvPositionRemoved"%string);
  (EventTypes.tv_position_appraised types, decode ChainEvent.TvPositionAppraised "TvPositionAppraised"%string);
  (EventTypes.tv_vault_appraised types, decode ChainEvent.TvVaultAppraised "TvVaultAppraised"%string);
  (EventTypes.tv_adapter_allowed types, decode ChainEvent.TvAdapterAllowed "TvAdapterAllowed"%string);
  (EventTypes.tv_adapter_disallowed types, decode ChainEvent.TvAdapterDisallowed "TvAdapterDisallowed"%string);
  (EventTypes.tv_oracle_allowed types, decode ChainEvent.TvOracleAllowed "TvOracleAllowed"%string);
  (EventTypes.tv_oracle_disallowed types, decode ChainEvent.TvOracleDisallowed "TvOracleDisallowed"%string);
  (EventTypes.tv_protocol_config_updated types, decode ChainEvent.TvProtocolConfigUpdated "TvProtocolConfigUpdated"%string);
  (EventTypes.tv_collateral_released types, decode ChainEvent.TvCollateralReleased "TvCollateralReleased"%string);
  (EventTypes.tv_custody_created types, decode ChainEvent.TvCustodyCreated "TvCustodyCreated"%string);
  (EventTypes.tv_exchange_custody_created types, decode ChainEvent.TvExchangeCustodyCreated "TvExchangeCustodyCreated"%string);
  (EventTypes.tv_vault_quote_filled types, decode ChainEvent.TvVaultQuoteFilled "TvVaultQuoteFilled"%string);
  (EventTypes.tv_quote_adapter_added types, decode ChainEvent.TvQuoteAdapterAdded "TvQuoteAdapterAdded"%string);
  (EventTypes.tv_quote_adapter_removed types, decode ChainEvent.TvQuoteAdapterRemoved "TvQuoteAdapterRemoved"%string);
  (EventTypes.tv_pool_allowed types, decode ChainEvent.TvPoolAllowed "TvPoolAllowed"%string);
  (EventTypes.tv_pool_disallowed types, decode ChainEvent.TvPoolDisallowed "TvPoolDisallowed"%string);
  (EventTypes.tv_rfq_opened types, decode ChainEvent.TvRfqOpened "TvRfqOpened"%string);
  (EventTypes.tv_rfq_settled types, decode ChainEvent.TvRfqSettled "TvRfqSettled"%string);
  (EventTypes.tv_position_redeemed types, decode ChainEvent.TvPositionRedeemed "TvPositionRedeemed"%string);
  (EventTypes.tv_mm_coin_exercised types, decode ChainEvent.TvMmCoinExercised "TvMmCoinExercised"%string);
  (EventTypes.tv_mm_offset_closed types, decode ChainEvent.TvMmOffsetClosed "TvMmOffsetClosed"%string);
  (EventTypes.tv_mm_coin_released types, decode ChainEvent.TvMmCoinReleased "TvMmCoinReleased"%string);
  (EventTypes.tv_taker_swap_executed types, decode ChainEvent.TvTakerSwapExecuted "TvTakerSwapExecuted"%string);
  (EventTypes.tv_bid_placed types, decode ChainEvent.TvBidPlaced "TvBidPlaced"%string);
  (EventTypes.tv_bid_reclaimed types, decode ChainEvent.TvBidReclaimed "TvBidReclaimed"%string);
  (EventTypes.tv_bid_redeemed types, decode ChainEvent.TvBidRedeemed "TvBidRedeemed"%string);
  (EventTypes.tv_external_account_set types, decode ChainEvent.TvExternalAccountSet "TvExternalAccountSet"%string);
  (EventTypes.tv_external_account_cleared types, decode ChainEvent.TvExternalAccountCleared "TvExternalAccountCleared"%string);
  (EventTypes.tv_external_released types, decode ChainEvent.TvExternalReleased "TvExternalReleased"%string);
  (EventTypes.tv_external_returned types, decode ChainEvent.TvExternalReturned "TvExternalReturned"%string);
  (EventTypes.equity_posted types, decode ChainEvent.EquityPosted "EquityPosted"%string);
  (EventTypes.option_market_listed types, decode ChainEvent.OptionMarketListed "OptionMarketListed"%string)
].

Fixpoint first_branch (l : list (rstring * (list Z → result DecodeError (option ChainEvent.t)))) (type_str : rstring)
    (contents : list Z) : result DecodeError (option ChainEvent.t) :=
  match l with
  | [] => Ok None
  | (t, decode) :: l => if bool_decide (type_str = t) then decode contents else first_branch l type_str contents
  end.

Lemma dispatch_branches types type_str contents :
  dispatch types type_str contents = first_branch (branches types) type_str contents.
Proof. reflexivity. Qed.

Lemma branches_subscriptions deepbook :
  branches (for_packages pkgs deepbook) = (λ sub, (sub_type sub, sub_decode sub)) <$> subscriptions.
Proof. reflexivity. Qed.

Lemma first_branch_found l sub contents :
  sub ∈ l → (∀ sub', sub' ∈ l → sub_type sub' = sub_type sub → sub' = sub) →
  first_branch ((λ sub, (sub_type sub, sub_decode sub)) <$> l) (sub_type sub) contents = sub_decode sub contents.
Proof.
  induction l as [|x l IH]; [by intros ?%not_elem_of_nil|]. intros Hin Huniq. cbn. case_bool_decide as E.
  - by rewrite (Huniq x) by (done || by left).
  - apply IH; [|intros sub' Hsub'; apply Huniq; by right]. apply elem_of_cons in Hin as [->|Hin]; done.
Qed.

Lemma first_branch_none l type_str contents :
  (∀ sub, sub ∈ l → type_str ≠ sub_type sub) →
  first_branch ((λ sub, (sub_type sub, sub_decode sub)) <$> l) type_str contents = Ok None.
Proof.
  induction l as [|x l IH]; [done|]. intros Hne. cbn. rewrite bool_decide_eq_false_2 by (apply Hne; by left).
  apply IH. intros sub Hsub. apply Hne. by right.
Qed.

(** Package ids have no colon and are not the name kept for what is not
    deployed; no two packages share one. *)
Record packages_ok : Prop := {
  package_text p id : package_id pkgs p = Some id → 58 ∉ id ∧ id ≠ str "unset";
  package_distinct p q id : package_id pkgs p = Some id → package_id pkgs q = Some id → p = q
}.

Definition sub_key sub : Package * string * string := (sub_package sub, sub_module sub, sub_struct sub).

Definition colon_free (s : string) : bool := forallb (λ c, negb (c =? 58)) (str s).

Lemma colon_free_spec s : colon_free s = true → 58 ∉ str s.
Proof. unfold colon_free. rewrite forallb_forall. intros Hs Hin%list_elem_of_In. by apply Hs in Hin. Qed.

Lemma modules_colon_free : forallb (λ sub, colon_free (sub_module sub)) subscriptions = true.
Proof. vm_compute. reflexivity. Qed.

Lemma subscription_keys : NoDup (sub_key <$> subscriptions).
Proof. apply (bool_decide_unpack _). vm_compute. exact I. Qed.

Lemma str_inj a b : str a = str b → a = b.
Proof.
  intros E. rewrite <- (String.string_of_list_ascii_of_string a), <- (String.string_of_list_ascii_of_string b). f_equal.
  unfold str in E. revert E. apply list_fmap_eq_inj. intros c d Hcd.
  rewrite <- (Ascii.ascii_nat_embedding c), <- (Ascii.ascii_nat_embedding d). f_equal. lia.
Qed.

Lemma module_colon_free sub : sub ∈ subscriptions → 58 ∉ str (sub_module sub).
Proof.
  intros Hin. apply colon_free_spec. pose proof modules_colon_free as Hall. rewrite forallb_forall in Hall.
  by apply Hall, list_elem_of_In.
Qed.

Lemma subscription_unique sub sub' :
  sub ∈ subscriptions → sub' ∈ subscriptions → sub_key sub = sub_key sub' → sub = sub'.
Proof.
  intros [i Hi]%list_elem_of_lookup [j Hj]%list_elem_of_lookup E.
  assert (i = j) as ->; [|by simplify_eq]. apply (NoDup_lookup _ i j (sub_key sub) subscription_keys).
  - by rewrite list_lookup_fmap, Hi.
  - by rewrite list_lookup_fmap, Hj, E.
Qed.

Lemma unset_text : 58 ∉ str "unset".
Proof. by apply colon_free_spec. Qed.

Lemma sub_type_inj sub sub' id :
  packages_ok → sub ∈ subscriptions → sub' ∈ subscriptions → package_id pkgs (sub_package sub) = Some id →
  sub_type sub' = sub_type sub → sub' = sub.
Proof.
  intros Hok Hs Hs' Hid E. destruct (package_text Hok _ _ Hid) as [Hid1 Hid2].
  pose proof (module_colon_free _ Hs). pose proof (module_colon_free _ Hs').
  unfold sub_type in E. rewrite Hid in E. destruct (package_id pkgs (sub_package sub')) as [id'|] eqn:Hid'; cbn [deployed] in E.
  - destruct (package_text Hok _ _ Hid') as [Hid1' _].
    apply move_type_inj in E as (-> & Em & En); [|done..]. apply str_inj in Em, En.
    apply subscription_unique; [done..|]. unfold sub_key. rewrite Em, En. by rewrite (package_distinct Hok _ _ _ Hid Hid').
  - apply move_type_inj in E as (Eid & _); [by rewrite Eid in Hid2|apply unset_text|done..].
Qed.
End subscriptions.
