(* ===== verification/IndexerWorker.v ===== *)
(** The checkpoint worker ([services/indexer/src/worker.rs]) with the lookups of
    the store it resolves foreign events by ([store/mod.rs]).  A type string is
    the canonical rendering of the event's type, and a digest the base58 form of
    the transaction's: both come from the Sui crates. *)

From S2P Require Import Prelude RecordUpdate RustStr ExchangeTypes MoveType Asset Json Quote IndexerEvents IndexerTypes IndexerStore IndexerRows IndexerApply IndexerStage IndexerRepo.

Definition to_canonical (asset_type : AssetType) : AssetType := Asset.canonicalize_move_type asset_type.

(** * Lookups, the first entry in the order of the keys *)

Definition bucket_by_call_type (inner : Inner.t) (call_type : AssetType) : option (ObjectId * BucketState.t) :=
  let target := to_canonical call_type in
  List.find (λ '(_, b), bool_decide (to_canonical (BucketState.call_type b) = target)) (entries (Inner.buckets inner)).

Definition bucket_by_pool_id (inner : Inner.t) (pool_id : ObjectId) : option ObjectId :=
  fst <$> List.find (λ '(_, p), bool_decide (DeepBookPoolState.pool_id p = pool_id)) (entries (Inner.deepbook_pools inner)).

Definition bucket_by_exchange_registry (inner : Inner.t) (registry_id : ObjectId) : option ObjectId :=
  fst <$> List.find (λ '(_, m), bool_decide (ExchangeMarketState.registry_id m = registry_id))
            (entries (Inner.exchange_markets inner)).

(** * Foreign events *)

(** What was announced earlier in the checkpoint that is being decoded. *)
Module Local.
Record t := mk {
  buckets : gmap AssetType (ObjectId * AssetType);
  pools : gmap ObjectId ObjectId;
  markets : gmap ObjectId ObjectId
}.
#[global] Instance expand : Fields t := λ s, mk (buckets s) (pools s) (markets s).
Definition empty : t := mk ∅ ∅ ∅.
End Local.

Definition or_else {A} (o p : option A) : option A := match o with Some _ => o | None => p end.

Definition resolve_deepbook_pool (store : Inner.t) (local_buckets : gmap AssetType (ObjectId * AssetType))
    (partial : DeepBookPoolCreatedPartial.t) : option ChainEvent.t :=
  let base_canonical := to_canonical (DeepBookPoolCreatedPartial.base_asset_type partial) in
  match or_else (local_buckets !! base_canonical)
          ((λ '(id, b), (id, BucketState.settlement_type b)) <$>
             bucket_by_call_type store (DeepBookPoolCreatedPartial.base_asset_type partial)) with
  | None => None
  | Some (bucket_id, settlement_type) =>
      if negb (bool_decide (to_canonical (DeepBookPoolCreatedPartial.quote_asset_type partial)
                            = to_canonical settlement_type))
      then None
      else Some (ChainEvent.DeepBookPoolCreated {|
        DeepBookPoolCreated.pool_id := DeepBookPoolCreatedPartial.pool_id partial;
        DeepBookPoolCreated.bucket_id := bucket_id;
        DeepBookPoolCreated.base_asset_type := DeepBookPoolCreatedPartial.base_asset_type partial;
        DeepBookPoolCreated.quote_asset_type := DeepBookPoolCreatedPartial.quote_asset_type partial;
        DeepBookPoolCreated.tick_size := DeepBookPoolCreatedPartial.tick_size partial;
        DeepBookPoolCreated.lot_size := DeepBookPoolCreatedPartial.lot_size partial;
        DeepBookPoolCreated.min_size := DeepBookPoolCreatedPartial.min_size partial;
        DeepBookPoolCreated.taker_fee := DeepBookPoolCreatedPartial.taker_fee partial;
        DeepBookPoolCreated.maker_fee := DeepBookPoolCreatedPartial.maker_fee partial
      |})
  end.

Definition resolve_deepbook_fill (store : Inner.t) (local_pools : gmap ObjectId ObjectId)
    (partial : DeepBookOrderFilledPartial.t) : option ChainEvent.t :=
  bucket_id ← or_else (local_pools !! DeepBookOrderFilledPartial.pool_id partial)
                (bucket_by_pool_id store (DeepBookOrderFilledPartial.pool_id partial));
  Some (ChainEvent.DeepBookOrderFilled {|
    DeepBookOrderFilled.pool_id := DeepBookOrderFilledPartial.pool_id partial;
    DeepBookOrderFilled.bucket_id := bucket_id;
    DeepBookOrderFilled.taker_balance_manager_id := DeepBookOrderFilledPartial.taker_balance_manager_id partial;
    DeepBookOrderFilled.maker_balance_manager_id := DeepBookOrderFilledPartial.maker_balance_manager_id partial;
    DeepBookOrderFilled.taker_is_bid := DeepBookOrderFilledPartial.taker_is_bid partial;
    DeepBookOrderFilled.base_quantity := DeepBookOrderFilledPartial.base_quantity partial;
    DeepBookOrderFilled.quote_quantity := DeepBookOrderFilledPartial.quote_quantity partial;
    DeepBookOrderFilled.price := DeepBookOrderFilledPartial.price partial;
    DeepBookOrderFilled.taker_fee := DeepBookOrderFilledPartial.taker_fee partial;
    DeepBookOrderFilled.taker_fee_is_deep := DeepBookOrderFilledPartial.taker_fee_is_deep partial;
    DeepBookOrderFilled.maker_fee := DeepBookOrderFilledPartial.maker_fee partial;
    DeepBookOrderFilled.maker_fee_is_deep := DeepBookOrderFilledPartial.maker_fee_is_deep partial;
    DeepBookOrderFilled.timestamp_ms := DeepBookOrderFilledPartial.timestamp_ms partial
  |}).

Definition resolve_exchange_fill `{HexCrate} (store : Inner.t) (local_markets : gmap ObjectId ObjectId)
    (partial : ExchangeFillPartial) : option ChainEvent.t :=
  bucket_id ← or_else (local_markets !! RawExchangeFill.registry partial)
                (bucket_by_exchange_registry store (RawExchangeFill.registry partial));
  Some (ChainEvent.ExchangeOptionFill {|
    ExchangeOptionFill.registry := RawExchangeFill.registry partial;
    ExchangeOptionFill.bucket_id := bucket_id;
    ExchangeOptionFill.digest := str "0x" ++ hex_encode (RawExchangeFill.digest partial);
    ExchangeOptionFill.maker := RawExchangeFill.maker partial;
    ExchangeOptionFill.taker := RawExchangeFill.taker partial;
    ExchangeOptionFill.base_amount := RawExchangeFill.base_amount partial;
    ExchangeOptionFill.quote_amount := RawExchangeFill.quote_amount partial;
    ExchangeOptionFill.maker_fee := RawExchangeFill.maker_fee partial;
    ExchangeOptionFill.taker_fee := RawExchangeFill.taker_fee partial;
    ExchangeOptionFill.maker_sold_base := RawExchangeFill.maker_sold_base partial;
    ExchangeOptionFill.timestamp_ms := RawExchangeFill.timestamp_ms partial
  |}).

(** * Decoding a checkpoint *)

Record Transaction := {
  tx_digest : rstring;
  tx_events : option (list (rstring * list Z))  (** type strings and contents *)
}.

Section worker.
Context `{HexCrate, BcsCrate} (types : EventTypes.t) (store : Inner.t).

(** An event that the packages emit is remembered for those that follow. *)
Definition remember (parsed : ChainEvent.t) (local : Local.t) : Local.t :=
  match parsed with
  | ChainEvent.BucketCreated b =>
      local <| Local.buckets ::=
        <[to_canonical (BucketCreated.call_type b) := (BucketCreated.bucket_id b, BucketCreated.settlement_type b)]> |>
  | ChainEvent.OptionMarketListed m =>
      local <| Local.markets ::= <[OptionMarketListed.registry m := OptionMarketListed.bucket m]> |>
  | ChainEvent.DeepBookPoolCreated p =>
      local <| Local.pools ::= <[DeepBookPoolCreated.pool_id p := DeepBookPoolCreated.bucket_id p]> |>
  | _ => local
  end.

Definition emit (ev : ChainEvent.t) (tx : rstring) (idx : Z)
    (acc : list (ChainEvent.t * rstring * Z) * Local.t) : list (ChainEvent.t * rstring * Z) * Local.t :=
  (acc.1 ++ [(ev, tx, idx)], acc.2).

(** One event of a transaction; what cannot be decoded is logged and skipped. *)
Definition decode_event (tx : rstring) (idx : Z) (event : rstring * list Z)
    (acc : list (ChainEvent.t * rstring * Z) * Local.t) : list (ChainEvent.t * rstring * Z) * Local.t :=
  let '(type_str, contents) := event in
  let local := acc.2 in
  match dispatch types type_str contents with
  | Ok (Some parsed) => emit parsed tx idx (acc.1, remember parsed local)
  | Err _ => acc
  | Ok None =>
      match parse_deepbook_pool_created types type_str contents with
      | Ok (Some partial) =>
          match resolve_deepbook_pool store (Local.buckets local) partial with
          | Some ev => emit ev tx idx (acc.1, remember ev local)
          | None => acc
          end
      | Err _ => acc
      | Ok None =>
          match parse_deepbook_order_filled types type_str contents with
          | Ok (Some partial) =>
              match resolve_deepbook_fill store (Local.pools local) partial with
              | Some ev => emit ev tx idx acc
              | None => acc
              end
          | Err _ => acc
          | Ok None =>
              match parse_exchange_fill types type_str contents with
              | Ok (Some partial) =>
                  match resolve_exchange_fill store (Local.markets local) partial with
                  | Some ev => emit ev tx idx acc
                  | None => acc
                  end
              | _ => acc
              end
          end
      end
  end.

(** [idx as i32]. *)
Definition as_i32 (n : Z) : Z := (n + 2 ^ 31) mod 2 ^ 32 - 2 ^ 31.

Definition decode_transaction (acc : list (ChainEvent.t * rstring * Z) * Local.t) (tx : Transaction) :
    list (ChainEvent.t * rstring * Z) * Local.t :=
  match tx_events tx with
  | None => acc
  | Some events =>
      foldl (λ acc ie, decode_event (tx_digest tx) (as_i32 (Z.of_nat ie.1)) ie.2 acc) acc
        (zip (seq 0 (length events)) events)
  end.

Definition decode_checkpoint (transactions : list Transaction) : list (ChainEvent.t * rstring * Z) :=
  (foldl decode_transaction ([], Local.empty) transactions).1.
End worker.

(** * Processing a checkpoint *)

Inductive CheckpointError :=
  | Staging (e : StageError)
  | Persisting (e : DbError).

Section process.
Context `{HexCrate, EventJson}.

(** [stage_batch], then [apply_checkpoint]; [up] is whether the database can be
    reached.  The store keeps what was staged when the write fails. *)
Definition persist (up : bool) (checkpoint timestamp_ms : Z) (decoded : list (ChainEvent.t * rstring * Z))
    (w : Inner.t * Database.t) : (Inner.t * Database.t) * result CheckpointError unit :=
  let '(store, db) := w in
  match stage_batch checkpoint timestamp_ms decoded store with
  | (store, Err e) => ((store, db), Err (Staging e))
  | (store, Ok batch) =>
      match (if up then apply_checkpoint batch db else Err Unavailable) with
      | Ok db => ((store, db), Ok ())
      | Err e => ((store, db), Err (Persisting e))
      end
  end.

Definition process_checkpoint `{BcsCrate} (types : EventTypes.t) (up : bool) (seq ts_ms : Z)
    (transactions : list Transaction) (w : Inner.t * Database.t) :
    (Inner.t * Database.t) * result CheckpointError unit :=
  persist up seq ts_ms (decode_checkpoint types w.1 transactions) w.
End process.
