(* ===== verification/IndexerTable.v ===== *)
(** When a table holds a view of the store: one lemma for every way of writing
    a table; and the round trips of the rows. *)

From S2P Require Import Prelude RecordUpdate RustStr ExchangeTypes Json Quote IndexerEvents IndexerStore IndexerRows IndexerStage IndexerRepo.

Lemma push_some_app {S A} (row : S → A) o l : push_some row o l = l ++ option_list (row <$> o).
Proof. destruct o; [done|]. cbn. by rewrite app_nil_r. Qed.

(** A table and the view it keeps: [enc k] is the primary key of the row of [k],
    [into] reads a row back; keys and states are in the range of their types.
    What is read may differ from the view as far as [sim] goes. *)
Record Table (K RK V R : Type) := {
  enc : K → RK;
  pk : R → RK;
  into : R → result RowError (K * V);
  key_wf : K → Prop;
  wf : V → Prop;
  sim : V → V → Prop;
  enc_inj k k' : key_wf k → key_wf k' → enc k = enc k' → k = k'
}.
Arguments Build_Table {K RK V R}.
Arguments enc {K RK V R}.
Arguments pk {K RK V R}.
Arguments into {K RK V R}.
Arguments key_wf {K RK V R}.
Arguments wf {K RK V R}.
Arguments sim {K RK V R}.
Arguments enc_inj {K RK V R}.

(** A table written by snapshots of the states: [row k s] is written for the
    state [s] of [k], [set] is what an upsert keeps of it over an older row, and
    [fixed] says that two states agree on what no update writes. *)
Record Snapshots {K RK V R} (T : Table K RK V R) := {
  set : R → R → R;
  row : K → V → R;
  fixed : V → V → Prop;
  row_pk k s : pk T (row k s) = enc T k;
  row_into k s : key_wf T k → wf T s → ∃ s0, into T (row k s) = Ok (k, s0) ∧ sim T s0 s;
  set_pk r old : pk T old = pk T r → pk T (set r old) = pk T r;
  set_into k s0 s s' old :
    key_wf T k → wf T s' → pk T old = enc T k → into T old = Ok (k, s0) → sim T s0 s → fixed s s' →
    ∃ s0', into T (set (row k s') old) = Ok (k, s0') ∧ sim T s0' s';
  fixed_refl s : fixed s s
}.
Arguments Build_Snapshots {K RK V R}.
Arguments set {K RK V R T}.
Arguments row {K RK V R T}.
Arguments fixed {K RK V R T}.
Arguments row_pk {K RK V R T}.
Arguments row_into {K RK V R T}.
Arguments set_pk {K RK V R T}.
Arguments set_into {K RK V R T}.
Arguments fixed_refl {K RK V R T}.

Section table.
Context {K RK V R : Type} `{Countable K, Countable RK} (T : Table K RK V R).
Notation enc := (enc T). Notation pk := (pk T). Notation into := (into T).
Notation key_wf := (key_wf T). Notation wf := (wf T). Notation sim := (sim T).

Definition holds (k : K) (r : option R) (s : option V) : Prop :=
  match r, s with
  | Some r, Some s => ∃ s0, into r = Ok (k, s0) ∧ sim s0 s
  | None, None => True
  | _, _ => False
  end.

Record reflects (t : gmap RK R) (m : gmap K V) : Prop := {
  reflects_rows : ∀ rk r, t !! rk = Some r → pk r = rk ∧ ∃ k, key_wf k ∧ rk = enc k;
  reflects_holds : ∀ k, key_wf k → holds k (t !! enc k) (m !! k);
  reflects_wf : ∀ k s, m !! k = Some s → key_wf k ∧ wf s
}.

Lemma reflects_empty : reflects ∅ ∅.
Proof.
  split; [|intros k _; by rewrite !lookup_empty|intros k s; by rewrite lookup_empty].
  intros rk r. by rewrite lookup_empty.
Qed.

Lemma reflects_row t m k : reflects t m → key_wf k → is_Some (t !! enc k) ↔ is_Some (m !! k).
Proof. intros Hre Hk. pose proof (reflects_holds _ _ Hre k Hk) as Hat. by destruct (t !! enc k), (m !! k). Qed.

(** The row at one key is replaced, and the view there with it. *)
Lemma reflects_at t m t' m' k :
  reflects t m → key_wf k →
  (∀ rk, rk ≠ enc k → t' !! rk = t !! rk) → (∀ j, j ≠ k → m' !! j = m !! j) →
  (∀ r, t' !! enc k = Some r → pk r = enc k) →
  holds k (t' !! enc k) (m' !! k) → from_option wf True (m' !! k) → reflects t' m'.
Proof.
  intros [Hr Hh Hw] Hk Ht Hm Hpk Hat Hwf. split.
  - intros rk r Hrk. destruct (decide (rk = enc k)) as [->|Hne]; [split; [by apply Hpk|by exists k]|].
    apply Hr. by rewrite <- Ht.
  - intros j Hj. destruct (decide (j = k)) as [->|Hne]; [done|].
    rewrite Ht, Hm; [by apply Hh|done|]. intros E. by apply Hne, (enc_inj T).
  - intros j s. destruct (decide (j = k)) as [->|Hne].
    + intros E. rewrite E in Hwf. done.
    + rewrite Hm by done. apply Hw.
Qed.

Lemma upsert_lookup_ne (set : R → R → R) r t rk : rk ≠ pk r → upsert pk set r t !! rk = t !! rk.
Proof. intros. unfold upsert. destruct (t !! pk r); by rewrite lookup_insert_ne. Qed.

Lemma upsert_lookup (set : R → R → R) r t :
  upsert pk set r t !! pk r = Some (match t !! pk r with Some old => set r old | None => r end).
Proof. unfold upsert. destruct (t !! pk r); by rewrite lookup_insert_eq. Qed.

Lemma upsert_all_push (set : R → R → R) rows r t :
  upsert_all pk set (push r rows) t = upsert pk set r (upsert_all pk set rows t).
Proof. unfold upsert_all, push. by rewrite foldl_app. Qed.

(** ** A row written from the event itself, at a key that is not taken, and a row deleted *)

Lemma reflects_upsert_new (set : R → R → R) t m k r s :
  reflects t m → key_wf k → wf s → m !! k = None →
  pk r = enc k → (∃ s0, into r = Ok (k, s0) ∧ sim s0 s) →
  reflects (upsert pk set r t) (<[k := s]> m).
Proof.
  intros Hre Hk Hs Hm Hr Hi. pose proof (reflects_holds _ _ Hre k Hk) as Hat. rewrite Hm in Hat.
  eapply reflects_at; [exact Hre|exact Hk|..].
  - intros rk Hne. apply upsert_lookup_ne. by rewrite Hr.
  - intros j Hj. by rewrite lookup_insert_ne.
  - intros r'. rewrite <- Hr, upsert_lookup, Hr. destruct (t !! enc k); [done|]. by intros [= <-].
  - rewrite <- Hr, upsert_lookup, Hr, lookup_insert_eq. destruct (t !! enc k); [done|]. exact Hi.
  - by rewrite lookup_insert_eq.
Qed.

Lemma reflects_delete t m k : reflects t m → key_wf k → reflects (delete (enc k) t) (delete k m).
Proof.
  intros Hre Hk. eapply reflects_at; [exact Hre|exact Hk|..].
  - intros. by rewrite lookup_delete_ne.
  - intros. by rewrite lookup_delete_ne.
  - intros r. by rewrite lookup_delete_eq.
  - by rewrite !lookup_delete_eq.
  - by rewrite lookup_delete_eq.
Qed.

(** ** The first row wins *)

Lemma reflects_insert_or_skip (clash : R → R → bool) t m k r s :
  reflects t m → key_wf k → wf s → m !! k = None →
  pk r = enc k → (∃ s0, into r = Ok (k, s0) ∧ sim s0 s) →
  (∀ rk r', t !! rk = Some r' → clash r r' = false) →
  reflects (insert_or_skip pk clash r t) (<[k := s]> m).
Proof.
  intros Hre Hk Hs Hm Hr Hi Hc. pose proof (reflects_holds _ _ Hre k Hk) as Hat. rewrite Hm in Hat.
  assert (E : t !! enc k = None) by (by destruct (t !! enc k)).
  assert (Hno : existsb (clash r) (map_to_list t).*2 = false).
  { apply not_true_is_false. rewrite existsb_exists. intros (r' & Hin & Hcl).
    apply list_elem_of_In, list_elem_of_fmap in Hin as ([rk r''] & -> & Hin).
    apply elem_of_map_to_list in Hin. cbn in Hcl. by rewrite (Hc _ _ Hin) in Hcl. }
  unfold insert_or_skip. rewrite Hr, E, Hno, bool_decide_eq_false_2 by (by intros []).
  eapply reflects_at; [exact Hre|exact Hk|..]; cbn.
  - intros. by rewrite lookup_insert_ne.
  - intros. by rewrite lookup_insert_ne.
  - intros r'. rewrite lookup_insert_eq. by intros [= <-].
  - by rewrite !lookup_insert_eq.
  - by rewrite lookup_insert_eq.
Qed.

Lemma insert_all_or_skip_push (clash : R → R → bool) rows r t :
  insert_all_or_skip pk clash (push r rows) t = insert_or_skip pk clash r (insert_all_or_skip pk clash rows t).
Proof. unfold insert_all_or_skip, push. by rewrite foldl_app. Qed.

Lemma insert_or_skip_taken (clash : R → R → bool) t m k r :
  reflects t m → key_wf k → is_Some (m !! k) → pk r = enc k → insert_or_skip pk clash r t = t.
Proof.
  intros Hre Hk [s Hs] Hr. pose proof (reflects_holds _ _ Hre k Hk) as Hat. rewrite Hs in Hat.
  unfold insert_or_skip. rewrite Hr, bool_decide_eq_true_2; [done|].
  by destruct (t !! enc k).
Qed.

(** ** Reading the table back *)

Lemma foldl_insert_out (kvs : list (K * V)) (acc : gmap K V) k :
  k ∉ kvs.*1 → foldl (λ a kv, <[kv.1 := kv.2]> a) acc kvs !! k = acc !! k.
Proof.
  revert acc. induction kvs as [|[j s] kvs IH]; intros acc Hk; [done|]. cbn in *.
  rewrite IH by set_solver. rewrite lookup_insert_ne; [done|]. set_solver.
Qed.

Lemma foldl_insert_in (kvs : list (K * V)) (acc : gmap K V) k s :
  (k, s) ∈ kvs → (∀ s', (k, s') ∈ kvs → s' = s) →
  foldl (λ a kv, <[kv.1 := kv.2]> a) acc kvs !! k = Some s.
Proof.
  revert acc. induction kvs as [|[j s1] kvs IH] using rev_ind; intros acc Hin Hall; [by apply not_elem_of_nil in Hin|].
  rewrite foldl_snoc. cbn. destruct (decide (j = k)) as [->|Hne].
  - rewrite lookup_insert_eq. f_equal. apply Hall. set_solver.
  - rewrite lookup_insert_ne by done. apply IH; set_solver.
Qed.

Lemma load_rows (rows : list R) (kvs : list (K * V)) acc :
  Forall2 (λ r kv, into r = Ok kv) rows kvs →
  foldl (λ acc r, m ← acc; kv ← into r; Ok (<[kv.1 := kv.2]> (m : gmap K V))) (Ok acc) rows
  = Ok (foldl (λ (a : gmap K V) kv, <[kv.1 := kv.2]> a) acc kvs).
Proof. intros Hf. revert acc. induction Hf as [|r kv rows kvs E _ IH]; intros acc; [done|]. cbn. rewrite E. apply IH. Qed.

Lemma reflects_load t m :
  reflects t m → ∃ m0, load_view into t = Ok m0 ∧ (∀ k, option_Forall2 sim (m0 !! k) (m !! k)) ∧
    ∀ k s0, m0 !! k = Some s0 → key_wf k ∧ ∃ r, t !! enc k = Some r ∧ into r = Ok (k, s0).
Proof.
  intros [Hr Hh Hw].
  (* what each row says *)
  assert (Hrow : ∀ r, r ∈ (map_to_list t).*2 → ∃ kv, into r = Ok kv).
  { intros r ([rk r'] & -> & Hin)%list_elem_of_fmap. apply elem_of_map_to_list in Hin.
    destruct (Hr rk _ Hin) as (_ & k & Hk & ->). specialize (Hh k Hk). rewrite Hin in Hh.
    destruct (m !! k); [|done]. destruct Hh as (s0 & Hi & _). by eexists. }
  assert (∃ kvs, Forall2 (λ r kv, into r = Ok kv) (map_to_list t).*2 kvs) as [kvs Hkvs].
  { clear -Hrow. induction (map_to_list t).*2 as [|r l IH]; [by exists []|].
    destruct (Hrow r ltac:(by left)) as [kv E]. destruct IH as [kvs Hf]; [intros; apply Hrow; by right|].
    exists (kv :: kvs). by constructor. }
  (* the map of what is read *)
  set (m0 := foldl (λ (a : gmap K V) kv, <[kv.1 := kv.2]> a) ∅ kvs).
  assert (Hin : ∀ k s0, (k, s0) ∈ kvs ↔ key_wf k ∧ ∃ r, t !! enc k = Some r ∧ into r = Ok (k, s0)).
  { intros k s0. split.
    - intros Hkv. apply list_elem_of_lookup in Hkv as [i Hi].
      destruct (Forall2_lookup_r _ _ _ _ _ Hkvs Hi) as (r & Hir & E).
      apply list_elem_of_lookup_2, list_elem_of_fmap in Hir as ([rk r'] & -> & Hin). apply elem_of_map_to_list in Hin.
      destruct (Hr rk _ Hin) as (_ & k' & Hk' & ->). pose proof (Hh k' Hk') as Hat. rewrite Hin in Hat.
      destruct (m !! k'); [|done]. destruct Hat as (s1 & E' & _). cbn in E. rewrite E in E'. injection E' as -> ->. eauto.
    - intros (Hk & r & Ht & E).
      assert (r ∈ (map_to_list t).*2) as Hi by (apply list_elem_of_fmap; exists (enc k, r); by rewrite elem_of_map_to_list).
      apply list_elem_of_lookup in Hi as [i Hi]. destruct (Forall2_lookup_l _ _ _ _ _ Hkvs Hi) as (kv & Hkv & E').
      rewrite E in E'. injection E' as <-. by eapply list_elem_of_lookup_2. }
  exists m0. split; [by apply load_rows|]. split; intros k.
  2:{ intros s0 Hk. apply Hin. destruct (decide (k ∈ kvs.*1)) as [ ([k' s1] & -> & Hk1)%list_elem_of_fmap|Hout].
      - assert (m0 !! k' = Some s1) as E; [|cbn in Hk; by simplify_eq].
        apply foldl_insert_in; [done|]. intros s' (_ & r' & Er & E')%Hin.
        apply Hin in Hk1 as (_ & r & Et & E). simplify_eq. by rewrite E in E'; injection E'.
      - unfold m0 in Hk. by rewrite foldl_insert_out, lookup_empty in Hk. }
  destruct (m !! k) as [s|] eqn:Em.
  - destruct (Hw _ _ Em) as [Hk _]. pose proof (Hh k Hk) as Hat. rewrite Em in Hat.
    destruct (t !! enc k) as [r|] eqn:Et; [|done]. destruct Hat as (s0 & E & Hs).
    unfold m0. rewrite (foldl_insert_in _ _ _ s0); [by constructor|by apply Hin; eauto|].
    intros s' (_ & r' & Er & E')%Hin. rewrite Et in Er. injection Er as <-. rewrite E in E'. by injection E'.
  - unfold m0. rewrite foldl_insert_out; [by rewrite lookup_empty; constructor|].
    intros ([k' s0] & -> & (Hk & r & Et & _)%Hin)%list_elem_of_fmap. cbn in *.
    specialize (Hh k' Hk). by rewrite Et, Em in Hh.
Qed.

(** A table that keeps everything is read back as it was. *)
Lemma reflects_load_eq t m : (∀ s0 s, sim s0 s → s0 = s) → reflects t m → load_view into t = Ok m.
Proof.
  intros Heq (m0 & -> & Hsim & _)%reflects_load. f_equal. apply map_eq. intros k. specialize (Hsim k).
  inversion Hsim as [s0 s Hs|]; [|done]. by rewrite (Heq _ _ Hs).
Qed.

(** What is read back is what the table holds from then on. *)
Lemma reflects_reload t m m0 :
  (∀ r k s0 s, into r = Ok (k, s0) → sim s0 s → wf s → wf s0 ∧ sim s0 s0) →
  reflects t m → (∀ k, option_Forall2 sim (m0 !! k) (m !! k)) →
  (∀ k s0, m0 !! k = Some s0 → key_wf k ∧ ∃ r, t !! enc k = Some r ∧ into r = Ok (k, s0)) → reflects t m0.
Proof.
  intros Hown [Hr Hh Hw] Hsim Hrow. assert (Hwf : ∀ k s0, m0 !! k = Some s0 → wf s0 ∧ sim s0 s0).
  { intros k s0 Hk. destruct (Hrow _ _ Hk) as (_ & r & _ & Hi). specialize (Hsim k). rewrite Hk in Hsim.
    destruct (m !! k) as [s|] eqn:Em; [|by inversion Hsim]. inversion Hsim. subst. eapply Hown; [exact Hi|done|by eapply Hw]. }
  split; [done| |].
  - intros k Hk. specialize (Hsim k). specialize (Hh k Hk). destruct (m0 !! k) as [s0|] eqn:E.
    + destruct (Hrow _ _ E) as (_ & r & -> & Hi). exists s0. split; [done|]. by eapply Hwf.
    + destruct (m !! k); [by inversion Hsim|]. by destruct (t !! enc k).
  - intros k s0 Hk. split; [by eapply Hrow|by eapply Hwf].
Qed.

(** ** Snapshots: the state of [k] is written as it is after the event *)

Context (S : Snapshots T).

Lemma reflects_snapshot rows t m m' k :
  reflects (upsert_all pk (set S) rows t) m → key_wf k →
  (∀ j, j ≠ k → m' !! j = m !! j) →
  (is_Some (m !! k) → is_Some (m' !! k)) →
  (∀ s s', m !! k = Some s → m' !! k = Some s' → fixed S s s') →
  from_option wf True (m' !! k) →
  reflects (upsert_all pk (set S) (push_some (row S k) (m' !! k) rows) t) m'.
Proof.
  intros Hre Hk Hm Hsome Hfix Hwf. pose proof (reflects_holds _ _ Hre k Hk) as Hat.
  destruct (m' !! k) as [s'|] eqn:E'; cbn [push_some].
  - rewrite upsert_all_push. apply reflects_at with (1 := Hre) (k := k); [exact Hk| |exact Hm| | |].
    + intros rk Hne. apply upsert_lookup_ne. by rewrite (row_pk S).
    + intros r. rewrite <- (row_pk S k s'), upsert_lookup. intros [= <-].
      destruct (upsert_all pk (set S) rows t !! pk (row S k s')) as [old|] eqn:Eo; [|done].
      apply (set_pk S). apply (reflects_rows _ _ Hre) in Eo as [Eo _]. done.
    + rewrite <- (row_pk S k s'), upsert_lookup, E', (row_pk S). unfold holds in *. cbn.
      destruct (upsert_all pk (set S) rows t !! enc k) as [old|] eqn:Eo, (m !! k) as [s|] eqn:Em; try done.
      * destruct Hat as (s0 & Hi & Hs). destruct (reflects_rows _ _ Hre _ _ Eo) as [Hpk _].
        exact (set_into S k s0 s s' old Hk Hwf Hpk Hi Hs (Hfix _ _ eq_refl eq_refl)).
      * by apply (row_into S).
    + by rewrite E'.
  - apply reflects_at with (1 := Hre) (k := k); [exact Hk|done|exact Hm| | |].
    + intros r Er. by destruct (reflects_rows _ _ Hre _ _ Er).
    + rewrite E'. destruct (m !! k) eqn:Em; [|done]. by destruct Hsome.
    + by rewrite E'.
Qed.

(** Two entities, written one after the other. *)
Lemma reflects_snapshot_2 rows t m m' k1 k2 :
  reflects (upsert_all pk (set S) rows t) m → key_wf k1 → key_wf k2 →
  (∀ j, j ≠ k1 → j ≠ k2 → m' !! j = m !! j) →
  (∀ j, is_Some (m !! j) → is_Some (m' !! j)) →
  (∀ j s s', m !! j = Some s → m' !! j = Some s' → fixed S s s') →
  (∀ j, j = k1 ∨ j = k2 → from_option wf True (m' !! j)) →
  reflects (upsert_all pk (set S) (push_some (row S k2) (m' !! k2) (push_some (row S k1) (m' !! k1) rows)) t) m'.
Proof.
  intros Hre Hk1 Hk2 Hm Hsome Hfix Hwf.
  set (m1 := partial_alter (λ _, m' !! k1) k1 m).
  assert (E1 : m1 !! k1 = m' !! k1) by apply lookup_partial_alter_eq.
  assert (Hne : ∀ j, j ≠ k1 → m1 !! j = m !! j) by (intros; by apply lookup_partial_alter_ne).
  assert (H1 : reflects (upsert_all pk (set S) (push_some (row S k1) (m1 !! k1) rows) t) m1).
  { apply reflects_snapshot with (m := m); [done..| | |]; rewrite ?E1; [eauto|eauto|].
    by apply Hwf; left. }
  rewrite <- E1. apply reflects_snapshot with (m := m1); [done..| | | |].
  - intros j Hj. destruct (decide (j = k1)) as [->|Hj1]; [done|]. rewrite Hne by done. by apply Hm.
  - destruct (decide (k2 = k1)) as [->|Hj1]; [by rewrite E1|]. rewrite Hne by done. apply Hsome.
  - intros s s'. destruct (decide (k2 = k1)) as [->|Hj1].
    + rewrite E1. intros -> [= ->]. apply (fixed_refl S).
    + rewrite Hne by done. apply Hfix.
  - by apply Hwf; right.
Qed.

(** ** How an event changes a view *)

Lemma reflects_alter rows t m k f :
  reflects (upsert_all pk (set S) rows t) m → key_wf k → (∀ s, fixed S s (f s)) →
  from_option wf True (alter f k m !! k) →
  reflects (upsert_all pk (set S) (push_some (row S k) (alter f k m !! k) rows) t) (alter f k m).
Proof.
  intros Hre Hk Hf Hwf. apply reflects_snapshot with (m := m); [done..| | | |done].
  - intros j Hj. by rewrite lookup_alter_ne.
  - rewrite lookup_alter_eq. by intros [s ->].
  - intros s s'. rewrite lookup_alter_eq. intros ->. by intros [= <-].
Qed.

Lemma reflects_insert rows t m k s :
  reflects (upsert_all pk (set S) rows t) m → key_wf k → m !! k = None ∨ (∀ s s', fixed S s s') →
  from_option wf True (<[k := s]> m !! k) →
  reflects (upsert_all pk (set S) (push_some (row S k) (<[k := s]> m !! k) rows) t) (<[k := s]> m).
Proof.
  intros Hre Hk Hf Hwf. apply reflects_snapshot with (m := m); [done..| | | |done].
  - intros j Hj. by rewrite lookup_insert_ne.
  - by rewrite lookup_insert_eq.
  - intros s0 s' E. destruct Hf as [Hf|Hf]; [by rewrite Hf in E|auto].
Qed.

Lemma reflects_entry rows t m k d f :
  reflects (upsert_all pk (set S) rows t) m → key_wf k → (∀ s s', fixed S s s') →
  from_option wf True (entry_or_insert k d f m !! k) →
  reflects (upsert_all pk (set S) (push_some (row S k) (entry_or_insert k d f m !! k) rows) t) (entry_or_insert k d f m).
Proof. intros. apply reflects_insert; auto. Qed.
End table.

Lemma bind_ok {E A B} (m : result E A) (f : A → result E B) a r : m = Ok a → f a = r → m ≫= f = r.
Proof. by intros ->. Qed.

Lemma bind_inv {E A B} (m : result E A) (f : A → result E B) r : m ≫= f = Ok r → ∃ a, m = Ok a ∧ f a = Ok r.
Proof. destruct m as [a|]; [|done]. intros. by exists a. Qed.

Ltac read_inv E :=
  repeat (let a := fresh "a" in let Ha := fresh "Ha" in apply bind_inv in E as (a & Ha & E)).

Lemma transpose_ok_fmap {E A B} (P : A → Prop) (f : B → result E A) (g : A → B) o :
  (∀ a, P a → f (g a) = Ok a) → from_option P True o → transpose_ok f (g <$> o) = Ok o.
Proof. intros Hf. destruct o as [a|]; [|done]. cbn. intros Ha. by rewrite Hf. Qed.

Lemma transpose_ok_same {E A} (P : A → Prop) (f : A → result E A) o :
  (∀ a, P a → f a = Ok a) → from_option P True o → transpose_ok f o = Ok o.
Proof. intros Hf. destruct o as [a|]; [|done]. cbn. intros Ha. by rewrite Hf. Qed.

Lemma from_option_trivial {A} (o : option A) : from_option (λ _, True) True o.
Proof. by destruct o. Qed.

Lemma big_u64 v : u64 v → bigdecimal_to_u64 (u64_to_bigdecimal v) = Ok v.
Proof. intros. unfold bigdecimal_to_u64, u64_to_bigdecimal. by rewrite decide_True. Qed.

Lemma big_u128 v : u128 v → bigdecimal_to_u128 (u128_to_bigdecimal v) = Ok v.
Proof. intros. unfold bigdecimal_to_u128, u128_to_bigdecimal. by rewrite decide_True. Qed.

Lemma i64_round v : u64 v → i64_as_u64 (u64_as_i64 v) = v.
Proof.
  intros Hv. unfold i64_as_u64, u64_as_i64. case_decide; [by apply wrap64_small|].
  unfold wrap64. replace (v - 2 ^ 64) with (v + -1 * 2 ^ 64) by lia. rewrite Z.mod_add by done.
  by apply wrap64_small.
Qed.

Lemma u64_as_i64_inj a b : u64 a → u64 b → u64_as_i64 a = u64_as_i64 b → a = b.
Proof. intros Ha Hb E. rewrite <- (i64_round a), E by done. by apply i64_round. Qed.

Lemma i64_round_opt o : from_option u64 True o → i64_as_u64 <$> (u64_as_i64 <$> o) = o.
Proof. destruct o as [v|]; [|done]. cbn. intros. by rewrite i64_round. Qed.

Lemma u8_try v : u8 v → u8_try_from v = Ok v.
Proof. intros [H1 H2]. unfold u8_try_from. by rewrite (proj2 (Z.leb_le _ _) H1), (proj2 (Z.ltb_lt _ _) H2). Qed.

Lemma u8_cast v : u8 v → i16_as_u8 v = v.
Proof. intros. by apply Z.mod_small. Qed.

Lemma scheme_round s : True → scheme_of_i16 (as_u8 s) = Ok s.
Proof. by destruct s. Qed.

Lemma status_round s : status_of_text (RfqStatus_tag s) = Ok s.
Proof. destruct s; vm_compute; reflexivity. Qed.

Section round.
Context `{HexCrate, !HexCrateSpec}.

Lemma id_round id : id_wf id → id_of_text (to_hex id) = Ok id.
Proof. intros. unfold id_of_text. by rewrite from_hex_to_hex. Qed.

Lemma to_hex_inj a b : id_wf a → id_wf b → to_hex a = to_hex b → a = b.
Proof. intros Ha Hb E. apply id_round in Ha. rewrite E, id_round in Ha by done. by injection Ha. Qed.

(** One column of a row. *)
Ltac column :=
  first
    [ eassumption
    | apply id_round; assumption | apply big_u128; assumption | apply big_u64; assumption
    | apply u8_try; assumption | apply status_round
    | apply (transpose_ok_fmap id_wf); [apply id_round|assumption]
    | apply (transpose_ok_fmap u128); [apply big_u128|assumption]
    | apply (transpose_ok_fmap u64); [apply big_u64|assumption]
    | apply (transpose_ok_same u8); [apply u8_try|assumption]
    | apply (transpose_ok_fmap (λ _, True)); [apply scheme_round|apply from_option_trivial] ].

Ltac columns := repeat (eapply bind_ok; [column|]; cbv beta).

(** [read_back s W f r]: the row [r] of the well-formed ([W]) state [s], read by [f]. *)
Ltac read_back s W f r :=
  intros; unfold W in *; destruct s; cbn in *; destruct_and?; unfold f, r; columns; cbn;
  rewrite ?i64_round, ?i64_round_opt, ?u8_cast by assumption; try reflexivity.

Lemma account_read k s seq : id_wf k → AccountState.wf s → account_row_into_state (account_row k s seq) = Ok (k, s).
Proof. read_back s AccountState.wf @account_row_into_state @account_row. Qed.

Lemma bucket_read k s seq : id_wf k → BucketState.wf s → BucketRow_into_state (bucket_row k s seq) = Ok (k, s).
Proof. read_back s BucketState.wf @BucketRow_into_state @bucket_row. Qed.

Lemma rfq_read k s seq : id_wf k → RfqState.wf s → RfqRow_into_state (rfq_row k s seq) = Ok (k, s).
Proof. read_back s RfqState.wf @RfqRow_into_state @rfq_row. Qed.

Lemma vault_read k s seq : id_wf k → VaultState.wf s → VaultRow_into_state (vault_row k s seq) = Ok (k, s).
Proof. read_back s VaultState.wf @VaultRow_into_state @vault_row. Qed.

Lemma trading_vault_read k s seq : id_wf k → TradingVaultState.wf s → TradingVaultRow_into_state (trading_vault_row k s seq) = Ok (k, s).
Proof. read_back s TradingVaultState.wf @TradingVaultRow_into_state @trading_vault_row. Qed.

Lemma vault_position_read k s seq : id_wf k → VaultPositionState.wf s → VaultPositionRow_into_state (vault_position_row k s seq) = Ok (k, s).
Proof. read_back s VaultPositionState.wf @VaultPositionRow_into_state @vault_position_row. Qed.

Definition round_key_wf (k : ObjectId * Z) : Prop := id_wf k.1 ∧ u64 k.2.
Definition position_key_wf (k : ObjectId * Z) : Prop := id_wf k.1 ∧ u128 k.2.
Definition pair_wf (k : ObjectId * ObjectId) : Prop := id_wf k.1 ∧ id_wf k.2.
Definition receipt_key_wf (k : ReceiptKey) : Prop := id_wf k.1.1.1 ∧ u64 k.1.2.

Lemma vault_round_read k s seq :
  round_key_wf k → VaultRoundState.wf s → VaultRoundRow_into_state (vault_round_row k.1 k.2 s seq) = Ok (k, s).
Proof.
  destruct k as [k n]. unfold round_key_wf. cbn.
  read_back s VaultRoundState.wf @VaultRoundRow_into_state @vault_round_row.
Qed.

Lemma trading_vault_position_read k s seq :
  pair_wf k → TradingVaultPositionState.wf s →
  TradingVaultPositionRow_into_state (trading_vault_position_row k.1 k.2 s seq) = Ok (k, s).
Proof.
  destruct k as [k n]. unfold pair_wf. cbn.
  read_back s TradingVaultPositionState.wf @TradingVaultPositionRow_into_state @trading_vault_position_row.
Qed.

Lemma receipt_read k s seq :
  receipt_key_wf k → ReceiptState.wf s → VaultReceiptRow_into_state (receipt_row k s seq) = Ok (k, s).
Proof.
  destruct k as [[[k o] n] c]. unfold receipt_key_wf. cbn.
  read_back s ReceiptState.wf @VaultReceiptRow_into_state @receipt_row.
Qed.

(** ** Over an older row *)

Lemma set_account_row k s seq old :
  AccountRow.account_id old = to_hex k → set_account (account_row k s seq) old = account_row k s seq.
Proof. destruct old. cbn. by intros ->. Qed.

Lemma set_rfq_row k s seq old : RfqRow.rfq_id old = to_hex k → set_rfq (rfq_row k s seq) old = rfq_row k s seq.
Proof. destruct old. cbn. by intros ->. Qed.

Lemma set_vault_round_row k s seq old :
  round_pk old = round_pk (vault_round_row k.1 k.2 s seq) →
  set_vault_round (vault_round_row k.1 k.2 s seq) old = vault_round_row k.1 k.2 s seq.
Proof. destruct old. unfold round_pk. cbn. by intros [= -> ->]. Qed.

Lemma set_receipt_row k s seq old :
  receipt_pk old = receipt_pk (receipt_row k s seq) → set_receipt (receipt_row k s seq) old = receipt_row k s seq.
Proof. destruct old. unfold receipt_pk. cbn. by intros [= -> -> -> ->]. Qed.

(** What the updates of these tables leave as it was first written. *)
Definition bucket_fixed (s s' : BucketState.t) : Prop :=
  BucketState.asset_type s = BucketState.asset_type s' ∧
  BucketState.settlement_type s = BucketState.settlement_type s' ∧
  BucketState.call_type s = BucketState.call_type s' ∧ BucketState.strike s = BucketState.strike s' ∧
  BucketState.strike_scale s = BucketState.strike_scale s' ∧
  BucketState.expiry_ms s = BucketState.expiry_ms s' ∧ BucketState.option_kind s = BucketState.option_kind s'.

Definition vault_fixed (s s' : VaultState.t) : Prop :=
  VaultState.underlying_type s = VaultState.underlying_type s' ∧
  VaultState.settlement_type s = VaultState.settlement_type s' ∧ VaultState.share_type s = VaultState.share_type s'.

Definition tv_position_fixed (s s' : TradingVaultPositionState.t) : Prop :=
  TradingVaultPositionState.adapter s = TradingVaultPositionState.adapter s' ∧
  TradingVaultPositionState.stored_at_ms s = TradingVaultPositionState.stored_at_ms s'.

(** Two states of a vault that agree outside the configuration columns. *)
Definition same_but_config (s s' : VaultState.t) : Prop :=
  vault_fixed s s' ∧ VaultState.round s = VaultState.round s' ∧
  VaultState.current_bucket s = VaultState.current_bucket s' ∧
  VaultState.latest_pps s = VaultState.latest_pps s' ∧ VaultState.total_shares s = VaultState.total_shares s' ∧
  VaultState.pending_deposits s = VaultState.pending_deposits s' ∧
  VaultState.deposits_paused s = VaultState.deposits_paused s'.

Lemma set_bucket_read k s s' seq old :
  id_wf k → BucketState.wf s' → BucketRow_into_state old = Ok (k, s) → bucket_fixed s s' →
  BucketRow_into_state (set_bucket (bucket_row k s' seq) old) = Ok (k, s').
Proof.
  intros Hk Hwf E Hfix. unfold BucketRow_into_state in E. read_inv E. injection E as <- <-.
  unfold bucket_fixed, BucketState.wf in *. destruct s'. cbn in *. destruct_and?. subst.
  unfold BucketRow_into_state, set_bucket, bucket_row. cbn [BucketRow.bucket_id BucketRow.strike update_field].
  columns. reflexivity.
Qed.

Lemma set_vault_read k s0 s s' seq old :
  id_wf k → VaultState.wf s' → VaultRow_into_state old = Ok (k, s0) → same_but_config s0 s → vault_fixed s s' →
  ∃ s0', VaultRow_into_state (set_vault (vault_row k s' seq) old) = Ok (k, s0') ∧ same_but_config s0' s'.
Proof.
  intros Hk Hwf E Hsim Hfix. unfold VaultRow_into_state in E. read_inv E. injection E as <- <-.
  unfold same_but_config, vault_fixed, VaultState.wf in *. destruct s'. cbn in *. destruct_and?. subst.
  unfold VaultRow_into_state, set_vault, vault_row. eexists. split.
  - columns. reflexivity.
  - cbn. by rewrite i64_round.
Qed.

Lemma set_tv_position_read k s s' seq old :
  pair_wf k → TradingVaultPositionState.wf s' → TradingVaultPositionRow_into_state old = Ok (k, s) →
  tv_position_fixed s s' →
  TradingVaultPositionRow_into_state (set_tv_position (trading_vault_position_row k.1 k.2 s' seq) old) = Ok (k, s').
Proof.
  intros Hk Hwf E Hfix. unfold TradingVaultPositionRow_into_state in E. read_inv E. injection E as <- <-.
  unfold tv_position_fixed, TradingVaultPositionState.wf, pair_wf in *. destruct s'. cbn in *. destruct_and?. subst.
  unfold TradingVaultPositionRow_into_state, set_tv_position, trading_vault_position_row.
  columns. cbn. by rewrite !i64_round_opt.
Qed.

(** ** Positions, pools and markets are written from the event *)

Lemma position_read k s r :
  position_key_wf k → PositionState.wf s →
  PositionState.bucket_id s = k.1 → PositionState.range_start s = k.2 →
  position_pk r = (to_hex k.1, k.2) → PositionRow.range_end r = PositionState.range_end s →
  PositionRow.object_id r = to_hex (PositionState.object_id s) →
  PositionRow.recipient r = to_hex (PositionState.recipient s) →
  PositionRow.option_kind r = PositionState.option_kind s →
  PositionRow_into_state r = Ok (k, s).
Proof.
  destruct k as [b n], s, r. unfold position_key_wf, PositionState.wf, position_pk. cbn.
  intros. destruct_and?. simplify_eq. unfold PositionRow_into_state. cbn.
  repeat (eapply bind_ok; [first [column | by apply (big_u128 _)]|]). reflexivity.
Qed.

Lemma deepbook_pool_read p cp ts seq :
  DeepBookPoolCreated.wf p →
  DeepBookPoolRow_into_state (deepbook_pool_row p cp ts seq) = Ok (DeepBookPoolCreated.bucket_id p, {|
      DeepBookPoolState.pool_id := DeepBookPoolCreated.pool_id p;
      DeepBookPoolState.base_asset_type := DeepBookPoolCreated.base_asset_type p;
      DeepBookPoolState.quote_asset_type := DeepBookPoolCreated.quote_asset_type p;
      DeepBookPoolState.tick_size := DeepBookPoolCreated.tick_size p;
      DeepBookPoolState.lot_size := DeepBookPoolCreated.lot_size p;
      DeepBookPoolState.min_size := DeepBookPoolCreated.min_size p;
      DeepBookPoolState.taker_fee := DeepBookPoolCreated.taker_fee p;
      DeepBookPoolState.maker_fee := DeepBookPoolCreated.maker_fee p |}).
Proof. read_back p DeepBookPoolCreated.wf @DeepBookPoolRow_into_state @deepbook_pool_row. Qed.

Lemma exchange_market_read m seq :
  OptionMarketListed.wf m →
  ExchangeMarketLinkRow_into_state (exchange_market_row m seq) = Ok (OptionMarketListed.bucket m, {|
      ExchangeMarketState.registry_id := OptionMarketListed.registry m;
      ExchangeMarketState.is_put := OptionMarketListed.is_put m |}).
Proof. read_back m OptionMarketListed.wf @ExchangeMarketLinkRow_into_state @exchange_market_row. Qed.
End round.
