(* ===== verification/IndexerWf.v ===== *)
(** The well-formedness of the views and that every event keeps it: the numbers
    of the states stay in the range of their types.  The tables of the indexer
    as [Table]s, and when the database mirrors the views. *)

From S2P Require Import Prelude RecordUpdate RustStr ExchangeTypes MoveType Asset Quote IndexerEvents IndexerStore IndexerRows IndexerApply IndexerStage IndexerRepo IndexerTable Json.

Module Views.
Record wf (s : Inner.t) : Prop := {
  accounts : map_Forall (λ k v, id_wf k ∧ AccountState.wf v) (Inner.accounts s);
  buckets : map_Forall (λ k v, id_wf k ∧ BucketState.wf v) (Inner.buckets s);
  positions : map_Forall (λ k v, position_key_wf k ∧ PositionState.wf v) (Inner.positions s);
  deepbook_pools : map_Forall (λ k v, id_wf k ∧ DeepBookPoolState.wf v) (Inner.deepbook_pools s);
  exchange_markets : map_Forall (λ k v, id_wf k ∧ ExchangeMarketState.wf v) (Inner.exchange_markets s);
  rfqs : map_Forall (λ k v, id_wf k ∧ RfqState.wf v) (Inner.rfqs s);
  vaults : map_Forall (λ k v, id_wf k ∧ VaultState.wf v) (Inner.vaults s);
  vault_rounds : map_Forall (λ k v, round_key_wf k ∧ VaultRoundState.wf v) (Inner.vault_rounds s);
  vault_receipts : map_Forall (λ k v, receipt_key_wf k ∧ ReceiptState.wf v) (Inner.vault_receipts s);
  trading_vaults : map_Forall (λ k v, id_wf k ∧ TradingVaultState.wf v) (Inner.trading_vaults s);
  trading_vault_positions : map_Forall (λ k v, pair_wf k ∧ TradingVaultPositionState.wf v) (Inner.trading_vault_positions s);
  vault_positions : map_Forall (λ k v, id_wf k ∧ VaultPositionState.wf v) (Inner.vault_positions s)
}.
End Views.

(** * Maps *)

Section maps.
Context {K V : Type} `{Countable K} (P : K → Prop) (Q : V → Prop).
Notation All := (map_Forall (λ k v, P k ∧ Q v)).

Lemma all_insert (m : gmap K V) k v : All m → P k → Q v → All (<[k := v]> m).
Proof. intros. by apply map_Forall_insert_2. Qed.

Lemma all_delete (m : gmap K V) k : All m → All (delete k m).
Proof. apply map_Forall_delete. Qed.

Lemma all_alter (m : gmap K V) k f : All m → (∀ v, Q v → Q (f v)) → All (alter f k m).
Proof.
  intros Hm Hf j v. destruct (decide (j = k)) as [->|Hne].
  - rewrite lookup_alter_eq. destruct (m !! k) as [w|] eqn:E; [|done]. intros [= <-].
    destruct (Hm _ _ E). auto.
  - rewrite lookup_alter_ne by done. apply Hm.
Qed.

Lemma all_entry (m : gmap K V) k d f : All m → P k → Q d → (∀ v, Q v → Q (f v)) → All (entry_or_insert k d f m).
Proof.
  intros Hm Hk Hd Hf. apply all_insert; [done..|]. apply Hf.
  destruct (m !! k) as [v|] eqn:E; [by destruct (Hm _ _ E)|done].
Qed.
End maps.

(** * Numbers *)

Lemma sat_add_64 a b : u64 a → u64 b → u64 (u64_saturating_add a b).
Proof. int_lia. Qed.
Lemma sat_sub_64 a b : u64 a → u64 b → u64 (u64_saturating_sub a b).
Proof. int_lia. Qed.
Lemma sat_add_128 a b : u128 a → u128 b → u128 (u128_saturating_add a b).
Proof. unfold u128_saturating_add. int_lia. Qed.
Lemma sat_sub_128 a b : u128 a → u128 b → u128 (u128_saturating_sub a b).
Proof. unfold u128_saturating_sub. int_lia. Qed.
Lemma u64_u128 a : u64 a → u128 a.
Proof. int_lia. Qed.
Lemma u8_u64 a : u8 a → u64 a.
Proof. unfold u8. int_lia. Qed.
Lemma bump_lane_64 n c : u64 n → u64 c → u64 (bump_lane n c).
Proof. unfold bump_lane. int_lia. Qed.
Lemma max_64 a b : u64 a → u64 b → u64 (Z.max a b).
Proof. int_lia. Qed.
Lemma u64_add_64 a b : u64 (u64_add a b).
Proof. apply wrap64_range. Qed.
Lemma zero_64 : u64 0. Proof. int_lia. Qed.
Lemma zero_128 : u128 0. Proof. int_lia. Qed.
Lemma one_64 : u64 1. Proof. int_lia. Qed.
Lemma zero_8 : u8 0. Proof. unfold u8. lia. Qed.
Lemma pps_one_128 : u128 1000000000000. Proof. int_lia. Qed.

Lemma price_per_share_128 v s : 0 ≤ v → 0 < s → u128 (price_per_share v s).
Proof.
  intros Hv Hs. unfold price_per_share.
  assert (Hx : ∀ a b, 0 ≤ a → 0 ≤ b → u128 (u128_saturating_mul a b)).
  { intros a b Ha Hb. pose proof (Z.mul_nonneg_nonneg a b Ha Hb). int_lia. }
  assert (H1 := Hx v PPS_ONE Hv ltac:(done)).
  assert (H2 := Hx _ SHARE_OFFSET (proj1 H1) ltac:(done)). destruct H2 as [H2 H3].
  split; [by apply Z.div_pos|]. etrans; [|exact H3]. apply Z.div_le_upper_bound; [done|nia].
Qed.

Create HintDb indexer.
#[export] Hint Resolve sat_add_64 sat_sub_64 sat_add_128 sat_sub_128 u64_u128 u8_u64 bump_lane_64 max_64 zero_64
  zero_128 one_64 zero_8 pps_one_128 u64_add_64 : indexer.

(** Closes the range of a field of an updated record. *)
Ltac wf_fields :=
  repeat match goal with |- _ ∧ _ => split end; cbn; try exact I; auto with indexer nocore.

(** [wf (r <| f := v |>)] from [wf r]. *)
Ltac wf_update W :=
  match goal with
  | |- W (update_field ?f ?g ?r) =>
      let Hr := fresh "Hr" in
      enough (W r) as Hr by (revert Hr; generalize r; let x := fresh "x" in intros x Hx; unfold W in Hx |- *;
        destruct x; cbn in Hx |- *; destruct_and?; wf_fields)
  end.

(** * One view changes *)

Lemma wf_accounts g s :
  Views.wf s → (map_Forall (λ k v, id_wf k ∧ AccountState.wf v) (Inner.accounts s) → map_Forall (λ k v, id_wf k ∧ AccountState.wf v) (g (Inner.accounts s))) →
  Views.wf (s <| Inner.accounts ::= g |>).
Proof. intros [] Hg. split; try assumption. by apply Hg. Qed.
Lemma wf_buckets g s :
  Views.wf s → (map_Forall (λ k v, id_wf k ∧ BucketState.wf v) (Inner.buckets s) → map_Forall (λ k v, id_wf k ∧ BucketState.wf v) (g (Inner.buckets s))) →
  Views.wf (s <| Inner.buckets ::= g |>).
Proof. intros [] Hg. split; try assumption. by apply Hg. Qed.
Lemma wf_positions g s :
  Views.wf s → (map_Forall (λ k v, position_key_wf k ∧ PositionState.wf v) (Inner.positions s) → map_Forall (λ k v, position_key_wf k ∧ PositionState.wf v) (g (Inner.positions s))) →
  Views.wf (s <| Inner.positions ::= g |>).
Proof. intros [] Hg. split; try assumption. by apply Hg. Qed.
Lemma wf_deepbook_pools g s :
  Views.wf s → (map_Forall (λ k v, id_wf k ∧ DeepBookPoolState.wf v) (Inner.deepbook_pools s) → map_Forall (λ k v, id_wf k ∧ DeepBookPoolState.wf v) (g (Inner.deepbook_pools s))) →
  Views.wf (s <| Inner.deepbook_pools ::= g |>).
Proof. intros [] Hg. split; try assumption. by apply Hg. Qed.
Lemma wf_exchange_markets g s :
  Views.wf s → (map_Forall (λ k v, id_wf k ∧ ExchangeMarketState.wf v) (Inner.exchange_markets s) → map_Forall (λ k v, id_wf k ∧ ExchangeMarketState.wf v) (g (Inner.exchange_markets s))) →
  Views.wf (s <| Inner.exchange_markets ::= g |>).
Proof. intros [] Hg. split; try assumption. by apply Hg. Qed.
Lemma wf_rfqs g s :
  Views.wf s → (map_Forall (λ k v, id_wf k ∧ RfqState.wf v) (Inner.rfqs s) → map_Forall (λ k v, id_wf k ∧ RfqState.wf v) (g (Inner.rfqs s))) →
  Views.wf (s <| Inner.rfqs ::= g |>).
Proof. intros [] Hg. split; try assumption. by apply Hg. Qed.
Lemma wf_vaults g s :
  Views.wf s → (map_Forall (λ k v, id_wf k ∧ VaultState.wf v) (Inner.vaults s) → map_Forall (λ k v, id_wf k ∧ VaultState.wf v) (g (Inner.vaults s))) →
  Views.wf (s <| Inner.vaults ::= g |>).
Proof. intros [] Hg. split; try assumption. by apply Hg. Qed.
Lemma wf_vault_rounds g s :
  Views.wf s → (map_Forall (λ k v, round_key_wf k ∧ VaultRoundState.wf v) (Inner.vault_rounds s) → map_Forall (λ k v, round_key_wf k ∧ VaultRoundState.wf v) (g (Inner.vault_rounds s))) →
  Views.wf (s <| Inner.vault_rounds ::= g |>).
Proof. intros [] Hg. split; try assumption. by apply Hg. Qed.
Lemma wf_vault_receipts g s :
  Views.wf s → (map_Forall (λ k v, receipt_key_wf k ∧ ReceiptState.wf v) (Inner.vault_receipts s) → map_Forall (λ k v, receipt_key_wf k ∧ ReceiptState.wf v) (g (Inner.vault_receipts s))) →
  Views.wf (s <| Inner.vault_receipts ::= g |>).
Proof. intros [] Hg. split; try assumption. by apply Hg. Qed.
Lemma wf_trading_vaults g s :
  Views.wf s → (map_Forall (λ k v, id_wf k ∧ TradingVaultState.wf v) (Inner.trading_vaults s) → map_Forall (λ k v, id_wf k ∧ TradingVaultState.wf v) (g (Inner.trading_vaults s))) →
  Views.wf (s <| Inner.trading_vaults ::= g |>).
Proof. intros [] Hg. split; try assumption. by apply Hg. Qed.
Lemma wf_trading_vault_positions g s :
  Views.wf s → (map_Forall (λ k v, pair_wf k ∧ TradingVaultPositionState.wf v) (Inner.trading_vault_positions s) → map_Forall (λ k v, pair_wf k ∧ TradingVaultPositionState.wf v) (g (Inner.trading_vault_positions s))) →
  Views.wf (s <| Inner.trading_vault_positions ::= g |>).
Proof. intros [] Hg. split; try assumption. by apply Hg. Qed.
Lemma wf_vault_positions g s :
  Views.wf s → (map_Forall (λ k v, id_wf k ∧ VaultPositionState.wf v) (Inner.vault_positions s) → map_Forall (λ k v, id_wf k ∧ VaultPositionState.wf v) (g (Inner.vault_positions s))) →
  Views.wf (s <| Inner.vault_positions ::= g |>).
Proof. intros [] Hg. split; try assumption. by apply Hg. Qed.
Lemma wf_next_sequence g s : Views.wf s → Views.wf (s <| Inner.next_sequence ::= g |>).
Proof. intros []. by split. Qed.

#[export] Hint Resolve wf_accounts wf_buckets wf_positions wf_deepbook_pools wf_exchange_markets wf_rfqs wf_vaults wf_vault_rounds wf_vault_receipts wf_trading_vaults wf_trading_vault_positions wf_vault_positions : indexer.

(** * Updates of a trading vault *)

Lemma observe_tranche_flow_wf tranche supply value shares v :
  u128 supply → u64 value → u128 shares → TradingVaultState.wf v →
  TradingVaultState.wf (observe_tranche_flow tranche supply value shares v).
Proof.
  intros Hsup Hval Hsh Hv. unfold observe_tranche_flow.
  set (v1 := if tranche =? TRANCHE_SENIOR then v <| TradingVaultState.senior_shares := supply |>
             else v <| TradingVaultState.junior_shares := supply |>).
  assert (TradingVaultState.wf v1) as H1 by (unfold v1; case_match; wf_update TradingVaultState.wf; done).
  set (v2 := v1 <| TradingVaultState.total_shares := _ |>).
  assert (TradingVaultState.wf v2) as H2.
  { unfold v2. assert (u128 (TradingVaultState.senior_shares v1) ∧ u128 (TradingVaultState.junior_shares v1)) as []
      by (clear -H1; unfold TradingVaultState.wf in H1; destruct_and?; done).
    wf_update TradingVaultState.wf. done. }
  destruct (0 <? value) eqn:E1; [|done]. destruct (0 <? shares) eqn:E2; [|done]. cbn [andb].
  apply Z.ltb_lt in E1, E2.
  pose proof (price_per_share_128 value shares ltac:(lia) ltac:(lia)) as Hp. revert Hp.
  generalize (price_per_share value shares). intros p Hp. clearbody v2.
  repeat case_match; wf_update TradingVaultState.wf; done.
Qed.

Lemma observe_risk_wf new_state since v : u64 since → TradingVaultState.wf v → TradingVaultState.wf (observe_risk new_state since v).
Proof. intros ? Hv. unfold observe_risk. repeat case_match; try exact Hv; wf_update TradingVaultState.wf; exact Hv. Qed.

Lemma pps_128 nav shares p : u128 nav → pps nav shares = Some p → u128 p.
Proof.
  intros [Hn _]. unfold pps. destruct (0 <? shares) eqn:E; [|done]. apply Z.ltb_lt in E. intros [= <-].
  by apply price_per_share_128.
Qed.

Lemma sync_pps_wf c v : TvCapitalSynced.wf c → TradingVaultState.wf v → TradingVaultState.wf (sync_pps c v).
Proof.
  intros Hc Hv. unfold TvCapitalSynced.wf in Hc. destruct_and?. unfold sync_pps.
  repeat case_match; repeat match goal with E : pps _ _ = Some _ |- _ => apply pps_128 in E; [|done] end;
    repeat (wf_update TradingVaultState.wf); done.
Qed.

(** * States an entry starts from *)

Lemma zero_id_wf : id_wf ZERO_ID.
Proof. split; [done|]. apply Forall_replicate. done. Qed.

Lemma RfqState_blank_wf : RfqState.wf RfqState_blank.
Proof. pose proof zero_id_wf. unfold RfqState.wf. wf_fields. Qed.

Lemma ReceiptState_default_wf : ReceiptState.wf ReceiptState_default.
Proof. unfold ReceiptState.wf. wf_fields. Qed.

Lemma VaultRoundState_default_wf : VaultRoundState.wf VaultRoundState_default.
Proof. unfold VaultRoundState.wf. wf_fields. Qed.

Section events.
Context `{HexCrate}.

Lemma from_created_wf v ts : TvVaultCreated.wf v → u64 ts → TradingVaultState.wf (TradingVaultState_from_created v ts).
Proof.
  intros Hv Hts. unfold TvVaultCreated.wf in Hv. destruct_and?. unfold TradingVaultState.wf. wf_fields.
Qed.

Ltac unfold_arm :=
  match goal with
  | |- Views.wf ?t => let rec go t := lazymatch t with ?f _ => go f | ?f => unfold f end in go t
  end.

(** The view an arm changes, and the entity in it. *)
Ltac view :=
  lazymatch goal with
  | |- Views.wf (@update_field _ _ Inner.accounts _ _ _) => apply wf_accounts
  | |- Views.wf (@update_field _ _ Inner.buckets _ _ _) => apply wf_buckets
  | |- Views.wf (@update_field _ _ Inner.positions _ _ _) => apply wf_positions
  | |- Views.wf (@update_field _ _ Inner.deepbook_pools _ _ _) => apply wf_deepbook_pools
  | |- Views.wf (@update_field _ _ Inner.exchange_markets _ _ _) => apply wf_exchange_markets
  | |- Views.wf (@update_field _ _ Inner.rfqs _ _ _) => apply wf_rfqs
  | |- Views.wf (@update_field _ _ Inner.vaults _ _ _) => apply wf_vaults
  | |- Views.wf (@update_field _ _ Inner.vault_rounds _ _ _) => apply wf_vault_rounds
  | |- Views.wf (@update_field _ _ Inner.vault_receipts _ _ _) => apply wf_vault_receipts
  | |- Views.wf (@update_field _ _ Inner.trading_vaults _ _ _) => apply wf_trading_vaults
  | |- Views.wf (@update_field _ _ Inner.trading_vault_positions _ _ _) => apply wf_trading_vault_positions
  | |- Views.wf (@update_field _ _ Inner.vault_positions _ _ _) => apply wf_vault_positions
  end.

Ltac state :=
  repeat first
    [ progress cbv zeta
    | lazymatch goal with
      | |- ?W (update_field _ _ _) => wf_update W
      | |- TradingVaultState.wf (if ?c then _ else _) => destruct c
      | |- TradingVaultState.wf (observe_tranche_flow _ _ _ _ _) => apply observe_tranche_flow_wf; [assumption..|]
      | |- TradingVaultState.wf (observe_risk _ _ _) => apply observe_risk_wf; [assumption..|]
      | |- TradingVaultState.wf (sync_pps _ _) => apply sync_pps_wf; [assumption|]
      end ].

Ltac entity :=
  let Hall := fresh "Hall" in intros Hall;
  lazymatch goal with
  | |- map_Forall _ (alter _ _ _) => apply all_alter; [exact Hall|intros ? ?; state; try assumption]
  | |- map_Forall _ (entry_or_insert _ _ _ _) => apply all_entry; [exact Hall| | |intros ? ?; state; try assumption]
  | |- map_Forall _ (<[_ := _]> _) => apply all_insert; [exact Hall| |]
  | |- map_Forall _ (delete _ _) => apply all_delete; exact Hall
  end.

Ltac arm := cbv zeta; repeat (view; [|entity]).

Ltac record :=
  first [apply RfqState_blank_wf | apply ReceiptState_default_wf | apply VaultRoundState_default_wf
        | red; wf_fields].

Lemma on_DeepBookPoolCreated_wf e s :
  DeepBookPoolCreated.wf e → Views.wf s → Views.wf (on_DeepBookPoolCreated e s).
Proof. intros He Hs. red in He. destruct_and?. unfold on_DeepBookPoolCreated. case_match; [done|]. arm; [done..|record]. Qed.

Lemma on_OptionMarketListed_wf e s :
  OptionMarketListed.wf e → Views.wf s → Views.wf (on_OptionMarketListed e s).
Proof. intros He Hs. red in He. destruct_and?. unfold on_OptionMarketListed. case_match; [done|]. arm; [done..|record]. Qed.

Lemma classify_auction_wf s a kind b :
  Views.wf s → classify_auction s a = (kind, b) → from_option id_wf True b.
Proof.
  intros Hs. unfold classify_auction. destruct (Inner.vaults s !! _) as [v|] eqn:Ev; [|by intros [= _ <-]].
  apply (Views.vaults _ Hs) in Ev as [_ Hv]. unfold VaultState.wf in Hv. destruct_and?.
  repeat case_match; by intros [= _ <-].
Qed.

Lemma on_AuctionCreated_wf e s : AuctionCreated.wf e → Views.wf s → Views.wf (on_AuctionCreated e s).
Proof.
  intros He Hs. red in He. destruct_and?. unfold on_AuctionCreated.
  destruct (classify_auction s e) as [kind b] eqn:E. apply classify_auction_wf in E; [|done].
  arm; [done..|]. state. apply RfqState_blank_wf.
Qed.

Lemma on_TvWithdrawFulfilled_wf e ts s :
  TvWithdrawFulfilled.wf e → u64 ts → Views.wf s → Views.wf (on_TvWithdrawFulfilled e ts s).
Proof.
  intros He Hts Hs. red in He. destruct_and?. unfold on_TvWithdrawFulfilled. cbv zeta.
  case_match; arm; exact Hs.
Qed.

Lemma on_TvPositionSplit_wf e ts s :
  TvPositionSplit.wf e → u64 ts → Views.wf s → Views.wf (on_TvPositionSplit e ts s).
Proof.
  intros He Hts Hs. red in He. destruct_and?. unfold on_TvPositionSplit.
  assert (∃ tr gen lock created,
    match Inner.vault_positions s !! TvPositionSplit.parent_id e with
    | Some parent => (VaultPositionState.tranche parent, VaultPositionState.capital_generation parent,
                      VaultPositionState.locked_until_ms parent, VaultPositionState.created_at_ms parent)
    | None => (TRANCHE_UNTRANCHED, 0, 0, ts) end = (tr, gen, lock, created) ∧
    u8 tr ∧ u64 gen ∧ u64 lock ∧ u64 created) as (tr & gen & lock & created & -> & ? & ? & ? & ?).
  { destruct (Inner.vault_positions s !! _) as [p|] eqn:Ep.
    - apply (Views.vault_positions _ Hs) in Ep as [_ Hp]. unfold VaultPositionState.wf in Hp. destruct_and?.
      eexists _, _, _, _. by split_and!.
    - eexists _, _, _, _. split_and!; auto with indexer. }
  arm; [exact Hs|done|record].
Qed.

Theorem apply_event_wf e ts s : ChainEvent.wf e → u64 ts → Views.wf s → Views.wf (apply_event e ts s).
Proof.
  intros He Hts Hs. destruct e; cbn [apply_event]; cbn in He; try exact Hs.
  all: try solve [ apply on_DeepBookPoolCreated_wf; assumption | apply on_OptionMarketListed_wf; assumption
                 | apply on_AuctionCreated_wf; assumption | apply on_TvWithdrawFulfilled_wf; assumption
                 | apply on_TvPositionSplit_wf; assumption ].
  all: pose proof He as Hwf; red in He; destruct_and?; unfold_arm.
  all: arm; try exact Hs; try assumption; try (split; cbn; assumption).
  all: first [apply from_created_wf; assumption | record].
Qed.
End events.

Lemma Inner_default_wf : Views.wf Inner_default.
Proof. split; apply map_Forall_empty. Qed.

Section mirror.
Context `{HexCrate, !HexCrateSpec}.

(** * Tables *)

Definition position_enc (k : ObjectId * Z) : rstring * Z := (to_hex k.1, k.2).
Definition round_enc (k : ObjectId * Z) : rstring * Z := (to_hex k.1, u64_as_i64 k.2).
Definition pair_enc (k : ObjectId * ObjectId) : rstring * rstring := (to_hex k.1, to_hex k.2).
Definition receipt_enc (k : ReceiptKey) : rstring * rstring * Z * rstring :=
  (to_hex k.1.1.1, k.1.1.2, u64_as_i64 k.1.2, k.2).

Lemma position_enc_inj k k' : position_key_wf k → position_key_wf k' → position_enc k = position_enc k' → k = k'.
Proof.
  destruct k, k'. intros [] [] [E1 E2]%pair_equal_spec. cbn in *. f_equal; [by apply to_hex_inj|done].
Qed.
Lemma round_enc_inj k k' : round_key_wf k → round_key_wf k' → round_enc k = round_enc k' → k = k'.
Proof.
  destruct k, k'. intros [] [] [E1 E2]%pair_equal_spec. cbn in *.
  f_equal; [by apply to_hex_inj|by apply u64_as_i64_inj].
Qed.
Lemma pair_enc_inj k k' : pair_wf k → pair_wf k' → pair_enc k = pair_enc k' → k = k'.
Proof. destruct k, k'. intros [] [] [E1 E2]%pair_equal_spec. cbn in *. f_equal; by apply to_hex_inj. Qed.
Lemma receipt_enc_inj k k' : receipt_key_wf k → receipt_key_wf k' → receipt_enc k = receipt_enc k' → k = k'.
Proof.
  destruct k as [[[] ] ], k' as [[[] ] ]. intros [] [] [[[E1 E2]%pair_equal_spec E3]%pair_equal_spec E4]%pair_equal_spec.
  cbn in *. repeat f_equal; [by apply to_hex_inj|done|by apply u64_as_i64_inj|done].
Qed.

Definition accounts_table : Table ObjectId rstring AccountState.t AccountRow.t :=
  Build_Table to_hex AccountRow.account_id account_row_into_state id_wf AccountState.wf eq to_hex_inj.
Definition buckets_table : Table ObjectId rstring BucketState.t BucketRow.t :=
  Build_Table to_hex BucketRow.bucket_id BucketRow_into_state id_wf BucketState.wf eq to_hex_inj.
Definition positions_table : Table (ObjectId * Z) (rstring * Z) PositionState.t PositionRow.t :=
  Build_Table position_enc position_pk PositionRow_into_state position_key_wf PositionState.wf eq position_enc_inj.
Definition pools_table : Table ObjectId rstring DeepBookPoolState.t DeepBookPoolRow.t :=
  Build_Table to_hex DeepBookPoolRow.bucket_id DeepBookPoolRow_into_state id_wf DeepBookPoolState.wf eq to_hex_inj.
Definition markets_table : Table ObjectId rstring ExchangeMarketState.t ExchangeMarketLinkRow.t :=
  Build_Table to_hex ExchangeMarketLinkRow.bucket_id ExchangeMarketLinkRow_into_state id_wf ExchangeMarketState.wf eq to_hex_inj.
Definition rfqs_table : Table ObjectId rstring RfqState.t RfqRow.t :=
  Build_Table to_hex RfqRow.rfq_id RfqRow_into_state id_wf RfqState.wf eq to_hex_inj.
(** The configuration columns of [vaults] are written once. *)
Definition vaults_table : Table ObjectId rstring VaultState.t VaultRow.t :=
  Build_Table to_hex VaultRow.vault_id VaultRow_into_state id_wf VaultState.wf same_but_config to_hex_inj.
Definition rounds_table : Table (ObjectId * Z) (rstring * Z) VaultRoundState.t VaultRoundRow.t :=
  Build_Table round_enc round_pk VaultRoundRow_into_state round_key_wf VaultRoundState.wf eq round_enc_inj.
Definition receipts_table : Table ReceiptKey (rstring * rstring * Z * rstring) ReceiptState.t VaultReceiptRow.t :=
  Build_Table receipt_enc receipt_pk VaultReceiptRow_into_state receipt_key_wf ReceiptState.wf eq receipt_enc_inj.
Definition trading_vaults_table : Table ObjectId rstring TradingVaultState.t TradingVaultRow.t :=
  Build_Table to_hex TradingVaultRow.vault_id TradingVaultRow_into_state id_wf TradingVaultState.wf eq to_hex_inj.
Definition tv_positions_table :
    Table (ObjectId * ObjectId) (rstring * rstring) TradingVaultPositionState.t TradingVaultPositionRow.t :=
  Build_Table pair_enc tv_position_pk TradingVaultPositionRow_into_state pair_wf TradingVaultPositionState.wf eq pair_enc_inj.
Definition vault_positions_table : Table ObjectId rstring VaultPositionState.t VaultPositionRow.t :=
  Build_Table to_hex VaultPositionRow.position_id VaultPositionRow_into_state id_wf VaultPositionState.wf eq to_hex_inj.

(** ** Tables written by snapshots *)

(** A row that an update replaces altogether. *)
Ltac replaced read := intros; subst; eexists; (split; [by apply read|done]).

Definition accounts_snapshots (seq : Z) : Snapshots accounts_table.
Proof.
  refine (Build_Snapshots accounts_table set_account (λ k s, account_row k s seq) (λ _ _, True) _ _ _ _ _); cbn.
  - done.
  - replaced account_read.
  - done.
  - intros. rewrite set_account_row by done. replaced account_read.
  - done.
Defined.

Definition buckets_snapshots (seq : Z) : Snapshots buckets_table.
Proof.
  refine (Build_Snapshots buckets_table set_bucket (λ k s, bucket_row k s seq) bucket_fixed _ _ _ _ _); cbn.
  - done.
  - replaced bucket_read.
  - done.
  - intros. subst. eexists. split; [by eapply set_bucket_read|done].
  - by repeat split.
Defined.

Definition rfqs_snapshots (seq : Z) : Snapshots rfqs_table.
Proof.
  refine (Build_Snapshots rfqs_table set_rfq (λ k s, rfq_row k s seq) (λ _ _, True) _ _ _ _ _); cbn.
  - done.
  - replaced rfq_read.
  - done.
  - intros. rewrite set_rfq_row by done. replaced rfq_read.
  - done.
Defined.

Definition vaults_snapshots (seq : Z) : Snapshots vaults_table.
Proof.
  refine (Build_Snapshots vaults_table set_vault (λ k s, vault_row k s seq) vault_fixed _ _ _ _ _); cbn.
  - done.
  - intros. exists s. split; [by apply vault_read|by repeat split].
  - done.
  - intros. by eapply set_vault_read.
  - by repeat split.
Defined.

Definition rounds_snapshots (seq : Z) : Snapshots rounds_table.
Proof.
  refine (Build_Snapshots rounds_table set_vault_round (λ k s, vault_round_row k.1 k.2 s seq) (λ _ _, True) _ _ _ _ _); cbn.
  - done.
  - replaced vault_round_read.
  - done.
  - intros. rewrite set_vault_round_row by done. replaced vault_round_read.
  - done.
Defined.

Definition receipts_snapshots (seq : Z) : Snapshots receipts_table.
Proof.
  refine (Build_Snapshots receipts_table set_receipt (λ k s, receipt_row k s seq) (λ _ _, True) _ _ _ _ _); cbn.
  - done.
  - replaced receipt_read.
  - done.
  - intros. rewrite set_receipt_row by done. replaced receipt_read.
  - done.
Defined.

Definition trading_vaults_snapshots (seq : Z) : Snapshots trading_vaults_table.
Proof.
  refine (Build_Snapshots trading_vaults_table set_all (λ k s, trading_vault_row k s seq) (λ _ _, True) _ _ _ _ _); cbn.
  - done.
  - replaced trading_vault_read.
  - done.
  - intros. unfold set_all. replaced trading_vault_read.
  - done.
Defined.

Definition tv_positions_snapshots (seq : Z) : Snapshots tv_positions_table.
Proof.
  refine (Build_Snapshots tv_positions_table set_tv_position (λ k s, trading_vault_position_row k.1 k.2 s seq) tv_position_fixed _ _ _ _ _); cbn.
  - done.
  - replaced trading_vault_position_read.
  - done.
  - intros. subst. eexists. split; [by eapply set_tv_position_read|done].
  - by repeat split.
Defined.

Definition vault_positions_snapshots (seq : Z) : Snapshots vault_positions_table.
Proof.
  refine (Build_Snapshots vault_positions_table set_all (λ k s, vault_position_row k s seq) (λ _ _, True) _ _ _ _ _); cbn.
  - done.
  - replaced vault_position_read.
  - done.
  - intros. unfold set_all. replaced vault_position_read.
  - done.
Defined.

End mirror.
