(* ===== verification/IndexerSync.v ===== *)
(** Staging one event keeps the rows in step with the views: the tables, with
    the rows of the checkpoint so far written over them, hold the views. *)

From S2P Require Import Prelude RecordUpdate RustStr ExchangeTypes Json Quote IndexerEvents IndexerStore IndexerRows IndexerApply IndexerStage IndexerRepo IndexerTable IndexerWf.

(** * Tactics *)

(** A projection of an updated record. *)
Ltac project P :=
  repeat match goal with
  | |- context [P (@update_field ?R ?A ?f ?i ?g ?r)] =>
      lazymatch f with
      | P => change (P (@update_field R A f i g r)) with (g (P r))
      | _ => change (P (@update_field R A f i g r)) with (P r)
      end
  end.

(** Unfolds an arm of [apply_event] and what it stages. *)
Ltac unfold_head t := let rec go t := lazymatch t with ?f _ => go f | ?f => unfold f end in go t.

Ltac unfold_arm P :=
  cbn [apply_event stage_event_into_batch];
  match goal with |- context [P ?x] => unfold_head x end;
  unfold stage_account, stage_bucket, stage_rfq, stage_vault, stage_vault_round, stage_receipt, stage_trading_vault,
    stage_trading_vault_position, stage_consumed, stage_vault_position, push_position, push_delete, push_bid; cbv zeta.

(** * What the chain guarantees about an event

    Identifiers of new objects are new; a range of a bucket is written once; a
    pool or market is announced once, for a bucket that is known. *)

Section admissible.
Context `{HexCrate}.

Definition new_position (s : Inner.t) (batch : CheckpointBatch.t) (bucket_id : ObjectId) (range_start : Z) : Prop :=
  Inner.positions s !! (bucket_id, range_start) = None ∧
  (to_hex bucket_id, range_start) ∉ CheckpointBatch.position_deletes batch.

Definition admissible (s : Inner.t) (batch : CheckpointBatch.t) (event : ChainEvent.t) : Prop :=
  match event with
  | ChainEvent.BucketCreated e => Inner.buckets s !! BucketCreated.bucket_id e = None
  | ChainEvent.PutBucketCreated e => Inner.buckets s !! PutBucketCreated.bucket_id e = None
  | ChainEvent.VaultCreated e => Inner.vaults s !! VaultCreated.vault_id e = None
  | ChainEvent.TvPositionStored e =>
      Inner.trading_vault_positions s !! (TvPositionStored.vault_id e, TvPositionStored.position_id e) = None
  | ChainEvent.WriteExecuted e => new_position s batch (WriteExecuted.bucket_id e) (WriteExecuted.range_start e)
  | ChainEvent.PutWriteExecuted e =>
      new_position s batch (PutWriteExecuted.bucket_id e) (PutWriteExecuted.range_start e)
  | ChainEvent.RfqSettled e => new_position s batch (RfqSettled.bucket_id e) (RfqSettled.range_start e)
  | ChainEvent.VaultRfqSettled e => new_position s batch (VaultRfqSettled.bucket_id e) (VaultRfqSettled.range_start e)
  | ChainEvent.PutRfqSettled e => new_position s batch (PutRfqSettled.bucket_id e) (PutRfqSettled.range_start e)
  | ChainEvent.DeepBookPoolCreated e =>
      is_Some (Inner.buckets s !! DeepBookPoolCreated.bucket_id e) ∧
      (Inner.deepbook_pools s !! DeepBookPoolCreated.bucket_id e = None →
       map_Forall (λ _ p, DeepBookPoolState.pool_id p ≠ DeepBookPoolCreated.pool_id e) (Inner.deepbook_pools s))
  | ChainEvent.OptionMarketListed e =>
      is_Some (Inner.buckets s !! OptionMarketListed.bucket e) ∧
      (Inner.exchange_markets s !! OptionMarketListed.bucket e = None →
       map_Forall (λ _ m, ExchangeMarketState.registry_id m ≠ OptionMarketListed.registry e) (Inner.exchange_markets s))
  | _ => True
  end.

#[export] Instance admissible_dec s batch event : Decision (admissible s batch event).
Proof. destruct event; cbn; try apply _; unfold new_position; apply _. Defined.
End admissible.

(** * The tables with a batch written over them *)

Section sync.
Context `{HexCrate, !HexCrateSpec}.

Record synced (db : Database.t) (batch : CheckpointBatch.t) (s : Inner.t) : Prop := {
  sync_accounts : reflects accounts_table
    (upsert_all AccountRow.account_id set_account (CheckpointBatch.accounts batch) (Database.accounts db))
    (Inner.accounts s);
  sync_buckets : reflects buckets_table
    (upsert_all BucketRow.bucket_id set_bucket (CheckpointBatch.buckets batch) (Database.buckets db))
    (Inner.buckets s);
  sync_positions : reflects positions_table
    (delete_positions (CheckpointBatch.position_deletes batch)
      (upsert_all position_pk set_position (CheckpointBatch.position_upserts batch) (Database.positions db)))
    (Inner.positions s);
  sync_pools : reflects pools_table
    (insert_all_or_skip DeepBookPoolRow.bucket_id same_pool (CheckpointBatch.deepbook_pools batch)
      (Database.bucket_deepbook_pools db))
    (Inner.deepbook_pools s);
  sync_markets : reflects markets_table
    (insert_all_or_skip ExchangeMarketLinkRow.bucket_id same_registry (CheckpointBatch.exchange_markets batch)
      (Database.exchange_market_links db))
    (Inner.exchange_markets s);
  sync_rfqs : reflects rfqs_table
    (upsert_all RfqRow.rfq_id set_rfq (CheckpointBatch.rfqs batch) (Database.rfqs db)) (Inner.rfqs s);
  sync_vaults : reflects vaults_table
    (upsert_all VaultRow.vault_id set_vault (CheckpointBatch.vaults batch) (Database.vaults db)) (Inner.vaults s);
  sync_rounds : reflects rounds_table
    (upsert_all round_pk set_vault_round (CheckpointBatch.vault_rounds batch) (Database.vault_rounds db))
    (Inner.vault_rounds s);
  sync_receipts : reflects receipts_table
    (upsert_all receipt_pk set_receipt (CheckpointBatch.vault_receipts batch) (Database.vault_user_receipts db))
    (Inner.vault_receipts s);
  sync_trading_vaults : reflects trading_vaults_table
    (upsert_all TradingVaultRow.vault_id set_all (CheckpointBatch.trading_vaults batch) (Database.trading_vaults db))
    (Inner.trading_vaults s);
  sync_tv_positions : reflects tv_positions_table
    (upsert_all tv_position_pk set_tv_position (CheckpointBatch.trading_vault_positions batch)
      (Database.trading_vault_positions db))
    (Inner.trading_vault_positions s);
  sync_vault_positions : reflects vault_positions_table
    (upsert_all VaultPositionRow.position_id set_all (CheckpointBatch.vault_positions batch)
      (Database.vault_positions db))
    (Inner.vault_positions s)
}.

(** * Which events reach a table *)

Definition touches_accounts (e : ChainEvent.t) : bool :=
  match e with
  | ChainEvent.SignerCreated _ | ChainEvent.SigningKeyRotated _ => true
  | _ => false
  end.

Definition touches_buckets (e : ChainEvent.t) : bool :=
  match e with
  | ChainEvent.BucketCreated _ | ChainEvent.WriteExecuted _ | ChainEvent.Exercised _ |
  ChainEvent.BucketCleaned _ | ChainEvent.BucketInvalidated _ | ChainEvent.BucketRevalidated _ |
  ChainEvent.CollateralizedWrite _ | ChainEvent.PutBucketCreated _ | ChainEvent.PutWriteExecuted _ |
  ChainEvent.PutExercised _ | ChainEvent.PutBucketCleaned _ | ChainEvent.PutBucketInvalidated _ |
  ChainEvent.PutBucketRevalidated _ | ChainEvent.PutCollateralizedWrite _ => true
  | _ => false
  end.

Definition touches_positions (e : ChainEvent.t) : bool :=
  match e with
  | ChainEvent.WriteExecuted _ | ChainEvent.Redeemed _ | ChainEvent.RfqSettled _ | ChainEvent.VaultRfqSettled
  _ | ChainEvent.PutWriteExecuted _ | ChainEvent.PutRedeemed _ | ChainEvent.PutRfqSettled _ => true
  | _ => false
  end.

Definition touches_pools (e : ChainEvent.t) : bool :=
  match e with
  | ChainEvent.DeepBookPoolCreated _ => true
  | _ => false
  end.

Definition touches_markets (e : ChainEvent.t) : bool :=
  match e with
  | ChainEvent.OptionMarketListed _ => true
  | _ => false
  end.

Definition touches_rfqs (e : ChainEvent.t) : bool :=
  match e with
  | ChainEvent.AuctionCreated _ | ChainEvent.AuctionBid _ | ChainEvent.AuctionSettled _ |
  ChainEvent.AuctionUnfilled _ | ChainEvent.RfqCreated _ | ChainEvent.RfqSettled _ |
  ChainEvent.RfqExpiredUnsold _ | ChainEvent.VaultRfqSettled _ | ChainEvent.VaultRfqUnsold _ |
  ChainEvent.SwapRfqSettled _ | ChainEvent.SwapRfqUnfilled _ | ChainEvent.PutRfqCreated _ |
  ChainEvent.PutRfqSettled _ | ChainEvent.PutRfqExpiredUnsold _ => true
  | _ => false
  end.

Definition touches_vaults (e : ChainEvent.t) : bool :=
  match e with
  | ChainEvent.VaultCreated _ | ChainEvent.VaultConfigApplied _ | ChainEvent.VaultDeposit _ |
  ChainEvent.InstantWithdraw _ | ChainEvent.VaultBucketSelected _ | ChainEvent.VaultRoundFinalized _ |
  ChainEvent.VaultDepositsPaused _ => true
  | _ => false
  end.

Definition touches_rounds (e : ChainEvent.t) : bool :=
  match e with
  | ChainEvent.VaultBucketSelected _ | ChainEvent.VaultFeesCharged _ | ChainEvent.VaultRoundFinalized _ => true
  | _ => false
  end.

Definition touches_receipts (e : ChainEvent.t) : bool :=
  match e with
  | ChainEvent.VaultDeposit _ | ChainEvent.InstantWithdraw _ | ChainEvent.SharesClaimed _ |
  ChainEvent.WithdrawInitiated _ | ChainEvent.WithdrawCompleted _ => true
  | _ => false
  end.

Definition touches_trading_vaults (e : ChainEvent.t) : bool :=
  match e with
  | ChainEvent.TvVaultCreated _ | ChainEvent.TvVaultClosing _ | ChainEvent.TvVaultClosed _ |
  ChainEvent.TvDepositsPaused _ | ChainEvent.TvMmReleaseToggled _ | ChainEvent.TvCuratorRotated _ |
  ChainEvent.TvDeposited _ | ChainEvent.TvWithdrawRequested _ | ChainEvent.TvWithdrawFulfilled _ |
  ChainEvent.TvCapitalSynced _ | ChainEvent.TvRiskStateChanged _ | ChainEvent.TvJuniorResetProposed _ |
  ChainEvent.TvJuniorResetCancelled _ | ChainEvent.TvJuniorResetExecuted _ | ChainEvent.TvSettlementSnapshot _
  | ChainEvent.TvSettlementRedeemed _ | ChainEvent.TvPositionStored _ | ChainEvent.TvPositionRemoved _ |
  ChainEvent.TvVaultAppraised _ | ChainEvent.TvExternalAccountSet _ | ChainEvent.TvExternalAccountCleared _ |
  ChainEvent.TvExternalReleased _ | ChainEvent.TvExternalReturned _ | ChainEvent.EquityPosted _ => true
  | _ => false
  end.

Definition touches_tv_positions (e : ChainEvent.t) : bool :=
  match e with
  | ChainEvent.TvPositionStored _ | ChainEvent.TvPositionRemoved _ | ChainEvent.TvPositionAppraised _ => true
  | _ => false
  end.

Definition touches_vault_positions (e : ChainEvent.t) : bool :=
  match e with
  | ChainEvent.TvWithdrawRequested _ | ChainEvent.TvWithdrawFulfilled _ | ChainEvent.TvPositionMinted _ |
  ChainEvent.TvPositionSplit _ | ChainEvent.TvPositionMerged _ | ChainEvent.TvWipedPositionBurned _ |
  ChainEvent.TvSettlementRedeemed _ => true
  | _ => false
  end.

Section frames.
Context (e : ChainEvent.t) (ts seq tsi : Z) (tx : rstring) (s : Inner.t) (batch : CheckpointBatch.t).
Notation s' := (apply_event e ts s).
Notation batch' := (stage_event_into_batch s' e seq tx tsi batch).

Ltac frame :=
  destruct e; try discriminate; intros _; try (repeat split; reflexivity);
  cbn [apply_event stage_event_into_batch];
  unfold on_DeepBookPoolCreated, on_OptionMarketListed, on_AuctionCreated, on_TvWithdrawFulfilled, on_TvPositionSplit,
    stage_deepbook_pool, stage_exchange_market, stage_consumed;
  repeat case_match; repeat split; reflexivity.

Lemma frame_accounts : touches_accounts e = false →
  Inner.accounts s' = Inner.accounts s ∧ CheckpointBatch.accounts batch' = CheckpointBatch.accounts batch.
Proof. frame. Qed.

Lemma frame_buckets : touches_buckets e = false →
  Inner.buckets s' = Inner.buckets s ∧ CheckpointBatch.buckets batch' = CheckpointBatch.buckets batch.
Proof. frame. Qed.

Lemma frame_positions : touches_positions e = false →
  Inner.positions s' = Inner.positions s ∧ CheckpointBatch.position_upserts batch' = CheckpointBatch.position_upserts batch ∧
  CheckpointBatch.position_deletes batch' = CheckpointBatch.position_deletes batch.
Proof. frame. Qed.

Lemma frame_pools : touches_pools e = false →
  Inner.deepbook_pools s' = Inner.deepbook_pools s ∧ CheckpointBatch.deepbook_pools batch' = CheckpointBatch.deepbook_pools batch.
Proof. frame. Qed.

Lemma frame_markets : touches_markets e = false →
  Inner.exchange_markets s' = Inner.exchange_markets s ∧ CheckpointBatch.exchange_markets batch' = CheckpointBatch.exchange_markets batch.
Proof. frame. Qed.

Lemma frame_rfqs : touches_rfqs e = false →
  Inner.rfqs s' = Inner.rfqs s ∧ CheckpointBatch.rfqs batch' = CheckpointBatch.rfqs batch.
Proof. frame. Qed.

Lemma frame_vaults : touches_vaults e = false →
  Inner.vaults s' = Inner.vaults s ∧ CheckpointBatch.vaults batch' = CheckpointBatch.vaults batch.
Proof. frame. Qed.

Lemma frame_rounds : touches_rounds e = false →
  Inner.vault_rounds s' = Inner.vault_rounds s ∧ CheckpointBatch.vault_rounds batch' = CheckpointBatch.vault_rounds batch.
Proof. frame. Qed.

Lemma frame_receipts : touches_receipts e = false →
  Inner.vault_receipts s' = Inner.vault_receipts s ∧ CheckpointBatch.vault_receipts batch' = CheckpointBatch.vault_receipts batch.
Proof. frame. Qed.

Lemma frame_trading_vaults : touches_trading_vaults e = false →
  Inner.trading_vaults s' = Inner.trading_vaults s ∧ CheckpointBatch.trading_vaults batch' = CheckpointBatch.trading_vaults batch.
Proof. frame. Qed.

Lemma frame_tv_positions : touches_tv_positions e = false →
  Inner.trading_vault_positions s' = Inner.trading_vault_positions s ∧ CheckpointBatch.trading_vault_positions batch' = CheckpointBatch.trading_vault_positions batch.
Proof. frame. Qed.

Lemma frame_vault_positions : touches_vault_positions e = false →
  Inner.vault_positions s' = Inner.vault_positions s ∧ CheckpointBatch.vault_positions batch' = CheckpointBatch.vault_positions batch.
Proof. frame. Qed.

End frames.

(** * One event *)

Lemma option_wf {K V} `{Countable K} (P : K → Prop) (Q : V → Prop) (m : gmap K V) k :
  map_Forall (λ k v, P k ∧ Q v) m → from_option Q True (m !! k).
Proof. intros Hm. destruct (m !! k) eqn:E; [by destruct (Hm _ _ E)|done]. Qed.

(** The lemma on snapshots that fits the change of the view. *)
Ltac snapshot snaps Hre Hall :=
  lazymatch goal with
  | |- reflects _ (upsert_all _ _ (push_some _ (alter _ _ _ !! _) _) _) _ =>
      apply (reflects_alter _ snaps); [exact Hre|try done|try (intros; by repeat split)|]
  | |- reflects _ (upsert_all _ _ (push_some _ (entry_or_insert _ _ _ _ !! _) _) _) _ =>
      apply (reflects_entry _ snaps); [exact Hre|try done|done|]
  | |- reflects _ (upsert_all _ _ (push_some _ (<[_ := _]> _ !! _) _) _) _ =>
      apply (reflects_insert _ snaps); [exact Hre|try done|auto|]
  end; [try (split; cbn; assumption)..|eapply option_wf; exact Hall].

Ltac step P B all frame snaps Hwf Hs' Hre Et e :=
  pose proof (all _ Hs') as Hall; revert Hall; destruct e; try discriminate;
  cbn in Hwf; red in Hwf; destruct_and?; unfold_arm P; repeat case_match; project P; project B; intros Hall;
  try (snapshot snaps Hre Hall).

Section event.
Context (e : ChainEvent.t) (ts seq tsi : Z) (tx : rstring) (s : Inner.t) (db : Database.t) (batch : CheckpointBatch.t).
Notation s' := (apply_event e ts s).
Notation batch' := (stage_event_into_batch s' e seq tx tsi batch).
Context (Hwf : ChainEvent.wf e) (Hs' : Views.wf s') (Hadm : admissible s batch e).

Lemma step_accounts :
  reflects accounts_table (upsert_all AccountRow.account_id set_account (CheckpointBatch.accounts batch) (Database.accounts db)) (Inner.accounts s) →
  reflects accounts_table (upsert_all AccountRow.account_id set_account (CheckpointBatch.accounts batch') (Database.accounts db)) (Inner.accounts s').
Proof.
  intros Hre. destruct (touches_accounts e) eqn:Et; [|by destruct (frame_accounts e ts seq tsi tx s batch Et) as [-> ->] ].
  step Inner.accounts CheckpointBatch.accounts Views.accounts frame_accounts (accounts_snapshots seq) Hwf Hs' Hre Et e.
Qed.

Lemma step_buckets :
  reflects buckets_table (upsert_all BucketRow.bucket_id set_bucket (CheckpointBatch.buckets batch) (Database.buckets db)) (Inner.buckets s) →
  reflects buckets_table (upsert_all BucketRow.bucket_id set_bucket (CheckpointBatch.buckets batch') (Database.buckets db)) (Inner.buckets s').
Proof.
  intros Hre. destruct (touches_buckets e) eqn:Et; [|by destruct (frame_buckets e ts seq tsi tx s batch Et) as [-> ->] ].
  step Inner.buckets CheckpointBatch.buckets Views.buckets frame_buckets (buckets_snapshots seq) Hwf Hs' Hre Et e.
Qed.

Lemma step_rfqs :
  reflects rfqs_table (upsert_all RfqRow.rfq_id set_rfq (CheckpointBatch.rfqs batch) (Database.rfqs db)) (Inner.rfqs s) →
  reflects rfqs_table (upsert_all RfqRow.rfq_id set_rfq (CheckpointBatch.rfqs batch') (Database.rfqs db)) (Inner.rfqs s').
Proof.
  intros Hre. destruct (touches_rfqs e) eqn:Et; [|by destruct (frame_rfqs e ts seq tsi tx s batch Et) as [-> ->] ].
  step Inner.rfqs CheckpointBatch.rfqs Views.rfqs frame_rfqs (rfqs_snapshots seq) Hwf Hs' Hre Et e.
Qed.

Lemma step_vaults :
  reflects vaults_table (upsert_all VaultRow.vault_id set_vault (CheckpointBatch.vaults batch) (Database.vaults db)) (Inner.vaults s) →
  reflects vaults_table (upsert_all VaultRow.vault_id set_vault (CheckpointBatch.vaults batch') (Database.vaults db)) (Inner.vaults s').
Proof.
  intros Hre. destruct (touches_vaults e) eqn:Et; [|by destruct (frame_vaults e ts seq tsi tx s batch Et) as [-> ->] ].
  step Inner.vaults CheckpointBatch.vaults Views.vaults frame_vaults (vaults_snapshots seq) Hwf Hs' Hre Et e.
Qed.

Lemma step_rounds :
  reflects rounds_table (upsert_all round_pk set_vault_round (CheckpointBatch.vault_rounds batch) (Database.vault_rounds db)) (Inner.vault_rounds s) →
  reflects rounds_table (upsert_all round_pk set_vault_round (CheckpointBatch.vault_rounds batch') (Database.vault_rounds db)) (Inner.vault_rounds s').
Proof.
  intros Hre. destruct (touches_rounds e) eqn:Et; [|by destruct (frame_rounds e ts seq tsi tx s batch Et) as [-> ->] ].
  step Inner.vault_rounds CheckpointBatch.vault_rounds Views.vault_rounds frame_rounds (rounds_snapshots seq) Hwf Hs' Hre Et e.
Qed.

Lemma step_receipts :
  reflects receipts_table (upsert_all receipt_pk set_receipt (CheckpointBatch.vault_receipts batch) (Database.vault_user_receipts db)) (Inner.vault_receipts s) →
  reflects receipts_table (upsert_all receipt_pk set_receipt (CheckpointBatch.vault_receipts batch') (Database.vault_user_receipts db)) (Inner.vault_receipts s').
Proof.
  intros Hre. destruct (touches_receipts e) eqn:Et; [|by destruct (frame_receipts e ts seq tsi tx s batch Et) as [-> ->] ].
  step Inner.vault_receipts CheckpointBatch.vault_receipts Views.vault_receipts frame_receipts (receipts_snapshots seq) Hwf Hs' Hre Et e.
Qed.

Lemma step_trading_vaults :
  reflects trading_vaults_table (upsert_all TradingVaultRow.vault_id set_all (CheckpointBatch.trading_vaults batch) (Database.trading_vaults db)) (Inner.trading_vaults s) →
  reflects trading_vaults_table (upsert_all TradingVaultRow.vault_id set_all (CheckpointBatch.trading_vaults batch') (Database.trading_vaults db)) (Inner.trading_vaults s').
Proof.
  intros Hre. destruct (touches_trading_vaults e) eqn:Et; [|by destruct (frame_trading_vaults e ts seq tsi tx s batch Et) as [-> ->] ].
  step Inner.trading_vaults CheckpointBatch.trading_vaults Views.trading_vaults frame_trading_vaults (trading_vaults_snapshots seq) Hwf Hs' Hre Et e.
Qed.

Lemma step_tv_positions :
  reflects tv_positions_table (upsert_all tv_position_pk set_tv_position (CheckpointBatch.trading_vault_positions batch) (Database.trading_vault_positions db)) (Inner.trading_vault_positions s) →
  reflects tv_positions_table (upsert_all tv_position_pk set_tv_position (CheckpointBatch.trading_vault_positions batch') (Database.trading_vault_positions db)) (Inner.trading_vault_positions s').
Proof.
  intros Hre. destruct (touches_tv_positions e) eqn:Et; [|by destruct (frame_tv_positions e ts seq tsi tx s batch Et) as [-> ->] ].
  step Inner.trading_vault_positions CheckpointBatch.trading_vault_positions Views.trading_vault_positions frame_tv_positions (tv_positions_snapshots seq) Hwf Hs' Hre Et e.
Qed.

(** A fulfilment finds its position again after consuming it. *)
Lemma consumed_again w f id :
  (∀ p, VaultPositionState.vault_id (f p) = VaultPositionState.vault_id p ∧
        VaultPositionState.queued_global_seq (f p) = VaultPositionState.queued_global_seq p) →
  ∀ (r : Inner.t) v g, queued_position r v g = w →
  queued_position (r <| Inner.vault_positions ::= alter f id |>) v g = w.
Proof.
  intros Hf r v g <-. apply queued_position_ext. intros k. cbn.
  destruct (decide (k = id)) as [->|]; [|by rewrite lookup_alter_ne].
  rewrite lookup_alter_eq. destruct (Inner.vault_positions r !! id) as [p|]; [|done]. cbn.
  by destruct (Hf p) as [-> ->].
Qed.

Notation vp_rows b := (upsert_all VaultPositionRow.position_id set_all (CheckpointBatch.vault_positions b) (Database.vault_positions db)).

Lemma step_fulfilled w :
  e = ChainEvent.TvWithdrawFulfilled w →
  reflects vault_positions_table (vp_rows batch) (Inner.vault_positions s) →
  reflects vault_positions_table (vp_rows batch') (Inner.vault_positions s').
Proof.
  intros -> Hre. pose proof (Views.vault_positions _ Hs') as Hall. revert Hall.
  cbn [apply_event stage_event_into_batch]. unfold on_TvWithdrawFulfilled, stage_consumed. cbv zeta.
  set (s1 := s <| Inner.trading_vaults ::= _ |>).
  destruct (queued_position s1 _ _) as [id|] eqn:Eq.
  - rewrite (consumed_again (Some id)) by done. unfold stage_trading_vault, stage_vault_position.
    project Inner.vault_positions. project CheckpointBatch.vault_positions. intros Hall. cbn in Hwf. red in Hwf.
    snapshot (vault_positions_snapshots seq) Hre Hall.
    cbn in *. apply fmap_Some in Eq as ([k p] & Hf & ->). apply find_entry in Hf as (Hk & _ & _).
    by apply (reflects_wf _ _ _ Hre) in Hk as [].
  - intros _. rewrite Eq. exact Hre.
Qed.

Lemma step_vault_positions :
  reflects vault_positions_table (vp_rows batch) (Inner.vault_positions s) →
  reflects vault_positions_table (vp_rows batch') (Inner.vault_positions s').
Proof.
  intros Hre. destruct (touches_vault_positions e) eqn:Et;
    [|by destruct (frame_vault_positions e ts seq tsi tx s batch Et) as [-> ->] ].
  pose proof step_fulfilled as Hful. destruct e; try discriminate; try (by eapply Hful). all: clear Hful.
  all: step Inner.vault_positions CheckpointBatch.vault_positions Views.vault_positions
         frame_vault_positions (vault_positions_snapshots seq) Hwf Hs' Hre Et e.
  all: apply (reflects_snapshot_2 _ (vault_positions_snapshots seq)) with (m := Inner.vault_positions s);
    [exact Hre|done|done| | |done|intros; eapply option_wf; exact Hall].
  all: try (intros j Hj1 Hj2; unfold entry_or_insert; by rewrite ?lookup_insert_ne, ?lookup_alter_ne by done).
  all: intros j Hj; try (by rewrite !lookup_alter_is_Some).
  all: unfold entry_or_insert; match goal with |- is_Some (<[?k := _]> _ !! _) => destruct (decide (j = k)) as [->|] end;
    [by rewrite lookup_insert_eq|]; by rewrite lookup_insert_ne, lookup_alter_is_Some by done.
Qed.

End event.
End sync.

Section steps.
Context `{HexCrate, !HexCrateSpec}.

Lemma delete_positions_upsert (dels : list (rstring * Z)) (r : PositionRow.t) (t : gmap (rstring * Z) PositionRow.t) :
  position_pk r ∉ dels →
  delete_positions dels (upsert position_pk set_position r t) = upsert position_pk set_position r (delete_positions dels t).
Proof.
  unfold delete_positions. revert t. induction dels as [|k dels IH]; intros t Hr; [done|]. cbn.
  rewrite <- IH by set_solver. f_equal. unfold upsert. rewrite lookup_delete_ne by set_solver.
  destruct (t !! position_pk r); rewrite delete_insert_ne by set_solver; done.
Qed.

Lemma delete_positions_push (k : rstring * Z) (dels : list (rstring * Z)) (t : gmap (rstring * Z) PositionRow.t) :
  delete_positions (push k dels) t = delete k (delete_positions dels t).
Proof. unfold delete_positions, push. by rewrite foldl_app. Qed.

Lemma reflects_new_position (ups : list PositionRow.t) (dels : list (rstring * Z)) (t : gmap (rstring * Z) PositionRow.t)
    (m : gmap (ObjectId * Z) PositionState.t) k (r : PositionRow.t) st :
  reflects positions_table (delete_positions dels (upsert_all position_pk set_position ups t)) m →
  position_key_wf k → PositionState.wf st → m !! k = None → position_enc k ∉ dels →
  position_pk r = position_enc k → PositionRow_into_state r = Ok (k, st) →
  reflects positions_table (delete_positions dels (upsert_all position_pk set_position (push r ups) t)) (<[k := st]> m).
Proof.
  intros Hre Hk Hst Hm Hd Hr Hi. rewrite (upsert_all_push positions_table). cbn.
  rewrite delete_positions_upsert by (by rewrite Hr).
  apply (reflects_upsert_new positions_table); [done..|]. by exists st.
Qed.

Section event.
Context (e : ChainEvent.t) (ts seq tsi : Z) (tx : rstring) (s : Inner.t) (db : Database.t) (batch : CheckpointBatch.t).
Notation s' := (apply_event e ts s).
Notation batch' := (stage_event_into_batch s' e seq tx tsi batch).
Context (Hwf : ChainEvent.wf e) (Hs' : Views.wf s') (Hadm : admissible s batch e).

Notation position_rows b :=
  (delete_positions (CheckpointBatch.position_deletes b)
    (upsert_all position_pk set_position (CheckpointBatch.position_upserts b) (Database.positions db))).

Lemma step_positions :
  reflects positions_table (position_rows batch) (Inner.positions s) →
  reflects positions_table (position_rows batch') (Inner.positions s').
Proof.
  intros Hre. destruct (touches_positions e) eqn:Et;
    [|by destruct (frame_positions e ts seq tsi tx s batch Et) as (-> & -> & ->)].
  pose proof (Views.positions _ Hs') as Hall. revert Hall.
  destruct e; try discriminate; cbn in Hwf; red in Hwf; destruct_and?; cbn in Hadm; unfold new_position in Hadm;
    destruct_and?; unfold_arm Inner.positions; project Inner.positions; project CheckpointBatch.position_upserts;
    project CheckpointBatch.position_deletes; intros Hall.
  all: lazymatch goal with
  | |- reflects _ (delete_positions (push _ _) _) _ =>
      rewrite delete_positions_push; apply (reflects_delete positions_table _ _ (_, _) Hre); by split
  | |- reflects _ (delete_positions _ (upsert_all _ _ (push _ _) _)) (<[?k := ?st]> _) =>
      assert (position_key_wf k) by (by split);
      assert (PositionState.wf st) by (red; cbn; by split_and!);
      apply reflects_new_position; try done; by apply position_read
  end.
Qed.

(** ** Pools and markets *)

Notation pool_rows b :=
  (insert_all_or_skip DeepBookPoolRow.bucket_id same_pool (CheckpointBatch.deepbook_pools b)
    (Database.bucket_deepbook_pools db)).

(** A row of another pool does not clash. *)
Lemma other_pool t m rk r p cp :
  reflects pools_table t m → DeepBookPoolCreated.wf p → t !! rk = Some r →
  map_Forall (λ _ q, DeepBookPoolState.pool_id q ≠ DeepBookPoolCreated.pool_id p) m →
  same_pool (deepbook_pool_row p cp tsi seq) r = false.
Proof.
  intros Hre Hp Hr Hall. apply bool_decide_eq_false. intros E. change (to_hex (DeepBookPoolCreated.pool_id p) = DeepBookPoolRow.pool_id r) in E.
  destruct (reflects_rows _ _ _ Hre _ _ Hr) as (_ & k & Hk & ->). pose proof (reflects_holds _ _ _ Hre k Hk) as Hat.
  rewrite Hr in Hat. destruct (m !! k) as [q|] eqn:Em; [|done]. destruct Hat as (q0 & Hi & Hq). cbn in Hi, Hq. subst q0.
  unfold DeepBookPoolRow_into_state in Hi. read_inv Hi. injection Hi as _ <-. apply (Hall _ _ Em). cbn.
  rewrite <- E, id_round in Ha0 by apply Hp. by injection Ha0.
Qed.

Lemma step_pool p :
  e = ChainEvent.DeepBookPoolCreated p →
  reflects pools_table (pool_rows batch) (Inner.deepbook_pools s) →
  reflects pools_table (pool_rows batch') (Inner.deepbook_pools s').
Proof.
  intros -> Hre. pose proof (Views.deepbook_pools _ Hs') as Hall. revert Hall. cbn in Hwf, Hadm. destruct Hadm as [_ Hfresh].
  cbn [apply_event stage_event_into_batch]. unfold on_DeepBookPoolCreated, stage_deepbook_pool.
  destruct (Inner.deepbook_pools s !! _) as [q|] eqn:Eq.
  - intros _. rewrite Eq. case_bool_decide; [|exact Hre]. project CheckpointBatch.deepbook_pools.
    rewrite (insert_all_or_skip_push pools_table). cbn. erewrite (insert_or_skip_taken pools_table); [exact Hre|exact Hre|..].
    + apply Hwf.
    + by rewrite Eq.
    + done.
  - project Inner.deepbook_pools. intros Hall. rewrite lookup_insert_eq. cbn. rewrite bool_decide_eq_true_2 by done.
    project CheckpointBatch.deepbook_pools. rewrite (insert_all_or_skip_push pools_table). cbn.
    apply (reflects_insert_or_skip pools_table); [exact Hre|apply Hwf|by eapply Hall, lookup_insert_eq|done|done|..].
    + eexists. split; [by apply deepbook_pool_read|done].
    + intros rk r Hr. by eapply other_pool; [exact Hre| |exact Hr|auto].
Qed.

Lemma step_pools :
  reflects pools_table (pool_rows batch) (Inner.deepbook_pools s) →
  reflects pools_table (pool_rows batch') (Inner.deepbook_pools s').
Proof.
  intros Hre. destruct (touches_pools e) eqn:Et; [|by destruct (frame_pools e ts seq tsi tx s batch Et) as [-> ->] ].
  pose proof step_pool as Hstep. destruct e; try discriminate. by eapply Hstep.
Qed.

Notation market_rows b :=
  (insert_all_or_skip ExchangeMarketLinkRow.bucket_id same_registry (CheckpointBatch.exchange_markets b)
    (Database.exchange_market_links db)).

Lemma other_market t m rk r l :
  reflects markets_table t m → OptionMarketListed.wf l → t !! rk = Some r →
  map_Forall (λ _ q, ExchangeMarketState.registry_id q ≠ OptionMarketListed.registry l) m →
  same_registry (exchange_market_row l seq) r = false.
Proof.
  intros Hre Hp Hr Hall. apply bool_decide_eq_false. intros E. change (to_hex (OptionMarketListed.registry l) = ExchangeMarketLinkRow.registry_id r) in E.
  destruct (reflects_rows _ _ _ Hre _ _ Hr) as (_ & k & Hk & ->). pose proof (reflects_holds _ _ _ Hre k Hk) as Hat.
  rewrite Hr in Hat. destruct (m !! k) as [q|] eqn:Em; [|done]. destruct Hat as (q0 & Hi & Hq). cbn in Hi, Hq. subst q0.
  unfold ExchangeMarketLinkRow_into_state in Hi. read_inv Hi. injection Hi as _ <-. apply (Hall _ _ Em). cbn.
  rewrite <- E, id_round in Ha0 by apply Hp. by injection Ha0.
Qed.

Lemma step_market l :
  e = ChainEvent.OptionMarketListed l →
  reflects markets_table (market_rows batch) (Inner.exchange_markets s) →
  reflects markets_table (market_rows batch') (Inner.exchange_markets s').
Proof.
  intros -> Hre. pose proof (Views.exchange_markets _ Hs') as Hall. revert Hall. cbn in Hwf, Hadm. destruct Hadm as [_ Hfresh].
  cbn [apply_event stage_event_into_batch]. unfold on_OptionMarketListed, stage_exchange_market.
  destruct (Inner.exchange_markets s !! _) as [q|] eqn:Eq.
  - intros _. rewrite Eq. case_bool_decide; [|exact Hre]. project CheckpointBatch.exchange_markets.
    rewrite (insert_all_or_skip_push markets_table). cbn. erewrite (insert_or_skip_taken markets_table); [exact Hre|exact Hre|..].
    + apply Hwf.
    + by rewrite Eq.
    + done.
  - project Inner.exchange_markets. intros Hall. rewrite lookup_insert_eq. cbn. rewrite bool_decide_eq_true_2 by done.
    project CheckpointBatch.exchange_markets. rewrite (insert_all_or_skip_push markets_table). cbn.
    apply (reflects_insert_or_skip markets_table); [exact Hre|apply Hwf|by eapply Hall, lookup_insert_eq|done|done|..].
    + eexists. split; [by apply exchange_market_read|done].
    + intros rk r Hr. by eapply other_market; [exact Hre| |exact Hr|auto].
Qed.

Lemma step_markets :
  reflects markets_table (market_rows batch) (Inner.exchange_markets s) →
  reflects markets_table (market_rows batch') (Inner.exchange_markets s').
Proof.
  intros Hre. destruct (touches_markets e) eqn:Et; [|by destruct (frame_markets e ts seq tsi tx s batch Et) as [-> ->] ].
  pose proof step_market as Hstep. destruct e; try discriminate. by eapply Hstep.
Qed.

(** * All the tables *)

Lemma stage_event_synced : synced db batch s → synced db batch' s'.
Proof.
  intros []. split;
    [ by apply step_accounts | by apply step_buckets | by apply step_positions | by apply step_pools
    | by apply step_markets | by apply step_rfqs | by apply step_vaults | by apply step_rounds
    | by apply step_receipts | by apply step_trading_vaults | by apply step_tv_positions
    | by apply step_vault_positions ].
Qed.
End event.
End steps.
