(* ===== verification/IndexerPersist.v ===== *)
(** A checkpoint, staged and written in one transaction, and the views read
    back at boot: the database goes on mirroring the views. *)

From S2P Require Import Prelude RecordUpdate RustStr ExchangeTypes Json Quote IndexerEvents IndexerStore IndexerRows IndexerApply IndexerStage IndexerRepo IndexerTable IndexerWf IndexerSync.

(** * Inserts that skip conflicting rows *)

Section skip.
Context {K R : Type} `{Countable K} (pk : R → K) (clash : R → R → bool).
Implicit Types (t : gmap K R) (rows : list R).

Lemma insert_or_skip_cases r t :
  insert_or_skip pk clash r t = t ∧ (is_Some (t !! pk r) ∨ ∃ k r', t !! k = Some r' ∧ clash r r' = true) ∨
  insert_or_skip pk clash r t = <[pk r := r]> t.
Proof.
  unfold insert_or_skip. destruct (bool_decide (is_Some (t !! pk r))) eqn:E1; cbn.
  - left. split; [done|]. left. by apply bool_decide_eq_true in E1.
  - destruct (existsb _ _) eqn:E2; [left|by right]. split; [done|]. right.
    apply existsb_exists in E2 as (r' & Hin & Hc). apply list_elem_of_In, list_elem_of_fmap in Hin as ([k r''] & -> & Hin).
    apply elem_of_map_to_list in Hin. eauto.
Qed.

(** What is in the table afterwards was there, or is one of the rows. *)
Lemma insert_all_origin rows t k r :
  insert_all_or_skip pk clash rows t !! k = Some r → t !! k = Some r ∨ (r ∈ rows ∧ k = pk r).
Proof.
  revert t. induction rows as [|x rows IH]; intros t; [by left|]. cbn. intros [Hin|[Hin ->]]%IH.
  - destruct (insert_or_skip_cases x t) as [[E _]|E]; rewrite E in Hin; [by left|].
    apply lookup_insert_Some in Hin as [[<- <-]|[_ Hin]]; [right|by left]. split; [by left|done].
  - right. split; [by right|done].
Qed.

Lemma insert_all_keeps rows t k : is_Some (t !! k) → is_Some (insert_all_or_skip pk clash rows t !! k).
Proof.
  revert t. induction rows as [|x rows IH]; intros t Hk; [done|]. cbn. apply IH.
  destruct (insert_or_skip_cases x t) as [[-> _]| ->]; [done|]. rewrite lookup_insert_is_Some. by destruct (decide (pk x = k)); auto.
Qed.

(** Rows that clash with nothing are all there. *)
Lemma insert_all_taken rows t :
  (∀ r k r', r ∈ rows → t !! k = Some r' → clash r r' = false) →
  ForallOrdPairs (λ r r', clash r' r = false) rows →
  ∀ r, r ∈ rows → is_Some (insert_all_or_skip pk clash rows t !! pk r).
Proof.
  intros Ht Hrows. revert t Ht. induction Hrows as [|x rows Hx Hrows IH]; intros t Ht r Hr; [by apply not_elem_of_nil in Hr|].
  cbn. apply elem_of_cons in Hr as [->|Hr].
  - apply insert_all_keeps. destruct (insert_or_skip_cases x t) as [[-> [Hs|(k & r' & Hk & Hc)]]| ->]; [done| |].
    + by rewrite (Ht x k r' ltac:(by left) Hk) in Hc.
    + by rewrite lookup_insert_eq.
  - apply IH; [|done]. intros r0 k r' Hr0 Hk. destruct (insert_or_skip_cases x t) as [[E _]|E]; rewrite E in Hk.
    + apply (Ht r0 k r'); [by right|done].
    + apply lookup_insert_Some in Hk as [[_ <-]|[_ Hk]]; [|apply (Ht r0 k r'); [by right|done]].
      rewrite Forall_forall in Hx. by apply Hx.
Qed.
End skip.

Lemma references_ok {K R} `{Countable K} {L S} `{Countable L} table (fk : R → L) (parent : gmap L S) (before after : gmap K R) :
  (∀ k r, after !! k = Some r → is_Some (before !! k) ∨ is_Some (parent !! fk r)) →
  references table fk parent before after = Ok after.
Proof.
  intros Hok. unfold references. rewrite (proj2 (forallb_forall _ _)); [done|].
  intros [k r] Hin%list_elem_of_In%elem_of_map_to_list. apply orb_true_iff. destruct (Hok _ _ Hin); [left|right]; by apply bool_decide_eq_true.
Qed.

(** * A batch written to the database *)

(** The database after [apply_checkpoint], when no constraint refuses a row. *)
Definition written (batch : CheckpointBatch.t) (db : Database.t) : Database.t := {|
  Database.indexed_events :=
    insert_all_or_skip NewIndexedEventRow.sequence same_event (CheckpointBatch.events batch) (Database.indexed_events db);
  Database.event_participants :=
    Database.event_participants db ∪ list_to_set (List.filter (λ k, negb (bool_decide (k ∈ Database.event_participants db)))
      ((λ r, (EventParticipantRow.sequence r, EventParticipantRow.address r, EventParticipantRow.role r)) <$> CheckpointBatch.event_participants batch));
  Database.accounts := upsert_all AccountRow.account_id set_account (CheckpointBatch.accounts batch) (Database.accounts db);
  Database.buckets := upsert_all BucketRow.bucket_id set_bucket (CheckpointBatch.buckets batch) (Database.buckets db);
  Database.bucket_deepbook_pools :=
    insert_all_or_skip DeepBookPoolRow.bucket_id same_pool (CheckpointBatch.deepbook_pools batch) (Database.bucket_deepbook_pools db);
  Database.exchange_market_links :=
    insert_all_or_skip ExchangeMarketLinkRow.bucket_id same_registry (CheckpointBatch.exchange_markets batch) (Database.exchange_market_links db);
  Database.positions :=
    delete_positions (CheckpointBatch.position_deletes batch)
      (upsert_all position_pk set_position (CheckpointBatch.position_upserts batch) (Database.positions db));
  Database.rfqs := upsert_all RfqRow.rfq_id set_rfq (CheckpointBatch.rfqs batch) (Database.rfqs db);
  Database.rfq_bids := insert_all_or_skip bid_pk never (CheckpointBatch.rfq_bids batch) (Database.rfq_bids db);
  Database.vaults := upsert_all VaultRow.vault_id set_vault (CheckpointBatch.vaults batch) (Database.vaults db);
  Database.vault_rounds := upsert_all round_pk set_vault_round (CheckpointBatch.vault_rounds batch) (Database.vault_rounds db);
  Database.vault_user_receipts :=
    upsert_all receipt_pk set_receipt (CheckpointBatch.vault_receipts batch) (Database.vault_user_receipts db);
  Database.trading_vaults :=
    upsert_all TradingVaultRow.vault_id set_all (CheckpointBatch.trading_vaults batch) (Database.trading_vaults db);
  Database.trading_vault_positions :=
    upsert_all tv_position_pk set_tv_position (CheckpointBatch.trading_vault_positions batch) (Database.trading_vault_positions db);
  Database.vault_positions :=
    upsert_all VaultPositionRow.position_id set_all (CheckpointBatch.vault_positions batch) (Database.vault_positions db);
  Database.indexer_progress := Some (CheckpointBatch.checkpoint batch, CheckpointBatch.last_sequence batch)
|}.

(** The rows that point at another table find their row. *)
Record keys_ok (batch : CheckpointBatch.t) (db : Database.t) : Prop := {
  participants_ok : ∀ p, p ∈ CheckpointBatch.event_participants batch →
    is_Some (Database.indexed_events (written batch db) !! EventParticipantRow.sequence p);
  bids_ok : ∀ b, b ∈ CheckpointBatch.rfq_bids batch →
    is_Some (Database.indexed_events (written batch db) !! RfqBidRow.sequence b);
  pools_ok : ∀ k r, Database.bucket_deepbook_pools (written batch db) !! k = Some r →
    is_Some (Database.buckets (written batch db) !! DeepBookPoolRow.bucket_id r);
  markets_ok : ∀ k r, Database.exchange_market_links (written batch db) !! k = Some r →
    is_Some (Database.buckets (written batch db) !! ExchangeMarketLinkRow.bucket_id r)
}.

Lemma apply_checkpoint_written batch db :
  CheckpointBatch.is_empty batch = false → keys_ok batch db → apply_checkpoint batch db = Ok (written batch db).
Proof.
  intros He [Hp Hb Hpo Hm]. unfold apply_checkpoint. rewrite He. cbv zeta.
  unfold insert_participants. rewrite (proj2 (forallb_forall _ _)).
  2:{ intros k [Hin _]%filter_In. apply list_elem_of_In, list_elem_of_fmap in Hin as (p & -> & Hin).
      apply bool_decide_eq_true. by apply Hp. }
  cbn [mbind result_bind]. unfold insert_pools. erewrite (references_ok (str "bucket_deepbook_pools")); cycle 1.
  { intros k r Hk. right. by apply (Hpo k r). }
  cbn [mbind result_bind]. unfold insert_markets. erewrite (references_ok (str "exchange_market_links")); cycle 1.
  { intros k r Hk. right. by apply (Hm k r). }
  cbn [mbind result_bind]. unfold insert_bids. erewrite (references_ok (str "rfq_bids")); cycle 1.
  { intros k r [Hk|[Hin ->]]%insert_all_origin; [left; by eexists|right; by apply Hb]. }
  reflexivity.
Qed.

(** Pools and markets belong to buckets that are known. *)
Record linked (s : Inner.t) : Prop := {
  linked_pools k : is_Some (Inner.deepbook_pools s !! k) → is_Some (Inner.buckets s !! k);
  linked_markets k : is_Some (Inner.exchange_markets s !! k) → is_Some (Inner.buckets s !! k)
}.

Section event.
Context `{HexCrate}.
Context (e : ChainEvent.t) (ts seq tsi : Z) (tx : rstring) (s : Inner.t) (batch : CheckpointBatch.t).
Notation s' := (apply_event e ts s).
Notation batch' := (stage_event_into_batch s' e seq tx tsi batch).

(** * What one event leaves alone *)

Ltac frame :=
  destruct e; try reflexivity; cbn [apply_event stage_event_into_batch];
  unfold on_DeepBookPoolCreated, on_OptionMarketListed, on_AuctionCreated, on_TvWithdrawFulfilled, on_TvPositionSplit,
    stage_deepbook_pool, stage_exchange_market, stage_consumed;
  repeat case_match; reflexivity.

Lemma frame_next_sequence : Inner.next_sequence s' = Inner.next_sequence s.
Proof. frame. Qed.

Lemma frame_events : CheckpointBatch.events batch' = CheckpointBatch.events batch.
Proof. frame. Qed.

Lemma frame_participants : CheckpointBatch.event_participants batch' = CheckpointBatch.event_participants batch.
Proof. frame. Qed.

Lemma frame_checkpoint : CheckpointBatch.checkpoint batch' = CheckpointBatch.checkpoint batch.
Proof. frame. Qed.

Lemma bids_staged b :
  b ∈ CheckpointBatch.rfq_bids batch' → b ∈ CheckpointBatch.rfq_bids batch ∨ RfqBidRow.sequence b = seq.
Proof.
  assert (CheckpointBatch.rfq_bids batch' = CheckpointBatch.rfq_bids batch ∨
    ∃ r, CheckpointBatch.rfq_bids batch' = push r (CheckpointBatch.rfq_bids batch) ∧ RfqBidRow.sequence r = seq) as Hb.
  { destruct e; try (by left); cbn [apply_event stage_event_into_batch];
      unfold on_DeepBookPoolCreated, on_OptionMarketListed, on_AuctionCreated, on_TvWithdrawFulfilled, on_TvPositionSplit,
        stage_deepbook_pool, stage_exchange_market, stage_consumed; try (repeat case_match; left; reflexivity).
    right. eexists. split; reflexivity. }
  destruct Hb as [->|(r & -> & <-)]; [by left|]. intros [Hin|Hin]%elem_of_app; [by left|].
  apply list_elem_of_singleton in Hin as ->. by right.
Qed.

(** * Buckets are never dropped *)

Lemma buckets_kept k : is_Some (Inner.buckets s !! k) → is_Some (Inner.buckets s' !! k).
Proof.
  intros Hk. destruct (touches_buckets e) eqn:Et; [|by destruct (frame_buckets e ts seq tsi tx s batch Et) as [-> _] ].
  destruct e; try discriminate; unfold_arm Inner.buckets; project Inner.buckets.
  all: lazymatch goal with
  | |- is_Some (alter _ _ _ !! _) => by rewrite lookup_alter_is_Some
  | |- is_Some (<[ _ := _ ]> _ !! _) => rewrite lookup_insert_is_Some'; by right
  end.
Qed.

Lemma linked_event : admissible s batch e → linked s → linked s'.
Proof.
  intros Hadm [Hp Hm]. split; intros k Hk; apply buckets_kept.
  - destruct (touches_pools e) eqn:Et; [|apply Hp; by destruct (frame_pools e ts seq tsi tx s batch Et) as [<- _] ].
    revert Hk Hadm. clear Hm. destruct e; try discriminate. cbn [apply_event admissible]. unfold on_DeepBookPoolCreated.
    intros Hk [Hb _]. revert Hk. case_match; [by auto|]. project Inner.deepbook_pools.
    intros [<-|Hk]%lookup_insert_is_Some'; auto.
  - destruct (touches_markets e) eqn:Et; [|apply Hm; by destruct (frame_markets e ts seq tsi tx s batch Et) as [<- _] ].
    revert Hk Hadm. clear Hp. destruct e; try discriminate. cbn [apply_event admissible]. unfold on_OptionMarketListed.
    intros Hk [Hb _]. revert Hk. case_match; [by auto|]. project Inner.exchange_markets.
    intros [<-|Hk]%lookup_insert_is_Some'; auto.
Qed.
End event.

(** * The loop *)

(** The serializer of events is total on what the decoder gives. *)
Class EventJsonSpec `{EventJson} : Prop := event_json_total e : ChainEvent.wf e → is_Some (event_to_value e).

Definition numbered {A} (n0 : Z) (l : list A) : list (Z * A) := zip (seqZ n0 (Z.of_nat (length l))) l.

Lemma numbered_snoc {A} n0 (l : list A) x : numbered n0 (l ++ [x]) = numbered n0 l ++ [(n0 + Z.of_nat (length l), x)].
Proof.
  unfold numbered. rewrite length_app. cbn [length]. rewrite Nat2Z.inj_add, seqZ_app by lia. rewrite zip_with_app by (rewrite length_seqZ; lia).
  done.
Qed.

Section loop.
Context `{HexCrate, !HexCrateSpec, EventJson, !EventJsonSpec}.
Context (cp ts n0 : Z) (db : Database.t).
Implicit Types (e : ChainEvent.t * rstring * Z) (evs : list (ChainEvent.t * rstring * Z)).

(** The log and the next sequence are not in the views. *)
Lemma synced_next g batch s : synced db batch s → synced db batch (s <| Inner.next_sequence ::= g |>).
Proof. intros []. by split. Qed.

Lemma synced_log f g batch s :
  synced db batch s → synced db (batch <| CheckpointBatch.event_participants ::= f |> <| CheckpointBatch.events ::= g |>) s.
Proof. intros []. by split. Qed.

Lemma linked_next g s : linked s → linked (s <| Inner.next_sequence ::= g |>).
Proof. intros []. by split. Qed.

(** The row of the [n]-th event. *)
Definition logged (ne : Z * (ChainEvent.t * rstring * Z)) (r : NewIndexedEventRow.t) : Prop :=
  new_event_row (u64_as_i64 ne.1) (u64_as_i64 cp) ne.2.1.2 ne.2.2 (u64_as_i64 ts) ne.2.1.1 = Ok r.

(** The rows of the events so far: one in the log for each, and what points at
    the log points at those. *)
Record counted evs (s : Inner.t) (batch : CheckpointBatch.t) : Prop := {
  counted_next : Inner.next_sequence s = n0 + Z.of_nat (length evs);
  counted_checkpoint : CheckpointBatch.checkpoint batch = u64_as_i64 cp;
  counted_events : Forall2 logged (numbered n0 evs) (CheckpointBatch.events batch);
  counted_participants p : p ∈ CheckpointBatch.event_participants batch →
    EventParticipantRow.sequence p ∈ NewIndexedEventRow.sequence <$> CheckpointBatch.events batch;
  counted_bids b : b ∈ CheckpointBatch.rfq_bids batch →
    RfqBidRow.sequence b ∈ NewIndexedEventRow.sequence <$> CheckpointBatch.events batch;
  counted_edges n e a role : (n, e) ∈ numbered n0 evs → (∀ s, (a, role) ∈ participants s e.1.1) →
    EventParticipantRow.mk (u64_as_i64 n) a role ∈ CheckpointBatch.event_participants batch
}.

Lemma logged_sequence n e r : logged (n, e) r → NewIndexedEventRow.sequence r = u64_as_i64 n.
Proof. unfold logged, new_event_row. cbn. intros [v [_ E]]%bind_inv. by injection E as <-. Qed.

Lemma stage_one_counted e evs s batch :
  0 ≤ n0 → n0 + Z.of_nat (length evs) < u64_max → ChainEvent.wf e.1.1 → counted evs s batch →
  ∃ s' batch', stage_one cp ts e (s, batch) = (s', Ok batch') ∧ counted (evs ++ [e]) s' batch'.
Proof.
  destruct e as [ [e tx] idx]. cbn. intros Hn0 Hn He [Hnext Hcp Hev Hparts Hbids Hedges].
  set (seq := Inner.next_sequence s). set (s1 := s <| Inner.next_sequence ::= λ n, u64_add n 1 |>).
  destruct (event_json_total e He) as [v Hv].
  assert (Hrow : new_event_row (u64_as_i64 seq) (u64_as_i64 cp) tx idx (u64_as_i64 ts) e = Ok
    (NewIndexedEventRow.mk (u64_as_i64 seq) (u64_as_i64 cp) tx idx (u64_as_i64 ts) (event_type_tag e) v)).
  { unfold new_event_row. by rewrite Hv. }
  cbn [stage_one]. cbv zeta. rewrite Hrow. eexists _, _. split; [reflexivity|].
  split; project CheckpointBatch.events; project CheckpointBatch.event_participants; project CheckpointBatch.rfq_bids;
    project CheckpointBatch.checkpoint; unfold collect_participants; project CheckpointBatch.events;
    project CheckpointBatch.event_participants; project CheckpointBatch.rfq_bids; project CheckpointBatch.checkpoint;
    rewrite ?frame_events, ?frame_participants, ?frame_checkpoint; unfold push.
  - rewrite frame_next_sequence by exact (CheckpointBatch.empty 0 0).
    rewrite length_app. change (Inner.next_sequence s1) with (u64_add seq 1).
    unfold seq. rewrite Hnext. cbn [length]. int_lia.
  - done.
  - rewrite numbered_snoc. apply Forall2_app; [done|]. constructor; [|done]. red. cbn. rewrite <- Hnext. exact Hrow.
  - intros p. rewrite fmap_app. intros [Hin|Hin]%elem_of_app; apply elem_of_app.
    + left. by apply Hparts.
    + right. apply list_elem_of_fmap in Hin as ([a r] & -> & _). by left.
  - intros b. rewrite fmap_app. intros [Hin|Hin]%bids_staged; apply elem_of_app.
    + left. by apply Hbids.
    + right. rewrite Hin. by left.
  - intros n e' a role. rewrite numbered_snoc. intros [Hin|Hin]%elem_of_app Hall; apply elem_of_app.
    + left. by apply Hedges with e'.
    + right. apply list_elem_of_singleton in Hin as E. injection E as -> ->. rewrite <- Hnext.
      apply list_elem_of_fmap. exists (a, role). split; [done|]. apply Hall.
Qed.

(** The rows of the events so far, and the tables they leave. *)
Record staged evs (s : Inner.t) (batch : CheckpointBatch.t) : Prop := {
  staged_synced : synced db batch s;
  staged_wf : Views.wf s;
  staged_linked : linked s;
  staged_counted : counted evs s batch
}.

Lemma stage_one_staged e evs s batch :
  u64 ts → 0 ≤ n0 → n0 + Z.of_nat (length evs) < u64_max → ChainEvent.wf e.1.1 → admissible s batch e.1.1 →
  staged evs s batch →
  ∃ s' batch', stage_one cp ts e (s, batch) = (s', Ok batch') ∧ staged (evs ++ [e]) s' batch'.
Proof.
  intros Hts Hn0 Hn He Hadm [Hsy Hwf Hl Hc].
  destruct (stage_one_counted e evs s batch Hn0 Hn He Hc) as (s' & batch' & E & Hc').
  exists s', batch'. split; [done|]. destruct e as [ [e tx] idx]. cbn [fst] in He, Hadm. cbn [stage_one] in E. cbv zeta in E.
  set (s1 := s <| Inner.next_sequence ::= λ n, u64_add n 1 |>) in E.
  assert (Hwf' : Views.wf (apply_event e ts s1)) by (by apply apply_event_wf, wf_next_sequence).
  destruct (new_event_row _ _ _ _ _ _); [|done]. injection E as <- <-. split; [|exact Hwf'| |exact Hc'].
  - apply synced_log. apply stage_event_synced; [done..|]. by apply synced_next.
  - apply (linked_event e ts 0 0 tx s1 batch); [done|]. by apply linked_next.
Qed.

(** Each event is one the chain can emit after those before it. *)
Fixpoint admissible_events evs (s : Inner.t) (batch : CheckpointBatch.t) : Prop :=
  match evs with
  | [] => True
  | e :: evs =>
      admissible s batch e.1.1 ∧
      match stage_one cp ts e (s, batch) with
      | (s, Ok batch) => admissible_events evs s batch
      | (_, Err _) => True
      end
  end.

#[export] Instance admissible_events_dec evs s batch : Decision (admissible_events evs s batch).
Proof.
  revert s batch. induction evs as [|e evs IH]; intros s batch; cbn [admissible_events]; [apply _|].
  apply and_dec; [apply _|]. destruct (stage_one cp ts e (s, batch)) as [s' [batch'|x] ]; [apply IH|apply _].
Defined.

Lemma stage_loop_staged evs : ∀ pre s batch,
  u64 ts → 0 ≤ n0 → n0 + Z.of_nat (length (pre ++ evs)) ≤ u64_max →
  Forall (λ e, ChainEvent.wf e.1.1) evs → admissible_events evs s batch → staged pre s batch →
  ∃ s' batch', stage_loop cp ts evs s batch = (s', Ok batch') ∧ staged (pre ++ evs) s' batch'.
Proof.
  induction evs as [|e evs IH]; intros pre s batch Hts Hn0 Hn Hwf Hadm Hst.
  { exists s, batch. by rewrite app_nil_r. }
  apply Forall_cons in Hwf as [He Hwf]. destruct Hadm as [Ha Hadm].
  rewrite length_app in Hn. cbn [length] in Hn.
  destruct (stage_one_staged e pre s batch) as (s1 & batch1 & E & Hst1); try done; [lia|].
  cbn [stage_loop]. rewrite E in Hadm |- *.
  destruct (IH (pre ++ [e]) s1 batch1) as (s2 & batch2 & E2 & Hst2); [done..| |done|done|done|].
  { rewrite !length_app. cbn [length]. lia. }
  exists s2, batch2. by rewrite <- app_assoc in Hst2.
Qed.

Lemma synced_checkpoint c q c' q' s :
  synced db (CheckpointBatch.empty c q) s → synced db (CheckpointBatch.empty c' q') s.
Proof. intros []. by split. Qed.

Lemma counted_nil s : Inner.next_sequence s = n0 → counted [] s (CheckpointBatch.empty (u64_as_i64 cp) 0).
Proof.
  intros Hn. split; [cbn; lia|done|constructor|..].
  - by intros p ?%not_elem_of_nil.
  - by intros p ?%not_elem_of_nil.
  - by intros n e a role ?%not_elem_of_nil.
Qed.

Lemma staged_nil s :
  synced db (CheckpointBatch.empty 0 0) s → Views.wf s → linked s → Inner.next_sequence s = n0 →
  staged [] s (CheckpointBatch.empty (u64_as_i64 cp) 0).
Proof. intros Hsy Hwf Hl Hn. split; [by eapply synced_checkpoint|done|done|by apply counted_nil]. Qed.

(** * A checkpoint staged *)

Lemma counted_last q evs s batch :
  counted evs s batch → counted evs s (batch <| CheckpointBatch.last_sequence := q |>).
Proof. intros []. by split. Qed.

Lemma staged_last q evs s batch :
  staged evs s batch → staged evs s (batch <| CheckpointBatch.last_sequence := q |>).
Proof. intros [ [] ?? ?]. split; [by split|done|done|by apply counted_last]. Qed.

(** Staging never fails, whatever the events. *)
Lemma stage_loop_counted evs : ∀ pre s batch,
  0 ≤ n0 → n0 + Z.of_nat (length (pre ++ evs)) ≤ u64_max → Forall (λ e, ChainEvent.wf e.1.1) evs → counted pre s batch →
  ∃ s' batch', stage_loop cp ts evs s batch = (s', Ok batch') ∧ counted (pre ++ evs) s' batch'.
Proof.
  induction evs as [|e evs IH]; intros pre s batch Hn0 Hn Hwf Hst.
  { exists s, batch. by rewrite app_nil_r. }
  apply Forall_cons in Hwf as [He Hwf]. rewrite length_app in Hn. cbn [length] in Hn.
  destruct (stage_one_counted e pre s batch) as (s1 & batch1 & E & Hst1); try done; [lia|].
  cbn [stage_loop]. rewrite E.
  destruct (IH (pre ++ [e]) s1 batch1) as (s2 & batch2 & E2 & Hst2); [done| |done|done|].
  { rewrite !length_app. cbn [length]. lia. }
  exists s2, batch2. by rewrite <- app_assoc in Hst2.
Qed.

Lemma stage_batch_counted evs s :
  0 ≤ n0 → n0 + Z.of_nat (length evs) ≤ u64_max → Forall (λ e, ChainEvent.wf e.1.1) evs → Inner.next_sequence s = n0 →
  ∃ s' batch, stage_batch cp ts evs s = (s', Ok batch) ∧ counted evs s' batch.
Proof.
  intros Hn0 Hn Hev Hs. pose proof (counted_nil s Hs) as Hnil. destruct evs as [|e evs].
  { eexists _, _. split; [reflexivity|]. by apply (counted_last (last_sequence s)) in Hnil. }
  destruct (stage_loop_counted (e :: evs) [] s _ Hn0 Hn Hev Hnil) as (s' & batch & E & Hst).
  unfold stage_batch. rewrite E. eexists _, _. split; [reflexivity|]. by apply counted_last.
Qed.

Lemma stage_batch_staged evs s :
  u64 ts → 0 ≤ n0 → n0 + Z.of_nat (length evs) ≤ u64_max → Forall (λ e, ChainEvent.wf e.1.1) evs →
  admissible_events evs s (CheckpointBatch.empty (u64_as_i64 cp) 0) →
  synced db (CheckpointBatch.empty 0 0) s → Views.wf s → linked s → Inner.next_sequence s = n0 →
  ∃ s' batch, stage_batch cp ts evs s = (s', Ok batch) ∧ staged evs s' batch ∧
    CheckpointBatch.last_sequence batch = last_sequence s'.
Proof.
  intros Hts Hn0 Hn Hev Hadm Hsy Hwf Hl Hs. pose proof (staged_nil s Hsy Hwf Hl Hs) as Hnil.
  destruct evs as [|e evs].
  { eexists _, _. split; [reflexivity|]. split; [by apply (staged_last (last_sequence s)) in Hnil|done]. }
  destruct (stage_loop_staged (e :: evs) [] s _ Hts Hn0 Hn Hev Hadm Hnil) as (s' & batch & E & Hst).
  unfold stage_batch. rewrite E. eexists _, _. split; [reflexivity|]. split; [by apply staged_last|done].
Qed.
End loop.

(** * The log of a checkpoint *)

Lemma elem_of_numbered {A} n0 (l : list A) n x :
  (n, x) ∈ numbered n0 l → n0 ≤ n < n0 + Z.of_nat (length l) ∧ x ∈ l.
Proof.
  unfold numbered. intros Hin. split.
  - apply elem_of_zip_l in Hin. by apply elem_of_seqZ in Hin.
  - by apply elem_of_zip_r in Hin.
Qed.

Lemma numbered_covers {A} n0 (l : list A) n : n0 ≤ n < n0 + Z.of_nat (length l) → ∃ x, (n, x) ∈ numbered n0 l.
Proof.
  intros Hn. destruct (l !! Z.to_nat (n - n0)) as [x|] eqn:E; [|apply lookup_ge_None in E; lia].
  exists x. apply list_elem_of_lookup. exists (Z.to_nat (n - n0)). unfold numbered. rewrite lookup_zip_with, lookup_seqZ_lt by lia.
  cbn. rewrite E. cbn. do 2 f_equal. lia.
Qed.

Section log.
Context `{HexCrate, EventJson}.
Context (cp ts n0 : Z).
Implicit Types (evs : list (ChainEvent.t * rstring * Z)) (rows : list NewIndexedEventRow.t).

(** What identifies an event on the chain. *)
Definition event_key (e : ChainEvent.t * rstring * Z) : rstring * Z := (e.1.2, e.2).
Definition row_key (r : NewIndexedEventRow.t) : rstring * Z := (NewIndexedEventRow.tx_digest r, NewIndexedEventRow.event_index r).

Lemma logged_inv n e r :
  logged cp ts (n, e) r →
  NewIndexedEventRow.sequence r = u64_as_i64 n ∧ NewIndexedEventRow.checkpoint r = u64_as_i64 cp ∧ row_key r = event_key e.
Proof. unfold logged, new_event_row. cbn. intros [v [_ E]]%bind_inv. by injection E as <-. Qed.

Lemma logged_row evs rows r :
  Forall2 (logged cp ts) (numbered n0 evs) rows → r ∈ rows →
  ∃ n, n0 ≤ n < n0 + Z.of_nat (length evs) ∧ NewIndexedEventRow.sequence r = u64_as_i64 n ∧
       NewIndexedEventRow.checkpoint r = u64_as_i64 cp.
Proof.
  intros Hall [i Hi]%list_elem_of_lookup. destruct (Forall2_lookup_r _ _ _ _ _ Hall Hi) as ([n e] & Hn & Hl).
  apply list_elem_of_lookup_2, elem_of_numbered in Hn as [Hn _]. apply logged_inv in Hl. exists n. tauto.
Qed.

Lemma logged_covers evs rows n :
  Forall2 (logged cp ts) (numbered n0 evs) rows → n0 ≤ n < n0 + Z.of_nat (length evs) →
  ∃ r, r ∈ rows ∧ NewIndexedEventRow.sequence r = u64_as_i64 n.
Proof.
  intros Hall [e [i Hi]%list_elem_of_lookup]%numbered_covers.
  destruct (Forall2_lookup_l _ _ _ _ _ Hall Hi) as (r & Hr & Hl). exists r. split; [by eapply list_elem_of_lookup_2|].
  by apply logged_inv in Hl as [-> _].
Qed.

Lemma logged_keys evs rows : Forall2 (logged cp ts) (numbered n0 evs) rows → row_key <$> rows = event_key <$> evs.
Proof.
  intros Hall. transitivity (event_key <$> (numbered n0 evs).*2).
  - rewrite <- list_fmap_compose. symmetry. apply list_eq_Forall2, Forall2_fmap. eapply Forall2_impl; [exact Hall|].
    intros [n e] r Hl. by apply logged_inv in Hl as (_ & _ & ->).
  - f_equal. unfold numbered. apply snd_zip. rewrite length_seqZ. lia.
Qed.

(** The rows of these events are in the log of the database. *)
Definition in_log (db : Database.t) (cp : Z) (evs : list (ChainEvent.t * rstring * Z)) : Prop :=
  ∀ e, e ∈ evs → ∃ q r, Database.indexed_events db !! q = Some r ∧
    NewIndexedEventRow.checkpoint r = u64_as_i64 cp ∧ row_key r = event_key e.

Lemma distinct_rows rows : NoDup (row_key <$> rows) → ForallOrdPairs (λ r r', same_event r' r = false) rows.
Proof.
  induction rows as [|r rows IH]; cbn; [constructor|]. intros [Hr Hnd]%NoDup_cons. constructor; [|by apply IH].
  apply Forall_forall. intros r' Hr'. unfold same_event. apply not_true_iff_false. intros E.
  apply andb_true_iff in E as [[_ E1%bool_decide_eq_true]%andb_true_iff E2%bool_decide_eq_true].
  apply Hr, list_elem_of_fmap. exists r'. unfold row_key. by rewrite E1, E2.
Qed.
End log.

(** * A database and the store in front of it *)

Section consistent.
Context `{HexCrate, !HexCrateSpec, EventJson, !EventJsonSpec}.

(** [seen] is the last checkpoint that was persisted, if any: the log numbers
    the events from 1 without a gap, and the progress row says where it ends. *)
Record consistent (db : Database.t) (s : Inner.t) (seen : option Z) : Prop := {
  consistent_synced : synced db (CheckpointBatch.empty 0 0) s;
  consistent_wf : Views.wf s;
  consistent_linked : linked s;
  consistent_next : 1 ≤ Inner.next_sequence s ≤ u64_max;
  consistent_log q r : Database.indexed_events db !! q = Some r →
    (∃ n, 1 ≤ n < Inner.next_sequence s ∧ q = u64_as_i64 n ∧ NewIndexedEventRow.sequence r = q) ∧
    (∃ c m, seen = Some m ∧ 0 ≤ c ≤ m ∧ NewIndexedEventRow.checkpoint r = u64_as_i64 c);
  consistent_edges k : k ∈ Database.event_participants db → is_Some (Database.indexed_events db !! k.1.1);
  consistent_covers n : 1 ≤ n < Inner.next_sequence s → is_Some (Database.indexed_events db !! u64_as_i64 n);
  consistent_progress : Database.indexer_progress db =
    (λ c, (u64_as_i64 c, u64_as_i64 (Inner.next_sequence s - 1))) <$> seen;
  consistent_seen : match seen with Some c => u64 c | None => Inner.next_sequence s = 1 end
}.

Lemma synced_fresh : synced Database.fresh (CheckpointBatch.empty 0 0) Inner_default.
Proof. split; apply reflects_empty. Qed.

Lemma consistent_fresh : consistent Database.fresh Inner_default None.
Proof.
  split; [exact synced_fresh|exact Inner_default_wf| |done| | | |done|done].
  - by split; intros k [x Hx].
  - intros q r. cbn. by rewrite lookup_empty.
  - intros k. cbn. set_solver.
  - intros n Hn. cbn in Hn. lia.
Qed.

(** What the source asks of a checkpoint: it is later than those before, its
    events have distinct positions in it, and the sequence does not run out. *)
Record next_checkpoint (s : Inner.t) (seen : option Z) (cp ts : Z) (evs : list (ChainEvent.t * rstring * Z)) : Prop := {
  next_later : from_option (λ m, m < cp) True seen;
  next_cp : u64 cp;
  next_ts : u64 ts;
  next_distinct : NoDup (event_key <$> evs);
  next_fits : Inner.next_sequence s + Z.of_nat (length evs) ≤ u64_max;
  next_wf : Forall (λ e, ChainEvent.wf e.1.1) evs;
  next_admissible : admissible_events cp ts evs s (CheckpointBatch.empty (u64_as_i64 cp) 0)
}.

Section persist.
Context (db : Database.t) (s : Inner.t) (seen : option Z) (cp ts : Z) (evs : list (ChainEvent.t * rstring * Z)).
Context (Hdb : consistent db s seen) (Hcp : next_checkpoint s seen cp ts evs).
Context (s' : Inner.t) (batch : CheckpointBatch.t).
Context (Hst : staged cp ts (Inner.next_sequence s) db evs s' batch).
Context (Hlast : CheckpointBatch.last_sequence batch = last_sequence s').

Lemma events_written r :
  r ∈ CheckpointBatch.events batch →
  is_Some (Database.indexed_events (written batch db) !! NewIndexedEventRow.sequence r).
Proof.
  pose proof (counted_events _ _ _ _ _ _ (staged_counted _ _ _ _ _ _ _ Hst)) as Hev. revert r. apply insert_all_taken.
  - intros r k r' Hr Hk. apply (logged_row _ _ _ _ _ _ Hev) in Hr as (_ & _ & _ & Hc).
    destruct (consistent_log _ _ _ Hdb k r' Hk) as [_ (c & m & -> & Hcm & Hc')].
    unfold same_event. apply not_true_iff_false. intros E.
    apply andb_true_iff in E as [ [E%bool_decide_eq_true _]%andb_true_iff _]. rewrite Hc, Hc' in E.
    destruct Hcp as [Hlater Hu _ _ _ _ _]. pose proof (consistent_seen _ _ _ Hdb) as Hm. cbn in Hlater, Hm.
    apply u64_as_i64_inj in E; [lia|done|unfold u64 in *; lia].
  - apply distinct_rows. rewrite (logged_keys _ _ _ _ _ Hev). apply Hcp.
Qed.

Lemma staged_keys_ok : keys_ok batch db.
Proof.
  assert (Hseq : ∀ q, q ∈ NewIndexedEventRow.sequence <$> CheckpointBatch.events batch →
    is_Some (Database.indexed_events (written batch db) !! q)).
  { intros q (r & -> & Hr)%list_elem_of_fmap. by apply events_written. }
  assert (Hbuckets : ∀ k, id_wf k → is_Some (Inner.buckets s' !! k) → is_Some (Database.buckets (written batch db) !! to_hex k)).
  { intros k Hk Hb. pose proof (sync_buckets _ _ _ (staged_synced _ _ _ _ _ _ _ Hst)) as Hre.
    by apply (reflects_row buckets_table _ _ k Hre Hk). }
  split.
  - intros p Hp. apply Hseq. by apply (counted_participants _ _ _ _ _ _ (staged_counted _ _ _ _ _ _ _ Hst)).
  - intros b Hb. apply Hseq. by apply (counted_bids _ _ _ _ _ _ (staged_counted _ _ _ _ _ _ _ Hst)).
  - intros k r Hk. pose proof (sync_pools _ _ _ (staged_synced _ _ _ _ _ _ _ Hst)) as Hre.
    destruct (reflects_rows _ _ _ Hre k r Hk) as (Hpk & id & Hid & ->). change (DeepBookPoolRow.bucket_id r = to_hex id) in Hpk. rewrite Hpk.
    apply Hbuckets; [done|]. apply (linked_pools _ (staged_linked _ _ _ _ _ _ _ Hst)).
    apply (reflects_row pools_table _ _ id Hre Hid). by exists r.
  - intros k r Hk. pose proof (sync_markets _ _ _ (staged_synced _ _ _ _ _ _ _ Hst)) as Hre.
    destruct (reflects_rows _ _ _ Hre k r Hk) as (Hpk & id & Hid & ->). change (ExchangeMarketLinkRow.bucket_id r = to_hex id) in Hpk. rewrite Hpk.
    apply Hbuckets; [done|]. apply (linked_markets _ (staged_linked _ _ _ _ _ _ _ Hst)).
    apply (reflects_row markets_table _ _ id Hre Hid). by exists r.
Qed.

Lemma written_consistent : consistent (written batch db) s' (Some cp).
Proof.
  pose proof (consistent_next _ _ _ Hdb) as Hnext. pose proof (next_fits _ _ _ _ _ Hcp) as Hfits.
  pose proof (counted_next _ _ _ _ _ _ (staged_counted _ _ _ _ _ _ _ Hst)) as Hnext'. pose proof (counted_events _ _ _ _ _ _ (staged_counted _ _ _ _ _ _ _ Hst)) as Hev.
  split.
  - destruct (staged_synced _ _ _ _ _ _ _ Hst). by split.
  - apply Hst.
  - apply Hst.
  - rewrite Hnext'. lia.
  - intros q r [Hq|[Hin ->] ]%insert_all_origin.
    + destruct (consistent_log _ _ _ Hdb q r Hq) as [(n & Hn & ? & ?) (c & m & -> & Hc & ?)]. split; [exists n|exists c, cp].
      * split; [lia|done].
      * pose proof (next_later _ _ _ _ _ Hcp) as Hl. cbn in Hl. split_and!; [done|lia|lia|done].
    + destruct (logged_row _ _ _ _ _ _ Hev Hin) as (n & Hn & Hs & Hc). split; [exists n|exists cp, cp].
      * split_and!; [lia|lia|done|done].
      * pose proof (next_cp _ _ _ _ _ Hcp) as [? ?]. by split_and!.
  - intros k. cbn [Database.event_participants written]. intros [Hk|Hk]%elem_of_union.
    + by apply insert_all_keeps, (consistent_edges _ _ _ Hdb).
    + apply elem_of_list_to_set, list_elem_of_In, filter_In in Hk as [Hk _].
      apply list_elem_of_In, list_elem_of_fmap in Hk as (p & -> & Hp). by apply staged_keys_ok.
  - intros n Hn. destruct (decide (n < Inner.next_sequence s)).
    + apply insert_all_keeps, (consistent_covers _ _ _ Hdb). lia.
    + destruct (logged_covers _ _ _ _ _ n Hev) as (r & Hr & <-); [lia|]. by apply events_written.
  - cbn [Database.indexer_progress written fmap option_fmap option_map].
    rewrite (counted_checkpoint _ _ _ _ _ _ (staged_counted _ _ _ _ _ _ _ Hst)), Hlast. unfold last_sequence. do 3 f_equal. int_lia.
  - apply Hcp.
Qed.

Lemma written_log_old q r : Database.indexed_events db !! q = Some r → Database.indexed_events (written batch db) !! q = Some r.
Proof.
  intros Hq. destruct (insert_all_keeps NewIndexedEventRow.sequence same_event (CheckpointBatch.events batch)
    (Database.indexed_events db) q ltac:(by eexists)) as [r' Hr']. cbn. rewrite Hr'. f_equal.
  destruct (insert_all_origin _ _ _ _ _ _ Hr') as [E|[Hin E] ]; [by simplify_eq|].
  pose proof (counted_events _ _ _ _ _ _ (staged_counted _ _ _ _ _ _ _ Hst)) as Hev. destruct (logged_row _ _ _ _ _ _ Hev Hin) as (n & Hn & Hs & _).
  destruct (consistent_log _ _ _ Hdb q r Hq) as [(m & Hm & Hqm & _) _]. rewrite E, Hs in Hqm.
  pose proof (consistent_next _ _ _ Hdb). pose proof (next_fits _ _ _ _ _ Hcp).
  apply u64_as_i64_inj in Hqm; [lia|unfold u64; lia|unfold u64; lia].
Qed.

Lemma written_log_new n e :
  (n, e) ∈ numbered (Inner.next_sequence s) evs →
  ∃ r, Database.indexed_events (written batch db) !! u64_as_i64 n = Some r ∧ logged cp ts (n, e) r.
Proof.
  pose proof (consistent_next _ _ _ Hdb) as Hnext. pose proof (next_fits _ _ _ _ _ Hcp) as Hfits.
  pose proof (counted_events _ _ _ _ _ _ (staged_counted _ _ _ _ _ _ _ Hst)) as Hev. intros Hin.
  destruct (elem_of_numbered _ _ _ _ Hin) as [Hn _]. apply list_elem_of_lookup in Hin as [i Hi].
  destruct (Forall2_lookup_l _ _ _ _ _ Hev Hi) as (r & Hr & Hl). exists r. split; [|done].
  pose proof (proj1 (logged_inv _ _ _ _ _ Hl)) as Hs. pose proof Hr as Hr'. apply list_elem_of_lookup_2, events_written in Hr' as [r' Hr'].
  rewrite <- Hs, Hr'. f_equal. destruct (insert_all_origin _ _ _ _ _ _ Hr') as [E|[ [j Hj]%list_elem_of_lookup E] ].
  - destruct (consistent_log _ _ _ Hdb _ _ E) as [(m & Hm & Hqm & _) _]. rewrite Hs in Hqm.
    apply u64_as_i64_inj in Hqm; [lia|unfold u64; lia|unfold u64; lia].
  - destruct (Forall2_lookup_r _ _ _ _ _ Hev Hj) as ([m e'] & Hm & Hl'). pose proof (proj1 (logged_inv _ _ _ _ _ Hl')) as Hs'.
    assert (i = j) as ->; [|by simplify_eq].
    unfold numbered in Hi, Hm. rewrite lookup_zip_with in Hi, Hm. apply bind_Some in Hi as (a & Ha & Hi), Hm as (b & Hb & Hm).
    apply lookup_seqZ in Ha as [-> Ha], Hb as [-> Hb]. apply fmap_Some in Hi as (? & _ & Ei), Hm as (? & _ & Em).
    injection Ei as -> ->. injection Em as -> ->. rewrite E, Hs' in Hs.
    apply u64_as_i64_inj in Hs; [lia|unfold u64; lia|unfold u64; lia].
Qed.
End persist.

Lemma written_empty c q db : written (CheckpointBatch.empty c q) db = advance_progress c q db.
Proof.
  destruct db. unfold written, advance_progress. cbn. unfold update_field. f_equal. apply set_eq. set_solver.
Qed.

(** A checkpoint that follows is staged and written. *)
Lemma checkpoint_persisted db s seen cp ts evs :
  consistent db s seen → next_checkpoint s seen cp ts evs →
  ∃ s' batch, stage_batch cp ts evs s = (s', Ok batch) ∧ apply_checkpoint batch db = Ok (written batch db) ∧
    staged cp ts (Inner.next_sequence s) db evs s' batch ∧ CheckpointBatch.last_sequence batch = last_sequence s'.
Proof.
  intros Hdb Hcp. pose proof (consistent_next _ _ _ Hdb). pose proof Hcp as [].
  destruct (stage_batch_staged cp ts (Inner.next_sequence s) db evs s) as (s' & batch & E & Hst & Hl);
    [done|lia|done|done|done|apply Hdb..|done|]. exists s', batch. split_and!; [done| |done|done].
  destruct evs as [|e evs].
  - injection E as <- <-. by rewrite written_empty.
  - apply apply_checkpoint_written; [|by eapply staged_keys_ok].
    pose proof (Forall2_length _ _ _ (counted_events _ _ _ _ _ _ (staged_counted _ _ _ _ _ _ _ Hst))) as Hlen. unfold CheckpointBatch.is_empty.
    destruct (CheckpointBatch.events batch); [|done]. unfold numbered in Hlen. rewrite length_zip_with, length_seqZ in Hlen.
    cbn [length] in Hlen. lia.
Qed.

(** * Boot *)

(** The store as a restart leaves it: the configuration of vaults aside, the
    same views, and the same sequence. *)
Record restored (s0 s : Inner.t) : Prop := {
  restored_accounts : Inner.accounts s0 = Inner.accounts s;
  restored_buckets : Inner.buckets s0 = Inner.buckets s;
  restored_positions : Inner.positions s0 = Inner.positions s;
  restored_pools : Inner.deepbook_pools s0 = Inner.deepbook_pools s;
  restored_markets : Inner.exchange_markets s0 = Inner.exchange_markets s;
  restored_rfqs : Inner.rfqs s0 = Inner.rfqs s;
  restored_vaults k : option_Forall2 same_but_config (Inner.vaults s0 !! k) (Inner.vaults s !! k);
  restored_rounds : Inner.vault_rounds s0 = Inner.vault_rounds s;
  restored_receipts : Inner.vault_receipts s0 = Inner.vault_receipts s;
  restored_trading_vaults : Inner.trading_vaults s0 = Inner.trading_vaults s;
  restored_tv_positions : Inner.trading_vault_positions s0 = Inner.trading_vault_positions s;
  restored_vault_positions : Inner.vault_positions s0 = Inner.vault_positions s;
  restored_next : Inner.next_sequence s0 = Inner.next_sequence s
}.

Lemma vault_reread r k s0 s :
  VaultRow_into_state r = Ok (k, s0) → same_but_config s0 s → VaultState.wf s →
  VaultState.wf s0 ∧ same_but_config s0 s0.
Proof.
  intros E Hsim Hwf. split; [|by repeat split]. unfold VaultRow_into_state in E. read_inv E. injection E as <- <-.
  unfold same_but_config, VaultState.wf in *. destruct s. cbn in *. destruct_and?. subst.
  assert (∀ o, from_option u64 True (i64_as_u64 <$> o)) by (intros [z|]; [apply wrap64_range|done]).
  by split_and!.
Qed.

Lemma hydrate_synced db s :
  synced db (CheckpointBatch.empty 0 0) s →
  ∃ vaults, hydrate db = Ok (HydratedViews.mk (Inner.accounts s) (Inner.buckets s) (Inner.positions s)
      (Inner.deepbook_pools s) (Inner.exchange_markets s) (Inner.rfqs s) vaults (Inner.vault_rounds s)
      (Inner.vault_receipts s) (Inner.trading_vaults s) (Inner.trading_vault_positions s) (Inner.vault_positions s)) ∧
    (∀ k, option_Forall2 same_but_config (vaults !! k) (Inner.vaults s !! k)) ∧
    reflects vaults_table (Database.vaults db) vaults.
Proof.
  intros [Ha Hb Hp Hd He Hr Hv Hro Hre Ht Htp Hvp].
  destruct (reflects_load vaults_table _ _ Hv) as (vaults & Hl & Hsim & Hrow). exists vaults.
  split; [|split; [done|by apply (reflects_reload vaults_table _ _ _ vault_reread Hv Hsim Hrow)] ].
  unfold hydrate.
  apply (reflects_load_eq accounts_table) in Ha; [|done]. apply (reflects_load_eq buckets_table) in Hb; [|done].
  apply (reflects_load_eq positions_table) in Hp; [|done]. apply (reflects_load_eq pools_table) in Hd; [|done].
  apply (reflects_load_eq markets_table) in He; [|done]. apply (reflects_load_eq rfqs_table) in Hr; [|done].
  apply (reflects_load_eq rounds_table) in Hro; [|done]. apply (reflects_load_eq receipts_table) in Hre; [|done].
  apply (reflects_load_eq trading_vaults_table) in Ht; [|done]. apply (reflects_load_eq tv_positions_table) in Htp; [|done].
  apply (reflects_load_eq vault_positions_table) in Hvp; [|done].
  by repeat (eapply bind_ok; [eassumption|]).
Qed.

Lemma boot_consistent db s seen cfg tip :
  consistent db s seen →
  ∃ s0, boot db cfg tip = Ok (s0, match seen with Some c => u64_add c 1 | None => default tip cfg end) ∧
    consistent db s0 seen ∧ restored s0 s.
Proof.
  intros [Hsy Hwf Hl Hn Hlog Hedges Hcov Hp Hseen]. destruct (hydrate_synced db s Hsy) as (vaults & Hh & Hsim & Hre).
  set (s0 := Store_hydrate (HydratedViews.mk (Inner.accounts s) (Inner.buckets s) (Inner.positions s)
      (Inner.deepbook_pools s) (Inner.exchange_markets s) (Inner.rfqs s) vaults (Inner.vault_rounds s)
      (Inner.vault_receipts s) (Inner.trading_vaults s) (Inner.trading_vault_positions s) (Inner.vault_positions s))
      (Inner.next_sequence s - 1)).
  assert (Hnext : Inner.next_sequence s0 = Inner.next_sequence s) by (cbn; int_lia).
  exists s0. split_and!.
  - unfold boot, load_progress. rewrite Hh, Hp. cbn [mbind result_bind]. destruct seen as [c|]; cbn [fmap option_fmap option_map fst snd].
    + rewrite !i64_round by (done || int_lia). done.
    + unfold s0. rewrite Hseen. by destruct cfg.
  - split.
    + destruct Hsy. by split.
    + destruct Hwf. split; try assumption. intros k v Hk. by apply (reflects_wf _ _ _ Hre) in Hk.
    + destruct Hl. by split.
    + by rewrite Hnext.
    + by rewrite Hnext.
    + done.
    + by rewrite Hnext.
    + by rewrite Hnext.
    + by rewrite Hnext.
  - split; done.
Qed.
End consistent.
