(* ===== verification/IndexerHistory.v ===== *)
(** Runs of the indexer: stores that differ in the configuration of vaults stay
    so; what decoding guarantees; runs with restarts and their invariant; a
    checkpoint written twice. *)

From stdpp Require Import relations.
From S2P Require Import Prelude RecordUpdate RustStr ExchangeTypes Json Quote IndexerEvents IndexerStore IndexerRows IndexerApply IndexerStage IndexerRepo IndexerTypes IndexerWorker IndexerTable IndexerWf IndexerSync IndexerPersist MoveType Asset.

Section restore.
Context `{HexCrate}.

Notation same_vaults := (λ vs0 vs : gmap ObjectId VaultState.t, ∀ k, option_Forall2 same_but_config (vs0 !! k) (vs !! k)).

Lemma restored_shape s0 s :
  restored s0 s ↔ ∃ vs, s0 = s <| Inner.vaults := vs |> ∧ same_vaults vs (Inner.vaults s).
Proof.
  split.
  - intros []. exists (Inner.vaults s0). split; [|done]. destruct s0, s. cbn in *. by subst.
  - intros (vs & -> & Hvs). by split.
Qed.

Lemma vaults_apart e ts s vs :
  touches_vaults e = false → (∀ a, e ≠ ChainEvent.AuctionCreated a) →
  apply_event e ts (s <| Inner.vaults := vs |>) = apply_event e ts s <| Inner.vaults := vs |>.
Proof.
  intros Et Ha. destruct e; try discriminate; try reflexivity; try (by destruct (Ha e));
    cbn [apply_event]; unfold on_DeepBookPoolCreated, on_OptionMarketListed, on_TvWithdrawFulfilled, on_TvPositionSplit;
    unfold queued_position; project Inner.deepbook_pools; project Inner.exchange_markets; project Inner.vault_positions;
    repeat case_match; reflexivity.
Qed.

Lemma same_vaults_insert k v vs0 vs : same_but_config v v → same_vaults vs0 vs → same_vaults (<[k := v]> vs0) (<[k := v]> vs).
Proof.
  intros Hv Hvs j. destruct (decide (k = j)) as [<-|Hne]; [rewrite !lookup_insert_eq; by constructor|].
  rewrite !lookup_insert_ne by done. apply Hvs.
Qed.

Lemma same_vaults_alter k f vs0 vs :
  (∀ v0 v, same_but_config v0 v → same_but_config (f v0) (f v)) → same_vaults vs0 vs → same_vaults (alter f k vs0) (alter f k vs).
Proof.
  intros Hf Hvs j. specialize (Hvs j). destruct (decide (k = j)) as [<-|Hne].
  - rewrite !lookup_alter_eq. destruct Hvs; constructor; by apply Hf.
  - by rewrite !lookup_alter_ne.
Qed.

Lemma classify_restored s0 s a : restored s0 s → classify_auction s0 a = classify_auction s a.
Proof.
  intros Hr. unfold classify_auction. pose proof (restored_vaults _ _ Hr (AuctionCreated.origin a)) as Hv.
  destruct Hv as [v0 v Hv|]; [|done]. destruct v0, v. unfold same_but_config, vault_fixed in Hv. cbn in Hv |- *.
  destruct_and?. by subst.
Qed.

(** An update of a vault that goes by what the stores agree on. *)
Ltac same_update :=
  intros [] [] Hv; unfold same_but_config, vault_fixed in *; cbn in *; destruct_and?; subst; by split_and!.

Lemma restored_event e ts s0 s : restored s0 s → restored (apply_event e ts s0) (apply_event e ts s).
Proof.
  intros Hr. destruct (touches_vaults e) eqn:Et.
  - apply restored_shape in Hr as (vs & -> & Hvs). destruct e; try discriminate; split; try reflexivity;
      cbn [apply_event]; match goal with |- context [Inner.vaults ?x] => unfold_head x end; cbv zeta;
      project Inner.vaults; first [apply same_vaults_insert; [by split_and!|done] | apply same_vaults_alter; [same_update|done] ].
  - assert ((∃ a, e = ChainEvent.AuctionCreated a) ∨ ∀ a, e ≠ ChainEvent.AuctionCreated a) as [ [a ->]|Ha].
    { destruct e; try (right; discriminate). left. by eexists. }
    + cbn [apply_event]. unfold on_AuctionCreated. rewrite (classify_restored _ _ _ Hr).
      destruct (classify_auction s a) as [kind bucket_id]. apply restored_shape in Hr as (vs & -> & Hvs). by split.
    + apply restored_shape in Hr as (vs & -> & Hvs). rewrite vaults_apart by done.
      apply restored_shape. exists vs. split; [done|]. by rewrite (proj1 (frame_vaults e ts 0 0 [] s (CheckpointBatch.empty 0 0) Et)).
Qed.

(** * Staging and decoding see no difference *)

Lemma deletes_staged e seq tsi tx s0 s b0 b :
  CheckpointBatch.position_deletes b0 = CheckpointBatch.position_deletes b →
  CheckpointBatch.position_deletes (stage_event_into_batch s0 e seq tx tsi b0)
  = CheckpointBatch.position_deletes (stage_event_into_batch s e seq tx tsi b).
Proof.
  intros Hb. destruct e; try exact Hb;
    try (cbn [stage_event_into_batch]; unfold stage_deepbook_pool, stage_exchange_market, stage_consumed;
         repeat case_match; exact Hb);
    cbn [stage_event_into_batch]; unfold push_delete; project CheckpointBatch.position_deletes; by rewrite Hb.
Qed.

Context `{EventJson}.

Lemma restored_next_event g s0 s :
  restored s0 s → restored (s0 <| Inner.next_sequence ::= g |>) (s <| Inner.next_sequence ::= g |>).
Proof. intros [ ]. split; try assumption. cbn. by f_equal. Qed.

(** One turn of the loop on both sides. *)
Definition agree (r0 r : Inner.t * result StageError CheckpointBatch.t) : Prop :=
  restored r0.1 r.1 ∧
  match r0.2, r.2 with
  | Ok b0, Ok b => CheckpointBatch.position_deletes b0 = CheckpointBatch.position_deletes b
  | Err _, Err _ => True
  | _, _ => False
  end.

Lemma stage_one_restored cp ts e s0 s b0 b :
  restored s0 s → CheckpointBatch.position_deletes b0 = CheckpointBatch.position_deletes b →
  agree (stage_one cp ts e (s0, b0)) (stage_one cp ts e (s, b)).
Proof.
  intros Hr Hb. destruct e as [ [e tx] idx]. cbn [stage_one]. cbv zeta. rewrite (restored_next _ _ Hr).
  pose proof (restored_event e ts _ _ (restored_next_event (λ n, u64_add n 1) _ _ Hr)) as Hre.
  destruct (new_event_row _ _ _ _ _ _); split; [done| |done|done]. cbn [snd]. project CheckpointBatch.position_deletes.
  unfold collect_participants. project CheckpointBatch.position_deletes. by apply deletes_staged.
Qed.

Lemma admissible_restored e s0 s b0 b :
  restored s0 s → CheckpointBatch.position_deletes b0 = CheckpointBatch.position_deletes b →
  admissible s b e → admissible s0 b0 e.
Proof.
  intros Hr Hb. destruct e; try done; cbn; unfold new_position; rewrite ?Hb, ?(restored_buckets _ _ Hr), ?(restored_positions _ _ Hr),
    ?(restored_pools _ _ Hr), ?(restored_markets _ _ Hr), ?(restored_tv_positions _ _ Hr); try done.
  intros E. pose proof (restored_vaults _ _ Hr (VaultCreated.vault_id e)) as Hv. rewrite E in Hv. by inversion Hv.
Qed.

Lemma admissible_events_restored cp ts evs : ∀ s0 s b0 b,
  restored s0 s → CheckpointBatch.position_deletes b0 = CheckpointBatch.position_deletes b →
  admissible_events cp ts evs s b → admissible_events cp ts evs s0 b0.
Proof.
  induction evs as [|e evs IH]; intros s0 s b0 b Hr Hb; [done|]. cbn [admissible_events]. intros [Ha Hevs].
  split; [by eapply admissible_restored|]. destruct (stage_one_restored cp ts e _ _ _ _ Hr Hb) as [Hr' Hb'].
  destruct (stage_one cp ts e (s0, b0)) as [s0' [b0'|] ], (stage_one cp ts e (s, b)) as [s' [b'|] ]; try done.
  by apply (IH _ s' _ b').
Qed.

Lemma decode_checkpoint_restored `{BcsCrate} types s0 s txs :
  restored s0 s → decode_checkpoint types s0 txs = decode_checkpoint types s txs.
Proof.
  intros (vs & -> & _)%restored_shape. reflexivity.
Qed.

(** * The store that replays the events *)

Definition ingest_all (ts : Z) (evs : list (ChainEvent.t * rstring * Z)) (s : Inner.t) : Inner.t :=
  foldl (λ s e, (ingest s e.1.1 ts).2) s evs.

Lemma ingest_all_restored ts evs s0 s : restored s0 s → restored (ingest_all ts evs s0) (ingest_all ts evs s).
Proof.
  revert s0 s. induction evs as [|e evs IH]; intros s0 s Hr; [done|]. cbn. apply IH, restored_event.
  by apply (restored_next_event (λ n, u64_add n 1)).
Qed.

Lemma stage_loop_store cp ts evs s b s' b' : stage_loop cp ts evs s b = (s', Ok b') → s' = ingest_all ts evs s.
Proof.
  revert s b. induction evs as [|e evs IH]; intros s b; [by intros [= -> _]|]. cbn [stage_loop].
  destruct (stage_one cp ts e (s, b)) as [s1 [b1|] ] eqn:E; [|done]. intros ->%IH. unfold ingest_all. cbn [foldl]. f_equal.
  destruct e as [ [e tx] idx]. cbn [stage_one] in E. cbv zeta in E. by destruct (new_event_row _ _ _ _ _ _); injection E as <- _.
Qed.

Lemma stage_batch_store cp ts evs s s' b : stage_batch cp ts evs s = (s', Ok b) → s' = ingest_all ts evs s.
Proof.
  destruct evs as [|e evs]; [by intros [= -> _]|]. unfold stage_batch.
  destruct (stage_loop _ _ _ _ _) as [s1 [b1|] ] eqn:E; [|done]. intros [= <- _]. by eapply stage_loop_store.
Qed.

Lemma restored_refl s : restored s s.
Proof. split; try done. intros k. destruct (Inner.vaults s !! k); constructor. by repeat split. Qed.

Lemma restored_trans s1 s2 s3 : restored s1 s2 → restored s2 s3 → restored s1 s3.
Proof.
  intros H1 H2. split; try (etrans; [by apply H1|by apply H2]). intros k.
  pose proof (restored_vaults _ _ H1 k) as V1. pose proof (restored_vaults _ _ H2 k) as V2.
  destruct V1 as [v1 v2 V1|]; [|done]. inversion V2 as [? v3 V3|]. subst. constructor.
  unfold same_but_config, vault_fixed in *. destruct_and?. split_and!; congruence.
Qed.
End restore.

(** * Decoded events are well formed *)

Section decode.
Context `{HexCrate, BcsCrate, !BcsCrateSpec}.

Lemma decode_inv {A} `{Bcs A} (variant : A → ChainEvent.t) n bs e :
  decode variant n bs = Ok (Some e) → ∃ x, bcs_from_bytes bs = Some x ∧ e = variant x.
Proof. unfold decode. destruct (bcs_from_bytes bs) as [x|]; [|done]. intros E. injection E as <-. eauto. Qed.

Lemma decode_in_range {A} {B : Bcs A} {wf : A → Prop} (HB : Decodes B wf) (variant : A → ChainEvent.t) n bs e :
  (∀ x, wf x → ChainEvent.wf (variant x)) → decode variant n bs = Ok (Some e) → ChainEvent.wf e.
Proof. intros Hv (x & Hx & ->)%decode_inv. by eapply Hv, HB. Qed.

Lemma dispatch_wf types type_str contents e :
  dispatch types type_str contents = Ok (Some e) → ChainEvent.wf e.
Proof.
  unfold dispatch. repeat (case_bool_decide; [eapply decode_in_range; [apply _|done]|]). done.
Qed.

Lemma parse_pool_wf types type_str contents p :
  parse_deepbook_pool_created types type_str contents = Ok (Some p) → DeepBookPoolCreatedPartial.wf p.
Proof.
  unfold parse_deepbook_pool_created. case_match; [|done]. case_match; [done|]. intros [g [_ E]]%bind_inv. revert E.
  destruct (split_top_level_generics g) as [|b [|q [|? ?] ] ]; try done. intros [raw [Hr E]]%bind_inv. injection E as <-.
  unfold ok_or in Hr. case_match eqn:Eb; [|done]. injection Hr as <-. apply bcs_RawDeepBookPoolCreated_wf in Eb.
  red in Eb. red. cbn. tauto.
Qed.

Lemma parse_fill_wf types type_str contents p :
  parse_deepbook_order_filled types type_str contents = Ok (Some p) → DeepBookOrderFilledPartial.wf p.
Proof.
  unfold parse_deepbook_order_filled. case_match; [|done]. case_match; [done|]. intros [raw [Hr E]]%bind_inv. injection E as <-.
  unfold ok_or in Hr. case_match eqn:Eb; [|done]. injection Hr as <-. apply bcs_RawOrderFilled_wf in Eb.
  red in Eb. red. cbn. tauto.
Qed.

Lemma parse_exchange_wf types type_str contents p :
  parse_exchange_fill types type_str contents = Ok (Some p) → RawExchangeFill.wf p.
Proof.
  unfold parse_exchange_fill. case_match; [done|]. intros [raw [Hr E]]%bind_inv. injection E as <-.
  unfold ok_or in Hr. case_match eqn:Eb; [|done]. injection Hr as <-. by apply bcs_RawExchangeFill_wf in Eb.
Qed.

(** The buckets that a checkpoint announced are identifiers. *)
Record local_wf (l : Local.t) : Prop := {
  local_buckets_wf : map_Forall (λ _ b, id_wf b.1) (Local.buckets l);
  local_pools_wf : map_Forall (λ _ b, id_wf b) (Local.pools l);
  local_markets_wf : map_Forall (λ _ b, id_wf b) (Local.markets l)
}.

Lemma or_else_inv {A} (o p : option A) x : or_else o p = Some x → o = Some x ∨ p = Some x.
Proof. destruct o; auto. Qed.

Lemma first_entry {V} (P : ObjectId * V → bool) (m : gmap ObjectId V) k :
  fst <$> List.find P (entries m) = Some k → ∃ v, m !! k = Some v ∧ P (k, v) = true.
Proof. intros ([k' v] & Hf & ->)%fmap_Some. apply find_entry in Hf as (Hk & Hp & _). eauto. Qed.

Context (store : Inner.t) (Hstore : Views.wf store).

Lemma resolve_pool_wf l p e :
  local_wf l → DeepBookPoolCreatedPartial.wf p → resolve_deepbook_pool store (Local.buckets l) p = Some e → ChainEvent.wf e.
Proof.
  intros Hl Hp. unfold resolve_deepbook_pool. destruct (or_else _ _) as [ [id ty]|] eqn:Eo; [|done]. case_match; [done|].
  intros E. injection E as <-. assert (id_wf id) as Hid.
  { apply or_else_inv in Eo as [Ho|Ho]; [by apply (local_buckets_wf _ Hl) in Ho|].
    apply fmap_Some in Ho as ([k b] & Hf & E). injection E as -> ->. apply find_entry in Hf as (Hk & _).
    by apply (Views.buckets _ Hstore) in Hk as [? _]. }
  red in Hp. cbn. red. cbn. tauto.
Qed.

Lemma resolve_fill_wf l p e :
  local_wf l → DeepBookOrderFilledPartial.wf p → resolve_deepbook_fill store (Local.pools l) p = Some e → ChainEvent.wf e.
Proof.
  intros Hl Hp. unfold resolve_deepbook_fill. destruct (or_else _ _) as [id|] eqn:Eo; [|done]. cbn.
  intros E. injection E as <-. assert (id_wf id) as Hid.
  { apply or_else_inv in Eo as [Ho|Ho]; [by apply (local_pools_wf _ Hl) in Ho|].
    apply first_entry in Ho as (v & Hk & _). by apply (Views.deepbook_pools _ Hstore) in Hk as [? _]. }
  red in Hp. cbn. red. cbn. tauto.
Qed.

Lemma resolve_exchange_wf l p e :
  local_wf l → RawExchangeFill.wf p → resolve_exchange_fill store (Local.markets l) p = Some e → ChainEvent.wf e.
Proof.
  intros Hl Hp. unfold resolve_exchange_fill. destruct (or_else _ _) as [id|] eqn:Eo; [|done]. cbn [mbind option_bind].
  intros E. injection E as <-. assert (id_wf id) as Hid.
  { apply or_else_inv in Eo as [Ho|Ho]; [by apply (local_markets_wf _ Hl) in Ho|].
    apply first_entry in Ho as (v & Hk & _). by apply (Views.exchange_markets _ Hstore) in Hk as [? _]. }
  red in Hp. cbn. red. cbn. tauto.
Qed.

Lemma remember_wf e l : ChainEvent.wf e → local_wf l → local_wf (remember e l).
Proof.
  intros He [Hb Hp Hm]. destruct e; try by split.
  - cbn in He. red in He. split; cbn; [|done..]. apply map_Forall_insert_2; [apply He|done].
  - cbn in He. red in He. split; cbn; [done| |done]. apply map_Forall_insert_2; [apply He|done].
  - cbn in He. red in He. split; cbn; [done..|]. apply map_Forall_insert_2; [apply He|done].
Qed.

(** * One event *)

(** An event adds nothing, or one event at its place. *)
Lemma decode_event_cases types tx idx event acc :
  let acc' := decode_event types store tx idx event acc in
  acc' = acc ∨
  ∃ ev, acc'.1 = acc.1 ++ [(ev, tx, idx)] ∧ (acc'.2 = acc.2 ∨ acc'.2 = remember ev acc.2) ∧ (local_wf acc.2 → ChainEvent.wf ev).
Proof.
  destruct event as [type_str contents]. unfold decode_event. destruct (dispatch _ _ _) as [ [ev|]|] eqn:Ed; [|clear Ed|by left].
  { right. exists ev. split_and!; [done|by right|]. intros _. by eapply dispatch_wf. }
  destruct (parse_deepbook_pool_created _ _ _) as [ [p|]|] eqn:Ep; [|clear Ep|by left].
  { destruct (resolve_deepbook_pool _ _ _) as [ev|] eqn:Er; [|by left]. right. exists ev. split_and!; [done|by right|].
    intros Hl. by eapply resolve_pool_wf; [|eapply parse_pool_wf|]. }
  destruct (parse_deepbook_order_filled _ _ _) as [ [p|]|] eqn:Ep; [|clear Ep|by left].
  { destruct (resolve_deepbook_fill _ _ _) as [ev|] eqn:Er; [|by left]. right. exists ev. split_and!; [done|by left|].
    intros Hl. by eapply resolve_fill_wf; [|eapply parse_fill_wf|]. }
  destruct (parse_exchange_fill _ _ _) as [ [p|]|] eqn:Ep; [|by left..].
  destruct (resolve_exchange_fill _ _ _) as [ev|] eqn:Er; [|by left]. right. exists ev. split_and!; [done|by left|].
  intros Hl. by eapply resolve_exchange_wf; [|eapply parse_exchange_wf|].
Qed.

(** * A checkpoint *)

(** The place of every event of a checkpoint, in its order. *)
Definition transaction_places (tx : Transaction) : list (rstring * Z) :=
  (λ i, (tx_digest tx, as_i32 (Z.of_nat i))) <$> seq 0 (length (default [] (tx_events tx))).
Definition places (transactions : list Transaction) : list (rstring * Z) := mjoin (transaction_places <$> transactions).

(** What decoding has produced, and the places it has gone through. *)
Record decoded (gone : list (rstring * Z)) (acc : list (ChainEvent.t * rstring * Z) * Local.t) : Prop := {
  decoded_wf : Forall (λ e, ChainEvent.wf e.1.1) acc.1;
  decoded_local : local_wf acc.2;
  decoded_places : event_key <$> acc.1 `sublist_of` gone
}.

Lemma decoded_event types gone tx idx event acc :
  decoded gone acc → decoded (gone ++ [(tx, idx)]) (decode_event types store tx idx event acc).
Proof.
  intros [Hwf Hl Hp]. destruct (decode_event_cases types tx idx event acc) as [->|(ev & E1 & E2 & Hev)].
  - split; [done..|]. by apply sublist_inserts_r.
  - split.
    + rewrite E1. apply Forall_app. split; [done|]. constructor; [by apply Hev|done].
    + destruct E2 as [->| ->]; [done|]. by apply remember_wf; [apply Hev|].
    + rewrite E1, fmap_app. by apply sublist_app.
Qed.

Lemma decoded_events types tx events : ∀ n gone acc,
  decoded gone acc →
  decoded (gone ++ ((λ i, (tx, as_i32 (Z.of_nat i))) <$> seq n (length events)))
    (foldl (λ acc ie, decode_event types store tx (as_i32 (Z.of_nat ie.1)) ie.2 acc) acc (zip (seq n (length events)) events)).
Proof.
  induction events as [|event events IH]; intros n gone acc Hd; cbn; [by rewrite app_nil_r|].
  specialize (IH (S n) _ _ (decoded_event types gone tx (as_i32 (Z.of_nat n)) event acc Hd)). by rewrite <- app_assoc in IH.
Qed.

Lemma decoded_transactions types txs : ∀ gone acc,
  decoded gone acc → decoded (gone ++ places txs) (foldl (decode_transaction types store) acc txs).
Proof.
  induction txs as [|tx txs IH]; intros gone acc Hd; cbn; [by rewrite app_nil_r|].
  change (mjoin (transaction_places <$> txs)) with (places txs). rewrite app_assoc. apply IH.
  unfold decode_transaction, transaction_places. destruct (tx_events tx) as [events|]; [by apply decoded_events|].
  cbn. by rewrite app_nil_r.
Qed.

Lemma decode_checkpoint_decoded types txs :
  Forall (λ e, ChainEvent.wf e.1.1) (decode_checkpoint types store txs) ∧
  event_key <$> decode_checkpoint types store txs `sublist_of` places txs.
Proof.
  assert (decoded [] ([], Local.empty)) as Hd by (split; [constructor|by split|constructor]).
  destruct (decoded_transactions types txs [] _ Hd) as [? _ ?]. by split.
Qed.

Lemma as_i32_small n : 0 ≤ n < 2 ^ 31 → as_i32 n = n.
Proof. intros Hn. unfold as_i32. rewrite Z.mod_small; lia. Qed.

Lemma NoDup_places txs :
  NoDup (tx_digest <$> txs) → Forall (λ tx, Z.of_nat (length (default [] (tx_events tx))) ≤ 2 ^ 31) txs → NoDup (places txs).
Proof.
  induction txs as [|tx txs IH]; cbn; [constructor|]. intros [Hd Hnd]%NoDup_cons [Hlen Hlens]%Forall_cons.
  change (mjoin (transaction_places <$> txs)) with (places txs). apply NoDup_app. split_and!.
  - unfold transaction_places. apply NoDup_fmap_2_strong; [|apply NoDup_seq].
    intros i j Hi Hj E. apply elem_of_seq in Hi, Hj. injection E as E. rewrite !as_i32_small in E by lia. lia.
  - intros [d i] (j & E & _)%list_elem_of_fmap Hin. injection E as -> _. apply Hd.
    unfold places in Hin. apply list_elem_of_join in Hin as (l & Hin & (tx' & -> & Htx)%list_elem_of_fmap).
    apply list_elem_of_fmap in Hin as (? & E & _). injection E as -> _. by apply list_elem_of_fmap_2.
  - by apply IH.
Qed.

Lemma decode_checkpoint_distinct types txs :
  NoDup (tx_digest <$> txs) → Forall (λ tx, Z.of_nat (length (default [] (tx_events tx))) ≤ 2 ^ 31) txs →
  NoDup (event_key <$> decode_checkpoint types store txs).
Proof. intros Hd Hl. eapply sublist_NoDup; [by apply NoDup_places|apply decode_checkpoint_decoded]. Qed.
End decode.

(** A checkpoint of the chain. *)
Record Checkpoint := { cp_sequence : Z; cp_timestamp_ms : Z; cp_transactions : list Transaction }.

(** The store, the database, and the checkpoints that have been persisted; the
    checkpoint that the process staged without writing it, and whether a
    process has handled a checkpoint with such a one behind it. *)
Record World := {
  w_store : Inner.t;
  w_db : Database.t;
  w_past : list Checkpoint;
  w_failed : option Checkpoint;
  w_retried : bool
}.

Definition retrying (w : World) : bool := w_retried w || bool_decide (is_Some (w_failed w)).

Section history.
Context `{HexCrate, EventJson, BcsCrate} (types : EventTypes.t).

(** The views that the chain defines: every event, decoded and applied once. *)
Definition replay (past : list Checkpoint) : Inner.t :=
  foldl (λ s c, ingest_all (cp_timestamp_ms c) (decode_checkpoint types s (cp_transactions c)) s) Inner_default past.

(** Every event so far, with its checkpoint and time. *)
Definition chain_events (past : list Checkpoint) : list (Z * Z * (ChainEvent.t * rstring * Z)) :=
  (foldl (λ '(l, s) c,
     let evs := decode_checkpoint types s (cp_transactions c) in
     (l ++ (pair (cp_sequence c, cp_timestamp_ms c) <$> evs), ingest_all (cp_timestamp_ms c) evs s))
     ([], Inner_default) past).1.

Definition last_seen (past : list Checkpoint) : option Z := cp_sequence <$> last past.

(** What the chain guarantees of the checkpoint that follows [past]. *)
Record follows (past : list Checkpoint) (c : Checkpoint) : Prop := {
  follows_later : from_option (λ m, m < cp_sequence c) True (last_seen past);
  follows_sequence : u64 (cp_sequence c);
  follows_time : u64 (cp_timestamp_ms c);
  follows_digests : NoDup (tx_digest <$> cp_transactions c);
  follows_sizes : Forall (λ tx, Z.of_nat (length (default [] (tx_events tx))) ≤ 2 ^ 31) (cp_transactions c);
  follows_fits : Inner.next_sequence (replay past) +
    Z.of_nat (length (decode_checkpoint types (replay past) (cp_transactions c))) ≤ u64_max;
  follows_admissible : admissible_events (cp_sequence c) (cp_timestamp_ms c)
    (decode_checkpoint types (replay past) (cp_transactions c)) (replay past) (CheckpointBatch.empty (u64_as_i64 (cp_sequence c)) 0)
}.

(** The process handles the next checkpoint; or fails to, keeps what it staged
    and goes on, as the framework retries a checkpoint that returned an error;
    or stops at any point and boots again from what the database holds. *)
Inductive step : World → World → Prop :=
  | Processed w c s' db' :
      follows (w_past w) c →
      process_checkpoint types true (cp_sequence c) (cp_timestamp_ms c) (cp_transactions c) (w_store w, w_db w)
        = ((s', db'), Ok ()) →
      step w {| w_store := s'; w_db := db'; w_past := w_past w ++ [c]; w_failed := w_failed w; w_retried := retrying w |}
  | Failed w c up s' db' e :
      follows (w_past w) c →
      process_checkpoint types up (cp_sequence c) (cp_timestamp_ms c) (cp_transactions c) (w_store w, w_db w)
        = ((s', db'), Err e) →
      step w {| w_store := s'; w_db := db'; w_past := w_past w; w_failed := Some c; w_retried := retrying w |}
  | Restarted w cfg tip s0 start :
      boot (w_db w) cfg tip = Ok (s0, start) →
      step w {| w_store := s0; w_db := w_db w; w_past := w_past w; w_failed := None; w_retried := w_retried w |}.

Definition start : World :=
  {| w_store := Inner_default; w_db := Database.fresh; w_past := []; w_failed := None; w_retried := false |}.
Definition reachable : World → Prop := rtc step start.

Lemma replay_snoc past c :
  replay (past ++ [c]) = ingest_all (cp_timestamp_ms c) (decode_checkpoint types (replay past) (cp_transactions c)) (replay past).
Proof. unfold replay. by rewrite foldl_snoc. Qed.

Lemma chain_events_snoc past c :
  chain_events (past ++ [c]) = chain_events past ++
    (pair (cp_sequence c, cp_timestamp_ms c) <$> decode_checkpoint types (replay past) (cp_transactions c)).
Proof.
  assert (Hs : ∀ l, (foldl (λ '(l, s) c,
     let evs := decode_checkpoint types s (cp_transactions c) in
     (l ++ (pair (cp_sequence c, cp_timestamp_ms c) <$> evs), ingest_all (cp_timestamp_ms c) evs s))
     (l, Inner_default) past).2 = replay past).
  { intros l. unfold replay. generalize Inner_default. revert l. induction past as [|d past IH]; intros l s; [done|]. cbn. apply IH. }
  unfold chain_events. rewrite foldl_snoc. specialize (Hs []). destruct (foldl _ _ past) as [l s]. cbn in Hs |- *. by rewrite Hs.
Qed.

Lemma last_seen_snoc past c : last_seen (past ++ [c]) = Some (cp_sequence c).
Proof. unfold last_seen. by rewrite last_snoc. Qed.
End history.

(** * What holds of every reachable world *)

Section invariant.
Context `{HexCrate, !HexCrateSpec, EventJson, !EventJsonSpec, BcsCrate, !BcsCrateSpec} (types : EventTypes.t).

(** The rows of the log are those of the events so far, numbered from 1. *)
Definition logs (db : Database.t) (events : list (Z * Z * (ChainEvent.t * rstring * Z))) : Prop :=
  ∀ n c ts e, (n, (c, ts, e)) ∈ numbered 1 events →
  ∃ r, Database.indexed_events db !! u64_as_i64 n = Some r ∧ logged c ts (n, e) r.

(** Of a process with nothing staged behind it. *)
Record invariant (w : World) : Prop := {
  inv_consistent : consistent (w_db w) (w_store w) (last_seen (w_past w));
  inv_restored : restored (w_store w) (replay types (w_past w));
  inv_next : Inner.next_sequence (w_store w) = 1 + Z.of_nat (length (chain_events types (w_past w)));
  inv_logs : logs (w_db w) (chain_events types (w_past w));
  inv_events : Forall (λ e, ChainEvent.wf e.2.1.1) (chain_events types (w_past w))
}.

Lemma follows_next w c :
  invariant w → follows types (w_past w) c →
  next_checkpoint (w_store w) (last_seen (w_past w)) (cp_sequence c) (cp_timestamp_ms c)
    (decode_checkpoint types (w_store w) (cp_transactions c)).
Proof.
  intros Hinv []. pose proof (inv_restored _ Hinv) as Hr. pose proof (consistent_wf _ _ _ (inv_consistent _ Hinv)) as Hwf.
  rewrite <- (decode_checkpoint_restored types _ _ _ Hr) in *. split; try done.
  - by apply decode_checkpoint_distinct.
  - by rewrite (restored_next _ _ Hr).
  - by apply decode_checkpoint_decoded.
  - by eapply admissible_events_restored.
Qed.

Lemma invariant_start : invariant start.
Proof.
  split; [exact consistent_fresh|apply restored_refl|done| |constructor]. intros n c ts e Hin%elem_of_numbered. cbn in Hin. lia.
Qed.

Lemma length_replay evs ts s : Inner.next_sequence s + Z.of_nat (length evs) ≤ u64_max → 0 ≤ Inner.next_sequence s →
  Inner.next_sequence (ingest_all ts evs s) = Inner.next_sequence s + Z.of_nat (length evs).
Proof.
  revert s. induction evs as [|e evs IH]; intros s Hn Hpos; [cbn; lia|]. cbn [length] in Hn. unfold ingest_all. cbn [foldl].
  assert (E : Inner.next_sequence (ingest s e.1.1 ts).2 = Inner.next_sequence s + 1).
  { unfold ingest. cbn [snd]. rewrite frame_next_sequence by exact (CheckpointBatch.empty 0 0). cbn. int_lia. }
  change (foldl _ ?x evs) with (ingest_all ts evs x). rewrite IH, E; [cbn [length]; lia|lia|lia].
Qed.

Lemma numbered_app {A} n0 (l1 l2 : list A) :
  numbered n0 (l1 ++ l2) = numbered n0 l1 ++ numbered (n0 + Z.of_nat (length l1)) l2.
Proof.
  unfold numbered. rewrite length_app, Nat2Z.inj_add, seqZ_app by lia. by rewrite zip_with_app by (rewrite length_seqZ; lia).
Qed.

Lemma numbered_fmap {A B} (f : A → B) n0 (l : list A) n y :
  (n, y) ∈ numbered n0 (f <$> l) → ∃ x, y = f x ∧ (n, x) ∈ numbered n0 l.
Proof.
  unfold numbered. rewrite length_fmap. intros [i Hi]%list_elem_of_lookup. rewrite lookup_zip_with in Hi.
  apply bind_Some in Hi as (a & Ha & Hi). rewrite list_lookup_fmap in Hi. destruct (l !! i) as [x|] eqn:E; [|done].
  injection Hi as -> <-. exists x. split; [done|]. apply list_elem_of_lookup. exists i. by rewrite lookup_zip_with, Ha, E.
Qed.

(** The next checkpoint is always processed; nothing refuses a row. *)
Lemma processed w c failed retried :
  invariant w → follows types (w_past w) c →
  ∃ s' db', process_checkpoint types true (cp_sequence c) (cp_timestamp_ms c) (cp_transactions c) (w_store w, w_db w)
    = ((s', db'), Ok ()) ∧
    invariant {| w_store := s'; w_db := db'; w_past := w_past w ++ [c]; w_failed := failed; w_retried := retried |}.
Proof.
  intros Hinv Hc. pose proof (follows_next _ _ Hinv Hc) as Hnext. pose proof (inv_consistent _ Hinv) as Hdb.
  destruct (checkpoint_persisted _ _ _ _ _ _ Hdb Hnext) as (s' & batch & Est & Ewr & Hst & Hlast).
  exists s', (written batch (w_db w)). unfold process_checkpoint, persist. cbn [fst]. rewrite Est, Ewr. split; [done|].
  pose proof (stage_batch_store _ _ _ _ _ _ Est) as Es'. pose proof (inv_restored _ Hinv) as Hr.
  pose proof (decode_checkpoint_restored types _ _ (cp_transactions c) Hr) as Ed.
  split; cbn [w_store w_db w_past].
  - rewrite last_seen_snoc. by eapply written_consistent.
  - rewrite replay_snoc, Es', Ed. by apply ingest_all_restored.
  - rewrite chain_events_snoc, length_app, length_fmap, (counted_next _ _ _ _ _ _ (staged_counted _ _ _ _ _ _ _ Hst)), (inv_next _ Hinv), Ed. lia.
  - intros n cp ts e. rewrite chain_events_snoc, numbered_app. intros [Hin|Hin]%elem_of_app.
    + destruct (inv_logs _ Hinv _ _ _ _ Hin) as (r & Hq & Hl). exists r. split; [|done]. by eapply written_log_old.
    + apply numbered_fmap in Hin as (e' & E & Hin). injection E as -> -> ->. rewrite <- Ed, <- (inv_next _ Hinv) in Hin.
      by eapply written_log_new.
  - rewrite chain_events_snoc. apply Forall_app. split; [apply Hinv|]. rewrite <- Ed. apply Forall_fmap.
    apply decode_checkpoint_decoded. apply Hdb.
Qed.

(** The views once [c] is staged. *)
Definition staged_views (s : Inner.t) (c : Checkpoint) : Inner.t :=
  ingest_all (cp_timestamp_ms c) (decode_checkpoint types s (cp_transactions c)) s.

(** The next checkpoint fails only for want of the database; the store then
    has its events, the database nothing of it. *)
Lemma not_written w c up s' db' e :
  invariant w → follows types (w_past w) c →
  process_checkpoint types up (cp_sequence c) (cp_timestamp_ms c) (cp_transactions c) (w_store w, w_db w) = ((s', db'), Err e) →
  s' = staged_views (w_store w) c ∧ db' = w_db w.
Proof.
  intros Hinv Hc. pose proof (follows_next _ _ Hinv Hc) as Hnext.
  destruct (checkpoint_persisted _ _ _ _ _ _ (inv_consistent _ Hinv) Hnext) as (s1 & batch & Est & Ewr & _).
  unfold process_checkpoint, persist. cbn [fst]. rewrite Est. destruct up; [by rewrite Ewr|].
  intros E. injection E as <- <- _. split; [by eapply stage_batch_store|done].
Qed.

(** A world in which no process has retried: the invariant holds of what the
    process had before the write that failed, if one did. *)
Definition untried (w : World) : Prop :=
  ∃ s0, invariant {| w_store := s0; w_db := w_db w; w_past := w_past w; w_failed := None; w_retried := false |} ∧
        w_store w = match w_failed w with Some c => staged_views s0 c | None => s0 end.

Lemma untried_booted w cfg tip s0 st :
  untried w → boot (w_db w) cfg tip = Ok (s0, st) →
  invariant {| w_store := s0; w_db := w_db w; w_past := w_past w; w_failed := None; w_retried := false |}.
Proof.
  intros (s & Hinv & _) Hb.
  destruct (boot_consistent _ _ _ cfg tip (inv_consistent _ Hinv)) as (s1 & E & Hc & Hr). cbn [w_db w_past w_store] in *.
  rewrite E in Hb. injection Hb as -> _. destruct Hinv as [_ Hr' Hn Hl Hwf]. cbn [w_db w_past w_store] in *.
  split; cbn [w_store w_db w_past]; [done| | |done..].
  - by eapply restored_trans.
  - by rewrite (restored_next _ _ Hr), Hn.
Qed.

Lemma retrying_false w : retrying w = false → w_retried w = false ∧ w_failed w = None.
Proof. unfold retrying. intros [Hr Hf]%orb_false_iff. split; [done|]. by destruct (w_failed w). Qed.

Lemma untried_step w w' :
  step types w w' → (w_retried w = false → untried w) → w_retried w' = false → untried w'.
Proof.
  destruct 1 as [w c s' db' Hc Hp|w c up s' db' e Hc Hp|w cfg tip s0 st Hb]; cbn [w_retried]; intros Hw Hr.
  - apply retrying_false in Hr as [Hr Hf]. destruct (Hw Hr) as (s0 & Hinv & Hs). rewrite Hf in Hs. rewrite Hs in Hp.
    destruct (processed _ c None false Hinv Hc) as (s1 & db1 & Hp1 & Hi). cbn [w_store w_db w_past] in *.
    rewrite Hp in Hp1. injection Hp1 as -> ->. exists s1. cbn. by rewrite Hf.
  - apply retrying_false in Hr as [Hr Hf]. destruct (Hw Hr) as (s0 & Hinv & Hs). rewrite Hf in Hs. rewrite Hs in Hp.
    destruct (not_written _ _ _ _ _ _ Hinv Hc Hp) as [-> ->]. by exists s0.
  - exists s0. split; [|done]. exact (untried_booted w cfg tip s0 st (Hw Hr) Hb).
Qed.

Lemma reachable_untried w : reachable types w → w_retried w = false → untried w.
Proof.
  unfold reachable. revert w. apply (rtc_ind_r (λ w, w_retried w = false → untried w)).
  - intros _. exists Inner_default. split; [exact invariant_start|done].
  - intros w1 w2 _ Hs. by apply untried_step.
Qed.

(** With nothing staged behind the process, the invariant holds of the world. *)
Lemma reachable_invariant w :
  reachable types w → w_retried w = false → w_failed w = None → invariant w.
Proof.
  intros Hr Hn Hf. destruct (reachable_untried w Hr Hn) as (s0 & [] & Hs). rewrite Hf in Hs. subst s0. by split.
Qed.

Lemma staged_restored s past c :
  restored s (replay types past) → restored (staged_views s c) (replay types (past ++ [c])).
Proof.
  intros Hr. rewrite replay_snoc. unfold staged_views. rewrite (decode_checkpoint_restored types _ _ (cp_transactions c) Hr).
  by apply ingest_all_restored.
Qed.

(** The events of a past checkpoint are in the log. *)
Lemma past_in_log w past c :
  invariant w → w_past w = past ++ [c] →
  in_log (w_db w) (cp_sequence c) (decode_checkpoint types (replay types past) (cp_transactions c)) ∧
  Forall (λ e, ChainEvent.wf e.1.1) (decode_checkpoint types (replay types past) (cp_transactions c)).
Proof.
  intros [_ _ _ Hl Hwf] Hp. rewrite Hp, chain_events_snoc in Hl, Hwf. split.
  - intros e [i Hi]%list_elem_of_lookup.
    destruct (Hl (1 + Z.of_nat (length (chain_events types past) + i)) (cp_sequence c) (cp_timestamp_ms c) e) as (r & Hr & Hlog).
    + rewrite numbered_app. apply elem_of_app. right. apply list_elem_of_lookup. exists i. unfold numbered.
      rewrite lookup_zip_with, list_lookup_fmap, Hi, length_fmap.
      rewrite lookup_seqZ_lt by (apply lookup_lt_Some in Hi; lia). cbn. do 2 f_equal. lia.
    + apply logged_inv in Hlog as (_ & Hcp & Hkey). by eexists _, r.
  - apply Forall_app in Hwf as [_ Hwf]. rewrite Forall_fmap in Hwf. exact Hwf.
Qed.
End invariant.

Section skipped.
Context {K R : Type} `{Countable K} (pk : R → K) (clash : R → R → bool).

(** Rows that clash with the table change nothing. *)
Lemma insert_all_skipped rows (t : gmap K R) :
  (∀ r, r ∈ rows → ∃ k r', t !! k = Some r' ∧ clash r r' = true) → insert_all_or_skip pk clash rows t = t.
Proof.
  induction rows as [|r rows IH]; intros Hrows; [done|]. cbn.
  assert (insert_or_skip pk clash r t = t) as ->; [|by apply IH; intros r' Hr'; apply Hrows; right].
  unfold insert_or_skip. destruct (Hrows r ltac:(by left)) as (k & r' & Hk & Hc).
  rewrite (proj2 (existsb_exists _ _)); [by rewrite orb_true_r|]. exists r'. split; [|done].
  apply list_elem_of_In, list_elem_of_fmap. exists (k, r'). by rewrite elem_of_map_to_list.
Qed.
End skipped.

Section replay.
Context `{HexCrate, !HexCrateSpec, EventJson, !EventJsonSpec}.

Lemma rerun_refused db s seen cp ts evs e a role :
  consistent db s seen → in_log db cp evs → Forall (λ e, ChainEvent.wf e.1.1) evs →
  Inner.next_sequence s + Z.of_nat (length evs) ≤ u64_max →
  e ∈ evs → (∀ s, (a, role) ∈ participants s e.1.1) →
  persist true cp ts evs (s, db)
  = ((ingest_all ts evs s, db), Err (Persisting (ForeignKeyViolation (str "event_participants")))).
Proof.
  intros Hdb Hlog Hwf Hn He Hrole. pose proof (consistent_next _ _ _ Hdb) as Hnext.
  destruct (stage_batch_counted cp ts (Inner.next_sequence s) evs s) as (s' & batch & Est & Hc); [lia|done..|].
  rewrite <- (stage_batch_store _ _ _ _ _ _ Est). unfold persist. rewrite Est. destruct Hc as [_ _ Hev Hparts _ Hedges].
  apply list_elem_of_lookup in He as [i Hi].
  assert (Hin : (Inner.next_sequence s + Z.of_nat i, e) ∈ numbered (Inner.next_sequence s) evs).
  { apply list_elem_of_lookup. exists i. unfold numbered. rewrite lookup_zip_with.
    rewrite lookup_seqZ_lt by (apply lookup_lt_Some in Hi; lia). cbn. by rewrite Hi. }
  pose proof (Hedges _ _ _ _ Hin Hrole) as Hp. destruct (elem_of_numbered _ _ _ _ Hin) as [Hrange _].
  assert (Hfresh : Database.indexed_events db !! u64_as_i64 (Inner.next_sequence s + Z.of_nat i) = None).
  { destruct (Database.indexed_events db !! _) as [r|] eqn:E; [|done]. destruct (consistent_log _ _ _ Hdb _ _ E) as [(m & Hm & Hq & _) _].
    apply u64_as_i64_inj in Hq; [lia|unfold u64; lia|unfold u64; lia]. }
  assert (Hskip : insert_all_or_skip NewIndexedEventRow.sequence same_event (CheckpointBatch.events batch)
                    (Database.indexed_events db) = Database.indexed_events db).
  { apply insert_all_skipped. intros r [j Hr]%list_elem_of_lookup.
    destruct (Forall2_lookup_r _ _ _ _ _ Hev Hr) as ([n e'] & Hne & Hl). apply logged_inv in Hl as (_ & Hcp & Hkey).
    apply list_elem_of_lookup_2, elem_of_numbered in Hne as [_ Hin']. destruct (Hlog _ Hin') as (q & r' & Hq & Hcp' & Hkey').
    exists q, r'. split; [done|]. unfold row_key in *. rewrite <- Hkey' in Hkey. injection Hkey as E1 E2.
    unfold same_event. by rewrite Hcp, Hcp', E1, E2, !bool_decide_eq_true_2 by done. }
  unfold apply_checkpoint. assert (CheckpointBatch.is_empty batch = false) as ->.
  { unfold CheckpointBatch.is_empty. destruct (CheckpointBatch.event_participants batch); [by apply not_elem_of_nil in Hp|].
    cbn [CheckpointBatch.null]. by rewrite !andb_false_r, ?andb_false_l. }
  cbv zeta. unfold insert_participants at 1. project Database.indexed_events. project Database.event_participants. rewrite Hskip.
  assert (∀ l, forallb (λ k : Z * rstring * rstring, bool_decide (is_Some (Database.indexed_events db !! k.1.1)))
    (List.filter (λ k, negb (bool_decide (k ∈ Database.event_participants db))) l) = true → 
    (u64_as_i64 (Inner.next_sequence s + Z.of_nat i), a, role) ∉ l) as Hall.
  { intros l Hl Hkl. rewrite forallb_forall in Hl. specialize (Hl (u64_as_i64 (Inner.next_sequence s + Z.of_nat i), a, role)).
    assert (bool_decide (is_Some (Database.indexed_events db !! u64_as_i64 (Inner.next_sequence s + Z.of_nat i))) = true) as Hb.
    { apply Hl, filter_In. split; [by apply list_elem_of_In|]. apply negb_true_iff, bool_decide_eq_false. intros Hk.
      apply (consistent_edges _ _ _ Hdb) in Hk. cbn in Hk. rewrite Hfresh in Hk. by destruct Hk. }
    apply bool_decide_eq_true in Hb. rewrite Hfresh in Hb. by destruct Hb. }
  match goal with |- context [forallb ?f ?l] => destruct (forallb f l) eqn:E end; [|done].
  exfalso. apply Hall in E. apply E. apply list_elem_of_fmap. eexists. by split; [|exact Hp].
Qed.
End replay.
