(* ===== verification/IndexerDemo.v ===== *)
(** A small chain for the indexer, with stand-ins for the decoders and the
    serializer, and on it behaviours that the comments of the source do not
    promise. *)

From stdpp Require Import relations.
From S2P Require Import Prelude RecordUpdate RustStr ExchangeTypes Demo Json Quote IndexerEvents IndexerTypes IndexerStore IndexerRows IndexerApply IndexerStage IndexerRepo IndexerWorker IndexerPersist IndexerHistory.

(** * Stand-ins *)

#[export] Instance demo_json : EventJson := λ e, Some (JString (event_type_tag e)).
#[export] Instance demo_json_spec : EventJsonSpec.
Proof. intros e _. by eexists. Qed.

Definition demo_usdc : AssetType := str "0x2::usdc::USDC".
Definition demo_call : AssetType := str "0x3::call::CALL".

Definition demo_bucket_created : BucketCreated.t :=
  BucketCreated.mk (demo_addr 10) (str "0x2::btc::BTC") demo_usdc demo_call 1000 500 2.
Definition demo_vault_created : VaultCreated.t :=
  VaultCreated.mk (demo_addr 20) (str "0x2::btc::BTC") demo_usdc (str "0x3::share::SHARE") 200 1000 7 3 100 900.
Definition demo_vault_deposit (amount : Z) : VaultDeposit.t := VaultDeposit.mk (demo_addr 20) (demo_addr 21) 0 amount.
Definition demo_config_applied : VaultConfigApplied.t := VaultConfigApplied.mk (demo_addr 20) 1 300 1000 7 3 100 900.
Definition demo_pool : RawDeepBookPoolCreated.t := RawDeepBookPoolCreated.mk (demo_addr 30) 1 1 10 5 10 false (demo_addr 31).

#[export] Instance demo_bcs : BcsCrate.
Proof.
  constructor; lazymatch goal with
  | |- Bcs BucketCreated.t => exact (λ bs, if bool_decide (bs = [1]) then Some demo_bucket_created else None)
  | |- Bcs VaultCreated.t => exact (λ bs, if bool_decide (bs = [2]) then Some demo_vault_created else None)
  | |- Bcs VaultDeposit.t => exact (λ bs, if bool_decide (bs = [3]) then Some (demo_vault_deposit 50) else None)
  | |- Bcs VaultConfigApplied.t => exact (λ bs, if bool_decide (bs = [4]) then Some demo_config_applied else None)
  | |- Bcs RawDeepBookPoolCreated.t => exact (λ bs, if bool_decide (bs = [5]) then Some demo_pool else None)
  | |- _ => exact (λ _, None)
  end.
Defined.

Lemma demo_id n : 0 ≤ n < 256 → id_wf (demo_addr n).
Proof. intros Hn. split; [apply length_replicate|]. apply Forall_forall. intros b Hb. apply elem_of_replicate in Hb as [-> _]. lia. Qed.

#[export] Instance demo_bcs_spec : BcsCrateSpec.
Proof.
  constructor; intros bs x; unfold bcs_from_bytes; cbn; try done; case_bool_decide; intros E; simplify_eq;
    red; cbn; split_and!; try done; try (apply demo_id; lia).
Qed.

(** * A deployment *)

Definition demo_packages : PackageIds.t := PackageIds.mk (str "0xc") (Some (str "0xa")) None (Some (str "0xe"))
  (Some (str "0xf")) None None None None None None.
Definition demo_types : EventTypes.t := for_packages demo_packages (Some (str "0xd")).

Lemma demo_packages_ok : packages_ok demo_packages.
Proof.
  split.
  - intros [] id E; cbn in E; simplify_eq; (split; apply (bool_decide_unpack _); vm_compute; exact I).
  - intros [] [] id E1 E2; cbn in E1, E2; simplify_eq; done.
Qed.

(** * Two checkpoints *)

Definition demo_tx (digest : Z) (events : list (rstring * list Z)) : Transaction := Build_Transaction [digest] (Some events).

Definition demo_first : Checkpoint := Build_Checkpoint 5 1000 [
  demo_tx 1 [(str "0xc::events::BucketCreated", [1]); (str "0x9::other::Event", [1]); (str "0xc::events::BucketCreated", [99])];
  demo_tx 2 [(str "0xd::pool::PoolCreated<0x3::call::CALL, 0x2::usdc::USDC>", [5]); (str "0xe::events::VaultCreated", [2])]
].
Definition demo_second : Checkpoint := Build_Checkpoint 6 2000 [
  demo_tx 3 [(str "0xe::events::VaultDeposit", [3]); (str "0xe::events::VaultConfigApplied", [4])]
].

Example demo_decoded : (λ e, (event_type_tag e.1.1, e.1.2, e.2)) <$>
    decode_checkpoint demo_types Inner_default (cp_transactions demo_first)
  = [(str "BucketCreated", [1], 0); (str "DeepBookPoolCreated", [2], 0); (str "VaultCreated", [2], 1)].
Proof. vm_compute. reflexivity. Qed.

Ltac follows_demo :=
  split; [vm_compute; done|vm_compute; done|vm_compute; done|apply (bool_decide_unpack _); vm_compute; exact I
         |apply (bool_decide_unpack _); vm_compute; exact I|vm_compute; done|apply (bool_decide_unpack _); vm_compute; exact I].

Lemma demo_first_follows : follows demo_types [] demo_first.
Proof. follows_demo. Qed.

Lemma demo_second_follows : follows demo_types [demo_first] demo_second.
Proof. follows_demo. Qed.

Definition run_checkpoint (up : bool) (c : Checkpoint) (w : Inner.t * Database.t) : Inner.t * Database.t :=
  (process_checkpoint demo_types up (cp_sequence c) (cp_timestamp_ms c) (cp_transactions c) w).1.

(** A write that fails, of a checkpoint that was processed. *)
Lemma demo_failed w c :
  untried demo_types w → w_failed w = None → follows demo_types (w_past w) c →
  ∃ w', step demo_types w w' ∧ w_past w' = w_past w ∧ w_db w' = w_db w ∧ w_failed w' = Some c ∧ w_retried w' = retrying w ∧
        w_store w' = (run_checkpoint false c (w_store w, w_db w)).1.
Proof.
  intros (s0 & Hinv & Hs) Hf Hc. rewrite Hf in Hs.
  destruct (process_checkpoint demo_types false (cp_sequence c) (cp_timestamp_ms c) (cp_transactions c) (w_store w, w_db w))
    as [[s' db'] [[]|e]] eqn:E.
  - exfalso. revert E. unfold process_checkpoint, persist. destruct (stage_batch _ _ _ _) as [? []]; discriminate.
  - pose proof (Failed demo_types w c false s' db' e Hc E) as Hstep.
    eexists. split; [exact Hstep|]. cbn [w_past w_db w_failed w_retried w_store]. rewrite <- Hs in Hinv.
    destruct (not_written demo_types _ c false s' db' e Hinv Hc E) as [_ ->]. split_and!; [done..|].
    unfold run_checkpoint. by rewrite E.
Qed.

(** A run that handles the first checkpoint and cannot write the second. *)
Lemma demo_failed_run : ∃ w, reachable demo_types w ∧ w_past w = [demo_first] ∧ w_failed w = Some demo_second ∧ w_retried w = false.
Proof.
  destruct (processed demo_types start demo_first None false (invariant_start _) demo_first_follows) as (s1 & db1 & E1 & _).
  cbn [w_store w_db w_past start app] in E1. set (w1 := Build_World s1 db1 [demo_first] None false).
  assert (R1 : reachable demo_types w1) by (apply rtc_once; exact (Processed demo_types start demo_first s1 db1 demo_first_follows E1)).
  destruct (demo_failed w1 demo_second (reachable_untried _ _ R1 eq_refl) eq_refl demo_second_follows)
    as (w2 & S2 & P2 & D2 & F2 & N2 & _).
  exists w2. split_and!; [|done..]. eapply rtc_r; [exact R1|exact S2].
Qed.

(** It restarts and handles the second. *)
Lemma demo_run : ∃ w, reachable demo_types w ∧ w_past w = [demo_first; demo_second] ∧ w_failed w = None ∧ w_retried w = false.
Proof.
  destruct demo_failed_run as (w2 & R2 & P2 & _ & N2). destruct (reachable_untried _ _ R2 N2) as (s2 & H2 & _).
  destruct (boot_consistent _ _ _ None 0 (inv_consistent _ _ H2)) as (s3 & E3 & _ & _). cbn [w_db w_past w_store] in E3.
  set (w3 := Build_World s3 (w_db w2) (w_past w2) None (w_retried w2)).
  assert (R3 : reachable demo_types w3) by (eapply rtc_r; [exact R2|exact (Restarted demo_types w2 None 0 s3 _ E3)]).
  assert (F3 : follows demo_types (w_past w3) demo_second) by (cbn; rewrite P2; exact demo_second_follows).
  destruct (processed demo_types w3 demo_second None false (reachable_invariant _ _ R3 N2 eq_refl) F3) as (s4 & db4 & E4 & _).
  eexists. split; [eapply rtc_r; [exact R3|exact (Processed demo_types w3 demo_second s4 db4 F3 E4)]|].
  unfold retrying. cbn. by rewrite P2, N2.
Qed.

Definition demo_after_first : Inner.t * Database.t := run_checkpoint true demo_first (Inner_default, Database.fresh).
Definition demo_after_second : Inner.t * Database.t := run_checkpoint true demo_second demo_after_first.

Definition vault_field {A} (f : VaultState.t → A) (s : Inner.t) : option A := f <$> Inner.vaults s !! demo_addr 20.

Definition booted (db : Database.t) : option Inner.t :=
  match boot db None 0 with Ok (s, _) => Some s | Err _ => None end.

(** A configuration that was applied is in the views, but not in the database: a
    restart goes back to that of the vault's creation. *)
Example applied_config_is_lost :
  vault_field VaultState.mgmt_fee_bps_annual demo_after_second.1 = Some (Some 300) ∧
  (booted demo_after_second.2 ≫= vault_field VaultState.mgmt_fee_bps_annual) = Some (Some 200).
Proof. vm_compute. done. Qed.

(** A write that fails and is tried again by the same process counts the
    deposits of the checkpoint twice. *)
Example retry_counts_twice :
  vault_field VaultState.pending_deposits demo_after_second.1 = Some 50 ∧
  vault_field VaultState.pending_deposits (run_checkpoint true demo_second (run_checkpoint false demo_second demo_after_first)).1
    = Some 100.
Proof. vm_compute. done. Qed.

(** The world after a checkpoint that is written, and after one that is not. *)
Definition on_checkpoint (up : bool) (c : Checkpoint) (w : World) : World :=
  let sdb := run_checkpoint up c (w_store w, w_db w) in
  {| w_store := sdb.1; w_db := sdb.2;
     w_past := if up then w_past w ++ [c] else w_past w;
     w_failed := if up then w_failed w else Some c;
     w_retried := retrying w |}.

Lemma on_checkpoint_step up c w :
  follows demo_types (w_past w) c →
  let r := (process_checkpoint demo_types up (cp_sequence c) (cp_timestamp_ms c) (cp_transactions c) (w_store w, w_db w)).2 in
  (if up then r = Ok () else ∃ e, r = Err e) →
  step demo_types w (on_checkpoint up c w).
Proof.
  intros Hc. unfold on_checkpoint, run_checkpoint.
  destruct (process_checkpoint _ _ _ _ _ _) as [[s' db'] r] eqn:E. cbn [fst snd]. destruct up.
  - intros ->. by eapply Processed.
  - intros [e ->]. by eapply Failed.
Qed.

(** The run of such a process: the views no longer are those of the chain. *)
Definition demo_retried : World :=
  on_checkpoint true demo_second (on_checkpoint false demo_second (on_checkpoint true demo_first start)).

Example retried_run_counts_twice :
  reachable demo_types demo_retried ∧ w_past demo_retried = [demo_first; demo_second] ∧ w_retried demo_retried = true ∧
  vault_field VaultState.pending_deposits (w_store demo_retried) = Some 100 ∧
  vault_field VaultState.pending_deposits (replay demo_types (w_past demo_retried)) = Some 50.
Proof.
  split; [|vm_compute; done]. unfold demo_retried.
  eapply rtc_r; [eapply rtc_r; [apply rtc_once|]|]; apply on_checkpoint_step;
    first [exact demo_first_follows|exact demo_second_follows|vm_compute; by eexists|vm_compute; reflexivity].
Qed.

(** With more than one worker a later checkpoint can be written first; a crash
    then leaves the earlier one out for good. *)
Example overtaken_checkpoint_is_skipped :
  (λ '(_, start), start) <$> (match boot (run_checkpoint true demo_second (Inner_default, Database.fresh)).2 None 0 with
                              | Ok r => Some r | Err _ => None end) = Some 7.
Proof. vm_compute. done. Qed.

(** A pool for the coin of a put bucket of the same checkpoint is dropped. *)
Definition demo_put_created : PutBucketCreated.t :=
  PutBucketCreated.mk (demo_addr 10) (str "0x2::btc::BTC") demo_usdc demo_call 1000 500 2.
Definition demo_partial : DeepBookPoolCreatedPartial.t :=
  DeepBookPoolCreatedPartial.mk (demo_addr 30) demo_call demo_usdc 10 5 10 1 1.

Example pool_of_new_put_is_dropped :
  is_Some (resolve_deepbook_pool Inner_default
    (Local.buckets (remember (ChainEvent.BucketCreated demo_bucket_created) Local.empty)) demo_partial) ∧
  resolve_deepbook_pool Inner_default
    (Local.buckets (remember (ChainEvent.PutBucketCreated demo_put_created) Local.empty)) demo_partial = None ∧
  is_Some (resolve_deepbook_pool (apply_event (ChainEvent.PutBucketCreated demo_put_created) 0 Inner_default) ∅ demo_partial).
Proof. split_and!; [by eexists|vm_compute; done|by eexists]. Qed.
