(* ===== verification/IndexerTheorems.v ===== *)
(** The properties of the indexer. *)

From stdpp Require Import relations.
From S2P Require Import Prelude RecordUpdate RustStr ExchangeTypes Demo Json Quote IndexerEvents IndexerTypes IndexerStore IndexerRows IndexerApply IndexerStage IndexerRepo IndexerWorker IndexerTable IndexerWf IndexerPersist IndexerHistory IndexerDemo.

Section theorems.
Context `{HexCrate, !HexCrateSpec, EventJson, !EventJsonSpec, BcsCrate, !BcsCrateSpec} (types : EventTypes.t).

(** C11: wherever a run of the indexer stands, failed writes and restarts
    included, as long as no process has handled a checkpoint again after a
    write that failed: its views are those that replaying the chain from its
    first event gives, the configuration of vaults aside, with the checkpoint
    on top that the process staged and could not write; booting again from the
    database succeeds, gives the views of the checkpoints written, and resumes
    after the last of them. *)
Theorem restart_restores_views w cfg tip :
  reachable types w → w_retried w = false →
  restored (w_store w) (replay types (w_past w ++ option_list (w_failed w))) ∧
  ∃ s0, boot (w_db w) cfg tip
        = Ok (s0, match last_seen (w_past w) with Some c => u64_add c 1 | None => default tip cfg end) ∧
    restored s0 (replay types (w_past w)).
Proof.
  intros Hw Hn. destruct (reachable_untried _ _ Hw Hn) as (s & [Hc Hr _ _ _] & ->). cbn [w_db w_past w_store] in *. split.
  - destruct (w_failed w); cbn [option_list]; [by apply staged_restored|by rewrite app_nil_r].
  - destruct (boot_consistent _ _ _ cfg tip Hc) as (s0 & E & _ & Hr0). exists s0. split; [done|]. by eapply restored_trans.
Qed.

(** C32: as long as no process has handled a checkpoint again after a write
    that failed, the log of a run holds every event of the checkpoints written
    exactly once, with its checkpoint, transaction and time, numbered from 1 in
    the order of the chain and without a gap. *)
Theorem log_numbers_every_event w :
  reachable types w → w_retried w = false →
  (∀ n c ts e, (n, (c, ts, e)) ∈ numbered 1 (chain_events types (w_past w)) →
     ∃ r, Database.indexed_events (w_db w) !! u64_as_i64 n = Some r ∧ logged c ts (n, e) r) ∧
  (∀ q r, Database.indexed_events (w_db w) !! q = Some r →
     ∃ n, 1 ≤ n ≤ Z.of_nat (length (chain_events types (w_past w))) ∧ q = u64_as_i64 n).
Proof.
  intros Hw Hr. destruct (reachable_untried _ _ Hw Hr) as (s & [Hc _ Hn Hl _] & _). cbn [w_db w_past w_store] in *.
  split; [done|]. intros q r Hq.
  destruct (consistent_log _ _ _ Hc q r Hq) as [(n & Hrange & -> & _) _]. exists n. split; [lia|done].
Qed.

(** C27: in every reachable state with no failed write behind the process, the
    next checkpoint of the chain is decoded, staged and written: nothing is
    refused by a constraint of the database, and the run goes on. *)
Theorem next_checkpoint_is_processed w c :
  reachable types w → w_retried w = false → w_failed w = None → follows types (w_past w) c →
  ∃ s' db', process_checkpoint types true (cp_sequence c) (cp_timestamp_ms c) (cp_transactions c) (w_store w, w_db w)
      = ((s', db'), Ok ()) ∧
    reachable types
      {| w_store := s'; w_db := db'; w_past := w_past w ++ [c]; w_failed := None; w_retried := false |}.
Proof.
  intros Hw Hn Hf Hc.
  destruct (processed types w c None false (reachable_invariant _ _ Hw Hn Hf) Hc) as (s' & db' & E & _).
  exists s', db'. split; [done|]. eapply rtc_r; [exact Hw|].
  pose proof (Processed types w c s' db' Hc E) as Hs. unfold retrying in Hs. by rewrite Hn, Hf in Hs.
Qed.

(** C24: the events of the last checkpoint, staged and written once more, are
    refused by the foreign key of the participants as soon as one of them has a
    participant; the database stays as it was, and the views have taken the
    events a second time. *)
Theorem replayed_checkpoint_is_refused w past c e a role :
  reachable types w → w_retried w = false → w_failed w = None → w_past w = past ++ [c] →
  let evs := decode_checkpoint types (replay types past) (cp_transactions c) in
  e ∈ evs → (∀ s, (a, role) ∈ participants s e.1.1) →
  Inner.next_sequence (w_store w) + Z.of_nat (length evs) ≤ u64_max →
  persist true (cp_sequence c) (cp_timestamp_ms c) evs (w_store w, w_db w)
  = ((ingest_all (cp_timestamp_ms c) evs (w_store w), w_db w),
     Err (Persisting (ForeignKeyViolation (str "event_participants")))).
Proof.
  intros Hr Hn Hf Hpast evs He Hrole Hfits. pose proof (reachable_invariant _ _ Hr Hn Hf) as Hw.
  destruct (past_in_log types w past c Hw Hpast) as [Hlog Hwf].
  by eapply rerun_refused; [apply Hw|..].
Qed.

(** An event of a package that is deployed is decoded by the decoder of its
    struct and by no other; a type that is no subscription is left alone. *)
Theorem dispatch_subscribed pkgs deepbook :
  packages_ok pkgs →
  (∀ sub id contents, sub ∈ subscriptions → package_id pkgs (sub_package sub) = Some id →
     dispatch (for_packages pkgs deepbook) (move_type id (str (sub_module sub)) (str (sub_struct sub))) contents
     = sub_decode sub contents) ∧
  (∀ type_str contents, (∀ sub, sub ∈ subscriptions → type_str ≠ sub_type pkgs sub) →
     dispatch (for_packages pkgs deepbook) type_str contents = Ok None).
Proof.
  intros Hok. split.
  - intros sub id contents Hin Hid. rewrite dispatch_branches, branches_subscriptions.
    replace (move_type _ _ _) with (sub_type pkgs sub) by (unfold sub_type; by rewrite Hid).
    apply first_branch_found; [done|]. intros sub' Hin'. by eapply sub_type_inj.
  - intros type_str contents Hne. rewrite dispatch_branches, branches_subscriptions. by apply first_branch_none.
Qed.
End theorems.

Lemma restart_restores_views_witness :
  ∃ w s0, reachable demo_types w ∧ w_past w = [demo_first] ∧
    VaultState.pending_deposits <$> Inner.vaults (w_store w) !! demo_addr 20 = Some 50 ∧
    boot (w_db w) None 0 = Ok (s0, 6) ∧ restored s0 (replay demo_types [demo_first]) ∧
    VaultState.pending_deposits <$> Inner.vaults s0 !! demo_addr 20 = Some 0 ∧
    is_Some (Inner.deepbook_pools s0 !! demo_addr 10).
Proof.
  destruct demo_failed_run as (w & Hw & Hp & Hf & Hn).
  destruct (restart_restores_views demo_types w None 0 Hw Hn) as [Hs (s0 & E & Hr)].
  rewrite Hp in E, Hr, Hs. rewrite Hf in Hs. exists w, s0.
  assert (Hdep : ∀ s past n, restored s (replay demo_types past) →
    VaultState.pending_deposits <$> Inner.vaults (replay demo_types past) !! demo_addr 20 = Some n →
    VaultState.pending_deposits <$> Inner.vaults s !! demo_addr 20 = Some n).
  { intros s past n Hrs Hv. pose proof (restored_vaults _ _ Hrs (demo_addr 20)) as Hsim. revert Hv.
    destruct Hsim as [v0 v Hv|]; [|done].
    unfold same_but_config in Hv. destruct_and?. cbn [fmap option_fmap option_map]. congruence. }
  split_and!; [done..| |done|done| |].
  - apply (Hdep _ _ _ Hs). vm_compute. reflexivity.
  - apply (Hdep _ _ _ Hr). vm_compute. reflexivity.
  - rewrite (restored_pools _ _ Hr). vm_compute. by eexists.
Defined.

Lemma log_numbers_every_event_witness :
  ∃ w r, reachable demo_types w ∧ w_past w = [demo_first; demo_second] ∧
    Database.indexed_events (w_db w) !! 4 = Some r ∧ NewIndexedEventRow.event_type r = str "VaultDeposit" ∧
    NewIndexedEventRow.checkpoint r = 6.
Proof.
  destruct demo_run as (w & Hw & Hp & _ & Hn). destruct (log_numbers_every_event demo_types w Hw Hn) as [Hl _].
  destruct (Hl 4 6 2000 (ChainEvent.VaultDeposit (demo_vault_deposit 50), [3], 0)) as (r & Hr & Hlog).
  - rewrite Hp. apply list_elem_of_lookup. exists 3%nat. vm_compute. reflexivity.
  - exists w, r. split_and!; [done..| |]; unfold logged, new_event_row, ok_or, event_to_value, demo_json in Hlog; cbn in Hlog;
      injection Hlog as <-; done.
Defined.

Lemma next_checkpoint_is_processed_witness :
  ∃ s db, process_checkpoint demo_types true 5 1000 (cp_transactions demo_first) (Inner_default, Database.fresh) = ((s, db), Ok ()) ∧
    reachable demo_types {| w_store := s; w_db := db; w_past := [demo_first]; w_failed := None; w_retried := false |}.
Proof. exact (next_checkpoint_is_processed demo_types start demo_first (rtc_refl _ _) eq_refl eq_refl demo_first_follows). Defined.

Lemma replayed_checkpoint_is_refused_witness :
  ∃ w s, reachable demo_types w ∧ w_past w = [demo_first; demo_second] ∧
    persist true 6 2000 (decode_checkpoint demo_types (replay demo_types [demo_first]) (cp_transactions demo_second)) (w_store w, w_db w)
    = ((s, w_db w), Err (Persisting (ForeignKeyViolation (str "event_participants")))).
Proof.
  destruct demo_run as (w & Hw & Hp & Hf & Hn). exists w. eexists. split_and!; [done..|].
  apply (replayed_checkpoint_is_refused demo_types w [demo_first] demo_second
    (ChainEvent.VaultDeposit (demo_vault_deposit 50), [3], 0) (to_hex (demo_addr 21)) (str "depositor") Hw Hn Hf Hp).
  - apply list_elem_of_lookup. exists 0%nat. vm_compute. reflexivity.
  - intros s. by left.
  - destruct (reachable_invariant _ _ Hw Hn Hf) as [_ Hr _ _ _]. rewrite (restored_next _ _ Hr), Hp. vm_compute. discriminate.
Defined.

Lemma dispatch_subscribed_witness :
  dispatch demo_types (str "0xe::events::VaultDeposit") [3] = Ok (Some (ChainEvent.VaultDeposit (demo_vault_deposit 50))).
Proof.
  exact (proj1 (dispatch_subscribed demo_packages (Some (str "0xd")) demo_packages_ok)
    (Build_Subscription Vault "events" "VaultDeposit" (decode ChainEvent.VaultDeposit "VaultDeposit"%string)) (str "0xe") [3]
    ltac:(apply list_elem_of_lookup; exists 25%nat; reflexivity) eq_refl).
Defined.
